(* ===== verification/_CoqProject ===== *)
-Q . S2P
Prelude.v
Lists.v
GoStrings.v
Shapes.v
Changes.v
Blob.v
Database.v
Tx.v
Mailboxes.v
Messages.v
Query.v
KernelInv.v
KernelFlags.v
Kernel.v
KernelTx.v
KernelDemo.v
KernelSpec.v
MessageSpec.v
Queue.v
QueueAdmin.v
QueueSteps.v
QueueSpec.v
EmailChanges.v
Strconv.v
Json.v
Notify.v
NotifySpec.v
QuerySpec.v
EmailQuery.v
EmailQuerySpec.v
Reputation.v
ReputationSpec.v
Verp.v
IpRouter.v
IpRouterSpec.v
Headers.v
Net.v
Smtp.v
Inbound.v
InboundSpec.v
Submit.v
Base64.v
Receive.v
Smtpd.v
SmtpdSpec.v
Textproto.v
AutoReplyChain.v
ChainSpec.v
RuleMetadata.v
GatewayAssert.v
OutboundPolicy.v
RuleSpec.v
MailRules.v
Compose.v
RuleStore.v
RuleProcess.v
RuleProcessSpec.v
ForwardSpec.v
Auth.v
Identity.v
Directory.v
AgentAuth.v
Gateway.v
IdentityInv.v
IdentitySteps.v
AccessSpec.v
DirectorySpec.v
Claims.v
SendDraft.v
ClaimsSpec.v
WebParts.v
WebDrafts.v
WebDraftsSpec.v
WebSend.v
WebSendSpec.v
WebAuth.v
S3.v
Gc.v
Leader.v
LeaderSpec.v
