(* ===== verification/Prelude.v ===== *)
(** * octo-mail: a verification library for the mail kernel

    octo-mail is a mail server whose state is a set of PostgreSQL tables and a
    blob store.  All writes of an account go through one kernel
    ([storage/postgres]) that appends every change to a per-account log in the
    transaction that makes it; protocol servers, notification, projections and
    the outbound queue are clients of that kernel.  This library is a shallow
    embedding of the kernel and of the parts around it that carry state, as
    executable definitions, with the theorems that make them correct.

    ** How the program is modelled

    A table is a finite map from its primary key, a SQL statement is a function
    on the tables that checks the constraints the schema declares, a Go function
    that returns an error returns [result], and a method on a transaction is a
    computation of the state-and-error monad [stM] defined below: like a Go
    function with a pointer receiver it leaves the state it reached when it
    fails, and it is [Tx] that discards it.  Go [int64] arithmetic wraps ([i64]);
    a [bigint], [integer] or [uint32] column or conversion is range-checked or
    reduced where the code does so.  Text is bytes, decoded as Go decodes UTF-8.
    The clock, random jitter, deliveries, SHA-256, which rows other transactions
    have locked and what other sessions do between two statements are
    parameters.  Concurrency is a step relation whose steps are what PostgreSQL
    or a mutex makes atomic: a transaction, a statement, a call under the lock.

    ** The files

    - [Prelude]: integers, errors, the monad with its notations, tactics, the
      hint database [octo], sums over tables, the reasoning principle [wp].
    - [GoStrings], [Strconv]: bytes, UTF-8, the [strings] and [strconv]
      functions used, [core/addr/addr.go]; float64 on the Standard Library's
      rounded binary64 operations.
    - [Lists]: permutations and slices of sorted lists.
    - [Shapes], [Changes]: [core/store/shapes.go], [core/store/change.go] and the
      JSON codec of [storage/postgres/changelog.go].
    - [Blob]: [storage/blob/blob.go].  [BlobOps] is the interface, [BlobLaws]
      what it promises to the kernel; the file-system store satisfies it.  [S3]:
      [storage/blob/s3.go], the store over an object service ([S3Service], with the laws
      [S3Laws]): names, signatures, retries, and readers that stream.
    - [Database], [Tx]: the tables, and [storage/postgres/account.go] and
      [replay.go]: [Tx], [ReadTx], [nextModSeq], [record], [flush], replay.
    - [Mailboxes], [Messages]: [mailbox.go], [annotation.go], [message.go] and
      the row operations of [tx.go].
    - [KernelInv], [KernelFlags], [Kernel], [KernelTx]: the operations a
      protocol server calls ([op]), the structure of a database ([db_struct]) and
      its well-formedness, counters included ([db_wf]), their preservation by every
      operation, isolation of accounts, and the log positions and modseqs every
      operation spends.
    - [KernelDemo]: a concrete store for witnesses.
    - [KernelSpec], [MessageSpec]: the theorems about the kernel.
    - [Queue], [QueueAdmin]: [mailflow/queue/queue.go] and [admin.go];
      [QueueSteps]: the system of workers and administrators, its
      invariant; [QueueSpec]: the theorems.
    - [EmailChanges]: [email_changes.go].
    - [Notify], [NotifySpec]: the subscribers of [store.go], [coordinator.go] and
      [core/store/comm.go].
    - [Claims], [SendDraft], [ClaimsSpec]: [draft_send_claims.go],
      [agent_send_intents.go], [agent_outbound_drafts.go],
      [outbound_policy_drafts.go], and the protocol of [sendDraft]
      ([protocol/webapi/drafts.go]) over the first of them.
    - [Json]: JSON text as [encoding/json] writes and reads it; [OutboundPolicy]:
      [mailflow/outboundpolicy/policy.go]; [GatewayAssert]:
      [security/gatewayassert/assertion.go], both over [Json].
    - [Compose]: [protocol/webapi/compose.go] and [stripRFCHeader]; [WebDrafts],
      [WebDraftsSpec]: the transactions of the web API on messages and drafts
      ([drafts.go], [agent_drafts.go], [outbound_policy.go], [outbound.go],
      [messages.go] of [protocol/webapi]), each over the kernel and the tables of
      [Claims].  [WebParts]: what the web API reads of a parsed message ([messages.go],
      [attachments.go], the intent of a draft, [core/mailcontent/charset.go]).
      [WebSend], [WebSendSpec]: the handlers that send, over all of these and [Submit];
      [WebAuth]: [webapi.go] and [confirmation.go], from an HTTP request's credential,
      checked against [Identity]'s tables, to those handlers.
    - [Gc]: [gc.go].
    - [Leader], [LeaderSpec]: [ops/ha/ha.go] and [ops/ha/coordinator.go].
    - [Query], [QuerySpec]: the query builder of [storage/postgres/tx.go];
      [EmailQuery], [EmailQuerySpec]: Email/query of [protocol/jmapd/mail.go].
    - [Reputation], [Verp], [IpRouter] with [ReputationSpec] and [IpRouterSpec]: [deliverability.go],
      [fbl.go] and [iprouter.go] of [mailflow/deliverability].
    - [Headers], [Inbound], [InboundSpec]: the header scanners and the
      decision of [mailflow/inbound]; [Net], [Smtp]: addresses of the network and
      of mail, the syntax of SMTP commands.
    - [Submit]: [mailflow/submit/submit.go], the vacation responder of
      [mailflow/autoreply/autoreply.go] and its table ([storage/postgres/vacation.go]).
    - [Base64], [Receive], [Smtpd], [SmtpdSpec]: [protocol/smtpd/server.go], from the bytes of a connection
      to the kernel ([Receive] calls [Inbound], [Tx] and, after a delivery, the
      vacation responder and the mail rules it is configured with; [Smtpd] calls
      [Receive] and [Submit]).
    - [Textproto]: headers and multipart bodies of Go's standard library, and lemmas on
      texts.
    - [AutoReplyChain], [ChainSpec]: [mailflow/autoreplychain/chain.go].
    - [RuleMetadata], [RuleSpec]: [mailflow/rulemetadata/metadata.go]; [MailRules],
      [RuleProcess] with [ForwardSpec] and [RuleProcessSpec]:
      [mailflow/mailrules/processor.go], which signs with [RuleMetadata], submits with
      [Submit] and reads the tables of [RuleStore] ([storage/postgres/mail_rules.go]).
    - [Auth]: [security/auth/auth.go] and the tokens of API keys and agents.
      [Identity]: the tables of tenants, principals, accounts, addresses and agents;
      [Directory]: [storage/postgres/directory.go]; [AgentAuth]:
      [agent_authorization.go]; [Gateway]: [gateway_provisioning.go],
      [gateway_identity.go] and the provisioning handlers of
      [ops/webadmin/webadmin.go].  [IdentityInv]: their invariant and what is never
      taken back, per statement; [IdentitySteps]: histories of requests,
      what a request leaves alone, a concrete history; [AccessSpec],
      [DirectorySpec]: the theorems.

    A definition has the name of the Go function it models; a table of a record
    type carries the prefix of the record's fields ([m_], [mb_], [r_], ...).

    ** What the theorems show

    - Kernel: over any committed and failed transactions of any accounts the
      database keeps its structure (keys, UIDs, log positions below the head),
      whatever rows the calls are given; where the rows passed to [Update] and
      [MessageRemove] are the ones read in the same transaction ([op_pre]) the
      counters and quotas agree with the message rows too.  Email/set of
      [protocol/jmapd/mail.go] can pass a row it has already changed, and
      [stale_remove_drifts] is that run.  A replay of the log from
      an old head yields exactly the changes published since; a commit appends
      what it publishes and touches no other account, as long as it is given
      rows of its own, stale or not ([op_own]); what it changes carries a
      modseq above the old head; UIDs are not reused;
      quotas are hard limits; a delivered body reads back.
    - Log clients: Email/changes misses nothing and makes nothing up, against a
      reading of the log of its own ([mentions], [lives]); whatever a
      subscriber is sent is a run of its account's log, whenever and in whatever order
      commits are published, and it is the log once and in order in the runs where a
      publication finds its subscribers caught up ([nreach] with [prompt]); the
      examples after these theorems show what happens in the others.
    - Queue: one live lease per message, one terminal fact per message, fencing
      of stale workers, retry budget and backoff.
    - Claims and drafts: a draft is submitted at most once over any interleaving
      of requests, crashes and retries; versioned replacement loses no update.
    - Web API: every transaction is a run of kernel operations whose preconditions hold
      (a request may run several), and messages and draft tables stay
      consistent; who may edit and delete a draft, under which
      version; what is held for review is held once per key; a composed message has the
      headers it was given and no others, and without Bcc no trace of blind recipients; an
      assertion is good for the request it was signed for, and for one only.
    - Sending: nothing an agent sends escapes the outbound policy, nor the mode of its
      binding; what is answered with "accepted" is queued for every recipient; an
      idempotency key is submitted at most once, and the handlers run as steps of the
      model that shows it; the attachments listed are those of the message, and each can
      be fetched unless it is nested too deep.
    - Collection: only expunged rows go, no body in use is deleted, every other
      is - for runs with no concurrent writer of the same content; [gc_race] is
      the run with one.
    - Object storage: the S3 store refines the file-system store whatever the service
      refuses, fails or loses, and equals it on a service that answers within the attempts;
      what it signs is what it requests.
    - Queries: a query returns rows of its own account; the total and the pages of
      Email/query agree with the distinct groups of folded and live messages.
    - Deliverability: one tenant's record never touches another's; return paths
      are attributed only when signed; source addresses stay within their caps.
    - Inbound: unauthenticated mail gains nothing from the history of the domain
      it claims, of its reputation or of its greylisting; greylisting refines a specification over histories of attempts;
      the reply after the data tells exactly which deliveries are committed.
    - SMTP sessions, over any bytes a client sends: what enters the queue is
      authorised, or was submitted by the vacation responder or the mail rules for an
      account the session delivered to (the law [adding_hooks], which [Respond_adds]
      and [Process_rows] prove of the two); a transaction stays owned, of one kind
      and bounded, and the session ends with its input.
    - Automatic replies and forwards: a sender gets one vacation reply a day;
      what is signed verifies and nothing else does;
      conversations of replies and chains of forwards end; a rule forwards an email
      at most once whatever crashes, and its record tells the truth; stored rules stay
      within bounds and belong to their owner.
    - Identity, over any history of requests: references stay inside a tenant and what an
      authentication opens belongs to it; an agent's access has the approval of the
      mailbox's owner, is exchanged once and ends with its revocation; the number of an
      owner's mailboxes is limited; provisioning is idempotent and assertions are not
      replayed; passwords and keys verify.
    - Leadership: one leader per server and key, fencing by the last claim of
      the lease, alternation of the coordinator's callbacks.

    ** Bounds and fuel

    The functions with fuel: [segs_fuel] and [count_received] have the length of
    the byte string, and every step consumes a byte; [digits] has 20, and an int64
    has 19 decimal digits; the batches of [EmailChanges] have [head - since + 1],
    and every batch moves the position forward ([email_scan_terminates]: more fuel
    changes nothing); [Serve] takes the number of commands, and
    as many as there are bytes to read are enough ([serve_ends]); [read_fields] and
    [continuations] have the length of the input and every step consumes a byte;
    the JSON reader has twice the length of the text plus two, and every call reads a
    byte or returns ([Decode_fuel]); [base64_lines] has the length of the text and takes 76 bytes a step; [base32_bits]
    has the number of bits and takes five a step; [attempts] has [maxAttempts]; [read_all]
    makes one call of [Read] for each element of its list, and one more than the bytes
    of the object are enough.  Theorems about
    transactions assume that the log head has room for the positions a body spends
    ([op_positions] per operation) below 2^63.

    ** What is not modelled

    PostgreSQL itself (the isolation its locks and snapshots give is the
    granularity of the steps), network and file errors beyond the error results
    above, a commit of [Tx] whose acknowledgement is lost, URLAuth keys, the outgoing SMTP client and its bounces, the
    protocol servers apart from SMTP, Email/query and the web API's requests that write or
    send mail, and start-up, configuration, metrics and the web interface.  SPF, DKIM, DMARC and DNSBL
    checks, argon2id, SCRAM, TLS and the dot-unstuffing reader are third-party parameters.
    The unlock of a resigning leader, which is best effort, reaches the server while the
    connection is open.  A call of [publish] or [onRemoteChange] is one step, though the
    code holds its lock only while it copies the list of subscribers.  [Smtpd] takes the directory as an interface of its own; the limiter of failed logins is
    a parameter of [WebAuth].
    Parsing MIME and address fields, case folding, SHA-256 with its HMAC and, for [S3], URLs
    and the XML of an error are parameters as well. *)

From Stdlib Require Export Ascii String ZArith Lia.
From stdpp Require Export base gmap strings list fin_maps fin_sets sorting.
#[global] Open Scope Z_scope.

(** ** Machine integers *)

Definition max_int64 : Z := 2 ^ 63 - 1.
Definition min_int64 : Z := - 2 ^ 63.

(** A Go [int64] operation wraps around: the result is reduced to the signed
    64-bit range. *)
Definition i64 (z : Z) : Z := (z + 2 ^ 63) `mod` 2 ^ 64 - 2 ^ 63.

(** A Go [uint32] conversion keeps the low 32 bits. *)
Definition u32 (z : Z) : Z := z `mod` 2 ^ 32.

Definition is_i64 (z : Z) : bool := (min_int64 <=? z) && (z <=? max_int64).
#[global] Arguments is_i64 : simpl never.

(** ** Errors and the state-and-error monad *)

(** The error values the modelled packages return or compare against. *)
Inductive err : Type :=
| errNotFound
| errUnknownChange
| ErrOverQuota
| ErrCannotCalculateEmailChanges
| ErrNoRows
| ErrFenced
| ErrBlobNotFound
| ErrBadRef
| ErrNoSourceIP
| ErrLimitReached
| ErrExternalAutomatedReply
| ErrUniqueViolation
| ErrForeignKey
| ErrCheckViolation
| ErrNotNull
| ErrOutOfRange
| ErrReadOnlyTx
| ErrDecode
| ErrText (msg : string).

#[export] Instance err_eq_dec : EqDecision err.
Proof. solve_decision. Defined.

Inductive result (A : Type) : Type :=
| Ok (a : A)
| Err (e : err).
Arguments Ok {A} a.
Arguments Err {A} e.

(** A computation over a state [S]: like a Go function with a pointer
    receiver, it leaves the state it reached even when it returns an error. *)
Definition stM (S A : Type) : Type := S -> result A * S.

Definition mret_st {S A} (a : A) : stM S A := fun s => (Ok a, s).
Definition merr_st {S A} (e : err) : stM S A := fun s => (Err e, s).
Definition mbind_st {S A B} (m : stM S A) (k : A -> stM S B) : stM S B :=
  fun s => match m s with
           | (Ok a, s') => k a s'
           | (Err e, s') => (Err e, s')
           end.
Definition mget {S} : stM S S := fun s => (Ok s, s).
Definition mput {S} (s' : S) : stM S unit := fun _ => (Ok tt, s').
Definition mmodify {S} (f : S -> S) : stM S unit := fun s => (Ok tt, f s).
Definition mguard {S} (b : bool) (e : err) : stM S unit :=
  if b then mret_st tt else merr_st e.

Definition rbind {A B} (m : result A) (k : A -> result B) : result B :=
  match m with Ok a => k a | Err e => Err e end.

Declare Scope go_scope.
Delimit Scope go_scope with go.
Notation "'let!' x ':=' m 'in' k" := (mbind_st m (fun x => k))
  (at level 10, x name, m at level 100, k at level 200) : go_scope.
Notation "'let!' ' p ':=' m 'in' k" := (mbind_st m (fun p => k))
  (at level 10, p strict pattern, m at level 100, k at level 200) : go_scope.
Notation "'do!' m ; k" := (mbind_st m (fun _ => k))
  (at level 10, m at level 100, k at level 200) : go_scope.
Notation "'try!' x ':=' m 'in' k" := (rbind m (fun x => k))
  (at level 10, x name, m at level 100, k at level 200) : go_scope.

(** A loop over a list, threading the state and stopping at the first error. *)
Fixpoint miter {S A} (f : A -> stM S unit) (l : list A) : stM S unit :=
  match l with
  | [] => mret_st tt
  | x :: l => mbind_st (f x) (fun _ => miter f l)
  end.

(** [preserves P m]: running [m] from a state satisfying [P] ends in one,
    whether [m] succeeds or returns an error. *)
Definition preserves {S A} (P : S -> Prop) (m : stM S A) : Prop :=
  forall s, P s -> P (snd (m s)).

(** [agg f t] is SQL's [SELECT sum(f(row)) FROM t]. *)
Definition agg {V} (f : V -> Z) (t : gmap Z V) : Z :=
  map_fold (fun _ v acc => f v + acc) 0 t.

(** ** Lemmas: machine integers *)

Lemma i64_id z : is_i64 z = true -> i64 z = z.
Proof.
  unfold is_i64, i64, min_int64, max_int64. intros [H1 H2]%andb_prop.
  apply Z.leb_le in H1, H2. rewrite Z.mod_small; lia.
Qed.

Lemma i64_small z : 0 <= z <= max_int64 -> i64 z = z.
Proof.
  intros H. apply i64_id. unfold is_i64, min_int64. apply andb_true_intro.
  split; apply Z.leb_le; [|apply H]. lia.
Qed.

Lemma i64_range z : min_int64 <= i64 z <= max_int64.
Proof.
  unfold i64, min_int64, max_int64.
  pose proof (Z.mod_pos_bound (z + 2 ^ 63) (2 ^ 64) ltac:(lia)). lia.
Qed.

Lemma u32_range z : 0 <= u32 z < 2 ^ 32.
Proof. unfold u32. apply Z.mod_pos_bound. lia. Qed.

Lemma u32_small z : 0 <= z < 2 ^ 32 -> u32 z = z.
Proof. intros H. unfold u32. by rewrite Z.mod_small. Qed.

(** ** Lemmas: the monad *)

Lemma preserves_bind {S A B} (P : S -> Prop) (m : stM S A) (k : A -> stM S B) :
  preserves P m -> (forall a, preserves P (k a)) -> preserves P (mbind_st m k).
Proof.
  intros Hm Hk s Hs. unfold mbind_st. specialize (Hm s Hs).
  destruct (m s) as [[a|e] s'] eqn:E; simpl in *; [by apply Hk | done].
Qed.

Lemma preserves_ret {S A} (P : S -> Prop) (a : A) : preserves P (mret_st a).
Proof. by intros s Hs. Qed.

Lemma preserves_err {S A} (P : S -> Prop) e : preserves P (@merr_st S A e).
Proof. by intros s Hs. Qed.

Lemma preserves_get {S} (P : S -> Prop) : preserves P mget.
Proof. by intros s Hs. Qed.

Lemma preserves_guard {S} (P : S -> Prop) b e : preserves P (mguard b e).
Proof. by destruct b; intros s Hs. Qed.

Lemma preserves_iter {S A} (P : S -> Prop) (f : A -> stM S unit) l :
  (forall x, x ∈ l -> preserves P (f x)) -> preserves P (miter f l).
Proof.
  induction l as [|x l IH]; intros H; simpl; [apply preserves_ret|].
  apply preserves_bind; [apply H; set_solver|]. intros []. apply IH. set_solver.
Qed.

Create HintDb octo discriminated.
#[export] Hint Resolve preserves_bind preserves_ret preserves_err preserves_get
  preserves_guard preserves_iter : octo.

(** ** Tactics *)

(** Case on the innermost [match] scrutinee of the goal, keeping the equation. *)
Ltac case_goal :=
  match goal with
  | |- context [ match ?e with _ => _ end ] =>
      lazymatch e with
      | context [ match _ with _ => _ end ] => fail
      | _ => destruct e eqn:?
      end
  end.

(** The same in a hypothesis. *)
Ltac case_hyp H :=
  match type of H with
  | context [ match ?e with _ => _ end ] =>
      lazymatch e with
      | context [ match _ with _ => _ end ] => fail
      | _ => destruct e eqn:?
      end
  end.

(** Turn boolean tests on integers into propositions everywhere. *)
Ltac b2p :=
  repeat match goal with
  | H : (_ && _)%bool = true |- _ => apply andb_prop in H as [? ?]
  | H : (_ || _)%bool = false |- _ => apply orb_false_elim in H as [? ?]
  | H : negb _ = true |- _ => apply negb_true_iff in H
  | H : negb _ = false |- _ => apply negb_false_iff in H
  | H : (_ =? _) = true |- _ => apply Z.eqb_eq in H
  | H : (_ =? _) = false |- _ => apply Z.eqb_neq in H
  | H : (_ <=? _) = true |- _ => apply Z.leb_le in H
  | H : (_ <=? _) = false |- _ => apply Z.leb_gt in H
  | H : (_ <? _) = true |- _ => apply Z.ltb_lt in H
  | H : (_ <? _) = false |- _ => apply Z.ltb_ge in H
  | H : bool_decide _ = true |- _ => apply bool_decide_eq_true in H
  | H : bool_decide _ = false |- _ => apply bool_decide_eq_false in H
  end.

(** Run one step of the state monad in hypothesis [H]. *)
Ltac mstep H := unfold mbind_st at 1 in H; cbn beta iota zeta in H.

(** ** Aggregates over tables *)

Lemma agg_empty {V} (f : V -> Z) : agg f ∅ = 0.
Proof. apply map_fold_empty. Qed.

Lemma agg_insert {V} (f : V -> Z) t k v :
  t !! k = None -> agg f (<[k:=v]> t) = f v + agg f t.
Proof.
  intros H. unfold agg. rewrite map_fold_insert_L; [done| |done].
  intros. lia.
Qed.

Lemma agg_delete {V} (f : V -> Z) t k v :
  t !! k = Some v -> agg f t = f v + agg f (delete k t).
Proof.
  intros H. rewrite <- (insert_delete_id t k v H) at 1.
  apply agg_insert. apply lookup_delete_eq.
Qed.

Lemma agg_update {V} (f : V -> Z) t k v w :
  t !! k = Some v -> agg f (<[k:=w]> t) = agg f t - f v + f w.
Proof.
  intros H. rewrite <- insert_delete_eq, agg_insert by apply lookup_delete_eq.
  rewrite (agg_delete f t k v H). lia.
Qed.

Lemma agg_ext {V} (f g : V -> Z) t :
  (forall k v, t !! k = Some v -> f v = g v) -> agg f t = agg g t.
Proof.
  induction t as [|k v t Hk IH] using map_ind; intros H; [by rewrite !agg_empty|].
  rewrite !agg_insert by done. rewrite (H k v) by apply lookup_insert_eq.
  f_equal. apply IH. intros k' v' Hk'. apply (H k'). rewrite lookup_insert_ne; [done|].
  intros ->. congruence.
Qed.

Lemma agg_zero {V} (f : V -> Z) t :
  (forall k v, t !! k = Some v -> f v = 0) -> agg f t = 0.
Proof.
  induction t as [|k v t Hk IH] using map_ind; intros H; [by rewrite agg_empty|].
  rewrite agg_insert by done. rewrite (H k v) by apply lookup_insert_eq.
  rewrite IH; [done|]. intros k' v' Hk'. apply (H k'). rewrite lookup_insert_ne; [done|].
  intros ->. congruence.
Qed.

(** Rows that contribute nothing can go. *)
Lemma agg_filter {V} (f : V -> Z) (P : Z * V -> Prop) `{forall x, Decision (P x)} t :
  (forall k v, t !! k = Some v -> ~ P (k, v) -> f v = 0) -> agg f (filter P t) = agg f t.
Proof.
  induction t as [|k v t Hk IH] using map_ind; intros Hf; [by rewrite map_filter_empty|].
  assert (Hf' : forall k' v', t !! k' = Some v' -> ~ P (k', v') -> f v' = 0).
  { intros k' v' Hk'. apply Hf. rewrite lookup_insert_ne; [done|]. intros ->. congruence. }
  destruct (decide (P (k, v))) as [HP|HP].
  - rewrite map_filter_insert_True by done. rewrite !agg_insert; [by rewrite IH|done|].
    apply map_lookup_filter_None. by left.
  - rewrite map_filter_insert_False, delete_id by done. rewrite agg_insert by done.
    rewrite (Hf k v (lookup_insert_eq _ _ _) HP), IH by done. lia.
Qed.

(** ** Partial-correctness reasoning: [wp m s Q] holds when [m] run from [s]
    either fails or returns a value and a state satisfying [Q]. *)

Definition wp {S A} (m : stM S A) (s : S) (Q : A -> S -> Prop) : Prop :=
  match m s with
  | (Ok a, s') => Q a s'
  | (Err _, _) => True
  end.

Lemma wp_bind {S A B} (m : stM S A) (k : A -> stM S B) s Q :
  wp m s (fun a s' => wp (k a) s' Q) -> wp (mbind_st m k) s Q.
Proof. unfold wp, mbind_st. by destruct (m s) as [[a|e] s']. Qed.

Lemma wp_ret {S A} (a : A) (s : S) Q : Q a s -> wp (mret_st a) s Q.
Proof. done. Qed.

Lemma wp_err {S A} e (s : S) Q : wp (@merr_st S A e) s Q.
Proof. done. Qed.

Lemma wp_get {S} (s : S) Q : Q s s -> wp mget s Q.
Proof. done. Qed.

Lemma wp_guard {S} b e (s : S) Q : (b = true -> Q tt s) -> wp (mguard b e) s Q.
Proof. destruct b; unfold wp; simpl; auto. Qed.

Lemma wp_mono {S A} (m : stM S A) s (Q Q' : A -> S -> Prop) :
  wp m s Q -> (forall a s', Q a s' -> Q' a s') -> wp m s Q'.
Proof. unfold wp. destruct (m s) as [[a|e] s']; auto. Qed.

Lemma wp_and {S A} (m : stM S A) s (Q Q' : A -> S -> Prop) :
  wp m s Q -> wp m s Q' -> wp m s (fun a s' => Q a s' /\ Q' a s').
Proof. unfold wp. destruct (m s) as [[a|e] s']; auto. Qed.

Lemma wp_run {S A} (m : stM S A) s Q a s' :
  wp m s Q -> m s = (Ok a, s') -> Q a s'.
Proof. unfold wp. intros H E. by rewrite E in H. Qed.

Lemma wp_iter {S A} (I : list A -> S -> Prop) (f : A -> stM S unit) l s (Q : unit -> S -> Prop) :
  I l s ->
  (forall x l s, I (x :: l) s -> wp (f x) s (fun _ s' => I l s')) ->
  (forall s, I [] s -> Q tt s) ->
  wp (miter f l) s Q.
Proof.
  intros HI Hf HQ. revert s HI. induction l as [|x l IH]; intros s HI; simpl.
  - by apply wp_ret, HQ.
  - apply wp_bind. eapply wp_mono; [by apply Hf|]. intros [] s' HI'. by apply IH.
Qed.

(** ** Sums over lists *)

Definition lsum {A} (f : A -> Z) (l : list A) : Z := foldr (fun x n => f x + n) 0 l.

Lemma lsum_nonneg {A} (f : A -> Z) l : (forall x, x ∈ l -> 0 <= f x) -> 0 <= lsum f l.
Proof.
  induction l as [|x l IH]; intros Hf; simpl; [lia|].
  pose proof (Hf x ltac:(set_solver)). specialize (IH ltac:(set_solver)). lia.
Qed.

Lemma agg_nonneg {V} (f : V -> Z) t :
  (forall k v, t !! k = Some v -> 0 <= f v) -> 0 <= agg f t.
Proof.
  induction t as [|k v t Hk IH] using map_ind; intros Hf; [by rewrite agg_empty|].
  rewrite agg_insert by done. pose proof (Hf k v ltac:(apply lookup_insert_eq)).
  assert (0 <= agg f t); [|lia]. apply IH. intros k' v' Hk'. apply (Hf k').
  rewrite lookup_insert_ne; [done|]. intros ->. congruence.
Qed.
