(* ===== verification/Lists.v ===== *)
(** * Lists: first occurrences, and windows of sorted lists

    A Go loop that skips the keys it has [seen], and the lemmas that relate the
    first elements of a sorted list to the lists it was merged from. *)

From S2P Require Import Prelude.

(** ** The first element for each key: a loop with a [seen] set *)

Fixpoint first_of {A} (key : A -> Z) (seen : gset Z) (l : list A) : list A :=
  match l with
  | [] => []
  | x :: l =>
      if bool_decide (key x ∈ seen) then first_of key seen l
      else x :: first_of key ({[key x]} ∪ seen) l
  end.

Lemma first_of_sub {A} (key : A -> Z) seen l x :
  x ∈ first_of key seen l -> x ∈ l /\ key x ∉ seen.
Proof.
  revert seen. induction l as [|y l IH]; intros seen; simpl; [set_solver|].
  case_bool_decide as Hy.
  - intros [Hl Hs]%IH. split; [by right|done].
  - rewrite elem_of_cons. intros [->|[Hl Hs]%IH]; [split; [by left|done]|].
    split; [by right|set_solver].
Qed.

Lemma first_of_keys {A} (key : A -> Z) seen l k :
  k ∈ key <$> first_of key seen l <-> k ∈ key <$> l /\ k ∉ seen.
Proof.
  revert seen. induction l as [|y l IH]; intros seen; simpl; [set_solver|].
  case_bool_decide as Hy; csimpl; rewrite !elem_of_cons, ?elem_of_cons, IH; clear IH;
    rewrite ?elem_of_union, ?elem_of_singleton.
  - split; [tauto|]. intros [[->|?] ?]; tauto.
  - destruct (decide (k = key y)) as [->|Hne]; tauto.
Qed.

Lemma first_of_nodup {A} (key : A -> Z) seen l : NoDup (key <$> first_of key seen l).
Proof.
  revert seen. induction l as [|y l IH]; intros seen; simpl; [constructor|].
  case_bool_decide as Hy; [apply IH|]. csimpl. constructor; [|apply IH].
  rewrite first_of_keys, elem_of_union, elem_of_singleton. tauto.
Qed.

(** An element that survives comes before every other one with its key. *)
Lemma first_of_first {A} (key : A -> Z) (R : A -> A -> Prop) seen l x y :
  StronglySorted R l -> x ∈ first_of key seen l -> y ∈ l -> key y = key x -> x = y \/ R x y.
Proof.
  intros Hs. revert seen. induction Hs as [|z l Hs IH Hz]; intros seen; simpl; [set_solver|].
  rewrite Forall_forall in Hz. case_bool_decide as Hin.
  - intros Hx Hy Hk. apply elem_of_cons in Hy as [->|Hy]; [|by eapply IH].
    apply first_of_sub in Hx as [_ Hn]. congruence.
  - rewrite !elem_of_cons. intros [->|Hx] [->|Hy] Hk; [by left|right; by apply Hz| |by eapply IH].
    apply first_of_sub in Hx as [_ Hn]. set_solver.
Qed.

Lemma first_of_id {A} (key : A -> Z) (seen : gset Z) (l : list A) :
  NoDup (key <$> l) -> (forall x, x ∈ l -> key x ∉ seen) -> first_of key seen l = l.
Proof.
  revert seen. induction l as [|x l IH]; intros seen; csimpl; [done|]. intros [Hx Hl]%NoDup_cons Hs.
  rewrite bool_decide_eq_false_2 by (apply Hs; by left). f_equal. apply IH; [done|]. intros y Hy.
  rewrite elem_of_union, elem_of_singleton. intros [Hk|Hk].
  - apply Hx. rewrite <- Hk. by apply list_elem_of_fmap_2.
  - by apply (Hs y); [right|].
Qed.

Lemma first_of_length {A} (key : A -> Z) (seen : gset Z) (l : list A) : (length (first_of key seen l) <= length l)%nat.
Proof.
  revert seen. induction l as [|x l IH]; intros seen; simpl; [lia|].
  case_bool_decide; simpl; [rewrite IH; lia|]. apply le_n_S, IH.
Qed.

(** Elements of a list without repeated keys are told apart by their key. *)
Lemma nodup_key_inj {A} (key : A -> Z) (l : list A) x y :
  NoDup (key <$> l) -> x ∈ l -> y ∈ l -> key x = key y -> x = y.
Proof.
  intros Hnd [i Hi]%list_elem_of_lookup [j Hj]%list_elem_of_lookup Hk.
  assert (i = j) as ->; [|congruence].
  eapply (NoDup_lookup _ _ _ _ Hnd); rewrite list_lookup_fmap; [by rewrite Hi|by rewrite Hj, Hk].
Qed.

(** ** Windows of sorted lists *)

Lemma filter_all {A} (P : A -> Prop) `{forall x, Decision (P x)} (l : list A) : (forall x, x ∈ l -> P x) -> filter P l = l.
Proof.
  induction l as [|x l IH]; intros Hl; [done|]. rewrite filter_cons_True by (apply Hl; by left).
  f_equal. apply IH. intros y Hy. apply Hl. by right.
Qed.

Lemma filter_none {A} (P : A -> Prop) `{forall x, Decision (P x)} (l : list A) : (forall x, x ∈ l -> ~ P x) -> filter P l = [].
Proof.
  induction l as [|x l IH]; intros Hl; [done|]. rewrite filter_cons_False by (apply Hl; by left).
  apply IH. intros y Hy. apply Hl. by right.
Qed.

Lemma sorted_filter {A} (R : A -> A -> Prop) (P : A -> Prop) `{forall x, Decision (P x)} (l : list A) :
  StronglySorted R l -> StronglySorted R (filter P l).
Proof.
  induction 1 as [|x l Hl IH Hx]; [constructor|]. rewrite filter_cons. case_decide; [|done].
  constructor; [done|]. rewrite Forall_forall in Hx |- *. intros y [_ Hy]%list_elem_of_filter. auto.
Qed.

Lemma nodup_le_length {A} (l k : list A) : NoDup l -> (forall x, x ∈ l -> x ∈ k) -> (length l <= length k)%nat.
Proof. intros Hl Hs. by apply submseteq_length, NoDup_submseteq. Qed.

Lemma nodup_fmap_filter {A} (f : A -> Z) (P : A -> Prop) `{forall x, Decision (P x)} (l : list A) :
  NoDup (f <$> l) -> NoDup (f <$> filter P l).
Proof.
  induction l as [|x l IH]; csimpl; [done|]. intros [Hx Hl]%NoDup_cons. rewrite filter_cons.
  case_decide; [|auto]. csimpl. constructor; [|auto]. contradict Hx.
  apply list_elem_of_fmap in Hx as (y & -> & [_ Hy]%list_elem_of_filter). by apply list_elem_of_fmap_2.
Qed.

(** The first [k] elements of the sorted arrangement of [W ++ rest ++ L] do not
    depend on [rest], when [k] elements come before it. *)
Lemma take_sorted_merge {A} `{EqDecision A} (R : A -> A -> Prop) (W rest L full short : list A) (k : nat) :
  NoDup full -> (forall x y, x ∈ full -> y ∈ full -> R x y -> R y x -> x = y) ->
  full ≡ₚ (W ++ rest) ++ L -> StronglySorted R full -> StronglySorted R (W ++ rest) ->
  short ≡ₚ W ++ L -> StronglySorted R short ->
  (k <= length W)%nat \/ rest = [] -> take k full = take k short.
Proof.
  intros Hnd Has Hfull Hs HWr Hshort Hss Hk.
  assert (HP : full ≡ₚ short ++ rest).
  { rewrite Hfull, Hshort, <- !app_assoc. apply Permutation_app_head, Permutation_app_comm. }
  assert (Hnd' : NoDup (short ++ rest)) by by rewrite <- HP.
  apply NoDup_app in Hnd' as (Hns & Hdis & _).
  assert (Hfs : filter (fun x => x ∉ rest) full = short).
  { apply (StronglySorted_unique_strong R); [|by apply sorted_filter|done|].
    - intros x y [_ Hx]%list_elem_of_filter Hy. apply Has; [done|]. rewrite HP. apply elem_of_app. by left.
    - rewrite HP, filter_app, (filter_all _ short), (filter_none _ rest), app_nil_r; auto. }
  assert (Hc : forall x, x ∈ take k full -> x ∉ rest).
  { intros x Hx Hr. destruct Hk as [Hk| ->]; [|set_solver].
    assert (HW : forall w, w ∈ x :: W -> w ∈ take k full).
    { intros w [->|Hw]%elem_of_cons; [done|].
      assert (Hwf : w ∈ take k full ++ drop k full) by (rewrite take_drop, Hfull, !elem_of_app; tauto).
      apply elem_of_app in Hwf as [?|Hd]; [done|]. exfalso.
      assert (Hxw : R x w) by (rewrite <- (take_drop k full) in Hs; exact (StronglySorted_app_1_elem_of R _ _ x w Hs Hx Hd)).
      assert (Hwx : R w x) by exact (StronglySorted_app_1_elem_of R W rest w x HWr Hw Hr).
      assert (x = w) as <-.
      { apply Has; [rewrite Hfull, !elem_of_app; tauto..|done|done]. }
      apply (Hdis x); [|done]. rewrite Hshort. apply elem_of_app. by left. }
    assert (HxW : NoDup (x :: W)).
    { constructor; [|rewrite Hshort in Hns; by apply NoDup_app in Hns as [? _]].
      intros Hw. apply (Hdis x); [|done]. rewrite Hshort. apply elem_of_app. by left. }
    pose proof (nodup_le_length (x :: W) (take k full) HxW HW) as Hl. rewrite length_take in Hl. simpl in Hl. lia. }
  assert (Hsplit : short = take k full ++ filter (fun x => x ∉ rest) (drop k full)).
  { rewrite <- Hfs. rewrite <- (take_drop k full) at 1. by rewrite filter_app, (filter_all _ (take k full)). }
  rewrite Hsplit.
  destruct (decide (k <= length full)%nat) as [Hle|Hgt].
  - rewrite take_app_le by (rewrite length_take; lia). by rewrite take_take, Nat.min_id.
  - rewrite (drop_ge full) by lia. by rewrite app_nil_r, take_take, Nat.min_id.
Qed.

(** The window of page [i]. *)
Lemma concat_pages {A} (n : nat) (l : list A) (K : nat) :
  concat ((fun i => take n (drop (n * i) l)) <$> seq 0 K) = take (n * K) l.
Proof.
  induction K as [|K IH]; [by rewrite Nat.mul_0_r|].
  rewrite seq_S, fmap_app, concat_app, IH. csimpl. rewrite app_nil_r, Nat.mul_succ_r.
  by rewrite take_take_drop.
Qed.
