(* ===== verification/GoStrings.v ===== *)
(** * Go strings: bytes, UTF-8 and the [strings] functions the source calls

    A Go string is a sequence of bytes; here it is Stdlib's [string] (a list of
    8-bit [ascii] characters).  Ranging over a string, [string(r)] and
    [encoding/json] all work on runes, so UTF-8 decoding is defined as Go's
    [utf8.DecodeRune] does it (an invalid byte decodes to U+FFFD, size 1).
    [core/addr/addr.go] is modelled at the end. *)

From S2P Require Import Prelude.

Section Bytes.

Definition byte_of (c : ascii) : Z := Z.of_nat (nat_of_ascii c).
Definition bytes_of (s : string) : list ascii := list_ascii_of_string s.
Definition str_of (l : list ascii) : string := string_of_list_ascii l.

Definition in_range (lo hi : Z) (c : ascii) : bool := (lo <=? byte_of c) && (byte_of c <=? hi).
Definition is_cont (c : ascii) : bool := in_range 128 191 c.

Definition rune_error : Z := 65533.

(** One step of [utf8.DecodeRune]: the rune and how many bytes it takes. *)
Definition decode_rune (l : list ascii) : Z * nat :=
  match l with
  | [] => (rune_error, 0%nat)
  | b0 :: rest =>
      let x := byte_of b0 in
      if x <? 128 then (x, 1%nat)
      else if x <? 194 then (rune_error, 1%nat)
      else if x <? 224 then
        match rest with
        | b1 :: _ =>
            if is_cont b1 then ((x - 192) * 64 + (byte_of b1 - 128), 2%nat)
            else (rune_error, 1%nat)
        | [] => (rune_error, 1%nat)
        end
      else if x <? 240 then
        match rest with
        | b1 :: b2 :: _ =>
            let lo := if x =? 224 then 160 else 128 in
            let hi := if x =? 237 then 159 else 191 in
            if in_range lo hi b1 && is_cont b2
            then ((x - 224) * 4096 + (byte_of b1 - 128) * 64 + (byte_of b2 - 128), 3%nat)
            else (rune_error, 1%nat)
        | _ => (rune_error, 1%nat)
        end
      else if x <? 245 then
        match rest with
        | b1 :: b2 :: b3 :: _ =>
            let lo := if x =? 240 then 144 else 128 in
            let hi := if x =? 244 then 143 else 191 in
            if in_range lo hi b1 && is_cont b2 && is_cont b3
            then ((x - 240) * 262144 + (byte_of b1 - 128) * 4096
                  + (byte_of b2 - 128) * 64 + (byte_of b3 - 128), 4%nat)
            else (rune_error, 1%nat)
        | _ => (rune_error, 1%nat)
        end
      else (rune_error, 1%nat)
  end.

#[global] Arguments decode_rune : simpl never.

(** The runes of a string with the bytes each one was read from. *)
Fixpoint segs_fuel (fuel : nat) (l : list ascii) : list (Z * list ascii) :=
  match fuel, l with
  | _, [] => []
  | O, _ => []
  | S fuel, _ =>
      let '(r, n) := decode_rune l in
      (r, take n l) :: segs_fuel fuel (drop n l)
  end.
Definition segs (l : list ascii) : list (Z * list ascii) := segs_fuel (length l) l.

(** U+FFFD in UTF-8. *)
Definition replacement : list ascii :=
  [ascii_of_nat 239; ascii_of_nat 191; ascii_of_nat 189].

(** A decoding error is a U+FFFD that came from a single byte. *)
Definition bad_seg (p : Z * list ascii) : bool :=
  (p.1 =? rune_error) && (Nat.eqb (length p.2) 1).

(** [string(r)] for a rune read by ranging over a string. *)
Definition seg_bytes (p : Z * list ascii) : list ascii :=
  if bad_seg p then replacement else p.2.

Definition valid_utf8 (s : string) : bool :=
  forallb (fun p => negb (bad_seg p)) (segs (bytes_of s)).
#[global] Arguments valid_utf8 : simpl never.

(** What [encoding/json] writes for a Go string: invalid bytes become U+FFFD. *)
Definition coerce_utf8 (s : string) : string :=
  str_of (concat (seg_bytes <$> segs (bytes_of s))).

Definition lower_ascii (c : ascii) : ascii :=
  if in_range 65 90 c then ascii_of_nat (nat_of_ascii c + 32) else c.

Definition has_nul (s : string) : bool :=
  existsb (fun c => byte_of c =? 0) (bytes_of s).

(** PostgreSQL accepts a [text] value only if it is valid UTF-8 without NUL. *)
Definition text_ok (s : string) : bool := valid_utf8 s && negb (has_nul s).

Definition is_ascii (s : string) : bool :=
  forallb (fun c => byte_of c <? 128) (bytes_of s).

End Bytes.

Section Strings.

(** [strings.HasPrefix]. *)
Definition has_prefix (s p : string) : bool := String.prefix p s.

(** [strings.Contains]. *)
Fixpoint contains_l (s p : list ascii) : bool :=
  bool_decide (p `prefix_of` s) ||
  match s with
  | [] => false
  | _ :: s => contains_l s p
  end.
Definition contains (s p : string) : bool := contains_l (bytes_of s) (bytes_of p).

(** [strings.IndexByte] and [strings.LastIndexByte], [None] for -1. *)
Fixpoint index_byte (c : ascii) (l : list ascii) : option nat :=
  match l with
  | [] => None
  | x :: l => if Ascii.eqb x c then Some 0%nat else S <$> index_byte c l
  end.
Fixpoint last_index_byte (c : ascii) (l : list ascii) : option nat :=
  match l with
  | [] => None
  | x :: l =>
      match last_index_byte c l with
      | Some i => Some (S i)
      | None => if Ascii.eqb x c then Some 0%nat else None
      end
  end.

(** [strings.TrimSpace] removes the runes for which [unicode.IsSpace] holds. *)
Definition is_space_rune (r : Z) : bool :=
  ((9 <=? r) && (r <=? 13)) || (r =? 32) || (r =? 133) || (r =? 160) || (r =? 5760)
  || ((8192 <=? r) && (r <=? 8202)) || (r =? 8232) || (r =? 8233) || (r =? 8239)
  || (r =? 8287) || (r =? 12288).
Fixpoint drop_while {A} (f : A -> bool) (l : list A) : list A :=
  match l with
  | [] => []
  | x :: l' => if f x then drop_while f l' else l
  end.
Definition trim_both {A} (f : A -> bool) (l : list A) : list A :=
  rev (drop_while f (rev (drop_while f l))).
Definition trim_space_l (l : list ascii) : list ascii :=
  concat (snd <$> trim_both (fun p : Z * list ascii => is_space_rune p.1) (segs l)).
Definition trim_space (s : string) : string := str_of (trim_space_l (bytes_of s)).

(** [strings.Trim(s, "<>")]. *)
Definition trim_angle_l (l : list ascii) : list ascii :=
  trim_both (fun c => Ascii.eqb c "<"%char || Ascii.eqb c ">"%char) l.

(** [split_part(s, '@', 2)] of PostgreSQL: the text between the first and the
    second ['@'], empty when there is no first one. *)
Definition split_part_2 (c : ascii) (s : string) : string :=
  match index_byte c (bytes_of s) with
  | None => EmptyString
  | Some i =>
      let rest := drop (S i) (bytes_of s) in
      match index_byte c rest with
      | None => str_of rest
      | Some j => str_of (take j rest)
      end
  end.

End Strings.

(** ** Letter case

    The tables of package [unicode] are parameters: the lower-case mapping of a
    rune outside ASCII, and [strings.EqualFold]. *)
Class Unicode := { unicode_lower : Z -> Z; EqualFold : string -> string -> bool }.

Definition ascii_lower (s : string) : string := str_of (lower_ascii <$> bytes_of s).

Class UnicodeLaws `{Unicode} := {
  EqualFold_ascii : forall s t, is_ascii s = true -> is_ascii t = true ->
    EqualFold s t = String.eqb (ascii_lower s) (ascii_lower t) }.

(** [utf8.AppendRune]; a surrogate or a number past U+10FFFF is encoded as U+FFFD. *)
Definition byte_char (z : Z) : ascii := ascii_of_nat (Z.to_nat z).
Definition encode_rune (r : Z) : list ascii :=
  if (r <? 0) || (1114111 <? r) || ((55296 <=? r) && (r <=? 57343)) then replacement
  else if r <? 128 then [byte_char r]
  else if r <? 2048 then [byte_char (192 + r / 64); byte_char (128 + r mod 64)]
  else if r <? 65536 then
    [byte_char (224 + r / 4096); byte_char (128 + r / 64 mod 64); byte_char (128 + r mod 64)]
  else [byte_char (240 + r / 262144); byte_char (128 + r / 4096 mod 64);
        byte_char (128 + r / 64 mod 64); byte_char (128 + r mod 64)].

(** [strings.ToLower]. *)
Definition lower_rune `{Unicode} (r : Z) : Z :=
  if r <? 128 then (if (65 <=? r) && (r <=? 90) then r + 32 else r) else unicode_lower r.
Definition ToLower `{Unicode} (s : string) : string :=
  if is_ascii s then ascii_lower s
  else str_of (concat ((fun p : Z * list ascii => encode_rune (lower_rune p.1)) <$> segs (bytes_of s))).

(** [strings.TrimPrefix] and [strings.Split] at one character. *)
Definition trim_prefix (s p : string) : string :=
  if has_prefix s p then str_of (drop (String.length p) (bytes_of s)) else s.
Fixpoint split_l (c : ascii) (l : list ascii) : list (list ascii) :=
  match l with
  | [] => [[]]
  | x :: l =>
      if Ascii.eqb x c then [] :: split_l c l
      else match split_l c l with
           | w :: ws => (x :: w) :: ws
           | [] => [[x]]
           end
  end.
Definition split (s : string) (c : ascii) : list string := str_of <$> split_l c (bytes_of s).

(** ** core/addr/addr.go *)
Module Addr.

Definition Domain (address : string) : string :=
  let a := trim_angle_l (trim_space_l (bytes_of address)) in
  match last_index_byte "@"%char a with
  | None => EmptyString
  | Some i =>
      if Nat.eqb i 0 || Nat.eqb i (length a - 1) then EmptyString
      else str_of (drop (S i) a)
  end.

End Addr.

(** ** Lemmas *)

Lemma string_length_app (s t : string) :
  String.length (s ++ t) = (String.length s + String.length t)%nat.
Proof. induction s as [|c s IH]; [done|]. cbn. by rewrite <- IH. Qed.

Lemma bytes_of_str_of l : bytes_of (str_of l) = l.
Proof. apply list_ascii_of_string_of_list_ascii. Qed.

Lemma str_of_bytes_of s : str_of (bytes_of s) = s.
Proof. apply string_of_list_ascii_of_string. Qed.

Lemma decode_rune_size b l : (1 <= (decode_rune (b :: l)).2)%nat.
Proof. unfold decode_rune. repeat (case_goal; simpl; try lia). Qed.

Lemma segs_fuel_enough n m l : (length l <= n)%nat -> (length l <= m)%nat -> segs_fuel n l = segs_fuel m l.
Proof.
  revert m l. induction n as [|n IH]; intros m [|b l] Hn Hm; cbn [length] in *; try lia.
  - by destruct m.
  - by destruct m.
  - destruct m as [|m]; cbn [length] in *; [lia|]. cbn [segs_fuel]. pose proof (decode_rune_size b l) as Hs.
    destruct (decode_rune (b :: l)) as [r k]. cbn [snd] in Hs. f_equal. apply IH; rewrite length_drop; cbn [length]; lia.
Qed.
Lemma segs_cons b l : segs (b :: l) = ((decode_rune (b :: l)).1, take (decode_rune (b :: l)).2 (b :: l)) :: segs (drop (decode_rune (b :: l)).2 (b :: l)).
Proof.
  unfold segs. cbn [length segs_fuel]. pose proof (decode_rune_size b l) as Hs.
  destruct (decode_rune (b :: l)) as [r k]. cbn [fst snd] in *. f_equal.
  apply segs_fuel_enough; rewrite length_drop; cbn [length]; lia.
Qed.

Lemma segs_fuel_concat n l :
  (length l <= n)%nat -> concat (snd <$> segs_fuel n l) = l.
Proof.
  revert l. induction n as [|n IH]; intros [|b l] Hn; simpl in *; try lia; try done.
  pose proof (decode_rune_size b l) as Hs.
  destruct (decode_rune (b :: l)) as [r [|k]] eqn:E; simpl in *; [lia|].
  change (b :: (take k l ++ concat (snd <$> segs_fuel n (drop k l))) = b :: l).
  rewrite IH by (rewrite length_drop; lia). by rewrite take_drop.
Qed.

(** Decoding loses no byte: the segments concatenate back to the string. *)
Lemma segs_concat l : concat (snd <$> segs l) = l.
Proof. apply segs_fuel_concat. done. Qed.

Lemma coerce_valid s : valid_utf8 s = true -> coerce_utf8 s = s.
Proof.
  unfold valid_utf8, coerce_utf8. intros H. rewrite forallb_forall in H.
  rewrite <- (str_of_bytes_of s) at 2. f_equal.
  rewrite <- (segs_concat (bytes_of s)) at 2. f_equal.
  apply list_fmap_ext. intros i p Hp. unfold seg_bytes.
  apply list_elem_of_lookup_2, list_elem_of_In in Hp.
  specialize (H p Hp). by destruct (bad_seg p).
Qed.

Lemma contains_l_spec s p :
  contains_l s p = true <-> exists k1 k2, s = k1 ++ p ++ k2.
Proof.
  split.
  - induction s as [|c s IH]; simpl; intros H; apply orb_prop in H as [H|H].
    + apply bool_decide_eq_true in H as [k Hk]. exists [], k. done.
    + done.
    + apply bool_decide_eq_true in H as [k Hk]. exists [], k. done.
    + destruct (IH H) as (k1 & k2 & ->). by exists (c :: k1), k2.
  - intros (k1 & k2 & ->). induction k1 as [|c k1 IH]; simpl.
    + destruct (p ++ k2) eqn:E; simpl; rewrite bool_decide_eq_true_2; try done.
      * exists k2. done.
      * exists k2. done.
    + rewrite IH. apply orb_true_r.
Qed.

Lemma index_byte_none c l : index_byte c l = None <-> c ∉ l.
Proof.
  induction l as [|x l IH]; simpl; [set_solver|].
  destruct (Ascii.eqb_spec x c) as [->|Hne]; [set_solver|].
  destruct (index_byte c l) eqn:E; simpl.
  - split; [done|]. intros H. exfalso. apply H.
    right. destruct (decide (c ∈ l)) as [?|Hn]; [done|]. by apply IH in Hn.
  - split; [|done]. intros _. rewrite elem_of_cons. destruct IH as [IH _].
    intros [->|Hin]; [done|]. by apply IH in Hin.
Qed.

Lemma index_byte_cut c a b : c ∉ a -> index_byte c (a ++ c :: b) = Some (length a).
Proof.
  induction a as [|x a IH]; intros Ha; cbn [app index_byte]; [by rewrite Ascii.eqb_refl|].
  apply not_elem_of_cons in Ha as [Hx Ha]. destruct (Ascii.eqb_spec x c) as [->|]; [done|]. by rewrite IH.
Qed.

Lemma index_byte_split c l i :
  index_byte c l = Some i -> l = take i l ++ c :: drop (S i) l /\ c ∉ take i l.
Proof.
  revert i. induction l as [|x l IH]; intros i; simpl; [done|].
  destruct (Ascii.eqb_spec x c) as [->|Hne].
  - intros [= <-]. simpl. split; [done|set_solver].
  - destruct (index_byte c l) as [j|]; simpl; [|done]. intros [= <-].
    destruct (IH j eq_refl) as [Hl Hn]. simpl. split; [by rewrite <- Hl|set_solver].
Qed.

Lemma split_l_app c (l1 l2 : list ascii) : c ∉ l1 -> split_l c (l1 ++ c :: l2) = l1 :: split_l c l2.
Proof.
  induction l1 as [|x l1 IH]; intros Hn; simpl; [by rewrite Ascii.eqb_refl|].
  apply not_elem_of_cons in Hn as [Hx Hn]. rewrite IH by done.
  destruct (Ascii.eqb_spec x c); [congruence|done].
Qed.

Lemma split_l_none c (l : list ascii) : c ∉ l -> split_l c l = [l].
Proof.
  induction l as [|x l IH]; intros Hn; simpl; [done|].
  apply not_elem_of_cons in Hn as [Hx Hn]. rewrite IH by done.
  destruct (Ascii.eqb_spec x c); [congruence|done].
Qed.

(** Joining the parts with the separator gives the text back. *)
Fixpoint join_l (c : ascii) (ls : list (list ascii)) : list ascii :=
  match ls with
  | [] => []
  | [l] => l
  | l :: ls => l ++ c :: join_l c ls
  end.

Lemma split_l_join c (l : list ascii) : join_l c (split_l c l) = l.
Proof.
  induction l as [|x l IH]; [done|]. simpl. destruct (Ascii.eqb_spec x c) as [->|Hne].
  - cbn [join_l]. destruct (split_l c l) eqn:E; [destruct l; simpl in E; [done|]|by rewrite <- IH].
    destruct (Ascii.eqb a c); [done|]. by destruct (split_l c l).
  - destruct (split_l c l) as [|w ws] eqn:E; simpl in IH; [by rewrite <- IH|].
    destruct ws; simpl in *; by rewrite <- IH.
Qed.

Lemma bytes_of_app s t : bytes_of (s ++ t) = bytes_of s ++ bytes_of t.
Proof. induction s as [|c s IH]; [done|]. simpl. by rewrite IH. Qed.

Lemma has_prefix_app p s : has_prefix (p ++ s) p = true.
Proof. unfold has_prefix. induction p as [|c p IH]; [by destruct s|]. simpl. by destruct (ascii_dec c c). Qed.

Lemma trim_prefix_app p s : trim_prefix (p ++ s) p = s.
Proof.
  unfold trim_prefix, has_prefix. assert (Hp : String.prefix p (p ++ s) = true).
  { induction p as [|c p IH]; [by destruct s|]. simpl. by destruct (ascii_dec c c). }
  rewrite Hp, bytes_of_app, drop_app_length'; [apply str_of_bytes_of|].
  clear. induction p; simpl; [done|]. by f_equal.
Qed.

(** A text with a separator has one first part. *)
Lemma cut_inj (c : ascii) (a a' b b' : list ascii) : c ∉ a -> c ∉ a' -> a ++ c :: b = a' ++ c :: b' -> a = a' /\ b = b'.
Proof.
  revert a'. induction a as [|x a IH]; intros [|x' a'] Ha Ha' He; simpl in He.
  - by injection He as ->.
  - injection He as <- _. exfalso. apply Ha'. by left.
  - injection He as -> _. exfalso. apply Ha. by left.
  - injection He as <- He. apply not_elem_of_cons in Ha as [_ Ha], Ha' as [_ Ha'].
    by destruct (IH a' Ha Ha' He) as [-> ->].
Qed.

Lemma string_app_assoc (s t u : string) : ((s ++ t) ++ u = s ++ (t ++ u))%string.
Proof. induction s as [|c s IH]; [done|]. exact (f_equal (String c) IH). Qed.

Lemma string_app_inj (s s' t t' : string) : String.length t = String.length t' -> (s ++ t = s' ++ t')%string -> s = s' /\ t = t'.
Proof.
  intros Hl He. assert (Hb : bytes_of s ++ bytes_of t = bytes_of s' ++ bytes_of t') by (rewrite <- !bytes_of_app; by f_equal).
  assert (Hlen : forall x, length (bytes_of x) = String.length x) by (induction x as [|c x IH]; [done|]; simpl; by f_equal).
  apply app_inj_2 in Hb as [Hb1 Hb2]; [|by rewrite !Hlen].
  split; [rewrite <- (str_of_bytes_of s), <- (str_of_bytes_of s')|rewrite <- (str_of_bytes_of t), <- (str_of_bytes_of t')]; by f_equal.
Qed.
