(* ===== verification/Shapes.v ===== *)
(** * Shape types of core/store (core/store/shapes.go)

    The data every other component stores, returns or logs: flags, mailboxes
    and messages, and the flag registry that converts flags to and from the
    IMAP and JMAP spellings.  A [time.Time] is an integer number of
    microseconds, 0 being the zero time; a nullable column that Go reads back
    as a zero value ([email_id], [thread_id], [parent_id]) is that zero. *)

From S2P Require Import Prelude GoStrings.

(** ** Data *)

Record Flags := mkFlags {
  Seen : bool; Answered : bool; Flagged : bool; Forwarded : bool; Junk : bool;
  Notjunk : bool; Deleted : bool; Draft : bool; Phishing : bool; MDNSent : bool }.

Definition no_flags : Flags :=
  mkFlags false false false false false false false false false false.

Record SpecialUse := mkSpecialUse {
  su_Archive : bool; su_Draft : bool; su_Junk : bool; su_Sent : bool; su_Trash : bool }.

Definition no_special_use : SpecialUse := mkSpecialUse false false false false false.

Record MailboxCounts := mkCounts {
  c_Total : Z; c_Deleted : Z; c_Unread : Z; c_Unseen : Z; c_Size : Z }.

Definition zero_counts : MailboxCounts := mkCounts 0 0 0 0 0.

Record Mailbox := mkMailbox {
  mb_ID : Z; mb_AccountID : Z; mb_ParentID : Z; mb_Name : string;
  mb_UIDValidity : Z; mb_UIDNext : Z; mb_CreateSeq : Z; mb_ModSeq : Z;
  mb_Expunged : bool; mb_SpecialUse : SpecialUse; mb_Subscribed : bool;
  mb_Keywords : list string; mb_Counts : MailboxCounts }.

Record Message := mkMessage {
  m_ID : Z; m_AccountID : Z; m_MailboxID : Z; m_UID : Z; m_CreateSeq : Z; m_ModSeq : Z;
  m_Expunged : bool; m_Flags : Flags; m_Keywords : list string;
  m_BlobRef : string; m_Size : Z; m_ThreadID : Z; m_EmailID : Z;
  m_Received : Z; m_SaveDate : Z; m_MsgPrefix : string;
  m_Subject : string; m_FromAddr : string; m_ToAddrs : string;
  m_FromSearch : string; m_ToSearch : string; m_Preview : string;
  m_SummaryFolded : bool }.

Record Annotation := mkAnnotation {
  an_MailboxID : Z; an_Key : string; an_Value : string; an_IsString : bool }.

Record VacationResponse := mkVacation {
  v_Enabled : bool; v_Subject : string; v_TextBody : string; v_HTMLBody : string;
  v_FromDate : Z; v_ToDate : Z }.

#[export] Instance Flags_eq_dec : EqDecision Flags.
Proof. solve_decision. Defined.
#[export] Instance SpecialUse_eq_dec : EqDecision SpecialUse.
Proof. solve_decision. Defined.
#[export] Instance MailboxCounts_eq_dec : EqDecision MailboxCounts.
Proof. solve_decision. Defined.
#[export] Instance Mailbox_eq_dec : EqDecision Mailbox.
Proof. solve_decision. Defined.
#[export] Instance Message_eq_dec : EqDecision Message.
Proof. solve_decision. Defined.

(** A row's JMAP identity: its email group, or its own id. *)
Definition EffectiveEmailID (m : Message) : Z :=
  if m_EmailID m =? 0 then m_ID m else m_EmailID m.

(** ** The flag registry *)

(** [ptr] is the pointer into a [Flags] value: a getter and a setter. *)
Record flagSpec := mkSpec {
  fs_get : Flags -> bool; fs_set : bool -> Flags -> Flags; fs_imap : string; fs_jmap : string }.

Definition set_Seen b f := mkFlags b (Answered f) (Flagged f) (Forwarded f) (Junk f) (Notjunk f) (Deleted f) (Draft f) (Phishing f) (MDNSent f).
Definition set_Answered b f := mkFlags (Seen f) b (Flagged f) (Forwarded f) (Junk f) (Notjunk f) (Deleted f) (Draft f) (Phishing f) (MDNSent f).
Definition set_Flagged b f := mkFlags (Seen f) (Answered f) b (Forwarded f) (Junk f) (Notjunk f) (Deleted f) (Draft f) (Phishing f) (MDNSent f).
Definition set_Forwarded b f := mkFlags (Seen f) (Answered f) (Flagged f) b (Junk f) (Notjunk f) (Deleted f) (Draft f) (Phishing f) (MDNSent f).
Definition set_Junk b f := mkFlags (Seen f) (Answered f) (Flagged f) (Forwarded f) b (Notjunk f) (Deleted f) (Draft f) (Phishing f) (MDNSent f).
Definition set_Notjunk b f := mkFlags (Seen f) (Answered f) (Flagged f) (Forwarded f) (Junk f) b (Deleted f) (Draft f) (Phishing f) (MDNSent f).
Definition set_Deleted b f := mkFlags (Seen f) (Answered f) (Flagged f) (Forwarded f) (Junk f) (Notjunk f) b (Draft f) (Phishing f) (MDNSent f).
Definition set_Draft b f := mkFlags (Seen f) (Answered f) (Flagged f) (Forwarded f) (Junk f) (Notjunk f) (Deleted f) b (Phishing f) (MDNSent f).
Definition set_Phishing b f := mkFlags (Seen f) (Answered f) (Flagged f) (Forwarded f) (Junk f) (Notjunk f) (Deleted f) (Draft f) b (MDNSent f).
Definition set_MDNSent b f := mkFlags (Seen f) (Answered f) (Flagged f) (Forwarded f) (Junk f) (Notjunk f) (Deleted f) (Draft f) (Phishing f) b.

Definition flagRegistry : list flagSpec := [
  mkSpec Seen set_Seen "\Seen" "$seen";
  mkSpec Answered set_Answered "\Answered" "$answered";
  mkSpec Flagged set_Flagged "\Flagged" "$flagged";
  mkSpec Deleted set_Deleted "\Deleted" "$deleted";
  mkSpec Draft set_Draft "\Draft" "$draft";
  mkSpec Forwarded set_Forwarded "$Forwarded" "$forwarded";
  mkSpec Junk set_Junk "$Junk" "$junk";
  mkSpec Notjunk set_Notjunk "$NotJunk" "$notjunk";
  mkSpec Phishing set_Phishing "$Phishing" "$phishing";
  mkSpec MDNSent set_MDNSent "$MDNSent" "$mdnsent" ].

Definition IMAPFlags (f : Flags) (keywords : list string) : list string :=
  (fs_imap <$> filter (fun s => fs_get s f = true) flagRegistry) ++ keywords.

(** A JMAP keyword map; [None] is the nil map returned when it is empty. *)
Definition JMAPKeywords (f : Flags) (keywords : list string) : option (gmap string bool) :=
  let kw := foldl (fun (kw : gmap string bool) s => if fs_get s f then <[fs_jmap s:=true]> kw else kw)
                  ∅ flagRegistry in
  let kw := foldl (fun (kw : gmap string bool) k => <[k:=true]> kw) kw keywords in
  if decide (kw = ∅) then None else Some kw.

(** Lower-casing [A]-[Z] rune by rune (an invalid byte becomes U+FFFD), then
    stripping every leading backslash or dollar sign. *)
Definition lower_seg (p : Z * list ascii) : list ascii :=
  if (65 <=? p.1) && (p.1 <=? 90) then lower_ascii <$> p.2 else seg_bytes p.
Definition is_sigil (c : ascii) : bool := Ascii.eqb c "\" || Ascii.eqb c "$".
Definition normalizeFlagName (name : string) : string :=
  str_of (drop_while is_sigil (concat (lower_seg <$> segs (bytes_of name)))).

Fixpoint set_by_name_in (reg : list flagSpec) (n : string) (v : bool) (f : Flags) : bool * Flags :=
  match reg with
  | [] => (false, f)
  | s :: reg =>
      if String.eqb (normalizeFlagName (fs_imap s)) n || String.eqb (normalizeFlagName (fs_jmap s)) n
      then (true, fs_set s v f)
      else set_by_name_in reg n v f
  end.

Definition SetByName (f : Flags) (name : string) (v : bool) : bool * Flags :=
  set_by_name_in flagRegistry (normalizeFlagName name) v f.

(** ** Theorems *)

Lemma registry_laws s :
  s ∈ flagRegistry ->
  (forall v f, fs_get s (fs_set s v f) = v) /\
  (forall v f, SetByName f (fs_imap s) v = (true, fs_set s v f)) /\
  (forall v f, SetByName f (fs_jmap s) v = (true, fs_set s v f)).
Proof.
  unfold flagRegistry. rewrite !elem_of_cons.
  intros H. repeat (destruct H as [->|H]; [done|]). set_solver.
Qed.

Lemma registry_frame s s' v f :
  s ∈ flagRegistry -> s' ∈ flagRegistry ->
  fs_imap s <> fs_imap s' -> fs_get s' (fs_set s v f) = fs_get s' f.
Proof.
  unfold flagRegistry. rewrite !elem_of_cons. intros H H' Hne.
  repeat (destruct H as [->|H]);
    repeat (destruct H' as [->|H']); try done; set_solver.
Qed.

(** Setting, one token after the other, the flags whose specs are in [l]. *)
Definition set_tokens (toks : list string) (f : Flags) : Flags :=
  foldl (fun f t => (SetByName f t true).2) f toks.

Lemma set_tokens_registry (l : list flagSpec) f :
  (forall s, s ∈ l -> s ∈ flagRegistry) ->
  set_tokens (fs_imap <$> l) f = foldl (fun f s => fs_set s true f) f l /\
  set_tokens (fs_jmap <$> l) f = foldl (fun f s => fs_set s true f) f l.
Proof.
  unfold set_tokens. revert f. induction l as [|s l IH]; intros f H; [done|]. simpl.
  destruct (registry_laws s (H s (list_elem_of_here _ _))) as (_ & Hi & Hj).
  rewrite Hi, Hj. apply IH. intros s' Hs'. apply H. by right.
Qed.

Lemma set_filtered_flags f :
  foldl (fun g s => fs_set s true g) no_flags
    (filter (fun s => fs_get s f = true) flagRegistry) = f.
Proof.
  destruct f as [[] [] [] [] [] [] [] [] [] []]; vm_compute; reflexivity.
Qed.

(** Reading back what [IMAPFlags] renders gives the same flags: parsing every
    rendered token with [SetByName], starting from no flags, restores exactly the
    flag set (and the JMAP spellings of the same flags restore it too), so no
    flag is lost or confused with another on the wire. *)
Theorem IMAPFlags_roundtrip (f : Flags) :
  set_tokens (IMAPFlags f []) no_flags = f /\
  set_tokens (fs_jmap <$> filter (fun s => fs_get s f = true) flagRegistry) no_flags = f.
Proof.
  unfold IMAPFlags. rewrite app_nil_r.
  destruct (set_tokens_registry (filter (fun s => fs_get s f = true) flagRegistry) no_flags)
    as [Hi Hj].
  - intros s Hs. by apply list_elem_of_filter in Hs as [_ ?].
  - rewrite Hi, Hj. split; apply set_filtered_flags.
Qed.
