(* ===== verification/Changes.v ===== *)
(** * Change-log entries and their encoding
    (core/store/change.go, storage/postgres/changelog.go)

    [Change] has one constructor per variant of the Go interface.  The JSON
    payload is modelled as the document [encoding/json] builds (field names as
    keys, embedded structs flattened, invalid UTF-8 replaced), which is what a
    [jsonb] column keeps; decoding looks fields up by name and checks the range
    of the Go integer they are stored in.  A nil and an empty slice are not
    distinguished. *)

From S2P Require Import Prelude GoStrings Shapes.

(** ** Changes *)

Record ChangeAddUID := mkAddUID {
  ca_MailboxID : Z; ca_UID : Z; ca_MsgID : Z; ca_EmailID : Z; ca_EmailExistedBefore : bool;
  ca_ModSeq : Z; ca_Flags : Flags; ca_Keywords : list string;
  ca_MessageCountIMAP : Z; ca_Unseen : Z }.

Record ChangeRemoveUIDs := mkRemoveUIDs {
  cr_MailboxID : Z; cr_UIDs : list Z; cr_ModSeq : Z; cr_MsgIDs : list Z; cr_EmailIDs : list Z;
  cr_UIDNext : Z; cr_MessageCountIMAP : Z; cr_Unseen : Z }.

Record ChangeFlags := mkChangeFlags {
  cf_MailboxID : Z; cf_UID : Z; cf_MsgID : Z; cf_EmailID : Z; cf_ModSeq : Z;
  cf_Mask : Flags; cf_Flags : Flags; cf_Keywords : list string;
  cf_UIDValidity : Z; cf_Unseen : Z }.

Inductive Change :=
| CAddUID (c : ChangeAddUID)
| CRemoveUIDs (c : ChangeRemoveUIDs)
| CFlags (c : ChangeFlags)
| CThread (MessageIDs : list Z) (Muted Collapsed : bool)
| CAddMailbox (mb : Mailbox) (flags : list string)
| CRemoveMailbox (MailboxID : Z) (Name : string) (ModSeq : Z)
| CRenameMailbox (MailboxID : Z) (OldName NewName : string) (flags : list string) (ModSeq : Z)
| CAddSubscription (MailboxName : string) (ListFlags : list string)
| CRemoveSubscription (MailboxName : string) (ListFlags : list string)
| CMailboxCounts (MailboxID : Z) (MailboxName : string) (counts : MailboxCounts)
| CMailboxSpecialUse (MailboxID : Z) (MailboxName : string) (su : SpecialUse) (ModSeq : Z)
| CMailboxKeywords (MailboxID : Z) (MailboxName : string) (Keywords : list string)
| CAnnotation (MailboxID : Z) (MailboxName : string) (Key : string) (ModSeq : Z).

Definition ChangeModSeq (c : Change) : Z :=
  match c with
  | CAddUID c => ca_ModSeq c
  | CRemoveUIDs c => cr_ModSeq c
  | CFlags c => cf_ModSeq c
  | CThread _ _ _ => -1
  | CAddMailbox mb _ => mb_ModSeq mb
  | CRemoveMailbox _ _ ms => ms
  | CRenameMailbox _ _ _ _ ms => ms
  | CAddSubscription _ _ => -1
  | CRemoveSubscription _ _ => -1
  | CMailboxCounts _ _ _ => -1
  | CMailboxSpecialUse _ _ _ ms => ms
  | CMailboxKeywords _ _ _ => -1
  | CAnnotation _ _ _ ms => ms
  end.

Definition kindAddUID : Z := 1.
Definition kindRemoveUIDs : Z := 2.
Definition kindFlags : Z := 3.
Definition kindThread : Z := 4.
Definition kindAddMailbox : Z := 5.
Definition kindRemoveMailbox : Z := 6.
Definition kindRenameMailbox : Z := 7.
Definition kindAddSubscription : Z := 8.
Definition kindRemoveSubscription : Z := 9.
Definition kindMailboxCounts : Z := 10.
Definition kindMailboxSpecialUse : Z := 11.
Definition kindMailboxKeywords : Z := 12.
Definition kindAnnotation : Z := 13.

(** ** JSON documents *)

Inductive json :=
| JNull
| JBool (b : bool)
| JNum (z : Z)
| JDec (lit : string) (* a number with a fraction or an exponent, as it is written *)
| JStr (s : string)
| JArr (l : list json)
| JObj (l : list (string * json)).

Definition jint (z : Z) : json := JNum z.
Definition jstr (s : string) : json := JStr (coerce_utf8 s).
Definition jstrs (l : list string) : json := JArr (jstr <$> l).
Definition jints (l : list Z) : json := JArr (JNum <$> l).

Definition jflags (f : Flags) : json := JObj [
  ("Seen", JBool (Seen f)); ("Answered", JBool (Answered f)); ("Flagged", JBool (Flagged f));
  ("Forwarded", JBool (Forwarded f)); ("Junk", JBool (Junk f)); ("Notjunk", JBool (Notjunk f));
  ("Deleted", JBool (Deleted f)); ("Draft", JBool (Draft f)); ("Phishing", JBool (Phishing f));
  ("MDNSent", JBool (MDNSent f)) ].

Definition su_fields (su : SpecialUse) : list (string * json) := [
  ("Archive", JBool (su_Archive su)); ("Draft", JBool (su_Draft su)); ("Junk", JBool (su_Junk su));
  ("Sent", JBool (su_Sent su)); ("Trash", JBool (su_Trash su)) ].

Definition counts_fields (c : MailboxCounts) : list (string * json) := [
  ("Total", JNum (c_Total c)); ("Deleted", JNum (c_Deleted c)); ("Unread", JNum (c_Unread c));
  ("Unseen", JNum (c_Unseen c)); ("Size", JNum (c_Size c)) ].

(** [SpecialUse] and [MailboxCounts] are embedded in [Mailbox], and [Mailbox]
    in [ChangeAddMailbox], so their fields are promoted to the same object. *)
Definition mailbox_fields (mb : Mailbox) : list (string * json) :=
  [ ("ID", JNum (mb_ID mb)); ("AccountID", JNum (mb_AccountID mb));
    ("ParentID", JNum (mb_ParentID mb)); ("Name", jstr (mb_Name mb));
    ("UIDValidity", JNum (mb_UIDValidity mb)); ("UIDNext", JNum (mb_UIDNext mb));
    ("CreateSeq", JNum (mb_CreateSeq mb)); ("ModSeq", JNum (mb_ModSeq mb));
    ("Expunged", JBool (mb_Expunged mb)) ]
  ++ su_fields (mb_SpecialUse mb)
  ++ [ ("Subscribed", JBool (mb_Subscribed mb)); ("Keywords", jstrs (mb_Keywords mb)) ]
  ++ counts_fields (mb_Counts mb).

(** [json.Marshal] of a change. *)
Definition marshal (c : Change) : json :=
  match c with
  | CAddUID c => JObj [
      ("MailboxID", JNum (ca_MailboxID c)); ("UID", JNum (ca_UID c)); ("MsgID", JNum (ca_MsgID c));
      ("EmailID", JNum (ca_EmailID c)); ("EmailExistedBefore", JBool (ca_EmailExistedBefore c));
      ("ModSeq", JNum (ca_ModSeq c)); ("Flags", jflags (ca_Flags c));
      ("Keywords", jstrs (ca_Keywords c)); ("MessageCountIMAP", JNum (ca_MessageCountIMAP c));
      ("Unseen", JNum (ca_Unseen c)) ]
  | CRemoveUIDs c => JObj [
      ("MailboxID", JNum (cr_MailboxID c)); ("UIDs", jints (cr_UIDs c)); ("ModSeq", JNum (cr_ModSeq c));
      ("MsgIDs", jints (cr_MsgIDs c)); ("EmailIDs", jints (cr_EmailIDs c));
      ("UIDNext", JNum (cr_UIDNext c)); ("MessageCountIMAP", JNum (cr_MessageCountIMAP c));
      ("Unseen", JNum (cr_Unseen c)) ]
  | CFlags c => JObj [
      ("MailboxID", JNum (cf_MailboxID c)); ("UID", JNum (cf_UID c)); ("MsgID", JNum (cf_MsgID c));
      ("EmailID", JNum (cf_EmailID c)); ("ModSeq", JNum (cf_ModSeq c)); ("Mask", jflags (cf_Mask c));
      ("Flags", jflags (cf_Flags c)); ("Keywords", jstrs (cf_Keywords c));
      ("UIDValidity", JNum (cf_UIDValidity c)); ("Unseen", JNum (cf_Unseen c)) ]
  | CThread ids muted collapsed => JObj [
      ("MessageIDs", jints ids); ("Muted", JBool muted); ("Collapsed", JBool collapsed) ]
  | CAddMailbox mb flags => JObj (mailbox_fields mb ++ [("Flags", jstrs flags)])
  | CRemoveMailbox id name ms => JObj [
      ("MailboxID", JNum id); ("Name", jstr name); ("ModSeq", JNum ms) ]
  | CRenameMailbox id old new flags ms => JObj [
      ("MailboxID", JNum id); ("OldName", jstr old); ("NewName", jstr new);
      ("Flags", jstrs flags); ("ModSeq", JNum ms) ]
  | CAddSubscription name flags | CRemoveSubscription name flags => JObj [
      ("MailboxName", jstr name); ("ListFlags", jstrs flags) ]
  | CMailboxCounts id name counts =>
      JObj ([("MailboxID", JNum id); ("MailboxName", jstr name)] ++ counts_fields counts)
  | CMailboxSpecialUse id name su ms => JObj [
      ("MailboxID", JNum id); ("MailboxName", jstr name); ("SpecialUse", JObj (su_fields su));
      ("ModSeq", JNum ms) ]
  | CMailboxKeywords id name kws => JObj [
      ("MailboxID", JNum id); ("MailboxName", jstr name); ("Keywords", jstrs kws) ]
  | CAnnotation id name key ms => JObj [
      ("MailboxID", JNum id); ("MailboxName", jstr name); ("Key", jstr key); ("ModSeq", JNum ms) ]
  end.

(** [encodeChange]: the kind code, the mailbox id for the per-mailbox replay
    index (0 when there is none) and the payload. *)
Definition encodeChange (c : Change) : Z * Z * json :=
  let '(kind, mailboxID) :=
    match c with
    | CAddUID v => (kindAddUID, ca_MailboxID v)
    | CRemoveUIDs v => (kindRemoveUIDs, cr_MailboxID v)
    | CFlags v => (kindFlags, cf_MailboxID v)
    | CThread _ _ _ => (kindThread, 0)
    | CAddMailbox mb _ => (kindAddMailbox, mb_ID mb)
    | CRemoveMailbox id _ _ => (kindRemoveMailbox, id)
    | CRenameMailbox id _ _ _ _ => (kindRenameMailbox, id)
    | CAddSubscription _ _ => (kindAddSubscription, 0)
    | CRemoveSubscription _ _ => (kindRemoveSubscription, 0)
    | CMailboxCounts id _ _ => (kindMailboxCounts, id)
    | CMailboxSpecialUse id _ _ _ => (kindMailboxSpecialUse, id)
    | CMailboxKeywords id _ _ => (kindMailboxKeywords, id)
    | CAnnotation id _ _ _ => (kindAnnotation, id)
    end in
  (kind, mailboxID, marshal c).

(** ** Decoding *)

(** The value of a field; an absent field, like [null], leaves the zero value. *)
Fixpoint field (k : string) (l : list (string * json)) : json :=
  match l with
  | [] => JNull
  | (k', v) :: l => if String.eqb k' k then v else field k l
  end.

Definition obj (j : json) : result (list (string * json)) :=
  match j with JObj l => Ok l | JNull => Ok [] | _ => Err ErrDecode end.
Definition dec_bool (j : json) : result bool :=
  match j with JBool b => Ok b | JNull => Ok false | _ => Err ErrDecode end.
Definition dec_str (j : json) : result string :=
  match j with JStr s => Ok s | JNull => Ok EmptyString | _ => Err ErrDecode end.
Definition dec_int (lo hi : Z) (j : json) : result Z :=
  match j with
  | JNum z => if (lo <=? z) && (z <=? hi) then Ok z else Err ErrDecode
  | JNull => Ok 0
  | _ => Err ErrDecode
  end.
Definition dec_int64 : json -> result Z := dec_int min_int64 max_int64.
Definition dec_uint32 : json -> result Z := dec_int 0 (2 ^ 32 - 1).
Fixpoint rmap {A B} (f : A -> result B) (l : list A) : result (list B) :=
  match l with
  | [] => Ok []
  | x :: l => rbind (f x) (fun y => rbind (rmap f l) (fun ys => Ok (y :: ys)))
  end.
Definition dec_list {A} (f : json -> result A) (j : json) : result (list A) :=
  match j with JArr l => rmap f l | JNull => Ok [] | _ => Err ErrDecode end.

Local Open Scope go_scope.

Definition dec_flags (j : json) : result Flags :=
  try! o := obj j in
  try! seen := dec_bool (field "Seen" o) in
  try! answered := dec_bool (field "Answered" o) in
  try! flagged := dec_bool (field "Flagged" o) in
  try! forwarded := dec_bool (field "Forwarded" o) in
  try! junk := dec_bool (field "Junk" o) in
  try! notjunk := dec_bool (field "Notjunk" o) in
  try! deleted := dec_bool (field "Deleted" o) in
  try! draft := dec_bool (field "Draft" o) in
  try! phishing := dec_bool (field "Phishing" o) in
  try! mdnsent := dec_bool (field "MDNSent" o) in
  Ok (mkFlags seen answered flagged forwarded junk notjunk deleted draft phishing mdnsent).

Definition dec_su (o : list (string * json)) : result SpecialUse :=
  try! a := dec_bool (field "Archive" o) in
  try! d := dec_bool (field "Draft" o) in
  try! j := dec_bool (field "Junk" o) in
  try! s := dec_bool (field "Sent" o) in
  try! t := dec_bool (field "Trash" o) in
  Ok (mkSpecialUse a d j s t).

Definition dec_counts (o : list (string * json)) : result MailboxCounts :=
  try! total := dec_int64 (field "Total" o) in
  try! deleted := dec_int64 (field "Deleted" o) in
  try! unread := dec_int64 (field "Unread" o) in
  try! unseen := dec_int64 (field "Unseen" o) in
  try! size := dec_int64 (field "Size" o) in
  Ok (mkCounts total deleted unread unseen size).

Definition dec_mailbox (o : list (string * json)) : result Mailbox :=
  try! id := dec_int64 (field "ID" o) in
  try! acc := dec_int64 (field "AccountID" o) in
  try! parent := dec_int64 (field "ParentID" o) in
  try! name := dec_str (field "Name" o) in
  try! uidvalidity := dec_uint32 (field "UIDValidity" o) in
  try! uidnext := dec_uint32 (field "UIDNext" o) in
  try! createseq := dec_int64 (field "CreateSeq" o) in
  try! modseq := dec_int64 (field "ModSeq" o) in
  try! expunged := dec_bool (field "Expunged" o) in
  try! su := dec_su o in
  try! subscribed := dec_bool (field "Subscribed" o) in
  try! keywords := dec_list dec_str (field "Keywords" o) in
  try! counts := dec_counts o in
  Ok (mkMailbox id acc parent name uidvalidity uidnext createseq modseq expunged su
        subscribed keywords counts).

Definition dec_add_uid (o : list (string * json)) : result Change :=
  try! mb := dec_int64 (field "MailboxID" o) in
  try! uid := dec_uint32 (field "UID" o) in
  try! msg := dec_int64 (field "MsgID" o) in
  try! email := dec_int64 (field "EmailID" o) in
  try! existed := dec_bool (field "EmailExistedBefore" o) in
  try! ms := dec_int64 (field "ModSeq" o) in
  try! flags := dec_flags (field "Flags" o) in
  try! kws := dec_list dec_str (field "Keywords" o) in
  try! count := dec_uint32 (field "MessageCountIMAP" o) in
  try! unseen := dec_uint32 (field "Unseen" o) in
  Ok (CAddUID (mkAddUID mb uid msg email existed ms flags kws count unseen)).

Definition dec_remove_uids (o : list (string * json)) : result Change :=
  try! mb := dec_int64 (field "MailboxID" o) in
  try! uids := dec_list dec_uint32 (field "UIDs" o) in
  try! ms := dec_int64 (field "ModSeq" o) in
  try! ids := dec_list dec_int64 (field "MsgIDs" o) in
  try! emails := dec_list dec_int64 (field "EmailIDs" o) in
  try! uidnext := dec_uint32 (field "UIDNext" o) in
  try! count := dec_uint32 (field "MessageCountIMAP" o) in
  try! unseen := dec_uint32 (field "Unseen" o) in
  Ok (CRemoveUIDs (mkRemoveUIDs mb uids ms ids emails uidnext count unseen)).

Definition dec_change_flags (o : list (string * json)) : result Change :=
  try! mb := dec_int64 (field "MailboxID" o) in
  try! uid := dec_uint32 (field "UID" o) in
  try! msg := dec_int64 (field "MsgID" o) in
  try! email := dec_int64 (field "EmailID" o) in
  try! ms := dec_int64 (field "ModSeq" o) in
  try! mask := dec_flags (field "Mask" o) in
  try! flags := dec_flags (field "Flags" o) in
  try! kws := dec_list dec_str (field "Keywords" o) in
  try! uidv := dec_uint32 (field "UIDValidity" o) in
  try! unseen := dec_uint32 (field "Unseen" o) in
  Ok (CFlags (mkChangeFlags mb uid msg email ms mask flags kws uidv unseen)).

Definition dec_subscription (o : list (string * json)) : result (string * list string) :=
  try! name := dec_str (field "MailboxName" o) in
  try! flags := dec_list dec_str (field "ListFlags" o) in
  Ok (name, flags).

(** [decodeChange]: the kind selects the struct the payload is read into. *)
Definition decodeChange (kind : Z) (payload : json) : result Change :=
  if kind =? kindAddUID then try! o := obj payload in dec_add_uid o
  else if kind =? kindRemoveUIDs then try! o := obj payload in dec_remove_uids o
  else if kind =? kindFlags then try! o := obj payload in dec_change_flags o
  else if kind =? kindThread then
    try! o := obj payload in
    try! ids := dec_list dec_int64 (field "MessageIDs" o) in
    try! muted := dec_bool (field "Muted" o) in
    try! collapsed := dec_bool (field "Collapsed" o) in
    Ok (CThread ids muted collapsed)
  else if kind =? kindAddMailbox then
    try! o := obj payload in
    try! mb := dec_mailbox o in
    try! flags := dec_list dec_str (field "Flags" o) in
    Ok (CAddMailbox mb flags)
  else if kind =? kindRemoveMailbox then
    try! o := obj payload in
    try! id := dec_int64 (field "MailboxID" o) in
    try! name := dec_str (field "Name" o) in
    try! ms := dec_int64 (field "ModSeq" o) in
    Ok (CRemoveMailbox id name ms)
  else if kind =? kindRenameMailbox then
    try! o := obj payload in
    try! id := dec_int64 (field "MailboxID" o) in
    try! old := dec_str (field "OldName" o) in
    try! new := dec_str (field "NewName" o) in
    try! flags := dec_list dec_str (field "Flags" o) in
    try! ms := dec_int64 (field "ModSeq" o) in
    Ok (CRenameMailbox id old new flags ms)
  else if kind =? kindAddSubscription then
    try! o := obj payload in
    try! p := dec_subscription o in Ok (CAddSubscription p.1 p.2)
  else if kind =? kindRemoveSubscription then
    try! o := obj payload in
    try! p := dec_subscription o in Ok (CRemoveSubscription p.1 p.2)
  else if kind =? kindMailboxCounts then
    try! o := obj payload in
    try! id := dec_int64 (field "MailboxID" o) in
    try! name := dec_str (field "MailboxName" o) in
    try! counts := dec_counts o in
    Ok (CMailboxCounts id name counts)
  else if kind =? kindMailboxSpecialUse then
    try! o := obj payload in
    try! id := dec_int64 (field "MailboxID" o) in
    try! name := dec_str (field "MailboxName" o) in
    try! so := obj (field "SpecialUse" o) in
    try! su := dec_su so in
    try! ms := dec_int64 (field "ModSeq" o) in
    Ok (CMailboxSpecialUse id name su ms)
  else if kind =? kindMailboxKeywords then
    try! o := obj payload in
    try! id := dec_int64 (field "MailboxID" o) in
    try! name := dec_str (field "MailboxName" o) in
    try! kws := dec_list dec_str (field "Keywords" o) in
    Ok (CMailboxKeywords id name kws)
  else if kind =? kindAnnotation then
    try! o := obj payload in
    try! id := dec_int64 (field "MailboxID" o) in
    try! name := dec_str (field "MailboxName" o) in
    try! key := dec_str (field "Key" o) in
    try! ms := dec_int64 (field "ModSeq" o) in
    Ok (CAnnotation id name key ms)
  else Err errUnknownChange.

(** ** Well-typed changes: every integer fits the Go type of its field and
    every string is valid UTF-8. *)

Definition is_u32 (z : Z) : bool := (0 <=? z) && (z <=? 2 ^ 32 - 1).
#[local] Arguments is_u32 : simpl never.
#[local] Arguments forallb : simpl never.

Definition counts_typed (c : MailboxCounts) : bool :=
  is_i64 (c_Total c) && is_i64 (c_Deleted c) && is_i64 (c_Unread c)
  && is_i64 (c_Unseen c) && is_i64 (c_Size c).

Definition mailbox_typed (mb : Mailbox) : bool :=
  is_i64 (mb_ID mb) && is_i64 (mb_AccountID mb) && is_i64 (mb_ParentID mb)
  && valid_utf8 (mb_Name mb) && is_u32 (mb_UIDValidity mb) && is_u32 (mb_UIDNext mb)
  && is_i64 (mb_CreateSeq mb) && is_i64 (mb_ModSeq mb)
  && forallb valid_utf8 (mb_Keywords mb) && counts_typed (mb_Counts mb).

Definition change_typed (c : Change) : bool :=
  match c with
  | CAddUID c =>
      is_i64 (ca_MailboxID c) && is_u32 (ca_UID c) && is_i64 (ca_MsgID c)
      && is_i64 (ca_EmailID c) && is_i64 (ca_ModSeq c) && forallb valid_utf8 (ca_Keywords c)
      && is_u32 (ca_MessageCountIMAP c) && is_u32 (ca_Unseen c)
  | CRemoveUIDs c =>
      is_i64 (cr_MailboxID c) && forallb is_u32 (cr_UIDs c) && is_i64 (cr_ModSeq c)
      && forallb is_i64 (cr_MsgIDs c) && forallb is_i64 (cr_EmailIDs c)
      && is_u32 (cr_UIDNext c) && is_u32 (cr_MessageCountIMAP c) && is_u32 (cr_Unseen c)
  | CFlags c =>
      is_i64 (cf_MailboxID c) && is_u32 (cf_UID c) && is_i64 (cf_MsgID c)
      && is_i64 (cf_EmailID c) && is_i64 (cf_ModSeq c) && forallb valid_utf8 (cf_Keywords c)
      && is_u32 (cf_UIDValidity c) && is_u32 (cf_Unseen c)
  | CThread ids _ _ => forallb is_i64 ids
  | CAddMailbox mb flags => mailbox_typed mb && forallb valid_utf8 flags
  | CRemoveMailbox id name ms => is_i64 id && valid_utf8 name && is_i64 ms
  | CRenameMailbox id old new flags ms =>
      is_i64 id && valid_utf8 old && valid_utf8 new && forallb valid_utf8 flags && is_i64 ms
  | CAddSubscription name flags | CRemoveSubscription name flags =>
      valid_utf8 name && forallb valid_utf8 flags
  | CMailboxCounts id name counts => is_i64 id && valid_utf8 name && counts_typed counts
  | CMailboxSpecialUse id name _ ms => is_i64 id && valid_utf8 name && is_i64 ms
  | CMailboxKeywords id name kws => is_i64 id && valid_utf8 name && forallb valid_utf8 kws
  | CAnnotation id name key ms => is_i64 id && valid_utf8 name && valid_utf8 key && is_i64 ms
  end.

(** ** Theorems *)

Lemma dec_int64_num z : is_i64 z = true -> dec_int64 (JNum z) = Ok z.
Proof. unfold dec_int64, dec_int, is_i64. by intros ->. Qed.

Lemma dec_uint32_num z : is_u32 z = true -> dec_uint32 (JNum z) = Ok z.
Proof. unfold dec_uint32, dec_int, is_u32. by intros ->. Qed.

Lemma dec_str_jstr s : valid_utf8 s = true -> dec_str (jstr s) = Ok s.
Proof. intros H. unfold dec_str, jstr. by rewrite coerce_valid. Qed.

Lemma rmap_fmap {A} (P : A -> bool) (enc : A -> json) (dec : json -> result A) l :
  (forall x, P x = true -> dec (enc x) = Ok x) ->
  forallb P l = true -> rmap dec (enc <$> l) = Ok l.
Proof.
  intros H. induction l as [|x l IH]; [done|].
  intros [Hx Hl]%andb_prop. rewrite fmap_cons. cbn [rmap].
  rewrite (H x Hx). cbn [rbind]. by rewrite IH.
Qed.

Lemma dec_strs l : forallb valid_utf8 l = true -> dec_list dec_str (jstrs l) = Ok l.
Proof. apply rmap_fmap. apply dec_str_jstr. Qed.

Lemma dec_ints64 l : forallb is_i64 l = true -> dec_list dec_int64 (jints l) = Ok l.
Proof. apply rmap_fmap. apply dec_int64_num. Qed.

Lemma dec_uints32 l : forallb is_u32 l = true -> dec_list dec_uint32 (jints l) = Ok l.
Proof. apply rmap_fmap. apply dec_uint32_num. Qed.

Lemma dec_flags_jflags f : dec_flags (jflags f) = Ok f.
Proof. by destruct f. Qed.

Create Rewrite HintDb octo_json.
#[export] Hint Rewrite dec_int64_num dec_uint32_num dec_str_jstr dec_strs dec_ints64
  dec_uints32 dec_flags_jflags using assumption : octo_json.

(** Decode field after field with the lemmas above. *)
Ltac json_crush :=
  cbn -[dec_int64 dec_uint32 dec_str dec_list jstr jstrs jints jflags dec_flags];
  repeat first [ progress autorewrite with octo_json
               | progress cbn -[dec_int64 dec_uint32 dec_str dec_list jstr jstrs jints jflags dec_flags] ].

Lemma dec_mailbox_fields mb rest :
  mailbox_typed mb = true ->
  dec_mailbox (mailbox_fields mb ++ rest) = Ok mb.
Proof.
  destruct mb as [id acc par name uv un cs ms ex [] sub kws []].
  unfold mailbox_typed, counts_typed. cbn. intros H. b2p.
  unfold dec_mailbox, mailbox_fields, dec_su, dec_counts. by json_crush.
Qed.

Lemma decode_add_mailbox mb flags :
  mailbox_typed mb = true -> forallb valid_utf8 flags = true ->
  decodeChange kindAddMailbox (marshal (CAddMailbox mb flags)) = Ok (CAddMailbox mb flags).
Proof.
  intros H Hf.
  change (rbind (dec_mailbox (mailbox_fields mb ++ [("Flags"%string, jstrs flags)])) (fun mb' =>
    rbind (dec_list dec_str (field "Flags" (mailbox_fields mb ++ [("Flags"%string, jstrs flags)])))
      (fun fl => Ok (CAddMailbox mb' fl))) = Ok (CAddMailbox mb flags)).
  rewrite dec_mailbox_fields by done. by json_crush.
Qed.

(** [C38] [C40]: the change-log encoding is lossless: for every one of the thirteen
    variants, decoding the stored (kind, payload) of a well-typed change gives
    back the same change, so a replayed entry equals the in-process one. *)
Theorem decode_encode (c : Change) (kind mbID : Z) (payload : json) :
  change_typed c = true ->
  encodeChange c = (kind, mbID, payload) ->
  decodeChange kind payload = Ok c.
Proof.
  intros Hc Henc.
  destruct c; unfold encodeChange in Henc; injection Henc as <- <- <-;
    unfold change_typed in Hc.
  5: { apply andb_prop in Hc as [? ?]. by apply decode_add_mailbox. }
  all: try (destruct c); try (destruct counts); try (destruct su);
    unfold counts_typed in Hc; cbn in Hc; b2p;
    unfold decodeChange, dec_add_uid, dec_remove_uids, dec_change_flags,
      dec_subscription, dec_counts, dec_su, marshal; by json_crush.
Qed.

Lemma decode_encode_witness :
  let c := CRemoveUIDs (mkRemoveUIDs 7 [3; 5] 42 [11; 12] [11; 12] 0 0 0) in
  change_typed c = true /\
  decodeChange kindRemoveUIDs (marshal c) = Ok c.
Proof.
  split; [reflexivity|].
  apply (decode_encode _ kindRemoveUIDs 7); reflexivity.
Defined.
