(* ===== verification/Blob.v ===== *)
(** * Blob store (storage/blob/blob.go)

    [BlobOps] is the Go interface [blob.Store]; [BlobLaws] is what its comments
    promise to the kernel (content addressing, idempotence, tenant scoping).
    [Module Fs] is the file-system implementation, for which the laws are
    proved.  SHA-256 is the standard library's; it is the parameter
    [sha256_hex], of which only the shape of the result is used. *)

From S2P Require Import Prelude GoStrings.

(** [Ref.Valid]: 64 lower-case hexadecimal characters. *)
Definition is_lower_hex (c : ascii) : bool := in_range 48 57 c || in_range 97 102 c.
Definition Valid (r : string) : bool :=
  if negb (Nat.eqb (length (bytes_of r)) 64) then false
  else forallb is_lower_hex (bytes_of r).

(** A body handed to [Put]: what [Size] reports and what reading yields. *)
Record BlobReader := mkReader { rd_Size : Z; rd_data : result string }.

Class BlobOps := {
  blob_state : Type;
  blob_Put : Z -> string -> blob_state -> result (string * Z) * blob_state;
  blob_Open : Z -> string -> blob_state -> result string;
  blob_Delete : Z -> string -> blob_state -> result unit * blob_state }.

Class BlobLaws `{BlobOps} := {
  put_open tenant data s ref n s' :
    blob_Put tenant data s = (Ok (ref, n), s') ->
    exists data', blob_Open tenant ref s' = Ok data' /\
      (data' = data \/ blob_Open tenant ref s = Ok data');
  put_size tenant data s ref n s' :
    blob_Put tenant data s = (Ok (ref, n), s') -> n = Z.of_nat (String.length data);
  put_keeps tenant data s r s' tenant' ref' d :
    blob_Put tenant data s = (r, s') ->
    blob_Open tenant' ref' s = Ok d -> blob_Open tenant' ref' s' = Ok d;
  delete_other tenant ref s r s' tenant' ref' :
    blob_Delete tenant ref s = (r, s') -> (tenant', ref') <> (tenant, ref) ->
    blob_Open tenant' ref' s' = blob_Open tenant' ref' s;
  delete_gone tenant ref s s' d :
    blob_Delete tenant ref s = (Ok tt, s') -> blob_Open tenant ref s' <> Ok d }.

Module Fs.
Section Fs.
Variable sha256_hex : string -> string.

(** The files under the root, by tenant and content hash. *)
Abbreviation files := (gmap (Z * string) string).

Definition path (tenantID : Z) (ref : string) : Z * string := (tenantID, ref).

Definition Put (tenantID : Z) (data : string) (fs : files) : result (string * Z) * files :=
  let n := Z.of_nat (String.length data) in
  let ref := sha256_hex data in
  let dst := path tenantID ref in
  match fs !! dst with
  | Some _ => (Ok (ref, n), fs)
  | None => (Ok (ref, n), <[dst:=data]> fs)
  end.

Definition Open (tenantID : Z) (ref : string) (fs : files) : result string :=
  if negb (Valid ref) then Err ErrBadRef
  else match fs !! path tenantID ref with
       | Some data => Ok data
       | None => Err ErrBlobNotFound
       end.

Definition Delete (tenantID : Z) (ref : string) (fs : files) : result unit * files :=
  if negb (Valid ref) then (Err ErrBadRef, fs)
  else (Ok tt, delete (path tenantID ref) fs).

#[global] Instance fs_ops : BlobOps := {|
  blob_state := files; blob_Put := Put; blob_Open := Open; blob_Delete := Delete |}.

Hypothesis sha256_hex_valid : forall data, Valid (sha256_hex data) = true.

(** Storing a body makes it readable under its reference, unless another body
    with the same hash is already there, which is kept. *)
Lemma fs_put_open t data fs ref n fs' :
  Put t data fs = (Ok (ref, n), fs') ->
  exists data', Open t ref fs' = Ok data' /\ (data' = data \/ Open t ref fs = Ok data').
Proof.
  unfold Put, Open. intros H. cbv zeta in H.
  destruct (fs !! path t (sha256_hex data)) as [old|] eqn:E; injection H as <- <- <-;
    rewrite sha256_hex_valid; simpl.
  - rewrite E. exists old. auto.
  - rewrite lookup_insert_eq. exists data. auto.
Qed.

Lemma fs_put_size t data fs ref n fs' :
  Put t data fs = (Ok (ref, n), fs') -> n = Z.of_nat (String.length data).
Proof.
  unfold Put. intros H. cbv zeta in H.
  destruct (fs !! path t (sha256_hex data)) eqn:E; injection H as H1 H2 H3; by subst.
Qed.

Lemma fs_put_keeps t data fs r fs' t' ref' d :
  Put t data fs = (r, fs') -> Open t' ref' fs = Ok d -> Open t' ref' fs' = Ok d.
Proof.
  unfold Put, Open. intros H Ho. cbv zeta in H. destruct (Valid ref'); simpl in *; [|done].
  destruct (fs !! path t' ref') eqn:E; [|done]. injection Ho as ->.
  destruct (fs !! path t (sha256_hex data)) eqn:E2; injection H as <- <-; [by rewrite E|].
  rewrite lookup_insert_ne; [by rewrite E|]. congruence.
Qed.

Lemma fs_delete_other t ref fs r fs' t' ref' :
  Delete t ref fs = (r, fs') -> (t', ref') <> (t, ref) -> Open t' ref' fs' = Open t' ref' fs.
Proof.
  unfold Delete, Open. intros H Hne.
  destruct (Valid ref); simpl in *; injection H as <- <-; [|done].
  rewrite lookup_delete_ne; [done|]. unfold path. congruence.
Qed.

Lemma fs_delete_gone t ref fs fs' d : Delete t ref fs = (Ok tt, fs') -> Open t ref fs' <> Ok d.
Proof.
  unfold Delete, Open. destruct (Valid ref); simpl; [|done]. intros [= <-]. by rewrite lookup_delete_eq.
Qed.

#[global] Instance fs_laws : BlobLaws.
Proof.
  split; [apply fs_put_open | apply fs_put_size | apply fs_put_keeps | apply fs_delete_other | apply fs_delete_gone].
Qed.

(** Put is idempotent: the second call stores nothing new. *)
Lemma fs_put_idem t data fs :
  Put t data (Put t data fs).2 = Put t data fs.
Proof.
  unfold Put. cbv zeta. destruct (fs !! path t (sha256_hex data)) eqn:E; simpl; [by rewrite E|].
  by rewrite lookup_insert_eq.
Qed.

End Fs.
End Fs.
