(* ===== verification/Database.v ===== *)
(** * The PostgreSQL tables the kernel writes (storage/postgres/schema)

    One finite map per table, keyed by the primary key (the identity columns of
    [mailboxes] and [messages] are one global sequence each, so a row id alone
    is a key).  SQL statements of the Go code are functions on this state; the
    constraints the schema declares (primary keys, unique indexes, foreign
    keys, [bigint] range, [text]/[jsonb] validity) are checked where a
    statement can violate them. *)

From S2P Require Import Prelude GoStrings Shapes Changes.

Record account := mkAccount { acc_id : Z; acc_tenantID : Z }.

Record AccountRow := mkAccountRow {
  ar_tenant_id : Z; ar_name : string; ar_changelog_seq : Z;
  ar_uidvalidity_next : Z; ar_quota_bytes : option Z }.

Record LogRow := mkLogRow { lr_kind : Z; lr_mailbox_id : option Z; lr_payload : json }.

Record DB := mkDB {
  db_accounts : gmap Z AccountRow;
  db_tenants : gmap Z (option Z);                (* quota_bytes *)
  db_mailboxes : gmap Z Mailbox;
  db_messages : gmap Z Message;
  db_changelog : gmap (Z * Z) LogRow;            (* (account_id, seq) *)
  db_quota : gmap (Z * Z) (Z * Z);               (* (scope_type, scope_id) -> bytes, count *)
  db_annotations : gmap (Z * Z * string) (string * bool);
  db_mailbox_ids : Z;                            (* identity sequences *)
  db_message_ids : Z }.

Definition set_accounts v d := mkDB v (db_tenants d) (db_mailboxes d) (db_messages d) (db_changelog d) (db_quota d) (db_annotations d) (db_mailbox_ids d) (db_message_ids d).
Definition set_mailboxes v d := mkDB (db_accounts d) (db_tenants d) v (db_messages d) (db_changelog d) (db_quota d) (db_annotations d) (db_mailbox_ids d) (db_message_ids d).
Definition set_messages v d := mkDB (db_accounts d) (db_tenants d) (db_mailboxes d) v (db_changelog d) (db_quota d) (db_annotations d) (db_mailbox_ids d) (db_message_ids d).
Definition set_changelog v d := mkDB (db_accounts d) (db_tenants d) (db_mailboxes d) (db_messages d) v (db_quota d) (db_annotations d) (db_mailbox_ids d) (db_message_ids d).
Definition set_quota v d := mkDB (db_accounts d) (db_tenants d) (db_mailboxes d) (db_messages d) (db_changelog d) v (db_annotations d) (db_mailbox_ids d) (db_message_ids d).
Definition set_annotations v d := mkDB (db_accounts d) (db_tenants d) (db_mailboxes d) (db_messages d) (db_changelog d) (db_quota d) v (db_mailbox_ids d) (db_message_ids d).
Definition set_mailbox_ids v d := mkDB (db_accounts d) (db_tenants d) (db_mailboxes d) (db_messages d) (db_changelog d) (db_quota d) (db_annotations d) v (db_message_ids d).
Definition set_message_ids v d := mkDB (db_accounts d) (db_tenants d) (db_mailboxes d) (db_messages d) (db_changelog d) (db_quota d) (db_annotations d) (db_mailbox_ids d) v.

(** Row updates. *)
Definition ar_set_seq v r := mkAccountRow (ar_tenant_id r) (ar_name r) v (ar_uidvalidity_next r) (ar_quota_bytes r).
Definition ar_set_uidvalidity v r := mkAccountRow (ar_tenant_id r) (ar_name r) (ar_changelog_seq r) v (ar_quota_bytes r).

Definition mb_set_name v b := mkMailbox (mb_ID b) (mb_AccountID b) (mb_ParentID b) v (mb_UIDValidity b) (mb_UIDNext b) (mb_CreateSeq b) (mb_ModSeq b) (mb_Expunged b) (mb_SpecialUse b) (mb_Subscribed b) (mb_Keywords b) (mb_Counts b).
Definition mb_set_uidnext v b := mkMailbox (mb_ID b) (mb_AccountID b) (mb_ParentID b) (mb_Name b) (mb_UIDValidity b) v (mb_CreateSeq b) (mb_ModSeq b) (mb_Expunged b) (mb_SpecialUse b) (mb_Subscribed b) (mb_Keywords b) (mb_Counts b).
Definition mb_set_modseq v b := mkMailbox (mb_ID b) (mb_AccountID b) (mb_ParentID b) (mb_Name b) (mb_UIDValidity b) (mb_UIDNext b) (mb_CreateSeq b) v (mb_Expunged b) (mb_SpecialUse b) (mb_Subscribed b) (mb_Keywords b) (mb_Counts b).
Definition mb_set_expunged v b := mkMailbox (mb_ID b) (mb_AccountID b) (mb_ParentID b) (mb_Name b) (mb_UIDValidity b) (mb_UIDNext b) (mb_CreateSeq b) (mb_ModSeq b) v (mb_SpecialUse b) (mb_Subscribed b) (mb_Keywords b) (mb_Counts b).
Definition mb_set_su v b := mkMailbox (mb_ID b) (mb_AccountID b) (mb_ParentID b) (mb_Name b) (mb_UIDValidity b) (mb_UIDNext b) (mb_CreateSeq b) (mb_ModSeq b) (mb_Expunged b) v (mb_Subscribed b) (mb_Keywords b) (mb_Counts b).
Definition mb_set_subscribed v b := mkMailbox (mb_ID b) (mb_AccountID b) (mb_ParentID b) (mb_Name b) (mb_UIDValidity b) (mb_UIDNext b) (mb_CreateSeq b) (mb_ModSeq b) (mb_Expunged b) (mb_SpecialUse b) v (mb_Keywords b) (mb_Counts b).
Definition mb_set_counts v b := mkMailbox (mb_ID b) (mb_AccountID b) (mb_ParentID b) (mb_Name b) (mb_UIDValidity b) (mb_UIDNext b) (mb_CreateSeq b) (mb_ModSeq b) (mb_Expunged b) (mb_SpecialUse b) (mb_Subscribed b) (mb_Keywords b) v.

(** The columns [UPDATE messages SET f_*, keywords, modseq] assigns. *)
Definition m_set_flags (f : Flags) (kws : list string) (ms : Z) (m : Message) : Message :=
  mkMessage (m_ID m) (m_AccountID m) (m_MailboxID m) (m_UID m) (m_CreateSeq m) ms (m_Expunged m)
    f kws (m_BlobRef m) (m_Size m) (m_ThreadID m) (m_EmailID m) (m_Received m) (m_SaveDate m)
    (m_MsgPrefix m) (m_Subject m) (m_FromAddr m) (m_ToAddrs m) (m_FromSearch m) (m_ToSearch m)
    (m_Preview m) (m_SummaryFolded m).
(** The columns [UPDATE messages SET expunged, modseq] assigns. *)
Definition m_set_expunged (e : bool) (ms : Z) (m : Message) : Message :=
  mkMessage (m_ID m) (m_AccountID m) (m_MailboxID m) (m_UID m) (m_CreateSeq m) ms e
    (m_Flags m) (m_Keywords m) (m_BlobRef m) (m_Size m) (m_ThreadID m) (m_EmailID m) (m_Received m)
    (m_SaveDate m) (m_MsgPrefix m) (m_Subject m) (m_FromAddr m) (m_ToAddrs m) (m_FromSearch m)
    (m_ToSearch m) (m_Preview m) (m_SummaryFolded m).

(** A [bigint] expression out of range is an error, never a wrap-around. *)
Definition bigint (z : Z) : result Z := if is_i64 z then Ok z else Err ErrOutOfRange.

(** Every string in a [jsonb] document must be free of NUL. *)
Fixpoint jsonb_ok (j : json) : bool :=
  match j with
  | JStr s => negb (has_nul s)
  | JArr l => forallb jsonb_ok l
  | JObj l => (fix go (l : list (string * json)) : bool :=
                 match l with [] => true | (_, v) :: l => jsonb_ok v && go l end) l
  | _ => true
  end.

(** The rows of [mailboxes] matching a predicate, and of [messages]. *)
Definition mailboxes_where (p : Mailbox -> bool) (d : DB) : list Mailbox :=
  filter (fun b => p b = true) (snd <$> map_to_list (db_mailboxes d)).
Definition messages_where (p : Message -> bool) (d : DB) : list Message :=
  filter (fun m => p m = true) (snd <$> map_to_list (db_messages d)).

(** [WHERE account_id=$1 AND name=$2 AND NOT expunged]. *)
Definition live_named (acc : Z) (name : string) (b : Mailbox) : bool :=
  (mb_AccountID b =? acc) && String.eqb (mb_Name b) name && negb (mb_Expunged b).

(** [mailboxes_name_idx]: would a live row of this name clash? *)
Definition name_taken (acc : Z) (name : string) (but : Z) (d : DB) : bool :=
  bool_decide (mailboxes_where (fun b => live_named acc name b && negb (mb_ID b =? but)) d <> []).

(** [UNIQUE (account_id, mailbox_id, uid)] of [messages]. *)
Definition uid_taken (acc mb uid : Z) (d : DB) : bool :=
  bool_decide (messages_where (fun m => (m_AccountID m =? acc) && (m_MailboxID m =? mb)
                                        && (m_UID m =? uid)) d <> []).

(** ** Lemmas *)

Lemma elem_mailboxes_where p d b :
  b ∈ mailboxes_where p d <-> p b = true /\ exists k, db_mailboxes d !! k = Some b.
Proof.
  unfold mailboxes_where. rewrite list_elem_of_filter, list_elem_of_fmap. split.
  - intros [Hp ([k b'] & -> & Hin)]. split; [done|]. exists k. by apply elem_of_map_to_list in Hin.
  - intros [Hp [k Hk]]. split; [done|]. exists (k, b). split; [done|]. by apply elem_of_map_to_list.
Qed.

Lemma elem_messages_where p d m :
  m ∈ messages_where p d <-> p m = true /\ exists k, db_messages d !! k = Some m.
Proof.
  unfold messages_where. rewrite list_elem_of_filter, list_elem_of_fmap. split.
  - intros [Hp ([k m'] & -> & Hin)]. split; [done|]. exists k. by apply elem_of_map_to_list in Hin.
  - intros [Hp [k Hk]]. split; [done|]. exists (k, m). split; [done|]. by apply elem_of_map_to_list.
Qed.

Lemma where_nil {A} (l : list A) : bool_decide (l <> []) = false <-> l = [].
Proof.
  rewrite bool_decide_eq_false. split; [|intros ->; tauto].
  intros H. destruct l; [done|]. exfalso. by apply H.
Qed.

Lemma uid_taken_false acc mb uid d :
  uid_taken acc mb uid d = false <->
  forall k m, db_messages d !! k = Some m ->
    m_AccountID m = acc -> m_MailboxID m = mb -> m_UID m <> uid.
Proof.
  unfold uid_taken. rewrite where_nil. split.
  - intros H k m Hk Ha Hm Hu.
    assert (Hin : m ∈ messages_where (fun m => (m_AccountID m =? acc) && (m_MailboxID m =? mb)
                                        && (m_UID m =? uid)) d).
    { apply elem_messages_where. split; [|by exists k].
      rewrite Ha, Hm, Hu, !Z.eqb_refl. done. }
    rewrite H in Hin. set_solver.
  - intros H. destruct (messages_where _ d) as [|m l] eqn:E; [done|]. exfalso.
    assert (Hin : m ∈ m :: l) by set_solver. rewrite <- E in Hin.
    apply elem_messages_where in Hin as [Hp [k Hk]]. b2p. by eapply H.
Qed.

Lemma bigint_ok z z' : bigint z = Ok z' -> z' = z /\ is_i64 z = true.
Proof. unfold bigint. destruct (is_i64 z) eqn:E; [|done]. intros H. by injection H as <-. Qed.
