(* ===== verification/Tx.v ===== *)
(** * Account transactions and the change-log
    (storage/postgres/account.go, tx.go, replay.go)

    A write transaction runs under the account's advisory lock, so it is one
    atomic step of the account: [Tx] reads the log head, runs the body, flushes
    the recorded entries and moves the head, or leaves the database as it was
    when the body (or the flush) fails.  Blob writes are outside the database
    transaction and survive a rollback. *)

From S2P Require Import Prelude GoStrings Shapes Changes Blob Database.

Record pendingEntry := mkEntry { pe_seq : Z; pe_kind : Z; pe_mailboxID : Z; pe_payload : json }.

Record pgTx `{BlobOps} := mkTx {
  pt_db : DB;
  pt_blobs : blob_state;
  pt_seq : Z;                       (* running log head *)
  pt_changes : list Change;
  pt_entries : list pendingEntry;
  pt_write : bool }.
Arguments mkTx {_}.
Arguments pt_db {_}. Arguments pt_blobs {_}. Arguments pt_seq {_}.
Arguments pt_changes {_}. Arguments pt_entries {_}. Arguments pt_write {_}.

Local Open Scope go_scope.

Section Tx.
Context `{BlobOps}.
Variable a : account.

Definition M (A : Type) : Type := stM pgTx A.

Definition with_db (d : DB) (pt : pgTx) : pgTx :=
  mkTx d (pt_blobs pt) (pt_seq pt) (pt_changes pt) (pt_entries pt) (pt_write pt).
Definition with_blobs (b : blob_state) (pt : pgTx) : pgTx :=
  mkTx (pt_db pt) b (pt_seq pt) (pt_changes pt) (pt_entries pt) (pt_write pt).

(** A statement that reads, one that updates and one that updates and returns
    a row.  A read-only transaction refuses the last two at the database. *)
Definition sql_read {A} (f : DB -> result A) : M A := fun pt => (f (pt_db pt), pt).
Definition sql_returning {A} (f : DB -> result (A * DB)) : M A := fun pt =>
  if pt_write pt then
    match f (pt_db pt) with
    | Ok (x, d) => (Ok x, with_db d pt)
    | Err e => (Err e, pt)
    end
  else (Err ErrReadOnlyTx, pt).
Definition sql_exec (f : DB -> result DB) : M unit :=
  sql_returning (fun d => rbind (f d) (fun d' => Ok (tt, d'))).

(** [nextModSeq]: advance and return the account log offset. *)
Definition nextModSeq : M Z := fun pt =>
  let seq := i64 (pt_seq pt + 1) in
  (Ok seq, mkTx (pt_db pt) (pt_blobs pt) seq (pt_changes pt) (pt_entries pt) (pt_write pt)).

(** [record]: append a change to the pending log.  A change without a modseq
    takes a fresh position of its own. *)
Definition record (c : Change) : M unit := fun pt =>
  let '(kind, mbID, payload) := encodeChange c in
  let ms := ChangeModSeq c in
  let seq := if 0 <=? ms then ms else i64 (pt_seq pt + 1) in
  let head := if 0 <=? ms then pt_seq pt else i64 (pt_seq pt + 1) in
  (Ok tt, mkTx (pt_db pt) (pt_blobs pt) head (pt_changes pt ++ [c])
            (pt_entries pt ++ [mkEntry seq kind mbID payload]) (pt_write pt)).

(** [INSERT INTO changelog]: primary key (account_id, seq), foreign key to
    accounts, jsonb payload. *)
Definition insert_changelog (e : pendingEntry) (d : DB) : result DB :=
  match db_accounts d !! acc_id a with
  | None => Err ErrForeignKey
  | Some _ =>
      if negb (jsonb_ok (pe_payload e)) then Err ErrDecode
      else match db_changelog d !! (acc_id a, pe_seq e) with
           | Some _ => Err ErrUniqueViolation
           | None =>
               let mb := if pe_mailboxID e =? 0 then None else Some (pe_mailboxID e) in
               Ok (set_changelog (<[(acc_id a, pe_seq e) := mkLogRow (pe_kind e) mb (pe_payload e)]>
                                    (db_changelog d)) d)
           end
  end.

Definition advance_head (seq : Z) (d : DB) : DB :=
  set_accounts (alter (ar_set_seq seq) (acc_id a) (db_accounts d)) d.

(** [flush]: persist the entries in order, then the advanced head. *)
Definition flush : M unit :=
  let! pt := mget in
  if negb (pt_write pt) then mret_st tt
  else
    do! miter (fun e => sql_exec (insert_changelog e)) (pt_entries pt);
    sql_exec (fun d => Ok (advance_head (pt_seq pt) d)).

(** [Tx]: on success the returned value, the published changes and head, and
    the committed database; on failure the database is unchanged. *)
Definition Tx {A} (fn : M A) (d : DB) (b : blob_state)
  : result (A * list Change * Z) * DB * blob_state :=
  match db_accounts d !! acc_id a with
  | None => (Err ErrNoRows, d, b)
  | Some row =>
      let pt := mkTx d b (ar_changelog_seq row) [] [] true in
      match mbind_st fn (fun r => mbind_st flush (fun _ => mret_st r)) pt with
      | (Ok r, pt') => (Ok (r, pt_changes pt', pt_seq pt'), pt_db pt', pt_blobs pt')
      | (Err e, pt') => (Err e, d, pt_blobs pt')
      end
  end.

(** [ReadTx]: no lock, no flush, a read-only database transaction. *)
Definition ReadTx {A} (fn : M A) (d : DB) (b : blob_state) : result A * DB * blob_state :=
  let '(r, pt') := fn (mkTx d b 0 [] [] false) in (r, pt_db pt', pt_blobs pt').

Definition ChangelogHead (d : DB) : result Z :=
  match db_accounts d !! acc_id a with
  | Some row => Ok (ar_changelog_seq row)
  | None => Err ErrNoRows
  end.

(** [nextUIDValidity]: [UPDATE accounts ... RETURNING uidvalidity_next - 1],
    converted to uint32. *)
Definition nextUIDValidity : M Z :=
  sql_returning (fun d =>
    match db_accounts d !! acc_id a with
    | None => Err ErrNoRows
    | Some row =>
        try! v := bigint (ar_uidvalidity_next row + 1) in
        Ok (u32 (v - 1),
            set_accounts (<[acc_id a := ar_set_uidvalidity v row]> (db_accounts d)) d)
    end).

(** [SELECT seq, kind, payload FROM changelog WHERE account_id=$1 AND seq>$2
    ORDER BY seq]. *)
Definition seq_le (x y : Z * LogRow) : Prop := x.1 <= y.1.
#[global] Instance seq_le_dec x y : Decision (seq_le x y).
Proof. unfold seq_le. apply _. Defined.

Definition log_rows (acc : Z) (p : Z -> bool) (d : DB) : list (Z * LogRow) :=
  merge_sort seq_le
    (omap (fun kr : (Z * Z) * LogRow =>
             if (kr.1.1 =? acc) && p kr.1.2 then Some (kr.1.2, kr.2) else None)
          (map_to_list (db_changelog d))).

(** The loop of [replayWithSeqs] over the selected rows. *)
Fixpoint replay_loop (rows : list (Z * LogRow)) (head : Z) : result (list Z * list Change * Z) :=
  match rows with
  | [] => Ok ([], [], head)
  | (seq, r) :: rows =>
      try! c := decodeChange (lr_kind r) (lr_payload r) in
      try! rest := replay_loop rows (if head <? seq then seq else head) in
      let '(seqs, out, head) := rest in
      Ok (seq :: seqs, c :: out, head)
  end.

Definition replayWithSeqs (accountID since : Z) (d : DB) : result (list Z * list Change * Z) :=
  replay_loop (log_rows accountID (fun seq => since <? seq) d) since.

Definition ReplayChanges (accountID since : Z) (d : DB) : result (list Change * Z) :=
  try! r := replayWithSeqs accountID since d in
  let '(_, changes, head) := r in Ok (changes, head).

(** [ExpungedUIDsSince]: the distinct UIDs of the [kindRemoveUIDs] entries of
    the mailbox past [since], in increasing order. *)
Definition payload_uids (j : json) : list Z :=
  match j with
  | JObj o => match field "UIDs" o with
              | JArr l => omap (fun x => match x with JNum z => Some z | _ => None end) l
              | _ => []
              end
  | _ => []
  end.

Definition ExpungedUIDsSince (mailboxID since : Z) (d : DB) : list Z :=
  let rows := filter (fun sr : Z * LogRow => (lr_mailbox_id sr.2 = Some mailboxID)
                                              /\ lr_kind sr.2 = kindRemoveUIDs)
                (log_rows (acc_id a) (fun seq => since <? seq) d) in
  u32 <$> merge_sort Z.le (remove_dups (concat ((fun sr : Z * LogRow => payload_uids (lr_payload sr.2)) <$> rows))).

End Tx.

(** ** The log discipline

    [log_ok d0 h0 L n pt]: a transaction that started on database [d0] with log
    head [h0] has recorded entries at strictly increasing positions in
    [(h0, L]], has allocated positions up to [pt_seq pt], and has at least [n]
    positions left before the 64-bit counter would overflow. *)

Definition entry_of (c : Change) (e : pendingEntry) : Prop :=
  encodeChange c = (pe_kind e, pe_mailboxID e, pe_payload e).

Section Log.
Context `{BlobOps}.
Variable a : account.

Definition head_of (d : DB) : option Z := ar_changelog_seq <$> db_accounts d !! acc_id a.

Record log_ok (d0 : DB) (h0 L n : Z) (pt : pgTx) : Prop := {
  lo_log : db_changelog (pt_db pt) = db_changelog d0;
  lo_head : head_of (pt_db pt) = Some h0;
  lo_sorted : StronglySorted Z.lt (pe_seq <$> pt_entries pt);
  lo_range : Forall (fun s => h0 < s <= L) (pe_seq <$> pt_entries pt);
  lo_le : 0 <= h0 <= L /\ L <= pt_seq pt;
  lo_room : 0 <= n /\ pt_seq pt + n <= max_int64;
  lo_changes : Forall2 entry_of (pt_changes pt) (pt_entries pt);
  lo_write : pt_write pt = true }.

(** The rows the log of an account may hold: nothing past the head. *)
Definition log_wf (d : DB) : Prop :=
  forall h s r, head_of d = Some h -> db_changelog d !! (acc_id a, s) = Some r -> s <= h.

(** [spends k m]: [m] keeps the discipline and uses up at most [k] positions. *)
Definition spends {A} (k : Z) (m : M A) : Prop :=
  forall d0 h0 L n pt, k <= n -> log_ok d0 h0 L n pt ->
    wp m pt (fun _ pt' => exists L', log_ok d0 h0 L' (n - k) pt').

(** [keeps m]: [m] does not touch the log at all. *)
Definition keeps {A} (m : M A) : Prop :=
  forall d0 h0 L n pt, log_ok d0 h0 L n pt ->
    wp m pt (fun _ pt' => log_ok d0 h0 L n pt' /\ pt_seq pt' = pt_seq pt).

Definition log_frame (d d' : DB) : Prop :=
  db_changelog d' = db_changelog d /\ (forall h, head_of d = Some h -> head_of d' = Some h).

Lemma keeps_ret {A} (x : A) : keeps (mret_st x).
Proof. by intros ?????. Qed.

Lemma keeps_get : keeps mget.
Proof. by intros ?????. Qed.

Lemma keeps_err {A} e : keeps (@merr_st pgTx A e).
Proof. by intros ?????. Qed.

Lemma keeps_bind {A B} (m : M A) (k : A -> M B) :
  keeps m -> (forall x, keeps (k x)) -> keeps (mbind_st m k).
Proof.
  intros Hm Hk d0 h0 L n pt Hpt. apply wp_bind. eapply wp_mono; [by apply Hm|].
  intros x s' [Hs' <-]. by apply Hk.
Qed.

Lemma keeps_read {A} (f : DB -> result A) : keeps (sql_read f).
Proof. intros d0 h0 L n pt Hpt. unfold wp, sql_read. by destruct (f (pt_db pt)). Qed.

Lemma keeps_returning {A} (f : DB -> result (A * DB)) :
  (forall d x d', f d = Ok (x, d') -> log_frame d d') -> keeps (sql_returning f).
Proof.
  intros Hf d0 h0 L n pt [H1 H2 H3 H4 H5 H6 H7 H8]. unfold wp, sql_returning. rewrite H8.
  destruct (f (pt_db pt)) as [[x d']|e] eqn:E; [|done].
  destruct (Hf _ _ _ E) as [Hl Hh]. split; [split; simpl; auto|done]. by rewrite Hl.
Qed.

Lemma keeps_exec (f : DB -> result DB) :
  (forall d d', f d = Ok d' -> log_frame d d') -> keeps (sql_exec f).
Proof.
  intros Hf. apply keeps_returning. intros d [] d' E.
  destruct (f d) as [d1|] eqn:E1; simpl in E; [|done]. injection E as <-. by apply Hf.
Qed.

Lemma keeps_iter {A} (f : A -> M unit) l : (forall x, keeps (f x)) -> keeps (miter f l).
Proof.
  intros Hf. induction l as [|x l IH]; simpl; [apply keeps_ret|]. by apply keeps_bind.
Qed.

Lemma keeps_spends {A} (m : M A) : keeps m -> spends 0 m.
Proof.
  intros Hm d0 h0 L n pt Hn Hpt. eapply wp_mono; [by apply Hm|].
  intros x s' [Hs' _]. exists L. by rewrite Z.sub_0_r.
Qed.

Lemma spends_mono {A} k k' (m : M A) : k <= k' -> spends k m -> spends k' m.
Proof.
  intros Hk Hm d0 h0 L n pt Hn Hpt. eapply wp_mono; [apply (Hm d0 h0 L n); [lia|done]|].
  intros x s' [L' []]. exists L'. split; auto. lia.
Qed.

Lemma spends_bind {A B} k1 k2 (m : M A) (k : A -> M B) :
  0 <= k2 -> spends k1 m -> (forall x, spends k2 (k x)) -> spends (k1 + k2) (mbind_st m k).
Proof.
  intros H2 Hm Hk d0 h0 L n pt Hn Hpt. apply wp_bind.
  eapply wp_mono; [apply (Hm d0 h0 L n); [lia|done]|].
  intros x s' [L' HL']. eapply wp_mono; [apply (Hk x d0 h0 L' (n - k1)); [lia|done]|].
  intros y s'' [L'' HL'']. exists L''. replace (n - (k1 + k2)) with (n - k1 - k2) by lia. done.
Qed.

Lemma log_ok_next d0 h0 L n pt :
  1 <= n -> log_ok d0 h0 L n pt ->
  wp nextModSeq pt (fun seq pt' =>
    seq = pt_seq pt' /\ L < seq /\ log_ok d0 h0 L (n - 1) pt').
Proof.
  intros Hn [H1 H2 H3 H4 H5 H6 H7 H8]. unfold wp, nextModSeq.
  rewrite i64_small by lia. simpl. split; [done|]. split; [lia|]. split; simpl; auto; lia.
Qed.

Lemma Forall2_snoc {A B} (R : A -> B -> Prop) l k x y :
  Forall2 R l k -> R x y -> Forall2 R (l ++ [x]) (k ++ [y]).
Proof. intros. apply Forall2_app; auto. Qed.

Lemma StronglySorted_snoc (l : list Z) x :
  StronglySorted Z.lt l -> Forall (fun y => y < x) l -> StronglySorted Z.lt (l ++ [x]).
Proof.
  induction 1 as [|y l Hl IH Hy]; intros Hx; simpl; [repeat constructor|].
  inversion Hx; subst. constructor; [by apply IH|].
  apply Forall_app. split; [done|]. by constructor.
Qed.

(** Recording a change at position [s], above everything recorded so far. *)
Lemma log_ok_push d0 h0 L n pt c k mb p s head :
  log_ok d0 h0 L n pt -> L < s <= head -> encodeChange c = (k, mb, p) ->
  pt_seq pt <= head -> forall n', 0 <= n' -> head + n' <= max_int64 ->
  log_ok d0 h0 s n' (mkTx (pt_db pt) (pt_blobs pt) head (pt_changes pt ++ [c])
                       (pt_entries pt ++ [mkEntry s k mb p]) (pt_write pt)).
Proof.
  intros [H1 H2 H3 H4 H5 H6 H7 H8] Hs Henc Hhead n' Hn' Hroom.
  split; simpl; auto; try lia.
  - rewrite fmap_app. apply StronglySorted_snoc; [done|].
    eapply Forall_impl; [done|]. simpl. intros. lia.
  - rewrite fmap_app. apply Forall_app. split; [|repeat constructor; simpl; lia].
    eapply Forall_impl; [done|]. simpl. intros. lia.
  - by apply Forall2_snoc.
Qed.

Lemma log_ok_record d0 h0 L n pt c :
  log_ok d0 h0 L n pt -> L < ChangeModSeq c <= pt_seq pt ->
  wp (record c) pt (fun _ pt' =>
    log_ok d0 h0 (ChangeModSeq c) n pt' /\ pt_seq pt' = pt_seq pt).
Proof.
  intros Hpt Hc. unfold wp, record. destruct (encodeChange c) as [[k mb] p] eqn:E.
  assert ((0 <=? ChangeModSeq c) = true) as -> by (apply Z.leb_le; destruct Hpt; lia).
  split; [|done]. eapply log_ok_push; eauto; try lia; destruct Hpt; lia.
Qed.

Lemma log_ok_record_derived d0 h0 L n pt c :
  1 <= n -> log_ok d0 h0 L n pt -> ChangeModSeq c = -1 ->
  wp (record c) pt (fun _ pt' => log_ok d0 h0 (pt_seq pt') (n - 1) pt').
Proof.
  intros Hn Hpt Hc. unfold wp, record. destruct (encodeChange c) as [[k mb] p] eqn:E.
  rewrite Hc. cbn -[i64]. rewrite i64_small by (destruct Hpt; lia).
  eapply log_ok_push; eauto; try lia; destruct Hpt; lia.
Qed.

(** ** Commit and replay *)

Definition row_of (e : pendingEntry) : LogRow :=
  mkLogRow (pe_kind e) (if pe_mailboxID e =? 0 then None else Some (pe_mailboxID e)) (pe_payload e).

Definition append_entries (es : list pendingEntry) (log : gmap (Z * Z) LogRow) : gmap (Z * Z) LogRow :=
  foldl (fun log e => <[(acc_id a, pe_seq e) := row_of e]> log) log es.

Lemma append_entries_lookup_ne es log k :
  (forall e, e ∈ es -> k <> (acc_id a, pe_seq e)) -> append_entries es log !! k = log !! k.
Proof.
  revert log. induction es as [|e es IH]; intros log Hk; [done|]. simpl.
  rewrite IH by set_solver. apply lookup_insert_ne. intros <-. eapply Hk; [|done]. set_solver.
Qed.

Lemma append_entries_lookup es log s :
  StronglySorted Z.lt (pe_seq <$> es) -> 
  forall e, e ∈ es -> pe_seq e = s -> append_entries es log !! (acc_id a, s) = Some (row_of e).
Proof.
  revert log. induction es as [|e' es IH]; intros log Hs e He <-; [set_solver|].
  rewrite fmap_cons in Hs. apply StronglySorted_inv in Hs as [Hs Hlt].
  apply elem_of_cons in He as [->|He]; simpl; [|by apply IH].
  rewrite append_entries_lookup_ne; [apply lookup_insert_eq|].
  intros e Hin [= Heq]. rewrite Forall_forall in Hlt.
  specialize (Hlt (pe_seq e) ltac:(apply list_elem_of_fmap_2; done)). lia.
Qed.

Lemma flush_entries es pt :
  pt_write pt = true ->
  wp (miter (fun e => sql_exec (insert_changelog a e)) es) pt (fun _ pt' =>
    pt' = with_db (set_changelog (append_entries es (db_changelog (pt_db pt))) (pt_db pt)) pt).
Proof.
  revert pt. induction es as [|e es IH]; intros pt Hw; simpl.
  - apply wp_ret. destruct pt as [[] ? ? ? ? ?]. done.
  - apply wp_bind. unfold wp, sql_exec, sql_returning. rewrite Hw.
    destruct (insert_changelog a e (pt_db pt)) as [d1|] eqn:E; simpl; [|done].
    assert (d1 = set_changelog (<[(acc_id a, pe_seq e) := row_of e]> (db_changelog (pt_db pt)))
                   (pt_db pt)) as ->.
    { unfold insert_changelog in E. destruct (db_accounts _ !! _); [|done].
      destruct (negb _); [done|]. destruct (_ !! (acc_id a, _)); [done|]. by injection E. }
    eapply wp_mono; [by apply IH|]. intros [] pt' ->. by destruct pt as [[] ? ? ? ? ?].
Qed.

Lemma wp_flush pt :
  pt_write pt = true ->
  wp (flush a) pt (fun _ pt' =>
    pt' = with_db (advance_head a (pt_seq pt)
                     (set_changelog (append_entries (pt_entries pt) (db_changelog (pt_db pt)))
                        (pt_db pt))) pt).
Proof.
  intros Hw. unfold flush. apply wp_bind, wp_get. rewrite Hw. simpl.
  apply wp_bind. eapply wp_mono; [by apply flush_entries|]. intros [] pt' ->.
  unfold wp, sql_exec, sql_returning. simpl. by rewrite Hw.
Qed.

(** A committed transaction: what the body left behind, plus the flush. *)
Lemma Tx_inv {A} (fn : M A) d b r changes head d' b' :
  Tx a fn d b = (Ok (r, changes, head), d', b') ->
  exists h0 pt, head_of d = Some h0 /\ fn (mkTx d b h0 [] [] true) = (Ok r, pt) /\
    changes = pt_changes pt /\ head = pt_seq pt /\ b' = pt_blobs pt /\
    (pt_write pt = true ->
     d' = advance_head a (pt_seq pt)
            (set_changelog (append_entries (pt_entries pt) (db_changelog (pt_db pt))) (pt_db pt))).
Proof.
  unfold Tx, head_of. intros E. destruct (db_accounts d !! acc_id a) as [row|] eqn:Hrow; [|done].
  exists (ar_changelog_seq row). unfold mbind_st in E.
  destruct (fn (mkTx d b (ar_changelog_seq row) [] [] true)) as [[r1|e1] pt] eqn:Efn; [|done].
  destruct (flush a pt) as [[[]|e2] pt2] eqn:Ef; [|done]. simpl in E.
  injection E as <- <- <- <- <-. exists pt. simpl.
  destruct (pt_write pt) eqn:Hw.
  - pose proof (wp_run _ _ _ _ _ (wp_flush pt Hw) Ef) as ->. simpl. auto 10.
  - unfold flush, mbind_st, mget in Ef. rewrite Hw in Ef. injection Ef as <-.
    by split_and!.
Qed.

Lemma elem_log_rows acc p d s r :
  (s, r) ∈ log_rows acc p d <-> db_changelog d !! (acc, s) = Some r /\ p s = true.
Proof.
  unfold log_rows. rewrite (merge_sort_Permutation seq_le), list_elem_of_omap. split.
  - intros ([[k1 k2] r'] & Hin & Hx). apply elem_of_map_to_list in Hin. simpl in Hx.
    destruct ((k1 =? acc) && p k2) eqn:E; [|done]. b2p. subst. by injection Hx as <- <-.
  - intros [Hl Hp]. exists ((acc, s), r). split; [by apply elem_of_map_to_list|].
    simpl. by rewrite Z.eqb_refl, Hp.
Qed.

Lemma NoDup_omap {A B} (f : A -> option B) (l : list A) :
  (forall x y z, f x = Some z -> f y = Some z -> x = y) -> NoDup l -> NoDup (omap f l).
Proof.
  intros Hinj. induction 1 as [|x l Hx Hl IH]; simpl; [constructor|].
  destruct (f x) as [z|] eqn:E; [|done]. constructor; [|done].
  rewrite list_elem_of_omap. intros (y & Hy & Hf). by rewrite (Hinj x y z) in Hx.
Qed.

Lemma NoDup_log_rows acc p d : NoDup (log_rows acc p d).
Proof.
  unfold log_rows. rewrite (merge_sort_Permutation seq_le). apply NoDup_omap; [|apply NoDup_map_to_list].
  intros [[x1 x2] x3] [[y1 y2] y3] [z1 z2]. simpl.
  destruct ((x1 =? acc) && p x2) eqn:Ex; [|done]. destruct ((y1 =? acc) && p y2) eqn:Ey; [|done].
  b2p. congruence.
Qed.

#[global] Instance seq_le_trans : Transitive seq_le.
Proof. intros x y z. unfold seq_le. lia. Qed.
#[global] Instance seq_le_total : Total seq_le.
Proof. intros x y. unfold seq_le. lia. Qed.

(** The selected rows come in strictly increasing order. *)
Lemma log_rows_lt acc p d : StronglySorted (fun x y : Z * LogRow => x.1 < y.1) (log_rows acc p d).
Proof.
  pose proof (NoDup_log_rows acc p d) as Hnd.
  assert (Hs : StronglySorted seq_le (log_rows acc p d)) by (apply StronglySorted_merge_sort; apply _).
  assert (Hk : forall x y, x ∈ log_rows acc p d -> y ∈ log_rows acc p d -> x.1 = y.1 -> x = y).
  { intros [s1 r1] [s2 r2] H1 H2 E. simpl in E. subst s2.
    apply elem_log_rows in H1 as [H1 _], H2 as [H2 _]. congruence. }
  induction Hs as [|x l Hs IH Hx]; [constructor|]. apply NoDup_cons in Hnd as [Hni Hnd].
  constructor; [apply IH; [done|]; intros; apply Hk; by try right|].
  rewrite Forall_forall in *. intros y Hy. specialize (Hx y Hy). unfold seq_le in Hx.
  assert (x.1 <> y.1); [|lia]. intros E. apply Hni.
  rewrite (Hk x y) by (done || by left || by right). done.
Qed.

(** The ordered scan is determined by the rows it must contain. *)
Lemma log_rows_unique acc p d l :
  StronglySorted Z.lt (fst <$> l) ->
  (forall s r, (s, r) ∈ l <-> db_changelog d !! (acc, s) = Some r /\ p s = true) ->
  log_rows acc p d = l.
Proof.
  intros Hs Hl.
  assert (Hle : StronglySorted seq_le l).
  { clear Hl. induction l as [|x l IH]; [constructor|]. rewrite fmap_cons in Hs.
    apply StronglySorted_inv in Hs as [Hs Hx]. constructor; [by apply IH|].
    rewrite Forall_fmap in Hx. eapply Forall_impl; [done|]. unfold seq_le. simpl. lia. }
  apply (StronglySorted_unique_strong seq_le); [|apply StronglySorted_merge_sort; apply _|done|].
  - intros [s1 r1] [s2 r2] H1 H2 H12 H21. unfold seq_le in *. simpl in *.
    assert (s1 = s2) as -> by lia. apply elem_log_rows in H1 as [H1 _].
    apply Hl in H2 as [H2 _]. congruence.
  - apply NoDup_Permutation; [apply NoDup_log_rows| |].
    + apply (NoDup_fmap_1 fst). clear Hl Hle. induction (fst <$> l) as [|x k IH]; [constructor|].
      apply StronglySorted_inv in Hs as [Hs Hx]. constructor; [|by apply IH].
      intros Hin. rewrite Forall_forall in Hx. specialize (Hx x Hin). lia.
    + intros [s r]. by rewrite elem_log_rows, Hl.
Qed.

Lemma replay_loop_entries cs es head :
  Forall2 entry_of cs es -> forallb change_typed cs = true ->
  StronglySorted Z.lt (pe_seq <$> es) -> Forall (fun s => head < s) (pe_seq <$> es) ->
  exists head', replay_loop ((fun e => (pe_seq e, row_of e)) <$> es) head
                = Ok (pe_seq <$> es, cs, head') /\
    head' = default head (last (pe_seq <$> es)).
Proof.
  intros Hce. revert head. induction Hce as [|c e cs es Hc Hces IH]; intros head Ht Hs Hh.
  - by exists head.
  - rewrite fmap_cons in Hs, Hh. apply StronglySorted_inv in Hs as [Hs Hlt].
    inversion Hh as [|? ? Hhe Hhes]; subst. cbn [forallb] in Ht. apply andb_prop in Ht as [Htc Ht].
    destruct (IH (pe_seq e) Ht Hs) as (head' & Hr & Hhead').
    { exact Hlt. }
    exists head'. rewrite fmap_cons. cbn [replay_loop row_of lr_kind lr_payload fst snd].
    rewrite (decode_encode c (pe_kind e) (pe_mailboxID e) (pe_payload e) Htc Hc). cbn [rbind].
    assert ((head <? pe_seq e) = true) as -> by (apply Z.ltb_lt; lia).
    rewrite Hr. cbn [rbind]. split; [done|]. rewrite fmap_cons, last_cons.
    rewrite Hhead'. by destruct (last (pe_seq <$> es)).
Qed.

Lemma head_of_advance seq d h :
  head_of d = Some h -> head_of (advance_head a seq d) = Some seq.
Proof.
  unfold head_of, advance_head. simpl. destruct (db_accounts d !! acc_id a) eqn:E; [|done].
  by rewrite lookup_alter_eq, E.
Qed.

(** What a commit does to the log: it grows by exactly the recorded changes,
    at fresh strictly increasing positions up to the new head, old entries
    stay, and a replay from the old head yields the published changes. *)
Definition commit_spec (d d' : DB) (h0 head : Z) (changes : list Change) : Prop :=
  head_of d' = Some head /\ h0 <= head /\ log_wf d' /\
  (forall acc s, (acc <> acc_id a \/ s <= h0) ->
     db_changelog d' !! (acc, s) = db_changelog d !! (acc, s)) /\
  (forallb change_typed changes = true ->
   exists seqs, replayWithSeqs (acc_id a) h0 d' = Ok (seqs, changes, default h0 (last seqs)) /\
     StronglySorted Z.lt seqs /\ Forall (fun s => h0 < s <= head) seqs).

Lemma log_rows_after_append es d d' h0 :
  log_wf d -> head_of d = Some h0 ->
  StronglySorted Z.lt (pe_seq <$> es) -> Forall (fun s => h0 < s) (pe_seq <$> es) ->
  (forall s, db_changelog d' !! (acc_id a, s) = append_entries es (db_changelog d) !! (acc_id a, s)) ->
  log_rows (acc_id a) (fun s => h0 <? s) d' = (fun e => (pe_seq e, row_of e)) <$> es.
Proof.
  intros Hwf Hh Hs Hr Hd. rewrite Forall_fmap, Forall_forall in Hr.
  apply log_rows_unique; [by rewrite <- list_fmap_compose|]. intros s r. rewrite Hd, list_elem_of_fmap. split.
  - intros (e & [= -> ->] & He). split; [by eapply append_entries_lookup|].
    apply Z.ltb_lt, Hr, He.
  - intros [Hl Hlt]. b2p. destruct (decide (s ∈ pe_seq <$> es)) as [Hin|Hin].
    + apply list_elem_of_fmap in Hin as (e & -> & He). exists e. split; [|done].
      erewrite append_entries_lookup in Hl by done. by injection Hl as <-.
    + rewrite append_entries_lookup_ne in Hl.
      * specialize (Hwf _ _ _ Hh Hl). lia.
      * intros e He [= ->]. apply Hin. by apply list_elem_of_fmap_2.
Qed.

Lemma Tx_commit {A} (fn : M A) k d b r changes head d' b' h0 :
  log_wf d -> head_of d = Some h0 -> 0 <= h0 -> 0 <= k -> h0 + k <= max_int64 -> spends k fn ->
  Tx a fn d b = (Ok (r, changes, head), d', b') ->
  commit_spec d d' h0 head changes.
Proof.
  intros Hwf Hh Hh0 Hk Hroom Hsp HTx.
  destruct (Tx_inv _ _ _ _ _ _ _ _ HTx) as (h0' & pt & Hh' & Hfn & -> & -> & -> & Hd).
  rewrite Hh in Hh'. injection Hh' as <-.
  assert (Hok : log_ok d h0 h0 k (mkTx d b h0 [] [] true)).
  { split; simpl; auto; try lia; constructor. }
  destruct (wp_run _ _ _ _ _ (Hsp d h0 h0 k _ ltac:(lia) Hok) Hfn) as [L [H1 H2 H3 H4 H5 H6 H7 H8]].
  specialize (Hd H8). rewrite H1 in Hd.
  assert (Hlog : db_changelog d' = append_entries (pt_entries pt) (db_changelog d)) by by rewrite Hd.
  assert (Hgt : Forall (fun s => h0 < s) (pe_seq <$> pt_entries pt)).
  { eapply Forall_impl; [exact H4|]. simpl. lia. }
  split_and!.
  - rewrite Hd. by eapply (head_of_advance _ (set_changelog _ _)).
  - lia.
  - intros h s row Hhd Hl. rewrite Hd in Hhd. erewrite (head_of_advance _ (set_changelog _ _)) in Hhd by done.
    injection Hhd as <-. rewrite Hlog in Hl.
    destruct (decide (s ∈ pe_seq <$> pt_entries pt)) as [Hin|Hin].
    + rewrite Forall_forall in H4. specialize (H4 s Hin). lia.
    + rewrite append_entries_lookup_ne in Hl; [specialize (Hwf _ _ _ Hh Hl); lia|].
      intros e He [= ->]. apply Hin. by apply list_elem_of_fmap_2.
  - intros acc s Hor. rewrite Hlog. apply append_entries_lookup_ne. intros e He [= -> ->].
    destruct Hor as [?|Hle]; [done|]. rewrite Forall_forall in H4.
    specialize (H4 (pe_seq e) ltac:(by apply list_elem_of_fmap_2)). lia.
  - intros Ht. exists (pe_seq <$> pt_entries pt). unfold replayWithSeqs.
    rewrite (log_rows_after_append (pt_entries pt) d d' h0) by (done || (intros; by rewrite Hlog)).
    destruct (replay_loop_entries _ _ h0 H7 Ht H3 Hgt) as (hd & -> & ->).
    split_and!; [done|done|]. eapply Forall_impl; [exact H4|]. simpl. lia.
Qed.

(** A failed transaction leaves the database exactly as it was. *)
Lemma Tx_rollback {A} (fn : M A) d b e d' b' :
  Tx a fn d b = (Err e, d', b') -> d' = d.
Proof.
  unfold Tx. destruct (db_accounts d !! acc_id a); [|by intros [= _ <-]].
  destruct (mbind_st fn _ _) as [[x|e'] pt']; [by intros [=]|by intros [= _ <-]].
Qed.

End Log.

(** Allocate the next position, or record a change at the position just
    allocated, inside a [log_ok] proof. *)
Ltac log_alloc :=
  apply wp_bind; eapply wp_mono; [eapply log_ok_next; [|eassumption]; lia|].
Ltac log_record :=
  eapply wp_mono; [eapply log_ok_record; [eassumption|simpl in *; lia]|].

Section WpSql.
Context `{BlobOps}.

Lemma wp_read {A} (f : DB -> result A) pt (Q : A -> pgTx -> Prop) :
  (forall x, f (pt_db pt) = Ok x -> Q x pt) -> wp (sql_read f) pt Q.
Proof. unfold wp, sql_read. destruct (f (pt_db pt)); auto. Qed.

Lemma wp_returning {A} (f : DB -> result (A * DB)) pt (Q : A -> pgTx -> Prop) :
  (forall x d', pt_write pt = true -> f (pt_db pt) = Ok (x, d') -> Q x (with_db d' pt)) ->
  wp (sql_returning f) pt Q.
Proof.
  unfold wp, sql_returning. destruct (pt_write pt) eqn:E; [|done].
  destruct (f (pt_db pt)) as [[x d']|]; auto.
Qed.

Lemma wp_exec (f : DB -> result DB) pt (Q : unit -> pgTx -> Prop) :
  (forall d', pt_write pt = true -> f (pt_db pt) = Ok d' -> Q tt (with_db d' pt)) ->
  wp (sql_exec f) pt Q.
Proof.
  intros HQ. apply wp_returning. intros [] d' Hw E. apply HQ; [done|].
  destruct (f (pt_db pt)); [by injection E as <-|done].
Qed.

Lemma wp_next pt (Q : Z -> pgTx -> Prop) :
  (forall pt', pt_db pt' = pt_db pt -> pt_blobs pt' = pt_blobs pt -> pt_write pt' = pt_write pt ->
     pt_seq pt' = i64 (pt_seq pt + 1) -> Q (i64 (pt_seq pt + 1)) pt') ->
  wp nextModSeq pt Q.
Proof. intros HQ. unfold wp, nextModSeq. by apply HQ. Qed.

Lemma wp_record c pt (Q : unit -> pgTx -> Prop) :
  (forall pt', pt_db pt' = pt_db pt -> pt_blobs pt' = pt_blobs pt -> pt_write pt' = pt_write pt ->
     pt_changes pt' = pt_changes pt ++ [c] -> Q tt pt') ->
  wp (record c) pt Q.
Proof. intros HQ. unfold wp, record. destruct (encodeChange c) as [[k mb] p]. by apply HQ. Qed.

(** [dbstep R m]: whenever [m] succeeds, the database moves along [R]. *)
Definition dbstep {A} (R : DB -> DB -> Prop) (m : M A) : Prop :=
  forall pt, wp m pt (fun _ pt' => R (pt_db pt) (pt_db pt')).

Lemma dbstep_ret {A} R `{!Reflexive R} (x : A) : dbstep R (mret_st x).
Proof. intros pt. by apply wp_ret. Qed.
Lemma dbstep_get R `{!Reflexive R} : dbstep R mget.
Proof. intros pt. by apply wp_get. Qed.
Lemma dbstep_guard R `{!Reflexive R} b e : dbstep R (mguard b e).
Proof. intros pt. apply wp_guard. intros. reflexivity. Qed.
Lemma dbstep_read {A} R `{!Reflexive R} (f : DB -> result A) : dbstep R (sql_read f).
Proof. intros pt. apply wp_read. intros. reflexivity. Qed.
Lemma dbstep_next R `{!Reflexive R} : dbstep R nextModSeq.
Proof. intros pt. apply wp_next. intros pt' -> _ _ _. reflexivity. Qed.
Lemma dbstep_record R `{!Reflexive R} c : dbstep R (record c).
Proof. intros pt. apply wp_record. intros pt' -> _ _ _. reflexivity. Qed.
Lemma dbstep_returning {A} (R : DB -> DB -> Prop) (f : DB -> result (A * DB)) :
  (forall d x d', f d = Ok (x, d') -> R d d') -> dbstep R (sql_returning f).
Proof. intros Hf pt. apply wp_returning. intros x d' _ E. by apply Hf in E. Qed.
Lemma dbstep_exec (R : DB -> DB -> Prop) (f : DB -> result DB) :
  (forall d d', f d = Ok d' -> R d d') -> dbstep R (sql_exec f).
Proof. intros Hf pt. apply wp_exec. intros d' _ E. by apply Hf in E. Qed.
Lemma dbstep_bind {A B} R `{!Transitive R} (m : M A) (k : A -> M B) :
  dbstep R m -> (forall x, dbstep R (k x)) -> dbstep R (mbind_st m k).
Proof.
  intros Hm Hk pt. apply wp_bind. eapply wp_mono; [apply Hm|]. intros x pt1 H1.
  eapply wp_mono; [apply Hk|]. intros y pt2 H2. transitivity (pt_db pt1); [exact H1|exact H2].
Qed.
Lemma dbstep_iter {A} R `{!Reflexive R, !Transitive R} (f : A -> M unit) l :
  (forall x, x ∈ l -> dbstep R (f x)) -> dbstep R (miter f l).
Proof.
  induction l as [|x l IH]; intros Hf; simpl; [by apply dbstep_ret|].
  apply dbstep_bind; [done|apply Hf; set_solver|]. intros []. apply IH. set_solver.
Qed.
Lemma dbstep_mono {A} (R R' : DB -> DB -> Prop) (m : M A) :
  (forall d d', R d d' -> R' d d') -> dbstep R m -> dbstep R' m.
Proof. intros HR Hm pt. eapply wp_mono; [apply Hm|]. auto. Qed.

End WpSql.

#[export] Hint Resolve dbstep_ret dbstep_get dbstep_guard dbstep_read dbstep_next
  dbstep_record : octo.
