(* ===== verification/Mailboxes.v ===== *)
(** * Mailboxes of an account (storage/postgres/mailbox.go, annotation.go)

    Finding, creating, renaming, deleting and subscribing mailboxes and setting
    IMAP METADATA annotations, each with the change it records. *)

From S2P Require Import Prelude GoStrings Shapes Changes Blob Database Tx.

Local Open Scope go_scope.

Section Mailboxes.
Context `{BlobOps}.
Variable a : account.

(** [scanMailbox]: the bigint [uidvalidity] and [uidnext] are read into uint32. *)
Definition scanMailbox (b : Mailbox) : result Mailbox :=
  if is_u32 (mb_UIDValidity b) && is_u32 (mb_UIDNext b) then Ok b else Err ErrOutOfRange.

(** [findMailbox]: the live mailbox of this name, if any. *)
Definition findMailbox (name : string) : M (option Mailbox) :=
  sql_read (fun d =>
    if negb (text_ok name) then Err ErrDecode
    else match mailboxes_where (live_named (acc_id a) name) d with
         | [] => Ok None
         | b :: _ => try! mb := scanMailbox b in Ok (Some mb)
         end).

(** [INSERT INTO mailboxes ... RETURNING id] *)
Definition insert_mailbox (name : string) (uidvalidity seq : Z) (su : SpecialUse)
    (subscribe : bool) (d : DB) : result (Z * DB) :=
  if negb (text_ok name) then Err ErrDecode
  else match db_accounts d !! acc_id a with
  | None => Err ErrForeignKey
  | Some _ =>
      let id := db_mailbox_ids d in
      if name_taken (acc_id a) name id d then Err ErrUniqueViolation
      else match db_mailboxes d !! id with
           | Some _ => Err ErrUniqueViolation
           | None =>
               let row := mkMailbox id (acc_id a) 0 name uidvalidity 1 seq seq false su
                            subscribe [] zero_counts in
               Ok (id, set_mailbox_ids (id + 1)
                         (set_mailboxes (<[id := row]> (db_mailboxes d)) d))
           end
  end.

(** [ensureMailbox]: find, or create and record the creation (and the
    subscription). *)
Definition ensureMailbox (name : string) (subscribe : bool) (su : SpecialUse) : M Mailbox :=
  let! found := findMailbox name in
  match found with
  | Some mb => mret_st mb
  | None =>
      let! uidvalidity := nextUIDValidity a in
      let! seq := nextModSeq in
      let! id := sql_returning (insert_mailbox name uidvalidity seq su subscribe) in
      let mb := mkMailbox id (acc_id a) 0 name uidvalidity 1 seq seq false su false [] zero_counts in
      do! record (CAddMailbox mb []);
      if subscribe
      then do! record (CAddSubscription name []); mret_st mb
      else mret_st mb
  end.

(** [before := len(pt.changes); ...; return pt.changes[before:]] *)
Definition returning_changes {A} (m : M A) : M (A * list Change) :=
  let! pt := mget in
  let! r := m in
  let! pt' := mget in
  mret_st (r, drop (length (pt_changes pt)) (pt_changes pt')).

Definition MailboxFind (name : string) : M (option Mailbox) := findMailbox name.

Definition MailboxEnsure (name : string) (subscribe : bool) (su : SpecialUse)
  : M (Mailbox * list Change) := returning_changes (ensureMailbox name subscribe su).

(** [UPDATE mailboxes SET ... WHERE p]: the rows changed and their number. *)
Definition update_mailboxes (p : Mailbox -> bool) (f : Mailbox -> Mailbox) (d : DB) : Z * DB :=
  (Z.of_nat (length (mailboxes_where p d)),
   set_mailboxes ((fun b => if p b then f b else b) <$> db_mailboxes d) d).

Definition by_id_live (id : Z) (b : Mailbox) : bool :=
  (mb_AccountID b =? acc_id a) && (mb_ID b =? id) && negb (mb_Expunged b).

Definition MailboxSetSpecialUse (mb : Mailbox) (su : SpecialUse) : M (Mailbox * list Change) :=
  returning_changes (
    let! seq := nextModSeq in
    let! n := sql_returning (fun d =>
      Ok (update_mailboxes (by_id_live (mb_ID mb)) (fun b => mb_set_modseq seq (mb_set_su su b)) d)) in
    do! mguard (negb (n =? 0)) ErrNoRows;
    do! record (CMailboxSpecialUse (mb_ID mb) (mb_Name mb) su seq);
    mret_st (mb_set_modseq seq (mb_set_su su mb))).

(** [MailboxCreate]: [exists = true] without any change when the name is in
    use; a created mailbox is not subscribed. *)
Definition MailboxCreate (name : string) (su : SpecialUse)
  : M (option (Mailbox * list Change * list string)) :=
  let! found := findMailbox name in
  match found with
  | Some _ => mret_st None
  | None =>
      let! r := returning_changes (ensureMailbox name false su) in
      mret_st (Some (r.1, r.2, [name]))
  end.

(** [MailboxRename] returns (changes, alreadyExists, notExists); the unique
    index on live names turns a clash into an error. *)
Definition MailboxRename (src : Mailbox) (dst : string) : M (list Change * bool * bool) :=
  let! pt := mget in
  let! seq := nextModSeq in
  let! n := sql_returning (fun d =>
    if negb (text_ok dst) then Err ErrDecode
    else let p := by_id_live (mb_ID src) in
         if bool_decide (mailboxes_where p d <> []) && name_taken (acc_id a) dst (mb_ID src) d
         then Err ErrUniqueViolation
         else Ok (update_mailboxes p (fun b => mb_set_modseq seq (mb_set_name dst b)) d)) in
  if n =? 0 then mret_st ([], false, true)
  else
    do! record (CRenameMailbox (mb_ID src) (mb_Name src) dst [] seq);
    let! pt' := mget in
    mret_st (drop (length (pt_changes pt)) (pt_changes pt'), false, false).

(** [MailboxDelete] returns (changes, hasChildren). *)
Definition MailboxDelete (mb : Mailbox) : M (list Change * bool) :=
  let! r := returning_changes (
    let! seq := nextModSeq in
    let! n := sql_returning (fun d =>
      Ok (update_mailboxes (fun b => (mb_ID b =? mb_ID mb) && (mb_AccountID b =? acc_id a))
            (fun b => mb_set_modseq seq (mb_set_expunged true b)) d)) in
    record (CRemoveMailbox (mb_ID mb) (mb_Name mb) seq)) in
  mret_st (r.2, false).

Definition set_subscription (name : string) (v : bool) : M Z :=
  sql_returning (fun d =>
    if negb (text_ok name) then Err ErrDecode
    else Ok (update_mailboxes (live_named (acc_id a) name) (mb_set_subscribed v) d)).

Definition SubscriptionEnsure (name : string) : M (list Change) :=
  let! r := returning_changes (
    do! set_subscription name true;
    record (CAddSubscription name [])) in
  mret_st r.2.

Definition SubscriptionRemove (name : string) : M (list Change) :=
  let! r := returning_changes (
    do! set_subscription name false;
    record (CRemoveSubscription name [])) in
  mret_st r.2.

(** ** Annotations *)

(** The name a mailbox id reads as, [""] when the row is missing. *)
Definition mailbox_name_of (mailboxID : Z) (d : DB) : string :=
  match db_mailboxes d !! mailboxID with
  | Some b => if mb_AccountID b =? acc_id a then mb_Name b else EmptyString
  | None => EmptyString
  end.

(** The body of [AnnotationSet]'s transaction; [None] is the nil value that
    removes the entry. *)
Definition AnnotationSet (mailboxID : Z) (key : string) (value : option string) (isString : bool)
  : M unit :=
  do! match value with
      | None => sql_exec (fun d =>
          if negb (text_ok key) then Err ErrDecode
          else Ok (set_annotations (delete (acc_id a, mailboxID, key) (db_annotations d)) d))
      | Some v => sql_exec (fun d =>
          if negb (text_ok key) then Err ErrDecode
          else match db_accounts d !! acc_id a with
               | None => Err ErrForeignKey
               | Some _ => Ok (set_annotations (<[(acc_id a, mailboxID, key) := (v, isString)]>
                                                  (db_annotations d)) d)
               end)
      end;
  let! modseq := nextModSeq in
  let! mbName := (if mailboxID =? 0 then mret_st EmptyString
                  else sql_read (fun d => Ok (mailbox_name_of mailboxID d))) in
  record (CAnnotation mailboxID mbName key modseq).

(** [keyMatchesAny]: the entry itself or anything below it. *)
Definition keyMatchesAny (key : string) (prefixes : list string) : bool :=
  existsb (fun p => String.eqb key p || has_prefix key (p ++ "/")) prefixes.

Definition key_le (x y : Annotation) : Prop := String.leb (an_Key x) (an_Key y) = true.
#[local] Instance key_le_dec x y : Decision (key_le x y).
Proof. unfold key_le. apply _. Defined.

(** [AnnotationList], in key order (byte order of the C collation). *)
Definition AnnotationList (mailboxID : Z) (prefixes : list string) (d : DB) : list Annotation :=
  let rows := omap (fun kr : (Z * Z * string) * (string * bool) =>
                if (kr.1.1.1 =? acc_id a) && (kr.1.1.2 =? mailboxID)
                then Some (mkAnnotation mailboxID kr.1.2 kr.2.1 kr.2.2) else None)
              (map_to_list (db_annotations d)) in
  filter (fun an => (match prefixes with [] => true | _ => keyMatchesAny (an_Key an) prefixes end) = true)
    (merge_sort key_le rows).

End Mailboxes.

(** ** Log discipline of the mailbox operations *)

Section MailboxLog.
Context `{BlobOps}.
Variable a : account.

Lemma frame_mailboxes m d : log_frame a d (set_mailboxes m d).
Proof. done. Qed.

Lemma keeps_update_mailboxes (p : Mailbox -> bool) f :
  keeps a (sql_returning (fun d => Ok (update_mailboxes p f d))).
Proof. apply keeps_returning. by intros d x d' [= _ <-]. Qed.

Lemma frame_insert_mailbox name uv seq su sub d id d' :
  insert_mailbox a name uv seq su sub d = Ok (id, d') -> log_frame a d d'.
Proof.
  unfold insert_mailbox. destruct (negb _); [done|]. destruct (db_accounts d !! _); [|done].
  destruct (name_taken _ _ _ _); [done|]. destruct (db_mailboxes d !! _); [done|].
  by intros [= _ <-].
Qed.

Lemma keeps_nextUIDValidity : keeps a (nextUIDValidity a).
Proof.
  apply keeps_returning. intros d x d' E.
  destruct (db_accounts d !! acc_id a) as [row|] eqn:Hrow; [|done].
  destruct (bigint _) as [v|] eqn:Hv; [|done]. injection E as <- <-. split; [done|].
  unfold head_of. simpl. rewrite Hrow, lookup_insert_eq. done.
Qed.

Lemma keeps_findMailbox name : keeps a (findMailbox a name).
Proof. apply keeps_read. Qed.

Lemma keeps_set_subscription name v : keeps a (set_subscription a name v).
Proof.
  apply keeps_returning. intros d x d' E. destruct (negb _); [done|]. by injection E as _ <-.
Qed.

(** Allocate a position, do database work, record a change at that position. *)
Lemma spends_alloc_record {A B} (m : Z -> M A) (c : Z -> A -> Change) (k : Z -> A -> M B) n :
  0 <= n ->
  (forall seq, keeps a (m seq)) -> (forall seq x, ChangeModSeq (c seq x) = seq) ->
  (forall seq x, spends a n (k seq x)) ->
  spends a (1 + n) (let! seq := nextModSeq in let! x := m seq in do! record (c seq x); k seq x).
Proof.
  intros Hn Hm Hc Hk d0 h0 L n0 pt Hn0 Hpt. log_alloc.
  intros seq pt1 (Hseq & HL & Hpt1). apply wp_bind.
  eapply wp_mono; [by apply Hm|]. intros x pt2 [Hpt2 Hs2]. apply wp_bind.
  eapply wp_mono; [apply (log_ok_record a d0 h0 L (n0 - 1)); [done|rewrite Hc; lia]|].
  intros [] pt3 [Hpt3 _]. replace (n0 - (1 + n)) with (n0 - 1 - n) by lia.
  eapply (Hk seq x d0 h0); [lia|done].
Qed.

Lemma spends_ret {A} (x : A) : spends a 0 (mret_st x).
Proof. apply keeps_spends, keeps_ret. Qed.

Lemma spends_record_derived c : ChangeModSeq c = -1 -> spends a 1 (record c).
Proof.
  intros Hc d0 h0 L n pt Hn Hpt. eapply wp_mono; [by eapply log_ok_record_derived|].
  intros [] pt' Hpt'. by eexists.
Qed.

Lemma spends_keeps_l {A B} n (m : M A) (k : A -> M B) :
  0 <= n -> keeps a m -> (forall x, spends a n (k x)) -> spends a n (mbind_st m k).
Proof. intros. apply (spends_bind a 0 n); [done| |done]. by apply keeps_spends. Qed.

Lemma spends_keeps_r {A B} n (m : M A) (k : A -> M B) :
  spends a n m -> (forall x, keeps a (k x)) -> spends a n (mbind_st m k).
Proof.
  intros Hm Hk. rewrite <- (Z.add_0_r n). apply spends_bind; [done|done|].
  intros. by apply keeps_spends.
Qed.

Lemma spends_returning_changes {A} n (m : M A) :
  0 <= n -> spends a n m -> spends a n (returning_changes m).
Proof.
  intros Hn Hm. unfold returning_changes. apply spends_keeps_l; [done|apply keeps_get|].
  intros pt. apply spends_keeps_r; [done|]. intros r. apply keeps_bind; [apply keeps_get|].
  intros. apply keeps_ret.
Qed.

Lemma spends_ensureMailbox name sub su : spends a 2 (ensureMailbox a name sub su).
Proof.
  unfold ensureMailbox. apply spends_keeps_l; [lia|apply keeps_findMailbox|].
  intros [mb|]; [apply (spends_mono a 0); [lia|apply spends_ret]|].
  apply spends_keeps_l; [lia|apply keeps_nextUIDValidity|]. intros uv.
  apply (spends_alloc_record _ (fun seq id => CAddMailbox
    (mkMailbox id (acc_id a) 0 name uv 1 seq seq false su false [] zero_counts) []) _ 1); [lia| |done|].
  - intros seq. apply keeps_returning. intros d x d'. apply frame_insert_mailbox.
  - intros seq id. destruct sub; [|apply (spends_mono a 0); [lia|apply spends_ret]].
    apply spends_keeps_r; [by apply spends_record_derived|]. intros. apply keeps_ret.
Qed.

Lemma spends_MailboxEnsure name sub su : spends a 2 (MailboxEnsure a name sub su).
Proof. apply spends_returning_changes; [lia|]. apply spends_ensureMailbox. Qed.

Lemma spends_MailboxCreate name su : spends a 2 (MailboxCreate a name su).
Proof.
  apply spends_keeps_l; [lia|apply keeps_findMailbox|].
  intros [mb|]; [apply (spends_mono a 0); [lia|apply spends_ret]|].
  apply spends_keeps_r; [|intros; apply keeps_ret].
  apply spends_returning_changes; [lia|]. apply spends_ensureMailbox.
Qed.

Lemma spends_MailboxSetSpecialUse mb su : spends a 1 (MailboxSetSpecialUse a mb su).
Proof.
  apply spends_returning_changes; [lia|].
  change (spends a (1 + 0)
    (let! seq := nextModSeq in
     let! n := sql_returning (fun d => Ok (update_mailboxes (by_id_live a (mb_ID mb))
                 (fun b => mb_set_modseq seq (mb_set_su su b)) d)) in
     do! mguard (negb (n =? 0)) ErrNoRows;
     do! record (CMailboxSpecialUse (mb_ID mb) (mb_Name mb) su seq);
     mret_st (mb_set_modseq seq (mb_set_su su mb)))).
  intros d0 h0 L n0 pt Hn0 Hpt. log_alloc.
  intros seq pt1 (Hseq & HL & Hpt1). apply wp_bind.
  eapply wp_mono; [by apply keeps_update_mailboxes|]. intros n pt2 [Hpt2 Hs2].
  apply wp_bind, wp_guard. intros _. apply wp_bind.
  log_record.
  intros [] pt3 [Hpt3 _]. apply wp_ret. exists seq. by rewrite Z.add_0_r.
Qed.

Lemma spends_MailboxRename src dst : spends a 1 (MailboxRename a src dst).
Proof.
  unfold MailboxRename. apply spends_keeps_l; [lia|apply keeps_get|]. intros pt0.
  intros d0 h0 L n0 pt Hn0 Hpt. log_alloc.
  intros seq pt1 (Hseq & HL & Hpt1). apply wp_bind.
  eapply wp_mono; [eapply keeps_returning; [|done]|].
  { intros d x d' E. destruct (negb _); [done|]. destruct (_ && _); [done|]. by injection E as _ <-. }
  intros n pt2 [Hpt2 Hs2]. destruct (n =? 0); [by apply wp_ret; exists L|].
  apply wp_bind. log_record.
  intros [] pt3 [Hpt3 _]. apply wp_bind, wp_get, wp_ret. by exists seq.
Qed.

Lemma spends_MailboxDelete mb : spends a 1 (MailboxDelete a mb).
Proof.
  apply spends_keeps_r; [|intros; apply keeps_ret]. apply spends_returning_changes; [lia|].
  intros d0 h0 L n0 pt Hn0 Hpt. log_alloc.
  intros seq pt1 (Hseq & HL & Hpt1). apply wp_bind.
  eapply wp_mono; [by apply keeps_update_mailboxes|]. intros n pt2 [Hpt2 Hs2].
  log_record.
  intros [] pt3 [Hpt3 _]. by exists seq.
Qed.

Lemma spends_Subscription name :
  spends a 1 (SubscriptionEnsure a name) /\ spends a 1 (SubscriptionRemove a name).
Proof.
  split; (apply spends_keeps_r; [|intros; apply keeps_ret]; apply spends_returning_changes; [lia|];
    apply spends_keeps_l; [lia|apply keeps_set_subscription|]; intros;
    by apply spends_record_derived).
Qed.

Lemma spends_AnnotationSet id key v str : spends a 1 (AnnotationSet a id key v str).
Proof.
  apply spends_keeps_l; [lia| |].
  - destruct v; apply keeps_exec; intros d d' E; destruct (negb _); try done;
      [destruct (db_accounts d !! _); [|done]|]; by injection E as <-.
  - intros []. intros d0 h0 L n0 pt Hn0 Hpt. log_alloc.
    intros seq pt1 (Hseq & HL & Hpt1). apply wp_bind.
    eapply (wp_mono _ _ (fun _ pt' => log_ok a d0 h0 L (n0 - 1) pt' /\ pt_seq pt' = pt_seq pt1)).
    { destruct (id =? 0); [by apply keeps_ret|by apply keeps_read]. }
    intros name pt2 [Hpt2 Hs2].
    log_record.
    intros [] pt3 [Hpt3 _]. by exists seq.
Qed.

End MailboxLog.
