(* ===== verification/Messages.v ===== *)
(** * Messages of an account (storage/postgres/message.go, tx.go)

    Delivery, copy, flag update and expunge, the body reader, the quota check
    and the counter projections. *)

From S2P Require Import Prelude GoStrings Shapes Changes Blob Database Tx Mailboxes.

Local Open Scope go_scope.

Definition boolInt (b : bool) : Z := if b then 1 else 0.

(** [minNonZero]: the smaller of two limits, 0 meaning "unlimited". *)
Definition minNonZero (x y : Z) : Z :=
  if x =? 0 then y else if y =? 0 then x else if x <? y then x else y.

Section Messages.
Context `{BlobOps}.
Variable a : account.
Variable now : Z.                    (* PostgreSQL's now() in this transaction *)

(** ** Counter projections *)

Definition add_counts (dTotal dSize dUnseen dDeleted : Z) (c : MailboxCounts) : result MailboxCounts :=
  try! total := bigint (c_Total c + dTotal) in
  try! size := bigint (c_Size c + dSize) in
  try! unseen := bigint (c_Unseen c + dUnseen) in
  try! unread := bigint (c_Unread c + dUnseen) in
  try! deleted := bigint (c_Deleted c + dDeleted) in
  Ok (mkCounts total deleted unread unseen size).

(** [UPDATE mailboxes SET c_total=c_total+$2, ... WHERE id=$1]; [None] when no
    row has the id. *)
Definition update_counts (mailboxID dTotal dSize dUnseen dDeleted : Z) (d : DB)
  : result (option MailboxCounts * DB) :=
  match db_mailboxes d !! mailboxID with
  | None => Ok (None, d)
  | Some b =>
      try! c := add_counts dTotal dSize dUnseen dDeleted (mb_Counts b) in
      Ok (Some c, set_mailboxes (<[mailboxID := mb_set_counts c b]> (db_mailboxes d)) d)
  end.

Definition bumpCounts (mailboxID dTotal dSize dUnseen dDeleted : Z) : M unit :=
  let! r := sql_returning (update_counts mailboxID dTotal dSize dUnseen dDeleted) in mret_st tt.

Definition bumpCountsReturning (mailboxID dTotal dSize dUnseen dDeleted : Z) : M MailboxCounts :=
  let! r := sql_returning (update_counts mailboxID dTotal dSize dUnseen dDeleted) in
  match r with Some c => mret_st c | None => merr_st ErrNoRows end.

(** [INSERT INTO quota_counters ... ON CONFLICT DO UPDATE] for one scope. *)
Definition upsert_quota (scope : Z * Z) (dCount dSize : Z) (d : DB) : result DB :=
  match db_quota d !! scope with
  | None => Ok (set_quota (<[scope := (dSize, dCount)]> (db_quota d)) d)
  | Some (bytes, count) =>
      try! bytes' := bigint (bytes + dSize) in
      try! count' := bigint (count + dCount) in
      Ok (set_quota (<[scope := (bytes', count')]> (db_quota d)) d)
  end.

(** Account scope (1), then tenant scope (0). *)
Definition bumpQuota (dCount dSize : Z) : M unit :=
  do! sql_exec (upsert_quota (1, acc_id a) dCount dSize);
  sql_exec (upsert_quota (0, acc_tenantID a) dCount dSize).

(** ** Quota *)

Definition bytes_used (scope : Z * Z) (d : DB) : Z := default 0 (fst <$> db_quota d !! scope).

(** The [check] closure: [None] of the outer option is a missing scope row. *)
Definition check_quota (limit_row : option (option Z)) (scope : Z * Z) (size : Z) (d : DB)
  : result (bool * Z) :=
  match limit_row with
  | None => Err ErrNoRows
  | Some None => Ok (true, 0)
  | Some (Some lim) =>
      if lim =? 0 then Ok (true, 0)
      else Ok (i64 (bytes_used scope d + size) <=? lim, lim)
  end.

Definition CanAddMessageSize (size : Z) : M (bool * Z) := sql_read (fun d =>
  try! acc := check_quota (ar_quota_bytes <$> db_accounts d !! acc_id a) (1, acc_id a) size d in
  if negb acc.1 then Ok (false, acc.2)
  else
    try! ten := check_quota (db_tenants d !! acc_tenantID a) (0, acc_tenantID a) size d in
    if negb ten.1 then Ok (false, ten.2)
    else Ok (true, minNonZero acc.2 ten.2)).

Definition QuotaUsage (d : DB) : result (Z * Z * Z) :=
  match db_accounts d !! acc_id a with
  | None => Err ErrNoRows
  | Some row =>
      let '(bytes, count) := default (0, 0) (db_quota d !! (1, acc_id a)) in
      Ok (bytes, count, default 0 (ar_quota_bytes row))
  end.

(** ** Delivery *)

(** [Blob.Put] runs outside the database transaction. *)
Definition blob_put (body : BlobReader) : M (string * Z) := fun pt =>
  match rd_data body with
  | Err e => (Err e, pt)
  | Ok data =>
      let '(r, b) := blob_Put (acc_tenantID a) data (pt_blobs pt) in (r, with_blobs b pt)
  end.

(** [UPDATE mailboxes SET uidnext = uidnext + 1 WHERE id=$1 RETURNING uidnext - 1] *)
Definition alloc_uid (mailboxID : Z) (d : DB) : result (Z * DB) :=
  match db_mailboxes d !! mailboxID with
  | None => Err ErrNoRows
  | Some b =>
      try! v := bigint (mb_UIDNext b + 1) in
      Ok (v - 1, set_mailboxes (<[mailboxID := mb_set_uidnext v b]> (db_mailboxes d)) d)
  end.

(** [INSERT INTO messages ... RETURNING id, received_at, save_date]: the row is
    keyed by the next identity value; unique (account, mailbox, uid) and the
    composite foreign key to mailboxes are checked. *)
Definition insert_message (mailboxID uid seq : Z) (m : Message) (emailID : Z) (d : DB)
  : result (Message * DB) :=
  if negb (forallb text_ok (m_Keywords m)) then Err ErrDecode
  else match db_mailboxes d !! mailboxID with
  | None => Err ErrForeignKey
  | Some b =>
      if negb (mb_AccountID b =? acc_id a) then Err ErrForeignKey
      else if uid_taken (acc_id a) mailboxID uid d then Err ErrUniqueViolation
      else
        let id := db_message_ids d in
        match db_messages d !! id with
        | Some _ => Err ErrUniqueViolation
        | None =>
            let received := if m_Received m =? 0 then now else m_Received m in
            let row := mkMessage id (acc_id a) mailboxID uid seq seq false (m_Flags m) (m_Keywords m)
                         (m_BlobRef m) (m_Size m) (m_ThreadID m) emailID received now
                         (m_MsgPrefix m) EmptyString EmptyString EmptyString EmptyString
                         EmptyString EmptyString false in
            Ok (row, set_message_ids (id + 1) (set_messages (<[id := row]> (db_messages d)) d))
        end
  end.

(** The message with the content reference and size the store returned. *)
Definition with_blob (ref : string) (size : Z) (m : Message) : Message :=
  mkMessage (m_ID m) (m_AccountID m) (m_MailboxID m) (m_UID m) (m_CreateSeq m) (m_ModSeq m)
    (m_Expunged m) (m_Flags m) (m_Keywords m) ref size (m_ThreadID m) (m_EmailID m)
    (m_Received m) (m_SaveDate m) (m_MsgPrefix m) (m_Subject m) (m_FromAddr m) (m_ToAddrs m)
    (m_FromSearch m) (m_ToSearch m) (m_Preview m) (m_SummaryFolded m).

(** The in-memory message after the insert: what [INSERT ... RETURNING] and the
    assignments around it set; the uid is converted to uint32. *)
Definition added_message (m row : Message) : Message :=
  mkMessage (m_ID row) (m_AccountID row) (m_MailboxID row) (u32 (m_UID row)) (m_CreateSeq row)
    (m_ModSeq row) (m_Expunged m) (m_Flags m) (m_Keywords m) (m_BlobRef m) (m_Size m)
    (m_ThreadID m) (m_EmailID row) (m_Received row) (m_SaveDate row) (m_MsgPrefix m)
    (m_Subject m) (m_FromAddr m) (m_ToAddrs m) (m_FromSearch m) (m_ToSearch m) (m_Preview m)
    (m_SummaryFolded m).

(** [MessageAdd] up to the returned changes; [emailID] is [opts.EmailID]. *)
Definition message_add (mailboxID : Z) (m : Message) (body : BlobReader) (emailID : Z) : M Message :=
  let prefix_len := Z.of_nat (String.length (m_MsgPrefix m)) in
  let! q := CanAddMessageSize (i64 (rd_Size body + prefix_len)) in
  do! mguard q.1 ErrOverQuota;
  let! p := blob_put body in
  let m := with_blob p.1 (i64 (p.2 + prefix_len)) m in
  let! uid := sql_returning (alloc_uid mailboxID) in
  let! seq := nextModSeq in
  let! row := sql_returning (insert_message mailboxID uid seq m emailID) in
  let m' := added_message m row in
  do! bumpCounts mailboxID 1 (m_Size m') (boolInt (negb (Seen (m_Flags m')))) (boolInt (Deleted (m_Flags m')));
  do! bumpQuota 1 (m_Size m');
  do! record (CAddUID (mkAddUID mailboxID (m_UID m') (m_ID m') (EffectiveEmailID m')
        (negb (emailID =? 0)) seq (m_Flags m') (m_Keywords m') 0 0));
  mret_st m'.

Definition MessageAdd (mb : Mailbox) (m : Message) (body : BlobReader) (emailID : Z)
  : M (Message * list Change) := returning_changes (message_add (mb_ID mb) m body emailID).

(** The body of [DeliverMailbox]'s transaction. *)
Definition DeliverMailbox (mailbox : string) (m : Message) (body : BlobReader) : M (list Change) :=
  let! found := MailboxFind a mailbox in
  let! r := match found with
            | Some mb => mret_st (mb, [])
            | None => MailboxEnsure a mailbox true no_special_use
            end in
  let! added := MessageAdd r.1 m body 0 in
  mret_st (r.2 ++ added.2).

(** [MessageReader]: the generated prefix followed by the stored body. *)
Definition MessageReader (m : Message) (blobs : blob_state) : BlobReader :=
  mkReader (m_Size m)
    (try! data := blob_Open (acc_tenantID a) (m_BlobRef m) blobs in Ok (m_MsgPrefix m ++ data)%string).

(** [prefixReader.ReadAt]: [n] bytes from offset [off] of prefix ++ body. *)
Definition ReadAt (m : Message) (blobs : blob_state) (off n : Z) : result string :=
  try! data := rd_data (MessageReader m blobs) in
  if Z.of_nat (String.length data) <? off + n then Err ErrOutOfRange
  else Ok (String.substring (Z.to_nat off) (Z.to_nat n) data).

Definition zero_message : Message :=
  mkMessage 0 0 0 0 0 0 false no_flags [] EmptyString 0 0 0 0 0 EmptyString EmptyString EmptyString
    EmptyString EmptyString EmptyString EmptyString false.

(** [AddSibling]: a new row in another mailbox sharing the email identity. *)
Definition AddSibling (src : Message) (mb : Mailbox) : M (Message * list Change) :=
  let! pt := mget in
  let nm := mkMessage 0 0 0 0 0 0 false (m_Flags src) (m_Keywords src) EmptyString 0
              (m_ThreadID src) 0 0 0 EmptyString EmptyString EmptyString EmptyString EmptyString
              EmptyString EmptyString false in
  MessageAdd mb nm (MessageReader src (pt_blobs pt)) (EffectiveEmailID src).

(** ** Reading rows back *)

Definition scanMessage (m : Message) : result Message :=
  if is_u32 (m_UID m) then Ok m else Err ErrOutOfRange.

Definition Get_mailbox (id : Z) : M Mailbox := sql_read (fun d =>
  match db_mailboxes d !! id with
  | Some b => if mb_AccountID b =? acc_id a then scanMailbox b else Err errNotFound
  | None => Err errNotFound
  end).

Definition getMessage (id : Z) : M Message := sql_read (fun d =>
  match db_messages d !! id with
  | Some m => if m_AccountID m =? acc_id a then scanMessage m else Err ErrNoRows
  | None => Err ErrNoRows
  end).

(** [MessagesByEmailID]: the live rows of an email group, by mailbox. *)
Definition mailbox_le (x y : Message) : Prop := m_MailboxID x <= m_MailboxID y.
#[global] Instance mailbox_le_dec x y : Decision (mailbox_le x y).
Proof. unfold mailbox_le. apply _. Defined.
Definition in_email_group (emailID : Z) (m : Message) : bool :=
  (m_AccountID m =? acc_id a) && negb (m_Expunged m)
  && ((m_ID m =? emailID) || (m_EmailID m =? emailID)).
Definition MessagesByEmailID (emailID : Z) : M (list Message) := sql_read (fun d =>
  rmap scanMessage (merge_sort mailbox_le (messages_where (in_email_group emailID) d))).

(** [MessageCount]: live rows of a mailbox. *)
Definition MessageCount (mailboxID : Z) (d : DB) : Z :=
  Z.of_nat (length (messages_where (fun m => (m_MailboxID m =? mailboxID) && negb (m_Expunged m)) d)).

(** ** Flag update and expunge *)

(** [pgTx.Update] of a message. *)
Definition Update (x : Message) : M Message :=
  let! seq := nextModSeq in
  let! old := sql_read (fun d =>
    match db_messages d !! m_ID x with
    | Some m => if m_AccountID m =? acc_id a then Ok (Seen (m_Flags m), Deleted (m_Flags m))
                else Err errNotFound
    | None => Err errNotFound
    end) in
  do! sql_exec (fun d =>
    if negb (forallb text_ok (m_Keywords x)) then Err ErrDecode
    else match db_messages d !! m_ID x with
         | Some m =>
             if m_AccountID m =? acc_id a
             then Ok (set_messages (<[m_ID x := m_set_flags (m_Flags x) (m_Keywords x) seq m]>
                                      (db_messages d)) d)
             else Err errNotFound
         | None => Err errNotFound
         end);
  let dUnseen := boolInt (negb (Seen (m_Flags x))) - boolInt (negb old.1) in
  let dDeleted := boolInt (Deleted (m_Flags x)) - boolInt old.2 in
  do! (if negb (dUnseen =? 0) || negb (dDeleted =? 0)
       then bumpCounts (m_MailboxID x) 0 0 dUnseen dDeleted else mret_st tt);
  do! record (CFlags (mkChangeFlags (m_MailboxID x) (m_UID x) (m_ID x) (EffectiveEmailID x) seq
                (m_Flags x) (m_Flags x) (m_Keywords x) 0 0));
  mret_st (m_set_flags (m_Flags x) (m_Keywords x) seq x).

(** [UPDATE messages SET expunged=true, modseq=$1 WHERE id=$2] *)
Definition expunge_row (modseq : Z) (m : Message) (d : DB) : DB :=
  set_messages (alter (m_set_expunged true modseq) (m_ID m) (db_messages d)) d.

Definition sum_size (msgs : list Message) : Z := foldl (fun n m => i64 (n + m_Size m)) 0 msgs.
Definition count_if (p : Message -> bool) (msgs : list Message) : Z :=
  foldl (fun n m => n + boolInt (p m)) 0 msgs.

(** [MessageRemove]; a [modseq] of 0 allocates one. *)
Definition MessageRemove (modseq : Z) (mb : Mailbox) (msgs : list Message)
  : M (ChangeRemoveUIDs * MailboxCounts) :=
  let! modseq := (if modseq =? 0 then nextModSeq else mret_st modseq) in
  do! miter (fun m => sql_exec (fun d => Ok (expunge_row modseq m d))) msgs;
  let n := Z.of_nat (length msgs) in
  let totalSize := sum_size msgs in
  let unseen := count_if (fun m => negb (Seen (m_Flags m))) msgs in
  let deleted := count_if (fun m => Deleted (m_Flags m)) msgs in
  let! counts := bumpCountsReturning (mb_ID mb) (- n) (i64 (- totalSize)) (- unseen) (- deleted) in
  do! bumpQuota (- n) (i64 (- totalSize));
  let cr := mkRemoveUIDs (mb_ID mb) (m_UID <$> msgs) modseq (m_ID <$> msgs)
              (EffectiveEmailID <$> msgs) 0 0 0 in
  do! record (CRemoveUIDs cr);
  mret_st (cr, counts).

End Messages.
