(* ===== verification/Query.v ===== *)
(** * The message and mailbox queries (storage/postgres/tx.go)

    [msgQuery] accumulates conditions, an order and a window; [sql] evaluates
    the statement it renders on the tables, and [ForEach], [List], [Count] run
    it.  What PostgreSQL decides for itself is in the class [SqlText] (case
    folding, timestamp syntax, collation, text-search vectors) and in [plan],
    the order in which a statement yields rows that its ORDER BY leaves
    unordered. *)

From S2P Require Import Prelude Lists GoStrings Shapes Changes Blob Database Tx Mailboxes Messages.

Local Open Scope go_scope.

(** ** LIKE *)

Definition runes (s : string) : list Z := fst <$> segs (bytes_of s).

(** [strings.NewReplacer] of tx.go: a backslash before each metacharacter. *)
Definition is_meta_rune (r : Z) : bool := (r =? 37) || (r =? 92) || (r =? 95).
Definition is_meta (c : ascii) : bool := is_meta_rune (byte_of c).
Fixpoint like_escape (l : list ascii) : list ascii :=
  match l with
  | [] => []
  | c :: l => if is_meta c then "\"%char :: c :: like_escape l else c :: like_escape l
  end.
Definition like_pattern (s : string) : string :=
  str_of (("%"%char :: like_escape (bytes_of s)) ++ ["%"%char]).

(** [text LIKE pattern ESCAPE '\'] on characters. *)
Fixpoint like (p : list Z) : list Z -> bool :=
  match p with
  | [] => fun t => match t with [] => true | _ => false end
  | c :: p =>
      if c =? 37 then
        fix any (t : list Z) : bool := like p t || match t with [] => false | _ :: t => any t end
      else if c =? 95 then fun t => match t with [] => false | _ :: t => like p t end
      else if c =? 92 then
        match p with
        | [] => fun _ => false
        | e :: p => fun t => match t with [] => false | x :: t => (x =? e) && like p t end
        end
      else fun t => match t with [] => false | x :: t => (x =? c) && like p t end
  end.

(** ** Conditions *)

Inductive text_col : Type := ColSubject | ColFromSearch | ColToSearch.
Inductive flag_col : Type := f_seen | f_answered | f_flagged | f_draft | f_deleted | f_junk.

Inductive cond : Type :=
| CondAccount (id : Z)
| CondMailbox (id : Z)
| CondModSeqGreater (m : Z)
| CondUIDGe (lo : Z)
| CondUIDLe (hi : Z)
| CondFlag (col : flag_col) (want : bool)
| CondFTS (pattern query : string)
| CondThread (id : Z)
| CondNotFolded
| CondFolded
| CondFalse
| CondGroupIn (ids : list Z)
| CondILike (col : text_col) (pattern : string)
| CondReceivedGe (ts : string)
| CondReceivedLt (ts : string)
| CondSizeGe (n : Z)
| CondSizeLe (n : Z)
| CondKeyword (kw : string) (want : bool).

Inductive sort_order : Type := ByUID | ByReceivedDesc | ByReceivedAsc | BySizeDesc | BySizeAsc.

Record msgQuery := mkQuery {
  q_wheres : list cond; q_order : option sort_order; q_limit : Z; q_offset : Z; q_distinct : bool }.

(** ** What the database and the Unicode tables supply *)

Class SqlText := {
  pg_lower : Z -> Z;                          (* lower() of a character *)
  parse_ts : string -> option Z;              (* a timestamptz literal *)
  collate_le : string -> string -> bool;      (* the collation of ORDER BY *)
  tsvector : Type;
  ts_match : tsvector -> string -> bool;      (* tsv @@ plainto_tsquery('simple', q) *)
  plan : msgQuery -> list Message -> list Message;  (* the rows of a statement as they come *)
  plan_mb : list Mailbox -> list Mailbox }.

(** Case folding keeps the LIKE metacharacters apart from letters; a statement
    yields each of its rows once, in some order. *)
Class SqlTextLaws `{SqlText} := {
  pg_lower_meta : forall c, c ∈ [37; 92; 95] -> pg_lower c = c;
  pg_lower_inv : forall c, pg_lower c ∈ [37; 92; 95] -> pg_lower c = c;
  plan_perm : forall q l, plan q l ≡ₚ l;
  plan_mb_perm : forall l, plan_mb l ≡ₚ l }.

(** A row of [fts]: the source text when it has been indexed, and its vector. *)
Record FTSRow `{SqlText} := mkFTS { fts_search_text : option string; fts_tsv : tsvector }.

Section Query.
Context `{Unicode} `{SqlText}.

Definition add (c : cond) (q : msgQuery) : msgQuery :=
  mkQuery (q_wheres q ++ [c]) (q_order q) (q_limit q) (q_offset q) (q_distinct q).

Definition QueryMessage (a : account) : msgQuery := add (CondAccount (acc_id a)) (mkQuery [] None 0 0 false).

Definition FilterMailbox (id : Z) := add (CondMailbox id).
Definition FilterModSeqGreater (m : Z) := add (CondModSeqGreater m).
Definition FilterUIDRange (lo hi : Z) (q : msgQuery) := add (CondUIDLe hi) (add (CondUIDGe lo) q).
Definition FilterFlags (mask want : Flags) (q : msgQuery) : msgQuery :=
  if Seen mask then add (CondFlag f_seen (Seen want)) q else q.
Definition FilterFTS (query : string) := add (CondFTS (like_pattern query) query).
Definition FilterThread (id : Z) := add (CondThread id).
Definition FilterUnfolded := add CondNotFolded.
Definition FilterFolded := add CondFolded.
Definition FilterEmailGroupIn (groupIDs : list Z) : msgQuery -> msgQuery :=
  match groupIDs with [] => add CondFalse | _ => add (CondGroupIn groupIDs) end.
Definition ilikeContains (col : text_col) (substr : string) := add (CondILike col (like_pattern substr)).
Definition FilterSubject := ilikeContains ColSubject.
Definition FilterFrom := ilikeContains ColFromSearch.
Definition FilterTo := ilikeContains ColToSearch.
Definition FilterReceivedRange (after before : string) (q : msgQuery) : msgQuery :=
  let q := if String.eqb after EmptyString then q else add (CondReceivedGe after) q in
  if String.eqb before EmptyString then q else add (CondReceivedLt before) q.
Definition FilterSizeRange (min max : Z) (q : msgQuery) : msgQuery :=
  let q := if 0 <? min then add (CondSizeGe min) q else q in
  if 0 <? max then add (CondSizeLe max) q else q.

Definition systemFlagColumn (kw : string) : option flag_col :=
  let k := ToLower kw in
  if String.eqb k "\seen" || String.eqb k "$seen" then Some f_seen
  else if String.eqb k "\answered" || String.eqb k "$answered" then Some f_answered
  else if String.eqb k "\flagged" || String.eqb k "$flagged" then Some f_flagged
  else if String.eqb k "\draft" || String.eqb k "$draft" then Some f_draft
  else if String.eqb k "\deleted" || String.eqb k "$deleted" then Some f_deleted
  else if String.eqb k "\junk" || String.eqb k "$junk" then Some f_junk
  else None.
Definition FilterKeyword (kw : string) (want : bool) : msgQuery -> msgQuery :=
  match systemFlagColumn kw with
  | Some col => add (CondFlag col want)
  | None => add (CondKeyword kw want)
  end.

Definition set_order (o : sort_order) (q : msgQuery) : msgQuery :=
  mkQuery (q_wheres q) (Some o) (q_limit q) (q_offset q) (q_distinct q).
Definition SortUID := set_order ByUID.
Definition SortReceivedDesc := set_order ByReceivedDesc.
Definition SortReceivedAsc := set_order ByReceivedAsc.
Definition SortSizeDesc := set_order BySizeDesc.
Definition SortSizeAsc := set_order BySizeAsc.
Definition DistinctEmail (q : msgQuery) : msgQuery :=
  mkQuery (q_wheres q) (q_order q) (q_limit q) (q_offset q) true.
Definition Limit (n : Z) (q : msgQuery) : msgQuery :=
  mkQuery (q_wheres q) (q_order q) n (q_offset q) (q_distinct q).
Definition Offset (n : Z) (q : msgQuery) : msgQuery :=
  mkQuery (q_wheres q) (q_order q) (q_limit q) n (q_distinct q).

(** ** Evaluation *)

Definition fold_case (l : list Z) : list Z := pg_lower <$> l.
Definition ilike (text pattern : string) : bool :=
  like (fold_case (runes pattern)) (fold_case (runes text)).

Definition col_text (c : text_col) (m : Message) : string :=
  match c with ColSubject => m_Subject m | ColFromSearch => m_FromSearch m | ColToSearch => m_ToSearch m end.
Definition col_flag (c : flag_col) (f : Flags) : bool :=
  match c with
  | f_seen => Seen f | f_answered => Answered f | f_flagged => Flagged f
  | f_draft => Draft f | f_deleted => Deleted f | f_junk => Junk f
  end.

(** The rows of [fts], keyed by (account_id, message_id). *)
Variable fts : gmap (Z * Z) FTSRow.

Definition fts_hit (pattern query : string) (r : FTSRow) : bool :=
  match fts_search_text r with
  | Some text => ilike text pattern
  | None => ts_match (fts_tsv r) query
  end.

Definition ts_of (s : string) : Z := default 0 (parse_ts s).

(** The truth of a condition on a row; a comparison with NULL does not hold. *)
Definition holds (m : Message) (c : cond) : bool :=
  match c with
  | CondAccount id => m_AccountID m =? id
  | CondMailbox id => m_MailboxID m =? id
  | CondModSeqGreater ms => ms <? m_ModSeq m
  | CondUIDGe lo => lo <=? m_UID m
  | CondUIDLe hi => m_UID m <=? hi
  | CondFlag col want => Bool.eqb (col_flag col (m_Flags m)) want
  | CondFTS pattern query =>
      match fts !! (m_AccountID m, m_ID m) with Some r => fts_hit pattern query r | None => false end
  | CondThread id => negb (m_ThreadID m =? 0) && (m_ThreadID m =? id)
  | CondNotFolded => negb (m_SummaryFolded m)
  | CondFolded => m_SummaryFolded m
  | CondFalse => false
  | CondGroupIn ids => bool_decide (EffectiveEmailID m ∈ ids)
  | CondILike col pattern => ilike (col_text col m) pattern
  | CondReceivedGe ts => ts_of ts <=? m_Received m
  | CondReceivedLt ts => m_Received m <? ts_of ts
  | CondSizeGe n => n <=? m_Size m
  | CondSizeLe n => m_Size m <=? n
  | CondKeyword kw want =>
      Bool.eqb (existsb (fun k => bool_decide (fold_case (runes k) = fold_case (runes kw))) (m_Keywords m)) want
  end.

(** Whether the server accepts the arguments of a condition. *)
Definition arg_ok (c : cond) : bool :=
  match c with
  | CondFTS pattern query => text_ok pattern && text_ok query
  | CondILike _ pattern => text_ok pattern
  | CondReceivedGe ts | CondReceivedLt ts => if parse_ts ts is Some _ then true else false
  | CondKeyword kw _ => text_ok kw
  | _ => true
  end.

(** [WHERE NOT expunged AND ...]. *)
Definition whereClause (q : msgQuery) (m : Message) : bool :=
  negb (m_Expunged m) && forallb (holds m) (q_wheres q).
Definition matching (q : msgQuery) (d : DB) : list Message := messages_where (whereClause q) d.

Definition order_leb (o : sort_order) (x y : Message) : bool :=
  match o with
  | ByUID => m_UID x <=? m_UID y
  | ByReceivedDesc => (m_Received y <? m_Received x) || ((m_Received x =? m_Received y) && (m_ID y <=? m_ID x))
  | ByReceivedAsc => (m_Received x <? m_Received y) || ((m_Received x =? m_Received y) && (m_ID x <=? m_ID y))
  | BySizeDesc => (m_Size y <? m_Size x) || ((m_Size x =? m_Size y) && (m_ID y <=? m_ID x))
  | BySizeAsc => (m_Size x <? m_Size y) || ((m_Size x =? m_Size y) && (m_ID x <=? m_ID y))
  end.
Definition order_le (o : sort_order) (x y : Message) : Prop := order_leb o x y = true.
#[global] Instance order_le_dec o x y : Decision (order_le o x y).
Proof. unfold order_le. apply _. Defined.
Definition order_by (o : option sort_order) (l : list Message) : list Message :=
  match o with
  | None => l
  | Some o => merge_sort (order_le o) l
  end.

(** [DISTINCT ON (COALESCE(email_id, id)) ... ORDER BY COALESCE(email_id, id), id]:
    the first row of each group. *)
Definition group_id_le (x y : Message) : Prop :=
  EffectiveEmailID x < EffectiveEmailID y \/
  (EffectiveEmailID x = EffectiveEmailID y /\ m_ID x <= m_ID y).
#[global] Instance group_id_le_dec x y : Decision (group_id_le x y).
Proof. unfold group_id_le. apply _. Defined.
Definition distinct_on (l : list Message) : list Message :=
  first_of EffectiveEmailID ∅ (merge_sort group_id_le l).

Definition limit_rows {A} (limit offset : Z) (l : list A) : list A :=
  let l := if 0 <? offset then drop (Z.to_nat offset) l else l in
  if 0 <? limit then take (Z.to_nat limit) l else l.

(** The rows of the statement before LIMIT and OFFSET, and the statement. *)
Definition selected (q : msgQuery) (d : DB) : list Message :=
  if q_distinct q then distinct_on (matching q d) else matching q d.
Definition ordered (q : msgQuery) (d : DB) : list Message :=
  order_by (q_order q) (plan q (selected q d)).
Definition sql (q : msgQuery) (d : DB) : result (list Message) :=
  if forallb arg_ok (q_wheres q) then Ok (limit_rows (q_limit q) (q_offset q) (ordered q d))
  else Err ErrDecode.

Definition ForEach {St} (q : msgQuery) (fn : Message -> stM St unit) (d : DB) : stM St unit :=
  match sql q d with
  | Err e => merr_st e
  | Ok rows => miter (fun row => match scanMessage row with Ok m => fn m | Err e => merr_st e end) rows
  end.

Definition List_messages (q : msgQuery) (d : DB) : result (list Message) :=
  match ForEach q (fun m => mmodify (fun out => out ++ [m])) d [] with
  | (Ok _, out) => Ok out
  | (Err e, _) => Err e
  end.

Definition Count (q : msgQuery) (d : DB) : result Z :=
  if forallb arg_ok (q_wheres q) then
    Ok (if q_distinct q
        then Z.of_nat (size (list_to_set (EffectiveEmailID <$> matching q d) : gset Z))
        else Z.of_nat (length (matching q d)))
  else Err ErrDecode.

(** ** Mailboxes *)

Record mbQuery := mkMbQuery { mq_account : Z; mq_includeExpunged : bool }.
Definition QueryMailbox (a : account) : mbQuery := mkMbQuery (acc_id a) false.
Definition FilterExpunged (b : bool) (q : mbQuery) : mbQuery := mkMbQuery (mq_account q) b.
Definition mb_selected (q : mbQuery) (b : Mailbox) : bool :=
  (mb_AccountID b =? mq_account q) && (mq_includeExpunged q || negb (mb_Expunged b)).
Definition name_le (x y : Mailbox) : Prop := collate_le (mb_Name x) (mb_Name y) = true.
#[global] Instance name_le_dec x y : Decision (name_le x y).
Proof. unfold name_le. apply _. Defined.
Definition List_mailboxes (q : mbQuery) (d : DB) : result (list Mailbox) :=
  rmap scanMailbox
    (merge_sort name_le (plan_mb (mailboxes_where (mb_selected q) d))).

End Query.
