(* ===== verification/KernelInv.v ===== *)
(** * Invariants of the mail store

    A transaction body is a sequence of kernel operations ([op], [run_ops]).
    [db_struct] is what they keep whatever rows they are given: keys, foreign
    keys, UID allocation.  [db_wf] adds that mailbox and quota counters agree
    with the message rows, which takes callers that pass the rows as they are in
    the same transaction ([op_pre]).  [op_own] asks only that the rows belong to
    the account. *)

From S2P Require Import Prelude GoStrings Shapes Changes Blob Database Tx Mailboxes Messages.

Local Open Scope go_scope.

(** ** Operations and their use *)

Inductive op : Type :=
| OEnsure (name : string) (subscribe : bool) (su : SpecialUse)
| OCreate (name : string) (su : SpecialUse)
| OSetSpecialUse (mb : Mailbox) (su : SpecialUse)
| ORename (src : Mailbox) (dst : string)
| ODelete (mb : Mailbox)
| OSubscribe (name : string)
| OUnsubscribe (name : string)
| OAnnotate (mailboxID : Z) (key : string) (value : option string) (isString : bool)
| OAdd (mb : Mailbox) (m : Message) (body : BlobReader) (emailID : Z)
| ODeliver (mailbox : string) (m : Message) (body : BlobReader)
| OSibling (src : Message) (mb : Mailbox)
| OUpdate (x : Message)
| ORemove (mb : Mailbox) (msgs : list Message).

Section Kernel.
Context `{BlobOps}.
Variable a : account.
Variable now : Z.

Definition ignore {A} (m : M A) : M unit := mbind_st m (fun _ => mret_st tt).

Definition run_op (o : op) : M unit :=
  match o with
  | OEnsure n s su => ignore (MailboxEnsure a n s su)
  | OCreate n su => ignore (MailboxCreate a n su)
  | OSetSpecialUse mb su => ignore (MailboxSetSpecialUse a mb su)
  | ORename src dst => ignore (MailboxRename a src dst)
  | ODelete mb => ignore (MailboxDelete a mb)
  | OSubscribe n => ignore (SubscriptionEnsure a n)
  | OUnsubscribe n => ignore (SubscriptionRemove a n)
  | OAnnotate id k v s => AnnotationSet a id k v s
  | OAdd mb m body e => ignore (MessageAdd a now mb m body e)
  | ODeliver n m body => ignore (DeliverMailbox a now n m body)
  | OSibling src mb => ignore (AddSibling a now src mb)
  | OUpdate x => ignore (Update a x)
  | ORemove mb msgs => ignore (MessageRemove a 0 mb msgs)
  end.

Definition run_ops (ops : list op) : M unit := miter run_op ops.

(** A row read in this transaction: live, of this account, and unchanged. *)
Definition current (m : Message) (d : DB) : Prop :=
  db_messages d !! m_ID m = Some m /\ m_AccountID m = acc_id a /\ m_Expunged m = false.

(** A body whose length fits an int64 together with the generated prefix. *)
Definition body_fits (body : BlobReader) (prefix : string) : Prop :=
  forall data, rd_data body = Ok data ->
    Z.of_nat (String.length data) + Z.of_nat (String.length prefix) <= max_int64.

(** What the counters rely on: messages to update or remove are current rows
    (only flags and keywords edited), and the rows handed to one
    [MessageRemove] are distinct and in its mailbox.  IMAP and the web API call
    the operations so; JMAP's [emailUpdate] does not when one patch changes
    keywords and mailboxes (see [KernelSpec.stale_remove_drifts]). *)
Definition op_pre (o : op) (pt : pgTx) : Prop :=
  match o with
  | OAdd _ m body _ | ODeliver _ m body => body_fits body (m_MsgPrefix m)
  | OSibling src _ => body_fits (MessageReader a src (pt_blobs pt)) EmptyString
  | OUpdate x => exists m, current m (pt_db pt) /\ x = m_set_flags (m_Flags x) (m_Keywords x) (m_ModSeq m) m
  | ORemove mb msgs =>
      NoDup (m_ID <$> msgs) /\
      Forall (fun m => current m (pt_db pt) /\ m_MailboxID m = mb_ID mb) msgs
  | _ => True
  end.

(** What isolation relies on: [WHERE id=$1] of [bumpCounts] and [WHERE id=$2]
    of the expunge name no account, so the mailbox a message claims to be in,
    and the rows to expunge, must not be another account's.  Stale rows will do. *)
Definition own_box (k : Z) (d : DB) : Prop :=
  forall b, db_mailboxes d !! k = Some b -> mb_AccountID b = acc_id a.
Definition own_row (k : Z) (d : DB) : Prop :=
  forall m, db_messages d !! k = Some m -> m_AccountID m = acc_id a.
Definition op_own (o : op) (pt : pgTx) : Prop :=
  match o with
  | OUpdate x => own_box (m_MailboxID x) (pt_db pt)
  | ORemove mb msgs => own_box (mb_ID mb) (pt_db pt) /\ Forall (fun m => own_row (m_ID m) (pt_db pt)) msgs
  | _ => True
  end.

(** A body run operation by operation, every call meeting the precondition [P]. *)
Inductive runs_with (P : op -> pgTx -> Prop) : list op -> pgTx -> pgTx -> Prop :=
| runs_nil pt : runs_with P [] pt pt
| runs_cons o ops pt pt1 pt2 :
    P o pt -> run_op o pt = (Ok tt, pt1) -> runs_with P ops pt1 pt2 -> runs_with P (o :: ops) pt pt2.

(** ** Well-formed databases *)

(** What holds whatever rows the calls pass: keys, foreign keys, UIDs, and
    counters that fit their columns. *)
Record db_struct (d : DB) : Prop := {
  ds_mb_key k b : db_mailboxes d !! k = Some b -> mb_ID b = k /\ k < db_mailbox_ids d;
  ds_msg_key k m : db_messages d !! k = Some m -> m_ID m = k /\ k < db_message_ids d;
  ds_fk k m : db_messages d !! k = Some m ->
    exists b, db_mailboxes d !! m_MailboxID m = Some b /\ mb_AccountID b = m_AccountID m;
  ds_uid k m b : db_messages d !! k = Some m -> db_mailboxes d !! m_MailboxID m = Some b ->
    m_UID m < mb_UIDNext b;
  ds_uid_unique k1 k2 m1 m2 : db_messages d !! k1 = Some m1 -> db_messages d !! k2 = Some m2 ->
    m_MailboxID m1 = m_MailboxID m2 -> m_UID m1 = m_UID m2 -> k1 = k2;
  ds_bound k b : db_mailboxes d !! k = Some b -> c_Size (mb_Counts b) <= max_int64 }.

Definition live_in (mb : Z) (m : Message) : bool := (m_MailboxID m =? mb) && negb (m_Expunged m).
Definition w_total (mb : Z) (m : Message) : Z := boolInt (live_in mb m).
Definition w_size (mb : Z) (m : Message) : Z := if live_in mb m then m_Size m else 0.
Definition w_unseen (mb : Z) (m : Message) : Z := boolInt (live_in mb m && negb (Seen (m_Flags m))).
Definition w_deleted (mb : Z) (m : Message) : Z := boolInt (live_in mb m && Deleted (m_Flags m)).

(** What a mailbox's counters should be, recomputed from the rows. *)
Definition counts_of (mb : Z) (t : gmap Z Message) : MailboxCounts :=
  mkCounts (agg (w_total mb) t) (agg (w_deleted mb) t) (agg (w_unseen mb) t)
    (agg (w_unseen mb) t) (agg (w_size mb) t).

(** What the account's quota usage should be. *)
Definition q_size (acc : Z) (m : Message) : Z :=
  if (m_AccountID m =? acc) && negb (m_Expunged m) then m_Size m else 0.
Definition q_count (acc : Z) (m : Message) : Z :=
  boolInt ((m_AccountID m =? acc) && negb (m_Expunged m)).

(** What holds when the calls pass current rows: the counters agree with the rows, too. *)
Record db_wf (d : DB) : Prop := {
  wf_struct : db_struct d;
  wf_size k m : db_messages d !! k = Some m -> 0 <= m_Size m;
  wf_counts k b : db_mailboxes d !! k = Some b -> mb_Counts b = counts_of k (db_messages d);
  wf_quota acc : default (0, 0) (db_quota d !! (1, acc))
    = (agg (q_size acc) (db_messages d), agg (q_count acc) (db_messages d)) }.

Lemma wf_mb_key d : db_wf d -> forall k b, db_mailboxes d !! k = Some b -> mb_ID b = k /\ k < db_mailbox_ids d.
Proof. intros Hwf. apply (ds_mb_key _ (wf_struct _ Hwf)). Qed.
Lemma wf_msg_key d : db_wf d -> forall k m, db_messages d !! k = Some m -> m_ID m = k /\ k < db_message_ids d.
Proof. intros Hwf. apply (ds_msg_key _ (wf_struct _ Hwf)). Qed.
Lemma wf_fk d : db_wf d -> forall k m, db_messages d !! k = Some m ->
  exists b, db_mailboxes d !! m_MailboxID m = Some b /\ mb_AccountID b = m_AccountID m.
Proof. intros Hwf. apply (ds_fk _ (wf_struct _ Hwf)). Qed.
Lemma wf_uid d : db_wf d -> forall k m b, db_messages d !! k = Some m -> db_mailboxes d !! m_MailboxID m = Some b ->
  m_UID m < mb_UIDNext b.
Proof. intros Hwf. apply (ds_uid _ (wf_struct _ Hwf)). Qed.
Lemma wf_bound d : db_wf d -> forall k b, db_mailboxes d !! k = Some b -> c_Size (mb_Counts b) <= max_int64.
Proof. intros Hwf. apply (ds_bound _ (wf_struct _ Hwf)). Qed.

End Kernel.

Notation runs a now := (runs_with a now (op_pre a)).

(** ** Mailbox operations leave the messages alone *)

Section MailboxStep.
Context `{BlobOps}.
Variable a : account.

(** The part of a mailbox row that messages depend on. *)
Definition core_eq (b b' : Mailbox) : Prop :=
  mb_ID b = mb_ID b' /\ mb_AccountID b = mb_AccountID b' /\ mb_UIDNext b = mb_UIDNext b' /\
  mb_Counts b = mb_Counts b'.

Lemma core_eq_trans b1 b2 b3 : core_eq b1 b2 -> core_eq b2 b3 -> core_eq b1 b3.
Proof. unfold core_eq. intros (-> & -> & -> & ->) (-> & -> & -> & ->). done. Qed.

(** Steps of mailbox operations: rows keep their core, rows of other accounts
    do not change at all, new rows are empty and take the next identity. *)
Record mb_step (d d' : DB) : Prop := {
  ms_messages : db_messages d' = db_messages d;
  ms_message_ids : db_message_ids d' = db_message_ids d;
  ms_quota : db_quota d' = db_quota d;
  ms_ids : db_mailbox_ids d <= db_mailbox_ids d';
  ms_old k b : db_mailboxes d !! k = Some b ->
    exists b', db_mailboxes d' !! k = Some b' /\ core_eq b b' /\ (mb_AccountID b <> acc_id a -> b' = b);
  ms_new k b' : db_mailboxes d' !! k = Some b' -> db_mailboxes d !! k = None ->
    mb_ID b' = k /\ mb_AccountID b' = acc_id a /\ mb_Counts b' = zero_counts /\
    db_mailbox_ids d <= k < db_mailbox_ids d' }.

#[export] Instance mb_step_refl : Reflexive mb_step.
Proof. intros d. split; auto; try lia; [eauto using eq_refl|congruence]. intros k b Hb. exists b. done. Qed.

#[export] Instance mb_step_trans : Transitive mb_step.
Proof.
  intros d1 d2 d3 [A1 A2 A3 A4 A5 A6] [B1 B2 B3 B4 B5 B6]. split; try congruence; try lia.
  - intros k b Hb. destruct (A5 k b Hb) as (b2 & Hb2 & Hc2 & Hn2).
    destruct (B5 k b2 Hb2) as (b3 & Hb3 & Hc3 & Hn3). exists b3. split; [done|].
    split; [by eapply core_eq_trans|]. intros Hne. destruct Hc2 as (_ & Ha & _).
    rewrite Hn3 by congruence. auto.
  - intros k b3 Hb3 Hn. destruct (db_mailboxes d2 !! k) as [b2|] eqn:Hb2.
    + destruct (A6 k b2 Hb2 Hn) as (Ei & Ea & Ec & Er).
      destruct (B5 k b2 Hb2) as (b3' & Hb3' & (Fi & Fa & Fu & Fc) & _).
      rewrite Hb3 in Hb3'. injection Hb3' as <-. split_and!; try congruence; lia.
    + destruct (B6 k b3 Hb3 Hb2) as (Ei & Ea & Ec & Er). split_and!; auto; lia.
Qed.

Lemma mb_step_update (p : Mailbox -> bool) f d :
  (forall b, core_eq b (f b)) -> (forall b, p b = true -> mb_AccountID b = acc_id a) ->
  mb_step d (update_mailboxes p f d).2.
Proof.
  intros Hf Hp. split; simpl; auto; try lia.
  - intros k b Hb. rewrite lookup_fmap, Hb. simpl. eexists. split; [done|].
    destruct (p b) eqn:E; [|done]. split; [apply Hf|]. intros Hne. by apply Hp in E.
  - intros k b'. rewrite lookup_fmap. destruct (db_mailboxes d !! k); [done|]. done.
Qed.

Lemma dbstep_update p f :
  (forall b, core_eq b (f b)) -> (forall b, p b = true -> mb_AccountID b = acc_id a) ->
  dbstep mb_step (sql_returning (fun d => Ok (update_mailboxes p f d))).
Proof.
  intros Hf Hp. apply dbstep_returning. intros d n d' [= _ <-]. by apply mb_step_update.
Qed.

Lemma live_named_account acc n b : live_named acc n b = true -> mb_AccountID b = acc.
Proof. unfold live_named. intros. by b2p. Qed.
Lemma by_id_live_account id b : by_id_live a id b = true -> mb_AccountID b = acc_id a.
Proof. unfold by_id_live. intros. by b2p. Qed.

Lemma dbstep_insert_mailbox n uv seq su sub :
  dbstep mb_step (sql_returning (insert_mailbox a n uv seq su sub)).
Proof.
  apply dbstep_returning. intros d id d'. unfold insert_mailbox.
  destruct (negb _); [done|]. destruct (db_accounts d !! _); [|done].
  destruct (name_taken _ _ _ _); [done|].
  destruct (db_mailboxes d !! db_mailbox_ids d) eqn:Hfree; [done|]. intros [= <- <-].
  split; simpl; auto; try lia.
  - intros k b Hb. exists b. rewrite lookup_insert_ne by congruence. done.
  - intros k b'. rewrite lookup_insert. case_decide as Hk; [|congruence].
    intros [= <-] _. subst k. simpl. split_and!; auto; lia.
Qed.

Lemma dbstep_nextUIDValidity : dbstep mb_step (nextUIDValidity a).
Proof.
  apply dbstep_returning. intros d x d' E. destruct (db_accounts d !! acc_id a); [|done].
  destruct (bigint _); [|done]. injection E as _ <-.
  split; simpl; auto; try lia; [|congruence]. intros k b Hb. exists b. done.
Qed.

Ltac mb_walk :=
  repeat first
    [ apply dbstep_bind; [exact _| |intros ?]
    | apply dbstep_ret; exact _ | apply dbstep_get; exact _ | apply dbstep_guard; exact _
    | apply dbstep_read; exact _ | apply dbstep_next; exact _ | apply dbstep_record; exact _
    | apply dbstep_insert_mailbox | apply dbstep_nextUIDValidity
    | match goal with |- dbstep _ (match ?e with _ => _ end) => destruct e end
    | apply dbstep_update; [done|eauto using live_named_account, by_id_live_account] ].

Lemma dbstep_ensureMailbox n s su : dbstep mb_step (ensureMailbox a n s su).
Proof. unfold ensureMailbox, findMailbox. mb_walk. Qed.

Lemma dbstep_returning_changes {A} R `{!Reflexive R, !Transitive R} (m : M A) :
  dbstep R m -> dbstep R (returning_changes m).
Proof.
  intros Hm. unfold returning_changes.
  apply dbstep_bind; [done|by apply dbstep_get|intros ?].
  apply dbstep_bind; [done|done|intros ?]. apply dbstep_bind; [done|by apply dbstep_get|intros ?].
  by apply dbstep_ret.
Qed.

Lemma dbstep_subscription n v : dbstep mb_step (set_subscription a n v).
Proof.
  apply dbstep_returning. intros d y d' E. destruct (negb _); [done|]. injection E as _ <-.
  apply mb_step_update; [done|]. apply live_named_account.
Qed.

Lemma dbstep_rename src dst : dbstep mb_step (MailboxRename a src dst).
Proof.
  unfold MailboxRename. mb_walk.
  apply dbstep_returning. intros d y d' E. destruct (negb _); [done|].
  destruct (_ && _); [done|]. injection E as _ <-.
  apply mb_step_update; [done|]. apply by_id_live_account.
Qed.

Lemma dbstep_annotation id key v s : dbstep mb_step (AnnotationSet a id key v s).
Proof.
  assert (Hann : forall d m, mb_step d (set_annotations m d)).
  { intros d m. split; simpl; auto; try lia; [|congruence]. intros k b Hb. by exists b. }
  unfold AnnotationSet. mb_walk; apply dbstep_exec; intros d d' E; destruct (negb _); try done;
    try (destruct (db_accounts d !! _); [|done]); injection E as <-; apply Hann.
Qed.

Lemma dbstep_MailboxEnsure n s su : dbstep mb_step (MailboxEnsure a n s su).
Proof. apply dbstep_returning_changes; [exact _..|]. apply dbstep_ensureMailbox. Qed.

Lemma dbstep_MailboxCreate n su : dbstep mb_step (MailboxCreate a n su).
Proof.
  unfold MailboxCreate, findMailbox. mb_walk.
Qed.

Lemma dbstep_MailboxSetSpecialUse mb su : dbstep mb_step (MailboxSetSpecialUse a mb su).
Proof.
  apply dbstep_returning_changes; [exact _..|]. mb_walk.
Qed.

Lemma dbstep_MailboxDelete mb : dbstep mb_step (MailboxDelete a mb).
Proof.
  apply dbstep_bind; [exact _| |intros; apply dbstep_ret; exact _].
  apply dbstep_returning_changes; [exact _..|]. mb_walk.
  intros b Hb. by b2p.
Qed.

Lemma dbstep_Subscription n :
  dbstep mb_step (SubscriptionEnsure a n) /\ dbstep mb_step (SubscriptionRemove a n).
Proof.
  split; (apply dbstep_bind; [exact _| |intros; apply dbstep_ret; exact _]);
    (apply dbstep_returning_changes; [exact _..|]); mb_walk; apply dbstep_subscription.
Qed.

End MailboxStep.

(** ** Preservation of [db_wf] *)

Section Wf.
Context `{BlobOps}.
Variable a : account.
Variable now : Z.

Lemma counts_of_absent k t :
  (forall i m, t !! i = Some m -> m_MailboxID m <> k) -> counts_of k t = zero_counts.
Proof.
  intros Hk. unfold counts_of, zero_counts.
  rewrite !agg_zero; [done|..]; intros i m Hm; specialize (Hk i m Hm);
    unfold w_total, w_size, w_unseen, w_deleted, live_in;
    assert ((m_MailboxID m =? k) = false) as -> by (by apply Z.eqb_neq); done.
Qed.

(** Where a mailbox row after a mailbox operation comes from. *)
Lemma mb_step_back d d' k b' : mb_step a d d' -> db_mailboxes d' !! k = Some b' ->
  (exists b, db_mailboxes d !! k = Some b /\ core_eq b b') \/
  (db_mailboxes d !! k = None /\ mb_ID b' = k /\ mb_Counts b' = zero_counts /\ k < db_mailbox_ids d').
Proof.
  intros Hs Hb'. destruct (db_mailboxes d !! k) as [b|] eqn:Hb.
  - destruct (ms_old _ _ _ Hs k b Hb) as (b1 & Hb1 & Hc & _). left. exists b. split; congruence.
  - destruct (ms_new _ _ _ Hs k b' Hb' Hb) as (? & ? & ? & ?). right. split_and!; auto; lia.
Qed.

Lemma db_struct_mb_step d d' : mb_step a d d' -> db_struct d -> db_struct d'.
Proof.
  intros Hs [W1 W2 W3 W4 W5 W8]. pose proof Hs as [M1 M2 M3 M4 M5 M6].
  split; rewrite ?M1, ?M2; auto.
  - intros k b' Hb'. destruct (mb_step_back _ _ _ _ Hs Hb') as [(b & Hb & (Hi & _))|(_ & ? & _ & ?)]; [|done].
    destruct (W1 k b Hb). split; [congruence|lia].
  - intros k m Hm. destruct (W3 k m Hm) as (b & Hb & Ha).
    destruct (M5 _ b Hb) as (b1 & Hb1 & (_ & Hac & _) & _). exists b1. split; congruence.
  - intros k m b' Hm Hb'. destruct (W3 k m Hm) as (b & Hb & Ha).
    destruct (M5 _ b Hb) as (b1 & Hb1 & (_ & _ & Hu & _) & _).
    specialize (W4 k m b Hm Hb). congruence.
  - intros k b' Hb'. destruct (mb_step_back _ _ _ _ Hs Hb') as [(b & Hb & (_ & _ & _ & Hc))|(_ & _ & Hz & _)].
    + rewrite <- Hc. eauto.
    + rewrite Hz. done.
Qed.

Lemma db_wf_mb_step d d' : mb_step a d d' -> db_wf d -> db_wf d'.
Proof.
  intros Hs [W W6 W7 W9]. pose proof Hs as [M1 M2 M3 M4 M5 M6].
  split; [by eapply db_struct_mb_step|..]; rewrite ?M1, ?M3; auto.
  intros k b' Hb'. destruct (mb_step_back _ _ _ _ Hs Hb') as [(b & Hb & (_ & _ & _ & Hc))|(Hn & _ & Hz & _)].
  - rewrite <- Hc. auto.
  - rewrite Hz. symmetry. apply counts_of_absent. intros i m Hm <-.
    destruct (ds_fk _ W i m Hm) as (b & Hb & _). congruence.
Qed.

(** ** Delivery *)

Lemma add_counts_ok t s u e c c' :
  add_counts t s u e c = Ok c' ->
  c' = mkCounts (c_Total c + t) (c_Deleted c + e) (c_Unread c + u) (c_Unseen c + u) (c_Size c + s)
  /\ c_Size c' <= max_int64.
Proof.
  unfold add_counts. intros E.
  destruct (bigint (c_Total c + t)) eqn:E1; [|done]. destruct (bigint (c_Size c + s)) eqn:E2; [|done].
  destruct (bigint (c_Unseen c + u)) eqn:E3; [|done]. destruct (bigint (c_Unread c + u)) eqn:E4; [|done].
  destruct (bigint (c_Deleted c + e)) eqn:E5; [|done]. simpl in E. injection E as <-.
  apply bigint_ok in E1 as [-> _], E2 as [-> Hs], E3 as [-> _], E4 as [-> _], E5 as [-> _].
  split; [done|]. simpl. unfold is_i64 in Hs. b2p. lia.
Qed.

Lemma update_counts_messages k t s u e d oc d' :
  update_counts k t s u e d = Ok (oc, d') -> db_messages d' = db_messages d.
Proof.
  unfold update_counts. destruct (db_mailboxes d !! k); [|by intros [= _ <-]].
  destruct (add_counts _ _ _ _ _); [|done]. by intros [= _ <-].
Qed.

Lemma upsert_quota_lookup sc dc ds d d' acc :
  upsert_quota sc dc ds d = Ok d' ->
  db_mailboxes d' = db_mailboxes d /\ db_messages d' = db_messages d /\
  db_message_ids d' = db_message_ids d /\ db_mailbox_ids d' = db_mailbox_ids d /\
  db_accounts d' = db_accounts d /\ db_changelog d' = db_changelog d /\
  db_annotations d' = db_annotations d /\
  (sc <> acc -> db_quota d' !! acc = db_quota d !! acc) /\
  (sc = acc -> default (0, 0) (db_quota d' !! acc)
     = ((default (0, 0) (db_quota d !! acc)).1 + ds, (default (0, 0) (db_quota d !! acc)).2 + dc)).
Proof.
  unfold upsert_quota. destruct (db_quota d !! sc) as [[bytes cnt]|] eqn:Hq; intros E.
  - destruct (bigint (bytes + ds)) eqn:E1; [|done]. destruct (bigint (cnt + dc)) eqn:E2; [|done].
    injection E as <-. apply bigint_ok in E1 as [-> _], E2 as [-> _].
    split_and!; try done; simpl; [intros; by apply lookup_insert_ne|].
    intros <-. by rewrite lookup_insert_eq, Hq.
  - injection E as <-. split_and!; try done; simpl; [intros; by apply lookup_insert_ne|].
    intros <-. rewrite lookup_insert_eq, Hq. simpl. f_equal; lia.
Qed.

(** Both scopes of [bumpQuota]. *)
Lemma wp_bumpQuota dc ds pt (Q : unit -> pgTx -> Prop) :
  (forall d' pt', pt_db pt' = d' ->
     db_mailboxes d' = db_mailboxes (pt_db pt) -> db_messages d' = db_messages (pt_db pt) ->
     db_message_ids d' = db_message_ids (pt_db pt) -> db_mailbox_ids d' = db_mailbox_ids (pt_db pt) ->
     (forall acc, acc <> acc_id a ->
        default (0, 0) (db_quota d' !! (1, acc)) = default (0, 0) (db_quota (pt_db pt) !! (1, acc))) ->
     default (0, 0) (db_quota d' !! (1, acc_id a))
       = ((default (0, 0) (db_quota (pt_db pt) !! (1, acc_id a))).1 + ds,
          (default (0, 0) (db_quota (pt_db pt) !! (1, acc_id a))).2 + dc) ->
     pt_blobs pt' = pt_blobs pt ->
     Q tt pt') ->
  wp (bumpQuota a dc ds) pt Q.
Proof.
  intros HQ. unfold bumpQuota. apply wp_bind, wp_exec. intros d1 _ E1. apply wp_exec.
  intros d2 _ E2. simpl in E2.
  destruct (upsert_quota_lookup _ _ _ _ _ (1, acc_id a) E1) as (A1&A2&A3&A4&_&_&_&_&A5).
  destruct (upsert_quota_lookup _ _ _ _ _ (1, acc_id a) E2) as (B1&B2&B3&B4&_&_&_&B5&_).
  apply (HQ d2); simpl; try congruence.
  - intros acc Hne.
    destruct (upsert_quota_lookup _ _ _ _ _ (1, acc) E1) as (_&_&_&_&_&_&_&C5&_).
    destruct (upsert_quota_lookup _ _ _ _ _ (1, acc) E2) as (_&_&_&_&_&_&_&D5&_).
    rewrite D5, C5; [done|congruence|congruence].
  - rewrite B5 by congruence. auto.
Qed.

(** The database a successful [message_add] leaves behind. *)
Record add_effect (mbID : Z) (row : Message) (d d' : DB) : Prop := {
  ae_box b : db_mailboxes d !! mbID = Some b ->
    mb_AccountID b = acc_id a /\ m_UID row = mb_UIDNext b /\
    exists c, db_mailboxes d' = <[mbID := mb_set_counts c (mb_set_uidnext (mb_UIDNext b + 1) b)]> (db_mailboxes d)
      /\ add_counts 1 (m_Size row) (boolInt (negb (Seen (m_Flags row))))
           (boolInt (Deleted (m_Flags row))) (mb_Counts b) = Ok c;
  ae_exists : is_Some (db_mailboxes d !! mbID);
  ae_row : m_AccountID row = acc_id a /\ m_MailboxID row = mbID /\ m_Expunged row = false /\
    m_ID row = db_message_ids d;
  ae_fresh : db_messages d !! db_message_ids d = None;
  ae_messages : db_messages d' = <[db_message_ids d := row]> (db_messages d);
  ae_ids : db_message_ids d' = db_message_ids d + 1 /\ db_mailbox_ids d' = db_mailbox_ids d;
  ae_quota_other acc : acc <> acc_id a ->
    default (0, 0) (db_quota d' !! (1, acc)) = default (0, 0) (db_quota d !! (1, acc));
  ae_quota : default (0, 0) (db_quota d' !! (1, acc_id a))
    = ((default (0, 0) (db_quota d !! (1, acc_id a))).1 + m_Size row,
       (default (0, 0) (db_quota d !! (1, acc_id a))).2 + 1) }.

(** What the stored row and the returned message hold of the delivered one,
    and where its body went. *)
Record stored_as (m : Message) (body : BlobReader) (eid : Z) (row m' : Message) (pt pt' : pgTx) : Prop := {
  sa_flags : m_Flags row = m_Flags m /\ m_Keywords row = m_Keywords m /\ m_EmailID row = eid /\
    m_MsgPrefix row = m_MsgPrefix m;
  sa_body : exists data, rd_data body = Ok data /\
    m_Size row = Z.of_nat (String.length (m_MsgPrefix m)) + Z.of_nat (String.length data) /\
    blob_Put (acc_tenantID a) data (pt_blobs pt)
      = (Ok (m_BlobRef row, Z.of_nat (String.length data)), pt_blobs pt');
  sa_returned : m_ID m' = m_ID row /\ m_UID m' = u32 (m_UID row) /\ m_Flags m' = m_Flags row /\
    m_BlobRef m' = m_BlobRef row /\ m_Size m' = m_Size row;
  sa_quota : exists lim, CanAddMessageSize a
    (i64 (rd_Size body + Z.of_nat (String.length (m_MsgPrefix m)))) pt = (Ok (true, lim), pt) }.

Lemma insert_message_ok mbID uid seq m eid d row d' :
  insert_message a now mbID uid seq m eid d = Ok (row, d') ->
  (exists b, db_mailboxes d !! mbID = Some b /\ mb_AccountID b = acc_id a) /\
  db_messages d !! db_message_ids d = None /\
  m_ID row = db_message_ids d /\ m_AccountID row = acc_id a /\ m_MailboxID row = mbID /\
  m_UID row = uid /\ m_CreateSeq row = seq /\ m_ModSeq row = seq /\ m_Expunged row = false /\
  m_Flags row = m_Flags m /\ m_Size row = m_Size m /\
  d' = set_message_ids (db_message_ids d + 1)
         (set_messages (<[db_message_ids d := row]> (db_messages d)) d).
Proof.
  unfold insert_message. destruct (negb _); [done|].
  destruct (db_mailboxes d !! mbID) as [b|] eqn:Hb; [|done].
  destruct (negb (mb_AccountID b =? acc_id a)) eqn:Ha; [done|]. destruct (uid_taken _ _ _ _); [done|].
  destruct (db_messages d !! db_message_ids d) eqn:Hf; [done|]. intros [= <- <-].
  b2p. split_and!; try done. by exists b.
Qed.

Lemma blob_put_wp body pt (Q : string * Z -> pgTx -> Prop) :
  (forall ref n data b', rd_data body = Ok data ->
     blob_Put (acc_tenantID a) data (pt_blobs pt) = (Ok (ref, n), b') ->
     Q (ref, n) (with_blobs b' pt)) ->
  wp (blob_put a body) pt Q.
Proof.
  intros HQ. unfold wp, blob_put. destruct (rd_data body) as [data|] eqn:Hd; [|done].
  destruct (blob_Put _ data _) as [[[ref n]|] b'] eqn:E; [|done]. by apply (HQ ref n data).
Qed.

Context `{!BlobLaws}.

Lemma message_add_effect mbID m body eid pt :
  wp (message_add a now mbID m body eid) pt (fun _ pt' =>
    exists row, add_effect mbID row (pt_db pt) (pt_db pt') /\
      (body_fits body (m_MsgPrefix m) -> 0 <= m_Size row)).
Proof.
  unfold message_add.
  apply wp_bind, wp_read. intros q _. apply wp_bind, wp_guard. intros _.
  apply wp_bind, blob_put_wp. intros ref n data b' Hdata Hput. apply put_size in Hput.
  apply wp_bind, wp_returning. intros uid d1 _ E1. apply wp_bind, wp_next. intros pt2 Hdb2 _ _ _.
  apply wp_bind, wp_returning. intros row d3 _ E3.
  apply wp_bind, wp_bind, wp_returning. intros oc d4 _ E4. apply wp_ret.
  apply wp_bind, wp_bumpQuota. intros d5 pt5 <- Q1 Q2 Q3 Q4 Q5 Q6 _.
  apply wp_bind, wp_record. intros pt6 Hdb6 _ _ _. apply wp_ret. exists row. rewrite Hdb6. clear Hdb6 pt6.
  simpl in *. rewrite Hdb2 in E3. simpl in E3.
  apply insert_message_ok in E3 as ((b1 & Hb1 & Hacc) & Hfree & Hid & Hac & Hmb & Huid & _ & _ & Hex & Hfl & Hsz & ->).
  unfold alloc_uid in E1. destruct (db_mailboxes (pt_db pt) !! mbID) as [b|] eqn:Hb; [|done].
  destruct (bigint (mb_UIDNext b + 1)) as [v|] eqn:Hv; [|done]. injection E1 as <- <-.
  apply bigint_ok in Hv as [-> _]. simpl in *. rewrite lookup_insert_eq in Hb1. injection Hb1 as <-.
  unfold update_counts in E4. simpl in E4. rewrite lookup_insert_eq in E4.
  destruct (add_counts _ _ _ _ _) as [c|] eqn:Hc in E4; [|done]. injection E4 as <- <-. simpl in *.
  rewrite <- Hsz in Hc, Q6. rewrite <- Hfl in Hc. subst n.
  split; [split; auto; try congruence|].
  - intros b2 Hb2. rewrite Hb in Hb2. injection Hb2 as <-. split; [done|]. split; [lia|].
    exists c. by rewrite Q1, insert_insert_eq.
  - intros Hfit. specialize (Hfit data Hdata). rewrite Hsz, i64_small by lia. lia.
Qed.

Lemma insert_message_row mbID uid seq m eid d row d' :
  insert_message a now mbID uid seq m eid d = Ok (row, d') ->
  m_Keywords row = m_Keywords m /\ m_EmailID row = eid /\ m_MsgPrefix row = m_MsgPrefix m /\
  m_BlobRef row = m_BlobRef m /\ db_messages d' !! m_ID row = Some row.
Proof.
  unfold insert_message. destruct (negb _); [done|]. destruct (db_mailboxes d !! mbID); [|done].
  destruct (negb _); [done|]. destruct (uid_taken _ _ _ _); [done|].
  destruct (db_messages d !! db_message_ids d); [done|]. intros [= <- <-]. simpl.
  by rewrite lookup_insert_eq.
Qed.

Lemma alloc_uid_messages id d uid d' :
  alloc_uid id d = Ok (uid, d') -> db_messages d' = db_messages d.
Proof.
  unfold alloc_uid. destruct (db_mailboxes d !! id); [|done]. destruct (bigint _); [|done].
  by intros [= _ <-].
Qed.

Lemma message_add_stored mbID m body eid pt :
  body_fits body (m_MsgPrefix m) ->
  wp (message_add a now mbID m body eid) pt (fun m' pt' =>
    exists row, db_messages (pt_db pt') !! m_ID m' = Some row /\
      db_messages (pt_db pt) !! m_ID m' = None /\ stored_as m body eid row m' pt pt').
Proof.
  intros Hfit. unfold message_add.
  apply wp_bind. unfold wp at 1. destruct (CanAddMessageSize _ _ pt) as [[q|] ptq] eqn:Hq; [|done].
  assert (ptq = pt) as -> by (unfold CanAddMessageSize, sql_read in Hq; by injection Hq).
  apply wp_bind, wp_guard. intros Hq1.
  apply wp_bind, blob_put_wp. intros ref n data b' Hdata Hput.
  pose proof (put_size _ _ _ _ _ _ Hput) as ->. specialize (Hfit data Hdata).
  apply wp_bind, wp_returning. intros uid d1 _ E1. apply wp_bind, wp_next. intros pt2 Hdb2 Hbl2 _ _.
  apply wp_bind, wp_returning. intros row d3 _ E3.
  apply wp_bind, wp_bind, wp_returning. intros oc d4 _ E4. apply wp_ret.
  apply wp_bind, wp_bumpQuota. intros d5 pt5 <- _ Q2 _ _ _ _ Q7.
  apply wp_bind, wp_record. intros pt6 Hdb6 Hbl6 _ _. apply wp_ret. exists row.
  pose proof (insert_message_row _ _ _ _ _ _ _ _ E3) as (R1 & R2 & R3 & R4 & R5).
  apply insert_message_ok in E3 as (_ & Rf & R6 & _ & _ & R7 & _ & _ & _ & R8 & R9 & R10).
  apply update_counts_messages in E4. apply alloc_uid_messages in E1. simpl in *. split_and!.
  - rewrite Hdb6, Q2, E4. exact R5.
  - rewrite R6, <- E1. rewrite Hdb2 in Rf. rewrite Hdb2. exact Rf.
  - split; auto.
    + exists data. split; [done|]. rewrite Hbl6, Q7. simpl. rewrite Hbl2. simpl. split; [|by rewrite R4].
      rewrite R9, i64_small by lia. lia.
    + exists q.2. destruct q as [q1 q2]. simpl in Hq1. by rewrite Hq1 in Hq.
Qed.

Lemma counts_of_insert k id row t :
  t !! id = None ->
  counts_of k (<[id:=row]> t) =
    mkCounts (w_total k row + agg (w_total k) t) (w_deleted k row + agg (w_deleted k) t)
      (w_unseen k row + agg (w_unseen k) t) (w_unseen k row + agg (w_unseen k) t)
      (w_size k row + agg (w_size k) t).
Proof. intros Hid. unfold counts_of. by rewrite !agg_insert by done. Qed.

(** A row outside mailbox [k] weighs nothing there. *)
Lemma weights_elsewhere k m :
  live_in k m = false -> w_total k m = 0 /\ w_deleted k m = 0 /\ w_unseen k m = 0 /\ w_size k m = 0.
Proof. unfold w_total, w_deleted, w_unseen, w_size. by intros ->. Qed.

Lemma weights_here k m :
  live_in k m = true -> w_total k m = 1 /\ w_deleted k m = boolInt (Deleted (m_Flags m)) /\
    w_unseen k m = boolInt (negb (Seen (m_Flags m))) /\ w_size k m = m_Size m.
Proof. unfold w_total, w_deleted, w_unseen, w_size. by intros ->. Qed.

Lemma live_in_true k m : m_MailboxID m = k -> m_Expunged m = false -> live_in k m = true.
Proof. intros <- He. unfold live_in. by rewrite Z.eqb_refl, He. Qed.
Lemma live_in_ne k m : m_MailboxID m <> k -> live_in k m = false.
Proof. intros Hne. unfold live_in. by apply Z.eqb_neq in Hne as ->. Qed.
Lemma live_in_expunged k m : m_Expunged m = true -> live_in k m = false.
Proof. intros He. unfold live_in. rewrite He. apply andb_false_r. Qed.

Lemma db_struct_add mbID row d d' : add_effect mbID row d d' -> db_struct d -> db_struct d'.
Proof.
  intros [E1 [b Hb] (Ra & Rm & Re & Ri) Efresh Em [Ei Ej] Eqo Eq] [W1 W2 W3 W4 W5 W8].
  destruct (E1 b Hb) as (Ba & Bu & c & Emb & Hc). apply add_counts_ok in Hc as [-> Hsz].
  destruct (W1 _ _ Hb) as [Bi Bk].
  split; rewrite ?Emb, ?Em, ?Ei, ?Ej.
  - intros k b'. rewrite lookup_insert. case_decide as Hk; [|apply W1]. intros [= <-]. subst k. done.
  - intros k m. rewrite lookup_insert. case_decide as Hk; [intros [= <-]; lia|].
    intros Hm. destruct (W2 _ _ Hm). lia.
  - intros k m. rewrite lookup_insert. case_decide as Hk; [intros [= <-]|intros Hm].
    + rewrite Rm, lookup_insert_eq. eexists. split; [done|]. simpl. congruence.
    + destruct (W3 _ _ Hm) as (b' & Hb' & Ha). rewrite lookup_insert. case_decide as Hbk; [|eauto].
      eexists. split; [done|]. rewrite <- Hbk, Hb in Hb'. injection Hb' as <-. done.
  - intros k m b'. rewrite !lookup_insert. case_decide as Hk; [intros [= <-]|intros Hm].
    + rewrite Rm. rewrite decide_True by done. intros [= <-]. simpl. lia.
    + case_decide as Hbk; [|by apply (W4 k)]. intros [= <-]. simpl.
      specialize (W4 k m b Hm). rewrite <- Hbk in W4. specialize (W4 Hb). lia.
  - intros k1 k2 m1 m2. rewrite !lookup_insert. do 2 case_decide; subst; try done.
    + intros [= <-] Hm2 Hmb Hu. specialize (W4 k2 m2 b Hm2). rewrite <- Hmb in W4. specialize (W4 Hb). lia.
    + intros Hm1 [= <-] Hmb Hu. specialize (W4 k1 m1 b Hm1). rewrite Hmb in W4. specialize (W4 Hb). lia.
    + apply W5.
  - intros k b'. rewrite lookup_insert. case_decide as Hk; [intros [= <-]; exact Hsz|eauto].
Qed.

Lemma db_wf_add mbID row d d' : add_effect mbID row d d' -> 0 <= m_Size row -> db_wf d -> db_wf d'.
Proof.
  intros Hadd Rs [W W6 W7 W9]. split; [by eapply db_struct_add|..];
    destruct Hadd as [E1 [b Hb] (Ra & Rm & Re & Ri) Efresh Em _ Eqo Eq];
    destruct (E1 b Hb) as (Ba & Bu & c & Emb & Hc); apply add_counts_ok in Hc as [-> Hsz];
    destruct (weights_here mbID row (live_in_true mbID row Rm Re)) as (Y1 & Y2 & Y3 & Y4); rewrite ?Emb, ?Em.
  - intros k m. rewrite lookup_insert. case_decide; [by intros [= <-]|apply W6].
  - intros k b'. rewrite counts_of_insert by done. rewrite lookup_insert.
    case_decide as Hk; [intros [= <-]; subst k|intros Hb'].
    + rewrite Y1, Y2, Y3, Y4. specialize (W7 _ _ Hb). unfold counts_of in W7. rewrite W7. simpl.
      f_equal; lia.
    + destruct (weights_elsewhere k row ltac:(apply live_in_ne; congruence)) as (-> & -> & -> & ->).
      by rewrite (W7 _ _ Hb').
  - intros acc. rewrite !agg_insert by done.
    assert (Hq : q_size acc row = (if acc_id a =? acc then m_Size row else 0) /\
                 q_count acc row = (if acc_id a =? acc then 1 else 0)).
    { unfold q_size, q_count. rewrite Ra, Re. by destruct (acc_id a =? acc). }
    destruct Hq as [-> ->]. destruct (Z.eqb_spec (acc_id a) acc) as [<-|Hne].
    + rewrite Eq, W9. simpl. f_equal; lia.
    + by rewrite Eqo, W9 by congruence.
Qed.
End Wf.
