(* ===== verification/KernelFlags.v ===== *)
(** * Flag updates and expunges keep the store consistent

    What a successful [Update] and a successful [MessageRemove] do to the
    tables, and that [db_wf] survives both. *)

From S2P Require Import Prelude GoStrings Shapes Changes Blob Database Tx Mailboxes Messages KernelInv.

Local Open Scope go_scope.

(** ** Counter changes *)

(** [mb'] is [mb] with the counters of mailbox [k] replaced by [c]. *)
Definition recounted (k : Z) (c : MailboxCounts -> MailboxCounts) (d d' : DB) : Prop :=
  forall b, db_mailboxes d !! k = Some b ->
    db_mailboxes d' = <[k := mb_set_counts (c (mb_Counts b)) b]> (db_mailboxes d).

Definition shift (dTotal dSize dUnseen dDeleted : Z) (c : MailboxCounts) : MailboxCounts :=
  mkCounts (c_Total c + dTotal) (c_Deleted c + dDeleted) (c_Unread c + dUnseen)
    (c_Unseen c + dUnseen) (c_Size c + dSize).

(** Everything [db_wf] says except the counters, for a change of rows in place. *)
Definition same_keys (d d' : DB) : Prop :=
  db_mailbox_ids d' = db_mailbox_ids d /\ db_message_ids d' = db_message_ids d /\
  (forall k m', db_messages d' !! k = Some m' -> exists m, db_messages d !! k = Some m /\
     m_ID m' = m_ID m /\ m_AccountID m' = m_AccountID m /\ m_MailboxID m' = m_MailboxID m /\
     m_UID m' = m_UID m /\ m_Size m' = m_Size m).

Section Rows.
Context `{BlobOps}.
Variable a : account.
Variable now : Z.

Lemma update_counts_shift k t s u e d oc d' :
  update_counts k t s u e d = Ok (oc, d') ->
  recounted k (shift t s u e) d d' /\ db_messages d' = db_messages d /\
  db_mailbox_ids d' = db_mailbox_ids d /\ db_message_ids d' = db_message_ids d /\
  db_quota d' = db_quota d.
Proof.
  unfold update_counts, recounted. destruct (db_mailboxes d !! k) as [b|] eqn:Hb; [|by intros [= _ <-]].
  destruct (add_counts _ _ _ _ _) as [c|] eqn:Hc; [|done]. intros [= <- <-].
  apply add_counts_ok in Hc as [-> _]. split_and!; try done. by intros b' [= <-].
Qed.

(** Mailbox [k], if there is one, has new counters that fit; nothing else of the mailboxes changes. *)
Definition recount_at (k : Z) (d d' : DB) : Prop :=
  match db_mailboxes d !! k with
  | None => db_mailboxes d' = db_mailboxes d
  | Some b => exists c, db_mailboxes d' = <[k := mb_set_counts c b]> (db_mailboxes d) /\
      (c_Size (mb_Counts b) <= max_int64 -> c_Size c <= max_int64)
  end.

Lemma update_counts_at k t s u e d oc d' : update_counts k t s u e d = Ok (oc, d') -> recount_at k d d'.
Proof.
  unfold update_counts, recount_at. destruct (db_mailboxes d !! k) as [b|]; [|by intros [= _ <-]].
  destruct (add_counts _ _ _ _ _) as [c|] eqn:Hc; [|done]. intros [= <- <-].
  apply add_counts_ok in Hc as [-> Hs]. by eexists.
Qed.
Lemma recount_same k d : recount_at k d d.
Proof.
  unfold recount_at. destruct (db_mailboxes d !! k) as [b|] eqn:Hb; [|done]. exists (mb_Counts b). split; [|done].
  rewrite insert_id; [done|]. rewrite Hb. by destruct b.
Qed.

(** What a flag update or an expunge does, whatever rows it is given: only the rows [ids] and
    the counters of mailbox [k] change, and rows keep their keys. *)
Record edit_effect (k : Z) (ids : list Z) (d d' : DB) : Prop := {
  ee_rows i : i ∉ ids -> db_messages d' !! i = db_messages d !! i;
  ee_keys : same_keys d d';
  ee_boxes : recount_at k d d';
  ee_quota acc : acc <> acc_id a ->
    default (0, 0) (db_quota d' !! (1, acc)) = default (0, 0) (db_quota d !! (1, acc)) }.

(** [WHERE id=$1 AND account_id=$2]: the updated row is the account's own. *)
Lemma Update_edit x pt :
  wp (Update a x) pt (fun _ pt' =>
    own_row a (m_ID x) (pt_db pt) /\ edit_effect (m_MailboxID x) [m_ID x] (pt_db pt) (pt_db pt')).
Proof.
  unfold Update. apply wp_bind, wp_next. intros pt1 Hdb1 _ _ _. apply wp_bind, wp_read. rewrite Hdb1. intros old _.
  apply wp_bind, wp_exec. rewrite Hdb1. intros d2 _ E2. destruct (negb _); [done|].
  destruct (db_messages (pt_db pt) !! m_ID x) as [m|] eqn:Hm; [|done]. destruct (m_AccountID m =? acc_id a) eqn:Ha; [|done].
  injection E2 as <-. set (d2 := set_messages _ _). apply wp_bind.
  eapply (wp_mono _ _ (fun _ pt' => recount_at (m_MailboxID x) d2 (pt_db pt') /\ db_messages (pt_db pt') = db_messages d2 /\
    db_mailbox_ids (pt_db pt') = db_mailbox_ids d2 /\ db_message_ids (pt_db pt') = db_message_ids d2 /\
    db_quota (pt_db pt') = db_quota d2)).
  - destruct (_ || _); [|by apply wp_ret; split; [apply recount_same|]]. unfold bumpCounts.
    apply wp_bind, wp_returning. intros oc d3 _ E3. apply wp_ret. split; [by eapply update_counts_at|].
    by apply update_counts_shift in E3 as [_ ?].
  - intros [] pt3 (R1 & R2 & R3 & R4 & R5). apply wp_bind, wp_record. intros pt4 Hdb4 _ _ _. apply wp_ret.
    rewrite Hdb4. clear Hdb4 pt4. subst d2. cbn in R1, R2, R3, R4, R5.
    split; [intros m0; rewrite Hm; intros [= <-]; by b2p|].
    split; [|split_and!; [done|done|]|exact R1|by rewrite R5]; rewrite R2.
    + intros i Hi. apply lookup_insert_ne. set_solver.
    + intros i m'. cbn. rewrite lookup_insert. case_decide as Hi; [|by intros Hm'; exists m'].
      intros [= <-]. exists m. subst i. done.
Qed.

(** Mailbox rows keep their keys when counters change. *)
Lemma recount_keys k d d' j b' : recount_at k d d' -> db_mailboxes d' !! j = Some b' ->
  exists b, db_mailboxes d !! j = Some b /\ mb_ID b' = mb_ID b /\ mb_AccountID b' = mb_AccountID b /\
    mb_UIDNext b' = mb_UIDNext b /\ (c_Size (mb_Counts b) <= max_int64 -> c_Size (mb_Counts b') <= max_int64).
Proof.
  unfold recount_at. destruct (db_mailboxes d !! k) as [b|] eqn:Hb.
  - intros (c & -> & Hc). rewrite lookup_insert. case_decide as Hk; [|by exists b'].
    intros [= <-]. subst j. by exists b.
  - intros ->. by exists b'.
Qed.
Lemma recount_back k d d' j b : recount_at k d d' -> db_mailboxes d !! j = Some b -> is_Some (db_mailboxes d' !! j).
Proof.
  unfold recount_at. destruct (db_mailboxes d !! k) as [b0|]; [|by intros -> ->].
  intros (c & -> & _) Hb. rewrite lookup_insert. case_decide; eauto.
Qed.

(** In-place row changes preserve the structure. *)
Lemma db_struct_rows k d d' : same_keys d d' -> recount_at k d d' -> db_struct d -> db_struct d'.
Proof.
  intros (Ei & Ej & Hrows) Hrec [W1 W2 W3 W4 W5 W8]. split; rewrite ?Ei, ?Ej.
  - intros j b' Hb'. destruct (recount_keys _ _ _ _ _ Hrec Hb') as (b0 & Hb0 & -> & _). eauto.
  - intros j m' Hm'. destruct (Hrows _ _ Hm') as (m & Hm & -> & _). eauto.
  - intros j m' Hm'. destruct (Hrows _ _ Hm') as (m & Hm & _ & -> & -> & _).
    destruct (W3 _ _ Hm) as (b0 & Hb0 & Ha). destruct (recount_back _ _ _ _ _ Hrec Hb0) as [b' Hb']. exists b'.
    split; [done|]. destruct (recount_keys _ _ _ _ _ Hrec Hb') as (b1 & Hb1 & _ & -> & _). congruence.
  - intros j m' b' Hm'. destruct (Hrows _ _ Hm') as (m & Hm & _ & _ & -> & -> & _). intros Hb'.
    destruct (recount_keys _ _ _ _ _ Hrec Hb') as (b0 & Hb0 & _ & _ & -> & _). eauto.
  - intros k1 k2 m1 m2 Hm1 Hm2. destruct (Hrows _ _ Hm1) as (n1 & Hn1 & _ & _ & -> & -> & _).
    destruct (Hrows _ _ Hm2) as (n2 & Hn2 & _ & _ & -> & -> & _). eauto.
  - intros j b' Hb'. destruct (recount_keys _ _ _ _ _ Hrec Hb') as (b0 & Hb0 & _ & _ & _ & Hs). eauto.
Qed.
Lemma recounted_at k t s u e d d' :
  is_Some (db_mailboxes d !! k) -> recounted k (shift t s u e) d d' -> s <= 0 -> recount_at k d d'.
Proof.
  intros [b Hb] Hrec Hs. unfold recount_at. rewrite Hb, (Hrec b Hb). eexists. split; [done|]. simpl. lia.
Qed.

(** In-place row changes with recomputed counters preserve well-formedness. *)
Lemma db_wf_rows k t s u e d d' :
  same_keys d d' -> is_Some (db_mailboxes d !! k) -> recounted k (shift t s u e) d d' -> s <= 0 ->
  (forall j b, db_mailboxes d !! j = Some b ->
     counts_of j (db_messages d') =
       if j =? k then shift t s u e (counts_of j (db_messages d)) else counts_of j (db_messages d)) ->
  (forall acc, default (0, 0) (db_quota d' !! (1, acc)) =
     (agg (q_size acc) (db_messages d'), agg (q_count acc) (db_messages d'))) ->
  db_wf d -> db_wf d'.
Proof.
  intros Hkeys Hk Hrec Hs Hcounts Hquota [W W6 W7 _]. pose proof (recounted_at _ _ _ _ _ _ _ Hk Hrec Hs) as Hat.
  split; [by eapply db_struct_rows| | |done].
  - intros j m' Hm'. destruct Hkeys as (_ & _ & Hrows). destruct (Hrows _ _ Hm') as (m & Hm & _ & _ & _ & _ & ->). eauto.
  - destruct Hk as [b Hb]. intros j b'. rewrite (Hrec b Hb), lookup_insert. case_decide as Hj.
    + intros [= <-]. subst j. simpl. by rewrite (Hcounts _ _ Hb), Z.eqb_refl, <- (W7 _ _ Hb).
    + intros Hb'. rewrite (Hcounts _ _ Hb'), <- (W7 _ _ Hb'). by rewrite (proj2 (Z.eqb_neq j k)) by congruence.
Qed.

(** ** [Update] *)

Record update_effect (m : Message) (f : Flags) (kws : list string) (d d' : DB) : Prop := {
  ue_messages : exists seq, db_messages d' = <[m_ID m := m_set_flags f kws seq m]> (db_messages d);
  ue_boxes : recounted (m_MailboxID m)
    (shift 0 0 (boolInt (negb (Seen f)) - boolInt (negb (Seen (m_Flags m))))
       (boolInt (Deleted f) - boolInt (Deleted (m_Flags m)))) d d';
  ue_quota : db_quota d' = db_quota d;
  ue_ids : db_mailbox_ids d' = db_mailbox_ids d /\ db_message_ids d' = db_message_ids d }.

Lemma shift_zero k d : recounted k (shift 0 0 0 0) d d.
Proof.
  intros b Hb. rewrite insert_id; [done|]. rewrite Hb. unfold shift. rewrite !Z.add_0_r.
  by destruct b as [? ? ? ? ? ? ? ? ? ? ? ? []].
Qed.

Lemma Update_effect x m pt :
  current a m (pt_db pt) -> x = m_set_flags (m_Flags x) (m_Keywords x) (m_ModSeq m) m ->
  wp (Update a x) pt (fun _ pt' =>
    update_effect m (m_Flags x) (m_Keywords x) (pt_db pt) (pt_db pt')).
Proof.
  intros (Hm & Ha & He) Hx.
  assert (Hid : m_ID x = m_ID m) by by rewrite Hx.
  assert (Hmb : m_MailboxID x = m_MailboxID m) by by rewrite Hx.
  unfold Update. rewrite Hid, Hmb. clear Hx.
  apply wp_bind, wp_next. intros pt1 Hdb1 _ _ _. apply wp_bind, wp_read. rewrite Hdb1, Hm, Ha, Z.eqb_refl.
  intros old [= <-]. apply wp_bind, wp_exec. rewrite Hdb1, Hm, Ha, Z.eqb_refl. intros d2 _ E2.
  destruct (negb _); [done|]. injection E2 as <-. cbn [fst snd]. apply wp_bind.
  set (dU := _ - _). set (dD := boolInt (Deleted (m_Flags x)) - _).
  set (pt2 := with_db _ pt1).
  eapply (wp_mono _ _ (fun _ pt' => recounted (m_MailboxID m) (shift 0 0 dU dD) (pt_db pt2) (pt_db pt') /\
    db_messages (pt_db pt') = db_messages (pt_db pt2) /\
    db_mailbox_ids (pt_db pt') = db_mailbox_ids (pt_db pt2) /\
    db_message_ids (pt_db pt') = db_message_ids (pt_db pt2) /\
    db_quota (pt_db pt') = db_quota (pt_db pt2))).
  - destruct (negb (dU =? 0) || negb (dD =? 0)) eqn:Enz.
    + unfold bumpCounts. apply wp_bind, wp_returning. intros oc d3 _ E3. apply wp_ret.
      apply update_counts_shift in E3. exact E3.
    + apply orb_false_elim in Enz as [EU ED]. b2p. apply wp_ret. split; [|done].
      rewrite EU, ED. apply shift_zero.
  - intros [] pt3 (R1 & R2 & R3 & R4 & R5). apply wp_bind, wp_record. intros pt4 Hdb4 _ _ _. apply wp_ret.
    rewrite Hdb4. subst pt2. simpl in *. rewrite ?Hdb1 in *.
    split; simpl; rewrite ?R1, ?R2, ?R3, ?R4, ?R5; eauto.
Qed.

Lemma counts_of_update k id m f kws seq t :
  t !! id = Some m -> m_Expunged m = false ->
  counts_of k (<[id := m_set_flags f kws seq m]> t) =
    if k =? m_MailboxID m
    then shift 0 0 (boolInt (negb (Seen f)) - boolInt (negb (Seen (m_Flags m))))
           (boolInt (Deleted f) - boolInt (Deleted (m_Flags m))) (counts_of k t)
    else counts_of k t.
Proof.
  intros Hm He. unfold counts_of, shift. rewrite !(agg_update _ _ _ _ _ Hm). simpl.
  set (m' := m_set_flags f kws seq m). destruct (Z.eqb_spec k (m_MailboxID m)) as [->|Hne].
  - destruct (weights_here (m_MailboxID m) m) as (-> & -> & -> & ->); [by apply live_in_true|].
    destruct (weights_here (m_MailboxID m) m') as (-> & -> & -> & ->); [by apply live_in_true|].
    simpl. f_equal; lia.
  - destruct (weights_elsewhere k m) as (-> & -> & -> & ->); [apply live_in_ne; congruence|].
    destruct (weights_elsewhere k m') as (-> & -> & -> & ->); [apply live_in_ne; simpl; congruence|].
    f_equal; lia.
Qed.

Lemma db_wf_update m f kws d d' :
  current a m d -> update_effect m f kws d d' -> db_wf d -> db_wf d'.
Proof.
  intros (Hm & Ha & He) [(seq & Em) Erec Eq [Ei Ej]] Hwf.
  eapply (db_wf_rows (m_MailboxID m)); [| |exact Erec|lia| | |exact Hwf].
  - split_and!; [done|done|]. intros k m'. rewrite Em, lookup_insert. case_decide as Hk; [|intros Hm'; by exists m'].
    intros [= <-]. subst k. exists m. done.
  - destruct (wf_fk _ Hwf _ _ Hm) as (b & Hb & _). eauto.
  - intros j b Hb. rewrite Em. by apply counts_of_update.
  - intros acc. rewrite Eq, (wf_quota _ Hwf), Em, !(agg_update _ _ _ _ _ Hm). unfold q_size, q_count. simpl.
    apply pair_equal_spec. split; lia.
Qed.

(** ** [MessageRemove] *)

Definition expunge_all (modseq : Z) (msgs : list Message) (t : gmap Z Message) : gmap Z Message :=
  foldl (fun t m => alter (m_set_expunged true modseq) (m_ID m) t) t msgs.

Lemma wp_expunge modseq msgs pt :
  wp (miter (fun m => sql_exec (fun d => Ok (expunge_row modseq m d))) msgs) pt (fun _ pt' =>
    pt' = with_db (set_messages (expunge_all modseq msgs (db_messages (pt_db pt))) (pt_db pt)) pt).
Proof.
  revert pt. induction msgs as [|m msgs IH]; intros pt; simpl.
  - apply wp_ret. by destruct pt as [[] ? ? ? ? ?].
  - apply wp_bind, wp_exec. intros d' _ [= <-]. eapply wp_mono; [apply IH|]. intros [] pt' ->.
    by destruct pt as [[] ? ? ? ? ?].
Qed.

Lemma expunge_all_lookup modseq msgs t k :
  expunge_all modseq msgs t !! k =
    (if bool_decide (k ∈ m_ID <$> msgs) then m_set_expunged true modseq <$> t !! k else t !! k).
Proof.
  revert t. induction msgs as [|m msgs IH]; intros t; [done|]. cbn [expunge_all foldl].
  fold (expunge_all modseq msgs (alter (m_set_expunged true modseq) (m_ID m) t)).
  rewrite IH, lookup_alter. rewrite fmap_cons.
  destruct (decide (m_ID m = k)) as [<-|Hne].
  - rewrite (bool_decide_eq_true_2 (m_ID m ∈ m_ID m :: _)) by apply list_elem_of_here.
    destruct (t !! m_ID m); case_bool_decide; done.
  - rewrite (bool_decide_ext (k ∈ m_ID m :: (m_ID <$> msgs)) (k ∈ m_ID <$> msgs)); [done|].
    rewrite elem_of_cons. split; [by intros [->|]|by right].
Qed.

(** A weight that vanishes on expunged rows drops by what the rows weighed. *)
Lemma agg_expunge_all (f : Message -> Z) modseq msgs t :
  (forall m, f (m_set_expunged true modseq m) = 0) -> NoDup (m_ID <$> msgs) ->
  Forall (fun m => t !! m_ID m = Some m) msgs ->
  agg f (expunge_all modseq msgs t) = agg f t - lsum f msgs.
Proof.
  intros Hf. revert t. induction msgs as [|m msgs IH]; intros t Hnd Hall; simpl; [lia|].
  apply NoDup_cons in Hnd as [Hm Hnd]. inversion Hall as [|? ? Hk Hall']; subst.
  rewrite IH; [|done|].
  - assert (alter (m_set_expunged true modseq) (m_ID m) t
            = <[m_ID m := m_set_expunged true modseq m]> t) as ->.
    { apply map_eq. intros k. rewrite lookup_alter, lookup_insert.
      destruct (decide (m_ID m = k)) as [<-|]; [by rewrite Hk|done]. }
    rewrite (agg_update f t (m_ID m) m _ Hk), Hf. lia.
  - eapply Forall_impl; [apply Forall_and; split; [exact Hall'|]|].
    + apply Forall_forall. intros x Hx. exact (fun E => Hm (eq_ind _ (fun i => i ∈ _) (list_elem_of_fmap_2 _ _ _ Hx) _ E)).
    + simpl. intros x [Hx Hne]. rewrite lookup_alter_ne by congruence. done.
Qed.

Lemma lsum_ext {A} (f g : A -> Z) l : Forall (fun x => f x = g x) l -> lsum f l = lsum g l.
Proof. induction 1 as [|x l Hx _ IH]; [done|]. simpl. by rewrite Hx, IH. Qed.

Lemma count_if_lsum p msgs : count_if p msgs = lsum (fun m => boolInt (p m)) msgs.
Proof.
  unfold count_if. enough (forall z, foldl (fun n m => n + boolInt (p m)) z msgs
    = z + lsum (fun m => boolInt (p m)) msgs) as -> by lia.
  induction msgs as [|m msgs IH]; intros z; simpl; [lia|]. rewrite IH. lia.
Qed.

Lemma sum_size_lsum msgs :
  (forall m, m ∈ msgs -> 0 <= m_Size m) -> lsum m_Size msgs <= max_int64 ->
  sum_size msgs = lsum m_Size msgs.
Proof.
  unfold sum_size. intros Hpos Hmax.
  enough (forall z, 0 <= z -> z + lsum m_Size msgs <= max_int64 ->
    foldl (fun n m => i64 (n + m_Size m)) z msgs = z + lsum m_Size msgs) as -> by lia.
  clear Hmax. induction msgs as [|m msgs IH]; intros z Hz Hle; simpl in *; [lia|].
  pose proof (Hpos m ltac:(set_solver)).
  pose proof (lsum_nonneg m_Size msgs ltac:(set_solver)).
  rewrite i64_small by lia. rewrite IH; [lia|set_solver|lia|lia].
Qed.

Lemma lsum_const {A} (l : list A) : lsum (fun _ => 1) l = Z.of_nat (length l).
Proof. induction l as [|x l IH]; [done|]. cbn [lsum foldr length]. fold (lsum (fun _ : A => 1) l). lia. Qed.

Definition removed_shift (msgs : list Message) : MailboxCounts -> MailboxCounts :=
  shift (- Z.of_nat (length msgs)) (- lsum m_Size msgs)
    (- lsum (fun m => boolInt (negb (Seen (m_Flags m)))) msgs)
    (- lsum (fun m => boolInt (Deleted (m_Flags m))) msgs).

Record remove_effect (mbID : Z) (msgs : list Message) (d d' : DB) : Prop := {
  re_messages : exists seq, db_messages d' = expunge_all seq msgs (db_messages d);
  re_some : is_Some (db_mailboxes d !! mbID);
  re_boxes : recounted mbID (removed_shift msgs) d d';
  re_quota_other acc : acc <> acc_id a ->
    default (0, 0) (db_quota d' !! (1, acc)) = default (0, 0) (db_quota d !! (1, acc));
  re_quota : default (0, 0) (db_quota d' !! (1, acc_id a))
    = ((default (0, 0) (db_quota d !! (1, acc_id a))).1 - lsum m_Size msgs,
       (default (0, 0) (db_quota d !! (1, acc_id a))).2 - Z.of_nat (length msgs));
  re_ids : db_mailbox_ids d' = db_mailbox_ids d /\ db_message_ids d' = db_message_ids d }.

Lemma MessageRemove_edit mb msgs pt :
  wp (MessageRemove a 0 mb msgs) pt (fun _ pt' =>
    edit_effect (mb_ID mb) (m_ID <$> msgs) (pt_db pt) (pt_db pt')).
Proof.
  unfold MessageRemove. apply wp_bind. rewrite Z.eqb_refl. apply wp_next.
  intros pt1 Hdb1 _ _ _. apply wp_bind. eapply wp_mono; [apply wp_expunge|]. intros [] pt2 ->.
  apply wp_bind. unfold bumpCountsReturning. apply wp_bind, wp_returning. intros oc d3 _ E3.
  pose proof (update_counts_at _ _ _ _ _ _ _ _ E3) as R1. apply update_counts_shift in E3 as (_ & R2 & R3 & R4 & R5).
  destruct oc as [c|]; [|done]. apply wp_ret. apply wp_bind, wp_bumpQuota. intros d5 pt5 <- Q1 Q2 Q3 Q4 Q5 _ _.
  apply wp_bind, wp_record. intros pt6 Hdb6 _ _ _. apply wp_ret. rewrite Hdb6. clear Hdb6 pt6.
  simpl in *. rewrite Hdb1 in *. split.
  - intros i Hi. rewrite Q2, R2. simpl. rewrite expunge_all_lookup. by rewrite bool_decide_eq_false_2.
  - split_and!; [congruence|congruence|]. intros i m'. rewrite Q2, R2. simpl. rewrite expunge_all_lookup.
    case_bool_decide; [|by intros Hm'; exists m']. destruct (db_messages (pt_db pt) !! i) as [m|]; [|done].
    intros [= <-]. by exists m.
  - unfold recount_at in *. simpl in R1. by rewrite Q1.
  - intros acc Hacc. by rewrite Q5, R5.
Qed.

(** The rows one [MessageRemove] is called with. *)
Definition removable (mbID : Z) (msgs : list Message) (d : DB) : Prop :=
  NoDup (m_ID <$> msgs) /\ Forall (fun m => current a m d /\ m_MailboxID m = mbID) msgs.

Lemma removable_lookup mbID msgs d :
  removable mbID msgs d -> Forall (fun m => db_messages d !! m_ID m = Some m) msgs.
Proof. intros [_ H1]. eapply Forall_impl; [exact H1|]. simpl. by intros m [[? _] _]. Qed.

Lemma lsum_weights mbID msgs d :
  removable mbID msgs d ->
  lsum (w_total mbID) msgs = Z.of_nat (length msgs) /\ lsum (w_size mbID) msgs = lsum m_Size msgs /\
  lsum (w_unseen mbID) msgs = lsum (fun m => boolInt (negb (Seen (m_Flags m)))) msgs /\
  lsum (w_deleted mbID) msgs = lsum (fun m => boolInt (Deleted (m_Flags m))) msgs.
Proof.
  intros [_ H1]. rewrite <- lsum_const.
  assert (Hw : Forall (fun m => live_in mbID m = true) msgs).
  { eapply Forall_impl; [exact H1|]. intros m [(_ & _ & He) Hm]. by apply live_in_true. }
  split_and!; apply lsum_ext; (eapply Forall_impl; [exact Hw|]); intros m Hl;
    by destruct (weights_here _ _ Hl) as (? & ? & ? & ?).
Qed.

Lemma removed_size_le mbID msgs b d :
  db_wf d -> removable mbID msgs d -> db_mailboxes d !! mbID = Some b ->
  lsum m_Size msgs <= max_int64 /\ (forall m, m ∈ msgs -> 0 <= m_Size m).
Proof.
  intros Hwf Hr Hb. pose proof (removable_lookup _ _ _ Hr) as Hl.
  assert (Hpos : forall m, m ∈ msgs -> 0 <= m_Size m).
  { intros m Hm. rewrite Forall_forall in Hl. by eapply wf_size, Hl. }
  split; [|done]. destruct (lsum_weights _ _ _ Hr) as (_ & <- & _).
  pose proof (wf_bound _ Hwf _ _ Hb) as Hle. rewrite (wf_counts _ Hwf _ _ Hb) in Hle. simpl in Hle.
  pose proof (agg_expunge_all (w_size mbID) 0 msgs (db_messages d)) as Hagg.
  pose proof (agg_nonneg (w_size mbID) (expunge_all 0 msgs (db_messages d))) as Hn.
  rewrite Hagg in Hn; [|intros m; by apply weights_elsewhere, live_in_expunged|by destruct Hr|done].
  enough (0 <= agg (w_size mbID) (db_messages d) - lsum (w_size mbID) msgs) by lia.
  apply Hn. intros k m. rewrite expunge_all_lookup. destruct (bool_decide _).
  - destruct (db_messages d !! k) as [m1|]; [|done]. intros [= <-].
    destruct (weights_elsewhere mbID (m_set_expunged true 0 m1)) as (_&_&_&->); [|lia].
    by apply live_in_expunged.
  - intros Hm. unfold w_size. destruct (live_in mbID m); [by eapply wf_size|lia].
Qed.

Lemma update_counts_some k t s u e d c d' :
  update_counts k t s u e d = Ok (Some c, d') -> is_Some (db_mailboxes d !! k).
Proof. unfold update_counts. by destruct (db_mailboxes d !! k). Qed.

Lemma i64_opp z : 0 <= z <= max_int64 -> i64 (- z) = - z.
Proof.
  intros Hz. apply i64_id. unfold is_i64, min_int64. unfold max_int64 in *.
  apply andb_true_intro. split; apply Z.leb_le; lia.
Qed.

Lemma MessageRemove_effect mb msgs pt :
  db_wf (pt_db pt) -> removable (mb_ID mb) msgs (pt_db pt) ->
  wp (MessageRemove a 0 mb msgs) pt (fun _ pt' => remove_effect (mb_ID mb) msgs (pt_db pt) (pt_db pt')).
Proof.
  intros Hwf Hr. unfold MessageRemove. apply wp_bind. rewrite Z.eqb_refl. apply wp_next.
  intros pt1 Hdb1 _ _ _. apply wp_bind. eapply wp_mono; [apply wp_expunge|]. intros [] pt2 ->.
  apply wp_bind. unfold bumpCountsReturning. apply wp_bind, wp_returning. intros [c|] d3 _ E3; [|done].
  apply wp_ret. simpl in E3. rewrite Hdb1 in E3.
  pose proof (update_counts_some _ _ _ _ _ _ _ _ E3) as Hb.
  apply update_counts_shift in E3 as (R1 & R2 & R3 & R4 & R5). destruct Hb as [b Hb].
  destruct (removed_size_le _ _ _ _ Hwf Hr Hb) as [Hmax Hpos].
  rewrite (sum_size_lsum msgs Hpos Hmax), (i64_opp (lsum _ _)) in * by (split; [by apply lsum_nonneg|done]).
  apply wp_bind, wp_bumpQuota. intros d5 pt5 <- Q1 Q2 Q3 Q4 Q5 Q6 _.
  apply wp_bind, wp_record. intros pt6 Hdb6 _ _ _. apply wp_ret. rewrite Hdb6. clear Hdb6 pt6.
  simpl in *. rewrite R5 in *.
  split; rewrite ?Q1, ?Q2, ?Q3, ?Q4, ?R2, ?R3, ?R4; eauto.
  - intros b' Hb'. rewrite Q1, (R1 _ Hb'). unfold removed_shift. by rewrite !count_if_lsum.
Qed.

Lemma counts_of_expunge_all mbID seq msgs d j :
  removable mbID msgs d ->
  counts_of j (expunge_all seq msgs (db_messages d)) =
    if j =? mbID then removed_shift msgs (counts_of j (db_messages d))
    else counts_of j (db_messages d).
Proof.
  intros Hr. pose proof (removable_lookup _ _ _ Hr) as Hl. pose proof (lsum_weights _ _ _ Hr) as (L1 & L2 & L3 & L4).
  assert (Hz : forall m, let m' := m_set_expunged true seq m in
    w_total j m' = 0 /\ w_deleted j m' = 0 /\ w_unseen j m' = 0 /\ w_size j m' = 0).
  { intros m m'. by apply weights_elsewhere, live_in_expunged. }
  destruct Hr as [Hnd Hall]. unfold counts_of, removed_shift, shift.
  rewrite !agg_expunge_all by (done || (intros m; apply Hz)).
  destruct (Z.eqb_spec j mbID) as [->|Hne].
  - rewrite L1, L2, L3, L4. simpl. f_equal; lia.
  - assert (Hzero : forall f : Message -> Z, (forall m, live_in j m = false -> f m = 0) -> lsum f msgs = 0).
    { intros f Hf. rewrite (lsum_ext f (fun _ => 0)); [clear; induction msgs; simpl; lia|].
      eapply Forall_impl; [exact Hall|]. intros m [_ Hm]. apply Hf, live_in_ne. congruence. }
    rewrite !Hzero by (intros m Hm; by destruct (weights_elsewhere _ _ Hm) as (? & ? & ? & ?)).
    f_equal; lia.
Qed.

Lemma db_wf_remove mbID msgs d d' :
  removable mbID msgs d -> remove_effect mbID msgs d d' -> db_wf d -> db_wf d'.
Proof.
  intros Hr [(seq & Em) Hb Erec Eqo Eq [Ei Ej]] Hwf.
  pose proof (removable_lookup _ _ _ Hr) as Hl. destruct Hb as [b Hb].
  destruct (removed_size_le _ _ _ _ Hwf Hr Hb) as [_ Hpos]. pose proof (lsum_nonneg m_Size msgs Hpos).
  eapply (db_wf_rows mbID); [| |exact Erec|lia| | |exact Hwf]; [|by eexists| |].
  - split_and!; [done|done|]. intros k m'. rewrite Em, expunge_all_lookup.
    destruct (bool_decide _); [|intros Hm'; by exists m'].
    destruct (db_messages d !! k) as [m|]; [|done]. intros [= <-]. by exists m.
  - intros j b' _. rewrite Em. by apply counts_of_expunge_all.
  - intros acc. destruct Hr as [Hnd Hall]. rewrite Em, !agg_expunge_all; try done;
      try (intros m; unfold q_size, q_count; simpl; by rewrite andb_false_r).
    destruct (decide (acc = acc_id a)) as [->|Hne].
    + rewrite Eq, (wf_quota _ Hwf), <- lsum_const. simpl. apply pair_equal_spec.
      split; f_equal; apply lsum_ext; (eapply Forall_impl; [exact Hall|]);
        intros m [(_ & Ha & He) _]; unfold q_size, q_count; by rewrite Ha, He, Z.eqb_refl.
    + rewrite Eqo, (wf_quota _ Hwf) by done. apply pair_equal_spec.
      assert (Hzero : forall f : Message -> Z, (forall m, m_AccountID m <> acc -> f m = 0) -> lsum f msgs = 0).
      { intros f Hf. rewrite (lsum_ext f (fun _ => 0)); [clear; induction msgs; simpl; lia|].
        eapply Forall_impl; [exact Hall|]. intros m [(_ & Hm & _) _]. apply Hf. congruence. }
      rewrite !Hzero; [lia|..]; intros m Hm; unfold q_count, q_size; by apply Z.eqb_neq in Hm as ->.
Qed.

End Rows.
