(* ===== verification/Kernel.v ===== *)
(** * The kernel's contract: transactions over the account store

    The log, isolation and consistency theorems of whole transactions: every
    body built from the kernel's operations, committed or rolled back. *)

From S2P Require Import Prelude GoStrings Shapes Changes Blob Database Tx Mailboxes Messages KernelInv KernelFlags.

Local Open Scope go_scope.

(** ** Definitions *)

(** Rows of accounts other than [a] do not change. *)
Record isolated (a : Z) (d d' : DB) : Prop := {
  iso_accounts acc : acc <> a -> db_accounts d' !! acc = db_accounts d !! acc;
  iso_tenants : db_tenants d' = db_tenants d;
  iso_mailboxes k b : db_mailboxes d !! k = Some b -> mb_AccountID b <> a -> db_mailboxes d' !! k = Some b;
  iso_messages k m : db_messages d !! k = Some m -> m_AccountID m <> a -> db_messages d' !! k = Some m;
  iso_new_mailboxes k b : db_mailboxes d' !! k = Some b -> mb_AccountID b <> a -> db_mailboxes d !! k = Some b;
  iso_new_messages k m : db_messages d' !! k = Some m -> m_AccountID m <> a -> db_messages d !! k = Some m;
  iso_log acc s : acc <> a -> db_changelog d' !! (acc, s) = db_changelog d !! (acc, s);
  iso_annotations acc id key : acc <> a -> db_annotations d' !! (acc, id, key) = db_annotations d !! (acc, id, key);
  iso_quota acc : acc <> a -> default (0, 0) (db_quota d' !! (1, acc)) = default (0, 0) (db_quota d !! (1, acc)) }.

(** The tables neither messages nor counters live in. *)
Record aside (a : Z) (d d' : DB) : Prop := {
  as_accounts acc : acc <> a -> db_accounts d' !! acc = db_accounts d !! acc;
  as_tenants : db_tenants d' = db_tenants d;
  as_log : db_changelog d' = db_changelog d;
  as_annotations acc id key : acc <> a -> db_annotations d' !! (acc, id, key) = db_annotations d !! (acc, id, key) }.

(** How many log positions one operation can use up. *)
Definition op_positions : Z := 4.

Section Contract.
Context `{BlobOps}.

(** The state a write transaction of account [a] starts in. *)
Definition start (d : DB) (b : blob_state) (h0 : Z) : pgTx := mkTx d b h0 [] [] true.

(** One transaction of the running system: some account runs a body and
    commits, or fails and rolls back.  In a [careful] system every call of a
    committed body passes current rows; in any other, whatever it likes. *)
Inductive sys_step (careful : bool) (now : Z) : DB * blob_state -> DB * blob_state -> Prop :=
| step_commit a ops d b h0 pt changes head d' b' :
    head_of a d = Some h0 -> h0 + op_positions * Z.of_nat (length ops) <= max_int64 ->
    runs_with a now (fun o s => careful = true -> op_pre a o s) ops (start d b h0) pt ->
    Tx a (run_ops a now ops) d b = (Ok (tt, changes, head), d', b') ->
    sys_step careful now (d, b) (d', b')
| step_rollback a ops d b e d' b' :
    Tx a (run_ops a now ops) d b = (Err e, d', b') -> sys_step careful now (d, b) (d', b').

(** A freshly provisioned database: accounts and tenants, nothing stored. *)
Definition provisioned (d : DB) : Prop :=
  db_mailboxes d = ∅ /\ db_messages d = ∅ /\ db_changelog d = ∅ /\ db_quota d = ∅ /\
  (forall acc row, db_accounts d !! acc = Some row -> ar_changelog_seq row = 0).

Inductive reachable (careful : bool) : DB -> blob_state -> Prop :=
| reach_init d b : provisioned d -> reachable careful d b
| reach_step now d b d' b' : reachable careful d b -> sys_step careful now (d, b) (d', b') -> reachable careful d' b'.

(** What account [a] published between two states, while it and others run
    transactions and some of them fail. *)
Inductive history (a : account) : DB -> list Change -> DB -> Prop :=
| hist_refl d : history a d [] d
| hist_own now ops d b h0 cs head d1 b1 rest d2 :
    head_of a d = Some h0 -> h0 + op_positions * Z.of_nat (length ops) <= max_int64 ->
    Tx a (run_ops a now ops) d b = (Ok (tt, cs, head), d1, b1) ->
    history a d1 rest d2 -> history a d (cs ++ rest) d2
| hist_other now other ops d b h0 cs head d1 b1 rest d2 :
    acc_id other <> acc_id a ->
    head_of other d = Some h0 -> h0 + op_positions * Z.of_nat (length ops) <= max_int64 ->
    Tx other (run_ops other now ops) d b = (Ok (tt, cs, head), d1, b1) ->
    history a d1 rest d2 -> history a d rest d2
| hist_failed now other ops d b e d1 b1 rest d2 :
    Tx other (run_ops other now ops) d b = (Err e, d1, b1) ->
    history a d1 rest d2 -> history a d rest d2.

(** Every log position of the database lies in [1 .. head] of its account. *)
Definition logs_wf (d : DB) : Prop :=
  (forall acc row, db_accounts d !! acc = Some row -> 0 <= ar_changelog_seq row) /\
  (forall acc s r, db_changelog d !! (acc, s) = Some r ->
     exists row, db_accounts d !! acc = Some row /\ s <= ar_changelog_seq row).

(** What one transaction may do to the message rows: a row is as before, or
    carries a modseq in the positions the transaction allocated. *)
Definition stamped (h0 head : Z) (t t' : gmap Z Message) : Prop :=
  forall k m', t' !! k = Some m' -> t !! k = Some m' \/ h0 < m_ModSeq m' <= head.

(** [stamps k m]: [m] allocates at most [k] positions and stamps every row it
    writes with one of them. *)
Definition stamps {A} (k : Z) (m : M A) : Prop :=
  forall pt, 0 <= pt_seq pt -> pt_seq pt + k <= max_int64 ->
    wp m pt (fun _ pt' => pt_seq pt <= pt_seq pt' <= pt_seq pt + k /\
      stamped (pt_seq pt) (pt_seq pt') (db_messages (pt_db pt)) (db_messages (pt_db pt'))).
End Contract.

(** ** Runs *)

Section Runs.
Context `{BlobOps}.
Variable a : account.
Variable now : Z.

Lemma runs_run_ops P ops pt pt' : runs_with a now P ops pt pt' -> run_ops a now ops pt = (Ok tt, pt').
Proof.
  induction 1 as [|o ops pt pt1 pt2 _ Ho _ IH]; [done|].
  unfold run_ops in *. simpl. unfold mbind_st. by rewrite Ho.
Qed.

(** Rule induction over a run, one [wp] per operation. *)
Lemma runs_ind_wp P (R : pgTx -> pgTx -> Prop) `{!Reflexive R, !Transitive R} (I : pgTx -> Prop) ops pt pt' :
  (forall o pt, P o pt -> I pt -> wp (run_op a now o) pt (fun _ pt' => I pt' /\ R pt pt')) ->
  runs_with a now P ops pt pt' -> I pt -> I pt' /\ R pt pt'.
Proof.
  intros Hop Hr. induction Hr as [pt|o ops pt pt1 pt2 Hpre Ho _ IH]; intros HI; [done|].
  destruct (wp_run _ _ _ _ _ (Hop o pt Hpre HI) Ho) as [HI1 HR1].
  destruct (IH HI1) as [HI2 HR2]. split; [done|]. by transitivity pt1.
Qed.

Lemma wp_ignore {A} (m : M A) pt (Q : pgTx -> Prop) :
  wp m pt (fun _ pt' => Q pt') -> wp (ignore m) pt (fun _ pt' => Q pt').
Proof. intros Hm. apply wp_bind. eapply wp_mono; [exact Hm|]. done. Qed.

Lemma wp_returning_changes {A} (m : M A) pt (Q : pgTx -> Prop) :
  wp m pt (fun _ pt' => Q pt') -> wp (returning_changes m) pt (fun _ pt' => Q pt').
Proof.
  intros Hm. unfold returning_changes. apply wp_bind, wp_get, wp_bind.
  eapply wp_mono; [exact Hm|]. intros r pt' HQ. by apply wp_bind, wp_get, wp_ret.
Qed.

Lemma runs_mono (P P' : op -> pgTx -> Prop) ops pt pt' :
  (forall o s, P o s -> P' o s) -> runs_with a now P ops pt pt' -> runs_with a now P' ops pt pt'.
Proof. intros HP. induction 1; econstructor; eauto. Qed.

(** *** Database steps of one operation *)

Inductive op_effect (d d' : DB) : Prop :=
| eff_mailbox : mb_step a d d' -> op_effect d d'
| eff_add d1 mbID row : mb_step a d d1 -> add_effect a mbID row d1 d' -> 0 <= m_Size row -> op_effect d d'
| eff_update m f kws : current a m d -> update_effect m f kws d d' -> op_effect d d'
| eff_remove mbID msgs : removable a mbID msgs d -> remove_effect a mbID msgs d d' -> op_effect d d'.

Context `{!BlobLaws}.

Lemma dbstep_effect {A} (m : M A) pt :
  dbstep (mb_step a) m -> wp m pt (fun _ pt' => op_effect (pt_db pt) (pt_db pt')).
Proof. intros Hm. eapply wp_mono; [apply Hm|]. intros. by apply eff_mailbox. Qed.

Lemma MessageAdd_effect mb m body e pt :
  wp (MessageAdd a now mb m body e) pt (fun _ pt' => exists row,
    add_effect a (mb_ID mb) row (pt_db pt) (pt_db pt') /\ (body_fits body (m_MsgPrefix m) -> 0 <= m_Size row)).
Proof. apply wp_returning_changes. by apply message_add_effect. Qed.

Lemma deliver_effect n m body pt :
  wp (DeliverMailbox a now n m body) pt (fun _ pt' => exists d1 mbID row,
    mb_step a (pt_db pt) d1 /\ add_effect a mbID row d1 (pt_db pt') /\
    (body_fits body (m_MsgPrefix m) -> 0 <= m_Size row)).
Proof.
  unfold DeliverMailbox. apply wp_bind, wp_read. intros found _. apply wp_bind.
  eapply (wp_mono _ _ (fun _ pt' => mb_step a (pt_db pt) (pt_db pt'))).
  - destruct found as [mb|]; [by apply wp_ret|]. apply dbstep_MailboxEnsure.
  - intros r pt1 Hstep. apply wp_bind. eapply wp_mono; [by apply MessageAdd_effect|].
    intros x pt2 (row & Hrow & Hs). apply wp_ret. eauto 6.
Qed.

Lemma run_op_effect o pt :
  op_pre a o pt -> db_wf (pt_db pt) ->
  wp (run_op a now o) pt (fun _ pt' => op_effect (pt_db pt) (pt_db pt')).
Proof.
  intros Hpre Hwf.
  destruct o; simpl; try apply (wp_ignore _ _ (fun pt' => op_effect (pt_db pt) (pt_db pt'))).
  - apply dbstep_effect, dbstep_MailboxEnsure.
  - apply dbstep_effect, dbstep_MailboxCreate.
  - apply dbstep_effect, dbstep_MailboxSetSpecialUse.
  - apply dbstep_effect, dbstep_rename.
  - apply dbstep_effect, dbstep_MailboxDelete.
  - apply dbstep_effect, dbstep_Subscription.
  - apply dbstep_effect, dbstep_Subscription.
  - apply dbstep_effect, dbstep_annotation.
  - eapply wp_mono; [by apply MessageAdd_effect|]. intros x pt1 (row & Hrow & Hs).
    eapply eff_add; [reflexivity|exact Hrow|by apply Hs].
  - eapply wp_mono; [by apply deliver_effect|]. intros x pt1 (d1 & id & row & Hd & Hrow & Hs).
    eapply eff_add; [exact Hd|exact Hrow|by apply Hs].
  - apply wp_bind, wp_get. eapply wp_mono; [by apply MessageAdd_effect|].
    intros x pt1 (row & Hrow & Hs).
    eapply eff_add; [reflexivity|exact Hrow|by apply Hs].
  - destruct Hpre as (m & Hm & Hx). eapply wp_mono; [by apply Update_effect|].
    intros y pt1 Hu. exact (eff_update _ _ _ _ _ Hm Hu).
  - eapply wp_mono; [by apply MessageRemove_effect|]. intros x pt1 Hr. exact (eff_remove _ _ _ _ Hpre Hr).
Qed.

Lemma op_effect_wf d d' : op_effect d d' -> db_wf d -> db_wf d'.
Proof.
  intros [Hm|d1 mbID row Hm Ha Hs|m f kws Hc Hu|mbID msgs Hr He] Hwf.
  - by eapply db_wf_mb_step.
  - eapply db_wf_add; [done|done|]. by eapply db_wf_mb_step.
  - by eapply db_wf_update.
  - by eapply db_wf_remove.
Qed.

(** *** The same steps, whatever rows they are given *)

Inductive raw_effect (own : Prop) (d d' : DB) : Prop :=
| raw_mailbox : mb_step a d d' -> raw_effect own d d'
| raw_add d1 mbID row : mb_step a d d1 -> add_effect a mbID row d1 d' -> raw_effect own d d'
| raw_edit k ids : edit_effect a k ids d d' ->
    (own -> own_box a k d /\ Forall (fun i => own_row a i d) ids) -> raw_effect own d d'.

Lemma dbstep_raw own {A} (m : M A) pt :
  dbstep (mb_step a) m -> wp m pt (fun _ pt' => raw_effect own (pt_db pt) (pt_db pt')).
Proof. intros Hm. eapply wp_mono; [apply Hm|]. intros. by apply raw_mailbox. Qed.

Lemma run_op_raw o pt : wp (run_op a now o) pt (fun _ pt' => raw_effect (op_own a o pt) (pt_db pt) (pt_db pt')).
Proof.
  destruct o; cbn [run_op];
    try (apply (wp_ignore _ _ (fun pt' => raw_effect (op_own a _ pt) (pt_db pt) (pt_db pt'))));
    try (apply dbstep_raw; first [apply dbstep_MailboxEnsure|apply dbstep_MailboxCreate|apply dbstep_MailboxSetSpecialUse
      |apply dbstep_rename|apply dbstep_MailboxDelete|apply dbstep_Subscription|apply dbstep_annotation]).
  - eapply wp_mono; [by apply MessageAdd_effect|]. intros x pt1 (row & Hrow & _). by eapply raw_add.
  - eapply wp_mono; [by apply deliver_effect|]. intros x pt1 (d1 & id & row & Hd & Hrow & _). by eapply raw_add.
  - apply wp_bind, wp_get. eapply wp_mono; [by apply MessageAdd_effect|].
    intros x' pt1 (row & Hrow & _). by eapply raw_add.
  - eapply wp_mono; [by apply Update_edit|]. intros y pt1 [Hown He]. eapply raw_edit; [exact He|].
    intros Hbox. split; [exact Hbox|]. by apply Forall_singleton.
  - eapply wp_mono; [by apply MessageRemove_edit|]. intros y pt1 He. eapply raw_edit; [exact He|].
    intros [Hbox Hrows]. split; [exact Hbox|]. by apply Forall_fmap.
Qed.

Lemma raw_struct own d d' : raw_effect own d d' -> db_struct d -> db_struct d'.
Proof.
  intros [Hm|d1 mbID row Hm Ha|k ids [_ Hkeys Hbox _] _] Hwf.
  - by eapply db_struct_mb_step.
  - eapply db_struct_add; [done|]. by eapply db_struct_mb_step.
  - by eapply db_struct_rows.
Qed.

Lemma raw_ids own d d' : raw_effect own d d' -> db_message_ids d <= db_message_ids d'.
Proof.
  intros [Hm|d1 mbID row Hm Ha|k ids [_ (_ & Hn & _) _ _] _].
  - by rewrite (ms_message_ids _ _ _ Hm).
  - rewrite (proj1 (ae_ids _ _ _ _ _ Ha)), (ms_message_ids _ _ _ Hm). lia.
  - by rewrite Hn.
Qed.

(** Any body at all keeps the structure. *)
Lemma run_ops_struct ops pt :
  db_struct (pt_db pt) -> wp (run_ops a now ops) pt (fun _ pt' => db_struct (pt_db pt')).
Proof.
  unfold run_ops. revert pt. induction ops as [|o ops IH]; intros pt Hwf; [by apply wp_ret|]. cbn [miter].
  apply wp_bind. eapply wp_mono; [apply run_op_raw|]. intros [] pt1 Hraw. apply IH. by eapply raw_struct.
Qed.

(** *** Isolation of one operation *)

(** The part of [isolated] an effect decides: rows and account quota. *)
Record rows_isolated (d d' : DB) : Prop := {
  ri_mailboxes k b : mb_AccountID b <> acc_id a ->
    db_mailboxes d !! k = Some b <-> db_mailboxes d' !! k = Some b;
  ri_messages k m : m_AccountID m <> acc_id a ->
    db_messages d !! k = Some m <-> db_messages d' !! k = Some m;
  ri_quota acc : acc <> acc_id a ->
    default (0, 0) (db_quota d' !! (1, acc)) = default (0, 0) (db_quota d !! (1, acc)) }.

Lemma rows_isolated_trans d1 d2 d3 : rows_isolated d1 d2 -> rows_isolated d2 d3 -> rows_isolated d1 d3.
Proof.
  intros [A1 A2 A3] [B1 B2 B3]. split.
  - intros k b Hb. by rewrite A1, B1.
  - intros k m Hm. by rewrite A2, B2.
  - intros acc Hacc. by rewrite B3, A3.
Qed.

(** A keyed replacement of a row of account [a] by another one. *)
Lemma insert_own {V} (own : V -> Z) k v w (t : gmap Z V) j x :
  t !! k = Some v -> own v = acc_id a -> own w = acc_id a -> own x <> acc_id a ->
  t !! j = Some x <-> <[k:=w]> t !! j = Some x.
Proof.
  intros Hk Hv Hw Hx. rewrite lookup_insert. case_decide as Hj; [|done]. subst j. rewrite Hk.
  split; intros [= <-]; congruence.
Qed.

Lemma mb_step_isolated d d' : mb_step a d d' -> rows_isolated d d'.
Proof.
  intros [M1 M2 M3 M4 M5 M6]. split.
  - intros k b Hb. split.
    + intros Hk. destruct (M5 _ _ Hk) as (b' & Hb' & _ & Hn). by rewrite <- (Hn Hb).
    + intros Hk'. destruct (db_mailboxes d !! k) as [b0|] eqn:Hk.
      * destruct (M5 _ _ Hk) as (b' & Hb' & (_ & Hac & _) & Hn). rewrite Hk' in Hb'. injection Hb' as <-.
        rewrite (Hn ltac:(congruence)). done.
      * destruct (M6 _ _ Hk' Hk) as (_ & ? & _). done.
  - intros k m _. by rewrite M1.
  - intros acc _. by rewrite M3.
Qed.

Lemma add_isolated mbID row d d' : add_effect a mbID row d d' -> rows_isolated d d'.
Proof.
  intros [E1 [b Hb] (Ra & Rm & Re & Ri) Efresh Em [Ei Ej] Eqo Eq].
  destruct (E1 b Hb) as (Ba & Bu & c & Emb & Hc). split; [| |exact Eqo].
  - intros k x Hx. rewrite Emb. by apply (insert_own mb_AccountID _ b).
  - intros k x Hx. rewrite Em, lookup_insert. case_decide as Hk; [|done]. subst k. rewrite Efresh.
    split; [done|]. intros [= <-]. congruence.
Qed.

Lemma edit_isolated k ids d d' :
  edit_effect a k ids d d' -> own_box a k d -> Forall (fun i => own_row a i d) ids -> rows_isolated d d'.
Proof.
  intros [Erows (_ & _ & Ekeys) Ebox Eq] Hbox Hown. split; [| |exact Eq].
  - intros j x Hx. unfold recount_at in Ebox. destruct (db_mailboxes d !! k) as [b|] eqn:Hb; [|by rewrite Ebox].
    destruct Ebox as (c & -> & _). specialize (Hbox b Hb). by apply (insert_own mb_AccountID _ b).
  - intros i x Hx. destruct (decide (i ∈ ids)) as [Hi|Hi]; [|by rewrite Erows].
    rewrite Forall_forall in Hown. specialize (Hown i Hi). split; intros Hi'.
    + exfalso. apply Hx. by apply Hown.
    + destruct (Ekeys _ _ Hi') as (m & Hm & _ & Ha & _). exfalso. apply Hx. rewrite Ha. by apply Hown.
Qed.

Lemma raw_isolated (own : Prop) d d' : own -> raw_effect own d d' -> rows_isolated d d'.
Proof.
  intros Hown [Hm|d1 mbID row Hm Ha|k ids He Hk].
  - by apply mb_step_isolated.
  - eapply rows_isolated_trans; [by apply mb_step_isolated|by eapply add_isolated].
  - destruct (Hk Hown). by eapply edit_isolated.
Qed.

(** What the account's own reads return passes isolation's precondition, and
    goes on doing so while the account's transaction changes the store. *)
Lemma getMessage_own id pt m pt' : db_struct (pt_db pt) -> getMessage a id pt = (Ok m, pt') ->
  own_row a (m_ID m) (pt_db pt) /\ own_box a (m_MailboxID m) (pt_db pt).
Proof.
  intros Hwf. unfold getMessage, sql_read. destruct (db_messages (pt_db pt) !! id) as [m0|] eqn:Hm; [|done].
  destruct (m_AccountID m0 =? acc_id a) eqn:Ha; [|done]. unfold scanMessage. destruct (is_u32 _); [|done].
  intros [= <- _]. b2p. destruct (ds_msg_key _ Hwf _ _ Hm) as [Hid _]. destruct (ds_fk _ Hwf _ _ Hm) as (b & Hb & Hba).
  split; [intros m1; rewrite Hid, Hm; by intros [= <-]|intros b1; rewrite Hb; intros [= <-]; congruence].
Qed.
Lemma Get_mailbox_own id pt mb pt' : db_struct (pt_db pt) -> Get_mailbox a id pt = (Ok mb, pt') ->
  own_box a (mb_ID mb) (pt_db pt).
Proof.
  intros Hwf. unfold Get_mailbox, sql_read. destruct (db_mailboxes (pt_db pt) !! id) as [b|] eqn:Hb; [|done].
  destruct (mb_AccountID b =? acc_id a) eqn:Ha; [|done]. unfold scanMailbox. destruct (_ && _); [|done].
  intros [= <- _]. b2p. destruct (ds_mb_key _ Hwf _ _ Hb) as [Hid _]. intros b1. rewrite Hid, Hb. by intros [= <-].
Qed.
Lemma own_kept k d d' : rows_isolated d d' ->
  (own_row a k d -> own_row a k d') /\ (own_box a k d -> own_box a k d').
Proof.
  intros [Hb Hm _]. split; intros Hown x Hx.
  - destruct (decide (m_AccountID x = acc_id a)) as [|Hne]; [done|]. apply Hown. by apply Hm.
  - destruct (decide (mb_AccountID x = acc_id a)) as [|Hne]; [done|]. apply Hown. by apply Hb.
Qed.

(** *** The other tables *)

#[local] Instance aside_refl : Reflexive (aside (acc_id a)).
Proof. by intros d. Qed.
#[local] Instance aside_trans : Transitive (aside (acc_id a)).
Proof.
  intros d1 d2 d3 [A1 A2 A3 A4] [B1 B2 B3 B4]. split; intros.
  - by rewrite B1, A1.
  - by rewrite B2.
  - by rewrite B3.
  - by rewrite B4, A4.
Qed.

Definition asides {A} (m : M A) : Prop := dbstep (aside (acc_id a)) m.

Lemma asides_returning {A} (f : DB -> result (A * DB)) :
  (forall d x d', f d = Ok (x, d') -> db_accounts d' = db_accounts d /\ db_tenants d' = db_tenants d /\
     db_changelog d' = db_changelog d /\ db_annotations d' = db_annotations d) ->
  asides (sql_returning f).
Proof.
  intros Hf. apply dbstep_returning. intros d x d' E. destruct (Hf _ _ _ E) as (? & ? & ? & ?).
  split; intros; congruence.
Qed.

Lemma asides_bind {A B} (m : M A) (k : A -> M B) :
  asides m -> (forall x, asides (k x)) -> asides (mbind_st m k).
Proof. apply dbstep_bind, _. Qed.

Lemma asides_nextUIDValidity : asides (nextUIDValidity a).
Proof.
  apply dbstep_returning. intros d x d' E. destruct (db_accounts d !! acc_id a); [|done].
  destruct (bigint _); [|done]. injection E as _ <-. split; simpl; auto.
  intros. by rewrite lookup_insert_ne.
Qed.

Lemma asides_returning_changes {A} (m : M A) : asides m -> asides (returning_changes m).
Proof. apply dbstep_returning_changes; exact _. Qed.

Lemma asides_read {A} (f : DB -> result A) : asides (sql_read f).
Proof. apply dbstep_read, _. Qed.
Lemma asides_get : asides mget.
Proof. apply dbstep_get, _. Qed.
Lemma asides_ret {A} (x : A) : asides (mret_st x).
Proof. apply dbstep_ret, _. Qed.
Lemma asides_err {A} e : asides (@merr_st pgTx A e).
Proof. by intros pt. Qed.
Lemma asides_guard b e : asides (mguard b e).
Proof. apply dbstep_guard, _. Qed.
Lemma asides_next : asides nextModSeq.
Proof. apply dbstep_next, _. Qed.
Lemma asides_record c : asides (record c).
Proof. apply dbstep_record, _. Qed.
Lemma asides_iter {A} (f : A -> M unit) l : (forall x, asides (f x)) -> asides (miter f l).
Proof. intros Hf. apply dbstep_iter; [exact _..|]. intros x _. apply Hf. Qed.
Lemma asides_blob_put body : asides (blob_put a body).
Proof. intros pt. by apply blob_put_wp. Qed.
Lemma asides_exec (f : DB -> result DB) :
  (forall d d', f d = Ok d' -> db_accounts d' = db_accounts d /\ db_tenants d' = db_tenants d /\
     db_changelog d' = db_changelog d /\ db_annotations d' = db_annotations d) ->
  asides (sql_exec f).
Proof.
  intros Hf. apply asides_returning. intros d [] d' E.
  destruct (f d) as [d1|] eqn:E1; simpl in E; [|done]. injection E as <-. by apply Hf.
Qed.

Ltac side_walk :=
  repeat lazymatch goal with
  | |- asides (mbind_st _ _) => apply asides_bind; [|intros ?]
  | |- asides (mret_st _) => apply asides_ret
  | |- asides (merr_st _) => apply asides_err
  | |- asides mget => apply asides_get
  | |- asides (mguard _ _) => apply asides_guard
  | |- asides (sql_read _) => apply asides_read
  | |- asides nextModSeq => apply asides_next
  | |- asides (record _) => apply asides_record
  | |- asides (miter _ _) => apply asides_iter; intros ?
  | |- asides (returning_changes _) => apply asides_returning_changes
  | |- asides (sql_exec _) => apply asides_exec; intros ? ? E; revert E
  | |- asides (sql_returning _) => apply asides_returning; intros ? ? ? E; revert E
  | |- asides (match ?e with _ => _ end) => destruct e
  | |- asides _ => first [apply asides_nextUIDValidity | apply asides_blob_put | progress auto with octo | fail 1]
  end.

Lemma update_counts_frame k t s u e d oc d' :
  update_counts k t s u e d = Ok (oc, d') ->
  db_accounts d' = db_accounts d /\ db_tenants d' = db_tenants d /\
  db_changelog d' = db_changelog d /\ db_annotations d' = db_annotations d.
Proof.
  unfold update_counts. destruct (db_mailboxes d !! k); [|by intros [= _ <-]].
  destruct (add_counts _ _ _ _ _); [|done]. by intros [= _ <-].
Qed.

Lemma upsert_quota_frame sc dc ds d d' :
  upsert_quota sc dc ds d = Ok d' ->
  db_accounts d' = db_accounts d /\ db_tenants d' = db_tenants d /\
  db_changelog d' = db_changelog d /\ db_annotations d' = db_annotations d.
Proof.
  unfold upsert_quota. destruct (db_quota d !! sc) as [[bytes cnt]|]; [|by intros [= <-]].
  destruct (bigint _); [|done]. simpl. destruct (bigint _); [|done]. by intros [= <-].
Qed.

Lemma asides_ensureMailbox n s su : asides (ensureMailbox a n s su).
Proof.
  unfold ensureMailbox, findMailbox. side_walk.
  unfold insert_mailbox. destruct (negb _); [done|]. destruct (db_accounts _ !! _); [|done].
  destruct (name_taken _ _ _ _); [done|]. destruct (db_mailboxes _ !! _); [done|]. by intros [= _ <-].
Qed.

Lemma asides_message_add id m body e : asides (message_add a now id m body e).
Proof.
  unfold message_add, CanAddMessageSize, bumpCounts, bumpQuota. side_walk.
  - unfold alloc_uid. destruct (db_mailboxes _ !! _); [|done]. destruct (bigint _); [|done].
    by intros [= _ <-].
  - intros E. by apply insert_message_ok in E as (_&_&_&_&_&_&_&_&_&_&_&->).
  - apply update_counts_frame.
  - apply upsert_quota_frame.
  - apply upsert_quota_frame.
Qed.

Lemma asides_Update x : asides (Update a x).
Proof.
  unfold Update, bumpCounts. side_walk.
  - destruct (negb _); [done|]. destruct (db_messages _ !! _); [|done].
    destruct (_ =? _); [|done]. by intros [= <-].
  - apply update_counts_frame.
Qed.

Lemma asides_MessageRemove ms mb msgs : asides (MessageRemove a ms mb msgs).
Proof.
  unfold MessageRemove, bumpCountsReturning, bumpQuota. side_walk.
  - by intros [= <-].
  - apply update_counts_frame.
  - apply upsert_quota_frame.
  - apply upsert_quota_frame.
Qed.

#[local] Hint Resolve asides_ensureMailbox asides_message_add asides_Update asides_MessageRemove : octo.

Ltac side_mailbox :=
  unfold MailboxEnsure, MailboxCreate, MailboxSetSpecialUse, MailboxRename, MailboxDelete,
    set_subscription, findMailbox; side_walk; try (by intros [= _ <-]);
    (destruct (negb _); [done|]); try (destruct (_ && _); [done|]); by intros [= _ <-].

Lemma asides_MailboxEnsure n v su : asides (MailboxEnsure a n v su).
Proof. side_mailbox. Qed.
Lemma asides_MailboxCreate n su : asides (MailboxCreate a n su).
Proof. side_mailbox. Qed.
Lemma asides_MailboxSetSpecialUse mb su : asides (MailboxSetSpecialUse a mb su).
Proof. side_mailbox. Qed.
Lemma asides_MailboxRename src dst : asides (MailboxRename a src dst).
Proof. side_mailbox. Qed.
Lemma asides_MailboxDelete mb : asides (MailboxDelete a mb).
Proof. side_mailbox. Qed.
Lemma asides_set_subscription n v : asides (set_subscription a n v).
Proof. side_mailbox. Qed.

#[local] Hint Resolve asides_MailboxEnsure asides_MailboxCreate asides_MailboxSetSpecialUse
  asides_MailboxRename asides_MailboxDelete asides_set_subscription : octo.

Lemma asides_AnnotationSet id key v str : asides (AnnotationSet a id key v str).
Proof.
  apply dbstep_bind; [exact _| |intros []].
  - destruct v as [v|]; apply dbstep_exec; intros d d' E; (destruct (negb _); [done|]).
    + destruct (db_accounts d !! _); [|done]. injection E as <-. split; simpl; auto.
      intros. apply lookup_insert_ne. congruence.
    + injection E as <-. split; simpl; auto. intros. apply lookup_delete_ne. congruence.
  - apply (asides_bind nextModSeq); [apply asides_next|]. intros seq. change (asides
      (mbind_st (if id =? 0 then mret_st EmptyString else sql_read (fun d => Ok (mailbox_name_of a id d)))
        (fun n => record (CAnnotation id n key seq)))). side_walk.
Qed.

Lemma asides_MessageAdd mb m body e : asides (MessageAdd a now mb m body e).
Proof. unfold MessageAdd. side_walk. Qed.

#[local] Hint Resolve asides_MessageAdd asides_AnnotationSet : octo.

Lemma asides_run_op o : asides (run_op a now o).
Proof.
  destruct o; cbn [run_op]; unfold ignore, SubscriptionEnsure, SubscriptionRemove, DeliverMailbox,
    MailboxFind, findMailbox, AddSibling; side_walk.
Qed.

(** *** Consistency and isolation of a run *)

Lemma run_wf ops pt pt' : runs a now ops pt pt' -> db_wf (pt_db pt) -> db_wf (pt_db pt').
Proof.
  set (R := fun _ _ : pgTx => True). assert (Reflexive R) by done. assert (Transitive R) by done.
  intros Hr Hwf. apply (runs_ind_wp (op_pre a) R (fun s => db_wf (pt_db s)) ops pt pt' ); [|done|done].
  intros o s Hpre Hs. eapply wp_mono; [by apply run_op_effect|]. intros x s' He. split; [exact (op_effect_wf _ _ He Hs)|done].
Qed.

Lemma run_isolated ops pt pt' :
  runs_with a now (op_own a) ops pt pt' ->
  rows_isolated (pt_db pt) (pt_db pt') /\ aside (acc_id a) (pt_db pt) (pt_db pt').
Proof.
  set (R := fun s s' : pgTx => rows_isolated (pt_db s) (pt_db s') /\ aside (acc_id a) (pt_db s) (pt_db s')).
  assert (Reflexive R) by (intros s; split; [done|reflexivity]).
  assert (Transitive R).
  { intros s1 s2 s3 [A1 A2] [B1 B2]. split; [by eapply rows_isolated_trans|by transitivity (pt_db s2)]. }
  intros Hr. apply (runs_ind_wp (op_own a) R (fun _ => True) ops); [|done|done].
  intros o s Hpre Hs. eapply wp_mono; [apply wp_and; [by apply run_op_raw|apply asides_run_op]|].
  intros x s' [He Has]. split; [done|]. split; [exact (raw_isolated _ _ _ Hpre He)|done].
Qed.
End Runs.
