(* ===== verification/KernelTx.v ===== *)
(** * Theorems of whole transactions

    The log positions every operation spends, the modseq stamps it leaves, and
    the kernel's contract: replay, modseq monotonicity, isolation, quota. *)

From S2P Require Import Prelude GoStrings Shapes Changes Blob Database Tx Mailboxes Messages KernelInv KernelFlags Kernel.

Local Open Scope go_scope.

Section Spends.
Context `{BlobOps}.
Variable a : account.
Variable now : Z.

Lemma keeps_blob_put body : keeps a (blob_put a body).
Proof.
  intros d0 h0 L n pt [H1 H2 H3 H4 H5 H6 H7 H8]. unfold wp, blob_put.
  destruct (rd_data body) as [data|]; [|done]. destruct (blob_Put _ _ _) as [[r|] b']; [|done].
  split; [|done]. by split.
Qed.

Lemma frame_same_accounts d d' :
  db_accounts d' = db_accounts d -> db_changelog d' = db_changelog d -> log_frame a d d'.
Proof. intros Ha Hc. split; [done|]. unfold head_of. by rewrite Ha. Qed.

Lemma keeps_update_counts k t s u e : keeps a (sql_returning (update_counts k t s u e)).
Proof.
  apply keeps_returning. intros d x d' E. apply update_counts_frame in E as (? & _ & ? & _).
  by apply frame_same_accounts.
Qed.

Lemma keeps_bumpQuota dc ds : keeps a (bumpQuota a dc ds).
Proof.
  apply keeps_bind; [|intros []]; apply keeps_exec; intros d d' E;
    apply upsert_quota_frame in E as (? & _ & ? & _); by apply frame_same_accounts.
Qed.

Lemma keeps_bumpCounts k t s u e : keeps a (bumpCounts k t s u e).
Proof. apply keeps_bind; [apply keeps_update_counts|]. intros. apply keeps_ret. Qed.

Lemma keeps_alloc_uid id : keeps a (sql_returning (alloc_uid id)).
Proof.
  apply keeps_returning. intros d x d' E. unfold alloc_uid in E. destruct (db_mailboxes d !! id); [|done].
  destruct (bigint _); [|done]. by injection E as _ <-.
Qed.

Lemma keeps_insert_message id uid seq m e : keeps a (sql_returning (insert_message a now id uid seq m e)).
Proof.
  apply keeps_returning. intros d x d' E. by apply insert_message_ok in E as (_&_&_&_&_&_&_&_&_&_&_&->).
Qed.

Lemma keeps_guard b e : keeps a (mguard b e).
Proof. destruct b; [apply keeps_ret|apply keeps_err]. Qed.

(** Work done with a freshly allocated position [seq]: whatever keeps the log,
    then one record at [seq]. *)
Definition uses {A} (seq : Z) (m : M A) : Prop :=
  forall d0 h0 L n pt, L < seq <= pt_seq pt -> log_ok a d0 h0 L n pt ->
    wp m pt (fun _ pt' => exists L', log_ok a d0 h0 L' n pt').

Lemma spends_alloc {A} (k : Z -> M A) :
  (forall seq, uses seq (k seq)) -> spends a 1 (let! seq := nextModSeq in k seq).
Proof.
  intros Hk d0 h0 L n pt Hn Hpt. log_alloc. intros seq pt1 (Hseq & HL & Hpt1).
  apply (Hk seq d0 h0 L); [lia|done].
Qed.

Lemma uses_bind {A B} seq (m : M A) (k : A -> M B) :
  keeps a m -> (forall x, uses seq (k x)) -> uses seq (mbind_st m k).
Proof.
  intros Hm Hk d0 h0 L n pt Hs Hpt. apply wp_bind. eapply wp_mono; [by apply Hm|].
  intros x pt1 [Hpt1 Heq]. apply (Hk x d0 h0 L); [lia|done].
Qed.

Lemma uses_record {A} seq c (x : A) :
  ChangeModSeq c = seq -> uses seq (do! record c; mret_st x).
Proof.
  intros Hc d0 h0 L n pt Hs Hpt. apply wp_bind. log_record. intros [] pt1 [Hpt1 _]. apply wp_ret. eauto.
Qed.

Lemma spends_message_add id m body e : spends a 1 (message_add a now id m body e).
Proof.
  unfold message_add. apply spends_keeps_l; [lia|apply keeps_read|intros q].
  apply spends_keeps_l; [lia|apply keeps_guard|intros _].
  apply spends_keeps_l; [lia|apply keeps_blob_put|intros p].
  apply spends_keeps_l; [lia|apply keeps_alloc_uid|intros uid].
  apply spends_alloc. intros seq. apply uses_bind; [apply keeps_insert_message|intros row].
  apply uses_bind; [apply keeps_bumpCounts|intros _].
  apply uses_bind; [apply keeps_bumpQuota|intros _]. by apply uses_record.
Qed.

Lemma spends_MessageAdd mb m body e : spends a 1 (MessageAdd a now mb m body e).
Proof. apply spends_returning_changes; [lia|]. apply spends_message_add. Qed.

Lemma spends_DeliverMailbox n m body : spends a 3 (DeliverMailbox a now n m body).
Proof.
  apply spends_keeps_l; [lia|apply keeps_findMailbox|intros found].
  apply (spends_bind a 2 1); [lia| |intros r].
  - destruct found; [apply (spends_mono a 0); [lia|apply spends_ret]|apply spends_MailboxEnsure].
  - apply spends_keeps_r; [apply spends_MessageAdd|intros; apply keeps_ret].
Qed.

Lemma spends_Update x : spends a 1 (Update a x).
Proof.
  apply spends_alloc. intros seq. apply uses_bind; [apply keeps_read|intros old].
  apply uses_bind; [|intros _; apply uses_bind; [|intros _; by apply uses_record]].
  - apply keeps_exec. intros d d' E. destruct (negb _); [done|]. destruct (db_messages d !! _); [|done].
    destruct (_ =? _); [|done]. by injection E as <-.
  - destruct (_ || _); [apply keeps_bumpCounts|apply keeps_ret].
Qed.

Lemma spends_MessageRemove mb msgs : spends a 1 (MessageRemove a 0 mb msgs).
Proof.
  unfold MessageRemove. rewrite Z.eqb_refl. apply spends_alloc. intros seq.
  apply uses_bind; [apply keeps_iter; intros m; apply keeps_exec; by intros d d' [= <-]|intros _].
  apply uses_bind; [|intros c; apply uses_bind; [apply keeps_bumpQuota|intros _; by apply uses_record]].
  apply keeps_bind; [apply keeps_update_counts|]. intros [c|]; [apply keeps_ret|apply keeps_err].
Qed.

Lemma spends_ignore {A} k (m : M A) : spends a k m -> spends a k (ignore m).
Proof. intros Hm. apply spends_keeps_r; [done|]. intros. apply keeps_ret. Qed.

Lemma spends_run_op o : spends a op_positions (run_op a now o).
Proof.
  unfold op_positions.
  destruct o; cbn [run_op]; try apply spends_ignore.
  - eapply spends_mono; [|apply spends_MailboxEnsure]. lia.
  - eapply spends_mono; [|apply spends_MailboxCreate]. lia.
  - eapply spends_mono; [|apply spends_MailboxSetSpecialUse]. lia.
  - eapply spends_mono; [|apply spends_MailboxRename]. lia.
  - eapply spends_mono; [|apply spends_MailboxDelete]. lia.
  - eapply spends_mono; [|apply spends_Subscription]. lia.
  - eapply spends_mono; [|apply spends_Subscription]. lia.
  - eapply spends_mono; [|apply spends_AnnotationSet]. lia.
  - eapply spends_mono; [|apply spends_MessageAdd]. lia.
  - eapply spends_mono; [|apply spends_DeliverMailbox]. lia.
  - apply spends_keeps_l; [lia|apply keeps_get|intros pt].
    eapply spends_mono; [|apply spends_MessageAdd]. lia.
  - eapply spends_mono; [|apply spends_Update]. lia.
  - eapply spends_mono; [|apply spends_MessageRemove]. lia.
Qed.

Lemma spends_run_ops ops : spends a (op_positions * Z.of_nat (length ops)) (run_ops a now ops).
Proof.
  unfold run_ops. induction ops as [|o ops IH]; cbn [miter length].
  - apply (spends_mono a 0); [lia|apply spends_ret].
  - replace (op_positions * Z.of_nat (S (length ops)))
      with (op_positions + op_positions * Z.of_nat (length ops)) by lia.
    apply spends_bind; [unfold op_positions; lia|apply spends_run_op|intros _; exact IH].
Qed.
End Spends.

(** ** Modseq stamps *)

Section Stamps.
Context `{BlobOps}.
Variable a : account.
Variable now : Z.

(** [quiet m]: neither the running head nor the message rows change. *)
Definition quiet {A} (m : M A) : Prop :=
  forall pt, wp m pt (fun _ pt' => pt_seq pt' = pt_seq pt /\ db_messages (pt_db pt') = db_messages (pt_db pt)).

(** [writes seq m]: with head [seq], rows are only written with modseq [seq]. *)
Definition writes {A} (seq : Z) (m : M A) : Prop :=
  forall pt, pt_seq pt = seq -> wp m pt (fun _ pt' => pt_seq pt' = seq /\
    forall k m', db_messages (pt_db pt') !! k = Some m' ->
      db_messages (pt_db pt) !! k = Some m' \/ m_ModSeq m' = seq).

Lemma quiet_ret {A} (x : A) : quiet (mret_st x).
Proof. by intros pt. Qed.
Lemma quiet_err {A} e : quiet (@merr_st pgTx A e).
Proof. by intros pt. Qed.
Lemma quiet_get : quiet mget.
Proof. by intros pt. Qed.
Lemma quiet_guard b e : quiet (mguard b e).
Proof. by destruct b; intros pt. Qed.
Lemma quiet_read {A} (f : DB -> result A) : quiet (sql_read f).
Proof. intros pt. by apply wp_read. Qed.
Lemma quiet_returning {A} (f : DB -> result (A * DB)) :
  (forall d x d', f d = Ok (x, d') -> db_messages d' = db_messages d) -> quiet (sql_returning f).
Proof. intros Hf pt. apply wp_returning. intros x d' _ E. split; [done|]. by eapply Hf. Qed.
Lemma quiet_exec (f : DB -> result DB) :
  (forall d d', f d = Ok d' -> db_messages d' = db_messages d) -> quiet (sql_exec f).
Proof. intros Hf pt. apply wp_exec. intros d' _ E. split; [done|]. by eapply Hf. Qed.
Lemma quiet_bind {A B} (m : M A) (k : A -> M B) :
  quiet m -> (forall x, quiet (k x)) -> quiet (mbind_st m k).
Proof.
  intros Hm Hk pt. apply wp_bind. eapply wp_mono; [apply Hm|]. intros x pt1 [E1 E2].
  eapply wp_mono; [apply Hk|]. intros y pt2 [F1 F2]. split; congruence.
Qed.
Lemma quiet_blob_put body : quiet (blob_put a body).
Proof. intros pt. by apply blob_put_wp. Qed.
Lemma quiet_bumpQuota dc ds : quiet (bumpQuota a dc ds).
Proof.
  apply quiet_bind; [|intros _]; apply quiet_exec; intros d d' E;
    by apply (upsert_quota_lookup _ _ _ _ _ (0, 0)) in E as (_ & ? & _).
Qed.
Lemma quiet_update_counts k t s u e : quiet (sql_returning (update_counts k t s u e)).
Proof. apply quiet_returning. intros d x d' E. by apply update_counts_shift in E as (_ & ? & _). Qed.
Lemma quiet_bumpCounts k t s u e : quiet (bumpCounts k t s u e).
Proof. apply quiet_bind; [apply quiet_update_counts|]. intros. apply quiet_ret. Qed.

Lemma stamps_mono {A} k k' (m : M A) : k <= k' -> stamps k m -> stamps k' m.
Proof.
  intros Hk Hm pt H0 Hr. eapply wp_mono; [apply Hm; lia|]. intros x pt' [? ?]. split; [lia|done].
Qed.

Lemma stamps_bind {A B} k1 k2 (m : M A) (k : A -> M B) :
  0 <= k2 -> stamps k1 m -> (forall x, stamps k2 (k x)) -> stamps (k1 + k2) (mbind_st m k).
Proof.
  intros H2 Hm Hk pt H0 Hr. apply wp_bind. eapply wp_mono; [apply Hm; lia|].
  intros x pt1 [E1 S1]. eapply wp_mono; [apply Hk; lia|]. intros y pt2 [E2 S2]. split; [lia|].
  intros i m' Hm'. destruct (S2 _ _ Hm') as [Hm1|]; [|right; lia].
  destruct (S1 _ _ Hm1) as [|]; [by left|right; lia].
Qed.

Lemma stamps_quiet {A} (m : M A) : quiet m -> stamps 0 m.
Proof.
  intros Hm pt H0 Hr. eapply wp_mono; [apply Hm|]. intros x pt' [E1 E2]. split; [lia|].
  intros i m'. rewrite E2. by left.
Qed.

Lemma stamps_quiet_l {A B} k (m : M A) (f : A -> M B) :
  0 <= k -> quiet m -> (forall x, stamps k (f x)) -> stamps k (mbind_st m f).
Proof. intros. apply (stamps_bind 0 k); [done|by apply stamps_quiet|done]. Qed.

Lemma stamps_ret {A} k (x : A) : 0 <= k -> stamps k (mret_st x).
Proof. intros. apply (stamps_mono 0); [done|]. apply stamps_quiet, quiet_ret. Qed.

Lemma stamps_next : stamps 1 nextModSeq.
Proof.
  intros pt H0 Hr. apply wp_next. intros pt' E1 _ _ E2. rewrite i64_small in E2 by lia.
  split; [lia|]. intros i m'. rewrite E1. by left.
Qed.

Lemma stamps_record c : stamps 1 (record c).
Proof.
  intros pt H0 Hr. unfold wp, record. destruct (encodeChange c) as [[k mb] p]. simpl.
  rewrite i64_small by lia. split; [|by left]. destruct (0 <=? ChangeModSeq c); lia.
Qed.

Lemma stamps_next_l {B} k (f : Z -> M B) :
  1 <= k -> (forall x, stamps (k - 1) (f x)) -> stamps k (mbind_st nextModSeq f).
Proof. intros Hk Hf. replace k with (1 + (k - 1)) by lia. apply stamps_bind; [lia|apply stamps_next|done]. Qed.
Lemma stamps_record_l {B} k c (f : unit -> M B) :
  1 <= k -> (forall x, stamps (k - 1) (f x)) -> stamps k (mbind_st (record c) f).
Proof. intros Hk Hf. replace k with (1 + (k - 1)) by lia. apply stamps_bind; [lia|apply stamps_record|done]. Qed.

Lemma stamps_changes {A} k (m : M A) : 0 <= k -> stamps k m -> stamps k (returning_changes m).
Proof.
  intros Hk Hm. apply stamps_quiet_l; [done|apply quiet_get|intros pt0].
  rewrite <- (Z.add_0_r k). apply stamps_bind; [lia|done|intros r].
  apply stamps_quiet_l; [lia|apply quiet_get|intros pt1]. by apply stamps_ret.
Qed.

Lemma stamps_then_ret {A B} k (m : M A) (f : A -> B) : stamps k m -> stamps k (mbind_st m (fun x => mret_st (f x))).
Proof. intros Hm. rewrite <- (Z.add_0_r k). apply stamps_bind; [lia|done|]. intros. by apply stamps_ret. Qed.

(** Message writes after an allocation. *)
Lemma writes_quiet_l {A B} seq (m : M A) (k : A -> M B) :
  quiet m -> (forall x, writes seq (k x)) -> writes seq (mbind_st m k).
Proof.
  intros Hm Hk pt Hs. apply wp_bind. eapply wp_mono; [apply Hm|]. intros x pt1 [E1 E2].
  eapply wp_mono; [apply Hk; congruence|]. intros y pt2 [F1 F2]. split; [done|]. by rewrite <- E2.
Qed.

Lemma writes_bind {A B} seq (m : M A) (k : A -> M B) :
  writes seq m -> (forall x, writes seq (k x)) -> writes seq (mbind_st m k).
Proof.
  intros Hm Hk pt Hs. apply wp_bind. eapply wp_mono; [by apply Hm|]. intros x pt1 [E1 E2].
  eapply wp_mono; [by apply Hk|]. intros y pt2 [F1 F2]. split; [done|]. intros i m' Hm'.
  destruct (F2 _ _ Hm') as [Hm1|]; [|by right]. destruct (E2 _ _ Hm1); auto.
Qed.

Lemma writes_record_ret {A} seq c (x : A) :
  0 <= seq -> ChangeModSeq c = seq -> writes seq (do! record c; mret_st x).
Proof.
  intros H0 Hc pt Hs. unfold wp, record, mbind_st. destruct (encodeChange c) as [[k mb] p].
  rewrite Hc. assert ((0 <=? seq) = true) as -> by (by apply Z.leb_le). simpl. auto.
Qed.

Lemma stamps_alloc {A} (k : Z -> M A) :
  (forall seq, 0 <= seq -> writes seq (k seq)) -> stamps 1 (let! seq := nextModSeq in k seq).
Proof.
  intros Hk pt H0 Hr. apply wp_bind, wp_next. intros pt1 E1 _ _ E2.
  rewrite i64_small in * by lia. eapply wp_mono; [apply Hk; [lia|done]|].
  intros x pt2 [F1 F2]. split; [lia|]. intros i m' Hm'. rewrite E1 in F2.
  destruct (F2 _ _ Hm'); [by left|right; lia].
Qed.

Lemma stamps_message_add id m body e : stamps 1 (message_add a now id m body e).
Proof.
  unfold message_add. apply stamps_quiet_l; [lia|apply quiet_read|intros q].
  apply stamps_quiet_l; [lia|apply quiet_guard|intros _].
  apply stamps_quiet_l; [lia|apply quiet_blob_put|intros p].
  apply stamps_quiet_l; [lia| |intros uid].
  { apply quiet_returning. intros d x d' E. unfold alloc_uid in E.
    destruct (db_mailboxes d !! id); [|done]. destruct (bigint _); [|done]. by injection E as _ <-. }
  apply stamps_alloc. intros seq H0. apply writes_bind; [|intros row].
  - intros pt Hs. apply wp_returning. intros row d' _ E. split; [done|]. intros i m'.
    apply insert_message_ok in E as (_&_&_&_&_&_&_&Hms&_&_&_&->). simpl. rewrite lookup_insert.
    case_decide; [intros [= <-]; by right|by left].
  - apply writes_quiet_l; [apply quiet_bumpCounts|intros _].
    apply writes_quiet_l; [apply quiet_bumpQuota|intros _]. by apply writes_record_ret.
Qed.

Lemma stamps_Update x : stamps 1 (Update a x).
Proof.
  apply stamps_alloc. intros seq H0. apply writes_quiet_l; [apply quiet_read|intros old].
  apply writes_bind; [|intros _; apply writes_quiet_l; [|intros _; by apply writes_record_ret]].
  - intros pt Hs. apply wp_exec. intros d' _ E. destruct (negb _); [done|].
    destruct (db_messages (pt_db pt) !! m_ID x); [|done]. destruct (_ =? _); [|done].
    injection E as <-. split; [done|]. intros i m'. simpl. rewrite lookup_insert.
    case_decide; [intros [= <-]; by right|by left].
  - destruct (_ || _); [apply quiet_bumpCounts|apply quiet_ret].
Qed.

Lemma stamps_MessageRemove mb msgs : stamps 1 (MessageRemove a 0 mb msgs).
Proof.
  unfold MessageRemove. rewrite Z.eqb_refl. apply stamps_alloc. intros seq H0.
  apply writes_bind; [|intros _].
  - intros pt Hs. eapply wp_mono; [apply wp_expunge|]. intros _ pt' ->. split; [done|].
    intros i m'. simpl. rewrite expunge_all_lookup. case_bool_decide; [|by left].
    destruct (db_messages (pt_db pt) !! i); [|done]. intros [= <-]. by right.
  - apply writes_quiet_l; [|intros c; apply writes_quiet_l; [apply quiet_bumpQuota|intros _; by apply writes_record_ret]].
    apply quiet_bind; [apply quiet_update_counts|]. intros [c|]; [apply quiet_ret|apply quiet_err].
Qed.

(** Mailbox operations write no message at all. *)
Lemma quiet_update_mailboxes p f : quiet (sql_returning (fun d => Ok (update_mailboxes p f d))).
Proof. apply quiet_returning. by intros d x d' [= _ <-]. Qed.

Lemma quiet_mb_step {A} (f : DB -> result (A * DB)) :
  dbstep (mb_step a) (sql_returning f) -> quiet (sql_returning f).
Proof.
  intros Hf pt. eapply wp_mono; [apply wp_and; [apply Hf|]|].
  - apply (wp_returning f pt (fun _ pt' => pt_seq pt' = pt_seq pt)). done.
  - intros x pt' [[Hm _ _ _ _ _] Hs]. done.
Qed.

Lemma stamps_ensureMailbox n s su : stamps 3 (ensureMailbox a n s su).
Proof.
  apply stamps_quiet_l; [lia|apply quiet_read|]. intros [mb|]; [by apply stamps_ret|].
  apply stamps_quiet_l; [lia|apply quiet_mb_step, dbstep_nextUIDValidity|intros uv].
  apply stamps_next_l; [lia|intros seq].
  apply stamps_quiet_l; [lia|apply quiet_mb_step, dbstep_insert_mailbox|intros id].
  apply stamps_record_l; [lia|intros _]. destruct s; [|by apply stamps_ret].
  apply stamps_record_l; [lia|intros _]. by apply stamps_ret.
Qed.

Lemma stamps_set_special_use mb su : stamps 3 (MailboxSetSpecialUse a mb su).
Proof.
  apply stamps_changes; [lia|]. apply stamps_next_l; [lia|intros seq].
  apply stamps_quiet_l; [lia|apply quiet_update_mailboxes|intros n].
  apply stamps_quiet_l; [lia|apply quiet_guard|intros _].
  apply stamps_record_l; [lia|intros _]. by apply stamps_ret.
Qed.

Lemma stamps_rename src dst : stamps 3 (MailboxRename a src dst).
Proof.
  apply stamps_quiet_l; [lia|apply quiet_get|intros pt0]. apply stamps_next_l; [lia|intros seq].
  apply stamps_quiet_l; [lia| |intros n].
  - apply quiet_returning. intros d x d' E. destruct (negb _); [done|]. cbv zeta in E.
    destruct (_ && _); [done|]. by injection E as _ <-.
  - destruct (n =? 0); [by apply stamps_ret|]. apply stamps_record_l; [lia|intros _].
    apply stamps_quiet_l; [lia|apply quiet_get|intros pt1]. by apply stamps_ret.
Qed.

Lemma stamps_delete mb : stamps 3 (MailboxDelete a mb).
Proof.
  apply stamps_then_ret, stamps_changes; [lia|]. apply stamps_next_l; [lia|intros seq].
  apply stamps_quiet_l; [lia|apply quiet_update_mailboxes|intros n].
  eapply stamps_mono; [|apply stamps_record]. lia.
Qed.

Lemma stamps_subscription n v c : stamps 3 (returning_changes (do! set_subscription a n v; record c)).
Proof.
  apply stamps_changes; [lia|].
  apply stamps_quiet_l; [lia|apply quiet_mb_step, dbstep_subscription|intros _].
  eapply stamps_mono; [|apply stamps_record]. lia.
Qed.

Lemma stamps_annotation id key v str : stamps 3 (AnnotationSet a id key v str).
Proof.
  apply stamps_quiet_l; [lia| |intros _].
  - destruct v; apply quiet_exec; intros d d' E; (destruct (negb _); [done|]).
    + destruct (db_accounts d !! _); [|done]. by injection E as <-.
    + by injection E as <-.
  - apply stamps_next_l; [lia|intros seq]. apply stamps_quiet_l; [lia| |intros mbName].
    + destruct (id =? 0); [apply quiet_ret|apply quiet_read].
    + eapply stamps_mono; [|apply stamps_record]. lia.
Qed.

Lemma stamps_MessageAdd mb m body e : stamps 1 (MessageAdd a now mb m body e).
Proof. apply stamps_changes; [lia|]. apply stamps_message_add. Qed.

Lemma stamps_DeliverMailbox n m body : stamps 4 (DeliverMailbox a now n m body).
Proof.
  apply stamps_quiet_l; [lia|apply quiet_read|intros found]. apply (stamps_bind 3 1); [lia| |intros r].
  - destruct found; [by apply stamps_ret|]. apply stamps_changes; [lia|]. apply stamps_ensureMailbox.
  - apply stamps_then_ret, stamps_MessageAdd.
Qed.

Lemma stamps_run_op o : stamps op_positions (run_op a now o).
Proof.
  unfold op_positions. destruct o; cbn [run_op]; unfold ignore; try apply stamps_then_ret.
  all: try (eapply (stamps_mono 3); [lia|];
    first [apply stamps_set_special_use|apply stamps_rename|apply stamps_delete
          |apply stamps_annotation
          |apply stamps_changes; [lia|apply stamps_ensureMailbox]
          |apply stamps_then_ret, stamps_subscription]).
  - apply stamps_quiet_l; [lia|apply quiet_read|]. intros [mb|]; [by apply stamps_ret|].
    apply stamps_then_ret, stamps_changes; [lia|].
    eapply stamps_mono; [|apply stamps_ensureMailbox]. lia.
  - eapply stamps_mono; [|apply stamps_MessageAdd]. lia.
  - apply stamps_DeliverMailbox.
  - apply stamps_quiet_l; [lia|apply quiet_get|intros pt].
    eapply stamps_mono; [|apply stamps_MessageAdd]. lia.
  - eapply stamps_mono; [|apply stamps_Update]. lia.
  - eapply stamps_mono; [|apply stamps_MessageRemove]. lia.
Qed.

Lemma stamps_run_ops ops : stamps (op_positions * Z.of_nat (length ops)) (run_ops a now ops).
Proof.
  unfold run_ops. induction ops as [|o ops IH]; cbn [miter length].
  - by apply stamps_ret.
  - replace (op_positions * Z.of_nat (S (length ops)))
      with (op_positions + op_positions * Z.of_nat (length ops)) by lia.
    apply stamps_bind; [unfold op_positions; lia|apply stamps_run_op|intros _; exact IH].
Qed.
End Stamps.
