(* ===== verification/KernelDemo.v ===== *)
(** * A concrete store for the examples and witnesses

    One tenant, two accounts, a file-system blob store with a stand-in hash
    function, and the transactions the witnesses evaluate. *)

From S2P Require Import Prelude GoStrings Shapes Changes Blob Database Tx Mailboxes Messages KernelInv KernelFlags Kernel.

Local Open Scope go_scope.

(** A function with the shape of a SHA-256 digest: it maps a body to 64 hexadecimal
    characters that depend on the body's length only. *)
Definition demo_digit (k : nat) : ascii :=
  match k with 0%nat => "a" | 1%nat => "b" | 2%nat => "c" | 3%nat => "d" | 4%nat => "e" | _ => "f" end%char.
Definition demo_hash (data : string) : string :=
  str_of (repeat (demo_digit (Nat.modulo (String.length data) 6)) 64).

#[export] Instance demo_ops : BlobOps := Fs.fs_ops demo_hash.

Lemma demo_hash_valid data : Valid (demo_hash data) = true.
Proof.
  unfold demo_hash, Valid. rewrite bytes_of_str_of, repeat_length.
  assert (Hc : forall k, is_lower_hex (demo_digit k) = true) by by intros [|[|[|[|[|k]]]]].
  generalize (Nat.modulo (String.length data) 6). intros k. specialize (Hc k).
  generalize dependent (demo_digit k). intros c Hc. cbn [Nat.eqb negb repeat forallb]. by rewrite !Hc.
Qed.

#[export] Instance demo_laws : BlobLaws := Fs.fs_laws demo_hash demo_hash_valid.

Definition alice : account := mkAccount 1 1.
Definition bob : account := mkAccount 2 1.

Definition demo_db : DB :=
  mkDB (<[1 := mkAccountRow 1 "alice" 0 1 (Some 1000)]> (<[2 := mkAccountRow 1 "bob" 0 1 None]> ∅))
    (<[1 := Some 5000]> ∅) ∅ ∅ ∅ ∅ ∅ 1 1.

Definition no_files : blob_state := (∅ : gmap (Z * string) string).

Definition hello : BlobReader := mkReader 5 (Ok "hello").

Definition incoming : Message :=
  mkMessage 0 0 0 0 0 0 false no_flags ["work"] EmptyString 0 0 0 0 0 "Received: x" EmptyString EmptyString
    EmptyString EmptyString EmptyString EmptyString false.

Definition deliver_ops : list op := [ODeliver "INBOX" incoming hello; OCreate "Archive" no_special_use].

(** The result of running a body from a database, its parts and what it leaves. *)
Definition ran (acct : account) (ops : list op) (d : DB) (b : blob_state) := Tx acct (run_ops acct 7 ops) d b.
Definition published (acct : account) ops d b : list Change :=
  match (ran acct ops d b).1.1 with Ok (_, cs, _) => cs | Err _ => [] end.
Definition head_after (acct : account) ops d b : Z :=
  match (ran acct ops d b).1.1 with Ok (_, _, h) => h | Err _ => 0 end.
Definition db_after acct ops d b : DB := (ran acct ops d b).1.2.
Definition blobs_after acct ops d b : blob_state := (ran acct ops d b).2.

(** The last state of a body, before the flush. *)
Definition body_after (acct : account) ops d b h0 : pgTx := (run_ops acct 7 ops (start d b h0)).2.

Definition demo_db1 : DB := db_after alice deliver_ops demo_db no_files.
Definition demo_blobs1 : blob_state := blobs_after alice deliver_ops demo_db no_files.

Example demo_log : head_after alice deliver_ops demo_db no_files = 4 /\
  length (published alice deliver_ops demo_db no_files) = 4%nat.
Proof. split; vm_compute; reflexivity. Qed.

(** ** Runs of the demo bodies *)

Lemma hello_fits prefix : (String.length prefix <= 100)%nat -> body_fits hello prefix.
Proof. intros Hp data [= <-]. simpl. unfold max_int64. lia. Qed.

(** A body whose calls all meet their preconditions and succeed is a run. *)
Fixpoint pre_all (P : op -> pgTx -> Prop) (acct : account) (now : Z) (ops : list op) (pt : pgTx) : Prop :=
  match ops with
  | [] => True
  | o :: ops => P o pt /\ (run_op acct now o pt).1 = Ok tt /\
      pre_all P acct now ops (run_op acct now o pt).2
  end.

Lemma runs_of_pre P acct now ops pt :
  pre_all P acct now ops pt -> runs_with acct now P ops pt (run_ops acct now ops pt).2.
Proof.
  revert pt. induction ops as [|o ops IH]; intros pt; cbn [pre_all]; [intros _; apply runs_nil|].
  intros (Hpre & Hok & Hr). unfold run_ops in *. cbn [miter]. unfold mbind_st.
  destruct (run_op acct now o pt) as [r pt1] eqn:E. simpl in *. subst r.
  eapply runs_cons; [exact Hpre|exact E|by apply IH].
Qed.

Lemma deliver_runs :
  runs alice 7 deliver_ops (start demo_db no_files 0) (body_after alice deliver_ops demo_db no_files 0).
Proof.
  apply runs_of_pre. split; [apply hello_fits; simpl; lia|]. split; [vm_compute; reflexivity|].
  split; [exact I|]. split; [vm_compute; reflexivity|exact I].
Qed.

Definition commits (acct : account) ops d b : bool :=
  match (ran acct ops d b).1.1 with Ok _ => true | Err _ => false end.

Lemma ran_ok acct ops d b : commits acct ops d b = true ->
  Tx acct (run_ops acct 7 ops) d b =
    (Ok (tt, published acct ops d b, head_after acct ops d b), db_after acct ops d b, blobs_after acct ops d b).
Proof.
  unfold commits, published, head_after, db_after, blobs_after, ran.
  by destruct (Tx acct _ d b) as [[[[[[] cs] h]|e] d'] b'].
Qed.

Lemma deliver_commits : commits alice deliver_ops demo_db no_files = true.
Proof. vm_compute. reflexivity. Qed.

Lemma demo_provisioned : provisioned demo_db.
Proof.
  split_and!; [reflexivity..|]. intros acc row. unfold demo_db, db_accounts.
  rewrite !lookup_insert, lookup_empty. repeat case_decide; intros [= <-]; reflexivity.
Qed.

(** Bob delivers to himself after Alice. *)
Definition bob_ops : list op := [ODeliver "INBOX" incoming hello].
Definition demo_db2 : DB := db_after bob bob_ops demo_db1 demo_blobs1.

(** Alice marks her message as read. *)
Definition mark_ops : list op :=
  [OUpdate (m_set_flags (mkFlags true false false false false false false false false false) [] 0
              (default incoming (db_messages demo_db1 !! 1)))].
Definition demo_db3 : DB := db_after alice mark_ops demo_db1 demo_blobs1.

(** Alice marks her message as read and removes it by the row she read before,
    as one JMAP patch of keywords and mailboxes does. *)
Definition stale_row : Message := default incoming (db_messages demo_db2 !! 1).
Definition demo_inbox : Mailbox :=
  mkMailbox 1 1 0 "INBOX" 0 0 0 0 false no_special_use true [] zero_counts.
Definition stale_ops : list op := mark_ops ++ [ORemove demo_inbox [stale_row]].
Definition demo_db4 : DB := db_after alice stale_ops demo_db2 demo_blobs1.
