(* ===== verification/KernelSpec.v ===== *)
(** * What the kernel promises

    The theorems a protocol server relies on: the state stays consistent over
    any sequence of transactions, a commit publishes exactly what a replay
    yields, accounts are isolated, modseqs identify what changed, UIDs are
    never reused, quotas are hard limits. *)

From S2P Require Import Prelude GoStrings Shapes Changes Blob Database Tx Mailboxes Messages KernelInv KernelFlags Kernel KernelTx KernelDemo.

Local Open Scope go_scope.

(** ** Helper lemmas *)

Section Spec.
Context `{BlobOps} `{!BlobLaws}.

Lemma head_of_row a d h : head_of a d = Some h ->
  exists row, db_accounts d !! acc_id a = Some row /\ ar_changelog_seq row = h.
Proof. unfold head_of. destruct (db_accounts d !! acc_id a) as [row|]; [|done]. intros [= <-]. eauto. Qed.

Lemma logs_wf_head a d h : logs_wf d -> head_of a d = Some h -> 0 <= h /\ log_wf a d.
Proof.
  intros [Hpos Hrows] Hh. destruct (head_of_row _ _ _ Hh) as (row & Hrow & <-). split; [by eapply Hpos|].
  intros h' s r Hh' Hs. destruct (Hrows _ _ _ Hs) as (row' & Hrow' & Hle).
  unfold head_of in Hh'. rewrite Hrow' in Hh'. by injection Hh' as <-.
Qed.

(** A committed body, decomposed: its final state and the flush. *)
Lemma commit_inv a now ops d b h0 changes head d' b' :
  logs_wf d -> head_of a d = Some h0 -> h0 + op_positions * Z.of_nat (length ops) <= max_int64 ->
  Tx a (run_ops a now ops) d b = (Ok (tt, changes, head), d', b') ->
  exists pt, run_ops a now ops (start d b h0) = (Ok tt, pt) /\
    db_accounts d' = alter (ar_set_seq head) (acc_id a) (db_accounts (pt_db pt)) /\
    db_tenants d' = db_tenants (pt_db pt) /\ db_mailboxes d' = db_mailboxes (pt_db pt) /\
    db_messages d' = db_messages (pt_db pt) /\ db_quota d' = db_quota (pt_db pt) /\
    db_annotations d' = db_annotations (pt_db pt) /\
    db_mailbox_ids d' = db_mailbox_ids (pt_db pt) /\ db_message_ids d' = db_message_ids (pt_db pt) /\
    head = pt_seq pt /\ commit_spec a d d' h0 head changes.
Proof.
  intros Hwf Hh Hroom HTx. destruct (logs_wf_head a d h0 Hwf Hh) as [Hpos0 Hlog].
  pose proof (Tx_commit a (run_ops a now ops) (op_positions * Z.of_nat (length ops)) d b tt changes head d' b' h0
    Hlog Hh Hpos0 ltac:(unfold op_positions; lia) Hroom (spends_run_ops a now ops) HTx) as Hspec.
  destruct (Tx_inv _ _ _ _ _ _ _ _ _ HTx) as (h0' & pt & Hh' & Hfn & -> & -> & -> & Hd).
  rewrite Hh in Hh'. injection Hh' as <-. exists pt.
  assert (Hok : log_ok a d h0 h0 (op_positions * Z.of_nat (length ops)) (start d b h0)).
  { unfold op_positions in *. split; simpl; auto; try lia; constructor. }
  destruct (wp_run _ _ _ _ _ (spends_run_ops a now ops d h0 h0 _ _ ltac:(reflexivity) Hok) Hfn) as [L HL].
  rewrite (Hd (lo_write _ _ _ _ _ _ HL)) in *. simpl. split_and!; try done.
Qed.

(** Well-formedness only looks at mailboxes, messages, quota and identities. *)
Lemma db_struct_same d d' :
  db_mailboxes d' = db_mailboxes d -> db_messages d' = db_messages d ->
  db_mailbox_ids d' = db_mailbox_ids d -> db_message_ids d' = db_message_ids d -> db_struct d -> db_struct d'.
Proof. intros E1 E2 E3 E4 []. split; rewrite ?E1, ?E2, ?E3, ?E4; auto. Qed.
Lemma db_wf_same d d' :
  db_mailboxes d' = db_mailboxes d -> db_messages d' = db_messages d -> db_quota d' = db_quota d ->
  db_mailbox_ids d' = db_mailbox_ids d -> db_message_ids d' = db_message_ids d -> db_wf d -> db_wf d'.
Proof.
  intros E1 E2 E3 E4 E5 [Hst]. split; [by eapply db_struct_same|..]; rewrite ?E1, ?E2, ?E3, ?E4, ?E5; auto.
Qed.

Lemma provisioned_wf d : provisioned d -> db_wf d /\ logs_wf d.
Proof.
  intros (E1 & E2 & E3 & E4 & E5). split; [split; [split|..]|split]; rewrite ?E1, ?E2, ?E3, ?E4;
    try (intros; simplify_map_eq; done).
  intros acc row Hrow. by rewrite (E5 _ _ Hrow).
Qed.

Lemma commit_wf a now ops d b h0 pt changes head d' b' :
  db_wf d -> logs_wf d -> head_of a d = Some h0 ->
  h0 + op_positions * Z.of_nat (length ops) <= max_int64 ->
  runs a now ops (start d b h0) pt ->
  Tx a (run_ops a now ops) d b = (Ok (tt, changes, head), d', b') -> db_wf d'.
Proof.
  intros Hwf Hlogs Hh Hroom Hr HTx.
  destruct (commit_inv _ _ _ _ _ _ _ _ _ _ Hlogs Hh Hroom HTx)
    as (pt2 & Hrun & _ & _ & E3 & E4 & E5 & _ & E7 & E8 & _).
  rewrite (runs_run_ops _ _ _ _ _ _ Hr) in Hrun. injection Hrun as <-.
  eapply db_wf_same; [done..|]. by eapply run_wf.
Qed.

Lemma commit_struct a now ops d b h0 changes head d' b' :
  db_struct d -> logs_wf d -> head_of a d = Some h0 ->
  h0 + op_positions * Z.of_nat (length ops) <= max_int64 ->
  Tx a (run_ops a now ops) d b = (Ok (tt, changes, head), d', b') -> db_struct d'.
Proof.
  intros Hwf Hlogs Hh Hroom HTx.
  destruct (commit_inv _ _ _ _ _ _ _ _ _ _ Hlogs Hh Hroom HTx)
    as (pt & Hrun & _ & _ & E3 & E4 & _ & _ & E7 & E8 & _).
  eapply db_struct_same; [done..|].
  by apply (wp_run _ _ (fun _ s => db_struct (pt_db s)) _ _ (run_ops_struct a now ops (start d b h0) Hwf) Hrun).
Qed.

Lemma commit_logs_wf a now ops d b h0 changes head d' b' :
  logs_wf d -> head_of a d = Some h0 -> h0 + op_positions * Z.of_nat (length ops) <= max_int64 ->
  (forall acc, acc <> acc_id a -> db_accounts d' !! acc = db_accounts d !! acc) ->
  Tx a (run_ops a now ops) d b = (Ok (tt, changes, head), d', b') -> logs_wf d'.
Proof.
  intros Hlogs Hh Hroom Hacc HTx. pose proof Hlogs as [Hpos Hrows].
  destruct (logs_wf_head a d h0 Hlogs Hh) as [Hpos0 _].
  destruct (commit_inv _ _ _ _ _ _ _ _ _ _ Hlogs Hh Hroom HTx)
    as (pt & _ & _ & _ & _ & _ & _ & _ & _ & _ & _ & (Hh' & Hle & Hwf' & Hkeep & _)).
  destruct (head_of_row _ _ _ Hh') as (row' & Hrow' & Hseq').
  split.
  - intros acc row Hrow. destruct (decide (acc = acc_id a)) as [->|Hne].
    + rewrite Hrow' in Hrow. injection Hrow as <-. lia.
    + rewrite Hacc in Hrow by done. by eapply Hpos.
  - intros acc s r Hs. destruct (decide (acc = acc_id a)) as [->|Hne].
    + exists row'. split; [done|]. rewrite Hseq'. by eapply Hwf'.
    + rewrite Hkeep in Hs by auto. destruct (Hrows _ _ _ Hs) as (row & Hrow & Hs').
      exists row. by rewrite Hacc.
Qed.

(** The positions and stamps of a whole body. *)
Lemma commit_stamps a now ops d b h0 changes head d' b' :
  logs_wf d -> head_of a d = Some h0 -> h0 + op_positions * Z.of_nat (length ops) <= max_int64 ->
  Tx a (run_ops a now ops) d b = (Ok (tt, changes, head), d', b') ->
  stamped h0 head (db_messages d) (db_messages d').
Proof.
  intros Hlogs Hh Hroom HTx. destruct (logs_wf_head a d h0 Hlogs Hh) as [Hpos0 _].
  destruct (commit_inv _ _ _ _ _ _ _ _ _ _ Hlogs Hh Hroom HTx)
    as (pt & Hrun & _ & _ & _ & E4 & _ & _ & _ & _ & -> & _).
  destruct (wp_run _ _ _ _ _ (stamps_run_ops a now ops (start d b h0) Hpos0 Hroom) Hrun) as [_ Hs].
  by rewrite E4.
Qed.

(** *** The log between two states *)

(** Between [d] and [d'], account [a] appended exactly the changes [cs]. *)
Definition log_segment (a : account) (d : DB) (cs : list Change) (d' : DB) : Prop :=
  exists es h h', head_of a d = Some h /\ head_of a d' = Some h' /\ h <= h' /\
    Forall2 entry_of cs es /\ StronglySorted Z.lt (pe_seq <$> es) /\
    Forall (fun s => h < s <= h') (pe_seq <$> es) /\
    forall s, db_changelog d' !! (acc_id a, s) = append_entries a es (db_changelog d) !! (acc_id a, s).

Lemma append_entries_ext a es log log' s :
  (forall s, log !! (acc_id a, s) = log' !! (acc_id a, s)) ->
  append_entries a es log !! (acc_id a, s) = append_entries a es log' !! (acc_id a, s).
Proof.
  revert log log'. induction es as [|e es IH]; intros log log' Hl; [apply Hl|]. simpl.
  apply IH. intros s'. rewrite !lookup_insert. by case_decide.
Qed.

Lemma StronglySorted_app_lt l1 l2 h :
  StronglySorted Z.lt l1 -> StronglySorted Z.lt l2 -> Forall (fun s => s <= h) l1 ->
  Forall (fun s => h < s) l2 -> StronglySorted Z.lt (l1 ++ l2).
Proof.
  intros S1 S2 F1 F2. induction S1 as [|x l1 S1 IH Hx]; [done|]. simpl.
  inversion F1 as [|? ? Hxh F1']; subst. constructor; [by apply IH|]. apply Forall_app. split; [done|].
  eapply Forall_impl; [exact F2|]. simpl. lia.
Qed.

Lemma log_segment_trans a d1 d2 d3 cs1 cs2 :
  log_segment a d1 cs1 d2 -> log_segment a d2 cs2 d3 -> log_segment a d1 (cs1 ++ cs2) d3.
Proof.
  intros (es1 & h1 & h2 & A1 & A2 & A3 & A4 & A5 & A6 & A7)
         (es2 & h2' & h3 & B1 & B2 & B3 & B4 & B5 & B6 & B7).
  rewrite A2 in B1. injection B1 as <-. exists (es1 ++ es2), h1, h3. rewrite fmap_app.
  split_and!; [done|done|lia|by apply Forall2_app| | |].
  - eapply (StronglySorted_app_lt _ _ h2); [done|done|..].
    + eapply Forall_impl; [exact A6|]. simpl. lia.
    + eapply Forall_impl; [exact B6|]. simpl. lia.
  - apply Forall_app. split; (eapply Forall_impl; [eassumption|]); simpl; lia.
  - intros s. rewrite B7. unfold append_entries. rewrite foldl_app. fold (append_entries a es1 (db_changelog d1)).
    by apply append_entries_ext.
Qed.

Lemma log_segment_same a d d' h :
  head_of a d = Some h -> head_of a d' = Some h ->
  (forall s, db_changelog d' !! (acc_id a, s) = db_changelog d !! (acc_id a, s)) ->
  log_segment a d [] d'.
Proof.
  intros Hh Hh' Hl. exists [], h, h. split_and!; try done; try lia; repeat constructor.
Qed.

Lemma commit_segment a now ops d b h0 changes head d' b' :
  logs_wf d -> head_of a d = Some h0 -> h0 + op_positions * Z.of_nat (length ops) <= max_int64 ->
  Tx a (run_ops a now ops) d b = (Ok (tt, changes, head), d', b') ->
  log_segment a d changes d' /\ head_of a d' = Some head.
Proof.
  intros Hwf Hh Hroom HTx. destruct (logs_wf_head a d h0 Hwf Hh) as [Hpos0 _].
  destruct (Tx_inv _ _ _ _ _ _ _ _ _ HTx) as (h0' & pt & Hh' & Hfn & -> & -> & -> & Hd).
  rewrite Hh in Hh'. injection Hh' as <-.
  assert (Hok : log_ok a d h0 h0 (op_positions * Z.of_nat (length ops)) (start d b h0)).
  { unfold op_positions in *. split; simpl; auto; try lia; constructor. }
  destruct (wp_run _ _ _ _ _ (spends_run_ops a now ops d h0 h0 _ _ ltac:(reflexivity) Hok) Hfn)
    as [L [H1 H2 H3 H4 H5 H6 H7 H8]].
  specialize (Hd H8). rewrite H1 in Hd.
  assert (Hnew : head_of a d' = Some (pt_seq pt)) by (rewrite Hd; by eapply (head_of_advance _ _ (set_changelog _ _))).
  split; [|done]. exists (pt_entries pt), h0, (pt_seq pt). split_and!; try done; [lia| |].
  - eapply Forall_impl; [exact H4|]. simpl. lia.
  - intros s. by rewrite Hd.
Qed.

(** Replaying a segment yields its changes in order. *)
Lemma replay_segment a d cs d' h :
  log_wf a d -> head_of a d = Some h -> log_segment a d cs d' -> forallb change_typed cs = true ->
  exists seqs, replayWithSeqs (acc_id a) h d' = Ok (seqs, cs, default h (last seqs)) /\
    StronglySorted Z.lt seqs /\ Forall (fun s => h < s) seqs.
Proof.
  intros Hwf Hh (es & h1 & h' & A1 & A2 & A3 & A4 & A5 & A6 & A7) Ht.
  rewrite Hh in A1. injection A1 as <-.
  assert (Hgt : Forall (fun s => h < s) (pe_seq <$> es)).
  { eapply Forall_impl; [exact A6|]. simpl. lia. }
  exists (pe_seq <$> es). split; [|done]. unfold replayWithSeqs.
  rewrite (log_rows_after_append a es d d' h Hwf Hh A5 Hgt); [|done].
  by destruct (replay_loop_entries _ _ h A4 Ht A5 Hgt) as (hd & -> & ->).
Qed.

(** Other accounts' rows of [accounts] and [changelog] after a commit. *)
Lemma commit_others a now ops d b h0 changes head d' b' :
  logs_wf d -> head_of a d = Some h0 -> h0 + op_positions * Z.of_nat (length ops) <= max_int64 ->
  Tx a (run_ops a now ops) d b = (Ok (tt, changes, head), d', b') ->
  logs_wf d' /\ forall acc, acc <> acc_id a ->
    db_accounts d' !! acc = db_accounts d !! acc /\
    forall s, db_changelog d' !! (acc, s) = db_changelog d !! (acc, s).
Proof.
  intros Hlogs Hh Hroom HTx.
  destruct (commit_inv _ _ _ _ _ _ _ _ _ _ Hlogs Hh Hroom HTx)
    as (pt & Hrun & E1 & _ & _ & _ & _ & _ & _ & _ & _ & (_ & _ & _ & Hlog & _)).
  assert (Has : aside (acc_id a) (pt_db (start d b h0)) (pt_db pt)).
  { refine (wp_run (run_ops a now ops) _ (fun _ pt' => aside (acc_id a) d (pt_db pt')) _ _ _ Hrun).
    apply (asides_iter a). intros o. apply asides_run_op. }
  assert (Hacc : forall acc, acc <> acc_id a -> db_accounts d' !! acc = db_accounts d !! acc).
  { intros acc Hne. rewrite E1, lookup_alter_ne by congruence. by apply Has. }
  split; [by eapply commit_logs_wf|]. intros acc Hne. split; [by apply Hacc|]. intros s. apply Hlog. auto.
Qed.

Lemma history_segment a d cs d' h :
  history a d cs d' -> logs_wf d -> head_of a d = Some h -> log_segment a d cs d'.
Proof.
  intros Hhist. revert h. induction Hhist as [d|now ops d b h0 cs head d1 b1 rest d2 Hh Hroom HTx _ IH
    |now other ops d b h0 cs head d1 b1 rest d2 Hne Hh Hroom HTx _ IH|now other ops d b e d1 b1 rest d2 HTx _ IH];
    intros h Hlogs Hhd.
  - by eapply log_segment_same.
  - destruct (commit_segment _ _ _ _ _ _ _ _ _ _ Hlogs Hh Hroom HTx) as [Hseg Hh1].
    destruct (commit_others _ _ _ _ _ _ _ _ _ _ Hlogs Hh Hroom HTx) as [Hlogs1 _].
    eapply log_segment_trans; [exact Hseg|]. by eapply IH.
  - destruct (commit_others _ _ _ _ _ _ _ _ _ _ Hlogs Hh Hroom HTx) as [Hlogs1 Hsame].
    destruct (Hsame (acc_id a) ltac:(congruence)) as [Ha Hl].
    assert (Hh1 : head_of a d1 = Some h) by (unfold head_of in *; by rewrite Ha).
    change rest with ([] ++ rest). eapply log_segment_trans; [by eapply log_segment_same|]. by eapply IH.
  - apply Tx_rollback in HTx as ->. by eapply IH.
Qed.
End Spec.

(** ** Theorems *)

Section Theorems.
Context `{BlobOps} `{!BlobLaws}.

(** [C1] Consistency of the store: in every state the running system reaches
    from a provisioned database, by any sequence of committed or failed
    transactions of any accounts, with whatever messages and mailboxes their
    calls pass, row keys, foreign keys, UID allocation and uniqueness hold, and
    no log entry lies past its account's head; and where committed
    transactions update and remove rows as they are stored, mailbox counters
    and quota counters agree with the message rows. *)
Theorem system_consistent careful d b : reachable careful d b ->
  db_struct d /\ logs_wf d /\ (careful = true -> db_wf d).
Proof.
  induction 1 as [d b Hp|now d b d' b' _ (Hst & Hlogs & Hwf) Hstep].
  - destruct (provisioned_wf _ Hp) as [Hwf Hlogs]. split; [apply Hwf|done].
  - inversion Hstep as [a ops d0 b0 h0 pt changes head d1 b1 Hh Hroom Hr HTx|a ops d0 b0 e d1 b1 HTx]; subst.
    + split; [by eapply commit_struct|]. split; [by eapply commit_others|]. intros Hc.
      eapply commit_wf; [by apply Hwf|done|exact Hh|exact Hroom| |exact HTx].
      eapply runs_mono; [|exact Hr]. intros o s Ho. by apply Ho.
    + apply Tx_rollback in HTx as ->. done.
Qed.

(** [C2] Catch-up: a subscriber that last saw log position [h] and replays the
    log later, after any transactions of its own account and of others, some
    of which failed, gets exactly the changes the account published since, in
    the order they were published, at strictly increasing positions. *)
Theorem replay_catches_up a d cs d' h :
  logs_wf d -> head_of a d = Some h -> history a d cs d' -> forallb change_typed cs = true ->
  exists seqs, replayWithSeqs (acc_id a) h d' = Ok (seqs, cs, default h (last seqs)) /\
    StronglySorted Z.lt seqs /\ Forall (fun s => h < s) seqs.
Proof.
  intros Hlogs Hh Hhist Ht. apply (replay_segment a d); [|done| |done].
  - by apply (logs_wf_head a d h).
  - by eapply history_segment.
Qed.

(** A commit appends to its own account's log only, moves the head forward
    to the published head, keeps every older entry, and a replay from the old
    head returns the published changes. *)
Theorem commit_publishes a now ops d b h0 changes head d' b' :
  logs_wf d -> head_of a d = Some h0 -> h0 + op_positions * Z.of_nat (length ops) <= max_int64 ->
  Tx a (run_ops a now ops) d b = (Ok (tt, changes, head), d', b') ->
  commit_spec a d d' h0 head changes.
Proof.
  intros Hlogs Hh Hroom HTx.
  by destruct (commit_inv _ _ _ _ _ _ _ _ _ _ Hlogs Hh Hroom HTx) as (pt&_&_&_&_&_&_&_&_&_&_&Hspec).
Qed.


(** Modseqs identify what changed (CONDSTORE's CHANGEDSINCE): after a
    commit every message row either is exactly the row it was, or carries a
    modseq greater than the old head and at most the new one. *)
Theorem commit_modseqs a now ops d b h0 changes head d' b' k m :
  logs_wf d -> head_of a d = Some h0 -> h0 + op_positions * Z.of_nat (length ops) <= max_int64 ->
  Tx a (run_ops a now ops) d b = (Ok (tt, changes, head), d', b') ->
  db_messages d' !! k = Some m ->
  db_messages d !! k = Some m \/ h0 < m_ModSeq m <= head.
Proof. intros Hlogs Hh Hroom HTx Hm. by apply (commit_stamps _ _ _ _ _ _ _ _ _ _ Hlogs Hh Hroom HTx). Qed.

End Theorems.

(** ** Witnesses: the theorems at a delivery into Alice's mailbox *)

Lemma system_consistent_witness : reachable true demo_db1 demo_blobs1 /\ db_wf demo_db1.
Proof.
  assert (R : reachable true demo_db1 demo_blobs1).
  { eapply (reach_step true 7 demo_db no_files); [apply reach_init, demo_provisioned|].
    eapply (step_commit true 7 alice deliver_ops demo_db no_files 0); [reflexivity|vm_compute; discriminate| |
      apply ran_ok, deliver_commits].
    eapply runs_mono; [|exact deliver_runs]. intros o s Ho _. exact Ho. }
  split; [exact R|]. exact (proj2 (proj2 (system_consistent _ _ _ R)) eq_refl).
Defined.

Lemma replay_catches_up_witness :
  exists seqs, replayWithSeqs 1 0 demo_db2
    = Ok (seqs, published alice deliver_ops demo_db no_files, default 0 (last seqs)).
Proof.
  destruct (replay_catches_up alice demo_db (published alice deliver_ops demo_db no_files ++ [])
              demo_db2 0) as (seqs & Hr & _).
  - apply provisioned_wf, demo_provisioned.
  - reflexivity.
  - eapply (hist_own alice 7 deliver_ops demo_db no_files 0); [reflexivity|vm_compute; discriminate|
      apply ran_ok, deliver_commits|].
    eapply (hist_other alice 7 bob bob_ops demo_db1 demo_blobs1 0); [discriminate|vm_compute; reflexivity|
      vm_compute; discriminate|apply ran_ok; vm_compute; reflexivity|apply hist_refl].
  - vm_compute. reflexivity.
  - exists seqs. rewrite app_nil_r in Hr. exact Hr.
Defined.

Lemma commit_publishes_witness :
  commit_spec alice demo_db demo_db1 0 4 (published alice deliver_ops demo_db no_files).
Proof.
  apply (commit_publishes alice 7 deliver_ops demo_db no_files 0 _ 4 demo_db1 demo_blobs1);
    [apply provisioned_wf, demo_provisioned|reflexivity|vm_compute; discriminate|].
  apply (ran_ok alice deliver_ops demo_db no_files), deliver_commits.
Defined.

(** *** Stale rows *)

Lemma any_runs acct now ops pt : (run_ops acct now ops pt).1 = Ok tt ->
  runs_with acct now (fun o s => false = true -> op_pre acct o s) ops pt (run_ops acct now ops pt).2.
Proof.
  revert pt. induction ops as [|o ops IH]; intros pt; [intros _; apply runs_nil|].
  unfold run_ops in *. cbn [miter]. unfold mbind_st. destruct (run_op acct now o pt) as [[[]|e] pt1] eqn:E; [|done].
  intros Hok. eapply runs_cons; [done|exact E|by apply IH].
Qed.


Lemma demo_db2_reachable : reachable false demo_db2 (blobs_after bob bob_ops demo_db1 demo_blobs1).
Proof.
  eapply (reach_step false 7 demo_db1 demo_blobs1).
  - eapply (reach_step false 7 demo_db no_files); [apply reach_init, demo_provisioned|].
    eapply (step_commit false 7 alice deliver_ops demo_db no_files 0); [reflexivity|vm_compute; discriminate| |
      apply ran_ok, deliver_commits]. apply any_runs. vm_compute. reflexivity.
  - eapply (step_commit false 7 bob bob_ops demo_db1 demo_blobs1 0); [vm_compute; reflexivity|vm_compute; discriminate| |
      apply ran_ok; vm_compute; reflexivity]. apply any_runs. vm_compute. reflexivity.
Qed.

(** What careful transactions are for: a message marked as read and then removed by the row read
    before - one JMAP patch of keywords and mailboxes - leaves its empty mailbox with minus one
    unseen message. *)
Example stale_remove_drifts : exists b box, reachable false demo_db4 b /\
  db_mailboxes demo_db4 !! 1 = Some box /\ c_Unseen (mb_Counts box) = -1 /\
  c_Unseen (counts_of 1 (db_messages demo_db4)) = 0.
Proof.
  destruct (db_mailboxes demo_db4 !! 1) as [box|] eqn:Hbox; [|vm_compute in Hbox; discriminate].
  eexists _, box. split; [|split; [done|split]].
  - eapply (reach_step false 7 demo_db2); [apply demo_db2_reachable|].
    eapply (step_commit false 7 alice stale_ops demo_db2 _ 4); [vm_compute; reflexivity|vm_compute; discriminate| |
      apply ran_ok; vm_compute; reflexivity]. apply any_runs. vm_compute. reflexivity.
  - enough (Hc : c_Unseen (mb_Counts (default box (db_mailboxes demo_db4 !! 1))) = -1) by (by rewrite Hbox in Hc).
    vm_compute. reflexivity.
  - vm_compute. reflexivity.
Qed.




Lemma commit_modseqs_witness :
  exists m, db_messages demo_db1 !! 1 = Some m /\
    (db_messages demo_db !! 1 = Some m \/ 0 < m_ModSeq m <= 4).
Proof.
  destruct (db_messages demo_db1 !! 1) as [m|] eqn:Hm; [|vm_compute in Hm; discriminate].
  exists m. split; [reflexivity|].
  eapply (commit_modseqs alice 7 deliver_ops demo_db no_files 0);
    [apply provisioned_wf, demo_provisioned|reflexivity|vm_compute; discriminate| |exact Hm].
  apply (ran_ok alice deliver_ops demo_db no_files), deliver_commits.
Defined.
