(* ===== verification/MessageSpec.v ===== *)
(** * What delivering, copying, flagging and expunging a message guarantee

    Per-operation theorems over the message operations, from the effects of
    [KernelInv] and [KernelFlags]. *)

From S2P Require Import Prelude GoStrings Shapes Changes Blob Database Tx Mailboxes Messages KernelInv KernelFlags Kernel KernelTx KernelDemo KernelSpec.

Local Open Scope go_scope.

Section MessageLemmas.
Context `{BlobOps} `{!BlobLaws}.
Variable a : account.
Variable now : Z.

Lemma returning_changes_inv {A} (m : M A) pt x cs pt' :
  returning_changes m pt = (Ok (x, cs), pt') ->
  m pt = (Ok x, pt') /\ cs = drop (length (pt_changes pt)) (pt_changes pt').
Proof.
  unfold returning_changes, mbind_st, mget. destruct (m pt) as [[y|e] pt1]; [|done].
  intros [= <- <- <-]. done.
Qed.

(** A delivered message: the row, its mailbox and its effect. *)
Lemma MessageAdd_row mb m body e pt m' cs pt' :
  body_fits body (m_MsgPrefix m) ->
  MessageAdd a now mb m body e pt = (Ok (m', cs), pt') ->
  exists row, db_messages (pt_db pt') !! m_ID m' = Some row /\
    add_effect a (mb_ID mb) row (pt_db pt) (pt_db pt') /\ stored_as a m body e row m' pt pt'.
Proof.
  intros Hfit Hadd. apply returning_changes_inv in Hadd as [Hadd _].
  destruct (wp_run _ _ _ _ _ (message_add_stored a now (mb_ID mb) m body e pt Hfit) Hadd)
    as (row & Hrow & Hnew & Hst).
  destruct (wp_run _ _ _ _ _ (message_add_effect a now (mb_ID mb) m body e pt) Hadd) as (row' & Heff & _).
  exists row. split; [done|]. split; [|done].
  rewrite (ae_messages _ _ _ _ _ Heff), lookup_insert in Hrow. case_decide; [|congruence].
  by injection Hrow as <-.
Qed.

(** *** Quota scopes *)

Lemma upsert_quota_bytes sc dc ds d d' sc' :
  upsert_quota sc dc ds d = Ok d' -> is_i64 ds = true ->
  bytes_used sc' d' = bytes_used sc' d + (if decide (sc' = sc) then ds else 0) /\
  is_i64 (bytes_used sc d') = true.
Proof.
  intros E Hds. unfold upsert_quota, bytes_used in *.
  destruct (db_quota d !! sc) as [[bytes cnt]|] eqn:Hq.
  - destruct (bigint (bytes + ds)) as [b1|] eqn:Eb; [|done]. simpl in E.
    destruct (bigint (cnt + dc)) as [c1|] eqn:Ec; [|done]. injection E as <-.
    apply bigint_ok in Eb as [-> Hb]. simpl. rewrite lookup_insert_eq. split; [|done].
    rewrite lookup_insert. destruct (decide (sc' = sc)) as [->|Hne].
    + rewrite decide_True by done. by rewrite Hq.
    + rewrite decide_False by congruence. lia.
  - injection E as <-. simpl. rewrite lookup_insert_eq. split; [|done].
    rewrite lookup_insert. destruct (decide (sc' = sc)) as [->|Hne].
    + rewrite decide_True by done. by rewrite Hq.
    + rewrite decide_False by congruence. lia.
Qed.

(** The usage of a scope a delivery charges: grown by the size, in range. *)
Definition charged (sc : Z * Z) (size : Z) (d d' : DB) : Prop :=
  bytes_used sc d' = bytes_used sc d + size /\ is_i64 (bytes_used sc d + size) = true.

Lemma bumpQuota_charged dc ds pt :
  is_i64 ds = true ->
  wp (bumpQuota a dc ds) pt (fun _ pt' =>
    charged (1, acc_id a) ds (pt_db pt) (pt_db pt') /\ charged (0, acc_tenantID a) ds (pt_db pt) (pt_db pt')).
Proof.
  intros Hds. unfold bumpQuota. apply wp_bind, wp_exec. intros d1 _ E1. apply wp_exec. intros d2 _ E2.
  simpl in *. unfold charged.
  destruct (upsert_quota_bytes _ _ _ _ _ (1, acc_id a) E1 Hds) as [A1 A2].
  destruct (upsert_quota_bytes _ _ _ _ _ (0, acc_tenantID a) E1 Hds) as [B1 _].
  destruct (upsert_quota_bytes _ _ _ _ _ (1, acc_id a) E2 Hds) as [C1 _].
  destruct (upsert_quota_bytes _ _ _ _ _ (0, acc_tenantID a) E2 Hds) as [D1 D2].
  rewrite decide_True in A1 by done. rewrite decide_True in D1 by done.
  rewrite decide_False in B1 by done. rewrite decide_False in C1 by done.
  rewrite Z.add_0_r in B1, C1. rewrite A1 in A2. rewrite D1, B1 in D2.
  split; split; [lia|exact A2|lia|exact D2].
Qed.

Lemma quota_frames d d' : db_quota d' = db_quota d -> forall sc, bytes_used sc d' = bytes_used sc d.
Proof. intros E sc. unfold bytes_used. by rewrite E. Qed.

Lemma charged_eq sc n d1 d2 d1' d2' :
  (forall sc, bytes_used sc d1' = bytes_used sc d1) -> (forall sc, bytes_used sc d2' = bytes_used sc d2) ->
  charged sc n d1 d2 -> charged sc n d1' d2'.
Proof. intros E1 E2. unfold charged. by rewrite E1, E2. Qed.

Lemma message_add_charged mbID m body e pt :
  body_fits body (m_MsgPrefix m) ->
  wp (message_add a now mbID m body e) pt (fun m' pt' =>
    charged (1, acc_id a) (m_Size m') (pt_db pt) (pt_db pt') /\
    charged (0, acc_tenantID a) (m_Size m') (pt_db pt) (pt_db pt')).
Proof.
  intros Hfit. unfold message_add. apply wp_bind, wp_read. intros q _. apply wp_bind, wp_guard. intros _.
  apply wp_bind, blob_put_wp. intros ref n data b' Hdata Hput. pose proof (put_size _ _ _ _ _ _ Hput) as ->.
  specialize (Hfit data Hdata).
  apply wp_bind, wp_returning. intros uid d1 _ E1. apply wp_bind, wp_next. intros pt2 Hdb2 _ _ _.
  apply wp_bind, wp_returning. intros row d3 _ E3.
  apply wp_bind, wp_bind, wp_returning. intros oc d4 _ E4. apply wp_ret.
  apply wp_bind. eapply wp_mono; [apply bumpQuota_charged|].
  { apply andb_true_intro. pose proof (i64_range (Z.of_nat (String.length data) + Z.of_nat (String.length (m_MsgPrefix m)))).
    simpl. split; apply Z.leb_le; lia. }
  intros [] pt5 [C1 C2]. apply wp_bind, wp_record. intros pt6 Hdb6 _ _ _. apply wp_ret.
  assert (Hd4 : forall sc, bytes_used sc (pt_db pt) = bytes_used sc d4).
  { intros sc. apply update_counts_shift in E4 as (_ & _ & _ & _ & E4).
    apply insert_message_ok in E3 as (_&_&_&_&_&_&_&_&_&_&_&->). simpl in *. rewrite Hdb2 in E4. simpl in E4.
    symmetry. rewrite (quota_frames _ _ E4). apply quota_frames.
    unfold alloc_uid in E1. destruct (db_mailboxes (pt_db pt) !! mbID); [|done].
    destruct (bigint _); [|done]. by injection E1 as _ <-. }
  rewrite Hdb6. split; (eapply charged_eq; [exact Hd4|done|]); assumption.
Qed.

(** What the quota check lets through. *)
Lemma check_quota_true lr sc size d lim :
  check_quota lr sc size d = Ok (true, lim) ->
  forall l, lr = Some (Some l) -> l <> 0 -> i64 (bytes_used sc d + size) <= l.
Proof.
  unfold check_quota. intros E l -> Hl. destruct (Z.eqb_spec l 0); [done|]. injection E as E _. by b2p.
Qed.

Lemma CanAdd_true size pt lim pt' :
  CanAddMessageSize a size pt = (Ok (true, lim), pt') ->
  (forall row l, db_accounts (pt_db pt) !! acc_id a = Some row -> ar_quota_bytes row = Some l -> l <> 0 ->
     i64 (bytes_used (1, acc_id a) (pt_db pt) + size) <= l) /\
  (forall l, db_tenants (pt_db pt) !! acc_tenantID a = Some (Some l) -> l <> 0 ->
     i64 (bytes_used (0, acc_tenantID a) (pt_db pt) + size) <= l).
Proof.
  unfold CanAddMessageSize, sql_read. intros [= E _].
  destruct (check_quota (ar_quota_bytes <$> _) _ _ _) as [[ok1 l1]|] eqn:E1; [|done]. simpl in E.
  destruct ok1; [|done]. simpl in E.
  destruct (check_quota (db_tenants _ !! _) _ _ _) as [[ok2 l2]|] eqn:E2; [|done]. simpl in E.
  destruct ok2; [|done]. split.
  - intros row l Hrow Hq Hl. eapply check_quota_true; [exact E1| |done]. by rewrite Hrow, <- Hq.
  - intros l Hrow Hl. by eapply check_quota_true.
Qed.
End MessageLemmas.

(** ** Theorems *)

Section Theorems.
Context `{BlobOps} `{!BlobLaws}.
Variable a : account.
Variable now : Z.

(** UIDs are never reused: a delivered message's UID is greater than the
    UID of every row the mailbox ever held, expunged ones included. *)
Theorem uid_fresh mb m body e pt m' cs pt' :
  db_wf (pt_db pt) -> body_fits body (m_MsgPrefix m) ->
  MessageAdd a now mb m body e pt = (Ok (m', cs), pt') ->
  exists row, db_messages (pt_db pt') !! m_ID m' = Some row /\ m_MailboxID row = mb_ID mb /\
    m_UID m' = u32 (m_UID row) /\
    forall k x, db_messages (pt_db pt) !! k = Some x -> m_MailboxID x = mb_ID mb -> m_UID x < m_UID row.
Proof.
  intros Hwf Hfit Hadd. destruct (MessageAdd_row _ _ _ _ _ _ _ _ _ _ Hfit Hadd) as (row & Hrow & Heff & Hst).
  destruct (ae_exists _ _ _ _ _ Heff) as [b Hb]. destruct (ae_box _ _ _ _ _ Heff b Hb) as (_ & Hu & _).
  pose proof (ae_row _ _ _ _ _ Heff) as (_ & Hmb & _).
  exists row. split_and!; [done|done|by apply Hst|]. intros k x Hx Hm. rewrite Hu.
  eapply (wf_uid _ Hwf); [exact Hx|]. by rewrite Hm.
Qed.

(** Quotas are hard limits: a delivery that succeeds leaves the account's
    and the tenant's stored bytes within their limits, also where the sum in
    the check wraps around. *)
Theorem delivery_within_quota mb m body e pt m' cs pt' row lim tlim data :
  rd_data body = Ok data -> rd_Size body = Z.of_nat (String.length data) ->
  rd_Size body + Z.of_nat (String.length (m_MsgPrefix m)) <= max_int64 ->
  MessageAdd a now mb m body e pt = (Ok (m', cs), pt') ->
  db_accounts (pt_db pt) !! acc_id a = Some row -> ar_quota_bytes row = Some lim -> lim <> 0 ->
  db_tenants (pt_db pt) !! acc_tenantID a = Some (Some tlim) -> tlim <> 0 ->
  bytes_used (1, acc_id a) (pt_db pt') <= lim /\ bytes_used (0, acc_tenantID a) (pt_db pt') <= tlim.
Proof.
  intros Hdata Hsize Hmax Hadd Hrow Hlim Hl Htlim Htl.
  assert (Hfit : body_fits body (m_MsgPrefix m)) by (intros x Hx; rewrite Hdata in Hx; injection Hx as <-; lia).
  destruct (MessageAdd_row _ _ _ _ _ _ _ _ _ _ Hfit Hadd) as (r & _ & _ & [_ (x & Hx & Hsz & _) (_&_&_&_&Hrs) (l & Hq)]).
  apply returning_changes_inv in Hadd as [Hadd _].
  destruct (wp_run _ _ _ _ _ (message_add_charged a now (mb_ID mb) m body e pt Hfit) Hadd) as [[A1 A2] [T1 T2]].
  rewrite Hdata in Hx. injection Hx as <-.
  assert (Hm : i64 (rd_Size body + Z.of_nat (String.length (m_MsgPrefix m))) = m_Size m').
  { rewrite Hrs, Hsz, i64_small by lia. lia. }
  rewrite Hm in Hq. apply CanAdd_true in Hq as [Qa Qt].
  specialize (Qa row lim Hrow Hlim Hl). specialize (Qt tlim Htlim Htl).
  rewrite (i64_id _ A2) in Qa. rewrite (i64_id _ T2) in Qt. lia.
Qed.

(** Round trip of a body: what [MessageReader] yields for a delivered
    message is the generated prefix followed by the body, and the stored size
    is its length, when no other body has the same content reference. *)
Theorem delivered_reads_back mb m body e pt m' cs pt' data :
  rd_data body = Ok data ->
  Z.of_nat (String.length data) + Z.of_nat (String.length (m_MsgPrefix m)) <= max_int64 ->
  MessageAdd a now mb m body e pt = (Ok (m', cs), pt') ->
  (forall old, blob_Open (acc_tenantID a) (m_BlobRef m') (pt_blobs pt) = Ok old -> old = data) ->
  exists row, db_messages (pt_db pt') !! m_ID m' = Some row /\
    rd_data (MessageReader a row (pt_blobs pt')) = Ok (m_MsgPrefix m ++ data)%string /\
    rd_Size (MessageReader a row (pt_blobs pt')) = Z.of_nat (String.length (m_MsgPrefix m ++ data)).
Proof.
  intros Hdata Hmax Hadd Hcol.
  assert (Hfit : body_fits body (m_MsgPrefix m)) by (intros x Hx; rewrite Hdata in Hx; injection Hx as <-; lia).
  destruct (MessageAdd_row _ _ _ _ _ _ _ _ _ _ Hfit Hadd)
    as (row & Hrow & _ & [(_&_&_&Hp) (x & Hx & Hsz & Hput) (_&_&_&Href&_) _]).
  rewrite Hdata in Hx. injection Hx as <-. exists row. split; [done|].
  destruct (put_open _ _ _ _ _ _ Hput) as (data' & Hopen & Hor).
  assert (data' = data) as -> by (destruct Hor as [|Hold]; [done|apply Hcol; by rewrite Href]).
  unfold MessageReader. simpl. rewrite Hopen. simpl. rewrite Hp. split; [done|].
  rewrite Hsz. rewrite string_length_app. lia.
Qed.

(** A sibling is the same email in another mailbox: the new row joins the
    email group of its source and its flags and keywords are the source's. *)
Theorem sibling_same_email src mb pt m' cs pt' :
  body_fits (MessageReader a src (pt_blobs pt)) EmptyString -> EffectiveEmailID src <> 0 ->
  AddSibling a now src mb pt = (Ok (m', cs), pt') ->
  exists row, db_messages (pt_db pt') !! m_ID m' = Some row /\ m_MailboxID row = mb_ID mb /\
    EffectiveEmailID row = EffectiveEmailID src /\ in_email_group a (EffectiveEmailID src) row = true /\
    m_Flags row = m_Flags src /\ m_Keywords row = m_Keywords src.
Proof.
  intros Hfit Hne Hadd. unfold AddSibling in Hadd. mstep Hadd. cbn [mget] in Hadd.
  eapply MessageAdd_row in Hadd as (row & Hrow & Heff & [(Hf & Hk & He & _) _ _ _]); [|exact Hfit].
  pose proof (ae_row _ _ _ _ _ Heff) as (Hacc & Hmb & Hex & _). exists row.
  assert (Heid : EffectiveEmailID row = EffectiveEmailID src).
  { unfold EffectiveEmailID at 1. rewrite He. by apply Z.eqb_neq in Hne as ->. }
  split_and!; try done. unfold in_email_group. rewrite Hacc, Hex, He, !Z.eqb_refl. simpl. apply orb_true_r.
Qed.
End Theorems.


(** ** Witnesses: a second message into the INBOX Alice already has *)

(** The transaction state after the first delivery, the INBOX read in it, and
    a second delivery there. *)
Definition demo_pt : pgTx := start demo_db1 demo_blobs1 4.
Definition demo_inbox : Mailbox :=
  mkMailbox 1 1 0 "INBOX" 1 2 1 1 false no_special_use true [] (mkCounts 1 0 1 1 16).
Definition bye : BlobReader := mkReader 3 (Ok "bye").
Definition second : result (Message * list Change) * pgTx := MessageAdd alice 9 demo_inbox incoming bye 0 demo_pt.
Definition second_message : Message := match second.1 with Ok (m, _) => m | Err _ => incoming end.
Definition second_changes : list Change := match second.1 with Ok (_, cs) => cs | Err _ => [] end.

Lemma second_ok : MessageAdd alice 9 demo_inbox incoming bye 0 demo_pt
  = (Ok (second_message, second_changes), second.2).
Proof.
  assert (Hok : match second.1 with Ok _ => true | Err _ => false end = true) by (vm_compute; reflexivity).
  unfold second_message, second_changes. fold second. destruct second as [[[m cs]|e] pt']; [reflexivity|discriminate].
Qed.

Lemma bye_fits : body_fits bye (m_MsgPrefix incoming).
Proof. intros data [= <-]. vm_compute. discriminate. Qed.

Lemma uid_fresh_witness :
  db_wf (pt_db demo_pt) /\
  exists row, db_messages (pt_db second.2) !! m_ID second_message = Some row /\
    forall k x, db_messages (pt_db demo_pt) !! k = Some x -> m_MailboxID x = 1 -> m_UID x < m_UID row.
Proof.
  assert (W : db_wf (pt_db demo_pt)).
  { exact (commit_wf alice 7 deliver_ops demo_db no_files 0 _ _ _ demo_db1 demo_blobs1
      (proj1 (provisioned_wf _ demo_provisioned)) (proj2 (provisioned_wf _ demo_provisioned))
      eq_refl ltac:(vm_compute; discriminate) deliver_runs (ran_ok _ _ _ _ deliver_commits)). }
  split; [exact W|].
  destruct (uid_fresh alice 9 _ _ _ _ _ _ _ _ W bye_fits second_ok) as (row & Hrow & _ & _ & Hlt).
  exists row. split; [exact Hrow|exact Hlt].
Defined.

Lemma delivery_within_quota_witness :
  bytes_used (1, 1) (pt_db second.2) <= 1000 /\ bytes_used (0, 1) (pt_db second.2) <= 5000.
Proof.
  eapply (delivery_within_quota alice 9 demo_inbox incoming bye 0 demo_pt _ _ _
            (mkAccountRow 1 "alice" 4 3 (Some 1000)) 1000 5000 "bye");
    [reflexivity|reflexivity|vm_compute; discriminate|exact second_ok|vm_compute; reflexivity|reflexivity|
     discriminate|vm_compute; reflexivity|discriminate].
Defined.

Lemma delivered_reads_back_witness :
  exists row, db_messages (pt_db second.2) !! m_ID second_message = Some row /\
    rd_data (MessageReader alice row (pt_blobs second.2)) = Ok "Received: xbye".
Proof.
  destruct (delivered_reads_back alice 9 demo_inbox incoming bye 0 demo_pt second_message second_changes second.2 "bye")
    as (row & Hrow & Hdata & _);
    [reflexivity|vm_compute; discriminate|exact second_ok|vm_compute; discriminate|].
  exists row. split; [exact Hrow|exact Hdata].
Defined.

Definition archive : Mailbox :=
  mkMailbox 2 1 0 "Archive" 2 1 4 4 false no_special_use false [] zero_counts.
Definition first_message : Message := match db_messages demo_db1 !! 1 with Some m => m | None => incoming end.
Definition sibling : result (Message * list Change) * pgTx := AddSibling alice 9 first_message archive demo_pt.

Lemma sibling_same_email_witness :
  exists m row, db_messages (pt_db sibling.2) !! m_ID m = Some row /\ m_MailboxID row = 2 /\
    EffectiveEmailID row = 1.
Proof.
  assert (Hok : match sibling.1 with Ok _ => true | Err _ => false end = true) by (vm_compute; reflexivity).
  destruct sibling as [[[m cs]|e] pt'] eqn:E; [|discriminate].
  destruct (sibling_same_email alice 9 first_message archive demo_pt m cs pt') as (row & H1 & H2 & H3 & _);
    [|vm_compute; discriminate|exact E|].
  - intros data Hd. vm_compute in Hd. injection Hd as <-. vm_compute. discriminate.
  - exists m, row. split; [exact H1|]. split; [exact H2|]. rewrite H3. vm_compute. reflexivity.
Defined.
