(* ===== verification/Queue.v ===== *)
(** * The shared outbound queue (mailflow/queue/queue.go)

    The [queue] table, its append-only [queue_log], the hold rules and the
    per-recipient delivery projection are one state, [QDB]; every database
    transaction of the Go code is one atomic function on it.  Times are
    microseconds (timestamptz), durations are nanoseconds (time.Duration).
    PostgreSQL's [make_interval] over a float of seconds is the parameter
    [secs_interval]; the random factor of [backoffFor] is its argument. *)

From S2P Require Import Prelude GoStrings.

Local Open Scope go_scope.

(** ** Data *)

Record Msg := mkMsg {
  q_ID : Z; q_TenantID : Z; q_AccountID : Z; q_MessageID : Z;
  q_MailFrom : string; q_RcptTo : string; q_BlobRef : string; q_Size : Z;
  q_Attempts : Z; q_MaxAttempts : Z; q_NotBefore : Z; q_RequireTLS : option bool;
  q_Notify : string; q_Ret : string; q_EnvID : string; q_ORcpt : string;
  q_Body8BitMIME : bool; q_SMTPUTF8 : bool; q_CreatedAt : Z }.

(** A row of [queue]. *)
Record QRow := mkQRow {
  r_id : Z; r_tenant_id : Z; r_account_id : Z; r_message_id : option Z;
  r_mail_from : string; r_rcpt_to : string; r_blob_ref : string; r_size : Z;
  r_attempts : Z; r_max_attempts : Z; r_next_attempt : Z;
  r_leased_by : option string; r_lease_until : option Z; r_hold : bool;
  r_last_attempt : option Z; r_last_error : option string; r_delayed_dsn : bool;
  r_require_tls : option bool; r_notify : string; r_ret : string; r_envid : string;
  r_orcpt : string; r_8bitmime : bool; r_smtputf8 : bool; r_created_at : Z }.

Inductive kind : Type :=
| kindEnqueued | kindAttempt | kindDelivered | kindFailed | kindDropped | kindRescheduled
| kindDelayed | kindHeld | kindUnheld | kindScheduled | kindRequireTLS.

(** The payloads the log entries carry. *)
Inductive payload : Type :=
| PNone
| PEnqueued (hold : bool) (size : Z)
| PAttempt (n start duration_ms : Z) (success : bool) (code : Z) (secode error : string)
| PRetired (attempts : Z) (admin : bool)
| PRescheduled (attempt next_in_ms : Z) (error : string)
| PDelayed (attempt : Z)
| POp (op : string) (arg : Z)
| PRequireTLS (v : option bool).

Record QLog := mkQLog {
  l_queue_id : Z; l_tenant_id : Z; l_account_id : Z; l_message_id : option Z; l_rcpt_to : string;
  l_kind : kind; l_payload : payload; l_keep_until : option Z; l_created_at : Z }.

Record HoldRule := mkHoldRule {
  hr_ID : Z; hr_TenantID : Z; hr_AccountID : option Z;
  hr_SenderDomain : option string; hr_RecipientDomain : option string }.

(** A row of [outbound_deliveries]. *)
Record Delivery := mkDelivery {
  d_message_id : Z; d_recipient : string; d_status : string; d_attempt_count : Z;
  d_smtp_code : Z; d_smtp_secode : string; d_reason_code : string; d_detail : string;
  d_last_attempt_at : option Z; d_delivered_at : option Z; d_failed_at : option Z }.

Record QDB := mkQDB {
  q_tenants : gset Z; q_accounts : gset Z;
  q_rows : gmap Z QRow;
  q_log : list QLog;                          (* in id order *)
  q_rules : gmap Z HoldRule;
  q_deliveries : gmap (Z * Z) Delivery;       (* (account_id, queue_id) *)
  q_next_id : Z; q_next_rule : Z }.

Definition set_rows v q := mkQDB (q_tenants q) (q_accounts q) v (q_log q) (q_rules q) (q_deliveries q) (q_next_id q) (q_next_rule q).
Definition set_log v q := mkQDB (q_tenants q) (q_accounts q) (q_rows q) v (q_rules q) (q_deliveries q) (q_next_id q) (q_next_rule q).
Definition set_rules v q := mkQDB (q_tenants q) (q_accounts q) (q_rows q) (q_log q) v (q_deliveries q) (q_next_id q) (q_next_rule q).
Definition set_deliveries v q := mkQDB (q_tenants q) (q_accounts q) (q_rows q) (q_log q) (q_rules q) v (q_next_id q) (q_next_rule q).
Definition set_next_id v q := mkQDB (q_tenants q) (q_accounts q) (q_rows q) (q_log q) (q_rules q) (q_deliveries q) v (q_next_rule q).
Definition set_next_rule v q := mkQDB (q_tenants q) (q_accounts q) (q_rows q) (q_log q) (q_rules q) (q_deliveries q) (q_next_id q) v.

(** The columns each UPDATE assigns. *)
Definition r_set_lease by_ until last r := mkQRow (r_id r) (r_tenant_id r) (r_account_id r) (r_message_id r) (r_mail_from r) (r_rcpt_to r) (r_blob_ref r) (r_size r) (r_attempts r) (r_max_attempts r) (r_next_attempt r) by_ until (r_hold r) last (r_last_error r) (r_delayed_dsn r) (r_require_tls r) (r_notify r) (r_ret r) (r_envid r) (r_orcpt r) (r_8bitmime r) (r_smtputf8 r) (r_created_at r).
Definition r_set_attempts v r := mkQRow (r_id r) (r_tenant_id r) (r_account_id r) (r_message_id r) (r_mail_from r) (r_rcpt_to r) (r_blob_ref r) (r_size r) v (r_max_attempts r) (r_next_attempt r) (r_leased_by r) (r_lease_until r) (r_hold r) (r_last_attempt r) (r_last_error r) (r_delayed_dsn r) (r_require_tls r) (r_notify r) (r_ret r) (r_envid r) (r_orcpt r) (r_8bitmime r) (r_smtputf8 r) (r_created_at r).
Definition r_set_next v r := mkQRow (r_id r) (r_tenant_id r) (r_account_id r) (r_message_id r) (r_mail_from r) (r_rcpt_to r) (r_blob_ref r) (r_size r) (r_attempts r) (r_max_attempts r) v (r_leased_by r) (r_lease_until r) (r_hold r) (r_last_attempt r) (r_last_error r) (r_delayed_dsn r) (r_require_tls r) (r_notify r) (r_ret r) (r_envid r) (r_orcpt r) (r_8bitmime r) (r_smtputf8 r) (r_created_at r).
Definition r_set_hold v r := mkQRow (r_id r) (r_tenant_id r) (r_account_id r) (r_message_id r) (r_mail_from r) (r_rcpt_to r) (r_blob_ref r) (r_size r) (r_attempts r) (r_max_attempts r) (r_next_attempt r) (r_leased_by r) (r_lease_until r) v (r_last_attempt r) (r_last_error r) (r_delayed_dsn r) (r_require_tls r) (r_notify r) (r_ret r) (r_envid r) (r_orcpt r) (r_8bitmime r) (r_smtputf8 r) (r_created_at r).
Definition r_set_error e dd r := mkQRow (r_id r) (r_tenant_id r) (r_account_id r) (r_message_id r) (r_mail_from r) (r_rcpt_to r) (r_blob_ref r) (r_size r) (r_attempts r) (r_max_attempts r) (r_next_attempt r) (r_leased_by r) (r_lease_until r) (r_hold r) (r_last_attempt r) e dd (r_require_tls r) (r_notify r) (r_ret r) (r_envid r) (r_orcpt r) (r_8bitmime r) (r_smtputf8 r) (r_created_at r).
Definition r_set_tls v r := mkQRow (r_id r) (r_tenant_id r) (r_account_id r) (r_message_id r) (r_mail_from r) (r_rcpt_to r) (r_blob_ref r) (r_size r) (r_attempts r) (r_max_attempts r) (r_next_attempt r) (r_leased_by r) (r_lease_until r) (r_hold r) (r_last_attempt r) (r_last_error r) (r_delayed_dsn r) v (r_notify r) (r_ret r) (r_envid r) (r_orcpt r) (r_8bitmime r) (r_smtputf8 r) (r_created_at r).

Definition m_set_id v m := mkMsg v (q_TenantID m) (q_AccountID m) (q_MessageID m) (q_MailFrom m) (q_RcptTo m) (q_BlobRef m) (q_Size m) (q_Attempts m) (q_MaxAttempts m) (q_NotBefore m) (q_RequireTLS m) (q_Notify m) (q_Ret m) (q_EnvID m) (q_ORcpt m) (q_Body8BitMIME m) (q_SMTPUTF8 m) (q_CreatedAt m).
Definition m_set_attempts v m := mkMsg (q_ID m) (q_TenantID m) (q_AccountID m) (q_MessageID m) (q_MailFrom m) (q_RcptTo m) (q_BlobRef m) (q_Size m) v (q_MaxAttempts m) (q_NotBefore m) (q_RequireTLS m) (q_Notify m) (q_Ret m) (q_EnvID m) (q_ORcpt m) (q_Body8BitMIME m) (q_SMTPUTF8 m) (q_CreatedAt m).

(** The Go [Msg] scanned from a row; [COALESCE(message_id,0)]. *)
Definition msg_of (r : QRow) : Msg :=
  mkMsg (r_id r) (r_tenant_id r) (r_account_id r) (default 0 (r_message_id r)) (r_mail_from r)
    (r_rcpt_to r) (r_blob_ref r) (r_size r) (r_attempts r) (r_max_attempts r) 0 (r_require_tls r)
    (r_notify r) (r_ret r) (r_envid r) (r_orcpt r) (r_8bitmime r) (r_smtputf8 r) (r_created_at r).

(** An error a [Deliverer] returns, with the optional interfaces it implements. *)
Record DeliveryError := mkDErr {
  e_text : string; e_result : option (Z * string); e_permanent : option bool; e_reason : option string }.

Record Worker := mkWorker {
  w_NodeID : string; w_Lease : Z; w_Batch : Z; w_Backoff : Z; w_MaxBackoff : Z;
  w_MaxLifetime : Z; w_RetiredKeep : Z; w_DelayThreshold : Z;
  w_OnFailed : bool; w_OnDelayed : bool }.            (* is the hook set? *)

(** The hook a finished attempt fires. *)
Inductive hook : Type :=
| HNone
| HFailed (m : Msg) (cause : option DeliveryError)
| HDelayed (m : Msg).

(** ** Durations *)

Definition second : Z := 1000000000.
Definition minute : Z := 60 * second.
Definition hour : Z := 60 * minute.
Definition defaultMaxBackoff : Z := 4 * hour.
Definition defaultMaxLifetime : Z := 5 * 24 * hour.
Definition defaultRetiredKeep : Z := 7 * 24 * hour.

(** A duration as microseconds, truncated. *)
Definition us (d : Z) : Z := Z.quot d 1000.
Definition millis (d : Z) : Z := Z.quot d 1000000.

Definition int4 (z : Z) : result Z :=
  if (- 2 ^ 31 <=? z) && (z <? 2 ^ 31) then Ok z else Err ErrOutOfRange.

Section Queue.
Variable secs_interval : Z -> Z.        (* make_interval(secs => d.Seconds()) *)

Definition lease (w : Worker) : Z := if w_Lease w =? 0 then 30 * second else w_Lease w.
Definition batch (w : Worker) : Z := if w_Batch w =? 0 then 10 else w_Batch w.
Definition backoff (w : Worker) : Z := if w_Backoff w =? 0 then 5 * second else w_Backoff w.
Definition maxBackoff (w : Worker) : Z := if w_MaxBackoff w <=? 0 then defaultMaxBackoff else w_MaxBackoff w.
Definition maxLifetime (w : Worker) : Z := if w_MaxLifetime w <=? 0 then defaultMaxLifetime else w_MaxLifetime w.
Definition retiredKeep (w : Worker) : Z := if 0 <? w_RetiredKeep w then w_RetiredKeep w else defaultRetiredKeep.

(** The lease less 20%, at least a second less, and the whole lease when that
    would leave nothing. *)
Definition deliveryTimeout (w : Worker) : Z :=
  let l := lease w in
  let margin := Z.quot l 5 in
  let margin := if margin <? second then second else margin in
  if l <=? margin then l else i64 (l - margin).

(** The loop of [backoffFor]: [n] further doublings are allowed. *)
Fixpoint doublings (n : nat) (base maxCap d : Z) : Z :=
  match n with
  | O => d
  | S n =>
      if d <? i64 (512 * base) then
        let d := i64 (d * 2) in
        if (0 <? maxCap) && (maxCap <=? d) then maxCap else doublings n base maxCap d
      else d
  end.

(** [backoffFor] before the jitter: [attempts - 1] iterations at most. *)
Definition backoff_base (base attempts maxCap : Z) : Z :=
  let d := doublings (Z.to_nat (attempts - 1)) base maxCap base in
  if (0 <? maxCap) && (maxCap <? d) then maxCap else d.

Definition backoffFor (jitter : Z -> Z) (base attempts maxCap : Z) : Z :=
  jitter (backoff_base base attempts maxCap).

(** ** The log *)

Definition appendLog (now : Z) (m : Msg) (k : kind) (p : payload) (keep : option Z) (q : QDB) : QDB :=
  set_log (q_log q ++ [mkQLog (q_ID m) (q_TenantID m) (q_AccountID m)
             (if q_MessageID m =? 0 then None else Some (q_MessageID m)) (q_RcptTo m) k p keep now]) q.

(** [UPDATE outbound_deliveries ... WHERE account_id=$1 AND queue_id=$2]. *)
Definition update_delivery (m : Msg) (f : Delivery -> Delivery) (q : QDB) : QDB :=
  if q_MessageID m =? 0 then q
  else set_deliveries (alter f (q_AccountID m, q_ID m) (q_deliveries q)) q.

(** ** Enqueue *)

Definition matchesHoldRule (m : Msg) (q : QDB) : bool :=
  let senderDom := Addr.Domain (q_MailFrom m) in
  let rcptDom := Addr.Domain (q_RcptTo m) in
  existsb (fun hr => (hr_TenantID hr =? q_TenantID m)
      && match hr_AccountID hr with None => true | Some a => a =? q_AccountID m end
      && match hr_SenderDomain hr with None => true | Some d => String.eqb d senderDom end
      && match hr_RecipientDomain hr with None => true | Some d => String.eqb d rcptDom end)
    (snd <$> map_to_list (q_rules q)).

(** Every text parameter of the INSERT is valid for PostgreSQL. *)
Definition msg_text_ok (m : Msg) : bool :=
  forallb text_ok [q_MailFrom m; q_RcptTo m; q_BlobRef m; q_Notify m; q_Ret m; q_EnvID m; q_ORcpt m].

Definition EnqueueTx (now : Z) (m : Msg) (q : QDB) : result (Z * QDB) :=
  let hold := matchesHoldRule m q in
  if negb (msg_text_ok m) then Err ErrDecode
  else if negb (bool_decide (q_TenantID m ∈ q_tenants q) && bool_decide (q_AccountID m ∈ q_accounts q))
  then Err ErrForeignKey
  else
    let id := q_next_id q in
    match q_rows q !! id with
    | Some _ => Err ErrUniqueViolation
    | None =>
        let row := mkQRow id (q_TenantID m) (q_AccountID m)
                     (if q_MessageID m =? 0 then None else Some (q_MessageID m))
                     (q_MailFrom m) (q_RcptTo m) (q_BlobRef m) (q_Size m) 0 10
                     (if q_NotBefore m =? 0 then now else q_NotBefore m) None None hold None None false
                     (q_RequireTLS m) (q_Notify m) (q_Ret m) (q_EnvID m) (q_ORcpt m)
                     (q_Body8BitMIME m) (q_SMTPUTF8 m) now in
        let q := set_next_id (id + 1) (set_rows (<[id := row]> (q_rows q)) q) in
        let m := m_set_id id m in
        let with_delivery :=
          if q_MessageID m =? 0 then Ok q
          else match q_deliveries q !! (q_AccountID m, id) with
               | Some _ => Err ErrUniqueViolation
               | None => Ok (set_deliveries (<[(q_AccountID m, id) :=
                   mkDelivery (q_MessageID m) (q_RcptTo m) "queued" 0 0 EmptyString EmptyString EmptyString
                     None None None]> (q_deliveries q)) q)
               end in
        try! q := with_delivery in
        Ok (id, appendLog now m kindEnqueued (PEnqueued hold (q_Size m)) None q)
    end.

Definition Enqueue (now : Z) (m : Msg) : stM QDB Z := fun q =>
  match EnqueueTx now m q with Ok (id, q') => (Ok id, q') | Err e => (Err e, q) end.

(** ** Claim and lease *)

Definition due (now : Z) (locked : gset Z) (r : QRow) : bool :=
  (r_next_attempt r <=? now) && negb (r_hold r)
  && match r_lease_until r with None => true | Some u => u <? now end
  && negb (bool_decide (r_id r ∈ locked)).

Definition next_le (x y : QRow) : Prop := r_next_attempt x <= r_next_attempt y.
#[global] Instance next_le_dec x y : Decision (next_le x y).
Proof. unfold next_le. apply _. Defined.

(** [SELECT id ... ORDER BY next_attempt FOR UPDATE SKIP LOCKED LIMIT n];
    [locked] are the rows other transactions hold at that moment. *)
Definition claimable (w : Worker) (now : Z) (locked : gset Z) (q : QDB) : list QRow :=
  take (Z.to_nat (batch w))
    (merge_sort next_le (filter (fun r => due now locked r = true) (snd <$> map_to_list (q_rows q)))).

Definition leased (w : Worker) (now : Z) (r : QRow) : QRow :=
  r_set_lease (Some (w_NodeID w)) (Some (now + secs_interval (lease w))) (Some now) r.

Definition claim (w : Worker) (now : Z) (locked : gset Z) (q : QDB) : result (list Msg * QDB) :=
  if batch w <? 0 then Err ErrOutOfRange
  else
    let picked := claimable w now locked q in
    Ok (msg_of <$> (leased w now <$> picked),
        set_rows (foldl (fun rows r => <[r_id r := leased w now r]> rows) (q_rows q) picked) q).

(** Does this node still hold the row's lease at [now]? *)
Definition holds (w : Worker) (now : Z) (r : QRow) : bool :=
  bool_decide (r_leased_by r = Some (w_NodeID w))
  && match r_lease_until r with Some u => now <? u | None => false end.

(** [renewLease]: a fresh lease and one more attempt, or nothing at all. *)
Definition renewLease (w : Worker) (now : Z) (m : Msg) (q : QDB) : result (bool * Z * QDB) :=
  match q_rows q !! q_ID m with
  | Some r =>
      if holds w now r then
        try! n := int4 (r_attempts r + 1) in
        let r' := r_set_attempts n (r_set_lease (r_leased_by r) (Some (now + secs_interval (lease w))) (Some now) r) in
        let q := set_rows (<[q_ID m := r']> (q_rows q)) q in
        Ok (true, n, update_delivery m (fun d =>
              mkDelivery (d_message_id d) (d_recipient d) "delivering" n (d_smtp_code d) (d_smtp_secode d)
                (d_reason_code d) (d_detail d) (Some now) (d_delivered_at d) (d_failed_at d)) q)
      else Ok (false, 0, q)
  | None => Ok (false, 0, q)
  end.

(** ** Results *)

Definition deliveryReasonCode (e : option DeliveryError) (smtpCode : Z) : string :=
  match e with
  | None => EmptyString
  | Some e =>
      let generic := if (500 <=? smtpCode) && (smtpCode <? 600) then "recipient_server_rejected"
                     else "delivery_failed" in
      match e_reason e with
      | Some code => if String.eqb code EmptyString then generic else code
      | None => generic
      end
  end.

Definition error_text (e : option DeliveryError) : string := default EmptyString (e_text <$> e).

Definition recordResult (now : Z) (m : Msg) (start dur : Z) (e : option DeliveryError) (q : QDB) : result QDB :=
  let '(code, secode) := default (0, EmptyString) (mbind e_result e) in
  if has_nul (error_text e) || has_nul secode then Err ErrDecode
  else
    let q := appendLog now m kindAttempt
               (PAttempt (q_Attempts m) start (millis dur) (bool_decide (e = None)) code
                  (coerce_utf8 secode) (coerce_utf8 (error_text e))) None q in
    if negb (q_MessageID m =? 0)
       && negb (text_ok (error_text e) && text_ok secode && text_ok (deliveryReasonCode e code))
    then Err ErrDecode
    else Ok (update_delivery m (fun d =>
           mkDelivery (d_message_id d) (d_recipient d) (d_status d) (q_Attempts m) code secode
             (deliveryReasonCode e code) (error_text e) (Some start) (d_delivered_at d) (d_failed_at d)) q).

(** [retire]: delete the row this node leases and log the terminal fact. *)
Definition retire (w : Worker) (now wall : Z) (m : Msg) (success : bool) (failureReason : string) (q : QDB)
  : bool * QDB :=
  match q_rows q !! q_ID m with
  | Some r =>
      if bool_decide (r_leased_by r = Some (w_NodeID w)) then
        let keep := wall + us (retiredKeep w) in
        let q := set_rows (delete (q_ID m) (q_rows q)) q in
        let q := appendLog now m (if success then kindDelivered else kindFailed)
                   (PRetired (q_Attempts m) false) (Some keep) q in
        (true, update_delivery m (fun d =>
           if success
           then mkDelivery (d_message_id d) (d_recipient d) "delivered" (d_attempt_count d) (d_smtp_code d)
                  (d_smtp_secode d) (d_reason_code d) (d_detail d) (d_last_attempt_at d) (Some now) (d_failed_at d)
           else mkDelivery (d_message_id d) (d_recipient d) "failed" (d_attempt_count d) (d_smtp_code d)
                  (d_smtp_secode d)
                  (if negb (String.eqb failureReason EmptyString) then failureReason
                   else if String.eqb (d_reason_code d) EmptyString then "delivery_failed"
                   else d_reason_code d)
                  (d_detail d) (d_last_attempt_at d) (d_delivered_at d) (Some now)) q)
      else (false, q)
  | None => (false, q)
  end.

(** Is the message given up after this error? *)
Definition is_permanent (e : option DeliveryError) : bool :=
  match mbind e_permanent e with Some b => b | None => false end.
Definition is_aged (w : Worker) (wall : Z) (m : Msg) : bool :=
  negb (q_CreatedAt m =? 0) && (maxLifetime w <=? (wall - q_CreatedAt m) * 1000).
Definition gives_up (w : Worker) (wall : Z) (m : Msg) (e : option DeliveryError) : bool :=
  is_permanent e || is_aged w wall m || (q_MaxAttempts m <=? q_Attempts m).

(** [reschedule]: retire as failed, or release the lease and back off. *)
Definition reschedule (w : Worker) (now wall : Z) (jitter : Z -> Z) (m : Msg) (e : option DeliveryError)
    (q : QDB) : result (hook * QDB) :=
  if gives_up w wall m e then
    let reason := if is_permanent e then EmptyString else "delivery_timed_out" in
    let '(acted, q) := retire w now wall m false reason q in
    Ok (if acted && w_OnFailed w then HFailed m e else HNone, q)
  else
    let bo := backoffFor jitter (backoff w) (q_Attempts m) (maxBackoff w) in
    let wantDelay := w_OnDelayed w && (0 <? w_DelayThreshold w) && (w_DelayThreshold w <=? q_Attempts m) in
    match q_rows q !! q_ID m with
    | Some r =>
        if bool_decide (r_leased_by r = Some (w_NodeID w)) then
          if negb (text_ok (error_text e)) then Err ErrDecode
          else
            let r' := r_set_error (Some (error_text e)) (r_delayed_dsn r || wantDelay)
                        (r_set_next (now + secs_interval bo) (r_set_lease None None (r_last_attempt r) r)) in
            let q := set_rows (<[q_ID m := r']> (q_rows q)) q in
            let q := update_delivery m (fun d =>
                  mkDelivery (d_message_id d) (d_recipient d) "retrying" (q_Attempts m) (d_smtp_code d)
                    (d_smtp_secode d) (d_reason_code d) (d_detail d) (d_last_attempt_at d) (d_delivered_at d)
                    (d_failed_at d)) q in
            let firedDelay := wantDelay && negb (r_delayed_dsn r) in
            let q := appendLog now m kindRescheduled (PRescheduled (q_Attempts m) (millis bo) (error_text e)) None q in
            let q := if firedDelay then appendLog now m kindDelayed (PDelayed (q_Attempts m)) None q else q in
            Ok (if firedDelay then HDelayed m else HNone, q)
        else Ok (HNone, q)
    | None => Ok (HNone, q)
    end.

(** ** One tick of a worker *)

(** What happens around one claimed message: the database time of each
    transaction, the outcome and duration of the delivery, the random factor,
    and the error a fired hook returns. *)
Record Turn := mkTurn {
  t_renew : Z; t_start : Z; t_dur : Z; t_outcome : option DeliveryError;
  t_record : Z; t_finish : Z; t_wall : Z; t_jitter : Z -> Z; t_hook : hook -> option err }.

Definition first_err (e e' : option err) : option err := match e with Some _ => e | None => e' end.

(** The body of [RunOnce]'s loop for one message. *)
Definition process (w : Worker) (turn : Msg -> Turn) (m : Msg) (st : option err * QDB) : option err * QDB :=
  let '(firstErr, q) := st in
  let t := turn m in
  match renewLease w (t_renew t) m q with
  | Err e => (first_err firstErr (Some e), q)
  | Ok (held, attempts, q) =>
      if negb held then (firstErr, q)
      else
        let m := m_set_attempts attempts m in
        let '(firstErr, q) :=
          match recordResult (t_record t) m (t_start t) (t_dur t) (t_outcome t) q with
          | Ok q => (firstErr, q)
          | Err e => (first_err firstErr (Some e), q)
          end in
        match t_outcome t with
        | None => (firstErr, (retire w (t_finish t) (t_wall t) m true EmptyString q).2)
        | Some _ =>
            match reschedule w (t_finish t) (t_wall t) (t_jitter t) m (t_outcome t) q with
            | Ok (h, q) => (first_err firstErr (match h with HNone => None | _ => t_hook t h end), q)
            | Err e => (first_err firstErr (Some e), q)
            end
        end
  end.

(** [RunOnce]: the number of messages claimed, the first error, the state. *)
Definition RunOnce (w : Worker) (now : Z) (locked : gset Z) (turn : Msg -> Turn) (q : QDB)
  : Z * option err * QDB :=
  match claim w now locked q with
  | Err e => (0, Some e, q)
  | Ok (msgs, q) =>
      let '(firstErr, q) := foldl (fun st m => process w turn m st) (None, q) msgs in
      (Z.of_nat (length msgs), firstErr, q)
  end.

End Queue.
