(* ===== verification/QueueAdmin.v ===== *)
(** * Administration of the outbound queue (mailflow/queue/admin.go)

    Filtered bulk operations (each appends one log entry per row it changes),
    history and retention over the log, depth counts and hold rules. *)

From S2P Require Import Prelude GoStrings Queue.

Local Open Scope go_scope.

Record Filter := mkFilter { f_IDs : list Z; f_TenantID : Z; f_AccountID : Z; f_Recipient : string }.

(** [Filter.whereCol]: the conjunction of the fields that are set. *)
Definition where_ (f : Filter) (id tenant acct : Z) (rcpt : string) : bool :=
  (match f_IDs f with [] => true | ids => bool_decide (id ∈ ids) end)
  && (if f_TenantID f =? 0 then true else tenant =? f_TenantID f)
  && (if f_AccountID f =? 0 then true else acct =? f_AccountID f)
  && (if String.eqb (f_Recipient f) EmptyString then true else String.eqb rcpt (f_Recipient f)).

Definition matches (f : Filter) (r : QRow) : bool :=
  where_ f (r_id r) (r_tenant_id r) (r_account_id r) (r_rcpt_to r).

Definition rows_where (p : QRow -> bool) (q : QDB) : list QRow :=
  filter (fun r => p r = true) (snd <$> map_to_list (q_rows q)).

Definition created_ge (x y : QRow) : Prop := r_created_at y <= r_created_at x.
#[global] Instance created_ge_dec x y : Decision (created_ge x y).
Proof. unfold created_ge. apply _. Defined.

(** [List]: matching rows, most recently created first. *)
Definition List_ (f : Filter) (q : QDB) : list QRow :=
  merge_sort created_ge (rows_where (matches f) q).

(** The [outbound_deliveries] update of a terminal admin action. *)
Definition fail_delivery (now : Z) (d : Delivery) : Delivery :=
  mkDelivery (d_message_id d) (d_recipient d) "failed" (d_attempt_count d) (d_smtp_code d) (d_smtp_secode d)
    (if String.eqb (d_reason_code d) EmptyString then "delivery_failed" else d_reason_code d)
    (d_detail d) (d_last_attempt_at d) (d_delivered_at d) (Some now).

Definition terminal (k : kind) : bool :=
  match k with kindDelivered | kindFailed | kindDropped => true | _ => false end.

(** The loop of [mutateLog] over the affected rows. *)
Definition log_affected (now : Z) (k : kind) (p : payload) (keep : option Z) (rows : list QRow) (q : QDB) : QDB :=
  foldl (fun q r =>
    let m := msg_of r in
    let q := appendLog now m k p keep q in
    if match k with kindFailed | kindDropped => true | _ => false end
    then update_delivery m (fail_delivery now) q else q) q rows.

(** [mutateLog] with an [UPDATE ... SET g WHERE p RETURNING]. *)
Definition mutate_update (now : Z) (k : kind) (p : payload) (sel : QRow -> bool) (g : QRow -> QRow) (q : QDB)
  : Z * QDB :=
  let rows := rows_where sel q in
  let q := set_rows ((fun r => if sel r then g r else r) <$> q_rows q) q in
  (Z.of_nat (length rows), log_affected now k p None rows q).

(** [mutateLog] with a [DELETE ... WHERE p RETURNING]. *)
Definition mutate_delete (now : Z) (k : kind) (keep : Z) (sel : QRow -> bool) (q : QDB) : Z * QDB :=
  let rows := rows_where sel q in
  let q := set_rows (filter (fun kr : Z * QRow => sel kr.2 = false) (q_rows q)) q in
  (Z.of_nat (length rows), log_affected now k PNone (Some keep) rows q).

Definition unleased (r : QRow) : bool := match r_leased_by r with None => true | Some _ => false end.

Section Admin.
Variable secs_interval : Z -> Z.

Definition Kick (now : Z) (f : Filter) (q : QDB) : Z * QDB :=
  mutate_update now kindScheduled (POp "kick" 0) (fun r => unleased r && matches f r)
    (fun r => r_set_hold false (r_set_next now r)) q.

Definition Schedule (now : Z) (f : Filter) (d : Z) (q : QDB) : Z * QDB :=
  mutate_update now kindScheduled (POp "schedule" d) (fun r => unleased r && matches f r)
    (fun r => r_set_next (r_next_attempt r + secs_interval d) r) q.

Definition ScheduleAt (now : Z) (f : Filter) (t : Z) (q : QDB) : Z * QDB :=
  mutate_update now kindScheduled (POp "schedule-at" t) (fun r => unleased r && matches f r)
    (r_set_next t) q.

Definition RequireTLSSet (now : Z) (f : Filter) (v : option bool) (q : QDB) : Z * QDB :=
  mutate_update now kindRequireTLS (PRequireTLS v) (matches f) (r_set_tls v) q.

Definition HoldSet (now : Z) (f : Filter) (hold : bool) (q : QDB) : Z * QDB :=
  mutate_update now (if hold then kindHeld else kindUnheld) PNone (matches f) (r_set_hold hold) q.

Definition Drop (now wall : Z) (f : Filter) (q : QDB) : Z * QDB :=
  mutate_delete now kindDropped (wall + us defaultRetiredKeep) (matches f) q.

(** One iteration of [Fail]: delete the row and log the terminal fact, unless
    the row is gone by now. *)
Definition fail_one (now keep : Z) (m : Msg) (q : QDB) : bool * QDB :=
  match q_rows q !! q_ID m with
  | None => (false, q)
  | Some _ =>
      let q := set_rows (delete (q_ID m) (q_rows q)) q in
      let q := appendLog now m kindFailed (PRetired (q_Attempts m) true) (Some keep) q in
      (true, update_delivery m (fail_delivery now) q)
  end.

(** [Fail]: [between] is what other sessions do between two iterations. *)
Definition Fail (wall : Z) (f : Filter) (clock : Msg -> Z) (between : Msg -> QDB -> QDB) (q : QDB)
  : Z * list Msg * QDB :=
  let msgs := msg_of <$> rows_where (matches f) q in
  let keep := wall + us defaultRetiredKeep in
  foldl (fun '(n, bounced, q) m =>
    match fail_one (clock m) keep m (between m q) with
    | (true, q) => (n + 1, bounced ++ [m], q)
    | (false, q) => (n, bounced, q)
    end) (0, [], q) msgs.

(** ** History and retention *)

Definition Results (queueID : Z) (q : QDB) : list payload :=
  omap (fun e => if (l_queue_id e =? queueID)
                    && match l_kind e with kindAttempt => true | _ => false end
                 then Some (l_payload e) else None) (q_log q).

Definition log_created_ge (x y : QLog) : Prop := l_created_at y <= l_created_at x.
#[local] Instance log_created_ge_dec x y : Decision (log_created_ge x y).
Proof. unfold log_created_ge. apply _. Defined.

(** [RetiredList]: the terminal entries matching the filter, latest first. *)
Definition RetiredList (f : Filter) (q : QDB) : list QLog :=
  merge_sort log_created_ge
    (filter (fun e => terminal (l_kind e) && where_ f (l_queue_id e) (l_tenant_id e) (l_account_id e) (l_rcpt_to e) = true)
       (q_log q)).

Definition expired (now : Z) (e : QLog) : bool :=
  match l_keep_until e with Some u => u <? now | None => false end.

Definition expired_ids (now : Z) (q : QDB) : list Z :=
  remove_dups (l_queue_id <$> filter (fun e => expired now e = true) (q_log q)).

Definition CleanupRetired (now : Z) (q : QDB) : Z * QDB :=
  let ids := expired_ids now q in
  (Z.of_nat (length ids), set_log (filter (fun e => l_queue_id e ∉ ids) (q_log q)) q).

Record DepthCounts := mkDepth { dc_Total : Z; dc_Due : Z; dc_Held : Z }.

Definition Depth (now : Z) (q : QDB) : DepthCounts :=
  mkDepth (Z.of_nat (size (q_rows q)))
    (Z.of_nat (length (rows_where (fun r => negb (r_hold r) && unleased r && (r_next_attempt r <=? now)) q)))
    (Z.of_nat (length (rows_where r_hold q))).

(** ** Hold rules *)

(** The criteria as the operator gives them: 0 and the empty string are wildcards. *)
Record RuleSpec := mkRuleSpec {
  rs_TenantID : Z; rs_AccountID : Z; rs_SenderDomain : string; rs_RecipientDomain : string }.

(** The WHERE clause of [HoldRuleAdd]'s UPDATE over existing rows. *)
Definition rule_selects (hr : RuleSpec) (r : QRow) : bool :=
  negb (r_hold r) && (r_tenant_id r =? rs_TenantID hr)
  && ((rs_AccountID hr =? 0) || (r_account_id r =? rs_AccountID hr))
  && (String.eqb (rs_SenderDomain hr) EmptyString
      || String.eqb (split_part_2 "@"%char (r_mail_from r)) (rs_SenderDomain hr))
  && (String.eqb (rs_RecipientDomain hr) EmptyString
      || String.eqb (split_part_2 "@"%char (r_rcpt_to r)) (rs_RecipientDomain hr)).

Definition nullif (s : string) : option string := if String.eqb s EmptyString then None else Some s.

Definition HoldRuleAdd (hr : RuleSpec) (q : QDB) : result (Z * Z * QDB) :=
  if negb (text_ok (rs_SenderDomain hr) && text_ok (rs_RecipientDomain hr)) then Err ErrDecode
  else if negb (bool_decide (rs_TenantID hr ∈ q_tenants q)) then Err ErrForeignKey
  else
    let id := q_next_rule q in
    match q_rules q !! id with
    | Some _ => Err ErrUniqueViolation
    | None =>
        let rule := mkHoldRule id (rs_TenantID hr) (if rs_AccountID hr =? 0 then None else Some (rs_AccountID hr))
                      (nullif (rs_SenderDomain hr)) (nullif (rs_RecipientDomain hr)) in
        let rows := rows_where (rule_selects hr) q in
        Ok (id, Z.of_nat (length rows),
            set_rows ((fun r => if rule_selects hr r then r_set_hold true r else r) <$> q_rows q)
              (set_next_rule (id + 1) (set_rules (<[id := rule]> (q_rules q)) q)))
    end.

Definition HoldRuleRemove (id : Z) (q : QDB) : QDB := set_rules (delete id (q_rules q)) q.

Definition rule_le (x y : HoldRule) : Prop := hr_ID x <= hr_ID y.
#[local] Instance rule_le_dec x y : Decision (rule_le x y).
Proof. unfold rule_le. apply _. Defined.

Definition HoldRuleList (tenantID : Z) (q : QDB) : list HoldRule :=
  merge_sort rule_le
    (filter (fun hr => ((tenantID =? 0) || (hr_TenantID hr =? tenantID)) = true)
       (snd <$> map_to_list (q_rules q))).

End Admin.
