(* ===== verification/QueueSteps.v ===== *)
(** * Steps and invariants of the outbound queue

    Several worker nodes and administrators act on one [QDB] in any order; a
    delivery in progress is a [Flight].  The invariants say that a lease
    excludes other nodes and that a message's life ends exactly once. *)

From S2P Require Import Prelude GoStrings Queue QueueAdmin.

(** ** The system *)

(** A delivery a node started after renewing its lease until [fl_until]. *)
Record Flight := mkFlight { fl_node : string; fl_msg : Msg; fl_until : Z }.

Record Sys := mkSys { s_q : QDB; s_now : Z; s_flights : list Flight }.

Section System.
Variable secs_interval : Z -> Z.

(** Administrative operations, as one kind of step. *)
Inductive admin_step (now : Z) : QDB -> QDB -> Prop :=
| ad_kick f q : admin_step now q (Kick now f q).2
| ad_schedule f d q : admin_step now q (Schedule secs_interval now f d q).2
| ad_schedule_at f t q : admin_step now q (ScheduleAt now f t q).2
| ad_tls f v q : admin_step now q (RequireTLSSet now f v q).2
| ad_hold f h q : admin_step now q (HoldSet now f h q).2
| ad_drop wall f q : admin_step now q (Drop now wall f q).2
| ad_fail keep r q : q_rows q !! r_id r = Some r -> admin_step now q (fail_one now keep (msg_of r) q).2
| ad_fail_gone keep m q : q_rows q !! q_ID m = None -> admin_step now q (fail_one now keep m q).2
| ad_cleanup q : admin_step now q (CleanupRetired now q).2
| ad_rule hr id n q q' : HoldRuleAdd hr q = Ok (id, n, q') -> admin_step now q q'
| ad_rule_remove id q : admin_step now q (HoldRuleRemove id q).

(** Is the node idle, that is, not delivering anything? [RunOnce] is sequential
    and node identifiers are unique. *)
Definition idle (w : Worker) (fl : list Flight) : Prop := w_NodeID w ∉ fl_node <$> fl.

Inductive qstep : Sys -> Sys -> Prop :=
| st_tick q now now' fl : now <= now' -> qstep (mkSys q now fl) (mkSys q now' fl)
| st_enqueue m id q q' now fl :
    EnqueueTx now m q = Ok (id, q') -> qstep (mkSys q now fl) (mkSys q' now fl)
| st_claim w locked msgs q q' now fl :
    idle w fl -> claim secs_interval w now locked q = Ok (msgs, q') ->
    qstep (mkSys q now fl) (mkSys q' now fl)
| st_renew w m n q q' now fl :                 (* [m] may come from a stale claim *)
    idle w fl -> q_ID m < q_next_id q -> renewLease secs_interval w now m q = Ok (true, n, q') ->
    qstep (mkSys q now fl)
      (mkSys q' now (mkFlight (w_NodeID w) (m_set_attempts n m) (now + secs_interval (lease w)) :: fl))
| st_record f start dur e q q' now fl :
    f ∈ fl -> recordResult now (fl_msg f) start dur e q = Ok q' ->
    qstep (mkSys q now fl) (mkSys q' now fl)
| st_retire w f wall q now fl1 fl2 :
    fl_node f = w_NodeID w ->
    qstep (mkSys q now (fl1 ++ f :: fl2))
      (mkSys (retire w now wall (fl_msg f) true EmptyString q).2 now (fl1 ++ fl2))
| st_reschedule w f wall jitter e h q q' now fl1 fl2 :
    fl_node f = w_NodeID w ->
    reschedule secs_interval w now wall jitter (fl_msg f) e q = Ok (h, q') ->
    qstep (mkSys q now (fl1 ++ f :: fl2)) (mkSys q' now (fl1 ++ fl2))
| st_crash f q now fl1 fl2 :                   (* the node dies or gives up on the database *)
    qstep (mkSys q now (fl1 ++ f :: fl2)) (mkSys q now (fl1 ++ fl2))
| st_admin q q' now fl : admin_step now q q' -> qstep (mkSys q now fl) (mkSys q' now fl).

(** An empty queue. *)
Definition empty_queue (q : QDB) : Prop := q_rows q = ∅ /\ q_log q = [].

Inductive q_reachable : Sys -> Prop :=
| qr_init q now : empty_queue q -> q_reachable (mkSys q now [])
| qr_step s s' : q_reachable s -> qstep s s' -> q_reachable s'.

(** ** Invariants *)

(** Terminal facts logged about a message. *)
Definition terms (id : Z) (log : list QLog) : nat :=
  length (filter (fun e => l_queue_id e = id /\ terminal (l_kind e) = true) log).

Definition enqueued_fact (id : Z) (e : QLog) : Prop := l_queue_id e = id /\ l_kind e = kindEnqueued.

Record queue_wf (q : QDB) : Prop := {
  qw_key k r : q_rows q !! k = Some r -> r_id r = k /\ k < q_next_id q;
  qw_log e : e ∈ q_log q -> l_queue_id e < q_next_id q;
  qw_keep e : e ∈ q_log q -> l_keep_until e <> None -> terminal (l_kind e) = true;
  qw_live k r : q_rows q !! k = Some r ->
    terms k (q_log q) = 0%nat /\ exists e, e ∈ q_log q /\ enqueued_fact k e;
  qw_once k : (terms k (q_log q) <= 1)%nat;
  qw_ended k e : e ∈ q_log q -> enqueued_fact k e -> q_rows q !! k = None -> terms k (q_log q) = 1%nat }.

(** The flight's lease, as long as it lasts, is in the row. *)
Definition leased_for (f : Flight) (q : QDB) : Prop :=
  forall r, q_rows q !! q_ID (fl_msg f) = Some r ->
    r_leased_by r = Some (fl_node f) /\ exists u, r_lease_until r = Some u /\ fl_until f <= u.

Record flights_wf (q : QDB) (now : Z) (fl : list Flight) : Prop := {
  fw_nodes : NoDup (fl_node <$> fl);
  fw_known f : f ∈ fl -> q_ID (fl_msg f) < q_next_id q;
  fw_lease f : f ∈ fl -> now <= fl_until f -> leased_for f q;
  fw_excl f g : f ∈ fl -> g ∈ fl -> q_ID (fl_msg f) = q_ID (fl_msg g) ->
    now <= fl_until f -> now <= fl_until g -> f = g }.

(** ** What a step may do to the queue *)

(** Nothing ends: rows stay, with their identity; the log only gains facts that
    are neither terminal nor the start of a message. *)
Definition plain_entry (n : Z) (e : QLog) : Prop :=
  l_queue_id e < n /\ terminal (l_kind e) = false /\ l_kind e <> kindEnqueued /\ l_keep_until e = None.

Record touches (q q' : QDB) : Prop := {
  to_rows k : (r_id <$> q_rows q' !! k) = (r_id <$> q_rows q !! k);
  to_log : exists es, q_log q' = q_log q ++ es /\ Forall (plain_entry (q_next_id q)) es;
  to_next : q_next_id q' = q_next_id q }.

(** Rows end, each with one terminal fact. *)
Record ends (ids : list Z) (q q' : QDB) : Prop := {
  en_nodup : NoDup ids;
  en_present k : k ∈ ids -> is_Some (q_rows q !! k);
  en_rows k : q_rows q' !! k = if bool_decide (k ∈ ids) then None else q_rows q !! k;
  en_log : exists es, q_log q' = q_log q ++ es /\ (l_queue_id <$> es) = ids /\
    Forall (fun e => terminal (l_kind e) = true) es;
  en_next : q_next_id q' = q_next_id q }.

Record begins (q q' : QDB) : Prop := {
  be_rows : exists row, r_id row = q_next_id q /\ r_leased_by row = None /\ r_lease_until row = None /\
    q_rows q !! q_next_id q = None /\ q_rows q' = <[q_next_id q := row]> (q_rows q);
  be_log : exists e, q_log q' = q_log q ++ [e] /\ enqueued_fact (q_next_id q) e /\ l_keep_until e = None;
  be_next : q_next_id q' = q_next_id q + 1 }.

Record sweeps (q q' : QDB) : Prop := {
  sw_rows : q_rows q' = q_rows q;
  sw_log : exists ids : list Z, q_log q' = filter (fun e => l_queue_id e ∉ ids) (q_log q) /\
    forall k, k ∈ ids -> exists e, e ∈ q_log q /\ l_queue_id e = k /\ l_keep_until e <> None;
  sw_next : q_next_id q' = q_next_id q }.

End System.

(** ** Lemmas: terminal counts *)

Lemma terms_app k l1 l2 : terms k (l1 ++ l2) = (terms k l1 + terms k l2)%nat.
Proof. unfold terms. by rewrite filter_app, length_app. Qed.

Lemma terms_plain k l : Forall (fun e => terminal (l_kind e) = false) l -> terms k l = 0%nat.
Proof.
  unfold terms. induction 1 as [|e l He _ IH]; [done|]. rewrite filter_cons_False; [done|].
  intros [_ Ht]. congruence.
Qed.

Lemma terms_ended k l :
  NoDup (l_queue_id <$> l) -> Forall (fun e => terminal (l_kind e) = true) l ->
  terms k l = if bool_decide (k ∈ l_queue_id <$> l) then 1%nat else 0%nat.
Proof.
  unfold terms. induction l as [|e l IH]; intros Hnd Ht; [done|].
  rewrite fmap_cons in *. apply NoDup_cons in Hnd as [He Hnd]. inversion Ht; subst.
  destruct (decide (l_queue_id e = k)) as [<-|Hne].
  - rewrite filter_cons_True by done. rewrite bool_decide_eq_true_2 by apply list_elem_of_here.
    simpl. rewrite IH by done. by rewrite bool_decide_eq_false_2.
  - rewrite filter_cons_False by tauto. rewrite IH by done.
    rewrite (bool_decide_ext (k ∈ l_queue_id e :: (l_queue_id <$> l)) (k ∈ l_queue_id <$> l)); [done|].
    rewrite elem_of_cons. split; [by intros [->|]|by right].
Qed.

Lemma terms_sweep k (ids : list Z) l :
  terms k (filter (fun e => l_queue_id e ∉ ids) l) = if bool_decide (k ∈ ids) then 0%nat else terms k l.
Proof.
  unfold terms. induction l as [|e l IH]; [by case_bool_decide|].
  destruct (decide (l_queue_id e ∈ ids)) as [Hin|Hin].
  - rewrite (filter_cons_False (fun e => l_queue_id e ∉ ids)) by tauto. rewrite IH.
    case_bool_decide as Hk; [done|]. rewrite filter_cons_False; [done|]. intros [<- _]. done.
  - rewrite (filter_cons_True (fun e => l_queue_id e ∉ ids)) by done.
    destruct (decide (l_queue_id e = k /\ terminal (l_kind e) = true)) as [[<- Ht]|Hn].
    + rewrite !filter_cons_True by done. simpl. rewrite IH. by rewrite bool_decide_eq_false_2.
    + rewrite !filter_cons_False by done. exact IH.
Qed.

(** ** Preservation of [queue_wf] *)

Lemma wf_touches q q' : touches q q' -> queue_wf q -> queue_wf q'.
Proof.
  intros [Hr (es & Hl & Hes) Hn] [W1 W2 W3 W4 W5 W6].
  assert (Hback : forall k r, q_rows q' !! k = Some r -> exists r0, q_rows q !! k = Some r0 /\ r_id r = r_id r0).
  { intros k r Hk. specialize (Hr k). rewrite Hk in Hr. destruct (q_rows q !! k) as [r0|]; [|done].
    exists r0. split; [done|]. by injection Hr. }
  assert (Hterms : forall k, terms k (q_log q') = terms k (q_log q)).
  { intros k. rewrite Hl, terms_app, (terms_plain k es); [lia|].
    eapply Forall_impl; [exact Hes|]. by intros e (_ & ? & _). }
  assert (Helem : forall e, e ∈ q_log q' -> e ∈ q_log q \/ plain_entry (q_next_id q) e).
  { intros e. rewrite Hl, elem_of_app. intros [|He]; [by left|right]. rewrite Forall_forall in Hes. auto. }
  split; rewrite ?Hn.
  - intros k r Hk. destruct (Hback _ _ Hk) as (r0 & Hk0 & ->). eauto.
  - intros e He. destruct (Helem e He) as [?|(? & _)]; eauto.
  - intros e He Hkeep. destruct (Helem e He) as [?|(_ & _ & _ & ?)]; [eauto|done].
  - intros k r Hk. destruct (Hback _ _ Hk) as (r0 & Hk0 & _). rewrite Hterms.
    destruct (W4 _ _ Hk0) as (? & e & ? & ?). split; [done|]. exists e. rewrite Hl. split; [|done].
    apply elem_of_app. by left.
  - intros k. rewrite Hterms. auto.
  - intros k e He Hf Hk. rewrite Hterms. destruct (Helem e He) as [He'|(_ & _ & Hne & _)].
    + eapply W6; [exact He'|done|]. specialize (Hr k). rewrite Hk in Hr. by destruct (q_rows q !! k).
    + by destruct Hf as [_ ?].
Qed.

Lemma wf_ends ids q q' : ends ids q q' -> queue_wf q -> queue_wf q'.
Proof.
  intros [Hnd Hpres Hrows (es & Hl & Hids & Ht) Hn] [W1 W2 W3 W4 W5 W6].
  assert (Hterms : forall k, terms k (q_log q') = if bool_decide (k ∈ ids) then 1%nat else terms k (q_log q)).
  { intros k. rewrite Hl, terms_app, (terms_ended k es) by (by rewrite ?Hids). rewrite Hids.
    case_bool_decide as Hk; [|lia]. destruct (Hpres k Hk) as [r Hr]. destruct (W4 _ _ Hr) as [-> _]. done. }
  assert (Hlive : forall k r, q_rows q' !! k = Some r -> q_rows q !! k = Some r /\ k ∉ ids).
  { intros k r. rewrite Hrows. case_bool_decide; [done|]. auto. }
  assert (Helem : forall e, e ∈ q_log q' -> e ∈ q_log q \/ (terminal (l_kind e) = true /\ l_queue_id e ∈ ids)).
  { intros e. rewrite Hl, elem_of_app. intros [|He]; [by left|right]. rewrite Forall_forall in Ht.
    split; [auto|]. rewrite <- Hids. by apply list_elem_of_fmap_2. }
  split; rewrite ?Hn.
  - intros k r Hk. destruct (Hlive _ _ Hk). eauto.
  - intros e He. destruct (Helem e He) as [?|[_ Hin]]; [eauto|]. destruct (Hpres _ Hin) as [r Hr].
    by destruct (W1 _ _ Hr).
  - intros e He Hk. destruct (Helem e He) as [?|[? _]]; eauto.
  - intros k r Hk. destruct (Hlive _ _ Hk) as [Hk0 Hni]. rewrite Hterms, bool_decide_eq_false_2 by done.
    destruct (W4 _ _ Hk0) as (? & e & ? & ?). split; [done|]. exists e. rewrite Hl. split; [|done].
    apply elem_of_app. by left.
  - intros k. rewrite Hterms. case_bool_decide; [lia|auto].
  - intros k e He Hf Hk. rewrite Hterms. case_bool_decide as Hin; [done|].
    destruct (Helem e He) as [He'|[Htrm _]]; [|destruct Hf as [_ Hf]; by rewrite Hf in Htrm].
    eapply W6; [exact He'|done|]. rewrite Hrows, bool_decide_eq_false_2 in Hk by done. exact Hk.
Qed.

Lemma wf_begins q q' : begins q q' -> queue_wf q -> queue_wf q'.
Proof.
  intros [(row & Hid & _ & _ & Hfree & Hrows) (e0 & Hl & Hf0 & Hk0) Hn] [W1 W2 W3 W4 W5 W6].
  assert (He0 : terminal (l_kind e0) = false) by (destruct Hf0 as [_ ->]; done).
  assert (Hterms : forall k, terms k (q_log q') = terms k (q_log q)).
  { intros k. rewrite Hl, terms_app, (terms_plain k [e0]); [lia|]. by repeat constructor. }
  assert (Hnone : terms (q_next_id q) (q_log q) = 0%nat).
  { unfold terms. destruct (filter _ (q_log q)) as [|e l] eqn:E; [done|]. exfalso.
    assert (Hin : e ∈ e :: l) by apply list_elem_of_here. rewrite <- E in Hin.
    apply list_elem_of_filter in Hin as [[Hq _] Hin]. specialize (W2 _ Hin). lia. }
  assert (Helem : forall e, e ∈ q_log q' -> e ∈ q_log q \/ e = e0).
  { intros e. rewrite Hl, elem_of_app, list_elem_of_singleton. done. }
  assert (Hsub : forall e, e ∈ q_log q -> e ∈ q_log q').
  { intros e He. rewrite Hl. apply elem_of_app. by left. }
  split; rewrite ?Hn, ?Hrows.
  - intros k r. rewrite lookup_insert. case_decide as Hk; [intros [= <-]; lia|].
    intros Hr. destruct (W1 _ _ Hr). lia.
  - intros e He. destruct (Helem e He) as [He'| ->]; [specialize (W2 _ He'); lia|]. destruct Hf0. lia.
  - intros e He Hkeep. destruct (Helem e He) as [?| ->]; [eauto|done].
  - intros k r. rewrite lookup_insert, Hterms. case_decide as Hk.
    + intros _. subst k. split; [done|]. exists e0. split; [|done]. rewrite Hl. apply elem_of_app. right.
      by apply list_elem_of_singleton.
    + intros Hr. destruct (W4 _ _ Hr) as (? & e & ? & ?). eauto.
  - intros k. by rewrite Hterms.
  - intros k e He Hf. rewrite lookup_insert, Hterms. case_decide as Hk; [done|]. intros Hr.
    destruct (Helem e He) as [?| ->]; [eauto|]. destruct Hf, Hf0. congruence.
Qed.

Lemma wf_sweeps q q' : sweeps q q' -> queue_wf q -> queue_wf q'.
Proof.
  intros [Hrows (ids & Hl & Hids) Hn] [W1 W2 W3 W4 W5 W6].
  assert (Hsub : forall e, e ∈ q_log q' <-> (l_queue_id e ∉ ids) /\ (e ∈ q_log q)).
  { intros e. rewrite Hl. by rewrite list_elem_of_filter. }
  assert (Hterms : forall k, terms k (q_log q') = if bool_decide (k ∈ ids) then 0%nat else terms k (q_log q)).
  { intros k. rewrite Hl. apply terms_sweep. }
  assert (Hlive : forall k r, q_rows q !! k = Some r -> k ∉ ids).
  { intros k r Hr Hin. destruct (Hids k Hin) as (e & He & Hq & Hkeep). specialize (W3 _ He Hkeep).
    destruct (W4 _ _ Hr) as [Hz _]. unfold terms in Hz.
    assert (He' : e ∈ filter (fun e => l_queue_id e = k /\ terminal (l_kind e) = true) (q_log q)).
    { apply list_elem_of_filter. done. }
    apply length_zero_iff_nil in Hz. rewrite Hz in He'. by apply elem_of_nil in He'. }
  split; rewrite ?Hn, ?Hrows; auto.
  - intros e He. destruct (proj1 (Hsub e) He). eauto.
  - intros e He Hkeep. destruct (proj1 (Hsub e) He). eauto.
  - intros k r Hr. rewrite Hterms, bool_decide_eq_false_2 by eauto. destruct (W4 _ _ Hr) as (? & e & ? & Hf).
    split; [done|]. exists e. split; [|done]. apply (proj2 (Hsub e)). split; [|done].
    destruct Hf as [-> _]. eauto.
  - intros k. rewrite Hterms. case_bool_decide; [lia|auto].
  - intros k e He Hf Hr. destruct (proj1 (Hsub e) He) as [Hni He']. rewrite Hterms.
    destruct Hf as [Hq Hk]. rewrite bool_decide_eq_false_2 by (by rewrite <- Hq). eapply W6; [exact He'|split; [exact Hq|exact Hk]|exact Hr].
Qed.

(** ** What each queue operation does

    Every operation of [Queue] and [QueueAdmin] begins a message, touches rows,
    ends rows or sweeps history, and says what it does to the leases. *)


(** Rows other than those in [ids] keep their leases. *)
Definition leases_kept (ids : list Z) (q q' : QDB) : Prop :=
  forall k r', k ∉ ids -> q_rows q' !! k = Some r' ->
    exists r, q_rows q !! k = Some r /\ r_leased_by r' = r_leased_by r /\ r_lease_until r' = r_lease_until r.

Section Steps.
Variable secs_interval : Z -> Z.

Lemma touches_refl q : touches q q.
Proof. split; [done| |done]. exists []. by rewrite app_nil_r. Qed.

Lemma touches_trans q1 q2 q3 : touches q1 q2 -> touches q2 q3 -> touches q1 q3.
Proof.
  intros [A1 (es1 & A2 & A3) A4] [B1 (es2 & B2 & B3) B4]. split; [|exists (es1 ++ es2)|congruence].
  - intros k. by rewrite B1, A1.
  - rewrite B2, A2, app_assoc. split; [done|]. apply Forall_app. rewrite A4 in B3. done.
Qed.

Lemma touches_log q k m p now :
  terminal k = false -> k <> kindEnqueued -> q_ID m < q_next_id q ->
  touches q (appendLog now m k p None q).
Proof. intros. split; [done| |done]. eexists. split; [done|]. by repeat constructor. Qed.

Lemma touches_rows q k r r' : q_rows q !! k = Some r -> r_id r' = r_id r ->
  touches q (set_rows (<[k := r']> (q_rows q)) q).
Proof.
  intros Hk Hr. split; [|exists []; by rewrite app_nil_r|done]. intros j. simpl. rewrite lookup_insert.
  case_decide as Hj; [|done]. subst j. rewrite Hk. simpl. by rewrite Hr.
Qed.

Lemma touches_delivery q m f : touches q (update_delivery m f q).
Proof. unfold update_delivery. destruct (_ =? 0); (split; [done|exists []; by rewrite app_nil_r|done]). Qed.

Lemma update_delivery_rows q m f : q_rows (update_delivery m f q) = q_rows q.
Proof. unfold update_delivery. by destruct (_ =? 0). Qed.
Lemma update_delivery_log q m f : q_log (update_delivery m f q) = q_log q.
Proof. unfold update_delivery. by destruct (_ =? 0). Qed.
Lemma update_delivery_next q m f : q_next_id (update_delivery m f q) = q_next_id q.
Proof. unfold update_delivery. by destruct (_ =? 0). Qed.

Lemma leases_kept_rows ids q q' : q_rows q' = q_rows q -> leases_kept ids q q'.
Proof. intros E k r' _. rewrite E. eauto. Qed.

Ltac begin_with Hfree :=
  split;
  [ eexists; split; [|split; [|split; [|split; [exact Hfree|reflexivity]]]]; reflexivity
  | eexists; split; [reflexivity|]; by split
  | reflexivity ].

Lemma enqueue_begins now m q id q' : EnqueueTx now m q = Ok (id, q') -> begins q q' /\ id = q_next_id q.
Proof.
  unfold EnqueueTx. destruct (negb (msg_text_ok m)); [done|]. destruct (negb (_ && _)); [done|].
  destruct (q_rows q !! q_next_id q) eqn:Hfree; [done|]. cbv zeta.
  destruct (q_MessageID (m_set_id (q_next_id q) m) =? 0) eqn:Em.
  - intros [= <- <-]. split; [|done]. by begin_with Hfree.
  - destruct (q_deliveries _ !! _); [done|]. intros [= <- <-]. split; [|done]. by begin_with Hfree.
Qed.

(** *** Claims *)

Lemma foldl_update_lookup (g : QRow -> QRow) l (rows acc : gmap Z QRow) k :
  (forall r, r ∈ l -> rows !! r_id r = Some r) ->
  foldl (fun t r => <[r_id r := g r]> t) acc l !! k =
    (if bool_decide (k ∈ r_id <$> l) then g <$> rows !! k else acc !! k).
Proof.
  revert acc. induction l as [|r l IH]; intros acc Hl; [done|]. cbn [foldl].
  rewrite IH by (intros; apply Hl; by right). rewrite fmap_cons.
  pose proof (Hl r (list_elem_of_here _ _)) as Hr. destruct (decide (r_id r = k)) as [<-|Hne].
  - rewrite (bool_decide_eq_true_2 (r_id r ∈ r_id r :: _)) by apply list_elem_of_here.
    case_bool_decide; [done|]. by rewrite lookup_insert_eq, Hr.
  - rewrite lookup_insert_ne by done. rewrite (bool_decide_ext (k ∈ r_id r :: (r_id <$> l)) (k ∈ r_id <$> l)); [done|].
    rewrite elem_of_cons. split; [by intros [->|]|by right].
Qed.

Lemma elem_of_take {A} (x : A) n l : x ∈ take n l -> x ∈ l.
Proof. intros H. rewrite <- (take_drop n l). apply elem_of_app. by left. Qed.

Lemma claimable_elem w now locked q r :
  queue_wf q -> r ∈ claimable w now locked q -> q_rows q !! r_id r = Some r /\ due now locked r = true.
Proof.
  intros Hwf H. apply elem_of_take in H. rewrite (merge_sort_Permutation next_le) in H.
  apply list_elem_of_filter in H as [Hd H]. apply list_elem_of_fmap in H as ([k r'] & -> & H).
  apply elem_of_map_to_list in H. simpl in *. destruct (qw_key _ Hwf _ _ H) as [-> _]. done.
Qed.

Lemma claim_rows w now locked q msgs q' k :
  queue_wf q -> claim secs_interval w now locked q = Ok (msgs, q') ->
  q_rows q' !! k = (if bool_decide (k ∈ r_id <$> claimable w now locked q)
                    then leased secs_interval w now <$> q_rows q !! k else q_rows q !! k).
Proof.
  unfold claim. destruct (batch w <? 0); [done|]. intros Hwf [= _ <-]. simpl.
  apply foldl_update_lookup. intros r Hr. by eapply claimable_elem.
Qed.

Lemma claim_touches w now locked q msgs q' :
  queue_wf q -> claim secs_interval w now locked q = Ok (msgs, q') -> touches q q'.
Proof.
  intros Hwf Hc. split.
  - intros k. rewrite (claim_rows _ _ _ _ _ _ k Hwf Hc). case_bool_decide; [|done].
    by destruct (q_rows q !! k).
  - exists []. rewrite app_nil_r. unfold claim in Hc. destruct (batch w <? 0); [done|].
    by injection Hc as _ <-.
  - unfold claim in Hc. destruct (batch w <? 0); [done|]. by injection Hc as _ <-.
Qed.

(** A row whose lease runs is not claimed. *)
Lemma claim_respects w now locked q msgs q' k r u :
  queue_wf q -> claim secs_interval w now locked q = Ok (msgs, q') ->
  q_rows q !! k = Some r -> r_lease_until r = Some u -> now <= u -> q_rows q' !! k = Some r.
Proof.
  intros Hwf Hc Hk Hu Hle. rewrite (claim_rows _ _ _ _ _ _ k Hwf Hc). case_bool_decide as Hin; [|done].
  apply list_elem_of_fmap in Hin as (r' & -> & Hin). destruct (claimable_elem _ _ _ _ _ Hwf Hin) as [Hr' Hd].
  rewrite Hk in Hr'. injection Hr' as <-. unfold due in Hd. rewrite Hu in Hd. b2p. lia.
Qed.

(** *** Renewal *)

Lemma renew_cases w now m q held n q' :
  queue_wf q -> renewLease secs_interval w now m q = Ok (held, n, q') ->
  (held = false /\ q' = q) \/
  (held = true /\ exists r, q_rows q !! q_ID m = Some r /\ holds w now r = true /\ n = r_attempts r + 1 /\
     touches q q' /\
     q_rows q' = <[q_ID m := r_set_attempts n (r_set_lease (r_leased_by r)
                    (Some (now + secs_interval (lease w))) (Some now) r)]> (q_rows q)).
Proof.
  intros Hwf. unfold renewLease. destruct (q_rows q !! q_ID m) as [r|] eqn:Hr; [|intros [= <- <- <-]; auto].
  destruct (holds w now r) eqn:Hh; [|intros [= <- <- <-]; auto].
  unfold int4. destruct (_ && _); [|done]. simpl. intros [= <- <- <-]. right. split; [done|].
  exists r. split_and!; try done; [|by rewrite update_delivery_rows].
  eapply touches_trans; [|apply touches_delivery]. by eapply touches_rows.
Qed.

Lemma holds_true w now r : holds w now r = true ->
  r_leased_by r = Some (w_NodeID w) /\ exists u, r_lease_until r = Some u /\ now < u.
Proof.
  unfold holds. intros H. apply andb_prop in H as [H1 H2]. apply bool_decide_eq_true in H1.
  split; [done|]. destruct (r_lease_until r) as [u|]; [|done]. b2p. eauto.
Qed.

(** *** Results, retirement, rescheduling *)

Lemma record_touches now m start dur e q q' :
  q_ID m < q_next_id q -> recordResult now m start dur e q = Ok q' ->
  touches q q' /\ q_rows q' = q_rows q.
Proof.
  intros Hm. unfold recordResult. destruct (default _ _) as [code secode]. destruct (_ || _); [done|].
  destruct (_ && _); [done|]. intros [= <-]. rewrite update_delivery_rows. split; [|done].
  eapply touches_trans; [|apply touches_delivery]. by apply touches_log.
Qed.

Lemma retire_cases w now wall m success reason q acted q' :
  retire w now wall m success reason q = (acted, q') ->
  (acted = false /\ q' = q /\
     forall r, q_rows q !! q_ID m = Some r -> r_leased_by r <> Some (w_NodeID w)) \/
  (acted = true /\ ends [q_ID m] q q' /\
     exists r, q_rows q !! q_ID m = Some r /\ r_leased_by r = Some (w_NodeID w)).
Proof.
  unfold retire. destruct (q_rows q !! q_ID m) as [r|] eqn:Hr; [|intros [= <- <-]; left; split_and!; done].
  case_bool_decide as Hl; [|intros [= <- <-]; left; split_and!; [done|done|by intros r' [= <-]]].
  intros [= <- <-]. right. split; [done|]. split; [|eauto]. split.
  - apply NoDup_singleton.
  - intros k Hk. apply list_elem_of_singleton in Hk as ->. by rewrite Hr.
  - intros k. rewrite update_delivery_rows. simpl. rewrite lookup_delete.
    destruct (decide (q_ID m = k)) as [<-|Hne].
    + by rewrite bool_decide_eq_true_2 by by apply list_elem_of_singleton.
    + rewrite bool_decide_eq_false_2; [done|]. rewrite list_elem_of_singleton. congruence.
  - eexists. rewrite update_delivery_log. split; [done|]. split; [done|]. by destruct success; repeat constructor.
  - by rewrite update_delivery_next.
Qed.

Lemma reschedule_cases w now wall jitter m e q h q' :
  q_ID m < q_next_id q -> reschedule secs_interval w now wall jitter m e q = Ok (h, q') ->
  (q' = q /\ forall r, q_rows q !! q_ID m = Some r -> r_leased_by r <> Some (w_NodeID w)) \/
  (exists r, q_rows q !! q_ID m = Some r /\ r_leased_by r = Some (w_NodeID w) /\
     (ends [q_ID m] q q' \/
      (touches q q' /\ exists r', q_rows q' = <[q_ID m := r']> (q_rows q) /\
         r_leased_by r' = None /\ r_lease_until r' = None))).
Proof.
  intros Hm. unfold reschedule. destruct (gives_up w wall m e).
  - destruct (retire _ _ _ _ _ _ _) as [acted q1] eqn:E. intros [= _ <-].
    apply retire_cases in E as [(-> & -> & Hn)|(-> & He & r & Hr & Hl)]; [by left|right; eauto 6].
  - destruct (q_rows q !! q_ID m) as [r|] eqn:Hr; [|intros [= _ <-]; left; done].
    case_bool_decide as Hl; [|intros [= _ <-]; left; split; [done|by intros r' [= <-]]].
    destruct (negb (text_ok _)); [done|]. cbv zeta. intros [= _ <-]. right. exists r. split_and!; [done..|].
    right. set (q1 := set_rows _ q). set (q2 := update_delivery _ _ q1).
    assert (Hn : forall a b, q_ID m < q_next_id (appendLog now m a b None q2)).
    { intros. unfold q2. simpl. by rewrite update_delivery_next. }
    assert (T2 : touches q q2).
    { eapply touches_trans; [|apply touches_delivery]. by eapply touches_rows. }
    assert (T3 : touches q (appendLog now m kindRescheduled
       (PRescheduled (q_Attempts m) (millis (backoffFor jitter (backoff w) (q_Attempts m) (maxBackoff w))) (error_text e)) None q2)).
    { eapply touches_trans; [exact T2|]. apply touches_log; [done|done|].
      unfold q2. by rewrite update_delivery_next. }
    split.
    + destruct (_ && negb _); [|exact T3]. eapply touches_trans; [exact T3|]. by apply touches_log.
    + eexists. split; [by destruct (_ && negb _); simpl; unfold q2; rewrite update_delivery_rows|]. done.
Qed.


(** *** Administration *)

Definition entry_for (now : Z) (k : kind) (p : payload) (keep : option Z) (r : QRow) : QLog :=
  let m := msg_of r in
  mkQLog (q_ID m) (q_TenantID m) (q_AccountID m)
    (if q_MessageID m =? 0 then None else Some (q_MessageID m)) (q_RcptTo m) k p keep now.

Lemma log_affected_spec now k p keep rows q :
  let q' := log_affected now k p keep rows q in
  q_log q' = q_log q ++ (entry_for now k p keep <$> rows) /\ q_rows q' = q_rows q /\ q_next_id q' = q_next_id q.
Proof.
  cbv zeta. unfold log_affected. revert q. induction rows as [|r rows IH]; intros q; cbn [foldl].
  - by rewrite app_nil_r.
  - destruct (IH (if match k with kindFailed | kindDropped => true | _ => false end
      then update_delivery (msg_of r) (fail_delivery now) (appendLog now (msg_of r) k p keep q)
      else appendLog now (msg_of r) k p keep q)) as (-> & -> & ->).
    destruct (match k with kindFailed | kindDropped => true | _ => false end);
      rewrite ?update_delivery_log, ?update_delivery_rows, ?update_delivery_next; simpl;
      by rewrite <- app_assoc.
Qed.

Lemma rows_where_elem p q r :
  queue_wf q -> r ∈ rows_where p q <-> q_rows q !! r_id r = Some r /\ p r = true.
Proof.
  intros Hwf. unfold rows_where. rewrite list_elem_of_filter, list_elem_of_fmap. split.
  - intros [Hp ([k r'] & -> & H)]. apply elem_of_map_to_list in H. simpl in *.
    destruct (qw_key _ Hwf _ _ H) as [-> _]. done.
  - intros [Hr Hp]. split; [done|]. exists (r_id r, r). split; [done|]. by apply elem_of_map_to_list.
Qed.

Lemma rows_where_ids p q : queue_wf q -> NoDup (r_id <$> rows_where p q).
Proof.
  intros Hwf. apply NoDup_fmap_2_strong.
  - intros x y Hx Hy Heq. apply (rows_where_elem p q x Hwf) in Hx as [Hx _].
    apply (rows_where_elem p q y Hwf) in Hy as [Hy _]. congruence.
  - apply NoDup_filter. apply NoDup_fmap_2_strong; [|apply NoDup_map_to_list].
    intros [k1 x1] [k2 x2] H1 H2 [= ->]. apply elem_of_map_to_list in H1, H2.
    destruct (qw_key _ Hwf _ _ H1) as [<- _], (qw_key _ Hwf _ _ H2) as [<- _]. done.
Qed.

Lemma update_touches now k p sel g q :
  queue_wf q -> terminal k = false -> k <> kindEnqueued ->
  (forall r, r_id (g r) = r_id r /\ r_leased_by (g r) = r_leased_by r /\ r_lease_until (g r) = r_lease_until r) ->
  touches q (mutate_update now k p sel g q).2 /\ leases_kept [] q (mutate_update now k p sel g q).2.
Proof.
  intros Hwf Hk Hne Hg. unfold mutate_update. cbn [snd].
  set (q1 := set_rows _ q).
  destruct (log_affected_spec now k p None (rows_where sel q) q1) as (Hl & Hr & Hn). split.
  - split; rewrite ?Hr, ?Hn; [|rewrite Hl; eexists; split; [reflexivity|]|done].
    + intros j. simpl. rewrite lookup_fmap. destruct (q_rows q !! j) as [r|]; [|done]. simpl.
      destruct (sel r); [|done]. by destruct (Hg r) as [-> _].
    + apply Forall_fmap, Forall_forall. intros r Hin. apply (rows_where_elem sel q r Hwf) in Hin as [Hin _].
      destruct (qw_key _ Hwf _ _ Hin). by repeat constructor.
  - intros j r' _. rewrite Hr. simpl. rewrite lookup_fmap. destruct (q_rows q !! j) as [r|]; [|done].
    intros [= <-]. exists r. split; [done|]. destruct (sel r); [|done]. by destruct (Hg r) as (_ & -> & ->).
Qed.

Lemma delete_ends now k keep sel q :
  queue_wf q -> terminal k = true ->
  ends (r_id <$> rows_where sel q) q (mutate_delete now k keep sel q).2 /\
  leases_kept [] q (mutate_delete now k keep sel q).2.
Proof.
  intros Hwf Hk. unfold mutate_delete. cbn [snd]. set (q1 := set_rows _ q).
  destruct (log_affected_spec now k PNone (Some keep) (rows_where sel q) q1) as (Hl & Hr & Hn).
  assert (Hlook : forall j, q_rows q1 !! j = if bool_decide (j ∈ r_id <$> rows_where sel q) then None else q_rows q !! j).
  { intros j. simpl. case_bool_decide as Hin.
    - apply list_elem_of_fmap in Hin as (r & -> & Hin). apply (rows_where_elem sel q r Hwf) in Hin as [Hq Hs].
      apply map_lookup_filter_None. right. intros r' Hr'. simpl. congruence.
    - destruct (q_rows q !! j) as [r|] eqn:Hj; [|by apply map_lookup_filter_None; left].
      apply map_lookup_filter_Some. split; [done|]. simpl. destruct (sel r) eqn:Hs; [|done]. exfalso.
      apply Hin. destruct (qw_key _ Hwf _ _ Hj) as [<- _]. apply list_elem_of_fmap_2.
      by apply (rows_where_elem sel q r Hwf). }
  split; [split; rewrite ?Hr, ?Hn|].
  - by apply rows_where_ids.
  - intros j Hj. apply list_elem_of_fmap in Hj as (r & -> & Hin).
    apply (rows_where_elem sel q r Hwf) in Hin as [Hq _]. by rewrite Hq.
  - exact Hlook.
  - rewrite Hl. eexists. split; [reflexivity|]. split; [by rewrite <- list_fmap_compose|].
    apply Forall_fmap, Forall_true. intros r. simpl. by rewrite Hk.
  - done.
  - intros j r' _. rewrite Hr, Hlook. case_bool_decide; [done|]. eauto.
Qed.

Lemma fail_one_ends now keep m q r :
  q_rows q !! q_ID m = Some r -> ends [q_ID m] q (fail_one now keep m q).2 /\ leases_kept [] q (fail_one now keep m q).2.
Proof.
  intros Hr. unfold fail_one. rewrite Hr. cbn [snd]. split; [split|].
  - apply NoDup_singleton.
  - intros k Hk. apply list_elem_of_singleton in Hk as ->. by rewrite Hr.
  - intros k. rewrite update_delivery_rows. simpl. rewrite lookup_delete.
    destruct (decide (q_ID m = k)) as [<-|Hne].
    + by rewrite bool_decide_eq_true_2 by by apply list_elem_of_singleton.
    + rewrite bool_decide_eq_false_2; [done|]. rewrite list_elem_of_singleton. congruence.
  - eexists. rewrite update_delivery_log. split; [done|]. split; [done|]. by repeat constructor.
  - by rewrite update_delivery_next.
  - intros k r' _. rewrite update_delivery_rows. simpl. rewrite lookup_delete. case_decide; [done|]. eauto.
Qed.

Lemma cleanup_sweeps now q : sweeps q (CleanupRetired now q).2.
Proof.
  split; [done| |done]. exists (expired_ids now q). split; [done|]. intros k Hk.
  unfold expired_ids in Hk. apply elem_of_remove_dups, list_elem_of_fmap in Hk as (e & -> & He).
  apply list_elem_of_filter in He as [Hx He]. exists e. split_and!; [done|done|].
  unfold expired in Hx. by destruct (l_keep_until e).
Qed.

Inductive queue_effect (q q' : QDB) : Prop :=
| qe_touch : touches q q' -> queue_effect q q'
| qe_end ids : ends ids q q' -> queue_effect q q'
| qe_begin : begins q q' -> queue_effect q q'
| qe_sweep : sweeps q q' -> queue_effect q q'.

Lemma queue_effect_wf q q' : queue_effect q q' -> queue_wf q -> queue_wf q'.
Proof.
  intros [?|ids ?|?|?]; [by apply wf_touches|by eapply wf_ends|by apply wf_begins|by apply wf_sweeps].
Qed.

Lemma queue_effect_next q q' : queue_effect q q' -> q_next_id q <= q_next_id q'.
Proof.
  intros [[_ _ ->]|ids [_ _ _ _ ->]|[_ _ ->]|[_ _ ->]]; lia.
Qed.

Lemma admin_effect now q q' :
  queue_wf q -> admin_step secs_interval now q q' -> queue_effect q q' /\ leases_kept [] q q'.
Proof.
  intros Hwf Hstep. revert Hwf.
  destruct Hstep as [f q0|f d q0|f t q0|f v q0|f h q0|wall f q0|keep r q0 Hr|keep m q0 Hr|q0|hr id n q0 q1 E|id q0];
    intros Hwf.
  - destruct (update_touches now kindScheduled (POp "kick" 0) (fun r => unleased r && matches f r)
      (fun r => r_set_hold false (r_set_next now r)) q0) as [H1 H2]; try done. split; [by apply qe_touch|done].
  - destruct (update_touches now kindScheduled (POp "schedule" d) (fun r => unleased r && matches f r)
      (fun r => r_set_next (r_next_attempt r + secs_interval d) r) q0) as [H1 H2]; try done.
    split; [by apply qe_touch|done].
  - destruct (update_touches now kindScheduled (POp "schedule-at" t) (fun r => unleased r && matches f r)
      (r_set_next t) q0) as [H1 H2]; try done. split; [by apply qe_touch|done].
  - destruct (update_touches now kindRequireTLS (PRequireTLS v) (matches f) (r_set_tls v) q0) as [H1 H2]; try done.
    split; [by apply qe_touch|done].
  - destruct (update_touches now (if h then kindHeld else kindUnheld) PNone (matches f) (r_set_hold h) q0)
      as [H1 H2]; try (by destruct h). split; [by apply qe_touch|done].
  - destruct (delete_ends now kindDropped (wall + us defaultRetiredKeep) (matches f) q0) as [H1 H2]; try done.
    split; [by eapply qe_end|done].
  - destruct (fail_one_ends now keep (msg_of r) q0 r Hr) as [H1 H2]. split; [by eapply qe_end|done].
  - unfold fail_one. rewrite Hr. split; [apply qe_touch, touches_refl|by apply leases_kept_rows].
  - split; [apply qe_sweep, cleanup_sweeps|by apply leases_kept_rows].
  - unfold HoldRuleAdd in E. destruct (negb _); [done|]. destruct (negb _); [done|].
    destruct (q_rules q0 !! _); [done|]. injection E as _ _ <-. split.
    + apply qe_touch. split; [|exists []; by rewrite app_nil_r|done]. intros k. simpl. rewrite lookup_fmap.
      destruct (q_rows q0 !! k) as [r|]; [|done]. simpl. by destruct (rule_selects hr r).
    + intros k r' _. simpl. rewrite lookup_fmap. destruct (q_rows q0 !! k) as [r|]; [|done].
      intros [= <-]. exists r. by destruct (rule_selects hr r).
  - split; [apply qe_touch; split; [done|exists []; by rewrite app_nil_r|done]|by apply leases_kept_rows].
Qed.

End Steps.
