(* ===== verification/QueueSpec.v ===== *)
(** * What the outbound queue guarantees

    Lease exclusion and exactly-once retirement over all interleavings of
    workers and administrators; the behaviour of claims, fenced writes, retry
    budget, backoff and delivery timeout. *)

From S2P Require Import Prelude GoStrings Queue QueueAdmin QueueSteps.

Local Open Scope go_scope.

(** ** The invariant of the system *)

Section Invariant.
Variable secs_interval : Z -> Z.

Definition sys_wf (s : Sys) : Prop := queue_wf (s_q s) /\ flights_wf (s_q s) (s_now s) (s_flights s).

Lemma flights_keep q q' now fl :
  q_next_id q <= q_next_id q' ->
  (forall f, f ∈ fl -> now <= fl_until f -> leased_for f q -> leased_for f q') ->
  flights_wf q now fl -> flights_wf q' now fl.
Proof.
  intros Hn Hl [F1 F2 F3 F4]. split; auto. intros f Hf. specialize (F2 f Hf). lia.
Qed.

Lemma leased_for_kept f q q' : leases_kept [] q q' -> leased_for f q -> leased_for f q'.
Proof.
  intros Hk Hl r' Hr'. destruct (Hk _ r' ltac:(apply not_elem_of_nil) Hr') as (r & Hr & -> & ->). by apply Hl.
Qed.

Lemma leased_for_touch f q q' k r' :
  q_rows q' = <[k := r']> (q_rows q) -> q_ID (fl_msg f) <> k -> leased_for f q -> leased_for f q'.
Proof. intros E Hne Hl r. rewrite E, lookup_insert_ne by congruence. apply Hl. Qed.

Lemma leased_for_end f q q' ids : ends ids q q' -> leased_for f q -> leased_for f q'.
Proof. intros [_ _ Hrows _ _] Hl r. rewrite Hrows. case_bool_decide; [done|apply Hl]. Qed.

Lemma elem_of_mid {A} (x f : A) l1 l2 : x ∈ l1 ++ l2 -> x ∈ l1 ++ f :: l2.
Proof. rewrite !elem_of_app, elem_of_cons. tauto. Qed.

(** Without [f], nobody else's node is [f]'s. *)
Lemma flights_other q now fl1 f fl2 g :
  flights_wf q now (fl1 ++ f :: fl2) -> g ∈ fl1 ++ fl2 -> fl_node g <> fl_node f.
Proof.
  intros [F1 _ _ _] Hg Heq. rewrite fmap_app, fmap_cons in F1.
  rewrite NoDup_app in F1. destruct F1 as (_ & Hd & H2). apply NoDup_cons in H2 as [Hf _].
  apply elem_of_app in Hg as [Hg|Hg].
  - apply (Hd (fl_node g)); [by apply list_elem_of_fmap_2|]. rewrite Heq. apply list_elem_of_here.
  - apply Hf. rewrite <- Heq. by apply list_elem_of_fmap_2.
Qed.

Lemma flights_drop q now fl1 f fl2 : flights_wf q now (fl1 ++ f :: fl2) -> flights_wf q now (fl1 ++ fl2).
Proof.
  intros [F1 F2 F3 F4]. split; eauto using elem_of_mid.
  rewrite fmap_app, fmap_cons, NoDup_app, NoDup_cons in F1. destruct F1 as (A & B & _ & C).
  rewrite fmap_app, NoDup_app. split_and!; [done| |done]. intros x Hx Hx2. apply (B x Hx).
  by apply list_elem_of_further.
Qed.

(** The end of a flight: the fenced write only concerns its own row. *)
Lemma flights_finish q q' now fl1 f fl2 :
  q_next_id q <= q_next_id q' ->
  (q' = q \/ exists r, q_rows q !! q_ID (fl_msg f) = Some r /\ r_leased_by r = Some (fl_node f) /\
     forall k, k <> q_ID (fl_msg f) -> q_rows q' !! k = q_rows q !! k) ->
  flights_wf q now (fl1 ++ f :: fl2) -> flights_wf q' now (fl1 ++ fl2).
Proof.
  intros Hn Hcase Hwf. destruct Hcase as [->|(r & Hr & Hlr & Hsame)]; [exact (flights_drop _ _ _ _ _ Hwf)|].
  simpl. apply (flights_keep q); [done| |exact (flights_drop _ _ _ _ _ Hwf)]. intros g Hg Hact Hl.
  assert (Hne : q_ID (fl_msg g) <> q_ID (fl_msg f)).
  { intros Heq. destruct (Hl r) as [Hby _]; [by rewrite Heq|]. rewrite Hlr in Hby. injection Hby as Hby.
    by apply (flights_other _ _ _ _ _ _ Hwf Hg). }
  intros r'. rewrite Hsame by done. apply Hl.
Qed.

Lemma retire_finish w now wall f success reason q fl1 fl2 :
  fl_node f = w_NodeID w -> queue_wf q -> flights_wf q now (fl1 ++ f :: fl2) ->
  sys_wf (mkSys (retire w now wall (fl_msg f) success reason q).2 now (fl1 ++ fl2)).
Proof.
  intros Hnode Hq Hf. destruct (retire _ _ _ _ _ _ _) as [acted q'] eqn:E. simpl.
  apply retire_cases in E as [(_ & -> & _)|(_ & He & r & Hr & Hl)]; [split; [exact Hq|exact (flights_drop _ _ _ _ _ Hf)]|].
  split; [by eapply wf_ends|]. simpl. eapply (flights_finish q); [destruct He as [_ _ _ _ ->]; lia| |exact Hf]. right.
  exists r. split_and!; [done|by rewrite Hnode|]. intros k Hk. destruct He as [_ _ -> _ _].
  rewrite bool_decide_eq_false_2; [done|]. by rewrite list_elem_of_singleton.
Qed.

Lemma renew_start w m n q q' now fl :
  queue_wf q -> flights_wf q now fl -> idle w fl -> q_ID m < q_next_id q ->
  renewLease secs_interval w now m q = Ok (true, n, q') ->
  sys_wf (mkSys q' now (mkFlight (w_NodeID w) (m_set_attempts n m) (now + secs_interval (lease w)) :: fl)).
Proof.
  intros Hq Hf Hidle Hm E. apply renew_cases in E as [[? _]|(_ & r & Hr & Hh & _ & Ht & Hrows)]; [done| |done].
  apply holds_true in Hh as (Hby & u & Hu & Hlt). split; [by eapply wf_touches|]. simpl.
  assert (Hother : forall f, f ∈ fl -> now <= fl_until f -> q_ID (fl_msg f) <> q_ID m).
  { intros f Hin Hact Heq. pose proof (fw_lease _ _ _ Hf f Hin Hact r) as Hl. rewrite Heq in Hl.
    destruct (Hl Hr) as [Hby' _]. rewrite Hby in Hby'. injection Hby' as Hby'. apply Hidle.
    rewrite Hby'. by apply list_elem_of_fmap_2. }
  destruct Ht as [_ _ Hnext]. destruct Hf as [F1 F2 F3 F4]. split.
  - rewrite fmap_cons. apply NoDup_cons. done.
  - intros f. rewrite elem_of_cons, Hnext. intros [->|Hin]; [done|auto].
  - intros f. rewrite elem_of_cons. intros [->|Hin] Hact.
    + intros r'. simpl. rewrite Hrows, lookup_insert_eq. intros [= <-]. simpl. split; [done|]. eauto using Z.le_refl.
    + eapply leased_for_touch; [exact Hrows|by apply Hother|]. by apply F3.
  - intros f g. rewrite !elem_of_cons. intros [->|Hin] [->|Hin'] Heq H1 H2; try done; simpl in *.
    + by destruct (Hother g Hin' H2).
    + by destruct (Hother f Hin H1).
    + by apply F4.
Qed.

Lemma claim_step w locked msgs q q' now fl :
  queue_wf q -> flights_wf q now fl -> claim secs_interval w now locked q = Ok (msgs, q') -> sys_wf (mkSys q' now fl).
Proof.
  intros Hq Hf Hc. pose proof (claim_touches _ _ _ _ _ _ _ Hq Hc) as Ht. split; [by eapply wf_touches|].
  simpl. apply (flights_keep q); [destruct Ht as [_ _ ->]; lia| |done]. intros f Hin Hact Hl r' Hr'.
  destruct (q_rows q !! q_ID (fl_msg f)) as [r|] eqn:Hr.
  - destruct (Hl r Hr) as (Hby & u & Hu & Hle).
    rewrite (claim_respects _ _ _ _ _ _ _ _ _ u Hq Hc Hr Hu ltac:(lia)) in Hr'. injection Hr' as <-. eauto.
  - pose proof (to_rows _ _ Ht (q_ID (fl_msg f))) as Hid. by rewrite Hr, Hr' in Hid.
Qed.

Lemma qstep_wf s s' : qstep secs_interval s s' -> sys_wf s -> sys_wf s'.
Proof.
  intros Hs. destruct Hs as [q now now' fl Hle|m id q q' now fl He|w locked msgs q q' now fl Hi Hc
    |w m n q q' now fl Hi Hm Hr|f start dur e q q' now fl Hf Hr|w f wall q now fl1 fl2 Hn
    |w f wall jit e h q q' now fl1 fl2 Hn Hr|f q now fl1 fl2|q q' now fl Ha]; intros [Hq Hfl]; simpl in *.
  - split; [done|]. destruct Hfl as [F1 F2 F3 F4]. split; auto; simpl; intros.
    + apply F3; [done|lia].
    + apply F4; auto; lia.
  - apply enqueue_begins in He as [Hb _]. split; [by eapply wf_begins|]. simpl.
    destruct Hb as [(row & _ & _ & _ & _ & Hrows) _ Hnext].
    simpl. apply (flights_keep q); [lia| |done]. intros f Hf _ Hl. eapply leased_for_touch; [exact Hrows| |done].
    pose proof (fw_known _ _ _ Hfl f Hf). lia.
  - by eapply claim_step.
  - by eapply renew_start.
  - apply record_touches in Hr as [Ht Hrows]; [|by eapply fw_known]. split; [by eapply wf_touches|].
    simpl. apply (flights_keep q); [destruct Ht as [_ _ ->]; lia| |done]. intros g _ _.
    apply leased_for_kept. by apply leases_kept_rows.
  - by apply retire_finish.
  - assert (Hm : q_ID (fl_msg f) < q_next_id q).
    { apply (fw_known _ _ _ Hfl). apply elem_of_app. right. apply list_elem_of_here. }
    apply reschedule_cases in Hr as [(-> & _)|(r & Hr & Hl & Hcase)]; [split; [exact Hq|exact (flights_drop _ _ _ _ _ Hfl)]| |done].
    split; [destruct Hcase as [He|[Ht _]]; [by eapply wf_ends|by eapply wf_touches]|].
    simpl. eapply (flights_finish q); [destruct Hcase as [[_ _ _ _ ->]|[[_ _ ->] _]]; lia| |exact Hfl]. right.
    exists r. split_and!; [done|by rewrite Hn|]. intros k Hk. destruct Hcase as [[_ _ -> _ _]|(_ & r' & -> & _)].
    + rewrite bool_decide_eq_false_2; [done|]. by rewrite list_elem_of_singleton.
    + by rewrite lookup_insert_ne.
  - split; [exact Hq|exact (flights_drop _ _ _ _ _ Hfl)].
  - destruct (admin_effect _ _ _ _ Hq Ha) as [He Hk]. split; [by eapply queue_effect_wf|].
    simpl. apply (flights_keep q); [by apply queue_effect_next| |done]. intros f _ _. by apply leased_for_kept.
Qed.

Lemma q_reachable_wf s : q_reachable secs_interval s -> sys_wf s.
Proof.
  induction 1 as [q now [E1 E2]|s s' _ IH Hs]; [|by eapply qstep_wf]. split; simpl.
  - split; rewrite ?E1, ?E2.
    + intros k r Hk. by rewrite lookup_empty in Hk.
    + intros e He. by apply elem_of_nil in He.
    + intros e He. by apply elem_of_nil in He.
    + intros k r Hk. by rewrite lookup_empty in Hk.
    + intros k. unfold terms. simpl. lia.
    + intros k e He. by apply elem_of_nil in He.
  - split; [constructor|..]; intros f Hf; try by apply elem_of_nil in Hf.
    intros Hg. by apply elem_of_nil in Hg.
Qed.
End Invariant.

(** ** Lemmas: backoff *)

Lemma doublings_step base cap k n :
  0 < base -> 1024 * base <= max_int64 -> 0 <= k <= 9 ->
  doublings (S n) base cap (base * 2 ^ k) =
    if k <? 9 then (if (0 <? cap) && (cap <=? base * 2 ^ (k + 1)) then cap
                    else doublings n base cap (base * 2 ^ (k + 1)))
    else base * 2 ^ k.
Proof.
  intros Hb Hmax Hk. cbn [doublings].
  assert (Hp : 0 < 2 ^ k <= 2 ^ 9) by (split; [apply Z.pow_pos_nonneg; lia|apply Z.pow_le_mono_r; lia]).
  rewrite (i64_small (512 * base)) by lia.
  destruct (Z.ltb_spec k 9) as [Hlt|Hge].
  - assert (2 ^ k <= 2 ^ 8) by (apply Z.pow_le_mono_r; lia).
    assert ((base * 2 ^ k <? 512 * base) = true) as -> by (apply Z.ltb_lt; change (2 ^ 8) with 256 in *; nia).
    assert (Hd : base * 2 ^ k * 2 = base * 2 ^ (k + 1)) by (rewrite Z.pow_add_r by lia; lia).
    rewrite Hd, i64_small; [done|]. change (2 ^ 8) with 256 in *. rewrite <- Hd. split; nia.
  - assert (k = 9) as -> by lia. assert ((base * 2 ^ 9 <? 512 * base) = false) as ->; [|done].
    apply Z.ltb_ge. change (2 ^ 9) with 512. lia.
Qed.

Lemma doublings_formula n base cap k :
  0 < base -> 1024 * base <= max_int64 -> 0 <= k <= 9 ->
  let d := doublings n base cap (base * 2 ^ k) in
  let full := base * 2 ^ Z.min (k + Z.of_nat n) 9 in
  if 0 <? cap then Z.min cap d = Z.min cap full else d = full.
Proof.
  intros Hb Hmax. cbv zeta. revert k. induction n as [|n IH]; intros k Hk.
  - cbn [doublings]. change (Z.of_nat 0) with 0. rewrite Z.add_0_r, (Z.min_l k 9) by lia. by destruct (0 <? cap).
  - rewrite doublings_step by done. destruct (Z.ltb_spec k 9) as [Hlt|Hge].
    + specialize (IH (k + 1) ltac:(lia)).
      replace (k + 1 + Z.of_nat n) with (k + Z.of_nat (S n)) in IH by lia.
      destruct (0 <? cap) eqn:Hcap; simpl; [|exact IH].
      destruct (Z.leb_spec cap (base * 2 ^ (k + 1))) as [Hle|Hgt]; [|exact IH].
      rewrite Z.min_id. symmetry. apply Z.min_l. etransitivity; [exact Hle|].
      apply Z.mul_le_mono_nonneg_l; [lia|]. apply Z.pow_le_mono_r; lia.
    + assert (k = 9) as -> by lia. rewrite (Z.min_r (9 + Z.of_nat (S n)) 9) by lia. by destruct (0 <? cap).
Qed.

(** ** Theorems *)

Section Theorems.
Variable secs_interval : Z -> Z.

(** [C5] Lease exclusion: whatever workers and administrators do in any order,
    two deliveries of the same message whose leases still run are one and the
    same delivery, so no two nodes transmit a message at the same time. *)
Theorem lease_excludes s f g :
  q_reachable secs_interval s -> f ∈ s_flights s -> g ∈ s_flights s ->
  q_ID (fl_msg f) = q_ID (fl_msg g) -> s_now s <= fl_until f -> s_now s <= fl_until g -> f = g.
Proof. intros Hr. destruct (q_reachable_wf _ _ Hr) as [_ Hf]. apply (fw_excl _ _ _ Hf). Qed.

(** [C6] A message ends exactly once: in every reachable state the log holds at
    most one terminal fact (delivered, failed, dropped) per message, none while
    the message is live, and a message whose enqueueing is on record is either
    still live or has exactly one. *)
Theorem retired_exactly_once s id :
  q_reachable secs_interval s ->
  (terms id (q_log (s_q s)) <= 1)%nat /\
  (is_Some (q_rows (s_q s) !! id) -> terms id (q_log (s_q s)) = 0%nat) /\
  (forall e, e ∈ q_log (s_q s) -> enqueued_fact id e ->
     is_Some (q_rows (s_q s) !! id) \/ terms id (q_log (s_q s)) = 1%nat).
Proof.
  intros Hr. destruct (q_reachable_wf _ _ Hr) as [[W1 W2 W3 W4 W5 W6] _]. split_and!; [done| |].
  - intros [r Hk]. by destruct (W4 _ _ Hk).
  - intros e He Hf. destruct (q_rows (s_q s) !! id) as [r|] eqn:Hk; [by left; eauto|right; eauto].
Qed.

(** A claim takes at most a batch of rows, each due, not on hold, not locked
    and with no running lease; it leases them to the node until the end of the
    lease, without counting an attempt, and changes no other row. *)
Theorem claim_spec w now locked q msgs q' :
  queue_wf q -> claim secs_interval w now locked q = Ok (msgs, q') ->
  Z.of_nat (length msgs) <= batch w /\
  (forall m, m ∈ msgs -> exists r, q_rows q !! q_ID m = Some r /\ r_next_attempt r <= now /\
     r_hold r = false /\ (q_ID m ∉ locked) /\ (forall u, r_lease_until r = Some u -> u < now) /\
     q_Attempts m = r_attempts r /\
     q_rows q' !! q_ID m = Some (r_set_lease (Some (w_NodeID w)) (Some (now + secs_interval (lease w))) (Some now) r)) /\
  (forall k, k ∉ q_ID <$> msgs -> q_rows q' !! k = q_rows q !! k).
Proof.
  intros Hwf Hc. pose proof (fun k => claim_rows _ _ _ _ _ _ _ k Hwf Hc) as Hrows.
  unfold claim in Hc. destruct (batch w <? 0) eqn:Hb; [done|]. injection Hc as <- _.
  assert (Hids : q_ID <$> (msg_of <$> (leased secs_interval w now <$> claimable w now locked q))
                 = r_id <$> claimable w now locked q) by by rewrite <- !list_fmap_compose.
  split_and!.
  - rewrite !length_fmap. unfold claimable. rewrite length_take. b2p. lia.
  - intros m Hm. apply list_elem_of_fmap in Hm as (lr & -> & Hlr). apply list_elem_of_fmap in Hlr as (r & -> & Hin).
    destruct (claimable_elem _ _ _ _ _ Hwf Hin) as [Hr Hd]. simpl. exists r. unfold due in Hd. b2p.
    split_and!; try done.
    + intros u Hu. rewrite Hu in *. by b2p.
    + rewrite Hrows, bool_decide_eq_true_2 by (by apply list_elem_of_fmap_2). by rewrite Hr.
  - intros k Hk. rewrite Hids in Hk. by rewrite Hrows, bool_decide_eq_false_2.
Qed.

(** Fencing: a worker whose lease another node took over (or whose row is
    gone) changes nothing: it neither renews, retires nor reschedules. *)
Theorem stale_worker_writes_nothing w now wall jitter m success reason e q :
  (forall r, q_rows q !! q_ID m = Some r -> r_leased_by r <> Some (w_NodeID w)) ->
  renewLease secs_interval w now m q = Ok (false, 0, q) /\
  retire w now wall m success reason q = (false, q) /\
  reschedule secs_interval w now wall jitter m e q = Ok (HNone, q).
Proof.
  intros Hn.
  assert (Hret : forall success reason, retire w now wall m success reason q = (false, q)).
  { intros s r0. unfold retire. destruct (q_rows q !! q_ID m) as [r|] eqn:Hr; [|done].
    by rewrite bool_decide_eq_false_2 by by apply Hn. }
  split_and!; [|apply Hret|].
  - unfold renewLease, holds. destruct (q_rows q !! q_ID m) as [r|] eqn:Hr; [|done].
    by rewrite bool_decide_eq_false_2 by by apply Hn.
  - unfold reschedule. rewrite Hret. destruct (gives_up w wall m e); [done|].
    destruct (q_rows q !! q_ID m) as [r|] eqn:Hr; [|done]. by rewrite bool_decide_eq_false_2 by by apply Hn.
Qed.

(** The retry budget: a rescheduling that keeps the message in the queue
    means the error was not permanent, the message is younger than the maximum
    lifetime and attempts are left; the row is then unleased, carries the error
    and is next due after the backoff. *)
Theorem retry_within_budget w now wall jitter m e q h q' r :
  q_rows q !! q_ID m = Some r -> r_leased_by r = Some (w_NodeID w) ->
  reschedule secs_interval w now wall jitter m e q = Ok (h, q') -> is_Some (q_rows q' !! q_ID m) ->
  is_permanent e = false /\ q_Attempts m < q_MaxAttempts m /\
  (q_CreatedAt m <> 0 -> (wall - q_CreatedAt m) * 1000 < maxLifetime w) /\
  exists r', q_rows q' !! q_ID m = Some r' /\ r_leased_by r' = None /\ r_lease_until r' = None /\
    r_last_error r' = Some (error_text e) /\ r_attempts r' = r_attempts r /\
    r_next_attempt r' = now + secs_interval (backoffFor jitter (backoff w) (q_Attempts m) (maxBackoff w)).
Proof.
  intros Hr Hl. unfold reschedule, gives_up, is_aged.
  destruct (is_permanent e || _ || _) eqn:Hg.
  - destruct (retire _ _ _ _ _ _ _) as [acted q1] eqn:E. intros [= _ <-] [r' Hr'].
    apply retire_cases in E as [(_ & -> & Hn)|(_ & [_ _ Hrows _ _] & _)]; [by destruct (Hn r Hr)|].
    by rewrite Hrows, bool_decide_eq_true_2 in Hr' by (by apply list_elem_of_singleton).
  - rewrite Hr, bool_decide_eq_true_2 by done. destruct (negb (text_ok _)); [done|]. cbv zeta. intros [= _ <-] _.
    apply orb_false_elim in Hg as [Hg Hbudget]. apply orb_false_elim in Hg as [Hp Ha].
    split_and!; [done|by b2p| |].
    + intros Hc. apply Z.eqb_neq in Hc. rewrite Hc in Ha. simpl in Ha. by b2p.
    + eexists. split; [|split_and!].
      * destruct (_ && negb _); simpl; rewrite update_delivery_rows; simpl; apply lookup_insert_eq.
      * reflexivity.
      * reflexivity.
      * reflexivity.
      * reflexivity.
      * reflexivity.
Qed.

(** Backoff: after [attempts] tries the delay is the base doubled once per
    further try, at most nine times, and never above the cap when there is one. *)
Theorem backoff_formula base attempts maxCap :
  0 < base -> 1024 * base <= max_int64 -> 1 <= attempts ->
  backoff_base base attempts maxCap =
    let d := base * 2 ^ Z.min (attempts - 1) 9 in if 0 <? maxCap then Z.min maxCap d else d.
Proof.
  intros Hb Hmax Ha. unfold backoff_base. cbv zeta.
  pose proof (doublings_formula (Z.to_nat (attempts - 1)) base maxCap 0 Hb Hmax ltac:(lia)) as Hf.
  cbv zeta in Hf. rewrite Z.pow_0_r, Z.mul_1_r, Z.add_0_l, Z2Nat.id in Hf by lia.
  destruct (0 <? maxCap); simpl; [|exact Hf].
  destruct (Z.ltb_spec maxCap (doublings (Z.to_nat (attempts - 1)) base maxCap base)); lia.
Qed.

(** A delivery is cut off before its lease ends: the timeout is positive, at
    least a second and a fifth of the lease short of it once the lease exceeds
    a second, and never longer than the lease. *)
Theorem delivery_timeout_bound w :
  0 <= w_Lease w <= max_int64 ->
  0 < deliveryTimeout w <= lease w /\
  (second < lease w -> deliveryTimeout w <= lease w - second /\ 5 * deliveryTimeout w <= 4 * lease w + 4).
Proof.
  intros Hl. unfold deliveryTimeout, lease. cbv zeta.
  set (l := if w_Lease w =? 0 then 30 * second else w_Lease w).
  assert (Hpos : 0 < l <= max_int64).
  { unfold l, second, max_int64 in *. destruct (Z.eqb_spec (w_Lease w) 0); lia. }
  clearbody l. pose proof (Z.quot_rem' l 5) as Hq. pose proof (Z.rem_bound_pos l 5 ltac:(lia) ltac:(lia)) as Hr.
  unfold second in *.
  destruct (Z.ltb_spec (l ÷ 5) 1000000000); destruct (Z.leb_spec l 1000000000) as [|];
    try destruct (Z.leb_spec l (l ÷ 5)); rewrite ?i64_small by lia; try lia.
Qed.
End Theorems.

(** ** A concrete queue for the witnesses *)

Definition demo_interval (d : Z) : Z := Z.quot d 1000.
Definition no_jitter (d : Z) : Z := d.

Definition demo_q0 : QDB := mkQDB {[ 1 ]} {[ 1 ]} ∅ [] ∅ ∅ 1 1.
Definition outgoing : Msg :=
  mkMsg 0 1 1 7 "a@x.org" "b@y.org" "ref" 100 0 0 0 None EmptyString EmptyString EmptyString EmptyString false false 0.
Definition node_a : Worker := mkWorker "a" 0 0 0 0 0 0 0 false false.

Definition demo_q1 : QDB := match EnqueueTx 100 outgoing demo_q0 with Ok (_, q) => q | Err _ => demo_q0 end.
Definition demo_claim := claim demo_interval node_a 200 ∅ demo_q1.
Definition demo_q2 : QDB := match demo_claim with Ok (_, q) => q | Err _ => demo_q1 end.
Definition demo_msg : Msg := match demo_claim with Ok (m :: _, _) => m | _ => outgoing end.
Definition demo_renew := renewLease demo_interval node_a 300 demo_msg demo_q2.
Definition demo_q3 : QDB := match demo_renew with Ok (_, _, q) => q | Err _ => demo_q2 end.
Definition demo_flight : Flight := mkFlight "a" (m_set_attempts 1 demo_msg) (300 + demo_interval (lease node_a)).

Lemma demo_reachable1 : q_reachable demo_interval (mkSys demo_q1 200 []).
Proof.
  eapply qr_step; [|apply (st_tick _ demo_q1 100 200); lia].
  eapply qr_step; [apply (qr_init _ demo_q0 100); by split|].
  apply (st_enqueue _ outgoing 1). vm_compute. reflexivity.
Qed.

Lemma demo_reachable3 : q_reachable demo_interval (mkSys demo_q3 300 [demo_flight]).
Proof.
  eapply qr_step; [eapply qr_step; [eapply qr_step; [apply demo_reachable1|]|]|].
  - apply (st_claim _ node_a ∅ [demo_msg] demo_q1 demo_q2); [by apply not_elem_of_nil|vm_compute; reflexivity].
  - apply (st_tick _ demo_q2 200 300). lia.
  - apply (st_renew _ node_a demo_msg 1 demo_q2 demo_q3); [by apply not_elem_of_nil|vm_compute; reflexivity|
      vm_compute; reflexivity].
Qed.

Lemma lease_excludes_witness :
  demo_flight = mkFlight "a" (m_set_attempts 1 demo_msg) (300 + demo_interval (lease node_a)).
Proof.
  apply (lease_excludes demo_interval (mkSys demo_q3 300 [demo_flight]));
    [exact demo_reachable3|apply list_elem_of_here|apply list_elem_of_here|reflexivity|
     vm_compute; discriminate|vm_compute; discriminate].
Defined.

Lemma retired_exactly_once_witness :
  (terms 1 (q_log (retire node_a 400 400 (fl_msg demo_flight) true EmptyString demo_q3).2) <= 1)%nat.
Proof.
  apply (retired_exactly_once demo_interval
    (mkSys (retire node_a 400 400 (fl_msg demo_flight) true EmptyString demo_q3).2 400 []) 1).
  eapply qr_step; [eapply qr_step; [apply demo_reachable3|apply (st_tick _ demo_q3 300 400); lia]|].
  apply (st_retire _ node_a demo_flight 400 demo_q3 400 [] []). reflexivity.
Defined.

Lemma claim_spec_witness : exists r, q_rows demo_q1 !! 1 = Some r /\ r_hold r = false.
Proof.
  destruct (claim_spec demo_interval node_a 200 ∅ demo_q1 [demo_msg] demo_q2) as (_ & H & _).
  - exact (proj1 (q_reachable_wf _ _ demo_reachable1)).
  - vm_compute. reflexivity.
  - destruct (H demo_msg (list_elem_of_here _ _)) as (r & Hr & _ & Hh & _).
    exists r. split; [|exact Hh]. rewrite <- Hr. vm_compute. reflexivity.
Defined.

Lemma stale_worker_writes_nothing_witness :
  renewLease demo_interval (mkWorker "b" 0 0 0 0 0 0 0 false false) 300 demo_msg demo_q3 = Ok (false, 0, demo_q3).
Proof.
  apply (stale_worker_writes_nothing demo_interval (mkWorker "b" 0 0 0 0 0 0 0 false false) 300 300 no_jitter
    demo_msg false EmptyString None demo_q3).
  intros r Hr. vm_compute in Hr. injection Hr as <-. discriminate.
Defined.

Definition refused : DeliveryError := mkDErr "450 later" (Some (450, "4.2.0")) None None.
Definition demo_resched :=
  reschedule demo_interval node_a 400 400 no_jitter (fl_msg demo_flight) (Some refused) demo_q3.
Definition demo_q4 : QDB := match demo_resched with Ok (_, q) => q | Err _ => demo_q3 end.

Lemma retry_within_budget_witness :
  exists r', q_rows demo_q4 !! 1 = Some r' /\ r_leased_by r' = None /\ r_next_attempt r' = 5000400.
Proof.
  destruct (q_rows demo_q3 !! 1) as [r|] eqn:Hr; [|vm_compute in Hr; discriminate].
  destruct (retry_within_budget demo_interval node_a 400 400 no_jitter (fl_msg demo_flight) (Some refused)
              demo_q3 HNone demo_q4 r) as (_ & _ & _ & r' & Hr' & Hl & _ & _ & _ & Hn).
  - exact Hr.
  - vm_compute in Hr. injection Hr as <-. reflexivity.
  - vm_compute. reflexivity.
  - vm_compute. eexists. reflexivity.
  - exists r'. split; [exact Hr'|]. split; [exact Hl|]. rewrite Hn. vm_compute. reflexivity.
Defined.

Lemma backoff_formula_witness : backoff_base (5 * second) 20 defaultMaxBackoff = 2560 * second.
Proof.
  rewrite (backoff_formula (5 * second) 20 defaultMaxBackoff); [reflexivity|reflexivity|
    vm_compute; discriminate|discriminate].
Defined.

Lemma delivery_timeout_bound_witness : 5 * deliveryTimeout node_a <= 4 * lease node_a + 4.
Proof.
  destruct (delivery_timeout_bound node_a) as [_ H]; [split; vm_compute; discriminate|].
  apply H. reflexivity.
Defined.

(** ** What the budget does not cover *)

(** A node that crashes during its last permitted attempt leaves a row with no
    attempts left; the claim that follows the lease does not look at the budget,
    and the next renewal starts attempt [max_attempts + 1]. *)
Definition last_attempt : QDB :=
  set_rows (r_set_attempts 9 <$> q_rows demo_q2) demo_q2.
Definition after_crash : result (list Msg * QDB) :=
  match renewLease demo_interval node_a 300 demo_msg last_attempt with
  | Ok (_, _, q) => claim demo_interval node_a (300 + 31 * 1000000) ∅ q
  | Err e => Err e
  end.

Example crash_exceeds_budget :
  match after_crash with
  | Ok (m :: _, q) =>
      match renewLease demo_interval node_a (300 + 31 * 1000000) m q with
      | Ok (held, n, _) => held = true /\ n = q_MaxAttempts m + 1
      | Err _ => False
      end
  | _ => False
  end.
Proof. vm_compute. split; reflexivity. Qed.
