(* ===== verification/EmailChanges.v ===== *)
(** * Email/changes over the log (storage/postgres/email_changes.go)

    [EmailChanges] folds the log after a state into the emails created,
    updated and destroyed since, in batches, and says where it stopped. *)

From S2P Require Import Prelude GoStrings Shapes Changes Blob Database Tx Mailboxes Messages KernelInv KernelFlags Kernel KernelDemo.

Local Open Scope go_scope.

Record EmailChangeSet := mkEmailChangeSet {
  es_NewState : Z; es_HasMore : bool; es_Created : list Z; es_Updated : list Z; es_Destroyed : list Z }.

(** [changedEmail]: an email id and whether it existed before the change. *)
Record changedEmail := mkChanged { ce_id : Z; ce_existedBefore : bool }.

Definition emailChangeScanBatch : Z := 256.

Section EmailChanges.
Variable a : account.

Definition loadPersistedChanges (after head limit : Z) (d : DB) : list (Z * LogRow) :=
  take (Z.to_nat limit) (log_rows (acc_id a) (fun seq => (after <? seq) && (seq <=? head)) d).

Definition persistedEmailID (emailID messageID : Z) : Z := if 0 <? emailID then emailID else messageID.

(** [SELECT COALESCE(email_id, id) FROM messages WHERE ...], one row expected. *)
Definition email_id_where (p : Message -> bool) (d : DB) : result Z :=
  match messages_where p d with
  | [] => Err ErrCannotCalculateEmailChanges
  | m :: _ => Ok (EffectiveEmailID m)
  end.

Definition emailIDByMailboxUID (mailboxID uid : Z) (d : DB) : result Z :=
  email_id_where (fun m => (m_AccountID m =? acc_id a) && (m_MailboxID m =? mailboxID) && (m_UID m =? uid)) d.

(** The loop over the removed messages: each email once. *)
Fixpoint removed_emails (msgIDs emailIDs : list Z) (seen : list Z) (d : DB) : result (list changedEmail) :=
  match msgIDs with
  | [] => Ok []
  | messageID :: msgIDs =>
      let id := match emailIDs with e :: _ => e | [] => 0 end in
      try! id := (if id <=? 0
                  then email_id_where (fun m => (m_AccountID m =? acc_id a) && (m_ID m =? messageID)) d
                  else Ok id) in
      if bool_decide (id ∈ seen) then removed_emails msgIDs (tail emailIDs) seen d
      else
        try! rest := removed_emails msgIDs (tail emailIDs) (id :: seen) d in
        Ok (mkChanged id true :: rest)
  end.

Definition changeEmailIDs (r : LogRow) (d : DB) : result (list changedEmail) :=
  try! decoded := decodeChange (lr_kind r) (lr_payload r) in
  match decoded with
  | CAddUID c =>
      let id := persistedEmailID (ca_EmailID c) (ca_MsgID c) in
      if 0 <? id then Ok [mkChanged id (ca_EmailExistedBefore c)]
      else try! id := emailIDByMailboxUID (ca_MailboxID c) (ca_UID c) d in
           Ok [mkChanged id (ca_EmailExistedBefore c)]
  | CFlags c =>
      let id := persistedEmailID (cf_EmailID c) (cf_MsgID c) in
      if 0 <? id then Ok [mkChanged id true]
      else try! id := emailIDByMailboxUID (cf_MailboxID c) (cf_UID c) d in
           Ok [mkChanged id true]
  | CRemoveUIDs c => removed_emails (cr_MsgIDs c) (cr_EmailIDs c) [] d
  | _ => Ok []
  end.

Definition emailExistsAt (emailID state : Z) (d : DB) : bool :=
  existsb (fun m => (m_AccountID m =? acc_id a) && ((m_ID m =? emailID) || (m_EmailID m =? emailID))
      && (m_CreateSeq m <=? state) && (negb (m_Expunged m) || (state <? m_ModSeq m)))
    (snd <$> map_to_list (db_messages d)).

(** The variables of the fold; [fo_ordered] also is the set [seen]. *)
Record Fold := mkFold { fo_position : Z; fo_existed : gmap Z bool; fo_ordered : list Z }.

Definition note_impact (f : Fold) (i : changedEmail) : Fold :=
  let existed := match fo_existed f !! ce_id i with
                 | Some _ => fo_existed f
                 | None => <[ce_id i := ce_existedBefore i]> (fo_existed f)
                 end in
  mkFold (fo_position f) existed
    (if bool_decide (ce_id i ∈ fo_ordered f) then fo_ordered f else fo_ordered f ++ [ce_id i]).

Definition at_position (seq : Z) (f : Fold) : Fold := mkFold seq (fo_existed f) (fo_ordered f).

Definition new_count (f : Fold) (impacts : list changedEmail) : nat :=
  length (filter (fun i => ce_id i ∉ fo_ordered f) impacts).

(** The loop over one batch: stopped or not, and the variables after it. *)
Fixpoint fold_batch (maxChanges : Z) (d : DB) (changes : list (Z * LogRow)) (f : Fold) : result (bool * Fold) :=
  match changes with
  | [] => Ok (false, f)
  | (seq, r) :: changes =>
      try! impacts := changeEmailIDs r d in
      if maxChanges <? Z.of_nat (length (fo_ordered f) + new_count f impacts) then
        match fo_ordered f with
        | [] => Err ErrCannotCalculateEmailChanges
        | _ => Ok (true, f)
        end
      else fold_batch maxChanges d changes (at_position seq (foldl note_impact f impacts))
  end.

(** The outer loop; [fuel] bounds the number of batches. *)
Fixpoint fold_log (fuel : nat) (maxChanges head : Z) (d : DB) (f : Fold) : result Fold :=
  match fuel with
  | O => Err (ErrText "out of fuel")
  | S fuel =>
      if fo_position f <? head then
        match loadPersistedChanges (fo_position f) head emailChangeScanBatch d with
        | [] => Err ErrCannotCalculateEmailChanges
        | changes =>
            try! r := fold_batch maxChanges d changes f in
            if r.1 then Ok r.2 else fold_log fuel maxChanges head d r.2
        end
      else Ok f
  end.

(** The earliest log position of the account, if any. *)
Definition earliest (d : DB) : option Z :=
  match log_rows (acc_id a) (fun _ => true) d with [] => None | (s, _) :: _ => Some s end.

(** The classification of one email. *)
Inductive fate := Created | Updated | Destroyed | Neither.
Definition fate_of (since position : Z) (existed : gmap Z bool) (d : DB) (id : Z) : fate :=
  let oldExists := emailExistsAt id since d || default false (existed !! id) in
  let newExists := emailExistsAt id position d in
  match oldExists, newExists with
  | false, true => Created
  | true, true => Updated
  | true, false => Destroyed
  | false, false => Neither
  end.

Definition with_fate (fa : fate) (classify : Z -> fate) (ids : list Z) : list Z :=
  filter (fun id => match classify id, fa with
                    | Created, Created | Updated, Updated | Destroyed, Destroyed => true
                    | _, _ => false
                    end = true) ids.

(** [head - since] batches always suffice: each moves the position. *)
Definition changes_fuel (since head : Z) : nat := S (Z.to_nat (head - since)).

Definition EmailChanges (since maxChanges : Z) (d : DB) : result EmailChangeSet :=
  if maxChanges <=? 0 then Err ErrCannotCalculateEmailChanges
  else match db_accounts d !! acc_id a with
  | None => Err ErrNoRows
  | Some row =>
      let head := ar_changelog_seq row in
      if (since <? 0) || (head <? since) then Err ErrCannotCalculateEmailChanges
      else if match earliest d with Some e => since <? e - 1 | None => false end
      then Err ErrCannotCalculateEmailChanges
      else
        try! f := fold_log (changes_fuel since head) maxChanges head d (mkFold since ∅ []) in
        let classify := fate_of since (fo_position f) (fo_existed f) d in
        Ok (mkEmailChangeSet (fo_position f) (fo_position f <? head)
              (with_fate Created classify (fo_ordered f))
              (with_fate Updated classify (fo_ordered f))
              (with_fate Destroyed classify (fo_ordered f)))
  end.
End EmailChanges.

(** ** Lemmas: the scan *)

Section Lemmas.
Variable a : account.

(** The rows a batch is taken from. *)
Abbreviation pending after head d := (log_rows (acc_id a) (fun seq => (after <? seq) && (seq <=? head)) d).

Lemma pending_elem after head d s r :
  (s, r) ∈ pending after head d <-> db_changelog d !! (acc_id a, s) = Some r /\ after < s <= head.
Proof.
  rewrite elem_log_rows. split; intros [H1 H2]; (split; [done|]); [by b2p|].
  apply andb_true_intro. split; [apply Z.ltb_lt|apply Z.leb_le]; lia.
Qed.

Lemma sorted_app_lt (l1 l2 : list (Z * LogRow)) x y :
  StronglySorted (fun x y : Z * LogRow => x.1 < y.1) (l1 ++ l2) -> x ∈ l1 -> y ∈ l2 -> x.1 < y.1.
Proof.
  induction l1 as [|z l1 IH]; simpl; [intros _ Hx; by apply elem_of_nil in Hx|].
  intros Hs Hx Hy. apply StronglySorted_inv in Hs as [Hs Hz]. apply elem_of_cons in Hx as [->|Hx]; [|auto].
  rewrite Forall_forall in Hz. apply Hz. apply elem_of_app. by right.
Qed.

Lemma load_prefix after head limit d :
  exists rest, pending after head d = loadPersistedChanges a after head limit d ++ rest.
Proof. eexists. symmetry. apply take_drop. Qed.

(** ** Lemmas: one batch *)

(** Does the change of row [r] touch email [id]? *)
Definition impacts (d : DB) (r : LogRow) (id : Z) : Prop :=
  exists ims, changeEmailIDs a r d = Ok ims /\ exists i, i ∈ ims /\ ce_id i = id.

Lemma note_ordered ims f id :
  id ∈ fo_ordered (foldl note_impact f ims) <-> id ∈ fo_ordered f \/ exists i, i ∈ ims /\ ce_id i = id.
Proof.
  revert f. induction ims as [|i ims IH]; intros f; cbn [foldl].
  - split; [by left|]. intros [|(i & Hi & _)]; [done|by apply elem_of_nil in Hi].
  - rewrite IH. unfold note_impact at 1. simpl.
    assert (id ∈ (if bool_decide (ce_id i ∈ fo_ordered f) then fo_ordered f else fo_ordered f ++ [ce_id i])
            <-> id ∈ fo_ordered f \/ ce_id i = id) as ->.
    { case_bool_decide as Hin; [split; [by left|intros [|<-]; done]|].
      rewrite elem_of_app, list_elem_of_singleton. split; (intros [|]; [by left|by right]). }
    split.
    + intros [[|He]|(j & Hj & He)]; [by left|right; exists i; by split; [left|]|right; exists j; by split; [right|]].
    + intros [|(j & Hj & He)]; [by left; left|]. apply elem_of_cons in Hj as [->|Hj]; [by left; right|].
      right. by exists j.
Qed.

Lemma note_position ims f : fo_position (foldl note_impact f ims) = fo_position f.
Proof. revert f. induction ims as [|i ims IH]; intros f; [done|]. cbn [foldl]. by rewrite IH. Qed.

Lemma note_NoDup ims f : NoDup (fo_ordered f) -> NoDup (fo_ordered (foldl note_impact f ims)).
Proof.
  revert f. induction ims as [|i ims IH]; intros f Hnd; [done|]. cbn [foldl]. apply IH. simpl.
  case_bool_decide as Hin; [done|]. apply NoDup_app. split_and!; [done| |apply NoDup_singleton].
  intros x Hx Hx'. apply list_elem_of_singleton in Hx' as ->. done.
Qed.

Lemma note_length ims f :
  (length (fo_ordered (foldl note_impact f ims)) <= length (fo_ordered f) + new_count f ims)%nat.
Proof.
  revert f. induction ims as [|i ims IH]; intros f; cbn [foldl]; [lia|]. specialize (IH (note_impact f i)).
  etransitivity; [exact IH|]. unfold new_count, note_impact. simpl. case_bool_decide as Hin.
  - rewrite (filter_cons_False (fun i => ce_id i ∉ fo_ordered f)) by tauto. done.
  - rewrite (filter_cons_True (fun i => ce_id i ∉ fo_ordered f)) by done. rewrite length_app. simpl.
    enough (length (filter (fun i0 => ce_id i0 ∉ fo_ordered f ++ [ce_id i]) ims)
            <= length (filter (fun i0 => ce_id i0 ∉ fo_ordered f) ims))%nat by lia.
    clear. induction ims as [|j ims IH]; [done|].
    destruct (decide (ce_id j ∈ fo_ordered f ++ [ce_id i])) as [H1|H1].
    + rewrite (filter_cons_False (fun i0 => ce_id i0 ∉ fo_ordered f ++ [ce_id i])) by tauto.
      etransitivity; [exact IH|]. rewrite filter_cons. case_decide; simpl; lia.
    + rewrite (filter_cons_True (fun i0 => ce_id i0 ∉ fo_ordered f ++ [ce_id i])) by done.
      rewrite filter_cons_True; [simpl; lia|]. intros H2. apply H1, elem_of_app. by left.
Qed.

(** What a processed batch has done: [done] is the prefix it consumed. *)
Record batch_done (maxChanges : Z) (d : DB) (changes : list (Z * LogRow)) (f : Fold) (stopped : bool) (f' : Fold) : Prop := {
  bd_prefix : exists dn rest, changes = dn ++ rest /\ (stopped = false -> rest = []) /\
    fo_position f' = default (fo_position f) (fst <$> last dn) /\
    (forall id, id ∈ fo_ordered f' <-> id ∈ fo_ordered f \/ exists s r, (s, r) ∈ dn /\ impacts d r id) /\
    (forall s r, (s, r) ∈ dn -> exists ims, changeEmailIDs a r d = Ok ims);
  bd_stopped : stopped = true -> fo_ordered f' <> [];
  bd_nodup : NoDup (fo_ordered f) -> NoDup (fo_ordered f');
  bd_length : Z.of_nat (length (fo_ordered f)) <= maxChanges -> Z.of_nat (length (fo_ordered f')) <= maxChanges }.

Lemma fold_batch_done maxChanges d changes f stopped f' :
  fold_batch a maxChanges d changes f = Ok (stopped, f') -> batch_done maxChanges d changes f stopped f'.
Proof.
  revert f. induction changes as [|[s r] changes IH]; intros f; cbn [fold_batch].
  - intros [= <- <-]. split; try done. exists [], []. split_and!; try done; [|intros s r Hin; by apply elem_of_nil in Hin].
    intros id. split; [by left|]. intros [|(s & r & Hin & _)]; [done|by apply elem_of_nil in Hin].
  - destruct (changeEmailIDs a r d) as [ims|e] eqn:Hi; [|done]. cbn [rbind].
    destruct (maxChanges <? _) eqn:Hmax.
    + destruct (fo_ordered f) as [|x l] eqn:Ho; [done|]. intros [= <- <-]. split; rewrite ?Ho; try done.
      exists [], ((s, r) :: changes). split_and!; try done; [|intros s' r' Hin; by apply elem_of_nil in Hin].
      intros id. split; [by left|]. intros [|(s' & r' & Hin & _)]; [done|by apply elem_of_nil in Hin].
    + intros Hb. apply IH in Hb as [(dn & rest & Hc & Hr & Hp & Ho & Hok) B2 B3 B4].
      simpl in *. b2p. pose proof (note_length ims f) as Hlen. split; [|done| |].
      * exists ((s, r) :: dn), rest. split_and!; [by rewrite Hc|done| | |].
        { rewrite Hp, last_cons. by destruct (last dn). }
        2:{ intros s' r' Hin. apply elem_of_cons in Hin as [[= -> ->]|Hin]; [by eexists|by eapply Hok]. }
        intros id. rewrite Ho, note_ordered. split.
        -- intros [[|(i & Hin & He)]|(s' & r' & Hin & Him)]; [by left|right|right].
           { exists s, r. split; [by left|]. exists ims. split; [done|]. by exists i. }
           { exists s', r'. split; [by right|done]. }
        -- intros [|(s' & r' & Hin & Him)]; [by left; left|].
           apply elem_of_cons in Hin as [[= -> ->]|Hin]; [|right; eauto].
           destruct Him as (ims' & Hi' & i & Hin & He). rewrite Hi in Hi'. injection Hi' as <-. left. right. eauto.
      * intros Hnd. by apply B3, note_NoDup.
      * intros Hle. apply B4. simpl. lia.
Qed.

(** ** Lemmas: the whole fold *)

Record folded (since head maxChanges : Z) (d : DB) (f : Fold) : Prop := {
  fd_position : since <= fo_position f <= head;
  fd_nodup : NoDup (fo_ordered f);
  fd_length : Z.of_nat (length (fo_ordered f)) <= maxChanges;
  fd_moved : fo_ordered f <> [] -> since < fo_position f;
  fd_ok s r : db_changelog d !! (acc_id a, s) = Some r -> since < s <= fo_position f ->
    exists ims, changeEmailIDs a r d = Ok ims;
  fd_complete s r id : db_changelog d !! (acc_id a, s) = Some r -> since < s <= fo_position f ->
    impacts d r id -> id ∈ fo_ordered f;
  fd_sound id : id ∈ fo_ordered f -> exists s r, db_changelog d !! (acc_id a, s) = Some r /\
    since < s <= fo_position f /\ impacts d r id }.

Lemma last_app_elem {A} (l : list A) x : last l = Some x -> exists l', l = l' ++ [x].
Proof. intros H. apply last_Some in H. exact H. Qed.

Lemma folded_batch since head maxChanges d f stopped f' :
  folded since head maxChanges d f ->
  fold_batch a maxChanges d (loadPersistedChanges a (fo_position f) head emailChangeScanBatch d) f = Ok (stopped, f') ->
  folded since head maxChanges d f' /\ fo_position f <= fo_position f' /\
  (stopped = false -> loadPersistedChanges a (fo_position f) head emailChangeScanBatch d <> [] ->
     fo_position f < fo_position f').
Proof.
  intros [F1 F2 F3 F4 Fok F5 F6] Hb.
  apply fold_batch_done in Hb as [(dn & rest & Hc & Hr & Hp & Ho & Hok) B2 B3 B4].
  destruct (load_prefix (fo_position f) head emailChangeScanBatch d) as [rest2 Hpend].
  rewrite Hc, <- app_assoc in Hpend.
  assert (Hdn : forall s r, (s, r) ∈ dn -> db_changelog d !! (acc_id a, s) = Some r /\ fo_position f < s <= head).
  { intros s r Hin. apply (pending_elem (fo_position f) head d). rewrite Hpend. apply elem_of_app. by left. }
  assert (Hsort : StronglySorted (fun x y : Z * LogRow => x.1 < y.1) (dn ++ rest ++ rest2)).
  { rewrite <- Hpend. apply log_rows_lt. }
  assert (Hpos : fo_position f <= fo_position f' /\ (dn <> [] -> fo_position f < fo_position f') /\
    forall s r, (s, r) ∈ dn -> s <= fo_position f').
  { destruct (last dn) as [[sl rl]|] eqn:Hl; simpl in Hp.
    - apply last_app_elem in Hl as [l' ->]. destruct (Hdn sl rl) as [_ ?].
      { apply elem_of_app. right. by apply list_elem_of_singleton. }
      split; [lia|]. split; [intros; lia|]. intros s r Hin. apply elem_of_app in Hin as [Hin|Hin].
      + rewrite <- app_assoc in Hsort. pose proof (sorted_app_lt _ _ (s, r) (sl, rl) Hsort Hin) as Hlt.
        rewrite Hp. simpl in Hlt. apply Z.lt_le_incl, Hlt. by left.
      + apply list_elem_of_singleton in Hin as [= -> ->]. by rewrite Hp.
    - apply last_None in Hl as ->. split; [lia|]. split; [done|]. intros s r Hin. by apply elem_of_nil in Hin. }
  destruct Hpos as (Hp1 & Hp2 & Hp3).
  assert (Hle : fo_position f' <= head).
  { rewrite Hp. destruct (last dn) as [[sl rl]|] eqn:Hl; simpl; [|lia].
    apply last_app_elem in Hl as [l' ->]. destruct (Hdn sl rl); [|lia].
    apply elem_of_app. right. by apply list_elem_of_singleton. }
  assert (Hin_dn : forall s r, db_changelog d !! (acc_id a, s) = Some r -> fo_position f < s <= fo_position f' -> (s, r) ∈ dn).
  { intros s r Hlog Hs. assert (Hin : (s, r) ∈ dn ++ rest ++ rest2).
    { rewrite <- Hpend. apply pending_elem. split; [done|lia]. }
    apply elem_of_app in Hin as [|Hin]; [done|]. exfalso.
    destruct (last dn) as [[sl rl]|] eqn:Hl; simpl in Hp; [|apply last_None in Hl as ->; simpl in *; lia].
    apply last_app_elem in Hl as [l' ->].
    pose proof (sorted_app_lt _ _ (sl, rl) (s, r) Hsort) as Hlt. simpl in Hlt.
    assert (sl < s); [|lia]. apply Hlt; [|done]. apply elem_of_app. right. by apply list_elem_of_singleton. }
  split_and!; [split|done|].
  - lia.
  - auto.
  - auto.
  - intros Hne. destruct dn as [|x dn']; [|specialize (Hp2 ltac:(done)); lia].
    simpl in Hp. rewrite Hp. apply F4. intros Hnil. apply Hne. destruct (fo_ordered f') as [|id l] eqn:E; [done|].
    destruct (proj1 (Ho id) (list_elem_of_here _ _)) as [Hin|(s & r & Hin & _)]; [rewrite Hnil in Hin|];
      by apply elem_of_nil in Hin.
  - intros s r Hlog Hs. destruct (Z.le_gt_cases s (fo_position f)) as [Hle'|Hgt]; [apply (Fok s r); [done|lia]|].
    apply (Hok s r), Hin_dn; [done|lia].
  - intros s r id Hlog Hs Him. apply Ho. destruct (Z.le_gt_cases s (fo_position f)) as [Hle'|Hgt].
    + left. apply (F5 s r); [done|lia|done].
    + right. exists s, r. split; [apply Hin_dn; [done|lia]|done].
  - intros id Hin. apply Ho in Hin as [Hin|(s & r & Hin & Him)].
    + destruct (F6 id Hin) as (s & r & ? & ? & ?). exists s, r. split_and!; [done|lia|lia|done].
    + destruct (Hdn s r Hin). exists s, r. split_and!; [done|lia|by eapply Hp3|done].
  - intros Hst Hne. apply Hp2. intros ->. rewrite (Hr Hst) in Hc. by rewrite Hc in Hne.
Qed.

Lemma fold_log_folded since head maxChanges d fuel f f' :
  folded since head maxChanges d f -> fold_log a fuel maxChanges head d f = Ok f' ->
  folded since head maxChanges d f' /\ fo_position f <= fo_position f' /\
  (fo_position f < head -> since < fo_position f').
Proof.
  revert f. induction fuel as [|fuel IH]; intros f Hf; cbn [fold_log]; [done|].
  destruct (Z.ltb_spec (fo_position f) head) as [Hlt|Hge]; [|intros [= <-]; split_and!; [done|lia|lia]].
  destruct (loadPersistedChanges a (fo_position f) head emailChangeScanBatch d) as [|x l] eqn:Hload; [done|].
  rewrite <- Hload.
  destruct (fold_batch _ _ _ _ f) as [[stopped f1]|e] eqn:Hb; [|done]. cbn [rbind fst snd].
  pose proof (bd_stopped _ _ _ _ _ _ (fold_batch_done _ _ _ _ _ _ Hb)) as Hst.
  destruct (folded_batch _ _ _ _ _ _ _ Hf Hb) as (Hf1 & Hle & Hmove). destruct stopped.
  - intros [= <-]. split_and!; [done|done|]. intros _. by apply (fd_moved _ _ _ _ _ Hf1), Hst.
  - intros Hrest. destruct (IH f1 Hf1 Hrest) as (Hf' & Hle' & _). split_and!; [done|lia|].
    intros _. specialize (Hmove eq_refl ltac:(by rewrite Hload)). destruct Hf as [[? _] _ _ _ _ _ _]. lia.
Qed.

(** More fuel than positions left changes nothing. *)
Lemma fold_log_fuel since head maxChanges d n1 n2 f :
  folded since head maxChanges d f -> (Z.to_nat (head - fo_position f) < n1)%nat ->
  (Z.to_nat (head - fo_position f) < n2)%nat ->
  fold_log a n1 maxChanges head d f = fold_log a n2 maxChanges head d f.
Proof.
  revert n2 f. induction n1 as [|n1 IH]; intros [|n2] f Hf H1 H2; try lia. cbn [fold_log].
  destruct (Z.ltb_spec (fo_position f) head) as [Hlt|Hge]; [|done].
  destruct (loadPersistedChanges a (fo_position f) head emailChangeScanBatch d) as [|x l] eqn:Hload; [done|].
  rewrite <- Hload.
  destruct (fold_batch _ _ _ _ f) as [[[|] f1]|e] eqn:Hb; [done| |done]. cbn [rbind fst snd].
  destruct (folded_batch _ _ _ _ _ _ _ Hf Hb) as (Hf1 & _ & Hmove).
  specialize (Hmove eq_refl ltac:(by rewrite Hload)). apply IH; [done|lia|lia].
Qed.
End Lemmas.

(** ** What Email/changes promises its client

    The window it answers for, that nothing in the window is missed or made up,
    the meaning of the three lists, and that the scan ends. *)


(** Some logged change after [since] and up to [upto] touches the email. *)
Definition touched (a : account) (d : DB) (since upto id : Z) : Prop :=
  exists s row, db_changelog d !! (acc_id a, s) = Some row /\ since < s <= upto /\ impacts a d row id.

(** All the emails a change set names. *)
Definition named (r : EmailChangeSet) : list Z := es_Created r ++ es_Updated r ++ es_Destroyed r.

Section Spec.
Variable a : account.

Lemma folded_start since head maxChanges d :
  0 < maxChanges -> since <= head -> folded a since head maxChanges d (mkFold since ∅ []).
Proof.
  intros Hm Hs. split; simpl; try done; try lia.
  - constructor.
  - intros id Hin. by apply elem_of_nil in Hin.
Qed.

(** A successful answer, taken apart. *)
Lemma answer_inv since maxChanges d r :
  EmailChanges a since maxChanges d = Ok r ->
  exists row f, db_accounts d !! acc_id a = Some row /\ 0 <= since <= ar_changelog_seq row /\
    folded a since (ar_changelog_seq row) maxChanges d f /\
    (since < ar_changelog_seq row -> since < fo_position f) /\
    let classify := fate_of a since (fo_position f) (fo_existed f) d in
    r = mkEmailChangeSet (fo_position f) (fo_position f <? ar_changelog_seq row)
          (with_fate Created classify (fo_ordered f)) (with_fate Updated classify (fo_ordered f))
          (with_fate Destroyed classify (fo_ordered f)).
Proof.
  unfold EmailChanges. destruct (Z.leb_spec maxChanges 0) as [|Hm]; [done|].
  destruct (db_accounts d !! acc_id a) as [row|] eqn:Hrow; [|done].
  destruct ((since <? 0) || (ar_changelog_seq row <? since)) eqn:Hr; [done|]. apply orb_false_iff in Hr as [Hr1 Hr2]. apply Z.ltb_ge in Hr1, Hr2.
  destruct (match earliest a d with Some e => since <? e - 1 | None => false end); [done|].
  destruct (fold_log _ _ _ _ _ _) as [f|e] eqn:Hf; [|done]. cbn [rbind]. intros [= <-].
  destruct (fold_log_folded a since (ar_changelog_seq row) maxChanges d _ _ _
              (folded_start since (ar_changelog_seq row) _ _ Hm Hr2) Hf) as (Hfd & _ & Hprog).
  exists row, f. simpl in Hprog. split_and!; (done || lia).
Qed.

Lemma elem_with_fate fa classify ids id :
  fa <> Neither -> id ∈ with_fate fa classify ids <-> classify id = fa /\ id ∈ ids.
Proof. intros Hfa. unfold with_fate. rewrite list_elem_of_filter. destruct fa, (classify id); intuition congruence. Qed.

Lemma fates_partition classify ids :
  NoDup ids ->
  NoDup (with_fate Created classify ids ++ with_fate Updated classify ids ++ with_fate Destroyed classify ids) /\
  (length (with_fate Created classify ids ++ with_fate Updated classify ids ++ with_fate Destroyed classify ids)
     <= length ids)%nat.
Proof.
  intros Hnd. split.
  - apply NoDup_app. split_and!; [by apply NoDup_filter| |apply NoDup_app; split_and!; [by apply NoDup_filter| |by apply NoDup_filter]];
      intros id H1 H2; rewrite ?elem_of_app, !elem_with_fate in * by done; destruct H1 as [H1 _];
      destruct_or?; destruct_and?; congruence.
  - induction ids as [|id ids IH]; [done|]. apply NoDup_cons in Hnd as [_ Hnd]. specialize (IH Hnd).
    rewrite !length_app in *. unfold with_fate in *. rewrite !filter_cons.
    destruct (classify id); simpl; lia.
Qed.

(** The window of an answer: the new state lies between the state asked
    about and the head of the log, and after the former whenever there is
    anything to report; [HasMore] holds exactly when it is before the head; and
    the three lists are disjoint, without repetition and within [maxChanges]. *)
Theorem email_changes_window since maxChanges d r :
  EmailChanges a since maxChanges d = Ok r ->
  exists row, db_accounts d !! acc_id a = Some row /\ 0 <= since <= es_NewState r /\
    es_NewState r <= ar_changelog_seq row /\
    (since < ar_changelog_seq row -> since < es_NewState r) /\
    (es_HasMore r = true <-> es_NewState r < ar_changelog_seq row) /\
    NoDup (named r) /\ Z.of_nat (length (named r)) <= maxChanges.
Proof.
  intros Hr. destruct (answer_inv _ _ _ _ Hr) as (row & f & Hrow & Hs & [F1 F2 F3 _ _ _ _] & Hprog & ->).
  exists row. unfold named. simpl.
  destruct (fates_partition (fate_of a since (fo_position f) (fo_existed f) d) _ F2) as [Hnd Hlen].
  split_and!; [done|lia..|done|by rewrite Z.ltb_lt|done|lia].
Qed.

(** *** Which email a change is about, and when an email exists *)





(** Nothing is made up: a listed email was touched between the two states;
    one listed as created exists at the new state and not at the old one, one
    listed as updated exists at the new state, one listed as destroyed does not. *)
Theorem email_changes_sound since maxChanges d r id :
  EmailChanges a since maxChanges d = Ok r -> id ∈ named r ->
  touched a d since (es_NewState r) id /\
  (id ∈ es_Created r -> emailExistsAt a id since d = false /\ emailExistsAt a id (es_NewState r) d = true) /\
  (id ∈ es_Updated r -> emailExistsAt a id (es_NewState r) d = true) /\
  (id ∈ es_Destroyed r -> emailExistsAt a id (es_NewState r) d = false).
Proof.
  intros Hr Hin. destruct (answer_inv _ _ _ _ Hr) as (row & f & _ & _ & [_ _ _ _ _ _ F6] & _ & ->).
  unfold named in Hin. simpl in *. rewrite !elem_of_app, !elem_with_fate in Hin by done.
  assert (Hord : id ∈ fo_ordered f) by (destruct_or?; destruct_and?; done). split; [by apply F6|]. rewrite !elem_with_fate by done.
  unfold fate_of. destruct (emailExistsAt a id since d), (emailExistsAt a id (fo_position f) d), (default _ _);
    simpl; split_and!; intros [? _]; done.
Qed.

(** The scan of the log ends: from any state within the log, the number of
    batches [EmailChanges] allows itself is as good as any larger number. *)
Theorem email_scan_terminates since head maxChanges d fuel :
  0 < maxChanges -> since <= head -> (changes_fuel since head <= fuel)%nat ->
  fold_log a fuel maxChanges head d (mkFold since ∅ [])
  = fold_log a (changes_fuel since head) maxChanges head d (mkFold since ∅ []).
Proof.
  intros Hm Hs Hf. unfold changes_fuel in *.
  apply (fold_log_fuel a since); [by apply folded_start|simpl; lia..].
Qed.
End Spec.

(** ** A store with something to report *)

Example created_then_updated :
  EmailChanges alice 0 10 demo_db3 = Ok (mkEmailChangeSet 5 false [1] [] []) /\
  EmailChanges alice 4 10 demo_db3 = Ok (mkEmailChangeSet 5 false [] [1] []).
Proof. split; vm_compute; reflexivity. Qed.

Lemma email_changes_window_witness :
  exists row, db_accounts demo_db3 !! 1 = Some row /\ 5 <= ar_changelog_seq row.
Proof.
  destruct (email_changes_window alice 4 10 demo_db3 (mkEmailChangeSet 5 false [] [1] []))
    as (row & Hrow & _ & Hle & _); [vm_compute; reflexivity|]. exists row. split; [exact Hrow|exact Hle].
Defined.


Lemma email_changes_sound_witness : touched alice demo_db3 4 5 1 /\ emailExistsAt alice 1 5 demo_db3 = true.
Proof.
  destruct (email_changes_sound alice 4 10 demo_db3 (mkEmailChangeSet 5 false [] [1] []) 1) as (Ht & _ & Hu & _);
    [vm_compute; reflexivity|left|]. split; [exact Ht|]. apply Hu. left.
Defined.

Lemma email_scan_terminates_witness :
  fold_log alice 1000 10 5 demo_db3 (mkFold 0 ∅ []) = fold_log alice (changes_fuel 0 5) 10 5 demo_db3 (mkFold 0 ∅ []).
Proof. apply email_scan_terminates; [lia..|]. vm_compute. lia. Defined.
