(* ===== verification/Strconv.v ===== *)
(** * Decimal integers: Go's [strconv.FormatInt] and [strconv.ParseInt], base 10 *)

From S2P Require Import Prelude GoStrings.

(** The character of a digit, and its value. *)
Definition digit_char (d : Z) : ascii := ascii_of_nat (Z.to_nat (48 + d)).
Definition digit_value (c : ascii) : option Z :=
  let v := byte_of c - 48 in if (0 <=? v) && (v <=? 9) then Some v else None.

(** The digits of a non-negative number, most significant first; [fuel] bounds
    their number. *)
Fixpoint digits (fuel : nat) (n : Z) : list ascii :=
  match fuel with
  | O => []
  | S fuel => if n <? 10 then [digit_char n] else digits fuel (n / 10) ++ [digit_char (n mod 10)]
  end.

(** An int64 has at most 19 digits. *)
Definition FormatInt (z : Z) : string :=
  str_of (if z <? 0 then "-"%char :: digits 20 (- z) else digits 20 z).

Fixpoint digits_value (acc : Z) (l : list ascii) : option Z :=
  match l with
  | [] => Some acc
  | c :: l => match digit_value c with Some v => digits_value (10 * acc + v) l | None => None end
  end.

Definition parse_digits (l : list ascii) : option Z :=
  match l with [] => None | _ => digits_value 0 l end.

(** [ParseInt(s, 10, 64)]: an optional sign, digits, within the int64 range. *)
Definition ParseInt (s : string) : option Z :=
  let v := match bytes_of s with
           | c :: l => if Ascii.eqb c "-"%char then Z.opp <$> parse_digits l
                       else if Ascii.eqb c "+"%char then parse_digits l
                       else parse_digits (c :: l)
           | [] => None
           end in
  match v with
  | Some z => if is_i64 z then Some z else None
  | None => None
  end.

Example strconv_examples :
  FormatInt (-120) = "-120"%string /\ ParseInt "-120" = Some (-120) /\ ParseInt "+7" = Some 7 /\
  ParseInt "" = None /\ ParseInt "-" = None /\ ParseInt "12a" = None /\
  ParseInt "9223372036854775807" = Some max_int64 /\ ParseInt "9223372036854775808" = None.
Proof. repeat split; vm_compute; reflexivity. Qed.

(** ** Lemmas *)

Lemma digit_char_value d : 0 <= d <= 9 -> digit_value (digit_char d) = Some d.
Proof.
  intros Hd. assert (d = 0 \/ d = 1 \/ d = 2 \/ d = 3 \/ d = 4 \/ d = 5 \/ d = 6 \/ d = 7 \/ d = 8 \/ d = 9)
    as H by lia. by destruct_or!; subst.
Qed.

Lemma digits_value_app acc l1 l2 :
  digits_value acc (l1 ++ l2) = match digits_value acc l1 with Some v => digits_value v l2 | None => None end.
Proof.
  revert acc. induction l1 as [|c l1 IH]; intros acc; simpl; [done|].
  destruct (digit_value c); [apply IH|done].
Qed.

Lemma digits_roundtrip fuel n : 0 <= n < 10 ^ Z.of_nat fuel -> (0 < fuel)%nat ->
  digits_value 0 (digits fuel n) = Some n.
Proof.
  revert n. induction fuel as [|fuel IH]; intros n Hn Hf; [lia|]. cbn [digits].
  destruct (Z.ltb_spec n 10) as [Hlt|Hge].
  - cbn [digits_value]. rewrite digit_char_value by lia. done.
  - pose proof (Z.mod_pos_bound n 10 ltac:(lia)). pose proof (Z.div_mod n 10 ltac:(lia)).
    rewrite Nat2Z.inj_succ, Z.pow_succ_r in Hn by lia.
    assert (n / 10 < 10 ^ Z.of_nat fuel) by (apply Z.div_lt_upper_bound; lia).
    assert (0 < fuel)%nat by (destruct fuel; [simpl in *; lia|lia]).
    rewrite digits_value_app, IH by lia. cbn [digits_value]. rewrite digit_char_value by lia. f_equal. lia.
Qed.

Lemma digits_head fuel n : 0 <= n < 10 ^ Z.of_nat fuel -> (0 < fuel)%nat ->
  exists d l, digits fuel n = digit_char d :: l /\ 0 <= d <= 9.
Proof.
  revert n. induction fuel as [|fuel IH]; intros n Hn Hf; [lia|]. cbn [digits].
  destruct (Z.ltb_spec n 10) as [Hlt|Hge]; [exists n, []; split; [done|lia]|].
  rewrite Nat2Z.inj_succ, Z.pow_succ_r in Hn by lia.
  assert (n / 10 < 10 ^ Z.of_nat fuel) by (apply Z.div_lt_upper_bound; lia).
  assert (0 <= n / 10) by (apply Z.div_pos; lia).
  destruct (IH (n / 10)) as (d & l & -> & Hd); [lia|destruct fuel; simpl in *; lia|].
  exists d, (l ++ [digit_char (n mod 10)]). done.
Qed.

(** Formatting then parsing gives the number back. *)
Lemma ParseInt_FormatInt z : is_i64 z = true -> ParseInt (FormatInt z) = Some z.
Proof.
  intros Hz. unfold ParseInt, FormatInt. rewrite bytes_of_str_of.
  pose proof Hz as Hr. unfold is_i64, min_int64, max_int64 in Hr. b2p.
  destruct (Z.ltb_spec z 0) as [Hneg|Hpos].
  - destruct (digits_head 20 (- z)) as (d & l & Hd & _); [lia|lia|].
    pose proof (digits_roundtrip 20 (- z) ltac:(lia) ltac:(lia)) as Hv.
    change (Ascii.eqb "-" "-") with true. cbn iota. rewrite Hd in *. cbn [parse_digits]. rewrite Hv.
    cbn [fmap option_fmap option_map]. by rewrite Z.opp_involutive, Hz.
  - destruct (digits_head 20 z) as (d & l & Hd & Hr); [lia|lia|].
    pose proof (digits_roundtrip 20 z ltac:(lia) ltac:(lia)) as Hv. rewrite Hd in *.
    assert (Ascii.eqb (digit_char d) "-" = false /\ Ascii.eqb (digit_char d) "+" = false) as [-> ->].
    { assert (d = 0 \/ d = 1 \/ d = 2 \/ d = 3 \/ d = 4 \/ d = 5 \/ d = 6 \/ d = 7 \/ d = 8 \/ d = 9)
        as H' by lia. by destruct_or!; subst. }
    cbn [parse_digits]. by rewrite Hv, Hz.
Qed.

(** The characters of a formatted integer are digits and perhaps a sign. *)
Lemma FormatInt_chars (P : ascii -> Prop) z :
  (forall d, 0 <= d <= 9 -> P (digit_char d)) -> P "-"%char -> is_i64 z = true ->
  Forall P (bytes_of (FormatInt z)).
Proof.
  intros Hd Hs Hz. unfold FormatInt. rewrite bytes_of_str_of. unfold is_i64, min_int64, max_int64 in Hz. b2p.
  assert (Hl : forall fuel n, 0 <= n -> Forall P (digits fuel n)).
  { induction fuel as [|fuel IH]; intros n Hn; cbn [digits]; [constructor|].
    destruct (Z.ltb_spec n 10); [repeat constructor; apply Hd; lia|].
    apply Forall_app. split; [apply IH, Z.div_pos; lia|]. repeat constructor. apply Hd.
    pose proof (Z.mod_pos_bound n 10 ltac:(lia)). lia. }
  destruct (Z.ltb_spec z 0); [constructor; [done|]|]; apply Hl; lia.
Qed.

(** A digit is not any given other character. *)
Lemma digit_char_ne c d : digit_value c = None -> 0 <= d <= 9 -> digit_char d <> c.
Proof. intros Hc Hd <-. by rewrite digit_char_value in Hc. Qed.

Lemma FormatInt_without c z : digit_value c = None -> c <> "-"%char -> is_i64 z = true -> c ∉ bytes_of (FormatInt z).
Proof.
  intros Hc Hm Hz Hin.
  assert (Hf : Forall (fun x => x <> c) (bytes_of (FormatInt z))).
  { apply FormatInt_chars; [|congruence|done]. intros d. by apply digit_char_ne. }
  by apply (proj1 (Forall_forall _ _) Hf c).
Qed.

(** No digit and no sign is a colon. *)
Lemma FormatInt_no_colon z : is_i64 z = true -> Forall (fun c => c <> ":"%char) (bytes_of (FormatInt z)).
Proof. intros Hz. apply FormatInt_chars; [|done|done]. intros d. by apply digit_char_ne. Qed.

Lemma FormatInt_inj a b : is_i64 a = true -> is_i64 b = true -> FormatInt a = FormatInt b -> a = b.
Proof. intros Ha Hb He. apply (f_equal ParseInt) in He. rewrite !ParseInt_FormatInt in He by done. by injection He. Qed.

(** ** IEEE 754 binary64, Go's float64

    The rounded operations of the Standard Library's executable specification,
    at 53 bits of precision: conversions from int64, the arithmetic the source
    uses, and its comparisons, which are all false on a NaN. *)
From Stdlib Require Import SpecFloat.

Definition float64 : Type := spec_float.

Definition of_int (n : Z) : float64 := binary_normalize 53 1024 n 0 false.
Definition fadd (x y : float64) : float64 := SFadd 53 1024 x y.
Definition fsub (x y : float64) : float64 := SFsub 53 1024 x y.
Definition fmul (x y : float64) : float64 := SFmul 53 1024 x y.
Definition fdiv (x y : float64) : float64 := SFdiv 53 1024 x y.
(** [x < y] and [x >= y]. *)
Definition flt (x y : float64) : bool := SFltb x y.
Definition fge (x y : float64) : bool := SFleb y x.

(** The double nearest to [n / 10^k], as the compiler reads a decimal constant
    with at most 15 digits. *)
Definition decimal (n : Z) (k : Z) : float64 := fdiv (of_int n) (of_int (10 ^ k)).

Example decimal_half : decimal 5 1 = S754_finite false (2 ^ 52) (-53).
Proof. vm_compute. reflexivity. Qed.

(** ** Lemmas *)

Lemma SFcompare_refl x : SFcompare x x = Some Eq \/ SFcompare x x = None.
Proof.
  destruct x as [s|s| |s m e]; simpl; auto; [by destruct s; left|].
  left. destruct s; by rewrite Z.compare_refl, Pos.compare_cont_refl.
Qed.

Lemma flt_irrefl x : flt x x = false.
Proof. unfold flt, SFltb. destruct (SFcompare_refl x) as [-> | ->]; done. Qed.
