(* ===== verification/Json.v ===== *)
(** * encoding/json: text

    [json.Marshal] and [json.Unmarshal] between JSON text and documents, as the program
    uses them: HTML characters are escaped, invalid UTF-8 becomes U+FFFD, nesting is
    limited.  The round trip is the theorem; that fuel is enough is another. *)

From S2P Require Import Prelude GoStrings Shapes Changes Strconv.

Local Open Scope go_scope.

(** ** Marshal *)

Definition quote : ascii := ascii_of_nat 34.
Definition backslash : ascii := "\"%char.
Definition hex_digit (n : Z) : ascii := byte_char (if n <? 10 then 48 + n else 87 + n).
(** [\u] and four hexadecimal digits. *)
Definition hex4 (r : Z) : list ascii :=
  [hex_digit (r / 4096 mod 16); hex_digit (r / 256 mod 16); hex_digit (r / 16 mod 16); hex_digit (r mod 16)].
Definition unicode_escape (r : Z) : list ascii := backslash :: "u"%char :: hex4 r.

Definition must_escape (r : Z) : bool :=
  (r <? 32) || (r =? 60) || (r =? 62) || (r =? 38) || (r =? 8232) || (r =? 8233).
Definition write_rune (p : Z * list ascii) : list ascii :=
  if bad_seg p then unicode_escape rune_error
  else if p.1 =? 34 then [backslash; quote]
  else if p.1 =? 92 then [backslash; backslash]
  else if p.1 =? 8 then [backslash; "b"%char]
  else if p.1 =? 12 then [backslash; "f"%char]
  else if p.1 =? 10 then [backslash; "n"%char]
  else if p.1 =? 13 then [backslash; "r"%char]
  else if p.1 =? 9 then [backslash; "t"%char]
  else if must_escape p.1 then unicode_escape p.1
  else p.2.
Definition write_string (s : string) : list ascii := quote :: concat (write_rune <$> segs (bytes_of s)) ++ [quote].

(** The values with commas between them. *)
Definition commas {A} (f : A -> list ascii) : list A -> list ascii :=
  fix go (l : list A) : list ascii := match l with [] => [] | [x] => f x | x :: l => f x ++ ","%char :: go l end.

Fixpoint write_json (j : json) : list ascii :=
  match j with
  | JNull => bytes_of "null"
  | JBool b => bytes_of (if b then "true" else "false")
  | JNum z => bytes_of (FormatInt z)
  | JDec lit => bytes_of lit
  | JStr s => write_string s
  | JArr l => "["%char :: commas write_json l ++ ["]"%char]
  | JObj l => "{"%char :: commas (fun kv => write_string kv.1 ++ ":"%char :: write_json kv.2) l ++ ["}"%char]
  end.
Definition Marshal (j : json) : string := str_of (write_json j).

(** ** Unmarshal *)

Definition is_json_space (c : ascii) : bool := existsb (Ascii.eqb c) (ascii_of_nat <$> [32; 9; 13; 10]%nat).
Definition skip_ws (l : list ascii) : list ascii := drop_while is_json_space l.

Definition hex_value (c : ascii) : option Z :=
  if in_range 48 57 c then Some (byte_of c - 48)
  else if in_range 97 102 c then Some (byte_of c - 87)
  else if in_range 65 70 c then Some (byte_of c - 55)
  else None.
Definition read_hex4 (l : list ascii) : option (Z * list ascii) :=
  match l with
  | a :: b :: c :: d :: l =>
      match hex_value a, hex_value b, hex_value c, hex_value d with
      | Some a, Some b, Some c, Some d => Some (4096 * a + 256 * b + 16 * c + d, l)
      | _, _, _, _ => None
      end
  | _ => None
  end.

Definition is_surrogate (r : Z) : bool := (55296 <=? r) && (r <=? 57343).
(** The second half of a surrogate pair, when it follows. *)
Definition low_half (r : Z) (l : list ascii) : option (Z * list ascii) :=
  match l with
  | b :: u :: l' =>
      if Ascii.eqb b backslash && Ascii.eqb u "u" && (r <? 56320) then
        match read_hex4 l' with
        | Some (r2, rest) => if (56320 <=? r2) && (r2 <=? 57343) then Some ((r - 55296) * 1024 + (r2 - 56320) + 65536, rest) else None
        | None => None
        end
      else None
  | _ => None
  end.
Definition unescape (e : ascii) : option ascii :=
  if existsb (Ascii.eqb e) [quote; backslash; "/"%char] then Some e
  else if Ascii.eqb e "b" then Some (ascii_of_nat 8)
  else if Ascii.eqb e "f" then Some (ascii_of_nat 12)
  else if Ascii.eqb e "n" then Some (ascii_of_nat 10)
  else if Ascii.eqb e "r" then Some (ascii_of_nat 13)
  else if Ascii.eqb e "t" then Some (ascii_of_nat 9)
  else None.

(** One character of a string: its bytes and what follows. *)
Definition read_char (c : ascii) (rest : list ascii) : option (list ascii * list ascii) :=
  if Ascii.eqb c backslash then
    match rest with
    | [] => None
    | e :: rest =>
        if Ascii.eqb e "u" then
          match read_hex4 rest with
          | None => None
          | Some (r, rest) =>
              if is_surrogate r then
                match low_half r rest with
                | Some (r, rest) => Some (encode_rune r, rest)
                | None => Some (replacement, rest)
                end
              else Some (encode_rune r, rest)
          end
        else (fun x => ([x], rest)) <$> unescape e
    end
  else if byte_of c <? 32 then None
  else
    let p := (fun x : Z * nat => (x.1, take x.2 (c :: rest))) (decode_rune (c :: rest)) in
    Some (seg_bytes p, drop (length p.2) (c :: rest)).

(** The characters up to the closing quote. *)
Fixpoint read_string (fuel : nat) (l : list ascii) : option (list ascii * list ascii) :=
  match fuel, l with
  | O, _ | _, [] => None
  | S fuel, c :: rest =>
      if Ascii.eqb c quote then Some ([], rest)
      else
        match read_char c rest with
        | None => None
        | Some (b, rest) => match read_string fuel rest with Some (s, rest) => Some (b ++ s, rest) | None => None end
        end
  end.

Definition is_dec_digit (c : ascii) : bool := in_range 48 57 c.
Fixpoint span {A} (f : A -> bool) (l : list A) : list A * list A :=
  match l with
  | x :: l' => if f x then let '(a, b) := span f l' in (x :: a, b) else ([], l)
  | [] => ([], [])
  end.
(** A sign, an integer part without leading zeros, a fraction, an exponent. *)
Definition read_fraction (l : list ascii) : option (list ascii * list ascii) :=
  match l with
  | c :: l' => if Ascii.eqb c "." then match span is_dec_digit l' with ([], _) => None | (d, rest) => Some (c :: d, rest) end
               else Some ([], l)
  | [] => Some ([], [])
  end.
Definition read_exponent (l : list ascii) : option (list ascii * list ascii) :=
  match l with
  | c :: l' =>
      if Ascii.eqb c "e" || Ascii.eqb c "E" then
        let '(sign, l'') := match l' with
                            | s :: l'' => if Ascii.eqb s "+" || Ascii.eqb s "-" then ([s], l'') else ([], l')
                            | [] => ([], [])
                            end in
        match span is_dec_digit l'' with ([], _) => None | (d, rest) => Some (c :: sign ++ d, rest) end
      else Some ([], l)
  | [] => Some ([], [])
  end.
Definition read_number (l : list ascii) : option (json * list ascii) :=
  let '(sign, l) := match l with c :: l' => if Ascii.eqb c "-" then ([c], l') else ([], l) | [] => ([], []) end in
  match span is_dec_digit l with
  | ([], _) => None
  | (d :: ds, rest) =>
      if Ascii.eqb d "0" && negb (bool_decide (ds = [])) then None
      else
        match read_fraction rest with
        | None => None
        | Some (frac, rest) =>
            match read_exponent rest with
            | None => None
            | Some (exp, rest) =>
                match frac, exp, parse_digits (d :: ds) with
                | [], [], Some n => Some (JNum (match sign with [] => n | _ => - n end), rest)
                | _, _, _ => Some (JDec (str_of (sign ++ d :: ds ++ frac ++ exp)), rest)
                end
            end
        end
  end.

Fixpoint read_literal (w l : list ascii) : option (list ascii) :=
  match w, l with
  | [], _ => Some l
  | c :: w, x :: l => if Ascii.eqb c x then read_literal w l else None
  | _, [] => None
  end.

Definition maxNestingDepth : Z := 10000.

Fixpoint read_value (fuel : nat) (depth : Z) (l : list ascii) : option (json * list ascii) :=
  match fuel with
  | O => None
  | S fuel =>
      match skip_ws l with
      | [] => None
      | c :: rest =>
          if Ascii.eqb c "{" then
            if maxNestingDepth <=? depth then None
            else match skip_ws rest with
                 | x :: rest' => if Ascii.eqb x "}" then Some (JObj [], rest')
                                 else match read_members fuel (depth + 1) rest with Some (m, rest) => Some (JObj m, rest) | None => None end
                 | [] => None
                 end
          else if Ascii.eqb c "[" then
            if maxNestingDepth <=? depth then None
            else match skip_ws rest with
                 | x :: rest' => if Ascii.eqb x "]" then Some (JArr [], rest')
                                 else match read_elements fuel (depth + 1) rest with Some (m, rest) => Some (JArr m, rest) | None => None end
                 | [] => None
                 end
          else if Ascii.eqb c quote then
            match read_string (length rest) rest with Some (s, rest) => Some (JStr (str_of s), rest) | None => None end
          else if Ascii.eqb c "n" then (fun rest => (JNull, rest)) <$> read_literal (bytes_of "ull") rest
          else if Ascii.eqb c "t" then (fun rest => (JBool true, rest)) <$> read_literal (bytes_of "rue") rest
          else if Ascii.eqb c "f" then (fun rest => (JBool false, rest)) <$> read_literal (bytes_of "alse") rest
          else read_number (c :: rest)
      end
  end
with read_elements (fuel : nat) (depth : Z) (l : list ascii) : option (list json * list ascii) :=
  match fuel with
  | O => None
  | S fuel =>
      match read_value fuel depth l with
      | None => None
      | Some (j, rest) =>
          match skip_ws rest with
          | c :: rest =>
              if Ascii.eqb c "]" then Some ([j], rest)
              else if Ascii.eqb c "," then match read_elements fuel depth rest with Some (js, rest) => Some (j :: js, rest) | None => None end
              else None
          | [] => None
          end
      end
  end
with read_members (fuel : nat) (depth : Z) (l : list ascii) : option (list (string * json) * list ascii) :=
  match fuel with
  | O => None
  | S fuel =>
      match skip_ws l with
      | q :: l' =>
          if negb (Ascii.eqb q quote) then None
          else
            match read_string (length l') l' with
            | None => None
            | Some (key, rest) =>
                match skip_ws rest with
                | colon :: rest =>
                    if negb (Ascii.eqb colon ":") then None
                    else
                      match read_value fuel depth rest with
                      | None => None
                      | Some (j, rest) =>
                          match skip_ws rest with
                          | c :: rest =>
                              if Ascii.eqb c "}" then Some ([(str_of key, j)], rest)
                              else if Ascii.eqb c "," then
                                match read_members fuel depth rest with Some (m, rest) => Some ((str_of key, j) :: m, rest) | None => None end
                              else None
                          | [] => None
                          end
                      end
                | [] => None
                end
            end
      | [] => None
      end
  end.

(** A value takes at most two calls a byte. *)
Definition value_fuel (l : list ascii) : nat := 2 * length l + 2.
(** [Decoder.Decode]: the first value and the text after it. *)
Definition Decode (l : list ascii) : option (json * list ascii) := read_value (value_fuel l) 0 l.
Definition Unmarshal (s : string) : option json :=
  match Decode (bytes_of s) with
  | Some (j, rest) => match skip_ws rest with [] => Some j | _ => None end
  | None => None
  end.

(** ** Structs

    A field is its name and what a value does to the struct, [None] for a value of the
    wrong type.  A key is the field with its name or else with its name in another case;
    [null] leaves what is not a slice or a pointer as it is. *)

Definition struct_field (A : Type) : Type := string * (json -> A -> option A).
Definition set_str {A} (f : string -> A -> A) (j : json) (a : A) : option A :=
  match j with JStr s => Some (f s a) | JNull => Some a | _ => None end.
Definition set_int {A} (f : Z -> A -> A) (j : json) (a : A) : option A :=
  match j with JNum z => if is_i64 z then Some (f z a) else None | JNull => Some a | _ => None end.
Definition set_int_ptr {A} (f : option Z -> A -> A) (j : json) (a : A) : option A :=
  match j with JNum z => if is_i64 z then Some (f (Some z) a) else None | JNull => Some (f None a) | _ => None end.
Definition set_bool {A} (f : bool -> A -> A) (j : json) (a : A) : option A :=
  match j with JBool b => Some (f b a) | JNull => Some a | _ => None end.
Definition set_bool_ptr {A} (f : option bool -> A -> A) (j : json) (a : A) : option A :=
  match j with JBool b => Some (f (Some b) a) | JNull => Some (f None a) | _ => None end.
Definition set_list {A B} (elem : json -> option B) (f : list B -> A -> A) (j : json) (a : A) : option A :=
  match j with JArr l => (fun l => f l a) <$> mapM elem l | JNull => Some (f [] a) | _ => None end.
Definition str_elem (j : json) : option string := match j with JStr s => Some s | JNull => Some EmptyString | _ => None end.

Section Struct.
Context `{Unicode}.

Definition find_field {A} (fields : list (struct_field A)) (key : string) : option (json -> A -> option A) :=
  match List.find (fun f : struct_field A => String.eqb f.1 key) fields with
  | Some f => Some f.2
  | None => snd <$> List.find (fun f : struct_field A => EqualFold f.1 key) fields
  end.
(** Every member in turn; unknown keys are skipped, or refused by [DisallowUnknownFields]. *)
Fixpoint set_members {A} (strict : bool) (fields : list (struct_field A)) (l : list (string * json)) (a : A) : option A :=
  match l with
  | [] => Some a
  | (k, v) :: l =>
      match find_field fields k with
      | Some set => match set v a with Some a => set_members strict fields l a | None => None end
      | None => if strict then None else set_members strict fields l a
      end
  end.
Definition decode_struct {A} (strict : bool) (fields : list (struct_field A)) (zero : A) (j : json) : option A :=
  match j with JObj l => set_members strict fields l zero | JNull => Some zero | _ => None end.
End Struct.

(** [hex.EncodeToString]. *)
Definition hex_encode (l : list ascii) : string :=
  str_of (concat ((fun c => [hex_digit (byte_of c / 16); hex_digit (byte_of c mod 16)]) <$> l)).

Example json_examples :
  Marshal (JObj [("a", JArr [JNum (-3); JBool true; JNull]); ("b<", JStr (str_of [ascii_of_nat 34; ascii_of_nat 10; ascii_of_nat 255]))]%string)
    = str_of (bytes_of "{" ++ [quote] ++ bytes_of "a" ++ [quote] ++ bytes_of ":[-3,true,null]," ++ [quote] ++ bytes_of "b\u003c" ++ [quote]
              ++ bytes_of ":" ++ [quote] ++ [backslash; quote] ++ bytes_of "\n\ufffd" ++ [quote] ++ bytes_of "}") /\
  Unmarshal " [1, 2.50e+1 ,-0] " = Some (JArr [JNum 1; JDec "2.50e+1"; JNum 0]) /\
  Unmarshal "[01]" = None /\ Unmarshal "[1,]" = None /\ Unmarshal "{}x" = None /\
  Unmarshal (str_of (quote :: bytes_of "\ud83d\ude00\ud83d" ++ [quote])) = Some (JStr (str_of (encode_rune 128512 ++ replacement))).
Proof. repeat split; vm_compute; reflexivity. Qed.

(** ** Lemmas: characters *)

Lemma byte_of_nat (c : ascii) n : byte_of c = Z.of_nat n -> c = ascii_of_nat n.
Proof. intros Hc. unfold byte_of in Hc. apply Nat2Z.inj in Hc. by rewrite <- Hc, ascii_nat_embedding. Qed.
Lemma byte_of_inj a b : byte_of a = byte_of b -> a = b.
Proof. intros He. rewrite (byte_of_nat a (nat_of_ascii b)); [apply ascii_nat_embedding|exact He]. Qed.
Lemma byte_of_range c : 0 <= byte_of c < 256.
Proof. unfold byte_of. pose proof (nat_ascii_bounded c). lia. Qed.
(** A boolean statement about every byte is checked on all of them. *)
Lemma all_bytes (P : ascii -> bool) : forallb (fun n => P (ascii_of_nat n)) (seq 0 256) = true -> forall c, P c = true.
Proof.
  intros Hall c. rewrite forallb_forall in Hall. rewrite <- (ascii_nat_embedding c). apply Hall, in_seq.
  pose proof (nat_ascii_bounded c). lia.
Qed.

(** What [segs] makes a segment of. *)
Definition is_seg (p : Z * list ascii) : Prop := exists b l, p = ((decode_rune (b :: l)).1, take (decode_rune (b :: l)).2 (b :: l)).
Lemma segs_are l : Forall is_seg (segs l).
Proof.
  remember (length l) as n eqn:Hn. revert l Hn. induction n as [n IH] using lt_wf_ind. intros [|b l] Hn; [constructor|].
  rewrite segs_cons. constructor; [by exists b, l|]. pose proof (decode_rune_size b l). cbn [length] in Hn.
  eapply (IH (length (drop (decode_rune (b :: l)).2 (b :: l)))); [rewrite length_drop; cbn [length]; lia|done].
Qed.

(** A rune that is not an error keeps its reading whatever follows it. *)
Lemma decode_rune_app b l k : bad_seg ((decode_rune (b :: l)).1, take (decode_rune (b :: l)).2 (b :: l)) = false ->
  decode_rune (take (decode_rune (b :: l)).2 (b :: l) ++ k) = decode_rune (b :: l) /\
  length (take (decode_rune (b :: l)).2 (b :: l)) = (decode_rune (b :: l)).2 /\
  exists t, take (decode_rune (b :: l)).2 (b :: l) = b :: t /\ (byte_of b < 128 -> t = [] /\ (decode_rune (b :: l)).1 = byte_of b)
    /\ (128 <= byte_of b -> 128 <= (decode_rune (b :: l)).1).
Proof.
  assert (Hbad : forall x : list ascii, bad_seg (rune_error, take 1 (b :: x)) = true) by (intros x; destruct x; reflexivity).
  unfold decode_rune. cbv zeta. pose proof (byte_of_range b) as Hb.
  destruct (byte_of b <? 128) eqn:H1; [|destruct (byte_of b <? 194) eqn:H2; [cbn [fst snd]; intros E; by rewrite Hbad in E|
    destruct (byte_of b <? 224) eqn:H3; [|destruct (byte_of b <? 240) eqn:H4; [|destruct (byte_of b <? 245) eqn:H5]]]].
  - intros _. cbn [fst snd take app]. rewrite H1. b2p. split_and!; [done|done|]. exists []. split_and!; [done|done|lia].
  - destruct l as [|b1 l]; [cbn [fst snd]; intros E; by rewrite Hbad in E|].
    destruct (is_cont b1) eqn:Hc; [|cbn [fst snd]; intros E; by rewrite Hbad in E]. intros _.
    cbn [fst snd take app]. rewrite H1, H2, H3, Hc. unfold is_cont, in_range in Hc. b2p.
    split_and!; [done|done|]. exists [b1]. split_and!; [done|lia|lia].
  - destruct l as [|b1 [|b2 l]]; [cbn [fst snd]; intros E; by rewrite Hbad in E..|].
    destruct (in_range _ _ b1 && is_cont b2) eqn:Hc; [|cbn [fst snd]; intros E; by rewrite Hbad in E]. intros _.
    cbn [fst snd take app]. rewrite H1, H2, H3, H4, Hc. split_and!; [done|done|]. exists [b1; b2].
    unfold is_cont, in_range in Hc. b2p. split_and!; [done|lia|intros _]. destruct (byte_of b =? 224) eqn:Hsix; b2p; lia.
  - destruct l as [|b1 [|b2 [|b3 l]]]; [cbn [fst snd]; intros E; by rewrite Hbad in E..|].
    destruct (in_range _ _ b1 && is_cont b2 && is_cont b3) eqn:Hc; [|cbn [fst snd]; intros E; by rewrite Hbad in E]. intros _.
    cbn [fst snd take app]. rewrite H1, H2, H3, H4, H5, Hc. split_and!; [done|done|]. exists [b1; b2; b3].
    unfold is_cont, in_range in Hc. b2p. split_and!; [done|lia|intros _]. destruct (byte_of b =? 240) eqn:Hsix; b2p; lia.
  - cbn [fst snd]; intros E; by rewrite Hbad in E.
Qed.

Lemma hex_value_digit n : 0 <= n < 16 -> hex_value (hex_digit n) = Some n.
Proof.
  intros Hn. assert (Hall : forallb (fun k => bool_decide (hex_value (hex_digit (Z.of_nat k)) = Some (Z.of_nat k))) (seq 0 16) = true)
    by (vm_compute; reflexivity).
  rewrite forallb_forall in Hall. specialize (Hall (Z.to_nat n) ltac:(apply in_seq; lia)).
  apply bool_decide_eq_true in Hall. by rewrite Z2Nat.id in Hall by lia.
Qed.
Lemma read_hex4_write r k : 0 <= r < 65536 -> read_hex4 (hex4 r ++ k) = Some (r, k).
Proof.
  intros Hr. unfold hex4, read_hex4. cbn [app]. rewrite !hex_value_digit by (apply Z.mod_pos_bound; lia).
  do 2 f_equal. Z.to_euclidean_division_equations. lia.
Qed.

(** The runes that are escaped are read from the bytes that encode them. *)
Lemma seg_escaped p : is_seg p -> bad_seg p = false -> (p.1 < 128 \/ p.1 = 8232 \/ p.1 = 8233) -> p.2 = encode_rune p.1.
Proof.
  intros (b & l & ->) Hbad Hr. cbn [fst snd] in *. pose proof (byte_of_range b) as Hb.
  destruct (decode_rune_app b l [] Hbad) as (_ & _ & t & Ht & Hlt & Hge).
  destruct (Z.lt_ge_cases (byte_of b) 128) as [Hs|Hs].
  - destruct (Hlt Hs) as [-> E]. rewrite Ht, E. unfold encode_rune.
    replace ((byte_of b <? 0) || (1114111 <? byte_of b) || _) with false by (symmetry; repeat (apply orb_false_iff; split); try apply andb_false_iff; lia).
    replace (byte_of b <? 128) with true by lia. f_equal. apply byte_of_nat. lia.
  - specialize (Hge Hs). assert (Hr' : (decode_rune (b :: l)).1 = 8232 \/ (decode_rune (b :: l)).1 = 8233) by lia. clear Hr Hge Hlt Ht t.
    revert Hbad Hr'. unfold decode_rune. cbv zeta. replace (byte_of b <? 128) with false by lia.
    destruct (byte_of b <? 194) eqn:H2; [intros _ [?|?]; discriminate|].
    destruct (byte_of b <? 224) eqn:H3.
    { destruct l as [|b1 l]; [intros _ [?|?]; discriminate|]. destruct (is_cont b1) eqn:Hc; [|intros _ [?|?]; discriminate].
      unfold is_cont, in_range in Hc. cbn [fst]. intros _ Hr. b2p. exfalso. lia. }
    destruct (byte_of b <? 240) eqn:H4.
    + destruct l as [|b1 [|b2 l]]; [intros _ [?|?]; discriminate..|].
      destruct (in_range _ _ b1 && is_cont b2) eqn:Hc; [|intros _ [?|?]; discriminate].
      unfold is_cont, in_range in Hc. cbn [fst snd take]. intros _ Hr. cbv zeta in Hc.
      destruct (byte_of b =? 224) eqn:Hsix; destruct (byte_of b =? 237) eqn:Hed; b2p; try (exfalso; lia).
      assert (b = ascii_of_nat 226) as -> by (apply byte_of_nat; lia). assert (b1 = ascii_of_nat 128) as -> by (apply byte_of_nat; lia).
      destruct Hr as [Hr|Hr]; [assert (b2 = ascii_of_nat 168) as -> by (apply byte_of_nat; lia)|
        assert (b2 = ascii_of_nat 169) as -> by (apply byte_of_nat; lia)]; rewrite Hr; reflexivity.
    + destruct (byte_of b <? 245) eqn:H5; [|intros _ [?|?]; discriminate].
      destruct l as [|b1 [|b2 [|b3 l]]]; [intros _ [?|?]; discriminate..|].
      destruct (in_range _ _ b1 && is_cont b2 && is_cont b3) eqn:Hc; [|intros _ [?|?]; discriminate].
      unfold is_cont, in_range in Hc. cbn [fst]. intros _ Hr. cbv zeta in Hc. destruct (byte_of b =? 240) eqn:Hsix; destruct (byte_of b =? 244) eqn:Hed; b2p; exfalso; lia.
Qed.

(** One written character is read back, whatever follows it. *)
Lemma read_char_escape r k : 0 <= r < 65536 -> is_surrogate r = false ->
  read_char backslash ("u"%char :: hex4 r ++ k) = Some (encode_rune r, k).
Proof. intros Hr Hs. unfold read_char. cbn -[read_hex4 hex4 is_surrogate encode_rune]. by rewrite read_hex4_write, Hs by done. Qed.

Lemma read_char_write p k : is_seg p ->
  exists c t, write_rune p = c :: t /\ c <> quote /\ read_char c (t ++ k) = Some (seg_bytes p, k).
Proof.
  intros Hp. unfold write_rune. destruct (bad_seg p) eqn:Hbad.
  { exists backslash, ("u"%char :: hex4 rune_error). split_and!; [done|done|]. cbn [app]. rewrite read_char_escape by done.
    unfold seg_bytes. by rewrite Hbad. }
  assert (Hsb : seg_bytes p = p.2) by (unfold seg_bytes; by rewrite Hbad). rewrite Hsb.
  pose proof (seg_escaped p Hp Hbad) as Hesc.
  repeat match goal with
  | |- context [if p.1 =? ?n then _ else _] =>
      destruct (Z.eqb_spec p.1 n) as [E|]; [exists backslash; eexists; split_and!; [reflexivity|done|]; rewrite Hesc, E by lia; reflexivity|]
  end.
  destruct (must_escape p.1) eqn:Hm.
  - assert (Hr : p.1 < 128 \/ p.1 = 8232 \/ p.1 = 8233).
    { unfold must_escape in Hm. repeat (apply orb_true_iff in Hm as [Hm|Hm]; b2p; [lia|]); b2p; lia. }
    assert (0 <= p.1).
    { destruct Hp as (b & l & ->). cbn [fst snd] in *. destruct (decode_rune_app b l [] Hbad) as (_ & _ & t & _ & Hlt & Hge).
      pose proof (byte_of_range b). destruct (Z.lt_ge_cases (byte_of b) 128) as [Hs|Hs]; [destruct (Hlt Hs); lia|specialize (Hge Hs); lia]. }
    exists backslash, ("u"%char :: hex4 p.1). split_and!; [done|done|]. cbn [app]. rewrite Hesc by done. apply read_char_escape; [lia|].
    unfold is_surrogate. apply andb_false_iff. lia.
  - destruct Hp as (b & l & ->). cbn [fst snd] in *. destruct (decode_rune_app b l k Hbad) as (Hdec & Hlen & t & Ht & Hlt & Hge).
    rewrite Ht in *. exists b, t. split; [done|]. pose proof (byte_of_range b) as Hb.
    assert (Hne : byte_of b <> 34 /\ byte_of b <> 92 /\ 32 <= byte_of b).
    { destruct (Z.lt_ge_cases (byte_of b) 128) as [Hs|Hs]; [|lia]. destruct (Hlt Hs) as [_ E]. rewrite E in *.
      unfold must_escape in Hm. b2p. lia. }
    split; [intros ->; by apply Hne|]. unfold read_char. change (b :: t ++ k) with ((b :: t) ++ k). rewrite Hdec.
    assert (Htake : take (decode_rune (b :: l)).2 ((b :: t) ++ k) = b :: t) by (rewrite <- Hlen; apply take_app_length).
    destruct (Ascii.eqb_spec b backslash) as [->|]; [by destruct Hne|]. replace (byte_of b <? 32) with false by lia.
    cbv zeta. cbn [fst snd]. rewrite Htake. rewrite Hsb. rewrite drop_app_length. done.
Qed.

Lemma read_string_write ps n k : Forall is_seg ps -> (length (concat (write_rune <$> ps)) < n)%nat ->
  read_string n (concat (write_rune <$> ps) ++ quote :: k) = Some (concat (seg_bytes <$> ps), k).
Proof.
  intros Hps. revert n. induction Hps as [|p ps Hp _ IH]; intros [|n] Hn; csimpl in *; try lia; [done|].
  rewrite length_app in Hn. destruct (read_char_write p (concat (write_rune <$> ps) ++ quote :: k) Hp) as (c & t & Hw & Hc & Hr).
  rewrite <- app_assoc, Hw in *. cbn [app read_string length] in *.
  destruct (Ascii.eqb_spec c quote) as [->|]; [done|]. rewrite Hr, IH by lia. done.
Qed.

Lemma read_written_string s k n : (length (write_string s) <= S n)%nat ->
  exists l, write_string s ++ k = quote :: l /\ read_string n l = Some (bytes_of (coerce_utf8 s), k).
Proof.
  intros Hn. unfold write_string in *. exists (concat (write_rune <$> segs (bytes_of s)) ++ quote :: k).
  split; [cbn [app]; by rewrite <- app_assoc|]. cbn [length] in Hn. rewrite length_app in Hn. cbn [length] in Hn. unfold coerce_utf8. rewrite bytes_of_str_of.
  apply read_string_write; [apply segs_are|lia].
Qed.

(** ** Lemmas: numbers *)

(** What may follow a number. *)
Definition ends_number (k : list ascii) : Prop :=
  match k with [] => True | c :: _ => is_dec_digit c = false /\ c <> "."%char /\ c <> "e"%char /\ c <> "E"%char end.

Lemma span_all {A} (f : A -> bool) l k : forallb f l = true -> match k with [] => True | c :: _ => f c = false end -> span f (l ++ k) = (l, k).
Proof.
  intros Hl Hk. induction l as [|x l IH]; cbn [app].
  - destruct k as [|c k]; [done|]. cbn [span]. by rewrite Hk.
  - cbn [forallb] in Hl. apply andb_prop in Hl as [Hx Hl]. cbn [span]. by rewrite Hx, IH.
Qed.

Lemma digit_char_dec d : 0 <= d <= 9 -> is_dec_digit (digit_char d) = true.
Proof. intros Hd. assert (d = 0 \/ d = 1 \/ d = 2 \/ d = 3 \/ d = 4 \/ d = 5 \/ d = 6 \/ d = 7 \/ d = 8 \/ d = 9) as Hc by lia. by destruct_or!; subst. Qed.

Lemma digits_dec fuel n : 0 <= n -> forallb is_dec_digit (digits fuel n) = true.
Proof.
  revert n. induction fuel as [|fuel IH]; intros n Hn; cbn [digits]; [done|]. destruct (Z.ltb_spec n 10).
  - cbn [forallb]. by rewrite digit_char_dec by lia.
  - rewrite forallb_app, IH by (apply Z.div_pos; lia). cbn [forallb]. pose proof (Z.mod_pos_bound n 10 ltac:(lia)). by rewrite digit_char_dec by lia.
Qed.

(** No leading zero. *)
Lemma digits_lead fuel n : 0 <= n < 10 ^ Z.of_nat fuel -> (0 < fuel)%nat ->
  exists d ds, digits fuel n = d :: ds /\ is_dec_digit d = true /\ (d = "0"%char -> ds = []).
Proof.
  revert n. induction fuel as [|fuel IH]; intros n Hn Hf; [lia|]. cbn [digits]. destruct (Z.ltb_spec n 10).
  - exists (digit_char n), []. split_and!; [done|apply digit_char_dec; lia|done].
  - rewrite Nat2Z.inj_succ, Z.pow_succ_r in Hn by lia. assert (n / 10 < 10 ^ Z.of_nat fuel) by (apply Z.div_lt_upper_bound; lia).
    assert (1 <= n / 10) by (apply Z.div_le_lower_bound; lia). assert (0 < fuel)%nat by (destruct fuel; [simpl in *; lia|lia]).
    destruct (IH (n / 10)) as (d & ds & E & Hd & Hz); [lia|done|]. rewrite E. exists d, (ds ++ [digit_char (n mod 10)]). split_and!; [done|done|].
    intros ->. rewrite (Hz eq_refl) in E. pose proof (digits_roundtrip fuel (n / 10) ltac:(lia) ltac:(lia)) as Hv. rewrite E in Hv.
    change (digits_value 0 ["0"%char]) with (Some 0) in Hv. assert (n / 10 = 0) by congruence. lia.
Qed.

Lemma read_number_digits (sign : list ascii) n k : sign = [] \/ sign = ["-"%char] -> 0 <= n < 10 ^ 20 -> ends_number k ->
  read_number (sign ++ digits 20 n ++ k) = Some (JNum (match sign with [] => n | _ => - n end), k).
Proof.
  intros Hs Hn Hk. destruct (digits_lead 20 n ltac:(lia) ltac:(lia)) as (d & ds & E & Hd & Hz).
  pose proof (digits_roundtrip 20 n ltac:(lia) ltac:(lia)) as Hv. pose proof (digits_dec 20 n ltac:(lia)) as Hall. rewrite E in *.
  assert (Hspan : span is_dec_digit ((d :: ds) ++ k) = (d :: ds, k)) by (apply span_all; [done|destruct k; [done|apply Hk]]).
  assert (Hf : read_fraction k = Some ([], k)) by (destruct k as [|c k]; [done|]; destruct Hk as (_ & Hk & _); cbn; by destruct (Ascii.eqb_spec c ".")).
  assert (He : read_exponent k = Some ([], k)).
  { destruct k as [|c k]; [done|]. destruct Hk as (_ & _ & Hk1 & Hk2). cbn.
    destruct (Ascii.eqb_spec c "e"); [done|]. by destruct (Ascii.eqb_spec c "E"). }
  assert (Hm : Ascii.eqb d "-" = false) by (destruct (Ascii.eqb_spec d "-") as [->|]; [vm_compute in Hd; discriminate|done]).
  assert (Hlead : Ascii.eqb d "0" && negb (bool_decide (ds = [])) = false).
  { destruct (Ascii.eqb_spec d "0") as [->|]; [|done]. by rewrite (Hz eq_refl). }
  unfold read_number. destruct Hs as [-> | ->].
  - cbn [app]. rewrite Hm. change (d :: ds ++ k) with ((d :: ds) ++ k). rewrite Hspan, Hlead, Hf, He. cbn [parse_digits]. by rewrite Hv.
  - cbn [app]. change (Ascii.eqb "-" "-") with true. cbn iota. change (d :: ds ++ k) with ((d :: ds) ++ k).
    rewrite Hspan, Hlead, Hf, He. cbn [parse_digits]. by rewrite Hv.
Qed.

Lemma read_written_number z k : is_i64 z = true -> ends_number k -> read_number (bytes_of (FormatInt z) ++ k) = Some (JNum z, k).
Proof.
  intros Hz Hk. unfold is_i64, min_int64, max_int64 in Hz. b2p. unfold FormatInt. rewrite bytes_of_str_of. destruct (Z.ltb_spec z 0).
  - change ("-"%char :: digits 20 (- z)) with (["-"%char] ++ digits 20 (- z)). rewrite <- app_assoc.
    rewrite read_number_digits by first [done|by right|lia]. by rewrite Z.opp_involutive.
  - change (digits 20 z ++ k) with ([] ++ digits 20 z ++ k). by rewrite read_number_digits by first [done|by left|lia].
Qed.

(** ** Lemmas: documents *)

Section JsonInd.
Variable P : json -> Prop.
Hypothesis Hnull : P JNull.
Hypothesis Hbool : forall b, P (JBool b).
Hypothesis Hnum : forall z, P (JNum z).
Hypothesis Hdec : forall l, P (JDec l).
Hypothesis Hstr : forall s, P (JStr s).
Hypothesis Harr : forall l, Forall P l -> P (JArr l).
Hypothesis Hobj : forall l, Forall (fun kv : string * json => P kv.2) l -> P (JObj l).
Fixpoint json_nested (j : json) : P j :=
  match j with
  | JNull => Hnull | JBool b => Hbool b | JNum z => Hnum z | JDec l => Hdec l | JStr s => Hstr s
  | JArr l => Harr l ((fix go (l : list json) : Forall P l :=
      match l with [] => Forall_nil_2 _ | j :: l => Forall_cons_2 _ _ _ (json_nested j) (go l) end) l)
  | JObj l => Hobj l ((fix go (l : list (string * json)) : Forall (fun kv : string * json => P kv.2) l :=
      match l with [] => Forall_nil_2 _ | kv :: l => Forall_cons_2 _ _ _ (json_nested kv.2) (go l) end) l)
  end.
End JsonInd.

(** Documents as [Marshal] writes them for the program's values: integers fit 64 bits. *)
Fixpoint plain (j : json) : bool :=
  match j with
  | JNum z => is_i64 z
  | JDec _ => false
  | JArr l => forallb plain l
  | JObj l => forallb (fun kv : string * json => plain kv.2) l
  | _ => true
  end.
Definition max_of (l : list Z) : Z := foldr Z.max 0 l.
Fixpoint nesting (j : json) : Z :=
  match j with
  | JArr l => 1 + max_of (nesting <$> l)
  | JObj l => 1 + max_of ((fun kv : string * json => nesting kv.2) <$> l)
  | _ => 0
  end.
(** What a reader gets: text without invalid bytes. *)
Fixpoint clean (j : json) : json :=
  match j with
  | JStr s => JStr (coerce_utf8 s)
  | JArr l => JArr (clean <$> l)
  | JObj l => JObj ((fun kv : string * json => (coerce_utf8 kv.1, clean kv.2)) <$> l)
  | j => j
  end.

Lemma read_literal_app w k : read_literal w (w ++ k) = Some k.
Proof. induction w as [|c w IH]; [done|]. cbn [app read_literal]. by rewrite Ascii.eqb_refl. Qed.

(** The first character of a value: not a space, and no closing bracket. *)
Lemma write_json_head j : plain j = true -> exists c t, write_json j = c :: t /\ is_json_space c = false /\ c <> "]"%char.
Proof.
  assert (Hsome : forall c t, is_json_space c = false -> c <> "]"%char -> exists c' t', c :: t = c' :: t' /\ is_json_space c' = false /\ c' <> "]"%char) by eauto.
  destruct j as [|b|z|lit|s|l|l]; intros Hp; try (by apply Hsome).
  - destruct b; by apply Hsome.
  - cbn [write_json plain] in *. unfold FormatInt. rewrite bytes_of_str_of. unfold is_i64, min_int64, max_int64 in Hp. b2p.
    destruct (Z.ltb_spec z 0); [by apply Hsome|]. destruct (digits_lead 20 z) as (d & ds & -> & Hd & _); [lia|lia|].
    exists d, ds. split; [done|]. revert Hd.
    pose proof (all_bytes (fun d => negb (is_dec_digit d) || (negb (is_json_space d) && negb (Ascii.eqb d "]"))) ltac:(vm_compute; reflexivity) d) as Hall.
    intros Hd. cbv beta in Hall. rewrite Hd in Hall. cbn [negb orb] in Hall. b2p. split; [done|]. intros ->. done.
  - done.
Qed.

Lemma skip_ws_head c r : is_json_space c = false -> skip_ws (c :: r) = c :: r.
Proof. intros Hc. unfold skip_ws. cbn [drop_while]. by rewrite Hc. Qed.

Lemma max_of_elem x l : x ∈ l -> x <= max_of l.
Proof. induction 1 as [x l|x y l _ IH]; simpl; lia. Qed.

(** A number is read by the default branch. *)
Lemma read_value_number fuel d z k : is_i64 z = true -> ends_number k -> read_value (S fuel) d (bytes_of (FormatInt z) ++ k) = Some (JNum z, k).
Proof.
  intros Hz Hk. pose proof (read_written_number z k Hz Hk) as Hr. revert Hr. unfold FormatInt. rewrite bytes_of_str_of.
  unfold is_i64, min_int64, max_int64 in Hz. b2p. destruct (Z.ltb_spec z 0); [intros Hr; exact Hr|].
  destruct (digits_lead 20 z) as (c & ds & -> & Hc & _); [lia|lia|]. cbn [app read_value]. intros Hr.
  pose proof (all_bytes (fun d => negb (is_dec_digit d) || (negb (is_json_space d) && negb (existsb (Ascii.eqb d) (quote :: bytes_of "{[ntf"))))
    ltac:(vm_compute; reflexivity) c) as Hall.
  cbv beta in Hall. rewrite Hc in Hall. cbn [negb orb] in Hall. b2p. unfold skip_ws. cbn [drop_while].
  match goal with Hs : is_json_space c = false |- _ => rewrite Hs end.
  match goal with Hs : existsb _ _ = false |- _ => cbn [existsb bytes_of list_ascii_of_string] in Hs; b2p end.
  repeat match goal with Hs : Ascii.eqb c _ = false |- _ => rewrite Hs; clear Hs end. exact Hr.
Qed.

Definition reads (j : json) : Prop := plain j = true -> forall fuel d k,
  (2 * length (write_json j) <= fuel)%nat -> d + nesting j <= maxNestingDepth -> ends_number k ->
  read_value fuel d (write_json j ++ k) = Some (clean j, k).

Lemma commas_cons {A} (f : A -> list ascii) x y l : commas f (x :: y :: l) = f x ++ ","%char :: commas f (y :: l).
Proof. done. Qed.

Lemma read_written_elements l fuel d k : Forall reads l -> l <> [] -> forallb plain l = true ->
  (2 * length (commas write_json l) < fuel)%nat -> d + max_of (nesting <$> l) <= maxNestingDepth ->
  read_elements fuel d (commas write_json l ++ "]"%char :: k) = Some (clean <$> l, k).
Proof.
  intros Hl. revert fuel. induction Hl as [|x l Hx Hl IH]; intros [|fuel] Hne Hp Hf Hd; try done; [lia|].
  cbn [forallb] in Hp. apply andb_prop in Hp as [Hpx Hp]. cbn [fmap list_fmap max_of foldr] in Hd. cbn [read_elements].
  destruct l as [|y l].
  - cbn [commas] in *. rewrite (Hx Hpx) by (first [done|lia|by split_and!]). done.
  - rewrite commas_cons in *. rewrite length_app in Hf. cbn [length] in Hf. rewrite <- app_assoc. cbn [app].
    rewrite (Hx Hpx), skip_ws_head by (first [done|lia|by split_and!]).
    change (Ascii.eqb "," "]") with false. change (Ascii.eqb "," ",") with true. cbn iota.
    rewrite IH by (first [done|lia|(fold (max_of (nesting <$> y :: l)) in Hd; lia)]). done.
Qed.

Definition write_member (kv : string * json) : list ascii := write_string kv.1 ++ ":"%char :: write_json kv.2.
Definition clean_member (kv : string * json) : string * json := (coerce_utf8 kv.1, clean kv.2).

Lemma read_written_members l fuel d k : Forall (fun kv : string * json => reads kv.2) l -> l <> [] ->
  forallb (fun kv : string * json => plain kv.2) l = true ->
  (2 * length (commas write_member l) < fuel)%nat -> d + max_of ((fun kv : string * json => nesting kv.2) <$> l) <= maxNestingDepth ->
  read_members fuel d (commas write_member l ++ "}"%char :: k) = Some (clean_member <$> l, k).
Proof.
  intros Hl. revert fuel. induction Hl as [|[key x] l Hx Hl IH]; intros [|fuel] Hne Hp Hf Hd; try done; [lia|].
  cbn [forallb snd] in Hp. apply andb_prop in Hp as [Hpx Hp]. cbn [fmap list_fmap max_of foldr snd] in *.
  assert (Hone : forall rest, (2 * length (write_json x) <= fuel)%nat -> ends_number rest ->
    read_members (S fuel) d (write_member (key, x) ++ rest) =
    match skip_ws rest with
    | c :: rest => if Ascii.eqb c "}" then Some ([(coerce_utf8 key, clean x)], rest)
                   else if Ascii.eqb c "," then match read_members fuel d rest with Some (m, rest) => Some ((coerce_utf8 key, clean x) :: m, rest) | None => None end
                   else None
    | [] => None
    end).
  { intros rest Hlen Hend. unfold write_member. cbn [fst snd]. rewrite <- app_assoc. cbn [app].
    set (r := ":"%char :: write_json x ++ rest).
    destruct (read_written_string key r (length (write_string key ++ r) - 1)) as (l' & Hw & Hs).
    { rewrite length_app. unfold r. cbn [length]. lia. }
    rewrite Hw in *. cbn [length] in Hs. rewrite Nat.sub_1_r in Hs. cbn [Nat.pred] in Hs.
    cbn [read_members]. change (skip_ws (quote :: l')) with (quote :: l'). cbn iota. rewrite Ascii.eqb_refl. cbn [negb]. rewrite Hs.
    unfold r. change (skip_ws (":"%char :: write_json x ++ rest)) with (":"%char :: write_json x ++ rest). cbn iota.
    change (negb (Ascii.eqb ":" ":")) with false. cbn iota. rewrite (Hx Hpx) by (first [done|lia]).
    rewrite str_of_bytes_of. done. }
  destruct l as [|y l].
  - cbn [commas] in *. unfold write_member in Hf. rewrite length_app in Hf. cbn [length snd fst] in Hf.
    rewrite Hone by (first [done|lia|by split_and!]). done.
  - rewrite commas_cons in *. rewrite length_app in Hf. cbn [length] in Hf. unfold write_member in Hf at 1. rewrite length_app in Hf.
    cbn [length snd fst] in Hf. rewrite <- app_assoc. cbn [app]. rewrite Hone by (first [lia|by split_and!]).
    rewrite skip_ws_head by done. change (Ascii.eqb "," "}") with false. change (Ascii.eqb "," ",") with true. cbn iota.
    rewrite IH by (first [done|lia|(fold (max_of ((fun kv : string * json => nesting kv.2) <$> y :: l)) in Hd; lia)]). done.
Qed.

Lemma max_of_nonneg l : 0 <= max_of l.
Proof. induction l; simpl; lia. Qed.

Lemma read_written j : reads j.
Proof.
  induction j as [|b|z|lit|s|l IH|l IH] using json_nested; intros Hp fuel d k Hf Hd Hk.
  - cbn in Hf. destruct fuel; [lia|done].
  - destruct b; cbn in Hf; (destruct fuel; [lia|done]).
  - destruct fuel as [|fuel]; [|by apply read_value_number]. exfalso.
    destruct (write_json_head (JNum z) Hp) as (c & t & E & _). rewrite E in Hf. cbn [length] in Hf. lia.
  - done.
  - cbn [write_json clean] in *. destruct fuel as [|fuel]; [cbn in Hf; lia|].
    destruct (read_written_string s k (length (write_string s ++ k) - 1)) as (l' & Hw & Hs); [rewrite length_app; lia|].
    rewrite Hw in *. cbn [length] in Hs. rewrite Nat.sub_1_r in Hs. cbn [Nat.pred] in Hs. cbn [read_value].
    rewrite skip_ws_head by done. change (Ascii.eqb quote "{") with false. change (Ascii.eqb quote "[") with false.
    cbn iota. by rewrite Ascii.eqb_refl, Hs, str_of_bytes_of.
  - cbn [write_json clean plain nesting] in *. cbn [length] in Hf. rewrite length_app in Hf. cbn [length] in Hf.
    destruct fuel as [|fuel]; [lia|]. pose proof (max_of_nonneg (nesting <$> l)) as Hm.
    cbn [app read_value]. rewrite skip_ws_head by done. change (Ascii.eqb "[" "{") with false. change (Ascii.eqb "[" "[") with true.
    cbn iota. destruct (Z.leb_spec maxNestingDepth d); [lia|]. rewrite <- app_assoc. cbn [app].
    destruct l as [|x l]; [done|]. pose proof Hp as Hpx. cbn [forallb] in Hpx. apply andb_prop in Hpx as [Hpx _].
    destruct (write_json_head x Hpx) as (c & t & Hc & Hsp & Hnb).
    assert (Hh : exists r, commas write_json (x :: l) ++ "]"%char :: k = c :: r).
    { destruct l as [|y l]; [cbn [commas]|rewrite commas_cons]; rewrite Hc; by eexists. }
    destruct Hh as [r Hr]. rewrite Hr, skip_ws_head by done. destruct (Ascii.eqb_spec c "]"); [done|]. rewrite <- Hr.
    by rewrite read_written_elements by (first [done|lia]).
  - cbn [write_json clean plain nesting] in *. cbn [length] in Hf. rewrite length_app in Hf. cbn [length] in Hf.
    destruct fuel as [|fuel]; [lia|]. pose proof (max_of_nonneg ((fun kv : string * json => nesting kv.2) <$> l)) as Hm.
    cbn [app read_value]. rewrite skip_ws_head by done. change (Ascii.eqb "{" "{") with true.
    cbn iota. destruct (Z.leb_spec maxNestingDepth d); [lia|]. rewrite <- app_assoc. cbn [app].
    destruct l as [|x l]; [done|]. change (fun kv : string * json => write_string kv.1 ++ ":"%char :: write_json kv.2) with write_member in *.
    assert (Hh : exists r, commas write_member (x :: l) ++ "}"%char :: k = quote :: r).
    { destruct l as [|y l]; [cbn [commas]|rewrite commas_cons]; by eexists. }
    destruct Hh as [r Hr]. rewrite Hr, skip_ws_head by done. change (Ascii.eqb quote "}") with false. cbn iota. rewrite <- Hr.
    by rewrite read_written_members by (first [done|lia]).
Qed.

(** ** Lemmas: what reading consumes *)

Definition shorter {A} (l : list ascii) (r : option (A * list ascii)) : Prop :=
  match r with Some (_, rest) => (length rest < length l)%nat | None => True end.

Lemma shorter_le {A} (l l' : list ascii) (r : option (A * list ascii)) : shorter l r -> (length l <= length l')%nat -> shorter l' r.
Proof. destruct r as [[a rest]|]; simpl; lia. Qed.

Lemma skip_ws_le l : (length (skip_ws l) <= length l)%nat.
Proof. unfold skip_ws. induction l as [|c l IH]; simpl; [lia|]. destruct (is_json_space c); simpl; lia. Qed.

Lemma read_hex4_shorter l : shorter l (read_hex4 l).
Proof. destruct l as [|a [|b [|c [|d l]]]]; try done. simpl. repeat case_goal; simpl; lia. Qed.
Lemma low_half_le r l : match low_half r l with Some (_, rest) => (length rest <= length l)%nat | None => True end.
Proof.
  destruct l as [|a [|b l]]; try done. unfold low_half. destruct (_ && _); [|done]. pose proof (read_hex4_shorter l) as Hs.
  destruct (read_hex4 l) as [[r2 rest]|]; [|done]. destruct (_ && _); [|done]. simpl in *. lia.
Qed.
Lemma read_char_shorter c l : shorter (c :: l) (read_char c l).
Proof.
  unfold read_char. destruct (Ascii.eqb c backslash).
  - destruct l as [|e l]; [done|]. destruct (Ascii.eqb e "u").
    + pose proof (read_hex4_shorter l) as Hs. destruct (read_hex4 l) as [[r rest]|]; [|done].
      destruct (is_surrogate r); [|simpl in *; lia]. pose proof (low_half_le r rest) as Hl. destruct (low_half r rest) as [[r2 rest2]|]; simpl in *; lia.
    + destruct (unescape e); simpl; [lia|done].
  - destruct (byte_of c <? 32); [done|]. cbv zeta. cbn [fst snd]. unfold shorter. rewrite length_drop, length_take. cbn [length].
    pose proof (decode_rune_size c l). lia.
Qed.
Lemma read_string_shorter n l : shorter l (read_string n l).
Proof.
  revert l. induction n as [|n IH]; intros [|c l]; try done. cbn [read_string]. destruct (Ascii.eqb c quote); [simpl; lia|].
  pose proof (read_char_shorter c l) as Hc. destruct (read_char c l) as [[b rest]|]; [|done].
  pose proof (IH rest) as Hr. destruct (read_string n rest) as [[s rest2]|]; [|done]. simpl in *. lia.
Qed.

Lemma span_length {A} (f : A -> bool) l : (length (span f l).1 + length (span f l).2 = length l)%nat.
Proof. induction l as [|x l IH]; [done|]. simpl. destruct (f x); [|done]. destruct (span f l); simpl in *. lia. Qed.
Lemma read_fraction_le l : match read_fraction l with Some (_, rest) => (length rest <= length l)%nat | None => True end.
Proof.
  destruct l as [|c l]; [cbn; lia|]. cbn [read_fraction]. destruct (Ascii.eqb c "."); [|lia]. pose proof (span_length is_dec_digit l) as Hs.
  destruct (span is_dec_digit l) as [[|d ds] rest]; simpl in *; [done|lia].
Qed.
Lemma read_exponent_le l : match read_exponent l with Some (_, rest) => (length rest <= length l)%nat | None => True end.
Proof.
  destruct l as [|c l]; [cbn; lia|]. cbn [read_exponent]. destruct (_ || _); [|lia]. destruct l as [|s l]; [cbn; done|].
  destruct (Ascii.eqb s "+" || Ascii.eqb s "-"); [pose proof (span_length is_dec_digit l) as Hs|pose proof (span_length is_dec_digit (s :: l)) as Hs];
    destruct (span is_dec_digit _) as [[|d ds] rest]; simpl in *; try done; lia.
Qed.
Lemma read_number_shorter l : shorter l (read_number l).
Proof.
  unfold read_number. destruct (match l with c :: _ => _ | [] => _ end) as [sign l1] eqn:E.
  assert (Hl : (length l1 <= length l)%nat) by (destruct l as [|c l']; [by injection E as _ <-|destruct (Ascii.eqb c "-"); injection E as _ <-; simpl; lia]).
  pose proof (span_length is_dec_digit l1) as Hs. destruct (span is_dec_digit l1) as [[|d ds] rest]; [done|]. cbn [fst snd length] in Hs.
  destruct (_ && _); [done|]. pose proof (read_fraction_le rest) as Hf. destruct (read_fraction rest) as [[frac rest2]|]; [|done].
  pose proof (read_exponent_le rest2) as He. destruct (read_exponent rest2) as [[exp rest3]|]; [|done].
  repeat case_goal; simpl; lia.
Qed.
Lemma read_literal_le w l : match read_literal w l with Some rest => (length rest <= length l)%nat | None => True end.
Proof.
  revert l. induction w as [|c w IH]; intros l; [cbn; lia|]. destruct l as [|x l]; [done|]. cbn [read_literal]. destruct (Ascii.eqb c x); [|done].
  specialize (IH l). destruct (read_literal w l); simpl in *; [lia|done].
Qed.

Lemma read_shorter n : forall d l, shorter l (read_value n d l) /\ shorter l (read_elements n d l) /\ shorter l (read_members n d l).
Proof.
  induction n as [|n IH]; [done|]. intros d l. split_and!.
  - cbn [read_value]. pose proof (skip_ws_le l) as Hw. destruct (skip_ws l) as [|c rest]; [done|].
    eapply shorter_le; [|exact Hw]. destruct (Ascii.eqb c "{"); [|destruct (Ascii.eqb c "[")].
    + destruct (_ <=? _); [done|]. pose proof (skip_ws_le rest) as Hw2. destruct (skip_ws rest) as [|x rest']; [done|].
      destruct (Ascii.eqb x "}"); [simpl in *; lia|]. destruct (IH (d + 1) rest) as (_ & _ & Hm).
      destruct (read_members n (d + 1) rest) as [[m r]|]; simpl in *; [lia|done].
    + destruct (_ <=? _); [done|]. pose proof (skip_ws_le rest) as Hw2. destruct (skip_ws rest) as [|x rest']; [done|].
      destruct (Ascii.eqb x "]"); [simpl in *; lia|]. destruct (IH (d + 1) rest) as (_ & Hm & _).
      destruct (read_elements n (d + 1) rest) as [[m r]|]; simpl in *; [lia|done].
    + destruct (Ascii.eqb c quote).
      { pose proof (read_string_shorter (length rest) rest) as Hs. destruct (read_string _ rest) as [[s r]|]; simpl in *; [lia|done]. }
      repeat (match goal with |- context [read_literal ?w rest] => destruct (Ascii.eqb c _);
        [pose proof (read_literal_le w rest) as Hl; destruct (read_literal w rest); simpl in *; [lia|done]|] end).
      apply read_number_shorter.
  - cbn [read_elements]. destruct (IH d l) as (Hv & _ & _). destruct (read_value n d l) as [[j rest]|]; [|done]. simpl in Hv.
    pose proof (skip_ws_le rest) as Hw. destruct (skip_ws rest) as [|c rest2]; [done|]. cbn [length] in Hw.
    destruct (Ascii.eqb c "]"); [simpl; lia|]. destruct (Ascii.eqb c ","); [|done].
    destruct (IH d rest2) as (_ & He & _). destruct (read_elements n d rest2) as [[js r]|]; simpl in *; [lia|done].
  - cbn [read_members]. pose proof (skip_ws_le l) as Hw. destruct (skip_ws l) as [|q l']; [done|]. cbn [length] in Hw.
    destruct (negb _); [done|]. pose proof (read_string_shorter (length l') l') as Hs. destruct (read_string _ l') as [[key r]|]; [|done]. simpl in Hs.
    pose proof (skip_ws_le r) as Hw2. destruct (skip_ws r) as [|colon r2]; [done|]. cbn [length] in Hw2. destruct (negb _); [done|].
    destruct (IH d r2) as (Hv & _ & _). destruct (read_value n d r2) as [[j r3]|]; [|done]. simpl in Hv.
    pose proof (skip_ws_le r3) as Hw3. destruct (skip_ws r3) as [|c r4]; [done|]. cbn [length] in Hw3.
    destruct (Ascii.eqb c "}"); [simpl; lia|]. destruct (Ascii.eqb c ","); [|done].
    destruct (IH d r4) as (_ & _ & Hm). destruct (read_members n d r4) as [[m r5]|]; simpl in *; [lia|done].
Qed.

(** Fuel past two calls a byte changes nothing. *)
Lemma read_stable n : forall m d l, (n <= m)%nat ->
  ((2 * length l < n)%nat -> read_value m d l = read_value n d l) /\
  ((2 * length l + 1 < n)%nat -> read_elements m d l = read_elements n d l /\ read_members m d l = read_members n d l).
Proof.
  induction n as [|n IH]; intros m d l Hm; [lia|]. destruct m as [|m]; [lia|]. split; [intros Hn|intros Hn; split].
  - cbn [read_value]. pose proof (skip_ws_le l) as Hw. destruct (skip_ws l) as [|c rest]; [done|]. cbn [length] in Hw.
    destruct (IH m (d + 1) rest) as (_ & Hr); [lia|]. destruct Hr as [He Hme]; [lia|]. by rewrite He, Hme.
  - cbn [read_elements]. destruct (IH m d l) as [Hv _]; [lia|]. rewrite Hv by lia. destruct (read_shorter n d l) as (Hs & _ & _).
    destruct (read_value n d l) as [[j rest]|]; [|done]. simpl in Hs. pose proof (skip_ws_le rest) as Hw.
    destruct (skip_ws rest) as [|c rest2]; [done|]. cbn [length] in Hw.
    destruct (IH m d rest2) as [_ Hr]; [lia|]. destruct Hr as [-> _]; [lia|done].
  - cbn [read_members]. pose proof (skip_ws_le l) as Hw. destruct (skip_ws l) as [|q l']; [done|]. cbn [length] in Hw.
    destruct (negb _); [done|]. pose proof (read_string_shorter (length l') l') as Hs. destruct (read_string _ l') as [[key r]|]; [|done]. simpl in Hs.
    pose proof (skip_ws_le r) as Hw2. destruct (skip_ws r) as [|colon r2]; [done|]. cbn [length] in Hw2. destruct (negb _); [done|].
    destruct (IH m d r2) as [Hev _]; [lia|]. rewrite Hev by lia. destruct (read_shorter n d r2) as (Hv & _ & _).
    destruct (read_value n d r2) as [[j r3]|]; [|done]. simpl in Hv.
    pose proof (skip_ws_le r3) as Hw3. destruct (skip_ws r3) as [|c r4]; [done|]. cbn [length] in Hw3.
    destruct (IH m d r4) as [_ Hr]; [lia|]. destruct Hr as [_ ->]; [lia|done].
Qed.

(** [Decode] has fuel enough: any more gives the same answer, so it fails on a text
    only if the text is not a value. *)
Theorem Decode_fuel n l : (value_fuel l <= n)%nat -> read_value n 0 l = Decode l.
Proof. intros Hn. unfold Decode. apply read_stable; unfold value_fuel in *; lia. Qed.

(** ** Theorems *)

(** Reading what was written: [Unmarshal] of [Marshal] is the document, with invalid
    UTF-8 replaced, for documents that nest at most 10000 deep. *)
Theorem Unmarshal_Marshal j : plain j = true -> nesting j <= maxNestingDepth -> Unmarshal (Marshal j) = Some (clean j).
Proof.
  intros Hp Hn. unfold Unmarshal, Marshal, Decode. rewrite bytes_of_str_of.
  pose proof (read_written j Hp (value_fuel (write_json j)) 0 []) as Hr. rewrite app_nil_r in Hr.
  by rewrite Hr by (unfold value_fuel; done || lia).
Qed.

(** Different documents are written differently. *)
Lemma Marshal_inj j j' : plain j = true -> plain j' = true -> nesting j <= maxNestingDepth -> nesting j' <= maxNestingDepth ->
  Marshal j = Marshal j' -> clean j = clean j'.
Proof. intros Hp Hp' Hn Hn' He. apply (f_equal Unmarshal) in He. rewrite !Unmarshal_Marshal in He by done. by injection He. Qed.
