(* ===== verification/Notify.v ===== *)
(** * Change notification (storage/postgres/store.go, coordinator.go, core/store/comm.go)

    A node keeps the local subscribers of every account, each with a buffered
    channel and the highest log position it was delivered. [publish] fans out
    the changes of a local commit; [onRemoteChange] answers a doorbell from
    another node by replaying the log; [resyncAll] does so for every account
    after the doorbell connection was lost.

    A call is one step of the model; the interleaving of calls is the sequence
    of steps of [nstep]. *)

From S2P Require Import Prelude GoStrings Shapes Changes Blob Database Tx Strconv.

Local Open Scope go_scope.

(** [Comm]: a channel of batches with a capacity. What was sent and how much of
    it was received stands for the buffer. *)
Record Comm := mkComm { cm_account : Z; cm_cap : nat; cm_sent : list (list Change); cm_taken : nat }.

Definition NewComm (accountID : Z) (buf : nat) : Comm := mkComm accountID buf [] 0.

Definition buffered (c : Comm) : list (list Change) := drop (cm_taken c) (cm_sent c).

(** A non-blocking send: [None] when the buffer is full. *)
Definition try_send (cs : list Change) (c : Comm) : option Comm :=
  if (length (buffered c) <? cm_cap c)%nat
  then Some (mkComm (cm_account c) (cm_cap c) (cm_sent c ++ [cs]) (cm_taken c)) else None.

(** The protocol handler receives one batch. *)
Definition receive (c : Comm) : Comm :=
  mkComm (cm_account c) (cm_cap c) (cm_sent c) (Nat.min (S (cm_taken c)) (length (cm_sent c))).

(** [subscriber]; [sb_id] is its identity (the pointer), [sb_start] the position
    it was registered at, which the code does not keep. *)
Record subscriber := mkSub { sb_id : Z; sb_comm : Comm; sb_lastSeq : Z; sb_start : Z }.

Definition advance (seq : Z) (s : subscriber) : subscriber :=
  mkSub (sb_id s) (sb_comm s) (if sb_lastSeq s <? seq then seq else sb_lastSeq s) (sb_start s).
Definition with_comm (c : Comm) (s : subscriber) : subscriber := mkSub (sb_id s) c (sb_lastSeq s) (sb_start s).

(** The node's part of [Store]. *)
Record Node := mkNode { nd_subs : gmap Z (list subscriber); nd_next : Z; nd_coordEnabled : bool }.

Definition subs_of (accountID : Z) (n : Node) : list subscriber := default [] (nd_subs n !! accountID).
Definition on_subs (f : subscriber -> subscriber) (accountID : Z) (n : Node) : Node :=
  mkNode (alter (fmap f) accountID (nd_subs n)) (nd_next n) (nd_coordEnabled n).

(** ** The doorbell *)

Definition notify_payload (accountID seq : Z) : string :=
  (FormatInt accountID ++ ":" ++ FormatInt seq)%string.

(** [emitNotify]: the payload put on the channel, if any. *)
Definition emitNotify (n : Node) (accountID seq : Z) : option string :=
  if nd_coordEnabled n then Some (notify_payload accountID seq) else None.

(** [strings.Cut(payload, ":")] *)
Definition cut_colon (s : string) : option (string * string) :=
  match index_byte ":"%char (bytes_of s) with
  | None => None
  | Some i => Some (str_of (take i (bytes_of s)), str_of (drop (S i) (bytes_of s)))
  end.

Definition parseNotify (payload : string) : option (Z * Z) :=
  match cut_colon payload with
  | None => None
  | Some (a, b) =>
      match ParseInt a, ParseInt b with
      | Some ai, Some si => Some (ai, si)
      | _, _ => None
      end
  end.

(** ** Registration *)

Definition headOf (accountID : Z) (d : DB) : result Z :=
  match db_accounts d !! accountID with
  | None => Err ErrNoRows
  | Some row => Ok (ar_changelog_seq row)
  end.

(** [last] is what [headOf] answered, which is asked before the lock is taken: commits and
    publications may have happened since. *)
Definition registerComm (accountID : Z) (last : result Z) (n : Node) : Node :=
  let lastSeq := match last with Ok head => head | Err _ => 0 end in
  let sub := mkSub (nd_next n) (NewComm accountID 256) lastSeq lastSeq in
  mkNode (<[accountID := subs_of accountID n ++ [sub]]> (nd_subs n)) (nd_next n + 1) (nd_coordEnabled n).

(** [Comm.Close], through the hook [registerComm] installs: the first entry that is
    the subscriber is removed. *)
Fixpoint remove_sub (id : Z) (l : list subscriber) : list subscriber :=
  match l with
  | [] => []
  | x :: l => if sb_id x =? id then l else x :: remove_sub id l
  end.

Definition closeComm (accountID id : Z) (n : Node) : Node :=
  match nd_subs n !! accountID with
  | None => n
  | Some l => mkNode (<[accountID := remove_sub id l]> (nd_subs n)) (nd_next n) (nd_coordEnabled n)
  end.

(** ** Fan-out *)

(** Send and advance, or drop. *)
Definition offer (changes : list Change) (head : Z) (s : subscriber) : subscriber :=
  match try_send changes (sb_comm s) with
  | Some c => advance head (with_comm c s)
  | None => s
  end.

Definition publish (accountID : Z) (changes : list Change) (head : Z) (n : Node) : Node * option string :=
  (on_subs (offer changes head) accountID n, emitNotify n accountID head).

(** The smallest cursor of the subscribers behind. *)
Fixpoint min_cursor (l : list subscriber) : Z :=
  match l with
  | [] => 0
  | [s] => sb_lastSeq s
  | s :: l => Z.min (sb_lastSeq s) (min_cursor l)
  end.

(** The index of the first entry past the cursor. *)
Fixpoint start_index (cur : Z) (seqs : list Z) : nat :=
  match seqs with
  | [] => O
  | q :: seqs => if q <=? cur then S (start_index cur seqs) else O
  end.

Definition onRemoteChange (accountID seq : Z) (d : DB) (n : Node) : Node :=
  let behind := filter (fun s => sb_lastSeq s < seq) (subs_of accountID n) in
  match behind with
  | [] => n
  | _ =>
      match replayWithSeqs accountID (min_cursor behind) d with
      | Err _ | Ok (_, [], _) => n
      | Ok (seqs, changes, head) =>
          on_subs (fun s =>
            if sb_lastSeq s <? seq then
              let start := start_index (sb_lastSeq s) seqs in
              if (length changes <=? start)%nat then s else offer (drop start changes) head s
            else s) accountID n
      end
  end.

Definition resyncAll (d : DB) (n : Node) : Node :=
  foldl (fun n accountID =>
    match headOf accountID d with
    | Ok head => onRemoteChange accountID head d n
    | Err _ => n
    end) n (fst <$> map_to_list (nd_subs n)).

(** The handler of an account's subscriber [id] receives a batch. *)
Definition takeComm (accountID id : Z) (n : Node) : Node :=
  on_subs (fun s => if sb_id s =? id then with_comm (receive (sb_comm s)) s else s) accountID n.
