(* ===== verification/NotifySpec.v ===== *)
(** * What a subscriber receives

    The shared replay of [onRemoteChange] is the per-subscriber replay it
    replaces; over any run of a node's steps every batch sent to a subscriber is a
    run of its account's log, and where publications find their subscribers caught
    up the batches are that log, in order, each change once, from the position it
    registered at to its cursor, and a resync brings every cursor to its end. *)

From S2P Require Import Prelude Lists GoStrings Shapes Changes Blob Database Tx Mailboxes Messages KernelInv KernelFlags Kernel KernelTx KernelDemo KernelSpec Strconv Notify.

Local Open Scope go_scope.

(** ** Replays *)

(** The log rows of an account in [(lo, hi]], and past [lo]. *)
Definition slice (acc lo hi : Z) (d : DB) : list (Z * LogRow) :=
  log_rows acc (fun s => (lo <? s) && (s <=? hi)) d.
Definition past (acc lo : Z) (d : DB) : list (Z * LogRow) := log_rows acc (fun s => lo <? s) d.

Definition decodes : list (Z * LogRow) -> list Change -> Prop :=
  Forall2 (fun r c => decodeChange (lr_kind r.2) (lr_payload r.2) = Ok c).

(** Every entry of the account's log can be decoded. *)
Definition decodable (acc : Z) (d : DB) : Prop :=
  forall s r, db_changelog d !! (acc, s) = Some r -> exists c, decodeChange (lr_kind r) (lr_payload r) = Ok c.

Abbreviation sorted := (StronglySorted (fun x y : Z * LogRow => x.1 < y.1)).

Lemma sorted_fst (l : list (Z * LogRow)) : sorted l -> StronglySorted Z.lt (fst <$> l).
Proof.
  induction 1 as [|x l Hs IH Hx]; [constructor|]. rewrite fmap_cons. constructor; [done|]. by rewrite Forall_fmap.
Qed.

Lemma replay_loop_ok rows hd : sorted rows -> Forall (fun r => hd < r.1) rows ->
  (forall r, r ∈ rows -> exists c, decodeChange (lr_kind r.2) (lr_payload r.2) = Ok c) ->
  exists cs, replay_loop rows hd = Ok (fst <$> rows, cs, default hd (last (fst <$> rows))) /\ decodes rows cs.
Proof.
  intros Hs. revert hd. induction Hs as [|[s r] rows Hs IH Hx]; intros hd Hf Hd; cbn [replay_loop].
  - exists []. split; [done|constructor].
  - destruct (Hd (s, r) (list_elem_of_here _ _)) as [c Hc]. simpl in Hc. rewrite Hc. cbn [rbind].
    inversion Hf as [|? ? Hlt _]; subst. simpl in Hlt. destruct (Z.ltb_spec hd s); [|lia].
    destruct (IH s Hx) as (cs & -> & Hcs); [intros; apply Hd; by right|]. cbn [rbind].
    exists (c :: cs). split; [|by constructor]. rewrite fmap_cons, last_cons. simpl. by destruct (last _).
Qed.

Lemma past_spec acc lo d : sorted (past acc lo d) /\ Forall (fun r => lo < r.1) (past acc lo d).
Proof.
  split; [apply log_rows_lt|]. apply Forall_forall. intros [s r] Hin. apply elem_log_rows in Hin as [_ Hlt]. by b2p.
Qed.

Lemma replay_ok acc lo d : decodable acc d ->
  exists cs, replayWithSeqs acc lo d = Ok (fst <$> past acc lo d, cs, default lo (last (fst <$> past acc lo d))) /\
    decodes (past acc lo d) cs.
Proof.
  intros Hd. destruct (past_spec acc lo d) as [H1 H2]. apply replay_loop_ok; [done|done|].
  intros [s r] Hin. apply elem_log_rows in Hin as [Hin _]. by eapply Hd.
Qed.

Lemma decodes_fun rows cs cs' : decodes rows cs -> decodes rows cs' -> cs = cs'.
Proof.
  intros H. revert cs'. induction H as [|r c rows cs Hc _ IH]; intros cs' H'; inversion H'; subst; [done|].
  f_equal; [congruence|auto].
Qed.

(** Rows past a later cursor are a tail of the rows past an earlier one. *)
Lemma drop_start cur (l : list (Z * LogRow)) : sorted l ->
  drop (start_index cur (fst <$> l)) l = filter (fun r => cur < r.1) l.
Proof.
  induction 1 as [|x l Hs IH Hx]; [done|]. rewrite fmap_cons. cbn [start_index].
  destruct (Z.leb_spec x.1 cur) as [Hle|Hgt].
  - rewrite filter_cons_False by lia. apply IH.
  - rewrite filter_cons_True by lia. cbn [drop]. f_equal. rewrite Forall_forall in Hx. symmetry.
    clear IH Hs. induction l as [|y l IH]; [done|]. pose proof (Hx y (list_elem_of_here _ _)).
    rewrite filter_cons_True by lia. f_equal. apply IH. intros z Hz. apply Hx. by right.
Qed.

Lemma past_tail acc lo cur d : lo <= cur ->
  past acc cur d = drop (start_index cur (fst <$> past acc lo d)) (past acc lo d).
Proof.
  intros Hle. destruct (past_spec acc lo d) as [Hs _]. rewrite drop_start by done.
  apply log_rows_unique; [by apply sorted_fst, sorted_filter|]. intros s r.
  rewrite list_elem_of_filter. unfold past. rewrite elem_log_rows. simpl. rewrite !Z.ltb_lt.
  split; [tauto|]. intros [? ?]. split_and!; [done|done|lia].
Qed.

Lemma last_drop_lt {A} n (l : list A) : (n < length l)%nat -> last (drop n l) = last l.
Proof.
  revert n. induction l as [|x l IH]; intros [|n] Hn; simpl in *; try done; try lia.
  rewrite IH by lia. destruct l; [simpl in *; lia|done].
Qed.

(** ** One subscriber at a time *)

(** The reference: each subscriber behind replays from its own cursor. *)
Definition deliver_one (acc seq : Z) (d : DB) (s : subscriber) : subscriber :=
  if sb_lastSeq s <? seq then
    match replayWithSeqs acc (sb_lastSeq s) d with
    | Ok (_, [], _) | Err _ => s
    | Ok (_, changes, head) => offer changes head s
    end
  else s.

Lemma min_cursor_le s l : s ∈ l -> min_cursor l <= sb_lastSeq s.
Proof.
  induction l as [|x l IH]; intros Hin; [by apply elem_of_nil in Hin|].
  apply elem_of_cons in Hin as [->|Hin]; destruct l as [|y l]; cbn [min_cursor] in *; try lia.
  - by apply elem_of_nil in Hin.
  - specialize (IH Hin). lia.
Qed.

Lemma on_subs_ext f g acc n : (forall s, s ∈ subs_of acc n -> f s = g s) -> on_subs f acc n = on_subs g acc n.
Proof.
  intros Hfg. unfold on_subs. f_equal. apply alter_ext. intros l Hl. apply list_fmap_ext. intros i s Hs.
  apply Hfg. unfold subs_of. rewrite Hl. by eapply list_elem_of_lookup_2.
Qed.

Lemma on_subs_id f acc n : (forall s, s ∈ subs_of acc n -> f s = s) -> on_subs f acc n = n.
Proof.
  intros Hf. destruct n as [subs next en]. unfold on_subs. simpl. f_equal. apply map_eq. intros k.
  destruct (decide (k = acc)) as [->|Hne]; [|by rewrite lookup_alter_ne].
  rewrite lookup_alter_eq. destruct (subs !! acc) as [l|] eqn:Hl; [|done]. simpl. f_equal.
  rewrite <- (list_fmap_id l) at 2. apply list_fmap_ext. intros i s Hs. apply Hf. unfold subs_of. simpl. rewrite Hl.
  by eapply list_elem_of_lookup_2.
Qed.

Lemma deliver_one_shared acc seq d s lo cs : decodable acc d -> lo <= sb_lastSeq s -> sb_lastSeq s < seq ->
  decodes (past acc lo d) cs ->
  let start := start_index (sb_lastSeq s) (fst <$> past acc lo d) in
  (if (length cs <=? start)%nat then s
   else offer (drop start cs) (default lo (last (fst <$> past acc lo d))) s) = deliver_one acc seq d s.
Proof.
  intros Hd Hlo Hlt Hcs start. unfold deliver_one. destruct (Z.ltb_spec (sb_lastSeq s) seq); [|lia].
  destruct (replay_ok acc (sb_lastSeq s) d Hd) as (cs' & -> & Hcs').
  rewrite (past_tail acc lo (sb_lastSeq s)) in Hcs' |- * by done. fold start in Hcs' |- *.
  assert (cs' = drop start cs) as -> by (eapply decodes_fun; [exact Hcs'|by apply Forall2_drop]).
  destruct (Nat.leb_spec (length cs) start) as [Hle|Hgt]; [by rewrite drop_ge|].
  destruct (drop start cs) as [|c cs1] eqn:E.
  { apply (f_equal length) in E. rewrite length_drop in E. simpl in E. lia. }
  pose proof (Forall2_length _ _ _ Hcs) as Hlen.
  rewrite fmap_drop, (last_drop_lt start) by (rewrite length_fmap; lia).
  destruct (last (fst <$> past acc lo d)) as [x|] eqn:El; [done|]. apply last_None, fmap_nil_inv in El.
  rewrite El in Hlen. simpl in Hlen. lia.
Qed.

Lemma shared_replay_eq acc seq d n : decodable acc d ->
  onRemoteChange acc seq d n = on_subs (deliver_one acc seq d) acc n.
Proof.
  intros Hd. unfold onRemoteChange. set (behind := filter _ (subs_of acc n)).
  assert (Hb : forall s, s ∈ behind <-> sb_lastSeq s < seq /\ s ∈ subs_of acc n)
    by (intros s; unfold behind; by rewrite list_elem_of_filter).
  destruct behind as [|b0 bs].
  - symmetry. apply on_subs_id. intros s Hs. unfold deliver_one. destruct (Z.ltb_spec (sb_lastSeq s) seq); [|done].
    assert (s ∈ ([] : list subscriber)) as Hin by by apply Hb. by apply elem_of_nil in Hin.
  - set (lo := min_cursor (b0 :: bs)). destruct (replay_ok acc lo d Hd) as (cs & -> & Hcs).
    assert (Hlo : forall s, s ∈ subs_of acc n -> sb_lastSeq s < seq -> lo <= sb_lastSeq s)
      by (intros s Hs Hlt; apply min_cursor_le, Hb; done).
    assert (Heach : forall s, s ∈ subs_of acc n ->
      (if sb_lastSeq s <? seq then
         let start := start_index (sb_lastSeq s) (fst <$> past acc lo d) in
         if (length cs <=? start)%nat then s
         else offer (drop start cs) (default lo (last (fst <$> past acc lo d))) s
       else s) = deliver_one acc seq d s).
    { intros s Hs. destruct (Z.ltb_spec (sb_lastSeq s) seq) as [Hlt|Hge].
      - apply deliver_one_shared; auto.
      - unfold deliver_one. destruct (Z.ltb_spec (sb_lastSeq s) seq); [lia|done]. }
    destruct cs as [|c cs]; [|by apply on_subs_ext].
    symmetry. apply on_subs_id. intros s Hs. rewrite <- (Heach s Hs). by destruct (_ <? _).
Qed.

Lemma index_byte_app c l1 l2 : Forall (fun x => x <> c) l1 -> index_byte c (l1 ++ c :: l2) = Some (length l1).
Proof.
  induction 1 as [|x l1 Hx _ IH]; simpl; [by destruct (Ascii.eqb_spec c c)|].
  destruct (Ascii.eqb_spec x c); [done|]. by rewrite IH.
Qed.

(** ** Slices of the log *)

Definition headz (acc : Z) (d : DB) : Z := match headOf acc d with Ok h => h | Err _ => 0 end.

Lemma elem_slice acc lo hi d s r :
  (s, r) ∈ slice acc lo hi d <-> db_changelog d !! (acc, s) = Some r /\ lo < s <= hi.
Proof. unfold slice. by rewrite elem_log_rows, andb_true_iff, Z.ltb_lt, Z.leb_le. Qed.

Lemma elem_past acc lo d s r : (s, r) ∈ past acc lo d <-> db_changelog d !! (acc, s) = Some r /\ lo < s.
Proof. unfold past. by rewrite elem_log_rows, Z.ltb_lt. Qed.

Lemma slice_ext acc lo hi d d' :
  (forall s, lo < s <= hi -> db_changelog d' !! (acc, s) = db_changelog d !! (acc, s)) ->
  slice acc lo hi d' = slice acc lo hi d.
Proof.
  intros Hd. apply log_rows_unique; [apply sorted_fst, log_rows_lt|]. intros s r.
  rewrite elem_slice, andb_true_iff, Z.ltb_lt, Z.leb_le. split; intros [Hl Hs]; (split; [|done]).
  - by rewrite Hd.
  - by rewrite <- Hd.
Qed.

Lemma slice_past acc lo hi d : (forall r, r ∈ past acc lo d -> r.1 <= hi) -> slice acc lo hi d = past acc lo d.
Proof.
  intros Hhi. apply log_rows_unique; [apply sorted_fst, log_rows_lt|]. intros s r.
  rewrite elem_past, andb_true_iff, Z.ltb_lt, Z.leb_le. split; [|tauto]. intros [Hl Hs]. split_and!; try done.
  apply (Hhi (s, r)), elem_past. done.
Qed.

Lemma slice_none acc lo hi d : hi <= lo -> slice acc lo hi d = [].
Proof.
  intros Hle. destruct (slice acc lo hi d) as [|[s r] l] eqn:E; [done|].
  assert ((s, r) ∈ slice acc lo hi d) as Hin by (rewrite E; apply list_elem_of_here).
  apply elem_slice in Hin. lia.
Qed.

Lemma sorted_app l1 l2 : sorted l1 -> sorted l2 -> (forall x y, x ∈ l1 -> y ∈ l2 -> x.1 < y.1) -> sorted (l1 ++ l2).
Proof.
  intros H1 H2 H12. induction H1 as [|x l1 H1 IH Hx]; [done|]. simpl. constructor.
  - apply IH. intros y z Hy. apply H12. by right.
  - apply Forall_app. split; [done|]. apply Forall_forall. intros y. apply H12. by left.
Qed.

Lemma slice_app acc lo mid hi d : lo <= mid <= hi -> slice acc lo hi d = slice acc lo mid d ++ slice acc mid hi d.
Proof.
  intros Hm. apply log_rows_unique.
  - apply sorted_fst, sorted_app; [apply log_rows_lt..|]. intros [s r] [s' r'] H1%elem_slice H2%elem_slice. simpl. lia.
  - intros s r. rewrite elem_of_app, !elem_slice, andb_true_iff, Z.ltb_lt, Z.leb_le. split.
    + intros [[? ?]|[? ?]]; (split; [done|lia]).
    + intros [Hl Hs]. destruct (Z.le_gt_cases s mid); [left|right]; (split; [done|lia]).
Qed.

Lemma sorted_last l r : sorted l -> r ∈ l -> exists x, last l = Some x /\ x ∈ l /\ r.1 <= x.1.
Proof.
  intros Hs Hin. induction Hs as [|x l Hs IH Hx]; [by apply elem_of_nil in Hin|].
  rewrite Forall_forall in Hx. apply elem_of_cons in Hin as [->|Hin].
  - destruct (last l) as [y|] eqn:El.
    + apply last_Some in El as El'. destruct El' as [l' ->]. exists y.
      assert (y ∈ l' ++ [y]) as Hy by (apply elem_of_app; right; by apply list_elem_of_singleton).
      rewrite last_cons, El. split_and!; [done|by right|]. specialize (Hx _ Hy). lia.
    + apply last_None in El as ->. exists x. split_and!; [done|left|lia].
  - destruct (IH Hin) as (y & El & Hy & Hle). exists y. rewrite last_cons, El. split_and!; [done|by right|done].
Qed.

Lemma past_last acc lo d r : r ∈ past acc lo d ->
  exists hd, last (fst <$> past acc lo d) = Some hd /\ lo < hd /\ (forall x, x ∈ past acc lo d -> x.1 <= hd) /\
    exists row, (hd, row) ∈ past acc lo d.
Proof.
  intros Hin. destruct (past_spec acc lo d) as [Hs Hf]. destruct (sorted_last _ _ Hs Hin) as ([h row] & El & Hx & _).
  exists h. rewrite fmap_last, El. rewrite Forall_forall in Hf. split_and!; [done|by apply (Hf (h, row))| |eauto].
  intros x Hx'. destruct (sorted_last _ _ Hs Hx') as (y & El' & _ & Hle). rewrite El in El'. by injection El' as <-.
Qed.

(** ** The batches sent to a subscriber *)

(** A batch is a run of consecutive entries of the account's log. *)
Definition batch_of (acc : Z) (d : DB) (cs : list Change) (lo hi : Z) : Prop :=
  lo <= hi <= headz acc d /\ decodes (slice acc lo hi d) cs.

(** Every batch sent is a run of the log; if publications are [prompt], everything sent so far
    is the log from the position of registration to the cursor. *)
Record stream_ok (prompt : bool) (acc : Z) (d : DB) (s : subscriber) : Prop := {
  so_cursor : sb_start s <= sb_lastSeq s <= headz acc d;
  so_batches : Forall (fun cs => exists lo hi, batch_of acc d cs lo hi) (cm_sent (sb_comm s));
  so_sent : prompt = true -> decodes (slice acc (sb_start s) (sb_lastSeq s) d) (concat (cm_sent (sb_comm s))) }.

Lemma stream_offer prompt acc d s cs lo head :
  stream_ok prompt acc d s -> batch_of acc d cs lo head ->
  (prompt = true -> sb_lastSeq s <= head /\ decodes (slice acc (sb_lastSeq s) head d) cs) ->
  stream_ok prompt acc d (offer cs head s).
Proof.
  intros [C B S] Hb Hp. unfold offer, try_send. destruct (_ <? _)%nat; [|done].
  assert (Hl : sb_lastSeq (advance head (with_comm
    (mkComm (cm_account (sb_comm s)) (cm_cap (sb_comm s)) (cm_sent (sb_comm s) ++ [cs]) (cm_taken (sb_comm s))) s))
    = Z.max (sb_lastSeq s) head).
  { unfold advance. simpl. destruct (Z.ltb_spec (sb_lastSeq s) head); lia. }
  pose proof Hb as [Hh _]. split; rewrite ?Hl; simpl; [lia| |].
  - apply Forall_app. split; [done|]. apply Forall_singleton. by exists lo, head.
  - intros Ht. destruct (Hp Ht) as [Hle Hcs]. rewrite Z.max_r, (slice_app _ _ (sb_lastSeq s)) by lia.
    rewrite concat_app. simpl. rewrite app_nil_r. apply Forall2_app; [by apply S|done].
Qed.

Lemma past_headz acc lo d r : logs_wf d -> r ∈ past acc lo d -> r.1 <= headz acc d.
Proof.
  intros [_ Hlog] Hin. destruct r as [s row]. apply elem_past in Hin as [Hs _].
  destruct (Hlog _ _ _ Hs) as (arow & Ha & Hle). unfold headz, headOf. by rewrite Ha.
Qed.

(** A replay of a subscriber that is behind. *)
Lemma deliver_one_ok prompt acc seq d s :
  logs_wf d -> decodable acc d -> stream_ok prompt acc d s -> stream_ok prompt acc d (deliver_one acc seq d s).
Proof.
  intros Hwf Hd Hs. unfold deliver_one. destruct (sb_lastSeq s <? seq); [|done].
  destruct (replay_ok acc (sb_lastSeq s) d Hd) as (cs & -> & Hcs). destruct cs as [|c cs]; [done|].
  destruct (past acc (sb_lastSeq s) d) as [|r l] eqn:Ep; [by inversion Hcs|].
  destruct (past_last acc (sb_lastSeq s) d r) as (hd & El & Hlt & Hmax & row & Hrow); [rewrite Ep; left|].
  rewrite <- Ep, El in *. simpl. pose proof (past_headz acc _ d _ Hwf Hrow) as Hh. simpl in Hh.
  rewrite <- (slice_past _ _ hd) in Hcs by done.
  apply (stream_offer _ _ _ _ _ (sb_lastSeq s)); [done|split; [lia|done]|]. intros _. split; [lia|done].
Qed.

(** ** The steps of one node *)

Section Node.
Context `{BlobOps} `{!BlobLaws}.

(** The tables, the subscribers of the node, and the publications of its commits that have not
    run yet: account, changes and head. *)
Record system := mkSys { sy_db : DB; sy_node : Node; sy_pending : list (Z * list Change * Z) }.

(** A subscriber with room for the batch has been sent everything before it. *)
Definition caught_up (acc : Z) (cs : list Change) (head : Z) (d : DB) (n : Node) : Prop :=
  forall s, s ∈ subs_of acc n -> try_send cs (sb_comm s) <> None ->
    sb_lastSeq s <= head /\ decodes (slice acc (sb_lastSeq s) head d) cs.

(** A publication runs at any time after its commit, in any order with others; in a run that is
    [prompt] it meets subscribers that are caught up.  A registration uses a head read earlier. *)
Inductive nstep (prompt : bool) : system -> system -> Prop :=
| ns_commit now a ops b h0 cs head d1 b1 (here : bool) y : (* on this node or on another *)
    head_of a (sy_db y) = Some h0 -> h0 + op_positions * Z.of_nat (length ops) <= max_int64 ->
    Tx a (run_ops a now ops) (sy_db y) b = (Ok (tt, cs, head), d1, b1) -> forallb change_typed cs = true ->
    nstep prompt y (mkSys d1 (sy_node y) (if here then (acc_id a, cs, head) :: sy_pending y else sy_pending y))
| ns_publish acc cs head before after y : sy_pending y = before ++ (acc, cs, head) :: after ->
    (prompt = true -> caught_up acc cs head (sy_db y) (sy_node y)) ->
    nstep prompt y (mkSys (sy_db y) (publish acc cs head (sy_node y)).1 (before ++ after))
| ns_notify payload acc seq y : parseNotify payload = Some (acc, seq) ->
    nstep prompt y (mkSys (sy_db y) (onRemoteChange acc seq (sy_db y) (sy_node y)) (sy_pending y))
| ns_resync y : nstep prompt y (mkSys (sy_db y) (resyncAll (sy_db y) (sy_node y)) (sy_pending y))
| ns_register acc last y : match last with Ok h => 0 <= h <= headz acc (sy_db y) | Err _ => True end ->
    nstep prompt y (mkSys (sy_db y) (registerComm acc last (sy_node y)) (sy_pending y))
| ns_close acc id y : nstep prompt y (mkSys (sy_db y) (closeComm acc id (sy_node y)) (sy_pending y))
| ns_take acc id y : nstep prompt y (mkSys (sy_db y) (takeComm acc id (sy_node y)) (sy_pending y)).

Inductive nreach (prompt : bool) : system -> Prop :=
| nr_start d n : logs_wf d -> (forall acc, decodable acc d) -> nd_subs n = ∅ -> nreach prompt (mkSys d n [])
| nr_step y y' : nreach prompt y -> nstep prompt y y' -> nreach prompt y'.

Record node_ok (prompt : bool) (d : DB) (n : Node) : Prop := {
  no_logs : logs_wf d;
  no_decodable acc : decodable acc d;
  no_streams acc s : s ∈ subs_of acc n -> stream_ok prompt acc d s }.
Definition pending_ok (d : DB) (p : list (Z * list Change * Z)) : Prop :=
  Forall (fun x => exists lo, batch_of x.1.1 d x.1.2 lo x.2) p.

Lemma subs_of_on_subs f acc acc' n :
  subs_of acc' (on_subs f acc n) = if decide (acc' = acc) then f <$> subs_of acc n else subs_of acc' n.
Proof.
  unfold subs_of, on_subs. simpl. case_decide as E; [subst|by rewrite lookup_alter_ne].
  rewrite lookup_alter_eq. by destruct (nd_subs n !! acc).
Qed.

Lemma node_ok_on_subs prompt f acc d n :
  node_ok prompt d n -> (forall s, s ∈ subs_of acc n -> stream_ok prompt acc d s -> stream_ok prompt acc d (f s)) ->
  node_ok prompt d (on_subs f acc n).
Proof.
  intros [N1 N2 N3] Hf. split; [done|done|]. intros acc' s. rewrite subs_of_on_subs. case_decide as E; [subst|auto].
  intros Hin. apply list_elem_of_fmap in Hin as (x & -> & Hx). auto.
Qed.

Lemma node_ok_notify prompt acc seq d n : node_ok prompt d n -> node_ok prompt d (onRemoteChange acc seq d n).
Proof.
  intros Hn. rewrite shared_replay_eq by eapply no_decodable, Hn. apply node_ok_on_subs; [done|]. intros s Hs.
  apply deliver_one_ok; apply Hn.
Qed.

Lemma node_ok_resync prompt d n : node_ok prompt d n -> node_ok prompt d (resyncAll d n).
Proof.
  unfold resyncAll. generalize (fst <$> map_to_list (nd_subs n)). intros accs. revert n.
  induction accs as [|acc accs IH]; intros n Hn; [done|]. cbn [foldl]. apply IH.
  destruct (headOf acc d); [by apply node_ok_notify|done].
Qed.

Lemma headz_of a d : headz (acc_id a) d = default 0 (head_of a d).
Proof. unfold headz, headOf, head_of. by destruct (db_accounts d !! acc_id a). Qed.

Lemma replay_loop_decodes rows hd seqs cs hd' : replay_loop rows hd = Ok (seqs, cs, hd') -> decodes rows cs.
Proof.
  revert hd seqs cs. induction rows as [|[s r] rows IH]; intros hd seqs cs; cbn [replay_loop].
  - intros [= <- <- <-]. constructor.
  - destruct (decodeChange _ _) as [c|] eqn:Hc; [|done]. cbn [rbind].
    destruct (replay_loop rows _) as [[[seqs1 cs1] hd1]|] eqn:Hr; [|done]. cbn [rbind]. intros [= <- <- <-].
    constructor; [done|by eapply IH].
Qed.

(** A commit adds to the logs above their heads. *)
Record log_grows (d d1 : DB) : Prop := {
  lg_head acc : headz acc d <= headz acc d1;
  lg_old acc s : s <= headz acc d -> db_changelog d1 !! (acc, s) = db_changelog d !! (acc, s) }.
Lemma batch_grows acc d d1 cs lo hi : log_grows d d1 -> batch_of acc d cs lo hi -> batch_of acc d1 cs lo hi.
Proof.
  intros [Hh Ho] [Hle Hcs]. split; [specialize (Hh acc); lia|]. rewrite (slice_ext _ _ _ d); [done|]. intros s Hs. apply Ho. lia.
Qed.
Lemma stream_grows prompt acc d d1 s : log_grows d d1 -> stream_ok prompt acc d s -> stream_ok prompt acc d1 s.
Proof.
  intros Hg [C B S]. split.
  - destruct Hg as [Hh _]. specialize (Hh acc). lia.
  - eapply Forall_impl; [exact B|]. intros cs (lo & hi & Hb). exists lo, hi. by eapply batch_grows.
  - intros Ht. rewrite (slice_ext _ _ _ d); [by apply S|]. intros p Hp. apply (lg_old _ _ Hg). lia.
Qed.

Lemma commit_grows now a ops d b h0 cs head d1 b1 :
  logs_wf d -> (forall acc, decodable acc d) ->
  head_of a d = Some h0 -> h0 + op_positions * Z.of_nat (length ops) <= max_int64 ->
  Tx a (run_ops a now ops) d b = (Ok (tt, cs, head), d1, b1) -> forallb change_typed cs = true ->
  log_grows d d1 /\ logs_wf d1 /\ (forall acc, decodable acc d1) /\ batch_of (acc_id a) d1 cs h0 head.
Proof.
  intros N1 N2 Hh Hroom HTx Ht.
  destruct (commit_others _ _ _ _ _ _ _ _ _ _ N1 Hh Hroom HTx) as [Hlogs Hothers].
  destruct (commit_inv _ _ _ _ _ _ _ _ _ _ N1 Hh Hroom HTx)
    as (pt&_&_&_&_&_&_&_&_&_&_& (Hh1 & Hle & _ & Hold & Hreplay)).
  destruct (Hreplay Ht) as (seqs & Hseqs & _). apply replay_loop_decodes in Hseqs.
  assert (Hz : headz (acc_id a) d = h0 /\ headz (acc_id a) d1 = head) by (by rewrite !headz_of, Hh, Hh1).
  destruct Hz as [Hz Hz1].
  assert (Hg : log_grows d d1).
  { split.
    - intros acc. destruct (decide (acc = acc_id a)) as [->|Hne]; [lia|].
      unfold headz, headOf. destruct (Hothers acc Hne) as [-> _]. done.
    - intros acc s Hs. apply Hold. destruct (decide (acc = acc_id a)) as [->|Hne]; [right; lia|by left]. }
  split_and!; [done|done| |].
  - intros acc s r Hr. destruct (decide (s <= headz acc d)) as [Hs|Hs]; [rewrite (lg_old _ _ Hg) in Hr by done; by eapply N2|].
    destruct (decide (acc = acc_id a)) as [->|Hne]; [|rewrite Hold in Hr by auto; by eapply N2].
    assert ((s, r) ∈ past (acc_id a) h0 d1) as Hin by (apply elem_past; split; [done|lia]).
    apply list_elem_of_lookup in Hin as [i Hi]. destruct (Forall2_lookup_l _ _ _ _ _ Hseqs Hi) as (c & _ & Hc). eauto.
  - split; [lia|]. rewrite slice_past; [exact Hseqs|]. intros r Hr. rewrite <- Hz1. by eapply past_headz.
Qed.

Lemma subs_of_insert acc acc' l n next en :
  subs_of acc' (mkNode (<[acc := l]> (nd_subs n)) next en) = if decide (acc' = acc) then l else subs_of acc' n.
Proof.
  unfold subs_of. simpl. case_decide as E; [subst; by rewrite lookup_insert_eq|by rewrite lookup_insert_ne by congruence].
Qed.

Lemma node_ok_register prompt acc last d n : match last with Ok h => 0 <= h <= headz acc d | Err _ => True end ->
  node_ok prompt d n -> node_ok prompt d (registerComm acc last n).
Proof.
  intros Hlast [N1 N2 N3]. split; [done|done|]. intros acc' s. unfold registerComm. rewrite subs_of_insert.
  case_decide as E; [subst|by apply N3]. rewrite elem_of_app, list_elem_of_singleton. intros [Hs| ->]; [by apply N3|].
  assert (0 <= headz acc d).
  { unfold headz, headOf. destruct (db_accounts d !! acc) as [row|] eqn:Ea; [by eapply (proj1 N1)|done]. }
  split; simpl; [destruct last; lia|constructor|]. intros _. rewrite slice_none by lia. constructor.
Qed.

Lemma node_ok_close prompt acc id d n : node_ok prompt d n -> node_ok prompt d (closeComm acc id n).
Proof.
  intros [N1 N2 N3]. unfold closeComm. destruct (nd_subs n !! acc) as [l|] eqn:Hl; [|by split].
  split; [done|done|]. intros acc' s. rewrite subs_of_insert. case_decide as E; [subst|by apply N3].
  intros Hin. apply N3. unfold subs_of. rewrite Hl. simpl. clear Hl. induction l as [|x l IH]; [done|].
  cbn [remove_sub] in Hin. destruct (_ =? _); [by right|]. apply elem_of_cons in Hin as [->|Hin]; [by left|right; auto].
Qed.

Lemma node_ok_publish prompt acc cs lo head d n : batch_of acc d cs lo head -> (prompt = true -> caught_up acc cs head d n) ->
  node_ok prompt d n -> node_ok prompt d (publish acc cs head n).1.
Proof.
  intros Hb Hc Hn. apply node_ok_on_subs; [done|]. intros s Hs Hok. destruct (try_send cs (sb_comm s)) as [c|] eqn:E.
  - eapply stream_offer; [done|exact Hb|]. intros Ht. apply (Hc Ht s Hs). by rewrite E.
  - unfold offer. by rewrite E.
Qed.

Lemma node_ok_step prompt y y' : nstep prompt y y' ->
  node_ok prompt (sy_db y) (sy_node y) /\ pending_ok (sy_db y) (sy_pending y) ->
  node_ok prompt (sy_db y') (sy_node y') /\ pending_ok (sy_db y') (sy_pending y').
Proof.
  intros [now a ops b h0 cs head d1 b1 here [d n p] Hh Hroom HTx Ht|acc cs head before after [d n p] Hp Hc|payload acc seq [d n p] _|[d n p]
    |acc last [d n p] Hl|acc id [d n p]|acc id [d n p]] [Hn Hpend]; cbn [sy_db sy_node sy_pending] in *.
  - destruct Hn as [N1 N2 N3]. destruct (commit_grows _ _ _ _ _ _ _ _ _ _ N1 N2 Hh Hroom HTx Ht) as (Hg & W1 & W2 & Hb). split.
    + split; [done|done|]. intros acc s Hs. eapply stream_grows; [done|by apply N3].
    + assert (Hold : pending_ok d1 p) by (eapply Forall_impl; [exact Hpend|]; intros x (lo & Hx); exists lo; by eapply batch_grows).
      destruct here; [|done]. constructor; [by exists h0|done].
  - subst p. apply Forall_app in Hpend as [H1' [(lo & Hb) H2']%Forall_cons]. split; [by eapply node_ok_publish|by apply Forall_app].
  - split; [by apply node_ok_notify|done].
  - split; [by apply node_ok_resync|done].
  - split; [by apply node_ok_register|done].
  - split; [by apply node_ok_close|done].
  - split; [|done]. apply node_ok_on_subs; [done|]. intros s Hs [C B S]. destruct (_ =? _); by split.
Qed.

Lemma node_ok_reach prompt y : nreach prompt y -> node_ok prompt (sy_db y) (sy_node y).
Proof.
  intros Hr. enough (node_ok prompt (sy_db y) (sy_node y) /\ pending_ok (sy_db y) (sy_pending y)) by tauto.
  induction Hr as [d n Hl Hd Hn|y y' _ IH Hs]; [|by eapply node_ok_step].
  split; [|constructor]. split; [done|done|]. intros acc s. simpl. unfold subs_of. rewrite Hn, lookup_empty. intros Hin. by apply elem_of_nil in Hin.
Qed.
End Node.

(** ** A resync *)

Lemma subs_of_foldl_other d acc accs n : acc ∉ accs -> (forall acc, decodable acc d) ->
  subs_of acc (foldl (fun n accountID => match headOf accountID d with
     | Ok head => onRemoteChange accountID head d n | Err _ => n end) n accs) = subs_of acc n.
Proof.
  intros Hni Hd. revert n. induction accs as [|x accs IH]; intros n; [done|]. cbn [foldl].
  rewrite IH by (intros ?; apply Hni; by right). destruct (headOf x d); [|done].
  rewrite shared_replay_eq, subs_of_on_subs by done. rewrite decide_False; [done|]. intros ->. apply Hni. left.
Qed.

Lemma subs_of_resync d acc h n : headOf acc d = Ok h -> (forall acc, decodable acc d) ->
  subs_of acc (resyncAll d n) = deliver_one acc h d <$> subs_of acc n.
Proof.
  intros Hh Hd. unfold resyncAll. destruct (nd_subs n !! acc) as [l|] eqn:Hl.
  - assert (Hin : acc ∈ fst <$> map_to_list (nd_subs n)).
    { apply list_elem_of_fmap. exists (acc, l). split; [done|by apply elem_of_map_to_list]. }
    pose proof (NoDup_fst_map_to_list (nd_subs n)) as Hnd. apply list_elem_of_split in Hin as (l1 & l2 & Hsp).
    rewrite Hsp in *. apply NoDup_app in Hnd as (_ & Hn1 & Hn2). apply NoDup_cons in Hn2 as [Hn2 _].
    rewrite foldl_app. cbn [foldl]. rewrite subs_of_foldl_other by done. rewrite Hh.
    rewrite shared_replay_eq, subs_of_on_subs, decide_True by done. f_equal. apply subs_of_foldl_other; [|done].
    intros Hin. apply (Hn1 acc Hin). left.
  - rewrite subs_of_foldl_other; [unfold subs_of; by rewrite Hl| |done]. intros Hin.
    apply list_elem_of_fmap in Hin as ([k x] & -> & Hk). apply elem_of_map_to_list in Hk. simpl in Hl. congruence.
Qed.

Lemma past_nil acc h d : logs_wf d -> headz acc d = h -> past acc h d = [].
Proof.
  intros Hwf Hz. destruct (past acc h d) as [|[s r] l] eqn:E; [done|]. assert ((s, r) ∈ past acc h d) as Hin by (rewrite E; left).
  pose proof (past_headz acc h d _ Hwf Hin). apply elem_past in Hin. simpl in *. lia.
Qed.
(** A replay of a subscriber with room delivers all that lies past its cursor. *)
Lemma deliver_one_complete prompt acc d s h :
  logs_wf d -> decodable acc d -> headOf acc d = Ok h -> stream_ok prompt acc d s ->
  (length (buffered (sb_comm s)) < cm_cap (sb_comm s))%nat ->
  let s' := deliver_one acc h d s in
  past acc (sb_lastSeq s') d = [] /\
  exists cs, concat (cm_sent (sb_comm s')) = concat (cm_sent (sb_comm s)) ++ cs /\ decodes (slice acc (sb_lastSeq s) h d) cs.
Proof.
  intros Hwf Hd Hh [C _ _] Hroom. assert (Hz : headz acc d = h) by (unfold headz; by rewrite Hh). rewrite Hz in C.
  cbv zeta. unfold deliver_one. destruct (Z.ltb_spec (sb_lastSeq s) h) as [Hlt|Hge].
  - rewrite (slice_past _ _ h) by (intros r Hr; rewrite <- Hz; by eapply past_headz).
    destruct (replay_ok acc (sb_lastSeq s) d Hd) as (cs & -> & Hcs). destruct cs as [|c cs].
    + apply Forall2_nil_inv_r in Hcs as ->. split; [done|]. exists []. rewrite app_nil_r. split; [done|constructor].
    + unfold offer, try_send. rewrite (proj2 (Nat.ltb_lt _ _) Hroom). destruct (past acc (sb_lastSeq s) d) as [|r l] eqn:Ep; [by inversion Hcs|].
      destruct (past_last acc (sb_lastSeq s) d r) as (hd & El & Hlt' & Hmax & _); [rewrite Ep; left|]. rewrite <- Ep, El in *. split.
      * unfold advance. simpl. destruct (Z.ltb_spec (sb_lastSeq s) hd); [|lia].
        destruct (past acc hd d) as [|[x y] l'] eqn:E'; [done|]. assert ((x, y) ∈ past acc hd d) as Hin by (rewrite E'; left).
        apply elem_past in Hin as [Hx Hlx]. specialize (Hmax (x, y)). simpl in Hmax.
        enough (x <= hd) by lia. apply Hmax. apply elem_past. split; [done|lia].
      * exists (c :: cs). simpl. rewrite concat_app. simpl. by rewrite app_nil_r.
  - split; [apply past_nil; [done|lia]|]. exists []. rewrite app_nil_r. split; [done|]. rewrite slice_none by lia. constructor.
Qed.

(** [C36] The single replay [onRemoteChange] makes from the smallest cursor, sliced
    for every subscriber behind, delivers to each of them what a replay from its
    own cursor would. *)
Theorem shared_replay acc seq d n : decodable acc d ->
  onRemoteChange acc seq d n = on_subs (deliver_one acc seq d) acc n.
Proof. apply shared_replay_eq. Qed.

(** The doorbell's payload survives the channel: what [emitNotify] rings
    for an account and a position is what [parseNotify] hears. *)
Theorem doorbell_roundtrip n accountID seq p :
  is_i64 accountID = true -> is_i64 seq = true -> emitNotify n accountID seq = Some p ->
  parseNotify p = Some (accountID, seq).
Proof.
  intros Ha Hs. unfold emitNotify. destruct (nd_coordEnabled n); [|done]. intros [= <-].
  unfold parseNotify, cut_colon, notify_payload.
  assert (Hb : bytes_of (FormatInt accountID ++ ":" ++ FormatInt seq)
             = bytes_of (FormatInt accountID) ++ ":"%char :: bytes_of (FormatInt seq)).
  { generalize (FormatInt accountID). intros x. unfold bytes_of. induction x as [|c x IH]; [done|]. simpl. by f_equal. }
  rewrite Hb, index_byte_app by (by apply FormatInt_no_colon).
  rewrite take_app_length, drop_app_ge by lia. replace (S _ - _)%nat with 1%nat by lia. cbn [drop].
  by rewrite drop_0, !str_of_bytes_of, (ParseInt_FormatInt _ Ha), (ParseInt_FormatInt _ Hs).
Qed.

Section Theorems.
Context `{BlobOps} `{!BlobLaws}.

(** [C3] What subscribers are sent, after any steps of a node - commits here or elsewhere,
    publications in any order and at any time after their commits, doorbells, resyncs,
    registrations: every batch is a run of consecutive entries of the subscriber's account's own
    log.  If each publication met subscribers that had been sent everything before it, which
    [publish] does not ensure, then the batches, one after the other, are the log from the
    position of registration to the cursor, each change once and in order. *)
Theorem subscriber_stream prompt y acc s :
  nreach prompt y -> s ∈ subs_of acc (sy_node y) ->
  sb_start s <= sb_lastSeq s <= headz acc (sy_db y) /\
  Forall (fun cs => exists lo hi, batch_of acc (sy_db y) cs lo hi) (cm_sent (sb_comm s)) /\
  (prompt = true -> decodes (slice acc (sb_start s) (sb_lastSeq s) (sy_db y)) (concat (cm_sent (sb_comm s)))).
Proof. intros Hr Hs. destruct (no_streams _ _ _ (node_ok_reach _ _ Hr) acc s Hs) as [C B S]. done. Qed.

(** [C37] A resync brings a subscriber whose buffer has room to the end of the log: it has been
    sent every entry past its cursor, in order, and nothing of the log lies past its new cursor -
    whatever publications did before.  If they met subscribers that were caught up, it has been
    sent its account's whole log from the position it registered at. *)
Theorem resync_catches_up prompt y acc s h :
  nreach prompt y -> s ∈ subs_of acc (sy_node y) -> headOf acc (sy_db y) = Ok h ->
  (length (buffered (sb_comm s)) < cm_cap (sb_comm s))%nat ->
  exists s', s' ∈ subs_of acc (resyncAll (sy_db y) (sy_node y)) /\ sb_id s' = sb_id s /\ past acc (sb_lastSeq s') (sy_db y) = [] /\
    exists cs, concat (cm_sent (sb_comm s')) = concat (cm_sent (sb_comm s)) ++ cs /\ decodes (slice acc (sb_lastSeq s) h (sy_db y)) cs /\
    (prompt = true -> decodes (slice acc (sb_start s) h (sy_db y)) (concat (cm_sent (sb_comm s')))).
Proof.
  intros Hr Hs Hh Hroom. destruct (node_ok_reach _ _ Hr) as [N1 N2 N3]. specialize (N3 acc s Hs). exists (deliver_one acc h (sy_db y) s).
  rewrite (subs_of_resync (sy_db y) acc h) by done. split_and!; [by apply list_elem_of_fmap_2| |by eapply deliver_one_complete|].
  - unfold deliver_one, offer. destruct (_ <? _); [|done]. destruct (replayWithSeqs _ _ _) as [[[? [|? ?]] ?]|]; try done.
    by destruct (try_send _ _).
  - destruct (deliver_one_complete prompt acc (sy_db y) s h N1 (N2 acc) Hh N3 Hroom) as (_ & cs & Ecs & Hcs). exists cs. split_and!; [done|done|].
    intros Ht. destruct N3 as [C _ S]. unfold headz in C. rewrite Hh in C. rewrite Ecs, (slice_app _ _ (sb_lastSeq s)) by lia.
    apply Forall2_app; [by apply S|done].
Qed.
End Theorems.

(** ** A subscriber on another node *)

Definition no_node : Node := mkNode ∅ 0 true.
Definition watching : Node := registerComm 1 (headOf 1 demo_db) no_node.
Definition notified : Node := onRemoteChange 1 4 demo_db1 watching.

Lemma watching_reach : nreach true (mkSys demo_db1 watching []).
Proof.
  eapply nr_step; [eapply nr_step; [apply (nr_start _ demo_db no_node)|apply (ns_register _ 1 (headOf 1 demo_db))]|].
  - apply provisioned_wf, demo_provisioned.
  - intros acc s r Hr. unfold demo_db in Hr. simpl in Hr. by rewrite lookup_empty in Hr.
  - reflexivity.
  - vm_compute. by split.
  - eapply (ns_commit _ 7 alice deliver_ops no_files 0 _ 4 demo_db1 demo_blobs1 false); [reflexivity|vm_compute; discriminate| |].
    + apply (ran_ok alice deliver_ops demo_db no_files), deliver_commits.
    + vm_compute. reflexivity.
Qed.

Lemma demo_db1_decodable acc : decodable acc demo_db1.
Proof. exact (no_decodable _ _ _ (node_ok_reach _ _ watching_reach) acc). Qed.

Lemma shared_replay_witness :
  sb_lastSeq <$> subs_of 1 (on_subs (deliver_one 1 4 demo_db1) 1 watching) = [4].
Proof.
  rewrite <- (shared_replay 1 4 demo_db1 watching (demo_db1_decodable 1)). vm_compute. reflexivity.
Defined.

Lemma doorbell_roundtrip_witness : parseNotify "1:4" = Some (1, 4).
Proof. apply (doorbell_roundtrip no_node 1 4); reflexivity. Defined.

Lemma subscriber_stream_witness :
  exists s, s ∈ subs_of 1 notified /\ sb_lastSeq s = 4 /\
    decodes (slice 1 (sb_start s) (sb_lastSeq s) demo_db1) (concat (cm_sent (sb_comm s))).
Proof.
  destruct (subs_of 1 notified) as [|s l] eqn:E; [vm_compute in E; discriminate|]. exists s. split; [left|].
  split; [vm_compute in E; injection E as <- _; reflexivity|].
  apply (subscriber_stream true (mkSys demo_db1 notified []) 1 s); [|simpl; rewrite E; left|reflexivity].
  eapply nr_step; [exact watching_reach|]. apply (ns_notify true "1:4" 1 4 (mkSys demo_db1 watching [])). vm_compute. reflexivity.
Defined.

Lemma resync_catches_up_witness :
  exists s', s' ∈ subs_of 1 (resyncAll demo_db1 watching) /\
    decodes (slice 1 0 4 demo_db1) (concat (cm_sent (sb_comm s'))).
Proof.
  destruct (resync_catches_up true (mkSys demo_db1 watching []) 1 (mkSub 0 (NewComm 1 256) 0 0) 4) as (s' & Hs & _ & _ & cs & _ & _ & Hd);
    [exact watching_reach|vm_compute; left|vm_compute; reflexivity|simpl; lia|]. exists s'. split; [exact Hs|exact (Hd eq_refl)].
Defined.

(** ** Publications that meet a subscriber not caught up *)

(** Two commits to Alice's account: one on another node, then one on this one. *)
Definition more_ops : list op := [OSubscribe "Archive"].
Definition demo_db4 : DB := db_after alice more_ops demo_db3 demo_blobs1.
Definition local_changes : list Change := published alice more_ops demo_db3 demo_blobs1.
Definition local_head : Z := head_after alice more_ops demo_db3 demo_blobs1.

(** The local publication moves the cursor past the remote change, which no
    later doorbell or resync delivers. *)
Example publish_skips_remote_change :
  let n := resyncAll demo_db4 (publish 1 local_changes local_head (registerComm 1 (headOf 1 demo_db1) no_node)).1 in
  length (slice 1 4 local_head demo_db4) = 2%nat /\
  (fun s => (sb_lastSeq s, length (concat (cm_sent (sb_comm s))))) <$> subs_of 1 n = [(local_head, 1%nat)].
Proof. split; vm_compute; reflexivity. Qed.

(** A publication that runs after a resync whose replay covered it delivers the local change a second time. *)
Example publish_repeats_change :
  let n := (publish 1 local_changes local_head
              (resyncAll demo_db4 (registerComm 1 (headOf 1 demo_db3) no_node))).1 in
  length (slice 1 5 local_head demo_db4) = 1%nat /\
  (fun s => (sb_lastSeq s, length (concat (cm_sent (sb_comm s))))) <$> subs_of 1 n = [(local_head, 2%nat)].
Proof. split; vm_compute; reflexivity. Qed.
