(* ===== verification/QuerySpec.v ===== *)
(** * What the queries return

    A query built through the interface returns rows of its account only; a
    paged query returns consecutive slices of one list; a query that collapses
    Email groups returns one row for each; a substring is matched literally. *)

From S2P Require Import Prelude Lists GoStrings Shapes Changes Blob Database Tx Mailboxes Messages Query KernelInv KernelFlags Kernel KernelDemo Strconv.

Local Open Scope go_scope.

(** ** Decoding an escaped string *)

Lemma decode_ascii c l : byte_of c < 128 -> decode_rune (c :: l) = (byte_of c, 1%nat).
Proof. intros Hc. unfold decode_rune. destruct (Z.ltb_spec (byte_of c) 128); [done|lia]. Qed.

Lemma segs_ascii c l : byte_of c < 128 -> segs (c :: l) = (byte_of c, [c]) :: segs l.
Proof. intros Hc. rewrite segs_cons, decode_ascii by done. done. Qed.

Lemma is_meta_cases c : is_meta c = true -> c = "%"%char \/ c = "\"%char \/ c = "_"%char.
Proof.
  unfold is_meta. intros Hm. apply orb_prop in Hm as [Hm|Hm]; [apply orb_prop in Hm as [Hm|Hm]|];
    apply Z.eqb_eq in Hm; unfold byte_of in Hm;
    rewrite <- (ascii_nat_embedding c); [left|right; left|right; right];
    replace (nat_of_ascii c) with (Z.to_nat (Z.of_nat (nat_of_ascii c))) by lia; by rewrite Hm.
Qed.

Lemma meta_not_cont c : is_meta c = true -> is_cont c = false.
Proof. by intros [ -> | [ -> | -> ] ]%is_meta_cases. Qed.

(** Decoding looks at the continuation bytes that follow the first byte. *)
Fixpoint conts (l : list ascii) : list ascii :=
  match l with [] => [] | c :: l => if is_cont c then c :: conts l else [] end.

Lemma not_cont_range lo hi c : is_cont c = false -> 128 <= lo -> hi <= 191 -> in_range lo hi c = false.
Proof.
  unfold is_cont, in_range. intros Hc Hlo Hhi. apply andb_false_iff in Hc. apply andb_false_iff.
  rewrite !Z.leb_gt in *. lia.
Qed.

(** The bounds of the second byte, by the first. *)
Lemma second_byte x c : is_cont c = false ->
  in_range (if x =? 224 then 160 else 128) (if x =? 237 then 159 else 191) c = false /\
  in_range (if x =? 240 then 144 else 128) (if x =? 244 then 143 else 191) c = false.
Proof.
  intros Hc. split; apply not_cont_range; try done;
    destruct (x =? 224), (x =? 237), (x =? 240), (x =? 244); lia.
Qed.

Lemma decode_conts c l :
  decode_rune (c :: l) = decode_rune (c :: conts l) /\ ((decode_rune (c :: l)).2 <= S (length (conts l)))%nat.
Proof.
  unfold decode_rune. cbv zeta. destruct (byte_of c <? 128); [simpl; split; [done|lia]|].
  destruct (byte_of c <? 194); [simpl; split; [done|lia]|].
  destruct l as [|c1 [|c2 [|c3 l]]]; cbn [conts];
    try (destruct (is_cont c1) eqn:E1; [|destruct (second_byte (byte_of c) c1 E1) as [S3 S4]; rewrite ?S3, ?S4; clear S3 S4]);
    try (destruct (is_cont c2) eqn:E2); try (destruct (is_cont c3) eqn:E3);
    rewrite ?E1, ?E2, ?E3, ?andb_false_r; simpl; (split; [by repeat case_match|repeat case_match; simpl; lia]).
Qed.

Lemma conts_escape l : conts (like_escape l ++ ["%"%char]) = conts l.
Proof.
  induction l as [|c l IH]; [done|]. cbn [like_escape]. destruct (is_meta c) eqn:Em; simpl.
  - by rewrite (meta_not_cont c Em).
  - by rewrite IH.
Qed.

Lemma drop_escape k l : (k <= length (conts l))%nat ->
  drop k (like_escape l ++ ["%"%char]) = like_escape (drop k l) ++ ["%"%char].
Proof.
  revert k. induction l as [|c l IH]; intros [|k] Hk; simpl in *; try lia; try done.
  destruct (is_cont c) eqn:Ec; simpl in Hk; [|lia].
  destruct (is_meta c) eqn:Em; [by rewrite (meta_not_cont c Em) in Ec|]. simpl. apply IH. lia.
Qed.

(** A rune other than a metacharacter is not decoded from one. *)
Lemma decode_not_meta c l : is_meta c = false -> is_meta_rune (decode_rune (c :: l)).1 = false.
Proof.
  assert (Hr : forall r, 96 <= r -> is_meta_rune r = false).
  { intros r Hr. unfold is_meta_rune. rewrite !orb_false_iff, !Z.eqb_neq. lia. }
  intros Hc. unfold decode_rune. cbv zeta. unfold rune_error.
  destruct (Z.ltb_spec (byte_of c) 128); [done|].
  repeat (case_match; b2p; simpl; try (apply Hr; lia));
    apply Hr; unfold is_cont, in_range in *; b2p; lia.
Qed.

Definition escape_runes (l : list Z) : list Z :=
  concat ((fun r => if is_meta_rune r then [92; r] else [r]) <$> l).

Lemma runes_escape l :
  fst <$> segs (like_escape l ++ ["%"%char]) = escape_runes (fst <$> segs l) ++ [37].
Proof.
  remember (length l) as n eqn:Hn. revert l Hn. induction (lt_wf n) as [n _ IH]. intros [|c l] Hn; [done|].
  destruct (is_meta c) eqn:Em; cbn [like_escape]; rewrite Em.
  - assert (Hc : byte_of c < 128) by (by destruct (is_meta_cases c Em) as [ -> | [ -> | -> ] ]).
    cbn [app]. rewrite (segs_ascii "\"), !(segs_ascii c) by done. csimpl.
    rewrite (IH (length l)) by (subst; simpl; lia). unfold is_meta in Em.
    unfold escape_runes. csimpl. by rewrite Em.
  - cbn [app]. rewrite !segs_cons. csimpl. destruct (decode_conts c l) as [Hd Hs].
    destruct (decode_conts c (like_escape l ++ ["%"%char])) as [He _]. rewrite conts_escape, <- Hd in He.
    rewrite !He. pose proof (decode_rune_size c l) as H1. pose proof (decode_not_meta c l Em) as Hnm.
    destruct (decode_rune (c :: l)) as [r [|k]]; simpl in *; [lia|].
    rewrite drop_escape by lia. rewrite (IH (length (drop k l))) by (rewrite length_drop; lia).
    unfold escape_runes. csimpl. by rewrite Hnm.
Qed.

Lemma runes_pattern s : runes (like_pattern s) = 37 :: escape_runes (runes s) ++ [37].
Proof.
  unfold runes, like_pattern. rewrite bytes_of_str_of. cbn [app].
  rewrite segs_ascii by done. csimpl. by rewrite runes_escape.
Qed.

(** ** Matching *)

Lemma like_any p t : like (37 :: p) t = true <-> exists k1 k2, t = k1 ++ k2 /\ like p k2 = true.
Proof.
  cbn [like Z.eqb Pos.eqb]. split.
  - induction t as [|x t IH]; rewrite ?orb_false_r; intros Hl.
    + by exists [], [].
    + apply orb_prop in Hl as [Hl|Hl]; [by exists [], (x :: t)|].
      destruct (IH Hl) as (k1 & k2 & -> & Hk). by exists (x :: k1), k2.
  - intros (k1 & k2 & -> & Hk). induction k1 as [|x k1 IH]; simpl.
    + destruct k2; by rewrite Hk.
    + by rewrite IH, orb_true_r.
Qed.

Lemma like_literal l p t : like (escape_runes l ++ p) t = true <-> exists k, t = l ++ k /\ like p k = true.
Proof.
  revert t. induction l as [|r l IH]; intros t.
  { unfold escape_runes. simpl. split; [by exists t|]. by intros (k & -> & Hk). }
  unfold escape_runes in *. csimpl. unfold is_meta_rune at 1.
  destruct ((r =? 37) || (r =? 92) || (r =? 95)) eqn:Em.
  - cbn [app like Z.eqb Pos.eqb]. destruct t as [|x t]; [split; [done|by intros (k & Hk & _)]|].
    rewrite andb_true_iff, Z.eqb_eq, IH. split.
    + intros [-> (k & -> & Hk)]. by exists k.
    + intros (k & [= -> ->] & Hk). split; [done|by exists k].
  - apply orb_false_elim in Em as [[E1 E2]%orb_false_elim E3]. cbn [app like]. rewrite E1, E2, E3.
    destruct t as [|x t]; [split; [done|by intros (k & Hk & _)]|].
    rewrite andb_true_iff, Z.eqb_eq, IH. split.
    + intros [-> (k & -> & Hk)]. by exists k.
    + intros (k & [= -> ->] & Hk). split; [done|by exists k].
Qed.

Lemma fold_escape `{SqlTextLaws} l : fold_case (escape_runes l) = escape_runes (fold_case l).
Proof.
  unfold fold_case, escape_runes. induction l as [|r l IH]; [done|]. csimpl. rewrite fmap_app, IH. f_equal.
  assert (Hm : forall c, is_meta_rune c = true <-> c ∈ [37; 92; 95]).
  { intros c. unfold is_meta_rune. rewrite !orb_true_iff, !Z.eqb_eq, !elem_of_cons, elem_of_nil. tauto. }
  destruct (is_meta_rune r) eqn:E.
  - apply Hm in E. rewrite (pg_lower_meta r E). apply Hm in E. rewrite E. csimpl.
    rewrite (pg_lower_meta 92) by (rewrite !elem_of_cons; tauto). apply Hm in E. by rewrite pg_lower_meta.
  - destruct (is_meta_rune (pg_lower r)) eqn:E'; [|done]. apply Hm in E'.
    rewrite (pg_lower_inv r E') in E'. apply Hm in E'. congruence.
Qed.

(** The substring filters match literally: a column passes [FilterSubject],
    [FilterFrom], [FilterTo] or the indexed text of [FilterFTS] exactly when it
    contains the characters the client sent, up to letter case, whatever
    metacharacters of LIKE they include. *)
Theorem substring_literal `{SqlTextLaws} (text substr : string) :
  ilike text (like_pattern substr) = true <->
  exists k1 k2, fold_case (runes text) = k1 ++ fold_case (runes substr) ++ k2.
Proof.
  assert (Hp : fold_case (runes (like_pattern substr)) = 37 :: escape_runes (fold_case (runes substr)) ++ [37]).
  { rewrite <- fold_escape, runes_pattern. unfold fold_case. csimpl. rewrite fmap_app. csimpl.
    by rewrite (pg_lower_meta 37) by (rewrite !elem_of_cons; tauto). }
  unfold ilike. rewrite Hp, like_any. split.
  - intros (k1 & k2 & -> & (k & -> & _)%like_literal). by exists k1, k.
  - intros (k1 & k2 & ->). eexists k1, _. split; [done|]. apply like_literal. exists k2. split; [done|].
    apply like_any. exists k2, []. by rewrite app_nil_r.
Qed.

(** ** Running a statement *)

Section Running.
Context `{SqlTextLaws}.
Variable fts : gmap (Z * Z) FTSRow.

Lemma scan_all (rows out : list Message) :
  match miter (fun row => match scanMessage row with
                          | Ok m => mmodify (fun out => out ++ [m]) | Err e => merr_st e end) rows out with
  | (Ok _, out') => out' = out ++ rows
  | (Err _, _) => exists m, m ∈ rows /\ is_u32 (m_UID m) = false
  end.
Proof.
  revert out. induction rows as [|m rows IH]; intros out; simpl; [by rewrite app_nil_r|].
  unfold mbind_st, scanMessage at 1. destruct (is_u32 (m_UID m)) eqn:Eu; simpl.
  - specialize (IH (out ++ [m])). destruct (miter _ rows _) as [[[]|e] out'].
    + by rewrite IH, <- app_assoc.
    + destruct IH as (m' & Hm & Hu). exists m'. split; [by right|done].
  - exists m. split; [by left|done].
Qed.

Lemma List_rows q d rows : List_messages fts q d = Ok rows ->
  forallb arg_ok (q_wheres q) = true /\ rows = limit_rows (q_limit q) (q_offset q) (ordered fts q d).
Proof.
  unfold List_messages, ForEach, sql. destruct (forallb arg_ok (q_wheres q)); [|done].
  pose proof (scan_all (limit_rows (q_limit q) (q_offset q) (ordered fts q d)) []) as Hs.
  destruct (miter _ _ _) as [[[]|e] out]; [|done]. intros [= <-]. by rewrite Hs.
Qed.

Lemma order_by_perm o l : order_by o l ≡ₚ l.
Proof. destruct o; simpl; [apply merge_sort_Permutation|done]. Qed.

Lemma ordered_perm q d : ordered fts q d ≡ₚ selected fts q d.
Proof. unfold ordered. by rewrite order_by_perm, plan_perm. Qed.

Lemma elem_matching q d m :
  m ∈ matching fts q d <-> (exists k, db_messages d !! k = Some m) /\ m_Expunged m = false /\
                       forall c, c ∈ q_wheres q -> holds fts m c = true.
Proof.
  unfold matching. rewrite elem_messages_where. unfold whereClause.
  rewrite andb_true_iff, negb_true_iff, forallb_forall. setoid_rewrite <- list_elem_of_In. tauto.
Qed.

Lemma elem_distinct_on m l : m ∈ distinct_on l -> m ∈ l.
Proof. intros [Hm _]%first_of_sub. by rewrite merge_sort_Permutation in Hm. Qed.

Lemma elem_selected q d m : m ∈ selected fts q d -> m ∈ matching fts q d.
Proof. unfold selected. destruct (q_distinct q); [apply elem_distinct_on|done]. Qed.

Lemma elem_limit_rows {A} n k (l : list A) x : x ∈ limit_rows n k l -> x ∈ l.
Proof.
  unfold limit_rows. intros Hx.
  assert (Hd : x ∈ (if 0 <? k then drop (Z.to_nat k) l else l)).
  { destruct (0 <? n); [|done]. by apply elem_of_take in Hx as (i & Hi%list_elem_of_lookup_2 & _). }
  destruct (0 <? k); [|done]. apply list_elem_of_lookup in Hd as [i Hi].
  rewrite lookup_drop in Hi. by eapply list_elem_of_lookup_2.
Qed.

(** The primary key of [messages]. *)
Definition keyed (d : DB) : Prop := forall k m, db_messages d !! k = Some m -> m_ID m = k.

Lemma db_wf_keyed d : db_wf d -> keyed d.
Proof. intros Hwf k m Hk. by eapply wf_msg_key. Qed.

(** The rows of [messages] have distinct ids. *)
Lemma matching_ids q d : keyed d -> NoDup (m_ID <$> matching fts q d).
Proof.
  intros Hkey. unfold matching, messages_where.
  apply nodup_fmap_filter. rewrite <- list_fmap_compose.
  rewrite (list_fmap_ext (m_ID ∘ snd) fst); [apply NoDup_fst_map_to_list|].
  intros i [k m] Hi%list_elem_of_lookup_2%elem_of_map_to_list. simpl. by apply Hkey.
Qed.

End Running.

(** ** The orders *)

#[export] Instance order_le_total o : Total (order_le o).
Proof.
  intros x y. unfold order_le, order_leb. destruct o;
    rewrite ?orb_true_iff, ?andb_true_iff, ?Z.ltb_lt, ?Z.eqb_eq, ?Z.leb_le; lia.
Qed.
#[export] Instance order_le_trans o : Transitive (order_le o).
Proof.
  intros x y z. unfold order_le, order_leb. destruct o;
    rewrite ?orb_true_iff, ?andb_true_iff, ?Z.ltb_lt, ?Z.eqb_eq, ?Z.leb_le; lia.
Qed.
#[export] Instance group_id_le_total : Total group_id_le.
Proof. intros x y. unfold group_id_le. lia. Qed.
#[export] Instance group_id_le_trans : Transitive group_id_le.
Proof. intros x y z. unfold group_id_le. lia. Qed.

(** The orders that the id makes total. *)
Definition tie_broken (o : sort_order) : bool := match o with ByUID => false | _ => true end.

Lemma order_le_antisym o x y : tie_broken o = true -> order_le o x y -> order_le o y x -> m_ID x = m_ID y.
Proof.
  unfold order_le, order_leb. destruct o; intros Ho;
    rewrite ?orb_true_iff, ?andb_true_iff, ?Z.ltb_lt, ?Z.eqb_eq, ?Z.leb_le; try done; lia.
Qed.

(** ** What a query can be *)

(** The queries the interface can build for an account. *)
Inductive built `{Unicode} `{SqlText} (a : account) : msgQuery -> Prop :=
| built_start : built a (QueryMessage a)
| built_mailbox id q : built a q -> built a (FilterMailbox id q)
| built_modseq ms q : built a q -> built a (FilterModSeqGreater ms q)
| built_uids lo hi q : built a q -> built a (FilterUIDRange lo hi q)
| built_flags mask want q : built a q -> built a (FilterFlags mask want q)
| built_fts s q : built a q -> built a (FilterFTS s q)
| built_thread id q : built a q -> built a (FilterThread id q)
| built_unfolded q : built a q -> built a (FilterUnfolded q)
| built_folded q : built a q -> built a (FilterFolded q)
| built_groups ids q : built a q -> built a (FilterEmailGroupIn ids q)
| built_subject s q : built a q -> built a (FilterSubject s q)
| built_from s q : built a q -> built a (FilterFrom s q)
| built_to s q : built a q -> built a (FilterTo s q)
| built_received s t q : built a q -> built a (FilterReceivedRange s t q)
| built_size lo hi q : built a q -> built a (FilterSizeRange lo hi q)
| built_keyword kw want q : built a q -> built a (FilterKeyword kw want q)
| built_order o q : built a q -> built a (set_order o q)
| built_distinct q : built a q -> built a (DistinctEmail q)
| built_limit n q : built a q -> built a (Limit n q)
| built_offset n q : built a q -> built a (Offset n q).

(** A builder call only adds conditions. *)
Lemma built_wheres `{Unicode} `{SqlText} a q : built a q -> CondAccount (acc_id a) ∈ q_wheres q.
Proof.
  assert (Hadd : forall c q, CondAccount (acc_id a) ∈ q_wheres q -> CondAccount (acc_id a) ∈ q_wheres (add c q)).
  { intros c q0 Hq. apply elem_of_app. by left. }
  induction 1; unfold FilterMailbox, FilterModSeqGreater, FilterUIDRange, FilterFlags, FilterFTS, FilterThread,
    FilterUnfolded, FilterFolded, FilterEmailGroupIn, FilterSubject, FilterFrom, FilterTo, ilikeContains,
    FilterReceivedRange, FilterSizeRange, FilterKeyword; repeat case_match; try done; auto.
  apply elem_of_app. right. by apply list_elem_of_singleton.
Qed.

(** [C25] Isolation is structural: whatever sequence of filters, orders and
    windows a caller applies to [QueryMessage], a row of the result is a live row
    of the querying account that satisfies every condition added. *)
Theorem query_isolated `{Unicode} `{SqlTextLaws} (fts : gmap (Z * Z) FTSRow) (a : account) (q : msgQuery) (d : DB) (rows : list Message) (m : Message) :
  built a q -> List_messages fts q d = Ok rows -> m ∈ rows ->
  (exists k, db_messages d !! k = Some m) /\ m_AccountID m = acc_id a /\ m_Expunged m = false /\
  Forall (fun c => holds fts m c = true) (q_wheres q).
Proof.
  intros Hb [_ ->]%List_rows Hm%elem_limit_rows. rewrite ordered_perm in Hm.
  apply elem_selected, elem_matching in Hm as (Hk & He & Hc).
  split_and!; [done| |done|by apply Forall_forall].
  specialize (Hc _ (built_wheres a q Hb)). simpl in Hc. by apply Z.eqb_eq.
Qed.

Lemma limit_rows_none {A} n k (l : list A) : n <= 0 -> k <= 0 -> limit_rows n k l = l.
Proof.
  intros Hn Hk. unfold limit_rows. destruct (Z.ltb_spec 0 k); [lia|]. by destruct (Z.ltb_spec 0 n); [lia|].
Qed.

Lemma distinct_size `{SqlTextLaws} (fts : gmap (Z * Z) FTSRow) (l : list Message) :
  length (distinct_on l) = size (list_to_set (EffectiveEmailID <$> l) : gset Z).
Proof.
  rewrite <- (length_fmap EffectiveEmailID). rewrite <- (size_list_to_set (C:=gset Z)).
  2:{ apply first_of_nodup. }
  f_equal. apply set_eq. intros g. rewrite !elem_of_list_to_set. unfold distinct_on.
  rewrite first_of_keys, (merge_sort_Permutation group_id_le), elem_of_empty. tauto.
Qed.

(** [Count] is the number of rows of [List] without a window, and without
    [DistinctEmail] those are exactly the matching rows; with it they are one
    row for each Email group that has a matching row, and that row is the one with the
    lowest id of the group's matching rows. *)
Theorem count_is_length `{SqlTextLaws} (fts : gmap (Z * Z) FTSRow) (q : msgQuery) (d : DB) (rows : list Message) :
  q_limit q <= 0 -> q_offset q <= 0 -> List_messages fts q d = Ok rows ->
  Count fts q d = Ok (Z.of_nat (length rows)) /\
  if q_distinct q then
    NoDup (EffectiveEmailID <$> rows) /\
    (forall m, m ∈ matching fts q d -> exists r, r ∈ rows /\ r ∈ matching fts q d /\
       EffectiveEmailID r = EffectiveEmailID m /\ m_ID r <= m_ID m)
  else rows ≡ₚ matching fts q d.
Proof.
  intros Hn Hk [Ha ->]%List_rows. rewrite limit_rows_none by done. unfold Count. rewrite Ha.
  assert (Hlen : length (ordered fts q d) = length (selected fts q d)) by (by rewrite ordered_perm).
  rewrite Hlen. pose proof (ordered_perm fts q d) as Hp. unfold selected in *. destruct (q_distinct q).
  - split; [by rewrite (distinct_size fts)|]. split; [rewrite Hp; apply first_of_nodup|]. intros m Hm.
    assert (Hk' : EffectiveEmailID m ∈ EffectiveEmailID <$> distinct_on (matching fts q d)).
    { apply first_of_keys. rewrite (merge_sort_Permutation group_id_le). split; [by apply list_elem_of_fmap_2|set_solver]. }
    apply list_elem_of_fmap in Hk' as (r & Hr & Hin). exists r. rewrite Hp. split_and!; [done|by apply elem_distinct_on|done|].
    destruct (first_of_first EffectiveEmailID group_id_le ∅ (merge_sort group_id_le (matching fts q d)) r m) as [->|Hle];
      [apply (StronglySorted_merge_sort group_id_le)|done|by rewrite merge_sort_Permutation|done|lia|].
    unfold group_id_le in Hle. lia.
  - by split.
Qed.

(** Paging is stable: in the orders by time or size the id breaks ties, so
    that the pages of size [n] of a query, each read by a statement of its own
    that may yield rows in any order, are the consecutive slices of one list:
    no row is shown twice and none is skipped. *)
Theorem pages_stable `{SqlTextLaws} (fts : gmap (Z * Z) FTSRow) (q : msgQuery) (o : sort_order) (d : DB)
    (n : Z) (K : nat) (all : list Message) (pg : nat -> list Message) :
  keyed d -> tie_broken o = true -> 0 < n ->
  all ≡ₚ selected fts q d -> StronglySorted (order_le o) all ->
  (forall i, (i < K)%nat -> List_messages fts (Limit n (Offset (n * Z.of_nat i) (set_order o q))) d = Ok (pg i)) ->
  concat (pg <$> seq 0 K) = take (Z.to_nat n * K) all.
Proof.
  intros Hwf Ho Hn Hall Hs Hpg.
  assert (Hord : forall k, ordered fts (Limit n (Offset k (set_order o q))) d = all).
  { intros k. set (q' := Limit n (Offset k (set_order o q))).
    assert (Hp : ordered fts q' d ≡ₚ all) by (by rewrite ordered_perm, Hall).
    apply (StronglySorted_unique_strong (order_le o)); [|apply (StronglySorted_merge_sort (order_le o))|done|done].
    intros x y Hx Hy Hxy Hyx. rewrite Hp, Hall in Hx. rewrite Hall in Hy.
    pose proof (order_le_antisym o x y Ho Hxy Hyx) as Hid.
    apply elem_selected in Hx. apply elem_selected in Hy.
    by apply (nodup_key_inj m_ID (matching fts q d) x y (matching_ids fts q d Hwf)). }
  rewrite <- concat_pages. f_equal. apply list_fmap_ext. intros j i Hi.
  apply lookup_seq in Hi as [-> Hlt]. simpl. specialize (Hpg j Hlt). apply List_rows in Hpg as [_ ->].
  unfold limit_rows. cbn [q_limit q_offset Limit Offset].
  destruct (Z.ltb_spec 0 n); [|lia].
  rewrite Hord.
  destruct (Z.ltb_spec 0 (n * Z.of_nat j)).
  - do 2 f_equal. lia.
  - assert (j = 0%nat) as -> by nia. by rewrite Nat.mul_0_r.
Qed.

(** ** A store to query *)

(** ASCII case folding, decimal timestamps, byte-wise collation, vectors as word
    lists, rows in table order. *)
Definition ascii_fold (c : Z) : Z := if (65 <=? c) && (c <=? 90) then c + 32 else c.
#[export] Instance demo_unicode : Unicode := {
  unicode_lower r := r; EqualFold s t := String.eqb (ascii_lower s) (ascii_lower t) }.

#[export] Instance demo_text : SqlText := {
  pg_lower := ascii_fold; parse_ts := ParseInt; collate_le := String.leb; tsvector := list string;
  ts_match v q := existsb (String.eqb q) v;
  plan _ l := l; plan_mb l := l }.

#[export] Instance demo_text_laws : SqlTextLaws.
Proof.
  split; try done.
  - intros c. rewrite !elem_of_cons, elem_of_nil. simpl. unfold ascii_fold. intros Hc.
    by destruct_or?; subst.
  - intros c. rewrite !elem_of_cons, elem_of_nil. simpl. unfold ascii_fold.
    destruct (Z.leb_spec 65 c), (Z.leb_spec c 90); simpl; lia.
Qed.

Definition mail (id mb email received size : Z) (subject : string) (folded : bool) : Message :=
  mkMessage id 1 mb id 1 1 false no_flags [] EmptyString size 0 email received 0 EmptyString
    subject EmptyString EmptyString EmptyString EmptyString EmptyString folded.

(** Message 2 is a copy of message 1, not folded yet; message 4 is Bob's. *)
Definition query_db : DB :=
  set_messages
    (<[1 := mail 1 1 0 10 100 "Plan 50%" true]> (<[2 := mail 2 2 1 30 100 EmptyString false]>
     (<[3 := mail 3 1 0 20 300 "the PLAN" true]> (<[4 := mkMessage 4 2 9 1 1 1 false no_flags [] EmptyString 5 0 0 15 0
        EmptyString "plan" EmptyString EmptyString EmptyString EmptyString EmptyString true]> ∅)))) demo_db.

Definition no_fts : gmap (Z * Z) FTSRow := ∅.
Definition ok_list {A} (r : result (list A)) : list A := match r with Ok l => l | Err _ => [] end.
Definition is_ok {A} (r : result A) : bool := match r with Ok _ => true | Err _ => false end.
Lemma ok_list_eq {A} (r : result (list A)) : is_ok r = true -> r = Ok (ok_list r).
Proof. by destruct r. Qed.

Definition plan_query : msgQuery := FilterSubject "plan" (QueryMessage alice).
Definition group_query : msgQuery := DistinctEmail (QueryMessage alice).

Example query_examples :
  m_ID <$> ok_list (List_messages no_fts (SortReceivedDesc plan_query) query_db) = [3; 1] /\
  m_ID <$> ok_list (List_messages no_fts (FilterSubject "50%" (QueryMessage alice)) query_db) = [1] /\
  m_ID <$> ok_list (List_messages no_fts (FilterSubject "5%" (QueryMessage alice)) query_db) = [] /\
  m_ID <$> ok_list (List_messages no_fts (SortUID (FilterUnfolded (QueryMessage alice))) query_db) = [2] /\
  m_ID <$> ok_list (List_messages no_fts (SortReceivedDesc group_query) query_db) = [3; 1] /\
  Count no_fts group_query query_db = Ok 2 /\ Count no_fts (QueryMessage alice) query_db = Ok 3.
Proof. split_and!; vm_compute; reflexivity. Qed.

Lemma query_db_keyed : keyed query_db.
Proof.
  intros k m. unfold query_db. cbn [db_messages set_messages].
  rewrite !lookup_insert_Some, lookup_empty. intros Hk.
  repeat (destruct Hk as [[<- <-]|[_ Hk]]; [done|]). done.
Qed.

Lemma substring_literal_witness :
  exists k1 k2, fold_case (runes "Plan 50%") = k1 ++ fold_case (runes "50%") ++ k2.
Proof. apply (substring_literal "Plan 50%" "50%"). vm_compute. reflexivity. Defined.

Lemma query_isolated_witness : m_AccountID (mail 1 1 0 10 100 "Plan 50%" true) = 1.
Proof.
  refine (proj1 (proj2 (query_isolated no_fts alice plan_query query_db
    (ok_list (List_messages no_fts plan_query query_db)) (mail 1 1 0 10 100 "Plan 50%" true) _ _ _))).
  - repeat constructor.
  - apply ok_list_eq. vm_compute. reflexivity.
  - vm_compute. repeat first [left | right].
Defined.

Lemma count_is_length_witness : Count no_fts group_query query_db = Ok 2.
Proof.
  exact (proj1 (count_is_length no_fts group_query query_db _ ltac:(done) ltac:(done)
    (ok_list_eq (List_messages no_fts group_query query_db) ltac:(vm_compute; reflexivity)))).
Defined.

Lemma pages_stable_witness :
  let pg i := ok_list (List_messages no_fts (Limit 1 (Offset (1 * Z.of_nat i) (set_order ByReceivedDesc group_query))) query_db) in
  concat (pg <$> seq 0 2) = [mail 3 1 0 20 300 "the PLAN" true; mail 1 1 0 10 100 "Plan 50%" true].
Proof.
  refine (pages_stable no_fts group_query ByReceivedDesc query_db 1 2
    [mail 3 1 0 20 300 "the PLAN" true; mail 1 1 0 10 100 "Plan 50%" true] _ query_db_keyed eq_refl _ _ _ _).
  - lia.
  - assert (selected no_fts group_query query_db = [mail 1 1 0 10 100 "Plan 50%" true; mail 3 1 0 20 300 "the PLAN" true])
      as -> by (vm_compute; reflexivity). constructor.
  - repeat constructor; vm_compute; reflexivity.
  - intros [|[|i]] Hi; [apply ok_list_eq; vm_compute; reflexivity..|lia].
Defined.
