(* ===== verification/EmailQuery.v ===== *)
(** * JMAP Email/query (protocol/jmapd/mail.go)

    The filter runs in SQL on the columns the summary projection has folded; a
    header or keyword filter is evaluated a second time, on the parsed messages,
    for the rows that are not folded yet, and the two sets are counted and
    paged as one.  The MIME parser is the third-party one, a parameter, and so
    is the library's sort. *)

From S2P Require Import Prelude Lists GoStrings Shapes Changes Blob Database Tx Mailboxes Messages Query Strconv.

Local Open Scope go_scope.

Record Address := mkAddress { ad_Name : string; ad_User : string; ad_Host : string }.
Record Envelope := mkEnvelope { env_Subject : string; env_From : list Address; env_To : list Address }.

(** A group's id and its sort keys. *)
Record qrow := mkRow { gid : Z; rcv : Z; sz : Z }.

#[export] Instance qrow_eq_dec : EqDecision qrow.
Proof. solve_decision. Defined.

(** [moxmessage.EnsurePart] (the envelope it finds, [None] for nil) and
    [sort.SliceStable]. *)
Class MailParser := { EnsurePart : string -> option Envelope }.
Class SortPkg := { SliceStable : (qrow -> qrow -> bool) -> list qrow -> list qrow }.

(** What the sort is relied on for: the same rows, in the order of [less],
    where [less] orders every two of them one way and transitively. *)
Class SortLaws `{SortPkg} := {
  SliceStable_perm : forall less l, SliceStable less l ≡ₚ l;
  SliceStable_sorted : forall less l, NoDup l ->
    (forall x y, x ∈ l -> y ∈ l -> x <> y -> less x y = negb (less y x)) ->
    (forall x y z, x ∈ l -> y ∈ l -> z ∈ l -> x <> y -> y <> z -> x <> z ->
       less x y = true -> less y z = true -> less x z = true) ->
    StronglySorted (fun x y => less x y = true) (SliceStable less l) }.

Record emailFilter := mkFilter {
  ef_mailboxID : Z; ef_from : string; ef_to : string; ef_subject : string; ef_text : string;
  ef_before : string; ef_after : string; ef_minSize : Z; ef_maxSize : Z;
  ef_hasKeyword : string; ef_notKeyword : string }.

Definition no_filter : emailFilter :=
  mkFilter 0 EmptyString EmptyString EmptyString EmptyString EmptyString EmptyString 0 0 EmptyString EmptyString.

(** ** The arguments of the call *)

(** [json.Unmarshal] into a map; the last of several equal keys wins. *)
Definition unmarshal_map (raw : json) : option (list (string * json)) :=
  match raw with JObj l => Some l | JNull => Some [] | _ => None end.
Fixpoint map_get (k : string) (l : list (string * json)) : option json :=
  match l with
  | [] => None
  | (k', v) :: l =>
      match map_get k l with
      | Some w => Some w
      | None => if String.eqb k k' then Some v else None
      end
  end.

(** Decoding into a zero string or integer; an error leaves the zero value. *)
Definition unmarshal_str (v : option json) : string :=
  match v with Some (JStr s) => s | _ => EmptyString end.
Definition unmarshal_int (v : option json) : Z :=
  match v with Some (JNum n) => if is_i64 n then n else 0 | _ => 0 end.

(** [strconv.ParseInt] with its error dropped: the value is clamped when out of
    range and 0 when there is no number. *)
Definition parse_clamped (s : string) : Z :=
  let clamp := fun v : option Z => Z.max min_int64 (Z.min max_int64 (default 0 v)) in
  match bytes_of s with
  | c :: l => if Ascii.eqb c "-"%char then clamp (Z.opp <$> parse_digits l)
              else if Ascii.eqb c "+"%char then clamp (parse_digits l)
              else clamp (parse_digits (c :: l))
  | [] => 0
  end.

Definition jsonInt64 (raw : option json) (key : string) : Z :=
  match raw with
  | None => 0
  | Some raw =>
      match unmarshal_map raw with
      | None => 0
      | Some m =>
          match map_get key m with
          | Some (JStr s) => parse_clamped s
          | v => unmarshal_int v
          end
      end
  end.

Definition parseEmailFilter (raw : option json) : emailFilter :=
  match raw with
  | None => no_filter
  | Some j =>
      match unmarshal_map j with
      | None => no_filter
      | Some m =>
          let str := fun k => unmarshal_str (map_get k m) in
          let text := if String.eqb (str "text"%string) EmptyString then str "body"%string else str "text"%string in
          mkFilter (jsonInt64 raw "inMailbox") (str "from"%string) (str "to"%string) (str "subject"%string)
            text (str "before"%string) (str "after"%string)
            (unmarshal_int (map_get "minSize" m)) (unmarshal_int (map_get "maxSize" m))
            (str "hasKeyword"%string) (str "notKeyword"%string)
      end
  end.

(** The property and the direction of the first sort criterion. *)
Definition parseEmailSort (raw : option json) : string * bool :=
  let dflt := ("receivedAt"%string, true) in
  match raw with
  | Some (JArr (first :: rest)) =>
      if forallb (fun j => match unmarshal_map j with Some _ => true | None => false end) (first :: rest) then
        match unmarshal_map first with
        | None => dflt
        | Some m =>
            (match map_get "property" m with Some (JStr s) => s | _ => dflt.1 end,
             match map_get "isAscending" m with Some (JBool b) => b | _ => dflt.2 end)
        end
      else dflt
  | _ => dflt
  end.

Definition jsonNum (raw : option json) : Z := unmarshal_int raw.

Definition maxObjectsInQuery : Z := 1000.

Definition emailID (m : Message) : string := ("E" ++ FormatInt (EffectiveEmailID m))%string.

Section EmailQuery.
Context `{BlobOps} `{Unicode} `{SqlText} `{MailParser} `{SortPkg}.
Variable a : account.
Variable fts : gmap (Z * Z) FTSRow.
Variable filt : emailFilter.

Definition given (s : string) : bool := negb (String.eqb s EmptyString).

(** ** The filter on parsed messages *)

Definition addrsContain (addrs : list Address) (sub : string) : bool :=
  existsb (fun ad => contains (ToLower (ad_Name ad ++ " " ++ ad_User ad ++ "@" ++ ad_Host ad)) (ToLower sub)) addrs.

Definition hasKeyword (m : Message) (kw : string) : bool :=
  let k := ToLower kw in
  let fl := m_Flags m in
  if String.eqb k "$seen" || String.eqb k "\seen" then Seen fl
  else if String.eqb k "$flagged" || String.eqb k "\flagged" then Flagged fl
  else if String.eqb k "$answered" || String.eqb k "\answered" then Answered fl
  else if String.eqb k "$draft" || String.eqb k "\draft" then Draft fl
  else if String.eqb k "$deleted" || String.eqb k "\deleted" then Deleted fl
  else if String.eqb k "$junk" || String.eqb k "\junk" then Junk fl
  else existsb (fun k => EqualFold k kw) (m_Keywords m).

(** The bytes [io.ReadAll] gets before an error it ignores. *)
Definition read_all (br : BlobReader) : string := match rd_data br with Ok data => data | Err _ => EmptyString end.

Definition matchesLiveFilter (blobs : blob_state) (m : Message) : bool :=
  if given (ef_hasKeyword filt) && negb (hasKeyword m (ef_hasKeyword filt)) then false
  else if given (ef_notKeyword filt) && hasKeyword m (ef_notKeyword filt) then false
  else if negb (given (ef_from filt)) && negb (given (ef_to filt)) && negb (given (ef_subject filt)) then true
  else
    match EnsurePart (read_all (MessageReader a m blobs)) with
    | None => false
    | Some env =>
        if given (ef_subject filt) && negb (contains (ToLower (env_Subject env)) (ToLower (ef_subject filt))) then false
        else if given (ef_from filt) && negb (addrsContain (env_From env) (ef_from filt)) then false
        else if given (ef_to filt) && negb (addrsContain (env_To env) (ef_to filt)) then false
        else true
    end.

(** ** The queries *)

Definition needsLiveFallback : bool :=
  given (ef_from filt) || given (ef_to filt) || given (ef_subject filt) ||
  given (ef_hasKeyword filt) || given (ef_notKeyword filt).

Definition when (b : bool) (f : msgQuery -> msgQuery) (q : msgQuery) : msgQuery := if b then f q else q.

Definition build : msgQuery :=
  let q := DistinctEmail (QueryMessage a) in
  let q := when needsLiveFallback FilterFolded q in
  let q := when (negb (ef_mailboxID filt =? 0)) (FilterMailbox (ef_mailboxID filt)) q in
  let q := when (given (ef_text filt)) (FilterFTS (ef_text filt)) q in
  let q := when (given (ef_subject filt)) (FilterSubject (ef_subject filt)) q in
  let q := when (given (ef_from filt)) (FilterFrom (ef_from filt)) q in
  let q := when (given (ef_to filt)) (FilterTo (ef_to filt)) q in
  let q := when (given (ef_after filt) || given (ef_before filt)) (FilterReceivedRange (ef_after filt) (ef_before filt)) q in
  let q := when ((0 <? ef_minSize filt) || (0 <? ef_maxSize filt)) (FilterSizeRange (ef_minSize filt) (ef_maxSize filt)) q in
  let q := when (given (ef_hasKeyword filt)) (FilterKeyword (ef_hasKeyword filt) true) q in
  when (given (ef_notKeyword filt)) (FilterKeyword (ef_notKeyword filt) false) q.

(** The not yet folded rows the database can preselect. *)
Definition unfolded : msgQuery :=
  let q := FilterUnfolded (QueryMessage a) in
  let q := when (negb (ef_mailboxID filt =? 0)) (FilterMailbox (ef_mailboxID filt)) q in
  let q := when (given (ef_after filt) || given (ef_before filt)) (FilterReceivedRange (ef_after filt) (ef_before filt)) q in
  let q := when ((0 <? ef_minSize filt) || (0 <? ef_maxSize filt)) (FilterSizeRange (ef_minSize filt) (ef_maxSize filt)) q in
  when (given (ef_text filt)) (FilterFTS (ef_text filt)) q.

Variable sortProp : string.
Variable sortAsc : bool.

Definition by_size : bool := String.eqb sortProp "size".
Definition sortIt (q : msgQuery) : msgQuery :=
  if by_size then (if sortAsc then SortSizeAsc q else SortSizeDesc q)
  else if sortAsc then SortReceivedAsc q else SortReceivedDesc q.

Definition UnixNano (t : Z) : Z := i64 (1000 * t).
Definition row_of (m : Message) : qrow := mkRow (EffectiveEmailID m) (UnixNano (m_Received m)) (m_Size m).

(** The [less] function passed to the sort. *)
Definition less (x y : qrow) : bool :=
  let lt := if by_size then sz x <? sz y else rcv x <? rcv y in
  if sortAsc then lt else negb lt.

Definition liveRows (blobs : blob_state) (d : DB) : result (list qrow) :=
  if needsLiveFallback then
    try! umsgs := List_messages fts (Limit maxObjectsInQuery unfolded) d in
    Ok (first_of gid ∅ (row_of <$> filter (fun m => matchesLiveFilter blobs m = true) umsgs))
  else Ok [].

Definition page (position limit : Z) (rows : list qrow) : list qrow :=
  let rows := if position <? Z.of_nat (length rows) then drop (Z.to_nat position) rows else [] in
  if limit <? Z.of_nat (length rows) then take (Z.to_nat limit) rows else rows.

(** The body of the read transaction of [emailQuery]: ids and total. *)
Definition query_body (position limit : Z) (blobs : blob_state) (d : DB) : result (list string * Z) :=
  try! live := liveRows blobs d in
  try! foldedTotal := Count fts build d in
  let total := foldedTotal + Z.of_nat (length live) in
  match live with
  | [] =>
      try! msgs := List_messages fts (Limit limit (Offset position (sortIt build))) d in
      Ok (emailID <$> msgs, total)
  | _ =>
      try! overlap := Count fts (FilterEmailGroupIn (gid <$> live) build) d in
      let foldedWindow := i64 (position + limit + Z.of_nat (length live)) in
      try! fmsgs := List_messages fts (Limit foldedWindow (sortIt build)) d in
      let rows := SliceStable less (first_of gid ∅ ((row_of <$> fmsgs) ++ live)) in
      Ok ((fun r => ("E" ++ FormatInt (gid r))%string) <$> page position limit rows, total - overlap)
  end.

End EmailQuery.

(** [emailQuery]: the window is bounded whatever the client asks for. *)
Definition clamp_limit (limit : Z) : Z :=
  if (limit <=? 0) || (maxObjectsInQuery <? limit) then maxObjectsInQuery else limit.
Definition clamp_position (position : Z) : Z := if position <? 0 then 0 else position.

Definition emailQuery `{BlobOps} `{Unicode} `{SqlText} `{MailParser} `{SortPkg} (a : account)
  (fts : gmap (Z * Z) FTSRow) (args : string -> option json) (blobs : blob_state) (d : DB)
  : result (list string * Z) :=
  let filt := parseEmailFilter (args "filter"%string) in
  let '(sortProp, sortAsc) := parseEmailSort (args "sort"%string) in
  let position := clamp_position (jsonNum (args "position"%string)) in
  let limit := clamp_limit (jsonNum (args "limit"%string)) in
  query_body a fts filt sortProp sortAsc position limit blobs d.
