(* ===== verification/EmailQuerySpec.v ===== *)
(** * What Email/query answers

    The total it reports is the number of Email groups with a row that passes
    the filter, counted once although folded and unfolded rows are searched in
    two ways; its page is the slice at the requested position of the sorted
    groups. *)

From Stdlib Require Import Btauto.
From S2P Require Import Prelude Lists GoStrings Shapes Changes Blob Database Tx Mailboxes Messages Query KernelInv KernelFlags Kernel KernelDemo Strconv QuerySpec EmailQuery.

Local Open Scope go_scope.

Section Spec.
Context `{BlobOps} `{Unicode} `{SqlTextLaws} `{MailParser} `{SortLaws}.
Variable a : account.
Variable fts : gmap (Z * Z) FTSRow.
Variable filt : emailFilter.

(** ** What the filter asks for *)

Definition opt (b : bool) (p : bool) : bool := negb b || p.

(** The conditions every row is tested for in SQL. *)
Definition in_scope (m : Message) : bool :=
  negb (m_Expunged m) && (m_AccountID m =? acc_id a) &&
  opt (negb (ef_mailboxID filt =? 0)) (m_MailboxID m =? ef_mailboxID filt) &&
  opt (given (ef_after filt)) (ts_of (ef_after filt) <=? m_Received m) &&
  opt (given (ef_before filt)) (m_Received m <? ts_of (ef_before filt)) &&
  opt (0 <? ef_minSize filt) (ef_minSize filt <=? m_Size m) &&
  opt (0 <? ef_maxSize filt) (m_Size m <=? ef_maxSize filt) &&
  opt (given (ef_text filt))
    (match fts !! (m_AccountID m, m_ID m) with
     | Some r => fts_hit (like_pattern (ef_text filt)) (ef_text filt) r | None => false end).

Definition keyword_is (kw : string) (want : bool) (m : Message) : bool :=
  match systemFlagColumn kw with
  | Some col => Bool.eqb (col_flag col (m_Flags m)) want
  | None => Bool.eqb (existsb (fun k => bool_decide (fold_case (runes k) = fold_case (runes kw))) (m_Keywords m)) want
  end.

(** Headers and keywords, read from the columns of a row. *)
Definition by_columns (m : Message) : bool :=
  opt (given (ef_subject filt)) (ilike (m_Subject m) (like_pattern (ef_subject filt))) &&
  opt (given (ef_from filt)) (ilike (m_FromSearch m) (like_pattern (ef_from filt))) &&
  opt (given (ef_to filt)) (ilike (m_ToSearch m) (like_pattern (ef_to filt))) &&
  opt (given (ef_hasKeyword filt)) (keyword_is (ef_hasKeyword filt) true m) &&
  opt (given (ef_notKeyword filt)) (keyword_is (ef_notKeyword filt) false m).

(** A row passes: by its columns, or by its parsed message when a header or
    keyword filter meets a row that is not folded. *)
Definition passes (blobs : blob_state) (m : Message) : bool :=
  in_scope m &&
  (if needsLiveFallback filt && negb (m_SummaryFolded m) then matchesLiveFilter a filt blobs m else by_columns m).

(** ** The queries compute it *)

Lemma where_add c q m : whereClause fts (add c q) m = whereClause fts q m && holds fts m c.
Proof. unfold whereClause. simpl. rewrite forallb_app. simpl. by rewrite andb_true_r, andb_assoc. Qed.

Lemma where_when b c q m : whereClause fts (when b (add c) q) m = whereClause fts q m && opt b (holds fts m c).
Proof. destruct b; simpl; [apply where_add|by rewrite andb_true_r]. Qed.

Lemma where_received b s t q m :
  whereClause fts (when b (FilterReceivedRange s t) q) m =
  whereClause fts q m && opt b (opt (given s) (ts_of s <=? m_Received m) && opt (given t) (m_Received m <? ts_of t)).
Proof.
  destruct b; simpl; [|by rewrite andb_true_r]. unfold FilterReceivedRange, given, opt.
  destruct (String.eqb s EmptyString), (String.eqb t EmptyString); rewrite ?where_add; simpl;
    by rewrite ?andb_true_r, <- ?andb_assoc.
Qed.

Lemma where_size b lo hi q m :
  whereClause fts (when b (FilterSizeRange lo hi) q) m =
  whereClause fts q m && opt b (opt (0 <? lo) (lo <=? m_Size m) && opt (0 <? hi) (m_Size m <=? hi)).
Proof.
  destruct b; simpl; [|by rewrite andb_true_r]. unfold FilterSizeRange, opt.
  destruct (0 <? lo), (0 <? hi); rewrite ?where_add; simpl; by rewrite ?andb_true_r, <- ?andb_assoc.
Qed.

Lemma where_keyword b kw want q m :
  whereClause fts (when b (FilterKeyword kw want) q) m = whereClause fts q m && opt b (keyword_is kw want m).
Proof.
  unfold FilterKeyword, keyword_is. destruct (systemFlagColumn kw); by rewrite where_when.
Qed.

Lemma where_start m :
  whereClause fts (DistinctEmail (QueryMessage a)) m = negb (m_Expunged m) && (m_AccountID m =? acc_id a).
Proof. unfold whereClause. simpl. by rewrite andb_true_r. Qed.

Lemma opt_or b c p q : opt (b || c) (opt b p && opt c q) = opt b p && opt c q.
Proof. by destruct b, c. Qed.

Lemma where_build m :
  whereClause fts (build a filt) m =
  in_scope m && opt (needsLiveFallback filt) (m_SummaryFolded m) && by_columns m.
Proof.
  unfold build, FilterFolded, FilterMailbox, FilterFTS, FilterSubject, FilterFrom, FilterTo, ilikeContains. cbv zeta.
  rewrite !where_keyword, where_size, where_received, !where_when, where_start, !opt_or.
  unfold in_scope, by_columns. simpl.
  generalize (opt (needsLiveFallback filt) (m_SummaryFolded m)). intros fo. rewrite !andb_assoc.
  destruct (m_Expunged m), (m_AccountID m =? acc_id a), fo; simpl; rewrite ?andb_false_r; try done.
  btauto.
Qed.

Lemma where_unfolded m : whereClause fts (unfolded a filt) m = in_scope m && negb (m_SummaryFolded m).
Proof.
  unfold unfolded, FilterUnfolded, FilterMailbox, FilterFTS. cbv zeta.
  rewrite where_when, where_size, where_received, where_when, where_add, !opt_or.
  change (whereClause fts (QueryMessage a) m) with (whereClause fts (DistinctEmail (QueryMessage a)) m).
  rewrite where_start. unfold in_scope. simpl. btauto.
Qed.

(** ** Counting groups *)

Lemma elem_where q d m : m ∈ matching fts q d <-> whereClause fts q m = true /\ exists k, db_messages d !! k = Some m.
Proof. apply elem_messages_where. Qed.

Definition groups (l : list Message) : gset Z := list_to_set (EffectiveEmailID <$> l).

Lemma elem_groups g l : g ∈ groups l <-> exists m, m ∈ l /\ EffectiveEmailID m = g.
Proof.
  unfold groups. rewrite elem_of_list_to_set, list_elem_of_fmap. split; intros (m & Hm1 & Hm2); exists m; auto.
Qed.

Lemma Count_distinct q d n : q_distinct q = true -> Count fts q d = Ok n -> n = Z.of_nat (size (groups (matching fts q d))).
Proof. intros Hq. unfold Count. rewrite Hq. destruct (forallb _ _); [|done]. by intros [= <-]. Qed.

(** What a filter leaves alone. *)
Definition frame (q : msgQuery) := (q_distinct q, q_order q, q_limit q, q_offset q).

Lemma frame_when b f q : (forall q, frame (f q) = frame q) -> frame (when b f q) = frame q.
Proof. by destruct b; simpl. Qed.

Ltac frames := repeat (rewrite frame_when;
  [|intros q; unfold FilterKeyword, FilterSizeRange, FilterReceivedRange; by repeat case_match]).

Lemma frame_build : frame (build a filt) = (true, None, 0, 0).
Proof. unfold build. cbv zeta. by frames. Qed.

Lemma frame_unfolded : frame (unfolded a filt) = (false, None, 0, 0).
Proof. unfold unfolded. cbv zeta. by frames. Qed.

Lemma build_distinct : q_distinct (build a filt) = true.
Proof. exact (f_equal (fun x => x.1.1.1) frame_build). Qed.

(** Folded rows pass by their columns, the others by the live filter. *)
Lemma passes_cases blobs m :
  passes blobs m = true <->
  whereClause fts (build a filt) m = true \/
  (needsLiveFallback filt = true /\ whereClause fts (unfolded a filt) m = true /\
   matchesLiveFilter a filt blobs m = true).
Proof.
  unfold passes. rewrite where_build, where_unfolded.
  destruct (needsLiveFallback filt), (m_SummaryFolded m), (in_scope m), (by_columns m), (matchesLiveFilter _ _ _ _);
    simpl; intuition congruence.
Qed.

(** The groups of the live rows. *)
Lemma live_groups blobs d live :
  liveRows a fts filt blobs d = Ok live ->
  (length (matching fts (unfolded a filt) d) <= Z.to_nat maxObjectsInQuery)%nat ->
  NoDup (gid <$> live) /\
  (forall g, g ∈ gid <$> live <-> exists m, needsLiveFallback filt = true /\
     m ∈ matching fts (unfolded a filt) d /\ matchesLiveFilter a filt blobs m = true /\ EffectiveEmailID m = g).
Proof.
  unfold liveRows. destruct (needsLiveFallback filt).
  2:{ intros [= <-] _. split; [constructor|]. intros g. split; [set_solver|]. by intros (m & ? & _). }
  destruct (List_messages fts _ d) as [umsgs|e] eqn:E; [|done]. intros [= <-] Hlen.
  apply List_rows in E as [_ ->]. split; [apply first_of_nodup|]. intros g.
  set (Q := Limit maxObjectsInQuery (unfolded a filt)).
  assert (Hq : limit_rows (q_limit Q) (q_offset Q) (ordered fts Q d) ≡ₚ matching fts (unfolded a filt) d).
  { pose proof frame_unfolded as Hf. injection Hf as Hd _ _ Ho.
    assert (Hp : ordered fts Q d ≡ₚ matching fts (unfolded a filt) d).
    { rewrite ordered_perm. unfold selected. simpl. by rewrite Hd. }
    unfold limit_rows. simpl q_limit. simpl q_offset. rewrite Ho. simpl. rewrite take_ge; [done|by rewrite Hp]. }
  rewrite first_of_keys. rewrite <- list_fmap_compose. split.
  - intros [(m & -> & [Hm Hin]%list_elem_of_filter)%list_elem_of_fmap _]. exists m. by rewrite Hq in Hin.
  - intros (m & _ & Hin & Hm & <-). split; [|set_solver]. apply list_elem_of_fmap. exists m. split; [done|].
    apply list_elem_of_filter. by rewrite Hq.
Qed.

Lemma total_exact (sortProp : string) (sortAsc : bool) (position limit : Z) (blobs : blob_state) (d : DB)
    (ids : list string) (total : Z) (G : gset Z) :
  query_body a fts filt sortProp sortAsc position limit blobs d = Ok (ids, total) ->
  (length (matching fts (unfolded a filt) d) <= Z.to_nat maxObjectsInQuery)%nat ->
  (forall g, g ∈ G <-> exists k m, db_messages d !! k = Some m /\ passes blobs m = true /\ EffectiveEmailID m = g) ->
  total = Z.of_nat (size G).
Proof.
  unfold query_body. destruct (liveRows a fts filt blobs d) as [live|e] eqn:El; [|done]. cbn [rbind].
  destruct (Count fts (build a filt) d) as [n|e] eqn:En; [|done]. cbn [rbind].
  intros Hq Hlen HG. destruct (live_groups _ _ _ El Hlen) as [Hnd Hlive].
  apply Count_distinct in En; [|apply build_distinct]. subst n.
  set (F := groups (matching fts (build a filt) d)) in *.
  set (L := list_to_set (gid <$> live) : gset Z).
  assert (HU : G = F ∪ L).
  { apply set_eq. intros g. rewrite elem_of_union, HG. unfold F, L. rewrite elem_groups, elem_of_list_to_set, Hlive.
    setoid_rewrite elem_where. setoid_rewrite passes_cases. split.
    - intros (k & m & Hk & [Hb|(Hn & Hb & Hm)] & Hg); [left|right]; eauto 10.
    - intros [(m & (Hb & k & Hk) & Hg)|(m & Hn & (Hb & k & Hk) & Hm & Hg)]; eauto 10. }
  assert (HL : size L = length live).
  { unfold L. rewrite size_list_to_set by done. by rewrite length_fmap. }
  rewrite HU. clear HU HG. destruct live as [|r live].
  - destruct (List_messages fts _ d) as [msgs|e]; [|done]. injection Hq as _ <-.
    replace (F ∪ L) with F by set_solver. simpl. lia.
  - destruct (Count fts (FilterEmailGroupIn _ _) d) as [o|e] eqn:Eo; [|done]. cbn [rbind] in Hq.
    destruct (List_messages fts _ d) as [msgs|e]; [|done]. injection Hq as _ <-.
    apply Count_distinct in Eo; [|apply build_distinct]. subst o.
    assert (HI : groups (matching fts (FilterEmailGroupIn (gid <$> r :: live) (build a filt)) d) = F ∩ L).
    { apply set_eq. intros g. rewrite elem_of_intersection. unfold F, L. rewrite !elem_groups, elem_of_list_to_set.
      setoid_rewrite elem_where. unfold FilterEmailGroupIn. csimpl. setoid_rewrite where_add. simpl. split.
      - intros (m & ([Hb Hin%bool_decide_eq_true]%andb_prop & k & Hk) & <-). split; [|exact Hin]. by eauto 10.
      - intros [(m & (Hb & k & Hk) & <-) Hin]. exists m. split; [|done]. split; [|by eauto].
        apply andb_true_intro. split; [done|]. by apply bool_decide_eq_true. }
    assert (HS : size (F ∪ L) = (size F + size (L ∖ F))%nat) by apply size_union_alt.
    rewrite HI, HS.
    replace (Z.of_nat (S (length live))) with (Z.of_nat (size L)) by (by rewrite HL). pose proof (size_difference_alt (C:=gset Z) L F) as Hd.
    rewrite (intersection_comm_L F L). pose proof (subseteq_size (C:=gset Z) (L ∩ F) L ltac:(set_solver)).
    rewrite Nat2Z.inj_add, Hd, Nat2Z.inj_sub by done. lia.
Qed.

(** ** The page *)

Variable sortProp : string.
Variable sortAsc : bool.

Definition key (r : qrow) : Z := if by_size sortProp then sz r else rcv r.
Definition lessR (x y : qrow) : Prop := less sortProp sortAsc x y = true.
Definition show_id (r : qrow) : string := ("E" ++ FormatInt (gid r))%string.

Lemma less_key x y : less sortProp sortAsc x y = if sortAsc then key x <? key y else negb (key x <? key y).
Proof. unfold less, key. by destruct sortAsc, (by_size sortProp). Qed.

(** With distinct keys [less] is a strict total order on the rows. *)
Section Distinct.
Variable full : list qrow.
Hypothesis keys : NoDup (key <$> full).

Lemma less_total x y : x ∈ full -> y ∈ full -> x <> y -> less sortProp sortAsc x y = negb (less sortProp sortAsc y x).
Proof.
  intros Hx Hy Hne. rewrite !less_key. assert (key x <> key y) by (intros Hk; by apply Hne, (nodup_key_inj key full)).
  destruct sortAsc, (Z.ltb_spec (key x) (key y)), (Z.ltb_spec (key y) (key x)); simpl; lia.
Qed.

Lemma less_trans x y z : x ∈ full -> y ∈ full -> z ∈ full -> x <> y -> y <> z -> x <> z -> lessR x y -> lessR y z -> lessR x z.
Proof.
  intros _ _ _ _ _ _. unfold lessR. rewrite !less_key.
  destruct sortAsc; rewrite ?negb_true_iff, ?Z.ltb_lt, ?Z.ltb_ge; lia.
Qed.

Lemma less_antisym x y : x ∈ full -> y ∈ full -> lessR x y -> lessR y x -> x = y.
Proof.
  unfold lessR. intros Hx Hy Hxy Hyx. destruct (decide (x = y)) as [?|Hne]; [done|].
  rewrite (less_total x y Hx Hy Hne), Hyx in Hxy. done.
Qed.

Lemma stable_sorted l : NoDup l -> (forall x, x ∈ l -> x ∈ full) -> StronglySorted lessR (SliceStable (less sortProp sortAsc) l).
Proof.
  intros Hl Hin. apply SliceStable_sorted; [done|..].
  - intros x y Hx Hy. apply less_total; auto.
  - intros x y z Hx Hy Hz. apply less_trans; auto.
Qed.

(** The rows of the sorted statement come in the same order. *)
Lemma rows_sorted (l : list Message) o :
  (forall m, m ∈ l -> is_i64 (1000 * m_Received m) = true) -> (forall m, m ∈ l -> row_of m ∈ full) ->
  q_order (sortIt sortProp sortAsc (build a filt)) = Some o ->
  NoDup (key <$> (row_of <$> l)) -> StronglySorted (order_le o) l -> StronglySorted lessR (row_of <$> l).
Proof.
  intros Ht Hf Ho Hnd Hs. induction Hs as [|x l Hs IH Hx]; csimpl; [constructor|].
  csimpl in Hnd. apply NoDup_cons in Hnd as [Hk Hnd]. constructor.
  - apply IH; [|by intros m Hm; apply Hf; right|done]. intros m Hm. apply Ht. by right.
  - apply Forall_forall. intros r (m & -> & Hm)%list_elem_of_fmap. apply (proj1 (Forall_forall _ _)) with (x:=m) in Hx; [|done].
    assert (key (row_of x) <> key (row_of m)).
    { intros He. apply Hk. rewrite He. by apply list_elem_of_fmap_2, list_elem_of_fmap_2. }
    pose proof (Ht x ltac:(by left)) as Hix. pose proof (Ht m ltac:(by right)) as Him.
    unfold lessR. rewrite less_key. unfold key, row_of, UnixNano in *. cbn [sz rcv] in *. rewrite !i64_id in * by done.
    revert Ho Hx. unfold sortIt, order_le, order_leb.
    destruct (by_size sortProp), sortAsc; intros [= <-];
      rewrite ?orb_true_iff, ?andb_true_iff, ?negb_true_iff, ?Z.ltb_lt, ?Z.ltb_ge, ?Z.eqb_eq; lia.
Qed.
End Distinct.

(** The rows behind a sorted page of the statement: the selected rows, in order. *)
Lemma ordered_rows d q full live :
  selected fts q d = selected fts (build a filt) d -> q_order q = q_order (sortIt sortProp sortAsc (build a filt)) ->
  NoDup (key <$> full) -> full ≡ₚ (row_of <$> selected fts (build a filt) d) ++ live ->
  (forall m, m ∈ matching fts (build a filt) d -> is_i64 (1000 * m_Received m) = true) ->
  let l := ordered fts q d in
  (row_of <$> l) ≡ₚ (row_of <$> selected fts (build a filt) d) /\ StronglySorted lessR (row_of <$> l).
Proof.
  intros Hsel Hord Hk Hp Ht l.
  assert (Hl : l ≡ₚ selected fts (build a filt) d) by (unfold l; by rewrite ordered_perm, Hsel).
  split; [by rewrite Hl|].
  assert (Ho : exists o, q_order (sortIt sortProp sortAsc (build a filt)) = Some o).
  { unfold sortIt. destruct (by_size sortProp), sortAsc; by eexists. }
  destruct Ho as [o Ho]. apply (rows_sorted full Hk l o).
  - intros m Hm. apply Ht, elem_selected. by rewrite <- Hl.
  - intros m Hm. rewrite Hp. apply elem_of_app. left. apply list_elem_of_fmap_2. by rewrite <- Hl.
  - done.
  - rewrite Hl. rewrite Hp, fmap_app in Hk. by apply NoDup_app in Hk as [? _].
  - unfold l, ordered. rewrite Hord, Ho. apply (StronglySorted_merge_sort (order_le o)).
Qed.

Lemma live_length blobs d live : liveRows a fts filt blobs d = Ok live -> Z.of_nat (length live) <= maxObjectsInQuery.
Proof.
  unfold liveRows. destruct (needsLiveFallback filt); [|by intros [= <-]].
  destruct (List_messages fts _ d) as [umsgs|e] eqn:E; [|done]. intros [= <-].
  apply List_rows in E as [_ ->].
  pose proof (first_of_length gid ∅ (row_of <$> filter (fun m => matchesLiveFilter a filt blobs m = true)
    (limit_rows maxObjectsInQuery (q_offset (unfolded a filt)) (ordered fts (Limit maxObjectsInQuery (unfolded a filt)) d)))) as Hl.
  rewrite length_fmap in Hl.
  pose proof (length_filter (fun m => matchesLiveFilter a filt blobs m = true)
    (limit_rows maxObjectsInQuery (q_offset (unfolded a filt)) (ordered fts (Limit maxObjectsInQuery (unfolded a filt)) d))) as Hf.
  unfold limit_rows at 2 in Hf. change (0 <? maxObjectsInQuery) with true in Hf. cbn iota in Hf.
  rewrite length_take in Hf. simpl q_limit. simpl q_offset. unfold maxObjectsInQuery in *. lia.
Qed.

Lemma page_slice (position limit : Z) (rows : list qrow) :
  0 <= position -> 0 < limit -> page position limit rows = take (Z.to_nat limit) (drop (Z.to_nat position) rows).
Proof.
  intros Hp Hl. unfold page. destruct (Z.ltb_spec position (Z.of_nat (length rows))).
  - destruct (Z.ltb_spec limit (Z.of_nat (length (drop (Z.to_nat position) rows)))); [done|].
    by rewrite take_ge by lia.
  - rewrite (drop_ge rows) by lia. destruct (Z.ltb_spec limit (Z.of_nat (@length qrow []))); by rewrite ?take_nil.
Qed.

Lemma limit_rows_slice {A} (position limit : Z) (l : list A) :
  0 <= position -> 0 < limit -> limit_rows limit position l = take (Z.to_nat limit) (drop (Z.to_nat position) l).
Proof.
  intros Hp Hl. unfold limit_rows. destruct (Z.ltb_spec 0 limit); [|lia].
  destruct (Z.ltb_spec 0 position); [done|]. by assert (position = 0) as -> by lia.
Qed.

(** The window fetched for a merge holds every row the page can show. *)
Lemma window_enough (position limit n : Z) {A} (l : list A) :
  0 <= position <= max_int64 -> 0 < limit <= maxObjectsInQuery -> 0 <= n <= maxObjectsInQuery ->
  exists rest, l = limit_rows (i64 (position + limit + n)) 0 l ++ rest /\
    ((Z.to_nat (position + limit) <= length (limit_rows (i64 (position + limit + n)) 0 l))%nat \/ rest = []).
Proof.
  unfold maxObjectsInQuery, max_int64. intros Hp Hl Hn. set (w := i64 (position + limit + n)).
  assert (Hw : w = position + limit + n \/ w <= 0).
  { unfold w. destruct (Z.leb_spec (position + limit + n) (2 ^ 63 - 1)).
    - left. apply i64_small. unfold max_int64. lia.
    - right. unfold i64. assert ((position + limit + n + 2 ^ 63) mod 2 ^ 64 = position + limit + n - 2 ^ 63); [|lia].
      symmetry. apply (Z.mod_unique_pos _ _ 1); lia. }
  unfold limit_rows. simpl. destruct (Z.ltb_spec 0 w).
  - exists (drop (Z.to_nat w) l). rewrite take_drop, length_take. split; [done|].
    destruct (decide (Z.to_nat w <= length l)%nat); [left; lia|right]. apply drop_ge. lia.
  - exists []. rewrite app_nil_r. split; [done|by right].
Qed.

Lemma merge_page (position limit : Z) (W rest live full : list qrow) :
  0 <= position -> 0 < limit -> NoDup (key <$> full) -> NoDup (gid <$> full) ->
  full ≡ₚ (W ++ rest) ++ live -> StronglySorted lessR full -> StronglySorted lessR (W ++ rest) ->
  ((Z.to_nat (position + limit) <= length W)%nat \/ rest = []) ->
  page position limit (SliceStable (less sortProp sortAsc) (first_of gid ∅ (W ++ live))) =
  take (Z.to_nat limit) (drop (Z.to_nat position) full).
Proof.
  intros Hp Hl Hk Hg Hfull Hs HWs Hlen. rewrite page_slice by done.
  assert (Hsub : full ≡ₚ (W ++ live) ++ rest).
  { rewrite Hfull, <- !app_assoc. apply Permutation_app_head, Permutation_app_comm. }
  assert (Hgid : NoDup (gid <$> W ++ live)) by (rewrite Hsub, fmap_app in Hg; by apply NoDup_app in Hg as [? _]).
  rewrite first_of_id by (done || set_solver).
  assert (Hin : forall x, x ∈ W ++ live -> x ∈ full) by (intros x Hx; rewrite Hsub; apply elem_of_app; by left).
  rewrite !take_drop_commute.
  assert (Hpl : (Z.to_nat position + Z.to_nat limit = Z.to_nat (position + limit))%nat) by lia. rewrite Hpl.
  f_equal. symmetry. eapply take_sorted_merge; [| |exact Hfull|exact Hs|exact HWs| | |exact Hlen].
  - by apply NoDup_fmap_1 in Hk.
  - intros x y. by apply less_antisym.
  - apply SliceStable_perm.
  - apply (stable_sorted full Hk); [by apply NoDup_fmap_1 in Hgid|done].
Qed.

Lemma sort_selected d w k :
  selected fts (Limit w (Offset k (sortIt sortProp sortAsc (build a filt)))) d = selected fts (build a filt) d /\
  selected fts (Limit w (sortIt sortProp sortAsc (build a filt))) d = selected fts (build a filt) d /\
  q_offset (sortIt sortProp sortAsc (build a filt)) = 0.
Proof.
  assert (Ho : q_offset (build a filt) = 0) by exact (f_equal snd frame_build).
  unfold sortIt. by destruct (by_size sortProp), sortAsc.
Qed.

Lemma query_page (position limit : Z) (blobs : blob_state) (d : DB) (ids : list string) (total : Z) (live full : list qrow) :
  query_body a fts filt sortProp sortAsc position limit blobs d = Ok (ids, total) ->
  liveRows a fts filt blobs d = Ok live ->
  0 <= position <= max_int64 -> 0 < limit <= maxObjectsInQuery ->
  (forall m, m ∈ matching fts (build a filt) d -> is_i64 (1000 * m_Received m) = true) ->
  full ≡ₚ (row_of <$> selected fts (build a filt) d) ++ live ->
  StronglySorted lessR full -> NoDup (key <$> full) -> NoDup (gid <$> full) ->
  ids = show_id <$> take (Z.to_nat limit) (drop (Z.to_nat position) full).
Proof.
  intros Hq El Hp Hl Ht Hfull Hs Hk Hg. pose proof (live_length _ _ _ El) as Hlive.
  unfold query_body in Hq. rewrite El in Hq. cbn [rbind] in Hq.
  destruct (Count fts (build a filt) d) as [n|e]; [|done]. cbn [rbind] in Hq. destruct live as [|r live].
  - destruct (List_messages fts _ d) as [msgs|e] eqn:Em; [|done]. injection Hq as <- _.
    apply List_rows in Em as [_ ->].
    destruct (ordered_rows d (Limit limit (Offset position (sortIt sortProp sortAsc (build a filt)))) full []
      (proj1 (sort_selected d limit position)) eq_refl Hk Hfull Ht) as [Hperm Hsort].
    rewrite app_nil_r in Hfull.
    rewrite (StronglySorted_unique_strong lessR full _ ltac:(intros x y Hx Hy; apply (less_antisym full); [done|done|by rewrite Hfull, <- Hperm])
      Hs Hsort ltac:(by rewrite Hperm)).
    simpl q_limit. simpl q_offset. rewrite limit_rows_slice by lia.
    rewrite <- fmap_drop, <- fmap_take, <- list_fmap_compose. done.
  - destruct (Count fts _ d) as [o|e]; [|done]. cbn [rbind] in Hq.
    destruct (List_messages fts _ d) as [msgs|e] eqn:Em; [|done]. injection Hq as <- _.
    apply List_rows in Em as [_ ->].
    set (w := i64 _) in *. set (q := Limit w _).
    destruct (ordered_rows d q full (r :: live) (proj1 (proj2 (sort_selected d w 0))) eq_refl Hk Hfull Ht) as [Hperm Hsort].
    assert (Hoff : q_offset q = 0) by apply (sort_selected d w 0). rewrite Hoff. simpl q_limit.
    destruct (window_enough position limit (Z.of_nat (length (r :: live))) (ordered fts q d)) as (rest & Hw & Hlen);
      [lia|lia|lia|]. fold w in Hw, Hlen. set (W := limit_rows w 0 (ordered fts q d)) in *.
    unfold show_id. f_equal. apply (merge_page position limit (row_of <$> W) (row_of <$> rest));
      [lia|lia|done|done| |done| |].
    + rewrite <- fmap_app, <- Hw. by rewrite Hperm.
    + by rewrite <- fmap_app, <- Hw.
    + rewrite length_fmap. destruct Hlen as [?| ->]; [by left|by right].
Qed.

End Spec.

Lemma clamp_position_range raw : 0 <= clamp_position (jsonNum raw) <= max_int64.
Proof.
  unfold clamp_position, jsonNum, unmarshal_int.
  assert (Hr : forall n, is_i64 n = true -> n <= max_int64) by (unfold is_i64; intros n Hn; by b2p).
  destruct raw as [[]|]; try (simpl; unfold max_int64; lia). destruct (is_i64 z) eqn:E; [|simpl; unfold max_int64; lia].
  specialize (Hr z E). destruct (Z.ltb_spec z 0); unfold max_int64 in *; lia.
Qed.

Lemma clamp_limit_range n : 0 < clamp_limit n <= maxObjectsInQuery.
Proof.
  unfold clamp_limit, maxObjectsInQuery. destruct (Z.leb_spec n 0); simpl; [lia|].
  destruct (Z.ltb_spec 1000 n); lia.
Qed.

(** The total of Email/query is exact: it is the number of Email groups
    with a row that passes the filter - tested on the columns of folded rows
    and on the parsed messages of the others - and a group with rows of both
    kinds is counted once. *)
Theorem email_query_total `{BlobOps} `{Unicode} `{SqlTextLaws} `{MailParser} `{SortLaws} (a : account)
    (fts : gmap (Z * Z) FTSRow) (args : string -> option json) (blobs : blob_state) (d : DB)
    (ids : list string) (total : Z) (G : gset Z) :
  let filt := parseEmailFilter (args "filter"%string) in
  emailQuery a fts args blobs d = Ok (ids, total) ->
  (length (matching fts (unfolded a filt) d) <= Z.to_nat maxObjectsInQuery)%nat ->
  (forall g, g ∈ G <-> exists k m, db_messages d !! k = Some m /\ passes a fts filt blobs m = true /\ EffectiveEmailID m = g) ->
  total = Z.of_nat (size G).
Proof.
  intros filt. unfold emailQuery. fold filt. destruct (parseEmailSort _) as [p asc]. apply total_exact.
Qed.

(** The page of Email/query is the requested slice: when the groups found
    folded and the groups found live are different groups with different sort
    keys, the ids returned are those from [position] on, at most [limit], of
    the groups sorted by the requested property and direction - although only the first
    rows of the folded ones are fetched and merged. *)
Theorem email_query_page `{BlobOps} `{Unicode} `{SqlTextLaws} `{MailParser} `{SortLaws} (a : account)
    (fts : gmap (Z * Z) FTSRow) (args : string -> option json) (blobs : blob_state) (d : DB)
    (ids : list string) (total : Z) (live full : list qrow) :
  let filt := parseEmailFilter (args "filter"%string) in
  let '(sortProp, sortAsc) := parseEmailSort (args "sort"%string) in
  emailQuery a fts args blobs d = Ok (ids, total) ->
  liveRows a fts filt blobs d = Ok live ->
  (forall m, m ∈ matching fts (build a filt) d -> is_i64 (1000 * m_Received m) = true) ->
  full ≡ₚ (row_of <$> selected fts (build a filt) d) ++ live ->
  StronglySorted (fun x y => less sortProp sortAsc x y = true) full ->
  NoDup (key sortProp <$> full) -> NoDup (gid <$> full) ->
  ids = show_id <$> take (Z.to_nat (clamp_limit (jsonNum (args "limit"%string))))
                      (drop (Z.to_nat (clamp_position (jsonNum (args "position"%string)))) full).
Proof.
  intros filt. unfold emailQuery. fold filt. destruct (parseEmailSort _) as [p asc]. intros Hq El.
  exact (query_page a fts filt p asc _ _ blobs d ids total live full Hq El
           (clamp_position_range _) (clamp_limit_range _)).
Qed.

(** ** Examples *)

(** Insertion sort, and a parser that takes the whole message for the subject. *)
Fixpoint insert_by (less : qrow -> qrow -> bool) (x : qrow) (l : list qrow) : list qrow :=
  match l with
  | [] => [x]
  | y :: l => if less y x then y :: insert_by less x l else x :: y :: l
  end.

#[export] Instance demo_sort : SortPkg := { SliceStable less l := foldr (insert_by less) [] l }.
#[export] Instance demo_parser : MailParser := { EnsurePart s := Some (mkEnvelope s [] []) }.

Lemma insert_by_perm less x l : insert_by less x l ≡ₚ x :: l.
Proof.
  induction l as [|y l IH]; [done|]. simpl. destruct (less y x); [|done]. rewrite IH. apply Permutation_swap.
Qed.

#[export] Instance demo_sort_laws : SortLaws.
Proof.
  assert (Hperm : forall less l, SliceStable less l ≡ₚ l).
  { intros less l. induction l as [|x l IH]; [done|]. simpl. etrans; [apply insert_by_perm|]. by constructor. }
  split; [done|]. intros less l Hnd Htot Htr. induction l as [|x l IH]; [constructor|].
  apply NoDup_cons in Hnd as [Hx Hnd]. simpl.
  assert (Hs : StronglySorted (fun x y => less x y = true) (SliceStable less l)).
  { apply IH; [done|..].
    - intros y z Hy Hz. by apply Htot; right.
    - intros y z w Hy Hz Hw. by apply Htr; right. }
  clear IH. pose proof (Hperm less l) as Hp. change (foldr (insert_by less) [] l) with (SliceStable less l).
  assert (Hin : forall y, y ∈ SliceStable less l -> y ∈ l /\ x <> y).
  { intros y Hy. rewrite Hp in Hy. split; [done|]. by intros ->. }
  clear Hp. induction Hs as [|y k Hs IH Hy]; [repeat constructor|]. simpl.
  destruct (Hin y ltac:(left)) as [Hyl Hxy]. destruct (less y x) eqn:E.
  - constructor; [apply IH; intros z Hz; apply Hin; by right|]. by rewrite insert_by_perm, Forall_cons.
  - assert (Hlt : less x y = true) by (rewrite Htot, E; [done|left|by right|done]).
    constructor; [by constructor|]. apply Forall_cons. split; [done|].
    apply Forall_forall. intros z Hz. destruct (Hin z ltac:(by right)) as [Hzl Hxz].
    apply (proj1 (Forall_forall _ _)) with (x:=z) in Hy; [|done].
    destruct (decide (y = z)) as [<-|Hne]; [done|]. apply (Htr x y z); [left|by right|by right|done..].
Qed.

Definition starred (id mb email received : Z) (folded : bool) : Message :=
  m_set_flags (mkFlags false false true false false false false false false false) [] 1
    (mail id mb email received 100 EmptyString folded).
Definition put_all (l : list Message) (d : DB) : DB :=
  set_messages (foldr (fun m t => <[m_ID m := m]> t) (db_messages d) l) d.

(** Row 5 is not folded yet. *)
Definition jmap_db : DB :=
  put_all [starred 1 1 0 10 true; starred 3 1 0 20 true; starred 5 1 0 15 false] demo_db.

Definition call (filter : list (string * json)) (position limit : Z) (k : string) : option json :=
  if String.eqb k "filter" then Some (JObj filter)
  else if String.eqb k "sort" then Some (JArr [JObj [("property", JStr "receivedAt"); ("isAscending", JBool false)]])
  else if String.eqb k "position" then Some (JNum position)
  else if String.eqb k "limit" then Some (JNum limit) else None.
Definition flagged_call := call [("hasKeyword"%string, JStr "$flagged")].

Definition run_query (d : DB) (position limit : Z) := emailQuery alice no_fts (flagged_call position limit) no_files d.
Definition ids_of (r : result (list string * Z)) : list string := match r with Ok (ids, _) => ids | Err _ => [] end.

Example jmap_pages :
  run_query jmap_db 0 10 = Ok (["E3"; "E5"; "E1"]%string, 3) /\ run_query jmap_db 1 1 = Ok (["E5"%string], 3).
Proof. split; vm_compute; reflexivity. Qed.

(** A copy of message 1, received later and not folded yet: reading the result
    page by page shows E1 twice and never shows E6. *)
Definition copied_db : DB :=
  put_all [starred 1 1 0 10 true; starred 2 2 1 30 false; starred 3 1 0 20 true; starred 6 1 0 18 true; starred 7 1 0 16 true] demo_db.

Example pages_skip_message :
  concat ((fun i => ids_of (run_query copied_db (Z.of_nat i) 1)) <$> seq 0 4) = ["E1"; "E3"; "E7"; "E1"]%string.
Proof. vm_compute. reflexivity. Qed.

Lemma email_query_total_witness : exists ids, run_query jmap_db 0 10 = Ok (ids, Z.of_nat (size ({[1; 3; 5]} : gset Z))).
Proof.
  destruct (run_query jmap_db 0 10) as [[ids total]|e] eqn:E; [|vm_compute in E; discriminate].
  exists ids. do 2 f_equal.
  refine (email_query_total alice no_fts (flagged_call 0 10) no_files jmap_db ids total {[1; 3; 5]} E _ _).
  - vm_compute. lia.
  - intros g. split.
    + rewrite !elem_of_union, !elem_of_singleton.
      intros [[->| ->]| ->]; [exists 1, (starred 1 1 0 10 true)|exists 3, (starred 3 1 0 20 true)|exists 5, (starred 5 1 0 15 false)];
        (split_and!; vm_compute; reflexivity).
    + intros (k & m & Hk & _ & <-). revert Hk. unfold jmap_db, put_all, demo_db. cbn [db_messages set_messages foldr].
      rewrite !lookup_insert_Some, lookup_empty. intros Hk.
      rewrite !elem_of_union, !elem_of_singleton.
      repeat (destruct Hk as [[<- <-]|[_ Hk]]; [vm_compute; tauto|]). done.
Defined.

Lemma email_query_page_witness : ids_of (run_query jmap_db 1 1) = ["E5"%string].
Proof.
  destruct (run_query jmap_db 1 1) as [[ids total]|e] eqn:E; [|vm_compute in E; discriminate].
  refine (email_query_page alice no_fts (flagged_call 1 1) no_files jmap_db ids total [mkRow 5 15000 100]
    [mkRow 3 20000 100; mkRow 5 15000 100; mkRow 1 10000 100] E _ _ _ _ _ _).
  - vm_compute. reflexivity.
  - intros m (_ & k & Hk)%elem_messages_where. revert Hk. unfold jmap_db, put_all, demo_db. cbn [db_messages set_messages foldr].
    rewrite !lookup_insert_Some, lookup_empty. intros Hk.
    repeat (destruct Hk as [[<- <-]|[_ Hk]]; [vm_compute; reflexivity|]). done.
  - assert (row_of <$> selected no_fts (build alice (parseEmailFilter (flagged_call 1 1 "filter"%string))) jmap_db
      = [mkRow 1 10000 100; mkRow 3 20000 100]) as -> by (vm_compute; reflexivity).
    apply (bool_decide_unpack _). vm_compute. exact I.
  - repeat constructor.
  - apply (bool_decide_unpack _). vm_compute. exact I.
  - apply (bool_decide_unpack _). vm_compute. exact I.
Defined.
