(* ===== verification/Reputation.v ===== *)
(** * Sending reputation and rate limits (mailflow/deliverability/deliverability.go, fbl.go)

    Per (tenant, remote domain): lifetime totals with the pause flag the send
    gate reads, daily buckets for the sliding window, and the log of bounce and
    complaint events; per (tenant, window): the count of sends.  Every database
    transaction is one function on [RepDB].  Times are microseconds of the
    database clock; [updated_at] is not modelled, nothing reads it. *)

From S2P Require Import Prelude GoStrings Strconv.

Local Open Scope go_scope.

(** ** Tables *)

Record Score := mkScore {
  sc_sent : Z; sc_complaints : Z; sc_bounces : Z; sc_paused : bool; sc_paused_at : option Z }.
Record Daily := mkDaily { dy_sent : Z; dy_bounces : Z; dy_complaints : Z }.
Record Event := mkEvent {
  ev_tenant : Z; ev_account : option Z; ev_kind : Z; ev_domain : string; ev_msg : option Z }.

Record RepDB := mkRep {
  rp_tenants : gset Z;
  rp_events : list Event;
  rp_score : gmap (Z * string) Score;            (* (tenant_id, remote_domain) *)
  rp_daily : gmap (Z * string * Z) Daily;        (* (tenant_id, remote_domain, day) *)
  rp_rate : gmap (Z * Z) Z }.                    (* (tenant_id, window_start) -> count *)

Definition rp_set_events v st := mkRep (rp_tenants st) v (rp_score st) (rp_daily st) (rp_rate st).
Definition rp_set_score v st := mkRep (rp_tenants st) (rp_events st) v (rp_daily st) (rp_rate st).
Definition rp_set_daily v st := mkRep (rp_tenants st) (rp_events st) (rp_score st) v (rp_rate st).
Definition rp_set_rate v st := mkRep (rp_tenants st) (rp_events st) (rp_score st) (rp_daily st) v.

Definition sc_set_paused v at_ s := mkScore (sc_sent s) (sc_complaints s) (sc_bounces s) v at_.

Definition KindDelivered : Z := 0.
Definition KindBounce : Z := 1.
Definition KindComplaint : Z := 2.
Definition KindDeferral : Z := 3.

(** ** Thresholds *)

Definition MinSample : Z := 20.
Definition ComplaintRateMax : float64 := decimal 1 2.
Definition BounceRateMax : float64 := decimal 10 2.

Definition breaches (sent complaints bounces : Z) : bool :=
  if sent <=? 0 then false
  else flt ComplaintRateMax (fdiv (of_int complaints) (of_int sent))
       || flt BounceRateMax (fdiv (of_int bounces) (of_int sent)).

Definition usecond_day : Z := 86400000000.
Definition day_of (now : Z) : Z := now / usecond_day.

(** [DefaultWindow] and [MinPauseDwell], in microseconds. *)
Definition DefaultWindow : Z := 7 * usecond_day.
Definition MinPauseDwell : Z := usecond_day.

Definition bigint (z : Z) : result Z := if is_i64 z then Ok z else Err ErrOutOfRange.

(** ** Counting *)

(** [SELECT sum(f(key, row)) FROM t]. *)
Definition ksum `{Countable K} {V} (f : K -> V -> Z) (t : gmap K V) : Z :=
  map_fold (fun k v acc => f k v + acc) 0 t.

Inductive counter : Type := CSent | CComplaints | CBounces.

Definition score_get (c : counter) (s : Score) : Z :=
  match c with CSent => sc_sent s | CComplaints => sc_complaints s | CBounces => sc_bounces s end.
Definition score_put (c : counter) (v : Z) (s : Score) : Score :=
  match c with
  | CSent => mkScore v (sc_complaints s) (sc_bounces s) (sc_paused s) (sc_paused_at s)
  | CComplaints => mkScore (sc_sent s) v (sc_bounces s) (sc_paused s) (sc_paused_at s)
  | CBounces => mkScore (sc_sent s) (sc_complaints s) v (sc_paused s) (sc_paused_at s)
  end.
Definition daily_get (c : counter) (r : Daily) : Z :=
  match c with CSent => dy_sent r | CComplaints => dy_complaints r | CBounces => dy_bounces r end.
Definition daily_put (c : counter) (v : Z) (r : Daily) : Daily :=
  match c with
  | CSent => mkDaily v (dy_bounces r) (dy_complaints r)
  | CComplaints => mkDaily (dy_sent r) (dy_bounces r) v
  | CBounces => mkDaily (dy_sent r) v (dy_complaints r)
  end.

Definition no_score : Score := mkScore 0 0 0 false None.
Definition no_daily : Daily := mkDaily 0 0 0.

(** The foreign key to [tenants] and the text of the domain. *)
Definition keys_ok (tenantID : Z) (dom : string) (st : RepDB) : result unit :=
  if negb (text_ok dom) then Err ErrDecode
  else if decide (tenantID ∈ rp_tenants st) then Ok tt else Err ErrForeignKey.

(** [INSERT ... ON CONFLICT (tenant_id, remote_domain) DO UPDATE SET c = c + 1]. *)
Definition bump_score (c : counter) (tenantID : Z) (dom : string) (st : RepDB) : result RepDB :=
  try! _ := keys_ok tenantID dom st in
  let row := default no_score (rp_score st !! (tenantID, dom)) in
  try! v := bigint (score_get c row + 1) in
  Ok (rp_set_score (<[(tenantID, dom) := score_put c v row]> (rp_score st)) st).

Definition bumpDaily (now : Z) (c : counter) (tenantID : Z) (dom : string) (st : RepDB) : result RepDB :=
  try! _ := keys_ok tenantID dom st in
  let k := (tenantID, dom, day_of now) in
  let row := default no_daily (rp_daily st !! k) in
  try! v := bigint (daily_get c row + 1) in
  Ok (rp_set_daily (<[k := daily_put c v row]> (rp_daily st)) st).

(** [windowedCounts]: the buckets of the last days of the window. *)
Definition window_days (window : Z) : Z := Z.max 1 (Z.quot window usecond_day).
Definition in_window (now : Z) (tenantID : Z) (dom : string) (window : Z) (k : Z * string * Z) : bool :=
  (k.1.1 =? tenantID) && String.eqb k.1.2 dom && (day_of now - (window_days window - 1) <=? k.2).
Definition window_sum (now : Z) (tenantID : Z) (dom : string) (window : Z) (c : counter) (st : RepDB) : Z :=
  ksum (fun k r => if in_window now tenantID dom window k then daily_get c r else 0) (rp_daily st).
Definition windowedCounts (now tenantID : Z) (dom : string) (window : Z) (st : RepDB) : result (Z * Z * Z) :=
  if negb (text_ok dom) then Err ErrDecode
  else
    try! sent := bigint (window_sum now tenantID dom window CSent st) in
    try! complaints := bigint (window_sum now tenantID dom window CComplaints st) in
    try! bounces := bigint (window_sum now tenantID dom window CBounces st) in
    Ok (sent, complaints, bounces).

(** ** The send gate *)

Record GateResult := mkGate { g_Allowed : bool; g_Reason : string }.

Definition Gate (tenantID : Z) (dom : string) (st : RepDB) : result GateResult :=
  if negb (text_ok dom) then Err ErrDecode
  else match rp_score st !! (tenantID, dom) with
       | None => Ok (mkGate true "no history")
       | Some s => if sc_paused s then Ok (mkGate false "tenant paused for domain")
                   else Ok (mkGate true EmptyString)
       end.

Definition RecordSent (now tenantID : Z) (dom : string) (st : RepDB) : result RepDB :=
  try! st := bump_score CSent tenantID dom st in
  bumpDaily now CSent tenantID dom st.

(** ** Events *)

Definition nullIf0 (v : Z) : option Z := if v =? 0 then None else Some v.

Definition event_of (tenantID msgID : Z) (e : Event) : bool :=
  (ev_tenant e =? tenantID) && bool_decide (ev_msg e = Some msgID).

(** The counter an event moves. *)
Definition event_col (kind : Z) : option counter :=
  if kind =? KindComplaint then Some CComplaints
  else if kind =? KindBounce then Some CBounces else None.

(** [UPDATE reputation_score SET paused=true, paused_at=now() ... AND NOT paused]. *)
Definition set_paused (now tenantID : Z) (dom : string) (st : RepDB) : RepDB :=
  rp_set_score (alter (fun s => if sc_paused s then s else sc_set_paused true (Some now) s)
                  (tenantID, dom) (rp_score st)) st.

Definition smallint (n : Z) : bool := (- 2 ^ 15 <=? n) && (n <? 2 ^ 15).
Definition insert_event (e : Event) (st : RepDB) : result RepDB :=
  if negb (smallint (ev_kind e)) then Err ErrOutOfRange
  else
    try! _ := keys_ok (ev_tenant e) (ev_domain e) st in
    Ok (rp_set_events (rp_events st ++ [e]) st).

Definition judge (now tenantID : Z) (dom : string) (st : RepDB) : result RepDB :=
  try! c := windowedCounts now tenantID dom DefaultWindow st in
  let '(sent, complaints, bounces) := c in
  Ok (if (MinSample <=? sent) && breaches sent complaints bounces then set_paused now tenantID dom st else st).

Definition count_event (now tenantID kind : Z) (dom : string) (st : RepDB) : result RepDB :=
  match event_col kind with
  | None => Ok st
  | Some c =>
      try! st := bump_score c tenantID dom st in
      try! st := bumpDaily now c tenantID dom st in
      judge now tenantID dom st
  end.

(** With a message id the unique index (tenant_id, msg_id) makes a repeated
    report insert nothing, and the transaction stops there. *)
Definition RecordEvent (now tenantID accountID kind : Z) (dom : string) (msgID : Z) (st : RepDB) : result RepDB :=
  let e := mkEvent tenantID (nullIf0 accountID) kind dom (if 0 <? msgID then Some msgID else None) in
  if (0 <? msgID) && text_ok dom && smallint kind && existsb (event_of tenantID msgID) (rp_events st)
  then Ok st
  else
    try! st := insert_event e st in
    count_event now tenantID kind dom st.

(** ** Recovery *)

Definition dwelt (now : Z) (s : Score) : bool :=
  sc_paused s && match sc_paused_at s with None => true | Some t => t <=? now - MinPauseDwell end.

Definition clear_paused (k : Z * string) (st : RepDB) : RepDB :=
  rp_set_score (alter (fun s => sc_set_paused false None s) k (rp_score st)) st.

(** One round of the sweep: how many more are unpaused, or the error that ends it. *)
Fixpoint unpause_loop (now : Z) (keys : list (Z * string)) (unpaused : Z) (st : RepDB)
  : (Z * option err) * RepDB :=
  match keys with
  | [] => ((unpaused, None), st)
  | k :: keys =>
      match windowedCounts now k.1 k.2 DefaultWindow st with
      | Err e => ((unpaused, Some e), st)
      | Ok (sent, complaints, bounces) =>
          let recovered := (sent <? MinSample) || negb (breaches sent complaints bounces) in
          if recovered && (match rp_score st !! k with Some s => sc_paused s | None => false end)
          then unpause_loop now keys (unpaused + 1) (clear_paused k st)
          else unpause_loop now keys unpaused st
      end
  end.

Definition UnpauseRecovered (now : Z) (st : RepDB) : (Z * option err) * RepDB :=
  let keys := fst <$> filter (fun kr : (Z * string) * Score => dwelt now kr.2 = true) (map_to_list (rp_score st)) in
  unpause_loop now keys 0 st.

Definition Unpause (tenantID : Z) (dom : string) (st : RepDB) : result RepDB :=
  if negb (text_ok dom) then Err ErrDecode else Ok (clear_paused (tenantID, dom) st).

(** ** The rate limiter *)

(** [RateWindow] is a whole number of microseconds. *)
Record Service := mkService { s_MaxPerWindow : Z; s_RateWindow : Z }.
Definition DefaultRateWindow : Z := 60000000.
Definition rate_window (s : Service) : Z := if s_RateWindow s <=? 0 then DefaultRateWindow else s_RateWindow s.
Definition window_start (w now : Z) : Z := now / w * w.

Definition AllowSend (s : Service) (now tenantID : Z) (st : RepDB) : result bool * RepDB :=
  if s_MaxPerWindow s <=? 0 then (Ok true, st)
  else if decide (tenantID ∈ rp_tenants st) then
    let k := (tenantID, window_start (rate_window s) now) in
    match bigint (default 0 (rp_rate st !! k) + 1) with
    | Err e => (Err e, st)
    | Ok count => (Ok (count <=? s_MaxPerWindow s), rp_set_rate (<[k := count]> (rp_rate st)) st)
    end
  else (Err ErrForeignKey, st).

Definition PruneSendRate (s : Service) (now : Z) (st : RepDB) : Z * RepDB :=
  if (s_RateWindow s <=? 0) && (s_MaxPerWindow s <=? 0) then (0, st)
  else
    let w := rate_window s in
    let keep := filter (fun kr : (Z * Z) * Z => window_start w now - w <= kr.1.2) (rp_rate st) in
    (Z.of_nat (size (rp_rate st)) - Z.of_nat (size keep), rp_set_rate keep st).

(** ** What happens to the tables *)

Inductive rep_op : Type :=
| OpSent (tenantID : Z) (dom : string)
| OpEvent (tenantID accountID kind : Z) (dom : string) (msgID : Z)
| OpSweep
| OpUnpause (tenantID : Z) (dom : string)
| OpAllow (tenantID : Z)
| OpPrune.

(** A failed transaction leaves the tables as they were. *)
Definition or_same (r : result RepDB) (st : RepDB) : RepDB := match r with Ok st' => st' | Err _ => st end.
Definition apply_op (s : Service) (now : Z) (o : rep_op) (st : RepDB) : RepDB :=
  match o with
  | OpSent t dom => or_same (RecordSent now t dom st) st
  | OpEvent t acc kind dom msg => or_same (RecordEvent now t acc kind dom msg st) st
  | OpSweep => (UnpauseRecovered now st).2
  | OpUnpause t dom => or_same (Unpause t dom st) st
  | OpAllow t => (AllowSend s now t st).2
  | OpPrune => (PruneSendRate s now st).2
  end.
Definition run (s : Service) (l : list (Z * rep_op)) (st : RepDB) : RepDB :=
  foldl (fun st o => apply_op s o.1 o.2 st) st l.
