(* ===== verification/ReputationSpec.v ===== *)
(** * Reputation: isolation, pausing, and the rate limit

    What one tenant sends or is accused of never restricts another; a report
    counts once; lifetime totals and daily buckets agree; a pause follows from
    the window and lasts; a window admits no more sends than its cap. *)

From S2P Require Import Prelude Lists GoStrings Strconv Reputation.

Local Open Scope go_scope.

(** ** Sums *)

Lemma ksum_empty `{Countable K} {V} (f : K -> V -> Z) : ksum f ∅ = 0.
Proof. apply map_fold_empty. Qed.

Lemma ksum_insert `{Countable K} {V} (f : K -> V -> Z) t k v :
  t !! k = None -> ksum f (<[k:=v]> t) = f k v + ksum f t.
Proof. intros Hk. unfold ksum. rewrite map_fold_insert_L; [done| |done]. intros. lia. Qed.

Lemma ksum_update `{Countable K} {V} (f : K -> V -> Z) t k v :
  ksum f (<[k:=v]> t) = ksum f t - default 0 (f k <$> t !! k) + f k v.
Proof.
  destruct (t !! k) as [w|] eqn:E; simpl; [|rewrite ksum_insert by done; lia].
  rewrite <- insert_delete_eq, ksum_insert by apply lookup_delete_eq.
  pose proof (ksum_insert f (delete k t) k w (lookup_delete_eq _ _)) as Hw.
  rewrite insert_delete_id in Hw by done. lia.
Qed.

(** ** What each operation changes *)

(** The rows of other tenants, and how a row may change. *)
Record keeps (B : Z) (st st' : RepDB) : Prop := {
  kp_score dom : match rp_score st !! (B, dom), rp_score st' !! (B, dom) with
    | Some s, Some s' => (forall c, score_get c s' = score_get c s) /\ (sc_paused s' = true -> s' = s)
    | None, None => True
    | _, _ => False
    end;
  kp_daily dom day : rp_daily st' !! (B, dom, day) = rp_daily st !! (B, dom, day);
  kp_events : filter (fun e => ev_tenant e = B) (rp_events st') = filter (fun e => ev_tenant e = B) (rp_events st);
  kp_tenants : rp_tenants st' = rp_tenants st }.

Lemma keeps_refl B st : keeps B st st.
Proof. split; try done. intros dom. by destruct (rp_score st !! (B, dom)). Qed.

Lemma keeps_trans B st1 st2 st3 : keeps B st1 st2 -> keeps B st2 st3 -> keeps B st1 st3.
Proof.
  intros [S1 D1 E1 T1] [S2 D2 E2 T2]. split; [|congruence..].
  intros dom. specialize (S1 dom). specialize (S2 dom).
  destruct (rp_score st1 !! (B, dom)), (rp_score st2 !! (B, dom)), (rp_score st3 !! (B, dom)); try done.
  destruct S1 as [C1 P1], S2 as [C2 P2]. split; [intros c; by rewrite C2|].
  intros Hp. rewrite (P2 Hp). apply P1. by rewrite <- (P2 Hp).
Qed.

Lemma keeps_score B st f : (forall dom, f !! (B, dom) = rp_score st !! (B, dom)) -> keeps B st (rp_set_score f st).
Proof. intros Hf. split; try done. intros dom. simpl. rewrite Hf. by destruct (rp_score st !! (B, dom)). Qed.

Lemma bump_score_keeps B c t dom st st' : bump_score c t dom st = Ok st' -> t <> B -> keeps B st st'.
Proof.
  unfold bump_score. destruct (keys_ok t dom st); [|done]. simpl. destruct (bigint _); [|done].
  intros [= <-] Hne. apply keeps_score. intros dom'. rewrite lookup_insert_ne; [done|congruence].
Qed.

Lemma bumpDaily_keeps B now c t dom st st' : bumpDaily now c t dom st = Ok st' -> t <> B -> keeps B st st'.
Proof.
  unfold bumpDaily. destruct (keys_ok t dom st); [|done]. simpl. destruct (bigint _); [|done].
  intros [= <-] Hne. split; try done.
  - intros dom'. simpl. by destruct (rp_score st !! (B, dom')).
  - intros dom' day. simpl. rewrite lookup_insert_ne; [done|congruence].
Qed.

Lemma judge_keeps B now t dom st st' : judge now t dom st = Ok st' -> t <> B -> keeps B st st'.
Proof.
  unfold judge. destruct (windowedCounts _ _ _ _ _) as [[[n1 n2] n3]|]; [|done]. simpl. intros [= <-] Hne.
  destruct (_ && _); [|apply keeps_refl]. apply keeps_score. intros dom'. rewrite lookup_alter_ne; [done|congruence].
Qed.

Lemma count_event_keeps B now t kind dom st st' : count_event now t kind dom st = Ok st' -> t <> B -> keeps B st st'.
Proof.
  unfold count_event. destruct (event_col kind) as [c|]; [|intros [= <-] _; apply keeps_refl].
  intros Hc Hne. destruct (bump_score _ _ _ _) as [st1|] eqn:E1; [|done]. simpl in Hc.
  destruct (bumpDaily _ _ _ _ _) as [st2|] eqn:E2; [|done]. simpl in Hc.
  eapply keeps_trans; [by eapply bump_score_keeps|]. eapply keeps_trans; [by eapply bumpDaily_keeps|].
  by eapply judge_keeps.
Qed.

Lemma insert_event_shape e st st' : insert_event e st = Ok st' -> st' = rp_set_events (rp_events st ++ [e]) st.
Proof. unfold insert_event. destruct (negb _); [done|]. destruct (keys_ok _ _ _); [|done]. by intros [= <-]. Qed.

Lemma RecordEvent_keeps B now t acc kind dom m st st' :
  RecordEvent now t acc kind dom m st = Ok st' -> t <> B -> keeps B st st'.
Proof.
  unfold RecordEvent. destruct (_ && _); [intros [= <-] _; apply keeps_refl|].
  destruct (insert_event _ st) as [st1|] eqn:E; [|done]. simpl. intros Hc Hne.
  eapply keeps_trans; [|by eapply count_event_keeps]. apply insert_event_shape in E as ->. split; try done.
  - intros dom'. simpl. by destruct (rp_score st !! (B, dom')).
  - simpl. rewrite filter_app, filter_cons_False by done. by rewrite app_nil_r.
Qed.

Lemma clear_keeps B k st : keeps B st (clear_paused k st).
Proof.
  split; try done. intros dom. simpl. destruct (decide (k = (B, dom))) as [->|Hne].
  - rewrite lookup_alter_eq. destruct (rp_score st !! (B, dom)); simpl; [|done]. split; [by intros []|done].
  - rewrite lookup_alter_ne by done. by destruct (rp_score st !! (B, dom)).
Qed.

Lemma unpause_loop_keeps B now keys n st : keeps B st (unpause_loop now keys n st).2.
Proof.
  revert n st. induction keys as [|k keys IH]; intros n st; simpl; [apply keeps_refl|].
  destruct (windowedCounts _ _ _ _ _) as [[[n1 n2] n3]|]; [|apply keeps_refl].
  destruct (_ && _); [|apply IH]. eapply keeps_trans; [apply clear_keeps|apply IH].
Qed.

Definition op_tenant (o : rep_op) : option Z :=
  match o with
  | OpSent t _ | OpEvent t _ _ _ _ | OpUnpause t _ | OpAllow t => Some t
  | OpSweep | OpPrune => None
  end.

Lemma apply_keeps s now o st B : op_tenant o <> Some B -> keeps B st (apply_op s now o st).
Proof.
  intros Ho. destruct o as [t dom|t acc kind dom m| |t dom|t|]; simpl in *.
  - unfold RecordSent, or_same. destruct (bump_score _ _ _ _) as [st1|] eqn:E1; [|apply keeps_refl]. simpl.
    destruct (bumpDaily _ _ _ _ _) as [st2|] eqn:E2; [|apply keeps_refl].
    eapply keeps_trans; [eapply bump_score_keeps|eapply bumpDaily_keeps]; eauto; congruence.
  - unfold or_same. destruct (RecordEvent _ _ _ _ _ _ _) as [st'|] eqn:E; [|apply keeps_refl].
    eapply RecordEvent_keeps; [done|congruence].
  - apply unpause_loop_keeps.
  - unfold Unpause, or_same. destruct (negb _); [apply keeps_refl|apply clear_keeps].
  - unfold AllowSend. destruct (_ <=? 0); [apply keeps_refl|]. case_decide; [|apply keeps_refl].
    destruct (bigint _); [|apply keeps_refl]. split; try done. intros dom. simpl. by destruct (rp_score st !! (B, dom)).
  - unfold PruneSendRate. destruct (_ && _); [apply keeps_refl|]. split; try done. intros dom. simpl.
    by destruct (rp_score st !! (B, dom)).
Qed.

Lemma run_keeps s l st B : Forall (fun o => op_tenant o.2 <> Some B) l -> keeps B st (run s l st).
Proof.
  revert st. induction l as [|[now o] l IH]; intros st Hl; [apply keeps_refl|]. apply Forall_cons in Hl as [Ho Hl].
  eapply keeps_trans; [by apply apply_keeps|by apply IH].
Qed.

(** [C24] A spammy tenant never poisons another: whatever the other tenants send,
    whatever is reported about them, and whatever sweeps and prunings run in
    between, a tenant that may send to a domain still may, and its counters, its daily
    buckets and its events are what they were. *)
Theorem no_poisoning (s : Service) (l : list (Z * rep_op)) (st : RepDB) (B : Z) (dom : string) (g : GateResult) :
  Forall (fun o => op_tenant o.2 <> Some B) l ->
  Gate B dom st = Ok g -> g_Allowed g = true ->
  (exists g', Gate B dom (run s l st) = Ok g' /\ g_Allowed g' = true) /\ keeps B st (run s l st).
Proof.
  intros Hl Hg Ha. pose proof (run_keeps s l st B Hl) as HK. split; [|done]. destruct HK as [HS _ _ _].
  specialize (HS dom). revert Hg. unfold Gate. destruct (negb (text_ok dom)); [done|].
  destruct (rp_score st !! (B, dom)) as [s1|], (rp_score (run s l st) !! (B, dom)) as [s2|]; try done.
  - destruct HS as [_ Hp]. destruct (sc_paused s2) eqn:E2; [|intros _; by eexists].
    rewrite (Hp eq_refl) in E2. rewrite E2. intros [= <-]. done.
  - intros _. by eexists.
Qed.

(** ** A report counts once *)

Lemma count_event_events now t kind dom st st' : count_event now t kind dom st = Ok st' -> rp_events st' = rp_events st.
Proof.
  unfold count_event, bump_score, bumpDaily, judge. destruct (event_col kind) as [c|]; [|by intros [= <-]].
  destruct (keys_ok t dom st) as [[]|]; [|done]. simpl. destruct (bigint _); [|done]. simpl.
  destruct (keys_ok t dom _) as [[]|]; [|done]. simpl. destruct (bigint _); [|done]. simpl.
  destruct (windowedCounts _ _ _ _ _) as [[[n1 n2] n3]|]; [|done]. simpl. intros [= <-].
  by destruct (_ && _).
Qed.

Lemma RecordEvent_events now t acc kind dom m st st' : RecordEvent now t acc kind dom m st = Ok st' ->
  exists l, rp_events st' = rp_events st ++ l.
Proof.
  unfold RecordEvent. destruct (_ && _); [intros [= <-]; exists []; by rewrite app_nil_r|].
  destruct (insert_event _ st) as [st1|] eqn:E; [|done]. simpl. intros Hc%count_event_events.
  apply insert_event_shape in E as ->. rewrite Hc. by eexists.
Qed.

Lemma unpause_loop_events now keys n st : rp_events (unpause_loop now keys n st).2 = rp_events st.
Proof.
  revert n st. induction keys as [|k keys IH]; intros n st; simpl; [done|].
  destruct (windowedCounts _ _ _ _ _) as [[[n1 n2] n3]|]; [|done]. destruct (_ && _); by rewrite IH.
Qed.

Lemma apply_events s now o st : exists l, rp_events (apply_op s now o st) = rp_events st ++ l.
Proof.
  assert (Hnil : forall st', rp_events st' = rp_events st -> exists l, rp_events st' = rp_events st ++ l).
  { intros st' ->. exists []. by rewrite app_nil_r. }
  destruct o as [t dom|t acc kind dom m| |t dom|t|]; simpl.
  - apply Hnil. unfold RecordSent, bump_score, bumpDaily, or_same, rbind. by repeat (case_match; simplify_eq/=).
  - unfold or_same. destruct (RecordEvent _ _ _ _ _ _ _) as [st'|] eqn:E; [by eapply RecordEvent_events|by apply Hnil].
  - apply Hnil, unpause_loop_events.
  - apply Hnil. unfold Unpause, or_same. by destruct (negb _).
  - apply Hnil. unfold AllowSend. repeat case_match; done.
  - apply Hnil. unfold PruneSendRate. by destruct (_ && _).
Qed.

Lemma run_events s l st : exists k, rp_events (run s l st) = rp_events st ++ k.
Proof.
  revert st. induction l as [|[now o] l IH]; intros st; [exists []; by rewrite app_nil_r|].
  destruct (apply_events s now o st) as [k1 H1]. destruct (IH (apply_op s now o st)) as [k2 H2].
  exists (k1 ++ k2). simpl. by rewrite H2, H1, app_assoc.
Qed.

Lemma recorded now t acc kind dom m st st' : 0 < m -> RecordEvent now t acc kind dom m st = Ok st' ->
  existsb (event_of t m) (rp_events st') = true.
Proof.
  intros Hm. unfold RecordEvent. destruct (Z.ltb_spec 0 m); [|lia].
  destruct (_ && _) eqn:E; [by intros [= <-]; b2p|].
  destruct (insert_event _ st) as [st1|] eqn:Ei; [|done]. simpl. intros Hc%count_event_events.
  apply insert_event_shape in Ei as ->. rewrite Hc. simpl. rewrite existsb_app. simpl. unfold event_of at 2. simpl.
  by rewrite Z.eqb_refl, bool_decide_eq_true_2, orb_true_r by done.
Qed.

(** A report counts once: after a report about a message was recorded, any
    later report about that message - at any time, of any kind and domain, and
    after any other operations - changes nothing at all, so replaying a captured
    return path cannot drive its owner to a pause. *)
Theorem replay_is_noop (s : Service) (l : list (Z * rep_op)) (st st1 : RepDB) (now t acc kind m : Z) (dom : string)
    (now' acc' kind' : Z) (dom' : string) :
  0 < m -> RecordEvent now t acc kind dom m st = Ok st1 ->
  text_ok dom' = true -> smallint kind' = true ->
  RecordEvent now' t acc' kind' dom' m (run s l st1) = Ok (run s l st1).
Proof.
  intros Hm Hr Hd Hk. pose proof (recorded _ _ _ _ _ _ _ _ Hm Hr) as He.
  destruct (run_events s l st1) as [k Hl]. unfold RecordEvent. rewrite Hd, Hk, Hl, existsb_app, He.
  by destruct (Z.ltb_spec 0 m); [|lia].
Qed.

(** ** Totals and pauses *)

(** The lifetime total of a counter and the sum of its daily buckets. *)
Definition lifetime (st : RepDB) (t : Z) (dom : string) (c : counter) : Z :=
  default 0 (score_get c <$> rp_score st !! (t, dom)).
Definition bucket_sum (st : RepDB) (t : Z) (dom : string) (c : counter) : Z :=
  ksum (fun k r => if (k.1.1 =? t) && String.eqb k.1.2 dom then daily_get c r else 0) (rp_daily st).

Record rep_wf (st : RepDB) : Prop := {
  rw_totals t dom c : lifetime st t dom c = bucket_sum st t dom c;
  rw_paused k s : rp_score st !! k = Some s -> sc_paused s = true <-> is_Some (sc_paused_at s) }.

#[export] Instance counter_eq_dec : EqDecision counter.
Proof. solve_decision. Defined.

Lemma score_get_put c c' v s : score_get c' (score_put c v s) = if decide (c' = c) then v else score_get c' s.
Proof. by destruct c, c'. Qed.
Lemma daily_get_put c c' v r : daily_get c' (daily_put c v r) = if decide (c' = c) then v else daily_get c' r.
Proof. by destruct c, c'. Qed.

Lemma bigint_inv z v : Reputation.bigint z = Ok v -> v = z.
Proof. unfold Reputation.bigint. destruct (is_i64 z); [|done]. by intros [= <-]. Qed.

(** Counting once in the totals and once in the bucket of the day. *)
Lemma bump_both now c t dom st st1 st2 :
  bump_score c t dom st = Ok st1 -> bumpDaily now c t dom st1 = Ok st2 -> rep_wf st -> rep_wf st2.
Proof.
  unfold bump_score, bumpDaily. destruct (keys_ok t dom st); [|done]. simpl.
  destruct (Reputation.bigint _) as [v1|] eqn:E1; [|done]. simpl. intros [= <-].
  destruct (keys_ok _ _ _); [|done]. simpl.
  destruct (Reputation.bigint (daily_get _ _ + 1)) as [v2|] eqn:E2; [|done]. simpl. intros [= <-].
  apply bigint_inv in E1, E2. intros [HT HP]. split.
  - intros t' dom' c'. specialize (HT t' dom' c'). unfold lifetime, bucket_sum in *. simpl.
    rewrite ksum_update. simpl. destruct (decide ((t, dom) = (t', dom'))) as [[= <- <-]|Hne].
    + rewrite lookup_insert_eq, Z.eqb_refl, String.eqb_refl. simpl. rewrite score_get_put, daily_get_put.
      rewrite E1, E2. destruct (decide (c' = c)) as [->|Hc].
      * destruct (rp_score st !! (t, dom)), (rp_daily st !! (t, dom, day_of now)); simpl in *; destruct c; simpl in *; lia.
      * destruct (rp_score st !! (t, dom)), (rp_daily st !! (t, dom, day_of now)); simpl in *; destruct c'; simpl in *; lia.
    + rewrite lookup_insert_ne by done.
      assert ((t =? t') && String.eqb dom dom' = false) as ->.
      { destruct (Z.eqb_spec t t'), (String.eqb_spec dom dom'); simpl; congruence. }
      destruct (rp_daily st !! (t, dom, day_of now)); simpl; lia.
  - intros k s. simpl. rewrite lookup_insert_Some. intros [[<- <-]|[_ Hk]]; [|by apply (HP k)].
    destruct (rp_score st !! (t, dom)) as [s0|] eqn:Es; simpl; [specialize (HP _ _ Es); by destruct c|].
    destruct c; simpl; (split; [done|by intros [? ?]]).
Qed.

Lemma set_score_wf f st : rep_wf st ->
  (forall k, match rp_score st !! k, f !! k with
             | Some s, Some s' => (forall c, score_get c s' = score_get c s) /\ (sc_paused s' = true <-> is_Some (sc_paused_at s'))
             | None, None => True | _, _ => False end) -> rep_wf (rp_set_score f st).
Proof.
  intros [HT HP] Hf. split.
  - intros t dom c. change (bucket_sum (rp_set_score f st) t dom c) with (bucket_sum st t dom c).
    rewrite <- (HT t dom c). unfold lifetime. simpl. specialize (Hf (t, dom)).
    destruct (rp_score st !! (t, dom)), (f !! (t, dom)); simpl; try done. apply Hf.
  - intros k s. simpl. specialize (Hf k). intros Hk. rewrite Hk in Hf. destruct (rp_score st !! k); [|done]. apply Hf.
Qed.

Lemma alter_score_wf g k st : rep_wf st ->
  (forall s, rp_score st !! k = Some s ->
     (forall c, score_get c (g s) = score_get c s) /\ (sc_paused (g s) = true <-> is_Some (sc_paused_at (g s)))) ->
  rep_wf (rp_set_score (alter g k (rp_score st)) st).
Proof.
  intros Hwf Hg. apply set_score_wf; [done|]. intros k'. destruct (decide (k = k')) as [->|Hne].
  - rewrite lookup_alter_eq. destruct (rp_score st !! k') eqn:E; simpl; [by apply Hg|done].
  - rewrite lookup_alter_ne by done. destruct (rp_score st !! k') eqn:E; [|done]. split; [done|]. by apply Hwf with k'.
Qed.

Lemma set_paused_wf now t dom st : rep_wf st -> rep_wf (set_paused now t dom st).
Proof.
  intros Hwf. apply alter_score_wf; [done|]. intros s Hs. destruct (sc_paused s) eqn:E.
  - split; [done|]. by apply Hwf with (t, dom).
  - split; [by intros []|done].
Qed.

Lemma clear_paused_wf k st : rep_wf st -> rep_wf (clear_paused k st).
Proof.
  intros Hwf. apply alter_score_wf; [done|]. intros s Hs. split; [by intros []|]. split; [done|by intros [? ?]].
Qed.

Lemma unpause_loop_wf now keys n st : rep_wf st -> rep_wf (unpause_loop now keys n st).2.
Proof.
  revert n st. induction keys as [|k keys IH]; intros n st Hwf; simpl; [done|].
  destruct (windowedCounts _ _ _ _ _) as [[[n1 n2] n3]|]; [|done].
  destruct (_ && _); apply IH; [by apply clear_paused_wf|done].
Qed.

Lemma same_tables_wf st st' : rp_score st' = rp_score st -> rp_daily st' = rp_daily st -> rep_wf st -> rep_wf st'.
Proof. intros Hs Hd [HT HP]. split; unfold lifetime, bucket_sum in *; by rewrite ?Hs, ?Hd. Qed.

Lemma count_event_wf now t kind dom st st' : count_event now t kind dom st = Ok st' -> rep_wf st -> rep_wf st'.
Proof.
  unfold count_event. destruct (event_col kind) as [c|]; [|by intros [= <-]]. intros Hc Hwf.
  destruct (bump_score _ _ _ _) as [st1|] eqn:E1; [|done]. simpl in Hc.
  destruct (bumpDaily _ _ _ _ _) as [st2|] eqn:E2; [|done]. simpl in Hc.
  pose proof (bump_both _ _ _ _ _ _ _ E1 E2 Hwf) as Hwf2. revert Hc. unfold judge.
  destruct (windowedCounts _ _ _ _ _) as [[[n1 n2] n3]|]; [|done]. simpl. intros [= <-].
  destruct (_ && _); [by apply set_paused_wf|done].
Qed.

Lemma apply_wf s now o st : rep_wf st -> rep_wf (apply_op s now o st).
Proof.
  intros Hwf. destruct o as [t dom|t acc kind dom m| |t dom|t|]; simpl.
  - unfold RecordSent, or_same. destruct (bump_score _ _ _ _) as [st1|] eqn:E1; [|done]. simpl.
    destruct (bumpDaily _ _ _ _ _) as [st2|] eqn:E2; [|done]. by eapply bump_both.
  - unfold RecordEvent, or_same. destruct (_ && _); [done|].
    destruct (insert_event _ st) as [st1|] eqn:E; [|done]. simpl.
    destruct (count_event _ _ _ _ _) as [st2|] eqn:E2; [|done]. eapply count_event_wf; [done|].
    apply insert_event_shape in E as ->. by apply (same_tables_wf st).
  - by apply unpause_loop_wf.
  - unfold Unpause, or_same. destruct (negb _); [done|]. by apply clear_paused_wf.
  - unfold AllowSend. repeat case_match; try done; by apply (same_tables_wf st).
  - unfold PruneSendRate. destruct (_ && _); [done|]. by apply (same_tables_wf st).
Qed.

(** The two accounts of a domain agree: in every state the operations
    reach from empty tables, the lifetime total of each counter is the sum of
    its daily buckets, and a row is paused exactly when it says since when. *)
Theorem reputation_consistent (s : Service) (tenants : gset Z) (l : list (Z * rep_op)) :
  rep_wf (run s l (mkRep tenants [] ∅ ∅ ∅)).
Proof.
  assert (H0 : rep_wf (mkRep tenants [] ∅ ∅ ∅)) by (by split; [intros t dom c; unfold lifetime, bucket_sum; simpl; by rewrite ksum_empty|]).
  revert H0. generalize (mkRep tenants [] ∅ ∅ ∅). induction l as [|[now o] l IH]; intros st Hwf; [done|].
  apply IH. by apply apply_wf.
Qed.

Lemma bump_daily_score now c t dom st st' : bumpDaily now c t dom st = Ok st' -> rp_score st' = rp_score st.
Proof.
  unfold bumpDaily. destruct (keys_ok _ _ _); [|done]. simpl. destruct (Reputation.bigint _); [|done]. by intros [= <-].
Qed.

Lemma bump_score_row c t dom st st' : bump_score c t dom st = Ok st' ->
  exists v, rp_score st' = <[(t, dom) := score_put c v (default no_score (rp_score st !! (t, dom)))]> (rp_score st).
Proof.
  unfold bump_score. destruct (keys_ok _ _ _); [|done]. simpl. destruct (Reputation.bigint _) as [v|]; [|done].
  intros [= <-]. by exists v.
Qed.

Lemma score_put_paused c v s : sc_paused (score_put c v s) = sc_paused s /\ sc_paused_at (score_put c v s) = sc_paused_at s.
Proof. by destruct c. Qed.

(** The pause follows from the window: a bounce or complaint that is not a
    repeat leaves the domain paused exactly when it was paused before, or the last seven
    daily buckets, the event included, hold at least [MinSample] sends and a rate above
    a threshold. *)
Theorem pause_decision (now t acc kind m : Z) (dom : string) (st st' : RepDB) (c : counter) :
  RecordEvent now t acc kind dom m st = Ok st' -> event_col kind = Some c ->
  (0 < m -> existsb (event_of t m) (rp_events st) = false) ->
  exists s', rp_score st' !! (t, dom) = Some s' /\
    (sc_paused s' = true <->
       sc_paused (default no_score (rp_score st !! (t, dom))) = true \/
       (MinSample <= window_sum now t dom DefaultWindow CSent st' /\
        breaches (window_sum now t dom DefaultWindow CSent st') (window_sum now t dom DefaultWindow CComplaints st')
                 (window_sum now t dom DefaultWindow CBounces st') = true)).
Proof.
  unfold RecordEvent. intros Hr Hc Hnew.
  assert ((0 <? m) && text_ok dom && smallint kind && existsb (event_of t m) (rp_events st) = false) as E.
  { destruct (Z.ltb_spec 0 m); [|done]. by rewrite Hnew, andb_false_r by done. }
  rewrite E in Hr. destruct (insert_event _ st) as [st1|] eqn:E1; [|done]. simpl in Hr.
  apply insert_event_shape in E1. unfold count_event in Hr. rewrite Hc in Hr.
  destruct (bump_score c t dom st1) as [st2|] eqn:E2; [|done]. simpl in Hr.
  destruct (bumpDaily now c t dom st2) as [st3|] eqn:E3; [|done]. simpl in Hr.
  apply bump_daily_score in E3. apply bump_score_row in E2 as [v E2]. rewrite E2 in E3. subst st1. simpl in E3.
  set (row := default no_score (rp_score st !! (t, dom))) in *.
  destruct (score_put_paused c v row) as [Hp _].
  unfold judge, windowedCounts in Hr. destruct (negb (text_ok dom)); [done|]. unfold rbind in Hr.
  destruct (Reputation.bigint (window_sum now t dom DefaultWindow CSent st3)) as [n1|] eqn:W1; [|done].
  destruct (Reputation.bigint (window_sum now t dom DefaultWindow CComplaints st3)) as [n2|] eqn:W2; [|done].
  destruct (Reputation.bigint (window_sum now t dom DefaultWindow CBounces st3)) as [n3|] eqn:W3; [|done].
  apply bigint_inv in W1, W2, W3. subst n1 n2 n3.
  destruct ((MinSample <=? _) && _) eqn:Ej; injection Hr as <-.
  - apply andb_prop in Ej as [Ej1 Ej2]. unfold set_paused. simpl. rewrite E3, lookup_alter_eq, lookup_insert_eq. simpl.
    eexists. split; [done|]. split; [|by intros _; destruct (sc_paused (score_put c v row)) eqn:Ep].
    intros _. right. by apply Z.leb_le in Ej1.
  - rewrite E3, lookup_insert_eq. eexists. split; [done|]. rewrite Hp. split; [by left|].
    intros [?|[H1 H2]]; [done|]. apply Z.leb_le in H1. by rewrite H1, H2 in Ej.
Qed.

(** ** A pause lasts *)

Definition paused_since (t : Z) (dom : string) (p : Z) (st : RepDB) : Prop :=
  exists s, rp_score st !! (t, dom) = Some s /\ sc_paused s = true /\ sc_paused_at s = Some p.

Lemma unpause_loop_other now keys n st k : k ∉ keys -> rp_score (unpause_loop now keys n st).2 !! k = rp_score st !! k.
Proof.
  revert n st. induction keys as [|k' keys IH]; intros n st; simpl; [done|]. intros [Hne Hk]%not_elem_of_cons.
  destruct (windowedCounts _ _ _ _ _) as [[[n1 n2] n3]|]; [|done]. destruct (_ && _); rewrite IH by done; [|done].
  simpl. by rewrite lookup_alter_ne.
Qed.

Lemma bump_paused c t' dom' t dom p st st' : bump_score c t' dom' st = Ok st' -> paused_since t dom p st -> paused_since t dom p st'.
Proof.
  intros [v Hv]%bump_score_row (s & Hs & Hp & Ha). unfold paused_since. rewrite Hv.
  destruct (decide ((t', dom') = (t, dom))) as [[= -> ->]|Hne].
  - rewrite lookup_insert_eq, Hs. simpl. eexists. split; [done|]. by destruct (score_put_paused c v s) as [-> ->].
  - rewrite lookup_insert_ne by done. by exists s.
Qed.

Lemma count_event_paused now t' kind dom' t dom p st st' :
  count_event now t' kind dom' st = Ok st' -> paused_since t dom p st -> paused_since t dom p st'.
Proof.
  unfold count_event. destruct (event_col kind) as [c|]; [|by intros [= <-]]. intros Hc Hp.
  destruct (bump_score _ _ _ _) as [st1|] eqn:E1; [|done]. simpl in Hc.
  destruct (bumpDaily _ _ _ _ _) as [st2|] eqn:E2; [|done]. simpl in Hc.
  apply (bump_paused _ _ _ _ _ _ _ _ E1) in Hp. unfold paused_since in Hp.
  rewrite <- (bump_daily_score _ _ _ _ _ _ E2) in Hp. revert Hc. unfold judge.
  destruct (windowedCounts _ _ _ _ _) as [[[n1 n2] n3]|]; [|done]. simpl. intros [= <-].
  destruct (_ && _); [|done]. destruct Hp as (s & Hs & Hp & Ha). unfold paused_since, set_paused. simpl.
  destruct (decide ((t', dom') = (t, dom))) as [[= -> ->]|Hne].
  - rewrite lookup_alter_eq, Hs. simpl. rewrite Hp. by exists s.
  - rewrite lookup_alter_ne by done. by exists s.
Qed.

Lemma apply_paused s now o st t dom p :
  now < p + MinPauseDwell -> o <> OpUnpause t dom -> paused_since t dom p st -> paused_since t dom p (apply_op s now o st).
Proof.
  intros Hn Ho Hp. destruct o as [t' dom'|t' acc kind dom' m| |t' dom'|t'|]; simpl.
  - unfold RecordSent, or_same. destruct (bump_score _ _ _ _) as [st1|] eqn:E1; [|done]. simpl.
    destruct (bumpDaily _ _ _ _ _) as [st2|] eqn:E2; [|done]. unfold paused_since.
    rewrite (bump_daily_score _ _ _ _ _ _ E2). by eapply bump_paused.
  - unfold RecordEvent, or_same. destruct (_ && _); [done|].
    destruct (insert_event _ st) as [st1|] eqn:E; [|done]. simpl.
    destruct (count_event _ _ _ _ _) as [st2|] eqn:E2; [|done]. eapply count_event_paused; [done|].
    by apply insert_event_shape in E as ->.
  - destruct Hp as (r & Hr & Hp & Ha). exists r. split; [|done]. unfold UnpauseRecovered.
    rewrite unpause_loop_other; [done|]. intros ([k r'] & Hk & Hin)%list_elem_of_fmap. simpl in Hk. subst k.
    apply list_elem_of_filter in Hin as [Hd Hin]. apply elem_of_map_to_list in Hin. simpl in Hd.
    rewrite Hr in Hin. injection Hin as <-. unfold dwelt in Hd. rewrite Ha in Hd. b2p. lia.
  - unfold Unpause, or_same. destruct (negb _); [done|]. destruct Hp as (r & Hr & Hp). exists r. simpl.
    rewrite lookup_alter_ne; [done|]. intros [= -> ->]. by apply Ho.
  - unfold AllowSend. by repeat case_match.
  - unfold PruneSendRate. by destruct (_ && _).
Qed.

(** A pause lasts: for [MinPauseDwell] after a domain was paused, no traffic,
    report or sweep clears it, and the gate refuses the tenant's mail to it -
    only the operator's explicit unpause of that domain ends it earlier. *)
Theorem pause_dwells (s : Service) (l : list (Z * rep_op)) (st : RepDB) (t p : Z) (dom : string) :
  text_ok dom = true -> paused_since t dom p st ->
  Forall (fun o => o.1 < p + MinPauseDwell /\ o.2 <> OpUnpause t dom) l ->
  Gate t dom (run s l st) = Ok (mkGate false "tenant paused for domain").
Proof.
  intros Hd Hp Hl. assert (Hr : paused_since t dom p (run s l st)).
  { revert st Hp. induction l as [|[now o] l IH]; intros st Hp; [done|]. apply Forall_cons in Hl as [[Hn Ho] Hl].
    apply (IH Hl). by apply apply_paused. }
  destruct Hr as (r & Hr & Hrp & _). unfold Gate. by rewrite Hd, Hr, Hrp.
Qed.

(** ** The rate limit *)

(** How many sends of a tenant are admitted in a window along a run. *)
Fixpoint admitted (s : Service) (t ws : Z) (l : list (Z * rep_op)) (st : RepDB) : Z :=
  match l with
  | [] => 0
  | (now, o) :: l =>
      (match o with
       | OpAllow t' =>
           if (t' =? t) && (window_start (rate_window s) now =? ws) &&
              match (AllowSend s now t' st).1 with Ok b => b | Err _ => false end then 1 else 0
       | _ => 0
       end) + admitted s t ws l (apply_op s now o st)
  end.

Lemma window_mono w x y : 0 < w -> x <= y -> window_start w x <= window_start w y.
Proof. intros Hw Hxy. unfold window_start. pose proof (Z.div_le_mono x y w Hw Hxy). nia. Qed.

Lemma rate_window_pos s : 0 < rate_window s.
Proof. unfold rate_window, DefaultRateWindow. destruct (Z.leb_spec (s_RateWindow s) 0); lia. Qed.

(** Nothing is admitted in a window that is over. *)
Lemma admitted_over s t ws l st :
  Forall (fun o => ws < window_start (rate_window s) o.1) l -> admitted s t ws l st = 0.
Proof.
  revert st. induction l as [|[now o] l IH]; intros st; simpl; [done|]. intros [Hw Hl]%Forall_cons.
  rewrite IH by done. destruct o; try done. simpl in Hw.
  destruct (Z.eqb_spec (window_start (rate_window s) now) ws); [lia|]. by rewrite andb_false_r.
Qed.

Definition used (t ws : Z) (st : RepDB) : Z := default 0 (rp_rate st !! (t, ws)).

Lemma other_op_rate s now o st : (forall t, o <> OpAllow t) -> o <> OpPrune -> rp_rate (apply_op s now o st) = rp_rate st.
Proof.
  intros Ha Hp. assert (Hloop : forall keys n st, rp_rate (unpause_loop now keys n st).2 = rp_rate st).
  { induction keys as [|k keys IH]; intros n st'; simpl; [done|].
    destruct (windowedCounts _ _ _ _ _) as [[[n1 n2] n3]|]; [|done]. destruct (_ && _); by rewrite IH. }
  destruct o as [t dom|t acc kind dom m| |t dom|t|]; simpl; try done.
  - unfold RecordSent, bump_score, bumpDaily, or_same, rbind. by repeat (case_match; simplify_eq/=).
  - unfold RecordEvent, insert_event, count_event, bump_score, bumpDaily, judge, set_paused, or_same, rbind.
    by repeat (case_match; simplify_eq/=).
  - apply Hloop.
  - unfold Unpause, or_same. by destruct (negb _).
  - by destruct (Ha t).
Qed.

(** The rate limit holds: along any run of sends, reports, sweeps and
    prunings under a clock that does not go back, a tenant is admitted at most
    [MaxPerWindow] times in a window - pruning never forgets a window that can
    still be sent in. *)
Theorem rate_limited (s : Service) (t ws : Z) (l : list (Z * rep_op)) (st : RepDB) :
  0 < s_MaxPerWindow s -> StronglySorted (fun x y : Z * rep_op => x.1 <= y.1) l ->
  rp_rate st !! (t, ws) = None ->
  admitted s t ws l st <= s_MaxPerWindow s.
Proof.
  intros Hmax Hsort Hnone.
  assert (G : admitted s t ws l st <= Z.max 0 (s_MaxPerWindow s - used t ws st)).
  2:{ unfold used in G. rewrite Hnone in G. simpl in G. lia. }
  clear Hnone. revert st. induction Hsort as [|[now o] l Hsort IH Hnow]; intros st; cbn [admitted]; [lia|].
  specialize (IH (apply_op s now o st)).
  destruct o as [t1 d1|t1 a1 k1 d1 m1| |t1 d1|t'|];
    try solve [unfold used in *; rewrite other_op_rate in IH by done; lia].
  - simpl in *. unfold AllowSend in *. destruct (Z.leb_spec (s_MaxPerWindow s) 0); [lia|].
    case_decide; [|simpl in *; rewrite andb_false_r; lia].
    destruct (Reputation.bigint _) as [n|] eqn:En; [|simpl in *; rewrite andb_false_r; lia].
    apply bigint_inv in En. simpl in *. unfold used in *. simpl in IH.
    destruct (Z.eqb_spec t' t) as [->|Ht]; simpl.
    + destruct (Z.eqb_spec (window_start (rate_window s) now) ws) as [Hw|Hw]; simpl.
      * rewrite Hw in En, IH |- *. rewrite lookup_insert_eq in IH. simpl in IH. destruct (Z.leb_spec n (s_MaxPerWindow s)); lia.
      * rewrite lookup_insert_ne in IH by congruence. lia.
    + rewrite lookup_insert_ne in IH by congruence. lia.
  - clear Hsort. simpl in *. unfold PruneSendRate in *. destruct (_ && _); [simpl in *; lia|]. simpl in *.
    destruct (Z.leb_spec (window_start (rate_window s) now - rate_window s) ws) as [Hk|Hk].
    + unfold used in *. simpl in IH. destruct (rp_rate st !! (t, ws)) as [n|] eqn:E.
      * replace (filter _ _ !! (t, ws)) with (Some n) in IH; [simpl in *; lia|].
        symmetry. by apply map_lookup_filter_Some.
      * replace (filter _ _ !! (t, ws)) with (@None Z) in IH; [simpl in *; lia|].
        symmetry. apply map_lookup_filter_None. by left.
    + rewrite admitted_over; [lia|]. eapply Forall_impl; [exact Hnow|]. intros [now' o'] Hle. simpl in *.
      pose proof (window_mono (rate_window s) now now' (rate_window_pos s) Hle). pose proof (rate_window_pos s). lia.
Qed.

(** ** Instances *)

Definition demo_service : Service := mkService 2 60000000.
Definition demo_tables : RepDB := mkRep {[1; 2]} [] ∅ ∅ ∅.

Definition sent_one : RepDB := or_same (RecordSent 0 2 "a.example" demo_tables) demo_tables.
Definition spam : list (Z * rep_op) :=
  replicate 20 (5, OpSent 1 "a.example") ++ [(6, OpEvent 1 0 KindComplaint "a.example" 7); (7, OpSweep); (8, OpPrune)].

Lemma no_poisoning_witness :
  (exists g', Gate 2 "a.example" (run demo_service spam sent_one) = Ok g' /\ g_Allowed g' = true)
  /\ Gate 1 "a.example" (run demo_service spam sent_one) = Ok (mkGate false "tenant paused for domain").
Proof.
  split; [|vm_compute; reflexivity].
  refine (proj1 (no_poisoning demo_service spam sent_one 2 "a.example" (mkGate true EmptyString) _ _ eq_refl)).
  - repeat constructor; discriminate.
  - vm_compute. reflexivity.
Defined.

Definition one_report : RepDB := or_same (RecordEvent 3 1 0 KindBounce "a.example" 7 sent_one) sent_one.

Lemma replay_is_noop_witness :
  RecordEvent 9 1 5 KindComplaint "b.example" 7 (run demo_service spam one_report) = Ok (run demo_service spam one_report).
Proof.
  refine (replay_is_noop demo_service spam sent_one one_report 3 1 0 KindBounce 7 "a.example" 9 5 KindComplaint
            "b.example" _ _ _ _); vm_compute; reflexivity.
Defined.

Definition twenty_sent : RepDB := run demo_service (replicate 20 (5, OpSent 1 "a.example")) demo_tables.
Definition complained : RepDB := or_same (RecordEvent 6 1 0 KindComplaint "a.example" 7 twenty_sent) twenty_sent.

Lemma pause_decision_witness :
  exists s', rp_score complained !! (1, "a.example"%string) = Some s' /\ sc_paused s' = true.
Proof.
  destruct (pause_decision 6 1 0 KindComplaint 7 "a.example" twenty_sent complained CComplaints)
    as (s' & Hs & Hp).
  - vm_compute. reflexivity.
  - reflexivity.
  - intros _. vm_compute. reflexivity.
  - exists s'. split; [exact Hs|]. apply Hp. right. split; vm_compute; [discriminate|reflexivity].
Defined.

Lemma pause_dwells_witness :
  Gate 1 "a.example" (run demo_service [(10, OpSweep); (11, OpUnpause 1 "b.example"); (12, OpSent 1 "a.example")] complained)
  = Ok (mkGate false "tenant paused for domain").
Proof.
  refine (pause_dwells demo_service _ complained 1 6 "a.example" _ _ _).
  - reflexivity.
  - eexists. split; [|split]; vm_compute; reflexivity.
  - repeat constructor; try discriminate; vm_compute; reflexivity.
Defined.

Definition three_sends : list (Z * rep_op) := [(1, OpAllow 1); (2, OpAllow 1); (3, OpPrune); (4, OpAllow 1)].

Lemma rate_limited_witness :
  admitted demo_service 1 0 three_sends demo_tables <= 2 /\ admitted demo_service 1 0 three_sends demo_tables = 2.
Proof.
  split; [|vm_compute; reflexivity].
  refine (rate_limited demo_service 1 0 three_sends demo_tables _ _ _).
  - reflexivity.
  - repeat constructor; vm_compute; discriminate.
  - reflexivity.
Defined.
