(* ===== verification/Verp.v ===== *)
(** * Signed return paths (mailflow/deliverability/deliverability.go, fbl.go)

    The localpart a message is sent under names its tenant and its id and, with a
    key, carries a tag over the two; a report that comes back to it is attributed by
    that tag alone.  HMAC-SHA256 is the parameter [hmac_sha256]; base32 and the
    parsers are modelled. *)

From S2P Require Import Prelude GoStrings Queue Strconv Reputation.

Local Open Scope go_scope.

Class Hmac := { hmac_sha256 : string -> string -> list ascii }.        (* key, message *)
(** A digest of SHA-256 has 32 bytes. *)
Class HmacSize `{Hmac} := { hmac_length : forall key text, length (hmac_sha256 key text) = 32%nat }.


(** ** Base32, standard alphabet without padding, lower-cased *)

Definition byte_bits (c : ascii) : list bool :=
  let n := byte_of c in
  [Z.testbit n 7; Z.testbit n 6; Z.testbit n 5; Z.testbit n 4; Z.testbit n 3; Z.testbit n 2; Z.testbit n 1; Z.testbit n 0].
Definition bit (b : bool) : Z := if b then 1 else 0.
(** The letter of five bits: [a]-[z] then [2]-[7]. *)
Definition b32_char (v : Z) : ascii := byte_char (if v <? 26 then 97 + v else 24 + v).
Fixpoint b32_groups (bits : list bool) : list ascii :=
  match bits with
  | b4 :: b3 :: b2 :: b1 :: b0 :: rest =>
      b32_char (16 * bit b4 + 8 * bit b3 + 4 * bit b2 + 2 * bit b1 + bit b0) :: b32_groups rest
  | [] => []
  | [b4] => [b32_char (16 * bit b4)]
  | [b4; b3] => [b32_char (16 * bit b4 + 8 * bit b3)]
  | [b4; b3; b2] => [b32_char (16 * bit b4 + 8 * bit b3 + 4 * bit b2)]
  | [b4; b3; b2; b1] => [b32_char (16 * bit b4 + 8 * bit b3 + 4 * bit b2 + 2 * bit b1)]
  end.
Definition base32_lower (l : list ascii) : string := str_of (b32_groups (concat (byte_bits <$> l))).

Example base32_examples : base32_lower (bytes_of "foobar") = "mzxw6ytboi"%string /\ base32_lower (bytes_of "fo") = "mzxq"%string.
Proof. split; vm_compute; reflexivity. Qed.

(** ** Tokens *)

Definition verpPrefix : string := "bounces+".

Definition VERPToken (tenantID msgID : Z) : string :=
  (verpPrefix ++ FormatInt tenantID ++ "." ++ FormatInt msgID)%string.

Section Verp.
Context `{Unicode}.

(** [strings.Cut(lp, ".")]. *)
Definition cut_dot (s : string) : option (string * string) :=
  match index_byte "."%char (bytes_of s) with
  | None => None
  | Some i => Some (str_of (take i (bytes_of s)), str_of (drop (S i) (bytes_of s)))
  end.

Definition ParseVERP (localpart : string) : option (Z * Z) :=
  let lp := trim_prefix (ToLower localpart) verpPrefix in
  match cut_dot lp with
  | None => None
  | Some (a, b) =>
      match ParseInt a, ParseInt b with
      | Some ti, Some mi => Some (ti, mi)
      | _, _ => None
      end
  end.

Context `{Hmac}.

Definition verpMAC (tenantID msgID : Z) (key : string) : string :=
  base32_lower (take 12 (hmac_sha256 key (FormatInt tenantID ++ "." ++ FormatInt msgID))).

Definition SignedVERPToken (tenantID msgID : Z) (key : string) : string :=
  if Nat.eqb (String.length key) 0 then VERPToken tenantID msgID
  else (VERPToken tenantID msgID ++ "." ++ verpMAC tenantID msgID key)%string.

Definition parseCanonInt (s : string) : option Z :=
  match ParseInt s with
  | Some n => if (n <? 0) || negb (String.eqb (FormatInt n) s) then None else Some n
  | None => None
  end.

Definition ParseSignedVERP (localpart key : string) : option (Z * Z) :=
  if Nat.eqb (String.length key) 0 then ParseVERP localpart
  else
    match split (trim_prefix (ToLower localpart) verpPrefix) "."%char with
    | [p0; p1; p2] =>
        match parseCanonInt p0, parseCanonInt p1 with
        | Some ti, Some mi => if String.eqb p2 (verpMAC ti mi key) then Some (ti, mi) else None
        | _, _ => None
        end
    | _ => None
    end.

(** ** Reports *)

(** What the mail and MIME parsers of the standard library find in a report: no
    header at all, or the media type of its Content-Type and the report-type. *)
Context (content_type : string -> option (string * string)).

Definition reportKind (raw : string) : Z :=
  match content_type raw with
  | None => KindBounce
  | Some (mediaType, report_type) =>
      if EqualFold mediaType "multipart/report" && EqualFold report_type "feedback-report" then KindComplaint
      else KindBounce
  end.

(** [SELECT rcpt_to FROM queue_log WHERE queue_id=$1 AND tenant_id=$2 AND
    rcpt_to <> '' ORDER BY id LIMIT 1]. *)
Definition sentDomain (tenantID msgID : Z) (q : QDB) : string :=
  match filter (fun l => (l_queue_id l =? msgID) && (l_tenant_id l =? tenantID)
                         && negb (String.eqb (l_rcpt_to l) EmptyString) = true) (q_log q) with
  | l :: _ => Addr.Domain (l_rcpt_to l)
  | [] => EmptyString
  end.

Record Complaint := mkComplaint { cp_TenantID : Z; cp_MsgID : Z; cp_RemoteDomain : string; cp_Kind : Z }.

(** The complaint, or [None] for a recipient that does not authenticate, and
    the reputation tables afterwards. *)
Definition IngestReport (now : Z) (verpLocalpart key raw : string) (q : QDB) (st : RepDB)
  : result (option Complaint) * RepDB :=
  match ParseSignedVERP verpLocalpart key with
  | None => (Ok None, st)
  | Some (tenantID, msgID) =>
      let kind := reportKind raw in
      let domain := sentDomain tenantID msgID q in
      match RecordEvent now tenantID 0 kind domain msgID st with
      | Err e => (Err e, st)
      | Ok st' => (Ok (Some (mkComplaint tenantID msgID domain kind)), st')
      end
  end.

End Verp.

(** ** Return paths: what a localpart proves

    A localpart attributes a report exactly when it is the signed token of its
    tenant and message, in the one canonical spelling. *)

(** ** The tag *)

Lemma b32_chars (P : ascii -> Prop) bits :
  (forall v, 0 <= v < 32 -> P (b32_char v)) -> Forall P (b32_groups bits).
Proof.
  intros HP. revert bits. fix IH 1. intros [|b4 [|b3 [|b2 [|b1 [|b0 rest]]]]]; [constructor|..|constructor; [|apply IH]];
    repeat constructor; apply HP; repeat match goal with b : bool |- _ => destruct b end; simpl; lia.
Qed.

Lemma b32_char_cases v : 0 <= v < 32 ->
  exists n, b32_char v = byte_char n /\ (50 <= n <= 55 \/ 97 <= n <= 122).
Proof.
  intros Hv. unfold b32_char. destruct (Z.ltb_spec v 26); eexists; (split; [reflexivity|lia]).
Qed.

Lemma byte_char_value n : 0 <= n < 256 -> byte_of (byte_char n) = n.
Proof. intros Hn. unfold byte_of, byte_char. rewrite nat_ascii_embedding by lia. lia. Qed.

Section Spec.
Context `{Unicode} `{Hmac}.

(** What follows the prefix in the token of a tenant's message. *)
Definition canonical (tenantID msgID : Z) (key : string) : string :=
  (FormatInt tenantID ++ "." ++ FormatInt msgID ++ "." ++ verpMAC tenantID msgID key)%string.

Lemma mac_no_dot t m key : "."%char ∉ bytes_of (verpMAC t m key).
Proof.
  unfold verpMAC, base32_lower. rewrite bytes_of_str_of. intros Hin.
  assert (Hf : Forall (fun c => c <> "."%char) (b32_groups (concat (byte_bits <$> take 12 (hmac_sha256 key
    (FormatInt t ++ "." ++ FormatInt m)))))).
  { apply b32_chars. intros v Hv He. destruct (b32_char_cases v Hv) as (n & Hn & Hr). rewrite Hn in He.
    apply (f_equal byte_of) in He. rewrite byte_char_value in He by lia. change (byte_of ".") with 46 in He. lia. }
  by apply (proj1 (Forall_forall _ _) Hf "."%char).
Qed.

Lemma split_canonical t m key : is_i64 t = true -> is_i64 m = true ->
  split (canonical t m key) "."%char = [FormatInt t; FormatInt m; verpMAC t m key].
Proof.
  intros Ht Hm. unfold split, canonical. rewrite !bytes_of_app. change (bytes_of ".") with ["."%char].
  cbn [app]. rewrite split_l_app by (by apply FormatInt_without).
  rewrite split_l_app by (by apply FormatInt_without). rewrite split_l_none by apply mac_no_dot.
  csimpl. by rewrite !str_of_bytes_of.
Qed.

Lemma split_three s p0 p1 p2 : split s "."%char = [p0; p1; p2] -> s = (p0 ++ "." ++ p1 ++ "." ++ p2)%string.
Proof.
  unfold split. intros Hs. pose proof (split_l_join "."%char (bytes_of s)) as Hj.
  destruct (split_l "."%char (bytes_of s)) as [|a [|b [|c [|]]]]; try done. csimpl in Hs. injection Hs as <- <- <-.
  rewrite <- (str_of_bytes_of s), <- Hj. cbn [join_l].
  rewrite <- (str_of_bytes_of (_ ++ "." ++ _)). f_equal. by rewrite !bytes_of_app, !bytes_of_str_of.
Qed.

Lemma parseCanonInt_spec s n : parseCanonInt s = Some n <-> (0 <= n <= max_int64 /\ s = FormatInt n).
Proof.
  unfold parseCanonInt. split.
  - destruct (ParseInt s) as [z|] eqn:E; [|done]. destruct (Z.ltb_spec z 0); [done|].
    destruct (String.eqb_spec (FormatInt z) s); simpl; [|done]. intros [= <-]. split; [|done].
    split; [done|]. unfold ParseInt in E.
    repeat case_match; try done; injection E as <-; unfold is_i64 in *; b2p; done.
  - intros [Hn ->]. rewrite ParseInt_FormatInt.
    + destruct (Z.ltb_spec n 0); [lia|]. by rewrite String.eqb_refl.
    + unfold is_i64, min_int64. apply andb_true_intro. split; apply Z.leb_le; lia.
Qed.

Lemma parsed_canonical lp key t m : key <> EmptyString -> ParseSignedVERP lp key = Some (t, m) ->
  0 <= t <= max_int64 /\ 0 <= m <= max_int64 /\ trim_prefix (ToLower lp) verpPrefix = canonical t m key.
Proof.
  intros Hk. unfold ParseSignedVERP. destruct (Nat.eqb_spec (String.length key) 0) as [Hz|_]; [by destruct key|].
  destruct (split _ _) as [|p0 [|p1 [|p2 [|]]]] eqn:Es; try done.
  destruct (parseCanonInt p0) as [ti|] eqn:E0; [|done]. destruct (parseCanonInt p1) as [mi|] eqn:E1; [|done].
  destruct (String.eqb_spec p2 (verpMAC ti mi key)) as [->|]; [|done]. intros [= <- <-].
  apply parseCanonInt_spec in E0 as [Ht ->]. apply parseCanonInt_spec in E1 as [Hm ->].
  split_and!; try tauto; try lia. by apply split_three.
Qed.

Lemma nonneg_i64 n : 0 <= n <= max_int64 -> is_i64 n = true.
Proof. intros Hn. unfold is_i64, min_int64. apply andb_true_intro. split; apply Z.leb_le; lia. Qed.

Lemma canonical_parsed lp key t m : key <> EmptyString -> 0 <= t <= max_int64 -> 0 <= m <= max_int64 ->
  trim_prefix (ToLower lp) verpPrefix = canonical t m key -> ParseSignedVERP lp key = Some (t, m).
Proof.
  intros Hk Ht Hm Hl. unfold ParseSignedVERP. destruct (Nat.eqb_spec (String.length key) 0); [by destruct key|].
  rewrite Hl, split_canonical by (by apply nonneg_i64).
  assert (Hp : forall n, 0 <= n <= max_int64 -> parseCanonInt (FormatInt n) = Some n).
  { intros n0 Hn. by apply parseCanonInt_spec. }
  by rewrite !Hp, String.eqb_refl.
Qed.

(** A localpart authenticates exactly one token: with a key configured it
    is attributed to tenant [t] and message [m] if and only if, lower-cased and
    without its prefix, it is the canonical spelling of [t], [m] and the tag the
    key gives for them.  In particular every issued token comes back, also
    re-cased, and no other spelling, no unsigned token and no tag of another
    tenant is accepted. *)
Theorem verp_authentic (lp key : string) (t m : Z) :
  key <> EmptyString ->
  ParseSignedVERP lp key = Some (t, m) <->
  (0 <= t <= max_int64 /\ 0 <= m <= max_int64 /\ trim_prefix (ToLower lp) verpPrefix = canonical t m key).
Proof. intros Hk. split; [by apply parsed_canonical|]. intros (Ht & Hm & Hl). by apply canonical_parsed. Qed.

Lemma token_canonical t m key : key <> EmptyString ->
  SignedVERPToken t m key = (verpPrefix ++ canonical t m key)%string.
Proof.
  intros Hk. unfold SignedVERPToken, VERPToken, canonical. destruct (Nat.eqb_spec (String.length key) 0); [by destruct key|].
  assert (Ha : forall x y z : string, ((x ++ y) ++ z = x ++ y ++ z)%string).
  { intros x y z. induction x as [|c x IH]; [done|]. exact (f_equal (String c) IH). }
  by rewrite !Ha.
Qed.

Lemma cut_dot_app a b : "."%char ∉ bytes_of a -> cut_dot (a ++ "." ++ b) = Some (a, b).
Proof.
  intros Ha. unfold cut_dot. rewrite !bytes_of_app. change (bytes_of ".") with ["."%char]. cbn [app].
  assert (Hi : index_byte "." (bytes_of a ++ "."%char :: bytes_of b) = Some (length (bytes_of a))).
  { induction (bytes_of a) as [|c l IH]; simpl; [done|]. apply not_elem_of_cons in Ha as [Hc Ha].
    destruct (Ascii.eqb_spec c "."); [congruence|]. by rewrite IH. }
  rewrite Hi, take_app_length. do 2 f_equal; [apply str_of_bytes_of|].
  rewrite cons_middle, (app_assoc (bytes_of a)). rewrite drop_app_length'; [apply str_of_bytes_of|].
  rewrite length_app. simpl. lia.
Qed.

(** A return path comes back: the localpart issued for a tenant's message,
    however an intermediary changed the case of its letters, is parsed to that
    tenant and that message, with and without a signing key. *)
Theorem verp_roundtrip (lp key : string) (t m : Z) :
  0 <= t <= max_int64 -> 0 <= m <= max_int64 ->
  is_ascii lp = true -> ascii_lower lp = SignedVERPToken t m key ->
  ParseSignedVERP lp key = Some (t, m).
Proof.
  intros Ht Hm Ha Hl.
  assert (Hlow : ToLower lp = SignedVERPToken t m key) by (unfold ToLower; by rewrite Ha).
  pose proof nonneg_i64 as Hi.
  destruct (decide (key = EmptyString)) as [->|Hk].
  - unfold ParseSignedVERP, ParseVERP. cbn [String.length Nat.eqb]. rewrite Hlow.
    unfold SignedVERPToken, VERPToken. cbn [String.length Nat.eqb]. rewrite trim_prefix_app.
    rewrite cut_dot_app by (apply FormatInt_without; auto). by rewrite !ParseInt_FormatInt by auto.
  - apply canonical_parsed; [done..|]. by rewrite Hlow, token_canonical, trim_prefix_app.
Qed.

(** ** What a report can touch *)

(** The rows of every other tenant and domain. *)
Definition only_row (t : Z) (dom : string) (st st' : RepDB) : Prop :=
  (forall k, k <> (t, dom) -> rp_score st' !! k = rp_score st !! k) /\
  (forall k, k.1 <> (t, dom) -> rp_daily st' !! k = rp_daily st !! k) /\
  rp_rate st' = rp_rate st /\ rp_tenants st' = rp_tenants st.

Lemma RecordEvent_row now t acc kind dom m st st' :
  RecordEvent now t acc kind dom m st = Ok st' -> only_row t dom st st'.
Proof.
  unfold RecordEvent. destruct (_ && _); [by intros [= <-]|].
  unfold insert_event. destruct (negb _); [done|]. destruct (keys_ok _ _ _); [|done]. simpl.
  unfold count_event. destruct (event_col kind) as [c|]; [|by intros [= <-]].
  unfold bump_score. destruct (keys_ok _ _ _); [|done]. simpl. destruct (Reputation.bigint _); [|done]. simpl.
  unfold bumpDaily. destruct (keys_ok _ _ _); [|done]. simpl. destruct (Reputation.bigint _); [|done]. simpl.
  unfold judge. destruct (windowedCounts _ _ _ _ _) as [[[n1 n2] n3]|]; [|done]. simpl. intros [= <-].
  assert (Hd : forall k, k.1 <> (t, dom) -> k <> (t, dom, day_of now)) by (intros k Hk ->; by apply Hk).
  destruct (_ && _); (split_and!; [intros k Hk; simpl|intros k Hk; simpl|done|done]).
  - by rewrite lookup_alter_ne, lookup_insert_ne.
  - rewrite lookup_insert_ne; [done|]. apply not_eq_sym. by apply Hd.
  - by rewrite lookup_insert_ne.
  - rewrite lookup_insert_ne; [done|]. apply not_eq_sym. by apply Hd.
Qed.

Lemma sentDomain_logged t m q : sentDomain t m q = EmptyString \/
  exists l, l ∈ q_log q /\ l_queue_id l = m /\ l_tenant_id l = t /\ sentDomain t m q = Addr.Domain (l_rcpt_to l).
Proof.
  unfold sentDomain. destruct (filter _ (q_log q)) as [|l ls] eqn:E; [by left|]. right. exists l.
  assert (Hl : l ∈ l :: ls) by (by left). rewrite <- E in Hl. apply list_elem_of_filter in Hl as [Hl Hin]. b2p. done.
Qed.

(** A report only restricts the sender it returns to: what arrives at the
    bounce domain either changes nothing, or came to the signed localpart of a
    tenant's message; then it is that tenant's row for the domain the queue log says
    the message went to - none when the log forgot it - that changes, and no other
    tenant's and no other domain's, whatever the body claims. *)
Theorem ingest_scope (content_type : string -> option (string * string)) (now : Z) (lp key raw : string)
    (q : QDB) (st st' : RepDB) (r : result (option Complaint)) :
  key <> EmptyString -> IngestReport content_type now lp key raw q st = (r, st') ->
  (st' = st /\ forall c, r <> Ok (Some c)) \/
  exists t m, let dom := sentDomain t m q in
    trim_prefix (ToLower lp) verpPrefix = canonical t m key /\
    r = Ok (Some (mkComplaint t m dom (reportKind content_type raw))) /\
    (dom = EmptyString \/
     exists l, l ∈ q_log q /\ l_queue_id l = m /\ l_tenant_id l = t /\ dom = Addr.Domain (l_rcpt_to l)) /\
    only_row t dom st st'.
Proof.
  intros Hk. unfold IngestReport. destruct (ParseSignedVERP lp key) as [[t m]|] eqn:Ep.
  2:{ intros [= <- <-]. by left. }
  apply parsed_canonical in Ep; [|done].
  destruct (RecordEvent _ _ _ _ _ _ _) as [st1|] eqn:Er; intros [= <- <-]; [|by left].
  right. exists t, m. cbv zeta. destruct Ep as (_ & _ & Ep).
  split; [done|]. split; [done|]. split; [apply sentDomain_logged|by eapply RecordEvent_row].
Qed.

End Spec.

(** ** Instances *)

(** A tag function of the right size, for the examples only. *)
#[local] Instance demo_hmac : Hmac :=
  { hmac_sha256 := fun k m => let b := bytes_of (k ++ m) in take 32 (b ++ replicate 32 "x"%char) }.
#[local] Instance verp_unicode : Unicode := { unicode_lower := fun r => r; EqualFold := String.eqb }.

Definition demo_path : string := SignedVERPToken 1 42 "key".

Lemma verp_authentic_witness :
  ParseSignedVERP demo_path "key" = Some (1, 42) /\ ParseSignedVERP "bounces+1.43.nq3g2nbt" "key" = None
  /\ ParseSignedVERP (VERPToken 1 42) "key" = None.
Proof.
  split; [|split; vm_compute; reflexivity].
  refine (proj2 (verp_authentic demo_path "key" 1 42 _) _); [discriminate|].
  split; [|split]; [split; vm_compute; discriminate..|]. vm_compute. reflexivity.
Defined.

Lemma verp_roundtrip_witness :
  ParseSignedVERP "BOUNCES+1.42" "" = Some (1, 42).
Proof.
  refine (verp_roundtrip "BOUNCES+1.42" "" 1 42 _ _ _ _); [split; vm_compute; discriminate..| |];
    vm_compute; reflexivity.
Defined.

Definition bounce_log : QDB :=
  mkQDB {[1]} {[1]} ∅ [mkQLog 42 1 1 None "bob@remote.example" kindEnqueued (PEnqueued false 100) None 0] ∅ ∅ 43 1.
Definition bounce_tables : RepDB := mkRep {[1; 2]} [] ∅ ∅ ∅.
Definition arf (raw : string) : option (string * string) := Some ("multipart/report", "feedback-report")%string.
Definition reported : result (option Complaint) * RepDB :=
  IngestReport arf 5 demo_path "key" EmptyString bounce_log bounce_tables.

Lemma ingest_scope_witness :
  reported.1 = Ok (Some (mkComplaint 1 42 "remote.example" KindComplaint)) /\
  (forall dom, rp_score reported.2 !! (2, dom) = rp_score bounce_tables !! (2, dom)).
Proof.
  assert (Hr : reported.1 = Ok (Some (mkComplaint 1 42 "remote.example" KindComplaint))) by (vm_compute; reflexivity).
  split; [exact Hr|]. intros dom.
  destruct (ingest_scope arf 5 demo_path "key" EmptyString bounce_log bounce_tables reported.2 reported.1
              ltac:(discriminate) ltac:(unfold reported; symmetry; apply surjective_pairing))
    as [[-> _]|(t & m & _ & Hm & _ & (Hs & _))]; [reflexivity|].
  rewrite Hr in Hm. apply Hs. injection Hm as <- <- _. intros [= He _].
Defined.
