(* ===== verification/IpRouter.v ===== *)
(** * Source addresses (mailflow/deliverability/iprouter.go)

    Which address a tenant's mail leaves from: the addresses of the pools
    assigned to it, capped per day by an explicit limit and by the stage of the
    address's warm-up; the daily maintenance that widens the caps.  A row lock is a
    member of the set of ids other transactions hold.  [LeasedIP]'s address is
    the text [net.ParseIP] reads. *)

From S2P Require Import Prelude GoStrings.

Local Open Scope go_scope.

(** ** Tables *)

Record IpAddr := mkIp {
  ip_pool : Z; ip_text : string; ip_ptr : option string;
  ip_stage : Z; ip_daily_cap : Z; ip_sent_today : Z }.

Record IpDB := mkIpDB {
  i_addrs : gmap Z IpAddr;
  i_pools : gmap Z string;                  (* id -> purpose *)
  i_assign : gmap (Z * Z) bool;             (* (tenant_id, pool_id) -> dedicated *)
  i_marker : gmap string Z }.               (* maintenance_marker: name -> last_run *)

Definition set_addrs v st := mkIpDB v (i_pools st) (i_assign st) (i_marker st).
Definition set_marker v st := mkIpDB (i_addrs st) (i_pools st) (i_assign st) v.
Definition ip_set_pool v a := mkIp v (ip_text a) (ip_ptr a) (ip_stage a) (ip_daily_cap a) (ip_sent_today a).
Definition ip_set_stage v a := mkIp (ip_pool a) (ip_text a) (ip_ptr a) v (ip_daily_cap a) (ip_sent_today a).
Definition ip_set_sent v a := mkIp (ip_pool a) (ip_text a) (ip_ptr a) (ip_stage a) (ip_daily_cap a) v.

(** ** Caps; 0 is uncapped *)

Definition warmupCaps : list Z := [50; 100; 500; 1000; 5000; 10000; 20000; 50000; 100000].

Definition WarmupCapForStage (stage : Z) : Z :=
  let stage := if stage <? 0 then 0 else stage in
  if Z.of_nat (length warmupCaps) <=? stage then 0 else default 0 (warmupCaps !! Z.to_nat stage).

Definition effectiveCap (explicit warmup : Z) : Z :=
  if explicit =? 0 then warmup
  else if warmup =? 0 then explicit
  else if explicit <? warmup then explicit
  else warmup.

Definition cap_of (a : IpAddr) : Z := effectiveCap (ip_daily_cap a) (WarmupCapForStage (ip_stage a)).
Definition at_cap (a : IpAddr) : bool := negb (cap_of a =? 0) && (cap_of a <=? ip_sent_today a).

(** ** Leasing *)

Record LeasedIP := mkLeased { l_ID : Z; l_IP : string; l_PTR : string }.

(** A row of the join: the address, and whether the pool is the tenant's own. *)
Record cand := mkCand { c_id : Z; c_addr : IpAddr; c_dedicated : bool }.

(** ORDER BY over rows that may tie. *)
Class PgSort := { sort_rows : (cand -> cand -> bool) -> list cand -> list cand }.
Class PgSortLaws `{PgSort} := {
  sort_rows_perm : forall le l, sort_rows le l ≡ₚ l;
  sort_rows_sorted : forall le l,
    (forall x y, le x y = true \/ le y x = true) ->
    (forall x y z, le x y = true -> le y z = true -> le x z = true) ->
    StronglySorted (fun x y => le x y = true) (sort_rows le l) }.

Definition cand_le (x y : cand) : bool :=
  if eqb (c_dedicated x) (c_dedicated y) then ip_sent_today (c_addr x) <=? ip_sent_today (c_addr y)
  else c_dedicated x.

(** The row of the join an address contributes to a tenant's candidates. *)
Definition join_row (tenantID : Z) (st : IpDB) (ia : Z * IpAddr) : option cand :=
  match i_assign st !! (tenantID, ip_pool ia.2), i_pools st !! ip_pool ia.2 with
  | Some dedicated, Some purpose =>
      if String.eqb purpose "penalty" then None else Some (mkCand ia.1 ia.2 dedicated)
  | _, _ => None
  end.

(** [strings.IndexByte(ipStr, '/')]: the text of an inet may end in a prefix length. *)
Definition strip_prefix_len (s : string) : string :=
  match index_byte "/"%char (bytes_of s) with
  | Some i => str_of (take i (bytes_of s))
  | None => s
  end.

Definition bigint (z : Z) : result Z := if is_i64 z then Ok z else Err ErrOutOfRange.
Definition int4 (z : Z) : result Z := if (- 2 ^ 31 <=? z) && (z <? 2 ^ 31) then Ok z else Err ErrOutOfRange.

Section Router.
Context `{PgSort}.

(** The candidates in order, without the rows [FOR UPDATE SKIP LOCKED] passes over. *)
Definition candidates (tenantID : Z) (locked : gset Z) (st : IpDB) : list cand :=
  filter (fun c => c_id c ∉ locked) (sort_rows cand_le (omap (join_row tenantID st) (map_to_list (i_addrs st)))).

(** The first row that is not at its cap. *)
Fixpoint choose (l : list cand) : option cand :=
  match l with
  | [] => None
  | c :: l => if at_cap (c_addr c) then choose l else Some c
  end.

Definition LeaseSourceIP (tenantID : Z) (locked : gset Z) (st : IpDB) : result LeasedIP * IpDB :=
  match choose (candidates tenantID locked st) with
  | None => (Err ErrNoSourceIP, st)
  | Some c =>
      match bigint (ip_sent_today (c_addr c) + 1) with
      | Err e => (Err e, st)
      | Ok n =>
          (Ok (mkLeased (c_id c) (strip_prefix_len (ip_text (c_addr c))) (default EmptyString (ip_ptr (c_addr c)))),
           set_addrs (alter (ip_set_sent n) (c_id c) (i_addrs st)) st)
      end
  end.

End Router.

(** ** Maintenance *)

Definition ResetDailyCounters (st : IpDB) : IpDB := set_addrs (ip_set_sent 0 <$> i_addrs st) st.

(** Did the address reach the cap its stage has in the ramp table today? *)
Definition warmup_due (a : IpAddr) : bool :=
  if ip_stage a <? 0 then false
  else match warmupCaps !! Z.to_nat (ip_stage a) with
       | Some cap => cap <=? ip_sent_today a
       | None => false
       end.

Definition advanceWarmupDue (st : IpDB) : Z * IpDB :=
  (Z.of_nat (size (filter (fun ia : Z * IpAddr => warmup_due ia.2 = true) (i_addrs st))),
   set_addrs ((fun a => if warmup_due a then ip_set_stage (ip_stage a + 1) a else a) <$> i_addrs st) st).

Definition AdvanceWarmupDue := advanceWarmupDue.

(** [today] is the UTC date.  One transaction: claim the day, advance, reset. *)
Definition RunDailyMaintenance (today : Z) (st : IpDB) : (bool * Z) * IpDB :=
  let claimed := match i_marker st !! "ip_warmup"%string with None => true | Some last => last <? today end in
  if claimed then
    let st := set_marker (<["ip_warmup"%string := today]> (i_marker st)) st in
    let '(n, st) := advanceWarmupDue st in
    ((true, n), ResetDailyCounters st)
  else ((false, 0), st).

Definition AdvanceWarmup (ipID : Z) (st : IpDB) : result IpDB :=
  match i_addrs st !! ipID with
  | None => Err (ErrText "no ip_address id")
  | Some a =>
      try! v := int4 (ip_stage a + 1) in
      Ok (set_addrs (<[ipID := ip_set_stage v a]> (i_addrs st)) st)
  end.

(** [SELECT id FROM ip_pools WHERE purpose='penalty' ORDER BY id LIMIT 1]. *)
Definition penalty_pool (st : IpDB) : option Z :=
  map_fold (fun id purpose acc =>
    if String.eqb purpose "penalty" then Some (match acc with Some i => Z.min i id | None => id end) else acc)
    None (i_pools st).

(** Without a penalty pool the subquery is NULL, which the column refuses. *)
Definition EvictToPenalty (ipID : Z) (st : IpDB) : result IpDB :=
  match i_addrs st !! ipID with
  | None => Ok st
  | Some a =>
      match penalty_pool st with
      | None => Err ErrNotNull
      | Some p => Ok (set_addrs (<[ipID := ip_set_pool p a]> (i_addrs st)) st)
      end
  end.

(** ** What happens to the tables *)

Inductive ip_op : Type :=
| OpLease (tenantID : Z) (locked : gset Z)
| OpReset
| OpMaintain (today : Z)
| OpAdvance (ipID : Z)
| OpAdvanceDue
| OpEvict (ipID : Z).

Definition or_unchanged (r : result IpDB) (st : IpDB) : IpDB := match r with Ok st' => st' | Err _ => st end.

Definition ip_step `{PgSort} (o : ip_op) (st : IpDB) : IpDB :=
  match o with
  | OpLease t locked => (LeaseSourceIP t locked st).2
  | OpReset => ResetDailyCounters st
  | OpMaintain today => (RunDailyMaintenance today st).2
  | OpAdvance id => or_unchanged (AdvanceWarmup id st) st
  | OpAdvanceDue => (AdvanceWarmupDue st).2
  | OpEvict id => or_unchanged (EvictToPenalty id st) st
  end.
Definition ip_run `{PgSort} (l : list ip_op) (st : IpDB) : IpDB := foldl (fun st o => ip_step o st) st l.
