(* ===== verification/IpRouterSpec.v ===== *)
(** * Source addresses: caps, eligibility, warm-up

    No address is used beyond the cap in force; a lease is the best eligible
    address; the penalty pool is never leased; maintenance runs once a day
    and advances a stage by one. *)

From S2P Require Import Prelude Lists GoStrings IpRouter.

Local Open Scope go_scope.

(** ** Caps *)

(** Uncapped, or not beyond the cap. *)
Definition within (a : IpAddr) : Prop := cap_of a = 0 \/ ip_sent_today a <= cap_of a.
Definition ips_ok (st : IpDB) : Prop :=
  forall id a, i_addrs st !! id = Some a -> 0 <= ip_daily_cap a /\ within a.

Lemma stage_cap_cases s :
  (9 <= s /\ WarmupCapForStage s = 0) \/ (s < 9 /\ 50 <= WarmupCapForStage s <= 100000).
Proof.
  unfold WarmupCapForStage. change (Z.of_nat (length warmupCaps)) with 9.
  assert (Hs : s < 0 \/ s = 0 \/ s = 1 \/ s = 2 \/ s = 3 \/ s = 4 \/ s = 5 \/ s = 6 \/ s = 7 \/ s = 8 \/ 9 <= s) by lia.
  destruct Hs as [Hs|Hs].
  - destruct (Z.ltb_spec s 0); [|lia]. right. split; [lia|]. vm_compute. split; discriminate.
  - repeat (destruct Hs as [->|Hs]; [right; vm_compute; split; [done|split; discriminate]|]).
    left. destruct (Z.ltb_spec s 0); [lia|]. destruct (Z.leb_spec 9 s); [done|lia].
Qed.

(** A later stage never narrows the allowance. *)
Lemma stage_cap_step s : WarmupCapForStage (s + 1) = 0 \/ 0 < WarmupCapForStage s <= WarmupCapForStage (s + 1).
Proof.
  destruct (stage_cap_cases (s + 1)) as [[Hs Hc]|[Hs Hc]]; [by left|]. right.
  assert (Hcase : s + 1 <= 0 \/ s = 0 \/ s = 1 \/ s = 2 \/ s = 3 \/ s = 4 \/ s = 5 \/ s = 6 \/ s = 7) by lia.
  destruct Hcase as [Hn|Hs'].
  - unfold WarmupCapForStage in *. destruct (Z.ltb_spec s 0); [|lia].
    destruct (Z.ltb_spec (s + 1) 0) as [|H0]; [vm_compute; split; [done|discriminate]|].
    replace (s + 1) with 0 by lia. vm_compute. split; [done|discriminate].
  - repeat (destruct Hs' as [->|Hs']; [vm_compute; split; [done|discriminate]|]). subst. vm_compute. split; [done|discriminate].
Qed.

Lemma effectiveCap_spec e w : 0 <= e -> 0 <= w ->
  (effectiveCap e w = 0 <-> e = 0 /\ w = 0) /\
  (forall n, effectiveCap e w <> 0 -> n <= effectiveCap e w <-> (e = 0 \/ n <= e) /\ (w = 0 \/ n <= w)).
Proof.
  intros He Hw. unfold effectiveCap. destruct (Z.eqb_spec e 0), (Z.eqb_spec w 0); subst; split; try lia.
  all: destruct (Z.ltb_spec e w); lia.
Qed.

Lemma stage_cap_nonneg s : 0 <= WarmupCapForStage s.
Proof. destruct (stage_cap_cases s) as [[_ ->]|[_ ?]]; lia. Qed.

Lemma within_spec a : 0 <= ip_daily_cap a ->
  within a <-> (ip_daily_cap a = 0 \/ ip_sent_today a <= ip_daily_cap a) /\
               (WarmupCapForStage (ip_stage a) = 0 \/ ip_sent_today a <= WarmupCapForStage (ip_stage a)).
Proof.
  intros Hd. destruct (effectiveCap_spec (ip_daily_cap a) (WarmupCapForStage (ip_stage a)) Hd (stage_cap_nonneg _)) as [H0 Hn].
  unfold within, cap_of. destruct (decide (effectiveCap (ip_daily_cap a) (WarmupCapForStage (ip_stage a)) = 0)) as [E|E].
  - apply H0 in E as E'. lia.
  - specialize (Hn (ip_sent_today a) E). tauto.
Qed.

Lemma within_step a : 0 <= ip_daily_cap a -> within a -> within (ip_set_stage (ip_stage a + 1) a).
Proof.
  intros Hd Hw. apply (within_spec a Hd) in Hw as [H1 H2]. apply within_spec; [done|]. simpl. split; [done|].
  destruct (stage_cap_step (ip_stage a)); [by left|]. destruct H2; lia.
Qed.

Lemma within_reset a : 0 <= ip_daily_cap a -> within (ip_set_sent 0 a).
Proof. intros Hd. apply within_spec; [done|]. simpl. pose proof (stage_cap_nonneg (ip_stage a)). lia. Qed.

Lemma bigint_eq z v : IpRouter.bigint z = Ok v -> v = z.
Proof. unfold IpRouter.bigint. destruct (is_i64 z); [|done]. by intros [= <-]. Qed.

Lemma alter_as_insert {V} (f : V -> V) (k : Z) (m : gmap Z V) v : m !! k = Some v -> alter f k m = <[k:=f v]> m.
Proof.
  intros Hk. apply map_eq. intros j. destruct (decide (k = j)) as [->|Hne].
  - by rewrite lookup_alter_eq, lookup_insert_eq, Hk.
  - by rewrite lookup_alter_ne, lookup_insert_ne.
Qed.

(** ** The choice *)

Lemma choose_spec l : match choose l with
  | None => Forall (fun c => at_cap (c_addr c) = true) l
  | Some c => exists pre post, l = pre ++ c :: post /\ at_cap (c_addr c) = false /\
                Forall (fun c => at_cap (c_addr c) = true) pre
  end.
Proof.
  induction l as [|c l IH]; simpl; [constructor|]. destruct (at_cap (c_addr c)) eqn:E.
  - destruct (choose l) as [c'|]; [|by constructor]. destruct IH as (pre & post & -> & Hc & Hp).
    exists (c :: pre), post. split; [done|]. split; [done|]. by constructor.
  - exists [], l. split; [done|]. split; [done|constructor].
Qed.

Section Leases.
Context `{PgSortLaws}.

(** The addresses a tenant may send from: in a pool assigned to it that is not
    the penalty pool, not locked by a concurrent lease, and below the cap. *)
Definition assigned (t : Z) (st : IpDB) (c : cand) : Prop :=
  i_addrs st !! c_id c = Some (c_addr c) /\
  i_assign st !! (t, ip_pool (c_addr c)) = Some (c_dedicated c) /\
  exists purpose, i_pools st !! ip_pool (c_addr c) = Some purpose /\ purpose <> "penalty"%string.
Definition eligible (t : Z) (locked : gset Z) (st : IpDB) (c : cand) : Prop :=
  assigned t st c /\ c_id c ∉ locked /\ at_cap (c_addr c) = false.

Lemma join_row_spec t st c i a : join_row t st (i, a) = Some c <->
  c = mkCand i a (c_dedicated c) /\ i_assign st !! (t, ip_pool a) = Some (c_dedicated c) /\
  exists purpose, i_pools st !! ip_pool a = Some purpose /\ purpose <> "penalty"%string.
Proof.
  unfold join_row. simpl. split.
  - destruct (i_assign st !! _) as [d|]; [|done]. destruct (i_pools st !! _) as [p|]; [|done].
    destruct (String.eqb_spec p "penalty"); [done|]. intros [= <-]. simpl. eauto.
  - intros (Hc & -> & p & -> & Hp). destruct (String.eqb_spec p "penalty"); [done|]. by rewrite Hc at 2.
Qed.

Lemma candidates_spec t locked st c : c ∈ candidates t locked st <-> assigned t st c /\ c_id c ∉ locked.
Proof.
  unfold candidates, assigned. rewrite list_elem_of_filter, sort_rows_perm, list_elem_of_omap. split.
  - intros [Hl ([i a] & Hin & Hj)]. apply elem_of_map_to_list in Hin. apply join_row_spec in Hj as (Hc & Ha & Hp).
    destruct c as [i' a' d]. simpl in *. injection Hc as -> ->. tauto.
  - intros [(Hi & Ha & Hp) Hl]. split; [done|]. exists (c_id c, c_addr c). rewrite elem_of_map_to_list. split; [done|].
    apply join_row_spec. split; [by destruct c|tauto].
Qed.

Lemma cand_le_total x y : cand_le x y = true \/ cand_le y x = true.
Proof. unfold cand_le. destruct (c_dedicated x), (c_dedicated y); simpl; rewrite ?Z.leb_le; try lia; by (left + right). Qed.

Lemma cand_le_trans x y z : cand_le x y = true -> cand_le y z = true -> cand_le x z = true.
Proof.
  unfold cand_le. destruct (c_dedicated x), (c_dedicated y), (c_dedicated z); simpl; rewrite ?Z.leb_le; try done; lia.
Qed.

Lemma candidates_sorted t locked st : StronglySorted (fun x y => cand_le x y = true) (candidates t locked st).
Proof. apply sorted_filter, sort_rows_sorted; [apply cand_le_total|apply cand_le_trans]. Qed.

(** A lease is the best address the tenant may use: it is one of its
    eligible addresses, every other eligible one is not better - a dedicated pool
    comes first, then the address with fewer sends today - and that address's
    counter, nothing else, goes up by one.  Without an eligible address the lease is
    refused and nothing changes. *)
Theorem lease_best (t : Z) (locked : gset Z) (st : IpDB) :
  match LeaseSourceIP t locked st with
  | (Ok ip, st') =>
      exists c, eligible t locked st c /\ l_ID ip = c_id c /\
        (forall c', eligible t locked st c' -> cand_le c c' = true) /\
        st' = set_addrs (<[c_id c := ip_set_sent (ip_sent_today (c_addr c) + 1) (c_addr c)]> (i_addrs st)) st
  | (Err ErrNoSourceIP, st') => st' = st /\ forall c, ~ eligible t locked st c
  | (Err _, st') => st' = st /\ exists c, eligible t locked st c /\ is_i64 (ip_sent_today (c_addr c) + 1) = false
  end.
Proof.
  unfold LeaseSourceIP. pose proof (choose_spec (candidates t locked st)) as Hch.
  destruct (choose _) as [c|].
  - destruct Hch as (pre & post & Hl & Hc & Hpre).
    assert (Hel : eligible t locked st c).
    { assert (Hin : c ∈ candidates t locked st) by (rewrite Hl; set_solver). apply candidates_spec in Hin.
      by destruct Hin. }
    unfold IpRouter.bigint. destruct (is_i64 _) eqn:Eb; [|by split; [done|exists c]].
    exists c. split; [done|]. split; [done|]. split.
    + intros c' (Hc' & Hlk & Hcap). assert (Hin : c' ∈ candidates t locked st) by by apply candidates_spec.
      rewrite Hl in Hin. pose proof (candidates_sorted t locked st) as Hs. rewrite Hl in Hs.
      apply StronglySorted_app in Hs as (_ & _ & Hs). apply StronglySorted_inv in Hs as [_ Hs].
      apply elem_of_app in Hin as [Hin|[->|Hin]%elem_of_cons].
      * apply (proj1 (Forall_forall _ _) Hpre) in Hin. by rewrite Hin in Hcap.
      * by destruct (cand_le_total c c).
      * by apply (proj1 (Forall_forall _ _) Hs).
    + f_equal. destruct Hel as ((Hi & _) & _). by apply alter_as_insert.
  - split; [done|]. intros c (Hc & Hlk & Hcap). assert (Hin : c ∈ candidates t locked st) by by apply candidates_spec.
    apply (proj1 (Forall_forall _ _) Hch) in Hin. by rewrite Hin in Hcap.
Qed.

(** What a lease does to the table. *)
Lemma lease_effect t locked st : (LeaseSourceIP t locked st).2 = st \/
  exists c, (LeaseSourceIP t locked st).1 = Ok (mkLeased (c_id c) (strip_prefix_len (ip_text (c_addr c))) (default EmptyString (ip_ptr (c_addr c)))) /\
    assigned t st c /\ at_cap (c_addr c) = false /\
    (LeaseSourceIP t locked st).2 = set_addrs (<[c_id c := ip_set_sent (ip_sent_today (c_addr c) + 1) (c_addr c)]> (i_addrs st)) st.
Proof.
  unfold LeaseSourceIP. pose proof (choose_spec (candidates t locked st)) as Hch. destruct (choose _) as [c|]; [|by left].
  destruct Hch as (pre & post & Hl & Hc & _).
  assert (Hin : c ∈ candidates t locked st) by (rewrite Hl; set_solver). apply candidates_spec in Hin as [Ha _].
  destruct (IpRouter.bigint _) as [n|] eqn:En; [|by left]. apply bigint_eq in En. subst n. right. exists c. simpl.
  split; [done|]. split; [done|]. split; [done|]. f_equal. apply alter_as_insert. by destruct Ha.
Qed.

(** ** Along a run *)

(** Per address, what an operation other than a lease may do. *)
Lemma ips_ok_map f st : (forall a, 0 <= ip_daily_cap a -> within a -> 0 <= ip_daily_cap (f a) /\ within (f a)) ->
  ips_ok st -> ips_ok (set_addrs (f <$> i_addrs st) st).
Proof.
  intros Hf Hok id a. simpl. rewrite lookup_fmap, fmap_Some. intros (a0 & Ha & ->). destruct (Hok _ _ Ha). by apply Hf.
Qed.

Lemma ips_ok_insert id a st : 0 <= ip_daily_cap a -> within a -> ips_ok st -> ips_ok (set_addrs (<[id := a]> (i_addrs st)) st).
Proof. intros Hd Hw Hok id' a'. simpl. rewrite lookup_insert_Some. intros [[<- <-]|[_ Ha]]; [done|by apply (Hok id')]. Qed.

Lemma due_step_ok a : 0 <= ip_daily_cap a -> within a ->
  0 <= ip_daily_cap (if warmup_due a then ip_set_stage (ip_stage a + 1) a else a) /\
  within (if warmup_due a then ip_set_stage (ip_stage a + 1) a else a).
Proof. intros Hd Hw. destruct (warmup_due a); [split; [done|by apply within_step]|done]. Qed.

Lemma step_ok o st : ips_ok st -> ips_ok (ip_step o st).
Proof.
  intros Hok. destruct o as [t locked| |today|id| |id]; simpl.
  - destruct (lease_effect t locked st) as [->|(c & _ & (Hi & _) & Hc & ->)]; [done|].
    destruct (Hok _ _ Hi) as [Hd Hw]. apply ips_ok_insert; [done| |done].
    unfold within, at_cap, cap_of in *. simpl. revert Hc.
    destruct (Z.eqb_spec (effectiveCap (ip_daily_cap (c_addr c)) (WarmupCapForStage (ip_stage (c_addr c)))) 0); [by left|].
    simpl. rewrite Z.leb_gt. lia.
  - apply ips_ok_map; [|done]. intros a Hd Hw. split; [done|by apply within_reset].
  - unfold RunDailyMaintenance. destruct (match _ with None => true | _ => _ end); [|done]. simpl.
    set (st' := set_addrs (_ <$> i_addrs st) _). apply (ips_ok_map (ip_set_sent 0) st').
    + intros a Hd Hw. split; [done|by apply within_reset].
    + exact (ips_ok_map _ st due_step_ok Hok).
  - unfold AdvanceWarmup, or_unchanged. destruct (i_addrs st !! id) as [a|] eqn:E; [|done].
    unfold int4. destruct (_ && _); [|done]. simpl. destruct (Hok _ _ E) as [Hd Hw].
    apply ips_ok_insert; [done|by apply within_step|done].
  - exact (ips_ok_map _ st due_step_ok Hok).
  - unfold EvictToPenalty, or_unchanged. destruct (i_addrs st !! id) as [a|] eqn:E; [|done].
    destruct (penalty_pool st); [|done]. destruct (Hok _ _ E) as [Hd Hw]. by apply ips_ok_insert.
Qed.

Lemma run_ok l st : ips_ok st -> ips_ok (ip_run l st).
Proof. revert st. induction l as [|o l IH]; intros st Hok; [done|]. by apply IH, step_ok. Qed.

(** How often an address is leased along a run. *)
Fixpoint leases (id : Z) (l : list ip_op) (st : IpDB) : Z :=
  match l with
  | [] => 0
  | o :: l =>
      (match o with
       | OpLease t locked =>
           match (LeaseSourceIP t locked st).1 with Ok ip => if l_ID ip =? id then 1 else 0 | Err _ => 0 end
       | _ => 0
       end) + leases id l (ip_step o st)
  end.

(** The operations that start a new day. *)
Definition new_day (o : ip_op) : bool := match o with OpReset | OpMaintain _ => true | _ => false end.

Lemma step_sent o st id a : new_day o = false -> i_addrs st !! id = Some a ->
  exists a', i_addrs (ip_step o st) !! id = Some a' /\
    ip_sent_today a' = ip_sent_today a + leases id [o] st.
Proof.
  intros Hn Ha. destruct o as [t locked| |today|id'| |id']; simpl in *; try done.
  - destruct (lease_effect t locked st) as [E|(c & E1 & (Hi & _) & _ & E2)].
    + assert (Hz : match (LeaseSourceIP t locked st).1 with Ok ip => if l_ID ip =? id then 1 else 0 | Err _ => 0 end = 0).
      { unfold LeaseSourceIP in *. destruct (choose _) as [c|] eqn:Ec; [|done].
        destruct (IpRouter.bigint _) as [n|] eqn:En; [|done]. simpl in *. apply bigint_eq in En.
        destruct (Z.eqb_spec (c_id c) id) as [<-|]; [|done]. apply (f_equal i_addrs) in E. simpl in E.
        pose proof (choose_spec (candidates t locked st)) as Hch. rewrite Ec in Hch.
        destruct Hch as (pre & post & Hl & _ & _).
        assert (Hin : c ∈ candidates t locked st) by (rewrite Hl; set_solver).
        apply candidates_spec in Hin as [(Hi & _) _]. rewrite <- E, lookup_alter_eq, Hi in Ha. simpl in Ha.
        assert (Hi' : i_addrs st !! c_id c = Some (ip_set_sent n (c_addr c))) by (by rewrite <- E, lookup_alter_eq, Hi).
        rewrite Hi in Hi'. injection Hi' as Hi'. apply (f_equal ip_sent_today) in Hi'. simpl in Hi'. lia. }
      rewrite E, Hz. exists a. split; [done|lia].
    + rewrite E1, E2. simpl. destruct (Z.eqb_spec (c_id c) id) as [<-|Hne].
      * rewrite lookup_insert_eq. eexists. split; [done|]. simpl. replace a with (c_addr c) by congruence. lia.
      * rewrite lookup_insert_ne by done. exists a. split; [done|lia].
  - unfold AdvanceWarmup, or_unchanged. destruct (i_addrs st !! id') as [b|] eqn:E; [|exists a; split; [done|lia]].
    unfold int4. destruct (_ && _); [|exists a; split; [done|lia]]. simpl.
    destruct (decide (id' = id)) as [->|Hne]; [rewrite lookup_insert_eq|rewrite lookup_insert_ne by done].
    + eexists. split; [done|]. simpl. replace b with a by congruence. lia.
    + exists a. split; [done|lia].
  - rewrite lookup_fmap, Ha. simpl. eexists. split; [done|]. destruct (warmup_due a); simpl; lia.
  - unfold EvictToPenalty, or_unchanged. destruct (i_addrs st !! id') as [b|] eqn:E; [|exists a; split; [done|lia]].
    destruct (penalty_pool st); [|exists a; split; [done|lia]]. simpl.
    destruct (decide (id' = id)) as [->|Hne]; [rewrite lookup_insert_eq|rewrite lookup_insert_ne by done].
    + eexists. split; [done|]. simpl. replace b with a by congruence. lia.
    + exists a. split; [done|lia].
Qed.

Lemma run_sent l st id a : Forall (fun o => new_day o = false) l -> i_addrs st !! id = Some a ->
  exists a', i_addrs (ip_run l st) !! id = Some a' /\ ip_sent_today a' = ip_sent_today a + leases id l st.
Proof.
  revert st a. induction l as [|o l IH]; intros st a Hl Ha; [exists a; split; [done|simpl; lia]|].
  apply Forall_cons in Hl as [Ho Hl]. destruct (step_sent o st id a Ho Ha) as (a1 & Ha1 & Hs1).
  destruct (IH _ _ Hl Ha1) as (a2 & Ha2 & Hs2). exists a2. split; [done|]. cbn [leases] in *. lia.
Qed.

(** No address is used beyond its cap: from a state where every counter is
    within its cap, along any run of leases by any tenants and deliverers, warm-up
    steps and evictions until the next day starts, a capped address is
    leased at most as often as its cap in force at the end leaves beyond what was
    already sent; and along any run at all the counters stay within. *)
Theorem caps_hold (l : list ip_op) (st : IpDB) (id : Z) (a : IpAddr) :
  ips_ok st -> i_addrs st !! id = Some a ->
  ips_ok (ip_run l st) /\
  (Forall (fun o => new_day o = false) l ->
   exists a', i_addrs (ip_run l st) !! id = Some a' /\
     (cap_of a' <> 0 -> ip_sent_today a + leases id l st <= cap_of a')).
Proof.
  intros Hok Ha. split; [by apply run_ok|]. intros Hl. destruct (run_sent l st id a Hl Ha) as (a' & Ha' & Hs).
  exists a'. split; [done|]. intros Hc. rewrite <- Hs. destruct (run_ok l st Hok id a' Ha') as [_ [?|?]]; [done|lia].
Qed.

(** ** Eviction *)

Lemma penalty_pool_spec st p : penalty_pool st = Some p -> i_pools st !! p = Some "penalty"%string.
Proof.
  unfold penalty_pool. revert p. apply (map_fold_weak_ind (fun acc (m : gmap Z string) => forall p, acc = Some p -> m !! p = Some "penalty"%string)); [done|].
  intros i x m acc Hi IH p. destruct (String.eqb_spec x "penalty") as [->|Hx].
  - destruct acc as [j|]; intros [= <-]; [|apply lookup_insert_eq].
    destruct (Z.min_spec j i) as [[Hlt ->]|[_ ->]]; [|apply lookup_insert_eq].
    rewrite lookup_insert_ne by lia. by apply IH.
  - intros Hp. rewrite lookup_insert_ne; [by apply IH|]. intros ->. apply IH in Hp. by rewrite Hi in Hp.
Qed.

Definition in_penalty (id : Z) (st : IpDB) : Prop :=
  exists a, i_addrs st !! id = Some a /\ i_pools st !! ip_pool a = Some "penalty"%string.

Lemma step_penalty o st id : in_penalty id st -> in_penalty id (ip_step o st).
Proof.
  intros (a & Ha & Hp).
  assert (Hmap : forall f, (forall a, ip_pool (f a) = ip_pool a) -> in_penalty id (set_addrs (f <$> i_addrs st) st)).
  { intros f Hf. exists (f a). simpl. rewrite lookup_fmap, Ha, Hf. done. }
  assert (Hins : forall k b v, i_addrs st !! k = Some b -> i_pools st !! ip_pool v = Some "penalty"%string \/ ip_pool v = ip_pool b ->
            in_penalty id (set_addrs (<[k := v]> (i_addrs st)) st)).
  { intros k b v Hk Hv. unfold in_penalty. simpl. destruct (decide (k = id)) as [->|Hne].
    - exists v. rewrite lookup_insert_eq. split; [done|]. destruct Hv as [|Hv]; [done|]. rewrite Hv. congruence.
    - exists a. by rewrite lookup_insert_ne. }
  assert (Hsame : in_penalty id st) by by exists a.
  assert (Hif : forall a, ip_pool (if warmup_due a then ip_set_stage (ip_stage a + 1) a else a) = ip_pool a).
  { intros a0. by destruct (warmup_due a0). }
  destruct o as [t locked| |today|id'| |id']; simpl.
  - destruct (lease_effect t locked st) as [->|(c & _ & (Hi & _) & _ & ->)]; [done|]. eapply Hins; [done|by right].
  - by apply Hmap.
  - unfold RunDailyMaintenance. destruct (match _ with None => true | _ => _ end); [|done]. simpl.
    exists (ip_set_sent 0 (if warmup_due a then ip_set_stage (ip_stage a + 1) a else a)). simpl.
    rewrite !lookup_fmap, Ha. simpl. by rewrite Hif.
  - unfold AdvanceWarmup, or_unchanged. destruct (i_addrs st !! id') as [b|] eqn:E; [|done].
    destruct (int4 _); [|done]. eapply Hins; [done|by right].
  - by apply Hmap.
  - unfold EvictToPenalty, or_unchanged. destruct (i_addrs st !! id') as [b|] eqn:E; [|done].
    destruct (penalty_pool st) as [p|] eqn:Ep; [|done]. eapply Hins; [done|]. left. by apply penalty_pool_spec.
Qed.

(** An evicted address stays out: once [EvictToPenalty] succeeded for an address,
    no later lease of any tenant returns it, whatever else happens to the tables. *)
Theorem evicted_never_leased (l : list ip_op) (st st' : IpDB) (id : Z) (a : IpAddr) :
  i_addrs st !! id = Some a -> EvictToPenalty id st = Ok st' -> leases id l st' = 0.
Proof.
  intros Ha He. assert (Hp : in_penalty id st').
  { unfold EvictToPenalty in He. rewrite Ha in He. destruct (penalty_pool st) as [p|] eqn:Ep; [|done].
    injection He as <-. exists (ip_set_pool p a). simpl. rewrite lookup_insert_eq. split; [done|]. by apply penalty_pool_spec. }
  clear He Ha. revert st' Hp. induction l as [|o l IH]; intros st' Hp; [done|]. cbn [leases].
  rewrite IH by (by apply step_penalty). destruct o as [t locked| | | | |]; try done.
  pose proof (lease_best t locked st') as Hb. destruct (LeaseSourceIP t locked st') as [[ip|e] st2]; [|done]. simpl.
  destruct Hb as (c & ((Hi & _ & p & Hpool & Hne) & _) & Hid & _). destruct (Z.eqb_spec (l_ID ip) id) as [E|]; [|done].
  destruct Hp as (b & Hb & Hpen). rewrite <- E, Hid, Hi in Hb. injection Hb as <-. congruence.
Qed.

(** ** Maintenance *)

(** The days on which the maintenance ran along a run. *)
Fixpoint maintained (l : list ip_op) (st : IpDB) : list Z :=
  match l with
  | [] => []
  | o :: l =>
      (match o with
       | OpMaintain today => if (RunDailyMaintenance today st).1.1 then [today] else []
       | _ => []
       end) ++ maintained l (ip_step o st)
  end.

Lemma step_marker o st : match o with OpMaintain _ => True | _ => i_marker (ip_step o st) = i_marker st end.
Proof.
  destruct o as [t locked| |today|id'| |id']; simpl; try done.
  - by destruct (lease_effect t locked st) as [->|(c & _ & _ & _ & ->)].
  - unfold AdvanceWarmup, or_unchanged. destruct (i_addrs st !! id'); [|done]. by destruct (int4 _).
  - unfold EvictToPenalty, or_unchanged. destruct (i_addrs st !! id'); [|done]. by destruct (penalty_pool st).
Qed.

(** The maintenance runs once a day: whichever nodes attempt it however often
    and whatever their clocks say, the days it actually ran on are strictly
    increasing; and a run advances each address by one stage if its counter
    reached the cap of its stage, by none otherwise, and clears every counter. *)
Theorem maintenance_once_a_day (l : list ip_op) (st : IpDB) (today : Z) :
  StronglySorted Z.lt (maintained l st) /\
  ((RunDailyMaintenance today st).1.1 = true -> forall id,
     i_addrs (RunDailyMaintenance today st).2 !! id =
       (fun a => ip_set_sent 0 (ip_set_stage (if warmup_due a then ip_stage a + 1 else ip_stage a) a)) <$> i_addrs st !! id).
Proof.
  split.
  - assert (G : StronglySorted Z.lt (maintained l st) /\
        Forall (fun d => forall last, i_marker st !! "ip_warmup"%string = Some last -> last < d) (maintained l st)).
    2: { by destruct G. }
    revert st. induction l as [|o l IH]; intros st; [split; constructor|]. cbn [maintained].
    destruct (IH (ip_step o st)) as [Hs Hf]. pose proof (step_marker o st) as Hm.
    destruct o as [t locked| |d|id'| |id']; try (rewrite Hm in Hf; done). clear Hm. simpl in Hf |- *. revert Hs Hf. simpl.
    unfold RunDailyMaintenance. destruct (match _ with None => true | _ => _ end) eqn:E; [|done]. simpl. intros Hs Hf.
    assert (Hlt : Forall (fun x => d < x) (maintained l (ip_step (OpMaintain d) st))).
    { simpl. unfold RunDailyMaintenance. rewrite E. simpl. eapply Forall_impl; [exact Hf|]. intros x Hx.
      apply Hx. apply lookup_insert_eq. }
    simpl in Hlt. unfold RunDailyMaintenance in Hlt. rewrite E in Hlt. simpl in Hlt. split; [by constructor|].
    assert (Hlast : forall last, i_marker st !! "ip_warmup"%string = Some last -> last < d).
    { intros last El. rewrite El in E. by apply Z.ltb_lt in E. }
    constructor; [done|]. eapply Forall_impl; [exact Hlt|]. intros x Hx last El. specialize (Hlast last El). simpl in Hx. lia.
  - unfold RunDailyMaintenance. destruct (match _ with None => true | _ => _ end); [|done]. intros _ id. simpl.
    rewrite !lookup_fmap. destruct (i_addrs st !! id) as [a|]; [|done]. simpl. by destruct (warmup_due a), a.
Qed.

End Leases.

(** ** Instances *)

Definition by_le (le : cand -> cand -> bool) (x y : cand) : Prop := le x y = true.
#[local] Instance by_le_dec le x y : Decision (by_le le x y).
Proof. unfold by_le. apply _. Defined.
#[local] Instance demo_sort : PgSort := { sort_rows := fun le l => merge_sort (by_le le) l }.
#[local] Instance demo_sort_laws : PgSortLaws.
Proof.
  split; intros le l.
  - apply merge_sort_Permutation.
  - intros Ht Htr. assert (Transitive (by_le le)) by exact Htr. assert (Total (by_le le)) by exact Ht.
    apply (StronglySorted_merge_sort (by_le le)).
Qed.

(** A dedicated address one send below the cap of its stage, a fresh shared one, and
    the penalty pool. *)
Definition demo_ips : IpDB :=
  mkIpDB {[10 := mkIp 1 "192.0.2.10/32" (Some "a.example"%string) 0 0 49; 11 := mkIp 2 "192.0.2.11" None 3 200 0]}
    {[1 := "dedicated"%string; 2 := "shared"%string; 3 := "penalty"%string]}
    {[(7, 1) := true; (7, 2) := false]} ∅.

Lemma demo_ips_ok : ips_ok demo_ips.
Proof.
  intros id a. unfold demo_ips. simpl. rewrite lookup_insert_Some. intros [[<- <-]|[_ [<- <-]%lookup_singleton_Some]].
  - split; [discriminate|]. right. vm_compute. discriminate.
  - split; [discriminate|]. right. vm_compute. discriminate.
Qed.

Lemma lease_best_witness : exists c, eligible 7 ∅ demo_ips c /\ c_id c = 10 /\
  (LeaseSourceIP 7 ∅ (LeaseSourceIP 7 ∅ demo_ips).2).1 = Ok (mkLeased 11 "192.0.2.11" EmptyString).
Proof.
  pose proof (lease_best 7 ∅ demo_ips) as Hb.
  assert (He : (LeaseSourceIP 7 ∅ demo_ips).1 = Ok (mkLeased 10 "192.0.2.10" "a.example")) by (vm_compute; reflexivity).
  destruct (LeaseSourceIP 7 ∅ demo_ips) as [r st'] eqn:E. simpl in He. subst r.
  destruct Hb as (c & Hc & Hid & _ & Hst). exists c. split; [exact Hc|]. simpl in Hid. split; [done|].
  change (LeaseSourceIP 7 ∅ (Ok (mkLeased 10 "192.0.2.10" "a.example"), st').2) with (LeaseSourceIP 7 ∅ st').
  replace st' with (LeaseSourceIP 7 ∅ demo_ips).2 by by rewrite E. vm_compute. reflexivity.
Defined.

Lemma caps_hold_witness :
  ips_ok (ip_run [OpLease 7 ∅; OpLease 7 ∅; OpMaintain 3] demo_ips) /\
  exists a', i_addrs (ip_run [OpLease 7 ∅; OpLease 7 ∅] demo_ips) !! 10 = Some a' /\
    (cap_of a' <> 0 -> 49 + leases 10 [OpLease 7 ∅; OpLease 7 ∅] demo_ips <= cap_of a').
Proof.
  split.
  - exact (proj1 (caps_hold [OpLease 7 ∅; OpLease 7 ∅; OpMaintain 3] demo_ips 10 _ demo_ips_ok eq_refl)).
  - refine (proj2 (caps_hold [OpLease 7 ∅; OpLease 7 ∅] demo_ips 10 (mkIp 1 "192.0.2.10/32" (Some "a.example"%string) 0 0 49)
              demo_ips_ok eq_refl) _).
    repeat constructor.
Defined.

Lemma evicted_never_leased_witness :
  leases 10 [OpLease 7 ∅; OpLease 7 ∅; OpReset; OpLease 7 {[11]}] (or_unchanged (EvictToPenalty 10 demo_ips) demo_ips) = 0.
Proof.
  refine (evicted_never_leased _ demo_ips _ 10 (mkIp 1 "192.0.2.10/32" (Some "a.example"%string) 0 0 49) _ _);
    vm_compute; reflexivity.
Defined.

Lemma maintenance_once_a_day_witness :
  maintained [OpMaintain 3; OpMaintain 3; OpMaintain 2; OpMaintain 5] demo_ips = [3; 5] /\
  i_addrs (RunDailyMaintenance 3 (LeaseSourceIP 7 ∅ demo_ips).2).2 !! 10
    = Some (mkIp 1 "192.0.2.10/32" (Some "a.example"%string) 1 0 0).
Proof.
  split; [vm_compute; reflexivity|].
  refine (eq_trans (proj2 (maintenance_once_a_day [] (LeaseSourceIP 7 ∅ demo_ips).2 3) _ 10) _); vm_compute; reflexivity.
Defined.
