(* ===== verification/Headers.v ===== *)
(** * Line endings and header fields

    [inbound.NormalizeEOL] and [parseHeaders] (mailflow/inbound), the Received count of
    the loop guard (protocol/smtpd/server.go), and the string functions of the
    standard library they call. *)

From S2P Require Import Prelude GoStrings.

(** ** Package strings *)

Definition CR : ascii := "013"%char.
Definition LF : ascii := "010"%char.
Definition HT : ascii := "009"%char.
Definition SP : ascii := " "%char.
Definition CRLF : list ascii := [CR; LF].

Definition starts (p l : list ascii) : bool := bool_decide (p `prefix_of` l).

(** [strings.Index], [strings.ReplaceAll] and [strings.Split] at a substring that is
    not empty; [k] characters of a match are still to be passed over. *)
Fixpoint index_l (p l : list ascii) : option nat :=
  if starts p l then Some 0%nat
  else match l with [] => None | _ :: l => S <$> index_l p l end.
Fixpoint replace_l (old new : list ascii) (k : nat) (l : list ascii) : list ascii :=
  match l with
  | [] => []
  | c :: l' =>
      match k with
      | S k => replace_l old new k l'
      | O => if starts old l then new ++ replace_l old new (length old - 1) l' else c :: replace_l old new 0 l'
      end
  end.
Definition cons_first (c : ascii) (ws : list (list ascii)) : list (list ascii) :=
  match ws with w :: ws => (c :: w) :: ws | [] => [[c]] end.
Fixpoint split_on (sep : list ascii) (k : nat) (l : list ascii) : list (list ascii) :=
  match l with
  | [] => [[]]
  | c :: l' =>
      match k with
      | S k => split_on sep k l'
      | O => if starts sep l then [] :: split_on sep (length sep - 1) l' else cons_first c (split_on sep 0 l')
      end
  end.
Definition ReplaceAll (l old new : list ascii) : list ascii := replace_l old new 0 l.
Definition Split (l sep : list ascii) : list (list ascii) := split_on sep 0 l.
(** [strings.TrimRight(s, cutset)]. *)
Definition trim_right {A} (f : A -> bool) (l : list A) : list A := rev (drop_while f (rev l)).

Definition is_eol (c : ascii) : bool := Ascii.eqb c CR || Ascii.eqb c LF.

(** ** Line endings *)

Fixpoint eol_loop (b : list ascii) : list ascii :=
  match b with
  | [] => []
  | c :: b =>
      if Ascii.eqb c CR then
        CR :: LF :: match b with
                    | d :: b' => if Ascii.eqb d LF then eol_loop b' else eol_loop b
                    | [] => []
                    end
      else if Ascii.eqb c LF then CR :: LF :: eol_loop b
      else c :: eol_loop b
  end.
Definition NormalizeEOL (b : list ascii) : list ascii :=
  if negb (existsb is_eol b) then b else eol_loop b.

(** ** Header fields *)

(** The header block, unfolded, as lines. *)
Definition header_block (s : list ascii) : list ascii :=
  match index_l (CRLF ++ CRLF) s with Some i => take i s | None => s end.
Definition unfold_lines (head : list ascii) : list (list ascii) :=
  Split (ReplaceAll (ReplaceAll head (CRLF ++ [HT]) [HT]) (CRLF ++ [SP]) [SP]) CRLF.

Section Fields.
Context `{Unicode}.

(** The field a line holds: the lower-cased name and the trimmed value. *)
Definition field_of (line : list ascii) : option (string * string) :=
  match index_byte ":"%char line with
  | None => None
  | Some i => Some (ToLower (trim_space (str_of (take i line))), trim_space (str_of (drop (S i) line)))
  end.

Definition parseHeaders (raw : list ascii) : gmap string string :=
  foldl (fun out line =>
    match field_of line with
    | None => out
    | Some (name, val) => match out !! name with Some _ => out | None => <[name := val]> out end
    end) ∅ (unfold_lines (header_block (NormalizeEOL raw))).

End Fields.

(** ** The loop guard *)

Definition received_name : list ascii := bytes_of "received:".

(** One round per line; the data is shorter by a line, so its length is enough fuel. *)
Fixpoint count_received (fuel : nat) (data : list ascii) (n : Z) : Z :=
  match fuel with
  | O => n
  | S fuel =>
      match data with
      | [] => n
      | _ =>
          let (line, rest) := match index_byte LF data with
                              | None => (data, [])
                              | Some j => (take j data, drop (S j) data)
                              end in
          match trim_right (fun c => Ascii.eqb c CR) line with
          | [] => n
          | c :: line' =>
              if Ascii.eqb c SP || Ascii.eqb c HT then count_received fuel rest n
              else if (9 <=? length (c :: line'))%nat && bool_decide (lower_ascii <$> take 9 (c :: line') = received_name)
              then count_received fuel rest (n + 1)
              else count_received fuel rest n
          end
      end
  end.
Definition countReceivedHeaders (data : list ascii) : Z := count_received (length data) data 0.

(** ** Line endings and header fields: what the scanners see *)

(** The lines of a text, whichever of CRLF, CR and LF ends each of them. *)
Fixpoint any_lines (b : list ascii) : list (list ascii) :=
  match b with
  | [] => [[]]
  | c :: b =>
      if Ascii.eqb c CR then
        [] :: match b with
              | d :: b' => if Ascii.eqb d LF then any_lines b' else any_lines b
              | [] => [[]]
              end
      else if Ascii.eqb c LF then [] :: any_lines b
      else cons_first c (any_lines b)
  end.

(** Every CR is followed by an LF and every LF follows a CR. *)
Fixpoint canonical (b : list ascii) : bool :=
  match b with
  | [] => true
  | c :: b =>
      if Ascii.eqb c CR then
        match b with
        | d :: b' => Ascii.eqb d LF && canonical b'
        | [] => false
        end
      else negb (Ascii.eqb c LF) && canonical b
  end.

(** Induction along [eol_loop]: a CRLF goes in one step. *)
Lemma eol_ind (P : list ascii -> Prop) :
  P [] ->
  (forall b, P b -> P (CR :: LF :: b)) ->
  (forall b, match b with d :: _ => d <> LF | [] => True end -> P b -> P (CR :: b)) ->
  (forall b, P b -> P (LF :: b)) ->
  (forall c b, c <> CR -> c <> LF -> P b -> P (c :: b)) ->
  forall b, P b.
Proof.
  intros H0 H1 H2 H3 H4 b. remember (length b) as n eqn:Hn. revert b Hn.
  induction (lt_wf n) as [n _ IH]. intros [|c b] ->; [done|].
  assert (Hr : forall b', (length b' < length (c :: b))%nat -> P b') by (intros b' Hb; by apply (IH (length b'))).
  destruct (decide (c = CR)) as [->|Hcr]; [|destruct (decide (c = LF)) as [->|Hlf]].
  - destruct b as [|d b']; [by apply H2; [|apply Hr; simpl; lia]|].
    destruct (decide (d = LF)) as [->|Hd]; [apply H1, Hr; simpl; lia|apply H2; [done|apply Hr; simpl; lia]].
  - apply H3, Hr. simpl. lia.
  - apply H4; [done|done|]. apply Hr. simpl. lia.
Qed.

Lemma eol_cr_other b : match b with d :: _ => d <> LF | [] => True end -> eol_loop (CR :: b) = CR :: LF :: eol_loop b.
Proof. destruct b as [|d b]; [done|]. intros Hd. simpl. by destruct (Ascii.eqb_spec d LF). Qed.

Lemma eol_other c b : c <> CR -> c <> LF -> eol_loop (c :: b) = c :: eol_loop b.
Proof. intros Hc Hl. simpl. by destruct (Ascii.eqb_spec c CR), (Ascii.eqb_spec c LF). Qed.

Lemma split_crlf b : Split (CR :: LF :: b) CRLF = [] :: Split b CRLF.
Proof. done. Qed.

Lemma split_other c b : c <> CR -> Split (c :: b) CRLF = cons_first c (Split b CRLF).
Proof.
  intros Hc. unfold Split. simpl. unfold starts. rewrite bool_decide_eq_false_2; [done|].
  intros [k Hk]. injection Hk as Hk _. done.
Qed.

Lemma split_eol b : Split (eol_loop b) CRLF = any_lines b.
Proof.
  induction b as [|b IH|b Hb IH|b IH|c b Hc Hl IH] using eol_ind; [done| | | |].
  - change (eol_loop (CR :: LF :: b)) with (CR :: LF :: eol_loop b). by rewrite split_crlf, IH.
  - rewrite eol_cr_other, split_crlf, IH by done. destruct b as [|d b]; [done|]. simpl.
    by destruct (Ascii.eqb_spec d LF).
  - change (eol_loop (LF :: b)) with (CR :: LF :: eol_loop b). by rewrite split_crlf, IH.
  - rewrite eol_other, split_other, IH by done. simpl. by destruct (Ascii.eqb_spec c CR), (Ascii.eqb_spec c LF).
Qed.

Lemma canonical_eol b : canonical (eol_loop b) = true.
Proof.
  induction b as [|b IH|b Hb IH|b IH|c b Hc Hl IH] using eol_ind; [done|done| |done|].
  - by rewrite eol_cr_other.
  - rewrite eol_other by done. simpl. by destruct (Ascii.eqb_spec c CR), (Ascii.eqb_spec c LF).
Qed.

Lemma eol_canonical b : canonical b = true -> eol_loop b = b.
Proof.
  induction b as [|b IH|b Hb IH|b IH|c b Hc Hl IH] using eol_ind; [done| | |done|].
  - simpl. intros Hb. by rewrite IH.
  - simpl. destruct b as [|d b]; [done|]. by destruct (Ascii.eqb_spec d LF).
  - rewrite eol_other by done. simpl. destruct (Ascii.eqb_spec c CR), (Ascii.eqb_spec c LF); try done.
    intros Hb. simpl in Hb. by rewrite IH.
Qed.

Lemma no_eol_canonical b : existsb is_eol b = false -> canonical b = true.
Proof.
  induction b as [|c b IH]; [done|]. simpl. unfold is_eol at 1. destruct (Ascii.eqb c CR); [done|].
  destruct (Ascii.eqb c LF); [done|]. simpl. auto.
Qed.

Lemma NormalizeEOL_loop b : NormalizeEOL b = eol_loop b.
Proof.
  unfold NormalizeEOL. destruct (existsb is_eol b) eqn:E; [done|]. symmetry. by apply eol_canonical, no_eol_canonical.
Qed.

(** The scanners see every line: whatever mixture of CRLF, bare LF and bare CR a
    message arrives with, splitting its normalised form at CRLF yields the lines
    that any of the three ends; the result has no bare CR or LF, and a message that
    had none is returned as it is. *)
Theorem normalize_eol (b : list ascii) :
  Split (NormalizeEOL b) CRLF = any_lines b /\
  canonical (NormalizeEOL b) = true /\
  (canonical b = true -> NormalizeEOL b = b).
Proof. rewrite NormalizeEOL_loop. split; [apply split_eol|]. split; [apply canonical_eol|apply eol_canonical]. Qed.

Lemma normalize_eol_witness : NormalizeEOL (bytes_of "a" ++ CRLF ++ bytes_of "b") = bytes_of "a" ++ CRLF ++ bytes_of "b".
Proof. refine (proj2 (proj2 (normalize_eol (bytes_of "a" ++ CRLF ++ bytes_of "b"))) _). reflexivity. Defined.

(** ** Counting hops *)

Lemma count_received_acc fuel data n : count_received fuel data n = n + count_received fuel data 0.
Proof.
  revert data n. induction fuel as [|fuel IH]; intros data n; simpl; [lia|]. destruct data as [|c data]; [lia|].
  destruct (match index_byte LF (c :: data) with None => _ | Some _ => _ end) as [line rest].
  destruct (trim_right _ line) as [|d line']; [lia|]. destruct (_ || _); [apply IH|].
  destruct (_ && _); [|apply IH]. rewrite IH, (IH _ (0 + 1)). lia.
Qed.

Lemma index_byte_lt c l i : index_byte c l = Some i -> (i < length l)%nat.
Proof.
  revert i. induction l as [|x l IH]; intros i; simpl; [done|]. destruct (Ascii.eqb x c); [intros [= <-]; lia|].
  destruct (index_byte c l) as [j|]; [|done]. intros [= <-]. specialize (IH _ eq_refl). lia.
Qed.

(** The data is enough fuel. *)
Lemma count_received_fuel fuel data n :
  (length data <= fuel)%nat -> count_received fuel data n = count_received (length data) data n.
Proof.
  assert (G : forall k f1 f2 data n, (length data <= k)%nat -> (length data <= f1)%nat -> (length data <= f2)%nat ->
            count_received f1 data n = count_received f2 data n).
  2:{ intros Hf. by apply (G (length data)). }
  clear. induction k as [|k IH]; intros f1 f2 [|c data] n Hk H1 H2; simpl in Hk; try lia.
  1,2: by destruct f1, f2.
  destruct f1 as [|f1], f2 as [|f2]; simpl in H1, H2; try lia. cbn [count_received].
  destruct (match index_byte LF (c :: data) with None => _ | Some _ => _ end) as [line rest] eqn:E.
  assert (Hr : (length rest <= length data)%nat).
  { destruct (index_byte LF (c :: data)) as [j|] eqn:Ej; injection E as <- <-; simpl; rewrite ?length_drop; lia. }
  destruct (trim_right _ line) as [|d line']; [done|]. destruct (_ || _); [apply IH; lia|].
  destruct (_ && _); apply IH; lia.
Qed.

Lemma count_line line data :
  LF ∉ line -> trim_right (fun c => Ascii.eqb c CR) line <> [] ->
  countReceivedHeaders (line ++ LF :: data) =
    countReceivedHeaders data +
    match trim_right (fun c => Ascii.eqb c CR) line with
    | [] => 0
    | c :: l => if Ascii.eqb c SP || Ascii.eqb c HT then 0
                else if (9 <=? length (c :: l))%nat && bool_decide (lower_ascii <$> take 9 (c :: l) = received_name) then 1 else 0
    end.
Proof.
  intros Hlf Hne. unfold countReceivedHeaders.
  assert (Hi : index_byte LF (line ++ LF :: data) = Some (length line)).
  { clear Hne. induction line as [|c line IH]; [done|]. apply not_elem_of_cons in Hlf as [Hc Hl]. simpl.
    destruct (Ascii.eqb_spec c LF); [congruence|]. by rewrite IH. }
  rewrite <- (count_received_fuel (S (length (line ++ LF :: data)))) by lia. cbn [count_received].
  destruct (line ++ LF :: data) as [|c0 l0] eqn:El; [by destruct line|]. rewrite <- El in *. clear El.
  rewrite Hi. rewrite take_app_length.
  replace (drop (S (length line)) (line ++ LF :: data)) with data.
  2:{ rewrite cons_middle, app_assoc, drop_app_length'; [done|]. rewrite length_app. simpl. lia. }
  assert (Hf : forall n, count_received (length (line ++ LF :: data)) data n = n + count_received (length data) data 0).
  { intros n. rewrite count_received_fuel by (rewrite length_app; simpl; lia). apply count_received_acc. }
  destruct (trim_right _ line) as [|c l] eqn:Et; [done|]. rewrite !Hf. destruct (_ || _); [lia|]. destruct (_ && _); lia.
Qed.

(** A line that belongs to the field before it. *)
Definition continuation (line : list ascii) : bool :=
  match line with c :: _ => Ascii.eqb c SP || Ascii.eqb c HT | [] => false end.

Definition terminated (lines : list (list ascii)) (data : list ascii) : list ascii :=
  foldr (fun line acc => line ++ LF :: acc) data lines.

(** The hop count sees every relay: prepending a trace field - a line that begins
    with [Received:], its continuation lines, with or without a CR before each
    LF - raises the count by exactly one, so a message that circulates reaches any
    bound on the count. *)
Theorem hop_adds_one (first : list ascii) (more : list (list ascii)) (data : list ascii) :
  LF ∉ first -> lower_ascii <$> take 9 first = received_name ->
  Forall (fun line => LF ∉ line /\ continuation (trim_right (fun c => Ascii.eqb c CR) line) = true) more ->
  countReceivedHeaders (terminated (first :: more) data) = countReceivedHeaders data + 1.
Proof.
  intros Hlf Hname Hmore. simpl.
  assert (Hm : countReceivedHeaders (terminated more data) = countReceivedHeaders data).
  { induction Hmore as [|line more [Hl Hc] Hmore IH]; [done|]. simpl. rewrite count_line; [|done|by intros E; rewrite E in Hc].
    rewrite IH. destruct (trim_right _ line) as [|c l]; [done|]. simpl in Hc. rewrite Hc. lia. }
  assert (Ht : exists rest, trim_right (fun c => Ascii.eqb c CR) first = take 9 first ++ rest /\ length (take 9 first) = 9%nat).
  { assert (Hlen : length (take 9 first) = 9%nat) by (by rewrite <- (length_fmap lower_ascii), Hname).
    exists (trim_right (fun c => Ascii.eqb c CR) (drop 9 first)). split; [|done].
    rewrite <- (take_drop 9 first) at 1. unfold trim_right. rewrite rev_app_distr.
    assert (Hd : forall (f : ascii -> bool) l k, match k with x :: _ => f x = false | [] => True end ->
               drop_while f (l ++ k) = drop_while f l ++ k).
    { intros f l k Hk. induction l as [|x l IH]; simpl; [|by destruct (f x)]. destruct k as [|y k]; [done|]. simpl. by rewrite Hk. }
    rewrite Hd; [by rewrite rev_app_distr, rev_involutive|].
    destruct first as [|a1 [|a2 [|a3 [|a4 [|a5 [|a6 [|a7 [|a8 [|a9 first]]]]]]]]]; try done. simpl in *.
    destruct (Ascii.eqb_spec a9 CR) as [->|]; [done|done]. }
  destruct Ht as (rest & Ht & Hlen).
  rewrite count_line; [|done|rewrite Ht; intros E; by destruct (take 9 first)]. rewrite Hm, Ht.
  destruct (take 9 first) as [|c l] eqn:E9; [done|]. cbn [app].
  assert (Hc : Ascii.eqb c SP || Ascii.eqb c HT = false).
  { destruct (Ascii.eqb_spec c SP) as [->|]; [done|]. by destruct (Ascii.eqb_spec c HT) as [->|]. }
  rewrite Hc. assert (Hle : (9 <=? length (c :: l ++ rest))%nat = true).
  { apply Nat.leb_le. simpl in *. rewrite length_app. lia. }
  rewrite Hle. assert (Htk : take 9 (c :: l ++ rest) = c :: l).
  { change (take 9 ((c :: l) ++ rest) = c :: l). by rewrite <- Hlen, take_app_length. }
  rewrite Htk, bool_decide_eq_true_2 by done. simpl. lia.
Qed.

Lemma hop_adds_one_witness :
  countReceivedHeaders (terminated [bytes_of "RECEIVED: from a" ++ [CR]; HT :: bytes_of "for <b@c>" ++ [CR]]
    (bytes_of "Received: x" ++ [LF; LF] ++ bytes_of "received: body")) = 2.
Proof.
  refine (hop_adds_one (bytes_of "RECEIVED: from a" ++ [CR]) [HT :: bytes_of "for <b@c>" ++ [CR]]
            (bytes_of "Received: x" ++ [LF; LF] ++ bytes_of "received: body") _ _ _).
  - apply (bool_decide_unpack _). vm_compute. exact I.
  - reflexivity.
  - constructor; [|constructor]. split; [apply (bool_decide_unpack _); vm_compute; exact I|reflexivity].
Defined.
