(* ===== verification/Net.v ===== *)
(** * net.IP of the standard library

    An address is a list of bytes: four, or sixteen with the IPv4 addresses
    embedded under ::ffff:0:0/96; [nil] is the empty list. *)

From S2P Require Import Prelude GoStrings Strconv.

Definition IP : Type := list Z.

Definition v4_prefix : IP := replicate 10 0 ++ [255; 255].
Definition To4 (ip : IP) : option IP :=
  if Nat.eqb (length ip) 4 then Some ip
  else if Nat.eqb (length ip) 16 && bool_decide (take 12 ip = v4_prefix) then Some (drop 12 ip)
  else None.

(** [IP.Mask(CIDRMask(ones, 8 * length))] of an address of that length, a whole
    number of bytes of ones. *)
Definition mask_bytes (ones : nat) (ip : IP) : IP := take ones ip ++ replicate (length ip - ones) 0.

(** ** Text *)

Definition hex_digit (v : Z) : ascii := byte_char (if v <? 10 then 48 + v else 87 + v).
(** A 16-bit group without leading zeros. *)
Definition hex_group (g : Z) : list ascii :=
  let d3 := g / 4096 in let d2 := (g / 256) mod 16 in let d1 := (g / 16) mod 16 in let d0 := g mod 16 in
  if 0 <? d3 then [hex_digit d3; hex_digit d2; hex_digit d1; hex_digit d0]
  else if 0 <? d2 then [hex_digit d2; hex_digit d1; hex_digit d0]
  else if 0 <? d1 then [hex_digit d1; hex_digit d0]
  else [hex_digit d0].

Fixpoint groups (ip : IP) : list Z :=
  match ip with
  | a :: b :: ip => 256 * a + b :: groups ip
  | _ => []
  end.

(** The length of the run of zero groups a list starts with. *)
Fixpoint zero_run (gs : list Z) : nat :=
  match gs with
  | g :: gs => if g =? 0 then S (zero_run gs) else O
  | [] => O
  end.
(** The first longest run of at least two zero groups: where it starts and how long it is. *)
Fixpoint longest_run (i : nat) (gs : list Z) (best : nat * nat) : nat * nat :=
  match gs with
  | [] => best
  | _ :: gs' =>
      let l := zero_run gs in
      longest_run (S i) gs' (if ((2 <=? l) && (snd best <? l))%nat then (i, l) else best)
  end.
Definition join_colon (gs : list Z) : list ascii := join_l ":"%char (hex_group <$> gs).
Definition v6_string (ip : IP) : string :=
  let gs := groups ip in
  let '(at_, len) := longest_run 0 gs (O, O) in
  str_of (if Nat.eqb len 0 then join_colon gs
          else join_colon (take at_ gs) ++ [":"%char; ":"%char] ++ join_colon (drop (at_ + len) gs)).
Definition v4_string (ip : IP) : string := str_of (join_l "."%char ((fun b => bytes_of (FormatInt b)) <$> ip)).

(** [IP.String] of an address of four or sixteen bytes. *)
Definition ip_String (ip : IP) : string :=
  match To4 ip with Some v4 => v4_string v4 | None => v6_string ip end.

Example ip_strings :
  (ip_String [192; 0; 2; 0], ip_String (v4_prefix ++ [10; 0; 0; 1]),
   ip_String [32; 1; 13; 184; 0; 0; 0; 1; 0; 0; 0; 0; 0; 0; 0; 0], ip_String (replicate 16 0),
   ip_String (replicate 15 0 ++ [1]))
  = ("192.0.2.0", "10.0.0.1", "2001:db8:0:1::", "::", "::1")%string.
Proof. vm_compute. reflexivity. Qed.

(** ** Classes of addresses *)

Definition byte_at (i : nat) (ip : IP) : Z := nth i ip 0.
Definition v6 (ip : IP) : bool := Nat.eqb (length ip) 16.

(** [IP.Equal]: an IPv4 address equals its embedding. *)
Definition ip_Equal (x y : IP) : bool :=
  match To4 x, To4 y with
  | Some a, Some b => bool_decide (a = b)
  | None, None => bool_decide (x = y)
  | _, _ => false
  end.

Definition IsUnspecified (ip : IP) : bool := ip_Equal ip [0; 0; 0; 0] || ip_Equal ip (replicate 16 0).
Definition IsLoopback (ip : IP) : bool :=
  match To4 ip with
  | Some a => byte_at 0 a =? 127
  | None => ip_Equal ip (replicate 15 0 ++ [1])
  end.
Definition IsPrivate (ip : IP) : bool :=
  match To4 ip with
  | Some a =>
      (byte_at 0 a =? 10) || ((byte_at 0 a =? 172) && (Z.land (byte_at 1 a) 240 =? 16))
      || ((byte_at 0 a =? 192) && (byte_at 1 a =? 168))
  | None => v6 ip && (Z.land (byte_at 0 ip) 254 =? 252)
  end.
Definition IsMulticast (ip : IP) : bool :=
  match To4 ip with
  | Some a => Z.land (byte_at 0 a) 240 =? 224
  | None => v6 ip && (byte_at 0 ip =? 255)
  end.
Definition IsLinkLocalMulticast (ip : IP) : bool :=
  match To4 ip with
  | Some a => (byte_at 0 a =? 224) && (byte_at 1 a =? 0) && (byte_at 2 a =? 0)
  | None => v6 ip && (byte_at 0 ip =? 255) && (Z.land (byte_at 1 ip) 15 =? 2)
  end.
Definition IsLinkLocalUnicast (ip : IP) : bool :=
  match To4 ip with
  | Some a => (byte_at 0 a =? 169) && (byte_at 1 a =? 254)
  | None => v6 ip && (byte_at 0 ip =? 254) && (Z.land (byte_at 1 ip) 192 =? 128)
  end.
