(* ===== verification/Smtp.v ===== *)
(** * Addresses of the SMTP library

    [smtp.Address] and its parser are third-party; the source uses the two fields. *)

From S2P Require Import Prelude GoStrings Strconv Headers.

Record SmtpAddress := mkAddress { sa_Localpart : string; sa_Domain : string }.
Definition zero_Address : SmtpAddress := mkAddress EmptyString EmptyString.

Class AddressParser := { ParseAddress : string -> option SmtpAddress }.

(** ** The syntax of SMTP commands (protocol/smtpd/server.go)

    Splitting a command line, the address of MAIL and RCPT, and ESMTP parameters. *)


(** The upper-case mapping of a rune outside ASCII. *)
Class UnicodeUpper := { unicode_upper : Z -> Z }.

Definition upper_ascii (c : ascii) : ascii :=
  let n := byte_of c in if (97 <=? n) && (n <=? 122) then byte_char (n - 32) else c.

Section Syntax.
Context `{Unicode} `{UnicodeUpper}.

Definition upper_rune (r : Z) : Z :=
  if r <? 128 then (if (97 <=? r) && (r <=? 122) then r - 32 else r) else unicode_upper r.
(** [strings.ToUpper]. *)
Definition ToUpper (s : string) : string :=
  if is_ascii s then str_of (upper_ascii <$> bytes_of s)
  else str_of (concat ((fun p : Z * list ascii => encode_rune (upper_rune p.1)) <$> segs (bytes_of s))).

(** [strings.Fields]: the maximal runs of characters that are not white space. *)
Fixpoint fields_loop (cur : list ascii) (l : list (Z * list ascii)) : list (list ascii) :=
  match l with
  | [] => match cur with [] => [] | _ => [cur] end
  | (r, bs) :: l =>
      if is_space_rune r then (match cur with [] => [] | _ => [cur] end) ++ fields_loop [] l
      else fields_loop (cur ++ bs) l
  end.
Definition Fields (s : string) : list string := str_of <$> fields_loop [] (segs (bytes_of s)).

Definition drop_prefix (n : nat) (s : string) : string := str_of (drop n (bytes_of s)).

Definition splitCmd (line : string) : string * string :=
  match index_byte SP (bytes_of line) with
  | Some i => (str_of (take i (bytes_of line)), drop_prefix (S i) line)
  | None => (line, EmptyString)
  end.

Definition parseAddrParam (rest prefix : string) : option string :=
  let rest := trim_space rest in
  if negb (has_prefix (ToUpper rest) prefix) then None
  else
    let v := trim_space (drop_prefix (String.length prefix) rest) in
    if negb (has_prefix v "<") then None
    else match index_byte ">"%char (bytes_of v) with
         | None => None
         | Some end_ => Some (str_of (drop 1 (take end_ (bytes_of v))))
         end.

Definition mailParamStr (rest key : string) : string :=
  let pfx := (ToUpper key ++ "=")%string in
  match List.find (fun tok => has_prefix (ToUpper tok) pfx) (Fields rest) with
  | Some tok => drop_prefix (String.length pfx) tok
  | None => EmptyString
  end.

Definition mailParamFlag (rest key : string) : bool :=
  existsb (fun tok => String.eqb (ToUpper tok) (ToUpper key)) (Fields rest).

Definition mailParamInt (rest key : string) : option Z :=
  let v := mailParamStr rest key in
  if String.eqb v EmptyString then None else ParseInt v.

End Syntax.

Definition contains8bit (data : list ascii) : bool := existsb (fun b => 128 <=? byte_of b) data.
Definition isASCII (s : string) : bool := forallb (fun b => byte_of b <? 128) (bytes_of s).
Definition needsSMTPUTF8 (mailFrom : string) (rcpts : list string) (data : list ascii) : bool :=
  if negb (isASCII mailFrom) then true
  else if existsb (fun r => negb (isASCII r)) rcpts then true
  else contains8bit data.
Definition hasDSNPerRcpt (vals : list string) : bool := existsb (fun v => negb (String.eqb v EmptyString)) vals.
