(* ===== verification/Inbound.v ===== *)
(** * The inbound decision (mailflow/inbound/decision.go)

    Per recipient: rulesets, the sender's reputation with the account, greylisting,
    the content score, and subjectpass, in that order.  The junk classifier is an argument
    as in the source; subjectpass and the address parser are third-party, a class.
    Times are microseconds of the database clock. *)

From S2P Require Import Prelude GoStrings Strconv Headers Net Smtp.

Local Open Scope go_scope.

Inductive Verdict : Type := Accept | AcceptJunk | Defer | Reject.

Record Decision := mkDecision {
  dc_Verdict : Verdict; dc_Reason : string; dc_Mailbox : string; dc_Challenge : string }.
Definition verdict (v : Verdict) (reason : string) : Decision := mkDecision v reason EmptyString EmptyString.

(** ** Tables *)

Record GreyRow := mkGrey { gr_first_seen : Z; gr_allowed_at : option Z; gr_count : Z }.
Record InRep := mkInRep { ir_ham : Z; ir_junk : Z }.
Record RuleRow := mkRule {
  ru_id : Z; ru_account : Z; ru_header_name : string; ru_header_substr : string;
  ru_mailbox : string; ru_force_accept : bool; ru_is_forward : bool; ru_ord : Z }.

Record InDB := mkInDB {
  in_grey : gmap (Z * string * string) GreyRow;     (* (account, sender domain, client subnet) *)
  in_rep : gmap (Z * string) InRep;                 (* (account, sender domain) *)
  in_rules : list RuleRow }.                        (* ORDER BY ord, id *)

Definition set_grey v st := mkInDB v (in_rep st) (in_rules st).
Definition set_rep v st := mkInDB (in_grey st) v (in_rules st).

(** Which statements of one decision fail, on a lost connection or a timeout. *)
Record Faults := mkFaults { fl_rules : bool; fl_rep : bool; fl_grey : bool; fl_grey_write : bool }.
Definition no_faults : Faults := mkFaults false false false false.

(** ** Knobs *)

Record Decider := mkDecider {
  d_GreylistDelay : Z; d_GreylistEnabled : bool; d_JunkThreshold : float64; d_RejectThreshold : float64;
  d_TrustedHamCount : Z; d_SubjectPassKey : string; d_SubjectPassPeriod : Z }.

Definition nsecond : Z := 1000000000.
Definition fzero : float64 := of_int 0.
Definition greylistDelay (d : Decider) : Z := if 0 <? d_GreylistDelay d then d_GreylistDelay d else 300 * nsecond.
Definition junkThreshold (d : Decider) : float64 := if flt fzero (d_JunkThreshold d) then d_JunkThreshold d else decimal 95 2.
Definition rejectThreshold (d : Decider) : float64 := if flt fzero (d_RejectThreshold d) then d_RejectThreshold d else decimal 999 3.
Definition trustedHam (d : Decider) : Z := if 0 <? d_TrustedHamCount d then d_TrustedHamCount d else 3.
Definition subjectPassPeriod (d : Decider) : Z := if 0 <? d_SubjectPassPeriod d then d_SubjectPassPeriod d else 43200 * nsecond.

Definition adaptiveJunkThreshold (d : Decider) (ham junk : Z) : float64 :=
  let base := junkThreshold d in
  let total := i64 (ham + junk) in
  if total <? 5 then base
  else
    let hamRatio := fdiv (of_int ham) (of_int total) in
    let adj := fmul (fsub hamRatio (decimal 5 1)) (decimal 2 1) in
    let thr := fadd base adj in
    let thr := if flt thr (decimal 5 1) then decimal 5 1 else thr in
    let hi := fsub (rejectThreshold d) (decimal 1 3) in
    if flt hi thr then hi else thr.

(** ** Subjectpass *)

Class SubjectPass := {
  sp_Verify : string -> string -> Z -> Z -> bool;           (* message, key, period, now *)
  sp_Generate : SmtpAddress -> string -> Z -> string }.    (* from, key, now *)

Section Decide.
Context `{Unicode} `{AddressParser} `{SubjectPass}.
Variable d : Decider.

Definition classifier : Type := Z -> string -> result (float64 * bool * bool).   (* probability, significant, junk *)

Definition header (hdrs : gmap string string) (name : string) : string := default EmptyString (hdrs !! name).

(** [strings.TrimSuffix]. *)
Definition trim_suffix (c : ascii) (s : string) : string :=
  match rev (bytes_of s) with
  | x :: l => if Ascii.eqb x c then str_of (rev l) else s
  | [] => s
  end.

Definition subjectPassFrom (raw : string) : SmtpAddress :=
  let from := header (parseHeaders (bytes_of raw)) "from" in
  let from := match last_index_byte "<"%char (bytes_of from) with
              | Some i => trim_suffix ">"%char (str_of (drop (S i) (bytes_of from)))
              | None => from
              end in
  default zero_Address (ParseAddress (trim_space from)).

Definition maybeSubjectPass (now : Z) (raw : string) (reject : Decision) : Decision :=
  if Nat.eqb (String.length (d_SubjectPassKey d)) 0 then reject
  else if sp_Verify raw (d_SubjectPassKey d) (subjectPassPeriod d) now then verdict Accept "subjectpass-verified"
  else mkDecision Defer "subjectpass-challenge" EmptyString (sp_Generate (subjectPassFrom raw) (d_SubjectPassKey d) now).

(** ** Reputation *)

Definition reputation (fl : Faults) (accountID : Z) (senderDomain : string) (st : InDB) : Z * Z :=
  if fl_rep fl || negb (text_ok senderDomain) then (0, 0)
  else match in_rep st !! (accountID, senderDomain) with
       | Some r => (ir_ham r, ir_junk r)
       | None => (0, 0)
       end.

Definition bigint (z : Z) : result Z := if is_i64 z then Ok z else Err ErrOutOfRange.

Definition RecordOutcome (accountID : Z) (senderDomain : string) (authed ham : bool) (st : InDB) : result InDB :=
  if negb authed then Ok st
  else if negb (text_ok senderDomain) then Err ErrDecode
  else
    let row := default (mkInRep 0 0) (in_rep st !! (accountID, senderDomain)) in
    try! row := (if ham then try! n := bigint (ir_ham row + 1) in Ok (mkInRep n (ir_junk row))
                 else try! n := bigint (ir_junk row + 1) in Ok (mkInRep (ir_ham row) n)) in
    Ok (set_rep (<[(accountID, senderDomain) := row]> (in_rep st)) st).

(** ** Greylisting *)

Definition subnetOf (ip : IP) : string :=
  match ip with
  | [] => "unknown"
  | _ =>
      match To4 ip with
      | Some v4 => (ip_String (mask_bytes 3 v4) ++ "/24")%string
      | None => (ip_String (mask_bytes 8 ip) ++ "/64")%string
      end
  end.

(** [EXTRACT(EPOCH FROM (now()-first_seen))] against [greylistDelay().Seconds()]. *)
Definition seconds_of_us (us : Z) : float64 := fdiv (of_int us) (of_int 1000000).
Definition Seconds (dur : Z) : float64 :=
  fadd (of_int (Z.quot dur nsecond)) (fdiv (of_int (Z.rem dur nsecond)) (of_int nsecond)).
Definition delay_over (age : Z) : bool := fge (seconds_of_us age) (Seconds (greylistDelay d)).

(** The deferral, and the table afterwards; failed writes are ignored. *)
Definition greylist (fl : Faults) (now : Z) (accountID : Z) (senderDomain : string) (ip : IP) (st : InDB) : bool * InDB :=
  let k := (accountID, senderDomain, subnetOf ip) in
  let write := fun row => if fl_grey_write fl then st else set_grey (<[k := row]> (in_grey st)) st in
  if fl_grey fl || negb (text_ok senderDomain) then (false, st)
  else
    match in_grey st !! k with
    | None => (true, write (mkGrey now None 1))
    | Some row =>
        match gr_allowed_at row with
        | Some _ => (false, st)
        | None =>
            let deferred := negb (delay_over (now - gr_first_seen row)) in
            match bigint (gr_count row + 1) with
            | Err _ => (deferred, st)
            | Ok n => (deferred, write (mkGrey (gr_first_seen row) (if deferred then None else Some now) n))
            end
        end
    end.

(** ** Rulesets *)

Definition rule_matches (hdrs : gmap string string) (r : RuleRow) : bool :=
  let v := header hdrs (ToLower (ru_header_name r)) in
  negb (String.eqb v EmptyString) && contains (ToLower v) (ToLower (ru_header_substr r)).

Definition matchRuleset (fl : Faults) (accountID : Z) (raw : string) (st : InDB) : option RuleRow :=
  if fl_rules fl then None
  else
    match filter (fun r => ru_account r = accountID) (in_rules st) with
    | [] => None
    | rules => List.find (rule_matches (parseHeaders (bytes_of raw))) rules
    end.

(** ** The decision *)

Definition decideCore (fl : Faults) (now : Z) (accountID : Z) (senderDomain : string) (clientIP : IP) (raw : string)
  (authed : bool) (classify : option classifier) (st : InDB) : Decision * InDB :=
  let '(ham, junk) := reputation fl accountID senderDomain st in
  if authed && (trustedHam d <=? ham) && (junk =? 0) then (verdict Accept "trusted-sender", st)
  else if (3 <=? junk) && (ham =? 0) then (maybeSubjectPass now raw (verdict Reject "known-bad-sender"), st)
  else
    let '(deferred, st) := if d_GreylistEnabled d then greylist fl now accountID senderDomain clientIP st else (false, st) in
    if deferred then (verdict Defer "greylisted", st)
    else
      let '(repHam, repJunk) := if authed then (ham, junk) else (0, 0) in
      match classify with
      | None => (verdict Accept "clean", st)
      | Some f =>
          match f accountID raw with
          | Ok (prob, true, _) =>
              let junkThr := adaptiveJunkThreshold d repHam repJunk in
              if fge prob (rejectThreshold d) then (maybeSubjectPass now raw (verdict Reject "junk-content-strict"), st)
              else if fge prob junkThr then (verdict AcceptJunk "junk-content", st)
              else (verdict Accept "clean", st)
          | _ => (verdict Accept "clean", st)
          end
      end.

Definition Decide (fl : Faults) (now : Z) (accountID : Z) (senderDomain : string) (clientIP : IP) (raw : string)
  (authed : bool) (classify : option classifier) (st : InDB) : Decision * InDB :=
  match matchRuleset fl accountID raw st with
  | Some rs =>
      if ru_force_accept rs then (mkDecision Accept "ruleset" (ru_mailbox rs) EmptyString, st)
      else if ru_is_forward rs then (mkDecision Accept "forwarded" (ru_mailbox rs) EmptyString, st)
      else
        let '(dec, st) := decideCore fl now accountID senderDomain clientIP raw authed classify st in
        (match dc_Verdict dec with
         | Accept | AcceptJunk => mkDecision (dc_Verdict dec) (dc_Reason dec) (ru_mailbox rs) (dc_Challenge dec)
         | _ => dec
         end, st)
  | None => decideCore fl now accountID senderDomain clientIP raw authed classify st
  end.

End Decide.
