(* ===== verification/InboundSpec.v ===== *)
(** * The inbound decision: trust, greylisting, thresholds

    A sender domain that is not authenticated neither uses nor builds trust; the
    greylist refines a specification over the times of the attempts; the adaptive
    threshold stays clear of rejection; rulesets come first. *)

From S2P Require Import Prelude GoStrings Strconv Headers Net Smtp Inbound.

Local Open Scope go_scope.

#[local] Arguments Inbound.bigint : simpl never.

Section Spec.
Context `{Unicode} `{AddressParser} `{SubjectPass}.
Variable d : Decider.

(** ** Trust *)

(** The account has never heard of a domain: it has no reputation for it, and no greylist row
    of any subnet. *)
Definition unheard (accountID : Z) (dom : string) (st : InDB) : InDB :=
  mkInDB (filter (fun kv => kv.1.1 <> (accountID, dom)) (in_grey st)) (delete (accountID, dom) (in_rep st)) (in_rules st).
(** The same settings, without greylisting. *)
Definition no_greylist : Decider :=
  mkDecider (d_GreylistDelay d) false (d_JunkThreshold d) (d_RejectThreshold d) (d_TrustedHamCount d) (d_SubjectPassKey d) (d_SubjectPassPeriod d).

Lemma rules_unheard fl a dom raw st : matchRuleset fl a raw (unheard a dom st) = matchRuleset fl a raw st.
Proof. done. Qed.
Lemma reputation_unheard fl a dom st : reputation fl a dom (unheard a dom st) = (0, 0).
Proof. unfold reputation. simpl. rewrite lookup_delete_eq. by destruct (_ || _). Qed.
(** A domain that was never heard of is deferred; one that was may have been seen from the same subnet. *)
Lemma greylist_unheard fl now a dom ip st :
  (greylist d fl now a dom ip (unheard a dom st)).1 = (greylist d fl now a dom ip st).1 \/
  is_Some (in_grey st !! (a, dom, subnetOf ip)) /\ (greylist d fl now a dom ip st).1 = false.
Proof.
  unfold greylist. destruct (fl_grey fl || _); [by left|]. cbn [in_grey unheard].
  rewrite map_lookup_filter_None_2 by (right; intros row _ Hne; by apply Hne). destruct (in_grey st !! (a, dom, subnetOf ip)) as [row|]; [|by left].
  destruct (gr_allowed_at row); [by right|]. destruct (negb (delay_over d (now - gr_first_seen row))); [left|right; split; [done|]];
    by destruct (Inbound.bigint _).
Qed.

Definition known_bad (ham junk : Z) : bool := (3 <=? junk) && (ham =? 0).

(** What is left of the decision when nothing is known and nothing is deferred. *)
Lemma core_passed fl now a dom ip raw classify st :
  d_GreylistEnabled d = false \/ (greylist d fl now a dom ip st).1 = false ->
  (let '(ham, junk) := reputation fl a dom st in known_bad ham junk) = false ->
  (decideCore d fl now a dom ip raw false classify st).1 = (decideCore no_greylist fl now a dom ip raw false classify (unheard a dom st)).1.
Proof.
  unfold decideCore. rewrite reputation_unheard. destruct (reputation fl a dom st) as [ham junk]. unfold known_bad.
  intros Hg ->. cbn [andb Z.leb Z.eqb d_GreylistEnabled no_greylist]. cbv zeta.
  assert (Hd : exists st', (if d_GreylistEnabled d then greylist d fl now a dom ip st else (false, st)) = (false, st')).
  { destruct (d_GreylistEnabled d); [|by eexists]. destruct Hg as [|Hg]; [done|]. destruct (greylist d fl now a dom ip st) as [b st']. cbn in Hg. subst b. by eexists. }
  destruct Hd as [st' ->]. destruct classify as [f|]; [|done]. destruct (f a raw) as [[[prob []] j]|]; try done.
  change (rejectThreshold no_greylist) with (rejectThreshold d). change (adaptiveJunkThreshold no_greylist) with (adaptiveJunkThreshold d).
  change (maybeSubjectPass no_greylist) with (maybeSubjectPass d). by repeat case_match.
Qed.
Lemma core_unauth fl now a dom ip raw classify st :
  let dec := (decideCore d fl now a dom ip raw false classify st).1 in
  if (let '(ham, junk) := reputation fl a dom st in known_bad ham junk) then dec = maybeSubjectPass d now raw (verdict Reject "known-bad-sender")
  else dec = (decideCore d fl now a dom ip raw false classify (unheard a dom st)).1 \/
       is_Some (in_grey st !! (a, dom, subnetOf ip)) /\ dec = (decideCore no_greylist fl now a dom ip raw false classify (unheard a dom st)).1.
Proof.
  cbv zeta. destruct (let '(ham, junk) := reputation fl a dom st in known_bad ham junk) eqn:Eb.
  { unfold decideCore. destruct (reputation fl a dom st) as [ham junk]. unfold known_bad in Eb. by rewrite Eb. }
  assert (Heq : forall st1, d_GreylistEnabled d = false \/ (greylist d fl now a dom ip st1).1 = false -> in_rep st1 = in_rep (unheard a dom st) ->
    in_grey st1 = in_grey (unheard a dom st) -> in_rules st1 = in_rules st ->
    (decideCore d fl now a dom ip raw false classify st1).1 = (decideCore no_greylist fl now a dom ip raw false classify (unheard a dom st)).1).
  { intros st1 Hg E1 E2 E3. assert (st1 = unheard a dom st) as -> by (destruct st1; cbn in *; by subst).
    rewrite (core_passed fl now a dom ip raw classify (unheard a dom st)); [|done|by rewrite reputation_unheard]. f_equal. f_equal.
    unfold unheard. cbn. f_equal; [|by rewrite delete_delete_eq]. rewrite map_filter_filter_l; [done|by intros]. }
  destruct (d_GreylistEnabled d) eqn:Eg.
  2:{ left. rewrite (core_passed _ _ _ _ _ _ _ st); [|by left|done]. symmetry. by apply Heq; [left|..]. }
  destruct (greylist d fl now a dom ip st) as [b st'] eqn:Egr. destruct b.
  - left. destruct (greylist_unheard fl now a dom ip st) as [Hu|[_ Hu]]; rewrite Egr in Hu; [|done]. cbn in Hu. unfold decideCore. rewrite reputation_unheard, Eg, Egr.
    destruct (reputation fl a dom st) as [ham junk]. unfold known_bad in Eb. rewrite Eb. cbn [andb Z.leb Z.eqb].
    destruct (greylist d fl now a dom ip (unheard a dom st)) as [b s2]. cbn in Hu. by subst b.
  - rewrite (core_passed _ _ _ _ _ _ _ st); [|right; by rewrite Egr|done].
    destruct (greylist_unheard fl now a dom ip st) as [Hu|[Hs _]]; [|by right]. rewrite Egr in Hu. left. symmetry. by apply Heq; [right|..].
Qed.

(** [C17] A forged sender gains nothing: for mail whose envelope domain is not authenticated the
    decision is the one the account would take if it had never heard of the domain - no ham, no
    junk, no earlier attempt.  The only other cases are that the same subnet has tried with the
    domain before, which can end the deferral and no more - the decision is that of an unheard-of
    domain without greylisting - and that the domain is known bad, and then the message is
    rejected or has to pass the subject challenge; a ruleset of the account decides first. *)
Theorem spoof_gains_nothing (fl : Faults) (now accountID : Z) (dom : string) (ip : IP) (raw : string)
    (classify : option classifier) (st : InDB) :
  let dec := (Decide d fl now accountID dom ip raw false classify st).1 in
  dec = (Decide d fl now accountID dom ip raw false classify (unheard accountID dom st)).1 \/
  is_Some (in_grey st !! (accountID, dom, subnetOf ip)) /\
    dec = (Decide no_greylist fl now accountID dom ip raw false classify (unheard accountID dom st)).1 \/
  (let '(ham, junk) := reputation fl accountID dom st in known_bad ham junk = true) /\
  dc_Reason (maybeSubjectPass d now raw (verdict Reject "known-bad-sender")) = dc_Reason dec /\
  dc_Verdict (maybeSubjectPass d now raw (verdict Reject "known-bad-sender")) = dc_Verdict dec.
Proof.
  unfold Decide. rewrite rules_unheard. pose proof (core_unauth fl now accountID dom ip raw classify st) as Hc. cbv zeta in Hc.
  destruct (reputation fl accountID dom st) as [ham junk].
  destruct (decideCore d fl now accountID dom ip raw false classify st) as [dec s1],
    (decideCore d fl now accountID dom ip raw false classify (unheard accountID dom st)) as [dec0 s0],
    (decideCore no_greylist fl now accountID dom ip raw false classify (unheard accountID dom st)) as [dec2 s2].
  cbn [fst] in Hc. cbv beta iota zeta. destruct (known_bad ham junk) eqn:Eb.
  - destruct (matchRuleset _ _ _ _) as [rs|]; [|right; right; by rewrite <- Hc].
    destruct (ru_force_accept rs); [by left|]. destruct (ru_is_forward rs); [by left|]. right. right. rewrite <- Hc. simpl.
    split; [done|]. destruct (dc_Verdict dec) eqn:Ev; simpl; by rewrite ?Ev.
  - destruct Hc as [<-|[Hs <-]]; [left|right; left; split; [done|]]; (destruct (matchRuleset _ _ _ _) as [rs|]; [|done]);
      by destruct (ru_force_accept rs), (ru_is_forward rs).
Qed.

(** What the deliveries recorded: (account, domain, authenticated, ham). *)
Definition outcome : Type := Z * string * bool * bool.
Definition record_all (l : list outcome) (st : InDB) : InDB :=
  foldl (fun st (o : outcome) => match RecordOutcome o.1.1.1 o.1.1.2 o.1.2 o.2 st with Ok st' => st' | Err _ => st end) st l.
Definition recorded_as (a : Z) (dom : string) (ham : bool) (l : list outcome) : Z :=
  Z.of_nat (length (filter (fun o : outcome => o = (a, dom, true, ham)) l)).

Definition counts (a : Z) (dom : string) (st : InDB) : Z * Z :=
  match in_rep st !! (a, dom) with Some r => (ir_ham r, ir_junk r) | None => (0, 0) end.

Lemma bigint_fits z : min_int64 <= z <= max_int64 -> Inbound.bigint z = Ok z.
Proof.
  intros Hz. unfold Inbound.bigint. assert (is_i64 z = true) as ->; [|done].
  unfold is_i64. apply andb_true_intro. split; apply Z.leb_le; lia.
Qed.

Lemma record_counts a dom l st :
  text_ok dom = true ->
  0 <= (counts a dom st).1 -> 0 <= (counts a dom st).2 ->
  (counts a dom st).1 + (counts a dom st).2 + Z.of_nat (length l) <= max_int64 ->
  counts a dom (record_all l st) =
    ((counts a dom st).1 + recorded_as a dom true l, (counts a dom st).2 + recorded_as a dom false l).
Proof.
  intros Hd. revert st. induction l as [|[[[a' dom'] authed] ham] l IH]; intros st Hham Hjunk Hl.
  { unfold recorded_as. simpl. destruct (counts a dom st). simpl. f_equal; lia. }
  change (record_all ((a', dom', authed, ham) :: l) st) with (record_all l (match RecordOutcome a' dom' authed ham st with Ok st' => st' | Err _ => st end)).
  set (st1 := match RecordOutcome a' dom' authed ham st with Ok st' => st' | Err _ => st end).
  assert (Hst : counts a dom st1 =
    ((counts a dom st).1 + (if decide ((a', dom', authed, ham) = (a, dom, true, true)) then 1 else 0),
     (counts a dom st).2 + (if decide ((a', dom', authed, ham) = (a, dom, true, false)) then 1 else 0))).
  { subst st1. unfold RecordOutcome. destruct authed; cbn [negb].
    2:{ rewrite !decide_False by congruence. destruct (counts a dom st). simpl. f_equal; lia. }
    destruct (decide ((a', dom') = (a, dom))) as [[= -> ->]|Hne].
    - rewrite Hd. cbn [negb]. simpl in Hl. unfold counts in *.
      destruct (in_rep st !! (a, dom)) as [r|] eqn:Er; simpl in *.
      + destruct ham; rewrite bigint_fits by (unfold min_int64; lia); simpl; rewrite lookup_insert_eq; simpl;
          (rewrite decide_True by done; rewrite decide_False by congruence; f_equal; lia) ||
          (rewrite decide_False by congruence; rewrite decide_True by done; f_equal; lia).
      + destruct ham; rewrite ?bigint_fits by (unfold min_int64, max_int64; lia); simpl; rewrite lookup_insert_eq; simpl;
          (rewrite decide_True by done; rewrite decide_False by congruence; done) ||
          (rewrite decide_False by congruence; rewrite decide_True by done; done).
    - rewrite !decide_False by congruence.
      assert (Hsame : forall st', RecordOutcome a' dom' true ham st = Ok st' -> counts a dom st' = counts a dom st).
      { intros st'. unfold RecordOutcome. destruct (negb (text_ok dom')); [done|]. simpl.
        destruct ham; simpl; destruct (Inbound.bigint _); try done; intros [= <-]; unfold counts; simpl; by rewrite lookup_insert_ne. }
      unfold RecordOutcome in Hsame. cbn [negb] in Hsame.
      destruct (if negb (text_ok dom') then _ else _) as [st'|] eqn:Eo; [rewrite (Hsame st') by done|];
        destruct (counts a dom st); simpl; f_equal; lia. }
  simpl in Hl. rewrite IH; rewrite Hst; simpl; repeat case_decide; try lia; try congruence;
    unfold recorded_as; rewrite !filter_cons; repeat case_decide; try congruence; simpl; f_equal; lia.
Qed.

(** Trust is earned: when a message is accepted as coming from a trusted sender
    in a state the recorded outcomes produced, its envelope domain is authenticated and
    the account filed at least [trustedHam] authenticated messages of that domain as
    ham and none as junk; deliveries of other domains, other accounts and
    unauthenticated mail contribute nothing. *)
Theorem trust_is_earned (fl : Faults) (l : list outcome) (rules : list RuleRow) (grey : gmap (Z * string * string) GreyRow)
    (now accountID : Z) (dom : string) (ip : IP) (raw : string) (authed : bool) (classify : option classifier) :
  Z.of_nat (length l) <= max_int64 -> text_ok dom = true ->
  dc_Reason (decideCore d fl now accountID dom ip raw authed classify (record_all l (mkInDB grey ∅ rules))).1 = "trusted-sender"%string ->
  authed = true /\ trustedHam d <= recorded_as accountID dom true l /\ recorded_as accountID dom false l = 0.
Proof.
  intros Hlen Hd. set (st := record_all l _).
  assert (Hcounts : counts accountID dom st = (recorded_as accountID dom true l, recorded_as accountID dom false l)).
  { subst st. rewrite record_counts; [|done|done|done|done]. done. }
  unfold decideCore. assert (Hrep : reputation fl accountID dom st = (0, 0) \/ reputation fl accountID dom st = counts accountID dom st).
  { unfold reputation, counts. destruct (_ || _); [by left|by right]. }
  assert (Hpos : 0 < trustedHam d) by (unfold trustedHam; destruct (Z.ltb_spec 0 (d_TrustedHamCount d)); lia).
  destruct (reputation fl accountID dom st) as [ham junk].
  destruct (authed && (trustedHam d <=? ham) && (junk =? 0)) eqn:E.
  - intros _. b2p. destruct Hrep as [[= -> ->]|Hr]; [lia|]. rewrite Hcounts in Hr. injection Hr as -> ->. done.
  - intros Hr. exfalso. revert Hr.
    assert (Hsp : forall rej, dc_Reason rej <> "trusted-sender"%string -> dc_Reason (maybeSubjectPass d now raw rej) <> "trusted-sender"%string).
    { intros rej Hrej. unfold maybeSubjectPass. destruct (Nat.eqb _ _); [done|]. by destruct (sp_Verify _ _ _ _). }
    destruct ((3 <=? junk) && (ham =? 0)); [by apply Hsp|].
    destruct (if d_GreylistEnabled d then _ else _) as [[] st']; [done|].
    destruct (if authed then _ else _) as [rh rj]. destruct classify as [f|]; [|done].
    destruct (f accountID raw) as [[[prob []] j]|]; try done.
    destruct (fge prob (rejectThreshold d)); [by apply Hsp|]. by destruct (fge _ _).
Qed.

(** ** Greylisting *)

(** An attempt: when, for which account, from which domain and address. *)
Record attempt := mkAttempt { at_now : Z; at_account : Z; at_domain : string; at_ip : IP }.
Definition triplet (x : attempt) : Z * string * string := (at_account x, at_domain x, subnetOf (at_ip x)).

(** The specification: given the times of the earlier attempts of a triplet, it is
    deferred until one attempt comes after the delay. *)
Definition deferred_spec (earlier : list Z) (now : Z) : bool :=
  match earlier with
  | [] => true
  | t0 :: later => negb (existsb (fun t => delay_over d (t - t0)) (later ++ [now]))
  end.

Fixpoint grey_run (l : list attempt) (st : InDB) : list bool :=
  match l with
  | [] => []
  | x :: l =>
      let '(b, st) := greylist d no_faults (at_now x) (at_account x) (at_domain x) (at_ip x) st in
      b :: grey_run l st
  end.
Fixpoint spec_run (earlier : list attempt) (l : list attempt) : list bool :=
  match l with
  | [] => []
  | x :: l =>
      deferred_spec (at_now <$> filter (fun y => triplet y = triplet x) earlier) (at_now x)
        :: spec_run (earlier ++ [x]) l
  end.

(** A row stands for the attempts of its triplet. *)
Definition row_for (times : list Z) (row : option GreyRow) : Prop :=
  match times, row with
  | [], None => True
  | t0 :: later, Some r =>
      gr_first_seen r = t0 /\
      (gr_allowed_at r = None -> existsb (fun t => delay_over d (t - t0)) later = false) /\
      (is_Some (gr_allowed_at r) -> existsb (fun t => delay_over d (t - t0)) later = true) /\
      1 <= gr_count r <= Z.of_nat (length times)
  | _, _ => False
  end.

Definition stands_for (earlier : list attempt) (st : InDB) : Prop :=
  forall k, row_for (at_now <$> filter (fun y => triplet y = k) earlier) (in_grey st !! k).

Lemma grey_step earlier st x :
  text_ok (at_domain x) = true -> Z.of_nat (length earlier) < max_int64 -> stands_for earlier st ->
  let '(b, st') := greylist d no_faults (at_now x) (at_account x) (at_domain x) (at_ip x) st in
  b = deferred_spec (at_now <$> filter (fun y => triplet y = triplet x) earlier) (at_now x) /\
  stands_for (earlier ++ [x]) st'.
Proof.
  intros Hd Hlen HR. pose proof (HR (triplet x)) as Hk.
  assert (Hupd : forall row, row_for ((at_now <$> filter (fun y => triplet y = triplet x) earlier) ++ [at_now x]) (Some row) ->
            stands_for (earlier ++ [x]) (set_grey (<[triplet x := row]> (in_grey st)) st)).
  { intros row Hrow k. simpl. rewrite filter_app, filter_cons, filter_nil, fmap_app.
    destruct (decide (triplet x = k)) as [<-|Hne].
    - by rewrite lookup_insert_eq.
    - rewrite lookup_insert_ne by done. rewrite app_nil_r. apply HR. }
  assert (Hlt : (length (at_now <$> filter (fun y => triplet y = triplet x) earlier) <= length earlier)%nat).
  { rewrite length_fmap. apply length_filter. }
  unfold greylist. rewrite Hd. cbn [no_faults fl_grey fl_grey_write orb negb]. fold (triplet x).
  destruct (in_grey st !! triplet x) as [row|] eqn:Er.
  - destruct (at_now <$> filter _ earlier) as [|t0 later] eqn:Et; [done|]. simpl in Hk.
    destruct Hk as (Hf & Hn & Hs & Hc). destruct (gr_allowed_at row) as [u|] eqn:Eu.
    + split; [simpl; rewrite existsb_app, Hs by eauto; done|]. intros k. rewrite filter_app, filter_cons, filter_nil, fmap_app.
      destruct (decide (triplet x = k)) as [<-|Hne]; [|rewrite app_nil_r; apply HR].
      rewrite Et, Er. simpl. split; [done|]. rewrite Eu, existsb_app, Hs, length_app by eauto. simpl. split; [done|]. split; [done|]. lia.
    + rewrite bigint_fits by (simpl in Hlt; unfold min_int64; lia). rewrite Hf. split.
      * simpl. rewrite existsb_app, Hn by done. simpl. by rewrite orb_false_r.
      * apply Hupd. simpl. rewrite existsb_app, Hn, length_app by done. simpl. rewrite orb_false_r.
        split; [done|]. destruct (delay_over d (at_now x - t0)); simpl; (split; [done|]); (split; [by intros [? ?] || done|lia]).
  - destruct (at_now <$> filter _ earlier) as [|t0 later] eqn:Et; [|done]. split; [done|]. apply Hupd. simpl.
    split; [done|]. split; [done|]. split; [by intros [? ?]|lia].
Qed.

(** [C18] Greylisting refines its specification: over any interleaving of attempts of
    any accounts, domains and addresses, each attempt is deferred exactly if it
    is the first of its triplet - account, domain and network - or no attempt of
    the triplet since the first, this one included, came after the delay.  So a sender
    that retries after the delay passes, from then on always, and one triplet's
    attempts never admit another. *)
Theorem greylist_refines (l : list attempt) (rep : gmap (Z * string) InRep) (rules : list RuleRow) :
  Forall (fun x => text_ok (at_domain x) = true) l -> Z.of_nat (length l) <= max_int64 ->
  grey_run l (mkInDB ∅ rep rules) = spec_run [] l.
Proof.
  intros Hd Hlen. assert (HR : stands_for [] (mkInDB ∅ rep rules)) by (intros k; done).
  change (Z.of_nat (length l)) with (Z.of_nat (length (@nil attempt) + length l)) in Hlen.
  revert HR Hlen. generalize (mkInDB ∅ rep rules) (@nil attempt).
  induction Hd as [|x l Hx Hl IH]; intros st earlier HR Hlen; [done|]. simpl in Hlen |- *.
  pose proof (grey_step earlier st x Hx ltac:(lia) HR) as Hs. destruct (greylist d no_faults _ _ _ _ st) as [b st'].
  destruct Hs as [-> HR']. f_equal. apply IH; [done|]. rewrite length_app. simpl. lia.
Qed.

(** ** Thresholds *)

(** The adaptive threshold stays in its bounds: however the history of a domain
    leans, the threshold for junk is the neutral one or not above the rejection
    threshold less 0.001, and not below 0.5 unless that bound itself is. *)
Theorem adaptive_bounds (ham junk : Z) :
  let thr := adaptiveJunkThreshold d ham junk in
  let hi := fsub (rejectThreshold d) (decimal 1 3) in
  thr = junkThreshold d /\ i64 (ham + junk) < 5 \/
  flt hi thr = false /\ (flt thr (decimal 5 1) = false \/ thr = hi).
Proof.
  cbv zeta. unfold adaptiveJunkThreshold. destruct (Z.ltb_spec (i64 (ham + junk)) 5); [by left|]. right.
  set (t := fadd _ _). set (hi := fsub _ _).
  assert (Hlo : flt (if flt t (decimal 5 1) then decimal 5 1 else t) (decimal 5 1) = false).
  { destruct (flt t (decimal 5 1)) eqn:E; [apply flt_irrefl|done]. }
  set (t' := if flt t (decimal 5 1) then _ else _) in *.
  destruct (flt hi t') eqn:E; [split; [apply flt_irrefl|by right]|split; [done|by left]].
Qed.

(** ** Rulesets *)

(** The account's own rules come first: a message that matches a ruleset that
    accepts by force or marks forwarded mail is accepted into its mailbox,
    whatever the reputation, the content and the address say, and the tables do
    not change; the ruleset is the first, in order, whose header contains the
    text. *)
Theorem ruleset_first (fl : Faults) (now accountID : Z) (dom : string) (ip : IP) (raw : string) (authed : bool)
    (classify : option classifier) (st : InDB) (rs : RuleRow) :
  matchRuleset fl accountID raw st = Some rs ->
  (ru_force_accept rs || ru_is_forward rs = true ->
   exists reason, Decide d fl now accountID dom ip raw authed classify st = (mkDecision Accept reason (ru_mailbox rs) EmptyString, st)) /\
  ru_account rs = accountID /\ rule_matches (parseHeaders (bytes_of raw)) rs = true /\
  exists pre post, filter (fun r => ru_account r = accountID) (in_rules st) = pre ++ rs :: post /\
    Forall (fun r => rule_matches (parseHeaders (bytes_of raw)) r = false) pre.
Proof.
  intros Hm. split.
  { unfold Decide. rewrite Hm. destruct (ru_force_accept rs); [by eexists|]. destruct (ru_is_forward rs); [by eexists|done]. }
  unfold matchRuleset in Hm. destruct (fl_rules fl); [done|].
  destruct (filter _ (in_rules st)) as [|r0 rules] eqn:El; [done|]. rewrite <- El in Hm |- *. clear r0 rules El.
  assert (Hall : Forall (fun r => ru_account r = accountID) (filter (fun r => ru_account r = accountID) (in_rules st))).
  { apply Forall_forall. intros r Hr. by apply list_elem_of_filter in Hr as [Hr _]. }
  revert Hm Hall. generalize (filter (fun r => ru_account r = accountID) (in_rules st)). intros rules.
  induction rules as [|r rules IH]; [done|]. simpl. intros Hf [Ha Hall]%Forall_cons.
  destruct (rule_matches _ r) eqn:Er.
  - injection Hf as <-. split; [done|]. split; [done|]. exists [], rules. split; [done|constructor].
  - destruct (IH Hf Hall) as (Hacc & Hrm & pre & post & -> & Hp). split; [done|]. split; [done|].
    exists (r :: pre), post. split; [done|]. by constructor.
Qed.

End Spec.

(** ** Instances *)

#[local] Instance demo_unicode : Unicode := { unicode_lower := fun r => r; EqualFold := String.eqb }.
#[local] Instance demo_parser : AddressParser := { ParseAddress := fun s => Some (mkAddress s EmptyString) }.
#[local] Instance demo_subjectpass : SubjectPass :=
  { sp_Verify := fun raw key _ _ => contains raw key; sp_Generate := fun from key _ => (sa_Localpart from ++ key)%string }.

Definition demo_decider : Decider := mkDecider 0 true fzero fzero 0 EmptyString 0.
Definition demo_ip (n : Z) : IP := [192; 0; 2; n].
Definition half_year : list outcome := replicate 4 (1, "a.example"%string, true, true) ++ [(1, "a.example"%string, false, true)].
Definition some_classifier : classifier := fun _ _ => Ok (decimal 97 2, true, true).

Lemma trust_is_earned_witness :
  trustedHam demo_decider <= recorded_as 1 "a.example" true half_year /\
  dc_Reason (decideCore demo_decider no_faults 5 1 "a.example" (demo_ip 1) "x" false None
               (record_all half_year (mkInDB ∅ ∅ []))).1 = "greylisted"%string.
Proof.
  split; [|vm_compute; reflexivity].
  exact (proj1 (proj2 (trust_is_earned demo_decider no_faults half_year [] ∅ 5 1 "a.example" (demo_ip 1) "x" true None
    ltac:(vm_compute; discriminate) ltac:(vm_compute; reflexivity) ltac:(vm_compute; reflexivity)))).
Defined.

(** A first contact, an early retry from a neighbour address, a retry after five
    minutes, another network, and the first one again. *)
Definition minute_us : Z := 60000000.
Definition demo_attempts : list attempt :=
  [mkAttempt 0 1 "a.example" (demo_ip 1); mkAttempt minute_us 1 "a.example" (demo_ip 9);
   mkAttempt (5 * minute_us) 1 "a.example" (demo_ip 1); mkAttempt (5 * minute_us) 1 "a.example" [10; 0; 0; 1];
   mkAttempt (6 * minute_us) 1 "a.example" (demo_ip 1)].

Lemma greylist_refines_witness :
  grey_run demo_decider demo_attempts (mkInDB ∅ ∅ []) = [true; true; false; true; false].
Proof.
  refine (eq_trans (greylist_refines demo_decider demo_attempts ∅ [] _ _) _).
  - repeat constructor.
  - vm_compute. discriminate.
  - vm_compute. reflexivity.
Defined.

Definition demo_rules : list RuleRow :=
  [mkRule 1 1 "List-Id" "other" "Other" true false 0; mkRule 2 1 "List-Id" "DEV" "Lists" true false 1].
Definition demo_message : string := str_of (bytes_of "List-ID: <dev.example>" ++ [LF; LF] ++ bytes_of "body").

Lemma ruleset_first_witness :
  exists reason, Decide demo_decider no_faults 5 1 "a.example" (demo_ip 1) demo_message false (Some some_classifier)
                   (mkInDB ∅ ∅ demo_rules)
    = (mkDecision Accept reason "Lists" EmptyString, mkInDB ∅ ∅ demo_rules).
Proof.
  refine (proj1 (ruleset_first demo_decider no_faults 5 1 "a.example" (demo_ip 1) demo_message false (Some some_classifier)
           (mkInDB ∅ ∅ demo_rules) (mkRule 2 1 "List-Id" "DEV" "Lists" true false 1) _) _); vm_compute; reflexivity.
Defined.

(** Spam with no history goes to Junk; the same from a forged trusted domain as well. *)
Example forged_is_junk :
  dc_Verdict (decideCore (mkDecider 0 false fzero fzero 0 EmptyString 0) no_faults 5 1 "a.example" (demo_ip 1) "x" false
                (Some some_classifier) (record_all half_year (mkInDB ∅ ∅ []))).1 = AcceptJunk.
Proof. vm_compute. reflexivity. Qed.
