(* ===== verification/Submit.v ===== *)
(** * Submission (mailflow/submit/submit.go)

    An authenticated account hands over a message: one body in the blob store, one
    queue row per recipient, in one transaction.  Durations and times as in the
    queue; a commit may fail with the transaction applied or not.  The vacation
    responder (mailflow/autoreply/autoreply.go, over the two tables of
    storage/postgres/vacation.go) submits through it. *)

From S2P Require Import Prelude GoStrings Shapes Changes Blob Database Tx Mailboxes Messages KernelInv KernelFlags Kernel KernelDemo Queue Headers Smtp.

Local Open Scope go_scope.

Record DSNParams := mkDSN {
  dsn_Ret : string; dsn_EnvID : string;
  dsn_Notify : gmap string string; dsn_ORcpt : gmap string string;    (* by recipient *)
  dsn_Body8BitMIME : bool; dsn_SMTPUTF8 : bool }.
Definition no_dsn : DSNParams := mkDSN EmptyString EmptyString ∅ ∅ false false.

(** What the client learns of the COMMIT. *)
Inductive commit : Type := Committed | CommitError (applied : bool).

Definition ResultUnknownError : err := ErrText "submission result unknown".
Definition IsResultUnknown (e : err) : bool := bool_decide (e = ResultUnknownError).

Section Submit.
Context `{BlobOps} `{AddressParser}.

Definition parses (s : string) : bool := match ParseAddress s with Some _ => true | None => false end.

Section Transaction.
Variables (now tenantID accountID messageID : Z) (mailFrom ref : string) (size notBefore : Z) (dsnp : DSNParams).

Definition msg_to (r : string) : Msg :=
  mkMsg 0 tenantID accountID messageID mailFrom r ref size 0 0 notBefore None
    (default EmptyString (dsn_Notify dsnp !! r)) (dsn_Ret dsnp) (dsn_EnvID dsnp)
    (default EmptyString (dsn_ORcpt dsnp !! r)) (dsn_Body8BitMIME dsnp) (dsn_SMTPUTF8 dsnp) 0.

Fixpoint enqueue_all (rcptTo : list string) (q : QDB) : result (list Z * QDB) :=
  match rcptTo with
  | [] => Ok ([], q)
  | r :: rcptTo =>
      try! x := EnqueueTx now (msg_to r) q in
      try! y := enqueue_all rcptTo x.2 in
      Ok (x.1 :: y.1, y.2)
  end.
End Transaction.

Definition submit (now : Z) (co : commit) (tenantID accountID messageID : Z) (mailFrom : string) (rcptTo : list string)
  (raw : string) (notBefore : Z) (dsnp : DSNParams) (b : blob_state) (q : QDB) : result (list Z) * blob_state * QDB :=
  match rcptTo with
  | [] => (Err (ErrText "no recipients"), b, q)
  | _ =>
      if negb (parses mailFrom) && negb (String.eqb mailFrom EmptyString) then (Err (ErrText "invalid mail from"), b, q)
      else if negb (forallb parses rcptTo) then (Err (ErrText "invalid recipient"), b, q)
      else
        match blob_Put tenantID raw b with
        | (Err e, b') => (Err e, b', q)
        | (Ok (ref, size), b') =>
            match enqueue_all now tenantID accountID messageID mailFrom ref size notBefore dsnp rcptTo q with
            | Err e => (Err e, b', q)
            | Ok (ids, q') =>
                match co with
                | Committed => (Ok ids, b', q')
                | CommitError applied => (Err ResultUnknownError, b', if applied then q' else q)
                end
            end
        end
  end.

Definition Submit (now : Z) (co : commit) (tenantID accountID : Z) (mailFrom : string) (rcptTo : list string) (raw : string) :=
  submit now co tenantID accountID 0 mailFrom rcptTo raw 0 no_dsn.
Definition SubmitForMessage (now : Z) (co : commit) (tenantID accountID messageID : Z) (mailFrom : string)
  (rcptTo : list string) (raw : string) (b : blob_state) (q : QDB) : result (list Z) * blob_state * QDB :=
  if messageID <=? 0 then (Err (ErrText "invalid sent message id"), b, q)
  else submit now co tenantID accountID messageID mailFrom rcptTo raw 0 no_dsn b q.
Definition SubmitAt (now : Z) (co : commit) (tenantID accountID : Z) (mailFrom : string) (rcptTo : list string) (raw : string) (notBefore : Z) :=
  submit now co tenantID accountID 0 mailFrom rcptTo raw notBefore no_dsn.
Definition SubmitDSN (now : Z) (co : commit) (tenantID accountID : Z) (mailFrom : string) (rcptTo : list string) (raw : string)
  (notBefore : Z) (dsnp : DSNParams) :=
  submit now co tenantID accountID 0 mailFrom rcptTo raw notBefore dsnp.

End Submit.

(** ** Submission is all or nothing *)


Section Spec.
Context `{BlobOps} `{!BlobLaws} `{AddressParser}.

(** The row an accepted recipient gets. *)
Definition queued_for (tenantID accountID messageID : Z) (mailFrom ref : string) (rcpt : string) (row : QRow) : Prop :=
  r_tenant_id row = tenantID /\ r_account_id row = accountID /\ r_mail_from row = mailFrom /\
  r_rcpt_to row = rcpt /\ r_blob_ref row = ref /\ r_attempts row = 0 /\ r_leased_by row = None /\
  r_message_id row = (if messageID =? 0 then None else Some messageID).

Lemma EnqueueTx_row now m q id q' : EnqueueTx now m q = Ok (id, q') ->
  id = q_next_id q /\ q_next_id q' = id + 1 /\ q_rows q !! id = None /\
  exists row, q_rows q' = <[id := row]> (q_rows q) /\
    queued_for (q_TenantID m) (q_AccountID m) (q_MessageID m) (q_MailFrom m) (q_BlobRef m) (q_RcptTo m) row.
Proof.
  unfold EnqueueTx. destruct (negb (msg_text_ok m)); [done|]. destruct (negb _); [done|].
  destruct (q_rows q !! q_next_id q) eqn:E; [done|].
  set (row := mkQRow _ _ _ _ _ _ _ _ _ _ _ _ _ _ _ _ _ _ _ _ _ _ _ _ _).
  assert (Hrow : queued_for (q_TenantID m) (q_AccountID m) (q_MessageID m) (q_MailFrom m) (q_BlobRef m) (q_RcptTo m) row) by done.
  clearbody row. intros Hq.
  assert (Hr : id = q_next_id q /\ q_rows q' = <[id := row]> (q_rows q) /\ q_next_id q' = id + 1).
  { revert Hq. cbv zeta. simpl. destruct (q_MessageID m =? 0); [|destruct (q_deliveries q !! _); [done|]];
      simpl; intros [= <- <-]; done. }
  destruct Hr as (-> & Hrows & Hnext). split; [done|]. split; [done|]. split; [done|]. by exists row.
Qed.

Lemma enqueue_all_rows now t a m mf ref size nb dsnp rcpts q ids q' :
  enqueue_all now t a m mf ref size nb dsnp rcpts q = Ok (ids, q') ->
  (forall id, q_next_id q <= id -> q_rows q !! id = None) ->
  Forall2 (fun id rcpt => exists row, q_rows q' !! id = Some row /\ queued_for t a m mf ref rcpt row) ids rcpts /\
  (forall id, id ∉ ids -> q_rows q' !! id = q_rows q !! id) /\
  NoDup ids /\ Forall (fun id => q_rows q !! id = None) ids /\ Forall (fun id => q_next_id q <= id) ids.
Proof.
  revert q ids q'. induction rcpts as [|r rcpts IH]; intros q ids q'; cbn [enqueue_all].
  { intros [= <- <-] _. split_and!; done || constructor. }
  destruct (EnqueueTx now _ q) as [[id q1]|] eqn:E; [|done]. simpl.
  destruct (enqueue_all now t a m mf ref size nb dsnp rcpts q1) as [[ids1 q2]|] eqn:E1; [|done]. simpl.
  intros [= <- <-] Hfree. apply EnqueueTx_row in E as (-> & Hn & Hnone & row & Hrows & Hrow).
  assert (Hfree1 : forall id, q_next_id q1 <= id -> q_rows q1 !! id = None).
  { intros id Hid. rewrite Hrows, lookup_insert_ne by lia. apply Hfree. lia. }
  destruct (IH _ _ _ E1 Hfree1) as (Hall & Hkeep & Hnd & Hnew & Hge).
  assert (Hnotin : q_next_id q ∉ ids1).
  { intros Hin. apply (proj1 (Forall_forall _ _) Hge) in Hin. lia. }
  split_and!.
  - constructor; [|done]. exists row. split; [|done]. rewrite Hkeep by done. rewrite Hrows. apply lookup_insert_eq.
  - intros id [Hne Hid]%not_elem_of_cons. rewrite Hkeep by done. by rewrite Hrows, lookup_insert_ne.
  - by constructor.
  - constructor; [done|]. eapply Forall_impl; [exact Hge|]. intros id Hid. simpl in Hid. apply Hfree. lia.
  - constructor; [lia|]. eapply Forall_impl; [exact Hge|]. intros id Hid. simpl in Hid. lia.
Qed.

(** Whatever a submission returns, rows are only added, and they are the tenant's and
    account's. *)
Definition rows_from (tenantID accountID : Z) (mailFrom : string) (q q' : QDB) : Prop :=
  (forall id row, q_rows q !! id = Some row -> q_rows q' !! id = Some row) /\
  (forall id row, q_rows q' !! id = Some row -> q_rows q !! id = Some row \/
     r_tenant_id row = tenantID /\ r_account_id row = accountID /\ r_mail_from row = mailFrom).

(** Rows are only added, and they are the account's. *)
Definition rows_of (accountID : Z) (q q' : QDB) : Prop :=
  (forall id row, q_rows q !! id = Some row -> q_rows q' !! id = Some row) /\
  (forall id row, q_rows q' !! id = Some row -> q_rows q !! id = Some row \/ r_account_id row = accountID).
Lemma rows_of_trans a q1 q2 q3 : rows_of a q1 q2 -> rows_of a q2 q3 -> rows_of a q1 q3.
Proof. intros [A1 A2] [B1 B2]. split; [auto|]. intros id row [Hr|?]%B2; auto. Qed.
Lemma rows_from_of t a mf q q' : rows_from t a mf q q' -> rows_of a q q'.
Proof. intros [A1 A2]. split; [done|]. intros id row [?|(_ & ? & _)]%A2; auto. Qed.

Lemma enqueue_all_from now t a m mf ref size nb dsnp rcpts q ids q' :
  enqueue_all now t a m mf ref size nb dsnp rcpts q = Ok (ids, q') -> rows_from t a mf q q'.
Proof.
  revert q ids q'. induction rcpts as [|r rcpts IH]; intros q ids q'; cbn [enqueue_all].
  { intros [= <- <-]. split; [done|]. intros. by left. }
  destruct (EnqueueTx now _ q) as [[id q1]|] eqn:E; [|done]. simpl.
  destruct (enqueue_all now t a m mf ref size nb dsnp rcpts q1) as [[ids1 q2]|] eqn:E1; [|done]. simpl.
  intros [= <- <-]. apply EnqueueTx_row in E as (-> & Hn & Hnone & row & Hrows & Hrow).
  destruct (IH _ _ _ E1) as [K1 K2]. split.
  - intros id0 row0 Hr. apply K1. rewrite Hrows, lookup_insert_ne; [done|]. intros <-. congruence.
  - intros id0 row0 Hr. apply K2 in Hr as [Hr|?]; [|by right]. rewrite Hrows in Hr.
    apply lookup_insert_Some in Hr as [[<- <-]|[_ Hr]]; [right|by left].
    destruct Hrow as (Q1 & Q2 & Q3 & _). done.
Qed.

Lemma submit_from now co t a m mf rcpts raw nb dsnp b q :
  rows_from t a mf q (submit now co t a m mf rcpts raw nb dsnp b q).2.
Proof.
  assert (Hrefl : rows_from t a mf q q) by (split; [done|intros; by left]).
  unfold submit. destruct rcpts as [|r0 rcpts]; [done|]. destruct (negb (parses mf) && _); [done|].
  destruct (negb (forallb parses _)); [done|]. destruct (blob_Put t raw b) as [[[ref size]|e] b1]; [|done].
  destruct (enqueue_all _ _ _ _ _ _ _ _ _ _ _) as [[ids q1]|e] eqn:Ee; [|done].
  apply enqueue_all_from in Ee. by destruct co as [|[]].
Qed.

(** [C19] A submission is all or nothing: when it succeeds every recipient has a fresh
    queue row of its own, in the order given, that names the authenticated tenant and
    account and a body the store can read; the other rows are untouched.  When it
    fails, the queue is as it was, unless the commit's outcome is
    unknown, which the error says.  No stored body is lost either way. *)
Theorem submission_atomic (now : Z) (co : commit) (tenantID accountID messageID : Z) (mailFrom : string)
    (rcptTo : list string) (raw : string) (notBefore : Z) (dsnp : DSNParams) (b b' : blob_state) (q q' : QDB)
    (r : result (list Z)) :
  (forall id, q_next_id q <= id -> q_rows q !! id = None) ->
  submit now co tenantID accountID messageID mailFrom rcptTo raw notBefore dsnp b q = (r, b', q') ->
  match r with
  | Ok ids =>
      exists ref data, blob_Open tenantID ref b' = Ok data /\ (data = raw \/ blob_Open tenantID ref b = Ok data) /\
        Forall2 (fun id rcpt => exists row, q_rows q' !! id = Some row /\
                   queued_for tenantID accountID messageID mailFrom ref rcpt row) ids rcptTo /\
        NoDup ids /\ Forall (fun id => q_rows q !! id = None) ids /\
        (forall id, id ∉ ids -> q_rows q' !! id = q_rows q !! id)
  | Err e => q' = q \/ IsResultUnknown e = true
  end /\
  (forall t ref data, blob_Open t ref b = Ok data -> blob_Open t ref b' = Ok data).
Proof.
  intros Hfree. unfold submit. destruct rcptTo as [|r0 rcpts]; [intros [= <- <- <-]; split; [by left|done]|].
  destruct (negb (parses mailFrom) && _); [intros [= <- <- <-]; split; [by left|done]|].
  destruct (negb (forallb parses _)); [intros [= <- <- <-]; split; [by left|done]|].
  destruct (blob_Put tenantID raw b) as [[[ref size]|e] b1] eqn:Eb.
  2:{ intros [= <- <- <-]. split; [by left|]. intros. by eapply put_keeps. }
  assert (Hkeep : forall t rf data, blob_Open t rf b = Ok data -> blob_Open t rf b1 = Ok data) by (intros; by eapply put_keeps).
  destruct (enqueue_all _ _ _ _ _ _ _ _ _ _ _) as [[ids q1]|e] eqn:Ee; [|intros [= <- <- <-]; split; [by left|done]].
  destruct co as [|applied]; intros [= <- <- <-]; (split; [|done]); [|by right].
  destruct (put_open _ _ _ _ _ _ Eb) as (data & Hopen & Hdata).
  destruct (enqueue_all_rows _ _ _ _ _ _ _ _ _ _ _ _ _ Ee Hfree) as (Hall & Hrest & Hnd & Hnew & _).
  exists ref, data. done.
Qed.

End Spec.

(** ** Vacation replies (mailflow/autoreply/autoreply.go, storage/postgres/vacation.go)

    The responder the receiving server calls after a delivery to the Inbox: the account's
    answer to its sender, once per sender and day. *)

Record VacationResponse := mkVacation {
  v_Enabled : bool; v_Subject : string; v_TextBody : string; v_HTMLBody : string;
  v_FromDate : option Z; v_ToDate : option Z }.              (* [None]: the zero time *)

(** [vacation_response] by account, [vacation_sent] by account and recipient; both refer to [accounts]. *)
Record VacDB := mkVacDB {
  vd_accounts : gset Z; vd_response : gmap Z VacationResponse; vd_sent : gmap (Z * string) Z }.
Definition vd_set_sent t v := mkVacDB (vd_accounts v) (vd_response v) t.

Definition VacationGet (accountID : Z) (v : VacDB) : option VacationResponse := vd_response v !! accountID.
Definition VacationSet (accountID : Z) (r : VacationResponse) (v : VacDB) : result VacDB :=
  if negb (text_ok (v_Subject r) && text_ok (v_TextBody r) && text_ok (v_HTMLBody r)) then Err ErrDecode
  else if negb (bool_decide (accountID ∈ vd_accounts v)) then Err ErrForeignKey
  else Ok (mkVacDB (vd_accounts v) (<[accountID := r]> (vd_response v)) (vd_sent v)).

(** 24 hours, in microseconds. *)
Definition vacation_window : Z := 86400000000.
(** [INSERT ... ON CONFLICT DO UPDATE ... WHERE sent_at < now() - interval '24 hours']: whether a row was affected. *)
Definition VacationShouldReply (now accountID : Z) (sender : string) (v : VacDB) : result (bool * VacDB) :=
  if negb (text_ok sender) then Err ErrDecode
  else if negb (bool_decide (accountID ∈ vd_accounts v)) then Err ErrForeignKey
  else
    let granted := Ok (true, vd_set_sent (<[(accountID, sender) := now]> (vd_sent v)) v) in
    match vd_sent v !! (accountID, sender) with
    | None => granted
    | Some sent_at => if sent_at <? now - vacation_window then granted else Ok (false, v)
    end.

Section Autoreply.
Context `{BlobOps} `{AddressParser} `{Unicode}.

Definition normalizeEOL (raw : list ascii) : list ascii := NormalizeEOL raw.

(** A header field of bulk, list or automatic mail. *)
Definition automatic_field (name val : string) : bool :=
  if String.eqb name "auto-submitted" then negb (String.eqb val "no")
  else if String.eqb name "precedence" then contains val "bulk" || contains val "list" || contains val "junk"
  else String.eqb name "list-id" || String.eqb name "list-unsubscribe" || String.eqb name "list-post".
Definition isAutoGenerated (raw : string) : bool :=
  existsb (fun line => match field_of line with
                       | Some (name, val) => automatic_field name (ToLower val)
                       | None => false
                       end)
    (unfold_lines (header_block (normalizeEOL (bytes_of raw)))).

Definition isAutomated (sender : string) : bool :=
  if String.eqb sender EmptyString then true
  else
    let l := ToLower sender in
    let local := match index_byte "@"%char (bytes_of l) with Some i => str_of (take i (bytes_of l)) | None => l end in
    existsb (contains local) ["mailer-daemon"; "postmaster"; "no-reply"; "noreply"; "bounce"; "bounces"]%string.

Definition crlf_s : string := str_of CRLF.
Definition buildReply (from to subject text : string) : string :=
  "From: " ++ from ++ crlf_s ++ "To: " ++ to ++ crlf_s ++ "Subject: " ++ subject ++ crlf_s ++
  "Auto-Submitted: auto-replied" ++ crlf_s ++ "MIME-Version: 1.0" ++ crlf_s ++
  "Content-Type: text/plain; charset=utf-8" ++ crlf_s ++ crlf_s ++ text ++
  (if match rev (bytes_of text) with c :: _ => Ascii.eqb c LF | [] => false end then EmptyString else crlf_s).

(** What the clocks, the directory and the commit answer while one call runs. *)
Record RespondEnv := mkRespondEnv {
  re_now : Z; re_sent_now : Z; re_submit_now : Z; re_commit : commit; re_Lookup : Z -> result Z }.

Definition in_window (now : Z) (r : VacationResponse) : bool :=
  match v_FromDate r with Some t => negb (now <? t) | None => true end &&
  match v_ToDate r with Some t => negb (t <? now) | None => true end.

Definition Respond (env : RespondEnv) (accountID : Z) (sender recipient raw : string) (v : VacDB)
  (m : blob_state * QDB) : result unit * VacDB * (blob_state * QDB) :=
  if isAutoGenerated raw then (Ok tt, v, m)
  else match re_Lookup env accountID with
  | Err e => (Err e, v, m)
  | Ok tenantID =>
      match VacationGet accountID v with
      | None => (Ok tt, v, m)
      | Some r =>
          if negb (v_Enabled r) then (Ok tt, v, m)
          else if negb (in_window (re_now env) r) then (Ok tt, v, m)
          else if isAutomated sender then (Ok tt, v, m)
          else match VacationShouldReply (re_sent_now env) accountID sender v with
          | Err e => (Err e, v, m)
          | Ok (false, v) => (Ok tt, v, m)
          | Ok (true, v) =>
              let subject := if String.eqb (v_Subject r) EmptyString then "Auto-reply"%string else v_Subject r in
              let msg := buildReply recipient sender subject (v_TextBody r) in
              let '(x, b, q) := Submit (re_submit_now env) (re_commit env) tenantID accountID EmptyString [sender] msg m.1 m.2 in
              (try! _ := x in Ok tt, v, (b, q))
          end
      end
  end.

End Autoreply.

(** ** A vacation reply goes out once a day *)

Section Vacation.
Context `{BlobOps} `{AddressParser} `{Unicode}.

(** What a submission with a single recipient may add: nothing or one row for it. *)
Definition one_row (accountID : Z) (mailFrom rcpt : string) (q q' : QDB) : Prop :=
  exists id row, q_rows q !! id = None /\ q_rows q' = <[id := row]> (q_rows q) /\
    r_account_id row = accountID /\ r_mail_from row = mailFrom /\ r_rcpt_to row = rcpt.

Lemma Submit_one now co t a mf rcpt raw b q :
  (Submit now co t a mf [rcpt] raw b q).2 = q \/ one_row a mf rcpt q (Submit now co t a mf [rcpt] raw b q).2.
Proof.
  unfold Submit, submit. destruct (negb (parses mf) && _); [by left|]. destruct (negb (forallb parses _)); [by left|].
  destruct (blob_Put t raw b) as [[[ref size]|e] b1]; [|by left]. cbn [enqueue_all].
  destruct (EnqueueTx now _ q) as [[id q1]|e] eqn:E; [|by left]. cbn.
  assert (Hone : one_row a mf rcpt q q1).
  { apply EnqueueTx_row in E as (-> & _ & Hn & row & Hr & (_ & Ha & Hm & Hrc & _)). by eexists _, row. }
  destruct co as [|[]]; [by right|by right|by left].
Qed.

(** A call leaves the queue as it was, or answers: the message was not automatic, nor its sender,
    and the day since the last answer was over, as the table now says. *)
Lemma Respond_cases env a sender recipient raw v m :
  let '(_, v', m') := Respond env a sender recipient raw v m in
  vd_accounts v' = vd_accounts v /\ vd_response v' = vd_response v /\
  (v' = v /\ m' = m \/
   vd_sent v' = <[(a, sender) := re_sent_now env]> (vd_sent v) /\
   (forall t, vd_sent v !! (a, sender) = Some t -> t + vacation_window < re_sent_now env) /\
   isAutoGenerated raw = false /\ isAutomated sender = false /\
   (exists r, vd_response v !! a = Some r /\ v_Enabled r = true /\ in_window (re_now env) r = true) /\
   (m'.2 = m.2 \/ one_row a EmptyString sender m.2 m'.2)).
Proof.
  unfold Respond. destruct (isAutoGenerated raw) eqn:Eg; [split_and!; try done; by left|].
  destruct (re_Lookup env a) as [tenant|]; [|split_and!; try done; by left].
  unfold VacationGet. destruct (vd_response v !! a) as [r|] eqn:Er; [|split_and!; try done; by left].
  destruct (v_Enabled r) eqn:Ee; [|split_and!; try done; by left]. cbn [negb].
  destruct (in_window (re_now env) r) eqn:Ew; [|split_and!; try done; by left]. cbn [negb].
  destruct (isAutomated sender) eqn:Ea; [split_and!; try done; by left|].
  destruct (VacationShouldReply (re_sent_now env) a sender v) as [[[] v']|] eqn:Es; [|..|split_and!; try done; by left].
  2:{ unfold VacationShouldReply in Es. repeat case_match; simplify_eq. split_and!; try done. by left. }
  set (msg := buildReply _ _ _ _).
  pose proof (Submit_one (re_submit_now env) (re_commit env) tenant a EmptyString sender msg m.1 m.2) as Hq.
  destruct (Submit _ _ _ _ _ _ _ _ _) as [[x b] q]. cbn [snd] in Hq.
  unfold VacationShouldReply in Es. destruct (negb (text_ok sender)); [done|]. destruct (negb _); [done|].
  assert (Hs : v' = vd_set_sent (<[(a, sender) := re_sent_now env]> (vd_sent v)) v /\
    forall t, vd_sent v !! (a, sender) = Some t -> t + vacation_window < re_sent_now env).
  { destruct (vd_sent v !! (a, sender)) as [t|]; [|by injection Es as <-].
    destruct (Z.ltb_spec t (re_sent_now env - vacation_window)); [|done]. injection Es as <-. split; [done|]. intros ? [= <-]. lia. }
  destruct Hs as [-> Ht]. split_and!; try done. right. split_and!; eauto.
Qed.

(** A reply in the queue, with what it answered. *)
Record reply := mkReply_ {
  vr_account : Z; vr_sender : string; vr_raw : string; vr_at : Z; vr_before : QDB; vr_after : QDB }.
Record VacSys := mkVacSys { vs_db : VacDB; vs_mail : blob_state * QDB; vs_log : list reply }.

(** Calls of any nodes, accounts that change their settings, and whatever else happens to the
    bodies and the queue; a call that changes the queue is a reply.  Calls run one after the
    other here: what concurrent ones share is [vacation_sent], which one statement reads and
    writes, so that their order at that statement is such a sequence. *)
Inductive vac_step : VacSys -> VacSys -> Prop :=
| vac_quiet v m log env a sender recipient raw r v' m' :
    Respond env a sender recipient raw v m = (r, v', m') -> m'.2 = m.2 ->
    vac_step (mkVacSys v m log) (mkVacSys v' m' log)
| vac_replied v m log env a sender recipient raw r v' m' :
    Respond env a sender recipient raw v m = (r, v', m') -> m'.2 <> m.2 ->
    vac_step (mkVacSys v m log) (mkVacSys v' m' (log ++ [mkReply_ a sender raw (re_sent_now env) m.2 m'.2]))
| vac_set v m log a r v' : VacationSet a r v = Ok v' -> vac_step (mkVacSys v m log) (mkVacSys v' m log)
| vac_mail v m log m' : vac_step (mkVacSys v m log) (mkVacSys v m' log).
Inductive vac_reach : VacSys -> Prop :=
| vac_start v m : vac_reach (mkVacSys v m [])
| vac_next s s' : vac_reach s -> vac_step s s' -> vac_reach s'.

Definition answers (e : reply) : Prop :=
  isAutoGenerated (vr_raw e) = false /\ isAutomated (vr_sender e) = false /\
  one_row (vr_account e) EmptyString (vr_sender e) (vr_before e) (vr_after e).
Definition same_pair (x y : reply) : Prop := vr_account x = vr_account y /\ vr_sender x = vr_sender y.
(** Later replies of a pair come more than a day after earlier ones. *)
Fixpoint spaced (log : list reply) : Prop :=
  match log with
  | [] => True
  | x :: log => Forall (fun y => same_pair x y -> vr_at x + vacation_window < vr_at y) log /\ spaced log
  end.
Lemma spaced_snoc log y : spaced log -> Forall (fun x => same_pair x y -> vr_at x + vacation_window < vr_at y) log ->
  spaced (log ++ [y]).
Proof.
  induction log as [|x log IH]; intros Hs Hy; cbn; [done|]. destruct Hs as [Hx Hs]. apply Forall_cons in Hy as [Hxy Hy].
  split; [|by apply IH]. apply Forall_app. split; [done|]. by apply Forall_singleton.
Qed.
(** What the table remembers covers every reply sent. *)
Definition remembered (v : VacDB) (log : list reply) : Prop :=
  Forall (fun e => exists t, vd_sent v !! (vr_account e, vr_sender e) = Some t /\ vr_at e <= t) log.

Lemma remembered_later v v' a sender now log : remembered v log ->
  vd_sent v' = <[(a, sender) := now]> (vd_sent v) ->
  (forall t, vd_sent v !! (a, sender) = Some t -> t + vacation_window < now) -> remembered v' log.
Proof.
  intros Hr Hs Ht. eapply Forall_impl; [exact Hr|]. intros e (t & Hl & Hle). rewrite Hs, lookup_insert. case_decide as Hk; [|eauto].
  exists now. split; [done|]. rewrite <- Hk in Hl. specialize (Ht t Hl). unfold vacation_window in Ht. lia.
Qed.

Lemma vac_invariant s : vac_reach s -> remembered (vs_db s) (vs_log s) /\ spaced (vs_log s) /\ Forall answers (vs_log s).
Proof.
  induction 1 as [v m|s s' _ (Hr & Hs & Ha) Hstep]; [split_and!; constructor|].
  destruct Hstep as [v m log env a sender recipient raw r v' m' E Hq|v m log env a sender recipient raw r v' m' E Hq|v m log a r v' E|]; cbn [vs_db vs_log] in *.
  - pose proof (Respond_cases env a sender recipient raw v m) as Hc. rewrite E in Hc.
    destruct Hc as (_ & _ & [[-> _]|(Hv & Ht & _)]); [done|]. split; [|done]. by eapply remembered_later.
  - pose proof (Respond_cases env a sender recipient raw v m) as Hc. rewrite E in Hc.
    destruct Hc as (_ & _ & [[_ ->]|(Hv & Ht & Hg & Hau & _ & [Hsame|Hone])]); [done|done|]. split_and!.
    + apply Forall_app. split; [by eapply remembered_later|]. apply Forall_singleton. exists (re_sent_now env). cbn.
      rewrite Hv, lookup_insert_eq. split; [done|lia].
    + apply spaced_snoc; [done|]. eapply Forall_impl; [exact Hr|]. intros e (t & Hl & Hle) [E1 E2]. cbn in *.
      rewrite E1, E2 in Hl. specialize (Ht t Hl). lia.
    + apply Forall_app. split; [done|]. by apply Forall_singleton.
  - unfold VacationSet in E. destruct (negb _); [done|]. destruct (negb _); [done|]. injection E as <-. done.
  - done.
Qed.

(** [C39] Vacation replies: whatever calls of whatever nodes, with clocks as they may be, and
    whatever changes of the accounts' settings, an account answers a sender at most once in 24
    hours; a reply goes to the sender alone, with a null return path, and never answers an
    automatic message or an automatic sender. *)
Theorem vacation_once s : vac_reach s -> spaced (vs_log s) /\ Forall answers (vs_log s).
Proof. intros Hs. by destruct (vac_invariant s Hs) as (_ & ? & ?). Qed.

End Vacation.

(** ** Instances *)

#[local] Instance demo_parser : AddressParser :=
  { ParseAddress := fun s => if contains s "@" then Some (mkAddress s (Addr.Domain s)) else None }.

Definition empty_queue : QDB := mkQDB {[1]} {[1]} ∅ [] ∅ ∅ 1 1.
Definition two_rcpts : list string := ["b@x.example"; "c@y.example"].
Definition submitted := Submit 5 Committed 1 1 "a@x.example" two_rcpts "hello" no_files empty_queue.

Lemma triple_eta {A B C} (x : A * B * C) : x = (x.1.1, x.1.2, x.2).
Proof. by destruct x as [[]]. Qed.

Lemma submission_atomic_witness :
  submitted.1.1 = Ok [1; 2] /\
  (exists row, q_rows submitted.2 !! 2 = Some row /\ r_rcpt_to row = "c@y.example"%string) /\
  (Submit 5 Committed 1 1 "a@x.example" ["b@x.example"; "nobody"] "hello" no_files empty_queue).2 = empty_queue.
Proof.
  assert (Hr : submitted.1.1 = Ok [1; 2]) by (vm_compute; reflexivity).
  split; [exact Hr|]. split; [|vm_compute; reflexivity].
  destruct (submission_atomic 5 Committed 1 1 0 "a@x.example" two_rcpts "hello" 0 no_dsn no_files submitted.1.2
              empty_queue submitted.2 submitted.1.1 ltac:(intros id _; apply lookup_empty)
              (triple_eta submitted)) as [Hs _].
  rewrite Hr in Hs. destruct Hs as (ref & data & _ & _ & Hall & _).
  inversion Hall as [|? ? ? ? _ H2]. inversion H2 as [|? ? ? ? (row & Hrow & Hq) _]. exists row. split; [exact Hrow|].
  apply Hq.
Defined.

(** *** Alice is away: two messages of one sender on one day, one more the day after *)

#[local] Instance vac_unicode : Unicode := { unicode_lower := fun r => r; EqualFold := String.eqb }.
Definition vac_db : VacDB := mkVacDB {[1]} {[1 := mkVacation true EmptyString "away" EmptyString None None]} ∅.
Definition vac_env (now : Z) : RespondEnv := mkRespondEnv now now now Committed (fun _ => Ok 1).
Definition vac_call (now : Z) (s : VacDB * (blob_state * QDB)) : VacDB * (blob_state * QDB) :=
  let '(_, v, m) := Respond (vac_env now) 1 "s@a.example" "alice@x.example" "Subject: hi" s.1 s.2 in (v, m).
Definition vac_s0 : VacDB * (blob_state * QDB) := (vac_db, (no_files, empty_queue)).
Definition vac_s1 := vac_call 5 vac_s0.
Definition vac_s2 := vac_call 6 vac_s1.
Definition vac_s3 := vac_call (vacation_window + 6) vac_s2.
Definition vac_reply (now : Z) (s s' : VacDB * (blob_state * QDB)) : reply := mkReply_ 1 "s@a.example" "Subject: hi" now s.2.2 s'.2.2.

Lemma vac_call_step now s : exists r,
  Respond (vac_env now) 1 "s@a.example" "alice@x.example" "Subject: hi" s.1 s.2 = (r, (vac_call now s).1, (vac_call now s).2).
Proof. unfold vac_call. destruct (Respond _ _ _ _ _ _ _) as [[r v] m]. by exists r. Qed.

Lemma vac_grows now s log : q_next_id s.2.2 <> q_next_id (vac_call now s).2.2 -> vac_reach (mkVacSys s.1 s.2 log) ->
  vac_reach (mkVacSys (vac_call now s).1 (vac_call now s).2 (log ++ [vac_reply now s (vac_call now s)])).
Proof.
  intros Hn Hs. destruct (vac_call_step now s) as [r E]. eapply vac_next; [exact Hs|].
  apply (vac_replied s.1 s.2 log (vac_env now) 1 "s@a.example" "alice@x.example" "Subject: hi" r _ _ E).
  intros Hq. by rewrite Hq in Hn.
Qed.
Lemma vac_same now s log : (vac_call now s).2.2 = s.2.2 -> vac_reach (mkVacSys s.1 s.2 log) ->
  vac_reach (mkVacSys (vac_call now s).1 (vac_call now s).2 log).
Proof. intros Hq Hs. destruct (vac_call_step now s) as [r E]. eapply vac_next; [exact Hs|]. by eapply vac_quiet. Qed.

Definition vac_log : list reply := ([] ++ [vac_reply 5 vac_s0 vac_s1]) ++ [vac_reply (vacation_window + 6) vac_s2 vac_s3].
Lemma vac_demo : vac_reach (mkVacSys vac_s3.1 vac_s3.2 vac_log).
Proof.
  apply (vac_grows (vacation_window + 6) vac_s2); [vm_compute; discriminate|].
  apply (vac_same 6 vac_s1); [vm_compute; reflexivity|].
  apply (vac_grows 5 vac_s0 []); [vm_compute; discriminate|]. apply vac_start.
Qed.

Lemma vacation_once_witness : length vac_log = 2%nat /\ spaced vac_log /\ Forall answers vac_log.
Proof. split; [reflexivity|]. exact (vacation_once _ vac_demo). Defined.
