(* ===== verification/Base64.v ===== *)
(** * encoding/base64

    The standard alphabet with padding and the URL alphabet without, as the SMTP
    server and the auto-reply chain use them. *)

From S2P Require Import Prelude GoStrings.

Local Open Scope go_scope.

(** ** Alphabets *)

(** The letter of six bits; [plus] and [slash] are the last two of the alphabet. *)
Definition letter (plus slash : Z) (v : Z) : Z :=
  if v <? 26 then 65 + v else if v <? 52 then 71 + v else if v <? 62 then v - 4 else if v =? 62 then plus else slash.
Definition letter_value (plus slash : Z) (c : Z) : option Z :=
  if (65 <=? c) && (c <=? 90) then Some (c - 65)
  else if (97 <=? c) && (c <=? 122) then Some (c - 71)
  else if (48 <=? c) && (c <=? 57) then Some (c + 4)
  else if c =? plus then Some 62
  else if c =? slash then Some 63
  else None.

Section Alphabet.
Variables plus slash : Z.

(** The letters of the groups of three bytes, and of the last one or two. *)
Fixpoint letters (l : list Z) : list Z :=
  match l with
  | a :: b :: c :: l =>
      letter plus slash (a / 4) :: letter plus slash (16 * (a mod 4) + b / 16)
        :: letter plus slash (4 * (b mod 16) + c / 64) :: letter plus slash (c mod 64) :: letters l
  | [a; b] => [letter plus slash (a / 4); letter plus slash (16 * (a mod 4) + b / 16); letter plus slash (4 * (b mod 16))]
  | [a] => [letter plus slash (a / 4); letter plus slash (16 * (a mod 4))]
  | [] => []
  end.

(** Whole groups; then two or three letters.  The bits a last letter does not need
    are not looked at, as the encodings are not strict. *)
Fixpoint unletter (l : list Z) : option (list Z) :=
  match l with
  | [] => Some []
  | [_] => None
  | [x; y] =>
      match letter_value plus slash x, letter_value plus slash y with
      | Some a, Some b => Some [4 * a + b / 16]
      | _, _ => None
      end
  | [x; y; z] =>
      match letter_value plus slash x, letter_value plus slash y, letter_value plus slash z with
      | Some a, Some b, Some c => Some [4 * a + b / 16; 16 * (b mod 16) + c / 4]
      | _, _, _ => None
      end
  | x :: y :: z :: w :: l =>
      match letter_value plus slash x, letter_value plus slash y, letter_value plus slash z, letter_value plus slash w with
      | Some a, Some b, Some c, Some e =>
          match unletter l with
          | Some out => Some (4 * a + b / 16 :: 16 * (b mod 16) + c / 4 :: 64 * (c mod 4) + e :: out)
          | None => None
          end
      | _, _, _, _ => None
      end
  end.
End Alphabet.

Definition codes (l : list ascii) : list Z := byte_of <$> l.
Definition chars (l : list Z) : list ascii := byte_char <$> l.

(** CR and LF are skipped wherever they are. *)
Definition skip_eol (l : list Z) : list Z := filter (fun c => c <> 10 /\ c <> 13) l.

(** [StdEncoding]: the last group is padded with [=] to four letters. *)
Definition Std_Encode (l : list ascii) : string :=
  let w := letters 43 47 (codes l) in
  str_of (chars (w ++ match Nat.modulo (length w) 4 with 2%nat => [61; 61] | 3%nat => [61] | _ => [] end)).
Definition unpad (l : list Z) : option (list Z) :=
  if negb (Nat.eqb (Nat.modulo (length l) 4) 0) then None
  else match rev l with
       | 61 :: 61 :: r => Some (rev r)
       | 61 :: r => Some (rev r)
       | _ => Some l
       end.
Definition Std_Decode (s : string) : option (list ascii) :=
  match unpad (skip_eol (codes (bytes_of s))) with
  | Some l => chars <$> unletter 43 47 l
  | None => None
  end.

(** [RawURLEncoding]. *)
Definition RawURL_Encode (l : list ascii) : string := str_of (chars (letters 45 95 (codes l))).
Definition RawURL_Decode (s : string) : option (list ascii) := chars <$> unletter 45 95 (skip_eol (codes (bytes_of s))).

Example base64_examples :
  Std_Encode (bytes_of "foobar") = "Zm9vYmFy"%string /\ Std_Encode (bytes_of "fo") = "Zm8="%string /\
  Std_Decode "Zm8=" = Some (bytes_of "fo") /\ Std_Decode "Zg==" = Some (bytes_of "f") /\ Std_Decode "Zg=" = None /\
  Std_Decode "Z===" = None /\ RawURL_Encode [byte_char 251; byte_char 255] = "-_8"%string.
Proof. repeat split; vm_compute; reflexivity. Qed.

(** ** Round trip *)

Definition is_byte (n : Z) : Prop := 0 <= n < 256.

Lemma letter_back plus slash v : 0 <= v < 64 -> (plus = 43 /\ slash = 47) \/ (plus = 45 /\ slash = 95) ->
  letter_value plus slash (letter plus slash v) = Some v /\
  0 <= letter plus slash v < 256 /\ letter plus slash v <> 10 /\ letter plus slash v <> 13.
Proof.
  intros Hv Ha. unfold letter, letter_value.
  destruct (Z.ltb_spec v 26); [|destruct (Z.ltb_spec v 52); [|destruct (Z.ltb_spec v 62); [|destruct (Z.eqb_spec v 62)]]].
  all: (split; [|lia]); repeat (case_match; b2p; try lia); try (f_equal; lia).
  all: match goal with H : (_ && _) = false |- _ => apply andb_false_iff in H as [?|?]; b2p; lia | _ => idtac end.
  all: b2p; lia.
Qed.

Section RoundTrip.
Variables plus slash : Z.
Hypothesis alphabet : (plus = 43 /\ slash = 47) \/ (plus = 45 /\ slash = 95).

Lemma back v : 0 <= v < 64 -> letter_value plus slash (letter plus slash v) = Some v.
Proof. intros Hv. by apply letter_back. Qed.

Lemma six a b c : is_byte a -> is_byte b -> is_byte c ->
  0 <= a / 4 < 64 /\ 0 <= 16 * (a mod 4) + b / 16 < 64 /\ 0 <= 4 * (b mod 16) + c / 64 < 64 /\ 0 <= c mod 64 < 64 /\
  0 <= 16 * (a mod 4) < 64 /\ 0 <= 4 * (b mod 16) < 64.
Proof. unfold is_byte. intros Ha Hb Hc. repeat split; Z.to_euclidean_division_equations; lia. Qed.

Lemma unletter_letters l : Forall is_byte l -> unletter plus slash (letters plus slash l) = Some l.
Proof.
  revert l. fix IH 1. intros [|a [|b [|c l]]] Hl; [done|..].
  - apply Forall_cons in Hl as [Ha _]. pose proof (six a 0 0 Ha ltac:(done) ltac:(done)) as H6.
    cbn [letters unletter]. rewrite !back by lia. do 2 f_equal. unfold is_byte in *.
    Z.to_euclidean_division_equations; lia.
  - apply Forall_cons in Hl as [Ha Hl]. apply Forall_cons in Hl as [Hb _].
    pose proof (six a b 0 Ha Hb ltac:(done)) as H6.
    cbn [letters unletter]. rewrite !back by lia. unfold is_byte in *.
    f_equal. f_equal; [|f_equal]; Z.to_euclidean_division_equations; lia.
  - apply Forall_cons in Hl as [Ha Hl]. apply Forall_cons in Hl as [Hb Hl]. apply Forall_cons in Hl as [Hc Hl].
    pose proof (six a b c Ha Hb Hc) as H6.
    cbn [letters unletter]. rewrite !back by lia. rewrite (IH l Hl). unfold is_byte in *.
    f_equal. f_equal; [|f_equal; [|f_equal]]; Z.to_euclidean_division_equations; lia.
Qed.

Lemma letters_clean l : Forall is_byte l ->
  Forall (fun c => 0 <= c < 256 /\ c <> 10 /\ c <> 13) (letters plus slash l).
Proof.
  revert l. fix IH 1. intros [|a [|b [|c l]]] Hl; [constructor|..].
  - apply Forall_cons in Hl as [Ha _]. pose proof (six a 0 0 Ha ltac:(done) ltac:(done)) as H6.
    cbn [letters]. repeat constructor; apply letter_back; (lia || exact alphabet).
  - apply Forall_cons in Hl as [Ha Hl]. apply Forall_cons in Hl as [Hb _].
    pose proof (six a b 0 Ha Hb ltac:(done)) as H6.
    cbn [letters]. repeat constructor; apply letter_back; (lia || exact alphabet).
  - apply Forall_cons in Hl as [Ha Hl]. apply Forall_cons in Hl as [Hb Hl]. apply Forall_cons in Hl as [Hc Hl].
    pose proof (six a b c Ha Hb Hc) as H6.
    cbn [letters]. repeat constructor; try (apply letter_back; (lia || exact alphabet)). by apply IH.
Qed.

End RoundTrip.

Lemma byte_char_of c : byte_char (byte_of c) = c.
Proof. unfold byte_char, byte_of. rewrite Nat2Z.id. apply ascii_nat_embedding. Qed.

Lemma byte_of_char n : 0 <= n < 256 -> byte_of (byte_char n) = n.
Proof. intros Hn. unfold byte_of, byte_char. rewrite nat_ascii_embedding by lia. lia. Qed.

Lemma codes_bytes l : Forall is_byte (codes l).
Proof.
  apply Forall_fmap, Forall_forall. intros c _. unfold compose, is_byte, byte_of. pose proof (nat_ascii_bounded c). lia.
Qed.

Lemma chars_codes l : chars (codes l) = l.
Proof. unfold chars, codes. rewrite <- list_fmap_compose. rewrite <- (list_fmap_id l) at 2. apply list_fmap_ext. intros. apply byte_char_of. Qed.

Lemma codes_chars l : Forall (fun c => 0 <= c < 256) l -> codes (chars l) = l.
Proof.
  intros Hl. unfold chars, codes. rewrite <- list_fmap_compose. rewrite <- (list_fmap_id l) at 2.
  induction Hl as [|c l Hc Hl IH]; [done|]. csimpl. by rewrite IH, byte_of_char.
Qed.

(** Decoding an encoding gives the bytes back. *)
Lemma RawURL_roundtrip l : RawURL_Decode (RawURL_Encode l) = Some l.
Proof.
  unfold RawURL_Decode, RawURL_Encode. rewrite bytes_of_str_of.
  pose proof (letters_clean 45 95 ltac:(by right) (codes l) (codes_bytes l)) as Hc.
  rewrite codes_chars by (eapply Forall_impl; [exact Hc|]; intros x Hx; simpl in Hx; lia).
  unfold skip_eol. assert (Hf : filter (fun c => c <> 10 /\ c <> 13) (letters 45 95 (codes l)) = letters 45 95 (codes l)).
  { induction Hc as [|x k Hx Hk IHk]; [done|]. rewrite filter_cons_True by tauto. by rewrite IHk. }
  rewrite Hf, unletter_letters by (by right || apply codes_bytes). simpl. by rewrite chars_codes.
Qed.

(** The padding of the standard encoding is not a letter. *)
Lemma letters_no_pad l : Forall is_byte l ->
  Forall (fun c => c <> 61) (letters 43 47 l) /\ Nat.modulo (length (letters 43 47 l)) 4 <> 1%nat.
Proof.
  assert (Hl : forall v, 0 <= v < 64 -> letter 43 47 v <> 61) by (intros v Hv; unfold letter; repeat case_match; b2p; lia).
  revert l. fix IH 1. intros [|a [|b [|c l]]] Hb; [by split|..].
  - apply Forall_cons in Hb as [Ha _]. pose proof (six a 0 0 Ha ltac:(done) ltac:(done)) as H6.
    split; [|done]. cbn [letters]. repeat (apply Forall_cons_2; [apply Hl; lia|]). constructor.
  - apply Forall_cons in Hb as [Ha Hb]. apply Forall_cons in Hb as [Hb _]. pose proof (six a b 0 Ha Hb ltac:(done)) as H6.
    split; [|done]. cbn [letters]. repeat (apply Forall_cons_2; [apply Hl; lia|]). constructor.
  - apply Forall_cons in Hb as [Ha Hb]. apply Forall_cons in Hb as [Hb Hc]. apply Forall_cons in Hc as [Hc Hr].
    pose proof (six a b c Ha Hb Hc) as H6. destruct (IH l Hr) as [I1 I2]. split.
    + cbn [letters]. repeat (apply Forall_cons_2; [apply Hl; lia|]). exact I1.
    + cbn [letters length]. change (S (S (S (S (length (letters 43 47 l)))))) with (4 + length (letters 43 47 l))%nat.
      rewrite <- Nat.Div0.add_mod_idemp_l. exact I2.
Qed.

Lemma unpad_padded w : Forall (fun c => c <> 61) w -> Nat.modulo (length w) 4 <> 1%nat ->
  unpad (w ++ match Nat.modulo (length w) 4 with 2%nat => [61; 61] | 3%nat => [61] | _ => [] end) = Some w.
Proof.
  intros Hw Hn. unfold unpad. pose proof (Nat.mod_upper_bound (length w) 4 ltac:(done)) as Hlt.
  assert (Hr : exists k, w = rev k) by (exists (rev w); by rewrite rev_involutive). destruct Hr as [k ->].
  assert (Hk : Forall (fun c => c <> 61) k) by (apply Forall_rev in Hw; by rewrite rev_involutive in Hw). clear Hw.
  rewrite length_app, rev_app_distr, rev_involutive, <- Nat.Div0.add_mod_idemp_l.
  destruct (Nat.modulo (length (rev k)) 4) as [|[|[|[|n]]]]; [| |done| |lia]; [| |]; cbn [rev app length Nat.add]; [|done|].
  - destruct Hk as [|c k Hc _]; [done|]. cbn [Nat.modulo Nat.divmod Nat.eqb negb fst snd]. rewrite app_nil_r.
    destruct c as [|p|p]; try done; repeat (destruct p as [p|p|]; try done).
  - destruct Hk as [|c k Hc _]; [done|]. destruct c as [|p|p]; try done; repeat (destruct p as [p|p|]; try done).
Qed.

Lemma Std_roundtrip l : Std_Decode (Std_Encode l) = Some l.
Proof.
  unfold Std_Decode, Std_Encode. cbv zeta. rewrite bytes_of_str_of. set (w := letters 43 47 (codes l)).
  pose proof (letters_clean 43 47 ltac:(by left) (codes l) (codes_bytes l)) as Hc. fold w in Hc.
  destruct (letters_no_pad (codes l) (codes_bytes l)) as [Hp Hn]. fold w in Hp, Hn.
  set (pad := match Nat.modulo (length w) 4 with 2%nat => [61; 61] | 3%nat => [61] | _ => [] end).
  assert (Hall : Forall (fun c => 0 <= c < 256 /\ c <> 10 /\ c <> 13) (w ++ pad)).
  { apply Forall_app. split; [done|]. subst pad. destruct (Nat.modulo (length w) 4) as [|[|[|[|]]]]; repeat constructor; lia. }
  rewrite codes_chars by (eapply Forall_impl; [exact Hall|]; intros x Hx; simpl in Hx; lia).
  assert (Hf : skip_eol (w ++ pad) = w ++ pad).
  { unfold skip_eol. clear -Hall. induction Hall as [|x k Hx Hk IHk]; [done|]. rewrite filter_cons_True by tauto. by rewrite IHk. }
  rewrite Hf, unpad_padded by done. unfold w. rewrite unletter_letters by (by left || apply codes_bytes). simpl. by rewrite chars_codes.
Qed.

(** The letters of the URL alphabet. *)
Definition url_letter (c : Z) : Prop := 65 <= c <= 90 \/ 97 <= c <= 122 \/ 48 <= c <= 57 \/ c = 45 \/ c = 95.

Lemma letter_url v : 0 <= v < 64 -> url_letter (letter 45 95 v).
Proof. intros Hv. unfold url_letter, letter. repeat case_match; b2p; lia. Qed.

Lemma letters_url l : Forall is_byte l -> Forall url_letter (letters 45 95 l) /\ (length (letters 45 95 l) <= 2 * length l)%nat.
Proof.
  revert l. fix IH 1. intros [|a [|b [|c l]]] Hl; [split; [constructor|simpl; lia]|..].
  - apply Forall_cons in Hl as [Ha _]. pose proof (six a 0 0 Ha ltac:(done) ltac:(done)) as H6.
    cbn [letters]. split; [|simpl; lia]. repeat (apply Forall_cons_2; [apply letter_url; lia|]). constructor.
  - apply Forall_cons in Hl as [Ha Hl]. apply Forall_cons in Hl as [Hb _].
    pose proof (six a b 0 Ha Hb ltac:(done)) as H6. cbn [letters]. split; [|simpl; lia]. repeat (apply Forall_cons_2; [apply letter_url; lia|]). constructor.
  - apply Forall_cons in Hl as [Ha Hl]. apply Forall_cons in Hl as [Hb Hl]. apply Forall_cons in Hl as [Hc Hl].
    pose proof (six a b c Ha Hb Hc) as H6. destruct (IH l Hl) as [Hu Hn]. cbn [letters]. split; [|simpl; lia].
    repeat (apply Forall_cons_2; [apply letter_url; lia|]). done.
Qed.
