(* ===== verification/Receive.v ===== *)
(** * Receiving a message (protocol/smtpd/server.go, processData)

    What happens to the data of an accepted transaction of the MX listener: the hop
    limit, the results of the authentication checks, the decision per recipient, the
    delivery, and the calls that follow it.  The checks themselves (SPF, DKIM,
    DMARC, DNSBL) are third-party protocol code; their results are part of the
    environment. *)

From S2P Require Import Prelude GoStrings Shapes Changes Blob Database Tx Mailboxes Messages KernelInv KernelFlags Kernel KernelDemo Queue Strconv Headers Net Smtp Inbound Submit.

Local Open Scope go_scope.

Record Reply := mkReply { rp_code : Z; rp_text : string }.

(** The calls out of the server, in order. *)
Inductive event : Type :=
| EvDelivered (accountID : Z) (mailbox : string) (junk : bool)
| EvVacation (accountID : Z) (sender recipient : string)
| EvRules (accountID emailID : Z) (stored : string)
| EvBounce (localpart : string)
| EvReport (localpart : string)
| EvQueued (tenantID accountID : Z) (mailFrom : string) (rcpts : list string).

Record AuthResult := mkAuthResult {
  ar_SPFPass : bool; ar_SPFDomain : string; ar_DNSBLZone : string; ar_DMARCReject : bool }.

Section Receive.
Context `{BlobOps} `{Unicode} `{AddressParser} `{SubjectPass}.

Record World := mkWorld {
  w_db : DB; w_blobs : blob_state; w_in : InDB; w_q : QDB; w_trace : list event }.
Definition w_set_in v w := mkWorld (w_db w) (w_blobs w) v (w_q w) (w_trace w).
Definition w_deliver d b w := mkWorld d b (w_in w) (w_q w) (w_trace w).
(** What the functions the server is configured with may change: bodies and the queue. *)
Definition mail_state : Type := blob_state * QDB.
Definition w_mail (w : World) : mail_state := (w_blobs w, w_q w).
Definition w_call (f : mail_state -> mail_state) (w : World) : World :=
  let m := f (w_mail w) in mkWorld (w_db w) m.1 (w_in w) m.2 (w_trace w).
Definition emit (e : event) (w : World) := mkWorld (w_db w) (w_blobs w) (w_in w) (w_q w) (w_trace w ++ [e]).

(** The part of the server's configuration that is read here. *)
Record MxConfig := mkMx {
  mx_Auth : bool; mx_RejectDMARCFail : bool; mx_MaxHops : Z;
  mx_Decider : option Decider; mx_Junk : bool; mx_Vacation : bool; mx_Rules : bool }.

(** What the outside contributes while one message is processed: the clock and the
    failing statements at each recipient, the results of the checks, and what
    [Server.VacationResponder] and [Server.MailRuleProcessor] do when they are called at
    a recipient - the deployed ones submit mail before they return. *)
Record RxEnv := mkRxEnv {
  rx_now : nat -> Z; rx_faults : nat -> Faults;
  rx_ip : IP; rx_auth : option AuthResult; rx_prefix : string -> string;
  rx_classify : classifier;
  rx_vacation : nat -> Z -> string -> string -> string -> mail_state -> mail_state;
  rx_rules : nat -> Z -> Z -> string -> mail_state -> mail_state }.

Variable cfg : MxConfig.
Variable env : RxEnv.
Variables (mailFrom : string) (data : string).

(** [account.DeliverMailbox], with the message it filled in. *)
Definition deliver_into (a : account) (now : Z) (mailbox : string) (m : Message) (body : BlobReader)
  : M (Message * list Change) :=
  let! found := MailboxFind a mailbox in
  let! r := match found with
            | Some mb => mret_st (mb, [])
            | None => MailboxEnsure a mailbox true no_special_use
            end in
  let! added := MessageAdd a now r.1 m body 0 in
  mret_st (added.1, r.2 ++ added.2).

Definition senderDomain : string :=
  if String.eqb mailFrom EmptyString then EmptyString
  else match ParseAddress mailFrom with Some ad => sa_Domain ad | None => EmptyString end.

Definition authenticated : option AuthResult := if mx_Auth cfg then rx_auth env else None.
Definition repAuthed : bool :=
  match authenticated with
  | Some r => ar_SPFPass r && negb (String.eqb senderDomain EmptyString) && EqualFold (ar_SPFDomain r) senderDomain
  | None => false
  end.

Definition defaultMaxHops : Z := 50.
Definition maxHops : Z := if mx_MaxHops cfg <=? 0 then defaultMaxHops else mx_MaxHops cfg.

(** The message a recipient gets. *)
Definition message_for (rcptAddr : string) (junk : bool) : Message :=
  mkMessage 0 0 0 0 0 0 false (mkFlags false false false false junk false false false false false) [] EmptyString 0 0 0 0 0
    (match authenticated with Some _ => rx_prefix env rcptAddr | None => EmptyString end)
    EmptyString EmptyString EmptyString EmptyString EmptyString EmptyString false.

(** The mailbox and the junk flag, or the reply that ends the transaction. *)
Definition route (i : nat) (accountID : Z) (rcptAddr : string) (w : World) : (Reply + string * bool) * World :=
  match mx_Decider cfg with
  | Some d =>
      let '(dec, st) := Decide d (rx_faults env i) (rx_now env i) accountID senderDomain (rx_ip env) data repAuthed
                          (if mx_Junk cfg then Some (rx_classify env) else None) (w_in w) in
      let w := w_set_in st w in
      match dc_Verdict dec with
      | Defer =>
          (inl (if negb (String.eqb (dc_Challenge dec) EmptyString)
                then mkReply 451 "4.7.1 message held; to pass, include the challenge in the Subject and resend"
                else mkReply 451 "4.7.1 greylisted, please retry later"), w)
      | Reject => (inl (mkReply 550 "5.7.1 message rejected"), w)
      | v =>
          let junk := match v with AcceptJunk => true | _ => false end in
          (inr (if negb (String.eqb (dc_Mailbox dec) EmptyString) then dc_Mailbox dec
                else if junk then "Junk"%string else "Inbox"%string, junk), w)
      end
  | None =>
      let junk := if mx_Junk cfg then match rx_classify env accountID data with Ok (_, _, isJunk) => isJunk | Err _ => false end
                  else false in
      (inr (if junk then "Junk"%string else "Inbox"%string, junk), w)
  end.

(** After a delivery: the outcome, the vacation reply, the account's mail rules once. *)
Definition after_delivery (i : nat) (accountID : Z) (rcptAddr mailbox : string) (m : Message)
  (processed : gset Z) (w : World) : gset Z * World :=
  let w := match mx_Decider cfg with
           | Some _ =>
               if String.eqb senderDomain EmptyString then w
               else match RecordOutcome accountID senderDomain repAuthed (negb (String.eqb mailbox "Junk")) (w_in w) with
                    | Ok st => w_set_in st w
                    | Err _ => w
                    end
           | None => w
           end in
  let inbox := String.eqb mailbox "Inbox" in
  let w := if mx_Vacation cfg && inbox && negb (String.eqb mailFrom EmptyString)
           then w_call (rx_vacation env i accountID mailFrom rcptAddr data) (emit (EvVacation accountID mailFrom rcptAddr) w)
           else w in
  if mx_Rules cfg && inbox && negb (bool_decide (accountID ∈ processed))
  then let stored := (m_MsgPrefix m ++ data)%string in
       ({[accountID]} ∪ processed, w_call (rx_rules env i accountID (EffectiveEmailID m) stored)
                                     (emit (EvRules accountID (EffectiveEmailID m) stored) w))
  else (processed, w).

Fixpoint deliver_loop (i : nat) (rcpts : list (account * string)) (processed : gset Z) (w : World) : Reply * World :=
  match rcpts with
  | [] => (mkReply 250 "2.0.0 accepted", w)
  | (a, rcptAddr) :: rcpts =>
      match route i (acc_id a) rcptAddr w with
      | (inl reply, w) => (reply, w)
      | (inr (mailbox, junk), w) =>
          let body := mkReader (Z.of_nat (String.length data)) (Ok data) in
          match Tx a (deliver_into a (rx_now env i) mailbox (message_for rcptAddr junk) body) (w_db w) (w_blobs w) with
          | (Err ErrOverQuota, d, b) => (mkReply 452 "4.2.2 mailbox full", w_deliver d b w)
          | (Err _, d, b) => (mkReply 451 "4.3.0 delivery failed", w_deliver d b w)
          | (Ok (m, _, _, _), d, b) =>
              let w := emit (EvDelivered (acc_id a) mailbox junk) (w_deliver d b w) in
              let '(processed, w) := after_delivery i (acc_id a) rcptAddr mailbox m processed w in
              deliver_loop (S i) rcpts processed w
          end
      end
  end.

(** The MX branch of [processData]. *)
Definition receive (rcpts : list (account * string)) (w : World) : Reply * World :=
  if maxHops <? countReceivedHeaders (bytes_of data) then (mkReply 554 "5.4.6 too many hops (mail loop)", w)
  else
    match authenticated with
    | Some r =>
        if negb (String.eqb (ar_DNSBLZone r) EmptyString) then (mkReply 554 "5.7.1 client IP listed", w)
        else if mx_RejectDMARCFail cfg && ar_DMARCReject r then (mkReply 550 "5.7.1 rejected by DMARC policy", w)
        else deliver_loop 0 rcpts ∅ w
    | None => deliver_loop 0 rcpts ∅ w
    end.

End Receive.

(** ** Receiving: what a reply promises

    The reply after the data against the deliveries that were committed, the calls that
    follow a delivery, and what the sender's reputation learns. *)


Section Spec.
Context `{BlobOps} `{Unicode} `{AddressParser} `{SubjectPass}.
Variable cfg : MxConfig.
Variable env : RxEnv.
Variables (mailFrom : string) (data : string).

(** What follows the [i]-th delivery: a vacation reply when the message is in the Inbox and has
    a sender, and the mail rules, in the Inbox only. *)
Definition calls (i : nat) (acc : Z) (rcptAddr mailbox : string) (m m' : mail_state) : Prop :=
  let m1 := if mx_Vacation cfg && String.eqb mailbox "Inbox" && negb (String.eqb mailFrom EmptyString)
            then rx_vacation env i acc mailFrom rcptAddr data m else m in
  m' = m1 \/ mx_Rules cfg = true /\ mailbox = "Inbox"%string /\ exists emailID stored, m' = rx_rules env i acc emailID stored m1.

(** The deliveries of the first recipients, one committed transaction each, where
    they went, and the calls that followed them. *)
Inductive delivered : nat -> list (account * string) -> DB -> mail_state -> list (Z * string * bool) -> DB -> mail_state -> Prop :=
| delivered_none i d m : delivered i [] d m [] d m
| delivered_next i a rcptAddr rcpts d m mailbox junk r d1 b1 m1 l d2 m2 :
    Tx a (deliver_into a (rx_now env i) mailbox (message_for cfg env rcptAddr junk)
            (mkReader (Z.of_nat (String.length data)) (Ok data))) d m.1 = (Ok r, d1, b1) ->
    calls i (acc_id a) rcptAddr mailbox (b1, m.2) m1 ->
    delivered (S i) rcpts d1 m1 l d2 m2 ->
    delivered i ((a, rcptAddr) :: rcpts) d m ((acc_id a, mailbox, junk) :: l) d2 m2.

(** The deliveries in a trace. *)
Definition deliveries (l : list event) : list (Z * string * bool) :=
  omap (fun e => match e with EvDelivered a mb j => Some (a, mb, j) | _ => None end) l.
Definition rule_calls (l : list event) : list Z :=
  omap (fun e => match e with EvRules a _ _ => Some a | _ => None end) l.

Lemma route_keeps i a r w : w_db (route cfg env mailFrom data i a r w).2 = w_db w /\
  w_blobs (route cfg env mailFrom data i a r w).2 = w_blobs w /\ w_q (route cfg env mailFrom data i a r w).2 = w_q w /\
  w_trace (route cfg env mailFrom data i a r w).2 = w_trace w.
Proof.
  unfold route. destruct (mx_Decider cfg) as [d|]; [|done]. destruct (Decide _ _ _ _ _ _ _ _ _ _) as [dec st].
  by destruct (dc_Verdict dec).
Qed.

Lemma deliveries_app l k : deliveries (l ++ k) = deliveries l ++ deliveries k.
Proof. apply omap_app. Qed.
Lemma rule_calls_app l k : rule_calls (l ++ k) = rule_calls l ++ rule_calls k.
Proof. apply omap_app. Qed.

Lemma w_mail_call f w : w_mail (w_call f w) = f (w_mail w).
Proof. unfold w_call, w_mail at 1. cbn. by destruct (f (w_mail w)). Qed.

Lemma after_keeps i a r mb m p w :
  let '(p', w') := after_delivery cfg env mailFrom data i a r mb m p w in
  w_db w' = w_db w /\ calls i a r mb (w_mail w) (w_mail w') /\
  exists l, w_trace w' = w_trace w ++ l /\ deliveries l = [] /\
    ((p' = p /\ rule_calls l = []) \/ (a ∉ p /\ p' = {[a]} ∪ p /\ rule_calls l = [a])).
Proof.
  unfold after_delivery, calls.
  set (w1 := match mx_Decider cfg with Some _ => _ | None => w end).
  assert (Hw1 : w_db w1 = w_db w /\ w_mail w1 = w_mail w /\ w_trace w1 = w_trace w).
  { subst w1. destruct (mx_Decider cfg); [|done]. destruct (String.eqb _ _); [done|]. by destruct (RecordOutcome _ _ _ _ _). }
  destruct Hw1 as (Hd & Hm & Ht). clearbody w1. rewrite <- Hm.
  set (vac := mx_Vacation cfg && _ && _).
  set (w2 := if vac then w_call _ _ else w1).
  assert (Hw2 : w_db w2 = w_db w1 /\ (exists l, w_trace w2 = w_trace w1 ++ l /\ deliveries l = [] /\ rule_calls l = []) /\
    w_mail w2 = if vac then rx_vacation env i a mailFrom r data (w_mail w1) else w_mail w1).
  { subst w2. destruct vac; (split; [done|split; [|done || by rewrite w_mail_call]]).
    - by eexists [_].
    - exists []. by rewrite app_nil_r. }
  destruct Hw2 as (Hd2 & (l & Ht2 & Hl1 & Hl2) & Hm2). clearbody w2. cbv zeta. fold vac. rewrite <- Hm2.
  destruct (mx_Rules cfg && _ && _) eqn:Er; cbn [w_call emit w_db w_trace]; rewrite ?Hd2, ?Hd; (split; [done|split]).
  - right. b2p. split; [done|]. split; [by apply String.eqb_eq|].
    eexists _, _. change (w_mail w2) with (w_mail (emit (EvRules a (EffectiveEmailID m) (m_MsgPrefix m ++ data)) w2)). apply w_mail_call.
  - eexists. rewrite Ht2, Ht, <- app_assoc. split; [done|]. rewrite deliveries_app, rule_calls_app, Hl1, Hl2.
    split; [done|]. right. b2p. done.
  - by left.
  - exists l. rewrite Ht2, Ht. split; [done|]. split; [done|]. by left.
Qed.

(** How a reply, the calls [l] made and the tables afterwards go together: the
    deliveries made are those of the first recipients, all of them exactly
    for 250; the queue is what the calls after them made of it; the mail rules ran at
    most once per account. *)
Definition accounted (i : nat) (rcpts : list (account * string)) (w : World) (reply : Reply) (w' : World) (l : list event) : Prop :=
  exists m2, w_trace w' = w_trace w ++ l /\
    delivered i (take (length (deliveries l)) rcpts) (w_db w) (w_mail w) (deliveries l) (w_db w') m2 /\
    w_q w' = m2.2 /\
    (rp_code reply = 250 /\ length (deliveries l) = length rcpts /\ w_blobs w' = m2.1 \/
     rp_code reply <> 250 /\ (length (deliveries l) < length rcpts)%nat) /\
    NoDup (rule_calls l) /\
    (mx_Vacation cfg = false -> mx_Rules cfg = false -> w_q w' = w_q w).

(** A reply other than 250 before any delivery. *)
Lemma accounted_stop i rcpts w reply w' : rcpts <> [] ->
  w_db w' = w_db w -> w_q w' = w_q w -> w_trace w' = w_trace w -> rp_code reply <> 250 -> accounted i rcpts w reply w' [].
Proof.
  intros Hne Hd Hq Ht Hc. exists (w_mail w). rewrite app_nil_r, Hd, Hq, Ht.
  split_and!; try done; [constructor| |constructor]. right. split; [done|]. destruct rcpts; [done|simpl; lia].
Qed.

(** Without a responder and a rule processor nothing touches the queue. *)
Lemma calls_none i acc r mb m m' : mx_Vacation cfg = false -> mx_Rules cfg = false -> calls i acc r mb m m' -> m' = m.
Proof. intros Hv Hr. unfold calls. rewrite Hv, Hr. simpl. by intros [->|[? _]]. Qed.

Lemma route_stop i a r w reply w' : route cfg env mailFrom data i a r w = (inl reply, w') -> rp_code reply <> 250.
Proof.
  unfold route. destruct (mx_Decider cfg); [|done]. destruct (Decide _ _ _ _ _ _ _ _ _ _) as [dec st].
  destruct (dc_Verdict dec); try done; intros Hr; injection Hr as Hr _; subst reply; by repeat case_match.
Qed.

Lemma loop_spec i rcpts p w reply w' :
  deliver_loop cfg env mailFrom data i rcpts p w = (reply, w') ->
  exists l, accounted i rcpts w reply w' l /\ Forall (fun a => a ∉ p) (rule_calls l).
Proof.
  revert i p w. induction rcpts as [|[a rcptAddr] rcpts IH]; intros i p w; cbn [deliver_loop].
  { intros [= <- <-]. exists []. split; [|constructor]. exists (w_mail w). rewrite app_nil_r.
    split_and!; try done; [constructor|by left|constructor]. }
  pose proof (route_keeps i (acc_id a) rcptAddr w) as Hr. destruct (route _ _ _ _ _ _ _ _) as [[stop|[mailbox junk]] w1] eqn:Er.
  { simpl in Hr. destruct Hr as (Hd & _ & Hq & Ht). intros [= <- <-]. exists []. split; [|constructor].
    apply accounted_stop; try done. by eapply route_stop. }
  simpl in Hr. destruct Hr as (Hd & Hb & Hq & Ht).
  destruct (Tx a _ (w_db w1) (w_blobs w1)) as [[r d] b] eqn:Etx. destruct r as [[[m ch] sq]|e].
  2:{ apply Tx_rollback in Etx as ->. intros Hl. exists []. split; [|constructor].
      destruct e; injection Hl as <- <-; by apply accounted_stop. }
  destruct m as [m cs].
  pose proof (after_keeps i (acc_id a) rcptAddr mailbox m p (emit (EvDelivered (acc_id a) mailbox junk) (w_deliver d b w1))) as Ha.
  destruct (after_delivery _ _ _ _ _ _ _ _ _ _ _) as [p2 w2]. destruct Ha as (Hd2 & Hc2 & l2 & Ht2 & Hnod & Hp2).
  simpl in Hd2, Ht2. intros Hloop. destruct (IH _ _ _ Hloop) as (l & (m3 & Htr & Hdel & Hqq & Hcode & Hnd & Hnone) & Hfr).
  set (e := EvDelivered (acc_id a) mailbox junk) in *. exists (e :: l2 ++ l).
  assert (Hds : deliveries (e :: l2 ++ l) = (acc_id a, mailbox, junk) :: deliveries l).
  { change (deliveries (e :: l2 ++ l)) with ((acc_id a, mailbox, junk) :: deliveries (l2 ++ l)). by rewrite deliveries_app, Hnod. }
  assert (Hrs : rule_calls (e :: l2 ++ l) = rule_calls l2 ++ rule_calls l) by apply rule_calls_app.
  change (w_mail (emit e (w_deliver d b w1))) with (b, w_q w1) in Hc2. rewrite Hq in Hc2.
  rewrite Hrs. split.
  - exists m3. rewrite Hds, Hrs. rewrite Hd2 in Hdel. rewrite Hd, Hb in Etx. split_and!; [|by econstructor|done| | |].
    + rewrite Htr, Ht2, Ht. by rewrite <- !app_assoc.
    + simpl. destruct Hcode as [(Hc & Hl & Hbl)|(Hc & Hl)]; [left|right]; (split; [done|]); [by split; [lia|]|lia].
    + destruct Hp2 as [[-> ->]|(Hin & -> & ->)]; [done|]. constructor; [|done]. intros Hin2.
      apply (proj1 (Forall_forall _ _) Hfr) in Hin2. set_solver.
    + intros Hv Hru. rewrite Hnone by done. apply (calls_none _ _ _ _ _ _ Hv Hru) in Hc2. by injection Hc2.
  - destruct Hp2 as [[-> ->]|(Hin & -> & ->)]; [done|]. constructor; [done|].
    eapply Forall_impl; [exact Hfr|]. intros x Hx. simpl in Hx. set_solver.
Qed.

(** [C16] The reply tells what was stored: 250 means that every recipient's message was
    committed, one transaction each and in order, into the mailbox that was
    decided; any other reply means that exactly the recipients before the one
    that stopped it have theirs, and the database is what those deliveries left.
    The mail rules of an account run at most once, and the outbound queue is what
    the vacation replies and the mail rules called after the deliveries made of it - as it
    was, where neither is configured. *)
Theorem reply_means_stored (rcpts : list (account * string)) (w w' : World) (reply : Reply) :
  rcpts <> [] -> receive cfg env mailFrom data rcpts w = (reply, w') ->
  exists l, accounted 0 rcpts w reply w' l.
Proof.
  intros Hne. assert (Hloop : deliver_loop cfg env mailFrom data 0 rcpts ∅ w = (reply, w') -> exists l, accounted 0 rcpts w reply w' l).
  { intros Hl. destruct (loop_spec _ _ _ _ _ _ Hl) as (l & Hl' & _). by exists l. }
  unfold receive. destruct (_ <? _); [intros [= <- <-]; exists []; by apply accounted_stop|].
  destruct (authenticated cfg env) as [r|]; [|done].
  destruct (negb _); [intros [= <- <-]; exists []; by apply accounted_stop|].
  destruct (_ && _); [intros [= <- <-]; exists []; by apply accounted_stop|done].
Qed.

(** ** Reputation *)

Lemma route_rep i a r w : in_rep (w_in (route cfg env mailFrom data i a r w).2) = in_rep (w_in w).
Proof.
  assert (Hg : forall d fl now acc dom ip, in_rep (greylist d fl now acc dom ip (w_in w)).2 = in_rep (w_in w)).
  { intros d fl now acc dom ip. unfold greylist. destruct (_ || _); [done|]. destruct (in_grey (w_in w) !! _) as [row|].
    - destruct (gr_allowed_at row); [done|]. destruct (Inbound.bigint _); [|done]. by destruct (fl_grey_write fl).
    - by destruct (fl_grey_write fl). }
  assert (Hc : forall d fl now acc dom ip raw au cl, in_rep (decideCore d fl now acc dom ip raw au cl (w_in w)).2 = in_rep (w_in w)).
  { intros d fl now acc dom ip raw au cl. unfold decideCore. destruct (reputation _ _ _ _) as [ham junk].
    destruct (_ && _ && _); [done|]. destruct (_ && _); [done|].
    specialize (Hg d fl now acc dom ip). destruct (d_GreylistEnabled d).
    - destruct (greylist _ _ _ _ _ _ _) as [[] st]; [done|]. simpl in Hg. destruct (if au then _ else _). by repeat case_match.
    - destruct (if au then _ else _). by repeat case_match. }
  unfold route. destruct (mx_Decider cfg) as [d|]; [|done]. unfold Decide.
  specialize (Hc d (rx_faults env i) (rx_now env i) a (senderDomain mailFrom) (rx_ip env) data (repAuthed cfg env mailFrom)
    (if mx_Junk cfg then Some (rx_classify env) else None)).
  destruct (decideCore _ _ _ _ _ _ _ _ _ _) as [dec st]. simpl in Hc.
  destruct (matchRuleset _ _ _ _) as [rs|]; [destruct (ru_force_accept rs); [|destruct (ru_is_forward rs)]|]; cbn;
    by repeat case_match; simplify_eq/=.
Qed.

(** The rows an authenticated message may change. *)
Definition recordable (rcpts : list (account * string)) (k : Z * string) : Prop :=
  (exists r, authenticated cfg env = Some r /\ ar_SPFPass r = true /\ EqualFold (ar_SPFDomain r) (senderDomain mailFrom) = true) /\
  k.2 = senderDomain mailFrom /\ senderDomain mailFrom <> EmptyString /\ exists x, x ∈ rcpts /\ acc_id x.1 = k.1.

Lemma record_rep a rcpts ham st st' k :
  RecordOutcome a (senderDomain mailFrom) (repAuthed cfg env mailFrom) ham st = Ok st' ->
  senderDomain mailFrom <> EmptyString -> (exists x, x ∈ rcpts /\ acc_id x.1 = a) ->
  in_rep st' !! k = in_rep st !! k \/ recordable rcpts k.
Proof.
  unfold RecordOutcome. destruct (repAuthed cfg env mailFrom) eqn:Eau; [|intros [= <-]; by left]. cbn [negb].
  destruct (negb (text_ok _)); [done|]. intros Hr Hne Hx.
  assert (Hins : exists row, in_rep st' = <[(a, senderDomain mailFrom) := row]> (in_rep st)).
  { destruct ham; simpl in Hr; destruct (Inbound.bigint _); try done; injection Hr as <-; by eexists. }
  destruct Hins as [row ->]. destruct (decide ((a, senderDomain mailFrom) = k)) as [<-|Hk]; [|left; by rewrite lookup_insert_ne].
  right. unfold repAuthed in Eau. destruct (authenticated cfg env) as [r|] eqn:Er; [|done]. b2p.
  split; [by exists r|]. split; [done|]. by split.
Qed.

Lemma after_rep i a rcpts addr mailbox m p w k : (exists x, x ∈ rcpts /\ acc_id x.1 = a) ->
  in_rep (w_in (after_delivery cfg env mailFrom data i a addr mailbox m p w).2) !! k = in_rep (w_in w) !! k \/ recordable rcpts k.
Proof.
  intros Hx. unfold after_delivery. set (w1 := match mx_Decider cfg with Some _ => _ | None => _ end).
  assert (Hw1 : in_rep (w_in w1) !! k = in_rep (w_in w) !! k \/ recordable rcpts k).
  { subst w1. destruct (mx_Decider cfg); [|by left]. destruct (String.eqb_spec (senderDomain mailFrom) EmptyString) as [|Hne]; [by left|].
    destruct (RecordOutcome _ _ _ _ _) as [st'|] eqn:Er; [|by left]. simpl. by eapply record_rep. }
  clearbody w1. by destruct (mx_Vacation cfg && _ && _), (mx_Rules cfg && _ && _).
Qed.

Lemma loop_rep rcpts k rs i p w : (forall x, x ∈ rs -> x ∈ rcpts) ->
  in_rep (w_in (deliver_loop cfg env mailFrom data i rs p w).2) !! k = in_rep (w_in w) !! k \/ recordable rcpts k.
Proof.
  revert i p w. induction rs as [|[a addr] rs IH]; intros i p w Hsub; cbn [deliver_loop]; [by left|].
  pose proof (route_rep i (acc_id a) addr w) as Hr.
  destruct (route _ _ _ _ _ _ _ _) as [[stop|[mailbox junk]] w1]; simpl in Hr; [left; by rewrite <- Hr|].
  destruct (Tx a _ (w_db w1) (w_blobs w1)) as [[[[[[m cs'] cs] ?]|e] d] b]; [|destruct e; left; simpl; by rewrite Hr].
  assert (Hx : exists x, x ∈ rcpts /\ acc_id x.1 = acc_id a) by (exists (a, addr); split; [apply Hsub; by left|done]).
  pose proof (after_rep i (acc_id a) rcpts addr mailbox m p (emit (EvDelivered (acc_id a) mailbox junk) (w_deliver d b w1)) k Hx) as Ha.
  destruct (after_delivery _ _ _ _ _ _ _ _ _ _ _) as [p2 w2]. simpl in Ha. rewrite Hr in Ha.
  destruct (IH (S i) p2 w2) as [Hk|?]; [intros x Hin; apply Hsub; by right| |by right]. rewrite Hk. exact Ha.
Qed.

(** Only authenticated envelope domains make history: however a message is
    received and whatever its header claims, the reputation rows change only when an
    SPF pass names the very domain of MAIL FROM, and then only rows of that domain and
    of the recipients' accounts. *)
Theorem history_is_authenticated (rcpts : list (account * string)) (w : World) (k : Z * string) :
  in_rep (w_in (receive cfg env mailFrom data rcpts w).2) !! k = in_rep (w_in w) !! k \/ recordable rcpts k.
Proof.
  unfold receive. destruct (_ <? _); [by left|]. destruct (authenticated cfg env) as [r|]; [|by apply loop_rep].
  destruct (negb _); [by left|]. destruct (_ && _); [by left|by apply loop_rep].
Qed.

End Spec.

(** ** Instances *)

#[local] Instance rx_unicode : Unicode := { unicode_lower := fun r => r; EqualFold := String.eqb }.
#[local] Instance rx_parser : AddressParser := { ParseAddress := fun s => Some (mkAddress s (Addr.Domain s)) }.
#[local] Instance rx_subjectpass : SubjectPass := { sp_Verify := fun _ _ _ _ => false; sp_Generate := fun _ _ _ => EmptyString }.

Definition rx_cfg : MxConfig :=
  mkMx true true 0 (Some (mkDecider 0 true fzero fzero 0 EmptyString 0)) false true true.
Definition rx_env0 : RxEnv :=
  mkRxEnv (fun _ => 7) (fun _ => no_faults) [192; 0; 2; 1] (Some (mkAuthResult true "a.example" EmptyString false))
    (fun _ => "Received: x"%string) (fun _ _ => Err ErrNoRows)
    (fun _ a s r raw m => (Respond (vac_env 7) a s r raw vac_db m).2) (fun _ _ _ _ m => m).
Definition two_recipients : list (account * string) := [(alice, "alice@x.example"%string); (bob, "bob@x.example"%string)].
(** Alice's triplet has passed the greylist, Bob's has not been seen. *)
Definition rx_world : World :=
  mkWorld demo_db no_files (mkInDB {[(1, "a.example", "192.0.2.0/24")%string := mkGrey 0 (Some 1) 2]} ∅ [])
    (mkQDB {[1]} {[1; 2]} ∅ [] ∅ ∅ 1 1) [].
Definition rx_once := receive rx_cfg rx_env0 "s@a.example" "hello" two_recipients rx_world.
Definition rx_again := receive rx_cfg rx_env0 "s@a.example" "hello" two_recipients rx_once.2.

Lemma reply_means_stored_witness :
  (exists l, accounted rx_cfg rx_env0 "s@a.example" "hello" 0 two_recipients rx_world rx_once.1 rx_once.2 l) /\
  rp_code rx_once.1 = 451 /\ deliveries (w_trace rx_once.2) = [(1, "Inbox"%string, false)] /\
  (r_rcpt_to <$> q_rows (w_q rx_once.2) !! 1) = Some "s@a.example"%string.
Proof.
  split; [|split; [|split]; vm_compute; reflexivity].
  exact (reply_means_stored rx_cfg rx_env0 "s@a.example" "hello" two_recipients rx_world rx_once.2 rx_once.1
           ltac:(discriminate) (surjective_pairing rx_once)).
Defined.

(** A deferral of the second recipient comes after the first has its message: the
    sender retries, and the first gets it again. *)
Example retry_duplicates : deliveries (w_trace rx_again.2) = [(1, "Inbox", false); (1, "Inbox", false)]%string.
Proof. vm_compute. reflexivity. Qed.
