(* ===== verification/Smtpd.v ===== *)
(** * The SMTP server (protocol/smtpd/server.go)

    One connection from the greeting to QUIT: the bytes the client sends are read as
    command lines, chunks and message data, each command is a function on the
    connection's state and the world of [Receive].  The SASL mechanism, the dot-unstuffing
    reader and the TLS layer are third-party; the directory is the interface
    the server is given.  [env n] is what the outside answers while command
    [n] runs.  Writes succeed; a read past the end of the input ends the session. *)

From S2P Require Import Prelude GoStrings Shapes Changes Blob Database Tx Mailboxes Messages Queue Strconv Headers Net Smtp Inbound Submit Base64 Receive.

Local Open Scope go_scope.

(** ** Third-party readers and mechanisms *)

(** [smtp.NewDataReader]: [ReadUpTo] yields at most so many decoded bytes, [None]
    on an error; [left] is the input that was not consumed. *)
Class DataReader := {
  reader : Type;
  NewDataReader : list ascii -> reader;
  ReadUpTo : nat -> reader -> option (list ascii) * reader;
  ReadAll : reader -> option (list ascii) * reader;
  left : reader -> list ascii }.

Class Scram := {
  verifier : Type;
  scram_server : Type;
  scram_NewServer : list ascii -> bool -> bool -> option (string * scram_server);   (* client-first, over TLS, plus *)
  scram_ServerFirst : scram_server -> verifier -> option (list ascii * scram_server);
  scram_Finish : scram_server -> list ascii -> verifier -> option (list ascii) }.

Section Smtpd.
Context `{BlobOps} `{Unicode} `{UnicodeUpper} `{AddressParser} `{SubjectPass} `{DataReader} `{Scram}.

(** [directory.Directory]; a tenant scope is its tenant's id. *)
Record Directory := mkDirectory {
  ResolveInbound : SmtpAddress -> option account;
  AuthenticatePrincipal : string -> string -> option Z;
  AccountForAddress : Z -> SmtpAddress -> option Z;
  LookupSCRAM : option (string -> option verifier);
  ScopeForLogin : string -> option Z }.

Record Server := mkServer {
  sv_MaxSize : Z; sv_MaxRcpt : Z; sv_Submission : bool; sv_TLSConfig : bool; sv_TLSConn : bool;
  sv_BURL : bool; sv_BounceDomain : string; sv_BounceHandler : bool;
  sv_ReportDomain : string; sv_ReportHandler : bool; sv_mx : MxConfig }.

Record Env := mkEnv {
  e_now : Z; e_dir : Directory; e_rx : RxEnv; e_commit : commit;
  e_RFC3339 : string -> option Z;                     (* time.Parse(time.RFC3339, .) *)
  e_BURL : Z -> string -> option (list ascii);
  e_handshake : option (list ascii) }.                (* what the client sends inside TLS *)

(** ** The connection *)

(** What [reset] clears. *)
Record Txn := mkTxn {
  t_mailFrom : string; t_haveFrom : bool;
  t_rcpts : list (account * string);
  t_subRcpts : list (string * string * string);       (* address, NOTIFY, ORCPT *)
  t_bounceRcpts : list string; t_reportRcpts : list string;
  t_dsnRet : string; t_dsnEnvID : string; t_8bitmime : bool; t_smtputf8 : bool;
  t_holdUntil : Z; t_bdatBuf : list ascii; t_inBDAT : bool }.
Definition no_txn : Txn := mkTxn EmptyString false [] [] [] [] EmptyString EmptyString false false 0 [] false.

Record Conn := mkConn {
  c_in : list ascii; c_out : list Reply; c_tls : bool; c_helo : string;
  c_authed : bool; c_authTenant : Z; c_authAccount : Z; c_authScope : option Z; c_txn : Txn }.

Definition set_in v c := mkConn v (c_out c) (c_tls c) (c_helo c) (c_authed c) (c_authTenant c) (c_authAccount c) (c_authScope c) (c_txn c).
Definition set_helo v c := mkConn (c_in c) (c_out c) (c_tls c) v (c_authed c) (c_authTenant c) (c_authAccount c) (c_authScope c) (c_txn c).
Definition set_txn v c := mkConn (c_in c) (c_out c) (c_tls c) (c_helo c) (c_authed c) (c_authTenant c) (c_authAccount c) (c_authScope c) v.
Definition set_auth tenant account c := mkConn (c_in c) (c_out c) (c_tls c) (c_helo c) true tenant account (Some tenant) (c_txn c).
Definition writef (code : Z) (text : string) c := mkConn (c_in c) (c_out c ++ [mkReply code text]) (c_tls c) (c_helo c) (c_authed c) (c_authTenant c) (c_authAccount c) (c_authScope c) (c_txn c).
Definition reset (c : Conn) : Conn := set_txn no_txn c.

Definition t_add_rcpt r t := mkTxn (t_mailFrom t) (t_haveFrom t) (t_rcpts t ++ [r]) (t_subRcpts t) (t_bounceRcpts t) (t_reportRcpts t) (t_dsnRet t) (t_dsnEnvID t) (t_8bitmime t) (t_smtputf8 t) (t_holdUntil t) (t_bdatBuf t) (t_inBDAT t).
Definition t_add_sub r t := mkTxn (t_mailFrom t) (t_haveFrom t) (t_rcpts t) (t_subRcpts t ++ [r]) (t_bounceRcpts t) (t_reportRcpts t) (t_dsnRet t) (t_dsnEnvID t) (t_8bitmime t) (t_smtputf8 t) (t_holdUntil t) (t_bdatBuf t) (t_inBDAT t).
Definition t_add_bounce r t := mkTxn (t_mailFrom t) (t_haveFrom t) (t_rcpts t) (t_subRcpts t) (t_bounceRcpts t ++ [r]) (t_reportRcpts t) (t_dsnRet t) (t_dsnEnvID t) (t_8bitmime t) (t_smtputf8 t) (t_holdUntil t) (t_bdatBuf t) (t_inBDAT t).
Definition t_add_report r t := mkTxn (t_mailFrom t) (t_haveFrom t) (t_rcpts t) (t_subRcpts t) (t_bounceRcpts t) (t_reportRcpts t ++ [r]) (t_dsnRet t) (t_dsnEnvID t) (t_8bitmime t) (t_smtputf8 t) (t_holdUntil t) (t_bdatBuf t) (t_inBDAT t).
Definition t_set_bdat b t := mkTxn (t_mailFrom t) (t_haveFrom t) (t_rcpts t) (t_subRcpts t) (t_bounceRcpts t) (t_reportRcpts t) (t_dsnRet t) (t_dsnEnvID t) (t_8bitmime t) (t_smtputf8 t) (t_holdUntil t) b true.

Variable srv : Server.
Variable env : nat -> Env.

Definition defaultMaxRcpt : Z := 1000.
Definition maxRcpt : Z := if 0 <? sv_MaxRcpt srv then sv_MaxRcpt srv else defaultMaxRcpt.
(** 90 days, in nanoseconds. *)
Definition maxFutureRelease : Z := 7776000000000000.

(** ** AUTH *)

Definition authAllowed (c : Conn) : bool := c_tls c || negb (sv_TLSConfig srv).

(** The authenticated scope and account; any earlier transaction is dropped. *)
Definition authenticate (tenant account : Z) (c : Conn) : Conn :=
  writef 235 "2.7.0 authenticated" (reset (set_auth tenant account c)).
Definition auth_failed (c : Conn) : Conn := writef 535 "5.7.8 authentication failed" c.

Definition authPlain (n : nat) (arg : string) (c : Conn) : Conn :=
  if String.eqb arg EmptyString then writef 501 "5.5.4 AUTH PLAIN needs an initial response" c
  else match Std_Decode arg with
       | None => writef 501 "5.5.2 bad base64" c
       | Some raw =>
           match split (str_of raw) "000"%char with
           | [_; login; password] =>
               match ParseAddress login with
               | None => auth_failed c
               | Some ad =>
                   match AuthenticatePrincipal (e_dir (env n)) login password with
                   | None => auth_failed c
                   | Some tenant =>
                       match AccountForAddress (e_dir (env n)) tenant ad with
                       | None => auth_failed c
                       | Some acc => authenticate tenant acc c
                       end
                   end
               end
           | _ => writef 501 "5.5.2 malformed PLAIN" c
           end
       end.

(** The next line of the input, without its line ending. *)
Definition read_line (c : Conn) : option (list ascii * Conn) :=
  match index_byte LF (c_in c) with
  | None => None
  | Some i => Some (trim_right is_eol (take i (c_in c)), set_in (drop (S i) (c_in c)) c)
  end.

(** [saslChallenge] and [saslInitial]: the decoded response, or the connection with the
    refusal already written. *)
Definition saslChallenge (data : list ascii) (c : Conn) : (list ascii + unit) * Conn :=
  let c := writef 334 (Std_Encode data) c in
  match read_line c with
  | None => (inr tt, set_in [] c)
  | Some (line, c) =>
      if String.eqb (str_of line) "*" then (inr tt, writef 501 "5.7.8 authentication cancelled" c)
      else match Std_Decode (str_of line) with
           | None => (inr tt, writef 501 "5.5.2 bad base64" c)
           | Some b => (inl b, c)
           end
  end.
Definition saslInitial (ir : string) (c : Conn) : (list ascii + unit) * Conn :=
  if String.eqb ir "=" then (inl [], c)
  else if String.eqb ir EmptyString then saslChallenge [] c
  else match Std_Decode ir with
       | None => (inr tt, writef 501 "5.5.2 bad base64" c)
       | Some b => (inl b, c)
       end.

Definition authSCRAM (n : nat) (ir : string) (plus : bool) (c : Conn) : Conn :=
  let dir := e_dir (env n) in
  match LookupSCRAM dir with
  | None => writef 504 "5.5.4 SCRAM not available" c
  | Some lookup =>
      if plus && negb (c_tls c || sv_TLSConn srv) then writef 538 "5.7.11 SCRAM-SHA-256-PLUS requires TLS" c
      else
        match saslInitial ir c with
        | (inr _, c) => c
        | (inl clientFirst, c) =>
            match scram_NewServer clientFirst plus plus with
            | None => auth_failed c
            | Some (login, s) =>
                match lookup login with
                | None => auth_failed c
                | Some ver =>
                    match scram_ServerFirst s ver with
                    | None => auth_failed c
                    | Some (serverFirst, s) =>
                        match saslChallenge serverFirst c with
                        | (inr _, c) => c
                        | (inl clientFinal, c) =>
                            match scram_Finish s clientFinal ver with
                            | None => auth_failed c
                            | Some serverFinal =>
                                match saslChallenge serverFinal c with
                                | (inr _, c) => c
                                | (inl _, c) =>
                                    match ParseAddress login with
                                    | None => auth_failed c
                                    | Some ad =>
                                        match ScopeForLogin dir login with
                                        | None => auth_failed c
                                        | Some tenant =>
                                            match AccountForAddress dir tenant ad with
                                            | None => auth_failed c
                                            | Some acc => authenticate tenant acc c
                                            end
                                        end
                                    end
                                end
                            end
                        end
                    end
                end
            end
        end
  end.

Definition cmdAuth (n : nat) (rest : string) (c : Conn) : Conn :=
  if negb (sv_Submission srv) then writef 503 "5.5.1 AUTH not available" c
  else if negb (authAllowed c) then writef 538 "5.7.11 must issue STARTTLS before AUTH" c
  else
    let '(mech, arg) := splitCmd (trim_space rest) in
    if EqualFold mech "PLAIN" then authPlain n arg c
    else if EqualFold mech "SCRAM-SHA-256" then authSCRAM n arg false c
    else if EqualFold mech "SCRAM-SHA-256-PLUS" then authSCRAM n arg true c
    else writef 504 "5.5.4 unsupported SASL mechanism" c.

(** ** STARTTLS: [false] ends the session *)

Definition cmdStartTLS (n : nat) (c : Conn) : bool * Conn :=
  if negb (sv_TLSConfig srv) then (true, writef 502 "5.5.1 STARTTLS not available" c)
  else if c_tls c then (true, writef 503 "5.5.1 already using TLS" c)
  else
    let c := writef 220 "2.0.0 ready to start TLS" c in
    match e_handshake (env n) with
    | None => (false, c)
    | Some inside => (true, mkConn inside (c_out c) true (c_helo c) false (c_authTenant c) (c_authAccount c) (c_authScope c) no_txn)
    end.

(** ** MAIL *)

Definition senderOwned (n : nat) (mailFrom : string) (c : Conn) : bool :=
  match c_authScope c with
  | None => false
  | Some scope =>
      match ParseAddress mailFrom with
      | None => false
      | Some ad =>
          match AccountForAddress (e_dir (env n)) scope ad with
          | None => false
          | Some owner => owner =? c_authAccount c
          end
      end
  end.

(** The release time of HOLDFOR and HOLDUNTIL in microseconds, 0 for none, or the
    refusal.  [time.Duration(hf)*time.Second] is int64 arithmetic. *)
Definition release_time (n : nat) (rest : string) : string + Z :=
  let now := e_now (env n) in
  let hf := mailParamInt rest "HOLDFOR" in
  let hu := mailParamStr rest "HOLDUNTIL" in
  let has_hu := negb (String.eqb hu EmptyString) in
  match hf with
  | Some hf =>
      if has_hu then inl "5.5.4 HOLDFOR and HOLDUNTIL are mutually exclusive"%string
      else
        let d := i64 (hf * second) in
        if (hf <? 0) || (maxFutureRelease <? d) then inl "5.5.4 HOLDFOR out of range"%string
        else inr (now + Z.quot d 1000)
  | None =>
      if has_hu then
        match e_RFC3339 (env n) hu with
        | None => inl "5.5.4 bad HOLDUNTIL date-time"%string
        | Some t => if now + Z.quot maxFutureRelease 1000 <? t then inl "5.5.4 HOLDUNTIL out of range"%string else inr t
        end
      else inr 0
  end.

Definition cmdMail (n : nat) (rest : string) (c : Conn) : Conn :=
  match parseAddrParam rest "FROM:" with
  | None => writef 501 "5.5.4 bad MAIL syntax" c
  | Some addr =>
      if match mailParamInt rest "SIZE" with Some sz => (0 <? sv_MaxSize srv) && (sv_MaxSize srv <? sz) | None => false end
      then writef 552 "5.3.4 message size exceeds limit" c
      else
        let c := reset c in
        if sv_Submission srv && negb (c_authed c) then writef 530 "5.7.1 authentication required before MAIL" c
        else if sv_Submission srv && (String.eqb addr EmptyString || negb (senderOwned n addr c))
        then writef 550 "5.7.1 sender is not an address of the authenticated account" c
        else
          match (if sv_Submission srv then release_time n rest else inr 0) with
          | inl text => writef 501 text c
          | inr holdUntil =>
              writef 250 "2.1.0 OK"
                (set_txn (mkTxn addr true [] [] [] [] (mailParamStr rest "RET") (mailParamStr rest "ENVID")
                            (EqualFold (mailParamStr rest "BODY") "8BITMIME") (mailParamFlag rest "SMTPUTF8")
                            holdUntil [] false) c)
          end
  end.

(** ** RCPT *)

Definition rcpt_count (t : Txn) : Z :=
  Z.of_nat (length (t_rcpts t) + length (t_subRcpts t) + length (t_bounceRcpts t) + length (t_reportRcpts t)).
Definition some_of {A} (l : list A) : bool := match l with [] => false | _ => true end.

Definition cmdRcpt (n : nat) (rest : string) (c : Conn) : Conn :=
  let t := c_txn c in
  if negb (t_haveFrom t) then writef 503 "5.5.1 need MAIL first" c
  else
    match parseAddrParam rest "TO:" with
    | None => writef 501 "5.5.4 bad RCPT syntax" c
    | Some addrStr =>
        match ParseAddress addrStr with
        | None => writef 501 "5.1.3 bad address" c
        | Some addr =>
            if maxRcpt <=? rcpt_count t then writef 452 "4.5.3 too many recipients" c
            else if sv_Submission srv then
              if negb (c_authed c) then writef 530 "5.7.1 authentication required" c
              else writef 250 "2.1.5 OK" (set_txn (t_add_sub (addrStr, mailParamStr rest "NOTIFY", mailParamStr rest "ORCPT") t) c)
            else if negb (String.eqb (sv_BounceDomain srv) EmptyString) && sv_BounceHandler srv
                    && EqualFold (sa_Domain addr) (sv_BounceDomain srv) then
              if some_of (t_rcpts t) || some_of (t_reportRcpts t)
              then writef 503 "5.5.1 cannot mix bounce-domain and normal recipients" c
              else writef 250 "2.1.5 OK" (set_txn (t_add_bounce (sa_Localpart addr) t) c)
            else if negb (String.eqb (sv_ReportDomain srv) EmptyString) && sv_ReportHandler srv
                    && EqualFold (sa_Domain addr) (sv_ReportDomain srv) then
              if some_of (t_rcpts t) || some_of (t_bounceRcpts t)
              then writef 503 "5.5.1 cannot mix report-domain and other recipients" c
              else writef 250 "2.1.5 OK" (set_txn (t_add_report (sa_Localpart addr) t) c)
            else if some_of (t_bounceRcpts t) || some_of (t_reportRcpts t)
            then writef 503 "5.5.1 cannot mix normal and bounce/report-domain recipients" c
            else
              match ResolveInbound (e_dir (env n)) addr with
              | None => writef 550 "5.1.1 no such recipient" c
              | Some target => writef 250 "2.1.5 OK" (set_txn (t_add_rcpt (target, addrStr) t) c)
              end
        end
    end.

(** ** The message *)

(** The distinct localparts, each handed over once. *)
Fixpoint hand_over (mk : string -> event) (seen : gset string) (lps : list string) (w : World) : World :=
  match lps with
  | [] => w
  | lp :: lps =>
      if bool_decide (lp ∈ seen) then hand_over mk seen lps w
      else hand_over mk ({[lp]} ∪ seen) lps (emit (mk lp) w)
  end.

Definition per_rcpt (f : string * string * string -> string) (l : list (string * string * string)) : gmap string string :=
  foldl (fun m x => if String.eqb (f x) EmptyString then m else <[x.1.1 := f x]> m) ∅ l.

Definition dsn_params (t : Txn) (data : list ascii) : DSNParams :=
  mkDSN (t_dsnRet t) (t_dsnEnvID t) (per_rcpt (fun x => x.1.2) (t_subRcpts t)) (per_rcpt (fun x => x.2) (t_subRcpts t))
    (t_8bitmime t && contains8bit data)
    (t_smtputf8 t && needsSMTPUTF8 (t_mailFrom t) ((fun x => x.1.1) <$> t_subRcpts t) data).

Definition reply_of (r : Reply) (c : Conn) : Conn := writef (rp_code r) (rp_text r) c.

(** Every path ends the transaction. *)
Definition processData (n : nat) (data : list ascii) (c : Conn) (w : World) : Conn * World :=
  let t := c_txn c in
  if (0 <? sv_MaxSize srv) && (sv_MaxSize srv <? Z.of_nat (length data)) then (writef 552 "5.3.4 message too large" (reset c), w)
  else if some_of (t_bounceRcpts t) && sv_BounceHandler srv then
    (writef 250 "2.0.0 accepted" (reset c), hand_over EvBounce ∅ (t_bounceRcpts t) w)
  else if some_of (t_reportRcpts t) && sv_ReportHandler srv then
    (writef 250 "2.0.0 accepted" (reset c), hand_over EvReport ∅ (t_reportRcpts t) w)
  else if sv_Submission srv then
    let rcpts := (fun x => x.1.1) <$> t_subRcpts t in
    let '(r, b, q) := SubmitDSN (e_now (env n)) (e_commit (env n)) (c_authTenant c) (c_authAccount c) (t_mailFrom t) rcpts
                        (str_of data) (t_holdUntil t) (dsn_params t data) (w_blobs w) (w_q w) in
    let w := mkWorld (w_db w) b (w_in w) q (w_trace w) in
    match r with
    | Err _ => (writef 451 "4.3.0 could not enqueue" (reset c), w)
    | Ok _ => (writef 250 "2.0.0 queued" (reset c), emit (EvQueued (c_authTenant c) (c_authAccount c) (t_mailFrom t) rcpts) w)
    end
  else
    let '(reply, w) := receive (sv_mx srv) (e_rx (env n)) (t_mailFrom t) (str_of data) (t_rcpts t) w in
    (reply_of reply (reset c), w).

Definition cmdData (n : nat) (c : Conn) (w : World) : Conn * World :=
  let t := c_txn c in
  let haveRcpt := if sv_Submission srv then some_of (t_subRcpts t)
                  else some_of (t_rcpts t) || some_of (t_bounceRcpts t) || some_of (t_reportRcpts t) in
  if negb (t_haveFrom t) || negb haveRcpt then (writef 503 "5.5.1 need MAIL and RCPT first" c, w)
  else
    let c := writef 354 "start mail input; end with <CRLF>.<CRLF>" c in
    let dr := NewDataReader (c_in c) in
    if 0 <? sv_MaxSize srv then
      let limit := Z.to_nat (sv_MaxSize srv + 1) in
      match ReadUpTo limit dr with
      | (None, dr) => (writef 451 "4.3.0 error reading data" (set_in (left dr) c), w)
      | (Some data, dr) =>
          if sv_MaxSize srv <? Z.of_nat (length data) then
            let '(_, dr) := ReadUpTo limit dr in
            (writef 552 "5.3.4 message exceeds size limit" (reset (set_in (left dr) c)), w)
          else processData n data (set_in (left dr) c) w
      end
    else
      match ReadAll dr with
      | (None, dr) => (writef 451 "4.3.0 error reading data" (set_in (left dr) c), w)
      | (Some data, dr) => processData n data (set_in (left dr) c) w
      end.

(** The longest slice the runtime allocates on 64-bit Linux; [make] panics beyond it, and no
    one recovers: the process and with it the session end. *)
Definition maxAlloc : Z := 2 ^ 48.

(** [BDAT size [LAST]]: exactly [size] bytes follow the line. *)
Definition cmdBDAT (n : nat) (rest : string) (c : Conn) (w : World) : Conn * World :=
  let t := c_txn c in
  match Fields rest with
  | [] => (writef 501 "5.5.4 BDAT needs a size" c, w)
  | f0 :: more =>
      match ParseInt f0 with
      | None => (writef 501 "5.5.4 bad BDAT size" c, w)
      | Some size =>
          if size <? 0 then (writef 501 "5.5.4 bad BDAT size" c, w)
          else
            let last := match more with f1 :: _ => EqualFold f1 "LAST" | [] => false end in
            if negb (t_haveFrom t) || negb (some_of (t_rcpts t) || some_of (t_subRcpts t) || some_of (t_bounceRcpts t) || some_of (t_reportRcpts t))
            then (writef 503 "5.5.1 need MAIL and RCPT first" c, w)
            else if (0 <? sv_MaxSize srv) && (sv_MaxSize srv - Z.of_nat (length (t_bdatBuf t)) <? size)
            then (writef 552 "5.3.4 message too large" (reset c), w)
            else if maxAlloc <? size then (set_in [] c, w)
            else if Z.of_nat (length (c_in c)) <? size then (writef 451 "4.3.0 error reading chunk" (set_in [] c), w)
            else
              let chunk := take (Z.to_nat size) (c_in c) in
              let c := set_in (drop (Z.to_nat size) (c_in c)) (set_txn (t_set_bdat (t_bdatBuf t ++ chunk) t) c) in
              if last then processData n (t_bdatBuf (c_txn c)) c w
              else (writef 250 "2.0.0 octets received" c, w)
      end
  end.

Definition cmdBURL (n : nat) (rest : string) (c : Conn) (w : World) : Conn * World :=
  let t := c_txn c in
  if negb (sv_Submission srv) || negb (sv_BURL srv) then (writef 503 "5.5.1 BURL not available" c, w)
  else if negb (c_authed c) then (writef 503 "5.7.0 authentication required" c, w)
  else if negb (t_haveFrom t) || negb (some_of (t_subRcpts t)) then (writef 503 "5.5.1 need MAIL and RCPT first" c, w)
  else
    let fields := Fields rest in
    match fields, rev fields with
    | url :: _ :: _, last :: _ =>
        if negb (EqualFold last "LAST") then (writef 501 "5.5.4 BURL requires <url> LAST" c, w)
        else
          match e_BURL (env n) (c_authAccount c) url with
          | None => (writef 554 "5.7.0 BURL URL resolution failed" c, w)
          | Some data =>
              if (0 <? sv_MaxSize srv) && (sv_MaxSize srv <? Z.of_nat (length data))
              then (writef 552 "5.3.4 message too large" (reset c), w)
              else processData n data c w
          end
    | _, _ => (writef 501 "5.5.4 BURL requires <url> LAST" c, w)
    end.

(** ** The session *)

(** The capabilities EHLO lists. *)
Definition size_limit : Z := if 0 <? sv_MaxSize srv then sv_MaxSize srv else 0.
Definition ehlo_lines (n : nat) (c : Conn) : list string :=
  (if sv_TLSConfig srv && negb (c_tls c) then ["STARTTLS"%string] else []) ++
  (if sv_Submission srv && authAllowed c then
     ["AUTH PLAIN" ++ match LookupSCRAM (e_dir (env n)) with
                      | Some _ => " SCRAM-SHA-256" ++ (if c_tls c then " SCRAM-SHA-256-PLUS" else EmptyString)
                      | None => EmptyString
                      end]%string else []) ++
  (if sv_Submission srv then ["FUTURERELEASE"%string] else []) ++
  ["PIPELINING"; "SIZE " ++ FormatInt size_limit; "8BITMIME";
   "ENHANCEDSTATUSCODES"; "LIMITS RCPTMAX=" ++ FormatInt maxRcpt; "DSN"; "CHUNKING"]%string ++
  (if c_tls c then ["REQUIRETLS"%string] else []) ++
  (if sv_Submission srv && sv_BURL srv then ["BURL imap"%string] else []) ++ ["SMTPUTF8"%string].

(** One command line; [false] ends the session. *)
Definition command (n : nat) (line : string) (c : Conn) (w : World) : bool * Conn * World :=
  let '(cmd, rest) := splitCmd line in
  let cmd := ToUpper cmd in
  if String.eqb cmd "EHLO" then
    let c := set_helo (trim_space rest) c in (true, foldl (fun c l => writef 250 l c) c (ehlo_lines n c), w)
  else if String.eqb cmd "HELO" then (true, writef 250 EmptyString (set_helo (trim_space rest) c), w)
  else if String.eqb cmd "STARTTLS" then (cmdStartTLS n c, w)
  else if String.eqb cmd "AUTH" then (true, cmdAuth n rest c, w)
  else if String.eqb cmd "MAIL" then (true, cmdMail n rest c, w)
  else if String.eqb cmd "RCPT" then (true, cmdRcpt n rest c, w)
  else if String.eqb cmd "DATA" then let '(c, w) := cmdData n c w in (true, c, w)
  else if String.eqb cmd "BDAT" then let '(c, w) := cmdBDAT n rest c w in (true, c, w)
  else if String.eqb cmd "BURL" then let '(c, w) := cmdBURL n rest c w in (true, c, w)
  else if String.eqb cmd "RSET" then (true, writef 250 "2.0.0 OK" (reset c), w)
  else if String.eqb cmd "NOOP" then (true, writef 250 "2.0.0 OK" c, w)
  else if String.eqb cmd "VRFY" then (true, writef 252 "2.5.2 cannot VRFY user, but will accept message" c, w)
  else if String.eqb cmd "EXPN" then (true, writef 502 "5.5.1 EXPN not supported" c, w)
  else if String.eqb cmd "HELP" then (true, writef 214 "2.0.0 octo-mail ESMTP; see RFC 5321" c, w)
  else if String.eqb cmd "QUIT" then (false, writef 221 "2.0.0 closing" c, w)
  else (true, writef 500 "5.5.1 command not recognized" c, w).

(** The loop of [serve], for at most [fuel] commands. *)
Fixpoint serve_loop (fuel n : nat) (c : Conn) (w : World) : Conn * World :=
  match fuel with
  | O => (c, w)
  | S fuel =>
      match read_line c with
      | None => (c, w)
      | Some (line, c) =>
          match command n (str_of line) c w with
          | (true, c, w) => serve_loop fuel (S n) c w
          | (false, c, w) => (c, w)
          end
      end
  end.

Definition new_conn (input : list ascii) : Conn :=
  mkConn input [mkReply 220 "ESMTP octo-mail"] false EmptyString false 0 0 None no_txn.
Definition Serve (fuel : nat) (input : list ascii) (w : World) : Conn * World := serve_loop fuel 0 (new_conn input) w.

End Smtpd.
