(* ===== verification/SmtpdSpec.v ===== *)
(** * SMTP sessions: relaying, well-formed transactions, termination

    What holds after any number of commands of any client: what an authenticated
    connection is, what a transaction may hold, which queue rows a session can
    have made, and that a session ends with its input. *)

From S2P Require Import Prelude GoStrings Shapes Changes Blob Database Tx Mailboxes Messages KernelInv KernelFlags Kernel KernelDemo Queue Strconv Headers Net Smtp Inbound Submit Base64 Receive Smtpd.

Local Open Scope go_scope.

Section Spec.
Context `{BlobOps} `{Unicode} `{UnicodeUpper} `{AddressParser} `{SubjectPass} `{DataReader} `{Scram}.
Variable srv : Server.
Variable env : nat -> Env.

(** ** What the directory has vouched for *)

(** A successful PLAIN or SCRAM exchange for the account. *)
Definition granted (tenant account : Z) : Prop :=
  exists n login ad,
    ParseAddress login = Some ad /\ AccountForAddress (e_dir (env n)) tenant ad = Some account /\
    ((exists password, AuthenticatePrincipal (e_dir (env n)) login password = Some tenant) \/
     (ScopeForLogin (e_dir (env n)) login = Some tenant /\
      exists lookup ver s1 s2 out1 response out2,
        LookupSCRAM (e_dir (env n)) = Some lookup /\ lookup login = Some ver /\
        scram_ServerFirst s1 ver = Some (out1, s2) /\ scram_Finish s2 response ver = Some out2)).

(** The sender address is one of the account's, in the tenant it logged in to. *)
Definition owns (tenant account : Z) (mailFrom : string) : Prop :=
  exists n ad, ParseAddress mailFrom = Some ad /\ AccountForAddress (e_dir (env n)) tenant ad = Some account.

Definition authorised (tenant account : Z) (mailFrom : string) : Prop :=
  sv_Submission srv = true /\ granted tenant account /\ owns tenant account mailFrom.

(** An account the directory named for a recipient address. *)
Definition resolved (a : account) : Prop := exists n ad, ResolveInbound (e_dir (env n)) ad = Some a.

(** ** The connection *)

(** Who is logged in: vouched for, with its own scope, and over TLS where TLS is
    configured. *)
Definition auth_ok (c : Conn) : Prop :=
  c_authed c = true ->
    sv_Submission srv = true /\ c_authScope c = Some (c_authTenant c) /\ granted (c_authTenant c) (c_authAccount c) /\
    (sv_TLSConfig srv = true -> c_tls c = true).

(** Recipients only of one kind, so that the branch [processData] takes serves them all. *)
Inductive one_kind (t : Txn) : Prop :=
| kind_submission : sv_Submission srv = true -> t_rcpts t = [] -> t_bounceRcpts t = [] -> t_reportRcpts t = [] -> one_kind t
| kind_bounce : sv_Submission srv = false -> sv_BounceHandler srv = true ->
    t_rcpts t = [] -> t_subRcpts t = [] -> t_reportRcpts t = [] -> one_kind t
| kind_report : sv_Submission srv = false -> sv_ReportHandler srv = true ->
    t_rcpts t = [] -> t_subRcpts t = [] -> t_bounceRcpts t = [] -> one_kind t
| kind_mail : sv_Submission srv = false ->
    t_subRcpts t = [] -> t_bounceRcpts t = [] -> t_reportRcpts t = [] -> one_kind t.

Definition txn_ok (c : Conn) : Prop :=
  let t := c_txn c in
  (t_haveFrom t = true -> sv_Submission srv = true ->
     c_authed c = true /\ owns (c_authTenant c) (c_authAccount c) (t_mailFrom t)) /\
  (t_haveFrom t = false -> t = no_txn) /\ one_kind t /\ rcpt_count t <= maxRcpt srv /\
  (0 < sv_MaxSize srv -> Z.of_nat (length (t_bdatBuf t)) <= sv_MaxSize srv) /\
  Forall (fun r => resolved r.1) (t_rcpts t).

Definition conn_ok (c : Conn) : Prop := auth_ok c /\ txn_ok c.

Lemma maxRcpt_pos : 0 < maxRcpt srv.
Proof. unfold maxRcpt, defaultMaxRcpt. destruct (Z.ltb_spec 0 (sv_MaxRcpt srv)); lia. Qed.

Lemma txn_none c : c_txn c = no_txn -> txn_ok c.
Proof.
  intros Ht. unfold txn_ok. rewrite Ht. pose proof maxRcpt_pos. simpl. split; [done|]. split; [done|].
  split; [|split; [unfold rcpt_count; simpl; lia|split; [lia|constructor]]].
  destruct (sv_Submission srv) eqn:Es; [by apply kind_submission|by apply kind_mail].
Qed.

Lemma reset_ok c : auth_ok c -> conn_ok (reset c).
Proof. intros Ha. split; [done|by apply txn_none]. Qed.

(** Two connections that differ in the input and the replies only. *)
Definition same (c1 c2 : Conn) : Prop :=
  c_tls c1 = c_tls c2 /\ c_authed c1 = c_authed c2 /\ c_authTenant c1 = c_authTenant c2 /\
  c_authAccount c1 = c_authAccount c2 /\ c_authScope c1 = c_authScope c2 /\ c_txn c1 = c_txn c2.

Lemma same_ok c1 c2 : same c1 c2 -> conn_ok c1 -> conn_ok c2.
Proof.
  intros (Ht & Ha & He & Hc & Hs & Hx). unfold conn_ok, auth_ok, txn_ok. by rewrite Ht, Ha, He, Hc, Hs, Hx.
Qed.

Lemma read_line_same c line c' : read_line c = Some (line, c') -> same c c'.
Proof. unfold read_line. destruct (index_byte LF (c_in c)); [|done]. by intros [= <- <-]. Qed.

Lemma challenge_same data c : same c (saslChallenge data c).2.
Proof.
  unfold saslChallenge. destruct (read_line _) as [[line c1]|] eqn:E; [|done].
  apply read_line_same in E. destruct (String.eqb _ _); [exact E|]. by destruct (Std_Decode _).
Qed.
Lemma initial_same ir c : same c (saslInitial ir c).2.
Proof.
  unfold saslInitial. destruct (String.eqb ir "="); [done|]. destruct (String.eqb ir EmptyString); [apply challenge_same|].
  by destruct (Std_Decode ir).
Qed.
Lemma same_trans c1 c2 c3 : same c1 c2 -> same c2 c3 -> same c1 c3.
Proof. unfold same. intuition congruence. Qed.

(** ** AUTH *)

Lemma authenticate_ok tenant account c : sv_Submission srv = true -> granted tenant account ->
  (sv_TLSConfig srv = true -> c_tls c = true) -> conn_ok (authenticate tenant account c).
Proof. intros Hs Hg Ht. split; [|by apply txn_none]. intros _. done. Qed.

Lemma authPlain_ok n arg c : sv_Submission srv = true -> (sv_TLSConfig srv = true -> c_tls c = true) ->
  conn_ok c -> conn_ok (authPlain env n arg c).
Proof.
  intros Hs Ht Hc. unfold authPlain. destruct (String.eqb arg EmptyString); [done|].
  destruct (Std_Decode arg) as [raw|]; [|done]. destruct (split _ _) as [|z [|login [|password []]]]; try done.
  destruct (ParseAddress login) as [ad|] eqn:Ep; [|done].
  destruct (AuthenticatePrincipal _ _ _) as [tenant|] eqn:Ea; [|done].
  destruct (AccountForAddress _ _ _) as [acc|] eqn:Eo; [|done].
  apply authenticate_ok; [done| |done]. exists n, login, ad. split; [done|]. split; [done|]. left. by exists password.
Qed.

Lemma authSCRAM_ok n ir plus c : sv_Submission srv = true -> (sv_TLSConfig srv = true -> c_tls c = true) ->
  conn_ok c -> conn_ok (authSCRAM srv env n ir plus c).
Proof.
  intros Hs Ht Hc. unfold authSCRAM. destruct (LookupSCRAM _) as [lookup|] eqn:El; [|done].
  destruct (plus && _); [done|].
  pose proof (initial_same ir c) as S1. destruct (saslInitial ir c) as [[first|] c1]; simpl in S1; [|by eapply same_ok].
  pose proof (same_ok _ _ S1 Hc) as O1.
  destruct (scram_NewServer _ _ _) as [[login s1]|]; [|done]. destruct (lookup login) as [ver|] eqn:Ev; [|done].
  destruct (scram_ServerFirst s1 ver) as [[out1 s2]|] eqn:Ef; [|done].
  pose proof (challenge_same out1 c1) as S2. destruct (saslChallenge out1 c1) as [[final|] c2]; simpl in S2; [|by eapply same_ok].
  pose proof (same_ok _ _ S2 O1) as O2.
  destruct (scram_Finish s2 final ver) as [out2|] eqn:Ee; [|done].
  pose proof (challenge_same out2 c2) as S3. destruct (saslChallenge out2 c2) as [[l|] c3]; simpl in S3; [|by eapply same_ok].
  pose proof (same_ok _ _ S3 O2) as O3.
  destruct (ParseAddress login) as [ad|] eqn:Ep; [|done]. destruct (ScopeForLogin _ _) as [tenant|] eqn:Es; [|done].
  destruct (AccountForAddress _ _ _) as [acc|] eqn:Eo; [|done].
  apply authenticate_ok; [done| |].
  - exists n, login, ad. split; [done|]. split; [done|]. right. split; [done|].
    by exists lookup, ver, s1, s2, out1, final, out2.
  - intros HT. destruct (same_trans _ _ _ (same_trans _ _ _ S1 S2) S3) as [<- _]. by apply Ht.
Qed.

Lemma cmdAuth_ok n rest c : conn_ok c -> conn_ok (cmdAuth srv env n rest c).
Proof.
  intros Hc. unfold cmdAuth. destruct (sv_Submission srv) eqn:Es; [|done]. cbn [negb].
  destruct (authAllowed srv c) eqn:Ea; [|done]. cbn [negb].
  assert (Ht : sv_TLSConfig srv = true -> c_tls c = true).
  { intros HT. unfold authAllowed in Ea. rewrite HT in Ea. by destruct (c_tls c). }
  destruct (splitCmd _) as [mech arg]. destruct (EqualFold mech "PLAIN"); [by apply authPlain_ok|].
  destruct (EqualFold mech "SCRAM-SHA-256"); [by apply authSCRAM_ok|].
  destruct (EqualFold mech "SCRAM-SHA-256-PLUS"); [by apply authSCRAM_ok|done].
Qed.

Lemma cmdStartTLS_ok n c : conn_ok c -> conn_ok (cmdStartTLS srv env n c).2.
Proof.
  intros Hc. unfold cmdStartTLS. destruct (negb _); [done|]. destruct (c_tls c); [done|].
  destruct (e_handshake (env n)); [|done]. split; [done|by apply txn_none].
Qed.

(** ** MAIL and RCPT *)

Lemma senderOwned_owns n mailFrom c : auth_ok c -> c_authed c = true -> senderOwned env n mailFrom c = true ->
  owns (c_authTenant c) (c_authAccount c) mailFrom.
Proof.
  intros Ha Hc Ho. destruct (Ha Hc) as (_ & Hs & _). unfold senderOwned in Ho. rewrite Hs in Ho.
  destruct (ParseAddress mailFrom) as [ad|] eqn:Ep; [|done]. destruct (AccountForAddress _ _ _) as [o|] eqn:Eo; [|done].
  apply Z.eqb_eq in Ho as ->. by exists n, ad.
Qed.

Lemma cmdMail_ok n rest c : conn_ok c -> conn_ok (cmdMail srv env n rest c).
Proof.
  intros [Ha Ht]. unfold cmdMail. destruct (parseAddrParam rest "FROM:") as [addr|]; [|done].
  match goal with |- conn_ok (if ?b then _ else _) => destruct b end; [done|]. cbv zeta.
  destruct (sv_Submission srv && negb _) eqn:E1; [by apply reset_ok|].
  destruct (sv_Submission srv && (_ || _)) eqn:E2; [by apply reset_ok|].
  destruct (if sv_Submission srv then _ else _) as [text|hold]; [by apply reset_ok|].
  split; [done|]. pose proof maxRcpt_pos. unfold txn_ok. simpl. split.
  { intros _ Hs. rewrite Hs in E1, E2. simpl in E1, E2. apply negb_false_iff in E1. split; [done|].
    apply orb_false_iff in E2 as [_ E2]. apply negb_false_iff in E2. by eapply (senderOwned_owns n addr (reset c)). }
  split; [done|]. split; [|split; [unfold rcpt_count; simpl; lia|split; [lia|constructor]]].
  destruct (sv_Submission srv) eqn:Es; [by apply kind_submission|by apply kind_mail].
Qed.

Lemma some_of_false {A} (l : list A) : some_of l = false -> l = [].
Proof. by destruct l. Qed.

Lemma rcpt_added c f text : conn_ok c ->
  t_haveFrom (c_txn c) = true ->
  (forall t, t_haveFrom (f t) = t_haveFrom t /\ t_mailFrom (f t) = t_mailFrom t /\ t_bdatBuf (f t) = t_bdatBuf t /\
             rcpt_count (f t) = rcpt_count t + 1) ->
  Forall (fun r => resolved r.1) (t_rcpts (f (c_txn c))) ->
  rcpt_count (c_txn c) < maxRcpt srv -> one_kind (f (c_txn c)) ->
  conn_ok (writef 250 text (set_txn (f (c_txn c)) c)).
Proof.
  intros [Ha (Hf & _ & _ & _ & Hb & _)] Hh Hfields Hres Hlt Hk.
  destruct (Hfields (c_txn c)) as (F1 & F2 & F3 & F4). split; [exact Ha|]. unfold txn_ok.
  cbn [c_txn writef set_txn c_authed c_authTenant c_authAccount]. rewrite F1, F2, F3, F4, Hh.
  split; [intros _; by apply Hf|]. split; [done|]. split; [done|]. split; [lia|]. split; [exact Hb|exact Hres].
Qed.

Lemma cmdRcpt_ok n rest c : conn_ok c -> conn_ok (cmdRcpt srv env n rest c).
Proof.
  intros Hc. unfold cmdRcpt. destruct (t_haveFrom (c_txn c)) eqn:Eh; [|done]. cbn [negb].
  destruct (parseAddrParam rest "TO:") as [addrStr|]; [|done]. destruct (ParseAddress addrStr) as [addr|]; [|done].
  destruct (Z.leb_spec (maxRcpt srv) (rcpt_count (c_txn c))) as [|Hlt]; [done|].
  assert (Hcount : forall x y z v, Z.of_nat (x + y + z + v) + 1 = Z.of_nat (x + y + z + (v + 1))) by lia.
  assert (Hk : one_kind (c_txn c)) by apply Hc. assert (Hres : Forall (fun r => resolved r.1) (t_rcpts (c_txn c))) by apply Hc.
  destruct (sv_Submission srv) eqn:Es.
  - destruct (negb (c_authed c)); [done|]. apply rcpt_added; try done.
    + intros t. unfold rcpt_count, t_add_sub. simpl. rewrite length_app. simpl. split_and!; lia || done.
    + destruct Hk; try congruence. by apply kind_submission.
  - destruct (negb (String.eqb (sv_BounceDomain srv) EmptyString) && _ && _) eqn:Eb.
    + destruct (some_of (t_rcpts (c_txn c)) || some_of (t_reportRcpts (c_txn c))) eqn:Ex; [done|].
      apply orb_false_iff in Ex as [X1%some_of_false X2%some_of_false]. apply rcpt_added; try done.
      * intros t. unfold rcpt_count, t_add_bounce. simpl. rewrite length_app. simpl. split_and!; lia || done.
      * apply andb_true_iff in Eb as [[_ Eb]%andb_true_iff _]. apply kind_bounce; try done. destruct Hk; simpl in *; congruence.
    + destruct (negb (String.eqb (sv_ReportDomain srv) EmptyString) && _ && _) eqn:Er.
      * destruct (some_of (t_rcpts (c_txn c)) || some_of (t_bounceRcpts (c_txn c))) eqn:Ex; [done|].
        apply orb_false_iff in Ex as [X1%some_of_false X2%some_of_false]. apply rcpt_added; try done.
        -- intros t. unfold rcpt_count, t_add_report. simpl. rewrite length_app. simpl. split_and!; lia || done.
        -- apply andb_true_iff in Er as [[_ Er]%andb_true_iff _]. apply kind_report; try done. destruct Hk; simpl in *; congruence.
      * destruct (some_of (t_bounceRcpts (c_txn c)) || some_of (t_reportRcpts (c_txn c))) eqn:Ex; [done|].
        apply orb_false_iff in Ex as [X1%some_of_false X2%some_of_false].
        destruct (ResolveInbound _ addr) as [target|] eqn:Et; [|done]. apply rcpt_added; try done.
        -- intros t. unfold rcpt_count, t_add_rcpt. simpl. rewrite length_app. simpl. split_and!; lia || done.
        -- simpl. apply Forall_app. split; [done|]. apply Forall_singleton. by exists n, addr.
        -- apply kind_mail; try done. destruct Hk; simpl in *; congruence.
Qed.

(** ** The message *)

(** What the functions the server calls after a delivery may do for account [acc]: add rows of
    that account to the queue. *)
Definition adds_only (acc : Z) (m m' : mail_state) : Prop := rows_of acc m.2 m'.2.
Definition adding_hooks : Prop := forall n i acc m,
  (forall sender rcptAddr raw, adds_only acc m (rx_vacation (e_rx (env n)) i acc sender rcptAddr raw m)) /\
  (forall emailID stored, adds_only acc m (rx_rules (e_rx (env n)) i acc emailID stored m)).

(** What commands may do to the tables, making the calls [l]: rows of the outbound queue are
    only added, each for an authorised sender or, by an MX listener, for a local account that
    has just been delivered a message; the MX listener by itself adds none, the submission
    listener delivers nothing. *)
Record effect_by (l : list event) (w w' : World) : Prop := {
  ef_trace : w_trace w' = w_trace w ++ l;
  ef_kept id row : q_rows (w_q w) !! id = Some row -> q_rows (w_q w') !! id = Some row;
  ef_added id row : q_rows (w_q w') !! id = Some row -> q_rows (w_q w) !! id = Some row \/
    authorised (r_tenant_id row) (r_account_id row) (r_mail_from row) \/
    exists mailbox junk, (r_account_id row, mailbox, junk) ∈ deliveries l;
  ef_local acc mailbox junk : (acc, mailbox, junk) ∈ deliveries l ->
    sv_Submission srv = false /\ exists a, resolved a /\ acc_id a = acc;
  ef_mx : sv_Submission srv = false -> mx_Vacation (sv_mx srv) = false -> mx_Rules (sv_mx srv) = false -> w_q w' = w_q w;
  ef_submission : sv_Submission srv = true -> w_db w' = w_db w }.
Definition effect (w w' : World) : Prop := exists l, effect_by l w w'.

#[local] Instance effect_preorder : PreOrder effect.
Proof.
  split.
  - intros w. exists []. split; try done; [by rewrite app_nil_r|intros; by left|by intros ? ? ? ?%not_elem_of_nil].
  - intros w1 w2 w3 [l1 [A1 A2 A3 A4 A5 A6]] [l2 [B1 B2 B3 B4 B5 B6]]. exists (l1 ++ l2). split.
    + by rewrite B1, A1, app_assoc.
    + auto.
    + intros id row Hr. rewrite deliveries_app. apply B3 in Hr as [Hr|[?|(mb & j & Hin)]]; [|by right; left|].
      * apply A3 in Hr as [?|[?|(mb & j & Hin)]]; [by left|by right; left|]. right; right. exists mb, j. set_solver.
      * right; right. exists mb, j. set_solver.
    + intros acc mb j. rewrite deliveries_app, elem_of_app. intros [Hin|Hin]; [by eapply A4|by eapply B4].
    + intros Hs Hv Hm. rewrite B5 by done. by apply A5.
    + intros Hs. rewrite B6 by done. by apply A6.
Qed.

(** Calls that deliver nothing, and tables as they were. *)
Lemma effect_same l w w' : w_trace w' = w_trace w ++ l -> deliveries l = [] -> w_q w' = w_q w -> w_db w' = w_db w -> effect w w'.
Proof.
  intros Ht Hl Hq Hd. exists l. split; try done; rewrite ?Hq, ?Hl; [done|by intros; left|by intros ? ? ? ?%not_elem_of_nil].
Qed.

Lemma hand_over_same mk seen lps w : (forall lp, deliveries [mk lp] = []) ->
  w_q (hand_over mk seen lps w) = w_q w /\ w_db (hand_over mk seen lps w) = w_db w /\
  exists l, w_trace (hand_over mk seen lps w) = w_trace w ++ l /\ deliveries l = [].
Proof.
  intros Hmk. revert seen w. induction lps as [|lp lps IH]; intros seen w.
  { split_and!; try done. exists []. by rewrite app_nil_r. }
  simpl. destruct (bool_decide _); [apply IH|].
  destruct (IH ({[lp]} ∪ seen) (emit (mk lp) w)) as (-> & -> & l & -> & Hl). split_and!; try done.
  exists (mk lp :: l). split; [simpl; by rewrite <- app_assoc|]. change (mk lp :: l) with ([mk lp] ++ l).
  by rewrite deliveries_app, Hmk, Hl.
Qed.

(** The vacation responder as it is: whatever its tables hold, it adds rows of the account only. *)
Lemma Respond_adds renv acc sender rcptAddr raw v m : adds_only acc m (Respond renv acc sender rcptAddr raw v m).2.
Proof.
  pose proof (Respond_cases renv acc sender rcptAddr raw v m) as Hc. destruct (Respond _ _ _ _ _ _ _) as [[x v'] m'].
  destruct Hc as (_ & _ & [[_ ->]|(_ & _ & _ & _ & _ & [Hq|Hone])]); [split; auto|split; cbn [snd]; rewrite Hq; auto|].
  destruct Hone as (id & row & Hn & Hr & Ha & _). cbn [snd]. split; rewrite Hr.
  - intros k x0 Hk. rewrite lookup_insert_ne; [done|congruence].
  - intros k x0. rewrite lookup_insert. case_decide; [intros [= <-]; by right|by left].
Qed.

Context (Hhooks : adding_hooks).

(** The rows that come with deliveries are the recipients'. *)
Lemma calls_add n mailFrom data i acc addr mb m m' : calls (sv_mx srv) (e_rx (env n)) mailFrom data i acc addr mb m m' -> adds_only acc m m'.
Proof.
  unfold calls. set (m1 := if mx_Vacation (sv_mx srv) && _ && _ then _ else m). cbv zeta.
  assert (Hm1 : adds_only acc m m1) by (subst m1; destruct (_ && _); [apply Hhooks|split; auto]).
  clearbody m1. intros [->|(_ & _ & eid & stored & ->)]; [done|]. destruct (Hhooks n i acc m1) as [_ Hr].
  destruct (Hr eid stored) as [B1 B2], Hm1 as [A1 A2]. split; [auto|]. intros id row [Hrow|?]%B2; auto.
Qed.
Lemma delivered_adds n mailFrom data i rcpts d m l d' m' :
  delivered (sv_mx srv) (e_rx (env n)) mailFrom data i rcpts d m l d' m' ->
  (forall id row, q_rows m.2 !! id = Some row -> q_rows m'.2 !! id = Some row) /\
  (forall id row, q_rows m'.2 !! id = Some row -> q_rows m.2 !! id = Some row \/ exists mb j, (r_account_id row, mb, j) ∈ l) /\
  (forall acc mb j, (acc, mb, j) ∈ l -> exists r, r ∈ rcpts /\ acc_id r.1 = acc).
Proof.
  induction 1 as [i d m|i a addr rcpts d m mailbox junk r d1 b1 m1 l d2 m2 _ Hc _ (IH1 & IH2 & IH3)].
  { split_and!; [done|by left|by intros ? ? ? ?%not_elem_of_nil]. }
  apply calls_add in Hc as [C1 C2]. cbn [snd] in C1, C2. split_and!.
  - auto.
  - intros id row [Hr|(mb & j & Hin)]%IH2; [|right; exists mb, j; set_solver].
    apply C2 in Hr as [?|<-]; [by left|]. right. exists mailbox, junk. set_solver.
  - intros acc mb j [[= -> -> ->]|Hin]%elem_of_cons; [exists (a, addr); set_solver|].
    destruct (IH3 _ _ _ Hin) as (r0 & Hr0 & <-). exists r0. set_solver.
Qed.

Lemma accounted_effect n mailFrom data rcpts w reply w' l : sv_Submission srv = false ->
  Forall (fun r => resolved r.1) rcpts ->
  accounted (sv_mx srv) (e_rx (env n)) mailFrom data 0 rcpts w reply w' l -> effect w w'.
Proof.
  intros Hs Hres (m2 & Ht & Hdel & Hq & _ & _ & Hnone). exists l.
  apply delivered_adds in Hdel as (D1 & D2 & D3). split; [done|..]; rewrite ?Hs; try done.
  - intros id row. rewrite Hq. apply D1.
  - intros id row. rewrite Hq. intros [?|Hin]%D2; [by left|by right; right].
  - intros acc mb j Hin. split; [done|]. destruct (D3 _ _ _ Hin) as (r & Hr & <-). exists r.1. split; [|done].
    rewrite Forall_forall in Hres. apply Hres. apply elem_of_take in Hr as (k & Hk & _). by eapply list_elem_of_lookup_2.
Qed.

Lemma receive_effect n mailFrom data rcpts w : sv_Submission srv = false -> Forall (fun r => resolved r.1) rcpts ->
  effect w (receive (sv_mx srv) (e_rx (env n)) mailFrom data rcpts w).2.
Proof.
  intros Hs Hres.
  assert (Hloop : effect w (deliver_loop (sv_mx srv) (e_rx (env n)) mailFrom data 0 rcpts ∅ w).2).
  { destruct (deliver_loop _ _ _ _ _ _ _ _) as [reply w'] eqn:E.
    destruct (loop_spec _ _ _ _ _ _ _ _ _ _ E) as (l & Hl & _). by eapply accounted_effect. }
  unfold receive. destruct (_ <? _); [reflexivity|]. destruct (authenticated _ _); [|done].
  destruct (negb _); [reflexivity|]. by destruct (_ && _).
Qed.

(** The conclusion for one command: the connection stays well formed and the tables
    change as allowed. *)
Definition fine (w : World) (r : Conn * World) : Prop := conn_ok r.1 /\ effect w r.2.

Lemma fine_reply w c code text : conn_ok c -> fine w (writef code text c, w).
Proof. intros Hc. split; [exact Hc|reflexivity]. Qed.

Lemma processData_fine n data c w : conn_ok c -> t_haveFrom (c_txn c) = true -> fine w (processData srv env n data c w).
Proof.
  intros Hc Hh. assert (Hr : conn_ok (reset c)) by (apply reset_ok, Hc).
  unfold processData. destruct (_ && _); [by apply fine_reply|].
  destruct (_ && sv_BounceHandler srv).
  { split; [exact Hr|]. destruct (hand_over_same EvBounce ∅ (t_bounceRcpts (c_txn c)) w) as (Hq & Hd & l & Ht & Hl); [done|].
    by eapply effect_same. }
  destruct (_ && sv_ReportHandler srv).
  { split; [exact Hr|]. destruct (hand_over_same EvReport ∅ (t_reportRcpts (c_txn c)) w) as (Hq & Hd & l & Ht & Hl); [done|].
    by eapply effect_same. }
  destruct (sv_Submission srv) eqn:Es.
  - destruct Hc as [Ha (Hf & _)]. destruct (Hf Hh Es) as [Hau How]. destruct (Ha Hau) as (_ & _ & Hg & _).
    unfold SubmitDSN. pose proof (submit_from (e_now (env n)) (e_commit (env n)) (c_authTenant c) (c_authAccount c) 0
      (t_mailFrom (c_txn c)) ((fun x => x.1.1) <$> t_subRcpts (c_txn c)) (str_of data) (t_holdUntil (c_txn c))
      (dsn_params (c_txn c) data) (w_blobs w) (w_q w)) as [K1 K2].
    destruct (submit _ _ _ _ _ _ _ _ _ _ _ _) as [[r b] q]. simpl in K1, K2.
    assert (He : forall l, deliveries l = [] -> effect w (mkWorld (w_db w) b (w_in w) q (w_trace w ++ l))).
    { intros l Hl. exists l. split; rewrite ?Hl, ?Es; try done; [|by intros ? ? ? ?%not_elem_of_nil].
      intros id row Hq. apply K2 in Hq as [Hq|(-> & -> & ->)]; [by left|right; left]. done. }
    destruct r; (split; [exact Hr|]); [by apply (He [_])|]. specialize (He []). rewrite app_nil_r in He. by apply He.
  - assert (Hres : Forall (fun r => resolved r.1) (t_rcpts (c_txn c))) by apply Hc.
    pose proof (receive_effect n (t_mailFrom (c_txn c)) (str_of data) (t_rcpts (c_txn c)) w Es Hres) as He.
    destruct (receive _ _ _ _ _ _) as [reply w']. split; [exact Hr|exact He].
Qed.

Lemma set_in_ok l c : conn_ok c -> conn_ok (set_in l c).
Proof. done. Qed.

Lemma cmdData_fine n c w : conn_ok c -> fine w (cmdData srv env n c w).
Proof.
  intros Hc. assert (Hr : forall c, conn_ok c -> conn_ok (reset c)) by (intros c1 Hc1; apply reset_ok, Hc1).
  unfold cmdData. cbv zeta. destruct (t_haveFrom (c_txn c)) eqn:Eh; [|by apply fine_reply]. cbn [negb orb].
  match goal with |- fine w (if ?b then _ else _) => destruct b end; [by apply fine_reply|].
  destruct (0 <? sv_MaxSize srv).
  - destruct (ReadUpTo _ _) as [[data|] dr]; [|by apply fine_reply].
    destruct (_ <? _); [destruct (ReadUpTo _ dr) as [o dr2]; apply fine_reply, Hr, Hc|].
    by apply processData_fine.
  - destruct (ReadAll _) as [[data|] dr]; [|by apply fine_reply]. by apply processData_fine.
Qed.

Lemma cmdBDAT_fine n rest c w : conn_ok c -> fine w (cmdBDAT srv env n rest c w).
Proof.
  intros Hc. assert (Hr : conn_ok (reset c)) by (apply reset_ok, Hc).
  unfold cmdBDAT. destruct (Fields rest) as [|f0 more]; [by apply fine_reply|].
  destruct (ParseInt f0) as [size|]; [|by apply fine_reply]. destruct (Z.ltb_spec size 0) as [|Hpos]; [by apply fine_reply|].
  cbv zeta. destruct (t_haveFrom (c_txn c)) eqn:Eh; [|by apply fine_reply]. cbn [negb orb].
  match goal with |- fine w (if ?b then _ else _) => destruct b end; [by apply fine_reply|].
  destruct (_ && _) eqn:Em; [by apply fine_reply|].
  destruct (maxAlloc <? size); [split; [exact Hc|reflexivity]|]. destruct (Z.of_nat (length (c_in c)) <? size) eqn:El; [split; [exact Hc|reflexivity]|].
  set (c2 := set_in _ _).
  assert (Hc2 : conn_ok c2).
  { destruct Hc as [Ha (Hf & Hn & Hk & Hx & Hb & Hres)]. split; [exact Ha|]. unfold txn_ok. subst c2. cbn [c_txn set_in set_txn].
    split; [exact Hf|]. split; [simpl; congruence|]. split; [by destruct Hk; [apply kind_submission|apply kind_bounce|apply kind_report|apply kind_mail]|].
    split; [exact Hx|]. split; [|exact Hres]. intros Hm. simpl. rewrite length_app, length_take. apply Z.ltb_ge in El.
    apply Z.ltb_lt in Hm. rewrite Hm in Em. simpl in Em. apply Z.ltb_ge in Em. lia. }
  assert (Hh2 : t_haveFrom (c_txn c2) = true) by exact Eh. clearbody c2.
  match goal with |- fine w (if ?b then _ else _) => destruct b end; [by apply processData_fine|by apply fine_reply].
Qed.

Lemma cmdBURL_fine n rest c w : conn_ok c -> fine w (cmdBURL srv env n rest c w).
Proof.
  intros Hc. assert (Hr : conn_ok (reset c)) by (apply reset_ok, Hc).
  unfold cmdBURL. cbv zeta. destruct (_ || _); [by apply fine_reply|]. destruct (negb _); [by apply fine_reply|].
  destruct (t_haveFrom (c_txn c)) eqn:Eh; [|by apply fine_reply]. cbn [negb orb]. destruct (negb _); [by apply fine_reply|].
  destruct (Fields rest) as [|url [|x more]]; try by apply fine_reply. destruct (rev _) as [|last ?]; [by apply fine_reply|].
  destruct (negb _); [by apply fine_reply|]. destruct (e_BURL _ _ _) as [data|]; [|by apply fine_reply].
  destruct (_ && _); [by apply fine_reply|by apply processData_fine].
Qed.

(** ** The session *)

Lemma foldl_writef l c : conn_ok c -> conn_ok (foldl (fun c t => writef 250 t c) c l).
Proof. revert c. induction l as [|t l IH]; intros c Hc; [done|]. simpl. by apply IH. Qed.

Lemma command_fine n line c w : conn_ok c ->
  let r := command srv env n line c w in fine w (r.1.2, r.2).
Proof.
  intros Hc. assert (Hr : conn_ok (reset c)) by (apply reset_ok, Hc). cbv zeta. unfold command.
  destruct (splitCmd line) as [cmd rest]. set (up := ToUpper cmd). clearbody up.
  destruct (String.eqb up "EHLO"); [split; [by apply foldl_writef|reflexivity]|].
  destruct (String.eqb up "HELO"); [by apply fine_reply|].
  destruct (String.eqb up "STARTTLS").
  { pose proof (cmdStartTLS_ok n c Hc) as Ht. destruct (cmdStartTLS srv env n c) as [go c1]. split; [exact Ht|reflexivity]. }
  destruct (String.eqb up "AUTH"); [split; [by apply cmdAuth_ok|reflexivity]|].
  destruct (String.eqb up "MAIL"); [split; [by apply cmdMail_ok|reflexivity]|].
  destruct (String.eqb up "RCPT"); [split; [by apply cmdRcpt_ok|reflexivity]|].
  destruct (String.eqb up "DATA"); [pose proof (cmdData_fine n c w Hc) as Hd; by destruct (cmdData _ _ _ _ _)|].
  destruct (String.eqb up "BDAT"); [pose proof (cmdBDAT_fine n rest c w Hc) as Hd; by destruct (cmdBDAT _ _ _ _ _ _)|].
  destruct (String.eqb up "BURL"); [pose proof (cmdBURL_fine n rest c w Hc) as Hd; by destruct (cmdBURL _ _ _ _ _ _)|].
  repeat match goal with |- context [String.eqb up ?s] => destruct (String.eqb up s); [by apply fine_reply|] end.
  by apply fine_reply.
Qed.

Lemma serve_fine fuel n c w : conn_ok c -> fine w (serve_loop srv env fuel n c w).
Proof.
  revert n c w. induction fuel as [|fuel IH]; intros n c w Hc; cbn [serve_loop]; [split; [done|reflexivity]|].
  destruct (read_line c) as [[line c1]|] eqn:E; [|split; [done|reflexivity]].
  assert (Hc1 : conn_ok c1) by (eapply same_ok; [by eapply read_line_same|done]).
  pose proof (command_fine n (str_of line) c1 w Hc1) as [K1 K2]. destruct (command _ _ _ _ _ _) as [[[] c2] w2]; [|done].
  simpl in K1, K2. destruct (IH (S n) c2 w2 K1) as [L1 L2]. split; [done|]. by etransitivity.
Qed.

Lemma new_conn_ok input : conn_ok (new_conn input).
Proof. split; [done|by apply txn_none]. Qed.

(** [C15] No open relay: whatever bytes a client sends and however many commands are
    served, every row the session has added to the outbound queue either belongs to a
    tenant and an account whose credentials the directory accepted, with a MAIL FROM that
    is an address of that account, or was submitted by the vacation responder or the mail
    rules of a local account, which the directory named for a recipient and to which this
    session delivered a message; rows of others stay; an MX listener with neither adds
    none, and a submission listener delivers into no mailbox. *)
Theorem no_open_relay (fuel : nat) (input : list ascii) (w : World) : effect w (Serve srv env fuel input w).2.
Proof. apply serve_fine, new_conn_ok. Qed.

(** After any commands the connection is well formed: logged in only for the account
    the directory vouched for and, where TLS is configured, only over TLS; a
    submission transaction only for an owned sender; the accepted recipients of one
    kind, so that the branch that processes the message serves all of them; at most
    the advertised number of recipients, and chunks within the maximum size. *)
Theorem session_wf (fuel : nat) (input : list ascii) (w : World) : conn_ok (Serve srv env fuel input w).1.
Proof. apply serve_fine, new_conn_ok. Qed.

(** ** Termination *)

(** The life of a connection: commands until the input has no further line, or a
    command ends it. *)
Inductive session : nat -> Conn -> World -> Conn -> World -> Prop :=
| session_eof n c w : read_line c = None -> session n c w c w
| session_end n c w line c1 c2 w2 :
    read_line c = Some (line, c1) -> command srv env n (str_of line) c1 w = (false, c2, w2) -> session n c w c2 w2
| session_next n c w line c1 c2 w2 c3 w3 :
    read_line c = Some (line, c1) -> command srv env n (str_of line) c1 w = (true, c2, w2) ->
    session (S n) c2 w2 c3 w3 -> session n c w c3 w3.

(** A data reader hands back what it did not consume. *)
Class DataReaderLaws := {
  new_left l : left (NewDataReader l) = l;
  readupto_left k r : left (ReadUpTo k r).2 `suffix_of` left r;
  readall_left r : left (ReadAll r).2 `suffix_of` left r }.

Context `{!DataReaderLaws}.

Definition shrinks (c c' : Conn) : Prop := c_tls c' = c_tls c /\ (length (c_in c') <= length (c_in c))%nat.

#[local] Instance shrinks_preorder : PreOrder shrinks.
Proof.
  split; [intros c; split; [done|lia]|]. intros c1 c2 c3 [A1 A2] [B1 B2]. split; [congruence|lia].
Qed.

Lemma shrinks_same c c' : c_tls c' = c_tls c -> c_in c' = c_in c -> shrinks c c'.
Proof. intros Ht Hi. split; [done|by rewrite Hi]. Qed.

Lemma read_line_shrinks c line c' : read_line c = Some (line, c') ->
  c_tls c' = c_tls c /\ (length (c_in c') < length (c_in c))%nat.
Proof.
  unfold read_line. destruct (index_byte LF (c_in c)) as [i|] eqn:E; [|done]. intros [= <- <-]. simpl. split; [done|].
  rewrite length_drop. destruct (c_in c); [done|simpl; lia].
Qed.

Lemma challenge_shrinks data c : shrinks c (saslChallenge data c).2.
Proof.
  unfold saslChallenge. destruct (read_line _) as [[line c1]|] eqn:E; [|split; [done|simpl; lia]].
  apply read_line_shrinks in E as [Ht Hl]. simpl in Ht, Hl.
  destruct (String.eqb _ _); [|destruct (Std_Decode _)]; (split; [exact Ht|simpl; lia]).
Qed.
Lemma initial_shrinks ir c : shrinks c (saslInitial ir c).2.
Proof.
  unfold saslInitial. destruct (String.eqb ir "="); [reflexivity|]. destruct (String.eqb ir EmptyString); [apply challenge_shrinks|].
  by destruct (Std_Decode ir).
Qed.

Lemma authSCRAM_shrinks n ir plus c : shrinks c (authSCRAM srv env n ir plus c).
Proof.
  unfold authSCRAM. destruct (LookupSCRAM _) as [lookup|]; [|done]. destruct (plus && _); [done|].
  pose proof (initial_shrinks ir c) as S1. destruct (saslInitial ir c) as [[first|] c1]; simpl in S1; [|done].
  destruct (scram_NewServer _ _ _) as [[login s1]|]; [|done]. destruct (lookup login) as [ver|]; [|done].
  destruct (scram_ServerFirst s1 ver) as [[out1 s2]|]; [|done].
  pose proof (challenge_shrinks out1 c1) as S2. destruct (saslChallenge out1 c1) as [[final|] c2]; simpl in S2;
    pose proof (PreOrder_Transitive _ _ _ S1 S2) as S12; [|done].
  destruct (scram_Finish s2 final ver) as [out2|]; [|done].
  pose proof (challenge_shrinks out2 c2) as S3. destruct (saslChallenge out2 c2) as [[l|] c3]; simpl in S3;
    pose proof (PreOrder_Transitive _ _ _ S12 S3) as S; [|done].
  destruct (ParseAddress login) as [ad|]; [|done]. destruct (ScopeForLogin _ _) as [tenant|]; [|done].
  by destruct (AccountForAddress _ _ _).
Qed.

Lemma cmdAuth_shrinks n rest c : shrinks c (cmdAuth srv env n rest c).
Proof.
  unfold cmdAuth. destruct (negb _); [done|]. destruct (negb _); [done|]. destruct (splitCmd _) as [mech arg].
  destruct (EqualFold _ "PLAIN"); [|repeat case_match; done || apply authSCRAM_shrinks].
  unfold authPlain. by repeat case_match.
Qed.

Lemma processData_shrinks n data c w : shrinks c (processData srv env n data c w).1.
Proof.
  unfold processData. cbv zeta. destruct (_ && _); [done|]. destruct (_ && sv_BounceHandler srv); [done|].
  destruct (_ && sv_ReportHandler srv); [done|]. destruct (sv_Submission srv).
  - by destruct (SubmitDSN _ _ _ _ _ _ _ _ _ _ _) as [[[] b] q].
  - by destruct (receive _ _ _ _ _ _).
Qed.

Lemma suffix_shrinks c l : l `suffix_of` c_in c -> shrinks c (set_in l c).
Proof. intros Hs. split; [done|]. by apply suffix_length. Qed.

Lemma cmdData_shrinks n c w : shrinks c (cmdData srv env n c w).1.
Proof.
  unfold cmdData. cbv zeta. destruct (_ || _); [done|].
  set (c1 := writef 354 _ c). change (shrinks c1 (let '(a, _) := if 0 <? sv_MaxSize srv then
    match ReadUpTo (Z.to_nat (sv_MaxSize srv + 1)) (NewDataReader (c_in c1)) with
    | (Some data, dr) => if sv_MaxSize srv <? Z.of_nat (length data)
        then let '(_, dr0) := ReadUpTo (Z.to_nat (sv_MaxSize srv + 1)) dr in
             (writef 552 "5.3.4 message exceeds size limit" (reset (set_in (left dr0) c1)), w)
        else processData srv env n data (set_in (left dr) c1) w
    | (None, dr) => (writef 451 "4.3.0 error reading data" (set_in (left dr) c1), w) end
    else match ReadAll (NewDataReader (c_in c1)) with
    | (Some data, dr) => processData srv env n data (set_in (left dr) c1) w
    | (None, dr) => (writef 451 "4.3.0 error reading data" (set_in (left dr) c1), w) end in a)).
  assert (Hrec : forall data dr, left dr `suffix_of` c_in c1 ->
    shrinks c1 (processData srv env n data (set_in (left dr) c1) w).1).
  { intros data dr Hs. etransitivity; [by apply suffix_shrinks|apply processData_shrinks]. }
  destruct (0 <? sv_MaxSize srv).
  - pose proof (readupto_left (Z.to_nat (sv_MaxSize srv + 1)) (NewDataReader (c_in c1))) as L. rewrite new_left in L.
    destruct (ReadUpTo _ (NewDataReader _)) as [[data|] dr]; simpl in L; [|by apply suffix_shrinks].
    destruct (_ <? _); [|specialize (Hrec data dr L); by destruct (processData _ _ _ _ _ _)].
    pose proof (readupto_left (Z.to_nat (sv_MaxSize srv + 1)) dr) as L2. destruct (ReadUpTo _ dr) as [o dr2]; simpl in L2.
    apply suffix_shrinks. by etransitivity.
  - pose proof (readall_left (NewDataReader (c_in c1))) as L. rewrite new_left in L.
    destruct (ReadAll _) as [[data|] dr]; simpl in L; [|by apply suffix_shrinks].
    specialize (Hrec data dr L). by destruct (processData _ _ _ _ _ _).
Qed.

Lemma cmdBDAT_shrinks n rest c w : shrinks c (cmdBDAT srv env n rest c w).1.
Proof.
  unfold cmdBDAT. destruct (Fields rest) as [|f0 more]; [done|]. destruct (ParseInt f0) as [size|]; [|done].
  destruct (_ <? 0); [done|]. cbv zeta. destruct (_ || _); [done|]. destruct (_ && _); [done|].
  destruct (maxAlloc <? size); [split; [done|simpl; lia]|].
  destruct (Z.of_nat _ <? size); [split; [done|simpl; lia]|]. set (c2 := set_in _ _).
  assert (Hc2 : shrinks c c2) by (split; [done|]; subst c2; simpl; rewrite length_drop; lia).
  clearbody c2. match goal with |- shrinks c (if ?b then _ else _).1 => destruct b end; [|done].
  etransitivity; [exact Hc2|apply processData_shrinks].
Qed.

Lemma cmdBURL_shrinks n rest c w : shrinks c (cmdBURL srv env n rest c w).1.
Proof.
  unfold cmdBURL. cbv zeta. destruct (_ || _); [done|]. destruct (negb _); [done|]. destruct (_ || _); [done|].
  destruct (Fields rest) as [|url [|x more]]; try done. destruct (rev _) as [|last ?]; [done|].
  destruct (negb _); [done|]. destruct (e_BURL _ _ _); [|done]. destruct (_ && _); [done|apply processData_shrinks].
Qed.

Lemma foldl_writef_shrinks l c : shrinks c (foldl (fun c t => writef 250 t c) c l).
Proof. revert c. induction l as [|t l IH]; intros c; [reflexivity|]. simpl. etransitivity; [|apply IH]. done. Qed.

(** What is left to read: the input, and before STARTTLS what may come inside. *)
Variable B : nat.
Hypothesis handshake_bound : forall n inside, e_handshake (env n) = Some inside -> (length inside <= B)%nat.
Definition todo (c : Conn) : nat := (length (c_in c) + if c_tls c then 0 else B)%nat.

Lemma todo_shrinks c c' : shrinks c c' -> (todo c' <= todo c)%nat.
Proof. intros [Ht Hl]. unfold todo. rewrite Ht. lia. Qed.

Lemma command_todo n line c w : (todo (command srv env n line c w).1.2 <= todo c)%nat.
Proof.
  unfold command. destruct (splitCmd line) as [cmd rest]. set (up := ToUpper cmd). clearbody up.
  destruct (String.eqb up "EHLO"); [apply todo_shrinks, (foldl_writef_shrinks _ (set_helo (trim_space rest) c))|].
  destruct (String.eqb up "HELO"); [done|].
  destruct (String.eqb up "STARTTLS").
  { unfold cmdStartTLS. destruct (negb _); [done|]. destruct (c_tls c) eqn:Et; [done|].
    destruct (e_handshake (env n)) as [inside|] eqn:Eh; [|done]. unfold todo. simpl. rewrite Et.
    apply handshake_bound in Eh. lia. }
  destruct (String.eqb up "AUTH"); [apply todo_shrinks, cmdAuth_shrinks|].
  destruct (String.eqb up "MAIL"); [apply todo_shrinks; unfold cmdMail; repeat case_match; by apply shrinks_same|].
  destruct (String.eqb up "RCPT"); [apply todo_shrinks; unfold cmdRcpt; repeat case_match; by apply shrinks_same|].
  destruct (String.eqb up "DATA"); [apply todo_shrinks; pose proof (cmdData_shrinks n c w) as Hd; by destruct (cmdData _ _ _ _ _)|].
  destruct (String.eqb up "BDAT"); [apply todo_shrinks; pose proof (cmdBDAT_shrinks n rest c w) as Hd; by destruct (cmdBDAT _ _ _ _ _ _)|].
  destruct (String.eqb up "BURL"); [apply todo_shrinks; pose proof (cmdBURL_shrinks n rest c w) as Hd; by destruct (cmdBURL _ _ _ _ _ _)|].
  by repeat match goal with |- context [String.eqb up ?s] => destruct (String.eqb up s) end.
Qed.

Lemma serve_session fuel n c w : (todo c <= fuel)%nat ->
  session n c w (serve_loop srv env fuel n c w).1 (serve_loop srv env fuel n c w).2.
Proof.
  revert n c w. induction fuel as [|fuel IH]; intros n c w Hf; cbn [serve_loop].
  { apply session_eof. unfold read_line. cbn [fst]. unfold todo in Hf.
    destruct (c_in c); [reflexivity|simpl in Hf; lia]. }
  destruct (read_line c) as [[line c1]|] eqn:E; [|by apply session_eof].
  assert (Hlt : (todo c1 < todo c)%nat).
  { apply read_line_shrinks in E as [Ht Hl]. unfold todo. rewrite Ht. lia. }
  pose proof (command_todo n (str_of line) c1 w) as Hle.
  destruct (command srv env n (str_of line) c1 w) as [[[] c2] w2] eqn:Ec; simpl in Hle.
  - eapply session_next; [done|done|]. apply IH. lia.
  - by eapply session_end.
Qed.

(** [C22] A session ends: when at most [B] bytes come inside TLS, the loop run for as many
    commands as there are bytes to read is the whole life of the connection, up to a
    line that never comes or the command that closes it. *)
Theorem serve_ends (fuel : nat) (input : list ascii) (w : World) :
  (length input + B <= fuel)%nat ->
  session 0 (new_conn input) w (Serve srv env fuel input w).1 (Serve srv env fuel input w).2.
Proof. intros Hf. apply serve_session. exact Hf. Qed.

End Spec.

(** ** Instances *)

#[local] Instance sd_unicode : Unicode := { unicode_lower := fun r => r; EqualFold := String.eqb }.
#[local] Instance sd_upper : UnicodeUpper := { unicode_upper := fun r => r }.
#[local] Instance sd_parser : AddressParser :=
  { ParseAddress := fun s => if contains s "@" then Some (mkAddress s (Addr.Domain s)) else None }.
#[local] Instance sd_subjectpass : SubjectPass := { sp_Verify := fun _ _ _ _ => false; sp_Generate := fun _ _ _ => EmptyString }.

(** A reader of data without dot-stuffed lines: the bytes up to a line that is a dot. *)
Fixpoint dot_body (bol : bool) (k : nat) (l : list ascii) : option (list ascii) * list ascii :=
  match k, l with
  | O, _ => (Some [], l)
  | _, [] => (None, [])
  | S k, c :: l' =>
      match bol, l' with
      | true, c1 :: c2 :: l'' =>
          if Ascii.eqb c "." && Ascii.eqb c1 CR && Ascii.eqb c2 LF then (Some [], l'')
          else let r := dot_body (Ascii.eqb c LF) k l' in (cons c <$> r.1, r.2)
      | _, _ => let r := dot_body (Ascii.eqb c LF) k l' in (cons c <$> r.1, r.2)
      end
  end.
#[local] Instance sd_reader : DataReader := {
  reader := list ascii; NewDataReader := fun l => l;
  ReadUpTo := fun k l => dot_body true k l; ReadAll := fun l => dot_body true (S (length l)) l; left := fun l => l }.
#[local] Instance sd_scram : Scram := {
  verifier := unit; scram_server := unit; scram_NewServer := fun _ _ _ => None;
  scram_ServerFirst := fun _ _ => None; scram_Finish := fun _ _ _ => None }.

Lemma dot_body_left bol k l : (dot_body bol k l).2 `suffix_of` l.
Proof.
  revert bol k. induction l as [|c l IH]; intros bol k; destruct k; try done. simpl.
  assert (Hc : forall b, (dot_body b k l).2 `suffix_of` c :: l) by (intros b; apply suffix_cons_r, IH).
  destruct bol; [|apply Hc]. destruct l as [|c1 [|c2 l2]]; try apply Hc.
  destruct (_ && _ && _); [|apply Hc]. by exists [c; c1; c2].
Qed.
#[local] Instance sd_reader_laws : DataReaderLaws.
Proof. split; [done| |]; intros; apply dot_body_left. Qed.

Definition sd_dir : Directory :=
  mkDirectory (fun ad => if String.eqb (sa_Domain ad) "x.example" then Some alice else None)
    (fun login password => if String.eqb password "secret" then Some 1 else None)
    (fun tenant ad => if String.eqb (sa_Localpart ad) "alice@x.example" then Some 1 else None) None (fun _ => None).
Definition sd_env : nat -> Env :=
  fun _ => mkEnv 7 sd_dir rx_env0 Committed (fun _ => None) (fun _ _ => None) None.
Definition sd_mx : MxConfig := mkMx false false 0 None false false false.
Definition sd_submission : Server := mkServer 0 0 true false false false EmptyString false EmptyString false sd_mx.
Definition sd_inbound (maxSize : Z) : Server := mkServer maxSize 0 false false false false EmptyString false EmptyString false sd_mx.
Definition sd_world : World := mkWorld demo_db no_files (mkInDB ∅ ∅ []) empty_queue [].

Definition crlf (l : list string) : list ascii := concat ((fun s => bytes_of s ++ CRLF) <$> l).
Definition run_session (srv : Server) (input : list ascii) : Conn * World :=
  Serve srv sd_env (length input) input sd_world.
Definition codes_of (r : Conn * World) : list Z := rp_code <$> c_out r.1.

(** AUTH PLAIN of \0alice@x.example\0secret. *)
Definition sd_login : string := "AUTH PLAIN AGFsaWNlQHguZXhhbXBsZQBzZWNyZXQ=".
Definition sd_script : list ascii := crlf
  ["MAIL FROM:<alice@x.example>"; sd_login; "MAIL FROM:<bob@x.example>"; "MAIL FROM:<alice@x.example>";
   "RCPT TO:<carol@y.example>"; "DATA"; "hello"; "."; "QUIT"; "NOOP"]%string.

Example submission_session :
  codes_of (run_session sd_submission sd_script) = [220; 530; 235; 550; 250; 250; 354; 250; 221] /\
  (exists row, q_rows (w_q (run_session sd_submission sd_script).2) !! 1 = Some row /\
     r_mail_from row = "alice@x.example"%string /\ r_rcpt_to row = "carol@y.example"%string /\ r_account_id row = 1).
Proof.
  split; [vm_compute; reflexivity|].
  assert (Hr : (fun row => (r_mail_from row, r_rcpt_to row, r_account_id row)) <$>
    q_rows (w_q (run_session sd_submission sd_script).2) !! 1 = Some ("alice@x.example"%string, "carol@y.example"%string, 1))
    by (vm_compute; reflexivity).
  destruct (q_rows _ !! 1) as [row|]; [|discriminate]. injection Hr as Hm Hrcpt Ha. by exists row.
Qed.

(** A message for Alice, who is away: her reply is in the queue. *)
Definition sd_away : Server := mkServer 0 0 false false false false EmptyString false EmptyString false
  (mkMx false false 0 None false true true).
Definition sd_letter : list ascii := crlf
  ["MAIL FROM:<s@a.example>"; "RCPT TO:<alice@x.example>"; "DATA"; "Subject: hi"; "."; "QUIT"]%string.
Lemma sd_hooks : adding_hooks sd_env.
Proof.
  intros n i acc m. split; [|intros; by split; [|left]].
  intros sender rcptAddr raw. exact (Respond_adds (vac_env 7) acc sender rcptAddr raw vac_db m).
Qed.
Lemma no_open_relay_witness :
  effect sd_away sd_env sd_world (run_session sd_away sd_letter).2 /\
  (fun row => (r_account_id row, r_mail_from row, r_rcpt_to row)) <$> q_rows (w_q (run_session sd_away sd_letter).2) !! 1
  = Some (1, EmptyString, "s@a.example"%string).
Proof. split; [exact (no_open_relay sd_away sd_env sd_hooks (length sd_letter) sd_letter sd_world)|vm_compute; reflexivity]. Defined.

Lemma serve_ends_witness :
  session sd_submission sd_env 0 (new_conn sd_script) sd_world (run_session sd_submission sd_script).1
    (run_session sd_submission sd_script).2 /\ c_in (run_session sd_submission sd_script).1 <> [].
Proof.
  split; [|vm_compute; discriminate].
  apply (serve_ends sd_submission sd_env 0 ltac:(intros n inside Hn; discriminate Hn) (length sd_script) sd_script sd_world).
  rewrite Nat.add_0_r. apply Nat.le_refl.
Defined.

(** ** Divergences *)

(** HOLDFOR=9223372037 seconds, some 292 years, is over the limit, but the duration wraps around:
    the message is accepted with a release time in the past. *)
Example holdfor_wraps :
  release_time sd_env 0 "FROM:<alice@x.example> HOLDFOR=9223372037" = inr (7 - 9223372036709551) /\
  9223372037 * second > maxFutureRelease.
Proof. split; vm_compute; reflexivity. Qed.

(** A chunk that is refused is not read: its bytes run as commands. *)
Example refused_chunk_runs :
  codes_of (run_session (sd_inbound 4) (crlf ["MAIL FROM:<s@a.example>"; "RCPT TO:<alice@x.example>"; "BDAT 8 LAST"; "NOOP"; "QUIT"]%string))
  = [220; 250; 250; 552; 250; 221].
Proof. vm_compute. reflexivity. Qed.

(** Data beyond twice the maximum size runs as commands, although the rest of the message is drained
    to keep the command stream in sync. *)
Example oversized_data_runs :
  codes_of (run_session (sd_inbound 4) (crlf ["MAIL FROM:<s@a.example>"; "RCPT TO:<alice@x.example>"; "DATA"; "12345678"; "NOOP"; "."; "QUIT"]%string))
  = [220; 250; 250; 354; 552; 250; 500; 221].
Proof. vm_compute. reflexivity. Qed.

(** Without a maximum size a chunk of 2^63-1 bytes is announced and the process ends. *)
Example huge_chunk_ends :
  codes_of (run_session (sd_inbound 0) (crlf ["MAIL FROM:<s@a.example>"; "RCPT TO:<alice@x.example>"; "BDAT 9223372036854775807"; "NOOP"]%string))
  = [220; 250; 250].
Proof. vm_compute. reflexivity. Qed.
