(* ===== verification/Textproto.v ===== *)
(** * net/textproto: reading a message header

    [Reader.ReadMIMEHeader] on a message in memory: the fields in order with
    canonical names, and the bytes after the blank line.  A malformed field, or a
    message that ends before a blank line, is an error. *)

From S2P Require Import Prelude GoStrings Strconv Headers Smtp Base64.

(** ** Bytes *)

Definition is_blank (c : ascii) : bool := Ascii.eqb c SP || Ascii.eqb c HT.
Definition is_alnum (c : ascii) : bool := in_range 48 57 c || in_range 65 90 c || in_range 97 122 c.
Definition validHeaderFieldByte (c : ascii) : bool :=
  is_alnum c || existsb (Ascii.eqb c) (bytes_of "!#$%&'*+-.^_`|~").
(** Visible characters, space, tab, and anything outside ASCII. *)
Definition validHeaderValueByte (c : ascii) : bool := is_blank c || in_range 33 126 c || in_range 128 255 c.

(** ** Names *)

Fixpoint canonical_bytes (upper : bool) (l : list ascii) : list ascii :=
  match l with
  | [] => []
  | c :: l =>
      let c' := if upper && in_range 97 122 c then byte_char (byte_of c - 32)
                else if negb upper && in_range 65 90 c then byte_char (byte_of c + 32)
                else c in
      c' :: canonical_bytes (Ascii.eqb c' "-") l
  end.

(** [canonicalMIMEHeaderKey]: a name with a space is kept as it is, a byte that is not
    allowed is an error. *)
Definition canonicalMIMEHeaderKey (a : list ascii) : option (list ascii) :=
  match a with
  | [] => None
  | _ =>
      if negb (forallb (fun c => validHeaderFieldByte c || Ascii.eqb c SP) a) then None
      else if existsb (fun c => Ascii.eqb c SP) a then Some a
      else Some (canonical_bytes true a)
  end.
Definition CanonicalMIMEHeaderKey (s : string) : string :=
  if forallb validHeaderFieldByte (bytes_of s) then str_of (canonical_bytes true (bytes_of s)) else s.

(** [strings.ContainsAny] of ASCII characters. *)
Definition contains_any (chars : list ascii) (s : string) : bool :=
  existsb (fun c => existsb (Ascii.eqb c) chars) (bytes_of s).

(** ** Lines *)

Definition strip_cr (line : list ascii) : list ascii :=
  match rev line with c :: r => if Ascii.eqb c CR then rev r else line | [] => line end.

(** [bufio.Reader.ReadLine]: at the end of the input a last line without LF is returned
    as it is. *)
Definition ReadLine (l : list ascii) : option (list ascii * list ascii) :=
  match l with
  | [] => None
  | _ => match index_byte LF l with
         | None => Some (l, [])
         | Some i => Some (strip_cr (take i l), drop (S i) l)
         end
  end.

Definition trim_blank (l : list ascii) : list ascii := trim_both is_blank l.

(** The continuation lines after a line: each begins with blanks, which become one space. *)
Fixpoint continuations (fuel : nat) (buf rest : list ascii) : list ascii * list ascii :=
  match fuel with
  | O => (buf, rest)
  | S fuel =>
      match rest with
      | c :: _ =>
          if is_blank c then
            match ReadLine (drop_while is_blank rest) with
            | None => (buf ++ [SP], [])
            | Some (line, rest') => continuations fuel (buf ++ SP :: trim_blank line) rest'
            end
          else (buf, rest)
      | [] => (buf, rest)
      end
  end.

(** ** Headers *)

Definition MIMEHeader : Type := list (string * string).
Definition Values (h : MIMEHeader) (name : string) : list string :=
  snd <$> filter (fun kv => kv.1 = CanonicalMIMEHeaderKey name) h.
Definition Get (h : MIMEHeader) (name : string) : string :=
  match Values h name with v :: _ => v | [] => EmptyString end.

(** A field of its unfolded line. *)
Definition header_field (kv : list ascii) : option (string * string) :=
  match index_byte ":"%char kv with
  | None => None
  | Some i =>
      match canonicalMIMEHeaderKey (take i kv) with
      | None => None
      | Some key =>
          let v := drop (S i) kv in
          if forallb validHeaderValueByte v then Some (str_of key, str_of (drop_while is_blank v)) else None
      end
  end.

(** The fields up to the blank line; a field takes at least a byte. *)
Fixpoint read_fields (fuel : nat) (l : list ascii) : option (MIMEHeader * list ascii) :=
  match fuel with
  | O => None
  | S fuel =>
      match ReadLine l with
      | None => None
      | Some ([], rest) => Some ([], rest)
      | Some (line, rest) =>
          if negb (existsb (fun c => Ascii.eqb c ":") line) then None
          else
            let '(kv, rest) := continuations (length rest) (trim_blank line) rest in
            match header_field kv with
            | None => None
            | Some f =>
                match read_fields fuel rest with
                | None => None
                | Some (h, body) => Some (f :: h, body)
                end
            end
      end
  end.

Definition ReadMIMEHeader (raw : list ascii) : option (MIMEHeader * list ascii) :=
  match raw with
  | c :: _ => if is_blank c then None else read_fields (S (length raw)) raw
  | [] => None
  end.

Definition singleHeader (h : MIMEHeader) (name : string) : option string :=
  match Values h name with
  | [v] => let value := trim_space v in if String.eqb value EmptyString then None else Some value
  | _ => None
  end.

(** A concrete header: folded lines, a repeated name, bare LF. *)
Example read_header :
  ReadMIMEHeader (bytes_of "From: a@x" ++ CRLF ++ bytes_of "x-octo-TRACE-id:  7 " ++ [LF] ++ HT :: bytes_of "8" ++ CRLF ++ CRLF ++ bytes_of "body")
  = Some ([("From", "a@x"); ("X-Octo-Trace-Id", "7 8")]%string, bytes_of "body").
Proof. vm_compute. reflexivity. Qed.

(** ** Writing MIME (mime.FormatMediaType, mime/multipart.Writer) and file names

    The parts of Go's standard library that compose a forward: media types with their
    parameters, the parts of a multipart body, and [filepath.Base]. *)


(** ** Media types *)

Definition isTSpecial (c : ascii) : bool := existsb (Ascii.eqb c) (bytes_of "()<>@,;:\/[]?=" ++ [ascii_of_nat 34]).
Definition isTokenChar (c : ascii) : bool := in_range 33 126 c && negb (isTSpecial c).
Definition isToken (s : string) : bool := negb (String.eqb s EmptyString) && forallb isTokenChar (bytes_of s).
Definition needsEncoding (s : string) : bool := existsb (fun c => negb (in_range 32 126 c) && negb (Ascii.eqb c HT)) (bytes_of s).

Definition upperhex (n : Z) : ascii := byte_char (if n <? 10 then 48 + n else 55 + n).
Definition percent (c : ascii) : list ascii :=
  if negb (in_range 33 126 c) || existsb (Ascii.eqb c) (bytes_of "*'%") || isTSpecial c
  then ["%"%char; upperhex (byte_of c / 16); upperhex (byte_of c mod 16)] else [c].
Definition quote_char (c : ascii) : list ascii :=
  if Ascii.eqb c (ascii_of_nat 34) || Ascii.eqb c "\"%char then ["\"%char; c] else [c].

Definition format_value (value : string) : list ascii :=
  if needsEncoding value then bytes_of "*=utf-8''" ++ concat (percent <$> bytes_of value)
  else "="%char ::
    if isToken value then bytes_of value
    else ascii_of_nat 34 :: concat (quote_char <$> bytes_of value) ++ [ascii_of_nat 34].

(** [mime.FormatMediaType] of a type and one parameter; empty when either is not made of
    tokens. *)
Definition FormatMediaType (t attribute value : string) : string :=
  let ok :=
    match index_byte "/"%char (bytes_of t) with
    | None => isToken t
    | Some i => isToken (str_of (take i (bytes_of t))) && isToken (drop_prefix (S i) t)
    end in
  if negb (ok && isToken attribute) then EmptyString
  else str_of ((lower_ascii <$> bytes_of t) ++ bytes_of "; " ++ (lower_ascii <$> bytes_of attribute) ++ format_value value).

(** ** Multipart bodies *)

(** [Writer.CreatePart]: the boundary line, preceded by the end of the part before it, and
    the fields in the order of their names. *)
Definition CreatePart (boundary : string) (first : bool) (fields : list (string * string)) : list ascii :=
  (if first then [] else CRLF) ++ bytes_of ("--" ++ boundary)%string ++ CRLF
    ++ concat ((fun kv : string * string => bytes_of (kv.1 ++ ": " ++ kv.2)%string ++ CRLF) <$> fields) ++ CRLF.
(** [Writer.Close]. *)
Definition ClosePart (boundary : string) : list ascii := CRLF ++ bytes_of ("--" ++ boundary ++ "--")%string ++ CRLF.

(** The parts of a body, fields and content. *)
Definition multipart (boundary : string) (parts : list (list (string * string) * list ascii)) : list ascii :=
  concat (imap (fun i part => CreatePart boundary (Nat.eqb i 0) part.1 ++ part.2) parts) ++ ClosePart boundary.

(** ** File names *)

(** [filepath.Base] on Unix. *)
Definition is_slash (c : ascii) : bool := Ascii.eqb c "/".
Definition Base (path : string) : string :=
  if String.eqb path EmptyString then "."
  else
    match rev (drop_while is_slash (rev (bytes_of path))) with
    | [] => "/"
    | l => match last_index_byte "/"%char l with
           | Some i => str_of (drop (S i) l)
           | None => str_of l
           end
    end.

(** [unicode.IsControl]. *)
Definition IsControl (r : Z) : bool := ((0 <=? r) && (r <? 32)) || ((127 <=? r) && (r <? 160)).

Example format_name : FormatMediaType "image/PNG" "name" "a b.png" = ("image/png; name=" ++ String (ascii_of_nat 34) ("a b.png" ++ String (ascii_of_nat 34) EmptyString))%string.
Proof. vm_compute. reflexivity. Qed.
Example format_utf8 : FormatMediaType "text/plain" "name" "é" = "text/plain; name*=utf-8''%C3%A9"%string.
Proof. vm_compute. reflexivity. Qed.

(** ** Lemmas on texts and headers

    ASCII strings and their white space, texts without line breaks and where they can be
    cut, and the fields that [ReadMIMEHeader] returns. *)


(** ** ASCII strings are their own segments *)

Definition ascii_bytes (l : list ascii) : bool := forallb (fun c => byte_of c <? 128) l.

Lemma ascii_segs l : ascii_bytes l = true -> segs l = (fun c => (byte_of c, [c])) <$> l.
Proof.
  unfold segs. assert (G : forall n, (length l <= n)%nat -> ascii_bytes l = true ->
    segs_fuel n l = (fun c => (byte_of c, [c])) <$> l); [|by apply G].
  induction l as [|c l IH]; intros [|n] Hn Ha; try done; simpl in Hn; try lia.
  simpl in Ha. apply andb_true_iff in Ha as [Hc Ha]. cbn [segs_fuel]. unfold decode_rune. cbv zeta. rewrite Hc. simpl.
  f_equal. rewrite drop_0. apply IH; [lia|done].
Qed.

Lemma drop_while_map {A B} (f : A -> B) p l : drop_while p (f <$> l) = f <$> drop_while (fun x => p (f x)) l.
Proof. induction l as [|x l IH]; [done|]. csimpl. destruct (p (f x)); [done|]. by csimpl. Qed.
Lemma trim_both_map {A B} (f : A -> B) p l : trim_both p (f <$> l) = f <$> trim_both (fun x => p (f x)) l.
Proof.
  assert (Hrev : forall k : list A, rev (f <$> k) = f <$> rev k) by (intros k; symmetry; apply map_rev).
  unfold trim_both. by rewrite drop_while_map, Hrev, drop_while_map, Hrev.
Qed.

Definition sp (c : ascii) : bool := is_space_rune (byte_of c).

Lemma trim_space_ascii l : ascii_bytes l = true -> trim_space_l l = trim_both sp l.
Proof.
  intros Ha. unfold trim_space_l. rewrite ascii_segs by done. rewrite trim_both_map, <- list_fmap_compose. unfold compose. simpl.
  change (trim_both (fun x => is_space_rune (byte_of x)) l) with (trim_both sp l).
  induction (trim_both sp l) as [|c k IH]; [done|]. csimpl. by rewrite IH.
Qed.

(** A list whose ends are kept is kept whole. *)
Definition ends_kept {A} (f : A -> bool) (l : list A) : Prop :=
  match l with x :: _ => f x = false | [] => True end /\ match rev l with x :: _ => f x = false | [] => True end.

Lemma drop_while_kept {A} (f : A -> bool) l : match l with x :: _ => f x = false | [] => True end -> drop_while f l = l.
Proof. destruct l as [|x l]; [done|]. simpl. by intros ->. Qed.
Lemma trim_both_kept {A} (f : A -> bool) l : ends_kept f l -> trim_both f l = l.
Proof.
  intros [H1 H2]. unfold trim_both. rewrite (drop_while_kept f l H1), (drop_while_kept f (rev l) H2). apply rev_involutive.
Qed.
Lemma drop_while_head {A} (f : A -> bool) l : match drop_while f l with x :: _ => f x = false | [] => True end.
Proof. induction l as [|x l IH]; [done|]. simpl. destruct (f x) eqn:E; [exact IH|exact E]. Qed.
Lemma drop_while_suffix {A} (f : A -> bool) l : exists k, l = k ++ drop_while f l.
Proof.
  induction l as [|x l [k IH]]; [by exists []|]. simpl. destruct (f x); [|by exists []].
  exists (x :: k). simpl. by rewrite <- IH.
Qed.
Lemma trim_both_ends {A} (f : A -> bool) l : ends_kept f (trim_both f l).
Proof.
  unfold trim_both, ends_kept. rewrite rev_involutive. split; [|apply drop_while_head].
  pose proof (drop_while_head f l) as Hh. destruct (drop_while_suffix f (rev (drop_while f l))) as [k Hk].
  destruct (drop_while f (rev (drop_while f l))) as [|y r] eqn:E; [done|]. rewrite <- E in *.
  apply (f_equal (@rev A)) in Hk. rewrite rev_involutive, rev_app_distr in Hk. rewrite Hk in Hh.
  destruct (rev (drop_while f (rev (drop_while f l)))) as [|z r'] eqn:E2; [|exact Hh].
  apply (f_equal (@rev A)) in E2. rewrite rev_involutive in E2. by rewrite E in E2.
Qed.

Lemma ascii_bytes_trim l : ascii_bytes l = true -> ascii_bytes (trim_both sp l) = true.
Proof.
  unfold ascii_bytes. rewrite !forallb_forall. intros Ha x Hx. apply Ha. unfold trim_both in Hx.
  apply in_rev in Hx. destruct (drop_while_suffix sp (rev (drop_while sp l))) as [k Hk].
  assert (Hx2 : In x (rev (drop_while sp l))) by (rewrite Hk; apply in_or_app; by right).
  apply in_rev in Hx2. destruct (drop_while_suffix sp l) as [k2 Hk2]. rewrite Hk2. apply in_or_app. by right.
Qed.

Lemma lower_sp c : byte_of c < 128 -> sp (lower_ascii c) = sp c.
Proof.
  intros Hc. unfold sp. assert (Hall : forallb (fun n => Bool.eqb (is_space_rune (byte_of (lower_ascii (ascii_of_nat n)))) (is_space_rune (byte_of (ascii_of_nat n)))) (seq 0 256) = true)
    by (vm_compute; reflexivity).
  rewrite forallb_forall in Hall. specialize (Hall (nat_of_ascii c)). rewrite ascii_nat_embedding in Hall.
  apply Bool.eqb_prop, Hall, in_seq. pose proof (nat_ascii_bounded c). lia.
Qed.
Lemma lower_twice c : lower_ascii (lower_ascii c) = lower_ascii c.
Proof.
  assert (Hall : forallb (fun n => Ascii.eqb (lower_ascii (lower_ascii (ascii_of_nat n))) (lower_ascii (ascii_of_nat n))) (seq 0 256) = true)
    by (vm_compute; reflexivity).
  rewrite forallb_forall in Hall. specialize (Hall (nat_of_ascii c)). rewrite ascii_nat_embedding in Hall.
  apply Ascii.eqb_eq, Hall, in_seq. pose proof (nat_ascii_bounded c). lia.
Qed.
Lemma lower_small c : byte_of c < 128 -> byte_of (lower_ascii c) < 128.
Proof.
  intros Hc. assert (Hall : forallb (fun n => (128 <=? byte_of (ascii_of_nat n)) || (byte_of (lower_ascii (ascii_of_nat n)) <? 128)) (seq 0 256) = true)
    by (vm_compute; reflexivity).
  rewrite forallb_forall in Hall. specialize (Hall (nat_of_ascii c)). rewrite ascii_nat_embedding in Hall.
  specialize (Hall ltac:(apply in_seq; pose proof (nat_ascii_bounded c); lia)).
  apply orb_true_iff in Hall as [Hb|Hb]; lia.
Qed.

Lemma is_ascii_bytes s : is_ascii s = ascii_bytes (bytes_of s).
Proof. reflexivity. Qed.

(** ** Texts without line breaks *)

Definition no_lf (s : string) : Prop := LF ∉ bytes_of s.

Lemma contains_any_none chars s c : contains_any chars s = false -> In c chars -> c ∉ bytes_of s.
Proof.
  unfold contains_any. intros Hf Hc Hin. assert (Ht : existsb (fun c => existsb (Ascii.eqb c) chars) (bytes_of s) = true).
  { apply existsb_exists. exists c. split; [by apply list_elem_of_In|]. apply existsb_exists. exists c. split; [done|]. apply Ascii.eqb_refl. }
  congruence.
Qed.

Lemma format_no_lf z : is_i64 z = true -> no_lf (FormatInt z).
Proof. by apply FormatInt_without. Qed.

Lemma cut_string a a' b b' : no_lf a -> no_lf a' -> (a ++ String LF EmptyString ++ b = a' ++ String LF EmptyString ++ b')%string -> a = a' /\ b = b'.
Proof.
  intros Ha Ha' He. apply (f_equal bytes_of) in He. rewrite !bytes_of_app in He.
  destruct (cut_inj LF (bytes_of a) (bytes_of a') (bytes_of b) (bytes_of b') Ha Ha' He) as [He1 He2].
  split; [rewrite <- (str_of_bytes_of a), <- (str_of_bytes_of a')|rewrite <- (str_of_bytes_of b), <- (str_of_bytes_of b')]; by f_equal.
Qed.

(** ** Header values are lines *)

Lemma drop_while_elem {A} (f : A -> bool) l x : x ∈ drop_while f l -> x ∈ l.
Proof. intros Hx. destruct (drop_while_suffix f l) as [k ->]. apply elem_of_app. by right. Qed.
Lemma trim_both_elem {A} (f : A -> bool) l x : x ∈ trim_both f l -> x ∈ l.
Proof.
  unfold trim_both. intros Hx. rewrite <- (Permutation.Permutation_rev (drop_while f (rev (drop_while f l)))) in Hx.
  apply drop_while_elem in Hx. rewrite <- (Permutation.Permutation_rev (drop_while f l)) in Hx. by apply drop_while_elem in Hx.
Qed.
Lemma trim_space_elem s c : c ∈ bytes_of (trim_space s) -> c ∈ bytes_of s.
Proof.
  unfold trim_space, trim_space_l. rewrite bytes_of_str_of. intros Hc. rewrite <- (segs_concat (bytes_of s)).
  apply list_elem_of_In, in_concat in Hc as (l & Hl & Hc). apply list_elem_of_In, in_concat. exists l. split; [|done].
  apply list_elem_of_In in Hl. apply list_elem_of_fmap in Hl as (p & -> & Hp). apply list_elem_of_In, list_elem_of_fmap. exists p.
  split; [done|]. by eapply trim_both_elem.
Qed.
Lemma no_lf_trim s : no_lf s -> no_lf (trim_space s).
Proof. intros Hs Hc. apply Hs. by apply trim_space_elem. Qed.

Lemma read_fields_lines fuel l h body : read_fields fuel l = Some (h, body) -> Forall (fun kv => no_lf kv.2) h.
Proof.
  revert l h body. induction fuel as [|fuel IH]; intros l h body; cbn [read_fields]; [done|].
  destruct (ReadLine l) as [[[|c line] rest]|]; [by intros [= <- <-]| |done]. destruct (negb _); [done|].
  destruct (continuations _ _ _) as [kv rest']. destruct (header_field kv) as [f|] eqn:Ef; [|done].
  destruct (read_fields fuel rest') as [[h' body']|] eqn:Er; [|done]. intros [= <- <-]. constructor; [|by eapply IH].
  unfold header_field in Ef. destruct (index_byte _ kv) as [i|]; [|done]. destruct (canonicalMIMEHeaderKey _) as [k|]; [|done]. cbv zeta in Ef.
  destruct (forallb validHeaderValueByte _) eqn:Ev; [|done]. injection Ef as <-. simpl. intros Hin. rewrite bytes_of_str_of in Hin.
  apply drop_while_elem in Hin. rewrite forallb_forall in Ev. apply list_elem_of_In in Hin. by apply Ev in Hin.
Qed.
Lemma single_no_lf raw h body name v : ReadMIMEHeader raw = Some (h, body) -> singleHeader h name = Some v -> no_lf v.
Proof.
  unfold ReadMIMEHeader. destruct raw as [|c raw]; [done|]. destruct (is_blank c); [done|]. intros Hr%read_fields_lines.
  unfold singleHeader. destruct (Values h name) as [|w [|]] eqn:Ev; [done| |done]. cbv zeta. destruct (String.eqb _ _); [done|]. intros [= <-].
  apply no_lf_trim. assert (Hw : w ∈ Values h name) by (rewrite Ev; left). unfold Values in Hw.
  apply list_elem_of_fmap in Hw as (kv & -> & Hkv). apply list_elem_of_filter in Hkv as [_ Hkv].
  by apply (proj1 (Forall_forall _ _) Hr) in Hkv.
Qed.

Lemma ParseInt_range s z : ParseInt s = Some z -> is_i64 z = true.
Proof. unfold ParseInt. destruct (match bytes_of s with [] => _ | _ => _ end) as [v|]; [|done]. destruct (is_i64 v) eqn:E; [|done]. by intros [= <-]. Qed.
