(* ===== verification/AutoReplyChain.v ===== *)
(** * The automatic-reply chain (mailflow/autoreplychain/chain.go)

    Agents that answer each other's mail carry a signed counter in the headers of
    their replies.  Times are Unix seconds; the random trace id is a parameter of
    the call.  HMAC-SHA256 is the interface of [Verp]; the letters and digits of
    package [unicode] outside ASCII are parameters. *)

From S2P Require Import Prelude GoStrings Strconv Verp Headers Base64 Textproto.

Local Open Scope go_scope.

(** ** Letters and digits of package unicode *)

Class UnicodeClasses := { unicode_letter : Z -> bool; unicode_digit : Z -> bool }.

Definition IsLetter `{UnicodeClasses} (r : Z) : bool :=
  if r <? 128 then ((65 <=? r) && (r <=? 90)) || ((97 <=? r) && (r <=? 122)) else unicode_letter r.
Definition IsDigit `{UnicodeClasses} (r : Z) : bool :=
  if r <? 128 then (48 <=? r) && (r <=? 57) else unicode_digit r.

(** ** Constants *)

Definition HeaderTraceID : string := "X-Octo-Auto-Reply-Trace-ID".
Definition HeaderCount : string := "X-Octo-Auto-Reply-Count".
Definition HeaderSignature : string := "X-Octo-Auto-Reply-Signature".
Definition HeaderRecipient : string := "X-Octo-Auto-Reply-Recipient".
Definition HeaderExpires : string := "X-Octo-Auto-Reply-Expires".
Definition HeaderSubmitted : string := "Auto-Submitted".
Definition SubmittedAutoReplied : string := "auto-replied".
Definition DefaultMaxCount : Z := 4.
Definition signatureVersion : string := "v2".
Definition minKeyBytes : nat := 32.
Definition maxTraceIDBytes : nat := 64.
Definition maxCount : Z := 1000000.
Definition signatureValidity : Z := 86400.
Definition clockSkew : Z := 300.

(** 如无明确问题或待办，无需回复。 *)
Definition FinalNotice : string := "如无明确问题或待办，无需回复。".

Inductive Verification : Type := VerificationMissing | VerificationValid | VerificationInvalid.
#[export] Instance Verification_eq_dec : EqDecision Verification.
Proof. solve_decision. Defined.

Record ChainContext := mkContext { cx_Verification : Verification; cx_TraceID : string; cx_Count : Z; cx_Automated : bool }.
Record ChainMetadata := mkMetadata { cm_TraceID : string; cm_Count : Z; cm_Recipient : string; cm_ExpiresAt : Z; cm_Signature : string }.
Record Chain := mkChain { ch_key : string; ch_maxCount : Z }.

Definition New (key : string) (max : Z) : result Chain :=
  if (max <=? 0) || (maxCount <? max) then Err (ErrText "auto-reply max count out of range")
  else if (String.length key <? minKeyBytes)%nat then Err (ErrText "auto-reply chain key too short")
  else Ok (mkChain key max).

(** ** Canonical forms *)

Section Chain.
Context `{Unicode} `{UnicodeClasses} `{Hmac}.

Definition canonicalMessageID (value : string) : string :=
  let value := trim_space value in
  let l := bytes_of value in
  if (length l <? 3)%nat || negb (starts ["<"%char] l) || negb (starts [">"%char] (rev l)) || contains_any [CR; LF; HT; SP] value
  then EmptyString else value.

Definition canonicalRecipient (value : string) : string :=
  let value := ToLower (trim_space value) in
  if String.eqb value EmptyString || (320 <? String.length value)%nat || negb (contains value "@")
     || contains_any [CR; LF; HT; SP; ","%char] value
  then EmptyString else value.

Definition validTraceID (value : string) : bool :=
  if String.eqb value EmptyString || (maxTraceIDBytes <? String.length value)%nat then false
  else forallb (fun p : Z * list ascii => IsLetter p.1 || IsDigit p.1 || (p.1 =? 45) || (p.1 =? 95)) (segs (bytes_of value)).

Definition decodeSignature (value : string) : option (list ascii) :=
  let prefix := (signatureVersion ++ ".")%string in
  if negb (has_prefix value prefix) then None
  else match RawURL_Decode (trim_prefix value prefix) with
       | Some raw => if (length raw =? 32)%nat then Some raw else None
       | None => None
       end.

Definition automatedHeader (h : MIMEHeader) : bool :=
  existsb (fun value => let value := trim_space value in
             negb (String.eqb value EmptyString) && negb (EqualFold value "no")) (Values h HeaderSubmitted).

(** ** The signature *)

Definition nl : string := String LF EmptyString.
Definition mac_text (traceID : string) (count : Z) (messageID recipient : string) (expiresAt : Z) : string :=
  (signatureVersion ++ nl ++ traceID ++ nl ++ FormatInt count ++ nl ++ canonicalMessageID messageID ++ nl
     ++ canonicalRecipient recipient ++ nl ++ FormatInt expiresAt)%string.
Definition mac (c : Chain) (traceID : string) (count : Z) (messageID recipient : string) (expiresAt : Z) : list ascii :=
  hmac_sha256 (ch_key c) (mac_text traceID count messageID recipient expiresAt).

(** ** Verify *)

(** What the fields say, or [None] when the tuple is not whole, well formed, current and
    signed. *)
Definition verified_fields (c : Chain) (h : MIMEHeader) (expectedRecipient : string) (now : Z) : option (string * Z) :=
  match singleHeader h HeaderTraceID, singleHeader h HeaderCount, singleHeader h HeaderRecipient,
        singleHeader h HeaderExpires, singleHeader h HeaderSignature with
  | Some traceID, Some countText, Some recipient, Some expiresText, Some signatureText =>
      let recipient := canonicalRecipient recipient in
      if negb (validTraceID traceID) || String.eqb recipient EmptyString
         || negb (String.eqb recipient (canonicalRecipient expectedRecipient)) then None
      else
        match ParseInt countText with
        | None => None
        | Some count =>
            if (count <=? 0) || (maxCount <? count) then None
            else
              match ParseInt expiresText with
              | None => None
              | Some expiresAt =>
                  if (expiresAt <=? now) || (now + signatureValidity + clockSkew <? expiresAt) then None
                  else
                    let messageID := canonicalMessageID (Get h "Message-ID") in
                    if String.eqb messageID EmptyString then None
                    else
                      match decodeSignature signatureText with
                      | None => None
                      | Some signature =>
                          if bool_decide (signature = mac c traceID count messageID recipient expiresAt)
                          then Some (traceID, count) else None
                      end
              end
        end
  | _, _, _, _, _ => None
  end.

Definition no_metadata (h : MIMEHeader) : bool :=
  forallb (fun name => match singleHeader h name with None => true | Some _ => false end)
    [HeaderTraceID; HeaderCount; HeaderRecipient; HeaderExpires; HeaderSignature].

Definition Verify (c : Chain) (raw : list ascii) (expectedRecipient : string) (now : Z) : ChainContext :=
  match ReadMIMEHeader raw with
  | None => mkContext VerificationInvalid EmptyString 0 false
  | Some (h, _) =>
      let automated := automatedHeader h in
      if no_metadata h then mkContext VerificationMissing EmptyString 0 automated
      else match verified_fields c h expectedRecipient now with
           | None => mkContext VerificationInvalid EmptyString 0 automated
           | Some (traceID, count) => mkContext VerificationValid traceID count automated
           end
  end.

(** ** Next *)

Definition is_valid (x : ChainContext) : bool := bool_decide (cx_Verification x = VerificationValid).

Definition BlocksAutomaticReply (x : ChainContext) : bool := cx_Automated x && negb (is_valid x).
Definition LimitReached (c : Chain) (x : ChainContext) : bool := is_valid x && (ch_maxCount c <=? cx_Count x).
Definition IsFinalCount (c : Chain) (count : Z) : bool := count =? ch_maxCount c.
Definition NextReplyIsFinal (c : Chain) (x : ChainContext) : bool :=
  if is_valid x then cx_Count x + 1 =? ch_maxCount c else ch_maxCount c =? 1.

(** 16 random bytes, [None] when the source of randomness fails. *)
Definition newTraceID (random : option (list ascii)) : option string := RawURL_Encode <$> random.

Definition next (c : Chain) (sourceRaw : list ascii) (outgoingMessageID currentRecipient outgoingRecipient : string)
  (now : Z) (random : option (list ascii)) (trustedForward : bool) : result ChainMetadata * ChainContext :=
  let x := Verify c sourceRaw currentRecipient now in
  if BlocksAutomaticReply x && negb trustedForward then (Err ErrExternalAutomatedReply, x)
  else if is_valid x && (ch_maxCount c <=? cx_Count x) then (Err ErrLimitReached, x)
  else
    let count := if is_valid x then cx_Count x + 1 else 1 in
    match (if String.eqb (cx_TraceID x) EmptyString then newTraceID random else Some (cx_TraceID x)) with
    | None => (Err (ErrText "generate auto-reply trace id"), x)
    | Some traceID =>
        let messageID := canonicalMessageID outgoingMessageID in
        if String.eqb messageID EmptyString then (Err (ErrText "outgoing Message-ID is required"), x)
        else
          let recipient := canonicalRecipient outgoingRecipient in
          if String.eqb recipient EmptyString then (Err (ErrText "outgoing recipient is required"), x)
          else
            let expiresAt := now + signatureValidity in
            (Ok (mkMetadata traceID count recipient expiresAt
                   (signatureVersion ++ "." ++ RawURL_Encode (mac c traceID count messageID recipient expiresAt))), x)
    end.

Definition Next c src outID cur out now random := next c src outID cur out now random false.
Definition NextFromTrustedForward c src outID cur out now random := next c src outID cur out now random true.

Definition Headers (m : ChainMetadata) : list (string * string) :=
  [(HeaderSubmitted, SubmittedAutoReplied); (HeaderTraceID, cm_TraceID m); (HeaderCount, FormatInt (cm_Count m));
   (HeaderRecipient, cm_Recipient m); (HeaderExpires, FormatInt (cm_ExpiresAt m)); (HeaderSignature, cm_Signature m)].

(** [strings.HasSuffix]. *)
Definition has_suffix (s p : string) : bool := starts (rev (bytes_of p)) (rev (bytes_of s)).
Definition AppendFinalNotice (text : string) : string :=
  if has_suffix (trim_space text) FinalNotice then text
  else (str_of (trim_right is_eol (bytes_of text)) ++ nl ++ nl ++ FinalNotice)%string.

End Chain.
