(* ===== verification/ChainSpec.v ===== *)
(** * The automatic-reply chain: replies verify, conversations end, signatures bind *)

From S2P Require Import Prelude GoStrings Strconv Verp Headers Base64 Textproto AutoReplyChain.

Local Open Scope go_scope.

Section Spec.
Context `{Unicode} `{UnicodeClasses} `{Hmac}.

(** A canonical recipient is its own canonical form. *)
Lemma canonicalRecipient_idem s : is_ascii s = true -> canonicalRecipient (canonicalRecipient s) = canonicalRecipient s.
Proof.
  intros Ha. unfold canonicalRecipient at 2 3. cbv zeta.
  set (v := ToLower (trim_space s)). destruct (_ || _ || _ || _) eqn:E; [by vm_compute|].
  assert (Hv : trim_space v = v /\ ToLower v = v).
  { set (k := trim_both sp (bytes_of s)). rewrite is_ascii_bytes in Ha.
    assert (Hk : ascii_bytes k = true) by by apply ascii_bytes_trim.
    assert (Hvk : v = str_of (lower_ascii <$> k)).
    { subst v. unfold trim_space. rewrite trim_space_ascii by done. unfold ToLower.
      rewrite is_ascii_bytes, bytes_of_str_of. fold k. rewrite Hk. unfold ascii_lower. by rewrite bytes_of_str_of. }
    assert (Hlow : ascii_bytes (lower_ascii <$> k) = true).
    { unfold ascii_bytes in *. rewrite forallb_forall in *. intros x Hx. apply list_elem_of_In, list_elem_of_fmap in Hx as (y & -> & Hy).
      apply list_elem_of_In, Hk in Hy. apply Z.ltb_lt in Hy. apply Z.ltb_lt. by apply lower_small. }
    rewrite Hvk. split.
    - unfold trim_space. rewrite bytes_of_str_of, trim_space_ascii by done. f_equal. rewrite trim_both_map. f_equal.
      rewrite trim_both_kept; [done|]. unfold ascii_bytes in Hk. rewrite forallb_forall in Hk.
      assert (Hsp : forall x, In x k -> sp (lower_ascii x) = sp x) by (intros x Hx; apply lower_sp; apply Hk in Hx; lia).
      destruct (trim_both_ends sp (bytes_of s)) as [He1 He2]. fold k in He1, He2. split.
      + destruct k as [|x k']; [done|]. rewrite Hsp by by left. done.
      + destruct (rev k) as [|x k'] eqn:Er; [done|]. rewrite Hsp; [done|]. apply in_rev. rewrite Er. by left.
    - unfold ToLower. rewrite is_ascii_bytes, bytes_of_str_of, Hlow. unfold ascii_lower. rewrite bytes_of_str_of. f_equal.
      rewrite <- list_fmap_compose. apply list_fmap_ext. intros i x Hx. apply lower_twice. }
  destruct Hv as [Ht Hl]. unfold canonicalRecipient. cbv zeta. by rewrite Ht, Hl, E.
Qed.

(** ** What a signature covers *)

Lemma messageID_no_lf v : no_lf (canonicalMessageID v).
Proof.
  unfold canonicalMessageID, no_lf. cbv zeta. destruct (_ || _ || _ || _) eqn:E; [intros Hin; by apply elem_of_nil in Hin|].
  apply orb_false_iff in E as [_ E]. apply (contains_any_none _ _ _ E). right. by left.
Qed.
Lemma recipient_no_lf v : no_lf (canonicalRecipient v).
Proof.
  unfold canonicalRecipient, no_lf. cbv zeta. destruct (_ || _ || _ || _) eqn:E; [intros Hin; by apply elem_of_nil in Hin|].
  apply orb_false_iff in E as [_ E]. apply (contains_any_none _ _ _ E). right. by left.
Qed.

(** A signature binds the whole tuple: when the texts two signatures are computed from
    agree, so do the trace, the count, the message id, the recipient and the expiry,
    so that no field of a signed reply can be changed or moved into another. *)
Theorem mac_text_binds (t1 t2 : string) (n1 n2 : Z) (m1 m2 r1 r2 : string) (e1 e2 : Z) :
  no_lf t1 -> no_lf t2 -> is_i64 n1 = true -> is_i64 n2 = true -> is_i64 e1 = true -> is_i64 e2 = true ->
  mac_text t1 n1 m1 r1 e1 = mac_text t2 n2 m2 r2 e2 ->
  t1 = t2 /\ n1 = n2 /\ canonicalMessageID m1 = canonicalMessageID m2 /\
  canonicalRecipient r1 = canonicalRecipient r2 /\ e1 = e2.
Proof.
  intros Ht1 Ht2 Hn1 Hn2 He1 He2 Heq. unfold mac_text in Heq.
  assert (Hv : no_lf signatureVersion) by (apply (contains_any_none [LF]); [reflexivity|by left]).
  apply cut_string in Heq as [_ Heq]; [|done|done].
  apply cut_string in Heq as [-> Heq]; [|done|done].
  apply cut_string in Heq as [Hn Heq]; [|by apply format_no_lf|by apply format_no_lf].
  apply cut_string in Heq as [Hm Heq]; [|apply messageID_no_lf|apply messageID_no_lf].
  apply cut_string in Heq as [Hr Heq]; [|apply recipient_no_lf|apply recipient_no_lf].
  apply FormatInt_inj in Hn; [|done|done]. apply FormatInt_inj in Heq; [|done|done]. done.
Qed.

(** ** Trace ids *)

Lemma validTraceID_new r : (0 < length r <= 32)%nat -> validTraceID (RawURL_Encode r) = true.
Proof.
  intros Hr. destruct (letters_url (codes r) (codes_bytes r)) as [Hu Hn].
  unfold validTraceID, RawURL_Encode. set (w := letters 45 95 (codes r)) in *.
  assert (Hlen : String.length (str_of (chars w)) = length w).
  { unfold chars. rewrite <- (length_fmap byte_char w). generalize (byte_char <$> w). intros k. induction k as [|c k IH]; [done|]. simpl. by f_equal. }
  assert (Hw : w <> []).
  { subst w. destruct (codes r) as [|a [|b [|c l]]] eqn:E; try done. destruct r; [simpl in Hr; lia|done]. }
  destruct (String.eqb_spec (str_of (chars w)) EmptyString) as [He|_].
  { rewrite He in Hlen. simpl in Hlen. destruct w; [done|simpl in Hlen; lia]. }
  rewrite Hlen. unfold codes in Hn. rewrite length_fmap in Hn.
  destruct (Nat.ltb_spec maxTraceIDBytes (length w)) as [Hlt|_]; [unfold maxTraceIDBytes in Hlt; lia|]. simpl.
  rewrite bytes_of_str_of, ascii_segs.
  - apply forallb_forall. intros p Hp. apply list_elem_of_In in Hp. unfold chars in Hp.
    apply list_elem_of_fmap in Hp as (c & -> & Hc). apply list_elem_of_fmap in Hc as (z & -> & Hz).
    apply (proj1 (Forall_forall _ _) Hu) in Hz. simpl. rewrite byte_of_char by (unfold url_letter in Hz; lia).
    unfold IsLetter, IsDigit. destruct (Z.ltb_spec z 128); [|unfold url_letter in Hz; lia].
    unfold url_letter in Hz. destruct (Z.eqb_spec z 45), (Z.eqb_spec z 95); rewrite ?orb_true_r; [done..|].
    rewrite !orb_false_r. destruct Hz as [Hz|[Hz|[Hz|[Hz|Hz]]]]; [| | |lia|lia];
      repeat (rewrite ?orb_true_iff, ?andb_true_iff, ?Z.leb_le); lia.
  - unfold ascii_bytes, chars. apply forallb_forall. intros c Hc. apply list_elem_of_In, list_elem_of_fmap in Hc as (z & -> & Hz).
    apply (proj1 (Forall_forall _ _) Hu) in Hz. unfold url_letter in Hz. rewrite byte_of_char by lia. lia.
Qed.

(** ** A reply's own metadata *)

Context `{!HmacSize} `{!UnicodeLaws}.

(** A message that carries the fields of [Headers], each once. *)
Definition carries (h : MIMEHeader) (m : ChainMetadata) : Prop :=
  Forall (fun kv => singleHeader h kv.1 = Some kv.2) (AutoReplyChain.Headers m).

Lemma carries_automated h m : carries h m -> automatedHeader h = true.
Proof.
  intros Hc. apply Forall_cons in Hc as [Hs _]. simpl in Hs. unfold automatedHeader. unfold singleHeader in Hs.
  destruct (Values h HeaderSubmitted) as [|v [|]]; try done. simpl. destruct (String.eqb (trim_space v) EmptyString) eqn:E; [done|].
  injection Hs as Hs. rewrite Hs. rewrite EqualFold_ascii by done. reflexivity.
Qed.

Lemma carries_metadata h m : carries h m -> no_metadata h = false.
Proof.
  intros Hc. apply Forall_cons in Hc as [_ Hc]. apply Forall_cons in Hc as [Hs _]. unfold no_metadata. simpl in *. by rewrite Hs.
Qed.

(** What a valid verification found. *)
Lemma Verify_valid c raw exp now : is_valid (Verify c raw exp now) = true ->
  exists h body, ReadMIMEHeader raw = Some (h, body) /\
    verified_fields c h exp now = Some (cx_TraceID (Verify c raw exp now), cx_Count (Verify c raw exp now)).
Proof.
  unfold is_valid, Verify. destruct (ReadMIMEHeader raw) as [[h body]|]; [|done]. cbv zeta.
  destruct (no_metadata h); [done|]. destruct (verified_fields c h exp now) as [[t n]|] eqn:E; [|done]. simpl. intros _. by exists h, body.
Qed.

Lemma verified_bounds c h exp now t n : verified_fields c h exp now = Some (t, n) ->
  validTraceID t = true /\ 0 < n <= maxCount /\
  exists text, singleHeader h HeaderCount = Some text /\ ParseInt text = Some n.
Proof.
  unfold verified_fields. destruct (singleHeader h HeaderTraceID) as [t'|]; [|done].
  destruct (singleHeader h HeaderCount) as [text|]; [|done]. destruct (singleHeader h HeaderRecipient) as [r|]; [|done].
  destruct (singleHeader h HeaderExpires) as [et|]; [|done]. destruct (singleHeader h HeaderSignature) as [st|]; [|done].
  cbv zeta. destruct (validTraceID t') eqn:Ev; [|done]. cbn [negb]. match goal with |- (if ?b then _ else _) = _ -> _ => destruct b end; [done|].
  destruct (ParseInt text) as [n'|] eqn:En; [|done]. destruct ((n' <=? 0) || (maxCount <? n')) eqn:Eb; [done|].
  destruct (ParseInt et) as [e|]; [|done].
  do 2 (match goal with |- (if ?b then _ else _) = _ -> _ => destruct b end; [done|]).
  destruct (decodeSignature st) as [sg|]; [|done]. destruct (bool_decide _); [|done]. intros [= <- <-].
  apply orb_false_iff in Eb as [E1 E2]. apply Z.leb_gt in E1. apply Z.ltb_ge in E2.
  split; [done|]. split; [lia|]. by exists text.
Qed.

Lemma decode_signed m : length m = 32%nat -> decodeSignature (signatureVersion ++ "." ++ RawURL_Encode m) = Some m.
Proof.
  intros Hm. unfold decodeSignature. change (signatureVersion ++ "." ++ RawURL_Encode m)%string with (("v2." : string) ++ RawURL_Encode m)%string.
  change (signatureVersion ++ ".")%string with ("v2."%string). rewrite has_prefix_app, trim_prefix_app, RawURL_roundtrip. cbn [negb].
  by rewrite Hm, Nat.eqb_refl.
Qed.

Lemma next_ok c src outID cur out now random trusted md x :
  next c src outID cur out now random trusted = (Ok md, x) ->
  x = Verify c src cur now /\ (is_valid x = true -> cx_Count x < ch_maxCount c) /\
  (BlocksAutomaticReply x = true -> trusted = true) /\
  cm_Count md = (if is_valid x then cx_Count x + 1 else 1) /\
  (cm_TraceID md = cx_TraceID x /\ cx_TraceID x <> EmptyString \/ newTraceID random = Some (cm_TraceID md)) /\
  cm_Recipient md = canonicalRecipient out /\ cm_Recipient md <> EmptyString /\
  canonicalMessageID outID <> EmptyString /\ cm_ExpiresAt md = now + signatureValidity /\
  cm_Signature md = (signatureVersion ++ "." ++ RawURL_Encode (mac c (cm_TraceID md) (cm_Count md) (canonicalMessageID outID) (cm_Recipient md) (cm_ExpiresAt md)))%string.
Proof.
  unfold next. cbv zeta. set (y := Verify c src cur now). destruct (BlocksAutomaticReply y && negb trusted) eqn:Eb; [done|].
  destruct (is_valid y && (ch_maxCount c <=? cx_Count y)) eqn:El; [done|].
  set (tr := if String.eqb (cx_TraceID y) EmptyString then newTraceID random else Some (cx_TraceID y)).
  assert (Htr : forall t, tr = Some t -> t = cx_TraceID y /\ cx_TraceID y <> EmptyString \/ newTraceID random = Some t).
  { intros t. subst tr. destruct (String.eqb_spec (cx_TraceID y) EmptyString); [by right|]. intros [= <-]. by left. }
  destruct tr as [t|]; [|done]. destruct (String.eqb_spec (canonicalMessageID outID) EmptyString) as [|Hm]; [done|].
  destruct (String.eqb_spec (canonicalRecipient out) EmptyString) as [|Hr]; [done|]. intros Heq. injection Heq as <- <-. simpl.
  split; [done|]. split; [intros Hv; rewrite Hv in El; simpl in El; lia|].
  split; [intros Hbl; rewrite Hbl in Eb; simpl in Eb; by destruct trusted|]. split; [done|].
  split; [by apply Htr|]. done.
Qed.

(** The tuple [Next] computes is what [Verify] asks for. *)
Lemma own_fields c src outID cur out now random trusted md x h exp t :
  0 < ch_maxCount c <= maxCount -> match random with Some r => length r = 16%nat | None => True end -> is_ascii out = true ->
  0 <= now <= 2 ^ 62 ->
  next c src outID cur out now random trusted = (Ok md, x) -> carries h md ->
  canonicalMessageID (Get h "Message-ID") = canonicalMessageID outID -> canonicalRecipient exp = cm_Recipient md ->
  now - clockSkew <= t < now + signatureValidity ->
  verified_fields c h exp t = Some (cm_TraceID md, cm_Count md).
Proof.
  intros Hmax Hrand Hout Hnow Hn Hc Hid Hexp Ht. unfold clockSkew, signatureValidity in Ht.
  apply next_ok in Hn as (Hx & Hlim & _ & Hcount & Htrace & Hrec & Hrne & Hidne & Hexpires & Hsig).
  assert (Hvt : validTraceID (cm_TraceID md) = true /\ 0 < cm_Count md <= maxCount).
  { rewrite Hcount. split.
    - destruct Htrace as [[-> Hne]|Hr].
      + destruct (is_valid x) eqn:Ev.
        * rewrite Hx in Ev. apply Verify_valid in Ev as (h' & b' & _ & Hv). rewrite <- Hx in Hv. by apply verified_bounds in Hv as [Hv _].
        * exfalso. apply Hne. rewrite Hx in Ev |- *. unfold is_valid, Verify in *. destruct (ReadMIMEHeader src) as [[h' b']|]; [|done].
          cbv zeta in *. destruct (no_metadata h'); [done|]. by destruct (verified_fields c h' cur now) as [[]|].
      + unfold newTraceID in Hr. destruct random as [r|]; [|done]. injection Hr as <-. apply validTraceID_new. lia.
    - unfold maxCount in *. destruct (is_valid x) eqn:Ev; [|lia]. specialize (Hlim eq_refl). rewrite Hx in Ev.
      apply Verify_valid in Ev as (h' & b' & _ & Hv). rewrite <- Hx in Hv. apply verified_bounds in Hv as (_ & Hb & _). lia. }
  destruct Hvt as [Hvt Hcb]. unfold maxCount in Hcb.
  unfold carries, AutoReplyChain.Headers in Hc. rewrite !Forall_cons in Hc. simpl in Hc. destruct Hc as (_ & F2 & F3 & F4 & F5 & F6 & _).
  unfold verified_fields. rewrite F2, F3, F4, F5, F6. cbv zeta. rewrite Hvt. cbn [negb orb].
  assert (Hidem : canonicalRecipient (cm_Recipient md) = cm_Recipient md) by (rewrite Hrec; by apply canonicalRecipient_idem).
  rewrite Hidem, Hexp, String.eqb_refl. destruct (String.eqb_spec (cm_Recipient md) EmptyString) as [|_]; [done|]. cbn [negb orb].
  rewrite ParseInt_FormatInt by (unfold is_i64, min_int64, max_int64; lia).
  destruct (Z.leb_spec (cm_Count md) 0); [lia|]. destruct (Z.ltb_spec maxCount (cm_Count md)); [unfold maxCount in *; lia|]. cbn [orb].
  rewrite Hexpires. unfold signatureValidity, clockSkew. rewrite ParseInt_FormatInt by (unfold is_i64, min_int64, max_int64; lia).
  destruct (Z.leb_spec (now + 86400) t); [lia|]. destruct (Z.ltb_spec (t + 86400 + 300) (now + 86400)); [lia|]. cbn [orb].
  rewrite Hid. destruct (String.eqb_spec (canonicalMessageID outID) EmptyString) as [|_]; [done|].
  rewrite Hsig. rewrite decode_signed by apply hmac_length. rewrite Hexpires. unfold signatureValidity.
  by rewrite bool_decide_eq_true_2.
Qed.

(** A reply verifies: the metadata [Next] returns for a message, put into its header
    together with the message id, is found valid by every instance with the key when the
    reply arrives at its recipient within the day, and yields the same trace and
    count. *)
Theorem reply_verifies (c : Chain) (src raw : list ascii) (outID cur out exp : string) (now t : Z) (random : option (list ascii))
    (trusted : bool) (md : ChainMetadata) (x : ChainContext) (h : MIMEHeader) (body : list ascii) :
  0 < ch_maxCount c <= maxCount -> match random with Some r => length r = 16%nat | None => True end -> is_ascii out = true ->
  0 <= now <= 2 ^ 62 ->
  next c src outID cur out now random trusted = (Ok md, x) ->
  ReadMIMEHeader raw = Some (h, body) -> carries h md ->
  canonicalMessageID (Get h "Message-ID") = canonicalMessageID outID -> canonicalRecipient exp = cm_Recipient md ->
  now - clockSkew <= t < now + signatureValidity ->
  Verify c raw exp t = mkContext VerificationValid (cm_TraceID md) (cm_Count md) true.
Proof.
  intros Hmax Hrand Hout Hnow Hn Hraw Hc Hid Hexp Ht. unfold Verify. rewrite Hraw. cbv zeta.
  rewrite (carries_metadata _ _ Hc), (carries_automated _ _ Hc).
  by rewrite (own_fields _ _ _ _ _ _ _ _ _ _ _ _ _ Hmax Hrand Hout Hnow Hn Hc Hid Hexp Ht).
Qed.

(** ** Conversations *)

(** Automatic replies, each to a message that carries the metadata of the one before,
    whatever else it says, whoever sends it and whenever it arrives. *)
Inductive conversation (c : Chain) : list ascii -> list ChainMetadata -> Prop :=
| conversation_end src : conversation c src []
| conversation_reply src outID cur out now random md x src' h body l :
    Next c src outID cur out now random = (Ok md, x) ->
    ReadMIMEHeader src' = Some (h, body) -> carries h md -> conversation c src' l ->
    conversation c src (md :: l).

Lemma carried_count c src h body m exp now : is_i64 (cm_Count m) = true ->
  ReadMIMEHeader src = Some (h, body) -> carries h m ->
  BlocksAutomaticReply (Verify c src exp now) = false ->
  is_valid (Verify c src exp now) = true /\ cx_Count (Verify c src exp now) = cm_Count m.
Proof.
  intros Hi Hr Hc Hb. unfold BlocksAutomaticReply in Hb. unfold Verify in *. rewrite Hr in *. cbv zeta in *.
  rewrite (carries_metadata _ _ Hc), (carries_automated _ _ Hc) in *.
  destruct (verified_fields c h exp now) as [[t n]|] eqn:E; [|done]. split; [done|]. simpl.
  apply verified_bounds in E as (_ & _ & text & Ht & Hp).
  unfold carries, AutoReplyChain.Headers in Hc. rewrite !Forall_cons in Hc. simpl in Hc. destruct Hc as (_ & _ & Hct & _).
  rewrite Hct in Ht. injection Ht as <-. rewrite ParseInt_FormatInt in Hp by done. by injection Hp.
Qed.

(** [C32] Automatic replies end: however agents answer each other, the counts of the
    replies rise by one from the first and never pass the configured maximum, so a
    conversation has at most that many. *)
Theorem conversation_ends (c : Chain) (src : list ascii) (l : list ChainMetadata) :
  0 < ch_maxCount c <= maxCount -> conversation c src l ->
  Z.of_nat (length l) <= ch_maxCount c /\ Forall (fun m => 1 <= cm_Count m <= ch_maxCount c) l /\
  (forall i m m', l !! i = Some m -> l !! S i = Some m' -> cm_Count m' = cm_Count m + 1).
Proof.
  intros Hmax Hl. assert (G : forall src l, conversation c src l ->
    (forall m, (l !! 0%nat = Some m) -> 1 <= cm_Count m <= ch_maxCount c /\ Z.of_nat (length l) <= ch_maxCount c - cm_Count m + 1) /\
    Forall (fun m => 1 <= cm_Count m <= ch_maxCount c) l /\
    (forall i m m', l !! i = Some m -> l !! S i = Some m' -> cm_Count m' = cm_Count m + 1)).
  2:{ destruct (G _ _ Hl) as (G1 & G2 & G3). split; [|done]. destruct l as [|m l]; [simpl; lia|]. specialize (G1 m eq_refl). lia. }
  clear src l Hl. intros src l Hl. induction Hl as [src|src outID cur out now random md x src' h body l Hn Hr Hc Hl IH]; [done|].
  unfold Next in Hn. apply next_ok in Hn as (Hx & Hlim & _ & Hcount & _).
  assert (Hb : 1 <= cm_Count md <= ch_maxCount c).
  { rewrite Hcount. destruct (is_valid x) eqn:Ev; [|lia]. specialize (Hlim eq_refl). rewrite Hx in Ev.
    apply Verify_valid in Ev as (h' & b' & _ & Hv). rewrite <- Hx in Hv. apply verified_bounds in Hv as (_ & Hp & _). lia. }
  assert (Hi : is_i64 (cm_Count md) = true) by (unfold maxCount in Hmax; unfold is_i64, min_int64, max_int64; lia).
  destruct IH as (I1 & I2 & I3).
  assert (Hnext : forall m, l !! 0%nat = Some m -> cm_Count m = cm_Count md + 1).
  { intros m Hm. inversion Hl as [|src0 o2 c2 r2 now2 rd2 md2 x2 s2 h2 b2 l2 Hn2 Hr2 Hc2 Hl2]; subst; [done|].
    injection Hm as ->. unfold Next in Hn2. apply next_ok in Hn2 as (Hx2 & _ & Hbl & Hcount2 & _).
    destruct (BlocksAutomaticReply x2) eqn:Eb; [discriminate (Hbl eq_refl)|]. rewrite Hx2 in Eb, Hcount2.
    destruct (carried_count _ _ _ _ _ _ _ Hi Hr Hc Eb) as [Hv Hcc]. by rewrite Hv, Hcc in Hcount2. }
  split; [|split].
  - intros m [= <-]. split; [done|]. destruct l as [|m l]; [simpl; lia|]. specialize (Hnext m eq_refl). destruct (I1 m eq_refl) as [_ Hlen].
    simpl in *. lia.
  - by constructor.
  - intros [|i] m m' Hm Hm'; [injection Hm as <-; by apply Hnext|by eapply I3].
Qed.

End Spec.

(** ** Instances *)

#[local] Instance cs_unicode : Unicode :=
  { unicode_lower := fun r => r; EqualFold := fun s t => String.eqb (ascii_lower s) (ascii_lower t) }.
#[local] Instance cs_unicode_laws : UnicodeLaws.
Proof. constructor. intros s t _ _. reflexivity. Qed.
#[local] Instance cs_classes : UnicodeClasses := { unicode_letter := fun _ => false; unicode_digit := fun _ => false }.
#[local] Instance cs_hmac : Hmac :=
  { hmac_sha256 := fun k m => take 32 (rev (bytes_of m) ++ replicate 32 "x"%char) }.
#[local] Instance cs_hmac_size : HmacSize.
Proof. constructor. intros k m. unfold hmac_sha256, cs_hmac. rewrite length_take, length_app, length_replicate. lia. Qed.

Definition cs_chain : Chain := mkChain "0123456789abcdef0123456789abcdef" 2.
Definition cs_random : option (list ascii) := Some (replicate 16 "r"%char).
Definition header_lines (l : list (string * string)) : list ascii :=
  concat ((fun kv : string * string => bytes_of (kv.1 ++ ": " ++ kv.2) ++ CRLF) <$> l).
(** A reply as a message. *)
Definition reply_message (id : string) (m : ChainMetadata) : list ascii :=
  header_lines (("From", "agent@x.example") :: ("Message-Id", id) :: AutoReplyChain.Headers m)%string ++ CRLF ++ bytes_of "ok".

Definition cs_question : list ascii := header_lines [("From", "human@y.example"); ("Message-Id", "<1@y>")]%string ++ CRLF.
Definition cs_next (src : list ascii) (id cur out : string) (now : Z) := Next cs_chain src id cur out now cs_random.
Definition no_md : ChainMetadata := mkMetadata EmptyString 0 EmptyString 0 EmptyString.
Definition md_of (r : result ChainMetadata * ChainContext) : ChainMetadata := match r.1 with Ok m => m | Err _ => no_md end.
Definition cs_md1 := md_of (cs_next cs_question "<2@x>" "a@x.example" "B@y.example " 1000).
Definition cs_msg1 := reply_message "<2@x>" cs_md1.
Definition cs_md2 := md_of (cs_next cs_msg1 "<3@y>" "b@y.example" "a@x.example" 1010).
Definition cs_msg2 := reply_message "<3@y>" cs_md2.
Definition header_of (raw : list ascii) : MIMEHeader := match ReadMIMEHeader raw with Some (h, _) => h | None => [] end.

Lemma reply_verifies_witness :
  Verify cs_chain cs_msg1 "b@y.example" 50000 = mkContext VerificationValid (cm_TraceID cs_md1) 1 true.
Proof.
  refine (reply_verifies cs_chain cs_question cs_msg1 "<2@x>" "a@x.example" "B@y.example " "b@y.example" 1000 50000 cs_random false
    cs_md1 (cs_next cs_question "<2@x>" "a@x.example" "B@y.example " 1000).2 (header_of cs_msg1) (bytes_of "ok") _ _ _ _ _ _ _ _ _ _).
  - split; [reflexivity|discriminate].
  - reflexivity.
  - reflexivity.
  - lia.
  - vm_compute. reflexivity.
  - vm_compute. reflexivity.
  - repeat (apply Forall_cons_2; [vm_compute; reflexivity|]). apply Forall_nil_2.
  - vm_compute. reflexivity.
  - vm_compute. reflexivity.
  - unfold clockSkew, signatureValidity. lia.
Defined.

Lemma conversation_ends_witness :
  conversation cs_chain cs_question [cs_md1; cs_md2] /\ 2 <= ch_maxCount cs_chain /\
  (cs_next cs_msg2 "<4@x>" "a@x.example" "b@y.example" 1020).1 = Err ErrLimitReached.
Proof.
  assert (Hc : conversation cs_chain cs_question [cs_md1; cs_md2]).
  { apply (conversation_reply cs_chain cs_question "<2@x>" "a@x.example" "B@y.example " 1000 cs_random cs_md1
      (cs_next cs_question "<2@x>" "a@x.example" "B@y.example " 1000).2 cs_msg1 (header_of cs_msg1) (bytes_of "ok"));
      [vm_compute; reflexivity|vm_compute; reflexivity| |].
    { repeat (apply Forall_cons_2; [vm_compute; reflexivity|]). apply Forall_nil_2. }
    apply (conversation_reply cs_chain cs_msg1 "<3@y>" "b@y.example" "a@x.example" 1010 cs_random cs_md2
      (cs_next cs_msg1 "<3@y>" "b@y.example" "a@x.example" 1010).2 cs_msg2 (header_of cs_msg2) (bytes_of "ok"));
      [vm_compute; reflexivity|vm_compute; reflexivity| |apply conversation_end].
    repeat (apply Forall_cons_2; [vm_compute; reflexivity|]). apply Forall_nil_2. }
  split; [exact Hc|]. split; [|vm_compute; reflexivity].
  exact (proj1 (conversation_ends cs_chain cs_question [cs_md1; cs_md2] ltac:(split; [reflexivity|discriminate]) Hc)).
Defined.

Lemma mac_text_binds_witness : mac_text "t" 1 "<2@x>" "A@x.example" 5 = mac_text "t" 1 " <2@x>" "a@x.example" 5 /\
  canonicalRecipient "A@x.example" = canonicalRecipient "a@x.example".
Proof.
  assert (Hm : mac_text "t" 1 "<2@x>" "A@x.example" 5 = mac_text "t" 1 " <2@x>" "a@x.example" 5) by (vm_compute; reflexivity).
  split; [exact Hm|].
  assert (Ht : no_lf "t") by (apply (contains_any_none [LF]); [reflexivity|by left]).
  destruct (mac_text_binds "t" "t" 1 1 "<2@x>" " <2@x>" "A@x.example" "a@x.example" 5 5 Ht Ht eq_refl eq_refl eq_refl eq_refl Hm)
    as (_ & _ & _ & Hr & _). exact Hr.
Defined.

(** A line without a colon makes the header unreadable, and the message then counts as not
    automated: an automatic reply from outside starts a new chain. *)
Example unreadable_automated_starts_chain :
  let src := header_lines [("Auto-Submitted", "auto-replied")]%string ++ bytes_of "garbage" ++ CRLF ++ CRLF in
  automatedHeader [("Auto-Submitted", "auto-replied")]%string = true /\
  cm_Count (md_of (cs_next src "<2@x>" "a@x.example" "b@y.example" 1000)) = 1.
Proof. vm_compute. split; reflexivity. Qed.
