(* ===== verification/RuleMetadata.v ===== *)
(** * Authenticated forwarding metadata (mailflow/rulemetadata/metadata.go)

    A forwarded message carries who sent it, which rules have forwarded it so far and
    to whom, under one signature that also covers its content.  Times are Unix
    seconds; SHA-256 and HMAC-SHA256 are parameters. *)

From S2P Require Import Prelude GoStrings Strconv Verp Headers Base64 Textproto.

Local Open Scope go_scope.

Definition HeaderOriginalFrom : string := "X-Octo-Original-From".
Definition HeaderSentBy : string := "X-Octo-Sent-By".
Definition HeaderRuleID : string := "X-Octo-Rule-ID".
Definition HeaderRuleHop : string := "X-Octo-Rule-Hop".
Definition HeaderRuleTrace : string := "X-Octo-Rule-Trace".
Definition HeaderRecipients : string := "X-Octo-Rule-Recipients".
Definition HeaderExpires : string := "X-Octo-Rule-Expires".
Definition HeaderSignature : string := "X-Octo-Rule-Signature".

Definition signatureVersion : string := "v3".
Definition legacySignatureVersion : string := "v2".
Definition maxAddressBytes : nat := 320.
Definition maxHop : Z := 1000000.
Definition signatureValidity : Z := 86400.
Definition clockSkew : Z := 300.

Record Metadata := mkMeta {
  md_OriginalFrom : string; md_SentBy : string; md_RuleID : Z; md_Hop : Z; md_RuleTrace : list Z;
  md_MessageID : string; md_Recipients : list string; md_ExpiresAt : Z; md_ChainTrusted : bool }.

Definition set_trace v m := mkMeta (md_OriginalFrom m) (md_SentBy m) (md_RuleID m) (md_Hop m) v (md_MessageID m) (md_Recipients m) (md_ExpiresAt m) (md_ChainTrusted m).
Definition set_recipients v m := mkMeta (md_OriginalFrom m) (md_SentBy m) (md_RuleID m) (md_Hop m) (md_RuleTrace m) (md_MessageID m) v (md_ExpiresAt m) (md_ChainTrusted m).
Definition set_trusted v m := mkMeta (md_OriginalFrom m) (md_SentBy m) (md_RuleID m) (md_Hop m) (md_RuleTrace m) (md_MessageID m) (md_Recipients m) (md_ExpiresAt m) v.

Class Sha256 := { sha256 : list ascii -> list ascii; sha256_length : forall l, length (sha256 l) = 32%nat }.

(** [sort.Strings]: by bytes. *)
Definition str_le (a b : string) : Prop := String.leb a b = true.
#[export] Instance str_le_dec : RelDecision str_le.
Proof. intros a b. unfold str_le. apply _. Defined.

(** ** Lists in text *)

Definition comma : ascii := ","%char.
Fixpoint join (sep : string) (l : list string) : string :=
  match l with [] => EmptyString | [s] => s | s :: l => (s ++ sep ++ join sep l)%string end.

Definition formatRuleTrace (trace : list Z) : string := join "," (FormatInt <$> trace).

(** Positive and pairwise different. *)
Fixpoint trace_ok (seen : list Z) (trace : list Z) : bool :=
  match trace with
  | [] => true
  | id :: trace => (0 <? id) && negb (bool_decide (id ∈ seen)) && trace_ok (id :: seen) trace
  end.
Definition FormatRuleTrace (trace : list Z) : option string :=
  if bool_decide (trace = []) || (maxHop <? Z.of_nat (length trace)) || negb (trace_ok [] trace) then None
  else Some (formatRuleTrace trace).

(** The parts between the commas, in order. *)
Fixpoint trace_loop (seen : list Z) (parts : list string) : option (list Z) :=
  match parts with
  | [] => Some []
  | part :: parts =>
      match ParseInt (trim_space part) with
      | None => None
      | Some id =>
          if (id <=? 0) || bool_decide (id ∈ seen) then None
          else match trace_loop (id :: seen) parts with None => None | Some trace => Some (id :: trace) end
      end
  end.
Definition parseRuleTrace (value : string) : option (list Z) :=
  if String.eqb value EmptyString then None
  else
    let parts := split value comma in
    if maxHop <? Z.of_nat (length parts) then None else trace_loop [] parts.

(** ** Canonical forms *)

Section Metadata.
Context `{Unicode} `{Hmac} `{Sha256}.

Definition canonicalAddress (value : string) : string :=
  let value := ToLower (trim_space value) in
  if String.eqb value EmptyString || (maxAddressBytes <? String.length value)%nat || negb (contains value "@")
     || contains_any [CR; LF; HT; SP; comma] value
  then EmptyString else value.

Definition validMessageID (value : string) : bool :=
  let l := bytes_of value in
  negb (length l <? 3)%nat && starts ["<"%char] l && starts [">"%char] (rev l) && negb (contains_any [CR; LF; HT; SP] value).

Definition canonicalScalarMetadata (m : Metadata) : option Metadata :=
  let from := trim_space (md_OriginalFrom m) in
  let sentBy := trim_space (md_SentBy m) in
  let id := trim_space (md_MessageID m) in
  if String.eqb from EmptyString || String.eqb sentBy EmptyString
     || (maxAddressBytes <? String.length from)%nat || (maxAddressBytes <? String.length sentBy)%nat
     || contains_any [CR; LF] from || contains_any [CR; LF] sentBy then None
  else if (md_RuleID m <=? 0) || (md_Hop m <? 0) || (maxHop <? md_Hop m) then None
  else if negb (validMessageID id) then None
  else if md_ExpiresAt m <=? 0 then None
  else Some (mkMeta from sentBy (md_RuleID m) (md_Hop m) (md_RuleTrace m) id (md_Recipients m) (md_ExpiresAt m) false).

(** The distinct canonical addresses, in order of first occurrence. *)
Fixpoint distinct_addresses (seen : list string) (l : list string) : option (list string) :=
  match l with
  | [] => Some []
  | r :: l =>
      let r := canonicalAddress r in
      if String.eqb r EmptyString then None
      else if bool_decide (r ∈ seen) then distinct_addresses seen l
      else cons r <$> distinct_addresses (r :: seen) l
  end.
Definition canonicalizeRecipients (recipients : list string) : option (list string) :=
  match distinct_addresses [] recipients with
  | None | Some [] => None
  | Some l => Some (merge_sort str_le l)
  end.
Definition CanonicalRecipients (recipients : list string) : option string := join "," <$> canonicalizeRecipients recipients.

Definition canonicalBaseMetadata (m : Metadata) : option Metadata :=
  m ← canonicalScalarMetadata m;
  r ← canonicalizeRecipients (md_Recipients m);
  Some (set_recipients r m).

Definition canonicalMetadata (m : Metadata) : option Metadata :=
  m ← canonicalBaseMetadata m;
  if bool_decide (md_RuleTrace m = []) || (maxHop <? Z.of_nat (length (md_RuleTrace m)))
     || negb (md_Hop m =? Z.of_nat (length (md_RuleTrace m))) then None
  else if negb (trace_ok [] (md_RuleTrace m)) then None
  else if negb (bool_decide (last (md_RuleTrace m) = Some (md_RuleID m))) then None
  else Some m.

(** ** The digest of the content *)

Definition contentBoundHeaders : list string :=
  ["From"; "Reply-To"; "To"; "Cc"; "Bcc"; "Subject"; "Date"; "Auto-Submitted"; "MIME-Version"; "Content-Type";
   "Content-Transfer-Encoding"; "Content-Disposition"; "In-Reply-To"; "References"].

(** [binary.BigEndian.PutUint64]. *)
Definition be64 (n : Z) : list ascii := (fun i => byte_char ((n / 256 ^ i) mod 256)) <$> [7; 6; 5; 4; 3; 2; 1; 0].
Definition writeDigestValue (value : string) : list ascii := be64 (Z.of_nat (String.length value)) ++ bytes_of value.

Definition digest_input (h : MIMEHeader) (body : list ascii) : list ascii :=
  concat ((fun name => writeDigestValue name ++ be64 (Z.of_nat (length (Values h name)))
            ++ concat ((fun v => writeDigestValue (trim_space v)) <$> Values h name)) <$> contentBoundHeaders) ++ body.

Definition messageContentDigestWithSignatureRequirement (raw : list ascii) (requireSignature : bool)
  : option (MIMEHeader * list ascii) :=
  match ReadMIMEHeader raw with
  | None => None
  | Some (h, body) =>
      if requireSignature && bool_decide (Values h HeaderSignature = []) then None
      else Some (h, sha256 (digest_input h body))
  end.
Definition messageContentDigest (raw : list ascii) := messageContentDigestWithSignatureRequirement raw false.
Definition verificationContentDigest (raw : list ascii) := messageContentDigestWithSignatureRequirement raw true.

(** ** Signatures *)

Definition lf : string := String LF EmptyString.
Definition mac_input (m : Metadata) (version traceText recipientsText : string) (digest : list ascii) : string :=
  (version ++ lf ++ md_OriginalFrom m ++ lf ++ md_SentBy m ++ lf ++ FormatInt (md_RuleID m) ++ lf ++ FormatInt (md_Hop m)
    ++ lf ++ md_MessageID m ++ (if String.eqb version signatureVersion then lf ++ traceText ++ str_of digest else EmptyString)
    ++ lf ++ recipientsText ++ lf ++ FormatInt (md_ExpiresAt m))%string.
Definition macFields (key : string) (m : Metadata) (version traceText recipientsText : string) (digest : list ascii) : list ascii :=
  hmac_sha256 key (mac_input m version traceText recipientsText digest).
Definition mac (key : string) (m : Metadata) (version : string) (digest : list ascii) : list ascii :=
  let traceText := if String.eqb version signatureVersion then formatRuleTrace (md_RuleTrace m) else EmptyString in
  macFields key m version traceText (join "," (md_Recipients m)) digest.

Definition decodeSignature (value : string) : option (string * list ascii) :=
  match List.find (fun version => has_prefix value (version ++ ".")%string) [signatureVersion; legacySignatureVersion] with
  | None => None
  | Some version =>
      match RawURL_Decode (trim_prefix value (version ++ ".")%string) with
      | Some raw => if (length raw =? 32)%nat then Some (version, raw) else None
      | None => None
      end
  end.

Definition Sign (key : string) (m : Metadata) (raw : list ascii) : option string :=
  m ← canonicalMetadata m;
  '(h, digest) ← messageContentDigest raw;
  id ← singleHeader h "Message-ID";
  if negb (String.eqb id (md_MessageID m)) then None
  else Some (signatureVersion ++ "." ++ RawURL_Encode (mac key m signatureVersion digest))%string.

Definition containsAnyRecipient (recipients expectedRecipients : list string) : bool :=
  existsb (fun expected => let expected := canonicalAddress expected in
    negb (String.eqb expected EmptyString) && bool_decide (expected ∈ recipients)) expectedRecipients.

Definition verifyHeader (key : string) (h : MIMEHeader) (expectedRecipients : list string) (now : Z) (digest : list ascii)
  : option Metadata :=
  originalFrom ← singleHeader h HeaderOriginalFrom;
  sentBy ← singleHeader h HeaderSentBy;
  ruleIDText ← singleHeader h HeaderRuleID;
  hopText ← singleHeader h HeaderRuleHop;
  messageID ← singleHeader h "Message-ID";
  recipientsText ← singleHeader h HeaderRecipients;
  expiresText ← singleHeader h HeaderExpires;
  signatureText ← singleHeader h HeaderSignature;
  ruleID ← ParseInt ruleIDText;
  hop ← ParseInt hopText;
  expiresAt ← ParseInt expiresText;
  if (expiresAt <=? now) || (now + signatureValidity + clockSkew <? expiresAt) then None
  else
    '(version, signature) ← decodeSignature signatureText;
    let v3 := String.eqb version signatureVersion in
    traceText ← (if v3 then singleHeader h HeaderRuleTrace else Some EmptyString);
    m ← canonicalScalarMetadata (mkMeta originalFrom sentBy ruleID hop [] messageID [] expiresAt false);
    if negb (bool_decide (signature = macFields key m version traceText recipientsText digest)) then None
    else
      m ← canonicalBaseMetadata (set_recipients (split recipientsText comma) m);
      if negb (containsAnyRecipient (md_Recipients m) expectedRecipients) then None
      else if v3 then
        trace ← parseRuleTrace traceText;
        m ← canonicalMetadata (set_trace trace m);
        Some (set_trusted true m)
      else Some (set_trusted false (set_trace [ruleID] m)).

Definition VerifyAny (key : string) (raw : list ascii) (expectedRecipients : list string) (now : Z) : option Metadata :=
  '(h, digest) ← verificationContentDigest raw;
  verifyHeader key h expectedRecipients now digest.
Definition Verify (key : string) (raw : list ascii) (expectedRecipient : string) (now : Z) : option Metadata :=
  VerifyAny key raw [expectedRecipient] now.

Definition Expiry (now : Z) : Z := now + signatureValidity.

End Metadata.

(** ** The order of strings *)

Lemma str_le_total a b : str_le a b \/ str_le b a.
Proof. apply String.leb_total. Qed.
#[export] Instance str_le_Total : Total str_le := str_le_total.
#[export] Instance str_le_antisymm : AntiSymm eq str_le.
Proof. intros a b. apply String.leb_antisym. Qed.
#[export] Instance str_le_trans : Transitive str_le.
Proof.
  unfold str_le, String.leb. intros a. induction a as [|x a IH]; intros [|y b] [|z c]; simpl; try done.
  unfold Ascii.compare. destruct (N.compare_spec (N_of_ascii x) (N_of_ascii y)), (N.compare_spec (N_of_ascii y) (N_of_ascii z)),
    (N.compare_spec (N_of_ascii x) (N_of_ascii z)); try lia; try done. apply IH.
Qed.

Lemma sort_fixed l : merge_sort str_le (merge_sort str_le l) = merge_sort str_le l.
Proof. apply (StronglySorted_unique str_le); [apply (StronglySorted_merge_sort _)..|apply merge_sort_Permutation]. Qed.
