(* ===== verification/GatewayAssert.v ===== *)
(** * Gateway assertions (security/gatewayassert/assertion.go)

    A gateway signs who calls, for which mailbox, and the exact request; the mail server
    verifies the token.  Times are Unix seconds (fractions of a second do not decide);
    the secret's HMAC and SHA-256 are parameters, the nonce is an argument. *)

From S2P Require Import Prelude GoStrings Shapes Changes Strconv Json Verp Headers Smtp Base64 RuleMetadata.

Local Open Scope go_scope.

Definition assert_prefix : string := "omg_".
Definition version : Z := 1.
Definition maxLifetime : Z := 120.
Definition assert_skew : Z := 30.

Record Claims := mkClaims {
  gc_Version : Z; gc_Issuer : string; gc_Subject : string; gc_SpaceID : string; gc_MailboxID : string;
  gc_Method : string; gc_RequestURI : string; gc_BodySHA256 : string; gc_IssuedAt : Z; gc_ExpiresAt : Z; gc_Nonce : string }.
Definition zero_claims : Claims :=
  mkClaims 0 EmptyString EmptyString EmptyString EmptyString EmptyString EmptyString EmptyString 0 0 EmptyString.

(** [json.Marshal] of the claims; an empty mailbox is left out. *)
Definition claims_json (c : Claims) : json := JObj
  ([("v", JNum (gc_Version c)); ("iss", JStr (gc_Issuer c)); ("sub", JStr (gc_Subject c)); ("space", JStr (gc_SpaceID c))]%string
   ++ (if String.eqb (gc_MailboxID c) EmptyString then [] else [("mailbox", JStr (gc_MailboxID c))]%string)
   ++ [("method", JStr (gc_Method c)); ("uri", JStr (gc_RequestURI c)); ("body_sha256", JStr (gc_BodySHA256 c));
       ("iat", JNum (gc_IssuedAt c)); ("exp", JNum (gc_ExpiresAt c)); ("nonce", JStr (gc_Nonce c))]%string).

Definition claims_fields : list (struct_field Claims) :=
  [("v", set_int (fun v c => mkClaims v (gc_Issuer c) (gc_Subject c) (gc_SpaceID c) (gc_MailboxID c) (gc_Method c) (gc_RequestURI c) (gc_BodySHA256 c) (gc_IssuedAt c) (gc_ExpiresAt c) (gc_Nonce c)));
   ("iss", set_str (fun v c => mkClaims (gc_Version c) v (gc_Subject c) (gc_SpaceID c) (gc_MailboxID c) (gc_Method c) (gc_RequestURI c) (gc_BodySHA256 c) (gc_IssuedAt c) (gc_ExpiresAt c) (gc_Nonce c)));
   ("sub", set_str (fun v c => mkClaims (gc_Version c) (gc_Issuer c) v (gc_SpaceID c) (gc_MailboxID c) (gc_Method c) (gc_RequestURI c) (gc_BodySHA256 c) (gc_IssuedAt c) (gc_ExpiresAt c) (gc_Nonce c)));
   ("space", set_str (fun v c => mkClaims (gc_Version c) (gc_Issuer c) (gc_Subject c) v (gc_MailboxID c) (gc_Method c) (gc_RequestURI c) (gc_BodySHA256 c) (gc_IssuedAt c) (gc_ExpiresAt c) (gc_Nonce c)));
   ("mailbox", set_str (fun v c => mkClaims (gc_Version c) (gc_Issuer c) (gc_Subject c) (gc_SpaceID c) v (gc_Method c) (gc_RequestURI c) (gc_BodySHA256 c) (gc_IssuedAt c) (gc_ExpiresAt c) (gc_Nonce c)));
   ("method", set_str (fun v c => mkClaims (gc_Version c) (gc_Issuer c) (gc_Subject c) (gc_SpaceID c) (gc_MailboxID c) v (gc_RequestURI c) (gc_BodySHA256 c) (gc_IssuedAt c) (gc_ExpiresAt c) (gc_Nonce c)));
   ("uri", set_str (fun v c => mkClaims (gc_Version c) (gc_Issuer c) (gc_Subject c) (gc_SpaceID c) (gc_MailboxID c) (gc_Method c) v (gc_BodySHA256 c) (gc_IssuedAt c) (gc_ExpiresAt c) (gc_Nonce c)));
   ("body_sha256", set_str (fun v c => mkClaims (gc_Version c) (gc_Issuer c) (gc_Subject c) (gc_SpaceID c) (gc_MailboxID c) (gc_Method c) (gc_RequestURI c) v (gc_IssuedAt c) (gc_ExpiresAt c) (gc_Nonce c)));
   ("iat", set_int (fun v c => mkClaims (gc_Version c) (gc_Issuer c) (gc_Subject c) (gc_SpaceID c) (gc_MailboxID c) (gc_Method c) (gc_RequestURI c) (gc_BodySHA256 c) v (gc_ExpiresAt c) (gc_Nonce c)));
   ("exp", set_int (fun v c => mkClaims (gc_Version c) (gc_Issuer c) (gc_Subject c) (gc_SpaceID c) (gc_MailboxID c) (gc_Method c) (gc_RequestURI c) (gc_BodySHA256 c) (gc_IssuedAt c) v (gc_Nonce c)));
   ("nonce", set_str (fun v c => mkClaims (gc_Version c) (gc_Issuer c) (gc_Subject c) (gc_SpaceID c) (gc_MailboxID c) (gc_Method c) (gc_RequestURI c) (gc_BodySHA256 c) (gc_IssuedAt c) (gc_ExpiresAt c) v))]%string.

(** [time.Unix]: seconds since the year 1, in 64 bits. *)
Definition unix_time (s : Z) : Z := i64 (s + 62135596800).

(** [strings.Cut]. *)
Definition cut (s : string) (c : ascii) : option (string * string) :=
  match index_byte c (bytes_of s) with
  | Some i => Some (str_of (take i (bytes_of s)), str_of (drop (S i) (bytes_of s)))
  | None => None
  end.

Section Assert.
Context `{Unicode} `{UnicodeUpper} `{Hmac} `{Sha256}.

Definition body_digest (body : list ascii) : string := hex_encode (sha256 body).

Definition SignForMailbox (now : Z) (random : option (list ascii)) (secret issuer subject spaceID mailboxID method requestURI : string)
  (body : list ascii) : option string :=
  if (String.length secret <? 32)%nat || String.eqb (trim_space issuer) EmptyString || String.eqb (trim_space subject) EmptyString
     || String.eqb (trim_space spaceID) EmptyString || String.eqb (trim_space method) EmptyString || String.eqb requestURI EmptyString then None
  else
    match random with
    | None => None
    | Some nonce =>
        let claims := mkClaims version (trim_space issuer) (trim_space subject) (trim_space spaceID) (trim_space mailboxID)
                        (ToUpper (trim_space method)) requestURI (body_digest body) now (now + 60) (RawURL_Encode nonce) in
        let payloadText := RawURL_Encode (write_json (claims_json claims)) in
        let signature := RawURL_Encode (hmac_sha256 secret payloadText) in
        Some (assert_prefix ++ payloadText ++ "." ++ signature)%string
    end.
Definition Sign now random secret issuer subject spaceID method requestURI body :=
  SignForMailbox now random secret issuer subject spaceID EmptyString method requestURI body.

(** The claims of a token whose signature is right. *)
Definition signed_claims (secret token : string) : option Claims :=
  if (String.length secret <? 32)%nat || negb (has_prefix token assert_prefix) then None
  else
    match cut (trim_prefix token assert_prefix) "."%char with
    | None => None
    | Some (payloadText, signatureText) =>
        if String.eqb payloadText EmptyString || String.eqb signatureText EmptyString then None
        else
          match RawURL_Decode signatureText with
          | None => None
          | Some signature =>
              if negb (bool_decide (signature = hmac_sha256 secret payloadText)) then None
              else
                match RawURL_Decode payloadText with
                | None => None
                | Some payload => match Unmarshal (str_of payload) with Some j => decode_struct false claims_fields zero_claims j | None => None end
                end
          end
    end.

(** Who, what request, and when. *)
Definition claims_match (now : Z) (c : Claims) (mailboxID method requestURI : string) (body : list ascii) : bool :=
  let issuedAt := unix_time (gc_IssuedAt c) in
  let expiresAt := unix_time (gc_ExpiresAt c) in
  (gc_Version c =? version) && negb (String.eqb (gc_Issuer c) EmptyString) && negb (String.eqb (gc_Subject c) EmptyString)
  && negb (String.eqb (gc_SpaceID c) EmptyString) && negb (String.eqb (gc_Nonce c) EmptyString)
  && String.eqb (gc_Method c) (ToUpper (trim_space method)) && String.eqb (gc_MailboxID c) (trim_space mailboxID)
  && String.eqb (gc_RequestURI c) requestURI
  && (issuedAt <=? unix_time now + assert_skew) && (unix_time now <? expiresAt)
  && (0 <? expiresAt - issuedAt) && (expiresAt - issuedAt <=? maxLifetime)
  && String.eqb (gc_BodySHA256 c) (body_digest body).

Definition VerifyForMailbox (now : Z) (secret token mailboxID method requestURI : string) (body : list ascii) : option Claims :=
  match signed_claims secret token with
  | Some c => if claims_match now c mailboxID method requestURI body then Some c else None
  | None => None
  end.
Definition Verify now secret token method requestURI body := VerifyForMailbox now secret token EmptyString method requestURI body.

End Assert.

(** ** Lemmas *)

Lemma ascii_valid s : Forall (fun c => byte_of c < 128) (bytes_of s) -> valid_utf8 s = true.
Proof.
  unfold valid_utf8. remember (bytes_of s) as l eqn:E. clear E s. intros Hl. apply forallb_forall. intros p Hp.
  assert (Hs : Forall (fun p => bad_seg p = false) (segs l)); [|apply list_elem_of_In in Hp; rewrite Forall_forall in Hs; by rewrite Hs].
  clear p Hp. remember (length l) as n eqn:Hn. revert l Hl Hn. induction n as [|n IH]; intros [|c l] Hl Hn; try (by constructor); try done.
  rewrite segs_cons. apply Forall_cons in Hl as [Hc Hl]. unfold decode_rune. cbv zeta. replace (byte_of c <? 128) with true by lia.
  cbn [fst snd take drop]. constructor; [|rewrite drop_0; apply IH; [done|by injection Hn]]. unfold bad_seg, rune_error. cbn [fst snd].
  by replace (byte_of c =? 65533) with false by lia.
Qed.

Lemma hex_valid l : valid_utf8 (hex_encode l) = true.
Proof.
  apply ascii_valid. unfold hex_encode. rewrite bytes_of_str_of. induction l as [|c l IH]; csimpl; [constructor|].
  pose proof (all_bytes (fun c => (byte_of (hex_digit (byte_of c / 16)) <? 128) && (byte_of (hex_digit (byte_of c mod 16)) <? 128)) ltac:(vm_compute; reflexivity) c) as Hc.
  cbv beta in Hc. b2p. repeat constructor; done.
Qed.

(** The URL alphabet is ASCII without the dot. *)
Lemma RawURL_chars l : Forall (fun c => byte_of c < 128 /\ c <> "."%char) (bytes_of (RawURL_Encode l)).
Proof.
  unfold RawURL_Encode. rewrite bytes_of_str_of. destruct (letters_url (codes l) (codes_bytes l)) as [Hs _].
  unfold chars. induction Hs as [|z zs Hz _ IH]; csimpl; constructor; [|done]. unfold url_letter in Hz. split; [rewrite byte_of_char; lia|].
  intros E. apply (f_equal byte_of) in E. rewrite byte_of_char in E by lia. replace (byte_of "."%char) with 46 in E by done. lia.
Qed.
Lemma RawURL_valid l : valid_utf8 (RawURL_Encode l) = true.
Proof. apply ascii_valid. eapply Forall_impl; [apply RawURL_chars|]. by intros c []. Qed.

Lemma cut_app a b c : c ∉ bytes_of a -> cut (a ++ String c EmptyString ++ b) c = Some (a, b).
Proof.
  intros Hc. unfold cut. change (String c EmptyString ++ b)%string with (String c b). rewrite bytes_of_app. cbn [bytes_of list_ascii_of_string]. rewrite index_byte_cut by done.
  rewrite take_app_length, drop_app_ge by lia. replace (S (length (bytes_of a)) - length (bytes_of a))%nat with 1%nat by lia.
  cbn [drop]. rewrite drop_0, str_of_bytes_of. change (list_ascii_of_string b) with (bytes_of b). by rewrite str_of_bytes_of.
Qed.
Lemma RawURL_no_dot l : "."%char ∉ bytes_of (RawURL_Encode l).
Proof. intros Hin. pose proof (RawURL_chars l) as Hs. rewrite Forall_forall in Hs. by destruct (Hs _ Hin). Qed.

Section AssertSpec.
Context `{Unicode} `{UnicodeUpper} `{Hmac} `{Sha256}.

(** Claims whose text is valid are read as they are written. *)
Definition claims_ok (c : Claims) : Prop :=
  Forall (fun s => valid_utf8 s = true) [gc_Issuer c; gc_Subject c; gc_SpaceID c; gc_MailboxID c; gc_Method c; gc_RequestURI c; gc_BodySHA256 c; gc_Nonce c]
  /\ is_i64 (gc_Version c) = true /\ is_i64 (gc_IssuedAt c) = true /\ is_i64 (gc_ExpiresAt c) = true.

Lemma claims_read c : claims_ok c ->
  Unmarshal (Marshal (claims_json c)) = Some (claims_json c) /\
  decode_struct false claims_fields zero_claims (claims_json c) = Some c.
Proof.
  intros (Hs & Hv & Hi & He). split.
  - rewrite Unmarshal_Marshal.
    + f_equal. unfold claims_json. cbn [clean]. repeat (apply Forall_cons in Hs as [? Hs]).
      destruct (String.eqb (gc_MailboxID c) EmptyString); csimpl; rewrite !coerce_valid by done; reflexivity.
    + unfold claims_json. destruct (String.eqb (gc_MailboxID c) EmptyString); cbn [plain app forallb snd]; by rewrite Hv, Hi, He.
    + unfold claims_json. destruct (String.eqb (gc_MailboxID c) EmptyString); vm_compute; discriminate.
  - unfold claims_json. destruct c as [v iss sub sp mb meth uri sha iat exp nonce]; cbn [gc_Version gc_Issuer gc_Subject gc_SpaceID gc_MailboxID gc_Method gc_RequestURI gc_BodySHA256 gc_IssuedAt gc_ExpiresAt gc_Nonce] in *.
    destruct (String.eqb_spec mb EmptyString) as [->|]; cbn; rewrite Hv; cbn; rewrite Hi; cbn; rewrite He; reflexivity.
Qed.

(** What [SignForMailbox] claims. *)
Definition claims_of (now : Z) (nonce : list ascii) (issuer subject spaceID mailboxID method requestURI : string) (body : list ascii) : Claims :=
  mkClaims version (trim_space issuer) (trim_space subject) (trim_space spaceID) (trim_space mailboxID)
    (ToUpper (trim_space method)) requestURI (body_digest body) now (now + 60) (RawURL_Encode nonce).
Definition payload_of (c : Claims) : string := RawURL_Encode (write_json (claims_json c)).
(** The payload a token carries. *)
Definition token_payload (token : string) : option string := fst <$> cut (trim_prefix token assert_prefix) "."%char.

Lemma RawURL_nonempty l : l <> [] -> String.eqb (RawURL_Encode l) EmptyString = false.
Proof. intros Hl. apply String.eqb_neq. intros E. pose proof (RawURL_roundtrip l) as Hr. rewrite E in Hr. by injection Hr as <-. Qed.

Lemma write_claims_nonempty c : write_json (claims_json c) <> [].
Proof. done. Qed.

(** A signed token carries its payload, and the MAC of the payload. *)
Lemma signed_token now nonce secret issuer subject spaceID mailboxID method requestURI body token :
  SignForMailbox now (Some nonce) secret issuer subject spaceID mailboxID method requestURI body = Some token ->
  let p := payload_of (claims_of now nonce issuer subject spaceID mailboxID method requestURI body) in
  (32 <= String.length secret)%nat /\ token = (assert_prefix ++ p ++ "." ++ RawURL_Encode (hmac_sha256 secret p))%string
  /\ Forall (fun s => String.eqb s EmptyString = false) [trim_space issuer; trim_space subject; trim_space spaceID; requestURI].
Proof.
  unfold SignForMailbox. intros Hs. case_hyp Hs; [done|]. cbv zeta. b2p. unfold payload_of, claims_of. injection Hs as <-.
  split_and!; [by apply Nat.ltb_ge|done|]. by repeat constructor.
Qed.

(** The claims of a payload that passes for signed are those the signer wrote. *)
Lemma signed_claims_of secret token c0 : claims_ok c0 -> token_payload token = Some (payload_of c0) ->
  forall c, signed_claims secret token = Some c -> c = c0.
Proof.
  intros Hok Hp c. unfold signed_claims, token_payload in *. destruct (_ || _); [done|].
  destruct (cut _ _) as [[p sg]|]; [|done]. change (Some p = Some (payload_of c0)) in Hp. apply (inj Some) in Hp as ->. destruct (_ || _); [done|].
  destruct (RawURL_Decode sg); [|done]. destruct (negb _); [done|]. unfold payload_of. rewrite RawURL_roundtrip.
  destruct (claims_read c0 Hok) as [Hu Hd]. unfold Marshal in Hu. rewrite Hu, Hd. by intros [= <-].
Qed.

Lemma claims_of_ok now nonce issuer subject spaceID mailboxID method requestURI body : 0 <= now < 2 ^ 62 ->
  Forall (fun s => valid_utf8 s = true) [trim_space issuer; trim_space subject; trim_space spaceID; trim_space mailboxID; ToUpper (trim_space method); requestURI] ->
  claims_ok (claims_of now nonce issuer subject spaceID mailboxID method requestURI body).
Proof.
  intros Hn Hs. repeat (apply Forall_cons in Hs as [? Hs]). unfold claims_ok, claims_of, is_i64. cbn.
  split_and!; [|done|unfold min_int64, max_int64; lia|unfold min_int64, max_int64; lia]. repeat (apply Forall_cons_2; [solve [done|apply hex_valid|apply RawURL_valid]|]). constructor.
Qed.

(** The window in which a token of [now] is good: thirty seconds of clock skew before, a
    minute after. *)
Lemma unix_small s : 0 <= s <= 2 ^ 62 + 200 -> unix_time s = s + 62135596800.
Proof. intros Hs. unfold unix_time. apply i64_small. unfold max_int64. lia. Qed.

(** A token is good for its request, at once and for the next minute, and gives the claims back. *)
Theorem sign_verify now now' nonce secret issuer subject spaceID mailboxID method requestURI body token
  (Hsize : forall k t, hmac_sha256 k t <> [])
  (Hnow : 0 <= now < 2 ^ 62) (Hnow' : 0 <= now' < 2 ^ 62) (Hwin : now - assert_skew <= now' < now + 60) (Hnonce : nonce <> [])
  (Htext : Forall (fun s => valid_utf8 s = true) [trim_space issuer; trim_space subject; trim_space spaceID; trim_space mailboxID; ToUpper (trim_space method); requestURI])
  (Hsign : SignForMailbox now (Some nonce) secret issuer subject spaceID mailboxID method requestURI body = Some token) :
  VerifyForMailbox now' secret token mailboxID method requestURI body
    = Some (claims_of now nonce issuer subject spaceID mailboxID method requestURI body).
Proof.
  pose proof (claims_of_ok now nonce issuer subject spaceID mailboxID method requestURI body Hnow Htext) as Hok.
  apply signed_token in Hsign as (Hlen & -> & Hne). destruct (claims_read _ Hok) as [Hu Hd]. unfold Marshal in Hu.
  unfold VerifyForMailbox, signed_claims. replace (_ <? 32)%nat with false by (symmetry; apply Nat.ltb_ge; lia).
  rewrite has_prefix_app. cbn [negb orb]. rewrite trim_prefix_app. rewrite (cut_app _ _ "."%char) by apply RawURL_no_dot.
  unfold payload_of at 1. rewrite !RawURL_nonempty by (apply Hsize || apply write_claims_nonempty). cbn [orb].
  rewrite RawURL_roundtrip, bool_decide_eq_true_2 by done. cbn [negb]. unfold payload_of. rewrite RawURL_roundtrip, Hu, Hd.
  repeat (apply Forall_cons in Hne as [?Hne Hne]). unfold claims_match, claims_of, assert_skew in *. cbn.
  rewrite Hne0, Hne1, Hne2, RawURL_nonempty, !String.eqb_refl by done. rewrite !unix_small by lia. cbn [negb andb].
  unfold maxLifetime. repeat match goal with |- context [?a <=? ?b] => replace (a <=? b) with true by lia | |- context [?a <? ?b] => replace (a <? b) with true by lia end.
  done.
Qed.

(** A token with a payload the signer wrote is good for nothing else: not another method,
    path, mailbox or body, and not before or after its minute; and it names whom the
    signer named. *)
Theorem assertion_bound now now' nonce secret issuer subject spaceID mailboxID method requestURI body token token' mb meth uri body' c
  (Hnow : 0 <= now < 2 ^ 62) (Hnow' : 0 <= now' < 2 ^ 62)
  (Htext : Forall (fun s => valid_utf8 s = true) [trim_space issuer; trim_space subject; trim_space spaceID; trim_space mailboxID; ToUpper (trim_space method); requestURI])
  (Hsign : SignForMailbox now (Some nonce) secret issuer subject spaceID mailboxID method requestURI body = Some token)
  (Hpay : token_payload token' = token_payload token)
  (Hver : VerifyForMailbox now' secret token' mb meth uri body' = Some c) :
  c = claims_of now nonce issuer subject spaceID mailboxID method requestURI body
  /\ trim_space mb = trim_space mailboxID /\ ToUpper (trim_space meth) = ToUpper (trim_space method) /\ uri = requestURI
  /\ body_digest body' = body_digest body /\ now - assert_skew <= now' < now + 60.
Proof.
  pose proof (claims_of_ok now nonce issuer subject spaceID mailboxID method requestURI body Hnow Htext) as Hok.
  apply signed_token in Hsign as (_ & -> & _). unfold token_payload in Hpay at 2.
  rewrite trim_prefix_app in Hpay. rewrite (cut_app _ _ "."%char) in Hpay by apply RawURL_no_dot.
  unfold VerifyForMailbox in Hver. destruct (signed_claims secret token') as [c'|] eqn:Hs; [|done].
  apply (signed_claims_of _ _ _ Hok Hpay) in Hs as ->. destruct (claims_match _ _ _ _ _ _) eqn:Hm; [|done]. injection Hver as <-.
  unfold claims_match, claims_of, assert_skew in *. cbn in Hm. b2p. rewrite !unix_small in * by lia.
  repeat match goal with H : String.eqb _ _ = true |- _ => apply String.eqb_eq in H end. split_and!; congruence || lia.
Qed.
End AssertSpec.

(** ** Instances *)

#[local] Instance as_unicode : Unicode := { unicode_lower := fun r => r; EqualFold := String.eqb }.
#[local] Instance as_upper : UnicodeUpper := { unicode_upper := fun r => if (97 <=? r) && (r <=? 122) then r - 32 else r }.
#[local] Instance as_hmac : Hmac := { hmac_sha256 := fun k m => take 32 (rev (bytes_of m) ++ replicate 32 "x"%char) }.
Lemma as_pad (l : list ascii) (c : ascii) : length (take 32 (rev l ++ replicate 32 c)) = 32%nat.
Proof. rewrite length_take, length_app, length_replicate. lia. Qed.
#[local] Instance as_sha : Sha256 :=
  { sha256 := fun l => take 32 (rev l ++ replicate 32 "y"%char); sha256_length := fun l => as_pad l "y"%char }.
Lemma as_mac_some k t : hmac_sha256 k t <> [].
Proof. intros E. pose proof (as_pad (bytes_of t) "x"%char) as Hl. change (take 32 _) with (hmac_sha256 k t) in Hl. by rewrite E in Hl. Qed.

Definition as_key : string := "0123456789abcdef0123456789abcdef".
Definition as_token : string := default EmptyString
  (SignForMailbox 1000 (Some (bytes_of "nonce")) as_key " octo " "alice" "s1" "7" "post" "/api/v1/messages" (bytes_of "{}")).

Lemma sign_verify_witness :
  VerifyForMailbox 1059 as_key as_token "7" "post" "/api/v1/messages" (bytes_of "{}")
    = Some (claims_of 1000 (bytes_of "nonce") " octo " "alice" "s1" "7" "post" "/api/v1/messages" (bytes_of "{}")).
Proof.
  refine (sign_verify 1000 1059 _ _ _ _ _ _ _ _ _ _ as_mac_some _ _ _ _ _ _); [lia|lia|unfold assert_skew; lia|done| |vm_compute; reflexivity].
  repeat (apply Forall_cons_2; [vm_compute; reflexivity|]). apply Forall_nil_2.
Defined.

Lemma assertion_bound_witness :
  body_digest (bytes_of "{}") = body_digest (bytes_of "{}") /\ 1000 - assert_skew <= 1059 < 1000 + 60.
Proof.
  assert (Hv : Forall (fun s => valid_utf8 s = true)
    [trim_space " octo "; trim_space "alice"; trim_space "s1"; trim_space "7"; ToUpper (trim_space "post"); "/api/v1/messages"%string]).
  { repeat (apply Forall_cons_2; [vm_compute; reflexivity|]). apply Forall_nil_2. }
  assert (Hs : SignForMailbox 1000 (Some (bytes_of "nonce")) as_key " octo " "alice" "s1" "7" "post" "/api/v1/messages" (bytes_of "{}") = Some as_token)
    by (vm_compute; reflexivity).
  assert (Hver : VerifyForMailbox 1059 as_key as_token "7" "POST " "/api/v1/messages" (bytes_of "{}")
    = Some (claims_of 1000 (bytes_of "nonce") " octo " "alice" "s1" "7" "post" "/api/v1/messages" (bytes_of "{}"))) by (vm_compute; reflexivity).
  assert (Hn : 0 <= 1000 < 2 ^ 62) by lia. assert (Hn' : 0 <= 1059 < 2 ^ 62) by lia.
  destruct (assertion_bound _ _ _ _ _ _ _ _ _ _ _ _ _ _ _ _ _ _ Hn Hn' Hv Hs eq_refl Hver) as (_ & _ & _ & _ & Hb & Hw).
  split; [exact Hb|exact Hw].
Defined.
