(* ===== verification/OutboundPolicy.v ===== *)
(** * Outbound policy (mailflow/outboundpolicy/policy.go)

    What an agent writes is shown to a policy before it is sent.  The local policy asks
    for the owner's review when a configured term occurs; a digest of the intent
    identifies its content.  [Evaluate] of a nil evaluator is that of [None]. *)

From S2P Require Import Prelude GoStrings Shapes Changes Strconv Json RuleMetadata.

Local Open Scope go_scope.

Definition OutcomeAllow : string := "allow".
Definition OutcomeOwnerReviewRequired : string := "owner_review_required".
Definition SourceOwnerDirect : string := "owner_direct".
Definition SourceInboundAutoReply : string := "inbound_auto_reply".

(** A nil [To] is [None]; nil and empty [Cc] and [Bcc] are written alike. *)
Record Intent := mkIntent {
  in_Source : string; in_Operation : string; in_SourceEmailID : string; in_To : option (list string);
  in_Cc : list string; in_Bcc : list string; in_Subject : string; in_Text : string; in_HTML : string; in_AttachmentCount : Z }.
Record Reason := mkReason { rs_Code : string; rs_Title : string; rs_Description : string }.
Record Decision := mkDecision { dc_Outcome : string; dc_PolicyVersion : string; dc_Reasons : list Reason }.

Record KeywordEvaluator := mkEvaluator { ev_terms : list string; ev_version : string }.

(** [json.Marshal] of the struct; [omitempty] leaves empty members out. *)
Definition omit_str (k v : string) : list (string * json) := if String.eqb v EmptyString then [] else [(k, JStr v)].
Definition omit_list (k : string) (v : list string) : list (string * json) :=
  match v with [] => [] | _ => [(k, JArr (JStr <$> v))] end.
Definition omit_int (k : string) (v : Z) : list (string * json) := if v =? 0 then [] else [(k, JNum v)].
Definition json_list (v : option (list string)) : json := match v with None => JNull | Some l => JArr (JStr <$> l) end.
Definition intent_json (i : Intent) : json := JObj
  ([("source", JStr (in_Source i)); ("operation", JStr (in_Operation i))]%string
   ++ omit_str "sourceEmailId" (in_SourceEmailID i) ++ [("to", json_list (in_To i))]%string
   ++ omit_list "cc" (in_Cc i) ++ omit_list "bcc" (in_Bcc i) ++ [("subject", JStr (in_Subject i))]%string
   ++ omit_str "text" (in_Text i) ++ omit_str "html" (in_HTML i) ++ omit_int "attachmentCount" (in_AttachmentCount i)).

Section Policy.
Context `{Unicode} `{Sha256}.

(** The terms, lower-cased and trimmed, each once. *)
Definition term_of (raw : string) : string := ToLower (trim_space raw).
Fixpoint collect_terms (seen : list string) (raws : list string) : list string :=
  match raws with
  | [] => []
  | raw :: raws =>
      let term := term_of raw in
      if String.eqb term EmptyString || bool_decide (term ∈ seen) then collect_terms seen raws
      else term :: collect_terms (term :: seen) raws
  end.
Definition NewKeywordEvaluator (rawTerms : list string) : KeywordEvaluator :=
  let terms := merge_sort str_le (collect_terms [] rawTerms) in
  let digest := sha256 (bytes_of (join (str_of [ascii_of_nat 0]) terms)) in
  mkEvaluator terms ("local-keyword-v1-" ++ hex_encode (take 6 digest)).

Definition haystack (intent : Intent) : string :=
  ToLower (join (str_of [ascii_of_nat 10]) [in_Subject intent; in_Text intent; in_HTML intent]).
Definition Evaluate (e : option KeywordEvaluator) (intent : Intent) : Decision :=
  match e with
  | None => mkDecision OutcomeAllow "allow-all-v1" []
  | Some e =>
      if bool_decide (ev_terms e = []) then mkDecision OutcomeAllow "allow-all-v1" []
      else
        match List.find (contains (haystack intent)) (ev_terms e) with
        | Some term => mkDecision OutcomeOwnerReviewRequired (ev_version e)
            [mkReason "configured_review_term" "Owner review required" ("Outbound content matched the configured review term: " ++ term)]
        | None => mkDecision OutcomeAllow (ev_version e) []
        end
  end.

Definition Digest (intent : Intent) : list ascii := sha256 (bytes_of (Marshal (intent_json intent))).

(** ** Lemmas *)

Lemma collect_terms_elem seen raws t :
  t ∈ collect_terms seen raws <-> t <> EmptyString /\ t ∉ seen /\ t ∈ term_of <$> raws.
Proof.
  revert seen. induction raws as [|raw raws IH]; intros seen; cbn [collect_terms]; cbv zeta; csimpl; [set_solver|].
  destruct (String.eqb_spec (term_of raw) EmptyString) as [He|He]; cbn [orb]; [rewrite IH, elem_of_cons; split; [|intros (? & ? & [->|?])]; tauto|].
  case_bool_decide as Hin; [rewrite IH, elem_of_cons; split; [tauto|intros (? & ? & [->|?]); tauto]|].
  rewrite !elem_of_cons, IH, elem_of_cons. split; [intros [->|?]; tauto|].
  intros (? & ? & [->|?]); [by left|]. destruct (decide (t = term_of raw)); [by left|right; tauto].
Qed.
Lemma collect_terms_NoDup seen raws : NoDup (collect_terms seen raws).
Proof.
  revert seen. induction raws as [|raw raws IH]; intros seen; cbn [collect_terms]; cbv zeta; [constructor|].
  case_goal; [apply IH|]. constructor; [|apply IH]. rewrite collect_terms_elem. set_solver.
Qed.

Lemma Evaluate_some e i : dc_Outcome (Evaluate (Some e) i) = OutcomeOwnerReviewRequired <->
  exists t, t ∈ ev_terms e /\ contains (haystack i) t = true.
Proof.
  unfold Evaluate. case_bool_decide as Hn; [rewrite Hn; split; [done|intros (t & Ht & _); set_solver]|].
  destruct (List.find _ _) as [t|] eqn:Hf; cbn [dc_Outcome].
  - apply find_some in Hf as [Hin Hc]. split; [intros _|done]. exists t. split; [by apply list_elem_of_In|done].
  - split; [done|]. intros (t & Hin & Hc). apply list_elem_of_In in Hin. by rewrite (find_none _ _ Hf t Hin) in Hc.
Qed.

(** The owner's review is asked for exactly when a configured term, whatever its case and
    the space around it, occurs in the subject, the text or the HTML. *)
Theorem review_iff_term raws i :
  dc_Outcome (Evaluate (Some (NewKeywordEvaluator raws)) i) = OutcomeOwnerReviewRequired <->
  exists raw, raw ∈ raws /\ term_of raw <> EmptyString /\ contains (haystack i) (term_of raw) = true.
Proof.
  rewrite Evaluate_some. unfold NewKeywordEvaluator. cbn [ev_terms].
  assert (Hel : forall t, t ∈ merge_sort str_le (collect_terms [] raws) <-> t <> EmptyString /\ t ∈ term_of <$> raws).
  { intros t. rewrite merge_sort_Permutation, collect_terms_elem. set_solver. }
  split.
  - intros (t & Ht & Hc). apply Hel in Ht as [Hne (raw & -> & Hin)%list_elem_of_fmap]. by exists raw.
  - intros (raw & Hin & Hne & Hc). exists (term_of raw). split; [|done]. apply Hel. split; [done|]. apply list_elem_of_fmap. by exists raw.
Qed.

(** The policy and its version depend on the set of terms only. *)
Theorem policy_of_terms raws raws' :
  (forall t, t <> EmptyString -> t ∈ term_of <$> raws <-> t ∈ term_of <$> raws') ->
  NewKeywordEvaluator raws = NewKeywordEvaluator raws'.
Proof.
  intros Hset. unfold NewKeywordEvaluator.
  assert (Hp : merge_sort str_le (collect_terms [] raws) = merge_sort str_le (collect_terms [] raws')); [|by rewrite Hp].
  apply (StronglySorted_unique str_le); [apply (StronglySorted_merge_sort _)..|]. rewrite !merge_sort_Permutation.
  apply NoDup_Permutation; [apply collect_terms_NoDup..|]. intros t. rewrite !collect_terms_elem. specialize (Hset t). tauto.
Qed.

(** What JSON keeps of an intent: text that is not UTF-8 is replaced. *)
Definition clean_list (l : list string) : list string := coerce_utf8 <$> l.
Definition clean_intent (i : Intent) : Intent :=
  mkIntent (coerce_utf8 (in_Source i)) (coerce_utf8 (in_Operation i)) (coerce_utf8 (in_SourceEmailID i)) (clean_list <$> in_To i)
    (clean_list (in_Cc i)) (clean_list (in_Bcc i)) (coerce_utf8 (in_Subject i)) (coerce_utf8 (in_Text i)) (coerce_utf8 (in_HTML i))
    (in_AttachmentCount i).

Lemma coerce_empty s : String.eqb (coerce_utf8 s) EmptyString = String.eqb s EmptyString.
Proof.
  destruct s as [|c s]; [done|]. apply String.eqb_neq. unfold coerce_utf8. change (bytes_of (String c s)) with (c :: bytes_of s).
  rewrite segs_cons. csimpl. unfold seg_bytes at 1. case_goal; [done|].
  pose proof (decode_rune_size c (bytes_of s)) as Hs. destruct (decode_rune _) as [r [|n]]; cbn [fst snd] in *; [lia|done].
Qed.

Lemma clean_omit_str k v : (fun kv : string * json => (coerce_utf8 kv.1, clean kv.2)) <$> omit_str k v = omit_str (coerce_utf8 k) (coerce_utf8 v).
Proof. unfold omit_str. rewrite coerce_empty. by destruct (String.eqb v EmptyString). Qed.
Lemma clean_strings (l : list string) : clean <$> (JStr <$> l) = JStr <$> clean_list l.
Proof. unfold clean_list. by rewrite <- !list_fmap_compose. Qed.
Lemma clean_omit_list k v : (fun kv : string * json => (coerce_utf8 kv.1, clean kv.2)) <$> omit_list k v = omit_list (coerce_utf8 k) (clean_list v).
Proof. destruct v as [|x v]; [done|]. unfold omit_list, clean_list. csimpl. do 5 f_equal. apply clean_strings. Qed.
Lemma clean_omit_int k v : (fun kv : string * json => (coerce_utf8 kv.1, clean kv.2)) <$> omit_int k v = omit_int (coerce_utf8 k) v.
Proof. unfold omit_int. by destruct (v =? 0). Qed.
Lemma clean_json_list v : clean (json_list v) = json_list (clean_list <$> v).
Proof. destruct v as [l|]; [|done]. cbn [json_list clean fmap option_fmap option_map]. f_equal. apply clean_strings. Qed.
Lemma clean_intent_json i : clean (intent_json i) = intent_json (clean_intent i).
Proof.
  unfold intent_json. cbn [clean]. rewrite !fmap_app, !clean_omit_str, !clean_omit_list, clean_omit_int. csimpl.
  rewrite clean_json_list. reflexivity.
Qed.

(** The members of an intent are read back by their names. *)
Definition member (k : string) (j : json) : option json :=
  match j with JObj l => snd <$> List.find (fun kv : string * json => String.eqb kv.1 k) l | _ => None end.
Definition str_of_json (j : option json) : string := match j with Some (JStr s) => s | _ => EmptyString end.
Definition list_of_json (j : option json) : option (list string) :=
  match j with Some (JArr l) => Some ((fun j => str_of_json (Some j)) <$> l) | _ => None end.
Definition intent_of_json (j : json) : Intent :=
  mkIntent (str_of_json (member "source" j)) (str_of_json (member "operation" j)) (str_of_json (member "sourceEmailId" j))
    (list_of_json (member "to" j)) (default [] (list_of_json (member "cc" j))) (default [] (list_of_json (member "bcc" j)))
    (str_of_json (member "subject" j)) (str_of_json (member "text" j)) (str_of_json (member "html" j))
    (match member "attachmentCount" j with Some (JNum z) => z | _ => 0 end).

Lemma strings_back (l : list string) : (fun j => str_of_json (Some j)) <$> (JStr <$> l) = l.
Proof. rewrite <- list_fmap_compose. apply list_fmap_id. Qed.
Lemma intent_of_intent_json i : intent_of_json (intent_json i) = i.
Proof.
  destruct i as [src op sid to cc bcc subj text html n]. unfold intent_json, intent_of_json, omit_str, omit_list, omit_int. cbn.
  destruct (String.eqb_spec sid EmptyString) as [->|], cc as [|c cc], bcc as [|b bcc], (String.eqb_spec text EmptyString) as [->|],
    (String.eqb_spec html EmptyString) as [->|], (Z.eqb_spec n 0) as [->|], to as [to|]; cbn; f_equal; rewrite ?strings_back; reflexivity.
Qed.

Lemma plain_strings (l : list string) : plain (JArr (JStr <$> l)) = true.
Proof. cbn [plain]. induction l; done. Qed.
Lemma plain_omit_list k v : forallb (fun kv : string * json => plain kv.2) (omit_list k v) = true.
Proof. unfold omit_list. destruct v as [|x v]; [done|]. cbn [forallb snd]. by rewrite plain_strings. Qed.
Lemma intent_plain i : is_i64 (in_AttachmentCount i) = true -> plain (intent_json i) = true.
Proof.
  intros Hn. unfold intent_json, omit_str, omit_int. cbn [plain]. rewrite !forallb_app, !plain_omit_list.
  assert (Ht : plain (json_list (in_To i)) = true) by (destruct (in_To i); [apply plain_strings|done]).
  cbn [forallb snd plain andb]. rewrite Ht. repeat case_goal; cbn [forallb snd plain andb]; by rewrite ?Hn.
Qed.
Lemma strings_depth (l : list string) : max_of (nesting <$> (JStr <$> l)) = 0.
Proof. induction l as [|s l IH]; [done|]. csimpl. unfold max_of in *. cbn [foldr]. rewrite IH. done. Qed.
Lemma max_of_app a b : max_of (a ++ b) = Z.max (max_of a) (max_of b).
Proof. unfold max_of. induction a as [|x a IH]; cbn [app foldr]; [|rewrite IH; lia]. pose proof (max_of_nonneg b). unfold max_of in *. lia. Qed.
Lemma intent_depth i : nesting (intent_json i) <= 2.
Proof.
  unfold intent_json. cbn [nesting]. rewrite !fmap_app, !max_of_app.
  assert (Hs : forall k v, max_of ((fun kv : string * json => nesting kv.2) <$> omit_str k v) <= 1) by (intros k v; unfold omit_str; case_goal; done).
  assert (Hl : forall k v, max_of ((fun kv : string * json => nesting kv.2) <$> omit_list k v) <= 1).
  { intros k [|x v]; [done|]. unfold omit_list. csimpl. change (nesting (JStr x) :: _) with (nesting <$> (JStr <$> x :: v)). by rewrite strings_depth. }
  assert (Hi : forall k v, max_of ((fun kv : string * json => nesting kv.2) <$> omit_int k v) <= 1) by (intros k v; unfold omit_int; case_goal; done).
  assert (Ht : max_of ((fun kv : string * json => nesting kv.2) <$> [("to", json_list (in_To i))]%string) <= 1).
  { destruct (in_To i) as [l|]; [|done]. csimpl. rewrite strings_depth. done. }
  assert (Hm : forall z, z <= 1 -> 1 + z <= 2) by lia. apply Hm.
  repeat first [exact Ht|apply Hs|apply Hl|apply Hi|apply Z.max_lub|done].
Qed.

(** A digest stands for one content: equal digests of intents whose encodings do not
    collide are digests of the same intent, up to text that is not UTF-8. *)
Theorem digest_of_content i i' :
  is_i64 (in_AttachmentCount i) = true -> is_i64 (in_AttachmentCount i') = true ->
  (forall a b, sha256 a = sha256 b -> a = bytes_of (Marshal (intent_json i)) -> b = bytes_of (Marshal (intent_json i')) -> a = b) ->
  Digest i = Digest i' -> clean_intent i = clean_intent i'.
Proof.
  intros Hn Hn' Hcol He. specialize (Hcol _ _ He eq_refl eq_refl).
  apply (f_equal str_of) in Hcol. rewrite !str_of_bytes_of in Hcol. pose proof (intent_depth i). pose proof (intent_depth i').
  apply Marshal_inj in Hcol; try (by apply intent_plain); try (unfold maxNestingDepth; lia).
  rewrite !clean_intent_json in Hcol. by rewrite <- (intent_of_intent_json (clean_intent i)), Hcol, intent_of_intent_json.
Qed.
End Policy.

(** ** Instances *)

#[local] Instance po_unicode : Unicode := { unicode_lower := fun r => r; EqualFold := String.eqb }.
Lemma po_pad (l : list ascii) : length (take 32 (rev l ++ replicate 32 "y"%char)) = 32%nat.
Proof. rewrite length_take, length_app, length_replicate. lia. Qed.
#[local] Instance po_sha : Sha256 := { sha256 := fun l => take 32 (rev l ++ replicate 32 "y"%char); sha256_length := po_pad }.

Definition po_intent : Intent :=
  mkIntent SourceOwnerDirect "mail.message.send" EmptyString (Some ["a@x.example"%string]) [] [] "The INVOICE" "pay" EmptyString 0.

Example policy_examples :
  dc_Outcome (Evaluate (Some (NewKeywordEvaluator [" Invoice "; ""; "invoice"])) po_intent) = OutcomeOwnerReviewRequired /\
  dc_Outcome (Evaluate (Some (NewKeywordEvaluator ["contract"])) po_intent) = OutcomeAllow /\
  dc_PolicyVersion (Evaluate (Some (NewKeywordEvaluator [" "])) po_intent) = "allow-all-v1"%string.
Proof. repeat split; vm_compute; reflexivity. Qed.

Lemma policy_of_terms_witness : NewKeywordEvaluator ["Invoice"; "pay "; ""] = NewKeywordEvaluator ["pay"; "INVOICE"; "invoice"].
Proof. apply policy_of_terms. intros t Ht. cbn. set_solver. Defined.

Lemma digest_of_content_witness : clean_intent po_intent = clean_intent po_intent.
Proof. apply digest_of_content; [reflexivity|reflexivity|intros a b _ -> ->; reflexivity|reflexivity]. Defined.
