(* ===== verification/RuleSpec.v ===== *)
(** * Forwarding metadata: what a signature covers, traces, and forwards that verify *)

From S2P Require Import Prelude GoStrings Strconv Verp Headers Base64 Textproto AutoReplyChain ChainSpec RuleMetadata.

Local Open Scope go_scope.

(** The next check of a chain of refusals passed. *)
Local Ltac refuse_if E :=
  match goal with |- (if ?b then None else _) = Some _ -> _ => destruct b eqn:E; [discriminate|] end.

(** ** Text lists *)

Lemma join_comma (l : list string) : l <> [] -> Forall (fun s => comma ∉ bytes_of s) l -> split (join "," l) comma = l.
Proof.
  intros Hne Hl. unfold split. induction Hl as [|s l Hs Hl IH]; [done|]. cbn [join]. destruct l as [|s' l].
  - rewrite split_l_none by done. csimpl. by rewrite str_of_bytes_of.
  - change (s ++ "," ++ join "," (s' :: l))%string with (s ++ String comma (join "," (s' :: l)))%string.
    rewrite bytes_of_app. cbn [bytes_of list_ascii_of_string]. rewrite split_l_app by done. csimpl.
    rewrite str_of_bytes_of. f_equal. by apply IH.
Qed.

Lemma format_no_comma z : is_i64 z = true -> comma ∉ bytes_of (FormatInt z).
Proof. by apply FormatInt_without. Qed.

(** Digits and signs are not space. *)
Lemma trim_format z : is_i64 z = true -> trim_space (FormatInt z) = FormatInt z.
Proof.
  intros Hz. assert (Hf : Forall (fun c => byte_of c < 128 /\ sp c = false) (bytes_of (FormatInt z))).
  { apply FormatInt_chars; [|split; reflexivity|done]. intros d Hd.
    assert (Hd' : d = 0 \/ d = 1 \/ d = 2 \/ d = 3 \/ d = 4 \/ d = 5 \/ d = 6 \/ d = 7 \/ d = 8 \/ d = 9) by lia.
    destruct_or! Hd'; subst; split; reflexivity. }
  unfold trim_space. rewrite trim_space_ascii.
  - rewrite trim_both_kept; [apply str_of_bytes_of|]. rewrite Forall_forall in Hf. split.
    + destruct (bytes_of (FormatInt z)) as [|c l]; [done|]. apply (Hf c). by left.
    + destruct (rev (bytes_of (FormatInt z))) as [|c l] eqn:E; [done|]. apply (Hf c). apply list_elem_of_In, in_rev. rewrite E. by left.
  - unfold ascii_bytes. apply forallb_forall. intros c Hc. apply list_elem_of_In in Hc.
    apply (proj1 (Forall_forall _ _) Hf) in Hc. lia.
Qed.

(** ** Traces *)

Lemma trace_ok_spec seen t : trace_ok seen t = true -> Forall (fun id => 0 < id /\ id ∉ seen) t /\ NoDup t.
Proof.
  revert seen. induction t as [|id t IH]; intros seen Ht; simpl in Ht; [by repeat constructor|]. b2p.
  destruct (IH (id :: seen)) as [Hf Hn]; [done|]. split.
  - constructor; [done|]. eapply Forall_impl; [exact Hf|]. simpl. intros x [Hx Hin]. split; [done|].
    intros Hs. apply Hin. by right.
  - constructor; [|done]. intros Hin. apply (proj1 (Forall_forall _ _) Hf) in Hin as [_ Hin]. apply Hin. by left.
Qed.

Lemma trace_loop_spec seen parts t : trace_loop seen parts = Some t -> trace_ok seen t = true /\ length t = length parts.
Proof.
  revert seen t. induction parts as [|p parts IH]; intros seen t; simpl; [by intros [= <-]|].
  destruct (ParseInt (trim_space p)) as [id|]; [|done]. destruct (_ || _) eqn:E; [done|].
  destruct (trace_loop (id :: seen) parts) as [t'|] eqn:Et; [|done]. intros [= <-]. apply IH in Et as [Et Hl].
  apply orb_false_iff in E as [E1 E2]. simpl. rewrite Et, E2, Hl. split; [|done]. apply Z.leb_gt in E1. by rewrite (proj2 (Z.ltb_lt 0 id)).
Qed.

Lemma trace_read (trace : list Z) (text : string) :
  Forall (fun id => is_i64 id = true) trace ->
  (FormatRuleTrace trace = Some text -> parseRuleTrace text = Some trace) /\
  (forall t, parseRuleTrace text = Some t -> NoDup t /\ Forall (fun id => 0 < id) t /\ Z.of_nat (length t) <= maxHop).
Proof.
  intros Hi. split.
  - unfold FormatRuleTrace. destruct (_ || _ || _) eqn:E; [done|]. intros [= <-].
    apply orb_false_iff in E as [E E3]. apply orb_false_iff in E as [E1 E2].
    apply bool_decide_eq_false in E1. apply Z.ltb_ge in E2. apply negb_false_iff in E3.
    unfold parseRuleTrace, formatRuleTrace. rewrite join_comma.
    + rewrite length_fmap. destruct (Z.ltb_spec maxHop (Z.of_nat (length trace))) as [|_]; [lia|].
      destruct (String.eqb_spec (join "," (FormatInt <$> trace)) EmptyString) as [He|_].
      { exfalso. destruct trace as [|id trace]; [done|]. apply Forall_cons in Hi as [Hid _].
        assert (Hne : FormatInt id <> EmptyString).
        { intros Hf. pose proof (ParseInt_FormatInt id Hid) as Hp. rewrite Hf in Hp. discriminate Hp. }
        csimpl in He. destruct (FormatInt id); [done|]. by destruct trace. }
      clear E1 E2. revert E3. generalize (@nil Z). induction Hi as [|id trace Hid Hi IH]; intros seen Ht; [done|].
      csimpl. simpl in Ht. apply andb_true_iff in Ht as [[Hp Hn]%andb_true_iff Ht]. apply Z.ltb_lt in Hp. apply negb_true_iff in Hn.
      rewrite trim_format, ParseInt_FormatInt by done. rewrite Hn. destruct (Z.leb_spec id 0); [lia|]. cbn [orb].
      by rewrite (IH _ Ht).
    + destruct trace; [done|by csimpl].
    + apply Forall_fmap. eapply Forall_impl; [exact Hi|]. intros id Hid. by apply format_no_comma.
  - intros t. unfold parseRuleTrace. destruct (String.eqb _ _); [done|]. destruct (Z.ltb_spec maxHop (Z.of_nat (length (split text comma)))); [done|].
    intros Ht. apply trace_loop_spec in Ht as [Ht Hl]. apply trace_ok_spec in Ht as [Hf Hn]. split; [done|]. split; [|by rewrite Hl].
    eapply Forall_impl; [exact Hf|]. simpl. tauto.
Qed.

(** Traces survive the header: a trace that is formatted is read back as it was, and
    whatever text is read yields positive rule ids without repetition. *)
Theorem trace_roundtrip (trace : list Z) (text : string) :
  Forall (fun id => is_i64 id = true) trace ->
  (FormatRuleTrace trace = Some text -> parseRuleTrace text = Some trace) /\
  (forall t, parseRuleTrace text = Some t -> NoDup t /\ Forall (fun id => 0 < id) t /\ Z.of_nat (length t) <= maxHop).
Proof. apply trace_read. Qed.

Lemma trace_roundtrip_witness : parseRuleTrace "7,12" = Some [7; 12].
Proof. exact (proj1 (trace_roundtrip [7; 12] "7,12" ltac:(repeat constructor)) eq_refl). Defined.

Section Spec.
Context `{Unicode} `{Hmac} `{Sha256}.

(** ** What a signature covers *)

Lemma cut_string_end a a' b b' : no_lf b -> no_lf b' -> (a ++ lf ++ b = a' ++ lf ++ b')%string -> a = a' /\ b = b'.
Proof.
  intros Hb Hb' He. apply (f_equal bytes_of) in He. rewrite !bytes_of_app in He. cbn [lf bytes_of list_ascii_of_string] in He.
  apply (f_equal (@rev ascii)) in He. rewrite !rev_app_distr in He. cbn [rev app] in He. rewrite <- !app_assoc in He. cbn [app] in He.
  apply cut_inj in He as [He1 He2]; [| |].
  - apply rev_inj in He1, He2. split; [rewrite <- (str_of_bytes_of a), <- (str_of_bytes_of a')|rewrite <- (str_of_bytes_of b), <- (str_of_bytes_of b')]; by f_equal.
  - intros Hin. apply Hb. apply list_elem_of_In; apply in_rev; by apply list_elem_of_In.
  - intros Hin. apply Hb'. apply list_elem_of_In; apply in_rev; by apply list_elem_of_In.
Qed.

(** Fields that can be told apart in the signed text. *)
Definition separable (m : Metadata) : Prop :=
  no_lf (md_OriginalFrom m) /\ no_lf (md_SentBy m) /\ no_lf (md_MessageID m) /\
  is_i64 (md_RuleID m) = true /\ is_i64 (md_Hop m) = true /\ is_i64 (md_ExpiresAt m) = true.

(** A rule signature binds the whole tuple and the content: when the signed texts of two
    versions 2 or 3 agree, so do the version, every field, the recipients, the expiry, and
    for version 3 the trace and the digest of the message. *)
Theorem rule_signature_binds (m1 m2 : Metadata) (v1 v2 t1 t2 r1 r2 : string) (d1 d2 : list ascii) :
  separable m1 -> separable m2 -> v1 ∈ [signatureVersion; legacySignatureVersion] -> v2 ∈ [signatureVersion; legacySignatureVersion] ->
  no_lf t1 -> no_lf t2 -> no_lf r1 -> no_lf r2 -> length d1 = 32%nat -> length d2 = 32%nat ->
  mac_input m1 v1 t1 r1 d1 = mac_input m2 v2 t2 r2 d2 ->
  v1 = v2 /\ md_OriginalFrom m1 = md_OriginalFrom m2 /\ md_SentBy m1 = md_SentBy m2 /\ md_RuleID m1 = md_RuleID m2 /\
  md_Hop m1 = md_Hop m2 /\ md_MessageID m1 = md_MessageID m2 /\ r1 = r2 /\ md_ExpiresAt m1 = md_ExpiresAt m2 /\
  (v1 = signatureVersion -> t1 = t2 /\ d1 = d2).
Proof.
  intros (A1 & A2 & A3 & A4 & A5 & A6) (B1 & B2 & B3 & B4 & B5 & B6) Hv1 Hv2 Ht1 Ht2 Hr1 Hr2 Hd1 Hd2 He.
  assert (Hver : forall v, v ∈ [signatureVersion; legacySignatureVersion] -> no_lf v).
  { intros v Hv. apply elem_of_cons in Hv as [->|Hv]; [|apply list_elem_of_singleton in Hv as ->];
      (apply (contains_any_none [LF]); [reflexivity|by left]). }
  unfold mac_input in He.
  apply cut_string in He as [Hv He]; [|by apply Hver|by apply Hver]. subst v2.
  apply cut_string in He as [-> He]; [|done|done].
  apply cut_string in He as [-> He]; [|done|done].
  apply cut_string in He as [Hid He]; [|by apply format_no_lf|by apply format_no_lf]. apply FormatInt_inj in Hid; [|done|done].
  apply cut_string in He as [Hhop He]; [|by apply format_no_lf|by apply format_no_lf]. apply FormatInt_inj in Hhop; [|done|done].
  assert (Htail : md_MessageID m1 = md_MessageID m2 /\ r1 = r2 /\ md_ExpiresAt m1 = md_ExpiresAt m2 /\
                  (v1 = signatureVersion -> t1 = t2 /\ d1 = d2)).
  { destruct (String.eqb_spec v1 signatureVersion) as [->|Hne].
    - apply cut_string in He as [Hm He]; [|done|done].
      assert (Hd : forall t d r x, (t ++ str_of d ++ lf ++ r ++ lf ++ x = ((t ++ str_of d) ++ lf ++ r) ++ lf ++ x)%string)
        by (intros t d r x; by rewrite !string_app_assoc).
      rewrite !string_app_assoc in He. rewrite !Hd in He.
      apply cut_string_end in He as [He Hx]; [|by apply format_no_lf|by apply format_no_lf]. apply FormatInt_inj in Hx; [|done|done].
      apply cut_string_end in He as [He Hr]; [|done|done].
      assert (Hlen : forall l, String.length (str_of l) = length l) by (induction l as [|c l IH]; [done|]; simpl; by f_equal).
      apply string_app_inj in He as [Ht Hdig]; [|by rewrite !Hlen, Hd1, Hd2].
      split; [done|]. split; [done|]. split; [done|]. intros _. split; [done|].
      apply (f_equal bytes_of) in Hdig. by rewrite !bytes_of_str_of in Hdig.
    - apply cut_string in He as [Hm He]; [|done|done].
      apply cut_string in He as [Hr He]; [|done|done]. apply FormatInt_inj in He; [|done|done]. done. }
  tauto.
Qed.
(** ** What a trusted verification established *)

Lemma distinct_spec seen l ds : distinct_addresses seen l = Some ds ->
  Forall (fun d => d <> EmptyString /\ d ∉ seen /\ d ∈ canonicalAddress <$> l) ds /\ NoDup ds.
Proof.
  revert seen ds. induction l as [|r l IH]; intros seen ds; cbn [distinct_addresses]; [intros [= <-]; by split; constructor|].
  cbv zeta. destruct (String.eqb_spec (canonicalAddress r) EmptyString) as [|Hne]; [done|].
  destruct (bool_decide_reflect (canonicalAddress r ∈ seen)) as [Hin|Hin].
  - intros Hd. destruct (IH _ _ Hd) as [Hf Hn]. split; [|done]. eapply Forall_impl; [exact Hf|]. simpl. intros d (Hd1 & Hd2 & Hd3).
    split; [done|]. split; [done|]. csimpl. by right.
  - destruct (distinct_addresses (canonicalAddress r :: seen) l) as [ds'|] eqn:E; [|done]. intros [= <-].
    destruct (IH _ _ E) as [Hf Hn]. split.
    + constructor; [split; [done|]; split; [done|]; csimpl; by left|]. eapply Forall_impl; [exact Hf|]. simpl. intros d (Hd1 & Hd2 & Hd3).
      split; [done|]. split; [intros Hs; apply Hd2; by right|]. csimpl. by right.
    + constructor; [|done]. intros Hin2. apply (proj1 (Forall_forall _ _) Hf) in Hin2 as (_ & Hin2 & _). apply Hin2. by left.
Qed.

Lemma canonical_elem l ds d : canonicalizeRecipients l = Some ds -> d ∈ ds -> d ∈ canonicalAddress <$> l.
Proof.
  unfold canonicalizeRecipients. destruct (distinct_addresses [] l) as [[|x k]|] eqn:E; [done| |done]. intros Hs Hd. injection Hs as <-.
  rewrite merge_sort_Permutation in Hd. apply distinct_spec in E as [Hf _]. by apply (proj1 (Forall_forall _ _) Hf) in Hd as (_ & _ & Hd).
Qed.


Lemma scalar_kept a b : canonicalScalarMetadata a = Some b ->
  md_RuleID b = md_RuleID a /\ md_ExpiresAt b = md_ExpiresAt a /\ md_Hop b = md_Hop a /\ 0 <= md_Hop a <= maxHop /\
  md_Recipients b = md_Recipients a /\ md_RuleTrace b = md_RuleTrace a /\ md_ChainTrusted b = false.
Proof.
  unfold canonicalScalarMetadata. cbv zeta. refuse_if E1. refuse_if E2. refuse_if E3. refuse_if E4. intros [= <-].
  apply orb_false_iff in E2 as [E2 E5]. apply orb_false_iff in E2 as [_ E2]. apply Z.ltb_ge in E2, E5. done.
Qed.

(** Trust is signed: when a message is trusted, its trace holds pairwise different
    positive rule ids that end with the signing rule, as many as the hop says, one of
    the receiving addresses is a signed recipient, the metadata has not expired, and
    the signature in its header is the HMAC of that metadata and of the digest of this
    very content. *)
Theorem trusted_is_signed (key : string) (raw : list ascii) (expected : list string) (now : Z) (m : Metadata) :
  VerifyAny key raw expected now = Some m -> md_ChainTrusted m = true ->
  NoDup (md_RuleTrace m) /\ Forall (fun id => 0 < id) (md_RuleTrace m) /\
  md_Hop m = Z.of_nat (length (md_RuleTrace m)) /\ last (md_RuleTrace m) = Some (md_RuleID m) /\
  now < md_ExpiresAt m <= now + signatureValidity + clockSkew /\
  exists h body traceText recipientsText text m0,
    ReadMIMEHeader raw = Some (h, body) /\
    singleHeader h HeaderRuleTrace = Some traceText /\ parseRuleTrace traceText = Some (md_RuleTrace m) /\
    singleHeader h HeaderRecipients = Some recipientsText /\
    (exists r, r ∈ expected /\ canonicalAddress r <> EmptyString /\ canonicalAddress r ∈ canonicalAddress <$> split recipientsText comma) /\
    singleHeader h HeaderSignature = Some text /\ md_RuleID m0 = md_RuleID m /\ md_ExpiresAt m0 = md_ExpiresAt m /\
    decodeSignature text = Some (signatureVersion,
      hmac_sha256 key (mac_input m0 signatureVersion traceText recipientsText (sha256 (digest_input h body)))).
Proof.
  unfold VerifyAny, verificationContentDigest, messageContentDigestWithSignatureRequirement.
  destruct (ReadMIMEHeader raw) as [[h body]|] eqn:Er; [|done]. cbv beta iota. destruct (_ && _); [done|]. cbn [mbind option_bind].
  set (digest := sha256 _). unfold verifyHeader. intros Hv Htr.
  destruct (singleHeader h HeaderOriginalFrom) as [ofrom|]; [|done]. destruct (singleHeader h HeaderSentBy) as [sby|]; [|done].
  destruct (singleHeader h HeaderRuleID) as [idt|]; [|done]. destruct (singleHeader h HeaderRuleHop) as [hopt|]; [|done].
  destruct (singleHeader h "Message-ID") as [mid|]; [|done]. destruct (singleHeader h HeaderRecipients) as [rtext|] eqn:Erec; [|done].
  destruct (singleHeader h HeaderExpires) as [et|]; [|done]. destruct (singleHeader h HeaderSignature) as [st|] eqn:Esig; [|done].
  cbn [mbind option_bind] in Hv. destruct (ParseInt idt) as [rid|]; [|done]. destruct (ParseInt hopt) as [hop|]; [|done].
  destruct (ParseInt et) as [e|]; [|done]. cbn [mbind option_bind] in Hv.
  destruct ((e <=? now) || (now + signatureValidity + clockSkew <? e)) eqn:Ee; [done|]. apply orb_false_iff in Ee as [Ee1 Ee2].
  apply Z.leb_gt in Ee1. apply Z.ltb_ge in Ee2.
  destruct (decodeSignature st) as [[v sg]|] eqn:Ed; [|done]. cbn [mbind option_bind] in Hv. cbv zeta in Hv.
  destruct (String.eqb_spec v signatureVersion) as [->|Hne].
  2:{ destruct (canonicalScalarMetadata _) as [m0|]; [|done]. cbn [mbind option_bind] in Hv. destruct (negb _); [done|].
      destruct (canonicalBaseMetadata _) as [m1|]; [|done]. cbn [mbind option_bind] in Hv. destruct (negb _); [done|].
      injection Hv as <-. done. }
  destruct (singleHeader h HeaderRuleTrace) as [tt_|] eqn:Ett; [|done]. cbn [mbind option_bind] in Hv.
  destruct (canonicalScalarMetadata _) as [m0|] eqn:E0; [|done]. cbn [mbind option_bind] in Hv.
  destruct (bool_decide _) eqn:Emac; [|done]. cbn [negb] in Hv. apply bool_decide_eq_true in Emac.
  destruct (canonicalBaseMetadata _) as [m1|] eqn:E1; [|done]. cbn [mbind option_bind] in Hv.
  destruct (containsAnyRecipient _ _) eqn:Erc; [|done]. cbn [negb] in Hv.
  destruct (parseRuleTrace tt_) as [tr|] eqn:Etr; [|done]. cbn [mbind option_bind] in Hv.
  destruct (canonicalMetadata (set_trace tr m1)) as [m2|] eqn:E2; [|done]. cbn [mbind option_bind] in Hv. injection Hv as <-.
  assert (H0f : md_RuleID m0 = rid /\ md_ExpiresAt m0 = e).
  { apply scalar_kept in E0 as (K1 & K2 & _). by rewrite K1, K2. }
  assert (Hbase : forall a b, canonicalBaseMetadata a = Some b ->
    md_RuleID b = md_RuleID a /\ md_ExpiresAt b = md_ExpiresAt a /\ md_RuleTrace b = md_RuleTrace a /\
    canonicalizeRecipients (md_Recipients a) = Some (md_Recipients b)).
  { intros a b Hab. unfold canonicalBaseMetadata in Hab. destruct (canonicalScalarMetadata a) as [a'|] eqn:Ea; [|done]. cbn [mbind option_bind] in Hab.
    destruct (canonicalizeRecipients (md_Recipients a')) as [r|] eqn:Ea'; [|done]. cbn [mbind option_bind] in Hab. injection Hab as <-.
    apply scalar_kept in Ea as (K1 & K2 & _ & _ & K5 & K6 & _). simpl. by rewrite K1, K2, <- K5, K6. }
  unfold canonicalMetadata in E2. destruct (canonicalBaseMetadata (set_trace tr m1)) as [m3|] eqn:E3; [|done]. cbn [mbind option_bind] in E2.
  destruct (_ || _ || _) eqn:El in E2; [done|]. destruct (trace_ok [] (md_RuleTrace m3)) eqn:Eok; [|done]. cbn [negb] in E2.
  destruct (bool_decide (last _ = _)) eqn:Ela; [|done]. injection E2 as <-. apply bool_decide_eq_true in Ela.
  apply Hbase in E1 as (B1 & B2 & _ & B4). apply Hbase in E3 as (D1 & D2 & D3 & D4). simpl in *.
  apply trace_ok_spec in Eok as [Hpos Hnd]. apply orb_false_iff in El as [_ El]. apply negb_false_iff, Z.eqb_eq in El.
  destruct H0f as [F1 F2]. split; [done|]. split; [eapply Forall_impl; [exact Hpos|]; simpl; tauto|]. split; [done|]. split; [done|].
  split; [rewrite D2, B2, F2; lia|]. exists h, body, tt_, rtext, st, m0. rewrite D1, D2, D3, B1, B2.
  split; [done|]. split; [done|]. split; [done|]. split; [done|]. split; [|by rewrite Ed, Emac].
  unfold containsAnyRecipient in Erc. apply existsb_exists in Erc as (r & Hr & Hc). cbv zeta in Hc. apply andb_true_iff in Hc as [Hne Hin].
  exists r. split; [by apply list_elem_of_In|]. apply bool_decide_eq_true in Hin.
  split; [by destruct (String.eqb_spec (canonicalAddress r) EmptyString)|]. by eapply canonical_elem.
Qed.

(** ** A forward's own metadata *)

Lemma canonicalAddress_recipient v : canonicalAddress v = canonicalRecipient v.
Proof. reflexivity. Qed.

Lemma distinct_fixed seen ds : Forall (fun d => d <> EmptyString /\ d ∉ seen /\ canonicalAddress d = d) ds -> NoDup ds ->
  distinct_addresses seen ds = Some ds.
Proof.
  intros Hf Hn. revert seen Hf. induction Hn as [|d ds Hd Hn IH]; intros seen Hf; [done|]. apply Forall_cons in Hf as [(D1 & D2 & D3) Hf].
  cbn [distinct_addresses]. cbv zeta. rewrite D3. destruct (String.eqb_spec d EmptyString) as [|_]; [done|].
  rewrite bool_decide_eq_false_2 by done. rewrite IH; [done|]. apply Forall_forall. intros x Hx.
  apply (proj1 (Forall_forall _ _) Hf) in Hx as Hx'. destruct Hx' as (X1 & X2 & X3). split; [done|]. split; [|done].
  intros [->|Hs]%elem_of_cons; done.
Qed.

Lemma recipients_fixed l r : Forall (fun s => is_ascii s = true) l -> canonicalizeRecipients l = Some r ->
  canonicalizeRecipients r = Some r /\ r <> [] /\ Forall (fun s => comma ∉ bytes_of s) r.
Proof.
  intros Ha. unfold canonicalizeRecipients. destruct (distinct_addresses [] l) as [[|x k]|] eqn:E; [done| |done]. intros Hr. injection Hr as <-.
  apply distinct_spec in E as [Hf Hn]. set (ds := x :: k) in *.
  assert (Hp : merge_sort str_le ds ≡ₚ ds) by apply merge_sort_Permutation.
  assert (Hfix : Forall (fun d => d <> EmptyString /\ d ∉ [] /\ canonicalAddress d = d) (merge_sort str_le ds)).
  { rewrite Hp. eapply Forall_impl; [exact Hf|]. simpl. intros d (D1 & D2 & D3). split; [done|]. split; [done|].
    apply list_elem_of_fmap in D3 as (y & -> & Hy). rewrite !canonicalAddress_recipient. apply canonicalRecipient_idem.
    by apply (proj1 (Forall_forall _ _) Ha) in Hy. }
  assert (Hne : merge_sort str_le ds <> []).
  { intros Hz. rewrite Hz in Hp. by apply Permutation_nil_l in Hp. }
  rewrite distinct_fixed; [|done|by rewrite Hp]. split; [|split; [done|]].
  - destruct (merge_sort str_le ds) eqn:Es; [done|]. f_equal. rewrite <- Es. apply sort_fixed.
  - eapply Forall_impl; [exact Hfix|]. simpl. intros d (D1 & _ & D3). rewrite <- D3. unfold canonicalAddress. cbv zeta.
    destruct (_ || _ || _ || _) eqn:Ec; [intros Hin; by apply elem_of_nil in Hin|]. apply orb_false_iff in Ec as [_ Ec].
    apply (contains_any_none _ _ _ Ec). do 4 right. by left.
Qed.

Lemma trim_ascii_idem s : is_ascii s = true -> trim_space (trim_space s) = trim_space s.
Proof.
  intros Ha. rewrite is_ascii_bytes in Ha. unfold trim_space. rewrite (trim_space_ascii (bytes_of s)) by done.
  rewrite bytes_of_str_of, trim_space_ascii by by apply ascii_bytes_trim. f_equal. apply trim_both_kept, trim_both_ends.
Qed.

Definition ascii_fields (m : Metadata) : Prop :=
  is_ascii (md_OriginalFrom m) = true /\ is_ascii (md_SentBy m) = true /\ is_ascii (md_MessageID m) = true /\
  Forall (fun s => is_ascii s = true) (md_Recipients m).

Definition with_lists (tr : list Z) (rc : list string) (m : Metadata) : Metadata :=
  mkMeta (md_OriginalFrom m) (md_SentBy m) (md_RuleID m) (md_Hop m) tr (md_MessageID m) rc (md_ExpiresAt m) false.

Lemma scalar_fixed a b tr rc : ascii_fields a -> canonicalScalarMetadata a = Some b ->
  canonicalScalarMetadata (with_lists tr rc b) = Some (with_lists tr rc b).
Proof.
  intros (A1 & A2 & A3 & _). unfold canonicalScalarMetadata at 1. cbv zeta.
  refuse_if E1. refuse_if E2. refuse_if E3. refuse_if E4. intros [= <-].
  unfold canonicalScalarMetadata, with_lists. cbv zeta. cbn [md_OriginalFrom md_SentBy md_RuleID md_Hop md_MessageID md_ExpiresAt md_RuleTrace md_Recipients].
  rewrite !trim_ascii_idem by done. by rewrite E1, E2, E3, E4.
Qed.

Lemma canonical_parts m mc : canonicalMetadata m = Some mc ->
  exists a, canonicalScalarMetadata m = Some a /\ mc = with_lists (md_RuleTrace m) (md_Recipients mc) a /\
    canonicalizeRecipients (md_Recipients m) = Some (md_Recipients mc) /\ md_RuleTrace mc = md_RuleTrace m /\
    FormatRuleTrace (md_RuleTrace m) = Some (formatRuleTrace (md_RuleTrace m)) /\
    (forall b, with_lists (md_RuleTrace m) (md_Recipients mc) b = b -> md_RuleID b = md_RuleID a -> md_Hop b = md_Hop a ->
       canonicalBaseMetadata b = Some b -> canonicalMetadata b = Some b).
Proof.
  unfold canonicalMetadata, canonicalBaseMetadata. destruct (canonicalScalarMetadata m) as [a|] eqn:Ea; [|done]. cbn [mbind option_bind].
  destruct (canonicalizeRecipients (md_Recipients a)) as [r|] eqn:Er; [|done]. cbn [mbind option_bind].
  assert (Hm : md_Recipients a = md_Recipients m /\ md_RuleTrace a = md_RuleTrace m /\ md_ChainTrusted a = false).
  { by apply scalar_kept in Ea as (_ & _ & _ & _ & K5 & K6 & K7). }
  destruct Hm as (M1 & M2 & M3). cbn [set_recipients md_RuleTrace md_Hop md_RuleID]. rewrite M2.
  destruct (_ || _ || _) eqn:E1; [done|]. destruct (negb (trace_ok _ _)) eqn:E2; [done|]. destruct (negb (bool_decide (last _ = _))) eqn:E3; [done|].
  intros [= <-]. exists a. cbn [md_Recipients md_RuleTrace set_recipients]. rewrite <- M1, Er, M2. split; [done|].
  split; [unfold set_recipients, with_lists; by rewrite M2, M3|]. split; [done|]. split; [done|]. split.
  - unfold FormatRuleTrace. rewrite E2. apply orb_false_iff in E1 as [E1 _]. by rewrite E1.
  - intros b Hb Hid Hhop Hbase. destruct (canonicalScalarMetadata b) as [b'|]; [|done]. cbn [mbind option_bind] in Hbase |- *.
    destruct (canonicalizeRecipients (md_Recipients b')) as [r'|]; [|done]. cbn [mbind option_bind] in Hbase |- *. injection Hbase as ->.
    rewrite <- Hb. cbn [with_lists md_RuleTrace md_Hop md_RuleID]. by rewrite Hid, Hhop, E1, E2, E3.
Qed.

(** The header of a composed forward: every field once, as [composeForward] writes it. *)
Definition forward_header (h : MIMEHeader) (mc : Metadata) (sig : string) : Prop :=
  singleHeader h HeaderOriginalFrom = Some (md_OriginalFrom mc) /\ singleHeader h HeaderSentBy = Some (md_SentBy mc) /\
  singleHeader h HeaderRuleID = Some (FormatInt (md_RuleID mc)) /\ singleHeader h HeaderRuleHop = Some (FormatInt (md_Hop mc)) /\
  singleHeader h HeaderRuleTrace = Some (formatRuleTrace (md_RuleTrace mc)) /\ singleHeader h "Message-ID" = Some (md_MessageID mc) /\
  singleHeader h HeaderRecipients = Some (join "," (md_Recipients mc)) /\
  singleHeader h HeaderExpires = Some (FormatInt (md_ExpiresAt mc)) /\ singleHeader h HeaderSignature = Some sig.

Context `{!HmacSize}.

Lemma decode_rule_signature m : length m = 32%nat ->
  RuleMetadata.decodeSignature (signatureVersion ++ "." ++ RawURL_Encode m) = Some (signatureVersion, m).
Proof.
  intros Hm. unfold RuleMetadata.decodeSignature. cbn [List.find].
  change (signatureVersion ++ "." ++ RawURL_Encode m)%string with (("v3." : string) ++ RawURL_Encode m)%string.
  change (signatureVersion ++ ".")%string with ("v3."%string). rewrite has_prefix_app, trim_prefix_app, RawURL_roundtrip. by rewrite Hm, Nat.eqb_refl.
Qed.

(** A forward verifies: the metadata a rule signs for a message, in the header of that
    message, is trusted by every instance with the key when the forward arrives within the
    day at an address among its recipients, and the trace, the hop and the attribution
    are the ones that were signed. *)
Theorem forward_verifies (key sig : string) (m mc : Metadata) (raw0 raw : list ascii) (h0 h : MIMEHeader) (d body : list ascii)
    (expected : list string) (t : Z) (r : string) :
  ascii_fields m -> Forall (fun id => is_i64 id = true) (md_RuleTrace m) ->
  is_i64 (md_RuleID m) = true -> is_i64 (md_ExpiresAt m) = true -> canonicalMetadata m = Some mc ->
  messageContentDigest raw0 = Some (h0, d) -> Sign key m raw0 = Some sig ->
  ReadMIMEHeader raw = Some (h, body) -> sha256 (digest_input h body) = d -> forward_header h mc sig ->
  t < md_ExpiresAt mc <= t + signatureValidity + clockSkew -> r ∈ expected -> canonicalAddress r ∈ md_Recipients mc ->
  VerifyAny key raw expected t = Some (set_trusted true mc).
Proof.
  intros Ha Htr Hid Hexp Hcm Hd Hsign Hraw Hdig (H1f & H2f & H3f & H4f & H5f & H6f & H7f & H8f & H9f) Ht Hr Hrin.
  destruct (canonical_parts _ _ Hcm) as (a & Hsc & Hmc & Hrec & Htrace & Hfmt & Hcanon).
  assert (Hfields : md_RuleID mc = md_RuleID m /\ md_ExpiresAt mc = md_ExpiresAt m /\ 0 <= md_Hop mc <= maxHop).
  { rewrite Hmc. apply scalar_kept in Hsc as (K1 & K2 & K3 & K4 & _). simpl. by rewrite K1, K2, K3. }
  destruct Hfields as (I1 & I2 & I3). unfold maxHop in I3.
  destruct (recipients_fixed _ _ (proj2 (proj2 (proj2 Ha))) Hrec) as (Rfix & Rne & Rcomma).
  assert (Hscalar : forall tr rc, canonicalScalarMetadata (with_lists tr rc mc) = Some (with_lists tr rc mc)).
  { intros tr rc. rewrite Hmc. by apply (scalar_fixed m a tr rc Ha Hsc). }
  assert (Hbase : forall tr, canonicalBaseMetadata (with_lists tr (md_Recipients mc) mc) = Some (with_lists tr (md_Recipients mc) mc)).
  { intros tr. unfold canonicalBaseMetadata. rewrite Hscalar. cbn [mbind option_bind with_lists md_Recipients]. by rewrite Rfix. }
  unfold Sign in Hsign. rewrite Hcm, Hd in Hsign. cbn [mbind option_bind] in Hsign.
  destruct (singleHeader h0 "Message-ID") as [id0|]; [|done]. cbn [mbind option_bind] in Hsign. destruct (negb _); [done|]. injection Hsign as <-.
  unfold VerifyAny, verificationContentDigest, messageContentDigestWithSignatureRequirement. rewrite Hraw. cbv beta iota.
  assert (Hsv : bool_decide (Values h HeaderSignature = []) = false).
  { apply bool_decide_eq_false. intros Hz. unfold singleHeader in H9f. by rewrite Hz in H9f. }
  rewrite Hsv, andb_false_r, Hdig. cbn [mbind option_bind]. unfold verifyHeader.
  rewrite H1f, H2f, H3f, H4f, H6f, H7f, H8f, H9f. cbn [mbind option_bind].
  rewrite !ParseInt_FormatInt by (rewrite ?I1, ?I2; done || (unfold is_i64, min_int64, max_int64; lia)). cbn [mbind option_bind].
  destruct (Z.leb_spec (md_ExpiresAt mc) t); [lia|]. destruct (Z.ltb_spec (t + signatureValidity + clockSkew) (md_ExpiresAt mc)); [lia|]. cbn [orb].
  rewrite decode_rule_signature by apply hmac_length. cbn [mbind option_bind]. cbv zeta. rewrite String.eqb_refl, H5f. cbn [mbind option_bind].
  change (mkMeta (md_OriginalFrom mc) (md_SentBy mc) (md_RuleID mc) (md_Hop mc) [] (md_MessageID mc) [] (md_ExpiresAt mc) false) with (with_lists [] [] mc).
  rewrite Hscalar. cbn [mbind option_bind]. rewrite bool_decide_eq_true_2 by reflexivity. cbn [negb].
  rewrite join_comma by done. change (set_recipients (md_Recipients mc) (with_lists [] [] mc)) with (with_lists [] (md_Recipients mc) mc).
  rewrite Hbase. cbn [mbind option_bind with_lists md_Recipients].
  assert (Hcon : containsAnyRecipient (md_Recipients mc) expected = true).
  { unfold containsAnyRecipient. apply existsb_exists. exists r. split; [by apply list_elem_of_In|]. cbv zeta.
    rewrite (bool_decide_eq_true_2 _ Hrin), andb_true_r. apply negb_true_iff, String.eqb_neq. intros Hz. rewrite Hz in Hrin.
    apply (canonical_elem _ _ _ Rfix) in Hrin. unfold canonicalizeRecipients in Hrec.
    destruct (distinct_addresses [] (md_Recipients m)) as [[|x k]|] eqn:Ed; [done| |done]. injection Hrec as Hrec.
    apply distinct_spec in Ed as [Hf _]. apply list_elem_of_fmap in Hrin as (y & Hy & Hin). rewrite <- Hrec, merge_sort_Permutation in Hin.
    apply (proj1 (Forall_forall _ _) Hf) in Hin as (Hyne & _ & Hin). apply list_elem_of_fmap in Hin as (w & -> & Hw).
    rewrite !canonicalAddress_recipient in *. rewrite canonicalRecipient_idem in Hy; [congruence|].
    apply (proj1 (Forall_forall _ _) (proj2 (proj2 (proj2 Ha)))) in Hw. exact Hw. }
  rewrite Hcon. cbn [negb]. rewrite Htrace, (proj1 (trace_read _ _ Htr) Hfmt). cbn [mbind option_bind].
  change (set_trace (md_RuleTrace m) (with_lists [] (md_Recipients mc) mc)) with (with_lists (md_RuleTrace m) (md_Recipients mc) mc).
  assert (Hself : with_lists (md_RuleTrace m) (md_Recipients mc) mc = mc) by (rewrite Hmc at 3; by rewrite Hmc at 2).
  rewrite (Hcanon (with_lists (md_RuleTrace m) (md_Recipients mc) mc)).
  - cbn [mbind option_bind]. by rewrite Hself.
  - done.
  - by rewrite Hmc.
  - by rewrite Hmc.
  - apply Hbase.
Qed.

End Spec.

(** ** Instances *)

#[local] Instance rs_unicode : Unicode :=
  { unicode_lower := fun r => r; EqualFold := fun s t => String.eqb (ascii_lower s) (ascii_lower t) }.
#[local] Instance rs_hmac : Hmac := { hmac_sha256 := fun k m => take 32 (rev (bytes_of m) ++ replicate 32 "x"%char) }.
Lemma pad_length (l : list ascii) (c : ascii) : length (take 32 (rev l ++ replicate 32 c)) = 32%nat.
Proof. rewrite length_take, length_app, length_replicate. lia. Qed.
#[local] Instance rs_hmac_size : HmacSize := { hmac_length := fun k m => pad_length (bytes_of m) "x"%char }.
#[local] Instance rs_sha : Sha256 :=
  { sha256 := fun l => take 32 (rev l ++ replicate 32 "y"%char); sha256_length := fun l => pad_length l "y"%char }.

Definition rs_key : string := "0123456789abcdef0123456789abcdef".
Definition rs_meta : Metadata :=
  mkMeta "alice@a.example" "bot@x.example" 7 2 [3; 7] "<m1@x.example>" ["Carol@c.example"; "bob@b.example"] 90000 false.
Definition rs_canonical : Metadata := with_lists [3; 7] ["bob@b.example"; "carol@c.example"] rs_meta.
Definition rs_fields : list (string * string) :=
  [("From", "bot@x.example"); ("Auto-Submitted", "auto-generated"); ("Message-Id", "<m1@x.example>");
   (HeaderOriginalFrom, "alice@a.example"); (HeaderSentBy, "bot@x.example"); (HeaderRuleID, "7"); (HeaderRuleHop, "2");
   (HeaderRuleTrace, "3,7"); (HeaderRecipients, "bob@b.example,carol@c.example"); (HeaderExpires, "90000")]%string.
Definition rs_raw0 : list ascii := header_lines rs_fields ++ CRLF ++ bytes_of "hi".
Definition rs_sig : string := default EmptyString (Sign rs_key rs_meta rs_raw0).
Definition rs_raw : list ascii := header_lines (rs_fields ++ [(HeaderSignature, rs_sig)]) ++ CRLF ++ bytes_of "hi".

Lemma forward_verifies_witness : VerifyAny rs_key rs_raw ["alias@b.example"; "BOB@b.example"] 5000 = Some (set_trusted true rs_canonical).
Proof.
  refine (forward_verifies rs_key rs_sig rs_meta rs_canonical rs_raw0 rs_raw (header_of rs_raw0) (header_of rs_raw)
    (sha256 (digest_input (header_of rs_raw0) (bytes_of "hi"))) (bytes_of "hi") ["alias@b.example"; "BOB@b.example"]%string 5000 "BOB@b.example"
    _ _ _ _ _ _ _ _ _ _ _ _ _).
  - split; [reflexivity|]. split; [reflexivity|]. split; [reflexivity|]. repeat (apply Forall_cons_2; [reflexivity|]). apply Forall_nil_2.
  - repeat (apply Forall_cons_2; [reflexivity|]). apply Forall_nil_2.
  - reflexivity.
  - reflexivity.
  - vm_compute. reflexivity.
  - vm_compute. reflexivity.
  - vm_compute. reflexivity.
  - vm_compute. reflexivity.
  - vm_compute. reflexivity.
  - repeat split; vm_compute; reflexivity.
  - vm_compute. split; [reflexivity|discriminate].
  - right. left.
  - left.
Defined.

Lemma trusted_is_signed_witness :
  exists m, VerifyAny rs_key rs_raw ["bob@b.example"] 5000 = Some m /\ NoDup (md_RuleTrace m) /\ md_RuleTrace m = [3; 7].
Proof.
  exists (set_trusted true rs_canonical).
  assert (Hv : VerifyAny rs_key rs_raw ["bob@b.example"]%string 5000 = Some (set_trusted true rs_canonical)) by (vm_compute; reflexivity).
  split; [exact Hv|]. split; [|reflexivity].
  exact (proj1 (trusted_is_signed rs_key rs_raw ["bob@b.example"]%string 5000 (set_trusted true rs_canonical) Hv eq_refl)).
Defined.

Lemma rule_signature_binds_witness :
  mac_input rs_meta signatureVersion "3,7" "bob@b.example" (sha256 []) = mac_input rs_canonical signatureVersion "3,7" "bob@b.example" (sha256 []) /\
  md_RuleID rs_meta = md_RuleID rs_canonical.
Proof.
  assert (He : mac_input rs_meta signatureVersion "3,7" "bob@b.example" (sha256 []) = mac_input rs_canonical signatureVersion "3,7" "bob@b.example" (sha256 []))
    by (vm_compute; reflexivity).
  split; [exact He|].
  assert (Hlf : forall s, contains_any [LF] s = false -> no_lf s) by (intros s Hs; apply (contains_any_none [LF]); [exact Hs|by left]).
  assert (Hsep : forall m, m = rs_meta \/ m = rs_canonical -> separable m).
  { intros m [->| ->]; (split; [apply Hlf; reflexivity|]; split; [apply Hlf; reflexivity|]; split; [apply Hlf; reflexivity|]; repeat split). }
  assert (Hv : signatureVersion ∈ [signatureVersion; legacySignatureVersion]) by left.
  destruct (rule_signature_binds rs_meta rs_canonical signatureVersion signatureVersion "3,7" "3,7" "bob@b.example" "bob@b.example"
    (sha256 []) (sha256 []) (Hsep _ (or_introl eq_refl)) (Hsep _ (or_intror eq_refl)) Hv Hv (Hlf "3,7"%string eq_refl) (Hlf "3,7"%string eq_refl)
    (Hlf "bob@b.example"%string eq_refl) (Hlf "bob@b.example"%string eq_refl) (sha256_length []) (sha256_length []) He) as (_ & _ & _ & Hid & _). exact Hid.
Defined.
