(* ===== verification/MailRules.v ===== *)
(** * Forwarding rules (mailflow/mailrules/processor.go): matching and composing

    What a stored message says, which rules it matches, and the message a rule forwards.
    Parsing MIME, addresses and the fields that carry them is the mail library's and
    case folding is golang.org/x/text's: both are parameters.  The clock, the random
    bytes and the boundaries of one forward are its environment. *)

From S2P Require Import Prelude GoStrings Strconv Verp Headers Smtp Base64 Textproto RuleMetadata.

Local Open Scope go_scope.

(** ** What the libraries give *)

(** A part of a parsed message; [part_reader] is its decoded content and whether
    reading fails after it, [None] when there is no reader. *)
Inductive Part : Type :=
| mkPart (parts : list Part) (disposition filename mediaType mediaSubType : string) (reader : option (list ascii * bool)).

Record EnvAddress := mkEnvAddress { ea_Name : string; ea_User : string; ea_Host : string }.
Record Envelope := mkEnvelope { en_From : list EnvAddress; en_To : list EnvAddress; en_CC : list EnvAddress; en_BCC : list EnvAddress }.

(** [message.Parse], [message.From] and [Part.Walk] of one message. *)
Record Parsed := mkParsed {
  pr_from : SmtpAddress; pr_subject : string; pr_header : MIMEHeader; pr_envelope : option Envelope; pr_part : Part }.
Class MessageParser := { ParseMime : list ascii -> option Parsed }.

Class AddressText := { Address_String : SmtpAddress -> string; Localpart_String : string -> string }.
Class CaseFold := { Fold : string -> string }.

(** The lines that [message.Composer] writes for a list of addresses and for a subject. *)
Class Composer := {
  HeaderAddrs : string -> list (string * SmtpAddress) -> list ascii;
  HeaderSubject : string -> list ascii }.

(** ** Rules and messages *)

Record MailRuleCondition := mkCond { mc_Field : string; mc_Operator : string; mc_Value : string }.
#[export] Instance MailRuleCondition_eq_dec : EqDecision MailRuleCondition.
Proof. solve_decision. Defined.

Record rule := mkRule {
  ru_id : Z; ru_matchMode : string; ru_conditions : list MailRuleCondition;
  ru_matchFrom : string; ru_matchSubject : string; ru_forwardTargets : list string }.

Record forwardAttachment := mkAttachment { fa_filename : string; fa_contentType : string; fa_content : list ascii }.

Record parsedMessage := mkParsedMessage {
  pm_from : SmtpAddress; pm_fromName : string; pm_recipients : list string; pm_subject : string;
  pm_bodyText : list ascii; pm_bodyHTML : list ascii; pm_attachments : list forwardAttachment;
  pm_hop : Z; pm_ruleTrace : list Z; pm_originalFrom : string; pm_trustedMessageID : string;
  pm_trustedRule : bool; pm_automated : bool }.

Definition defaultMaxForwardMessageSize : Z := 67108864.

Section Rules.
Context `{Unicode} `{UnicodeUpper} `{Hmac} `{Sha256} `{AddressParser} `{MessageParser} `{AddressText} `{CaseFold} `{Composer}.

(** ** The content to forward *)

Definition safeForwardFilename (filename : string) : string :=
  let shown := str_of (concat ((fun p : Z * list ascii => if IsControl p.1 then [] else encode_rune p.1) <$> segs (bytes_of filename))) in
  let slashed := str_of ((fun c => if Ascii.eqb c "\" then "/"%char else c) <$> bytes_of shown) in
  let filename := trim_space (Base slashed) in
  if String.eqb filename EmptyString || String.eqb filename "." then "attachment" else filename.

Definition forwardContentType (mediaType mediaSubType : string) : string :=
  let mediaType := ToLower mediaType in
  let subType := ToLower mediaSubType in
  if String.eqb mediaType EmptyString || String.eqb subType EmptyString then "application/octet-stream"
  else (mediaType ++ "/" ++ subType)%string.

(** What the walk has gathered: the size of the attachments, text, HTML, attachments. *)
Record Content := mkContent { fc_total : Z; fc_text : list ascii; fc_html : list ascii; fc_attachments : list forwardAttachment }.
Definition no_content : Content := mkContent 0 [] [] [].

(** [io.ReadAll] of a reader limited to one byte more than the maximum. *)
Definition read_part (max : Z) (reader : list ascii * bool) : result (list ascii) :=
  let '(data, fails) := reader in
  if max + 1 <=? Z.of_nat (length data) then Ok (take (Z.to_nat (max + 1)) data)
  else if fails then Err (ErrText "read part") else Ok data.

Definition leaf (max : Z) (disposition filename mediaType mediaSubType : string) (reader : option (list ascii * bool)) (c : Content)
  : result Content :=
  let upper := ToUpper mediaType in
  let isText := String.eqb upper EmptyString || String.eqb upper "TEXT" in
  let isAttachment := EqualFold disposition "attachment" || negb (String.eqb filename EmptyString) || negb isText in
  match reader with
  | None => Ok c
  | Some reader =>
      try! content := read_part max reader in
      if max <? Z.of_nat (length content) then Err (ErrText "forwarded MIME part exceeds message size limit")
      else if negb isAttachment then
        if String.eqb (ToUpper mediaSubType) "HTML"
        then Ok (match fc_html c with [] => mkContent (fc_total c) (fc_text c) content (fc_attachments c) | _ => c end)
        else Ok (match fc_text c with [] => mkContent (fc_total c) content (fc_html c) (fc_attachments c) | _ => c end)
      else
        let total := fc_total c + Z.of_nat (length content) in
        if max <? total then Err (ErrText "forwarded attachments exceed message size limit")
        else if (100 <=? length (fc_attachments c))%nat then Err (ErrText "forwarded message has too many attachments")
        else Ok (mkContent total (fc_text c) (fc_html c)
               (fc_attachments c ++ [mkAttachment (safeForwardFilename filename) (forwardContentType mediaType mediaSubType) content]))
  end.

Fixpoint walk (max : Z) (p : Part) (c : Content) {struct p} : result Content :=
  match p with
  | mkPart [] disposition filename mediaType mediaSubType reader => leaf max disposition filename mediaType mediaSubType reader c
  | mkPart parts _ _ _ _ _ =>
      (fix walk_all parts c := match parts with
        | [] => Ok c
        | p :: parts => try! c := walk max p c in walk_all parts c
        end) parts c
  end.
Definition extractForwardContent (max : Z) (p : Part) : result Content := walk max p no_content.

(** ** parseMessage *)

Definition appendEnvelopeAddresses (values : list string) (addresses : list EnvAddress) : list string :=
  values ++ filter (fun v => v <> EmptyString)
    ((fun a => let mailbox := trim_space (ea_User a) in
               if String.eqb (ea_Host a) EmptyString then mailbox else (mailbox ++ "@" ++ ea_Host a)%string) <$> addresses).

Definition automated_field (value : string) : bool :=
  let value := trim_space value in negb (String.eqb value EmptyString) && negb (EqualFold value "no").

Definition parseMessageWithLimit (raw : list ascii) (max : Z) (authenticator : option string) (expectedRecipients : list string) (now : Z)
  : result parsedMessage :=
  match ParseMime raw with
  | None => Err (ErrText "parse message")
  | Some pr =>
      try! c := extractForwardContent max (pr_part pr) in
      let fromName := match pr_envelope pr with
                      | Some e => match en_From e with a :: _ => trim_space (ea_Name a) | [] => EmptyString end
                      | None => EmptyString
                      end in
      let recipients := match pr_envelope pr with
                        | Some e => appendEnvelopeAddresses (appendEnvelopeAddresses (appendEnvelopeAddresses [] (en_To e)) (en_CC e)) (en_BCC e)
                        | None => []
                        end in
      let automated := existsb automated_field (Values (pr_header pr) "Auto-Submitted") in
      let parsed hop trace original id trusted :=
        mkParsedMessage (pr_from pr) fromName recipients (pr_subject pr) (fc_text c) (fc_html c) (fc_attachments c)
          hop trace original id trusted automated in
      let untrusted := parsed 0 [] EmptyString EmptyString false in
      Ok (match authenticator with
          | None => untrusted
          | Some key =>
              match VerifyAny key raw expectedRecipients now with
              | Some m => if md_ChainTrusted m
                          then parsed (md_Hop m) (md_RuleTrace m) (md_OriginalFrom m) (md_MessageID m) true else untrusted
              | None => untrusted
              end
          end)
  end.

(** ** Matching *)

Definition foldedFrom (m : parsedMessage) : string := Fold (Address_String (pm_from m)).

(** The values of a field as they are and folded, [None] for a field there is not. *)
Definition condition_values (field : string) (m : parsedMessage) : option (list string * list string) :=
  let body := [str_of (pm_bodyText m); str_of (pm_bodyHTML m)] in
  if String.eqb field "from" then Some ([Address_String (pm_from m)], [foldedFrom m])
  else if String.eqb field "to" then Some (pm_recipients m, Fold <$> pm_recipients m)
  else if String.eqb field "subject" then Some ([pm_subject m], [Fold (pm_subject m)])
  else if String.eqb field "body" then Some (body, Fold <$> body)
  else if String.eqb field "subject_or_body" then Some (pm_subject m :: body, Fold <$> (pm_subject m :: body))
  else None.

Definition slicesEqualFold (values : list string) (expected : string) : bool :=
  existsb (fun value => EqualFold (trim_space value) expected) values.

Definition mailRuleConditionMatchesPrepared (c : MailRuleCondition) (m : parsedMessage) : bool :=
  if negb (existsb (String.eqb (mc_Operator c)) ["contains"; "not_contains"; "equals"]) then false
  else
    match condition_values (mc_Field c) m with
    | None => false
    | Some (values, foldedValues) =>
        let found := existsb (fun value => contains value (Fold (mc_Value c))) foldedValues in
        if String.eqb (mc_Operator c) "not_contains" then negb (bool_decide (values = [])) && negb found
        else if String.eqb (mc_Operator c) "contains" then found
        else if String.eqb (mc_Field c) "from" then
          match ParseAddress (mc_Value c) with
          | None => false
          | Some configured =>
              String.eqb (Localpart_String (sa_Localpart configured)) (Localpart_String (sa_Localpart (pm_from m)))
              && EqualFold (sa_Domain configured) (sa_Domain (pm_from m))
          end
        else slicesEqualFold values (mc_Value c)
    end.

(** The conditions of rules from before conditions. *)
Definition legacy_conditions (matchFrom matchSubject : string) : list MailRuleCondition :=
  (if String.eqb matchFrom EmptyString then [] else [mkCond "from" "equals" matchFrom])
    ++ (if String.eqb matchSubject EmptyString then [] else [mkCond "subject" "contains" matchSubject]).
Definition conditions_of (r : rule) : list MailRuleCondition :=
  match ru_conditions r with [] => legacy_conditions (ru_matchFrom r) (ru_matchSubject r) | l => l end.

Fixpoint match_loop (any : bool) (l : list MailRuleCondition) (m : parsedMessage) : bool :=
  match l with
  | [] => negb any
  | c :: l =>
      let conditionMatched := mailRuleConditionMatchesPrepared c m in
      if any && conditionMatched then true
      else if negb any && negb conditionMatched then false
      else match_loop any l m
  end.
Definition matches (r : rule) (m : parsedMessage) : bool :=
  match conditions_of r with
  | [] => false
  | l => match_loop (String.eqb (ru_matchMode r) "any") l m
  end.

Definition blockedCode (r : rule) (m : parsedMessage) : string :=
  if pm_automated m && negb (pm_trustedRule m) then "auto_submitted"
  else if bool_decide (ru_id r ∈ pm_ruleTrace m) then "rule_repeated"
  else EmptyString.

(** ** Composing the forward *)

(** The time as seconds and as the Date field has it, the random bytes of the message id,
    and the boundaries of the body and of its alternative part. *)
Record ForwardEnv := mkForwardEnv {
  fe_now : Z; fe_date : string; fe_random : option (list ascii); fe_boundary : string; fe_alternative : string }.

Definition newMessageID (random : option (list ascii)) (domain : string) : option string :=
  (fun random => ("<" ++ RawURL_Encode random ++ "@" ++ (if String.eqb domain EmptyString then "localhost" else domain) ++ ">")%string)
    <$> random.

Definition header_line (name value : string) : list ascii := bytes_of (name ++ ": " ++ value)%string ++ CRLF.

Fixpoint index_of (p : list ascii) (l : list ascii) : option nat :=
  if starts p l then Some 0%nat else match l with [] => None | _ :: l => S <$> index_of p l end.
Definition insertMessageHeader (raw : list ascii) (name value : string) : option (list ascii) :=
  match index_of (CRLF ++ CRLF) raw with
  | None => None
  | Some separator => Some (take (separator + 2) raw ++ header_line name value ++ drop (separator + 2) raw)
  end.

Definition text_part (content : list ascii) : list (string * string) * list ascii := ([("Content-Type", "text/plain; charset=utf-8")]%string, content).
Definition html_part (content : list ascii) : list (string * string) * list ascii := ([("Content-Type", "text/html; charset=utf-8")]%string, content).

Definition writeForwardBody (env : ForwardEnv) (m : parsedMessage) : list (string * string) * list ascii :=
  match pm_bodyHTML m, pm_bodyText m with
  | [], text => text_part text
  | html, [] => html_part html
  | html, text =>
      ([("Content-Type", FormatMediaType "multipart/alternative" "boundary" (fe_alternative env))]%string,
       multipart (fe_alternative env) [text_part text; html_part html])
  end.

(** The encoded content in lines of 76 characters. *)
Fixpoint base64_lines (fuel : nat) (l : list ascii) : list ascii :=
  match fuel, l with
  | O, _ | _, [] => []
  | S fuel, _ => take 76 l ++ CRLF ++ base64_lines fuel (drop 76 l)
  end.
Definition writeForwardAttachment (a : forwardAttachment) : list (string * string) * list ascii :=
  let encoded := bytes_of (Std_Encode (fa_content a)) in
  ([("Content-Disposition", FormatMediaType "attachment" "filename" (fa_filename a));
    ("Content-Transfer-Encoding", "base64");
    ("Content-Type", FormatMediaType (fa_contentType a) "name" (fa_filename a))]%string, base64_lines (length encoded) encoded).

(** The metadata that a forward of the message by the rule carries. *)
Definition forward_metadata (env : ForwardEnv) (from : SmtpAddress) (targets : list string) (source : parsedMessage) (ruleID : Z) (messageID : string)
  : Metadata :=
  let ruleTrace := pm_ruleTrace source ++ [ruleID] in
  let originalFrom := if pm_trustedRule source && negb (String.eqb (pm_originalFrom source) EmptyString)
                      then pm_originalFrom source else Address_String (pm_from source) in
  mkMeta originalFrom (Address_String from) ruleID (Z.of_nat (length ruleTrace)) ruleTrace messageID targets (Expiry (fe_now env)) false.

Definition metadata_fields (v : Metadata) : option (list ascii) :=
  trace ← FormatRuleTrace (md_RuleTrace v);
  recipients ← CanonicalRecipients (md_Recipients v);
  Some (header_line HeaderOriginalFrom (md_OriginalFrom v) ++ header_line HeaderSentBy (md_SentBy v)
     ++ header_line HeaderRuleID (FormatInt (md_RuleID v)) ++ header_line HeaderRuleHop (FormatInt (md_Hop v))
     ++ header_line HeaderRuleTrace trace ++ header_line HeaderRecipients recipients ++ header_line HeaderExpires (FormatInt (md_ExpiresAt v))).

Definition strip_newlines (s : string) : string := str_of (filter (fun c => c <> CR /\ c <> LF) (bytes_of s)).

(** The composed message without its signature. *)
Definition compose_unsigned (env : ForwardEnv) (from : SmtpAddress) (to : list SmtpAddress) (source : parsedMessage) (messageID : string)
  (metadata : list ascii) : list ascii :=
  let displayName := ((if String.eqb (pm_fromName source) EmptyString then Address_String (pm_from source) else pm_fromName source) ++ " via Agent Mail")%string in
  HeaderAddrs "From" [(displayName, from)] ++ HeaderAddrs "To" ((fun a => (EmptyString, a)) <$> to)
  ++ HeaderSubject (trim_space (strip_newlines (pm_subject source)))
  ++ header_line "Date" (fe_date env) ++ header_line "Message-ID" messageID ++ header_line "Auto-Submitted" "auto-generated"
  ++ metadata ++ header_line "MIME-Version" "1.0"
  ++ header_line "Content-Type" (FormatMediaType "multipart/mixed" "boundary" (fe_boundary env)) ++ CRLF
  ++ multipart (fe_boundary env) (writeForwardBody env source :: (writeForwardAttachment <$> pm_attachments source)).

(** The composer fails when more than the maximum is written. *)
Definition composeForwardWithLimit (env : ForwardEnv) (from : string) (targets : list string) (source : parsedMessage) (ruleID max : Z)
  (authenticator : option string) : result (list ascii) :=
  match ParseAddress from, mapM ParseAddress targets with
  | Some fromAddress, Some to =>
      match newMessageID (fe_random env) (sa_Domain fromAddress) with
      | None => Err (ErrText "random")
      | Some messageID =>
          let value := forward_metadata env fromAddress targets source ruleID messageID in
          match (match authenticator with None => Some [] | Some _ => metadata_fields value end) with
          | None => Err (ErrText "rule metadata")
          | Some fields =>
              let raw := compose_unsigned env fromAddress to source messageID fields in
              if (0 <? max) && (max <? Z.of_nat (length raw)) then Err (ErrText "compose panic: message too large")
              else
                match authenticator with
                | None => Ok raw
                | Some key =>
                    match Sign key value raw with
                    | None => Err (ErrText "sign rule metadata")
                    | Some signature =>
                        match insertMessageHeader raw HeaderSignature signature with
                        | None => Err (ErrText "composed message has no header boundary")
                        | Some raw =>
                            if (0 <? max) && (max <? Z.of_nat (length raw)) then Err (ErrText "forwarded message exceeds message size limit")
                            else Ok raw
                        end
                    end
                end
          end
      end
  | _, _ => Err (ErrText "address")
  end.

End Rules.
