(* ===== verification/Compose.v ===== *)
(** * Composing mail (protocol/webapi/compose.go) and taking a header out (drafts.go)

    The message the web API builds of a request, byte for byte; the random bytes, the
    date and the boundaries of multipart bodies are parameters of the call, the system's
    MIME table and the printable characters of package [unicode] parameters of the model. *)

From S2P Require Import Prelude GoStrings Strconv Verp Headers Base64 Textproto AutoReplyChain RuleMetadata MailRules Json.

Local Open Scope go_scope.

Class MimeTypes := { TypeByExtension : string -> string }.
Class UnicodePrint := { unicode_print : Z -> bool }.       (* outside ASCII *)

Record attachment := mkAttachment { at_Filename : string; at_ContentType : string; at_Content : string }.

Record composeInput := mkInput {
  ci_From : string; ci_To : list string; ci_Cc : list string; ci_DraftBcc : list string; ci_Subject : string;
  ci_Text : string; ci_HTML : string; ci_Attachments : list attachment;
  ci_MessageID : string; ci_InReplyTo : string; ci_References : list string;
  ci_OriginalFrom : string; ci_SentBy : string; ci_TrustedHeaders : gmap string string }.

(** What the call draws: random bytes for the id, the date, the boundaries. *)
Record ComposeEnv := mkEnv {
  ce_random : option (list ascii); ce_date : string; ce_mixed : string; ce_alternative : string }.

(** ** Text *)

Definition has_eol (s : string) : bool := existsb is_eol (bytes_of s).
Definition stripCRLF (s : string) : string :=
  if negb (has_eol s) then s else str_of (List.filter (fun c => negb (is_eol c)) (bytes_of s)).
Definition normalizeCRLF (s : string) : string :=
  if negb (has_eol s) then s
  else
    let s := ReplaceAll (bytes_of s) CRLF [LF] in
    let s := ReplaceAll s [CR] [LF] in
    str_of (ReplaceAll s [LF] CRLF).

Definition writeHeader (name value : string) : list ascii :=
  bytes_of name ++ bytes_of ": " ++ bytes_of (stripCRLF value) ++ CRLF.

Definition genMessageID (random : option (list ascii)) (domain : string) : option string :=
  match random with
  | None => None
  | Some rb =>
      let domain := if String.eqb domain EmptyString then "localhost"%string else domain in
      Some ("<" ++ RawURL_Encode rb ++ "@" ++ domain ++ ">")%string
  end.

Section Compose.
Context `{MimeTypes} `{UnicodePrint}.

(** [fmt]'s [%q]: [strconv.Quote]. *)
Definition IsPrint (r : Z) : bool := if r <? 128 then (32 <=? r) && (r <? 127) else unicode_print r.
Definition quote_rune (p : Z * list ascii) : list ascii :=
  if bad_seg p then backslash :: "x"%char :: concat ((fun c => [hex_digit (byte_of c / 16); hex_digit (byte_of c mod 16)]) <$> p.2)
  else if (p.1 =? 34) || (p.1 =? 92) then backslash :: p.2
  else if IsPrint p.1 then p.2
  else if p.1 =? 7 then [backslash; "a"%char]
  else if p.1 =? 8 then [backslash; "b"%char]
  else if p.1 =? 12 then [backslash; "f"%char]
  else if p.1 =? 10 then [backslash; "n"%char]
  else if p.1 =? 13 then [backslash; "r"%char]
  else if p.1 =? 9 then [backslash; "t"%char]
  else if p.1 =? 11 then [backslash; "v"%char]
  else if (p.1 <? 32) || (p.1 =? 127) then [backslash; "x"%char; hex_digit (p.1 / 16); hex_digit (p.1 mod 16)]
  else if p.1 <? 65536 then backslash :: "u"%char :: hex4 p.1
  else backslash :: "U"%char :: hex4 (p.1 / 65536) ++ hex4 (p.1 mod 65536).
Definition Quote (s : string) : string := str_of (quote :: concat (quote_rune <$> segs (bytes_of s)) ++ [quote]).

(** ** Parts *)

(** The type of an attachment: as given, or by the file name, or octets. *)
Definition attachment_type (at_ : attachment) : string :=
  if negb (String.eqb (at_ContentType at_) EmptyString) then at_ContentType at_
  else
    let ct := match last_index_byte "."%char (bytes_of (at_Filename at_)) with
              | Some dot => TypeByExtension (str_of (drop dot (bytes_of (at_Filename at_))))
              | None => EmptyString
              end in
    if String.eqb ct EmptyString then "application/octet-stream" else ct.

Definition writeAttachment (at_ : attachment) : result (list (string * string) * list ascii) :=
  match Std_Decode (at_Content at_) with
  | None => Err (ErrText "invalid_attachment")
  | Some raw =>
      let enc := bytes_of (Std_Encode raw) in
      Ok ([("Content-Disposition", stripCRLF ("attachment; filename=" ++ Quote (at_Filename at_)));
           ("Content-Transfer-Encoding", "base64");
           ("Content-Type", stripCRLF (attachment_type at_))]%string, base64_lines (length enc) enc)
  end.

Definition composeAlternative (env : ComposeEnv) (text html : string) : list ascii * string :=
  (multipart (ce_alternative env) [text_part (bytes_of (normalizeCRLF text)); html_part (bytes_of (normalizeCRLF html))],
   ("multipart/alternative; boundary=" ++ ce_alternative env)%string).

Fixpoint write_attachments (l : list attachment) : result (list (list (string * string) * list ascii)) :=
  match l with
  | [] => Ok []
  | a :: l => try! p := writeAttachment a in try! ps := write_attachments l in Ok (p :: ps)
  end.

Definition composeBody (env : ComposeEnv) (input : composeInput) : result (list ascii * string) :=
  let hasHTML := negb (String.eqb (ci_HTML input) EmptyString) in
  match ci_Attachments input with
  | [] =>
      if hasHTML then Ok (composeAlternative env (ci_Text input) (ci_HTML input))
      else Ok (bytes_of (normalizeCRLF (ci_Text input)), "text/plain; charset=utf-8"%string)
  | ats =>
      let first :=
        if hasHTML then
          let '(altBody, altType) := composeAlternative env (ci_Text input) (ci_HTML input) in ([("Content-Type", altType)]%string, altBody)
        else text_part (bytes_of (normalizeCRLF (ci_Text input))) in
      try! parts := write_attachments ats in
      Ok (multipart (ce_mixed env) (first :: parts), ("multipart/mixed; boundary=" ++ ce_mixed env)%string)
  end.

(** ** The message *)

Definition trusted_allowed : list string :=
  CanonicalMIMEHeaderKey <$> [HeaderSubmitted; HeaderTraceID; HeaderCount; HeaderRecipient; HeaderExpires; AutoReplyChain.HeaderSignature].
(** Names in canonical form, allowed and each once, in order; Go's map has no order of its own. *)
Definition writeTrustedHeaders (headers : gmap string string) : result (list ascii) :=
  let fields := (fun kv : string * string => (CanonicalMIMEHeaderKey kv.1, kv.2)) <$> map_to_list headers in
  if existsb (fun kv : string * string => String.eqb kv.1 EmptyString || negb (bool_decide (kv.1 ∈ trusted_allowed))) fields
     || negb (bool_decide (NoDup fields.*1)) then Err (ErrText "invalid_trusted_header")
  else
    let values : gmap string string := list_to_map fields in
    Ok (concat ((fun name => writeHeader name (default EmptyString (values !! name))) <$> merge_sort str_le fields.*1)).

Definition optional (present : bool) (name value : string) : list ascii := if present then writeHeader name value else [].
Definition nonempty {A} (l : list A) : bool := match l with [] => false | _ => true end.
Definition given (s : string) : bool := negb (String.eqb s EmptyString).

(** The headers up to the trusted ones. *)
Definition headers_before (env : ComposeEnv) (input : composeInput) (msgID : string) : list ascii :=
  writeHeader "From" (ci_From input) ++ writeHeader "To" (join ", " (ci_To input))
  ++ optional (nonempty (ci_Cc input)) "Cc" (join ", " (ci_Cc input))
  ++ optional (nonempty (ci_DraftBcc input)) "Bcc" (join ", " (ci_DraftBcc input))
  ++ writeHeader "Subject" (ci_Subject input) ++ writeHeader "Message-ID" msgID ++ writeHeader "Date" (ce_date env)
  ++ writeHeader "MIME-Version" "1.0"
  ++ optional (given (ci_InReplyTo input)) "In-Reply-To" (ci_InReplyTo input)
  ++ optional (nonempty (ci_References input)) "References" (join " " (ci_References input))
  ++ optional (given (ci_OriginalFrom input)) "X-Octo-Original-From" (ci_OriginalFrom input)
  ++ optional (given (ci_SentBy input)) "X-Octo-Sent-By" (ci_SentBy input).

Definition ends_crlf (l : list ascii) : bool := bool_decide (CRLF `suffix_of` l).
Definition compose (env : ComposeEnv) (input : composeInput) (domain : string) : result (list ascii * string) :=
  match (if String.eqb (ci_MessageID input) EmptyString then genMessageID (ce_random env) domain else Some (ci_MessageID input)) with
  | None => Err (ErrText "random")
  | Some msgID =>
      try! trusted := writeTrustedHeaders (ci_TrustedHeaders input) in
      try! bc := composeBody env input in
      let h := headers_before env input msgID ++ trusted ++ writeHeader "Content-Type" bc.2 ++ CRLF ++ bc.1 in
      Ok (if ends_crlf h then h else h ++ CRLF, msgID)
  end.

End Compose.

(** ** Taking a header out *)

(** [bytes.Join]. *)
Fixpoint join_bytes (sep : list ascii) (l : list (list ascii)) : list ascii :=
  match l with [] => [] | [x] => x | x :: l => x ++ sep ++ join_bytes sep l end.

(** The lines kept, given whether the line before was dropped. *)
Section Strip.
Context `{Unicode}.
Fixpoint kept_lines (name : string) (skipping : bool) (lines : list (list ascii)) : list (list ascii) :=
  match lines with
  | [] => []
  | line :: lines =>
      if match line with c :: _ => Ascii.eqb c SP || Ascii.eqb c HT | [] => false end then
        if skipping then kept_lines name skipping lines else line :: kept_lines name skipping lines
      else if match index_byte ":"%char line with Some colon => EqualFold (str_of (take colon line)) name | None => false end
      then kept_lines name true lines
      else line :: kept_lines name false lines
  end.
Definition strip_at (raw separator boundary : list ascii) (end_ : nat) (name : string) : list ascii :=
  join_bytes separator (kept_lines name false (Split (take end_ raw) separator)) ++ boundary ++ drop (end_ + length boundary) raw.
Definition stripRFCHeader (raw : list ascii) (name : string) : list ascii :=
  match index_l (CRLF ++ CRLF) raw with
  | Some end_ => strip_at raw CRLF (CRLF ++ CRLF) end_ name
  | None =>
      match index_l [LF; LF] raw with
      | Some end_ => strip_at raw [LF] [LF; LF] end_ name
      | None => raw
      end
  end.
End Strip.

(** ** Lemmas: text *)

Lemma replace_one c new x l : ReplaceAll (x :: l) [c] new = if Ascii.eqb x c then new ++ ReplaceAll l [c] new else x :: ReplaceAll l [c] new.
Proof.
  unfold ReplaceAll. cbn [replace_l]. unfold starts. destruct (Ascii.eqb_spec x c) as [->|Hx].
  - by rewrite bool_decide_eq_true_2 by (by exists l).
  - rewrite bool_decide_eq_false_2; [done|]. intros [k Hk]. by injection Hk as -> _.
Qed.
Lemma replace_crlf l : ReplaceAll (CR :: LF :: l) CRLF [LF] = LF :: ReplaceAll l CRLF [LF].
Proof. done. Qed.
Lemma replace_crlf_other c l : (c = CR -> match l with d :: _ => d <> LF | [] => True end) -> ReplaceAll (c :: l) CRLF [LF] = c :: ReplaceAll l CRLF [LF].
Proof.
  intros Hc. unfold ReplaceAll. cbn [replace_l]. unfold starts. rewrite bool_decide_eq_false_2; [done|].
  intros [k Hk]. injection Hk as -> Hk. rewrite Hk in Hc. by apply Hc.
Qed.

(** Three replacements do what one pass does: CRLF, CR and LF each become CRLF. *)
Theorem normalize_one_pass s : bytes_of (normalizeCRLF s) = NormalizeEOL (bytes_of s).
Proof.
  unfold normalizeCRLF, has_eol, NormalizeEOL. destruct (existsb is_eol (bytes_of s)); [|done]. cbn [negb]. cbv zeta.
  rewrite bytes_of_str_of. generalize (bytes_of s) as l. intros l.
  induction l as [|b IH|b Hb IH|b IH|c b Hc Hl IH] using eol_ind; [done| | | |].
  - rewrite replace_crlf, replace_one. change (Ascii.eqb LF CR) with false. cbn match. rewrite replace_one, Ascii.eqb_refl, IH. done.
  - rewrite replace_crlf_other by done. rewrite replace_one, Ascii.eqb_refl. cbn [app]. rewrite replace_one, Ascii.eqb_refl, IH, eol_cr_other by done. done.
  - rewrite replace_crlf_other by done. rewrite replace_one. change (Ascii.eqb LF CR) with false. cbn match. rewrite replace_one, Ascii.eqb_refl, IH. done.
  - rewrite replace_crlf_other by done. rewrite replace_one. destruct (Ascii.eqb_spec c CR); [done|]. rewrite replace_one.
    destruct (Ascii.eqb_spec c LF); [done|]. by rewrite IH, eol_other.
Qed.

(** A line: neither CR nor LF. *)
Definition clean_line (l : list ascii) : Prop := Forall (fun c => is_eol c = false) l.
Lemma strip_clean s : clean_line (bytes_of (stripCRLF s)).
Proof.
  unfold stripCRLF, has_eol, clean_line. apply Forall_forall. intros c Hc. destruct (existsb is_eol (bytes_of s)) eqn:He; cbn [negb] in Hc.
  - rewrite bytes_of_str_of in Hc. apply list_elem_of_In, filter_In in Hc as [_ Hc]. by apply negb_true_iff.
  - destruct (is_eol c) eqn:Hec; [|done]. apply list_elem_of_In in Hc. rewrite <- He. symmetry. apply existsb_exists. by exists c.
Qed.

(** A field's line. *)
Definition field_line (f : string * string) : list ascii := bytes_of f.1 ++ bytes_of ": " ++ bytes_of (stripCRLF f.2).
Definition ended (lines : list (list ascii)) : list ascii := concat ((fun l => l ++ CRLF) <$> lines).
Lemma writeHeader_line name value : writeHeader name value = field_line (name, value) ++ CRLF.
Proof. unfold writeHeader, field_line. cbn [fst snd]. by rewrite <- !app_assoc. Qed.
Lemma ended_app a b : ended (a ++ b) = ended a ++ ended b.
Proof. unfold ended. by rewrite fmap_app, concat_app. Qed.
Lemma ended_cons l ls : ended (l :: ls) = (l ++ CRLF) ++ ended ls.
Proof. done. Qed.
Lemma ended_join lines tail : lines <> [] -> ended lines ++ tail = join_bytes CRLF lines ++ CRLF ++ tail.
Proof.
  intros Hne. induction lines as [|l [|l' lines] IH]; [done| |].
  - unfold ended. csimpl. rewrite app_nil_r. by rewrite <- app_assoc.
  - change (ended (l :: l' :: lines)) with ((l ++ CRLF) ++ ended (l' :: lines)). cbn [join_bytes].
    rewrite <- app_assoc, IH by done. by rewrite <- !app_assoc.
Qed.

Lemma is_eol_cr c : is_eol c = false -> c <> CR /\ c <> LF.
Proof. unfold is_eol. destruct (Ascii.eqb_spec c CR), (Ascii.eqb_spec c LF); done. Qed.

Lemma split_clean_line l rest : clean_line l -> Split (l ++ CRLF ++ rest) CRLF = l :: Split rest CRLF.
Proof.
  induction 1 as [|c l Hc Hl IH]; [apply split_crlf|]. cbn [app]. rewrite split_other by (by apply is_eol_cr). by rewrite IH.
Qed.
Lemma split_one_line l : clean_line l -> Split l CRLF = [l].
Proof. induction 1 as [|c l Hc Hl IH]; [done|]. rewrite split_other by (by apply is_eol_cr). by rewrite IH. Qed.
Lemma split_joined lines : lines <> [] -> Forall clean_line lines -> Split (join_bytes CRLF lines) CRLF = lines.
Proof.
  intros Hne Hl. induction Hl as [|l lines Hc Hl IH]; [done|]. cbn [join_bytes]. destruct lines as [|l' lines]; [by apply split_one_line|].
  rewrite split_clean_line by done. f_equal. by apply IH.
Qed.

Lemma index_past l rest : clean_line l -> index_l (CRLF ++ CRLF) (l ++ rest) = (fun n => (length l + n)%nat) <$> index_l (CRLF ++ CRLF) rest.
Proof.
  induction 1 as [|c l Hc Hl IH]; [cbn [app length]; symmetry; etransitivity; [|apply option_fmap_id]; by destruct (index_l _ rest)|]. cbn [app index_l length]. unfold starts.
  rewrite bool_decide_eq_false_2; [|intros [k Hk]; injection Hk as Hk _; by rewrite Hk in Hc]. rewrite IH. by destruct (index_l _ rest).
Qed.
Lemma index_crlf c rest : is_eol c = false -> index_l (CRLF ++ CRLF) (CRLF ++ c :: rest) = (fun n => (2 + n)%nat) <$> index_l (CRLF ++ CRLF) (c :: rest).
Proof.
  intros Hc. apply is_eol_cr in Hc as [Hcr Hlf]. remember (c :: rest) as r eqn:Hr. cbn [app CRLF index_l]. unfold starts.
  rewrite bool_decide_eq_false_2; [|intros [k Hk]; rewrite Hr in Hk; by injection Hk as Hk _].
  rewrite bool_decide_eq_false_2 by (intros [k Hk]; injection Hk as Hk _; done). by destruct (index_l _ r).
Qed.
(** The header ends at its blank line, not before. *)
Lemma index_joined lines body : lines <> [] -> Forall clean_line lines -> Forall (fun l => l <> []) lines ->
  index_l (CRLF ++ CRLF) (join_bytes CRLF lines ++ CRLF ++ CRLF ++ body) = Some (length (join_bytes CRLF lines)).
Proof.
  intros Hne Hl Hn. induction Hl as [|l lines Hc Hl IH]; [done|]. apply Forall_cons in Hn as [_ Hn]. cbn [join_bytes].
  destruct lines as [|l' lines].
  - rewrite index_past by done. change (index_l _ (CRLF ++ CRLF ++ body)) with (Some 0%nat). csimpl. f_equal. lia.
  - rewrite <- !app_assoc, index_past by done. specialize (IH ltac:(done) Hn).
    apply Forall_cons in Hl as [Hc' _]. apply Forall_cons in Hn as [Hn' _]. destruct l' as [|c l']; [done|]. apply Forall_cons in Hc' as [Hc' _].
    assert (Hj : exists r, join_bytes CRLF ((c :: l') :: lines) = c :: r) by (destruct lines; by eexists).
    destruct Hj as [r Hj]. rewrite Hj in *. cbn [app] in *. rewrite index_crlf, IH by done. csimpl. rewrite length_app. csimpl. f_equal; lia.
Qed.

(** ** The fields of a composed message *)

Ltac by_evaluation := apply (bool_decide_unpack _); vm_compute; exact I.

Definition optional_field (present : bool) (name value : string) : list (string * string) := if present then [(name, value)] else [].
Definition header_fields (env : ComposeEnv) (input : composeInput) (msgID : string) : list (string * string) :=
  [("From", ci_From input); ("To", join ", " (ci_To input))]%string
  ++ optional_field (nonempty (ci_Cc input)) "Cc" (join ", " (ci_Cc input))
  ++ optional_field (nonempty (ci_DraftBcc input)) "Bcc" (join ", " (ci_DraftBcc input))
  ++ [("Subject", ci_Subject input); ("Message-ID", msgID); ("Date", ce_date env); ("MIME-Version", "1.0")]%string
  ++ optional_field (given (ci_InReplyTo input)) "In-Reply-To" (ci_InReplyTo input)
  ++ optional_field (nonempty (ci_References input)) "References" (join " " (ci_References input))
  ++ optional_field (given (ci_OriginalFrom input)) "X-Octo-Original-From" (ci_OriginalFrom input)
  ++ optional_field (given (ci_SentBy input)) "X-Octo-Sent-By" (ci_SentBy input).
Definition trusted_fields (headers : gmap string string) : list (string * string) :=
  let fields := (fun kv : string * string => (CanonicalMIMEHeaderKey kv.1, kv.2)) <$> map_to_list headers in
  let values : gmap string string := list_to_map fields in
  (fun name => (name, default EmptyString (values !! name))) <$> merge_sort str_le fields.*1.

Definition plain_names : list string :=
  ["From"; "To"; "Cc"; "Bcc"; "Subject"; "Message-ID"; "Date"; "MIME-Version"; "In-Reply-To"; "References";
   "X-Octo-Original-From"; "X-Octo-Sent-By"; "Content-Type"]%string.
(** A name begins and ends its line's name, and only [Bcc] is read as Bcc. *)
Definition name_ok (n : string) : bool :=
  is_ascii n && negb (existsb (fun c => Ascii.eqb c ":" || is_eol c) (bytes_of n))
  && match bytes_of n with c :: _ => negb (Ascii.eqb c SP || Ascii.eqb c HT) | [] => false end
  && Bool.eqb (String.eqb (ascii_lower n) "bcc") (String.eqb n "Bcc").
Lemma plain_names_ok : forallb name_ok (plain_names ++ trusted_allowed) = true.
Proof. vm_compute. reflexivity. Qed.
Definition known (f : string * string) : Prop := f.1 ∈ plain_names ++ trusted_allowed.
Lemma known_ok f : known f -> name_ok f.1 = true.
Proof. intros Hf. pose proof plain_names_ok as Hall. rewrite forallb_forall in Hall. by apply Hall, list_elem_of_In. Qed.

Lemma optional_line p n v : optional p n v = ended (field_line <$> optional_field p n v).
Proof. destruct p; [|done]. cbn. by rewrite writeHeader_line, app_nil_r. Qed.
Lemma headers_fields env input id : headers_before env input id = ended (field_line <$> header_fields env input id).
Proof.
  unfold headers_before, header_fields. rewrite !fmap_app, !ended_app, <- !optional_line, !writeHeader_line. rewrite !fmap_cons, !ended_cons.
  change (ended (field_line <$> [])) with (@nil ascii). by rewrite !app_nil_r, <- !app_assoc.
Qed.
Lemma optional_known p n v : n ∈ plain_names -> Forall known (optional_field p n v).
Proof. intros Hn. destruct p; [|constructor]. apply Forall_cons_2; [|constructor]. apply elem_of_app. by left. Qed.
Lemma header_fields_known env input id : Forall known (header_fields env input id).
Proof.
  assert (Hin : forall n v, n ∈ plain_names -> known (n, v)) by (intros n v Hn; apply elem_of_app; by left).
  unfold header_fields. repeat apply Forall_app_2; try (apply optional_known; by_evaluation);
    repeat (apply Forall_cons_2; [apply Hin; by_evaluation|]); constructor.
Qed.
Lemma trusted_written headers t : writeTrustedHeaders headers = Ok t ->
  t = ended (field_line <$> trusted_fields headers) /\ Forall (fun f => f.1 ∈ trusted_allowed) (trusted_fields headers).
Proof.
  unfold writeTrustedHeaders. cbv zeta. destruct (_ || _) eqn:Hb; [done|]. intros [= <-]. apply orb_false_elim in Hb as [Hb _]. split.
  - unfold ended, trusted_fields. rewrite <- !list_fmap_compose. f_equal. apply list_fmap_ext. intros i n _. apply writeHeader_line.
  - unfold trusted_fields. apply Forall_fmap, Forall_forall. intros n Hn. cbn. rewrite merge_sort_Permutation in Hn.
    apply list_elem_of_fmap in Hn as (kv & -> & Hkv). destruct (decide (kv.1 ∈ trusted_allowed)) as [|Hno]; [done|].
    exfalso. apply not_true_iff_false in Hb. apply Hb, existsb_exists. exists kv. split; [by apply list_elem_of_In|].
    rewrite bool_decide_eq_false_2 by done. apply orb_true_r.
Qed.

Lemma field_line_clean f : known f -> clean_line (field_line f) /\ field_line f <> [].
Proof.
  intros Hf. apply known_ok in Hf. unfold name_ok in Hf. b2p. split.
  - unfold field_line, clean_line. repeat apply Forall_app_2; [|by repeat constructor|apply strip_clean].
    apply Forall_forall. intros c Hc. destruct (is_eol c) eqn:He; [|done]. apply list_elem_of_In in Hc.
    match goal with Hx : existsb _ _ = false |- _ => rewrite <- Hx; symmetry end. apply existsb_exists. exists c.
    split; [done|]. by rewrite He, orb_true_r.
  - unfold field_line. by destruct (bytes_of f.1).
Qed.

(** A message of lines, blank line and body. *)
Lemma header_block_lines lines body : lines <> [] -> Forall clean_line lines -> Forall (fun l => l <> []) lines ->
  Split (header_block (ended lines ++ CRLF ++ body)) CRLF = lines.
Proof.
  intros Hne Hl Hn. unfold header_block. rewrite ended_join, index_joined, take_app_length by done. by apply split_joined.
Qed.

Lemma ends_last a b : ends_crlf (a ++ CRLF ++ b) = ends_crlf (CRLF ++ b).
Proof.
  apply bool_decide_ext. split.
  - intros Hs. assert (Hb : (CRLF ++ b) `suffix_of` (a ++ CRLF ++ b)) by (by exists a).
    destruct (suffix_weak_total _ _ _ Hs Hb) as [?|Ht]; [done|].
    assert (Heq : CRLF ++ b = CRLF) by (apply suffix_length_eq; [done|rewrite length_app; cbn; lia]). by rewrite Heq.
  - intros Hs. by apply suffix_app_r.
Qed.

Section Composed.
Context `{MimeTypes} `{UnicodePrint}.

Definition all_fields (env : ComposeEnv) (input : composeInput) (id ctype : string) : list (string * string) :=
  header_fields env input id ++ trusted_fields (ci_TrustedHeaders input) ++ [("Content-Type"%string, ctype)].
Definition ending (body : list ascii) : list ascii := if ends_crlf (CRLF ++ body) then [] else CRLF.
Lemma compose_shape env input domain raw id : compose env input domain = Ok (raw, id) ->
  exists body ctype, composeBody env input = Ok (body, ctype)
    /\ raw = ended (field_line <$> all_fields env input id ctype) ++ CRLF ++ body ++ ending body
    /\ Forall (fun f => f.1 ∈ trusted_allowed) (trusted_fields (ci_TrustedHeaders input)).
Proof.
  unfold compose. destruct (if String.eqb _ _ then _ else _) as [msgID|]; [|done]. destruct (writeTrustedHeaders _) as [t|] eqn:Ht; [|done]. apply trusted_written in Ht as [-> Hok].
  destruct (composeBody env input) as [[body ctype]|]; [|done]. cbn [rbind]. cbv zeta. intros E.
  match type of E with Ok ?a = Ok ?b => assert (Ep : a = b) by congruence end. apply pair_equal_spec in Ep as [<- <-]. clear E. exists body, ctype.
  split_and!; [done| |done]. cbn [fst snd]. rewrite writeHeader_line, headers_fields. unfold all_fields, ending.
  rewrite !fmap_app, !ended_app, !fmap_cons, !ended_cons. change (ended (field_line <$> [])) with (@nil ascii). rewrite !app_nil_r.
  set (h := ended _). set (t := ended _). set (c := field_line _ ++ CRLF).
  replace (h ++ t ++ c ++ CRLF ++ body) with ((h ++ t ++ c) ++ CRLF ++ body) by (by rewrite <- !app_assoc). rewrite ends_last.
  destruct (ends_crlf _); rewrite <- ?app_assoc, ?app_nil_r; done.
Qed.
Lemma all_fields_known env input id ctype : Forall (fun f => f.1 ∈ trusted_allowed) (trusted_fields (ci_TrustedHeaders input)) ->
  Forall known (all_fields env input id ctype).
Proof.
  intros Ht. unfold all_fields. apply Forall_app_2; [apply header_fields_known|apply Forall_app_2].
  - eapply Forall_impl; [exact Ht|]. intros f Hf. apply elem_of_app. by right.
  - apply Forall_cons_2; [|constructor]. apply elem_of_app. left. by_evaluation.
Qed.
Lemma known_lines fs : Forall known fs -> Forall clean_line (field_line <$> fs) /\ Forall (fun l => l <> []) (field_line <$> fs).
Proof. intros Hf. split; apply Forall_fmap; (eapply Forall_impl; [exact Hf|]); intros f Hk; by apply field_line_clean in Hk as []. Qed.

(** A hostile value makes no header: whatever the request says, the header of the composed
    message is these fields, one line each, in this order; only the automation's own
    names may come after them. *)
Theorem composed_headers env input domain raw id (Hc : compose env input domain = Ok (raw, id)) :
  exists ctype, Split (header_block raw) CRLF = field_line <$> all_fields env input id ctype
    /\ Forall (fun f => f.1 ∈ trusted_allowed) (trusted_fields (ci_TrustedHeaders input)).
Proof.
  apply compose_shape in Hc as (body & ctype & _ & -> & Ht). exists ctype. split; [|done].
  destruct (known_lines _ (all_fields_known env input id ctype Ht)). by apply header_block_lines.
Qed.

(** The message ends with CRLF, as SMTP's DATA requires. *)
Theorem composed_ends env input domain raw id (Hc : compose env input domain = Ok (raw, id)) : ends_crlf raw = true.
Proof.
  apply compose_shape in Hc as (body & ctype & _ & -> & _). rewrite ends_last. unfold ending.
  destruct (ends_crlf (CRLF ++ body)) eqn:He; [by rewrite app_nil_r|].
  apply bool_decide_eq_true. exists (CRLF ++ body). by rewrite <- app_assoc.
Qed.

(** *** Bcc *)
Context `{UnicodeLaws}.

Definition with_bcc (bcc : list string) (input : composeInput) : composeInput :=
  mkInput (ci_From input) (ci_To input) (ci_Cc input) bcc (ci_Subject input) (ci_Text input) (ci_HTML input) (ci_Attachments input)
    (ci_MessageID input) (ci_InReplyTo input) (ci_References input) (ci_OriginalFrom input) (ci_SentBy input) (ci_TrustedHeaders input).

Definition not_bcc (f : string * string) : bool := negb (String.eqb f.1 "Bcc").
Lemma kept_one f skipping lines : known f ->
  kept_lines "Bcc" skipping (field_line f :: lines)
    = if not_bcc f then field_line f :: kept_lines "Bcc" false lines else kept_lines "Bcc" true lines.
Proof.
  intros Hf. apply known_ok in Hf. unfold name_ok in Hf. b2p.
  match goal with Hx : match bytes_of _ with _ => _ end = true |- _ => rename Hx into Hfirst end.
  match goal with Hx : existsb _ _ = false |- _ => rename Hx into Hcol end.
  match goal with Hx : Bool.eqb _ _ = true |- _ => apply eqb_prop in Hx as Hname end.
  assert (Hi : index_byte ":"%char (field_line f) = Some (length (bytes_of f.1))).
  { unfold field_line. cbn [bytes_of list_ascii_of_string app]. apply index_byte_cut. intros Hin. apply list_elem_of_In in Hin.
    rewrite <- not_true_iff_false in Hcol. apply Hcol, existsb_exists. exists ":"%char. by split. }
  assert (Ht : str_of (take (length (bytes_of f.1)) (field_line f)) = f.1).
  { unfold field_line. by rewrite take_app_length, str_of_bytes_of. }
  cbn [kept_lines]. rewrite Hi, Ht, EqualFold_ascii by done. change (ascii_lower "Bcc") with "bcc"%string. rewrite Hname. unfold not_bcc.
  replace (match field_line f with c :: _ => Ascii.eqb c SP || Ascii.eqb c HT | [] => false end) with false.
  - by destruct (String.eqb f.1 "Bcc").
  - unfold field_line. destruct (bytes_of f.1) as [|c n]; [done|]. cbn [app]. by apply negb_true_iff in Hfirst.
Qed.
Lemma kept_fields fs skipping : Forall known fs ->
  kept_lines "Bcc" skipping (field_line <$> fs) = field_line <$> List.filter not_bcc fs.
Proof.
  intros Hf. revert skipping. induction Hf as [|f fs Hk Hf IH]; intros skipping; [done|]. rewrite fmap_cons, kept_one by done. cbn [List.filter].
  destruct (not_bcc f); rewrite IH; done.
Qed.

Lemma filter_trusted fs : Forall (fun f : string * string => f.1 ∈ trusted_allowed) fs -> List.filter not_bcc fs = fs.
Proof.
  assert (Hok : forallb (fun n => negb (String.eqb n "Bcc")) trusted_allowed = true) by (vm_compute; reflexivity). rewrite forallb_forall in Hok.
  induction 1 as [|f fs Hf _ IH]; [done|]. cbn [List.filter]. unfold not_bcc at 1. by rewrite Hok, IH by (by apply list_elem_of_In).
Qed.
Lemma filter_fields env input id ctype : Forall (fun f => f.1 ∈ trusted_allowed) (trusted_fields (ci_TrustedHeaders input)) ->
  List.filter not_bcc (all_fields env input id ctype) = all_fields env (with_bcc [] input) id ctype.
Proof.
  intros Ht. unfold all_fields, header_fields. rewrite !List.filter_app, (filter_trusted (trusted_fields _) Ht). cbn [with_bcc ci_TrustedHeaders].
  unfold optional_field. cbn [with_bcc ci_Cc ci_DraftBcc ci_InReplyTo ci_References ci_OriginalFrom ci_SentBy nonempty].
  destruct (nonempty (ci_Cc input)), (nonempty (ci_DraftBcc input)), (given (ci_InReplyTo input)), (nonempty (ci_References input)),
    (given (ci_OriginalFrom input)), (given (ci_SentBy input)); reflexivity.
Qed.

Lemma compose_bcc env input bcc domain raw id : compose env input domain = Ok (raw, id) ->
  exists raw', compose env (with_bcc bcc input) domain = Ok (raw', id).
Proof.
  unfold compose. cbn [with_bcc ci_MessageID ci_TrustedHeaders]. destruct (if String.eqb _ _ then _ else _) as [msgID|]; [|done].
  destruct (writeTrustedHeaders _) as [t|]; [|done]. cbn [rbind]. change (composeBody env (with_bcc bcc input)) with (composeBody env input).
  destruct (composeBody env input) as [bc|]; [|done]. cbn [rbind]. cbv zeta. intros E.
  match type of E with Ok ?a = Ok ?b => assert (Ep : a = b) by congruence end. apply pair_equal_spec in Ep as [_ <-]. by eexists.
Qed.

(** [C40] Bcc stays in the draft: the draft's bytes without their Bcc header are the bytes the
    message would have been composed of without Bcc recipients, all else the same. *)
Theorem bcc_stripped env input domain raw id (Hc : compose env input domain = Ok (raw, id)) :
  compose env (with_bcc [] input) domain = Ok (stripRFCHeader raw "Bcc", id).
Proof.
  destruct (compose_bcc _ _ [] _ _ _ Hc) as [raw' Hc']. rewrite Hc'. do 2 f_equal.
  apply compose_shape in Hc as (body & ctype & Hb & -> & Ht). apply compose_shape in Hc' as (body' & ctype' & Hb' & -> & _).
  change (composeBody env (with_bcc [] input)) with (composeBody env input) in Hb'. rewrite Hb in Hb'.
  assert (Ep : (body, ctype) = (body', ctype')) by congruence. apply pair_equal_spec in Ep as [<- <-].
  pose proof (all_fields_known env input id ctype Ht) as Hk. destruct (known_lines _ Hk) as [Hl Hn].
  assert (Hk' : field_line <$> all_fields env input id ctype <> []) by done.
  unfold stripRFCHeader. rewrite !ended_join, index_joined by done. unfold strip_at. rewrite take_app_length, split_joined, kept_fields, filter_fields by done.
  f_equal. rewrite <- app_assoc. do 2 f_equal. rewrite (app_assoc CRLF CRLF), drop_app_ge by lia.
  rewrite Nat.add_comm, Nat.add_sub. by rewrite drop_app_length.
Qed.
End Composed.

(** *** Attachments *)

Lemma skip_eol_app a b : skip_eol (a ++ b) = skip_eol a ++ skip_eol b.
Proof. unfold skip_eol. apply filter_app. Qed.
Lemma base64_lines_skip fuel l : (length l <= fuel)%nat -> skip_eol (codes (base64_lines fuel l)) = skip_eol (codes l).
Proof.
  revert l. induction fuel as [|fuel IH]; intros [|c l] Hf; cbn [length] in Hf; [done|lia|done|]. cbn [base64_lines].
  unfold codes. rewrite !fmap_app, !skip_eol_app. fold (codes (base64_lines fuel (drop 76 (c :: l)))).
  rewrite IH by (rewrite length_drop; cbn [length]; lia). change (skip_eol (byte_of <$> CRLF)) with (@nil Z). cbn [app].
  unfold codes. rewrite <- skip_eol_app, <- fmap_app, take_drop. done.
Qed.

(** An attachment arrives as it was given: what the recipient decodes of the part's lines is
    the content, and no value of the part's own header has a line break. *)
Theorem attachment_arrives `{MimeTypes} `{UnicodePrint} a fields content (Hw : writeAttachment a = Ok (fields, content)) :
  Std_Decode (str_of content) = Std_Decode (at_Content a) /\ Forall (fun f : string * string => clean_line (bytes_of f.2)) fields.
Proof.
  unfold writeAttachment in Hw. destruct (Std_Decode (at_Content a)) as [raw|] eqn:Hd; [|done]. cbv zeta in Hw.
  match type of Hw with Ok ?a = Ok ?b => assert (Ep : a = b) by congruence end. apply pair_equal_spec in Ep as [<- <-]. split.
  - rewrite <- (Std_roundtrip raw). unfold Std_Decode. rewrite bytes_of_str_of, base64_lines_skip by lia. done.
  - repeat (apply Forall_cons_2; [first [apply strip_clean|by repeat constructor]|]). constructor.
Qed.

(** ** Instances *)

#[local] Instance co_mime : MimeTypes := { TypeByExtension := fun e => if String.eqb e ".txt" then "text/plain; charset=utf-8" else EmptyString }.
#[local] Instance co_print : UnicodePrint := { unicode_print := fun _ => true }.
#[local] Instance co_unicode : Unicode := { unicode_lower := fun r => r; EqualFold := fun s t => String.eqb (ascii_lower s) (ascii_lower t) }.
#[local] Instance co_laws : UnicodeLaws.
Proof. constructor. intros s t _ _. reflexivity. Qed.

Definition co_env : ComposeEnv := mkEnv (Some (bytes_of "random")) "Mon, 02 Jan 2006 15:04:05 +0000" "b1" "b2".
Definition co_attachment : attachment := mkAttachment ("a" ++ str_of CRLF ++ "X: y.txt") EmptyString "aGVsbG8=".
Definition co_input : composeInput :=
  mkInput "bot@x.example" ["a@y.example"; "b@y.example"] [] ["secret@z.example"] ("Hello" ++ str_of CRLF ++ "Bcc: evil@z.example")
    ("one" ++ str_of [LF] ++ "two") EmptyString [co_attachment] EmptyString EmptyString [] EmptyString EmptyString
    {[ "auto-submitted" := "auto-replied" ]}.
Definition co_raw : list ascii := match compose co_env co_input "x.example" with Ok (raw, _) => raw | Err _ => [] end.
Definition co_id : string := match compose co_env co_input "x.example" with Ok (_, id) => id | Err _ => EmptyString end.
Lemma co_composed : compose co_env co_input "x.example" = Ok (co_raw, co_id).
Proof. vm_compute. reflexivity. Qed.

Example co_header :
  Split (header_block co_raw) CRLF = bytes_of <$>
    ["From: bot@x.example"; "To: a@y.example, b@y.example"; "Bcc: secret@z.example"; "Subject: HelloBcc: evil@z.example";
     "Message-ID: <cmFuZG9t@x.example>"; "Date: Mon, 02 Jan 2006 15:04:05 +0000"; "MIME-Version: 1.0"; "Auto-Submitted: auto-replied";
     "Content-Type: multipart/mixed; boundary=b1"]%string.
Proof. vm_compute. reflexivity. Qed.

Lemma composed_headers_witness :
  exists ctype, Split (header_block co_raw) CRLF = field_line <$> all_fields co_env co_input co_id ctype
    /\ Forall (fun f => f.1 ∈ trusted_allowed) (trusted_fields (ci_TrustedHeaders co_input)).
Proof. exact (composed_headers co_env co_input "x.example" co_raw co_id co_composed). Defined.

Lemma composed_ends_witness : ends_crlf co_raw = true.
Proof. exact (composed_ends co_env co_input "x.example" co_raw co_id co_composed). Defined.

Lemma bcc_stripped_witness :
  compose co_env (with_bcc [] co_input) "x.example" = Ok (stripRFCHeader co_raw "Bcc", co_id).
Proof. exact (bcc_stripped co_env co_input "x.example" co_raw co_id co_composed). Defined.

Definition co_part : list (string * string) * list ascii := match writeAttachment co_attachment with Ok p => p | Err _ => ([], []) end.
Lemma attachment_arrives_witness : Std_Decode (str_of co_part.2) = Some (bytes_of "hello").
Proof.
  assert (Hw : writeAttachment co_attachment = Ok (co_part.1, co_part.2)) by (vm_compute; reflexivity).
  exact (eq_trans (proj1 (attachment_arrives co_attachment co_part.1 co_part.2 Hw)) eq_refl).
Defined.
