(* ===== verification/RuleStore.v ===== *)
(** * The owner's forwarding rules (storage/postgres/mail_rules.go)

    The tables of schema/13_mail_rules.sql with the accounts and addresses they refer to,
    and the operations of a mailbox's owner on its rules.  An identity column takes its
    values from one sequence, so rows are keyed by it; a rule operation is one
    transaction under the account's advisory lock, so it is one step here, whose commit
    may fail with the transaction applied or not.  Times are Unix seconds. *)

From S2P Require Import Prelude GoStrings Headers Smtp Submit MailRules.

Local Open Scope go_scope.

(** ** Tables *)

Record MailRuleInput := mkInput {
  in_Name : string; in_Enabled : bool; in_Priority : Z; in_MatchMode : string; in_Conditions : list MailRuleCondition;
  in_MatchFrom : string; in_MatchSubject : string; in_ForwardTargets : list string }.

Record MailRulePatch := mkPatch {
  pa_Name : option string; pa_Enabled : option bool; pa_Priority : option Z; pa_MatchMode : option string;
  pa_Conditions : option (list MailRuleCondition); pa_MatchFrom : option string; pa_MatchSubject : option string;
  pa_ForwardTargets : option (list string) }.

(** A row of mail_rules. *)
Record RuleRow := mkRuleRow {
  rr_account : Z; rr_input : MailRuleInput; rr_created_by : Z; rr_created_at : Z; rr_updated_at : Z }.

(** A row of mail_rule_executions. *)
Record targetResult := mkTargetResult { tr_Address : string; tr_Status : string; tr_QueueID : Z }.
Record ExecRow := mkExecRow {
  ex_account : Z; ex_rule : Z; ex_email : Z; ex_message_id : string; ex_status : string; ex_results : list targetResult;
  ex_hop : Z; ex_error : string; ex_created_at : Z; ex_completed_at : option Z }.

Record AccountRow := mkAccountRow { ac_tenant : Z; ac_owner : Z; ac_disabled : bool }.
Record AddressRow := mkAddressRow { ad_tenant : Z; ad_domain : Z; ad_account : Z; ad_localpart : string; ad_alias : bool }.

Record RDB := mkRDB {
  rd_accounts : gmap Z AccountRow; rd_domains : gmap Z (Z * string); rd_addresses : list AddressRow;   (* by id *)
  rd_rules : gmap Z RuleRow; rd_next_rule : Z; rd_execs : gmap Z ExecRow; rd_next_exec : Z }.
Definition rd_set_rules v n d := mkRDB (rd_accounts d) (rd_domains d) (rd_addresses d) v n (rd_execs d) (rd_next_exec d).
Definition rd_set_execs v n d := mkRDB (rd_accounts d) (rd_domains d) (rd_addresses d) (rd_rules d) (rd_next_rule d) v n.

Definition ErrMailboxNotFound : err := ErrText "directory: agent mailbox not found".
Definition ErrMailRuleNotFound : err := ErrText "directory: mail rule not found".
Definition ErrMailRuleInvalid : err := ErrText "directory: invalid mail rule".
Definition ErrMailRuleLimit : err := ErrText "directory: enabled mail rule limit reached".

Definition maxEnabledMailRules : Z := 50.

(** [smtp.Address.Pack(false)] and [message.ParseAddressList]. *)
Class AddressForms := { Pack : SmtpAddress -> string; ParseAddressList : string -> option (list (string * string)) }.

Section Store.
Context `{AddressParser} `{AddressForms}.

(** ** Input *)

Definition validMailRuleCondition (c : MailRuleCondition) : bool :=
  existsb (String.eqb (mc_Field c)) ["from"; "to"; "subject"; "body"; "subject_or_body"]
  && existsb (String.eqb (mc_Operator c)) ["contains"; "not_contains"; "equals"]
  && negb (String.eqb (mc_Value c) EmptyString).

Definition legacyMailRuleConditions (matchFrom matchSubject : string) : list MailRuleCondition :=
  (if String.eqb (trim_space matchFrom) EmptyString then [] else [mkCond "from" "equals" matchFrom])
    ++ (if String.eqb (trim_space matchSubject) EmptyString then [] else [mkCond "subject" "contains" matchSubject]).

(** The first condition of the field is replaced, the others of the field go. *)
Fixpoint replace_loop (replaced : bool) (field operator value : string) (l : list MailRuleCondition) : list MailRuleCondition :=
  match l with
  | [] => if negb replaced && negb (String.eqb value EmptyString) then [mkCond field operator value] else []
  | c :: l =>
      if negb (String.eqb (mc_Field c) field) then c :: replace_loop replaced field operator value l
      else (if negb replaced && negb (String.eqb value EmptyString) then [mkCond field operator value] else [])
             ++ replace_loop true field operator value l
  end.
Definition replaceLegacyMailRuleCondition (conditions : list MailRuleCondition) (field operator value : string) : list MailRuleCondition :=
  replace_loop false field operator (trim_space value) conditions.

Definition parseMailRuleAddress (value : string) : option SmtpAddress :=
  match ParseAddress value with
  | Some address => Some address
  | None =>
      match ParseAddressList value with
      | Some [(user, host)] => ParseAddress (user ++ "@" ++ host)%string
      | _ => None
      end
  end.

(** [len([]rune(s))]. *)
Definition rune_count (s : string) : Z := Z.of_nat (length (segs (bytes_of s))).

Fixpoint normalize_conditions (seen : list string) (l : list MailRuleCondition) : option (list MailRuleCondition) :=
  match l with
  | [] => Some []
  | c :: l =>
      let c := mkCond (trim_space (mc_Field c)) (trim_space (mc_Operator c)) (trim_space (mc_Value c)) in
      if negb (validMailRuleCondition c) || (500 <? rune_count (mc_Value c)) then None
      else
        match (if String.eqb (mc_Field c) "from" && String.eqb (mc_Operator c) "equals"
               then match parseMailRuleAddress (mc_Value c) with
                    | None => None
                    | Some address => Some (mkCond (mc_Field c) (mc_Operator c) (Pack address))
                    end
               else Some c) with
        | None => None
        | Some c =>
            if bool_decide (mc_Field c ∈ seen) then None
            else cons c <$> normalize_conditions (mc_Field c :: seen) l
        end
  end.

Fixpoint normalize_targets (seen : list string) (l : list string) : option (list string) :=
  match l with
  | [] => Some []
  | raw :: l =>
      match ParseAddress (trim_space raw) with
      | None => None
      | Some address =>
          let normalized := Pack address in
          if bool_decide (normalized ∈ seen) then normalize_targets seen l
          else cons normalized <$> normalize_targets (normalized :: seen) l
      end
  end.

Definition normalizeMailRuleInput (i : MailRuleInput) : option MailRuleInput :=
  let name := trim_space (in_Name i) in
  let matchFrom := trim_space (in_MatchFrom i) in
  let matchSubject := trim_space (in_MatchSubject i) in
  let mode := trim_space (in_MatchMode i) in
  let mode := if String.eqb mode EmptyString then "all"%string else mode in
  if String.eqb name EmptyString || (100 <? String.length name)%nat || (in_Priority i <? -1000) || (1000 <? in_Priority i)
     || (negb (String.eqb mode "all") && negb (String.eqb mode "any")) then None
  else
    let conditions := match in_Conditions i with [] => legacyMailRuleConditions matchFrom matchSubject | l => l end in
    if bool_decide (conditions = []) || (5 <? length conditions)%nat then None
    else
      match normalize_conditions [] conditions with
      | None => None
      | Some conditions =>
          if (500 <? String.length matchSubject)%nat then None
          else
            match (if String.eqb matchFrom EmptyString then Some EmptyString else Pack <$> ParseAddress matchFrom) with
            | None => None
            | Some matchFrom =>
                if bool_decide (in_ForwardTargets i = []) || (5 <? length (in_ForwardTargets i))%nat then None
                else
                  match normalize_targets [] (in_ForwardTargets i) with
                  | None | Some [] => None
                  | Some targets =>
                      Some (mkInput name (in_Enabled i) (in_Priority i) mode conditions matchFrom matchSubject targets)
                  end
            end
      end.

(** ** The statements *)

(** What a row stores of an input: texts are valid UTF-8 without NUL, and JSON replaces
    what is not valid UTF-8. *)
Definition stored_input (i : MailRuleInput) : option MailRuleInput :=
  if text_ok (in_Name i) && text_ok (in_MatchMode i) && text_ok (in_MatchFrom i) && text_ok (in_MatchSubject i)
     && forallb text_ok (in_ForwardTargets i) && forallb (fun c => negb (has_nul (mc_Value c))) (in_Conditions i)
  then Some (mkInput (in_Name i) (in_Enabled i) (in_Priority i) (in_MatchMode i)
               ((fun c => mkCond (mc_Field c) (mc_Operator c) (coerce_utf8 (mc_Value c))) <$> in_Conditions i)
               (in_MatchFrom i) (in_MatchSubject i) (in_ForwardTargets i))
  else None.

Definition owned (d : RDB) (tenantID ownerPrincipalID accountID : Z) : bool :=
  match rd_accounts d !! accountID with
  | Some a => (ac_tenant a =? tenantID) && (ac_owner a =? ownerPrincipalID) && negb (ac_disabled a)
  | None => false
  end.

Definition counts (accountID : Z) (r : RuleRow) : Z := if (rr_account r =? accountID) && in_Enabled (rr_input r) then 1 else 0.
Definition enabled_count (accountID : Z) (d : RDB) : Z := agg (counts accountID) (rd_rules d).

Definition rule_of (d : RDB) (accountID ruleID : Z) : option RuleRow :=
  match rd_rules d !! ruleID with
  | Some r => if rr_account r =? accountID then Some r else None
  | None => None
  end.

Definition committed {A} (co : commit) (a : A) (d d' : RDB) : result A * RDB :=
  match co with
  | Committed => (Ok a, d')
  | CommitError applied => (Err (ErrText "commit mail rule"), if applied then d' else d)
  end.

(** ** The operations *)

Section Operations.
Variables (tenantID : Z).

Definition requireOwnedAgentMailbox (ownerPrincipalID accountID : Z) (d : RDB) : result unit :=
  if owned d tenantID ownerPrincipalID accountID then Ok tt else Err ErrMailboxNotFound.

(** [ORDER BY priority DESC,id] *)
Definition rule_before (x y : Z * RuleRow) : Prop :=
  in_Priority (rr_input y.2) < in_Priority (rr_input x.2) \/ in_Priority (rr_input y.2) = in_Priority (rr_input x.2) /\ x.1 <= y.1.
#[export] Instance rule_before_dec : RelDecision rule_before.
Proof. intros x y. unfold rule_before. apply _. Defined.
Definition rules_of (accountID : Z) (d : RDB) : list (Z * RuleRow) :=
  merge_sort rule_before (filter (fun x : Z * RuleRow => rr_account x.2 = accountID) (map_to_list (rd_rules d))).

Definition AgentMailRules (ownerPrincipalID accountID : Z) (d : RDB) : result (list (Z * RuleRow)) :=
  try! _ := requireOwnedAgentMailbox ownerPrincipalID accountID d in
  Ok (rules_of accountID d).

(** [ORDER BY created_at DESC,id DESC] *)
Definition exec_before (x y : Z * ExecRow) : Prop :=
  ex_created_at y.2 < ex_created_at x.2 \/ ex_created_at y.2 = ex_created_at x.2 /\ y.1 <= x.1.
#[export] Instance exec_before_dec : RelDecision exec_before.
Proof. intros x y. unfold exec_before. apply _. Defined.
Definition AgentMailRuleExecutions (ownerPrincipalID accountID limit : Z) (d : RDB) : result (list (Z * ExecRow)) :=
  try! _ := requireOwnedAgentMailbox ownerPrincipalID accountID d in
  let limit := if (limit <=? 0) || (100 <? limit) then 50 else limit in
  Ok (take (Z.to_nat limit)
        (merge_sort exec_before (filter (fun x : Z * ExecRow => ex_account x.2 = accountID) (map_to_list (rd_execs d))))).

Definition CreateAgentMailRule (now : Z) (co : commit) (ownerPrincipalID accountID : Z) (input : MailRuleInput) (d : RDB)
  : result (Z * RuleRow) * RDB :=
  match normalizeMailRuleInput input with
  | None => (Err ErrMailRuleInvalid, d)
  | Some input =>
      if negb (owned d tenantID ownerPrincipalID accountID) then (Err ErrMailboxNotFound, d)
      else if in_Enabled input && (maxEnabledMailRules <=? enabled_count accountID d) then (Err ErrMailRuleLimit, d)
      else
        match stored_input input, rd_rules d !! rd_next_rule d with
        | Some input, None =>
            let id := rd_next_rule d in
            let row := mkRuleRow accountID input ownerPrincipalID now now in
            committed co (id, row) d (rd_set_rules (<[id := row]> (rd_rules d)) (id + 1) d)
        | _, _ => (Err (ErrText "create mail rule"), d)
        end
  end.

Definition patched (p : MailRulePatch) (current : MailRuleInput) : MailRuleInput :=
  let conditions := match in_Conditions current with
                    | [] => legacyMailRuleConditions (in_MatchFrom current) (in_MatchSubject current)
                    | l => l
                    end in
  let conditions := default conditions (pa_Conditions p) in
  let conditions := match pa_MatchFrom p, pa_Conditions p with
                    | Some v, None => replaceLegacyMailRuleCondition conditions "from" "equals" v
                    | _, _ => conditions
                    end in
  let conditions := match pa_MatchSubject p, pa_Conditions p with
                    | Some v, None => replaceLegacyMailRuleCondition conditions "subject" "contains" v
                    | _, _ => conditions
                    end in
  mkInput (default (in_Name current) (pa_Name p)) (default (in_Enabled current) (pa_Enabled p))
    (default (in_Priority current) (pa_Priority p)) (default (in_MatchMode current) (pa_MatchMode p)) conditions
    (default (in_MatchFrom current) (pa_MatchFrom p)) (default (in_MatchSubject current) (pa_MatchSubject p))
    (default (in_ForwardTargets current) (pa_ForwardTargets p)).

Definition UpdateAgentMailRule (now : Z) (co : commit) (ownerPrincipalID accountID ruleID : Z) (patch : MailRulePatch) (d : RDB)
  : result (Z * RuleRow) * RDB :=
  if negb (owned d tenantID ownerPrincipalID accountID) then (Err ErrMailboxNotFound, d)
  else
    match rule_of d accountID ruleID with
    | None => (Err ErrMailRuleNotFound, d)
    | Some current =>
        match normalizeMailRuleInput (patched patch (rr_input current)) with
        | None => (Err ErrMailRuleInvalid, d)
        | Some input =>
            if in_Enabled input && negb (in_Enabled (rr_input current)) && (maxEnabledMailRules <=? enabled_count accountID d)
            then (Err ErrMailRuleLimit, d)
            else
              match stored_input input with
              | None => (Err (ErrText "update mail rule"), d)
              | Some input =>
                  let row := mkRuleRow accountID input (rr_created_by current) (rr_created_at current) now in
                  committed co (ruleID, row) d (rd_set_rules (<[ruleID := row]> (rd_rules d)) (rd_next_rule d) d)
              end
        end
    end.

Definition DeleteAgentMailRule (co : commit) (ownerPrincipalID accountID ruleID : Z) (d : RDB) : result unit * RDB :=
  if negb (owned d tenantID ownerPrincipalID accountID) then (Err ErrMailboxNotFound, d)
  else
    match rule_of d accountID ruleID with
    | None => (Err ErrMailRuleNotFound, d)
    | Some _ => committed co tt d (rd_set_rules (delete ruleID (rd_rules d)) (rd_next_rule d) d)
    end.

End Operations.
End Store.

(** ** The stored rules stay within bounds, and only their owner changes them *)


Section Spec.
Context `{AddressParser} `{AddressForms}.

(** ** Well-formed rules *)

Definition wf_conditions (l : list MailRuleCondition) : Prop :=
  l <> [] /\ (length l <= 5)%nat /\ NoDup (mc_Field <$> l) /\
  Forall (fun c => mc_Field c ∈ ["from"; "to"; "subject"; "body"; "subject_or_body"]%string /\
                   mc_Operator c ∈ ["contains"; "not_contains"; "equals"]%string) l.
(** Each target is an address in its canonical form. *)
Definition wf_targets (l : list string) : Prop :=
  l <> [] /\ (length l <= 5)%nat /\ NoDup l /\ Forall (fun t => exists s a, ParseAddress s = Some a /\ t = Pack a) l.
Definition wf_input (i : MailRuleInput) : Prop :=
  in_Name i <> EmptyString /\ (String.length (in_Name i) <= 100)%nat /\ -1000 <= in_Priority i <= 1000 /\
  in_MatchMode i ∈ ["all"; "any"]%string /\ wf_conditions (in_Conditions i) /\ wf_targets (in_ForwardTargets i).

Record rules_wf (d : RDB) : Prop := {
  rw_rule : forall id r, rd_rules d !! id = Some r -> wf_input (rr_input r);
  rw_fresh : forall id r, rd_rules d !! id = Some r -> id < rd_next_rule d;
  rw_limit : forall a, enabled_count a d <= maxEnabledMailRules }.

(** ** Normalising *)

Lemma existsb_elem (s : string) l : existsb (String.eqb s) l = true -> s ∈ l.
Proof. intros Hs. apply existsb_exists in Hs as (x & Hx & ->%String.eqb_eq). by apply list_elem_of_In. Qed.

Lemma normalize_conditions_spec seen l l' : normalize_conditions seen l = Some l' ->
  length l' = length l /\ NoDup (mc_Field <$> l') /\
  Forall (fun c => mc_Field c ∉ seen /\ mc_Field c ∈ ["from"; "to"; "subject"; "body"; "subject_or_body"]%string /\
                   mc_Operator c ∈ ["contains"; "not_contains"; "equals"]%string) l'.
Proof.
  revert seen l'. induction l as [|c l IH]; intros seen l'; cbn [normalize_conditions]; [intros [= <-]; repeat constructor|].
  cbv zeta. set (c1 := mkCond _ _ _). destruct (negb (validMailRuleCondition c1) || _) eqn:Ev; [done|].
  apply orb_false_iff in Ev as [Ev _]. apply negb_false_iff in Ev. unfold validMailRuleCondition in Ev.
  apply andb_true_iff in Ev as [[Ef Eo]%andb_true_iff _]. apply existsb_elem in Ef, Eo.
  assert (Hc : forall o, (if String.eqb (mc_Field c1) "from" && String.eqb (mc_Operator c1) "equals"
               then match parseMailRuleAddress (mc_Value c1) with
                    | None => None
                    | Some address => Some (mkCond (mc_Field c1) (mc_Operator c1) (Pack address))
                    end
               else Some c1) = Some o -> mc_Field o = mc_Field c1 /\ mc_Operator o = mc_Operator c1).
  { intros o. destruct (_ && _); [|by intros [= <-]]. destruct (parseMailRuleAddress _); [by intros [= <-]|done]. }
  destruct (if String.eqb (mc_Field c1) "from" && _ then _ else _) as [c2|]; [|done]. destruct (Hc c2 eq_refl) as [Hf Ho].
  destruct (bool_decide_reflect (mc_Field c2 ∈ seen)) as [|Hnin]; [done|].
  destruct (normalize_conditions (mc_Field c2 :: seen) l) as [l2|] eqn:El; [|done]. intros [= <-]. apply IH in El as (IH1 & IH2 & IH3).
  split; [simpl; lia|]. split.
  - csimpl. constructor; [|done]. intros (c3 & Heq & Hin)%list_elem_of_fmap. apply (proj1 (Forall_forall _ _) IH3) in Hin as (Hin & _).
    apply Hin. rewrite <- Heq. left.
  - constructor; [rewrite Hf in *; rewrite Ho; done|]. eapply Forall_impl; [exact IH3|]. simpl. intros c3 (C1 & C2 & C3). split; [|done].
    intros Hin. apply C1. by right.
Qed.

Lemma normalize_targets_spec seen l l' : normalize_targets seen l = Some l' ->
  (length l' <= length l)%nat /\ NoDup l' /\ Forall (fun t => t ∉ seen /\ exists s a, ParseAddress s = Some a /\ t = Pack a) l'.
Proof.
  revert seen l'. induction l as [|t l IH]; intros seen l'; cbn [normalize_targets]; [intros [= <-]; repeat constructor|].
  destruct (ParseAddress (trim_space t)) as [a|] eqn:Ea; [|done]. cbv zeta. destruct (bool_decide_reflect (Pack a ∈ seen)) as [|Hnin].
  { intros Hl. apply IH in Hl as (? & ? & ?). split; [simpl; lia|done]. }
  destruct (normalize_targets (Pack a :: seen) l) as [l2|] eqn:El; [|done]. intros [= <-]. apply IH in El as (IH1 & IH2 & IH3).
  split; [simpl; lia|]. split.
  - constructor; [|done]. intros Hin. apply (proj1 (Forall_forall _ _) IH3) in Hin as (Hin & _). apply Hin. left.
  - constructor; [split; [done|]; by exists (trim_space t), a|]. eapply Forall_impl; [exact IH3|]. simpl. intros s (S1 & S2). split; [|done].
    intros Hin. apply S1. by right.
Qed.

Lemma normalize_spec i i' : normalizeMailRuleInput i = Some i' -> wf_input i' /\ in_Enabled i' = in_Enabled i.
Proof.
  unfold normalizeMailRuleInput. cbv zeta. set (mode := if String.eqb _ _ then _ else _). set (conds := match in_Conditions i with [] => _ | _ => _ end).
  destruct (_ || _ || _ || _ || _) eqn:E1; [done|]. destruct (bool_decide (conds = []) || _) eqn:E2; [done|].
  destruct (normalize_conditions [] conds) as [cs|] eqn:Ec; [|done].
  destruct (500 <? String.length (trim_space (in_MatchSubject i)))%nat; [done|].
  destruct (if String.eqb (trim_space (in_MatchFrom i)) _ then _ else _) as [mf|]; [|done]. destruct (bool_decide (in_ForwardTargets i = []) || _) eqn:E3; [done|].
  destruct (normalize_targets [] (in_ForwardTargets i)) as [[|t ts]|] eqn:Et; [done| |done]. intros [= <-]. split; [|done].
  apply normalize_conditions_spec in Ec as (C1 & C2 & C3). apply normalize_targets_spec in Et as (T1 & T2 & T3).
  apply orb_false_iff in E1 as [E1 M]. apply orb_false_iff in E1 as [E1 P2]. apply orb_false_iff in E1 as [E1 P1]. apply orb_false_iff in E1 as [N1 N2].
  apply orb_false_iff in E2 as [D1 D2]. apply orb_false_iff in E3 as [F1 F2].
  apply Nat.ltb_ge in N2, D2, F2. apply Z.ltb_ge in P1, P2. apply bool_decide_eq_false in D1. apply String.eqb_neq in N1.
  unfold wf_input. cbn [in_Name in_Priority in_MatchMode in_Conditions in_ForwardTargets]. split; [done|]. split; [done|]. split; [lia|]. split.
  - destruct (String.eqb_spec mode "all") as [->|_]; [left|]. destruct (String.eqb_spec mode "any") as [->|_]; [right; left|done].
  - split; [|split; [done|]; split; [lia|]; split; [done|]; eapply Forall_impl; [exact T3|]; simpl; by intros s [_ Hs]].
    split; [intros ->; by destruct conds|]. split; [lia|]. split; [done|]. eapply Forall_impl; [exact C3|]. simpl. tauto.
Qed.

Lemma stored_spec i i' : stored_input i = Some i' -> wf_input i -> wf_input i' /\ in_Enabled i' = in_Enabled i.
Proof.
  unfold stored_input. destruct (_ && _); [|done]. intros [= <-] (W1 & W2 & W3 & W4 & (C1 & C2 & C3 & C4) & W6). split; [|done].
  unfold wf_input. cbn [in_Name in_Priority in_MatchMode in_Conditions in_ForwardTargets]. do 4 (split; [done|]). split; [|done].
  split; [by destruct (in_Conditions i)|]. split; [by rewrite length_fmap|]. split.
  - by rewrite <- list_fmap_compose.
  - apply Forall_fmap. eapply Forall_impl; [exact C4|]. by intros [].
Qed.

(** ** The operations *)

Inductive rule_op : Type :=
| OpCreate (now : Z) (co : commit) (input : MailRuleInput)
| OpUpdate (now : Z) (co : commit) (ruleID : Z) (patch : MailRulePatch)
| OpDelete (co : commit) (ruleID : Z).
Definition apply_op (tenant owner acct : Z) (o : rule_op) (d : RDB) : RDB :=
  match o with
  | OpCreate now co input => (CreateAgentMailRule tenant now co owner acct input d).2
  | OpUpdate now co ruleID patch => (UpdateAgentMailRule tenant now co owner acct ruleID patch d).2
  | OpDelete co ruleID => (DeleteAgentMailRule tenant co owner acct ruleID d).2
  end.

(** What an operation does to the rules: nothing, or a row of the owner's account is
    written, within the limit, or deleted. *)
Inductive op_effect (tenant owner acct : Z) (d : RDB) : RDB -> Prop :=
| oe_none : op_effect tenant owner acct d d
| oe_put id row n : owned d tenant owner acct = true -> rr_account row = acct -> wf_input (rr_input row) ->
    (rd_rules d !! id = None /\ id = rd_next_rule d /\ n = id + 1 \/
     n = rd_next_rule d /\ exists old, rd_rules d !! id = Some old /\ rr_account old = acct) ->
    (in_Enabled (rr_input row) = true ->
       enabled_count acct d < maxEnabledMailRules \/ exists old, rd_rules d !! id = Some old /\ in_Enabled (rr_input old) = true) ->
    op_effect tenant owner acct d (rd_set_rules (<[id := row]> (rd_rules d)) n d)
| oe_delete id old : owned d tenant owner acct = true -> rd_rules d !! id = Some old -> rr_account old = acct ->
    op_effect tenant owner acct d (rd_set_rules (delete id (rd_rules d)) (rd_next_rule d) d).

Lemma rule_of_Some d a id r : rule_of d a id = Some r -> rd_rules d !! id = Some r /\ rr_account r = a.
Proof. unfold rule_of. destruct (rd_rules d !! id) as [r'|]; [|done]. destruct (Z.eqb_spec (rr_account r') a); [|done]. by intros [= ->]. Qed.

Lemma committed_effect {A} tenant owner acct co (a : A) d d' :
  op_effect tenant owner acct d d' -> op_effect tenant owner acct d (committed co a d d').2.
Proof. intros He. by destruct co as [|[]]; [|done|constructor]. Qed.

Lemma apply_effect tenant owner acct o d : op_effect tenant owner acct d (apply_op tenant owner acct o d).
Proof.
  destruct o as [now co input|now co ruleID patch|co ruleID]; cbn [apply_op].
  - unfold CreateAgentMailRule. destruct (normalizeMailRuleInput input) as [i|] eqn:En; [|constructor]. apply normalize_spec in En as [Hi _].
    destruct (owned d tenant owner acct) eqn:Eo; [|constructor]. cbn [negb]. destruct (in_Enabled i && _) eqn:El; [constructor|].
    destruct (stored_input i) as [i'|] eqn:Es; [|constructor]. destruct (rd_rules d !! rd_next_rule d) eqn:Ef; [constructor|].
    cbv zeta. apply committed_effect. apply stored_spec in Es as [Hi' Hen]; [|done]. constructor; try done; [by left|].
    simpl. rewrite Hen. intros Ht. left. rewrite Ht in El. cbn [andb] in El. by apply Z.leb_gt in El.
  - unfold UpdateAgentMailRule. destruct (owned d tenant owner acct) eqn:Eo; [|constructor]. cbn [negb].
    destruct (rule_of d acct ruleID) as [cur|] eqn:Er; [|constructor]. apply rule_of_Some in Er as [Er Ha].
    destruct (normalizeMailRuleInput _) as [i|] eqn:En; [|constructor]. apply normalize_spec in En as [Hi _].
    destruct (in_Enabled i && _ && _) eqn:El; [constructor|]. destruct (stored_input i) as [i'|] eqn:Es; [|constructor].
    cbv zeta. apply committed_effect. apply stored_spec in Es as [Hi' Hen]; [|done]. constructor; try done.
    + right. split; [done|]. by exists cur.
    + simpl. rewrite Hen. intros Ht. rewrite Ht in El. cbn [andb] in El. destruct (in_Enabled (rr_input cur)) eqn:Ec; [right; by exists cur|].
      left. cbn [negb andb] in El. by apply Z.leb_gt in El.
  - unfold DeleteAgentMailRule. destruct (owned d tenant owner acct) eqn:Eo; [|constructor]. cbn [negb].
    destruct (rule_of d acct ruleID) as [cur|] eqn:Er; [|constructor]. apply rule_of_Some in Er as [Er Ha].
    apply committed_effect. by eapply oe_delete.
Qed.

Lemma counts_bound a r : 0 <= counts a r <= 1.
Proof. unfold counts. destruct (_ && _); lia. Qed.

Lemma effect_wf tenant owner acct d d' : rules_wf d -> op_effect tenant owner acct d d' -> rules_wf d'.
Proof.
  intros W He. inversion He as [|id row n Ho Ha Hi Hwhere Hlim|id old Ho Hold Ha]; subst; [done| |].
  - split; simpl.
    + intros k r [[_ <-]|[_ Hr]]%lookup_insert_Some; [done|by eapply (rw_rule d W)].
    + intros k r [[<- <-]|[_ Hr]]%lookup_insert_Some.
      * destruct Hwhere as [(_ & _ & ->)|(-> & old & Hold & _)]; [lia|by eapply (rw_fresh d W)].
      * apply (rw_fresh d W) in Hr. destruct Hwhere as [(_ & -> & ->)|(-> & _)]; lia.
    + intros a. unfold enabled_count. simpl. pose proof (rw_limit d W a) as Hla. unfold enabled_count in *.
      pose proof (counts_bound a row) as Hb.
      destruct Hwhere as [(Hnone & _)|(_ & old & Hold & Haold)].
      * rewrite agg_insert by done. unfold counts in Hb |- * at 1. destruct (Z.eqb_spec (rr_account row) a) as [Heq|]; [|simpl; lia]. cbn [andb].
        destruct (in_Enabled (rr_input row)) eqn:Een; [|lia]. destruct (Hlim eq_refl) as [Hlt|(old & Hold & _)]; [|congruence]. subst a. lia.
      * rewrite (agg_update _ _ _ _ _ Hold). destruct (Z.eqb_spec (rr_account row) a) as [Heq|Hne].
        -- destruct (in_Enabled (rr_input row)) eqn:Een.
           ++ destruct (Hlim eq_refl) as [Hlt|(old' & Hold' & Hen)].
              ** pose proof (counts_bound a old). subst a. lia.
              ** simplify_eq. unfold counts at 2. rewrite Haold, Z.eqb_refl, Hen. simpl. lia.
           ++ assert (counts a row = 0) as -> by (unfold counts; by rewrite Een, andb_false_r). pose proof (counts_bound a old). lia.
        -- assert (counts a row = 0) as -> by (unfold counts; by destruct (Z.eqb_spec (rr_account row) a)). pose proof (counts_bound a old). lia.
  - split; simpl.
    + intros k r [_ Hr]%lookup_delete_Some. by eapply (rw_rule d W).
    + intros k r [_ Hr]%lookup_delete_Some. by eapply (rw_fresh d W).
    + intros a. pose proof (rw_limit d W a) as Hla. unfold enabled_count in *. simpl. rewrite (agg_delete _ _ _ _ Hold) in Hla.
      pose proof (counts_bound a old). lia.
Qed.

(** Any owners operate on any accounts, in any order. *)
Definition op_step (d d' : RDB) : Prop := exists tenant owner acct o, d' = apply_op tenant owner acct o d.

(** Stored rules stay well formed whatever owners create, patch and delete, commits of
    unknown outcome included: a name, one to five conditions on different fields with
    known fields and operators, one to five different canonical target addresses, a
    priority within bounds, and never more than fifty enabled rules on an account. *)
Theorem rules_bounded (d d' : RDB) : rules_wf d -> rtc op_step d d' -> rules_wf d'.
Proof.
  intros W Hr. induction Hr as [|d0 d1 d2 (t & o & a & op & ->) _ IH]; [done|]. apply IH. eapply effect_wf; [exact W|]. apply apply_effect.
Qed.

(** Rules are their owner's: an operation changes at most one rule, of the account it
    names, and only when the caller owns that account in this tenant and it is not
    disabled; executions, accounts and addresses are never touched. *)
Theorem rule_scope (tenant owner acct : Z) (o : rule_op) (d : RDB) :
  let d' := apply_op tenant owner acct o d in
  rd_accounts d' = rd_accounts d /\ rd_addresses d' = rd_addresses d /\ rd_execs d' = rd_execs d /\
  (rd_rules d' = rd_rules d \/
   owned d tenant owner acct = true /\
   exists id, (forall k, k <> id -> rd_rules d' !! k = rd_rules d !! k) /\
     (forall r, rd_rules d !! id = Some r -> rr_account r = acct) /\ (forall r, rd_rules d' !! id = Some r -> rr_account r = acct)).
Proof.
  intros d'. destruct (apply_effect tenant owner acct o d) as [|id row n Ho Ha Hi Hwhere Hlim|id old Ho Hold Ha]; simpl; do 3 (split; [done|]).
  - by left.
  - right. split; [done|]. exists id. split; [intros k Hk; by rewrite lookup_insert_ne|]. split.
    + intros r Hr. destruct Hwhere as [(Hnone & _)|(_ & old & Hold & Haold)]; congruence.
    + intros r. rewrite lookup_insert_eq. by intros [= <-].
  - right. split; [done|]. exists id. split; [intros k Hk; by rewrite lookup_delete_ne|]. split; [congruence|].
    intros r. by rewrite lookup_delete_eq.
Qed.

End Spec.

(** ** Instances *)

#[local] Instance rst_address : AddressParser :=
  { ParseAddress := fun s => match split s "@" with [u; h] => Some (mkAddress u (ascii_lower h)) | _ => None end }.
#[local] Instance rst_forms : AddressForms :=
  { Pack := fun a => (sa_Localpart a ++ "@" ++ sa_Domain a)%string; ParseAddressList := fun _ => None }.

Definition rst_db : RDB := mkRDB {[ 1 := mkAccountRow 1 9 false ]} {[ 1 := (1, "x.example"%string) ]} [] ∅ 1 ∅ 1.
Definition rst_input : MailRuleInput :=
  mkInput " invoices " true 0 "" [] " Boss@A.example" "invoice" ["books@C.example"; " books@c.example"].
Definition rst_ops : list rule_op :=
  [OpCreate 10 Committed rst_input; OpCreate 11 (CommitError true) rst_input;
   OpUpdate 12 Committed 1 (mkPatch None (Some false) None None None (Some "x@y.example"%string) None None); OpDelete Committed 2].
Definition rst_end : RDB := foldl (fun d o => apply_op 1 9 1 o d) rst_db rst_ops.

Lemma rules_bounded_witness :
  size (rd_rules rst_end) = 1%nat /\ (exists r, rd_rules rst_end !! 1 = Some r /\ in_ForwardTargets (rr_input r) = ["books@c.example"%string]
     /\ mc_Value <$> in_Conditions (rr_input r) = ["x@y.example"%string; "invoice"%string]) /\ rules_wf rst_end.
Proof.
  split; [vm_compute; reflexivity|]. split; [eexists; split; [vm_compute; reflexivity|split; vm_compute; reflexivity]|].
  apply (rules_bounded rst_db rst_end).
  - split; [intros id r Hr; discriminate Hr|intros id r Hr; discriminate Hr|intros a; unfold enabled_count; simpl; rewrite agg_empty; discriminate].
  - unfold rst_end, rst_ops. cbn [foldl].
    do 4 (eapply rtc_l; [exists 1, 9, 1; eexists; reflexivity|]). apply rtc_refl.
Defined.
