(* ===== verification/RuleProcess.v ===== *)
(** * Running forwarding rules (mailflow/mailrules/processor.go): Process

    The processor loads an account's rules, reserves an execution for each match, submits
    the forward and records how it went.  Every statement may fail, applied or not; the
    environment of a rule's run says which.  [reserve], [submit_forward] and
    [finish_forward] are the statements of one rule's run, which other processors may
    interleave with; [Process] is their composition. *)

From S2P Require Import Prelude GoStrings Blob Queue Verp Headers Smtp Submit Textproto RuleMetadata MailRules RuleStore.

Local Open Scope go_scope.

(** A statement's outcome: done, or an error after which it applied or not. *)
Inductive stmt : Type := StmtOk | StmtError (applied : bool).

(** What the outside contributes to the run of one rule. *)
Record RunEnv := mkRunEnv {
  rn_now : Z; rn_reserve : stmt; rn_forward : ForwardEnv; rn_commit : commit; rn_finish : stmt }.

Section Process.
Context `{BlobOps} `{Unicode} `{UnicodeUpper} `{Hmac} `{Sha256} `{AddressParser} `{MessageParser} `{AddressText} `{CaseFold} `{Composer}.

(** ** loadContext *)

Definition address_of (d : RDB) (a : AddressRow) : option string :=
  match rd_domains d !! ad_domain a with
  | Some (tenant, domain) => if tenant =? ad_tenant a then Some (ad_localpart a ++ "@" ++ domain)%string else None
  | None => None
  end.

Definition legacy_rule (id : Z) (i : MailRuleInput) : rule :=
  mkRule id (in_MatchMode i)
    (match in_Conditions i with [] => legacy_conditions (in_MatchFrom i) (in_MatchSubject i) | l => l end)
    (in_MatchFrom i) (in_MatchSubject i) (in_ForwardTargets i).

(** The tenant, the sender, the addresses and the enabled rules of an account. *)
Definition loadContext (accountID : Z) (d : RDB) : result (Z * string * list string * list rule) :=
  match rd_accounts d !! accountID with
  | None => Err ErrNoRows
  | Some acc =>
      if ac_disabled acc then Err ErrNoRows
      else
        let mine := filter (fun a => ad_account a = accountID /\ ad_tenant a = ac_tenant acc) (rd_addresses d) in
        match omap (address_of d) (filter (fun a => ad_alias a = false) mine) with
        | [] => Err ErrNoRows
        | sender :: _ =>
            Ok (ac_tenant acc, sender, omap (address_of d) mine,
                (fun x : Z * RuleRow => legacy_rule x.1 (rr_input x.2))
                  <$> filter (fun x : Z * RuleRow => in_Enabled (rr_input x.2) = true) (rules_of accountID d))
        end
  end.

(** ** Executions *)

Definition same_execution (accountID ruleID email : Z) (x : Z * ExecRow) : Prop :=
  ex_account x.2 = accountID /\ ex_rule x.2 = ruleID /\ ex_email x.2 = email.
#[export] Instance same_execution_dec a r e x : Decision (same_execution a r e x).
Proof. unfold same_execution. apply _. Defined.
(** The row of the unique key. *)
Definition execution_of (accountID ruleID email : Z) (d : RDB) : option (Z * ExecRow) :=
  head (filter (same_execution accountID ruleID email) (map_to_list (rd_execs d))).
(** The unique index on the signed message id of trusted forwards. *)
Definition replayed (accountID ruleID : Z) (messageID : string) (d : RDB) : bool :=
  negb (String.eqb messageID EmptyString) &&
  bool_decide (filter (fun x : Z * ExecRow => ex_account x.2 = accountID /\ ex_rule x.2 = ruleID /\ ex_message_id x.2 = messageID)
                 (map_to_list (rd_execs d)) <> []).

Definition retryable (x : ExecRow) : bool := String.eqb (ex_status x) "failed" && String.eqb (ex_error x) "submit_failed".

(** INSERT .. SELECT .. FROM mail_rules .. ON CONFLICT DO UPDATE .. RETURNING id *)
Definition reserve_stmt (now accountID ruleID email : Z) (messageID status : string) (hop : Z) (errorCode : string) (d : RDB)
  : result Z * RDB :=
  match rule_of d accountID ruleID with
  | Some r =>
      if negb (in_Enabled (rr_input r)) then (Err ErrNoRows, d)
      else
        let completed := if String.eqb status "loop_blocked" then Some now else None in
        let id := rd_next_exec d in
        match execution_of accountID ruleID email d with
        | Some (old, x) =>
            if String.eqb status "matched" && retryable x then
              (Ok old, rd_set_execs (<[old := mkExecRow accountID ruleID email (ex_message_id x) status [] hop errorCode
                                                (ex_created_at x) completed]> (rd_execs d)) (id + 1) d)
            else (Err ErrNoRows, rd_set_execs (rd_execs d) (id + 1) d)
        | None =>
            if replayed accountID ruleID messageID d then (Err ErrUniqueViolation, rd_set_execs (rd_execs d) (id + 1) d)
            else (Ok id, rd_set_execs (<[id := mkExecRow accountID ruleID email messageID status [] hop errorCode now completed]> (rd_execs d))
                           (id + 1) d)
        end
  | None => (Err ErrNoRows, d)
  end.

(** The execution's id when it was reserved. *)
Definition reserveExecution (env : RunEnv) (accountID ruleID email : Z) (messageID status : string) (hop : Z) (errorCode : string) (d : RDB)
  : result (option Z) * RDB :=
  let '(r, d') := reserve_stmt (rn_now env) accountID ruleID email messageID status hop errorCode d in
  match rn_reserve env with
  | StmtError applied => (Err (ErrText "reserve mail rule execution"), if applied then d' else d)
  | StmtOk =>
      match r with
      | Ok id => (Ok (Some id), d')
      | Err ErrNoRows => (Ok None, d')
      | Err ErrUniqueViolation => if String.eqb messageID EmptyString then (Err ErrUniqueViolation, d') else (Ok None, d')
      | Err e => (Err e, d')
      end
  end.

Definition finishExecution (env : RunEnv) (accountID executionID : Z) (status : string) (results : list targetResult) (errorCode : string) (d : RDB)
  : result unit * RDB :=
  let '(r, d') :=
    match rd_execs d !! executionID with
    | Some x =>
        if ex_account x =? accountID then
          (Ok tt, rd_set_execs (<[executionID := mkExecRow accountID (ex_rule x) (ex_email x) (ex_message_id x) status results (ex_hop x) errorCode
                                                 (ex_created_at x) (Some (rn_now env))]> (rd_execs d)) (rd_next_exec d) d)
        else (Err (ErrText "mail rule execution disappeared"), d)
    | None => (Err (ErrText "mail rule execution disappeared"), d)
    end in
  match rn_finish env with
  | StmtOk => (r, d')
  | StmtError applied => (Err (ErrText "finish mail rule execution"), if applied then d' else d)
  end.
Definition finishFailedExecution (env : RunEnv) (accountID executionID : Z) (errorCode : string) (d : RDB) : result unit * RDB :=
  finishExecution env accountID executionID "failed" [] errorCode d.

(** ** One rule *)

Record PWorld := mkPWorld { pw_db : RDB; pw_blobs : blob_state; pw_q : QDB }.
Definition pw_set_db v w := mkPWorld v (pw_blobs w) (pw_q w).

Section Run.
Variables (max : Z) (authenticator : option string) (tenantID accountID email : Z) (sender : string) (parsed : parsedMessage).

Definition reserve (env : RunEnv) (r : rule) (d : RDB) : result (option Z) * RDB :=
  let code := blockedCode r parsed in
  let status := if String.eqb code EmptyString then "matched"%string else "loop_blocked"%string in
  reserveExecution env accountID (ru_id r) email (pm_trustedMessageID parsed) status (pm_hop parsed) code d.

(** How the run ended, to be recorded. *)
Inductive ending : Type := EndQueued (results : list targetResult) | EndFailed (errorCode : string) (e : err).

Fixpoint target_results (targets : list string) (ids : list Z) : list targetResult :=
  match targets, ids with
  | [], _ => []
  | t :: targets, [] => mkTargetResult t "queued" 0 :: target_results targets []
  | t :: targets, id :: ids => mkTargetResult t "queued" id :: target_results targets ids
  end.

Definition submit_forward (env : RunEnv) (r : rule) (b : blob_state) (q : QDB) : ending * blob_state * QDB :=
  match composeForwardWithLimit (rn_forward env) sender (ru_forwardTargets r) parsed (ru_id r) max authenticator with
  | Err e => (EndFailed "compose_failed" e, b, q)
  | Ok forward =>
      match Submit (rn_now env) (rn_commit env) tenantID accountID sender (ru_forwardTargets r) (str_of forward) b q with
      | (Err e, b, q) => (EndFailed (if IsResultUnknown e then "submit_result_unknown" else "submit_failed") e, b, q)
      | (Ok ids, b, q) => (EndQueued (target_results (ru_forwardTargets r) ids), b, q)
      end
  end.

Definition finish_forward (env : RunEnv) (executionID : Z) (e : ending) (d : RDB) : result unit * RDB :=
  match e with
  | EndQueued results => finishExecution env accountID executionID "queued" results EmptyString d
  | EndFailed code cause =>
      let '(_, d') := finishFailedExecution env accountID executionID code d in (Err cause, d')
  end.

(** The body of the loop over the rules. *)
Definition run_rule (env : RunEnv) (r : rule) (w : PWorld) : result unit * PWorld :=
  if negb (matches r parsed) then (Ok tt, w)
  else
    let '(reserved, d) := reserve env r (pw_db w) in
    let w := pw_set_db d w in
    match reserved with
    | Err e => (Err e, w)
    | Ok None => (Ok tt, w)
    | Ok (Some executionID) =>
        if negb (String.eqb (blockedCode r parsed) EmptyString) then (Ok tt, w)
        else
          let '(e, b, q) := submit_forward env r (pw_blobs w) (pw_q w) in
          let '(res, d) := finish_forward env executionID e (pw_db w) in
          (res, mkPWorld d b q)
    end.

(** The rules in order; the first error is the result. *)
Fixpoint run_rules (envs : nat -> RunEnv) (i : nat) (rules : list rule) (firstErr : option err) (w : PWorld) : option err * PWorld :=
  match rules with
  | [] => (firstErr, w)
  | r :: rules =>
      let '(res, w) := run_rule (envs i) r w in
      let firstErr := match firstErr, res with Some e, _ => Some e | None, Err e => Some e | None, Ok _ => None end in
      run_rules envs (S i) rules firstErr w
  end.
End Run.

(** ** Process *)

Record Processor := mkProcessor { po_RuleMetadata : option string; po_MaxMessageSize : Z }.
Definition maxMessageSize (p : Processor) : Z := if 0 <? po_MaxMessageSize p then po_MaxMessageSize p else defaultMaxForwardMessageSize.

Definition Process (p : Processor) (now : Z) (envs : nat -> RunEnv) (accountID sourceEmailID : Z) (raw : list ascii) (w : PWorld)
  : option err * PWorld :=
  let max := maxMessageSize p in
  if (accountID <=? 0) || (sourceEmailID <=? 0) || bool_decide (raw = []) || (max <? Z.of_nat (length raw))
  then (Some (ErrText "invalid mail rule input"), w)
  else
    match loadContext accountID (pw_db w) with
    | Err e => (Some e, w)
    | Ok (tenantID, sender, accountAddresses, rules) =>
        match parseMessageWithLimit raw max (po_RuleMetadata p) accountAddresses now with
        | Err e => (Some e, w)
        | Ok parsed => run_rules max (po_RuleMetadata p) tenantID accountID sourceEmailID sender parsed envs 0 rules None w
        end
    end.

End Process.
