(* ===== verification/RuleProcessSpec.v ===== *)
(** * A rule forwards a message at most once *)

From S2P Require Import Prelude GoStrings Blob KernelDemo Queue Verp Headers Smtp Submit Textproto RuleMetadata MailRules RuleStore RuleProcess.

Local Open Scope go_scope.

Section Spec.
Context `{BlobOps} `{Unicode} `{UnicodeUpper} `{Hmac} `{Sha256} `{AddressParser} `{MessageParser} `{AddressText} `{CaseFold} `{Composer}.

(** ** Processors running side by side *)

Inductive stage : Type := Reserved | Ended (e : ending).

(** One rule's run on one email, between its statements. *)
Record Flight := mkFlight {
  fl_account : Z; fl_email : Z; fl_rule : rule; fl_parsed : parsedMessage; fl_exec : Z; fl_stage : stage }.
Definition at_stage (s : stage) (f : Flight) := mkFlight (fl_account f) (fl_email f) (fl_rule f) (fl_parsed f) (fl_exec f) s.

(** A submission: the execution, how it ended, the queue before and after. *)
Record Sent := mkSent { se_account : Z; se_rule : Z; se_email : Z; se_exec : Z; se_end : ending; se_before : QDB; se_after : QDB }.
Definition changed (x : Sent) : Prop := se_before x <> se_after x.

Record SW := mkSW { sw_w : PWorld; sw_flights : gmap Z Flight; sw_log : list Sent }.

(** A processor reserves, submits, records, or stops dead; meanwhile owners edit rules and
    mailboxes, and the queue and the store go about their business. *)
Inductive sstep : SW -> SW -> Prop :=
| ss_reserve s i acct email r parsed env d' id :
    sw_flights s !! i = None -> blockedCode r parsed = EmptyString ->
    reserve acct email parsed env r (pw_db (sw_w s)) = (Ok (Some id), d') ->
    sstep s (mkSW (pw_set_db d' (sw_w s)) (<[i := mkFlight acct email r parsed id Reserved]> (sw_flights s)) (sw_log s))
| ss_not_reserved s acct email r parsed env res d' :
    reserve acct email parsed env r (pw_db (sw_w s)) = (res, d') ->
    blockedCode r parsed <> EmptyString \/ (forall id, res <> Ok (Some id)) ->
    sstep s (mkSW (pw_set_db d' (sw_w s)) (sw_flights s) (sw_log s))
| ss_submit s i f max auth tenant sender env e b' q' :
    sw_flights s !! i = Some f -> fl_stage f = Reserved ->
    submit_forward max auth tenant (fl_account f) sender (fl_parsed f) env (fl_rule f) (pw_blobs (sw_w s)) (pw_q (sw_w s)) = (e, b', q') ->
    sstep s (mkSW (mkPWorld (pw_db (sw_w s)) b' q') (<[i := at_stage (Ended e) f]> (sw_flights s))
               (sw_log s ++ [mkSent (fl_account f) (ru_id (fl_rule f)) (fl_email f) (fl_exec f) e (pw_q (sw_w s)) q']))
| ss_finish s i f e env res d' :
    sw_flights s !! i = Some f -> fl_stage f = Ended e ->
    finish_forward (fl_account f) env (fl_exec f) e (pw_db (sw_w s)) = (res, d') ->
    sstep s (mkSW (pw_set_db d' (sw_w s)) (delete i (sw_flights s)) (sw_log s))
| ss_crash s i : sstep s (mkSW (sw_w s) (delete i (sw_flights s)) (sw_log s))
| ss_edit s d' : rd_execs d' = rd_execs (pw_db (sw_w s)) -> rd_next_exec d' = rd_next_exec (pw_db (sw_w s)) ->
    sstep s (mkSW (pw_set_db d' (sw_w s)) (sw_flights s) (sw_log s))
| ss_queue s b' q' : sstep s (mkSW (mkPWorld (pw_db (sw_w s)) b' q') (sw_flights s) (sw_log s)).

(** ** The invariant *)

Definition keyed (a r e : Z) (x : ExecRow) : Prop := ex_account x = a /\ ex_rule x = r /\ ex_email x = e.
Definition unsent (id : Z) (log : list Sent) : Prop := forall x, x ∈ log -> se_exec x = id -> ~ changed x.
Definition sent (id : Z) (log : list Sent) : Prop := exists x rs, x ∈ log /\ se_exec x = id /\ se_end x = EndQueued rs.
(** What a row says is true. *)
Definition truthful (id : Z) (x : ExecRow) (log : list Sent) : Prop :=
  (ex_status x = "queued"%string -> sent id log) /\
  (ex_status x = "failed"%string -> ex_error x = "submit_failed"%string \/ ex_error x = "compose_failed"%string -> unsent id log) /\
  (ex_status x = "loop_blocked"%string -> unsent id log).
Definition flight_truth (f : Flight) (log : list Sent) : Prop :=
  match fl_stage f with
  | Reserved => unsent (fl_exec f) log
  | Ended (EndQueued _) => sent (fl_exec f) log
  | Ended (EndFailed code _) => code <> "submit_result_unknown"%string -> unsent (fl_exec f) log
  end.

Record swf (s : SW) : Prop := {
  sf_fresh : forall id x, rd_execs (pw_db (sw_w s)) !! id = Some x -> id < rd_next_exec (pw_db (sw_w s));
  sf_unique : forall id x id' x', rd_execs (pw_db (sw_w s)) !! id = Some x -> rd_execs (pw_db (sw_w s)) !! id' = Some x' ->
    ex_account x = ex_account x' -> ex_rule x = ex_rule x' ->
    ex_email x = ex_email x' \/ ex_message_id x = ex_message_id x' /\ ex_message_id x <> EmptyString -> id = id';
  sf_truth : forall id x, rd_execs (pw_db (sw_w s)) !! id = Some x -> truthful id x (sw_log s);
  sf_flight : forall i f, sw_flights s !! i = Some f -> flight_truth f (sw_log s) /\
    exists x, rd_execs (pw_db (sw_w s)) !! fl_exec f = Some x /\ keyed (fl_account f) (ru_id (fl_rule f)) (fl_email f) x /\ ex_status x = "matched"%string;
  sf_owner : forall i j f g, sw_flights s !! i = Some f -> sw_flights s !! j = Some g -> fl_exec f = fl_exec g -> i = j;
  sf_log : forall y, y ∈ sw_log s -> exists x, rd_execs (pw_db (sw_w s)) !! se_exec y = Some x /\ keyed (se_account y) (se_rule y) (se_email y) x;
  sf_once : forall i j x y, sw_log s !! i = Some x -> sw_log s !! j = Some y -> se_exec x = se_exec y -> changed x -> changed y -> i = j }.

(** ** Statements *)

Lemma execution_of_Some a r e d p : execution_of a r e d = Some p -> rd_execs d !! p.1 = Some p.2 /\ keyed a r e p.2.
Proof.
  unfold execution_of. intros Hp. apply head_Some_elem_of in Hp. apply list_elem_of_filter in Hp as [Hs Hp].
  split; [|done]. apply elem_of_map_to_list. by destruct p.
Qed.
Lemma execution_of_None a r e d id x : execution_of a r e d = None -> rd_execs d !! id = Some x -> ~ keyed a r e x.
Proof.
  unfold execution_of. intros Hp Hx Hk. apply head_None in Hp.
  assert (Hin : (id, x) ∈ filter (same_execution a r e) (map_to_list (rd_execs d))).
  { apply list_elem_of_filter. split; [exact Hk|]. by apply elem_of_map_to_list. }
  rewrite Hp in Hin. by apply elem_of_nil in Hin.
Qed.
Lemma not_replayed a r m d id x : replayed a r m d = false -> m <> EmptyString -> rd_execs d !! id = Some x ->
  ex_account x = a -> ex_rule x = r -> ex_message_id x <> m.
Proof.
  unfold replayed. intros Hp Hm Hx Ha Hr He. destruct (String.eqb_spec m EmptyString) as [|_]; [done|]. cbn [negb andb] in Hp.
  apply bool_decide_eq_false in Hp. apply Hp. intros Hn.
  assert (Hin : (id, x) ∈ filter (fun x : Z * ExecRow => ex_account x.2 = a /\ ex_rule x.2 = r /\ ex_message_id x.2 = m) (map_to_list (rd_execs d))).
  { apply list_elem_of_filter. split; [done|]. by apply elem_of_map_to_list. }
  rewrite Hn in Hin. by apply elem_of_nil in Hin.
Qed.

(** What reserving does to the executions: nothing, a new row, or a failed submission's row
    taken up again. *)
Inductive reserved_rows (a r e : Z) (m status : string) (d : RDB) : option Z -> RDB -> Prop :=
| rs_none d' : rd_execs d' = rd_execs d -> rd_next_exec d <= rd_next_exec d' -> reserved_rows a r e m status d None d'
| rs_new d' x : rd_execs d' = <[rd_next_exec d := x]> (rd_execs d) -> rd_next_exec d < rd_next_exec d' -> keyed a r e x ->
    ex_status x = status -> ex_message_id x = m -> (forall id y, rd_execs d !! id = Some y -> ~ keyed a r e y) ->
    (forall id y, rd_execs d !! id = Some y -> ex_account y = a -> ex_rule y = r -> m <> EmptyString -> ex_message_id y <> m) ->
    reserved_rows a r e m status d (Some (rd_next_exec d)) d'
| rs_again d' id x y : rd_execs d !! id = Some x -> retryable x = true -> keyed a r e x -> rd_execs d' = <[id := y]> (rd_execs d) ->
    rd_next_exec d <= rd_next_exec d' -> keyed a r e y -> ex_status y = "matched"%string -> status = "matched"%string ->
    ex_message_id y = ex_message_id x -> reserved_rows a r e m status d (Some id) d'.

Lemma reserve_rows env a r e m status hop code d res d' :
  reserveExecution env a r e m status hop code d = (res, d') ->
  exists o, reserved_rows a r e m status d o d' /\ (forall id, res = Ok (Some id) -> o = Some id).
Proof.
  unfold reserveExecution. destruct (reserve_stmt _ _ _ _ _ _ _ _ _) as [r0 d0] eqn:Es.
  assert (Hs : exists o, reserved_rows a r e m status d o d0 /\ (forall id, r0 = Ok id -> o = Some id)).
  { revert Es. unfold reserve_stmt.
    assert (Hnone : reserved_rows a r e m status d None d) by (apply rs_none; [done|lia]).
    destruct (rule_of d a r) as [row|]; [|intros [= <- <-]; by exists None].
    destruct (negb _); [intros [= <- <-]; by exists None|]. cbv zeta.
    destruct (execution_of a r e d) as [[old x]|] eqn:Ee.
    - apply execution_of_Some in Ee as [Ex Hk]. destruct (String.eqb status "matched" && retryable x) eqn:Et.
      + apply andb_true_iff in Et as [Et1 Et2]. apply String.eqb_eq in Et1 as ->. intros [= <- <-]. exists (Some old). split; [|by intros id [= <-]].
        eapply rs_again; try done; simpl; try done. lia.
      + intros [= <- <-]. exists None. split; [|done]. apply rs_none; simpl; [done|lia].
    - destruct (replayed a r m d) eqn:Er.
      + intros [= <- <-]. exists None. split; [|done]. apply rs_none; simpl; [done|lia].
      + intros [= <- <-]. exists (Some (rd_next_exec d)). split; [|by intros id [= <-]]. eapply rs_new; simpl; try done.
        * lia.
        * intros id y Hy. by eapply execution_of_None.
        * intros id y Hy Ha Hr Hm. by eapply not_replayed. }
  destruct Hs as (o & Ho & Hid). destruct (rn_reserve env) as [|[]].
  - intros Hr. exists o. assert (d' = d0) as -> by (by destruct r0 as [?|[]]; repeat case_match; simplify_eq).
    split; [done|]. intros id ->. apply Hid. destruct r0 as [?|[]]; repeat case_match; by simplify_eq.
  - intros [= <- <-]. by exists o.
  - intros [= <- <-]. exists None. split; [|done]. apply rs_none; [done|lia].
Qed.

Lemma submit_refused now co t a m mf rcpts raw nb dsnp b q e b' q' :
  submit now co t a m mf rcpts raw nb dsnp b q = (Err e, b', q') -> IsResultUnknown e = false -> q' = q.
Proof.
  unfold submit. destruct rcpts; [by intros [= _ _ <-]|]. destruct (negb (parses mf) && _); [by intros [= _ _ <-]|].
  destruct (negb (forallb _ _)); [by intros [= _ _ <-]|]. destruct (blob_Put t raw b) as [[[ref size]|e1] b1]; [|by intros [= _ _ <-]].
  destruct (enqueue_all _ _ _ _ _ _ _ _ _ _ _) as [[ids q1]|e1]; [|by intros [= _ _ <-]].
  destruct co as [|applied]; [done|]. intros [= <- _ _]. by unfold IsResultUnknown.
Qed.

(** A failure that is not an unknown outcome left the queue alone. *)
Lemma submit_forward_failed max auth t a sender parsed env r b q code e b' q' :
  submit_forward max auth t a sender parsed env r b q = (EndFailed code e, b', q') -> code <> "submit_result_unknown"%string -> q' = q.
Proof.
  unfold submit_forward. destruct (composeForwardWithLimit _ _ _ _ _ _ _) as [fwd|e1]; [|by intros [= _ _ _ <-]].
  unfold Submit. destruct (submit _ _ _ _ _ _ _ _ _ _ _ _) as [[[ids|e1] b1] q1] eqn:Es; [done|].
  intros [= <- _ _ <-] Hc. destruct (IsResultUnknown e1) eqn:Eu; [done|]. by eapply submit_refused.
Qed.

Lemma finish_rows env a id status results code d res d' :
  finishExecution env a id status results code d = (res, d') ->
  rd_next_exec d' = rd_next_exec d /\
  (rd_execs d' = rd_execs d \/ exists x y, rd_execs d !! id = Some x /\ rd_execs d' = <[id := y]> (rd_execs d) /\
     (forall a r e, keyed a r e x -> keyed a r e y) /\ ex_message_id y = ex_message_id x /\ ex_status y = status /\ ex_error y = code).
Proof.
  unfold finishExecution.
  destruct (rd_execs d !! id) as [x|] eqn:Ex; [destruct (Z.eqb_spec (ex_account x) a) as [Ha|Ha]|];
    destruct (rn_finish env) as [|[]]; intros [= _ <-]; (split; [done|]); try (by left);
    (right; exists x; eexists; split; [done|]; split; [reflexivity|]; split; [|done]; intros a0 r0 e0 (K1 & K2 & K3); subst; done).
Qed.

(** ** The log grows *)

Lemma unsent_snoc id log y : unsent id log -> (se_exec y = id -> ~ changed y) -> unsent id (log ++ [y]).
Proof. intros Hu Hy x [Hx| ->%list_elem_of_singleton]%elem_of_app; [by apply Hu|done]. Qed.
Lemma sent_snoc id log y : sent id log -> sent id (log ++ [y]).
Proof. intros (x & rs & Hx & Hrest). exists x, rs. split; [|done]. apply elem_of_app. by left. Qed.

(** ** Preservation *)

Lemma swf_reserved s a r e m status o d' : swf s -> reserved_rows a r e m status (pw_db (sw_w s)) o d' ->
  status = "matched"%string \/ status = "loop_blocked"%string ->
  swf (mkSW (pw_set_db d' (sw_w s)) (sw_flights s) (sw_log s)) /\
  (forall id, o = Some id -> unsent id (sw_log s) /\ (forall i f, sw_flights s !! i = Some f -> fl_exec f <> id) /\
     exists x, rd_execs d' !! id = Some x /\ keyed a r e x /\ ex_status x = status).
Proof.
  intros W Hr Hst. set (d := pw_db (sw_w s)) in *.
  assert (Hrow : forall y, y ∈ sw_log s -> is_Some (rd_execs d !! se_exec y)) by (intros y Hy; destruct (sf_log s W y Hy) as (x & Hx & _); by exists x).
  inversion Hr as [d0 He Hn|d0 x He Hn Hk Hs Hm Hnew Hmsg|d0 id x y Hx Hret Hk He Hn Hky Hsy Hse Hmy]; subst.
  - split; [|done]. split; simpl; rewrite ?He; try apply W. intros id x Hx. apply (sf_fresh s W) in Hx. fold d in Hx. lia.
  - assert (Hfree : rd_execs d !! rd_next_exec d = None).
    { destruct (rd_execs d !! rd_next_exec d) as [y|] eqn:E; [|done]. apply (sf_fresh s W) in E. fold d in E. lia. }
    assert (Hun : unsent (rd_next_exec d) (sw_log s)).
    { intros y Hy Hid. destruct (Hrow y Hy) as [z Hz]. rewrite Hid in Hz. congruence. }
    assert (Hkeep : forall id y, rd_execs d !! id = Some y -> rd_execs d' !! id = Some y).
    { intros id y Hy. rewrite He, lookup_insert_ne; [done|]. intros <-. congruence. }
    split.
    + split; simpl.
      * intros id y. rewrite He. intros [[<- <-]|[_ Hy]]%lookup_insert_Some; [done|]. apply (sf_fresh s W) in Hy. fold d in Hy. lia.
      * intros id y id' y'. rewrite He. destruct Hk as (K1 & K2 & K3).
        intros [[<- <-]|[_ Hy]]%lookup_insert_Some [[<- <-]|[_ Hy']]%lookup_insert_Some Ha Hru Hor; try done.
        -- exfalso. destruct Hor as [Hor|[Hor Hne]]; [eapply (Hnew id' y' Hy'); repeat split; congruence|].
           eapply (Hmsg id' y' Hy'); congruence.
        -- exfalso. destruct Hor as [Hor|[Hor Hne]]; [eapply (Hnew id y Hy); repeat split; congruence|].
           eapply (Hmsg id y Hy); congruence.
        -- by eapply (sf_unique s W).
      * intros id y. rewrite He. intros [[<- <-]|[_ Hy]]%lookup_insert_Some; [|by apply (sf_truth s W)].
        split; [intros Hq; destruct Hst; congruence|]. done.
      * intros i f Hf. destruct (sf_flight s W i f Hf) as [Ht (y & Hy & Hrest)]. split; [done|]. exists y. split; [by apply Hkeep|done].
      * apply (sf_owner s W).
      * intros y Hy. destruct (sf_log s W y Hy) as (z & Hz & Hrest). exists z. split; [by apply Hkeep|done].
      * apply (sf_once s W).
    + intros id [= <-]. split; [done|]. split; [|exists x; rewrite He; split; [apply lookup_insert_eq|done]].
      intros i f Hf Hid. destruct (sf_flight s W i f Hf) as [_ (y & Hy & _)]. fold d in Hy. congruence.
  - assert (Hretr : ex_status x = "failed"%string /\ ex_error x = "submit_failed"%string).
    { unfold retryable in Hret. apply andb_true_iff in Hret as [E1%String.eqb_eq E2%String.eqb_eq]. done. }
    assert (Hun : unsent id (sw_log s)) by (destruct (sf_truth s W id x Hx) as (_ & T & _); apply T; [apply Hretr|left; apply Hretr]).
    assert (Hnof : forall i f, sw_flights s !! i = Some f -> fl_exec f <> id).
    { intros i f Hf Hid. destruct (sf_flight s W i f Hf) as [_ (z & Hz & _ & Hm)]. fold d in Hz. rewrite Hid, Hx in Hz. injection Hz as <-.
      destruct Hretr as [Hf1 _]. congruence. }
    assert (Hother : forall id' z, rd_execs d !! id' = Some z -> id' <> id -> rd_execs d' !! id' = Some z).
    { intros id' z Hz Hne. by rewrite He, lookup_insert_ne. }
    destruct Hk as (K1 & K2 & K3), Hky as (L1 & L2 & L3).
    split.
    + split; simpl.
      * intros id' z. rewrite He. intros [[<- <-]|[_ Hz]]%lookup_insert_Some; [apply (sf_fresh s W) in Hx; fold d in Hx; lia|apply (sf_fresh s W) in Hz; fold d in Hz; lia].
      * intros i1 z1 i2 z2. rewrite He.
        intros [[<- <-]|[N1 Hz1]]%lookup_insert_Some [[<- <-]|[N2 Hz2]]%lookup_insert_Some Ha Hru Hor; try done.
        -- exfalso. apply N2. eapply (sf_unique s W id x i2 z2); fold d; try done; [congruence|congruence|].
           rewrite Hmy in Hor. destruct Hor; [left; congruence|by right].
        -- exfalso. apply N1. eapply (sf_unique s W id x i1 z1); fold d; try done; [congruence|congruence|].
           destruct Hor as [Hor|[Hor Hne]]; [left; congruence|]. right. split; congruence.
        -- by eapply (sf_unique s W).
      * intros id' z. rewrite He. intros [[<- <-]|[_ Hz]]%lookup_insert_Some; [|by apply (sf_truth s W)].
        repeat split; intros Hq; congruence.
      * intros i f Hf. destruct (sf_flight s W i f Hf) as [Ht (z & Hz & Hrest)]. split; [done|]. exists z. split; [|done].
        apply Hother; [done|]. by apply (Hnof i).
      * apply (sf_owner s W).
      * intros z Hz. destruct (sf_log s W z Hz) as (z' & Hz' & Hk'). destruct (decide (se_exec z = id)) as [Heq|Hne].
        -- fold d in Hz'. rewrite Heq, Hx in Hz'. injection Hz' as <-. exists y. rewrite He, Heq. split; [apply lookup_insert_eq|].
           destruct Hk' as (M1 & M2 & M3). repeat split; congruence.
        -- exists z'. split; [by apply Hother|done].
      * apply (sf_once s W).
    + intros id' [= <-]. split; [done|]. split; [done|]. exists y. rewrite He. split; [apply lookup_insert_eq|]. done.
Qed.

Lemma swf_finished s i f e env d' res : swf s -> sw_flights s !! i = Some f -> fl_stage f = Ended e ->
  finish_forward (fl_account f) env (fl_exec f) e (pw_db (sw_w s)) = (res, d') ->
  swf (mkSW (pw_set_db d' (sw_w s)) (delete i (sw_flights s)) (sw_log s)).
Proof.
  intros W Hf Hst Hfin. set (d := pw_db (sw_w s)) in *. destruct (sf_flight s W i f Hf) as [Htruth (x & Hx & Hk & Hm)]. fold d in Hx.
  unfold flight_truth in Htruth. rewrite Hst in Htruth.
  assert (Hrows : rd_next_exec d' = rd_next_exec d /\
    (rd_execs d' = rd_execs d \/ exists y, rd_execs d' = <[fl_exec f := y]> (rd_execs d) /\
       keyed (fl_account f) (ru_id (fl_rule f)) (fl_email f) y /\ ex_message_id y = ex_message_id x /\ truthful (fl_exec f) y (sw_log s))).
  { assert (Hcase : forall status results code r0, finishExecution env (fl_account f) (fl_exec f) status results code d = (r0, d') ->
       (forall y, ex_status y = status -> ex_error y = code -> truthful (fl_exec f) y (sw_log s)) ->
       rd_next_exec d' = rd_next_exec d /\
       (rd_execs d' = rd_execs d \/ exists y, rd_execs d' = <[fl_exec f := y]> (rd_execs d) /\
       keyed (fl_account f) (ru_id (fl_rule f)) (fl_email f) y /\ ex_message_id y = ex_message_id x /\ truthful (fl_exec f) y (sw_log s))).
    { intros status results code r0 Hr Ht. apply finish_rows in Hr as [Hn [He|(x0 & y & Hx0 & He & Hky & Hmy & Hsy & Hey)]]; [by split; [|left]|].
      rewrite Hx in Hx0. injection Hx0 as <-. split; [done|]. right. exists y. split; [done|]. split; [by apply Hky|]. split; [done|]. by apply Ht. }
    destruct e as [rs|code cause]; simpl in Hfin.
    - eapply Hcase; [exact Hfin|]. intros y Hs He. split; [done|]. split; intros Hq; congruence.
    - destruct (finishFailedExecution env (fl_account f) (fl_exec f) code d) as [r0 d0] eqn:Er. injection Hfin as _ <-.
      eapply Hcase; [exact Er|]. intros y Hs He. split; [intros Hq; congruence|]. split; [|intros Hq; congruence].
      intros _ Hor. apply Htruth. destruct Hor; congruence. }
  destruct Hrows as [Hn [He|(y & He & Hky & Hmy & Hty)]].
  - split; simpl; rewrite ?He, ?Hn; try apply W.
    + intros j g Hg. rewrite lookup_delete_Some in Hg. apply (sf_flight s W j g), Hg.
    + intros j k g h Hg Hh. rewrite lookup_delete_Some in Hg, Hh. apply (sf_owner s W); [apply Hg|apply Hh].
  - assert (Hother : forall id z, rd_execs d !! id = Some z -> id <> fl_exec f -> rd_execs d' !! id = Some z).
    { intros id z Hz Hne. by rewrite He, lookup_insert_ne. }
    destruct Hk as (K1 & K2 & K3), Hky as (L1 & L2 & L3).
    split; simpl.
    + intros id z. rewrite He, Hn. intros [[<- <-]|[_ Hz]]%lookup_insert_Some; by eapply (sf_fresh s W).
    + intros i1 z1 i2 z2. rewrite He.
      intros [[<- <-]|[N1 Hz1]]%lookup_insert_Some [[<- <-]|[N2 Hz2]]%lookup_insert_Some Ha Hru Hor; try done.
      * exfalso. apply N2. eapply (sf_unique s W _ x i2 z2); fold d; try done; [congruence|congruence|].
        rewrite Hmy in Hor. destruct Hor; [left; congruence|by right].
      * exfalso. apply N1. eapply (sf_unique s W _ x i1 z1); fold d; try done; [congruence|congruence|].
        destruct Hor as [Hor|[Hor Hne]]; [left; congruence|]. right. split; congruence.
      * by eapply (sf_unique s W).
    + intros id z. rewrite He. intros [[<- <-]|[_ Hz]]%lookup_insert_Some; [done|by apply (sf_truth s W)].
    + intros j g Hg. rewrite lookup_delete_Some in Hg. destruct Hg as [Hne Hg]. destruct (sf_flight s W j g Hg) as [Ht (z & Hz & Hrest)].
      split; [done|]. exists z. split; [|done]. apply Hother; [done|]. intros Heq. apply Hne. by eapply (sf_owner s W).
    + intros j k g h Hg Hh. rewrite lookup_delete_Some in Hg, Hh. apply (sf_owner s W); [apply Hg|apply Hh].
    + intros z Hz. destruct (sf_log s W z Hz) as (z' & Hz' & Hk'). destruct (decide (se_exec z = fl_exec f)) as [Heq|Hne].
      * fold d in Hz'. rewrite Heq, Hx in Hz'. injection Hz' as <-. exists y. rewrite He, Heq. split; [apply lookup_insert_eq|].
        destruct Hk' as (M1 & M2 & M3). repeat split; congruence.
      * exists z'. split; [by apply Hother|done].
    + apply (sf_once s W).
Qed.

Lemma swf_submitted s i f max auth tenant sender env e b' q' : swf s -> sw_flights s !! i = Some f -> fl_stage f = Reserved ->
  submit_forward max auth tenant (fl_account f) sender (fl_parsed f) env (fl_rule f) (pw_blobs (sw_w s)) (pw_q (sw_w s)) = (e, b', q') ->
  swf (mkSW (mkPWorld (pw_db (sw_w s)) b' q') (<[i := at_stage (Ended e) f]> (sw_flights s))
         (sw_log s ++ [mkSent (fl_account f) (ru_id (fl_rule f)) (fl_email f) (fl_exec f) e (pw_q (sw_w s)) q'])).
Proof.
  intros W Hf Hst Hsub. destruct (sf_flight s W i f Hf) as [Hun (x & Hx & Hk & Hm)]. unfold flight_truth in Hun. rewrite Hst in Hun.
  set (y := mkSent _ _ _ _ _ _ _).
  split; simpl.
  - apply W.
  - apply W.
  - intros id z Hz. destruct (sf_truth s W id z Hz) as (T1 & T2 & T3).
    assert (Hid : ex_status z <> "matched"%string -> id <> fl_exec f) by (intros Hne ->; simplify_eq).
    split; [intros Hq; by apply sent_snoc, T1|]. split.
    + intros Hq Hor. apply unsent_snoc; [by apply T2|]. intros Heq. exfalso. by apply Hid; [rewrite Hq|].
    + intros Hq. apply unsent_snoc; [by apply T3|]. intros Heq. exfalso. by apply Hid; [rewrite Hq|].
  - intros j g. intros [[<- <-]|[Hne Hg]]%lookup_insert_Some.
    + split; [|by exists x]. unfold flight_truth. simpl. destruct e as [rs|code cause].
      * exists y, rs. split; [apply elem_of_app; right; by apply list_elem_of_singleton|done].
      * intros Hc. apply unsent_snoc; [done|]. intros _ Hch. apply Hch. simpl. symmetry. by eapply submit_forward_failed.
    + destruct (sf_flight s W j g Hg) as [Ht Hrow]. split; [|done].
      assert (Hid2 : fl_exec g <> fl_exec f) by (intros Heq; apply Hne; by eapply (sf_owner s W)).
      unfold flight_truth in *. destruct (fl_stage g) as [|[rs|code cause]].
      * apply unsent_snoc; [done|]. simpl. intros Heq. congruence.
      * by apply sent_snoc.
      * intros Hc. apply unsent_snoc; [by apply Ht|]. simpl. intros Heq. congruence.
  - intros j k g h. intros [[<- <-]|[Hne Hg]]%lookup_insert_Some [[<- <-]|[Hne' Hh]]%lookup_insert_Some; simpl; intros Heq; try done.
    + by eapply (sf_owner s W).
    + by eapply (sf_owner s W).
    + by eapply (sf_owner s W).
  - intros z [Hz| ->%list_elem_of_singleton]%elem_of_app; [by apply (sf_log s W)|]. by exists x.
  - intros j k z1 z2 Hj Hk' Heq C1 C2.
    apply lookup_snoc_Some in Hj as [[_ Hj]|[-> <-]]; apply lookup_snoc_Some in Hk' as [[_ Hk']|[-> <-]].
    + by eapply (sf_once s W).
    + exfalso. apply (Hun z1); [by eapply list_elem_of_lookup_2|done|done].
    + exfalso. apply (Hun z2); [by eapply list_elem_of_lookup_2|by rewrite <- Heq|done].
    + done.
Qed.

Lemma swf_step s s' : swf s -> sstep s s' -> swf s'.
Proof.
  intros W Hs. destruct Hs as [s i acct email r parsed env d' id Hi Hb Hr|s acct email r parsed env res d' Hr Hnot
    |s i f max auth tenant sender env e b' q' Hf Hst Hsub|s i f e env res d' Hf Hst Hfin|s i|s d' He Hn|s b' q'].
  - unfold reserve in Hr. rewrite Hb in Hr. cbn [String.eqb] in Hr. apply reserve_rows in Hr as (o & Ho & Hid).
    rewrite (Hid id eq_refl) in Ho. destruct (swf_reserved s _ _ _ _ _ _ _ W Ho (or_introl eq_refl)) as [W' Hrow].
    destruct (Hrow id eq_refl) as (Hun & Hnof & x & Hx & Hk & Hm).
    destruct W' as [F1 F2 F3 F4 F5 F6 F7]. split; try done; simpl in *.
    + intros j g. intros [[<- <-]|[_ Hg]]%lookup_insert_Some; [|exact (F4 j g Hg)]. split; [done|]. by exists x.
    + intros j k g h. intros [[<- <-]|[_ Hg]]%lookup_insert_Some [[<- <-]|[_ Hh]]%lookup_insert_Some Heq; try done.
      * simpl in Heq. exfalso. by eapply (Hnof k h).
      * simpl in Heq. exfalso. by eapply (Hnof j g).
      * by eapply F5.
  - unfold reserve in Hr. apply reserve_rows in Hr as (o & Ho & _).
    apply (swf_reserved s) in Ho as [W' _]; [done|done|]. destruct (String.eqb _ _); [by left|by right].
  - by eapply swf_submitted.
  - by eapply swf_finished.
  - split; simpl; try apply W.
    + intros j g Hg. rewrite lookup_delete_Some in Hg. apply (sf_flight s W j g), Hg.
    + intros j k g h Hg Hh. rewrite lookup_delete_Some in Hg, Hh. apply (sf_owner s W); [apply Hg|apply Hh].
  - split; simpl; rewrite ?He, ?Hn; apply W.
  - split; simpl; apply W.
Qed.

(** ** A processor takes these steps *)

Lemma run_rule_steps max auth tenant acct email sender parsed env r w res w' fl log i :
  run_rule max auth tenant acct email sender parsed env r w = (res, w') -> fl !! i = None ->
  exists log', rtc sstep (mkSW w fl log) (mkSW w' fl log').
Proof.
  intros Hrun Hi. unfold run_rule in Hrun. destruct (matches r parsed); [|injection Hrun as _ <-; by exists log]. cbn [negb] in Hrun.
  destruct (reserve acct email parsed env r (pw_db w)) as [reserved d] eqn:Er.
  assert (Hnot : blockedCode r parsed <> EmptyString \/ (forall id, reserved <> Ok (Some id)) ->
                 rtc sstep (mkSW w fl log) (mkSW (pw_set_db d w) fl log)).
  { intros Hn. apply rtc_once. exact (ss_not_reserved (mkSW w fl log) acct email r parsed env reserved d Er Hn). }
  destruct reserved as [[id|]|e]; [| |].
  - destruct (String.eqb_spec (blockedCode r parsed) EmptyString) as [Hb|Hb]; cbn [negb] in Hrun.
    2:{ injection Hrun as _ <-. exists log. apply Hnot. by left. }
    destruct (submit_forward max auth tenant acct sender parsed env r (pw_blobs (pw_set_db d w)) (pw_q (pw_set_db d w))) as [[e b] q] eqn:Es.
    destruct (finish_forward acct env id e (pw_db (pw_set_db d w))) as [res' d'] eqn:Ef. injection Hrun as _ <-.
    set (f := mkFlight acct email r parsed id Reserved).
    eexists. eapply rtc_l; [exact (ss_reserve (mkSW w fl log) i acct email r parsed env d id Hi Hb Er)|]. simpl. fold f.
    eapply rtc_l; [refine (ss_submit (mkSW (pw_set_db d w) (<[i:=f]> fl) log) i f max auth tenant sender env e b q _ eq_refl Es); apply lookup_insert_eq|].
    simpl. eapply rtc_l.
    { refine (ss_finish (mkSW (mkPWorld d b q) (<[i:=at_stage (Ended e) f]> (<[i:=f]> fl)) _) i (at_stage (Ended e) f) e env res' d' _ eq_refl _);
        [apply lookup_insert_eq|exact Ef]. }
    simpl. rewrite insert_insert_eq, delete_insert_id by done. apply rtc_refl.
  - injection Hrun as _ <-. exists log. apply Hnot. right. done.
  - injection Hrun as _ <-. exists log. apply Hnot. right. done.
Qed.

Lemma Process_steps p now envs acct email raw w e w' fl log i :
  Process p now envs acct email raw w = (e, w') -> fl !! i = None -> exists log', rtc sstep (mkSW w fl log) (mkSW w' fl log').
Proof.
  intros Hp Hi. unfold Process in Hp. cbv zeta in Hp. destruct (_ || _); [injection Hp as _ <-; by exists log|].
  destruct (loadContext acct (pw_db w)) as [[[[tenant sender] addrs] rules]|e1]; [|injection Hp as _ <-; by exists log].
  destruct (parseMessageWithLimit raw _ _ addrs now) as [parsed|e1]; [|injection Hp as _ <-; by exists log].
  revert Hp. generalize 0%nat as n. generalize (@None err) as fe. revert w log.
  induction rules as [|r rules IH]; intros w log fe n; cbn [run_rules]; [intros [= _ <-]; by exists log|].
  destruct (run_rule _ _ tenant acct email sender parsed (envs n) r w) as [res w1] eqn:Er. intros Hp.
  eapply run_rule_steps in Er as [log1 Hs1]; [|exact Hi]. destruct (IH _ log1 _ _ Hp) as [log2 Hs2].
  exists log2. by etrans.
Qed.

(** What the receiving server relies on: processing a message adds rows of its account to the
    queue and touches no other. *)
Lemma run_rule_rows max auth tenant acct email sender parsed env r w :
  rows_of acct (pw_q w) (pw_q (run_rule max auth tenant acct email sender parsed env r w).2).
Proof.
  assert (Hrefl : forall q, rows_of acct q q) by (intros q; split; auto).
  unfold run_rule. destruct (negb (matches r parsed)); [apply Hrefl|].
  destruct (reserve _ _ _ _ _ _) as [[[id|]|e] d]; [|apply Hrefl..]. destruct (negb _); [apply Hrefl|].
  unfold submit_forward. destruct (composeForwardWithLimit _ _ _ _ _ _ _) as [fw|e].
  - pose proof (submit_from (rn_now env) (rn_commit env) tenant acct 0 sender (ru_forwardTargets r) (str_of fw) 0 no_dsn
      (pw_blobs (pw_set_db d w)) (pw_q (pw_set_db d w))) as Hs.
    unfold Submit. destruct (submit _ _ _ _ _ _ _ _ _ _ _ _) as [[[ids|e] b] q]; cbn [snd] in Hs;
      destruct (finish_forward _ _ _ _ _) as [res d']; by eapply rows_from_of.
  - destruct (finish_forward _ _ _ _ _) as [res d']. apply Hrefl.
Qed.
Lemma Process_rows p now envs acct email raw w : rows_of acct (pw_q w) (pw_q (Process p now envs acct email raw w).2).
Proof.
  assert (Hrefl : forall q, rows_of acct q q) by (intros q; split; auto).
  unfold Process. destruct (_ || _); [apply Hrefl|]. destruct (loadContext _ _) as [[[[tenant sender] addrs] rules]|]; [|apply Hrefl].
  destruct (parseMessageWithLimit _ _ _ _ _) as [parsed|]; [|apply Hrefl].
  generalize (None : option err) as fe. generalize 0%nat as i. revert w.
  induction rules as [|r rules IH]; intros w i fe; cbn [run_rules]; [apply Hrefl|].
  pose proof (run_rule_rows (maxMessageSize p) (po_RuleMetadata p) tenant acct email sender parsed (envs i) r w) as Hr.
  destruct (run_rule _ _ _ _ _ _ _ _ _ _) as [res w1]. eapply rows_of_trans; [exact Hr|apply IH].
Qed.

Definition fresh_start (w : PWorld) : SW := mkSW w ∅ [].
Lemma swf_start w : rd_execs (pw_db w) = ∅ -> swf (fresh_start w).
Proof.
  intros He. split; simpl; rewrite ?He; try done; try (intros; set_solver).
Qed.

(** [C27] A rule forwards an email at most once, and a signed forward at most once even when it
    is stored again as another email, over any interleaving of processors, crashes,
    failed statements, unknown commits and edits of rules: at most one submission of an
    execution changed the queue, executions are unique per rule and email and per rule
    and signed message id, and the record tells the truth: what it calls queued was
    submitted, what it calls blocked or failed before the queue was not. *)
Theorem forwarded_once (w : PWorld) (s : SW) :
  rd_execs (pw_db w) = ∅ -> rtc sstep (fresh_start w) s ->
  (forall i j x y, sw_log s !! i = Some x -> sw_log s !! j = Some y -> changed x -> changed y ->
     se_account x = se_account y -> se_rule x = se_rule y ->
     (se_email x = se_email y \/
      (exists ex ey, rd_execs (pw_db (sw_w s)) !! se_exec x = Some ex /\ rd_execs (pw_db (sw_w s)) !! se_exec y = Some ey /\
         ex_message_id ex = ex_message_id ey /\ ex_message_id ex <> EmptyString)) -> i = j) /\
  (forall id x, rd_execs (pw_db (sw_w s)) !! id = Some x ->
     (ex_status x = "queued"%string -> sent id (sw_log s)) /\
     (ex_status x = "failed"%string -> ex_error x = "submit_failed"%string \/ ex_error x = "compose_failed"%string -> unsent id (sw_log s)) /\
     (ex_status x = "loop_blocked"%string -> unsent id (sw_log s))).
Proof.
  intros He Hr. assert (W : swf s).
  { assert (W0 : swf (fresh_start w)) by by apply swf_start. induction Hr as [|s0 s1 s2 Hs _ IH]; [done|]. apply IH. by eapply swf_step. }
  split; [|intros id x Hx; by apply (sf_truth s W)].
  intros i j x y Hx Hy Cx Cy Ha Hr0 Hor.
  destruct (sf_log s W x) as (ex & Hex & K1 & K2 & K3); [by eapply list_elem_of_lookup_2|].
  destruct (sf_log s W y) as (ey & Hey & L1 & L2 & L3); [by eapply list_elem_of_lookup_2|].
  apply (sf_once s W i j x y Hx Hy); [|done|done].
  apply (sf_unique s W _ ex _ ey Hex Hey); [congruence|congruence|].
  destruct Hor as [Hor|(ex' & ey' & Hex' & Hey' & Hm & Hne)]; [left; congruence|]. right. simplify_eq. done.
Qed.

End Spec.

(** ** Instances *)

#[local] Instance rp_unicode : Unicode :=
  { unicode_lower := fun r => r; EqualFold := fun s t => String.eqb (ascii_lower s) (ascii_lower t) }.
#[local] Instance rp_upper : UnicodeUpper := { unicode_upper := fun r => r }.
#[local] Instance rp_hmac : Hmac := { hmac_sha256 := fun k m => take 32 (rev (bytes_of m) ++ replicate 32 "x"%char) }.
Lemma rp_pad (l : list ascii) : length (take 32 (rev l ++ replicate 32 "y"%char)) = 32%nat.
Proof. rewrite length_take, length_app, length_replicate. lia. Qed.
#[local] Instance rp_sha : Sha256 := { sha256 := fun l => take 32 (rev l ++ replicate 32 "y"%char); sha256_length := rp_pad }.
#[local] Instance rp_address : AddressParser :=
  { ParseAddress := fun s => match split s "@" with [u; h] => Some (mkAddress u h) | _ => None end }.
#[local] Instance rp_text : AddressText :=
  { Address_String := fun a => (sa_Localpart a ++ "@" ++ sa_Domain a)%string; Localpart_String := fun s => s }.
#[local] Instance rp_fold : CaseFold := { Fold := ascii_lower }.
#[local] Instance rp_composer : Composer :=
  { HeaderAddrs := fun name l => header_line name (join ", " (Address_String ∘ snd <$> l)); HeaderSubject := header_line "Subject" }.
(** A parser of plain text messages. *)
#[local] Instance rp_parser : MessageParser :=
  { ParseMime := fun raw =>
      match ReadMIMEHeader raw with
      | None => None
      | Some (h, body) =>
          match ParseAddress (Get h "From") with
          | None => None
          | Some from => Some (mkParsed from (Get h "Subject") h None (mkPart [] EmptyString EmptyString "TEXT" "PLAIN" (Some (body, false))))
          end
      end }.

Definition rp_mail : list ascii :=
  header_line "From" "boss@a.example" ++ header_line "Subject" "Invoice 7" ++ CRLF ++ bytes_of "please pay".
Definition rp_input : MailRuleInput :=
  mkInput "invoices" true 0 "all" [mkCond "subject" "contains" "invoice"] EmptyString EmptyString ["books@c.example"].
Definition rp_db : RDB :=
  mkRDB {[ 1 := mkAccountRow 1 9 false ]} {[ 1 := (1, "x.example"%string) ]} [mkAddressRow 1 1 1 "bot" false]
    {[ 3 := mkRuleRow 1 rp_input 9 0 0 ]} 4 ∅ 1.
Definition rp_world : PWorld := mkPWorld rp_db no_files (mkQDB {[1]} {[1]} ∅ [] ∅ ∅ 1 1).
Definition rp_env (co : commit) (n : nat) : RunEnv :=
  mkRunEnv 100 StmtOk (mkForwardEnv 100 "Thu, 01 Jan 1970 00:01:40 +0000" (Some (replicate 18 "r"%char)) "b1" "b2") co StmtOk.
Definition rp_process (co : commit) (w : PWorld) : PWorld := (Process (mkProcessor None 0) 100 (rp_env co) 1 5 rp_mail w).2.
(** Unknown whether committed, although it was; then the same email again. *)
Definition rp_once : PWorld := rp_process (CommitError true) rp_world.
Definition rp_twice : PWorld := rp_process Committed rp_once.

Lemma process_of {A B} (x : A * B) : x = (x.1, x.2).
Proof. by destruct x. Qed.

Lemma forwarded_once_witness :
  size (q_rows (pw_q rp_once)) = 1%nat /\ size (q_rows (pw_q rp_twice)) = 1%nat /\
  exists log, rtc sstep (fresh_start rp_world) (mkSW rp_twice ∅ log) /\
    (forall i j x y, log !! i = Some x -> log !! j = Some y -> changed x -> changed y ->
       se_account x = se_account y -> se_rule x = se_rule y -> se_email x = se_email y -> i = j).
Proof.
  split; [vm_compute; reflexivity|]. split; [vm_compute; reflexivity|].
  destruct (Process_steps (mkProcessor None 0) 100 (rp_env (CommitError true)) 1 5 rp_mail rp_world _ _ ∅ [] 1 (process_of _) (lookup_empty 1))
    as [log1 Hs1].
  destruct (Process_steps (mkProcessor None 0) 100 (rp_env Committed) 1 5 rp_mail rp_once _ _ ∅ log1 1 (process_of _) (lookup_empty 1))
    as [log2 Hs2].
  exists log2. assert (Hs : rtc sstep (fresh_start rp_world) (mkSW rp_twice ∅ log2)) by (etransitivity; [exact Hs1|exact Hs2]).
  split; [exact Hs|]. intros i j x y Hx Hy Cx Cy Ha Hr He.
  exact (proj1 (forwarded_once rp_world (mkSW rp_twice ∅ log2) eq_refl Hs) i j x y Hx Hy Cx Cy Ha Hr (or_introl He)).
Defined.
