(* ===== verification/ForwardSpec.v ===== *)
(** * Chains of forwards end

    Agents forward each other's mail by rules.  Every forward is marked as automatic and
    carries the signed trace of the rules that made it, so that a rule never forwards
    its own forwards, whatever way they come back. *)

From S2P Require Import Prelude GoStrings Strconv Verp Headers Smtp Base64 Textproto AutoReplyChain ChainSpec RuleMetadata RuleSpec MailRules RuleProcessSpec.

Local Open Scope go_scope.

(** ** Traces in headers *)

Lemma join_no_lf l : Forall no_lf l -> no_lf (join "," l).
Proof.
  induction 1 as [|s l Hs Hl IH]; [intros Hin; by apply elem_of_nil in Hin|]. cbn [join]. destruct l as [|t l]; [done|].
  unfold no_lf. rewrite !bytes_of_app. intros [Hin|[Hin|Hin]%elem_of_app]%elem_of_app; [by apply Hs| |by apply IH].
  apply list_elem_of_singleton in Hin. discriminate Hin.
Qed.

Lemma trace_loop_range seen parts t : trace_loop seen parts = Some t -> Forall (fun id => is_i64 id = true) t.
Proof.
  revert seen t. induction parts as [|p parts IH]; intros seen t; simpl; [by intros [= <-]|].
  destruct (ParseInt (trim_space p)) as [id|] eqn:Ep; [|done]. destruct (_ || _); [done|].
  destruct (trace_loop (id :: seen) parts) as [t'|] eqn:Et; [|done]. intros [= <-]. constructor; [by eapply ParseInt_range|by eapply IH].
Qed.
Lemma parse_range text t : parseRuleTrace text = Some t -> Forall (fun id => is_i64 id = true) t.
Proof. unfold parseRuleTrace. destruct (String.eqb _ _); [done|]. cbv zeta. destruct (_ <? _); [done|]. apply trace_loop_range. Qed.

Section Spec.
Context `{Unicode} `{UnicodeUpper} `{Hmac} `{Sha256} `{AddressParser} `{MessageParser} `{AddressText} `{CaseFold} `{Composer}.

(** ** What a verified message claims *)

(** The text whose HMAC a version 3 signature is compared with, and the signature. *)
Definition claimed (raw : list ascii) : option (string * list ascii) :=
  '(h, digest) ← verificationContentDigest raw;
  originalFrom ← singleHeader h HeaderOriginalFrom;
  sentBy ← singleHeader h HeaderSentBy;
  ruleID ← (singleHeader h HeaderRuleID ≫= ParseInt);
  hop ← (singleHeader h HeaderRuleHop ≫= ParseInt);
  messageID ← singleHeader h "Message-ID";
  recipientsText ← singleHeader h HeaderRecipients;
  expiresAt ← (singleHeader h HeaderExpires ≫= ParseInt);
  '(version, signature) ← (singleHeader h HeaderSignature ≫= RuleMetadata.decodeSignature);
  traceText ← singleHeader h HeaderRuleTrace;
  m ← canonicalScalarMetadata (mkMeta originalFrom sentBy ruleID hop [] messageID [] expiresAt false);
  if String.eqb version signatureVersion then Some (mac_input m signatureVersion traceText recipientsText digest, signature) else None.

Lemma scalar_separable a b : canonicalScalarMetadata a = Some b -> is_i64 (md_RuleID a) = true -> is_i64 (md_ExpiresAt a) = true -> separable b.
Proof.
  intros Ha Hid Hexp. assert (Hk := scalar_kept _ _ Ha). destruct Hk as (K1 & K2 & K3 & K4 & _).
  unfold canonicalScalarMetadata in Ha. cbv zeta in Ha.
  destruct (_ || contains_any [CR; LF] (trim_space (md_SentBy a))) eqn:E1; [discriminate|].
  destruct (_ || (maxHop <? md_Hop a)); [discriminate|]. destruct (validMessageID _) eqn:E3; [|discriminate]. destruct (md_ExpiresAt a <=? 0); [discriminate|].
  injection Ha as <-. apply orb_false_iff in E1 as [E1 S2]. apply orb_false_iff in E1 as [_ S1].
  unfold validMessageID in E3. cbv zeta in E3. apply andb_true_iff in E3 as [_ E3]. apply negb_true_iff in E3.
  unfold separable. cbn [md_OriginalFrom md_SentBy md_MessageID md_RuleID md_Hop md_ExpiresAt].
  split; [apply (contains_any_none _ _ _ S1); right; by left|]. split; [apply (contains_any_none _ _ _ S2); right; by left|].
  split; [apply (contains_any_none _ _ _ E3); right; by left|]. split; [done|]. split; [|done].
  unfold maxHop in K4. unfold is_i64, min_int64, max_int64. lia.
Qed.

(** A trusted message has the HMAC of what it claims, and its trace is the claimed one. *)
Lemma trusted_claim key raw expected now m : VerifyAny key raw expected now = Some m -> md_ChainTrusted m = true ->
  exists m0 traceText rtext d, claimed raw = Some (mac_input m0 signatureVersion traceText rtext d, hmac_sha256 key (mac_input m0 signatureVersion traceText rtext d)) /\
    separable m0 /\ no_lf traceText /\ no_lf rtext /\ length d = 32%nat /\ parseRuleTrace traceText = Some (md_RuleTrace m).
Proof.
  unfold VerifyAny, claimed. destruct (verificationContentDigest raw) as [[h digest]|] eqn:Ed; [|done]. cbn [mbind option_bind].
  assert (Hdig : exists body, ReadMIMEHeader raw = Some (h, body) /\ length digest = 32%nat).
  { revert Ed. unfold verificationContentDigest, messageContentDigestWithSignatureRequirement. destruct (ReadMIMEHeader raw) as [[h' body]|]; [|done].
    destruct (_ && _); [done|]. intros [= <- <-]. exists body. split; [done|]. apply sha256_length. }
  destruct Hdig as (body & Hraw & Hlen). unfold verifyHeader. intros Hv Htr.
  destruct (singleHeader h HeaderOriginalFrom) as [ofrom|]; [|done]. destruct (singleHeader h HeaderSentBy) as [sby|]; [|done].
  destruct (singleHeader h HeaderRuleID) as [idt|]; [|done]. destruct (singleHeader h HeaderRuleHop) as [hopt|]; [|done].
  destruct (singleHeader h "Message-ID") as [mid|]; [|done]. destruct (singleHeader h HeaderRecipients) as [rtext|] eqn:Erec; [|done].
  destruct (singleHeader h HeaderExpires) as [et|]; [|done]. destruct (singleHeader h HeaderSignature) as [st|]; [|done].
  cbn [mbind option_bind] in Hv |- *. destruct (ParseInt idt) as [rid|] eqn:Eid; [|done]. destruct (ParseInt hopt) as [hop|]; [|done].
  destruct (ParseInt et) as [e|] eqn:Ee; [|done]. cbn [mbind option_bind] in Hv |- *.
  destruct ((e <=? now) || _); [done|]. destruct (RuleMetadata.decodeSignature st) as [[v sg]|]; [|done]. cbn [mbind option_bind] in Hv |- *. cbv zeta in Hv.
  destruct (String.eqb_spec v signatureVersion) as [->|Hne].
  2:{ destruct (canonicalScalarMetadata _) as [m0|]; [|done]. cbn [mbind option_bind] in Hv. destruct (negb _); [done|].
      destruct (canonicalBaseMetadata _) as [m1|]; [|done]. cbn [mbind option_bind] in Hv. destruct (negb _); [done|].
      injection Hv as <-. done. }
  destruct (singleHeader h HeaderRuleTrace) as [tt_|] eqn:Ett; [|done]. cbn [mbind option_bind] in Hv |- *.
  destruct (canonicalScalarMetadata _) as [m0|] eqn:E0; [|done]. cbn [mbind option_bind] in Hv |- *.
  destruct (bool_decide _) eqn:Emac; [|done]. cbn [negb] in Hv. apply bool_decide_eq_true in Emac.
  destruct (canonicalBaseMetadata _) as [m1|] eqn:E1; [|done]. cbn [mbind option_bind] in Hv.
  destruct (containsAnyRecipient _ _); [|done]. cbn [negb] in Hv.
  destruct (parseRuleTrace tt_) as [tr|] eqn:Etr; [|done]. cbn [mbind option_bind] in Hv.
  destruct (canonicalMetadata (set_trace tr m1)) as [m2|] eqn:E2; [|done]. cbn [mbind option_bind] in Hv. injection Hv as <-.
  exists m0, tt_, rtext, digest. split; [by rewrite Emac|].
  split; [by eapply (scalar_separable _ _ E0); [eapply ParseInt_range|eapply ParseInt_range]|].
  split; [by eapply single_no_lf|]. split; [by eapply single_no_lf|]. split; [done|].
  apply canonical_parts in E2 as (_ & _ & _ & _ & Ht & _). simpl in *. by rewrite Ht.
Qed.

(** ** What a forward signs *)

(** The text that the signature of a forward covers, when the forward can be composed. *)
Definition signed_text (env : ForwardEnv) (from : string) (targets : list string) (source : parsedMessage) (ruleID : Z) : option string :=
  fromAddress ← ParseAddress from;
  to ← mapM ParseAddress targets;
  messageID ← newMessageID (fe_random env) (sa_Domain fromAddress);
  let value := forward_metadata env fromAddress targets source ruleID messageID in
  fields ← metadata_fields value;
  mc ← canonicalMetadata value;
  '(_, digest) ← messageContentDigest (compose_unsigned env fromAddress to source messageID fields);
  Some (mac_input mc signatureVersion (formatRuleTrace (md_RuleTrace mc)) (join "," (md_Recipients mc)) digest).

Lemma compose_signed env from targets source id max key out :
  composeForwardWithLimit env from targets source id max (Some key) = Ok out ->
  exists text raw0, signed_text env from targets source id = Some text /\
    insertMessageHeader raw0 HeaderSignature (signatureVersion ++ "." ++ RawURL_Encode (hmac_sha256 key text)) = Some out.
Proof.
  unfold composeForwardWithLimit, signed_text. destruct (ParseAddress from) as [fa|]; [|done]. destruct (mapM ParseAddress targets) as [to|]; [|done].
  cbn [mbind option_bind]. destruct (newMessageID _ _) as [mid|]; [|done]. cbn [mbind option_bind]. cbv zeta.
  destruct (metadata_fields _) as [fields|]; [|done]. cbn [mbind option_bind]. destruct (_ && _); [done|].
  unfold Sign. destruct (canonicalMetadata _) as [mc|] eqn:Ec; [|done]. cbn [mbind option_bind].
  destruct (messageContentDigest _) as [[h d]|]; [|done]. cbn [mbind option_bind]. destruct (singleHeader h "Message-ID") as [i|]; [|done].
  cbn [mbind option_bind]. destruct (negb _); [done|]. destruct (insertMessageHeader _ _ _) as [raw|] eqn:Ei; [|done]. destruct (_ && _); [done|].
  intros [= <-]. eexists _, _. split; [reflexivity|]. exact Ei.
Qed.

Lemma signed_text_trace env from targets source id text :
  signed_text env from targets source id = Some text -> Forall (fun i => is_i64 i = true) (pm_ruleTrace source) ->
  is_i64 id = true -> is_i64 (Expiry (fe_now env)) = true ->
  exists mc rtext d, text = mac_input mc signatureVersion (formatRuleTrace (pm_ruleTrace source ++ [id])) rtext d /\ separable mc /\
    no_lf rtext /\ length d = 32%nat /\ FormatRuleTrace (pm_ruleTrace source ++ [id]) = Some (formatRuleTrace (pm_ruleTrace source ++ [id])).
Proof.
  intros Ht Htr Hid Hexp. unfold signed_text in Ht. destruct (ParseAddress from) as [fa|]; [|done]. destruct (mapM ParseAddress targets) as [to|]; [|done].
  cbn [mbind option_bind] in Ht. destruct (newMessageID _ _) as [mid|]; [|done]. cbn [mbind option_bind] in Ht. cbv zeta in Ht.
  destruct (metadata_fields _) as [fields|]; [|done]. cbn [mbind option_bind] in Ht.
  destruct (canonicalMetadata _) as [mc|] eqn:Ec; [|done]. cbn [mbind option_bind] in Ht.
  destruct (messageContentDigest _) as [[h d]|] eqn:Ed; [|done]. cbn [mbind option_bind] in Ht. injection Ht as <-.
  apply canonical_parts in Ec as (a & Ha & Hmc & Hrec & Htrace & Hfmt & _). unfold forward_metadata in *. cbn [md_RuleTrace md_Recipients] in *.
  rewrite Htrace. exists mc, (join "," (md_Recipients mc)), d. split; [done|]. split.
  { rewrite Hmc. apply scalar_separable in Ha; done. }
  split; [|split; [|done]].
  - apply join_no_lf. apply Forall_forall. intros r Hr. apply (canonical_elem _ _ _ Hrec) in Hr. apply list_elem_of_fmap in Hr as (y & -> & _).
    apply recipient_no_lf.
  - revert Ed. unfold messageContentDigest, messageContentDigestWithSignatureRequirement. destruct (ReadMIMEHeader _) as [[]|]; [|done].
    cbn [andb]. intros [= _ <-]. apply sha256_length.
Qed.

(** ** A history of forwards *)

Record Forward := mkForward { fw_source : parsedMessage; fw_rule : rule; fw_text : string }.
(** The rules that a forward's trace lists. *)
Definition chain_of (f : Forward) : list Z := pm_ruleTrace (fw_source f) ++ [ru_id (fw_rule f)].

(** Forwards of any mailboxes, in the order they are composed.  A signature cannot be
    forged: a message with the HMAC of a text was signed, as that text, by a forward. *)
Inductive forwards (key : string) : list Forward -> Prop :=
| forwards_nil : forwards key []
| forwards_snoc log raw max expected now parsed r env from text out :
    forwards key log ->
    (forall t, claimed raw = Some (t, hmac_sha256 key t) -> t ∈ fw_text <$> log) ->
    parseMessageWithLimit raw max (Some key) expected now = Ok parsed ->
    blockedCode r parsed = EmptyString -> is_i64 (ru_id r) = true -> is_i64 (Expiry (fe_now env)) = true ->
    composeForwardWithLimit env from (ru_forwardTargets r) parsed (ru_id r) max (Some key) = Ok out ->
    signed_text env from (ru_forwardTargets r) parsed (ru_id r) = Some text ->
    forwards key (log ++ [mkForward parsed r text]).

Lemma parsed_trust raw max key expected now p : parseMessageWithLimit raw max (Some key) expected now = Ok p ->
  (pm_trustedRule p = false /\ pm_ruleTrace p = []) \/
  (pm_trustedRule p = true /\ exists m, VerifyAny key raw expected now = Some m /\ md_ChainTrusted m = true /\ pm_ruleTrace p = md_RuleTrace m).
Proof.
  unfold parseMessageWithLimit. destruct (ParseMime raw) as [pr|]; [|done]. destruct (extractForwardContent _ _) as [c|]; [|done]. cbv zeta.
  destruct (VerifyAny key raw expected now) as [m|]; [|intros [= <-]; by left]. destruct (md_ChainTrusted m) eqn:Et; intros [= <-]; [right|by left].
  split; [done|]. by exists m.
Qed.

(** A forward's source is fresh mail, or an earlier forward. *)
Definition grounded (log : list Forward) (f : Forward) : Prop :=
  (pm_trustedRule (fw_source f) = false /\ pm_automated (fw_source f) = false /\ pm_ruleTrace (fw_source f) = []) \/
  (exists f', f' ∈ log /\ pm_ruleTrace (fw_source f) = chain_of f').

Lemma forwards_inv key log : forwards key log -> forall i f, log !! i = Some f ->
  grounded (take i log) f /\ NoDup (chain_of f) /\ Forall (fun id => is_i64 id = true) (chain_of f) /\
  exists mc rtext d, fw_text f = mac_input mc signatureVersion (formatRuleTrace (chain_of f)) rtext d /\ separable mc /\
    no_lf rtext /\ length d = 32%nat /\ FormatRuleTrace (chain_of f) = Some (formatRuleTrace (chain_of f)).
Proof.
  induction 1 as [|log raw max expected now parsed r env from text out Hlog IH Hgen Hparse Hb Hid Hexp Hcomp Htext]; [done|].
  intros i f Hf. apply lookup_snoc_Some in Hf as [[Hi Hf]|[-> <-]]; [rewrite take_app_le by lia; by apply IH|].
  rewrite take_app_length. unfold blockedCode in Hb.
  destruct (pm_automated parsed && negb (pm_trustedRule parsed)) eqn:Ea; [done|]. destruct (bool_decide_reflect (ru_id r ∈ pm_ruleTrace parsed)) as [|Hnin]; [done|].
  assert (Hsrc : grounded log (mkForward parsed r text) /\ NoDup (pm_ruleTrace parsed) /\ Forall (fun id => is_i64 id = true) (pm_ruleTrace parsed)).
  { unfold grounded. cbn [fw_source]. destruct (parsed_trust _ _ _ _ _ _ Hparse) as [[Ht Htr]|(Ht & m & Hv & Hct & Htr)].
    - rewrite Htr. split; [left|by split; constructor]. split; [done|]. split; [|done]. rewrite Ht, andb_true_r in Ea. exact Ea.
    - destruct (trusted_claim _ _ _ _ _ Hv Hct) as (m0 & tt_ & rt & d & Hcl & Hsep & Hnt & Hnr & Hlen & Hp).
      apply Hgen, list_elem_of_fmap in Hcl as (f' & Heq & Hin). apply list_elem_of_lookup in Hin as Hix. destruct Hix as [j Hj].
      destruct (IH j f' Hj) as (_ & Hnd & Hr & mc & rt' & d' & Hft & Hsep' & Hnr' & Hlen' & Hfmt).
      assert (Hrange : Forall (fun id => is_i64 id = true) (chain_of f')) by done.
      rewrite Hft in Heq. assert (Hnt' : no_lf (formatRuleTrace (chain_of f'))).
      { apply join_no_lf. apply Forall_fmap. eapply Forall_impl; [exact Hr|]. intros z Hz. by apply format_no_lf. }
      assert (Hver : signatureVersion ∈ [signatureVersion; legacySignatureVersion]) by left.
      destruct (rule_signature_binds m0 mc _ _ _ _ _ _ _ _ Hsep Hsep' Hver Hver Hnt Hnt' Hnr Hnr' Hlen Hlen' Heq) as (_ & _ & _ & _ & _ & _ & _ & _ & Htt).
      destruct (Htt eq_refl) as [-> _]. rewrite (proj1 (trace_read _ _ Hr) Hfmt) in Hp. injection Hp as Hp. rewrite Htr, <- Hp.
      split; [right; by exists f'|done]. }
  destruct Hsrc as (Hg & Hnd & Hrange). split; [exact Hg|].
  assert (Hrange' : Forall (fun id => is_i64 id = true) (pm_ruleTrace parsed ++ [ru_id r])) by (apply Forall_app; split; [done|by constructor]).
  split; [|split; [done|]].
  - apply NoDup_app. split; [done|]. split; [|repeat constructor; set_solver]. intros x Hx ->%list_elem_of_singleton. done.
  - cbn [fw_text]. unfold chain_of. cbn [fw_source fw_rule]. by eapply signed_text_trace.
Qed.

(** [C26] Chains of forwards end: whatever messages arrive, in any order and however often, as
    long as signatures are not forged, a forward is made of mail that is not automatic or of an
    earlier forward whose chain its own extends; no rule occurs twice in a chain, and a
    chain is no longer than there are rules. *)
Theorem forwarding_ends (key : string) (log : list Forward) (rules : list Z) :
  forwards key log -> (forall f, f ∈ log -> ru_id (fw_rule f) ∈ rules) ->
  forall i f, log !! i = Some f ->
    NoDup (chain_of f) /\ (length (chain_of f) <= length rules)%nat /\
    ((pm_trustedRule (fw_source f) = false /\ pm_automated (fw_source f) = false /\ chain_of f = [ru_id (fw_rule f)]) \/
     (exists j f', (j < i)%nat /\ log !! j = Some f' /\ chain_of f = chain_of f' ++ [ru_id (fw_rule f)])).
Proof.
  intros Hlog Hrules i f Hf. pose proof (forwards_inv _ _ Hlog) as Hinv. destruct (Hinv i f Hf) as (Hg & Hnd & _).
  split; [done|]. split.
  - apply submseteq_length, NoDup_submseteq; [done|]. clear Hg Hnd. revert i f Hf. induction i as [i IHi] using lt_wf_ind. intros f Hf x.
    unfold chain_of. intros [Hx| ->%list_elem_of_singleton]%elem_of_app; [|apply Hrules; by eapply list_elem_of_lookup_2].
    destruct (Hinv i f Hf) as ([(_ & _ & Hz)|(f' & Hin & Htr)] & _).
    + rewrite Hz in Hx. by apply elem_of_nil in Hx.
    + apply list_elem_of_lookup in Hin as [j Hj]. apply lookup_take_Some in Hj as [Hj Hji]. rewrite Htr in Hx. by eapply (IHi j).
  - destruct Hg as [(G1 & G2 & G3)|(f' & Hin & Htr)].
    + left. split; [done|]. split; [done|]. unfold chain_of. by rewrite G3.
    + right. apply list_elem_of_lookup in Hin as [j Hj]. apply lookup_take_Some in Hj as [Hj Hji]. exists j, f'. split; [lia|]. split; [done|].
      unfold chain_of at 1. by rewrite Htr.
Qed.

End Spec.

(** ** A concrete chain: a mail from outside goes through two rules and is stopped *)

#[local] Existing Instances rp_unicode rp_upper rp_hmac rp_sha rp_address rp_text rp_fold rp_composer rp_parser.

Definition fs_key : string := "0123456789abcdef0123456789abcdef".
Definition fs_env (now : Z) : ForwardEnv := mkForwardEnv now "Thu, 01 Jan 1970 00:01:40 +0000" (Some (replicate 18 "r"%char)) "b1" "b2".
Definition fs_rule (id : Z) (target : string) : rule := mkRule id "all" [mkCond "subject" "contains" "invoice"] EmptyString EmptyString [target].
Definition fs_parse (raw : list ascii) (expected : list string) (now : Z) := parseMessageWithLimit raw 100000 (Some fs_key) expected now.
Definition fs_get {A} (r : result A) (d : A) : A := match r with Ok a => a | Err _ => d end.
Definition fs_none : parsedMessage := mkParsedMessage zero_Address EmptyString [] EmptyString [] [] [] 0 [] EmptyString EmptyString false false.
Definition fs_compose (from : string) (source : parsedMessage) (r : rule) (now : Z) : list ascii :=
  fs_get (composeForwardWithLimit (fs_env now) from (ru_forwardTargets r) source (ru_id r) 100000 (Some fs_key)) [].
Definition fs_text (from : string) (source : parsedMessage) (r : rule) (now : Z) : string :=
  default EmptyString (signed_text (fs_env now) from (ru_forwardTargets r) source (ru_id r)).

Definition fs_source1 : parsedMessage := fs_get (fs_parse rp_mail ["bot@x.example"] 100) fs_none.
Definition fs_mail2 : list ascii := fs_compose "bot@x.example" fs_source1 (fs_rule 3 "agent@y.example") 100.
Definition fs_source2 : parsedMessage := fs_get (fs_parse fs_mail2 ["agent@y.example"] 200) fs_none.
Definition fs_mail3 : list ascii := fs_compose "agent@y.example" fs_source2 (fs_rule 7 "bot@x.example") 200.
Definition fs_source3 : parsedMessage := fs_get (fs_parse fs_mail3 ["bot@x.example"] 300) fs_none.
Definition fs_log : list Forward :=
  [mkForward fs_source1 (fs_rule 3 "agent@y.example") (fs_text "bot@x.example" fs_source1 (fs_rule 3 "agent@y.example") 100);
   mkForward fs_source2 (fs_rule 7 "bot@x.example") (fs_text "agent@y.example" fs_source2 (fs_rule 7 "bot@x.example") 200)].

Lemma fs_forwards : forwards fs_key fs_log.
Proof.
  change fs_log with (([] ++ [mkForward fs_source1 (fs_rule 3 "agent@y.example") (fs_text "bot@x.example" fs_source1 (fs_rule 3 "agent@y.example") 100)])
    ++ [mkForward fs_source2 (fs_rule 7 "bot@x.example") (fs_text "agent@y.example" fs_source2 (fs_rule 7 "bot@x.example") 200)]).
  apply (forwards_snoc fs_key _ fs_mail2 100000 ["agent@y.example"]%string 200 fs_source2 (fs_rule 7 "bot@x.example") (fs_env 200) "agent@y.example" _ fs_mail3);
    [|intros t Ht|vm_compute; reflexivity..].
  - apply (forwards_snoc fs_key _ rp_mail 100000 ["bot@x.example"]%string 100 fs_source1 (fs_rule 3 "agent@y.example") (fs_env 100) "bot@x.example" _ fs_mail2);
      [constructor|intros t Ht|vm_compute; reflexivity..].
    assert (Hn : claimed rp_mail = None) by (vm_compute; reflexivity). rewrite Hn in Ht. discriminate Ht.
  - csimpl. apply list_elem_of_singleton.
    assert (Hc : fst <$> claimed fs_mail2 = Some (fs_text "bot@x.example" fs_source1 (fs_rule 3 "agent@y.example") 100)) by (vm_compute; reflexivity).
    rewrite Ht in Hc. apply (inj Some) in Hc. exact Hc.
Qed.

Lemma forwarding_ends_witness :
  (forall i f, fs_log !! i = Some f -> NoDup (chain_of f) /\ (length (chain_of f) <= 2)%nat) /\
  chain_of <$> fs_log = [[3]; [3; 7]] /\
  blockedCode (fs_rule 3 "agent@y.example") fs_source3 = "rule_repeated"%string.
Proof.
  split; [|split; vm_compute; reflexivity].
  intros i f Hf.
  destruct (forwarding_ends fs_key fs_log [3; 7] fs_forwards
    ltac:(intros g Hg; apply elem_of_cons in Hg as [->|Hg]; [left|apply list_elem_of_singleton in Hg as ->; right; left]) i f Hf) as (Hnd & Hlen & _).
  split; [exact Hnd|exact Hlen].
Defined.
