(* ===== verification/Auth.v ===== *)
(** * Credentials (security/auth/auth.go) and the tokens that carry them

    Passwords are verified with argon2id and SCRAM, which are third-party: their
    functions are parameters, with their random salts as arguments.  API-key secrets
    are verified by their SHA-256.  A credential is stored as the JSON of [Cred]; the
    model stores the value. *)

From S2P Require Import Prelude GoStrings Base64 RuleMetadata.

Local Open Scope go_scope.

Record Argon2idCred := mkArgon { a2_Salt : string; a2_Hash : string; a2_Time : Z; a2_Memory : Z; a2_Threads : Z; a2_KeyLen : Z }.
Record ScramCred := mkScram { sc_Salt : string; sc_SaltedPassword : string; sc_Iterations : Z }.
Record Cred := mkCred { cd_Argon2id : option Argon2idCred; cd_ScramSHA256 : option ScramCred; cd_APIKeySHA256 : option string }.
Definition no_cred : Cred := mkCred None None None.

(** [argon2.IDKey] and [scram.SaltPassword]. *)
Class PasswordHash := {
  IDKey : string -> list ascii -> Z -> Z -> Z -> Z -> list ascii;
  SaltPassword : string -> list ascii -> Z -> option (list ascii) }.

Definition a2Time : Z := 1.
Definition a2Memory : Z := 65536.
Definition a2Threads : Z := 4.
Definition a2KeyLen : Z := 32.
Definition scramIterations : Z := 4096.

Section Auth.
Context `{PasswordHash} `{Sha256}.

(** With the salts; [None] when the source of randomness fails. *)
Definition HashPassword (password : string) (salt : option (list ascii)) (scramSalt : list ascii) : result Cred :=
  if String.eqb password EmptyString then Err (ErrText "empty password")
  else
    match salt with
    | None => Err (ErrText "rand")
    | Some salt =>
        let key := IDKey password salt a2Time a2Memory a2Threads a2KeyLen in
        match SaltPassword password scramSalt scramIterations with
        | None => Err (ErrText "scram")
        | Some saltedPwd =>
            Ok (mkCred (Some (mkArgon (Std_Encode salt) (Std_Encode key) a2Time a2Memory a2Threads a2KeyLen))
                  (Some (mkScram (Std_Encode scramSalt) (Std_Encode saltedPwd) scramIterations)) None)
        end
    end.

Definition Verify (c : Cred) (password : string) : bool :=
  match cd_Argon2id c with
  | None => false
  | Some a =>
      match Std_Decode (a2_Salt a), Std_Decode (a2_Hash a) with
      | Some salt, Some want => bool_decide (IDKey password salt (a2_Time a) (a2_Memory a) (a2_Threads a) (a2_KeyLen a) = want)
      | _, _ => false
      end
  end.

Definition SCRAMVerifier (c : Cred) : option (list ascii * list ascii * Z) :=
  match cd_ScramSHA256 c with
  | None => None
  | Some sc =>
      match Std_Decode (sc_Salt sc), Std_Decode (sc_SaltedPassword sc) with
      | Some salt, Some spwd => Some (salt, spwd, sc_Iterations sc)
      | _, _ => None
      end
  end.

Definition HashAPIKey (secret : string) : result Cred :=
  if String.eqb secret EmptyString then Err (ErrText "empty api key secret")
  else Ok (mkCred None None (Some (Std_Encode (sha256 (bytes_of secret))))).

Definition VerifyAPIKey (c : Cred) (secret : string) : bool :=
  match cd_APIKeySHA256 c with
  | None => false
  | Some hash =>
      match Std_Decode hash with
      | Some want => bool_decide (sha256 (bytes_of secret) = want)
      | None => false
      end
  end.

End Auth.

(** ** Tokens *)

(** [base32.StdEncoding] without padding, in lower case: five bits a letter. *)
Definition byte_bits (c : ascii) : list bool :=
  match c with Ascii b0 b1 b2 b3 b4 b5 b6 b7 => [b7; b6; b5; b4; b3; b2; b1; b0] end.
Definition bits_value (l : list bool) : Z := foldl (fun (acc : Z) (b : bool) => 2 * acc + (if b then 1 else 0)) 0 l.
Definition base32_letter (v : Z) : ascii := byte_char (if v <? 26 then 97 + v else 24 + v).
Fixpoint base32_bits (fuel : nat) (l : list bool) : list ascii :=
  match fuel, l with
  | O, _ | _, [] => []
  | S fuel, _ => base32_letter (bits_value (take 5 (l ++ replicate 4 false))) :: base32_bits fuel (drop 5 l)
  end.
Definition base32_lower (l : list ascii) : string :=
  let bits := concat (byte_bits <$> l) in str_of (base32_bits (length bits) bits).

(** The prefix and the secret of a key, from 6 and 24 random bytes. *)
Definition newAPIKeyToken (random : option (list ascii * list ascii)) : option (string * string) :=
  (fun r : list ascii * list ascii => (base32_lower r.1, base32_lower r.2)) <$> random.

(** [strings.CutPrefix] and [strings.Cut] at the first underscore. *)
Definition parse_token (kind token : string) : option (string * string) :=
  if negb (has_prefix token kind) then None
  else
    let rest := bytes_of (trim_prefix token kind) in
    match index_byte "_"%char rest with
    | None => None
    | Some i =>
        let prefix := str_of (take i rest) in
        let secret := str_of (drop (S i) rest) in
        if String.eqb prefix EmptyString || String.eqb secret EmptyString then None else Some (prefix, secret)
    end.
Definition parseAPIKeyToken (token : string) : option (string * string) := parse_token "omk_" token.
Definition parseAgentCredential (token : string) : option (string * string) := parse_token "omb_" token.

Example base32_example : base32_lower (bytes_of "foobar") = "mzxw6ytboi"%string.
Proof. vm_compute. reflexivity. Qed.

(** ** Lemmas *)

Lemma base32_letter_clean v : 0 <= v < 32 -> base32_letter v <> "_"%char.
Proof.
  intros Hv. assert (Hall : forallb (fun n => negb (Ascii.eqb (base32_letter (Z.of_nat n)) "_")) (seq 0 32) = true) by (vm_compute; reflexivity).
  rewrite forallb_forall in Hall. specialize (Hall (Z.to_nat v)). rewrite Z2Nat.id in Hall by lia.
  assert (Hin : In (Z.to_nat v) (seq 0 32)) by (apply in_seq; lia). apply Hall in Hin. intros He. by rewrite He in Hin.
Qed.
Lemma bits_value_bound l : 0 <= bits_value l < 2 ^ Z.of_nat (length l).
Proof.
  unfold bits_value. assert (G : forall l acc n, 0 <= acc < 2 ^ n -> 0 <= n ->
    0 <= foldl (fun acc b => 2 * acc + (if b : bool then 1 else 0)) acc l < 2 ^ (n + Z.of_nat (length l))).
  { induction l0 as [|b l0 IH]; intros acc n Ha Hn; cbn [foldl length]; [by rewrite Z.add_0_r|].
    replace (n + Z.of_nat (S (length l0))) with ((n + 1) + Z.of_nat (length l0)) by lia. apply IH; [|lia].
    rewrite Z.pow_add_r by lia. change (2 ^ 1) with 2. destruct b; lia. }
  apply (G l 0 0); lia.
Qed.
Lemma base32_clean l : "_"%char ∉ bytes_of (base32_lower l).
Proof.
  unfold base32_lower. cbv zeta. rewrite bytes_of_str_of. generalize (concat (byte_bits <$> l)) at 2 as bits.
  generalize (length (concat (byte_bits <$> l))) as fuel. induction fuel as [|fuel IH]; intros bits; [apply not_elem_of_nil|].
  cbn [base32_bits]. destruct bits as [|b bits]; [apply not_elem_of_nil|]. apply not_elem_of_cons. split; [|apply IH].
  intros He. symmetry in He. revert He. apply base32_letter_clean.
  pose proof (bits_value_bound (take 5 ((b :: bits) ++ replicate 4 false))) as Hb.
  rewrite length_take, length_app, length_replicate in Hb. cbn [length] in Hb. rewrite Nat.min_l in Hb by lia. exact Hb.
Qed.

(** A token parses into what it was made of. *)
Lemma parse_token_made kind p s : "_"%char ∉ bytes_of p -> p <> EmptyString -> s <> EmptyString ->
  parse_token kind (kind ++ p ++ "_" ++ s)%string = Some (p, s).
Proof.
  intros Hp Hne Hs. unfold parse_token. rewrite has_prefix_app, trim_prefix_app. cbv zeta. rewrite !bytes_of_app.
  change (bytes_of "_") with ["_"%char]. cbn [app negb]. rewrite index_byte_cut by done. rewrite take_app_length.
  replace (drop (S (length (bytes_of p))) (bytes_of p ++ "_"%char :: bytes_of s)) with (bytes_of s).
  2:{ rewrite drop_app_ge by lia. replace (S (length (bytes_of p)) - length (bytes_of p))%nat with 1%nat by lia. done. }
  rewrite !str_of_bytes_of. destruct (String.eqb_spec p EmptyString); [done|]. by destruct (String.eqb_spec s EmptyString).
Qed.

Section Laws.
Context `{PasswordHash} `{Sha256}.

Lemma verify_issued secret c : HashAPIKey secret = Ok c -> forall s, VerifyAPIKey c s = true <-> sha256 (bytes_of s) = sha256 (bytes_of secret).
Proof.
  unfold HashAPIKey. destruct (String.eqb secret EmptyString); [done|]. intros [= <-] s. unfold VerifyAPIKey. cbn [cd_APIKeySHA256].
  rewrite Std_roundtrip. by rewrite bool_decide_eq_true.
Qed.
End Laws.
