(* ===== verification/Identity.v ===== *)
(** * The identity graph: tenants, principals, accounts, addresses, agents

    The tables of storage/postgres/schema/ that say who may use which mailbox:
    01_directory.sql, 07_apikeys.sql, 10, 11, 14, 15, 20, 23 of the agent mail, with
    the statements that several operations share.  An identity column is unique; all of
    them draw from one counter here.  The accounts' mail is in the kernel's database,
    whose account rows have the same ids.  Times are Unix seconds. *)

From S2P Require Import Prelude GoStrings Shapes Changes Blob Database Tx Mailboxes Messages Headers Smtp RuleMetadata Auth.

Local Open Scope go_scope.

(** ** Rows *)

Record TenantRow := mkTenant { tn_name : string; tn_quota : option Z }.
Record PrincipalRow := mkPrincipal { pc_tenant : Z; pc_login : string; pc_cred : Cred }.
Record Account := mkAcct {
  aw_tenant : Z; aw_principal : option Z; aw_owner : option Z; aw_name : string; aw_disabled : bool; aw_created : Z }.
Record DomainRow := mkDomain { dm_tenant : Z; dm_domain : string; dm_disabled : bool }.
Record Address := mkAddr { dr_tenant : Z; dr_domain : Z; dr_account : Z; dr_localpart : string; dr_alias : bool }.
(** agent_mailbox_registrations, by account. *)
Record Registration := mkReg { rg_tenant : Z; rg_owner : Z; rg_space : string }.
Record Gateway := mkGateway {
  gw_issuer : string; gw_subject : string; gw_space : string; gw_tenant : Z; gw_owner : Z; gw_default : Z; gw_disabled : bool }.

Inductive AuthStatus : Type := Pending | Approved | Denied | Exchanged.
#[export] Instance AuthStatus_eq_dec : EqDecision AuthStatus.
Proof. solve_decision. Defined.

(** agent_auth_requests, by the digest of the device code. *)
Record AuthRequest := mkRequest {
  rq_user_code : string; rq_bot_id : string; rq_bot_profile : string; rq_client_name : string; rq_space : string;
  rq_challenge : string; rq_status : AuthStatus; rq_owner : option Z; rq_account : option Z; rq_mode : string;
  rq_created : Z; rq_expires : Z }.
Record Binding := mkBinding {
  bd_tenant : Z; bd_account : Z; bd_owner : Z; bd_space : string; bd_bot_id : string; bd_bot_profile : string;
  bd_client_name : string; bd_mode : string; bd_active : bool }.
Record AgentCred := mkAgentCred { ac_binding : Z; ac_prefix : string; ac_cred : Cred; ac_revoked : bool }.
Record ApiKey := mkApiKey { ak_tenant : Z; ak_account : Z; ak_login : string; ak_name : string; ak_prefix : string; ak_cred : Cred; ak_revoked : bool }.

Record IDB := mkIDB {
  id_tenants : gmap Z TenantRow; id_principals : gmap Z PrincipalRow; id_accounts : gmap Z Account;
  id_domains : gmap Z DomainRow; id_addresses : gmap Z Address; id_registrations : gmap Z Registration;
  id_gateways : gmap Z Gateway; id_requests : gmap (list ascii) AuthRequest; id_bindings : gmap Z Binding;
  id_creds : gmap Z AgentCred; id_keys : gmap Z ApiKey; id_nonces : gmap (string * string) Z; id_next : Z; id_kernel : DB }.

Definition id_set_tenants v d := mkIDB v (id_principals d) (id_accounts d) (id_domains d) (id_addresses d) (id_registrations d) (id_gateways d) (id_requests d) (id_bindings d) (id_creds d) (id_keys d) (id_nonces d) (id_next d) (id_kernel d).
Definition id_set_principals v d := mkIDB (id_tenants d) v (id_accounts d) (id_domains d) (id_addresses d) (id_registrations d) (id_gateways d) (id_requests d) (id_bindings d) (id_creds d) (id_keys d) (id_nonces d) (id_next d) (id_kernel d).
Definition id_set_accounts v d := mkIDB (id_tenants d) (id_principals d) v (id_domains d) (id_addresses d) (id_registrations d) (id_gateways d) (id_requests d) (id_bindings d) (id_creds d) (id_keys d) (id_nonces d) (id_next d) (id_kernel d).
Definition id_set_domains v d := mkIDB (id_tenants d) (id_principals d) (id_accounts d) v (id_addresses d) (id_registrations d) (id_gateways d) (id_requests d) (id_bindings d) (id_creds d) (id_keys d) (id_nonces d) (id_next d) (id_kernel d).
Definition id_set_addresses v d := mkIDB (id_tenants d) (id_principals d) (id_accounts d) (id_domains d) v (id_registrations d) (id_gateways d) (id_requests d) (id_bindings d) (id_creds d) (id_keys d) (id_nonces d) (id_next d) (id_kernel d).
Definition id_set_registrations v d := mkIDB (id_tenants d) (id_principals d) (id_accounts d) (id_domains d) (id_addresses d) v (id_gateways d) (id_requests d) (id_bindings d) (id_creds d) (id_keys d) (id_nonces d) (id_next d) (id_kernel d).
Definition id_set_gateways v d := mkIDB (id_tenants d) (id_principals d) (id_accounts d) (id_domains d) (id_addresses d) (id_registrations d) v (id_requests d) (id_bindings d) (id_creds d) (id_keys d) (id_nonces d) (id_next d) (id_kernel d).
Definition id_set_requests v d := mkIDB (id_tenants d) (id_principals d) (id_accounts d) (id_domains d) (id_addresses d) (id_registrations d) (id_gateways d) v (id_bindings d) (id_creds d) (id_keys d) (id_nonces d) (id_next d) (id_kernel d).
Definition id_set_bindings v d := mkIDB (id_tenants d) (id_principals d) (id_accounts d) (id_domains d) (id_addresses d) (id_registrations d) (id_gateways d) (id_requests d) v (id_creds d) (id_keys d) (id_nonces d) (id_next d) (id_kernel d).
Definition id_set_creds v d := mkIDB (id_tenants d) (id_principals d) (id_accounts d) (id_domains d) (id_addresses d) (id_registrations d) (id_gateways d) (id_requests d) (id_bindings d) v (id_keys d) (id_nonces d) (id_next d) (id_kernel d).
Definition id_set_keys v d := mkIDB (id_tenants d) (id_principals d) (id_accounts d) (id_domains d) (id_addresses d) (id_registrations d) (id_gateways d) (id_requests d) (id_bindings d) (id_creds d) v (id_nonces d) (id_next d) (id_kernel d).
Definition id_set_nonces v d := mkIDB (id_tenants d) (id_principals d) (id_accounts d) (id_domains d) (id_addresses d) (id_registrations d) (id_gateways d) (id_requests d) (id_bindings d) (id_creds d) (id_keys d) v (id_next d) (id_kernel d).
Definition id_bump d := mkIDB (id_tenants d) (id_principals d) (id_accounts d) (id_domains d) (id_addresses d) (id_registrations d) (id_gateways d) (id_requests d) (id_bindings d) (id_creds d) (id_keys d) (id_nonces d) (id_next d + 1) (id_kernel d).
Definition id_set_kernel v d := mkIDB (id_tenants d) (id_principals d) (id_accounts d) (id_domains d) (id_addresses d) (id_registrations d) (id_gateways d) (id_requests d) (id_bindings d) (id_creds d) (id_keys d) (id_nonces d) (id_next d) v.

(** ** Queries *)

(** The rows that satisfy a condition, by id; EXISTS; the first row. *)
Definition id_le {V} (x y : Z * V) : Prop := x.1 <= y.1.
#[export] Instance id_le_dec {V} : RelDecision (@id_le V).
Proof. intros x y. unfold id_le. apply _. Defined.
Definition by_id {V} (t : gmap Z V) : list (Z * V) := merge_sort id_le (map_to_list t).
Definition select {V} (p : Z -> V -> bool) (t : gmap Z V) : list (Z * V) := filter (fun x => p x.1 x.2 = true) (by_id t).
Definition exists_row {V} (p : Z -> V -> bool) (t : gmap Z V) : bool := bool_decide (select p t <> []).
Definition first_row {V} (p : Z -> V -> bool) (t : gmap Z V) : option (Z * V) := head (select p t).

Lemma select_elem {V} (p : Z -> V -> bool) t k v : (k, v) ∈ select p t <-> t !! k = Some v /\ p k v = true.
Proof.
  unfold select, by_id. rewrite list_elem_of_filter, merge_sort_Permutation, elem_of_map_to_list. simpl. tauto.
Qed.
Lemma exists_row_spec {V} (p : Z -> V -> bool) t : exists_row p t = true <-> exists k v, t !! k = Some v /\ p k v = true.
Proof.
  unfold exists_row. rewrite bool_decide_eq_true. split.
  - destruct (select p t) as [|[k v] l] eqn:E; [done|]. intros _. exists k, v. apply select_elem. rewrite E. left.
  - intros (k & v & Hkv) Hn. apply (select_elem p t k v) in Hkv. rewrite Hn in Hkv. by apply elem_of_nil in Hkv.
Qed.
Lemma exists_row_false {V} (p : Z -> V -> bool) t : exists_row p t = false <-> forall k v, t !! k = Some v -> p k v = false.
Proof.
  split.
  - intros He k v Hk. destruct (p k v) eqn:Ep; [|done]. assert (Ht : exists_row p t = true) by (apply exists_row_spec; by exists k, v). congruence.
  - intros Hf. destruct (exists_row p t) eqn:E; [|done]. apply exists_row_spec in E as (k & v & Hk & Hp). rewrite (Hf k v Hk) in Hp. done.
Qed.
Lemma first_row_Some {V} (p : Z -> V -> bool) t k v : first_row p t = Some (k, v) -> t !! k = Some v /\ p k v = true.
Proof. unfold first_row. intros Hh%head_Some_elem_of. by apply select_elem. Qed.
Lemma first_row_None {V} (p : Z -> V -> bool) t : first_row p t = None -> forall k v, t !! k = Some v -> p k v = false.
Proof.
  unfold first_row. intros Hh%head_None k v Hk. destruct (p k v) eqn:Ep; [|done].
  assert (Hin : (k, v) ∈ select p t) by by apply select_elem. rewrite Hh in Hin. by apply elem_of_nil in Hin.
Qed.

(** ** Conditions that the statements share *)

Definition opt_eqb (a : option Z) (b : Z) : bool := match a with Some x => x =? b | None => false end.

(** accounts JOIN agent_mailbox_registrations of the owner and Space. *)
Definition registered (d : IDB) (accountID : Z) (a : Account) (space : string) : bool :=
  match id_registrations d !! accountID with
  | Some r => (rg_tenant r =? aw_tenant a) && opt_eqb (aw_owner a) (rg_owner r) && String.eqb (rg_space r) space
  | None => false
  end.
(** NOT EXISTS (gateway_identities .. default_account_id .. AND NOT disabled) is its negation. *)
Definition gateway_default (d : IDB) (accountID tenant owner : Z) (space : string) : bool :=
  exists_row (fun _ g => (gw_default g =? accountID) && (gw_tenant g =? tenant) && (gw_owner g =? owner)
                         && String.eqb (gw_space g) space && negb (gw_disabled g)) (id_gateways d).
Definition gateway_default_any (d : IDB) (accountID tenant owner : Z) : bool :=
  exists_row (fun _ g => (gw_default g =? accountID) && (gw_tenant g =? tenant) && (gw_owner g =? owner) && negb (gw_disabled g))
    (id_gateways d).

(** An enabled agent mailbox of the owner in the Space. *)
Definition agent_mailbox (d : IDB) (accountID owner : Z) (space : string) : option Account :=
  match id_accounts d !! accountID with
  | Some a => if opt_eqb (aw_owner a) owner && negb (aw_disabled a) && registered d accountID a space
                 && negb (gateway_default d accountID (aw_tenant a) owner space) then Some a else None
  | None => None
  end.

(** addresses JOIN domains: the text of an address. *)
Definition address_text (d : IDB) (a : Address) : option string :=
  match id_domains d !! dr_domain a with
  | Some dom => if dm_tenant dom =? dr_tenant a then Some (dr_localpart a ++ "@" ++ dm_domain dom)%string else None
  | None => None
  end.
Definition is_primary (d : IDB) (accountID tenant : Z) (a : Address) : bool :=
  (dr_account a =? accountID) && (dr_tenant a =? tenant) && negb (dr_alias a)
  && match address_text d a with Some _ => true | None => false end.
(** The primary address of an account: the first that is not an alias. *)
Definition primary_address (d : IDB) (accountID tenant : Z) : option (Z * Address) :=
  first_row (fun _ a => is_primary d accountID tenant a) (id_addresses d).
Definition address_taken (d : IDB) (domainID : Z) (localpart : string) : bool :=
  exists_row (fun _ a => (dr_domain a =? domainID) && String.eqb (dr_localpart a) localpart) (id_addresses d).
Definition login_taken (d : IDB) (login : string) : bool :=
  exists_row (fun _ p => String.eqb (pc_login p) login) (id_principals d).
Definition principal_of_login (d : IDB) (login : string) : option (Z * PrincipalRow) :=
  first_row (fun _ p => String.eqb (pc_login p) login) (id_principals d).
Definition domain_named (d : IDB) (domain : string) : option (Z * DomainRow) :=
  first_row (fun _ x => String.eqb (dm_domain x) domain) (id_domains d).

(** ** Inserts, with the constraints of the schema *)

Definition insert_principal (tenant : Z) (login : string) (d : IDB) : result (Z * IDB) :=
  if negb (text_ok login) then Err (ErrText "invalid text")
  else if login_taken d login then Err ErrUniqueViolation
  else match id_tenants d !! tenant with
       | None => Err ErrForeignKey
       | Some _ => let id := id_next d in
                   Ok (id, id_bump (id_set_principals (<[id := mkPrincipal tenant login no_cred]> (id_principals d)) d))
       end.

(** The account's row is the kernel's as well. *)
Definition insert_account (now tenant : Z) (principal owner : option Z) (name : string) (d : IDB) : result (Z * IDB) :=
  if negb (text_ok name) then Err (ErrText "invalid text")
  else if exists_row (fun _ a => (aw_tenant a =? tenant) && String.eqb (aw_name a) name) (id_accounts d) then Err ErrUniqueViolation
  else match id_tenants d !! tenant with
       | None => Err ErrForeignKey
       | Some _ =>
           let id := id_next d in
           let k := id_kernel d in
           Ok (id, id_bump (id_set_kernel (set_accounts (<[id := mkAccountRow tenant name 0 1 None]> (db_accounts k)) k)
                     (id_set_accounts (<[id := mkAcct tenant principal owner name false now]> (id_accounts d)) d)))
       end.

Definition insert_address (tenant domainID accountID : Z) (localpart : string) (alias : bool) (d : IDB) : result (Z * IDB) :=
  if negb (text_ok localpart) then Err (ErrText "invalid text")
  else if address_taken d domainID localpart then Err ErrUniqueViolation
  else let id := id_next d in
       Ok (id, id_bump (id_set_addresses (<[id := mkAddr tenant domainID accountID localpart alias]> (id_addresses d)) d)).

(** ** The Inbox of a new account *)

Section Inbox.
Context `{BlobOps}.

(** A transaction of the kernel on the tables as they are; its log is flushed with it. *)
Definition provision_inbox (accountID tenant : Z) (b : blob_state) (d : IDB) : result IDB :=
  let acc := mkAccount accountID tenant in
  match mbind_st (ensureMailbox acc "Inbox" true no_special_use) (fun _ => flush acc) (mkTx (id_kernel d) b 0 [] [] true) with
  | (Ok _, pt) => Ok (id_set_kernel (pt_db pt) d)
  | (Err e, _) => Err e
  end.
End Inbox.

(** ** Local parts *)

Definition is_lower_alnum (c : ascii) : bool := in_range 97 122 c || in_range 48 57 c.
(** [^[a-z0-9](?:[a-z0-9._-]{0,62}[a-z0-9])?$] *)
Definition aliasLocalpartPattern (s : string) : bool :=
  let l := bytes_of s in
  match l with
  | [] => false
  | c :: _ => is_lower_alnum c && match rev l with z :: _ => is_lower_alnum z | [] => false end
              && forallb (fun c => is_lower_alnum c || existsb (Ascii.eqb c) (bytes_of "._-")) l && (length l <=? 64)%nat
  end.
Definition reservedAgentMailboxLocalparts : list string :=
  ["abuse"; "admin"; "administrator"; "hostmaster"; "mailer-daemon"; "noc"; "postmaster"; "root"; "security"; "webmaster"].
Definition validAgentMailboxLocalpart (s : string) : bool :=
  negb (String.length s <? 5)%nat && aliasLocalpartPattern s && negb (contains s "..")
  && negb (existsb (String.eqb s) reservedAgentMailboxLocalparts).
Definition validGatewayLocalpart (s : string) : bool := aliasLocalpartPattern s && negb (contains s "..").

(** A transaction's COMMIT: done, or an error with the transaction applied or not. *)
Inductive outcome : Type := CommitOk | CommitFailed (applied : bool).
Definition commit_tx {A} (co : outcome) (a : A) (d d' : IDB) : result A * IDB :=
  match co with
  | CommitOk => (Ok a, d')
  | CommitFailed applied => (Err (ErrText "commit"), if applied then d' else d)
  end.

Lemma insert_principal_Ok t login d id d' : insert_principal t login d = Ok (id, d') ->
  id = id_next d /\ d' = id_bump (id_set_principals (<[id_next d := mkPrincipal t login no_cred]> (id_principals d)) d).
Proof. unfold insert_principal. repeat case_goal; try done. by intros [= <- <-]. Qed.
Lemma insert_account_Ok now t po oo name d id d' : insert_account now t po oo name d = Ok (id, d') ->
  id = id_next d /\ exists k, d' = id_bump (id_set_kernel k (id_set_accounts (<[id_next d := mkAcct t po oo name false now]> (id_accounts d)) d)).
Proof. unfold insert_account. repeat case_goal; try done. intros [= <- <-]. split; [done|]. by eexists. Qed.
Lemma insert_address_Ok t dom a lp al d id d' : insert_address t dom a lp al d = Ok (id, d') ->
  id = id_next d /\ d' = id_bump (id_set_addresses (<[id_next d := mkAddr t dom a lp al]> (id_addresses d)) d).
Proof. unfold insert_address. repeat case_goal; try done. by intros [= <- <-]. Qed.
