(* ===== verification/Directory.v ===== *)
(** * The directory (storage/postgres/directory.go)

    Authentication of principals and API keys, resolution of addresses, and the tenant
    scope's operations on aliases and agent mailboxes.  A [TenantScope] is a tenant's id,
    an account handle the pair of ids that the kernel uses.  Where a statement takes the
    first of several rows without an order, the model takes the one of least id. *)

From S2P Require Import Prelude GoStrings Blob Database Headers Smtp RuleMetadata Auth Identity.

Local Open Scope go_scope.

Definition authentication_failed : err := ErrText "authentication failed".
Definition ErrAddressNotFound : err := ErrText "directory: address not found".
Definition ErrAddressExists : err := ErrText "directory: address already exists".
Definition ErrMailboxNotFound : err := ErrText "directory: agent mailbox not found".
Definition ErrPrimaryAddress : err := ErrText "directory: primary address cannot be deleted".
Definition ErrInvalidLocalpart : err := ErrText "directory: invalid address localpart".
Definition ErrAgentMailboxDomainNotFound : err := ErrText "directory: Agent mailbox domain not found".
Definition ErrAgentMailboxLimit : err := ErrText "directory: Agent mailbox limit reached".
Definition ErrAgentMailboxNotDeletable : err := ErrText "directory: Agent mailbox cannot be deleted".
Definition ErrAuthorizationSpaceMismatch : err := ErrText "directory: agent authorization space mismatch".

Record Principal := mkPrincipalRef { pr_ID : Z; pr_TenantID : Z; pr_Login : string }.

(** [directory.Credential]: a password, none (resolve only), or one that is not known. *)
Inductive Credential : Type := PasswordCredential (password : string) | NoCredential | OtherCredential.

(** [smtp.Address.Domain.Name()]. *)
Class DomainName := { Domain_Name : SmtpAddress -> string }.

Section Directory.
Context `{BlobOps} `{Unicode} `{PasswordHash} `{Sha256} `{AddressParser} `{DomainName}.

(** ** Authentication *)

Definition tenantScope (tenantID : Z) (d : IDB) : result Z :=
  match id_tenants d !! tenantID with Some _ => Ok tenantID | None => Err ErrNoRows end.

Definition AuthenticatePrincipal (login : string) (cred : Credential) (d : IDB) : result (Z * Principal) :=
  match principal_of_login d login with
  | None => Err authentication_failed
  | Some (id, p) =>
      let ok := match cred with
                | PasswordCredential c => Verify (pc_cred p) c
                | NoCredential => true
                | OtherCredential => false
                end in
      if negb ok then Err authentication_failed
      else try! ts := tenantScope (pc_tenant p) d in Ok (ts, mkPrincipalRef id (pc_tenant p) (pc_login p))
  end.

Definition LookupSCRAM (login : string) (d : IDB) : result (list ascii * list ascii * Z) :=
  match principal_of_login d login with
  | None => Err authentication_failed
  | Some (_, p) => match SCRAMVerifier (pc_cred p) with Some v => Ok v | None => Err authentication_failed end
  end.

Definition ScopeForLogin (login : string) (d : IDB) : result (Z * Principal) :=
  match principal_of_login d login with
  | None => Err (ErrText "no such principal")
  | Some (id, p) => try! ts := tenantScope (pc_tenant p) d in Ok (ts, mkPrincipalRef id (pc_tenant p) (pc_login p))
  end.

Definition SetPassword (login password : string) (salt : option (list ascii)) (scramSalt : list ascii) (d : IDB) : result unit * IDB :=
  match HashPassword password salt scramSalt with
  | Err e => (Err e, d)
  | Ok c =>
      match principal_of_login d login with
      | None => (Err (ErrText "no such principal"), d)
      | Some (id, p) => (Ok tt, id_set_principals (<[id := mkPrincipal (pc_tenant p) (pc_login p) c]> (id_principals d)) d)
      end
  end.

(** The account of an address of the tenant. *)
Definition IssueAPIKey_account (tenantID : Z) (a : SmtpAddress) (d : IDB) : option Z :=
  (fun x : Z * Address => dr_account x.2) <$>
  first_row (fun _ x => (dr_tenant x =? tenantID) && String.eqb (dr_localpart x) (sa_Localpart a)
                        && match id_domains d !! dr_domain x with Some dom => String.eqb (dm_domain dom) (Domain_Name a) | None => false end)
    (id_addresses d).

Definition IssueAPIKey (login name : string) (random : option (list ascii * list ascii)) (d : IDB) : result string * IDB :=
  let name := if String.eqb name EmptyString then "api key"%string else name in
  match principal_of_login d login with
  | None => (Err (ErrText "no such principal"), d)
  | Some (_, p) =>
      match ParseAddress login with
      | None => (Err (ErrText "login must be an email address"), d)
      | Some a =>
          match IssueAPIKey_account (pc_tenant p) a d with
          | None => (Err (ErrText "no account for address"), d)
          | Some accountID =>
              match newAPIKeyToken random with
              | None => (Err (ErrText "rand"), d)
              | Some (prefix, secret) =>
                  match HashAPIKey secret with
                  | Err e => (Err e, d)
                  | Ok cred =>
                      if negb (text_ok name) then (Err (ErrText "invalid text"), d)
                      else
                        let key := mkApiKey (pc_tenant p) accountID login name prefix cred false in
                        (Ok ("omk_" ++ prefix ++ "_" ++ secret)%string, id_bump (id_set_keys (<[id_next d := key]> (id_keys d)) d))
                  end
              end
          end
      end
  end.

Definition AuthenticateAPIKey (token : string) (d : IDB) : result (Z * Principal * Z) :=
  match parseAPIKeyToken token with
  | None => Err authentication_failed
  | Some (prefix, secret) =>
      match first_row (fun _ k => String.eqb (ak_prefix k) prefix && negb (ak_revoked k)) (id_keys d) with
      | None => Err authentication_failed
      | Some (_, k) =>
          if negb (VerifyAPIKey (ak_cred k) secret) then Err authentication_failed
          else
            try! ts := tenantScope (ak_tenant k) d in
            match first_row (fun _ p => (pc_tenant p =? ak_tenant k) && String.eqb (pc_login p) (ak_login k)) (id_principals d) with
            | None => Err ErrNoRows
            | Some (id, _) => Ok (ts, mkPrincipalRef id (ak_tenant k) (ak_login k), ak_account k)
            end
      end
  end.

(** ** Resolution *)

(** The only unauthenticated resolver: the account, and whether by an alias. *)
Definition ResolveInbound (localpart domain : string) (d : IDB) : result (account * bool) :=
  match first_row (fun _ x =>
          String.eqb (dr_localpart x) localpart
          && match id_domains d !! dr_domain x with Some dom => String.eqb (dm_domain dom) domain && negb (dm_disabled dom) | None => false end
          && match id_accounts d !! dr_account x with Some a => (aw_tenant a =? dr_tenant x) && negb (aw_disabled a) | None => false end)
          (id_addresses d) with
  | None => Err (ErrText "no such recipient")
  | Some (_, x) => Ok (mkAccount (dr_account x) (dr_tenant x), dr_alias x)
  end.

Section Scope.
Variable tenantID : Z.

Definition scope_Account (name : string) (d : IDB) : result account :=
  match first_row (fun _ a => (aw_tenant a =? tenantID) && String.eqb (aw_name a) name && negb (aw_disabled a)) (id_accounts d) with
  | None => Err (ErrText "no such account")
  | Some (id, _) => Ok (mkAccount id tenantID)
  end.

Definition AccountForAddress (localpart domain : string) (d : IDB) : result account :=
  match first_row (fun _ x =>
          (dr_tenant x =? tenantID) && String.eqb (dr_localpart x) localpart
          && match id_domains d !! dr_domain x with Some dom => String.eqb (dm_domain dom) domain | None => false end
          && match id_accounts d !! dr_account x with Some a => negb (aw_disabled a) | None => false end)
          (id_addresses d) with
  | None => Err (ErrText "no account for address")
  | Some (_, x) => Ok (mkAccount (dr_account x) tenantID)
  end.

Definition AccountForID (id : Z) (d : IDB) : result account :=
  match id_accounts d !! id with
  | Some a => if (aw_tenant a =? tenantID) && negb (aw_disabled a) then Ok (mkAccount id tenantID) else Err (ErrText "no such account")
  | None => Err (ErrText "no such account")
  end.

(** [ORDER BY is_alias, id] *)
Definition AccountAddresses (accountID : Z) (d : IDB) : list (Z * string * bool) :=
  let mine := select (fun _ x => (dr_tenant x =? tenantID) && (dr_account x =? accountID)) (id_addresses d) in
  let shown := omap (fun x : Z * Address => (fun t => (x.1, t, negb (dr_alias x.2))) <$> address_text d x.2) in
  shown (filter (fun x => dr_alias x.2 = false) mine) ++ shown (filter (fun x => dr_alias x.2 = true) mine).

Definition Accounts (d : IDB) : list account :=
  (fun x : Z * Account => mkAccount x.1 tenantID) <$> select (fun _ a => aw_tenant a =? tenantID) (id_accounts d).

Definition scope_Domain (domain : string) (d : IDB) : result (Z * DomainRow) :=
  match first_row (fun _ x => (dm_tenant x =? tenantID) && String.eqb (dm_domain x) domain) (id_domains d) with
  | None => Err (ErrText "no such domain")
  | Some x => Ok x
  end.

(** ** Aliases *)

Definition CreateAccountAlias (accountID : Z) (localpart : string) (d : IDB) : result (Z * string) * IDB :=
  let localpart := ToLower (trim_space localpart) in
  if negb (aliasLocalpartPattern localpart) || contains localpart ".." then (Err ErrInvalidLocalpart, d)
  else
    match (match id_accounts d !! accountID with
           | Some a => if aw_tenant a =? tenantID then primary_address d accountID tenantID else None
           | None => None
           end) with
    | None => (Err ErrAddressNotFound, d)
    | Some (_, primary) =>
        match insert_address tenantID (dr_domain primary) accountID localpart true d with
        | Err ErrUniqueViolation => (Err ErrAddressExists, d)
        | Err e => (Err e, d)
        | Ok (id, d') =>
            (Ok (id, (localpart ++ "@" ++ match id_domains d !! dr_domain primary with Some dom => dm_domain dom | None => EmptyString end)%string), d')
        end
    end.

Definition DeleteAccountAlias (accountID addressID : Z) (d : IDB) : result unit * IDB :=
  match id_addresses d !! addressID with
  | Some x =>
      if negb ((dr_tenant x =? tenantID) && (dr_account x =? accountID)) then (Err ErrAddressNotFound, d)
      else if negb (dr_alias x) then (Err ErrPrimaryAddress, d)
      else (Ok tt, id_set_addresses (delete addressID (id_addresses d)) d)
  | None => (Err ErrAddressNotFound, d)
  end.

(** ** Agent mailboxes *)

(** The newest active binding of an account in a Space. *)
Definition active_binding (d : IDB) (accountID : Z) (space : string) : option (Z * Binding) :=
  last (select (fun _ b => (bd_account b =? accountID) && String.eqb (bd_space b) space && bd_active b) (id_bindings d)).

Record AgentMailbox := mkAgentMailbox {
  am_ID : Z; am_Address : string; am_BotID : string; am_BotProfile : string; am_Connected : bool; am_OutboundMode : string; am_Deletable : bool }.

(** One row per primary address, ordered by creation and id. *)
Definition created_le (x y : Z * Account) : Prop := aw_created x.2 < aw_created y.2 \/ aw_created x.2 = aw_created y.2 /\ x.1 <= y.1.
#[export] Instance created_le_dec : RelDecision created_le.
Proof. intros x y. unfold created_le. apply _. Defined.
Definition AgentMailboxes (principalID : Z) (spaceID : string) (d : IDB) : result (list AgentMailbox) :=
  let spaceID := trim_space spaceID in
  if String.eqb spaceID EmptyString then Err ErrAuthorizationSpaceMismatch
  else
    let rows := merge_sort created_le
      (select (fun id a => (aw_tenant a =? tenantID) && match agent_mailbox d id principalID spaceID with Some _ => true | None => false end
                 && match id_principals d !! principalID with Some p => pc_tenant p =? tenantID | None => false end) (id_accounts d)) in
    Ok (concat ((fun x : Z * Account =>
      let binding := active_binding d x.1 spaceID in
      (fun t => mkAgentMailbox x.1 t (match binding with Some b => bd_bot_id b.2 | None => EmptyString end)
                  (match binding with Some b => bd_bot_profile b.2 | None => EmptyString end)
                  (match binding with Some _ => true | None => false end)
                  (match binding with Some b => bd_mode b.2 | None => "manual_confirmation"%string end)
                  (negb (gateway_default_any d x.1 tenantID principalID)))
        <$> omap (fun y : Z * Address => address_text d y.2) (select (fun _ y => is_primary d x.1 tenantID y) (id_addresses d))) <$> rows)).

(** Revoking the bindings of an account that satisfy a condition, credentials first. *)
Definition revoke_creds (p : Z -> Binding -> bool) (d : IDB) : IDB :=
  id_set_creds ((fun c => match id_bindings d !! ac_binding c with
                          | Some b => if p (ac_binding c) b && bd_active b then mkAgentCred (ac_binding c) (ac_prefix c) (ac_cred c) true else c
                          | None => c
                          end) <$> id_creds d) d.
Definition revoke_bindings (p : Z -> Binding -> bool) (d : IDB) : IDB :=
  id_set_bindings (map_imap (fun id b => Some (if p id b && bd_active b
                    then mkBinding (bd_tenant b) (bd_account b) (bd_owner b) (bd_space b) (bd_bot_id b) (bd_bot_profile b) (bd_client_name b) (bd_mode b) false
                    else b)) (id_bindings d)) d.
Definition revoke_all (p : Z -> Binding -> bool) (d : IDB) : IDB := revoke_bindings p (revoke_creds p d).

Definition set_disabled (id : Z) (a : Account) (d : IDB) : IDB :=
  id_set_accounts (<[id := mkAcct (aw_tenant a) (aw_principal a) (aw_owner a) (aw_name a) true (aw_created a)]> (id_accounts d)) d.

Definition DeleteAgentMailbox (co : outcome) (principalID accountID : Z) (spaceID : string) (d : IDB) : result unit * IDB :=
  let spaceID := trim_space spaceID in
  if String.eqb spaceID EmptyString then (Err ErrAuthorizationSpaceMismatch, d)
  else
    match agent_mailbox d accountID principalID spaceID with
    | None => (Err ErrMailboxNotFound, d)
    | Some a =>
        if negb (aw_tenant a =? tenantID) then (Err ErrMailboxNotFound, d)
        else if gateway_default_any d accountID tenantID principalID then (Err ErrAgentMailboxNotDeletable, d)
        else commit_tx co tt d (set_disabled accountID a (revoke_all (fun _ b => bd_account b =? accountID) d))
    end.

(** The owner's registered, enabled mailboxes in a Space. *)
Definition counted (d : IDB) (principalID : Z) (spaceID : string) (id : Z) (a : Account) : bool :=
  (aw_tenant a =? tenantID) && match agent_mailbox d id principalID spaceID with Some _ => true | None => false end.
Definition registered_count (d : IDB) (principalID : Z) (spaceID : string) : Z :=
  Z.of_nat (length (select (counted d principalID spaceID) (id_accounts d))).

Definition CreateAgentMailbox (now : Z) (co : outcome) (principalID sourceAccountID : Z) (spaceID localpart configuredDomain : string)
  (maxPerOwnerSpace : Z) (b : blob_state) (d : IDB) : result (Z * string) * IDB :=
  let localpart := ToLower (trim_space localpart) in
  let spaceID := trim_space spaceID in
  let maxPerOwnerSpace := if maxPerOwnerSpace <=? 0 then 2 else maxPerOwnerSpace in
  if negb (validAgentMailboxLocalpart localpart) then (Err ErrInvalidLocalpart, d)
  else if String.eqb spaceID EmptyString then (Err ErrAuthorizationSpaceMismatch, d)
  else
    match id_principals d !! principalID with
    | None => (Err ErrMailboxNotFound, d)
    | Some p =>
        if negb (pc_tenant p =? tenantID) then (Err ErrMailboxNotFound, d)
        else
          match (match id_accounts d !! sourceAccountID with
                 | Some a => if (aw_tenant a =? tenantID) && opt_eqb (aw_owner a) principalID then primary_address d sourceAccountID tenantID else None
                 | None => None
                 end) with
          | None => (Err ErrMailboxNotFound, d)
          | Some (_, source) =>
              let configuredDomain := ToLower (trim_space configuredDomain) in
              match (if String.eqb configuredDomain EmptyString then
                       (fun dom => (dr_domain source, dm_domain dom)) <$> id_domains d !! dr_domain source
                     else (fun x : Z * DomainRow => (x.1, dm_domain x.2))
                            <$> first_row (fun _ x => (dm_tenant x =? tenantID) && String.eqb (dm_domain x) configuredDomain && negb (dm_disabled x)) (id_domains d)) with
              | None => (Err ErrAgentMailboxDomainNotFound, d)
              | Some (domainID, domainName) =>
                  if maxPerOwnerSpace <=? registered_count d principalID spaceID then (Err ErrAgentMailboxLimit, d)
                  else
                    let address := (localpart ++ "@" ++ domainName)%string in
                    let name := ("agent-mailbox:" ++ address)%string in
                    match insert_principal tenantID address d with
                    | Err ErrUniqueViolation => (Err ErrAddressExists, d)
                    | Err e => (Err e, d)
                    | Ok (mailboxPrincipal, d1) =>
                        match insert_account now tenantID (Some mailboxPrincipal) (Some principalID) name d1 with
                        | Err ErrUniqueViolation => (Err ErrAddressExists, d)
                        | Err e => (Err e, d)
                        | Ok (accountID, d2) =>
                            match insert_address tenantID domainID accountID localpart false d2 with
                            | Err ErrUniqueViolation => (Err ErrAddressExists, d)
                            | Err e => (Err e, d)
                            | Ok (_, d3) =>
                                if negb (text_ok spaceID) then (Err (ErrText "register Agent mailbox in Space"), d)
                                else
                                  let d4 := id_set_registrations (<[accountID := mkReg tenantID principalID spaceID]> (id_registrations d3)) d3 in
                                  match provision_inbox accountID tenantID b d4 with
                                  | Err e => (Err e, d)
                                  | Ok d5 => commit_tx co (accountID, address) d d5
                                  end
                            end
                        end
                    end
              end
          end
    end.

End Scope.
End Directory.
