(* ===== verification/AgentAuth.v ===== *)
(** * Authorization of agents (storage/postgres/agent_authorization.go)

    The device flow: an agent asks for a code pair, the owner of a mailbox approves the
    user code, the agent exchanges the device code and the verifier of its challenge for
    a credential, and presents that on every request.  A request that changes more than
    one table is one transaction; it takes the outcome of its COMMIT as an argument, and
    the random bytes it draws, [None] where the source of randomness fails. *)

From S2P Require Import Prelude GoStrings Headers Smtp Base64 RuleMetadata Auth Identity Directory.

Local Open Scope go_scope.

Definition ErrAgentBindingNotFound : err := ErrText "directory: active agent binding not found".
Definition ErrAuthorizationNotFound : err := ErrText "directory: agent authorization not found".
Definition ErrAuthorizationPending : err := ErrText "directory: agent authorization pending".
Definition ErrAuthorizationExpired : err := ErrText "directory: agent authorization expired".
Definition ErrAuthorizationUsed : err := ErrText "directory: agent authorization already used".
Definition ErrAuthorizationDenied : err := ErrText "directory: agent authorization denied".
Definition ErrInvalidCodeVerifier : err := ErrText "directory: invalid authorization code verifier".

Definition ManualConfirmation : string := "manual_confirmation".
Definition AutomaticSend : string := "automatic_send".
Definition valid_mode (mode : string) : bool := String.eqb mode ManualConfirmation || String.eqb mode AutomaticSend.

Definition agentAuthorizationLifetime : Z := 600.
Definition agentAuthorizationInterval : Z := 3.

Record AgentAuthorizationInput := mkAuthInput {
  ai_BotID : string; ai_BotProfile : string; ai_ClientName : string; ai_SpaceID : string; ai_CodeChallenge : string }.
Record AgentDeviceAuthorization := mkDeviceAuth { dv_DeviceCode : string; dv_UserCode : string; dv_ExpiresIn : Z; dv_Interval : Z }.
(** The times are shown in RFC 3339 by the code. *)
Record AgentAuthorizationInfo := mkAuthInfo {
  ao_UserCode : string; ao_BotID : string; ao_BotProfile : string; ao_ClientName : string; ao_SpaceID : string;
  ao_Status : AuthStatus; ao_RequestedAt : Z; ao_ExpiresAt : Z; ao_PollIntervalSeconds : Z; ao_OutboundMode : string }.
Record AgentAuthorizationCredential := mkAuthCredential {
  at_AccessToken : string; at_Address : string; at_BotID : string; at_BotProfile : string; at_OutboundMode : string }.

Definition randomURLToken (prefix : string) (random : option (list ascii)) : option string :=
  (fun b => prefix ++ RawURL_Encode b)%string <$> random.

Definition user_code_alphabet : list ascii := bytes_of "ABCDEFGHJKLMNPQRSTUVWXYZ23456789".
Definition randomUserCode (random : option (list ascii)) : option string :=
  (fun b => let b := (fun c => nth (Z.to_nat (byte_of c mod 32)) user_code_alphabet "A"%char) <$> b in
            str_of (take 4 b ++ "-"%char :: drop 4 b)) <$> random.

Section AgentAuthorization.
Context `{Sha256} `{UnicodeUpper}.

Definition normalizeUserCode (code : string) : string := ToUpper (trim_space code).

(** ** Requests *)

Definition request_of (code : string) (d : IDB) : option (list ascii * AuthRequest) :=
  head (filter (fun x => rq_user_code x.2 = code) (map_to_list (id_requests d))).

(** INSERT INTO agent_auth_requests: the digest and the user code are unique. *)
Definition insert_request (hash : list ascii) (r : AuthRequest) (d : IDB) : result IDB :=
  if negb (forallb text_ok [rq_user_code r; rq_bot_id r; rq_bot_profile r; rq_client_name r; rq_space r; rq_challenge r]) then Err (ErrText "invalid text")
  else match id_requests d !! hash, request_of (rq_user_code r) d with
       | None, None => Ok (id_set_requests (<[hash := r]> (id_requests d)) d)
       | _, _ => Err ErrUniqueViolation
       end.

(** DELETE FROM agent_auth_requests WHERE expires_at < now() - interval '1 day' *)
Definition cleanup_requests (now : Z) (d : IDB) : IDB :=
  id_set_requests (filter (fun x => now - 86400 <= rq_expires x.2) (id_requests d)) d.

Fixpoint create_attempts (attempts : nat) (codes : nat -> option (list ascii)) (deviceCode : string) (mk : string -> AuthRequest) (d : IDB)
  : result AgentDeviceAuthorization * IDB :=
  match attempts with
  | O => (Err (ErrText "create agent authorization: user code collision"), d)
  | S n =>
      match randomUserCode (codes 0%nat) with
      | None => (Err (ErrText "rand"), d)
      | Some userCode =>
          match insert_request (sha256 (bytes_of deviceCode)) (mk userCode) d with
          | Ok d' => (Ok (mkDeviceAuth deviceCode userCode agentAuthorizationLifetime agentAuthorizationInterval), d')
          | Err ErrUniqueViolation => create_attempts n (fun i => codes (S i)) deviceCode mk d
          | Err e => (Err e, d)
          end
      end
  end.

Definition CreateAgentAuthorization (now : Z) (device : option (list ascii)) (codes : nat -> option (list ascii)) (input : AgentAuthorizationInput) (d : IDB)
  : result AgentDeviceAuthorization * IDB :=
  let BotID := trim_space (ai_BotID input) in
  let BotProfile := trim_space (ai_BotProfile input) in
  let ClientName := trim_space (ai_ClientName input) in
  let SpaceID := trim_space (ai_SpaceID input) in
  if String.eqb BotID EmptyString then (Err (ErrText "bot id is required"), d)
  else if String.eqb SpaceID EmptyString then (Err (ErrText "space id is required"), d)
  else if existsb (fun s => (200 <? String.length s)%nat) [BotID; BotProfile; ClientName; SpaceID] then (Err (ErrText "agent authorization metadata is too long"), d)
  else if negb (match RawURL_Decode (ai_CodeChallenge input) with Some c => Nat.eqb (length c) 32 | None => false end)
       then (Err (ErrText "invalid code challenge"), d)
  else
    let d := cleanup_requests now d in
    match randomURLToken "omd_" device with
    | None => (Err (ErrText "rand"), d)
    | Some deviceCode =>
        create_attempts 5 codes deviceCode
          (fun userCode => mkRequest userCode BotID BotProfile ClientName SpaceID (ai_CodeChallenge input) Pending None None ManualConfirmation
                             now (now + agentAuthorizationLifetime)) d
    end.

Definition AgentAuthorization (now ownerPrincipalID : Z) (spaceID userCode : string) (d : IDB) : result AgentAuthorizationInfo :=
  let spaceID := trim_space spaceID in
  match request_of (normalizeUserCode userCode) d with
  | None => Err ErrAuthorizationNotFound
  | Some (_, r) =>
      if match rq_owner r with Some o => negb (o =? ownerPrincipalID) | None => false end then Err ErrAuthorizationNotFound
      else if String.eqb spaceID EmptyString || String.eqb (rq_space r) EmptyString || negb (String.eqb (rq_space r) spaceID) then Err ErrAuthorizationSpaceMismatch
      else if (rq_expires r <? now) && bool_decide (rq_status r <> Exchanged) then Err ErrAuthorizationExpired
      else Ok (mkAuthInfo (rq_user_code r) (rq_bot_id r) (rq_bot_profile r) (rq_client_name r) (rq_space r) (rq_status r) (rq_created r) (rq_expires r)
                 agentAuthorizationInterval (rq_mode r))
  end.

Definition set_request_approved (owner account : Z) (mode : string) (r : AuthRequest) : AuthRequest :=
  mkRequest (rq_user_code r) (rq_bot_id r) (rq_bot_profile r) (rq_client_name r) (rq_space r) (rq_challenge r) Approved (Some owner) (Some account) mode (rq_created r) (rq_expires r).
Definition set_request_exchanged (r : AuthRequest) : AuthRequest :=
  mkRequest (rq_user_code r) (rq_bot_id r) (rq_bot_profile r) (rq_client_name r) (rq_space r) (rq_challenge r) Exchanged (rq_owner r) (rq_account r) (rq_mode r) (rq_created r) (rq_expires r).

Definition ApproveAgentAuthorization (now : Z) (co : outcome) (ownerPrincipalID : Z) (spaceID userCode : string) (accountID : Z) (outboundMode : string) (d : IDB)
  : result unit * IDB :=
  if negb (valid_mode outboundMode) then (Err (ErrText "invalid Agent outbound mode"), d)
  else
    let spaceID := trim_space spaceID in
    match request_of (normalizeUserCode userCode) d with
    | None => (Err ErrAuthorizationNotFound, d)
    | Some (hash, r) =>
        if String.eqb spaceID EmptyString || String.eqb (rq_space r) EmptyString || negb (String.eqb (rq_space r) spaceID) then (Err ErrAuthorizationSpaceMismatch, d)
        else if rq_expires r <? now then (Err ErrAuthorizationExpired, d)
        else if bool_decide (rq_status r = Approved) && opt_eqb (rq_owner r) ownerPrincipalID && opt_eqb (rq_account r) accountID && String.eqb (rq_mode r) outboundMode
             then commit_tx co tt d d
        else if negb (bool_decide (rq_status r = Pending)) then (Err ErrAuthorizationUsed, d)
        else
          match agent_mailbox d accountID ownerPrincipalID spaceID with
          | None => (Err ErrMailboxNotFound, d)
          | Some _ => commit_tx co tt d (id_set_requests (<[hash := set_request_approved ownerPrincipalID accountID outboundMode r]> (id_requests d)) d)
          end
    end.

(** ** The exchange *)

(** INSERT INTO agent_binding_credentials: a prefix is unique among the live ones. *)
Definition insert_credential (binding : Z) (prefix : string) (cred : Cred) (d : IDB) : result IDB :=
  if exists_row (fun _ c => String.eqb (ac_prefix c) prefix && negb (ac_revoked c)) (id_creds d) then Err ErrUniqueViolation
  else Ok (id_bump (id_set_creds (<[id_next d := mkAgentCred binding prefix cred false]> (id_creds d)) d)).
Definition insert_binding (b : Binding) (d : IDB) : Z * IDB :=
  (id_next d, id_bump (id_set_bindings (<[id_next d := b]> (id_bindings d)) d)).

(** Rebinding: the account's active bindings end, and the new one gets its credential. *)
Definition rebind (hash : list ascii) (r : AuthRequest) (owner account tenant : Z) (prefix : string) (cred : Cred) (d : IDB) : result IDB :=
  let d := revoke_all (fun _ b => bd_account b =? account) d in
  let '(bindingID, d) := insert_binding (mkBinding tenant account owner (rq_space r) (rq_bot_id r) (rq_bot_profile r) (rq_client_name r) (rq_mode r) true) d in
  try! d := insert_credential bindingID prefix cred d in
  Ok (id_set_requests (<[hash := set_request_exchanged r]> (id_requests d)) d).

Definition ExchangeAgentAuthorization (now : Z) (co : outcome) (random : option (list ascii * list ascii)) (deviceCode codeVerifier : string) (d : IDB)
  : result AgentAuthorizationCredential * IDB :=
  if negb (has_prefix deviceCode "omd_") || String.eqb codeVerifier EmptyString then (Err ErrAuthorizationNotFound, d)
  else
    let deviceHash := sha256 (bytes_of deviceCode) in
    let wantChallenge := RawURL_Encode (sha256 (bytes_of codeVerifier)) in
    match id_requests d !! deviceHash with
    | None => (Err ErrAuthorizationNotFound, d)
    | Some r =>
        if rq_expires r <? now then (Err ErrAuthorizationExpired, d)
        else if negb (String.eqb (rq_challenge r) wantChallenge) then (Err ErrInvalidCodeVerifier, d)
        else
          match rq_status r with
          | Pending => (Err ErrAuthorizationPending, d)
          | Denied => (Err ErrAuthorizationDenied, d)
          | Exchanged => (Err ErrAuthorizationUsed, d)
          | Approved =>
              match rq_owner r, rq_account r with
              | Some owner, Some account =>
                  if String.eqb (trim_space (rq_space r)) EmptyString then (Err (ErrText "approved authorization has no mailbox"), d)
                  else
                    match (match agent_mailbox d account owner (rq_space r) with
                           | Some a => match primary_address d account (aw_tenant a) with
                                       | Some (_, x) => (fun t => (aw_tenant a, t)) <$> address_text d x
                                       | None => None
                                       end
                           | None => None
                           end) with
                    | None => (Err ErrMailboxNotFound, d)
                    | Some (tenantID, address) =>
                        match newAPIKeyToken random with
                        | None => (Err (ErrText "rand"), d)
                        | Some (prefix, secret) =>
                            match (try! cred := HashAPIKey secret in rebind deviceHash r owner account tenantID prefix cred d) with
                            | Err e => (Err e, d)
                            | Ok d' => commit_tx co (mkAuthCredential ("omb_" ++ prefix ++ "_" ++ secret) address (rq_bot_id r) (rq_bot_profile r) (rq_mode r)) d d'
                            end
                        end
                    end
              | _, _ => (Err (ErrText "approved authorization has no mailbox"), d)
              end
          end
    end.

(** ** The owner's control over a binding *)

Definition bound_to (account owner : Z) (space : string) (_ : Z) (b : Binding) : bool :=
  (bd_account b =? account) && (bd_owner b =? owner) && String.eqb (bd_space b) space.

Definition RevokeAgentBinding (co : outcome) (ownerPrincipalID accountID : Z) (spaceID : string) (d : IDB) : result unit * IDB :=
  let spaceID := trim_space spaceID in
  if String.eqb spaceID EmptyString then (Err ErrAuthorizationSpaceMismatch, d)
  else
    match agent_mailbox d accountID ownerPrincipalID spaceID with
    | None => (Err ErrMailboxNotFound, d)
    | Some _ => commit_tx co tt d (revoke_all (bound_to accountID ownerPrincipalID spaceID) d)
    end.

Definition set_mode (mode : string) (b : Binding) : Binding :=
  mkBinding (bd_tenant b) (bd_account b) (bd_owner b) (bd_space b) (bd_bot_id b) (bd_bot_profile b) (bd_client_name b) mode (bd_active b).
Definition SetAgentOutboundMode (co : outcome) (ownerPrincipalID accountID : Z) (spaceID mode : string) (d : IDB) : result unit * IDB :=
  if (ownerPrincipalID <=? 0) || (accountID <=? 0) then (Err ErrMailboxNotFound, d)
  else
    let spaceID := trim_space spaceID in
    if String.eqb spaceID EmptyString then (Err ErrAuthorizationSpaceMismatch, d)
    else if negb (valid_mode mode) then (Err (ErrText "invalid Agent outbound mode"), d)
    else
      match agent_mailbox d accountID ownerPrincipalID spaceID with
      | None => (Err ErrMailboxNotFound, d)
      | Some _ =>
          let p := fun id b => bound_to accountID ownerPrincipalID spaceID id b && bd_active b in
          if negb (Nat.eqb (length (select p (id_bindings d))) 1) then (Err ErrAgentBindingNotFound, d)
          else commit_tx co tt d (id_set_bindings (map_imap (fun id b => Some (if p id b then set_mode mode b else b)) (id_bindings d)) d)
      end.

(** ** Use of a credential *)

(** The binding is active and its mailbox is still registered for its owner and Space,
    and not a gateway's default. *)
Definition binding_live (d : IDB) (b : Binding) : bool :=
  bd_active b && negb (String.eqb (bd_space b) EmptyString)
  && match id_registrations d !! bd_account b with
     | Some r => (rg_tenant r =? bd_tenant b) && (rg_owner r =? bd_owner b) && String.eqb (rg_space r) (bd_space b)
     | None => false
     end
  && negb (gateway_default d (bd_account b) (bd_tenant b) (bd_owner b) (bd_space b)).

(** The login of a bound mailbox: its account is enabled and of the binding's tenant. *)
Definition bound_principal (d : IDB) (b : Binding) : option (Z * PrincipalRow) :=
  match id_accounts d !! bd_account b with
  | Some a =>
      if (aw_tenant a =? bd_tenant b) && negb (aw_disabled a) then
        match aw_principal a with
        | Some pid => match id_principals d !! pid with
                      | Some p => if pc_tenant p =? aw_tenant a then Some (pid, p) else None
                      | None => None
                      end
        | None => None
        end
      else None
  | None => None
  end.

(** The tenant, the principal, the account and the credential. *)
Definition AuthenticateAgentCredential (token : string) (d : IDB) : result (Z * Principal * Z * Z) :=
  match parseAgentCredential token with
  | None => Err authentication_failed
  | Some (prefix, secret) =>
      match first_row (fun _ c => String.eqb (ac_prefix c) prefix && negb (ac_revoked c)
                         && match id_bindings d !! ac_binding c with
                            | Some b => binding_live d b && match bound_principal d b with Some _ => true | None => false end
                            | None => false
                            end) (id_creds d) with
      | None => Err authentication_failed
      | Some (credentialID, c) =>
          match id_bindings d !! ac_binding c with
          | None => Err authentication_failed
          | Some b =>
              match bound_principal d b with
              | None => Err authentication_failed
              | Some (pid, p) =>
                  if negb (VerifyAPIKey (ac_cred c) secret) then Err authentication_failed
                  else try! scope := tenantScope (bd_tenant b) d in
                       Ok (scope, mkPrincipalRef pid (bd_tenant b) (pc_login p), bd_account b, credentialID)
              end
          end
      end
  end.

Definition AgentAutomationAllowed (credentialID : Z) (operation : string) (d : IDB) : bool :=
  if (credentialID <=? 0) || String.eqb (trim_space operation) EmptyString then false
  else
    match id_creds d !! credentialID with
    | Some c =>
        match id_bindings d !! ac_binding c with
        | Some b =>
            if negb (ac_revoked c) && binding_live d b then
              if String.eqb operation "mail.draft.send" then String.eqb (bd_mode b) ManualConfirmation
              else String.eqb (bd_mode b) AutomaticSend && (String.eqb operation "mail.message.send" || String.eqb operation "mail.message.reply")
            else false
        | None => false
        end
    | None => false
    end.

End AgentAuthorization.

Example user_code_example : randomUserCode (Some (chars [0; 1; 31; 32; 8; 9; 255; 24])) = Some "AB9A-JK92"%string.
Proof. vm_compute. reflexivity. Qed.
