(* ===== verification/Gateway.v ===== *)
(** * Gateway identities (storage/postgres/gateway_provisioning.go, gateway_identity.go)
    and their provisioning by an operator (ops/webadmin/webadmin.go)

    A gateway identity binds an issuer, a subject and a Space to an owner and to the
    account the browser opens.  The triggers of storage/postgres/schema/24 and 25 run
    with the statements that insert or update one.  The operator's handlers are the
    statements behind the decoded request; the HTTP response is their [result]. *)

From S2P Require Import Prelude GoStrings Shapes Blob Database Headers Net Smtp RuleMetadata Auth Identity Directory.

Local Open Scope go_scope.

Definition ErrGatewayIdentityDisabled : err := ErrText "directory: gateway identity disabled".
Definition ErrGatewayProvisioningConflict : err := ErrText "directory: gateway provisioning conflict".
Definition replayed : err := ErrText "gateway assertion replayed".

Definition hex (l : list ascii) : string :=
  str_of (concat ((fun c => [hex_digit (byte_of c / 16); hex_digit (byte_of c mod 16)]) <$> l)).

(** ** The triggers *)

(** Revoke the bindings that satisfy [p], live ones, and the credentials of all of them. *)
Definition revoke_every (p : Binding -> bool) (d : IDB) : IDB :=
  revoke_bindings (fun _ => p)
    (id_set_creds ((fun c => match id_bindings d !! ac_binding c with
                             | Some b => if p b then mkAgentCred (ac_binding c) (ac_prefix c) (ac_cred c) true else c
                             | None => c
                             end) <$> id_creds d) d).

Definition revoke_gateway_default_agent_bindings (new : Gateway) (d : IDB) : IDB :=
  if gw_disabled new then d
  else revoke_every (fun b => (bd_account b =? gw_default new) && (bd_tenant b =? gw_tenant new) && (bd_owner b =? gw_owner new)
                              && String.eqb (bd_space b) (gw_space new)) d.

(** A binding that neither a registration nor a gateway default justifies. *)
Definition orphaned (d : IDB) (b : Binding) : bool :=
  negb match id_registrations d !! bd_account b with
       | Some r => (rg_tenant r =? bd_tenant b) && (rg_owner r =? bd_owner b) && String.eqb (rg_space r) (bd_space b)
       | None => false
       end
  && negb (gateway_default d (bd_account b) (bd_tenant b) (bd_owner b) (bd_space b)).
Definition revoke_orphaned_gateway_bindings (old new : Gateway) (d : IDB) : IDB :=
  if negb (gw_default old =? gw_default new) || negb (String.eqb (gw_space old) (gw_space new)) || negb (gw_tenant old =? gw_tenant new)
     || negb (gw_owner old =? gw_owner new) || (negb (gw_disabled old) && gw_disabled new) then
    let d1 := revoke_creds (fun _ b => (bd_account b =? gw_default old) && String.eqb (bd_space b) (gw_space old) && orphaned d b) d in
    revoke_bindings (fun _ b => (bd_account b =? gw_default old) && String.eqb (bd_space b) (gw_space old) && orphaned d1 b) d1
  else d.

(** ** Provisioning *)

Record GatewayProvisioningInput := mkGatewayInput { gi_Issuer : string; gi_Subject : string; gi_SpaceID : string; gi_Localpart : string; gi_Domain : string }.
Record GatewayProvisioningResult := mkGatewayResult { gr_TenantID : Z; gr_PrincipalID : Z; gr_DefaultAccountID : Z; gr_Address : string; gr_Created : bool }.

Definition gateway_at (issuer subject space : string) (d : IDB) : option (Z * Gateway) :=
  first_row (fun _ g => String.eqb (gw_issuer g) issuer && String.eqb (gw_subject g) subject && String.eqb (gw_space g) space) (id_gateways d).

(** INSERT INTO gateway_identities, with its trigger. *)
Definition insert_gateway (g : Gateway) (d : IDB) : result IDB :=
  if negb (forallb text_ok [gw_issuer g; gw_subject g; gw_space g]) then Err (ErrText "invalid text")
  else match gateway_at (gw_issuer g) (gw_subject g) (gw_space g) d with
       | Some _ => Err ErrUniqueViolation
       | None => Ok (revoke_gateway_default_agent_bindings g (id_bump (id_set_gateways (<[id_next d := g]> (id_gateways d)) d)))
       end.

Section Gateway.
Context `{BlobOps} `{Unicode} `{Sha256}.

Definition gatewayProvisioningIdentity (issuer subject spaceID : string) (d : IDB) : result (option GatewayProvisioningResult) :=
  match gateway_at issuer subject spaceID d with
  | None => Ok None
  | Some (_, g) =>
      let acc := match id_accounts d !! gw_default g with
                 | Some a => if (aw_tenant a =? gw_tenant g) && opt_eqb (aw_owner a) (gw_owner g) then Some a else None
                 | None => None
                 end in
      let accountDisabled := match acc with Some a => aw_disabled a | None => true end in
      let addr := match acc with
                  | Some a => first_row (fun _ x => (dr_account x =? gw_default g) && (dr_tenant x =? aw_tenant a) && negb (dr_alias x)) (id_addresses d)
                  | None => None
                  end in
      let address := match addr with
                     | Some (_, x) => match id_domains d !! dr_domain x with
                                      | Some dom => if dm_tenant dom =? gw_tenant g then (dr_localpart x ++ "@" ++ dm_domain dom)%string else EmptyString
                                      | None => EmptyString
                                      end
                     | None => EmptyString
                     end in
      if gw_disabled g then Err ErrGatewayIdentityDisabled
      else if accountDisabled || String.eqb address EmptyString then Err ErrGatewayProvisioningConflict
      else Ok (Some (mkGatewayResult (gw_tenant g) (gw_owner g) (gw_default g) address false))
  end.

Definition nul : string := String (ascii_of_nat 0) EmptyString.
Definition identity_digest (issuer subject spaceID : string) : list ascii := sha256 (bytes_of (issuer ++ nul ++ subject ++ nul ++ spaceID)%string).

Definition suffixedGatewayLocalpart (preferred issuer subject spaceID : string) : string :=
  let suffix := hex (take 5 (identity_digest issuer subject spaceID)) in
  let base := if (52 <? String.length preferred)%nat then take 52 (bytes_of preferred) else bytes_of preferred in
  (str_of (trim_right (fun c => existsb (Ascii.eqb c) (bytes_of "._-")) base) ++ "-" ++ suffix)%string.

Definition occupied (tenantID domainID : Z) (domain candidate : string) (d : IDB) : bool :=
  exists_row (fun _ a => (dr_tenant a =? tenantID) && (dr_domain a =? domainID) && String.eqb (dr_localpart a) candidate) (id_addresses d)
  || login_taken d (candidate ++ "@" ++ domain).
Definition availableGatewayLocalpart (tenantID domainID : Z) (domain preferred issuer subject spaceID : string) (d : IDB) : result string :=
  match filter (fun c => occupied tenantID domainID domain c d = false) [preferred; suffixedGatewayLocalpart preferred issuer subject spaceID] with
  | candidate :: _ => Ok candidate
  | [] => Err ErrGatewayProvisioningConflict
  end.

Definition gatewayProvisioningAccountPrefix : string := "gateway-owner:".

(** [wait] is what other sessions commit until this one has the lock of the domain's row. *)
Definition EnsureGatewayIdentity (now : Z) (co : outcome) (wait : IDB -> IDB) (b : blob_state) (input : GatewayProvisioningInput) (d : IDB)
  : result GatewayProvisioningResult * IDB :=
  let Issuer := trim_space (gi_Issuer input) in
  let Subject := trim_space (gi_Subject input) in
  let SpaceID := trim_space (gi_SpaceID input) in
  let Localpart := ToLower (trim_space (gi_Localpart input)) in
  let Domain := ToLower (trim_space (gi_Domain input)) in
  if String.eqb Issuer EmptyString || String.eqb Subject EmptyString || String.eqb SpaceID EmptyString
     || (200 <? String.length Issuer)%nat || (300 <? String.length Subject)%nat || (300 <? String.length SpaceID)%nat
  then (Err ErrGatewayProvisioningConflict, d)
  else
    match gatewayProvisioningIdentity Issuer Subject SpaceID d with
    | Err e => (Err e, d)
    | Ok (Some existing) => (Ok existing, d)
    | Ok None =>
        if negb (validGatewayLocalpart Localpart) then (Err ErrInvalidLocalpart, d)
        else if String.eqb Domain EmptyString then (Err ErrAgentMailboxDomainNotFound, d)
        else
          let d := wait d in
          match first_row (fun _ x => String.eqb (dm_domain x) Domain && negb (dm_disabled x)) (id_domains d) with
          | None => (Err ErrAgentMailboxDomainNotFound, d)
          | Some (domainID, dom) =>
              let tenantID := dm_tenant dom in
              match gatewayProvisioningIdentity Issuer Subject SpaceID d with
              | Err e => (Err e, d)
              | Ok (Some existing) => (Ok existing, d)
              | Ok None =>
                  match availableGatewayLocalpart tenantID domainID Domain Localpart Issuer Subject SpaceID d with
                  | Err e => (Err e, d)
                  | Ok localpart =>
                      let address := (localpart ++ "@" ++ Domain)%string in
                      let accountName := (gatewayProvisioningAccountPrefix ++ hex (take 16 (identity_digest Issuer Subject SpaceID)))%string in
                      match insert_principal tenantID address d with
                      | Err e => (Err e, d)
                      | Ok (principalID, d1) =>
                          match insert_account now tenantID (Some principalID) (Some principalID) accountName d1 with
                          | Err e => (Err e, d)
                          | Ok (accountID, d2) =>
                              match insert_address tenantID domainID accountID localpart false d2 with
                              | Err e => (Err e, d)
                              | Ok (_, d3) =>
                                  match provision_inbox accountID tenantID b d3 with
                                  | Err e => (Err e, d)
                                  | Ok d4 =>
                                      match insert_gateway (mkGateway Issuer Subject SpaceID tenantID principalID accountID false) d4 with
                                      | Err e => (Err e, d)
                                      | Ok d5 => commit_tx co (mkGatewayResult tenantID principalID accountID address true) d d5
                                      end
                                  end
                              end
                          end
                      end
                  end
              end
          end
    end.

(** ** Assertions *)

Definition gatewayAssertionNonceRetention : Z := 300.
(** The zero [time.Time], in seconds. *)
Definition zero_time : Z := -62135596800.

(** The INSERT finds its key in the table as it is before the cleanup. *)
Definition ConsumeGatewayAssertionNonce (issuer nonce : string) (expiresAt now : Z) (d : IDB) : result unit * IDB :=
  let issuer := trim_space issuer in
  let nonce := trim_space nonce in
  if String.eqb issuer EmptyString || String.eqb nonce EmptyString || (now =? zero_time) || (expiresAt <=? now) then (Err (ErrText "invalid gateway assertion nonce"), d)
  else if negb (text_ok issuer && text_ok nonce) then (Err (ErrText "invalid text"), d)
  else
    let kept := filter (fun x : string * string * Z => now - gatewayAssertionNonceRetention < x.2) (id_nonces d) in
    match id_nonces d !! (issuer, nonce) with
    | Some _ => (Err replayed, id_set_nonces kept d)
    | None => (Ok tt, id_set_nonces (<[(issuer, nonce) := expiresAt]> kept) d)
    end.

Definition AuthenticateGatewayIdentity (issuer subject spaceID : string) (selectedAccountID : Z) (d : IDB) : result (Z * Principal * Z) :=
  let issuer := trim_space issuer in
  let subject := trim_space subject in
  let spaceID := trim_space spaceID in
  if String.eqb issuer EmptyString || String.eqb subject EmptyString || String.eqb spaceID EmptyString || (selectedAccountID <? 0) then Err authentication_failed
  else
    match gateway_at issuer subject spaceID d with
    | None => Err authentication_failed
    | Some (_, g) =>
        match id_principals d !! gw_owner g, id_accounts d !! gw_default g with
        | Some p, Some a =>
            if negb (gw_disabled g) && (pc_tenant p =? gw_tenant g) && (aw_tenant a =? gw_tenant g) && opt_eqb (aw_owner a) (gw_owner g) && negb (aw_disabled a) then
              let accountID := if 0 <? selectedAccountID then selectedAccountID else gw_default g in
              let owned := match id_accounts d !! accountID with
                           | Some acc => (aw_tenant acc =? pc_tenant p) && opt_eqb (aw_owner acc) (gw_owner g) && negb (aw_disabled acc)
                                         && ((accountID =? gw_default g) || registered d accountID acc spaceID)
                           | None => false
                           end in
              if (0 <? selectedAccountID) && negb owned then Err authentication_failed
              else try! scope := tenantScope (pc_tenant p) d in Ok (scope, mkPrincipalRef (gw_owner g) (pc_tenant p) (pc_login p), accountID)
            else Err authentication_failed
        | _, _ => Err authentication_failed
        end
    end.
End Gateway.

(** ** The operator's handlers *)

(** [requireAdmin]: the bearer token is the configured one, which is not empty. *)
Definition tokenValid (adminToken authorization : string) : bool :=
  negb (String.eqb adminToken EmptyString) && String.eqb (trim_prefix authorization "Bearer ") adminToken.
Definition requireAdmin {A} (adminToken authorization : string) (h : IDB -> result A * IDB) (d : IDB) : result A * IDB :=
  if tokenValid adminToken authorization then h d else (Err (ErrText "unauthorized"), d).

Definition handleCreateTenant (name : string) (d : IDB) : result Z * IDB :=
  if negb (text_ok name) then (Err (ErrText "invalid text"), d)
  else if exists_row (fun _ t => String.eqb (tn_name t) name) (id_tenants d) then (Err ErrUniqueViolation, d)
  else (Ok (id_next d), id_bump (id_set_tenants (<[id_next d := mkTenant name None]> (id_tenants d)) d)).

Definition handleCreateAccount (now tenantID : Z) (name : string) (d : IDB) : result Z * IDB :=
  match insert_account now tenantID None None name d with
  | Ok (id, d') => (Ok id, d')
  | Err e => (Err e, d)
  end.

Definition handleCreateDomain (tenantID : Z) (domain : string) (d : IDB) : result Z * IDB :=
  if negb (text_ok domain) then (Err (ErrText "invalid text"), d)
  else if exists_row (fun _ x => String.eqb (dm_domain x) domain) (id_domains d) then (Err ErrUniqueViolation, d)
  else match id_tenants d !! tenantID with
       | None => (Err ErrForeignKey, d)
       | Some _ => (Ok (id_next d), id_bump (id_set_domains (<[id_next d := mkDomain tenantID domain false]> (id_domains d)) d))
       end.

(** INSERT INTO principals .. ON CONFLICT (login) DO UPDATE .. inside the tenant; [ErrNoRows]
    for a login of another tenant. *)
Definition upsert_principal (tenantID : Z) (login : string) (d : IDB) : result (Z * IDB) :=
  match principal_of_login d login with
  | Some (id, p) => if pc_tenant p =? tenantID then Ok (id, d) else Err ErrNoRows
  | None => insert_principal tenantID login d
  end.

(** COALESCE(principal_id, $1), COALESCE(owner_principal_id, $1) *)
Definition claim_account (tenantID accountID principalID : Z) (d : IDB) : IDB :=
  match id_accounts d !! accountID with
  | Some a =>
      if aw_tenant a =? tenantID then
        id_set_accounts (<[accountID := mkAcct (aw_tenant a) (Some (default principalID (aw_principal a))) (Some (default principalID (aw_owner a)))
                                          (aw_name a) (aw_disabled a) (aw_created a)]> (id_accounts d)) d
      else d
  | None => d
  end.

Definition handleCreateAddress (co : outcome) (TenantID : Z) (Domain Localpart Account : string) (d : IDB) : result Z * IDB :=
  if (TenantID =? 0) || String.eqb Domain EmptyString || String.eqb Localpart EmptyString || String.eqb Account EmptyString
  then (Err (ErrText "tenant_id, domain, localpart, and account are required"), d)
  else
    match first_row (fun _ x => (dm_tenant x =? TenantID) && String.eqb (dm_domain x) Domain) (id_domains d) with
    | None => (Err ErrNoRows, d)
    | Some (domID, _) =>
        match first_row (fun _ a => (aw_tenant a =? TenantID) && String.eqb (aw_name a) Account) (id_accounts d) with
        | None => (Err ErrNoRows, d)
        | Some (accID, _) =>
            match insert_address TenantID domID accID Localpart false d with
            | Err e => (Err e, d)
            | Ok (id, d1) =>
                match upsert_principal TenantID (Localpart ++ "@" ++ Domain) d1 with
                | Err ErrNoRows => (Err (ErrText "address login already belongs to another tenant"), d)
                | Err e => (Err e, d)
                | Ok (principalID, d2) => commit_tx co id d (claim_account TenantID accID principalID d2)
                end
            end
        end
    end.

(** The enabled account of the owner whose primary address is the login. *)
Definition owner_account (login : string) (principalID : Z) (p : PrincipalRow) (d : IDB) : option (Z * Account) :=
  first_row (fun id a => opt_eqb (aw_owner a) principalID && (aw_tenant a =? pc_tenant p) && negb (aw_disabled a)
    && exists_row (fun _ x => is_primary d id (aw_tenant a) x && bool_decide (address_text d x = Some login)) (id_addresses d)) (id_accounts d).

Definition handleGatewayIdentity (issuer subject spaceID login : string) (d : IDB) : result (Z * Z * Z) * IDB :=
  let Issuer := trim_space issuer in
  let Subject := trim_space subject in
  let SpaceID := trim_space spaceID in
  let Login := trim_space login in
  if String.eqb Issuer EmptyString || String.eqb Subject EmptyString || String.eqb SpaceID EmptyString || String.eqb Login EmptyString
     || (200 <? String.length Issuer)%nat || (300 <? String.length Subject)%nat || (300 <? String.length SpaceID)%nat || (320 <? String.length Login)%nat
  then (Err (ErrText "issuer, subject, spaceId, and login are required"), d)
  else
    match (match principal_of_login d Login with
           | Some (pid, p) => (fun x : Z * Account => (pid, pc_tenant p, x.1)) <$> owner_account Login pid p d
           | None => None
           end) with
    | None => (Err (ErrText "mail owner login was not found"), d)
    | Some (principalID, tenantID, accountID) =>
        let g := mkGateway Issuer Subject SpaceID tenantID principalID accountID false in
        let ids := (principalID, tenantID, accountID) in
        match gateway_at Issuer Subject SpaceID d with
        | None => match insert_gateway g d with Ok d' => (Ok ids, d') | Err e => (Err e, d) end
        | Some (id, old) =>
            let d1 := id_set_gateways (<[id := g]> (id_gateways d)) d in
            (Ok ids, revoke_orphaned_gateway_bindings old g (revoke_gateway_default_agent_bindings g d1))
        end
    end.
