(* ===== verification/IdentityInv.v ===== *)
(** * The invariant of the identity graph

    [id_wf]: references stay inside one tenant, the unique columns are unique, a live
    credential has an active binding, and an account has at most one.  [id_ext]: what an
    operation never takes back - rows are not removed or moved to another tenant, owner
    or Space, revocations and disabling are final.  [good] says that a change respects
    both; a lemma per statement on the tables shows it. *)

From S2P Require Import Prelude GoStrings Blob Database Headers Smtp RuleMetadata Auth Identity Directory AgentAuth Gateway.

(** ** References *)

Definition ptenant (d : IDB) (p : Z) : option Z := pc_tenant <$> id_principals d !! p.
Definition dtenant (d : IDB) (x : Z) : option Z := dm_tenant <$> id_domains d !! x.
Definition atenant (d : IDB) (a : Z) : option Z := aw_tenant <$> id_accounts d !! a.
Definition owned (d : IDB) (a tenant owner : Z) : Prop := exists row, id_accounts d !! a = Some row /\ aw_tenant row = tenant /\ aw_owner row = Some owner.

Definition account_ok (d : IDB) (a : Account) : Prop :=
  is_Some (id_tenants d !! aw_tenant a)
  /\ (forall p, aw_principal a = Some p -> ptenant d p = Some (aw_tenant a))
  /\ (forall p, aw_owner a = Some p -> ptenant d p = Some (aw_tenant a)).
Definition address_ok (d : IDB) (x : Address) : Prop := dtenant d (dr_domain x) = Some (dr_tenant x) /\ atenant d (dr_account x) = Some (dr_tenant x).
Definition cred_ok (d : IDB) (c : AgentCred) : Prop :=
  exists b, id_bindings d !! ac_binding c = Some b /\ (ac_revoked c = false -> bd_active b = true).

(** At most one row satisfies a condition and has a given key. *)
Definition unique {V K} (t : gmap Z V) (p : V -> bool) (key : V -> K) : Prop :=
  forall i j v w, t !! i = Some v -> t !! j = Some w -> p v = true -> p w = true -> key v = key w -> i = j.
Definition ids_below {V} (n : Z) (t : gmap Z V) : Prop := forall i v, t !! i = Some v -> i < n.

Record id_wf (d : IDB) : Prop := {
  w_principals : forall i p, id_principals d !! i = Some p -> is_Some (id_tenants d !! pc_tenant p);
  w_domains : forall i x, id_domains d !! i = Some x -> is_Some (id_tenants d !! dm_tenant x);
  w_accounts : forall i a, id_accounts d !! i = Some a -> account_ok d a;
  w_addresses : forall i x, id_addresses d !! i = Some x -> address_ok d x;
  w_registrations : forall i r, id_registrations d !! i = Some r -> owned d i (rg_tenant r) (rg_owner r);
  w_gateways : forall i g, id_gateways d !! i = Some g -> owned d (gw_default g) (gw_tenant g) (gw_owner g);
  w_bindings : forall i b, id_bindings d !! i = Some b -> owned d (bd_account b) (bd_tenant b) (bd_owner b);
  w_creds : forall i c, id_creds d !! i = Some c -> cred_ok d c;
  w_keys : forall i k, id_keys d !! i = Some k -> atenant d (ak_account k) = Some (ak_tenant k);
  u_tenant : unique (id_tenants d) (fun _ => true) tn_name;
  u_login : unique (id_principals d) (fun _ => true) pc_login;
  u_account : unique (id_accounts d) (fun _ => true) (fun a => (aw_tenant a, aw_name a));
  u_domain : unique (id_domains d) (fun _ => true) dm_domain;
  u_address : unique (id_addresses d) (fun _ => true) (fun x => (dr_domain x, dr_localpart x));
  u_gateway : unique (id_gateways d) (fun _ => true) (fun g => (gw_issuer g, gw_subject g, gw_space g));
  u_binding : unique (id_bindings d) bd_active bd_account;
  u_cred : unique (id_creds d) (fun c => negb (ac_revoked c)) ac_prefix;
  f_tenants : ids_below (id_next d) (id_tenants d);
  f_principals : ids_below (id_next d) (id_principals d);
  f_accounts : ids_below (id_next d) (id_accounts d);
  f_domains : ids_below (id_next d) (id_domains d);
  f_addresses : ids_below (id_next d) (id_addresses d);
  f_gateways : ids_below (id_next d) (id_gateways d);
  f_bindings : ids_below (id_next d) (id_bindings d);
  f_creds : ids_below (id_next d) (id_creds d) }.

(** ** What is never taken back *)

Definition same_principal (p q : PrincipalRow) : Prop := pc_tenant q = pc_tenant p /\ pc_login q = pc_login p.
Definition same_account (a b : Account) : Prop :=
  aw_tenant b = aw_tenant a /\ aw_name b = aw_name a /\ (forall p, aw_principal a = Some p -> aw_principal b = Some p)
  /\ (forall o, aw_owner a = Some o -> aw_owner b = Some o) /\ (aw_disabled a = true -> aw_disabled b = true).
Definition binding_key (b : Binding) := (bd_tenant b, bd_account b, bd_owner b, bd_space b, bd_bot_id b).
Definition same_binding (b c : Binding) : Prop := binding_key c = binding_key b /\ (bd_active c = true -> bd_active b = true).
Definition same_cred (c e : AgentCred) : Prop :=
  ac_binding e = ac_binding c /\ ac_prefix e = ac_prefix c /\ ac_cred e = ac_cred c /\ (ac_revoked c = true -> ac_revoked e = true).
Definition kept {V} (R : V -> V -> Prop) (t t' : gmap Z V) : Prop := forall i v, t !! i = Some v -> exists w, t' !! i = Some w /\ R v w.

Record id_ext (d d' : IDB) : Prop := {
  x_tenants : kept eq (id_tenants d) (id_tenants d');
  x_principals : kept same_principal (id_principals d) (id_principals d');
  x_accounts : kept same_account (id_accounts d) (id_accounts d');
  x_domains : kept eq (id_domains d) (id_domains d');
  x_registrations : kept eq (id_registrations d) (id_registrations d');
  x_bindings : kept same_binding (id_bindings d) (id_bindings d');
  x_creds : kept same_cred (id_creds d) (id_creds d');
  x_born : forall i c, id_creds d' !! i = Some c -> i < id_next d -> is_Some (id_creds d !! i);
  x_next : id_next d <= id_next d' }.

#[export] Instance same_principal_pre : PreOrder same_principal.
Proof. split; [by intros p|]. intros p q r [] []. split; congruence. Qed.
#[export] Instance same_account_pre : PreOrder same_account.
Proof. split; [by intros a|]. intros a b c (?&?&?&?&?) (?&?&?&?&?). unfold same_account. repeat split; try congruence; auto. Qed.
#[export] Instance same_binding_pre : PreOrder same_binding.
Proof. split; [by intros b|]. intros a b c [] []. split; [congruence|auto]. Qed.
#[export] Instance same_cred_pre : PreOrder same_cred.
Proof. split; [by intros b|]. intros a b c (?&?&?&?) (?&?&?&?). unfold same_cred. repeat split; try congruence; auto. Qed.

#[export] Instance kept_pre {V} (R : V -> V -> Prop) `{!PreOrder R} : PreOrder (kept R).
Proof.
  split; [intros t i v Hv; exists v; by split|]. intros t1 t2 t3 H12 H23 i v Hv.
  destruct (H12 i v Hv) as (w & Hw & Rw). destruct (H23 i w Hw) as (u & Hu & Ru). exists u. split; [done|by etrans].
Qed.
#[export] Instance id_ext_pre : PreOrder id_ext.
Proof.
  split; [intros d; split; try reflexivity; intros i c Hi _; by eexists|]. intros d1 d2 d3 E12 E23.
  split; try (etrans; [apply E12|apply E23]). intros i c Hi Hn. pose proof (x_next _ _ E12) as Hle.
  destruct (x_born _ _ E23 i c Hi) as [c2 Hc2]; [lia|]. by eapply (x_born _ _ E12).
Qed.

Lemma kept_insert {V} (R : V -> V -> Prop) `{!PreOrder R} (t : gmap Z V) i v :
  (forall w, t !! i = Some w -> R w v) -> kept R t (<[i := v]> t).
Proof.
  intros Hw j u Hj. destruct (decide (i = j)) as [->|Hne]; [exists v; rewrite lookup_insert_eq; auto|].
  exists u. by rewrite lookup_insert_ne.
Qed.
Lemma kept_fresh {V} (R : V -> V -> Prop) `{!PreOrder R} (t : gmap Z V) n v : ids_below n t -> kept R t (<[n := v]> t).
Proof. intros Hb. apply kept_insert; [done|]. intros w Hw. apply Hb in Hw. lia. Qed.

(** References survive. *)
Lemma ptenant_mono d d' p t : kept same_principal (id_principals d) (id_principals d') -> ptenant d p = Some t -> ptenant d' p = Some t.
Proof. unfold ptenant. intros Hk (r & Hr & ->)%fmap_Some. destruct (Hk _ _ Hr) as (r' & -> & <- & _). done. Qed.
Lemma dtenant_mono d d' x t : kept eq (id_domains d) (id_domains d') -> dtenant d x = Some t -> dtenant d' x = Some t.
Proof. unfold dtenant. intros Hk (r & Hr & ->)%fmap_Some. destruct (Hk _ _ Hr) as (r' & -> & <-). done. Qed.
Lemma atenant_mono d d' a t : kept same_account (id_accounts d) (id_accounts d') -> atenant d a = Some t -> atenant d' a = Some t.
Proof. unfold atenant. intros Hk (r & Hr & ->)%fmap_Some. destruct (Hk _ _ Hr) as (r' & -> & <- & _). done. Qed.
Lemma owned_mono d d' a t o : kept same_account (id_accounts d) (id_accounts d') -> owned d a t o -> owned d' a t o.
Proof. intros Hk (r & Hr & <- & Ho). destruct (Hk _ _ Hr) as (r' & Hr' & <- & _ & _ & Hown & _). exists r'. auto. Qed.
Lemma tenants_mono d d' t : kept eq (id_tenants d) (id_tenants d') -> is_Some (id_tenants d !! t) -> is_Some (id_tenants d' !! t).
Proof. intros Hk [r Hr]. destruct (Hk _ _ Hr) as (r' & -> & _). by eexists. Qed.
Lemma account_ok_mono d d' a : kept eq (id_tenants d) (id_tenants d') -> kept same_principal (id_principals d) (id_principals d') ->
  account_ok d a -> account_ok d' a.
Proof. intros Ht Hp (Hs & Hpr & Ho). split; [by eapply tenants_mono|]. split; intros p Hx; eapply ptenant_mono; eauto. Qed.
Lemma address_ok_mono d d' x : kept eq (id_domains d) (id_domains d') -> kept same_account (id_accounts d) (id_accounts d') ->
  address_ok d x -> address_ok d' x.
Proof. intros Hd Ha [H1 H2]. split; [by eapply dtenant_mono|by eapply atenant_mono]. Qed.
Lemma owned_atenant d a t o : owned d a t o -> atenant d a = Some t.
Proof. unfold atenant. intros (r & -> & <- & _). done. Qed.

(** Inserts at a fresh id keep a column unique. *)
Lemma unique_fresh {V K} (t : gmap Z V) (p : V -> bool) (key : V -> K) n v :
  unique t p key -> (forall i w, t !! i = Some w -> p w = true -> p v = true -> key w = key v -> False) -> unique (<[n := v]> t) p key.
Proof.
  intros Hu Hn i j a b Hi Hj Pa Pb Hk. rewrite lookup_insert_Some in Hi. rewrite lookup_insert_Some in Hj.
  destruct Hi as [[<- <-]|[Hni Hi]], Hj as [[<- <-]|[Hnj Hj]]; [done| | |by eapply Hu].
  - exfalso. eapply Hn; eauto.
  - exfalso. eapply Hn; eauto.
Qed.
Lemma unique_update {V K} (t : gmap Z V) (p : V -> bool) (key : V -> K) i v w :
  unique t p key -> t !! i = Some v -> key w = key v -> (p w = true -> p v = true) -> unique (<[i := w]> t) p key.
Proof.
  intros Hu Hi Hk Hp j k a b Hj Hk' Pa Pb Hab. rewrite lookup_insert_Some in Hj. rewrite lookup_insert_Some in Hk'.
  destruct Hj as [[<- <-]|[Hnj Hj]], Hk' as [[<- <-]|[Hnk Hk']]; [done| | |by eapply Hu].
  - eapply (Hu i k v b); eauto. congruence.
  - eapply (Hu j i a v); eauto. congruence.
Qed.
Lemma ids_fresh {V} (t : gmap Z V) n v : ids_below n t -> ids_below (n + 1) (<[n := v]> t).
Proof. intros Hb i w Hi. rewrite lookup_insert_Some in Hi. destruct Hi as [[<- _]|[_ Hi]]; [lia|]. apply Hb in Hi. lia. Qed.
Lemma ids_next {V} (t : gmap Z V) n m : ids_below n t -> n <= m -> ids_below m t.
Proof. intros Hb Hn i v Hi. apply Hb in Hi. lia. Qed.
Lemma ids_update {V} (t : gmap Z V) n i v w : ids_below n t -> t !! i = Some v -> ids_below n (<[i := w]> t).
Proof. intros Hb Hi j u Hj. rewrite lookup_insert_Some in Hj. destruct Hj as [[<- _]|[_ Hj]]; eauto. Qed.

Definition good (d d' : IDB) : Prop := id_wf d -> id_wf d' /\ id_ext d d'.
#[export] Instance good_pre : PreOrder good.
Proof.
  split; [by intros d W|]. intros d1 d2 d3 H12 H23 W. destruct (H12 W) as [W2 E12]. destruct (H23 W2) as [W3 E23].
  split; [done|by etrans].
Qed.

(** ** The statements *)

(** The clauses of [id_wf] that a change leaves alone, or that only lose nothing. *)
Ltac carry W E :=
  first
    [ exact (w_principals _ W) | exact (w_domains _ W) | exact (w_accounts _ W) | exact (w_addresses _ W) | exact (w_registrations _ W)
    | exact (w_gateways _ W) | exact (w_bindings _ W) | exact (w_creds _ W) | exact (w_keys _ W) | exact (u_tenant _ W) | exact (u_login _ W)
    | exact (u_account _ W) | exact (u_domain _ W) | exact (u_address _ W) | exact (u_gateway _ W) | exact (u_binding _ W) | exact (u_cred _ W)
    | exact (f_tenants _ W) | exact (f_principals _ W) | exact (f_accounts _ W) | exact (f_domains _ W) | exact (f_addresses _ W)
    | exact (f_gateways _ W) | exact (f_bindings _ W) | exact (f_creds _ W)
    | eapply ids_next; [first [exact (f_tenants _ W) | exact (f_principals _ W) | exact (f_accounts _ W) | exact (f_domains _ W) | exact (f_addresses _ W)
                              | exact (f_gateways _ W) | exact (f_bindings _ W) | exact (f_creds _ W)]|lia]
    | intros ? ? Hr; apply (w_principals _ W) in Hr; exact (tenants_mono _ _ _ (x_tenants _ _ E) Hr)
    | intros ? ? Hr; apply (w_domains _ W) in Hr; exact (tenants_mono _ _ _ (x_tenants _ _ E) Hr)
    | intros ? ? Hr; apply (w_accounts _ W) in Hr; exact (account_ok_mono _ _ _ (x_tenants _ _ E) (x_principals _ _ E) Hr)
    | intros ? ? Hr; apply (w_addresses _ W) in Hr; exact (address_ok_mono _ _ _ (x_domains _ _ E) (x_accounts _ _ E) Hr)
    | intros ? ? Hr; apply (w_registrations _ W) in Hr; exact (owned_mono _ _ _ _ _ (x_accounts _ _ E) Hr)
    | intros ? ? Hr; apply (w_gateways _ W) in Hr; exact (owned_mono _ _ _ _ _ (x_accounts _ _ E) Hr)
    | intros ? ? Hr; apply (w_bindings _ W) in Hr; exact (owned_mono _ _ _ _ _ (x_accounts _ _ E) Hr)
    | intros ? ? Hr; apply (w_keys _ W) in Hr; exact (atenant_mono _ _ _ _ (x_accounts _ _ E) Hr) ].
Ltac ext W :=
  split; simpl;
  first [ reflexivity | lia | let Hrow := fresh "Hrow" in intros ? ? Hrow _; by eexists
        | let Hrow := fresh "Hrow" in intros ? ? Hrow ?; rewrite lookup_insert_Some in Hrow; destruct Hrow as [[<- _]|[_ Hrow]]; [lia|by eexists]
        | apply kept_fresh; [apply _|]; first [exact (f_tenants _ W) | exact (f_principals _ W) | exact (f_accounts _ W) | exact (f_domains _ W) | exact (f_bindings _ W) | exact (f_creds _ W)]
        | idtac ].
(** Prove [good d d'] up to the clauses of the changed table. *)
Ltac good_up W E :=
  intros W;
  match goal with |- id_wf ?x /\ id_ext ?y ?x => assert (E : id_ext y x) by (ext W); split; [|exact E] end;
  split; simpl; try carry W E.
(** A row of a table with an inserted row. *)
Ltac row H := rewrite lookup_insert_Some in H; destruct H as [[<- <-]|[? H]].

Lemma not_taken {V} (p : Z -> V -> bool) (t : gmap Z V) i v : exists_row p t = false -> t !! i = Some v -> p i v = true -> False.
Proof. rewrite exists_row_false. intros Hf Hi Hp. specialize (Hf i v Hi). congruence. Qed.

Lemma good_same d d' : id_tenants d' = id_tenants d -> id_principals d' = id_principals d -> id_accounts d' = id_accounts d ->
  id_domains d' = id_domains d -> id_addresses d' = id_addresses d -> id_registrations d' = id_registrations d -> id_gateways d' = id_gateways d ->
  id_bindings d' = id_bindings d -> id_creds d' = id_creds d -> id_keys d' = id_keys d -> id_next d' = id_next d -> good d d'.
Proof.
  destruct d, d'. simpl. intros -> -> -> -> -> -> -> -> -> -> -> W.
  match goal with |- id_wf ?x /\ id_ext ?y ?x => assert (E : id_ext y x) by (split; simpl; first [reflexivity|let Hrow := fresh "Hrow" in intros ? ? Hrow _; by eexists]) end.
  split; [|exact E]. split; simpl; carry W E.
Qed.
Lemma good_kernel k d : good d (id_set_kernel k d).
Proof. by apply good_same. Qed.
Lemma good_requests v d : good d (id_set_requests v d).
Proof. by apply good_same. Qed.
Lemma good_nonces v d : good d (id_set_nonces v d).
Proof. by apply good_same. Qed.

Lemma good_tenant name d : exists_row (fun _ t => String.eqb (tn_name t) name) (id_tenants d) = false ->
  good d (id_bump (id_set_tenants (<[id_next d := mkTenant name None]> (id_tenants d)) d)).
Proof.
  intros Hex. good_up W E.
  - apply unique_fresh; [apply W|]. intros i t Hi _ _ Hk. simpl in Hk. eapply not_taken; [exact Hex|exact Hi|]. by apply String.eqb_eq.
  - apply ids_fresh, W.
Qed.
Lemma good_domain t domain d : exists_row (fun _ x => String.eqb (dm_domain x) domain) (id_domains d) = false -> is_Some (id_tenants d !! t) ->
  good d (id_bump (id_set_domains (<[id_next d := mkDomain t domain false]> (id_domains d)) d)).
Proof.
  intros Hex Ht. good_up W E.
  - intros i x Hi. row Hi; [done|by eapply W].
  - apply unique_fresh; [apply W|]. intros i x Hi _ _ Hk. simpl in Hk. eapply not_taken; [exact Hex|exact Hi|]. by apply String.eqb_eq.
  - apply ids_fresh, W.
Qed.

Lemma good_principal t login d id d' : insert_principal t login d = Ok (id, d') -> good d d' /\ ptenant d' id = Some t.
Proof.
  unfold insert_principal. destruct (negb (text_ok login)); [done|]. destruct (login_taken d login) eqn:Hex; [done|].
  destruct (id_tenants d !! t) eqn:Ht; [|done]. intros [= <- <-]. split; [|unfold ptenant; simpl; by rewrite lookup_insert_eq]. good_up W E.
  - intros i p Hi. row Hi; [by exists t0|by eapply W].
  - apply unique_fresh; [apply W|]. intros i x Hi _ _ Hk. simpl in Hk. eapply not_taken; [exact Hex|exact Hi|]. by apply String.eqb_eq.
  - apply ids_fresh, W.
Qed.

Lemma good_account now t po oo name d id d' :
  insert_account now t po oo name d = Ok (id, d') -> (forall p, po = Some p -> ptenant d p = Some t) -> (forall p, oo = Some p -> ptenant d p = Some t) ->
  good d d' /\ id = id_next d /\ id_accounts d' !! id = Some (mkAcct t po oo name false now) /\ id_registrations d' = id_registrations d.
Proof.
  unfold insert_account. destruct (negb (text_ok name)); [done|]. destruct (exists_row _ (id_accounts d)) eqn:Hex; [done|].
  destruct (id_tenants d !! t) eqn:Ht; [|done]. intros [= <- <-] Hp Ho. split; [|simpl; by rewrite lookup_insert_eq]. good_up W E.
  - intros i a Hi. row Hi; [|by eapply W]. split; [by exists t0|]. split; simpl; [exact Hp|exact Ho].
  - apply unique_fresh; [apply W|]. intros i x Hi _ _ Hk. simpl in Hk. injection Hk as Hk1 Hk2. eapply not_taken; [exact Hex|exact Hi|].
    simpl. rewrite Hk1, Z.eqb_refl. by apply String.eqb_eq.
  - apply ids_fresh, W.
Qed.

Lemma good_address t dom acc lp al d id d' : insert_address t dom acc lp al d = Ok (id, d') -> dtenant d dom = Some t -> atenant d acc = Some t ->
  good d d' /\ id = id_next d /\ d' = id_bump (id_set_addresses (<[id := mkAddr t dom acc lp al]> (id_addresses d)) d).
Proof.
  unfold insert_address. destruct (negb (text_ok lp)); [done|]. destruct (address_taken d dom lp) eqn:Hex; [done|].
  intros [= <- <-] Hd Ha. split; [|done]. good_up W E.
  - intros i x Hi. row Hi; [done|by eapply W].
  - apply unique_fresh; [apply W|]. intros i x Hi _ _ Hk. simpl in Hk. injection Hk as Hk1 Hk2. eapply not_taken; [exact Hex|exact Hi|].
    simpl. rewrite Hk1, Z.eqb_refl. by apply String.eqb_eq.
  - apply ids_fresh, W.
Qed.

Lemma good_delete_address i d : good d (id_set_addresses (delete i (id_addresses d)) d).
Proof.
  good_up W E.
  - intros j x Hj. rewrite lookup_delete_Some in Hj. eapply W, Hj.
  - intros j k x y Hj Hk. rewrite lookup_delete_Some in Hj. rewrite lookup_delete_Some in Hk. eapply (u_address _ W); [apply Hj|apply Hk].
  - intros j x Hj. rewrite lookup_delete_Some in Hj. eapply (f_addresses _ W), Hj.
Qed.

Lemma good_registration d id a o space : id_accounts d !! id = Some a -> aw_owner a = Some o -> id_registrations d !! id = None ->
  good d (id_set_registrations (<[id := mkReg (aw_tenant a) o space]> (id_registrations d)) d).
Proof.
  intros Ha Ho Hn. intros W.
  assert (E : id_ext d (id_set_registrations (<[id := mkReg (aw_tenant a) o space]> (id_registrations d)) d)).
  { split; simpl; try reflexivity; try (let Hrow := fresh "Hrow" in intros ? ? Hrow _; by eexists). apply kept_insert; [apply _|]. intros w Hw. congruence. }
  split; [|exact E]. split; simpl; try carry W E. intros i r Hi. row Hi; [|by eapply W]. exists a. auto.
Qed.

Lemma good_login_cred i p c d : id_principals d !! i = Some p ->
  good d (id_set_principals (<[i := mkPrincipal (pc_tenant p) (pc_login p) c]> (id_principals d)) d).
Proof.
  intros Hp W.
  assert (E : id_ext d (id_set_principals (<[i := mkPrincipal (pc_tenant p) (pc_login p) c]> (id_principals d)) d)).
  { split; simpl; try reflexivity; try (let Hrow := fresh "Hrow" in intros ? ? Hrow _; by eexists). apply kept_insert; [apply _|]. intros w Hw. assert (w = p) as -> by congruence. done. }
  split; [|exact E]. split; simpl; try carry W E.
  - intros j q Hj. row Hj; [|by eapply W]. simpl. by eapply W.
  - by apply unique_update with p; [apply W|..].
  - apply ids_update with p; [apply W|done].
Qed.

Lemma good_account_update i a b d : id_accounts d !! i = Some a -> same_account a b ->
  (forall p, aw_principal b = Some p -> ptenant d p = Some (aw_tenant a)) -> (forall p, aw_owner b = Some p -> ptenant d p = Some (aw_tenant a)) ->
  good d (id_set_accounts (<[i := b]> (id_accounts d)) d).
Proof.
  intros Ha Hs Hp Ho W.
  assert (E : id_ext d (id_set_accounts (<[i := b]> (id_accounts d)) d)).
  { split; simpl; try reflexivity; try (let Hrow := fresh "Hrow" in intros ? ? Hrow _; by eexists). apply kept_insert; [apply _|]. intros w Hw. by assert (w = a) as -> by congruence. }
  destruct Hs as (Ht & Hn & _). split; [|exact E]. split; simpl; try carry W E.
  - intros j x Hj. row Hj; [|by eapply W]. unfold account_ok. rewrite Ht. split; [apply (w_accounts _ W _ _ Ha)|]. by split.
  - apply unique_update with a; [apply W|done| |done]. congruence.
  - apply ids_update with a; [apply W|done].
Qed.

Lemma good_key tenant account login name prefix cred d : atenant d account = Some tenant ->
  good d (id_bump (id_set_keys (<[id_next d := mkApiKey tenant account login name prefix cred false]> (id_keys d)) d)).
Proof. intros Ha. good_up W E. intros i k Hi. row Hi; [done|by eapply W]. Qed.

(** A gateway's row, new or changed. *)
Lemma good_gateway i g d : owned d (gw_default g) (gw_tenant g) (gw_owner g) -> i < id_next d ->
  (forall j h, id_gateways d !! j = Some h -> j <> i -> (gw_issuer h, gw_subject h, gw_space h) <> (gw_issuer g, gw_subject g, gw_space g)) ->
  good d (id_set_gateways (<[i := g]> (id_gateways d)) d).
Proof.
  intros Ho Hi Hu. good_up W E.
  - intros j h Hj. row Hj; [done|by eapply W].
  - intros j k h l Hj Hk _ _ Heq. rewrite lookup_insert_Some in Hj. rewrite lookup_insert_Some in Hk.
    destruct Hj as [[<- <-]|[Hnj Hj]], Hk as [[<- <-]|[Hnk Hk]]; [done| | |by eapply (u_gateway _ W)].
    + exfalso. eapply (Hu k l); eauto.
    + exfalso. eapply (Hu j h); eauto.
  - intros j h Hj. row Hj; [done|by eapply (f_gateways _ W)].
Qed.
Lemma good_bump d : good d (id_bump d).
Proof. good_up W E. Qed.

(** Revocations: whatever bindings end, their credentials do. *)
Definition deactivate (b : Binding) : Binding :=
  mkBinding (bd_tenant b) (bd_account b) (bd_owner b) (bd_space b) (bd_bot_id b) (bd_bot_profile b) (bd_client_name b) (bd_mode b) false.
Definition revoke (c : AgentCred) : AgentCred := mkAgentCred (ac_binding c) (ac_prefix c) (ac_cred c) true.

Lemma good_revocation (B : gmap Z Binding) (C : gmap Z AgentCred) (P : Z -> Binding -> bool) (Q : AgentCred -> bool) d :
  (forall i, B !! i = (fun b => if P i b then deactivate b else b) <$> id_bindings d !! i) ->
  (forall i, C !! i = (fun c => if Q c then revoke c else c) <$> id_creds d !! i) ->
  (forall c b, id_bindings d !! ac_binding c = Some b -> P (ac_binding c) b = true -> bd_active b = true -> Q c = true) ->
  good d (id_set_bindings B (id_set_creds C d)).
Proof.
  intros HB HC HPQ W.
  assert (Hsb : forall i b, same_binding b (if P i b then deactivate b else b)) by (intros i b; destruct (P i b); by split).
  assert (Hsc : forall c, same_cred c (if Q c then revoke c else c)) by (intros c; by destruct (Q c)).
  assert (E : id_ext d (id_set_bindings B (id_set_creds C d))).
  { split; simpl; try reflexivity.
    3: { intros i c Hi _. rewrite HC in Hi. apply fmap_Some in Hi as (c0 & Hc0 & _). by exists c0. }
    - intros i b Hi. exists (if P i b then deactivate b else b). by rewrite HB, Hi.
    - intros i c Hi. exists (if Q c then revoke c else c). by rewrite HC, Hi. }
  assert (OB : forall i b, B !! i = Some b -> exists b0, id_bindings d !! i = Some b0 /\ same_binding b0 b /\ (P i b0 = false -> b = b0)).
  { intros i b Hi. rewrite HB in Hi. apply fmap_Some in Hi as (b0 & Hb0 & ->). exists b0. split; [done|]. split; [done|]. by intros ->. }
  assert (OC : forall i c, C !! i = Some c -> exists c0, id_creds d !! i = Some c0 /\ c = if Q c0 then revoke c0 else c0).
  { intros i c Hi. rewrite HC in Hi. by apply fmap_Some in Hi. }
  split; [|exact E]. split; simpl; try carry W E.
  - intros i b Hi. destruct (OB i b Hi) as (b0 & Hb0 & [[= -> -> ->] _] & _). by apply (w_bindings _ W i).
  - intros i c Hi. destruct (OC i c Hi) as (c0 & Hc0 & ->). destruct (w_creds _ W _ _ Hc0) as (b0 & Hb0 & Hact).
    exists (if P (ac_binding c0) b0 then deactivate b0 else b0). split; [simpl; rewrite HB; destruct (Q c0); simpl; by rewrite Hb0|].
    destruct (Q c0) eqn:EQ; [done|]. intros Hr. destruct (P (ac_binding c0) b0) eqn:EP; [|auto].
    rewrite (HPQ c0 b0 Hb0 EP (Hact Hr)) in EQ. done.
  - intros i j b c Hi Hj Ab Ac Hk. destruct (OB i b Hi) as (b0 & Hb0 & [[= Ht Ha ?] Sb] & _), (OB j c Hj) as (c0 & Hc0 & [[= ? Hc ?] Sc] & _).
    eapply (u_binding _ W i j b0 c0); eauto. congruence.
  - intros i j b c Hi Hj Ab Ac Hk. destruct (OC i b Hi) as (b0 & Hb0 & ->), (OC j c Hj) as (c0 & Hc0 & ->).
    destruct (Q b0), (Q c0); try done. by eapply (u_cred _ W i j b0 c0).
  - intros i b Hi. destruct (OB i b Hi) as (b0 & Hb0 & _). by eapply (f_bindings _ W).
  - intros i c Hi. destruct (OC i c Hi) as (c0 & Hc0 & _). by eapply (f_creds _ W).
Qed.

Lemma map_imap_lookup {V} (f : Z -> V -> V) (t : gmap Z V) i : map_imap (fun k v => Some (f k v)) t !! i = f i <$> t !! i.
Proof. rewrite map_lookup_imap. by destruct (t !! i). Qed.

Definition cred_hit (p : Z -> Binding -> bool) (d : IDB) (c : AgentCred) : bool :=
  match id_bindings d !! ac_binding c with Some b => p (ac_binding c) b | None => false end.
Lemma cred_hit_map (p : Z -> Binding -> bool) d i :
  ((fun c => match id_bindings d !! ac_binding c with
             | Some b => if p (ac_binding c) b then mkAgentCred (ac_binding c) (ac_prefix c) (ac_cred c) true else c
             | None => c end) <$> id_creds d) !! i
  = (fun c => if cred_hit p d c then revoke c else c) <$> id_creds d !! i.
Proof. rewrite lookup_fmap. destruct (id_creds d !! i) as [c|]; [|done]. simpl. unfold cred_hit. by destruct (id_bindings d !! ac_binding c). Qed.

Lemma good_revoke_all p d : good d (revoke_all p d).
Proof.
  apply (good_revocation _ _ (fun i b => p i b && bd_active b) (cred_hit (fun i b => p i b && bd_active b) d)).
  - intros i. apply (map_imap_lookup (fun i b => if p i b && bd_active b then deactivate b else b)).
  - intros i. apply (cred_hit_map (fun i b => p i b && bd_active b)).
  - intros c b Hb Hp _. unfold cred_hit. by rewrite Hb.
Qed.
Lemma good_revoke_every p d : good d (revoke_every p d).
Proof.
  apply (good_revocation _ _ (fun _ b => p b && bd_active b) (cred_hit (fun _ => p) d)).
  - intros i. apply (map_imap_lookup (fun i b => if p b && bd_active b then deactivate b else b)).
  - intros i. apply (cred_hit_map (fun _ => p)).
  - intros c b Hb [Hp _]%andb_prop _. unfold cred_hit. by rewrite Hb.
Qed.
Lemma good_orphaned old new d : good d (revoke_orphaned_gateway_bindings old new d).
Proof.
  unfold revoke_orphaned_gateway_bindings. case_goal; [|reflexivity].
  exact (good_revoke_all (fun _ b => (bd_account b =? gw_default old) && String.eqb (bd_space b) (gw_space old) && orphaned d b) d).
Qed.
Lemma good_default_bindings g d : good d (revoke_gateway_default_agent_bindings g d).
Proof. unfold revoke_gateway_default_agent_bindings. case_goal; [reflexivity|apply good_revoke_every]. Qed.

Lemma good_modes (p : Z -> Binding -> bool) mode d : good d (id_set_bindings (map_imap (fun id b => Some (if p id b then set_mode mode b else b)) (id_bindings d)) d).
Proof.
  set (B := map_imap (fun id b => Some (if p id b then set_mode mode b else b)) (id_bindings d)).
  assert (HB : forall i b, B !! i = Some b -> exists b0, id_bindings d !! i = Some b0 /\ binding_key b = binding_key b0 /\ bd_active b = bd_active b0).
  { intros i b Hi. unfold B in Hi. rewrite (map_imap_lookup (fun i b => if p i b then set_mode mode b else b)) in Hi.
    apply fmap_Some in Hi as (b0 & Hb0 & ->). exists b0. by destruct (p i b0). }
  assert (HK : forall i b0, id_bindings d !! i = Some b0 -> exists b, B !! i = Some b /\ binding_key b = binding_key b0 /\ bd_active b = bd_active b0).
  { intros i b0 Hi. exists (if p i b0 then set_mode mode b0 else b0). unfold B.
    rewrite (map_imap_lookup (fun i b => if p i b then set_mode mode b else b)), Hi. split; [done|]. by destruct (p i b0). }
  clearbody B. intros W. assert (E : id_ext d (id_set_bindings B d)).
  { split; simpl; try reflexivity; try (let Hrow := fresh "Hrow" in intros ? ? Hrow _; by eexists). intros i b Hi. destruct (HK i b Hi) as (b' & Hb' & Hkey & Ha). exists b'. split; [done|]. split; [done|]. by rewrite Ha. }
  split; [|exact E]. split; simpl; try carry W E.
  - intros i b Hi. destruct (HB i b Hi) as (b0 & Hb0 & [= -> -> ->] & _). by apply (w_bindings _ W i).
  - intros i c Hi. destruct (w_creds _ W _ _ Hi) as (b0 & Hb0 & Hact). destruct (HK _ _ Hb0) as (b & Hb & _ & Ha). exists b.
    split; [done|]. rewrite Ha. auto.
  - intros i j b c Hi Hj Ab Ac Hk. destruct (HB i b Hi) as (b0 & Hb0 & [= ? HX ?] & Sb), (HB j c Hj) as (c0 & Hc0 & [= ? HY ?] & Sc).
    eapply (u_binding _ W i j b0 c0); congruence.
  - intros i b Hi. destruct (HB i b Hi) as (b0 & Hb0 & _). by eapply (f_bindings _ W).
Qed.

Lemma good_binding b d : owned d (bd_account b) (bd_tenant b) (bd_owner b) ->
  (forall i c, id_bindings d !! i = Some c -> bd_active c = true -> bd_account c <> bd_account b) ->
  good d (insert_binding b d).2.
Proof.
  intros Ho Hn. unfold insert_binding. simpl. good_up W E.
  - intros i c Hi. row Hi; [done|by eapply W].
  - intros i c Hi. destruct (w_creds _ W _ _ Hi) as (b0 & Hb0 & Hact). exists b0. split; [|done]. simpl. rewrite lookup_insert_ne; [done|].
    intros He. apply (f_bindings _ W) in Hb0. lia.
  - apply unique_fresh; [apply W|]. intros i c Hi Hc _ Hk. by eapply Hn.
  - apply ids_fresh, W.
Qed.
Lemma good_credential binding b prefix cred d d' : insert_credential binding prefix cred d = Ok d' ->
  id_bindings d !! binding = Some b -> bd_active b = true -> good d d'.
Proof.
  unfold insert_credential. destruct (exists_row _ (id_creds d)) eqn:Hex; [done|]. intros [= <-] Hb Ha. good_up W E.
  - intros i c Hi. row Hi; [|by eapply W]. by exists b.
  - apply unique_fresh; [apply W|]. intros i c Hi Hc _ Hk. simpl in Hk. eapply not_taken; [exact Hex|exact Hi|]. simpl. rewrite Hc, andb_true_r.
    by apply String.eqb_eq.
  - apply ids_fresh, W.
Qed.

Lemma revoke_all_bindings p d i b : id_bindings (revoke_all p d) !! i = Some b ->
  exists b0, id_bindings d !! i = Some b0 /\ b = if p i b0 && bd_active b0 then deactivate b0 else b0.
Proof.
  unfold revoke_all, revoke_bindings. simpl. rewrite (map_imap_lookup (fun i b => if p i b && bd_active b then deactivate b else b)).
  intros (b0 & Hb0 & ->)%fmap_Some. by exists b0.
Qed.
Lemma revoked_account account d i b : id_bindings (revoke_all (fun _ c => bd_account c =? account) d) !! i = Some b -> bd_active b = true -> bd_account b <> account.
Proof.
  intros (b0 & _ & ->)%revoke_all_bindings. destruct (bd_account b0 =? account) eqn:Ea; simpl; [destruct (bd_active b0) eqn:Eb; simpl; congruence|].
  intros _. by apply Z.eqb_neq.
Qed.

Lemma good_rebind hash r owner account tenant prefix cred d d' :
  rebind hash r owner account tenant prefix cred d = Ok d' -> owned d account tenant owner -> good d d'.
Proof.
  unfold rebind. intros Hr Ho. set (d1 := revoke_all (fun _ b => bd_account b =? account) d) in Hr.
  set (b := mkBinding tenant account owner (rq_space r) (rq_bot_id r) (rq_bot_profile r) (rq_client_name r) (rq_mode r) true) in Hr.
  assert (G1 : good d d1) by apply good_revoke_all.
  assert (Ho1 : owned d1 account tenant owner) by exact Ho.
  assert (G2 : good d1 (insert_binding b d1).2).
  { apply good_binding; [done|]. intros i c Hi Ha. by eapply revoked_account. }
  unfold insert_binding in Hr. cbv zeta in Hr. cbn beta iota in Hr.
  destruct (insert_credential _ _ _ _) as [d3|e] eqn:Hc; [|done]. simpl in Hr. injection Hr as <-.
  etrans; [exact G1|]. etrans; [exact G2|]. etrans; [|apply good_requests].
  eapply good_credential; [exact Hc| |]; [simpl; apply lookup_insert_eq|done].
Qed.
