(* ===== verification/IdentitySteps.v ===== *)
(** * Histories of the identity graph

    [event]: one request to the directory, the agent authorization, the gateway or the
    operator's interface, with its clock, its random bytes and the outcome of its COMMIT;
    [EMail] is what the kernel does to the accounts' mail meanwhile.  Every event keeps
    the invariant of [IdentityInv], whatever its arguments. *)

From S2P Require Import Prelude GoStrings Blob Database KernelDemo Headers Smtp Base64 RuleMetadata Auth Identity Directory AgentAuth Gateway IdentityInv.

Lemma good_commit {A} co (a : A) d d' : good d d' -> good d (commit_tx co a d d').2.
Proof. destruct co as [|[]]; [done|done|reflexivity]. Qed.
Lemma agent_mailbox_Some d id owner space a : agent_mailbox d id owner space = Some a ->
  id_accounts d !! id = Some a /\ aw_owner a = Some owner /\ aw_disabled a = false /\ registered d id a space = true
  /\ gateway_default d id (aw_tenant a) owner space = false.
Proof.
  unfold agent_mailbox. destruct (id_accounts d !! id) as [x|] eqn:Ea; [|done]. case_goal; [|done]. intros [= <-]. b2p.
  unfold opt_eqb in *. destruct (aw_owner x); [|done]. b2p. by subst.
Qed.
Lemma agent_mailbox_owned d id owner space a : agent_mailbox d id owner space = Some a -> owned d id (aw_tenant a) owner.
Proof. intros (Ha & Ho & _)%agent_mailbox_Some. by exists a. Qed.

Section Steps.
Context `{BlobOps} `{Unicode} `{PasswordHash} `{Sha256} `{AddressParser} `{DomainName} `{UnicodeUpper}.

(** ** The directory *)

Lemma good_SetPassword login pw salt ssalt d : good d (SetPassword login pw salt ssalt d).2.
Proof.
  unfold SetPassword. case_goal; [|reflexivity]. destruct (principal_of_login d login) as [[id p]|] eqn:Ep; [|reflexivity].
  apply first_row_Some in Ep as [Ep _]. by apply good_login_cred.
Qed.

Lemma good_IssueAPIKey login name random d : good d (IssueAPIKey login name random d).2.
Proof.
  unfold IssueAPIKey. generalize (if String.eqb name EmptyString then "api key"%string else name) as label. intros label. cbv zeta.
  destruct (principal_of_login d login) as [[id p]|]; [|reflexivity]. destruct (ParseAddress login) as [a|]; [|reflexivity].
  destruct (IssueAPIKey_account (pc_tenant p) a d) as [acc|] eqn:Ea; [|reflexivity].
  destruct (newAPIKeyToken random) as [[prefix secret]|]; [|reflexivity]. destruct (HashAPIKey secret); [|reflexivity].
  case_goal; [reflexivity|]. intros W. apply good_key; [|exact W].
  unfold IssueAPIKey_account in Ea. apply fmap_Some in Ea as ([k x] & Hx & ->). apply first_row_Some in Hx as [Hx Hp].
  b2p. destruct (w_addresses _ W _ _ Hx) as [_ Ht]. simpl in *. congruence.
Qed.

Lemma primary_address_Some d id t k x : primary_address d id t = Some (k, x) -> id_addresses d !! k = Some x /\ is_primary d id t x = true.
Proof. unfold primary_address. intros Hx. by apply first_row_Some in Hx. Qed.
Lemma is_primary_spec d id t x : is_primary d id t x = true ->
  dr_account x = id /\ dr_tenant x = t /\ dr_alias x = false /\ dtenant d (dr_domain x) = Some t /\ exists text, address_text d x = Some text.
Proof.
  unfold is_primary, dtenant. destruct (address_text d x) as [text|] eqn:Et; [|by rewrite andb_false_r].
  intros Hp. b2p. subst. split_and!; [done..| |by exists text]. unfold address_text in Et.
  destruct (id_domains d !! dr_domain x) as [dom|]; [|done]. simpl. destruct (dm_tenant dom =? dr_tenant x) eqn:E2; [|done]. apply Z.eqb_eq in E2. by rewrite E2.
Qed.

Lemma good_CreateAccountAlias t acc lp d : good d (CreateAccountAlias t acc lp d).2.
Proof.
  unfold CreateAccountAlias. cbv zeta. case_goal; [reflexivity|].
  destruct (id_accounts d !! acc) as [a|] eqn:Ea; [|reflexivity]. destruct (aw_tenant a =? t) eqn:Et; [|reflexivity].
  destruct (primary_address d acc t) as [[k x]|] eqn:Ep; [|reflexivity].
  destruct (insert_address _ _ _ _ _ _) as [[id d']|e] eqn:Ei; [|destruct e; reflexivity].
  apply primary_address_Some in Ep as [_ (_ & _ & _ & Hd & _)%is_primary_spec].
  assert (Ha : atenant d acc = Some t) by (unfold atenant; rewrite Ea; apply Z.eqb_eq in Et; simpl; congruence).
  by destruct (good_address _ _ _ _ _ _ _ _ Ei Hd Ha).
Qed.
Lemma good_DeleteAccountAlias t acc id d : good d (DeleteAccountAlias t acc id d).2.
Proof. unfold DeleteAccountAlias. repeat case_goal; try reflexivity. apply good_delete_address. Qed.

Lemma good_set_disabled id a d : id_accounts d !! id = Some a -> good d (set_disabled id a d).
Proof.
  intros Ha W. destruct (w_accounts _ W _ _ Ha) as (_ & Hp & Ho). by eapply good_account_update.
Qed.
Lemma good_DeleteAgentMailbox t co owner acc space d : good d (DeleteAgentMailbox t co owner acc space d).2.
Proof.
  unfold DeleteAgentMailbox. cbv zeta. case_goal; [reflexivity|]. destruct (agent_mailbox _ _ _ _) as [a|] eqn:Ea; [|reflexivity].
  case_goal; [reflexivity|]. case_goal; [reflexivity|]. apply good_commit. etrans; [apply (good_revoke_all (fun _ b => bd_account b =? acc))|].
  apply agent_mailbox_Some in Ea as [Ea _]. by apply good_set_disabled.
Qed.

Lemma provision_inbox_kernel acc t b d d' : provision_inbox acc t b d = Ok d' -> exists k, d' = id_set_kernel k d.
Proof. unfold provision_inbox. cbv zeta. destruct (mbind_st _ _ _) as [[u|e] pt]; [|done]. intros [= <-]. by eexists. Qed.

(** A principal, an account and its address, all new. *)
Lemma good_new_account now t login owner name dom lp d pid d1 aid d2 xid d3 :
  insert_principal t login d = Ok (pid, d1) ->
  insert_account now t (Some pid) (Some (default pid owner)) name d1 = Ok (aid, d2) ->
  insert_address t dom aid lp false d2 = Ok (xid, d3) ->
  dtenant d dom = Some t -> (forall o, owner = Some o -> ptenant d o = Some t) ->
  id_wf d -> id_wf d3 /\ id_ext d d3 /\ id_accounts d3 !! aid = Some (mkAcct t (Some pid) (Some (default pid owner)) name false now)
    /\ id_next d <= aid /\ id_registrations d3 = id_registrations d /\ id_addresses d3 !! xid = Some (mkAddr t dom aid lp false).
Proof.
  intros H1p H2a H3x Hdom Hown W. destruct (good_principal _ _ _ _ _ H1p) as [G1 Hp1]. destruct (G1 W) as [W1 E1].
  assert (Hr1 : id_registrations d1 = id_registrations d) by (revert H1p; unfold insert_principal; repeat case_goal; try done; by intros [= _ <-]).
  destruct (good_account _ _ _ _ _ _ _ _ H2a) as (G2 & Hid & Ha2 & Hr2).
  { by intros p [= <-]. }
  { intros p [= <-]. destruct owner as [o|]; simpl; [|done]. eapply ptenant_mono; [apply E1|by apply Hown]. }
  destruct (G2 W1) as [W2 E2].
  assert (Hd2 : dtenant d2 dom = Some t) by (eapply dtenant_mono; [apply E2|]; eapply dtenant_mono; [apply E1|exact Hdom]).
  assert (Ht2 : atenant d2 aid = Some t) by (unfold atenant; by rewrite Ha2).
  destruct (good_address _ _ _ _ _ _ _ _ H3x Hd2 Ht2) as (G3 & Hx & Hd3). destruct (G3 W2) as [W3 E3].
  split; [done|]. split; [etrans; [exact E1|]; etrans; [exact E2|exact E3]|]. rewrite Hd3. simpl.
  split; [done|]. split; [rewrite Hid; apply (x_next _ _ E1)|]. split; [congruence|]. by rewrite lookup_insert_eq.
Qed.

Lemma good_CreateAgentMailbox t now co owner source space lp dom max b d :
  good d (CreateAgentMailbox t now co owner source space lp dom max b d).2.
Proof.
  unfold CreateAgentMailbox. cbv zeta. generalize (if max <=? 0 then 2 else max) as limit. intros limit. case_goal; [reflexivity|]. case_goal; [reflexivity|].
  destruct (id_principals d !! owner) as [p|] eqn:Ep; [|reflexivity]. destruct (pc_tenant p =? t) eqn:Et; simpl; [|reflexivity].
  destruct (match id_accounts d !! source with Some _ => _ | None => _ end) as [[k x]|] eqn:Es; [|reflexivity].
  destruct (if String.eqb (ToLower (trim_space dom)) EmptyString then _ else _) as [[domID domName]|] eqn:Ed; [|reflexivity].
  case_goal; [reflexivity|].
  destruct (insert_principal _ _ _) as [[pid d1]|e] eqn:E1; [|destruct e; reflexivity].
  destruct (insert_account _ _ _ _ _ _) as [[aid d2]|e] eqn:E2; [|destruct e; reflexivity].
  destruct (insert_address _ _ _ _ _ _) as [[xid d3]|e] eqn:E3; [|destruct e; reflexivity].
  case_goal; [reflexivity|]. destruct (provision_inbox _ _ _ _) as [d5|e] eqn:E5; [|reflexivity]. apply good_commit.
  apply provision_inbox_kernel in E5 as [k' ->]. etrans; [|apply good_kernel]. intros W. apply Z.eqb_eq in Et.
  assert (Hdom : dtenant d domID = Some t).
  { destruct (id_accounts d !! source) as [a|]; [|done]. destruct ((aw_tenant a =? t) && _); [|done].
    apply primary_address_Some in Es as [_ (_ & _ & _ & Hs & _)%is_primary_spec]. revert Ed. case_goal.
    - intros (y & _ & [= -> _])%fmap_Some. exact Hs.
    - intros ([j y] & Hy & [= -> ->])%fmap_Some. apply first_row_Some in Hy as [Hy Hc]. simpl in Hc. b2p. unfold dtenant. simpl. rewrite Hy. simpl. congruence. }
  destruct (good_new_account now t _ (Some owner) _ domID _ d pid d1 aid d2 xid d3 E1 E2 E3 Hdom) as (W3 & X3 & Ha & Hn & Hr & _); [|done|].
  { intros o [= <-]. unfold ptenant. rewrite Ep. simpl. congruence. }
  assert (Hnone : id_registrations d3 !! aid = None).
  { rewrite Hr. destruct (id_registrations d !! aid) as [r|] eqn:Er; [|done]. apply (w_registrations _ W) in Er as (row & Hrow & _).
    apply (f_accounts _ W) in Hrow. lia. }
  destruct (good_registration d3 aid _ owner (trim_space space) Ha eq_refl Hnone W3) as [W4 X4]. split; [exact W4|]. etrans; [exact X3|exact X4].
Qed.

(** ** Agents *)

Lemma insert_request_good hash r d d' : insert_request hash r d = Ok d' -> good d d'.
Proof. unfold insert_request. repeat case_goal; try done. intros [= <-]. apply good_requests. Qed.
Lemma good_create_attempts n codes device mk d : good d (create_attempts n codes device mk d).2.
Proof.
  revert codes. induction n as [|n IH]; intros codes; simpl; [reflexivity|]. destruct (randomUserCode _) as [code|]; [|reflexivity].
  destruct (insert_request _ _ _) as [d'|e] eqn:Ei; [by eapply insert_request_good|]. destruct e; try reflexivity. apply IH.
Qed.
Lemma good_CreateAgentAuthorization now device codes input d : good d (CreateAgentAuthorization now device codes input d).2.
Proof.
  unfold CreateAgentAuthorization. cbv zeta. do 3 (case_goal; [reflexivity|]).
  match goal with |- context [negb ?c] => destruct (negb c); [reflexivity|] end. etrans; [apply good_requests|].
  case_goal; [apply good_create_attempts|reflexivity].
Qed.
Lemma good_Approve now co owner space code acc mode d : good d (ApproveAgentAuthorization now co owner space code acc mode d).2.
Proof.
  unfold ApproveAgentAuthorization. cbv zeta. case_goal; [reflexivity|]. destruct (request_of _ _) as [[hash r]|]; [|reflexivity].
  case_goal; [reflexivity|]. case_goal; [reflexivity|]. case_goal; [by apply good_commit|]. case_goal; [reflexivity|]. case_goal; [|reflexivity].
  apply good_commit, good_requests.
Qed.

(** An exchange is refused, or finds an approved request and rebinds its mailbox. *)
Lemma exchange_cases now co random device verifier d :
  (exists e, ExchangeAgentAuthorization now co random device verifier d = (Err e, d))
  \/ exists r owner account a prefix secret cred d1 v,
    id_requests d !! sha256 (bytes_of device) = Some r /\ rq_status r = Approved /\ rq_owner r = Some owner /\ rq_account r = Some account
    /\ now <= rq_expires r /\ rq_challenge r = RawURL_Encode (sha256 (bytes_of verifier))
    /\ agent_mailbox d account owner (rq_space r) = Some a /\ rq_space r <> EmptyString
    /\ newAPIKeyToken random = Some (prefix, secret) /\ HashAPIKey secret = Ok cred
    /\ rebind (sha256 (bytes_of device)) r owner account (aw_tenant a) prefix cred d = Ok d1
    /\ at_AccessToken v = ("omb_" ++ prefix ++ "_" ++ secret)%string
    /\ ExchangeAgentAuthorization now co random device verifier d = commit_tx co v d d1.
Proof.
  unfold ExchangeAgentAuthorization. cbv zeta. 
  destruct (negb (has_prefix device "omd_") || String.eqb verifier EmptyString); [by left; eexists|].
  destruct (id_requests d !! sha256 (bytes_of device)) as [r|] eqn:Er; [|by left; eexists].
  destruct (rq_expires r <? now) eqn:Ee; [by left; eexists|].
  destruct (String.eqb_spec (rq_challenge r) (RawURL_Encode (sha256 (bytes_of verifier)))) as [Ec|]; simpl; [|by left; eexists].
  destruct (rq_status r) eqn:Es; try (by left; eexists). destruct (rq_owner r) as [owner|] eqn:Eo; [|by left; eexists].
  destruct (rq_account r) as [account|] eqn:Eacc; [|by left; eexists].
  destruct (String.eqb_spec (trim_space (rq_space r)) EmptyString) as [Etr|Etr]; [by left; eexists|].
  destruct (agent_mailbox d account owner (rq_space r)) as [a|] eqn:Ea; [|by left; eexists].
  destruct (primary_address d account (aw_tenant a)) as [[k x]|]; [|by left; eexists].
  destruct (address_text d x) as [text|]; simpl; [|by left; eexists].
  destruct (newAPIKeyToken random) as [[prefix secret]|] eqn:Et; [|by left; eexists].
  destruct (HashAPIKey secret) as [cred|e] eqn:Eh; simpl; [|by left; eexists].
  destruct (rebind (sha256 (bytes_of device)) r owner account (aw_tenant a) prefix cred d) as [d1|e] eqn:Eb; [|by left; eexists]. b2p.
  right. eexists r, owner, account, a, prefix, secret, cred, d1, _. split_and!; try done. 2: reflexivity. intros He. rewrite He in Etr. by apply Etr.
Qed.
Lemma good_Exchange now co random device verifier d : good d (ExchangeAgentAuthorization now co random device verifier d).2.
Proof.
  destruct (exchange_cases now co random device verifier d) as [[e ->]|(r & owner & account & a & p & s & cr & d1 & v & Hex)]; [reflexivity|].
  destruct Hex as (_ & _ & _ & _ & _ & _ & Hm & _ & _ & _ & Hb & _ & ->). apply good_commit. eapply good_rebind; [exact Hb|].
  by eapply agent_mailbox_owned.
Qed.
Lemma good_Revoke co owner acc space d : good d (RevokeAgentBinding co owner acc space d).2.
Proof. unfold RevokeAgentBinding. cbv zeta. case_goal; [reflexivity|]. case_goal; [|reflexivity]. apply good_commit, good_revoke_all. Qed.
Lemma good_SetMode co owner acc space mode d : good d (SetAgentOutboundMode co owner acc space mode d).2.
Proof.
  unfold SetAgentOutboundMode. cbv zeta. do 3 (case_goal; [reflexivity|]). case_goal; [|reflexivity]. case_goal; [reflexivity|].
  apply good_commit, (good_modes (fun id b => bound_to acc owner (trim_space space) id b && bd_active b)).
Qed.

(** ** Gateways and operators *)

Lemma good_insert_gateway g d d' : insert_gateway g d = Ok d' -> owned d (gw_default g) (gw_tenant g) (gw_owner g) -> good d d'.
Proof.
  unfold insert_gateway. case_goal; [done|]. destruct (gateway_at _ _ _ d) as [|] eqn:Eg; [done|]. intros [= <-] Ho.
  etrans; [|apply good_default_bindings]. etrans; [apply good_bump|].
  apply (good_gateway (id_next d) g (id_bump d)); [exact Ho|simpl; lia|]. intros j h Hj _ [= H1' H2' H3'].
  pose proof (first_row_None _ _ Eg j h Hj) as Hf. simpl in Hf. by rewrite H1', H2', H3', !String.eqb_refl in Hf.
Qed.

Lemma good_Ensure now co wait b input d : good d (wait d) -> good d (EnsureGatewayIdentity now co wait b input d).2.
Proof.
  intros Gw. unfold EnsureGatewayIdentity. cbv zeta. case_goal; [reflexivity|].
  destruct (gatewayProvisioningIdentity _ _ _ d) as [[ex|]|e]; try reflexivity. case_goal; [reflexivity|]. case_goal; [reflexivity|].
  etrans; [exact Gw|]. clear Gw. generalize (wait d) as w. clear d. intros d.
  destruct (first_row _ (id_domains d)) as [[domID dom]|] eqn:Ed; [|reflexivity].
  destruct (gatewayProvisioningIdentity _ _ _ d) as [[ex|]|e]; try reflexivity.
  destruct (availableGatewayLocalpart _ _ _ _ _ _ _ d) as [lp|]; [|reflexivity].
  destruct (insert_principal _ _ _) as [[pid d1]|e] eqn:E1; [|reflexivity].
  destruct (insert_account _ _ _ _ _ _) as [[aid d2]|e] eqn:E2; [|reflexivity].
  destruct (insert_address _ _ _ _ _ _) as [[xid d3]|e] eqn:E3; [|reflexivity].
  destruct (provision_inbox _ _ _ _) as [d4|e] eqn:E4; [|reflexivity]. apply provision_inbox_kernel in E4 as [k ->].
  destruct (insert_gateway _ _) as [d5|e] eqn:E5; [|reflexivity]. apply good_commit. intros W.
  apply first_row_Some in Ed as [Ed _].
  assert (Hd : dtenant d domID = Some (dm_tenant dom)) by (unfold dtenant; by rewrite Ed).
  destruct (good_new_account now _ _ None _ domID _ d pid d1 aid d2 xid d3 E1 E2 E3 Hd) as (W3 & X3 & Ha & _); [done|done|].
  assert (Hown : owned (id_set_kernel k d3) aid (dm_tenant dom) pid) by by eexists.
  destruct (good_insert_gateway _ _ _ E5 Hown (proj1 (good_kernel k d3 W3))) as [W5 X5].
  split; [exact W5|]. etrans; [exact X3|]. etrans; [apply (good_kernel k d3 W3)|exact X5].
Qed.

Lemma good_Nonce issuer nonce e now d : good d (ConsumeGatewayAssertionNonce issuer nonce e now d).2.
Proof. unfold ConsumeGatewayAssertionNonce. cbv zeta. case_goal; [reflexivity|]. case_goal; [reflexivity|]. case_goal; apply good_nonces. Qed.

Lemma good_CreateTenant name d : good d (handleCreateTenant name d).2.
Proof. unfold handleCreateTenant. case_goal; [reflexivity|]. case_goal; [reflexivity|]. by apply good_tenant. Qed.
Lemma good_CreateAccount now t name d : good d (handleCreateAccount now t name d).2.
Proof.
  unfold handleCreateAccount. destruct (insert_account _ _ _ _ _ _) as [[id d']|e] eqn:Ei; [|reflexivity]. by eapply good_account.
Qed.
Lemma good_CreateDomain t domain d : good d (handleCreateDomain t domain d).2.
Proof.
  unfold handleCreateDomain. case_goal; [reflexivity|]. case_goal; [reflexivity|]. destruct (id_tenants d !! t) eqn:Et; [|reflexivity].
  apply good_domain; [done|by eexists].
Qed.
Lemma good_claim t acc p d : ptenant d p = Some t -> good d (claim_account t acc p d).
Proof.
  intros Hp. unfold claim_account. destruct (id_accounts d !! acc) as [a|] eqn:Ea; [|reflexivity]. destruct (aw_tenant a =? t) eqn:Et; [|reflexivity].
  apply Z.eqb_eq in Et. subst t. intros W. destruct (w_accounts _ W _ _ Ea) as (_ & H1' & H2'). eapply good_account_update; [exact Ea|..|exact W]; simpl.
  - unfold same_account. simpl. split_and!; try done; intros q ->; done.
  - intros q [= <-]. destruct (aw_principal a); simpl; auto.
  - intros q [= <-]. destruct (aw_owner a); simpl; auto.
Qed.
Lemma good_CreateAddress co t dom lp acc d : good d (handleCreateAddress co t dom lp acc d).2.
Proof.
  unfold handleCreateAddress. case_goal; [reflexivity|]. destruct (first_row _ (id_domains d)) as [[domID x]|] eqn:Ed; [|reflexivity].
  destruct (first_row _ (id_accounts d)) as [[accID a]|] eqn:Ea; [|reflexivity]. destruct (insert_address _ _ _ _ _ _) as [[id d1]|e] eqn:E1; [|reflexivity].
  apply first_row_Some in Ed as [Ed Cd]. apply first_row_Some in Ea as [Ea Ca]. b2p.
  assert (G1 : good d d1).
  { eapply (good_address _ _ _ _ _ _ _ _ E1); [unfold dtenant; rewrite Ed|unfold atenant; rewrite Ea]; simpl; congruence. }
  unfold upsert_principal. destruct (principal_of_login d1 _) as [[pid p]|] eqn:Ep.
  - destruct (pc_tenant p =? t) eqn:Et; [|reflexivity]. apply good_commit. etrans; [exact G1|]. apply good_claim. apply first_row_Some in Ep as [Ep _].
    unfold ptenant. rewrite Ep. apply Z.eqb_eq in Et. simpl. congruence.
  - destruct (insert_principal _ _ _) as [[pid d2]|e] eqn:E2; [|destruct e; reflexivity]. destruct (good_principal _ _ _ _ _ E2) as [G2 Hp].
    apply good_commit. etrans; [exact G1|]. etrans; [exact G2|]. by apply good_claim.
Qed.

Lemma owner_account_owned login pid p d k a : owner_account login pid p d = Some (k, a) -> owned d k (pc_tenant p) pid.
Proof.
  unfold owner_account. intros Hx. apply first_row_Some in Hx as [Hx Hc]. b2p. exists a. unfold opt_eqb in *. destruct (aw_owner a); [|done].
  b2p. by subst.
Qed.
Lemma good_handleGateway issuer subject space login d : good d (handleGatewayIdentity issuer subject space login d).2.
Proof.
  unfold handleGatewayIdentity. cbv zeta. case_goal; [reflexivity|].
  destruct (principal_of_login d _) as [[pid p]|]; [|reflexivity]. destruct (owner_account _ _ _ d) as [[k a]|] eqn:Eo; simpl; [|reflexivity].
  apply owner_account_owned in Eo. destruct (gateway_at _ _ _ d) as [[id old]|] eqn:Eg; simpl.
  - etrans; [|apply good_orphaned]. etrans; [|apply good_default_bindings]. apply first_row_Some in Eg as [Eg Ck]. b2p.
    repeat match goal with Hs : String.eqb _ _ = true |- _ => apply String.eqb_eq in Hs end. intros W. apply good_gateway; [exact Eo|by eapply (f_gateways _ W)| |exact W].
    simpl. intros j h Hj Hne Heq. apply Hne. eapply (u_gateway _ W j id h old); eauto. simpl. congruence.
  - destruct (insert_gateway _ _) as [d'|e] eqn:Ei; [|reflexivity]. by eapply good_insert_gateway.
Qed.

(** ** Events *)

Inductive event : Type :=
| EPassword (login password : string) (salt : option (list ascii)) (scramSalt : list ascii)
| EIssueKey (login name : string) (random : option (list ascii * list ascii))
| ECreateAlias (tenantID accountID : Z) (localpart : string)
| EDeleteAlias (tenantID accountID addressID : Z)
| ECreateMailbox (tenantID now : Z) (co : outcome) (owner source : Z) (space localpart domain : string) (limit : Z) (b : blob_state)
| EDeleteMailbox (tenantID : Z) (co : outcome) (owner accountID : Z) (space : string)
| ERequest (now : Z) (device : option (list ascii)) (codes : nat -> option (list ascii)) (input : AgentAuthorizationInput)
| EApprove (now : Z) (co : outcome) (owner : Z) (space userCode : string) (accountID : Z) (mode : string)
| EExchange (now : Z) (co : outcome) (random : option (list ascii * list ascii)) (deviceCode codeVerifier : string)
| ERevoke (co : outcome) (owner accountID : Z) (space : string)
| ESetMode (co : outcome) (owner accountID : Z) (space mode : string)
| EProvision (now : Z) (co : outcome) (b : blob_state) (input : GatewayProvisioningInput)
| ENonce (issuer nonce : string) (expiresAt now : Z)
| EAdminTenant (name : string)
| EAdminAccount (now tenantID : Z) (name : string)
| EAdminDomain (tenantID : Z) (domain : string)
| EAdminAddress (co : outcome) (tenantID : Z) (domain localpart account : string)
| EAdminGateway (issuer subject space login : string)
| EMail (f : DB -> DB).

Definition step (e : event) (d : IDB) : IDB :=
  match e with
  | EPassword l p s ss => (SetPassword l p s ss d).2
  | EIssueKey l n r => (IssueAPIKey l n r d).2
  | ECreateAlias t a l => (CreateAccountAlias t a l d).2
  | EDeleteAlias t a x => (DeleteAccountAlias t a x d).2
  | ECreateMailbox t now co o s sp lp dom m b => (CreateAgentMailbox t now co o s sp lp dom m b d).2
  | EDeleteMailbox t co o a sp => (DeleteAgentMailbox t co o a sp d).2
  | ERequest now dev codes input => (CreateAgentAuthorization now dev codes input d).2
  | EApprove now co o sp code a m => (ApproveAgentAuthorization now co o sp code a m d).2
  | EExchange now co r dev v => (ExchangeAgentAuthorization now co r dev v d).2
  | ERevoke co o a sp => (RevokeAgentBinding co o a sp d).2
  | ESetMode co o a sp m => (SetAgentOutboundMode co o a sp m d).2
  | EProvision now co b input => (EnsureGatewayIdentity now co (fun d => d) b input d).2
  | ENonce i n e now => (ConsumeGatewayAssertionNonce i n e now d).2
  | EAdminTenant n => (handleCreateTenant n d).2
  | EAdminAccount now t n => (handleCreateAccount now t n d).2
  | EAdminDomain t x => (handleCreateDomain t x d).2
  | EAdminAddress co t dom lp a => (handleCreateAddress co t dom lp a d).2
  | EAdminGateway i s sp l => (handleGatewayIdentity i s sp l d).2
  | EMail f => id_set_kernel (f (id_kernel d)) d
  end.
Definition run (es : list event) (d : IDB) : IDB := foldl (fun d e => step e d) d es.

Lemma good_step e d : good d (step e d).
Proof.
  destruct e; simpl; auto using good_SetPassword, good_IssueAPIKey, good_CreateAccountAlias, good_DeleteAccountAlias, good_CreateAgentMailbox,
    good_DeleteAgentMailbox, good_CreateAgentAuthorization, good_Approve, good_Exchange, good_Revoke, good_SetMode, good_Nonce, good_CreateTenant,
    good_CreateAccount, good_CreateDomain, good_CreateAddress, good_handleGateway, good_kernel.
  apply good_Ensure. reflexivity.
Qed.
Lemma good_run es d : good d (run es d).
Proof. unfold run. revert d. induction es as [|e es IH]; intros d; simpl; [reflexivity|]. etrans; [apply good_step|apply IH]. Qed.

(** Waiting for the domain's lock is the other sessions' steps, then the request. *)
Lemma provision_waits now co wait b input d :
  (EnsureGatewayIdentity now co wait b input d).2 = d
  \/ (EnsureGatewayIdentity now co wait b input d).2 = (EnsureGatewayIdentity now co (fun d => d) b input (wait d)).2.
Proof.
  unfold EnsureGatewayIdentity. cbv zeta.
  match goal with |- context [if ?c then (Err ErrGatewayProvisioningConflict, _) else _] => destruct c end; [by left|].
  destruct (gatewayProvisioningIdentity _ _ _ d) as [[ex|]|e]; [by left| |by left].
  destruct (negb (validGatewayLocalpart _)); [by left|]. destruct (String.eqb (ToLower (trim_space (gi_Domain input))) EmptyString); [by left|].
  right. generalize (wait d) as w. intros w. by destruct (gatewayProvisioningIdentity _ _ _ w) as [[ex|]|e], (first_row _ (id_domains w)) as [[]|].
Qed.
End Steps.

(** ** What an event leaves alone

    [keeps]: of the authorization requests, the issued credentials, the registrations and
    the gateway identities, an event changes or adds only to what its kind says. *)

Record quiet (kr kc km kg : bool) (d d' : IDB) : Prop := {
  q_requests : kr = true -> id_requests d' = id_requests d;
  q_creds : kc = true -> forall i c', id_creds d' !! i = Some c' -> exists c, id_creds d !! i = Some c /\ same_cred c c';
  q_registrations : km = true -> id_registrations d' = id_registrations d;
  q_gateways : kg = true -> forall i g, id_gateways d !! i = Some g -> i < id_next d -> id_gateways d' !! i = Some g;
  q_next : id_next d <= id_next d' }.

#[export] Instance quiet_pre kr kc km kg : PreOrder (quiet kr kc km kg).
Proof.
  split; [intros d; split; try done; intros _ i c Hc; by exists c|]. intros d1 d2 d3 Q12 Q23. split.
  - intros Hk. rewrite (q_requests _ _ _ _ _ _ Q23 Hk). by apply Q12.
  - intros Hk i c3 H3. destruct (q_creds _ _ _ _ _ _ Q23 Hk i c3 H3) as (c2 & H2 & S23). destruct (q_creds _ _ _ _ _ _ Q12 Hk i c2 H2) as (c1 & H1 & S12).
    exists c1. split; [done|by etrans].
  - intros Hk. rewrite (q_registrations _ _ _ _ _ _ Q23 Hk). by apply Q12.
  - intros Hk i g Hi Hn. pose proof (q_next _ _ _ _ _ _ Q12). apply (q_gateways _ _ _ _ _ _ Q23 Hk); [|lia]. by apply (q_gateways _ _ _ _ _ _ Q12 Hk).
  - etrans; [apply Q12|apply Q23].
Qed.

(** The four tables as they were. *)
Definition same4 (d d' : IDB) : Prop :=
  id_requests d' = id_requests d /\ id_creds d' = id_creds d /\ id_registrations d' = id_registrations d /\ id_gateways d' = id_gateways d /\ id_next d <= id_next d'.
Lemma quiet_same kr kc km kg d d' : same4 d d' -> quiet kr kc km kg d d'.
Proof.
  intros (Hr & Hc & Hm & Hg & Hn). split; try done.
  - intros _ i c. rewrite Hc. intros Hi. by exists c.
  - intros _ i g. by rewrite Hg.
Qed.
Lemma quiet_commit {A} kr kc km kg co (a : A) d d' : quiet kr kc km kg d d' -> quiet kr kc km kg d (commit_tx co a d d').2.
Proof. destruct co as [|[]]; [done|done|reflexivity]. Qed.

Lemma same_principal_insert t l d id d' : insert_principal t l d = Ok (id, d') -> same4 d d'.
Proof. unfold insert_principal. repeat case_goal; try done. intros [= <- <-]. repeat split; simpl; lia. Qed.
Lemma same_account_insert now t p o n d id d' : insert_account now t p o n d = Ok (id, d') -> same4 d d'.
Proof. unfold insert_account. repeat case_goal; try done. intros [= <- <-]. repeat split; simpl; lia. Qed.
Lemma same_address_insert t x a l al d id d' : insert_address t x a l al d = Ok (id, d') -> same4 d d'.
Proof. unfold insert_address. repeat case_goal; try done. intros [= <- <-]. repeat split; simpl; lia. Qed.
Lemma same_inbox `{BlobOps} a t b d d' : provision_inbox a t b d = Ok d' -> same4 d d'.
Proof. intros [k ->]%provision_inbox_kernel. repeat split; simpl; lia. Qed.
#[export] Hint Resolve quiet_same same_principal_insert same_account_insert same_address_insert same_inbox : octo.

Ltac calm := apply quiet_same; repeat split; simpl; lia.

Section Frames.
Context `{BlobOps} `{Unicode} `{PasswordHash} `{Sha256} `{AddressParser} `{DomainName} `{UnicodeUpper}.
Variables kr kc km kg : bool.
Local Notation Q := (quiet kr kc km kg).

Lemma quiet_SetPassword l p s ss d : Q d (SetPassword l p s ss d).2.
Proof. unfold SetPassword. repeat case_goal; calm. Qed.
Lemma quiet_IssueAPIKey l n r d : Q d (IssueAPIKey l n r d).2.
Proof. unfold IssueAPIKey. cbv zeta. repeat case_goal; calm. Qed.
Lemma quiet_CreateAlias t a l d : Q d (CreateAccountAlias t a l d).2.
Proof.
  unfold CreateAccountAlias. cbv zeta. case_goal; [reflexivity|]. destruct (match id_accounts d !! a with Some _ => _ | None => _ end) as [[k x]|]; [|reflexivity].
  destruct (insert_address _ _ _ _ _ _) as [[id d']|e] eqn:E; [eauto with octo|destruct e; reflexivity].
Qed.
Lemma quiet_DeleteAlias t a x d : Q d (DeleteAccountAlias t a x d).2.
Proof. unfold DeleteAccountAlias. repeat case_goal; calm. Qed.

Lemma quiet_CreateMailbox t now co o s sp lp dom m b d : km = false -> Q d (CreateAgentMailbox t now co o s sp lp dom m b d).2.
Proof.
  intros Hm. unfold CreateAgentMailbox. cbv zeta. generalize (if m <=? 0 then 2 else m) as limit. intros limit.
  case_goal; [reflexivity|]. case_goal; [reflexivity|]. destruct (id_principals d !! o); [|reflexivity]. case_goal; [reflexivity|].
  destruct (match id_accounts d !! s with Some _ => _ | None => _ end) as [[k x]|]; [|reflexivity].
  destruct (if String.eqb (ToLower (trim_space dom)) EmptyString then _ else _) as [[domID domName]|]; [|reflexivity]. case_goal; [reflexivity|].
  destruct (insert_principal _ _ _) as [[pid d1]|e] eqn:E1; [|destruct e; reflexivity].
  destruct (insert_account _ _ _ _ _ _) as [[aid d2]|e] eqn:E2; [|destruct e; reflexivity].
  destruct (insert_address _ _ _ _ _ _) as [[xid d3]|e] eqn:E3; [|destruct e; reflexivity]. case_goal; [reflexivity|].
  destruct (provision_inbox _ _ _ _) as [d5|e] eqn:E5; [|reflexivity]. apply quiet_commit.
  etrans; [eauto with octo|]. etrans; [eauto with octo|]. etrans; [eauto with octo|]. etrans; [|eauto with octo].
  split; try done; [intros _ i c Hc; by exists c|congruence].
Qed.

Lemma quiet_revocation (C : gmap Z AgentCred) (Qr : AgentCred -> bool) B d : (forall i, C !! i = (fun c => if Qr c then revoke c else c) <$> id_creds d !! i) ->
  Q d (id_set_bindings B (id_set_creds C d)).
Proof.
  intros HC. split; simpl; try done. intros _ i c' Hi. rewrite HC in Hi. apply fmap_Some in Hi as (c & Hc & ->). exists c. by destruct (Qr c).
Qed.
Lemma quiet_revoke_all p d : Q d (revoke_all p d).
Proof. eapply quiet_revocation. intros i. apply (cred_hit_map (fun i b => p i b && bd_active b)). Qed.
Lemma quiet_revoke_every p d : Q d (revoke_every p d).
Proof. eapply quiet_revocation. intros i. apply (cred_hit_map (fun _ => p)). Qed.
Lemma quiet_DeleteMailbox t co o a sp d : Q d (DeleteAgentMailbox t co o a sp d).2.
Proof.
  unfold DeleteAgentMailbox. cbv zeta. case_goal; [reflexivity|]. case_goal; [|reflexivity]. case_goal; [reflexivity|]. case_goal; [reflexivity|].
  apply quiet_commit. etrans; [apply (quiet_revoke_all (fun _ b => bd_account b =? a))|]. calm.
Qed.

Lemma quiet_requests v d : kr = false -> Q d (id_set_requests v d).
Proof. intros Hk. split; try done; [congruence|]. intros _ i c Hc. by exists c. Qed.
Lemma quiet_Request now dev codes input d : kr = false -> Q d (CreateAgentAuthorization now dev codes input d).2.
Proof.
  intros Hk. unfold CreateAgentAuthorization. cbv zeta. do 3 (case_goal; [reflexivity|]).
  match goal with |- context [negb ?c] => destruct (negb c); [reflexivity|] end.
  transitivity (cleanup_requests now d); [by apply quiet_requests|]. case_goal; [|reflexivity]. generalize (cleanup_requests now d) as e. intros e. generalize 5%nat as n. intros n. revert codes.
  induction n as [|n IH]; intros codes; simpl; [reflexivity|]. destruct (randomUserCode _); [|reflexivity].
  destruct (insert_request _ _ _) as [e'|er] eqn:Ei; [|destruct er; try reflexivity; apply IH].
  unfold insert_request in Ei. repeat case_hyp Ei; try done. injection Ei as <-. by apply quiet_requests.
Qed.
Lemma quiet_Approve now co o sp code a m d : kr = false -> Q d (ApproveAgentAuthorization now co o sp code a m d).2.
Proof.
  intros Hk. unfold ApproveAgentAuthorization. cbv zeta. case_goal; [reflexivity|]. destruct (request_of _ _) as [[h r]|]; [|reflexivity].
  case_goal; [reflexivity|]. case_goal; [reflexivity|]. case_goal; [by apply quiet_commit|]. case_goal; [reflexivity|]. case_goal; [|reflexivity].
  by apply quiet_commit, quiet_requests.
Qed.
Lemma quiet_Exchange now co r dev v d : kr = false -> kc = false -> Q d (ExchangeAgentAuthorization now co r dev v d).2.
Proof.
  intros Hk Hc. destruct (exchange_cases now co r dev v d) as [[e ->]|(rq & owner & account & a & p & s & cr & d1 & x & Hex)]; [reflexivity|].
  destruct Hex as (_ & _ & _ & _ & _ & _ & _ & _ & _ & _ & Hb & _ & ->). apply quiet_commit. revert Hb. unfold rebind. simpl.
  destruct (insert_credential _ _ _ _) as [d2|e] eqn:Ei; [|done]. intros [= <-]. etrans; [|by apply quiet_requests].
  unfold insert_credential in Ei. destruct (exists_row _ _); [done|]. injection Ei as <-. split; simpl; try done; try congruence; lia.
Qed.
Lemma quiet_Revoke co o a sp d : Q d (RevokeAgentBinding co o a sp d).2.
Proof. unfold RevokeAgentBinding. cbv zeta. case_goal; [reflexivity|]. case_goal; [|reflexivity]. apply quiet_commit, quiet_revoke_all. Qed.
Lemma quiet_SetMode co o a sp m d : Q d (SetAgentOutboundMode co o a sp m d).2.
Proof. unfold SetAgentOutboundMode. cbv zeta. do 3 (case_goal; [reflexivity|]). case_goal; [|reflexivity]. case_goal; [reflexivity|].
  apply quiet_commit. calm. Qed.

Lemma quiet_default_bindings g d : Q d (revoke_gateway_default_agent_bindings g d).
Proof. unfold revoke_gateway_default_agent_bindings. case_goal; [reflexivity|apply quiet_revoke_every]. Qed.
Lemma quiet_orphaned old new d : Q d (revoke_orphaned_gateway_bindings old new d).
Proof.
  unfold revoke_orphaned_gateway_bindings. case_goal; [|reflexivity].
  exact (quiet_revoke_all (fun _ b => (bd_account b =? gw_default old) && String.eqb (bd_space b) (gw_space old) && orphaned d b) d).
Qed.
Lemma quiet_insert_gateway g d d' : insert_gateway g d = Ok d' -> Q d d'.
Proof.
  unfold insert_gateway. case_goal; [done|]. case_goal; [done|]. intros [= <-]. etrans; [|apply quiet_default_bindings].
  split; simpl; try done; [intros _ i c Hc; by exists c| |lia]. intros _ i h Hi Hn. rewrite lookup_insert_ne; [done|lia].
Qed.
Lemma quiet_Provision now co b input d : Q d (EnsureGatewayIdentity now co (fun d => d) b input d).2.
Proof.
  unfold EnsureGatewayIdentity. cbv zeta. case_goal; [reflexivity|]. destruct (gatewayProvisioningIdentity _ _ _ d) as [[ex|]|e]; try reflexivity.
  case_goal; [reflexivity|]. case_goal; [reflexivity|]. destruct (first_row _ (id_domains d)) as [[domID dom]|]; [|reflexivity].
  destruct (availableGatewayLocalpart _ _ _ _ _ _ _ d) as [lp|]; [|reflexivity].
  destruct (insert_principal _ _ _) as [[pid d1]|e] eqn:E1; [|reflexivity].
  destruct (insert_account _ _ _ _ _ _) as [[aid d2]|e] eqn:E2; [|reflexivity].
  destruct (insert_address _ _ _ _ _ _) as [[xid d3]|e] eqn:E3; [|reflexivity].
  destruct (provision_inbox _ _ _ _) as [d4|e] eqn:E4; [|reflexivity]. destruct (insert_gateway _ _) as [d5|e] eqn:E5; [|reflexivity]. apply quiet_commit.
  etrans; [eauto with octo|]. etrans; [eauto with octo|]. etrans; [eauto with octo|]. etrans; [eauto with octo|]. by eapply quiet_insert_gateway.
Qed.
Lemma quiet_Nonce i n e now d : Q d (ConsumeGatewayAssertionNonce i n e now d).2.
Proof. unfold ConsumeGatewayAssertionNonce. cbv zeta. repeat case_goal; calm. Qed.
Lemma quiet_AdminAddress co t dom lp a d : Q d (handleCreateAddress co t dom lp a d).2.
Proof.
  unfold handleCreateAddress. case_goal; [reflexivity|]. destruct (first_row _ (id_domains d)) as [[domID x]|]; [|reflexivity].
  destruct (first_row _ (id_accounts d)) as [[accID y]|]; [|reflexivity]. destruct (insert_address _ _ _ _ _ _) as [[id d1]|e] eqn:E1; [|reflexivity].
  destruct (upsert_principal _ _ _) as [[pid d2]|e] eqn:E2; [|destruct e; reflexivity]. apply quiet_commit. etrans; [eauto with octo|].
  transitivity d2.
  - unfold upsert_principal in E2. destruct (principal_of_login _ _) as [[i p]|]; [|eauto with octo]. case_hyp E2; [|done]. by injection E2 as _ <-.
  - unfold claim_account. repeat case_goal; calm.
Qed.
Lemma quiet_AdminGateway i s sp l d : kg = false -> Q d (handleGatewayIdentity i s sp l d).2.
Proof.
  intros Hg. unfold handleGatewayIdentity. cbv zeta. case_goal; [reflexivity|].
  destruct (match principal_of_login d _ with Some _ => _ | None => _ end) as [[[pid t] k]|]; [|reflexivity].
  destruct (gateway_at _ _ _ d) as [[id old]|].
  - etrans; [|apply quiet_orphaned]. etrans; [|apply quiet_default_bindings]. split; simpl; try done; [intros _ j c Hc; by exists c|congruence].
  - destruct (insert_gateway _ _) as [d'|e] eqn:Ei; [|reflexivity]. by eapply quiet_insert_gateway.
Qed.
End Frames.

Section Events.
Context `{BlobOps} `{Unicode} `{PasswordHash} `{Sha256} `{AddressParser} `{DomainName} `{UnicodeUpper}.

(** The kinds of event: on requests, credentials, registrations, gateway identities. *)
Definition keeps_requests (e : event) : bool := match e with ERequest _ _ _ _ | EApprove _ _ _ _ _ _ _ | EExchange _ _ _ _ _ => false | _ => true end.
Definition keeps_creds (e : event) : bool := match e with EExchange _ _ _ _ _ => false | _ => true end.
Definition keeps_registrations (e : event) : bool := match e with ECreateMailbox _ _ _ _ _ _ _ _ _ _ => false | _ => true end.
Definition keeps_gateways (e : event) : bool := match e with EAdminGateway _ _ _ _ => false | _ => true end.

Lemma quiet_step e d : quiet (keeps_requests e) (keeps_creds e) (keeps_registrations e) (keeps_gateways e) d (step e d).
Proof.
  destruct e; simpl; auto using quiet_SetPassword, quiet_IssueAPIKey, quiet_CreateAlias, quiet_DeleteAlias, quiet_CreateMailbox, quiet_DeleteMailbox,
    quiet_Request, quiet_Approve, quiet_Exchange, quiet_Revoke, quiet_SetMode, quiet_Provision, quiet_Nonce, quiet_AdminAddress, quiet_AdminGateway.
  - unfold handleCreateTenant. repeat case_goal; calm.
  - unfold handleCreateAccount. destruct (insert_account _ _ _ _ _ _) as [[id d']|e] eqn:E; [eauto with octo|reflexivity].
  - unfold handleCreateDomain. repeat case_goal; calm.
  - calm.
Qed.
End Events.

(** ** A tenant, its mailbox and its agent

    Concrete instances and a concrete history, for witnesses. *)

#[export] Instance ac_unicode : Unicode := { unicode_lower := fun r => r; EqualFold := String.eqb }.
#[export] Instance ac_upper : UnicodeUpper := { unicode_upper := fun r => r }.
#[export] Instance ac_hash : PasswordHash := { IDKey := fun p s _ _ _ _ => bytes_of p ++ s; SaltPassword := fun p s _ => Some (bytes_of p ++ s) }.
Lemma ac_pad (l : list ascii) : length (take 32 (rev l ++ replicate 32 "y"%char)) = 32%nat.
Proof. rewrite length_take, length_app, length_replicate. lia. Qed.
#[export] Instance ac_sha : Sha256 := { sha256 := fun l => take 32 (rev l ++ replicate 32 "y"%char); sha256_length := ac_pad }.
#[export] Instance ac_address : AddressParser :=
  { ParseAddress := fun s => match split s "@" with [u; h] => Some (mkAddress u h) | _ => None end }.
#[export] Instance ac_domain : DomainName := { Domain_Name := sa_Domain }.

Definition bytes_rnd (c : ascii) (n : nat) : list ascii := replicate n c.
Definition demo_verifier : string := "a verifier".
Definition demo_random : option (list ascii * list ascii) := Some (bytes_rnd "p" 6, bytes_rnd "q" 24).

(** Tenant 1 with domain 2; account 3 of principal 5; its agent mailbox, account 7. *)
Definition demo_setup : list event :=
  [EAdminTenant "acme"; EAdminDomain 1 "example.org"; EAdminAccount 0 1 "alice"; EAdminAddress CommitOk 1 "example.org" "alice" "alice";
   EPassword "alice@example.org" "pw" (Some (bytes_rnd "s" 16)) (bytes_rnd "t" 16); ECreateMailbox 1 10 CommitOk 5 3 " team " "Helper" "" 0 no_files].
Definition demo_asked : list event :=
  demo_setup ++ [ERequest 20 (Some (bytes_rnd "d" 32)) (fun _ => Some (bytes_rnd "u" 8))
                   (mkAuthInput "bot" "" "client" "team" (RawURL_Encode (sha256 (bytes_of demo_verifier))))].
Definition demo_approved : list event := demo_asked ++ [EApprove 30 CommitOk 5 "team" " xxxx-xxxx" 7 AutomaticSend].
Definition demo_device : string := ("omd_" ++ RawURL_Encode (bytes_rnd "d" 32))%string.
Definition demo_exchanged : list event := demo_approved ++ [EExchange 40 CommitOk demo_random demo_device demo_verifier].
Definition demo_token : string := ("omb_" ++ base32_lower (bytes_rnd "p" 6) ++ "_" ++ base32_lower (bytes_rnd "q" 24))%string.
