(* ===== verification/AccessSpec.v ===== *)
(** * Who can use a mailbox

    Theorems on every history of the identity graph: references stay inside a tenant, an
    agent's access has the approval of the mailbox's owner and ends with it, an
    authorization is exchanged once, and an owner's mailboxes in a Space stay within
    their limit. *)

From S2P Require Import Prelude GoStrings Blob Database KernelDemo Headers Smtp Base64 RuleMetadata Auth Identity Directory AgentAuth Gateway IdentityInv IdentitySteps.

Section Access.
Context `{BlobOps} `{Unicode} `{PasswordHash} `{Sha256} `{AddressParser} `{DomainName} `{UnicodeUpper}.

(** The tables of a new installation. *)
Definition start (k : DB) : IDB := mkIDB ∅ ∅ ∅ ∅ ∅ ∅ ∅ ∅ ∅ ∅ ∅ ∅ 1 k.
Lemma start_wf k : id_wf (start k).
Proof. split; simpl; repeat intro; by rewrite ?lookup_empty in *. Qed.
Lemma reached_wf k es : id_wf (run es (start k)).
Proof. apply good_run, start_wf. Qed.
Lemma run_app es es' d : run (es ++ es') d = run es' (run es d).
Proof. unfold run. by rewrite foldl_app. Qed.
Lemma run_snoc es e d : run (es ++ [e]) d = step e (run es d).
Proof. by rewrite run_app. Qed.

(** [C31] Whatever requests arrive, in whatever order and with whatever outcome of their COMMITs,
    the tables stay well formed: every reference is to a row of the same tenant, logins,
    domains, addresses, gateways and live credential prefixes are unique, an account has
    at most one active binding and a live credential belongs to one. *)
Theorem identity_wf k es : id_wf (run es (start k)).
Proof. apply good_run, start_wf. Qed.

(** ** Tenants *)

(** A principal that an authentication accepted, with the tenant's scope. *)
Inductive granted (d : IDB) : Z -> Principal -> Prop :=
| granted_password login cred t p : AuthenticatePrincipal login cred d = Ok (t, p) -> granted d t p
| granted_scram login t p : ScopeForLogin login d = Ok (t, p) -> granted d t p
| granted_key token t p a : AuthenticateAPIKey token d = Ok (t, p, a) -> granted d t p
| granted_agent token t p a c : AuthenticateAgentCredential token d = Ok (t, p, a, c) -> granted d t p
| granted_gateway i s sp sel t p a : AuthenticateGatewayIdentity i s sp sel d = Ok (t, p, a) -> granted d t p.

(** An account that an authentication, its scope or an inbound address gives access to. *)
Inductive opened (d : IDB) : Z -> Z -> Prop :=
| opened_key token t p a : AuthenticateAPIKey token d = Ok (t, p, a) -> opened d t a
| opened_agent token t p a c : AuthenticateAgentCredential token d = Ok (t, p, a, c) -> opened d t a
| opened_gateway i s sp sel t p a : AuthenticateGatewayIdentity i s sp sel d = Ok (t, p, a) -> opened d t a
| opened_name t p name acc : granted d t p -> scope_Account t name d = Ok acc -> opened d (acc_tenantID acc) (acc_id acc)
| opened_address t p lp dom acc : granted d t p -> AccountForAddress t lp dom d = Ok acc -> opened d (acc_tenantID acc) (acc_id acc)
| opened_id t p id acc : granted d t p -> AccountForID t id d = Ok acc -> opened d (acc_tenantID acc) (acc_id acc)
| opened_list t p acc : granted d t p -> acc ∈ Accounts t d -> opened d (acc_tenantID acc) (acc_id acc)
| opened_inbound lp dom acc alias : ResolveInbound lp dom d = Ok (acc, alias) -> opened d (acc_tenantID acc) (acc_id acc).

Lemma tenantScope_Ok t d s : tenantScope t d = Ok s -> s = t.
Proof. unfold tenantScope. case_goal; [|done]. by intros [= <-]. Qed.

Lemma key_inv token d t p a : AuthenticateAPIKey token d = Ok (t, p, a) ->
  exists i k, id_keys d !! i = Some k /\ t = ak_tenant k /\ a = ak_account k /\ pr_TenantID p = t /\ ptenant d (pr_ID p) = Some t.
Proof.
  unfold AuthenticateAPIKey. destruct (parseAPIKeyToken token) as [[prefix secret]|]; [|done].
  destruct (first_row _ (id_keys d)) as [[i k]|] eqn:Ek; [|done]. case_goal; [done|]. destruct (tenantScope (ak_tenant k) d) as [s|] eqn:Et; [|done]. simpl.
  destruct (first_row _ (id_principals d)) as [[j q]|] eqn:Ep; [|done]. intros [= <- <- <-]. apply tenantScope_Ok in Et as ->.
  apply first_row_Some in Ek as [Ek _]. apply first_row_Some in Ep as [Ep Cp]. b2p. exists i, k. unfold ptenant. simpl. rewrite Ep. simpl. by split_and!; try congruence.
Qed.
Lemma bound_principal_Some d b i p : bound_principal d b = Some (i, p) ->
  id_principals d !! i = Some p /\ pc_tenant p = bd_tenant b
  /\ exists a, id_accounts d !! bd_account b = Some a /\ aw_tenant a = bd_tenant b /\ aw_disabled a = false.
Proof.
  unfold bound_principal. destruct (id_accounts d !! bd_account b) as [a|] eqn:Ea; [|done].
  destruct (aw_tenant a =? bd_tenant b) eqn:Et; simpl; [|done]. destruct (aw_disabled a) eqn:Edis; simpl; [done|]. destruct (aw_principal a) as [pid|]; [|done].
  destruct (id_principals d !! pid) as [q|] eqn:Ep; [|done]. destruct (pc_tenant q =? aw_tenant a) eqn:Eq; [|done]. intros [= <- <-]. b2p.
  split; [done|]. split; [congruence|]. by exists a.
Qed.
Lemma agent_inv token d t p a cid : AuthenticateAgentCredential token d = Ok (t, p, a, cid) ->
  exists prefix secret c b i q, parseAgentCredential token = Some (prefix, secret) /\ id_creds d !! cid = Some c /\ ac_prefix c = prefix /\ ac_revoked c = false
    /\ VerifyAPIKey (ac_cred c) secret = true /\ id_bindings d !! ac_binding c = Some b /\ binding_live d b = true /\ bound_principal d b = Some (i, q)
    /\ t = bd_tenant b /\ a = bd_account b /\ p = mkPrincipalRef i t (pc_login q).
Proof.
  unfold AuthenticateAgentCredential. destruct (parseAgentCredential token) as [[prefix secret]|]; [|done].
  destruct (first_row _ (id_creds d)) as [[i c]|] eqn:Ec; [|done]. apply first_row_Some in Ec as [Ec Cc].
  destruct (id_bindings d !! ac_binding c) as [b|] eqn:Eb; [|done]. destruct (bound_principal d b) as [[j q]|] eqn:Ep; [|done].
  destruct (VerifyAPIKey (ac_cred c) secret) eqn:Ev; simpl; [|done]. destruct (tenantScope (bd_tenant b) d) as [s|] eqn:Et; simpl; [|done].
  intros [= <- <- <- <-]. apply tenantScope_Ok in Et as ->. b2p. exists prefix, secret, c, b, j, q. split_and!; try done. by apply String.eqb_eq.
Qed.
Lemma gateway_inv i s sp sel d t p a : AuthenticateGatewayIdentity i s sp sel d = Ok (t, p, a) ->
  pr_TenantID p = t /\ ptenant d (pr_ID p) = Some t /\ atenant d a = Some t.
Proof.
  unfold AuthenticateGatewayIdentity. cbv zeta. case_goal; [done|]. destruct (gateway_at _ _ _ d) as [[k g]|]; [|done].
  destruct (id_principals d !! gw_owner g) as [q|] eqn:Ep; [|done]. destruct (id_accounts d !! gw_default g) as [x|] eqn:Ex; [|done].
  case_goal; [|done]. b2p. destruct (0 <? sel) eqn:Es; simpl.
  - destruct (id_accounts d !! sel) as [y|] eqn:Ey; simpl; [|done].
    match goal with |- context [negb ?c] => destruct c eqn:Eown end; simpl; [|done]. destruct (tenantScope _ d) as [u|] eqn:Et; simpl; [|done].
    intros [= <- <- <-]. apply tenantScope_Ok in Et as ->. b2p. unfold ptenant, atenant. simpl. rewrite Ep, Ey. simpl. split_and!; congruence.
  - destruct (tenantScope _ d) as [u|] eqn:Et; simpl; [|done]. intros [= <- <- <-]. apply tenantScope_Ok in Et as ->.
    unfold ptenant, atenant. simpl. rewrite Ep, Ex. simpl. split_and!; congruence.
Qed.

Lemma granted_tenant d t p : granted d t p -> pr_TenantID p = t /\ ptenant d (pr_ID p) = Some t.
Proof.
  intros [login cred t' p' Ha|login t' p' Ha|token t' p' a Ha|token t' p' a c Ha|i s sp sel t' p' a Ha].
  - unfold AuthenticatePrincipal in Ha. destruct (principal_of_login d login) as [[id q]|] eqn:Eq; [|done]. apply first_row_Some in Eq as [Eq _].
    destruct (negb _); [done|]. destruct (tenantScope _ d) as [s|] eqn:Et; [|done]. injection Ha as <- <-. apply tenantScope_Ok in Et as ->.
    unfold ptenant. simpl. by rewrite Eq.
  - unfold ScopeForLogin in Ha. destruct (principal_of_login d login) as [[id q]|] eqn:Eq; [|done]. apply first_row_Some in Eq as [Eq _].
    destruct (tenantScope _ d) as [s|] eqn:Et; [|done]. injection Ha as <- <-. apply tenantScope_Ok in Et as ->. unfold ptenant. simpl. by rewrite Eq.
  - by destruct (key_inv _ _ _ _ _ Ha) as (i & k & _ & _ & _ & H1' & H2').
  - destruct (agent_inv _ _ _ _ _ _ Ha) as (x & y & z & b & i & q & _ & _ & _ & _ & _ & _ & _ & Hb & -> & _ & ->).
    apply bound_principal_Some in Hb as (Hq & Ht & _). unfold ptenant. simpl. rewrite Hq. simpl. by rewrite Ht.
  - by destruct (gateway_inv _ _ _ _ _ _ _ _ Ha) as (H1' & H2' & _).
Qed.

(** [C30] Whatever the history, an authentication yields a principal of the tenant whose scope
    it grants, and every account opened in it, or for an inbound address, is a row of the
    tenant that the handle names. *)
Theorem tenant_isolation k es t p a :
  (granted (run es (start k)) t p -> pr_TenantID p = t /\ ptenant (run es (start k)) (pr_ID p) = Some t)
  /\ (opened (run es (start k)) t a -> atenant (run es (start k)) a = Some t).
Proof.
  pose proof (reached_wf k es) as W. revert W. generalize (run es (start k)) as d. intros d W. split; [apply granted_tenant|].
  intros [token t' p' a' Ha|token t' p' a' c Ha|i s sp sel t' p' a' Ha|t' p' name acc _ Ha|t' p' lp dom acc _ Ha|t' p' id acc _ Ha|t' p' acc _ Ha|lp dom acc alias Ha].
  - destruct (key_inv _ _ _ _ _ Ha) as (i & x & Hk & -> & -> & _). by apply (w_keys _ W i).
  - destruct (agent_inv _ _ _ _ _ _ Ha) as (x & y & z & b & i & q & _ & _ & _ & _ & _ & Hb & _ & _ & -> & -> & _).
    eapply owned_atenant. by apply (w_bindings _ W (ac_binding z)).
  - by destruct (gateway_inv _ _ _ _ _ _ _ _ Ha) as (_ & _ & H3').
  - unfold scope_Account in Ha. destruct (first_row _ (id_accounts d)) as [[id x]|] eqn:Ex; [|done]. injection Ha as <-. apply first_row_Some in Ex as [Ex Cx].
    b2p. unfold atenant. simpl. rewrite Ex. simpl. congruence.
  - unfold AccountForAddress in Ha. destruct (first_row _ (id_addresses d)) as [[id x]|] eqn:Ex; [|done]. injection Ha as <-. apply first_row_Some in Ex as [Ex Cx].
    b2p. destruct (w_addresses _ W _ _ Ex) as [_ Hx]. simpl. congruence.
  - unfold AccountForID in Ha. destruct (id_accounts d !! id) as [x|] eqn:Ex; [|done]. destruct ((aw_tenant x =? t') && negb (aw_disabled x)) eqn:Cx; [|done].
    injection Ha as <-. b2p. unfold atenant. simpl. rewrite Ex. simpl. congruence.
  - unfold Accounts in Ha. apply list_elem_of_fmap in Ha as ([id x] & -> & Hx). apply select_elem in Hx as [Hx Cx]. b2p. unfold atenant. simpl. rewrite Hx. simpl. congruence.
  - unfold ResolveInbound in Ha. destruct (first_row _ (id_addresses d)) as [[id x]|] eqn:Ex; [|done]. injection Ha as <- _. apply first_row_Some in Ex as [Ex _].
    simpl. by destruct (w_addresses _ W _ _ Ex) as [_ Hx].
Qed.

(** ** Approval *)

Definition same_row (c c' : AgentCred) : Prop := ac_binding c' = ac_binding c /\ ac_prefix c' = ac_prefix c /\ ac_cred c' = ac_cred c.
Lemma rebind_inv hash r owner account tenant prefix cred d d' : rebind hash r owner account tenant prefix cred d = Ok d' ->
  id_requests d' = <[hash := set_request_exchanged r]> (id_requests d)
  /\ (forall i b, id_bindings d' !! i = Some b -> bd_account b = account -> bd_active b = true -> i = id_next d)
  /\ forall i c', id_creds d' !! i = Some c' ->
     (exists c, id_creds d !! i = Some c /\ same_row c c')
     \/ (c' = mkAgentCred (id_next d) prefix cred false
         /\ id_bindings d' !! id_next d = Some (mkBinding tenant account owner (rq_space r) (rq_bot_id r) (rq_bot_profile r) (rq_client_name r) (rq_mode r) true)).
Proof.
  unfold rebind. set (d1 := revoke_all (fun _ b => bd_account b =? account) d). simpl.
  destruct (insert_credential _ _ _ _) as [d2|e] eqn:Ei; [|done]. intros [= <-]. unfold insert_credential in Ei.
  destruct (exists_row _ _); [done|]. injection Ei as <-. simpl. change (id_next d1) with (id_next d). split; [done|]. split.
  - intros i b Hi Ha Hact. rewrite lookup_insert_Some in Hi. destruct Hi as [[<- _]|[_ Hi]]; [done|].
    exfalso. by eapply (revoked_account account d i b).
  - intros i c' Hi. rewrite lookup_insert_Some in Hi. destruct Hi as [[<- <-]|[_ Hi]]; [right; by rewrite lookup_insert_eq|]. left.
    assert (Hq : quiet false true true true d d1) by apply quiet_revoke_all.
    destruct (q_creds _ _ _ _ _ _ Hq eq_refl i c' Hi) as (c & Hc & H1' & H2' & H3' & _). by exists c.
Qed.

Section History.
Variable d0 : IDB.

(** The request [r] is pending no more because its owner approved it. *)
Definition approved_by (es : list event) (h : list ascii) (r : AuthRequest) : Prop :=
  exists es1 now co owner space code account mode es2 r0,
    es = es1 ++ EApprove now co owner space code account mode :: es2
    /\ agent_mailbox (run es1 d0) account owner (trim_space space) <> None
    /\ id_requests (run es1 d0) !! h = Some r0 /\ rq_user_code r0 = normalizeUserCode code /\ rq_space r0 = trim_space space
    /\ r = set_request_approved owner account mode r0.
(** The credential [c] of the binding [b] comes from an exchange of an approved request. *)
Definition issued_by (es : list event) (c : AgentCred) (b : Binding) : Prop :=
  exists es1 now co random device verifier es2 r secret,
    es = es1 ++ EExchange now co random device verifier :: es2
    /\ approved_by es1 (sha256 (bytes_of device)) r
    /\ rq_owner r = Some (bd_owner b) /\ rq_account r = Some (bd_account b) /\ rq_space r = bd_space b
    /\ rq_challenge r = RawURL_Encode (sha256 (bytes_of verifier))
    /\ newAPIKeyToken random = Some (ac_prefix c, secret) /\ HashAPIKey secret = Ok (ac_cred c).

Lemma approved_later es e h r : approved_by es h r -> approved_by (es ++ [e]) h r.
Proof.
  intros (es1 & now & co & o & s & code & a & m & es2 & r0 & -> & Hrest). exists es1, now, co, o, s, code, a, m, (es2 ++ [e]), r0.
  split; [by rewrite <- app_assoc|exact Hrest].
Qed.
Lemma issued_later es e c b : issued_by es c b -> issued_by (es ++ [e]) c b.
Proof.
  intros (es1 & now & co & rnd & dev & v & es2 & r & s & -> & Hrest). exists es1, now, co, rnd, dev, v, (es2 ++ [e]), r, s.
  split; [by rewrite <- app_assoc|exact Hrest].
Qed.
Lemma issued_same es c c' b b' : issued_by es c b -> same_row c c' -> binding_key b' = binding_key b -> issued_by es c' b'.
Proof.
  intros (es1 & now & co & rnd & dev & v & es2 & r & s & He & Hr & Ho & Ha & Hs & Hc & Hn & Hh) (_ & Hp & Hcr) [= H1' H2' H3' H4' _].
  exists es1, now, co, rnd, dev, v, es2, r, s. rewrite Hp, Hcr, H2', H3', H4'. by split_and!.
Qed.

Record history (es : list event) : Prop := {
  h_requests : forall h r, id_requests (run es d0) !! h = Some r -> rq_status r = Approved -> approved_by es h r;
  h_creds : forall i c, id_creds (run es d0) !! i = Some c -> exists b, id_bindings (run es d0) !! ac_binding c = Some b /\ issued_by es c b }.

Lemma created_attempts n codes device mk d h r : (forall code, rq_status (mk code) = Pending) ->
  id_requests (create_attempts n codes device mk d).2 !! h = Some r -> id_requests d !! h = Some r \/ (h = sha256 (bytes_of device) /\ rq_status r = Pending).
Proof.
  intros Hp. revert codes. induction n as [|n IH]; intros codes; simpl; [by left|]. destruct (randomUserCode _) as [code|]; simpl; [|by left].
  destruct (insert_request _ _ _) as [d'|e] eqn:Ei; simpl.
  - unfold insert_request in Ei. repeat case_hyp Ei; try done. injection Ei as <-. simpl. intros Hi. rewrite lookup_insert_Some in Hi.
    destruct Hi as [[<- <-]|[_ Hi]]; [right; by split|by left].
  - destruct e; simpl; try by left. apply IH.
Qed.
Definition device_of (random : list ascii) : string := ("omd_" ++ RawURL_Encode random)%string.
Lemma requested now device codes input d h r : id_requests (CreateAgentAuthorization now device codes input d).2 !! h = Some r ->
  id_requests d !! h = Some r \/ (exists b, device = Some b /\ h = sha256 (bytes_of (device_of b)) /\ rq_status r = Pending).
Proof.
  unfold CreateAgentAuthorization. cbv zeta. do 3 (case_goal; [by left|]). match goal with |- context [negb ?c] => destruct (negb c); [by left|] end.
  assert (Hc : forall h r, id_requests (cleanup_requests now d) !! h = Some r -> id_requests d !! h = Some r).
  { intros h' r' Hr. simpl in Hr. by apply map_lookup_filter_Some in Hr as [Hr _]. }
  destruct device as [b|]; [|intros Hi; left; by apply Hc]. cbn [randomURLToken fmap option_fmap option_map].
  intros Hi. apply created_attempts in Hi as [Hi|[-> Hs]]; [left; by apply Hc| |done]. right. by exists b.
Qed.
Lemma request_of_Some code d h r : request_of code d = Some (h, r) -> id_requests d !! h = Some r /\ rq_user_code r = code.
Proof. unfold request_of. intros Hh%head_Some_elem_of. apply list_elem_of_filter in Hh as [Hc Hh]. by apply elem_of_map_to_list in Hh. Qed.
Lemma approve_cases now co owner space code account mode d :
  (ApproveAgentAuthorization now co owner space code account mode d).2 = d
  \/ exists h r, id_requests d !! h = Some r /\ rq_user_code r = normalizeUserCode code /\ rq_space r = trim_space space /\ rq_status r = Pending
     /\ agent_mailbox d account owner (trim_space space) <> None
     /\ (ApproveAgentAuthorization now co owner space code account mode d).2 = id_set_requests (<[h := set_request_approved owner account mode r]> (id_requests d)) d.
Proof.
  unfold ApproveAgentAuthorization. cbv zeta. case_goal; [by left|]. destruct (request_of _ d) as [[h r]|] eqn:Er; [|by left].
  apply request_of_Some in Er as [Er Ec].
  destruct (String.eqb_spec (trim_space space) EmptyString); simpl; [by left|]. destruct (String.eqb_spec (rq_space r) EmptyString); simpl; [by left|].
  destruct (String.eqb_spec (rq_space r) (trim_space space)); simpl; [|by left]. case_goal; [by left|]. case_goal; [left; by destruct co as [|[]]|].
  destruct (bool_decide (rq_status r = Pending)) eqn:Ep; simpl; [|by left]. apply bool_decide_eq_true in Ep.
  destruct (agent_mailbox d account owner (trim_space space)) as [a|] eqn:Ea; [|by left].
  destruct co as [|[]]; simpl; [right|right|by left]; exists h, r; by split_and!.
Qed.

Lemma history_step es e : id_wf d0 -> history es -> history (es ++ [e]).
Proof.
  intros W0 [Hq Hc]. destruct (good_run es d0 W0) as [W _]. destruct (good_step e (run es d0) W) as [W' E].
  pose proof (quiet_step e (run es d0)) as Q. split.
  - intros h r Hr Hs. rewrite run_snoc in Hr. destruct e;
      try (rewrite (q_requests _ _ _ _ _ _ Q eq_refl) in Hr; by apply approved_later, Hq).
    + simpl in Hr. apply requested in Hr as [Hr|(b & _ & _ & Hp)]; [by apply approved_later, Hq|congruence].
    + simpl in Hr. destruct (approve_cases now co owner space userCode accountID mode (run es d0)) as [->|(h' & r' & Hr' & Hcode & Hsp & Hst & Hm & He)] in Hr;
        [by apply approved_later, Hq|]. rewrite He in Hr. simpl in Hr. rewrite lookup_insert_Some in Hr. destruct Hr as [[<- <-]|[_ Hr]]; [|by apply approved_later, Hq].
      exists es, now, co, owner, space, userCode, accountID, mode, [], r'. by split_and!.
    + simpl in Hr. destruct (exchange_cases now co random deviceCode codeVerifier (run es d0)) as [[er He]|(r' & o & a & x & p & s & cr & d1 & v & Hex)].
      { rewrite He in Hr. by apply approved_later, Hq. }
      destruct Hex as (Hr' & Hst & _ & _ & _ & _ & _ & _ & _ & _ & Hb & _ & He). rewrite He in Hr. destruct (rebind_inv _ _ _ _ _ _ _ _ _ Hb) as (Hreq & _).
      destruct co as [|[]]; simpl in Hr; [rewrite Hreq in Hr|rewrite Hreq in Hr|by apply approved_later, Hq];
        (rewrite lookup_insert_Some in Hr; destruct Hr as [[<- <-]|[_ Hr]]; [done|by apply approved_later, Hq]).
  - intros i c' Hi. rewrite run_snoc in Hi |- *.
    assert (Hold : forall c, id_creds (run es d0) !! i = Some c -> same_row c c' ->
      exists b, id_bindings (step e (run es d0)) !! ac_binding c' = Some b /\ issued_by (es ++ [e]) c' b).
    { intros c Hci Hsame. destruct (Hc i c Hci) as (b & Hb & His). destruct (x_bindings _ _ E _ _ Hb) as (b' & Hb' & Hkey & _).
      exists b'. pose proof Hsame as (-> & _). split; [done|]. eapply issued_later, issued_same; eauto. }
    destruct (keeps_creds e) eqn:Ek.
    + destruct (q_creds _ _ _ _ _ _ Q eq_refl i c' Hi) as (c & Hci & H1' & H2' & H3' & _). by apply (Hold c).
    + destruct e; try done. simpl in Hi |- *. simpl in Hold.
      destruct (exchange_cases now co random deviceCode codeVerifier (run es d0)) as [[er He]|(r' & o & a & x & p & s & cr & d1 & v & Hex)].
      { rewrite He in Hi, Hold |- *. by apply (Hold c'). }
      destruct Hex as (Hr' & Hst & Ho & Ha & _ & Hch & _ & _ & Htok & Hh & Hb & _ & He). rewrite He in Hi, Hold |- *.
      destruct (rebind_inv _ _ _ _ _ _ _ _ _ Hb) as (_ & _ & Hcr).
      assert (Hnew : id_creds d1 !! i = Some c' -> (commit_tx co v (run es d0) d1).2 = d1 ->
        exists b, id_bindings d1 !! ac_binding c' = Some b /\ issued_by (es ++ [EExchange now co random deviceCode codeVerifier]) c' b).
      { intros Hi1 Hd1. rewrite Hd1 in Hold. destruct (Hcr i c' Hi1) as [(c & Hci & Hsame)|[-> Hbd]]; [by apply (Hold c)|]. eexists. split; [exact Hbd|].
        exists es, now, co, random, deviceCode, codeVerifier, [], r', s. split_and!; try done. by apply Hq. }
      destruct co as [|[]]; simpl in Hi, Hold |- *; [by apply Hnew|by apply Hnew|by apply (Hold c')].
Qed.
End History.

Lemma history_start k es : history (start k) es.
Proof.
  induction es as [|e es IH] using rev_ind; [split; intros ? ? Hi; simpl in Hi; by rewrite lookup_empty in Hi|]. apply history_step; [apply start_wf|exact IH].
Qed.

(** [C28] A request that authenticates with an agent's token acts for a mailbox whose owner -
    when it was the owner's, in the Space of the request - approved the very request that
    was then exchanged for the token, by the holder of the device code and of the
    verifier of its challenge. *)
Theorem agent_access_approved k es token t p a cid : AuthenticateAgentCredential token (run es (start k)) = Ok (t, p, a, cid) ->
  exists es1 now1 co1 owner space code mode es2 now2 co2 random device verifier es3 r prefix secret presented,
    es = es1 ++ EApprove now1 co1 owner space code a mode :: es2 ++ EExchange now2 co2 random device verifier :: es3
    /\ agent_mailbox (run es1 (start k)) a owner (trim_space space) <> None
    /\ id_requests (run es1 (start k)) !! sha256 (bytes_of device) = Some r
    /\ rq_user_code r = normalizeUserCode code /\ rq_space r = trim_space space /\ rq_challenge r = RawURL_Encode (sha256 (bytes_of verifier))
    /\ newAPIKeyToken random = Some (prefix, secret)
    /\ parseAgentCredential token = Some (prefix, presented) /\ sha256 (bytes_of presented) = sha256 (bytes_of secret).
Proof.
  intros (prefix & presented & c & b & i & q & Hp & Hc & <- & _ & Hv & Hb & _ & _ & _ & -> & _)%agent_inv.
  destruct (h_creds _ _ (history_start k es) cid c Hc) as (b' & Hb' & es1 & now2 & co2 & random & device & verifier & es3 & r & secret & -> & Happ & Ho & Ha & Hs & Hch & Hn & Hh).
  assert (b' = b) as -> by congruence.
  destruct Happ as (es1' & now1 & co1 & owner & space & code & acc & mode & es2 & r0 & -> & Hm & Hr0 & Hcode & Hsp & ->).
  injection Ha as ->. exists es1', now1, co1, owner, space, code, mode, es2, now2, co2, random, device, verifier, es3, r0, (ac_prefix c), secret, presented.
  split_and!; try done; [by rewrite <- app_assoc|]. by apply (verify_issued secret (ac_cred c) Hh).
Qed.

(** ** The end of access *)

(** What ends the access of the agents of a mailbox. *)
Inductive cut (d : IDB) (acc : Z) : IDB -> Prop :=
| cut_revoke co owner space d' : RevokeAgentBinding co owner acc space d = (Ok tt, d') -> cut d acc d'
| cut_delete t co owner space d' : DeleteAgentMailbox t co owner acc space d = (Ok tt, d') -> cut d acc d'
| cut_rebind now co random device verifier v d' r : ExchangeAgentAuthorization now co random device verifier d = (Ok v, d') ->
    id_requests d !! sha256 (bytes_of device) = Some r -> rq_account r = Some acc -> cut d acc d'.

Definition registered_for (d : IDB) (b : Binding) : bool :=
  match id_registrations d !! bd_account b with
  | Some r => (rg_tenant r =? bd_tenant b) && (rg_owner r =? bd_owner b) && String.eqb (rg_space r) (bd_space b)
  | None => false
  end.
Lemma binding_live_true d b : binding_live d b = true -> bd_active b = true /\ registered_for d b = true.
Proof. unfold binding_live. intros Hl. b2p. by split. Qed.

(** An active binding of the account that its registration does not justify is dead too. *)
Lemma cut_bindings d acc d' : id_wf d -> cut d acc d' ->
  good d d' /\ ((forall i b, id_bindings d' !! i = Some b -> bd_account b = acc -> bd_active b = true -> id_next d <= i \/ (registered_for d b = false /\ is_Some (id_registrations d !! acc)))).
Proof.
  intros W [co owner space d1 Hr|t co owner space d1 Hr|now co random device verifier v d1 r Hr Hreq Hacc].
  - split; [by pose proof (good_Revoke co owner acc space d) as G; rewrite Hr in G|]. unfold RevokeAgentBinding in Hr. cbv zeta in Hr.
    destruct (String.eqb _ _); [done|]. destruct (agent_mailbox d acc owner (trim_space space)) as [a|] eqn:Ea; [|done].
    destruct co as [|applied]; [|done]. injection Hr as <-. intros i b Hb Hba Hact. right. apply revoke_all_bindings in Hb as (b0 & _ & ->).
    apply agent_mailbox_Some in Ea as (_ & Ho & _ & Hreg & _). unfold registered in Hreg. destruct (id_registrations d !! acc) as [rg|] eqn:Erg; [|done].
    b2p. destruct (bd_active b0) eqn:Eb; [|rewrite andb_false_r in Hact; congruence]. rewrite andb_true_r in *.
    destruct (bound_to acc owner (trim_space space) i b0) eqn:Ebt; [done|]. split; [|by eexists]. unfold registered_for. rewrite Hba, Erg.
    unfold bound_to in Ebt. rewrite Hba, Z.eqb_refl in Ebt. cbn [andb] in Ebt. rewrite Ho in *. unfold opt_eqb in *. b2p.
    match goal with Hs : String.eqb _ _ = true |- _ => apply String.eqb_eq in Hs; rewrite Hs end.
    match goal with Hs : owner = rg_owner _ |- _ => rewrite <- Hs end. rewrite (Z.eqb_sym owner), (String.eqb_sym (trim_space space)).
    by rewrite <- andb_assoc, Ebt, andb_false_r.
  - split; [by pose proof (good_DeleteAgentMailbox t co owner acc space d) as G; rewrite Hr in G|]. unfold DeleteAgentMailbox in Hr. cbv zeta in Hr.
    destruct (String.eqb _ _); [done|]. destruct (agent_mailbox d acc owner (trim_space space)) as [a|] eqn:Ea; [|done]. case_hyp Hr; [done|]. case_hyp Hr; [done|].
    destruct co as [|applied]; [|done]. injection Hr as <-. intros i b Hb Hba Hact. exfalso. eapply (revoked_account acc d i b); [exact Hb|done|done].
  - split; [by pose proof (good_Exchange now co random device verifier d) as G; rewrite Hr in G|].
    destruct (exchange_cases now co random device verifier d) as [[e He]|(r' & o & a & x & p & s & cr & d2 & v' & Hex)]; [congruence|].
    destruct Hex as (Hr' & _ & _ & Ha & _ & _ & _ & _ & _ & _ & Hb & _ & He). rewrite He in Hr. destruct co as [|applied]; [|done]. injection Hr as -> ->.
    destruct (rebind_inv _ _ _ _ _ _ _ _ _ Hb) as (_ & Hnew & _). intros i b Hbi Hba Hact. left. rewrite (Hnew i b Hbi); [lia| |done]. congruence.
Qed.

(** [C29] When an owner revokes the binding of a mailbox or deletes the mailbox, or it is bound
    anew, no credential that exists at that moment authenticates for the mailbox again,
    whatever happens later. *)
Theorem revocation_final d acc d' es token t p cid : id_wf d -> cut d acc d' ->
  AuthenticateAgentCredential token (run es d') = Ok (t, p, acc, cid) -> id_creds d !! cid = None.
Proof.
  intros W Hcut (prefix & secret & c & b & i & q & _ & Hc & _ & _ & _ & Hb & Hl & _ & _ & Hacc & _)%agent_inv.
  destruct (id_creds d !! cid) as [c0|] eqn:Ec; [|done]. exfalso. destruct (cut_bindings d acc d' W Hcut) as [G Hd].
  destruct (G W) as [W' E]. destruct (good_run es d' W') as [_ E'].
  destruct (w_creds _ W _ _ Ec) as (b0 & Hb0 & _).
  destruct (x_creds _ _ E _ _ Ec) as (c1 & Hc1 & Hbn1 & _). destruct (x_creds _ _ E' _ _ Hc1) as (c2 & Hc2 & Hbn2 & _).
  assert (c2 = c) as -> by congruence. rewrite Hbn2, Hbn1 in Hb.
  destruct (x_bindings _ _ E _ _ Hb0) as (b1 & Hb1 & Hkey1 & _). destruct (x_bindings _ _ E' _ _ Hb1) as (b2 & Hb2 & Hkey2 & Hact).
  assert (b2 = b) as -> by congruence. apply binding_live_true in Hl as [Ha Hreg]. injection Hkey2 as Ht2 Hacc2 Ho2 Hs2 _.
  destruct (Hd _ b1 Hb1) as [Hn|[Hnr [rg Hrg]]]; [congruence|auto|apply (f_bindings _ W) in Hb0; lia|].
  destruct (x_registrations _ _ E _ _ Hrg) as (rg1 & Hrg1 & <-). destruct (x_registrations _ _ E' _ _ Hrg1) as (rg2 & Hrg2 & <-).
  unfold registered_for in *. assert (Hb1a : bd_account b1 = acc) by congruence. rewrite <- Hacc, Hrg2 in Hreg. rewrite Hb1a, Hrg in Hnr. congruence.
Qed.

(** ** One exchange *)

Definition spent (h : list ascii) (d : IDB) : Prop := forall r, id_requests d !! h = Some r -> rq_status r = Exchanged.
(** An agent draws the device code of digest [h]. *)
Definition draws (h : list ascii) (e : event) : Prop :=
  match e with ERequest _ (Some b) _ _ => sha256 (bytes_of (device_of b)) = h | _ => False end.
Lemma spent_step h e d : ~ draws h e -> spent h d -> spent h (step e d).
Proof.
  intros Hd Hs r Hr. pose proof (quiet_step e d) as Q. destruct e; try (rewrite (q_requests _ _ _ _ _ _ Q eq_refl) in Hr; by apply Hs).
  - simpl in Hr, Hd. apply requested in Hr as [Hr|(b & -> & -> & _)]; [by apply Hs|done].
  - simpl in Hr. destruct (approve_cases now co owner space userCode accountID mode d) as [->|(h' & r' & Hr' & _ & _ & Hst & _ & He)] in Hr; [by apply Hs|].
    rewrite He in Hr. simpl in Hr. rewrite lookup_insert_Some in Hr. destruct Hr as [[-> <-]|[_ Hr]]; [|by apply Hs]. apply Hs in Hr'. congruence.
  - simpl in Hr. destruct (exchange_cases now co random deviceCode codeVerifier d) as [[er He]|(r' & o & a & x & p & s & cr & d1 & v & Hex)];
      [rewrite He in Hr; by apply Hs|].
    destruct Hex as (_ & _ & _ & _ & _ & _ & _ & _ & _ & _ & Hb & _ & He). rewrite He in Hr. destruct (rebind_inv _ _ _ _ _ _ _ _ _ Hb) as (Hreq & _).
    destruct co as [|[]]; simpl in Hr; try (by apply Hs); (rewrite Hreq, lookup_insert_Some in Hr; destruct Hr as [[_ <-]|[_ Hr]]; [done|by apply Hs]).
Qed.

(** A device code is exchanged once: unless the same code is drawn again, every later
    exchange of it is refused. *)
Theorem exchanged_once now co random device verifier v d d' es now' co' random' verifier' :
  ExchangeAgentAuthorization now co random device verifier d = (Ok v, d') -> Forall (fun e => ~ draws (sha256 (bytes_of device)) e) es ->
  exists e, ExchangeAgentAuthorization now' co' random' device verifier' (run es d') = (Err e, run es d').
Proof.
  intros Hx Hes. assert (Hs : spent (sha256 (bytes_of device)) d').
  { destruct (exchange_cases now co random device verifier d) as [[e He]|(r & o & a & x & p & s & cr & d1 & v' & Hex)]; [congruence|].
    destruct Hex as (_ & _ & _ & _ & _ & _ & _ & _ & _ & _ & Hb & _ & He). rewrite He in Hx. destruct co as [|applied]; [|done]. injection Hx as -> ->.
    destruct (rebind_inv _ _ _ _ _ _ _ _ _ Hb) as (Hreq & _). intros r' Hr'. rewrite Hreq, lookup_insert_eq in Hr'. by injection Hr' as <-. }
  assert (Hs' : spent (sha256 (bytes_of device)) (run es d')).
  { clear Hx. revert d' Hs. induction Hes as [|e es He _ IH]; intros d1 Hs; [done|]. apply IH. by apply spent_step. }
  destruct (exchange_cases now' co' random' device verifier' (run es d')) as [He|(r & o & a & x & p & s & cr & d1 & v' & Hr & Hst & _)]; [done|].
  apply Hs' in Hr. congruence.
Qed.

(** ** The limit on an owner's mailboxes in a Space *)

Lemma select_nodup {V} (p : Z -> V -> bool) t : NoDup ((select p t).*1).
Proof.
  unfold select, by_id. assert (Hn : NoDup (merge_sort id_le (map_to_list t)).*1) by (rewrite merge_sort_Permutation; apply NoDup_fst_map_to_list).
  revert Hn. generalize (merge_sort id_le (map_to_list t)) as l. induction l as [|x l IH]; intros Hn; [constructor|].
  cbn in Hn. apply NoDup_cons in Hn as [Hx Hn]. rewrite filter_cons. case_decide; [|by apply IH]. cbn. apply NoDup_cons. split; [|by apply IH].
  intros Hin. apply Hx. apply list_elem_of_fmap in Hin as (y & -> & Hy). apply list_elem_of_filter in Hy as [_ Hy]. by apply list_elem_of_fmap_2.
Qed.
Lemma select_le {V W} (p : Z -> V -> bool) (q : Z -> W -> bool) t u extra :
  (forall i v, t !! i = Some v -> p i v = true -> (exists w, u !! i = Some w /\ q i w = true) \/ i ∈ extra) ->
  (length (select p t) <= length (select q u) + length extra)%nat.
Proof.
  intros Hsub. rewrite <- (length_fmap fst (select p t)), <- (length_fmap fst (select q u)), <- length_app. apply submseteq_length, NoDup_submseteq; [apply select_nodup|].
  intros i Hi. apply list_elem_of_fmap in Hi as ([j v] & -> & Hi). apply select_elem in Hi as [Hi Hp]. apply elem_of_app.
  destruct (Hsub j v Hi Hp) as [(w & Hw & Hq)|He]; [left|by right]. apply list_elem_of_fmap. exists (j, w). split; [done|]. by apply select_elem.
Qed.

Lemma counted_true t d owner space i a : counted t d owner space i a = true -> id_accounts d !! i = Some a ->
  aw_tenant a = t /\ aw_owner a = Some owner /\ aw_disabled a = false /\ id_registrations d !! i = Some (mkReg t owner space) /\ gateway_default d i t owner space = false.
Proof.
  unfold counted. intros Hc Ha. apply andb_prop in Hc as [Ht%Z.eqb_eq Hc]. destruct (agent_mailbox d i owner space) as [b|] eqn:Eb; [|done].
  apply agent_mailbox_Some in Eb as (Hb & Ho & Hd & Hr & Hg). assert (b = a) as -> by congruence. subst t. split_and!; try done.
  unfold registered in Hr. destruct (id_registrations d !! i) as [[rt ro rs]|]; [|done]. rewrite Ho in Hr. simpl in Hr. unfold opt_eqb in Hr. b2p.
  repeat match goal with Hs : String.eqb _ _ = true |- _ => apply String.eqb_eq in Hs end. by subst.
Qed.
Lemma counted_intro t d owner space i a : id_accounts d !! i = Some a -> aw_tenant a = t -> aw_owner a = Some owner -> aw_disabled a = false ->
  id_registrations d !! i = Some (mkReg t owner space) -> gateway_default d i t owner space = false -> counted t d owner space i a = true.
Proof.
  intros Ha <- Ho Hd Hr Hg. unfold counted, agent_mailbox, registered. rewrite Ha, Ho, Hd, Hr, Hg. simpl. by rewrite !Z.eqb_refl, String.eqb_refl.
Qed.

Lemma inserted_rows now t login po oo name dom lp d pid d1 aid d2 xid d3 : insert_principal t login d = Ok (pid, d1) ->
  insert_account now t po oo name d1 = Ok (aid, d2) -> insert_address t dom aid lp false d2 = Ok (xid, d3) ->
  id_principals d3 !! pid = Some (mkPrincipal t login no_cred) /\ id_domains d3 = id_domains d /\ id_gateways d3 = id_gateways d.
Proof.
  intros [-> ->]%insert_principal_Ok [-> [k ->]]%insert_account_Ok [-> ->]%insert_address_Ok. split; [apply lookup_insert_eq|done].
Qed.

(** A creation is refused, or makes the mailbox: its login, account, address, registration
    and Inbox. *)
Lemma create_cases t now co owner source space lp dom max b d : id_wf d ->
  (exists e, CreateAgentMailbox t now co owner source space lp dom max b d = (Err e, d))
  \/ exists aid pid xid domID row d4 d5, let part := ToLower (trim_space lp) in let address := (part ++ "@" ++ dm_domain row)%string in
     CreateAgentMailbox t now co owner source space lp dom max b d = commit_tx co (aid, address) d d5
     /\ registered_count t d owner (trim_space space) < (if max <=? 0 then 2 else max)
     /\ id_next d <= aid /\ id_domains d !! domID = Some row /\ dm_tenant row = t /\ trim_space space <> EmptyString
     /\ id_accounts d5 !! aid = Some (mkAcct t (Some pid) (Some owner) ("agent-mailbox:" ++ address) false now)
     /\ id_principals d5 !! pid = Some (mkPrincipal t address no_cred)
     /\ id_addresses d5 !! xid = Some (mkAddr t domID aid part false)
     /\ id_registrations d5 = <[aid := mkReg t owner (trim_space space)]> (id_registrations d)
     /\ id_gateways d5 = id_gateways d /\ id_domains d5 = id_domains d /\ provision_inbox aid t b d4 = Ok d5.
Proof.
  intros W. unfold CreateAgentMailbox. cbv zeta. set (limit := if max <=? 0 then 2 else max). clearbody limit. case_goal; [by left; eexists|].
  destruct (String.eqb_spec (trim_space space) EmptyString) as [|Hsp]; [by left; eexists|].
  destruct (id_principals d !! owner) as [p|] eqn:Ep; [|by left; eexists]. destruct (pc_tenant p =? t) eqn:Et; cbn [negb]; [|by left; eexists]. apply Z.eqb_eq in Et.
  destruct (match id_accounts d !! source with Some _ => _ | None => _ end) as [[k x]|] eqn:Es; [|by left; eexists].
  destruct (if String.eqb (ToLower (trim_space dom)) EmptyString then _ else _) as [[domID domName]|] eqn:Ed; [|by left; eexists].
  destruct (limit <=? _) eqn:El; [by left; eexists|]. apply Z.leb_gt in El.
  destruct (insert_principal _ _ _) as [[pid d1]|e] eqn:E1; [|left; destruct e; by eexists].
  destruct (insert_account _ _ _ _ _ _) as [[aid d2]|e] eqn:E2; [|left; destruct e; by eexists].
  destruct (insert_address _ _ _ _ _ _) as [[xid d3]|e] eqn:E3; [|left; destruct e; by eexists].
  destruct (negb (text_ok (trim_space space))); [by left; eexists|]. destruct (provision_inbox _ _ _ _) as [d5|e] eqn:E5; [|by left; eexists]. right.
  assert (Hdom : exists row, id_domains d !! domID = Some row /\ dm_tenant row = t /\ domName = dm_domain row).
  { destruct (id_accounts d !! source) as [a|]; [|done]. destruct ((aw_tenant a =? t) && _); [|done].
    apply primary_address_Some in Es as [_ (_ & _ & _ & Hs & _)%is_primary_spec]. revert Ed. case_goal.
    - intros (y & Hy & [= -> ->])%fmap_Some. unfold dtenant in Hs. rewrite Hy in Hs. injection Hs as Hs. by exists y.
    - intros ([j y] & Hy & [= -> ->])%fmap_Some. apply first_row_Some in Hy as [Hy Hc]. simpl in Hc. b2p. by exists y. }
  destruct Hdom as (row & Hrow & Htr & ->).
  assert (Hdt : dtenant d domID = Some t) by (unfold dtenant; rewrite Hrow; simpl; congruence).
  destruct (good_new_account now t _ (Some owner) _ domID _ d pid d1 aid d2 xid d3 E1 E2 E3 Hdt) as (_ & X3 & Ha & Hn & Hr & Hx); [|done|].
  { intros o [= <-]. unfold ptenant. rewrite Ep. simpl. congruence. }
  destruct (inserted_rows _ _ _ _ _ _ _ _ _ _ _ _ _ _ _ E1 E2 E3) as (Hpr & Hdoms & Hgates).
  match type of E5 with provision_inbox _ _ _ ?e = _ => set (d4 := e) in E5 end.
  pose proof (provision_inbox_kernel _ _ _ _ _ E5) as [kdb Hk].
  exists aid, pid, xid, domID, row, d4, d5. cbv zeta. split; [reflexivity|]. split; [exact El|]. split; [exact Hn|]. split; [exact Hrow|].
  split; [exact Htr|]. split; [exact Hsp|].
  assert (Hsame : id_accounts d5 = id_accounts d3 /\ id_principals d5 = id_principals d3 /\ id_addresses d5 = id_addresses d3
    /\ id_registrations d5 = <[aid := mkReg t owner (trim_space space)]> (id_registrations d3) /\ id_gateways d5 = id_gateways d3 /\ id_domains d5 = id_domains d3)
    by (rewrite Hk; done).
  destruct Hsame as (-> & -> & -> & -> & -> & ->). rewrite Hr, Hdoms, Hgates. by split_and!.
Qed.

Section Limit.
Variables (tenant owner : Z) (space : string) (limit : Z).

(** The events whose count is below: no operator moves a gateway, and the owner's mailboxes
    in the Space are created with at most this limit (2 unless configured). *)
Definition within (e : event) : Prop :=
  match e with
  | ECreateMailbox t _ _ o _ sp _ _ m _ => t = tenant -> o = owner -> trim_space sp = space -> (if m <=? 0 then 2 else m) <= limit
  | EAdminGateway _ _ _ _ => False
  | _ => True
  end.

Lemma gateway_default_kept d d' i : id_wf d -> (forall j g, id_gateways d !! j = Some g -> j < id_next d -> id_gateways d' !! j = Some g) ->
  gateway_default d' i tenant owner space = false -> gateway_default d i tenant owner space = false.
Proof.
  intros W Hg Hf. destruct (gateway_default d i tenant owner space) eqn:Eg; [|done]. unfold gateway_default in *.
  apply exists_row_spec in Eg as (j & g & Hj & Hp). rewrite exists_row_false in Hf. rewrite <- Hp. apply (Hf j g). apply Hg; [done|by eapply (f_gateways _ W)].
Qed.

(** A mailbox that counts afterwards counted before, if its registration is that old. *)
Lemma counted_before d d' i a : id_wf d -> id_ext d d' -> (forall j g, id_gateways d !! j = Some g -> j < id_next d -> id_gateways d' !! j = Some g) ->
  id_accounts d' !! i = Some a -> counted tenant d' owner space i a = true -> id_registrations d !! i = Some (mkReg tenant owner space) ->
  exists a0, id_accounts d !! i = Some a0 /\ counted tenant d owner space i a0 = true.
Proof.
  intros W E Hg Ha Hc Hr. destruct (counted_true _ _ _ _ _ _ Hc Ha) as (_ & _ & Hd & _ & Hgd).
  destruct (w_registrations _ W _ _ Hr) as (a0 & Ha0 & Ht0 & Ho0). simpl in *. exists a0. split; [done|].
  destruct (x_accounts _ _ E _ _ Ha0) as (a1 & Ha1 & _ & _ & _ & _ & Hdis). assert (a1 = a) as -> by congruence.
  apply counted_intro; try done; [|by eapply gateway_default_kept]. destruct (aw_disabled a0); [|done]. rewrite Hdis in Hd; done.
Qed.

Lemma count_step e d : id_wf d -> within e -> registered_count tenant d owner space <= limit -> registered_count tenant (step e d) owner space <= limit.
Proof.
  intros W Hw Hle. destruct (good_step e d W) as [W' E]. pose proof (quiet_step e d) as Q. unfold registered_count in *.
  assert (Hgate : forall j g, id_gateways d !! j = Some g -> j < id_next d -> id_gateways (step e d) !! j = Some g).
  { intros j g. apply (q_gateways _ _ _ _ _ _ Q). by destruct e. }
  destruct (keeps_registrations e) eqn:Ek.
  - assert (Hb : forall i a, id_accounts (step e d) !! i = Some a -> counted tenant (step e d) owner space i a = true ->
      (exists a0, id_accounts d !! i = Some a0 /\ counted tenant d owner space i a0 = true) \/ i ∈ []).
    { intros i a Ha Hc. left. eapply counted_before; eauto. destruct (counted_true _ _ _ _ _ _ Hc Ha) as (_ & _ & _ & Hr & _).
      by rewrite (q_registrations _ _ _ _ _ _ Q eq_refl) in Hr. }
    apply select_le in Hb. simpl in Hb. lia.
  - destruct e as [| | | |t now co o source sp lp dom m b| | | | | | | | | | | | | |]; try done. cbn [step] in *.
    destruct (create_cases t now co o source sp lp dom m b d W) as [[er He]|(aid & pid & xid & domID & row & d4 & d5 & He & Hlt & _ & _ & _ & _ & _ & _ & _ & Hreg & _)];
      [by rewrite He|].
    rewrite He in E, Hgate |- *. assert (Hd5 : (commit_tx co (aid, (ToLower (trim_space lp) ++ "@" ++ dm_domain row)%string) d d5).2 = d
      \/ (commit_tx co (aid, (ToLower (trim_space lp) ++ "@" ++ dm_domain row)%string) d d5).2 = d5) by (destruct co as [|[]]; auto).
    destruct Hd5 as [->|Hd5]; [done|]. rewrite Hd5 in *. simpl in Hw.
    assert (Hb : forall i a, id_accounts d5 !! i = Some a -> counted tenant d5 owner space i a = true ->
      (exists a0, id_accounts d !! i = Some a0 /\ counted tenant d owner space i a0 = true)
      \/ i ∈ (if bool_decide (t = tenant /\ o = owner /\ trim_space sp = space) then [aid] else [])).
    { intros i a Ha Hc. destruct (counted_true _ _ _ _ _ _ Hc Ha) as (_ & _ & _ & Hr & _). rewrite Hreg, lookup_insert_Some in Hr.
      destruct Hr as [[<- [= -> -> ->]]|[_ Hr]]; [right; rewrite bool_decide_eq_true_2 by done; by left|left; by eapply counted_before]. }
    apply select_le in Hb. case_bool_decide as Hsame; simpl in Hb; [|lia].
    destruct Hsame as (-> & -> & <-). specialize (Hw eq_refl eq_refl eq_refl). unfold registered_count in Hlt. lia.
Qed.

(** An owner never has more mailboxes in a Space than the limit they are created with. *)
Theorem mailbox_limit k es : 0 <= limit -> Forall within es -> registered_count tenant (run es (start k)) owner space <= limit.
Proof.
  intros H0' Hes. assert (G : forall d, id_wf d -> registered_count tenant d owner space <= limit -> registered_count tenant (run es d) owner space <= limit).
  { induction Hes as [|e es He _ IH]; intros d W Hd; [done|]. simpl. apply IH; [by apply good_step|by apply count_step]. }
  apply G; [apply start_wf|]. done.
Qed.
End Limit.
End Access.

(** ** Witnesses *)

Lemma demo_use : AuthenticateAgentCredential demo_token (run demo_exchanged (start demo_db)) = Ok (1, mkPrincipalRef 6 1 "helper@example.org", 7, 10).
Proof. vm_compute. reflexivity. Qed.

Lemma tenant_isolation_witness : opened (run demo_exchanged (start demo_db)) 1 7 /\ atenant (run demo_exchanged (start demo_db)) 7 = Some 1.
Proof.
  assert (Ho : opened (run demo_exchanged (start demo_db)) 1 7) by (eapply opened_agent; apply demo_use). split; [exact Ho|].
  apply (proj2 (tenant_isolation demo_db demo_exchanged 1 (mkPrincipalRef 6 1 "helper@example.org") 7)). exact Ho.
Defined.

Lemma agent_access_approved_witness : exists es1 now1 co1 owner space code mode es2 now2 co2 random device verifier es3 r prefix secret presented,
  demo_exchanged = es1 ++ EApprove now1 co1 owner space code 7 mode :: es2 ++ EExchange now2 co2 random device verifier :: es3
  /\ agent_mailbox (run es1 (start demo_db)) 7 owner (trim_space space) <> None
  /\ id_requests (run es1 (start demo_db)) !! sha256 (bytes_of device) = Some r
  /\ rq_user_code r = normalizeUserCode code /\ rq_space r = trim_space space /\ rq_challenge r = RawURL_Encode (sha256 (bytes_of verifier))
  /\ newAPIKeyToken random = Some (prefix, secret)
  /\ parseAgentCredential demo_token = Some (prefix, presented) /\ sha256 (bytes_of presented) = sha256 (bytes_of secret).
Proof. eapply (agent_access_approved demo_db demo_exchanged). apply demo_use. Defined.

Definition demo_live : IDB := run demo_exchanged (start demo_db).
Definition demo_revoked : IDB := (RevokeAgentBinding CommitOk 5 7 "team" demo_live).2.
Definition demo_again : list event :=
  [ERequest 50 (Some (bytes_rnd "e" 32)) (fun _ => Some (bytes_rnd "v" 8)) (mkAuthInput "bot" "" "client" "team" (RawURL_Encode (sha256 (bytes_of demo_verifier))));
   EApprove 60 CommitOk 5 "team" "YYYY-YYYY" 7 AutomaticSend; EExchange 70 CommitOk demo_random (device_of (bytes_rnd "e" 32)) demo_verifier].
(** The binding is revoked and made anew, with the same random bytes: what authenticates
    then is the new credential. *)
Lemma revocation_final_witness : cut demo_live 7 demo_revoked
  /\ AuthenticateAgentCredential demo_token (run demo_again demo_revoked) = Ok (1, mkPrincipalRef 6 1 "helper@example.org", 7, 12)
  /\ id_creds demo_live !! 12 = None.
Proof.
  assert (Hc : cut demo_live 7 demo_revoked).
  { apply (cut_revoke _ _ CommitOk 5 "team"). unfold demo_revoked. 
    destruct (RevokeAgentBinding CommitOk 5 7 "team" demo_live) as [[[]|e] d] eqn:E; [done|]. exfalso.
    assert (Hv : (RevokeAgentBinding CommitOk 5 7 "team" demo_live).1 = Ok tt) by (vm_compute; reflexivity). rewrite E in Hv. done. }
  assert (Ha : AuthenticateAgentCredential demo_token (run demo_again demo_revoked) = Ok (1, mkPrincipalRef 6 1 "helper@example.org", 7, 12)) by (vm_compute; reflexivity).
  split; [exact Hc|]. split; [exact Ha|].
  exact (revocation_final demo_live 7 demo_revoked demo_again demo_token 1 (mkPrincipalRef 6 1 "helper@example.org") 12 (reached_wf demo_db demo_exchanged) Hc Ha).
Defined.

Definition demo_ready : IDB := run demo_approved (start demo_db).
Definition demo_credential : AgentAuthorizationCredential := mkAuthCredential demo_token "helper@example.org" "bot" "" AutomaticSend.
Lemma demo_exchange : (ExchangeAgentAuthorization 40 CommitOk demo_random demo_device demo_verifier demo_ready).1 = Ok demo_credential.
Proof. vm_compute. reflexivity. Qed.
Lemma exchanged_once_witness : exists e,
  ExchangeAgentAuthorization 80 CommitOk demo_random demo_device demo_verifier
    (run demo_again (ExchangeAgentAuthorization 40 CommitOk demo_random demo_device demo_verifier demo_ready).2)
  = (Err e, run demo_again (ExchangeAgentAuthorization 40 CommitOk demo_random demo_device demo_verifier demo_ready).2).
Proof.
  apply (exchanged_once 40 CommitOk demo_random demo_device demo_verifier demo_credential demo_ready).
  - rewrite <- demo_exchange. apply surjective_pairing.
  - repeat apply Forall_cons_2; [vm_compute; discriminate|by intros []|by intros []|by apply Forall_nil_2].
Defined.

Lemma mailbox_limit_witness : registered_count 1 (run demo_setup (start demo_db)) 5 "team" = 1
  /\ registered_count 1 (run demo_setup (start demo_db)) 5 "team" <= 2.
Proof.
  split; [vm_compute; reflexivity|]. apply (mailbox_limit 1 5 "team" 2 demo_db demo_setup); [lia|].
  unfold demo_setup. repeat (apply Forall_cons_2; [cbn; intros; lia||done|]). by apply Forall_nil_2.
Defined.
