(* ===== verification/DirectorySpec.v ===== *)
(** * Mailboxes, gateways and credentials do what their callers rely on

    A created mailbox receives mail and is its owner's; provisioning a gateway identity
    twice is provisioning it once; a gateway assertion is accepted once; passwords and
    keys verify. *)

From S2P Require Import Prelude GoStrings Shapes Changes Blob Database Tx Mailboxes KernelDemo Headers Smtp Base64 RuleMetadata Auth Identity Directory AgentAuth Gateway IdentityInv IdentitySteps AccessSpec.

Local Open Scope go_scope.

Section Directory.
Context `{BlobOps} `{Unicode} `{PasswordHash} `{Sha256} `{AddressParser} `{DomainName} `{UnicodeUpper}.

(** ** The Inbox *)

Definition has_inbox (acc : Z) (k : DB) : Prop := exists i mb, db_mailboxes k !! i = Some mb /\ live_named acc "Inbox" mb = true.
Lemma flush_inbox a acc pt : has_inbox acc (pt_db pt) -> wp (flush a) pt (fun _ pt' => has_inbox acc (pt_db pt')).
Proof.
  intros Hi. unfold flush. apply wp_bind, wp_get. case_goal; [by apply wp_ret|]. apply wp_bind.
  apply (wp_iter (fun _ pt' => has_inbox acc (pt_db pt'))); [done| |].
  - intros e l pt' Hp. apply wp_exec. intros d' _ Hd. unfold insert_changelog in Hd.
    destruct (db_accounts _ !! _); [|done]. destruct (negb (jsonb_ok _)); [done|]. destruct (db_changelog _ !! _); [done|]. by injection Hd as <-.
  - intros pt' Hp. apply wp_exec. by intros d' _ [= <-].
Qed.
Lemma provision_inbox_has acc t b d d' : provision_inbox acc t b d = Ok d' -> has_inbox acc (id_kernel d').
Proof.
  unfold provision_inbox. cbv zeta. set (pt0 := mkTx _ _ _ _ _ _).
  assert (Hwp : wp (mbind_st (ensureMailbox (mkAccount acc t) "Inbox" true no_special_use) (fun _ => flush (mkAccount acc t))) pt0 (fun _ pt => has_inbox acc (pt_db pt))).
  { apply wp_bind. unfold ensureMailbox. apply wp_bind. unfold findMailbox. apply wp_read. intros found Hf.
    destruct (negb (text_ok "Inbox")); [done|]. destruct (mailboxes_where _ (pt_db pt0)) as [|b0 l] eqn:El.
    - injection Hf as <-. apply wp_bind. unfold nextUIDValidity. apply wp_returning. intros uv d1 _ _. apply wp_bind, wp_next. intros pt1 Hp1 _ _ _.
      apply wp_bind, wp_returning. intros id d2 _ Hi. assert (Hin : has_inbox acc d2).
      { unfold insert_mailbox in Hi. repeat case_hyp Hi; try done. injection Hi as <- <-. eexists _, _. split; [apply lookup_insert_eq|].
        unfold live_named. simpl. by rewrite Z.eqb_refl. }
      apply wp_bind, wp_record. intros pt2 Hp2 _ _ _. apply wp_bind, wp_record. intros pt3 Hp3 _ _ _. apply wp_ret, flush_inbox. by rewrite Hp3, Hp2.
    - assert (Hb : b0 ∈ mailboxes_where (live_named acc "Inbox") (pt_db pt0)) by (change acc with (acc_id (mkAccount acc t)); rewrite El; left).
      apply elem_mailboxes_where in Hb as [Hl [i Hi]]. destruct (scanMailbox b0) as [mb|]; [|done]. injection Hf as <-. apply wp_ret.
      apply flush_inbox. by exists i, b0. }
  destruct (mbind_st _ _ pt0) as [[u|e] pt] eqn:E; [|done]. intros [= <-]. simpl. unfold wp in Hwp. by rewrite E in Hwp.
Qed.

(** ** Single rows *)

Lemma first_row_unique {V} (p : Z -> V -> bool) (t : gmap Z V) k v : t !! k = Some v -> p k v = true ->
  (forall j w, t !! j = Some w -> p j w = true -> j = k) -> first_row p t = Some (k, v).
Proof.
  intros Hk Hp Hu. destruct (first_row p t) as [[j w]|] eqn:E.
  - apply first_row_Some in E as [Hj Hw]. pose proof (Hu j w Hj Hw) as ->. congruence.
  - pose proof (first_row_None p t E k v Hk). congruence.
Qed.
Lemma login_row d i p : id_wf d -> id_principals d !! i = Some p -> principal_of_login d (pc_login p) = Some (i, p).
Proof.
  intros W Hi. apply first_row_unique; [done|apply String.eqb_refl|]. intros j q Hj Hq. apply String.eqb_eq in Hq. by eapply (u_login _ W j i q p).
Qed.

(** The account of an enabled address. *)
Lemma resolved d i x row a : id_wf d -> id_addresses d !! i = Some x -> id_domains d !! dr_domain x = Some row -> dm_disabled row = false ->
  id_accounts d !! dr_account x = Some a -> aw_disabled a = false ->
  ResolveInbound (dr_localpart x) (dm_domain row) d = Ok (mkAccount (dr_account x) (dr_tenant x), dr_alias x).
Proof.
  intros W Hx Hr Hd Ha Hda. unfold ResolveInbound. destruct (w_addresses _ W _ _ Hx) as [_ Ht]. unfold atenant in Ht. rewrite Ha in Ht. injection Ht as Ht.
  erewrite (first_row_unique _ _ i x); [done|done| |].
  - simpl. rewrite Hr, Ha, Hd, Hda, Ht. by rewrite !String.eqb_refl, Z.eqb_refl.
  - intros j y Hj Hc. destruct (id_domains d !! dr_domain y) as [row'|] eqn:Ey; [|by rewrite andb_false_r in Hc]. b2p.
    repeat match goal with Hs : String.eqb _ _ = true |- _ => apply String.eqb_eq in Hs end.
    eapply (u_address _ W j i y x); eauto. simpl. f_equal; [|congruence]. by eapply (u_domain _ W _ _ row' row).
Qed.

(** A created mailbox is a new account with the address that was asked for: the owner's
    agent mailbox in the Space, with an Inbox, reached by mail to the address; nobody can
    log in to it with a password. *)
Theorem mailbox_created t now co owner source space lp dom max b d aid address d' : id_wf d ->
  CreateAgentMailbox t now co owner source space lp dom max b d = (Ok (aid, address), d') ->
  exists domID row, id_domains d !! domID = Some row /\ dm_tenant row = t /\ address = (ToLower (trim_space lp) ++ "@" ++ dm_domain row)%string
    /\ id_accounts d !! aid = None
    /\ agent_mailbox d' aid owner (trim_space space) <> None
    /\ has_inbox aid (id_kernel d')
    /\ (dm_disabled row = false -> ResolveInbound (ToLower (trim_space lp)) (dm_domain row) d' = Ok (mkAccount aid t, false))
    /\ (forall password, AuthenticatePrincipal address (PasswordCredential password) d' = Err authentication_failed).
Proof.
  intros W Hc. destruct (create_cases t now co owner source space lp dom max b d W) as [[e He]|(aid' & pid & xid & domID & row & d4 & d5 & He & _ & Hn & Hrow & Ht & Hsp & Hacc & Hp & Hx & Hr & Hg & Hd & Hin)];
    [congruence|].
  pose proof (good_CreateAgentMailbox t now co owner source space lp dom max b d W) as [W' _]. rewrite Hc in W'. simpl in W'.
  rewrite He in Hc. destruct co as [|applied]; [|done]. simpl in Hc. injection Hc as <- <- <-.
  exists domID, row. split; [done|]. split; [done|]. split; [done|]. split.
  { destruct (id_accounts d !! aid') as [z|] eqn:Ez; [|done]. apply (f_accounts _ W) in Ez. lia. }
  assert (Hgd : gateway_default d5 aid' t owner (trim_space space) = false).
  { apply exists_row_false. intros j g Hj. rewrite Hg in Hj. destruct (w_gateways _ W _ _ Hj) as (z & Hz & _). apply (f_accounts _ W) in Hz.
    destruct (Z.eqb_spec (gw_default g) aid'); [lia|done]. }
  split. { unfold agent_mailbox, registered. rewrite Hacc. cbn [aw_owner aw_disabled aw_tenant opt_eqb negb]. rewrite Hr, lookup_insert_eq, Hgd. simpl.
    by rewrite !Z.eqb_refl, String.eqb_refl. }
  split; [by eapply provision_inbox_has|]. split.
  - intros Hdis. rewrite <- Hd in Hrow. exact (resolved d5 xid _ row _ W' Hx Hrow Hdis Hacc eq_refl).
  - intros password. unfold AuthenticatePrincipal. pose proof (login_row d5 pid _ W' Hp) as Hl. cbn [pc_login] in Hl. by rewrite Hl.
Qed.

(** ** Passwords and keys *)

(** A password that was set opens its login, the SCRAM verifier of the login is the one
    of the password, and a password with another argon2id key is refused. *)
Theorem password_opens login password salt scramSalt d d' : id_wf d -> SetPassword login password (Some salt) scramSalt d = (Ok tt, d') ->
  (exists t id, AuthenticatePrincipal login (PasswordCredential password) d' = Ok (t, mkPrincipalRef id t login))
  /\ (exists salted, SaltPassword password scramSalt scramIterations = Some salted /\ LookupSCRAM login d' = Ok (scramSalt, salted, scramIterations))
  /\ (forall other, IDKey other salt a2Time a2Memory a2Threads a2KeyLen <> IDKey password salt a2Time a2Memory a2Threads a2KeyLen ->
      AuthenticatePrincipal login (PasswordCredential other) d' = Err authentication_failed).
Proof.
  intros W Hs. pose proof (good_SetPassword login password (Some salt) scramSalt d W) as [W' _]. rewrite Hs in W'. simpl in W'. unfold SetPassword, HashPassword in Hs.
  destruct (String.eqb password EmptyString); [done|]. cbv zeta in Hs. destruct (SaltPassword password scramSalt scramIterations) as [salted|] eqn:Esalt; [|done].
  destruct (principal_of_login d login) as [[id p]|] eqn:Ep; [|done]. injection Hs as <-. apply first_row_Some in Ep as [Ep Hl]. apply String.eqb_eq in Hl.
  set (p' := mkPrincipal _ _ _) in W' |- *.
  pose proof (login_row _ id p' W' (lookup_insert_eq _ _ _)) as Hrow. change (pc_login p') with (pc_login p) in Hrow. rewrite Hl in Hrow.
  destruct (w_principals _ W _ _ Ep) as [tn Htn].
  assert (Hv : forall other, Verify (pc_cred p') other = bool_decide (IDKey other salt a2Time a2Memory a2Threads a2KeyLen = IDKey password salt a2Time a2Memory a2Threads a2KeyLen)).
  { intros other. unfold Verify. cbn -[Std_Decode Std_Encode]. by rewrite !Std_roundtrip. }
  split; [|split].
  - exists (pc_tenant p), id. unfold AuthenticatePrincipal. rewrite Hrow, Hv, bool_decide_eq_true_2 by done. cbn [negb]. unfold tenantScope.
    cbn [id_set_principals id_tenants pc_tenant p']. rewrite Htn. simpl. by rewrite Hl.
  - exists salted. split; [done|]. unfold LookupSCRAM. rewrite Hrow. unfold SCRAMVerifier. cbn -[Std_Decode Std_Encode]. by rewrite !Std_roundtrip.
  - intros other Hne. unfold AuthenticatePrincipal. rewrite Hrow, Hv, bool_decide_eq_false_2 by done. done.
Qed.

Lemma base32_some l : l <> [] -> base32_lower l <> EmptyString.
Proof.
  destruct l as [|[b0 b1 b2 b3 b4 b5 b6 b7] l]; [done|]. intros _ He. apply (f_equal bytes_of) in He. unfold base32_lower in He. cbv zeta in He.
  rewrite bytes_of_str_of in He. cbn [fmap list_fmap concat byte_bits app length base32_bits] in He. done.
Qed.

(** A key that was issued opens the account it was issued for, as long as its prefix is
    its own among the live keys. *)
Theorem api_key_opens login name r1 r2 d token d' : id_wf d -> r1 <> [] ->
  (forall i k, id_keys d !! i = Some k -> ak_revoked k = false -> ak_prefix k <> base32_lower r1) ->
  IssueAPIKey login name (Some (r1, r2)) d = (Ok token, d') ->
  exists t id a address, AuthenticateAPIKey token d' = Ok (t, mkPrincipalRef id t login, a)
    /\ atenant d' a = Some t /\ ParseAddress login = Some address /\ IssueAPIKey_account t address d = Some a.
Proof.
  intros W Hr1 Hfresh Hi. pose proof (good_IssueAPIKey login name (Some (r1, r2)) d W) as [W' _]. rewrite Hi in W'. simpl in W'. revert Hi. unfold IssueAPIKey.
  generalize (if String.eqb name EmptyString then "api key"%string else name) as label. intros label. cbv zeta.
  destruct (principal_of_login d login) as [[id p]|] eqn:Ep; [|done]. destruct (ParseAddress login) as [address|] eqn:Epa; [|done].
  destruct (IssueAPIKey_account (pc_tenant p) address d) as [a|] eqn:Ea; [|done]. cbn [newAPIKeyToken fmap option_fmap option_map fst snd].
  destruct (HashAPIKey (base32_lower r2)) as [cred|] eqn:Eh; [|done]. destruct (negb (text_ok label)); [done|]. intros [= <- <-].
  apply first_row_Some in Ep as [Ep Hl]. pose proof Hl as Hl'. apply String.eqb_eq in Hl'. destruct (w_principals _ W _ _ Ep) as [tn Htn].
  exists (pc_tenant p), id, a, address.
  assert (Hsec : base32_lower r2 <> EmptyString) by (unfold HashAPIKey in Eh; destruct (String.eqb_spec (base32_lower r2) EmptyString); done).
  set (key := mkApiKey (pc_tenant p) a login label (base32_lower r1) cred false) in W' |- *.
  split; [|split; [|by split]].
  - unfold AuthenticateAPIKey, parseAPIKeyToken. rewrite (parse_token_made "omk_"); [|apply base32_clean|by apply base32_some|done].
    cbn [id_bump id_set_keys id_keys id_principals].
    rewrite (first_row_unique _ _ (id_next d) key); [|apply lookup_insert_eq|simpl; by rewrite String.eqb_refl|].
    2:{ intros j k Hj Hk. row Hj; [done|]. b2p. exfalso. eapply (Hfresh j k); [done|done|]. by apply String.eqb_eq. }
    assert (Hv : VerifyAPIKey (ak_cred key) (base32_lower r2) = true) by by apply (verify_issued (base32_lower r2) cred Eh).
    rewrite Hv. cbn [negb]. unfold tenantScope.
    change (id_tenants _ !! ak_tenant key) with (id_tenants d !! pc_tenant p). rewrite Htn. cbn [rbind].
    rewrite (first_row_unique _ _ id p); [done|done|simpl; by rewrite Z.eqb_refl, Hl|].
    intros j q Hj Hq. b2p. simpl in *. eapply (u_login _ W j id q p); try done. by match goal with Hs : String.eqb _ _ = true |- _ => apply String.eqb_eq in Hs; congruence end.
  - exact (w_keys _ W' _ _ (lookup_insert_eq _ _ _)).
Qed.

(** ** Assertions *)

Definition nonce_call : Type := string * string * Z * Z.
Definition consume (c : nonce_call) (d : IDB) : result unit * IDB := let '(issuer, nonce, e, now) := c in ConsumeGatewayAssertionNonce issuer nonce e now d.
Definition consumes (l : list nonce_call) (d : IDB) : IDB := foldl (fun d c => (consume c d).2) d l.

Lemma nonce_kept issuer nonce e0 i n e now d : id_nonces d !! (issuer, nonce) = Some e0 -> now - gatewayAssertionNonceRetention < e0 ->
  id_nonces (ConsumeGatewayAssertionNonce i n e now d).2 !! (issuer, nonce) = Some e0.
Proof.
  intros Hk Hn. unfold ConsumeGatewayAssertionNonce. cbv zeta. case_goal; [done|]. case_goal; [done|].
  assert (Hf : filter (fun x : string * string * Z => now - gatewayAssertionNonceRetention < x.2) (id_nonces d) !! (issuer, nonce) = Some e0)
    by by apply map_lookup_filter_Some.
  destruct (id_nonces d !! (trim_space i, trim_space n)) as [e1|] eqn:E1; simpl; [done|].
  rewrite lookup_insert_ne; [done|]. intros He. rewrite He in E1. congruence.
Qed.

(** An assertion is accepted once, on whatever node and however its issuer and nonce are
    spelled: between the two uses any nonces are consumed by nodes whose clocks are at
    most five minutes ahead of the second. *)
Theorem assertion_once issuer nonce issuer' nonce' e now now' d d1 l :
  ConsumeGatewayAssertionNonce issuer nonce e now d = (Ok tt, d1) ->
  trim_space issuer' = trim_space issuer -> trim_space nonce' = trim_space nonce ->
  Forall (fun c : nonce_call => c.2 <= now' + gatewayAssertionNonceRetention) l ->
  exists err, (ConsumeGatewayAssertionNonce issuer' nonce' e now' (consumes l d1)).1 = Err err.
Proof.
  intros Hc Hi Hn Hl. unfold ConsumeGatewayAssertionNonce. cbv zeta. rewrite Hi, Hn.
  destruct (String.eqb (trim_space issuer) EmptyString || _ || _ || (e <=? now')) eqn:Eg; [by eexists|]. case_goal; [by eexists|].
  assert (Hrow : id_nonces d1 !! (trim_space issuer, trim_space nonce) = Some e).
  { unfold ConsumeGatewayAssertionNonce in Hc. cbv zeta in Hc. destruct (String.eqb _ _ || _ || _ || _); [done|]. destruct (negb _); [done|].
    destruct (id_nonces d !! _) eqn:E; [done|]. injection Hc as <-. apply lookup_insert_eq. }
  assert (Hlt : now' < e) by (b2p; lia). clear Hc Eg.
  assert (Hkept : id_nonces (consumes l d1) !! (trim_space issuer, trim_space nonce) = Some e).
  { revert d1 Hrow. induction Hl as [|[[[i n] e1] now1] l Hle _ IH]; intros d1 Hrow; [done|]. apply IH. apply nonce_kept; [done|]. simpl in Hle. lia. }
  rewrite Hkept. by eexists.
Qed.

(** ** Provisioning *)

Lemma gateway_row d i g : id_wf d -> id_gateways d !! i = Some g -> gateway_at (gw_issuer g) (gw_subject g) (gw_space g) d = Some (i, g).
Proof.
  intros W Hi. apply first_row_unique; [done|by rewrite !String.eqb_refl|]. intros j h Hj Hc. b2p.
  repeat match goal with Hs : String.eqb _ _ = true |- _ => apply String.eqb_eq in Hs end. eapply (u_gateway _ W j i h g); try done. simpl. congruence.
Qed.

(** The trigger of a new gateway touches bindings and credentials only. *)
Lemma insert_gateway_Ok g d d' : insert_gateway g d = Ok d' ->
  id_gateways d' = <[id_next d := g]> (id_gateways d) /\ id_accounts d' = id_accounts d /\ id_addresses d' = id_addresses d /\ id_domains d' = id_domains d.
Proof.
  unfold insert_gateway, revoke_gateway_default_agent_bindings. case_goal; [done|]. case_goal; [done|]. intros [= <-]. by destruct (gw_disabled g).
Qed.

(** The tables after the inserts of a new account with an address. *)
Lemma new_account_provisioned d t issuer subject space pid aid domID row name now lp d1 d2 xid d3 d4 d5 login k :
  id_wf d -> id_wf d5 -> insert_principal t login d = Ok (pid, d1) -> insert_account now t (Some pid) (Some pid) name d1 = Ok (aid, d2) ->
  insert_address t domID aid lp false d2 = Ok (xid, d3) -> d4 = id_set_kernel k d3 -> insert_gateway (mkGateway issuer subject space t pid aid false) d4 = Ok d5 ->
  id_domains d !! domID = Some row -> dm_tenant row = t ->
  gatewayProvisioningIdentity issuer subject space d5 = Ok (Some (mkGatewayResult t pid aid (lp ++ "@" ++ dm_domain row) false)).
Proof.
  intros W W5 [-> ->]%insert_principal_Ok [-> [k2 ->]]%insert_account_Ok [-> ->]%insert_address_Ok -> (Hg & Ha & Hx & Hd)%insert_gateway_Ok Hrow Htr.
  cbn [id_bump id_set_addresses id_set_kernel id_set_accounts id_set_principals id_gateways id_accounts id_addresses id_domains id_next] in Hg, Ha, Hx, Hd.
  unfold gatewayProvisioningIdentity. pose proof (gateway_row d5 _ _ W5 ltac:(rewrite Hg; apply lookup_insert_eq)) as Hgr. cbn [gw_issuer gw_subject gw_space] in Hgr.
  rewrite Hgr. cbv zeta. cbn [gw_default gw_tenant gw_owner gw_disabled]. rewrite Ha, lookup_insert_eq. cbn [aw_tenant aw_owner aw_disabled opt_eqb]. rewrite !Z.eqb_refl. cbn [andb].
  rewrite (first_row_unique _ _ (id_next d + 1 + 1) (mkAddr t domID (id_next d + 1) lp false)).
  - cbn [dr_domain dr_localpart]. rewrite Hd, Hrow, Htr, Z.eqb_refl. cbn [orb].
    destruct (String.eqb_spec (lp ++ "@" ++ dm_domain row)%string EmptyString) as [He|]; [|done]. exfalso. apply (f_equal String.length) in He.
    rewrite !string_length_app in He. simpl in He. lia.
  - rewrite Hx. apply lookup_insert_eq.
  - simpl. by rewrite !Z.eqb_refl.
  - intros j y Hj Hc. rewrite Hx in Hj. row Hj; [done|]. b2p. exfalso. destruct (w_addresses _ W _ _ Hj) as [_ Hat].
    unfold atenant in Hat. apply fmap_Some in Hat as (z & Hz & _). apply (f_accounts _ W) in Hz. lia.
Qed.

Section Ensure.
Variables (now : Z) (co : outcome) (wait : IDB -> IDB) (b : blob_state) (input : GatewayProvisioningInput).
Let Issuer := trim_space (gi_Issuer input).
Let Subject := trim_space (gi_Subject input).
Let SpaceID := trim_space (gi_SpaceID input).

(** A result is the identity that is there, or that this request made. *)
Lemma ensure_Ok d r d' : id_wf d -> good d (wait d) -> EnsureGatewayIdentity now co wait b input d = (Ok r, d') ->
  id_wf d' /\ exists created, gatewayProvisioningIdentity Issuer Subject SpaceID d' = Ok (Some (mkGatewayResult (gr_TenantID r) (gr_PrincipalID r) (gr_DefaultAccountID r) (gr_Address r) created))
    /\ created = false
    /\ (String.eqb Issuer EmptyString || String.eqb Subject EmptyString || String.eqb SpaceID EmptyString
        || (200 <? String.length Issuer)%nat || (300 <? String.length Subject)%nat || (300 <? String.length SpaceID)%nat) = false.
Proof.
  intros W Gw Hx. split; [by pose proof (good_Ensure now co wait b input d Gw W) as [W' _]; rewrite Hx in W'|].
  assert (W5 : id_wf d') by (pose proof (good_Ensure now co wait b input d Gw W) as [W' _]; by rewrite Hx in W').
  exists false. unfold EnsureGatewayIdentity in Hx. cbv zeta in Hx. fold Issuer Subject SpaceID in Hx.
  assert (Hex : forall e r0, gatewayProvisioningIdentity Issuer Subject SpaceID e = Ok (Some r0) -> gr_Created r0 = false).
  { intros e r0. unfold gatewayProvisioningIdentity. destruct (gateway_at _ _ _ e) as [[j g]|]; [|done]. cbv zeta. case_goal; [done|].
    match goal with |- context [if ?c then Err ErrGatewayProvisioningConflict else _] => destruct c end; [done|]. by intros [= <-]. }
  destruct (String.eqb Issuer EmptyString || _ || _ || _ || _ || _) eqn:Eg; [done|].
  assert (Hfound : forall e r0, gatewayProvisioningIdentity Issuer Subject SpaceID e = Ok (Some r0) ->
    gatewayProvisioningIdentity Issuer Subject SpaceID e = Ok (Some (mkGatewayResult (gr_TenantID r0) (gr_PrincipalID r0) (gr_DefaultAccountID r0) (gr_Address r0) false))).
  { intros e r0 He. rewrite He. pose proof (Hex e r0 He) as Hcr. destruct r0. simpl in *. by rewrite Hcr. }
  destruct (gatewayProvisioningIdentity Issuer Subject SpaceID d) as [[ex|]|e] eqn:E0; [injection Hx as <- <-; split_and!; auto| |done].
  destruct (negb (validGatewayLocalpart _)); [done|]. destruct (String.eqb (ToLower (trim_space (gi_Domain input))) EmptyString); [done|].
  destruct (Gw W) as [Ww _]. revert Hx Ww. generalize (wait d) as w. intros w Hx Ww.
  destruct (first_row _ (id_domains w)) as [[domID dom]|] eqn:Ed; [|done]. apply first_row_Some in Ed as [Ed Cd]. b2p.
  match goal with Hs : String.eqb (dm_domain _) _ = true |- _ => apply String.eqb_eq in Hs; rename Hs into Hdn end.
  destruct (gatewayProvisioningIdentity Issuer Subject SpaceID w) as [[ex|]|e] eqn:E1w; [injection Hx as <- <-; split_and!; auto| |done].
  destruct (availableGatewayLocalpart _ _ _ _ _ _ _ w) as [lp|]; [|done].
  destruct (insert_principal _ _ w) as [[pid d1]|e] eqn:E1; [|done]. destruct (insert_account _ _ _ _ _ _) as [[aid d2]|e] eqn:E2; [|done].
  destruct (insert_address _ _ _ _ _ _) as [[xid d3]|e] eqn:E3; [|done]. destruct (provision_inbox _ _ _ _) as [d4|e] eqn:E4; [|done].
  destruct (insert_gateway _ _) as [d5|e] eqn:E5; [|done]. destruct co as [|applied]; [|done]. injection Hx as <- <-.
  apply provision_inbox_kernel in E4 as [k Hk]. split_and!; [|done..]. rewrite <- Hdn.
  exact (new_account_provisioned w _ Issuer Subject SpaceID pid aid domID dom _ now lp d1 d2 xid d3 d4 d5 _ k Ww W5 E1 E2 E3 Hk E5 Ed eq_refl).
Qed.
End Ensure.

Lemma provisioned_authenticates i s sp d r : id_wf d -> gatewayProvisioningIdentity (trim_space i) (trim_space s) (trim_space sp) d = Ok (Some r) ->
  trim_space i <> EmptyString -> trim_space s <> EmptyString -> trim_space sp <> EmptyString ->
  exists login, AuthenticateGatewayIdentity i s sp 0 d = Ok (gr_TenantID r, mkPrincipalRef (gr_PrincipalID r) (gr_TenantID r) login, gr_DefaultAccountID r).
Proof.
  intros W Hp Hi Hs Hsp. unfold gatewayProvisioningIdentity in Hp. unfold AuthenticateGatewayIdentity. cbv zeta.
  destruct (String.eqb_spec (trim_space i) EmptyString); [done|]. destruct (String.eqb_spec (trim_space s) EmptyString); [done|].
  destruct (String.eqb_spec (trim_space sp) EmptyString); [done|]. cbn [orb].
  destruct (gateway_at _ _ _ d) as [[j g]|] eqn:Eg; [|done]. apply first_row_Some in Eg as [Eg _]. cbv zeta in Hp.
  destruct (gw_disabled g); [done|]. destruct (w_gateways _ W _ _ Eg) as (a & Ha & Hta & Hoa). destruct (w_accounts _ W _ _ Ha) as (Htn & _ & Hown).
  specialize (Hown _ Hoa). unfold ptenant in Hown. apply fmap_Some in Hown as (p & Hpr & Hpt). rewrite Ha, Hta, Hoa in Hp. cbn [opt_eqb] in Hp.
  rewrite !Z.eqb_refl in Hp. cbn [andb] in Hp. destruct (aw_disabled a) eqn:Ed; [done|]. cbn [orb] in Hp.
  match type of Hp with (if ?c then _ else _) = _ => destruct c; [done|] end. injection Hp as <-. exists (pc_login p).
  destruct Htn as [tn Htn]. cbn [Z.ltb]. rewrite Hpr, Ha, Hoa, Ed, <- Hpt, Hta. cbn [opt_eqb negb andb]. rewrite !Z.eqb_refl. cbn [andb].
  change (0 <? 0) with false. cbn [andb]. unfold tenantScope. rewrite Hta in Htn. by rewrite Htn.
Qed.

(** Provisioning a gateway identity again, by whichever node and however the first attempt
    came about, yields the same tenant, owner, account and address and changes nothing;
    and the identity authenticates as its owner for that account. *)
Theorem provisioned_once now co wait b input d r d' : id_wf d -> good d (wait d) -> EnsureGatewayIdentity now co wait b input d = (Ok r, d') ->
  (forall now' co' wait' b', EnsureGatewayIdentity now' co' wait' b' input d'
     = (Ok (mkGatewayResult (gr_TenantID r) (gr_PrincipalID r) (gr_DefaultAccountID r) (gr_Address r) false), d'))
  /\ exists login, AuthenticateGatewayIdentity (gi_Issuer input) (gi_Subject input) (gi_SpaceID input) 0 d'
     = Ok (gr_TenantID r, mkPrincipalRef (gr_PrincipalID r) (gr_TenantID r) login, gr_DefaultAccountID r).
Proof.
  intros W Gw Hx. destruct (ensure_Ok now co wait b input d r d' W Gw Hx) as (W' & created & Hp & -> & Hg). split.
  - intros now' co' wait' b'. unfold EnsureGatewayIdentity. cbv zeta. by rewrite Hg, Hp.
  - b2p. destruct (provisioned_authenticates (gi_Issuer input) (gi_Subject input) (gi_SpaceID input) d' _ W' Hp) as [login Hl];
      [intros He; by match goal with Hs : String.eqb (trim_space (gi_Issuer _)) _ = false |- _ => rewrite He in Hs end
      |intros He; by match goal with Hs : String.eqb (trim_space (gi_Subject _)) _ = false |- _ => rewrite He in Hs end
      |intros He; by match goal with Hs : String.eqb (trim_space (gi_SpaceID _)) _ = false |- _ => rewrite He in Hs end
      |by exists login].
Qed.
End Directory.

(** ** Witnesses *)

Definition ds_tenant : IDB := run (take 5 demo_setup) (start demo_db).
Lemma ds_wf : id_wf ds_tenant.
Proof. apply reached_wf. Qed.
Lemma result_eta {A B} (x : A * B) (a : A) : x.1 = a -> x = (a, x.2).
Proof. destruct x. by intros <-. Qed.

Definition ds_created : IDB := (CreateAgentMailbox 1 10 CommitOk 5 3 " team " "Helper" "" 0 no_files ds_tenant).2.
Lemma ds_create : CreateAgentMailbox 1 10 CommitOk 5 3 " team " "Helper" "" 0 no_files ds_tenant = (Ok (7, "helper@example.org"%string), ds_created).
Proof. unfold ds_created. apply result_eta. vm_compute. reflexivity. Qed.
Lemma mailbox_created_witness : exists domID row, id_domains ds_tenant !! domID = Some row /\ dm_tenant row = 1
  /\ "helper@example.org"%string = (ToLower (trim_space "Helper") ++ "@" ++ dm_domain row)%string /\ id_accounts ds_tenant !! 7 = None
  /\ agent_mailbox ds_created 7 5 (trim_space " team ") <> None /\ has_inbox 7 (id_kernel ds_created)
  /\ (dm_disabled row = false -> ResolveInbound (ToLower (trim_space "Helper")) (dm_domain row) ds_created = Ok (mkAccount 7 1, false))
  /\ (forall password, AuthenticatePrincipal "helper@example.org" (PasswordCredential password) ds_created = Err authentication_failed).
Proof. exact (mailbox_created 1 10 CommitOk 5 3 " team " "Helper" "" 0 no_files ds_tenant 7 "helper@example.org" ds_created ds_wf ds_create). Defined.

Definition ds_login : IDB := run (take 4 demo_setup) (start demo_db).
Lemma ds_set : SetPassword "alice@example.org" "pw" (Some (bytes_rnd "s" 16)) (bytes_rnd "t" 16) ds_login
  = (Ok tt, (SetPassword "alice@example.org" "pw" (Some (bytes_rnd "s" 16)) (bytes_rnd "t" 16) ds_login).2).
Proof. apply result_eta. vm_compute. reflexivity. Qed.
Definition ds_after : IDB := (SetPassword "alice@example.org" "pw" (Some (bytes_rnd "s" 16)) (bytes_rnd "t" 16) ds_login).2.
Lemma password_opens_witness : (exists t id, AuthenticatePrincipal "alice@example.org" (PasswordCredential "pw") ds_after = Ok (t, mkPrincipalRef id t "alice@example.org"))
  /\ (exists salted, SaltPassword "pw" (bytes_rnd "t" 16) scramIterations = Some salted /\ LookupSCRAM "alice@example.org" ds_after = Ok (bytes_rnd "t" 16, salted, scramIterations))
  /\ (forall other, IDKey other (bytes_rnd "s" 16) a2Time a2Memory a2Threads a2KeyLen <> IDKey "pw" (bytes_rnd "s" 16) a2Time a2Memory a2Threads a2KeyLen ->
      AuthenticatePrincipal "alice@example.org" (PasswordCredential other) ds_after = Err authentication_failed).
Proof. apply (password_opens "alice@example.org" "pw" (bytes_rnd "s" 16) (bytes_rnd "t" 16) ds_login ds_after (reached_wf demo_db (take 4 demo_setup)) ds_set). Defined.

Lemma ds_issue : (IssueAPIKey "alice@example.org" "" demo_random ds_tenant).1
  = Ok ("omk_" ++ base32_lower (bytes_rnd "p" 6) ++ "_" ++ base32_lower (bytes_rnd "q" 24))%string.
Proof. vm_compute. reflexivity. Qed.
Definition ds_keyed : IDB := (IssueAPIKey "alice@example.org" "" demo_random ds_tenant).2.
Lemma api_key_opens_witness : exists t id a address,
  AuthenticateAPIKey ("omk_" ++ base32_lower (bytes_rnd "p" 6) ++ "_" ++ base32_lower (bytes_rnd "q" 24)) ds_keyed = Ok (t, mkPrincipalRef id t "alice@example.org", a)
  /\ atenant ds_keyed a = Some t /\ ParseAddress "alice@example.org" = Some address /\ IssueAPIKey_account t address ds_tenant = Some a.
Proof.
  apply (api_key_opens "alice@example.org" "" (bytes_rnd "p" 6) (bytes_rnd "q" 24) ds_tenant); [exact ds_wf|done| |unfold ds_keyed; apply result_eta; exact ds_issue].
  intros i k Hk. assert (He : id_keys ds_tenant = ∅) by (vm_compute; reflexivity). rewrite He, lookup_empty in Hk. discriminate Hk.
Defined.

Lemma assertion_once_witness : exists err,
  (ConsumeGatewayAssertionNonce "octo " " n-1" 160 120 (consumes [("octo", "n-2", 500, 300)%string; ("octo", "n-3", 90, 80)%string]
     (ConsumeGatewayAssertionNonce "octo" "n-1" 160 100 ds_tenant).2)).1 = Err err.
Proof.
  apply (assertion_once "octo" "n-1" "octo " " n-1" 160 100 120 ds_tenant (ConsumeGatewayAssertionNonce "octo" "n-1" 160 100 ds_tenant).2).
  - apply result_eta. vm_compute. reflexivity.
  - vm_compute. reflexivity.
  - vm_compute. reflexivity.
  - repeat (apply Forall_cons_2; [simpl; unfold gatewayAssertionNonceRetention; lia|]). apply Forall_nil_2.
Defined.

(** Alice's login takes the preferred address; another session made a tenant meanwhile. *)
Definition ds_input : GatewayProvisioningInput := mkGatewayInput "octo" "user-1" "team" "Alice" "example.org".
Definition ds_wait : IDB -> IDB := fun d => (handleCreateTenant "other" d).2.
Definition ds_gateway : result GatewayProvisioningResult * IDB := EnsureGatewayIdentity 50 CommitOk ds_wait no_files ds_input ds_tenant.
Lemma provisioned_once_witness : exists r, ds_gateway.1 = Ok r /\ gr_Created r = true
  /\ (forall now' co' wait' b', EnsureGatewayIdentity now' co' wait' b' ds_input ds_gateway.2
       = (Ok (mkGatewayResult (gr_TenantID r) (gr_PrincipalID r) (gr_DefaultAccountID r) (gr_Address r) false), ds_gateway.2))
  /\ exists login, AuthenticateGatewayIdentity (gi_Issuer ds_input) (gi_Subject ds_input) (gi_SpaceID ds_input) 0 ds_gateway.2
     = Ok (gr_TenantID r, mkPrincipalRef (gr_PrincipalID r) (gr_TenantID r) login, gr_DefaultAccountID r).
Proof.
  assert (Hr : exists r, ds_gateway.1 = Ok r /\ gr_Created r = true) by (eexists; split; [vm_compute; reflexivity|reflexivity]).
  destruct Hr as (r & Hr & Hc). exists r. split; [exact Hr|]. split; [exact Hc|].
  assert (Hg : good ds_tenant (ds_wait ds_tenant)) by (unfold ds_wait; apply good_CreateTenant).
  assert (Hx : EnsureGatewayIdentity 50 CommitOk ds_wait no_files ds_input ds_tenant = (Ok r, ds_gateway.2)) by (fold ds_gateway; apply result_eta; exact Hr).
  exact (provisioned_once 50 CommitOk ds_wait no_files ds_input ds_tenant r ds_gateway.2 ds_wf Hg Hx).
Defined.
