(* ===== verification/Claims.v ===== *)
(** * Durable send claims and outbound drafts (storage/postgres/draft_send_claims.go,
      agent_send_intents.go, agent_outbound_drafts.go, outbound_policy_drafts.go)

    Four account-scoped tables.  [draft_send_claims] and [agent_send_intents] are
    claimed by an [INSERT ... ON CONFLICT DO NOTHING], completed once and never
    completed again; the two draft tables carry a version that a replacement must
    name.  The statements check the constraints of schema/17, 18, 19 and 22. *)

From S2P Require Import Prelude GoStrings.

Local Open Scope go_scope.

Definition max_int32 : Z := 2 ^ 31 - 1.

(** [status IN ('processing','accepted')] *)
Inductive claim_status := processing | accepted.
#[export] Instance claim_status_eq_dec : EqDecision claim_status.
Proof. solve_decision. Defined.

(** The columns both claim tables have. *)
Record ClaimRow := mkClaimRow {
  cl_version : Z;             (* 0 in agent_send_intents, which has no such column *)
  cl_digest : string; cl_status : claim_status; cl_message_id : option Z;
  cl_submission_ids : list Z; cl_created_at : Z; cl_updated_at : Z }.

Record DraftSendClaim := mkDraftSendClaim {
  dc_EmailID : Z; dc_DraftVersion : Z; dc_ContentDigest : string; dc_Status : claim_status;
  dc_MessageID : Z; dc_SubmissionIDs : list Z; dc_CreatedAt : Z; dc_UpdatedAt : Z }.

Record AgentSendIntent := mkAgentSendIntent {
  ai_IdempotencyKey : string; ai_ContentDigest : string; ai_Status : claim_status;
  ai_MessageID : Z; ai_SubmissionIDs : list Z; ai_CreatedAt : Z; ai_UpdatedAt : Z }.

(** A row of a draft table; [X] holds the columns only one of them has. *)
Record DraftRow (X : Type) := mkDraftRow {
  dr_status : string; dr_version : Z; dr_source_email_id : option Z; dr_digest : string;
  dr_key : string; dr_created_at : Z; dr_updated_at : Z; dr_extra : X }.
Arguments mkDraftRow {X}.
Arguments dr_status {X}. Arguments dr_version {X}. Arguments dr_source_email_id {X}.
Arguments dr_digest {X}. Arguments dr_key {X}. Arguments dr_created_at {X}.
Arguments dr_updated_at {X}. Arguments dr_extra {X}.

(** [AgentOutboundDraft] and [OutboundPolicyDraft]. *)
Record OutDraft (X : Type) := mkOutDraft {
  od_EmailID : Z; od_Status : string; od_DraftVersion : Z; od_SourceEmailID : Z;
  od_ContentDigest : string; od_IdempotencyKey : string; od_CreatedAt : Z; od_UpdatedAt : Z; od_extra : X }.
Arguments mkOutDraft {X}.
Arguments od_EmailID {X}. Arguments od_Status {X}. Arguments od_DraftVersion {X}.
Arguments od_SourceEmailID {X}. Arguments od_ContentDigest {X}. Arguments od_IdempotencyKey {X}.
Arguments od_CreatedAt {X}. Arguments od_UpdatedAt {X}. Arguments od_extra {X}.

(** [OutboundPolicyReason] *)
Record Reason := mkReason { re_Code : string; re_Title : string; re_Description : string }.
Record PolicyCols := mkPolicyCols { pc_PolicyVersion : string; pc_Reasons : list Reason; pc_Source : string }.
(** [DraftType] *)
Definition AgentCols : Type := string.

Definition AgentOutboundDraft : Type := OutDraft AgentCols.
Definition OutboundPolicyDraft : Type := OutDraft PolicyCols.

Abbreviation draft_table X := (gmap (Z * Z) (DraftRow X)).

Record WDB := mkWDB {
  w_accounts : gset Z;
  w_claims : gmap (Z * Z) ClaimRow;                (* (account_id, email_id) *)
  w_intents : gmap (Z * string) ClaimRow;          (* (account_id, idempotency_key) *)
  w_agent : draft_table AgentCols;                 (* (account_id, email_id) *)
  w_policy : draft_table PolicyCols }.

Definition set_claims v w := mkWDB (w_accounts w) v (w_intents w) (w_agent w) (w_policy w).
Definition set_intents v w := mkWDB (w_accounts w) (w_claims w) v (w_agent w) (w_policy w).
Definition set_agent v w := mkWDB (w_accounts w) (w_claims w) (w_intents w) v (w_policy w).
Definition set_policy v w := mkWDB (w_accounts w) (w_claims w) (w_intents w) (w_agent w) v.

(** PostgreSQL's [length(text)], in characters, and [octet_length(bytea)]. *)
Definition char_length (s : string) : Z := Z.of_nat (length (segs (bytes_of s))).
Definition digest_ok (s : string) : bool := (String.length s =? 32)%nat.
Definition between (lo hi n : Z) : bool := (lo <=? n) && (n <=? hi).
Definition is_i32 (n : Z) : bool := between (- 2 ^ 31) max_int32 n.

Section Account.
Variable acc : Z. (* [a.id] *)

(** ** Claim rows, in either table *)
Section Rows.
Context {K : Type} `{Countable K}.

Definition complete_row (now : Z) (k : K) (messageID : Z) (submissionIDs : option (list Z)) (t : gmap K ClaimRow)
  : result (gmap K ClaimRow) :=
  match t !! k with
  | Some r =>
      if bool_decide (cl_status r = processing) then
        match submissionIDs with
        | None => Err ErrNotNull (* a nil slice is sent as NULL *)
        | Some ids => Ok (<[k := mkClaimRow (cl_version r) (cl_digest r) accepted (Some messageID) ids
                                   (cl_created_at r) now]> t)
        end
      else Err (ErrText "processing claim not found")
  | None => Err (ErrText "processing claim not found")
  end.

(** [DELETE ... WHERE ... AND status=$n] *)
Definition delete_row (st : claim_status) (k : K) (t : gmap K ClaimRow) : gmap K ClaimRow :=
  match t !! k with
  | Some r => if bool_decide (cl_status r = st) then delete k t else t
  | None => t
  end.

Definition fresh_row (now version : Z) (digest : string) : ClaimRow :=
  mkClaimRow version digest processing None [] now now.
End Rows.

(** ** [draft_send_claims] *)

Definition scanDraftSendClaim (emailID : Z) (r : ClaimRow) : DraftSendClaim :=
  mkDraftSendClaim emailID (cl_version r) (cl_digest r) (cl_status r) (default 0 (cl_message_id r))
    (cl_submission_ids r) (cl_created_at r) (cl_updated_at r).

Definition FindDraftSendClaim (emailID : Z) (w : WDB) : option DraftSendClaim :=
  scanDraftSendClaim emailID <$> w_claims w !! (acc, emailID).

Definition ClaimDraftSend (now emailID draftVersion : Z) (contentDigest : string) (w : WDB)
  : result (DraftSendClaim * bool * WDB) :=
  if negb (is_i32 draftVersion) then Err ErrOutOfRange
  else if negb ((0 <=? draftVersion) && digest_ok contentDigest) then Err ErrCheckViolation
  else
    let k := (acc, emailID) in
    try! ins := (match w_claims w !! k with
                 | Some _ => Ok (w, false)
                 | None => if bool_decide (acc ∈ w_accounts w)
                           then Ok (set_claims (<[k := fresh_row now draftVersion contentDigest]> (w_claims w)) w, true)
                           else Err ErrForeignKey
                 end) in
    match FindDraftSendClaim emailID ins.1 with
    | None => Err (ErrText "read Draft send claim: inserted claim not found")
    | Some claim => Ok (claim, ins.2, ins.1)
    end.

Definition CompleteDraftSendClaim (now emailID messageID : Z) (submissionIDs : option (list Z)) (w : WDB) : result WDB :=
  try! t := complete_row now (acc, emailID) messageID submissionIDs (w_claims w) in Ok (set_claims t w).

Definition AbandonDraftSendClaim (emailID : Z) (w : WDB) : WDB :=
  set_claims (delete_row processing (acc, emailID) (w_claims w)) w.

Definition DeleteDraftSendClaim (emailID : Z) (w : WDB) : WDB :=
  set_claims (delete_row accepted (acc, emailID) (w_claims w)) w.

(** ** [agent_send_intents] *)

Definition agentSendIntent (key : string) (w : WDB) : result AgentSendIntent :=
  if negb (text_ok key) then Err ErrDecode
  else match w_intents w !! (acc, key) with
  | None => Err ErrNoRows
  | Some r => Ok (mkAgentSendIntent key (cl_digest r) (cl_status r) (default 0 (cl_message_id r))
                    (cl_submission_ids r) (cl_created_at r) (cl_updated_at r))
  end.

(** The insert and the read are two statements on the pool: [other] is what
    other sessions did between them. *)
Definition insert_intent (now : Z) (key contentDigest : string) (w : WDB) : result (WDB * bool) :=
  if negb (text_ok key) then Err ErrDecode
  else if negb (between 8 200 (char_length key) && digest_ok contentDigest) then Err ErrCheckViolation
  else match w_intents w !! (acc, key) with
       | Some _ => Ok (w, false)
       | None => if bool_decide (acc ∈ w_accounts w)
                 then Ok (set_intents (<[(acc, key) := fresh_row now 0 contentDigest]> (w_intents w)) w, true)
                 else Err ErrForeignKey
       end.

Definition ClaimAgentSendIntent (now : Z) (key contentDigest : string) (other : WDB -> WDB) (w : WDB)
  : result (AgentSendIntent * bool) * WDB :=
  match insert_intent now key contentDigest w with
  | Err e => (Err e, w)
  | Ok (w, claimed) =>
      let w := other w in
      match agentSendIntent key w with
      | Err e => (Err e, w)
      | Ok intent => (Ok (intent, claimed), w)
      end
  end.

Definition CompleteAgentSendIntent (now : Z) (key : string) (messageID : Z) (submissionIDs : option (list Z)) (w : WDB)
  : result WDB :=
  if negb (text_ok key) then Err ErrDecode
  else try! t := complete_row now (acc, key) messageID submissionIDs (w_intents w) in Ok (set_intents t w).

Definition AbandonAgentSendIntent (key : string) (w : WDB) : result WDB :=
  if text_ok key then Ok (set_intents (delete_row processing (acc, key) (w_intents w)) w) else Err ErrDecode.

(** ** The draft tables *)
Section Drafts.
Context {X : Type}.
Variable extra_in : X -> result X. (* what a statement stores for the columns of its own *)

Definition scan_draft (emailID : Z) (r : DraftRow X) : OutDraft X :=
  mkOutDraft emailID (dr_status r) (dr_version r) (default 0 (dr_source_email_id r)) (dr_digest r) (dr_key r)
    (dr_created_at r) (dr_updated_at r) (dr_extra r).

Definition has_key (key : string) (kr : (Z * Z) * DraftRow X) : Prop := kr.1.1 = acc /\ dr_key kr.2 = key.
#[global] Instance has_key_dec key kr : Decision (has_key key kr).
Proof. unfold has_key. apply _. Defined.

(** The row of a key; the unique index leaves one at most. *)
Definition row_by_key (key : string) (t : draft_table X) : option ((Z * Z) * DraftRow X) :=
  head (filter (has_key key) (map_to_list t)).

Definition find_by_key (key : string) (t : draft_table X) : result (option (OutDraft X)) :=
  if text_ok key then Ok ((fun kr => scan_draft kr.1.2 kr.2) <$> row_by_key key t) else Err ErrDecode.

Definition find_by_email (emailID : Z) (t : draft_table X) : option (OutDraft X) :=
  scan_draft emailID <$> t !! (acc, emailID).

Definition status_ok (s : string) : bool := String.eqb s "pending_confirmation" || String.eqb s "system_blocked".

Definition put_draft (accounts : gset Z) (now : Z) (d : OutDraft X) (t : draft_table X) : result (draft_table X) :=
  try! extra := extra_in (od_extra d) in
  if negb (text_ok (od_IdempotencyKey d) && text_ok (od_Status d)) then Err ErrDecode
  else if negb (is_i32 (od_DraftVersion d)) then Err ErrOutOfRange
  else if negb (status_ok (od_Status d) && (0 <? od_DraftVersion d)
                && between 1 200 (char_length (od_IdempotencyKey d)) && digest_ok (od_ContentDigest d))
  then Err ErrCheckViolation
  else match t !! (acc, od_EmailID d), row_by_key (od_IdempotencyKey d) t with
       | None, None =>
           if bool_decide (acc ∈ accounts)
           then Ok (<[(acc, od_EmailID d) :=
                      mkDraftRow (od_Status d) (od_DraftVersion d)
                        (if 0 <? od_SourceEmailID d then Some (od_SourceEmailID d) else None)
                        (od_ContentDigest d) (od_IdempotencyKey d) now now extra]> t)
           else Err ErrForeignKey
       | _, _ => Err ErrUniqueViolation
       end.

(** [UPDATE ... WHERE email_id=$2 AND draft_version=$3 RETURNING ...]: [None] when no row matches. *)
Definition replace_draft (now oldEmailID expectedVersion newEmailID : Z) (contentDigest : string) (t : draft_table X)
  : result (option (OutDraft X) * draft_table X) :=
  if negb (is_i32 expectedVersion) then Err ErrOutOfRange
  else match t !! (acc, oldEmailID) with
  | None => Ok (None, t)
  | Some r =>
      if dr_version r =? expectedVersion then
        if negb (is_i32 (dr_version r + 1)) then Err ErrOutOfRange
        else if negb (digest_ok contentDigest) then Err ErrCheckViolation
        else
          let r' := mkDraftRow (dr_status r) (dr_version r + 1) (dr_source_email_id r) contentDigest (dr_key r)
                      (dr_created_at r) now (dr_extra r) in
          let rest := delete (acc, oldEmailID) t in
          match rest !! (acc, newEmailID) with
          | Some _ => Err ErrUniqueViolation
          | None => Ok (Some (scan_draft newEmailID r'), <[(acc, newEmailID) := r']> rest)
          end
      else Ok (None, t)
  end.

Definition delete_draft (emailID : Z) (t : draft_table X) : draft_table X := delete (acc, emailID) t.

(** The result map of the batch reads, by email id. *)
Definition drafts_for (messageIDs : list Z) (t : draft_table X) : gmap Z (OutDraft X) :=
  list_to_map (omap (fun id => (fun d => (id, d)) <$> find_by_email id t) messageIDs).
End Drafts.

(** The columns of their own. *)
Definition agent_in (draftType : AgentCols) : result AgentCols :=
  if String.eqb draftType "agent_pending_confirmation" || String.eqb draftType "agent_reply_draft"
  then Ok draftType else Err ErrCheckViolation.

(** Reasons pass through [json.Marshal], [jsonb] and [json.Unmarshal]. *)
Definition reason_in (r : Reason) : result Reason :=
  if has_nul (re_Code r) || has_nul (re_Title r) || has_nul (re_Description r) then Err ErrDecode
  else Ok (mkReason (coerce_utf8 (re_Code r)) (coerce_utf8 (re_Title r)) (coerce_utf8 (re_Description r))).

Fixpoint reasons_in (l : list Reason) : result (list Reason) :=
  match l with
  | [] => Ok []
  | r :: l => try! r := reason_in r in try! l := reasons_in l in Ok (r :: l)
  end.

Definition policy_in (c : PolicyCols) : result PolicyCols :=
  try! reasons := reasons_in (pc_Reasons c) in
  if negb (text_ok (pc_PolicyVersion c)) then Err ErrDecode
  else if between 1 200 (char_length (pc_PolicyVersion c))
       && (String.eqb (pc_Source c) "owner_direct" || String.eqb (pc_Source c) "inbound_auto_reply")
  then Ok (mkPolicyCols (pc_PolicyVersion c) reasons (pc_Source c)) else Err ErrCheckViolation.

Definition FindAgentOutboundDraftByIdempotencyKey (key : string) (w : WDB) : result (option AgentOutboundDraft) :=
  find_by_key key (w_agent w).
Definition FindAgentOutboundDraftByEmailID (emailID : Z) (w : WDB) : option AgentOutboundDraft :=
  find_by_email emailID (w_agent w).
Definition PutAgentOutboundDraft (now : Z) (d : AgentOutboundDraft) (w : WDB) : result WDB :=
  try! t := put_draft agent_in (w_accounts w) now d (w_agent w) in Ok (set_agent t w).
Definition ReplaceAgentOutboundDraft (now old expected new : Z) (digest : string) (w : WDB)
  : result (option AgentOutboundDraft * WDB) :=
  try! r := replace_draft now old expected new digest (w_agent w) in Ok (r.1, set_agent r.2 w).
Definition DeleteAgentOutboundDraft (emailID : Z) (w : WDB) : WDB := set_agent (delete_draft emailID (w_agent w)) w.
Definition AgentOutboundDraftsForMessages (ids : list Z) (w : WDB) : gmap Z AgentOutboundDraft :=
  drafts_for ids (w_agent w).

Definition FindOutboundPolicyDraftByIdempotencyKey (key : string) (w : WDB) : result (option OutboundPolicyDraft) :=
  find_by_key key (w_policy w).
Definition FindOutboundPolicyDraftByEmailID (emailID : Z) (w : WDB) : option OutboundPolicyDraft :=
  find_by_email emailID (w_policy w).
Definition PutOutboundPolicyDraft (now : Z) (d : OutboundPolicyDraft) (w : WDB) : result WDB :=
  try! t := put_draft policy_in (w_accounts w) now d (w_policy w) in Ok (set_policy t w).
Definition ReplaceOutboundPolicyDraft (now old expected new : Z) (digest : string) (w : WDB)
  : result (option OutboundPolicyDraft * WDB) :=
  try! r := replace_draft now old expected new digest (w_policy w) in Ok (r.1, set_policy r.2 w).
Definition DeleteOutboundPolicyDraft (emailID : Z) (w : WDB) : WDB := set_policy (delete_draft emailID (w_policy w)) w.
Definition OutboundPolicyDraftsForMessages (ids : list Z) (w : WDB) : gmap Z OutboundPolicyDraft :=
  drafts_for ids (w_policy w).
End Account.
