(* ===== verification/SendDraft.v ===== *)
(** * Sending a draft once (protocol/webapi/drafts.go over storage/postgres/draft_send_claims.go)

    [sendDraft] claims the draft in the account's transaction, submits it outside
    any transaction, and then completes, abandons or keeps the claim.  Requests
    for the same draft may run on several nodes at once and may stop anywhere;
    each transaction, statement or submission is one step. *)

From S2P Require Import Prelude GoStrings Claims.

Local Open Scope go_scope.

(** ** The decisions of the handler *)

Definition draft_metadata_conflict : err := ErrText "draft_metadata_conflict".
Definition owner_required : err := ErrText "owner_required".
Definition draft_version_conflict : err := ErrText "draft_version_conflict".
Definition draft_send_conflict : err := ErrText "draft_send_conflict".
Definition draft_send_result_unknown : err := ErrText "draft_send_result_unknown".
Definition no_recipients : err := ErrText "no_recipients".

(** The version the request must name, when the draft has workflow metadata. *)
Definition draft_version (acc agentCredentialID : Z) (req : option Z) (emailID : Z) (w : WDB) : result Z :=
  let named (v : Z) := if bool_decide (req = Some v) then Ok v else Err draft_version_conflict in
  match FindOutboundPolicyDraftByEmailID acc emailID w, FindAgentOutboundDraftByEmailID acc emailID w with
  | Some _, Some _ => Err draft_metadata_conflict
  | Some policy, None => if 0 <? agentCredentialID then Err owner_required else named (od_DraftVersion policy)
  | None, Some draft => named (od_DraftVersion draft)
  | None, None => Ok 0
  end.

(** A draft as [loadDraftMessage] and [ReadAll] return it: its recipients and the
    digest of its bytes ([sha256] is a parameter of the step). *)
Record DraftMessage := mkDraftMessage { dm_EmailID : Z; dm_rcpts : list string; dm_digest : string }.

(** The body of the handler's transaction. *)
Definition claim_tx (acc now agentCredentialID : Z) (req : option Z) (m : DraftMessage) (w : WDB)
  : result (DraftSendClaim * bool * WDB) :=
  try! version := draft_version acc agentCredentialID req (dm_EmailID m) w in
  match dm_rcpts m with
  | [] => Err no_recipients
  | _ =>
      try! c := ClaimDraftSend acc now (dm_EmailID m) version (dm_digest m) w in
      let '(claim, claimed, _) := c in
      if negb claimed && negb ((dc_DraftVersion claim =? version) && String.eqb (dc_ContentDigest claim) (dm_digest m))
      then Err draft_send_conflict else Ok c
  end.

(** The answer to a request that found the draft claimed. *)
Definition existing_claim (claim : DraftSendClaim) : result (Z * list Z) :=
  if bool_decide (dc_Status claim = accepted) && (0 <? dc_MessageID claim)
  then Ok (dc_MessageID claim, dc_SubmissionIDs claim) else Err draft_send_result_unknown.

(** ** The requests in flight *)

(** A request that holds a claim: it has not submitted, or its submission was
    accepted, or it has also removed the draft. *)
Inductive stage := Holding | Submitted (messageID : Z) (ids : option (list Z)) | Removed.

Record Request := mkRequest { rq_key : Z * Z; rq_stage : stage }.

Record Sends := mkSends {
  sn_w : WDB;
  sn_drafts : gset (Z * Z);           (* (account, email) of the messages in Drafts *)
  sn_requests : list Request;
  sn_accepted : list (Z * Z);         (* the draft of every accepted submission *)
  sn_next : Z }.                      (* email ids below were used *)

Definition with_w (w : WDB) (s : Sends) : Sends := mkSends w (sn_drafts s) (sn_requests s) (sn_accepted s) (sn_next s).
Definition with_drafts (d : gset (Z * Z)) (s : Sends) : Sends := mkSends (sn_w s) d (sn_requests s) (sn_accepted s) (sn_next s).

(** The garbage collector's share: claims of emails with no live message go. *)
Definition gc_claims (gone : gset (Z * Z)) (w : WDB) : WDB :=
  set_claims (filter (fun kr : (Z * Z) * ClaimRow => kr.1 ∉ gone) (w_claims w)) w.

Inductive send_step : Sends -> Sends -> Prop :=
| sd_claimed acc now cred req m claim w' s :
    (acc, dm_EmailID m) ∈ sn_drafts s -> claim_tx acc now cred req m (sn_w s) = Ok (claim, true, w') ->
    send_step s (mkSends w' (sn_drafts s) (mkRequest (acc, dm_EmailID m) Holding :: sn_requests s) (sn_accepted s) (sn_next s))
| sd_answered acc now cred req m claim w' s : (* the draft was claimed already *)
    claim_tx acc now cred req m (sn_w s) = Ok (claim, false, w') -> send_step s (with_w w' s)
| sd_refused acc e l1 l2 s : (* policy, Sent copy or submission failed for certain *)
    sn_requests s = l1 ++ mkRequest (acc, e) Holding :: l2 ->
    send_step s (mkSends (AbandonDraftSendClaim acc e (sn_w s)) (sn_drafts s) (l1 ++ l2) (sn_accepted s) (sn_next s))
| sd_unknown k l1 l2 (took : bool) s : (* the result is unknown: the submission may have been accepted *)
    sn_requests s = l1 ++ mkRequest k Holding :: l2 ->
    send_step s (mkSends (sn_w s) (sn_drafts s) (l1 ++ l2) (if took then k :: sn_accepted s else sn_accepted s) (sn_next s))
| sd_submitted k l1 l2 messageID ids s :
    sn_requests s = l1 ++ mkRequest k Holding :: l2 ->
    send_step s (mkSends (sn_w s) (sn_drafts s) (l1 ++ mkRequest k (Submitted messageID ids) :: l2) (k :: sn_accepted s) (sn_next s))
| sd_completed acc e now messageID ids l1 l2 w' s : (* a failure is only logged *)
    sn_requests s = l1 ++ mkRequest (acc, e) (Submitted messageID ids) :: l2 ->
    CompleteDraftSendClaim acc now e messageID ids (sn_w s) = Ok w' -> send_step s (with_w w' s)
| sd_removed k messageID ids l1 l2 s :
    sn_requests s = l1 ++ mkRequest k (Submitted messageID ids) :: l2 ->
    send_step s (mkSends (sn_w s) (sn_drafts s ∖ {[k]}) (l1 ++ mkRequest k Removed :: l2) (sn_accepted s) (sn_next s))
| sd_deleted acc e l1 l2 s :
    sn_requests s = l1 ++ mkRequest (acc, e) Removed :: l2 ->
    send_step s (mkSends (DeleteDraftSendClaim acc e (sn_w s)) (sn_drafts s) (l1 ++ l2) (sn_accepted s) (sn_next s))
| sd_crash l1 r l2 s : (* the request or its node stops *)
    sn_requests s = l1 ++ r :: l2 ->
    send_step s (mkSends (sn_w s) (sn_drafts s) (l1 ++ l2) (sn_accepted s) (sn_next s))
| sd_draft acc e s : sn_next s <= e -> (* a draft is written, as a new email *)
    send_step s (mkSends (sn_w s) ({[(acc, e)]} ∪ sn_drafts s) (sn_requests s) (sn_accepted s) (e + 1))
| sd_discarded k s : send_step s (with_drafts (sn_drafts s ∖ {[k]}) s) (* deleted, edited or moved out of Drafts *)
| sd_gc gone s : gone ## sn_drafts s -> send_step s (with_w (gc_claims gone (sn_w s)) s).

Inductive send_reach : Sends -> Prop :=
| sr_start w next : w_claims w = ∅ -> send_reach (mkSends w ∅ [] [] next)
| sr_step s s' : send_reach s -> send_step s s' -> send_reach s'.

(** ** The invariant *)

Abbreviation claimed_in k w := (is_Some (w_claims w !! k)).

Record sends_wf (s : Sends) : Prop := {
  sw_once : NoDup (sn_accepted s);
  sw_requests : NoDup (rq_key <$> sn_requests s);
  sw_holding k : mkRequest k Holding ∈ sn_requests s -> k ∉ sn_accepted s;
  sw_request r : r ∈ sn_requests s -> rq_key r ∈ sn_drafts s -> claimed_in (rq_key r) (sn_w s);
  sw_accepted k : k ∈ sn_accepted s -> k ∈ sn_drafts s -> claimed_in k (sn_w s);
  sw_removed k : mkRequest k Removed ∈ sn_requests s -> k ∉ sn_drafts s;
  sw_fresh k : k ∈ sn_drafts s \/ k ∈ sn_accepted s \/ k ∈ rq_key <$> sn_requests s -> k.2 < sn_next s }.

Lemma claim_tx_inv acc now cred req m w claim claimed w' :
  claim_tx acc now cred req m w = Ok (claim, claimed, w') ->
  if claimed then w_claims w !! (acc, dm_EmailID m) = None /\
       exists r, w_claims w' = <[(acc, dm_EmailID m) := r]> (w_claims w)
  else w' = w.
Proof.
  unfold claim_tx. destruct (draft_version _ _ _ _ _) as [v|]; [|done]. cbn [rbind].
  destruct (dm_rcpts m) as [|r l]; [done|]. unfold ClaimDraftSend.
  destruct (negb (is_i32 v)); [done|]. destruct (negb ((0 <=? v) && _)); [done|].
  destruct (w_claims w !! (acc, dm_EmailID m)) as [row|] eqn:Hrow; cbn [rbind fst snd].
  - destruct (FindDraftSendClaim _ _ w) as [c|]; [|done]. cbn [rbind].
    destruct (negb false && _); [done|]. by intros [= _ <- <-].
  - case_bool_decide; [|done]. cbn [rbind fst snd]. destruct (FindDraftSendClaim _ _ _) as [c|]; [|done]. cbn [rbind].
    destruct (negb true && _); [done|]. intros [= _ <- <-]. split; [done|]. eexists. simpl. done.
Qed.

Lemma delete_row_lookup_ne {K} `{Countable K} st (k k' : K) t : k <> k' -> delete_row st k t !! k' = t !! k'.
Proof.
  intros Hne. unfold delete_row. destruct (t !! k); [|done]. case_bool_decide; [|done]. by apply lookup_delete_ne.
Qed.

Lemma complete_row_claimed {K} `{Countable K} now (k k' : K) m ids t t' :
  complete_row now k m ids t = Ok t' -> is_Some (t !! k') -> is_Some (t' !! k').
Proof.
  unfold complete_row. destruct (t !! k) as [r|] eqn:Hk; [|done]. case_bool_decide; [|done].
  destruct ids; [|done]. intros [= <-] Hs. rewrite lookup_insert. by case_decide.
Qed.

(** A step that ends one request and touches nothing of other drafts. *)
Lemma requests_drop l1 r l2 s :
  sends_wf s -> sn_requests s = l1 ++ r :: l2 ->
  NoDup (rq_key <$> l1 ++ l2) /\ (forall x, x ∈ l1 ++ l2 -> x ∈ sn_requests s /\ rq_key x <> rq_key r) /\
  r ∈ sn_requests s.
Proof.
  intros Hs Hr. pose proof (sw_requests _ Hs) as Hnd. rewrite Hr in *. rewrite fmap_app, fmap_cons in Hnd.
  rewrite fmap_app. apply NoDup_app in Hnd as (N1 & N2 & N3). apply NoDup_cons in N3 as [N3 N4].
  split; [|split].
  - apply NoDup_app. split_and!; [done| |done]. intros k Hk Hk2. apply (N2 k Hk). by right.
  - intros x Hx. split; [apply elem_of_app in Hx; apply elem_of_app; destruct Hx; [by left|right; by right]|].
    intros E. apply elem_of_app in Hx as [Hx|Hx].
    + apply (N2 (rq_key x)); [by apply list_elem_of_fmap_2|]. rewrite E. left.
    + apply N3. rewrite <- E. by apply list_elem_of_fmap_2.
  - apply elem_of_app. right. left.
Qed.

Lemma requests_stage l1 k st st' l2 s :
  sends_wf s -> sn_requests s = l1 ++ mkRequest k st :: l2 ->
  rq_key <$> l1 ++ mkRequest k st' :: l2 = rq_key <$> sn_requests s /\
  forall x, x ∈ l1 ++ mkRequest k st' :: l2 -> x = mkRequest k st' \/ (x ∈ sn_requests s /\ rq_key x <> k).
Proof.
  intros Hs Hr. split; [by rewrite Hr, !fmap_app|]. intros x Hx.
  destruct (requests_drop _ _ _ _ Hs Hr) as (_ & Hdrop & _). apply elem_of_app in Hx as [Hx|Hx].
  - right. apply (Hdrop x), elem_of_app. by left.
  - apply elem_of_cons in Hx as [->|Hx]; [by left|]. right. apply (Hdrop x), elem_of_app. by right.
Qed.

(** Shrinking the table of claims to what the live drafts need. *)
Lemma sends_wf_drop l1 r l2 w acc s :
  sends_wf s -> sn_requests s = l1 ++ r :: l2 ->
  NoDup acc -> (forall k, k ∈ acc -> k ∈ sn_accepted s \/ k = rq_key r) ->
  (forall k, mkRequest k Holding ∈ l1 ++ l2 -> k ∉ acc) ->
  (forall k, k <> rq_key r -> claimed_in k (sn_w s) -> claimed_in k w) ->
  (rq_key r ∈ acc -> rq_key r ∈ sn_drafts s -> claimed_in (rq_key r) w) ->
  sends_wf (mkSends w (sn_drafts s) (l1 ++ l2) acc (sn_next s)).
Proof.
  intros Hs Hr Hnd Hacc Hhold Hw Hwr. destruct (requests_drop _ _ _ _ Hs Hr) as (N & Hdrop & Hin).
  split; simpl; [done|done|done| | | |].
  - intros x Hx Hd. destruct (Hdrop x Hx) as [Hx' Hne]. apply Hw; [done|]. by apply (sw_request _ Hs).
  - intros k Hk Hd. destruct (decide (k = rq_key r)) as [->|Hne]; [auto|].
    apply Hw; [done|]. destruct (Hacc k Hk) as [Hk'| ->]; [by apply (sw_accepted _ Hs)|done].
  - intros k Hk. apply (sw_removed _ Hs). by apply (Hdrop _ Hk).
  - intros k [Hk|[Hk|Hk]]; apply (sw_fresh _ Hs); [by left| |].
    + right. destruct (Hacc k Hk) as [|Hk']; [by left|right; rewrite Hk'; by apply list_elem_of_fmap_2].
    + right. right. apply list_elem_of_fmap in Hk as (x & -> & Hx). apply list_elem_of_fmap_2. by apply Hdrop.
Qed.

Lemma holding_kept l1 r l2 s k :
  sends_wf s -> sn_requests s = l1 ++ r :: l2 -> mkRequest k Holding ∈ l1 ++ l2 -> k ∉ sn_accepted s /\ k <> rq_key r.
Proof.
  intros Hs Hr Hk. destruct (requests_drop _ _ _ _ Hs Hr) as (_ & Hdrop & _). destruct (Hdrop _ Hk) as [Hin Hne].
  split; [by apply (sw_holding _ Hs)|done].
Qed.

Lemma sends_wf_claimed acc now cred req m claim w' s :
  sends_wf s -> (acc, dm_EmailID m) ∈ sn_drafts s -> claim_tx acc now cred req m (sn_w s) = Ok (claim, true, w') ->
  sends_wf (mkSends w' (sn_drafts s) (mkRequest (acc, dm_EmailID m) Holding :: sn_requests s) (sn_accepted s) (sn_next s)).
Proof.
  intros Hs Hd Hc. set (k := (acc, dm_EmailID m)) in *. destruct (claim_tx_inv _ _ _ _ _ _ _ _ _ Hc) as [Hnone [r Hw]].
  assert (Hacc : k ∉ sn_accepted s).
  { intros Hk. destruct (sw_accepted _ Hs k Hk Hd) as [x Hx]. unfold k in Hx. congruence. }
  assert (Hreq : forall x, x ∈ sn_requests s -> rq_key x <> k).
  { intros x Hx E. destruct (sw_request _ Hs x Hx) as [y Hy]; [by rewrite E|]. rewrite E in Hy. unfold k in Hy. congruence. }
  assert (Hmono : forall k', claimed_in k' (sn_w s) -> claimed_in k' w').
  { intros k' Hk'. rewrite Hw, lookup_insert. by case_decide. }
  split; simpl.
  - apply Hs.
  - constructor; [|apply Hs]. intros Hk. apply list_elem_of_fmap in Hk as (x & E & Hx). by apply (Hreq x).
  - intros k' Hk'. apply elem_of_cons in Hk' as [[= ->]|Hk']; [done|by apply (sw_holding _ Hs)].
  - intros x Hx Hd'. apply elem_of_cons in Hx as [->|Hx]; [simpl; rewrite Hw, lookup_insert_eq; done|].
    by apply Hmono, (sw_request _ Hs).
  - intros k' Hk' Hd'. by apply Hmono, (sw_accepted _ Hs).
  - intros k' Hk'. apply elem_of_cons in Hk' as [[=]|Hk']. by apply (sw_removed _ Hs).
  - intros k' [Hk'|[Hk'|Hk']]; apply (sw_fresh _ Hs); [by left|by right; left|].
    apply elem_of_cons in Hk' as [->|Hk']; [by left|by right; right].
Qed.

Lemma sends_wf_w w s : sends_wf s ->
  (forall k, k ∈ sn_drafts s -> claimed_in k (sn_w s) -> claimed_in k w) -> sends_wf (with_w w s).
Proof.
  intros Hs Hw. split; simpl; try apply Hs.
  - intros r Hr Hd. apply Hw; [done|]. by apply (sw_request _ Hs).
  - intros k Hk Hd. apply Hw; [done|]. by apply (sw_accepted _ Hs).
Qed.

Lemma sends_wf_drafts d s : sends_wf s -> d ⊆ sn_drafts s -> sends_wf (with_drafts d s).
Proof.
  intros Hs Hd. split; simpl; try apply Hs.
  - intros r Hr Hk. apply (sw_request _ Hs); auto.
  - intros k Hk Hk'. apply (sw_accepted _ Hs); auto.
  - intros k Hk Hk'. apply (sw_removed _ Hs k Hk). auto.
  - intros k [Hk|Hk]; apply (sw_fresh _ Hs); [left; auto|by right].
Qed.

Lemma sends_wf_submitted k l1 l2 messageID ids s :
  sends_wf s -> sn_requests s = l1 ++ mkRequest k Holding :: l2 ->
  sends_wf (mkSends (sn_w s) (sn_drafts s) (l1 ++ mkRequest k (Submitted messageID ids) :: l2) (k :: sn_accepted s) (sn_next s)).
Proof.
  intros Hs Hr. destruct (requests_stage _ _ _ (Submitted messageID ids) _ _ Hs Hr) as [Hkeys Hst].
  destruct (requests_drop _ _ _ _ Hs Hr) as (_ & _ & Hin). split; cbn [sn_w sn_drafts sn_requests sn_accepted sn_next].
  - constructor; [by apply (sw_holding _ Hs)|apply Hs].
  - rewrite Hkeys. apply Hs.
  - intros k' Hk'. destruct (Hst _ Hk') as [[=]|[Hk'' Hne]]. apply not_elem_of_cons. split; [done|by apply (sw_holding _ Hs)].
  - intros x Hx Hd. destruct (Hst _ Hx) as [->|[Hx' _]]; [by apply (sw_request _ Hs _ Hin)|by apply (sw_request _ Hs)].
  - intros k' Hk' Hd. apply elem_of_cons in Hk' as [->|Hk']; [by apply (sw_request _ Hs _ Hin)|by apply (sw_accepted _ Hs)].
  - intros k' Hk'. destruct (Hst _ Hk') as [[=]|[Hk'' _]]. by apply (sw_removed _ Hs).
  - intros k'. rewrite Hkeys. intros [Hk'|[Hk'|Hk']]; apply (sw_fresh _ Hs); [by left| |by right; right].
    apply elem_of_cons in Hk' as [->|Hk']; [right; right; by apply (list_elem_of_fmap_2 rq_key _ _ Hin)|by right; left].
Qed.

Lemma sends_wf_removed k l1 l2 st s :
  sends_wf s -> sn_requests s = l1 ++ mkRequest k st :: l2 -> st <> Holding ->
  sends_wf (mkSends (sn_w s) (sn_drafts s ∖ {[k]}) (l1 ++ mkRequest k Removed :: l2) (sn_accepted s) (sn_next s)).
Proof.
  intros Hs Hr Hne. destruct (requests_stage _ _ _ Removed _ _ Hs Hr) as [Hkeys Hst].
  destruct (requests_drop _ _ _ _ Hs Hr) as (_ & _ & Hin). split; cbn [sn_w sn_drafts sn_requests sn_accepted sn_next].
  - apply Hs.
  - rewrite Hkeys. apply Hs.
  - intros k' Hk'. destruct (Hst _ Hk') as [[=]|[Hk'' _]]. by apply (sw_holding _ Hs).
  - intros x Hx Hd. destruct (Hst _ Hx) as [->|[Hx' _]]; [simpl in Hd; set_solver|].
    apply (sw_request _ Hs); [done|set_solver].
  - intros k' Hk' Hd. apply (sw_accepted _ Hs); [done|set_solver].
  - intros k' Hk'. destruct (Hst _ Hk') as [[= ->]|[Hk'' _]]; [set_solver|].
    pose proof (sw_removed _ Hs _ Hk''). set_solver.
  - intros k'. rewrite Hkeys. intros [Hk'|Hk']; apply (sw_fresh _ Hs); [left; set_solver|by right].
Qed.

Lemma sends_wf_draft acc e s : sends_wf s -> sn_next s <= e ->
  sends_wf (mkSends (sn_w s) ({[(acc, e)]} ∪ sn_drafts s) (sn_requests s) (sn_accepted s) (e + 1)).
Proof.
  intros Hs He.
  assert (Hnew : forall k, k ∈ sn_drafts s \/ k ∈ sn_accepted s \/ k ∈ rq_key <$> sn_requests s -> k <> (acc, e) /\ k.2 < e + 1).
  { intros k Hk. pose proof (sw_fresh _ Hs k Hk). split; [|lia]. intros ->. simpl in *. lia. }
  split; cbn [sn_w sn_drafts sn_requests sn_accepted sn_next]; try apply Hs.
  - intros x Hx Hd. apply (sw_request _ Hs x Hx). destruct (Hnew (rq_key x)); [right; right; by apply list_elem_of_fmap_2|].
    set_solver.
  - intros k Hk Hd. apply (sw_accepted _ Hs k Hk). destruct (Hnew k); [by right; left|]. set_solver.
  - intros k Hk Hd. pose proof (sw_removed _ Hs k Hk). destruct (Hnew k); [|set_solver].
    right. right. apply (list_elem_of_fmap_2 rq_key _ _ Hk).
  - intros k [Hk|Hk]; [|by apply Hnew; right]. apply elem_of_union in Hk as [Hk|Hk]; [|by apply Hnew; left].
    apply elem_of_singleton in Hk as ->. simpl. lia.
Qed.

Lemma sends_wf_step s s' : sends_wf s -> send_step s s' -> sends_wf s'.
Proof.
  intros Hs Hst. destruct Hst as
    [acc now cred req m claim w' s Hd Hc|acc now cred req m claim w' s Hc|acc e l1 l2 s Hr|k l1 l2 took s Hr
    |k l1 l2 mid ids s Hr|acc e now mid ids l1 l2 w' s Hr Hc|k mid ids l1 l2 s Hr|acc e l1 l2 s Hr|l1 r l2 s Hr
    |acc e s He|k s|gone s Hg].
  - by eapply sends_wf_claimed.
  - apply claim_tx_inv in Hc as ->. by apply sends_wf_w.
  - destruct (requests_drop _ _ _ _ Hs Hr) as (_ & _ & Hin).
    eapply (sends_wf_drop l1 _ l2); [done|exact Hr|apply Hs|by left| | |].
    + intros k Hk. by eapply holding_kept.
    + intros k Hk. simpl in *. by rewrite delete_row_lookup_ne.
    + intros Hk. by apply (sw_holding _ Hs) in Hin.
  - destruct (requests_drop _ _ _ _ Hs Hr) as (_ & _ & Hin). pose proof (sw_holding _ Hs _ Hin) as Hni.
    eapply (sends_wf_drop l1 _ l2); [done|exact Hr| | | |done|].
    + destruct took; [constructor; [done|apply Hs]|apply Hs].
    + intros k' Hk'. destruct took; [|by left]. apply elem_of_cons in Hk' as [->|Hk']; [by right|by left].
    + intros k' Hk'. destruct (holding_kept _ _ _ _ _ Hs Hr Hk') as [H1 H2]. destruct took; [|done].
      by apply not_elem_of_cons.
    + intros _ Hd. by apply (sw_request _ Hs _ Hin).
  - by apply sends_wf_submitted.
  - apply sends_wf_w; [done|]. intros k' _ Hk'. unfold CompleteDraftSendClaim in Hc.
    destruct (complete_row _ _ _ _ _) as [t|] eqn:E; [|done]. injection Hc as <-. simpl. by eapply complete_row_claimed.
  - by eapply sends_wf_removed.
  - destruct (requests_drop _ _ _ _ Hs Hr) as (_ & _ & Hin).
    eapply (sends_wf_drop l1 _ l2); [done|exact Hr|apply Hs|by left| | |].
    + intros k Hk. by eapply holding_kept.
    + intros k Hk. simpl in *. by rewrite delete_row_lookup_ne.
    + intros _ Hd. by apply (sw_removed _ Hs) in Hin.
  - destruct (requests_drop _ _ _ _ Hs Hr) as (_ & _ & Hin).
    eapply (sends_wf_drop l1 _ l2); [done|exact Hr|apply Hs|by left| |done|].
    + intros k Hk. by eapply holding_kept.
    + intros _ Hd. by apply (sw_request _ Hs _ Hin).
  - by apply sends_wf_draft.
  - apply sends_wf_drafts; [done|set_solver].
  - apply sends_wf_w; [done|]. intros k Hk [r Hr]. exists r. unfold gc_claims. simpl.
    apply map_lookup_filter_Some. split; [done|]. simpl. set_solver.
Qed.

Lemma send_reach_wf s : send_reach s -> sends_wf s.
Proof.
  induction 1 as [w next Hw|s s' _ IH Hst]; [|by eapply sends_wf_step].
  split; simpl; try (intros; set_solver); constructor.
Qed.
