(* ===== verification/ClaimsSpec.v ===== *)
(** * What claims and draft versions guarantee

    A draft is submitted at most once, whatever the requests, nodes, crashes and
    retries; a refused submission can be tried again; of several replacements
    that name the same version one succeeds; an idempotency key names one draft. *)

From S2P Require Import Prelude GoStrings Claims SendDraft.

Local Open Scope go_scope.

(** ** Helper lemmas: the draft tables *)
Section Drafts.
Context {X : Type}.
Variable extra_in : X -> result X.

(** What the schema's constraints say of a table. *)
Record drafts_wf (t : draft_table X) : Prop := {
  dw_key acc e1 e2 r1 r2 : t !! (acc, e1) = Some r1 -> t !! (acc, e2) = Some r2 -> dr_key r1 = dr_key r2 -> e1 = e2;
  dw_version k r : t !! k = Some r -> 0 < dr_version r <= max_int32;
  dw_digest k r : t !! k = Some r -> digest_ok (dr_digest r) = true }.

Lemma row_by_key_some acc key t kr :
  row_by_key acc key t = Some kr -> t !! kr.1 = Some kr.2 /\ kr.1.1 = acc /\ dr_key (X:=X) kr.2 = key.
Proof.
  unfold row_by_key. intros Hh. assert (Hin : kr ∈ filter (has_key acc key) (map_to_list t)).
  { destruct (filter _ _); [done|]. injection Hh as ->. left. }
  apply list_elem_of_filter in Hin as [[H1 H2] Hin]. destruct kr as [k r]. by apply elem_of_map_to_list in Hin.
Qed.

Lemma row_by_key_none acc key t e r :
  row_by_key acc key t = None -> t !! (acc, e) = Some r -> dr_key (X:=X) r <> key.
Proof.
  unfold row_by_key. intros Hh Hr Hk. assert (Hin : ((acc, e), r) ∈ filter (has_key acc key) (map_to_list t)).
  { apply list_elem_of_filter. split; [done|]. by apply elem_of_map_to_list. }
  destruct (filter _ _); [by apply elem_of_nil in Hin|done].
Qed.

Lemma row_by_key_unique acc e r t :
  drafts_wf t -> t !! (acc, e) = Some r -> row_by_key acc (dr_key r) t = Some ((acc, e), r).
Proof.
  intros Hwf Hr. destruct (row_by_key acc (dr_key r) t) as [[[acc' e'] r']|] eqn:E.
  - apply row_by_key_some in E as (H1 & H2 & H3). simpl in *. subst acc'.
    assert (e' = e) as -> by (by eapply (dw_key _ Hwf)). rewrite Hr in H1. by injection H1 as <-.
  - by apply (row_by_key_none _ _ _ _ _ E) in Hr.
Qed.

Lemma put_draft_inv acc accounts now d t t' :
  put_draft acc extra_in accounts now d t = Ok t' ->
  exists x, extra_in (od_extra d) = Ok x /\ t !! (acc, od_EmailID d) = None /\
    row_by_key acc (od_IdempotencyKey d) t = None /\ 0 < od_DraftVersion d <= max_int32 /\
    digest_ok (od_ContentDigest d) = true /\ text_ok (od_IdempotencyKey d) = true /\
    t' = <[(acc, od_EmailID d) := mkDraftRow (od_Status d) (od_DraftVersion d)
           (if 0 <? od_SourceEmailID d then Some (od_SourceEmailID d) else None)
           (od_ContentDigest d) (od_IdempotencyKey d) now now x]> t.
Proof.
  unfold put_draft. destruct (extra_in _) as [x|]; [|done]. cbn [rbind].
  destruct (text_ok (od_IdempotencyKey d) && _) eqn:H1; [|done]. cbn [negb].
  destruct (is_i32 _) eqn:H2; [|done]. cbn [negb].
  destruct (status_ok _ && _ && _ && _) eqn:H3; [|done]. cbn [negb].
  destruct (t !! _) eqn:H4; [done|]. destruct (row_by_key _ _ _) eqn:H5; [done|]. case_bool_decide; [|done].
  intros [= <-]. exists x. unfold is_i32, between in H2. b2p. split_and!; (done || lia).
Qed.

Lemma drafts_wf_insert acc e r t :
  drafts_wf t -> (forall e' r', t !! (acc, e') = Some r' -> dr_key r' <> dr_key r) ->
  0 < dr_version r <= max_int32 -> digest_ok (dr_digest r) = true -> drafts_wf (<[(acc, e) := r]> t).
Proof.
  intros Hwf Hk Hv Hd. split.
  - intros acc' e1 e2 r1 r2. rewrite !lookup_insert. repeat case_decide; simplify_eq; try done.
    + intros [= <-] H2 E. by apply Hk in H2.
    + intros H1 [= <-] E. by apply Hk in H1.
    + by apply (dw_key _ Hwf).
  - intros k r1. rewrite lookup_insert. case_decide; [by intros [= <-]|by apply (dw_version _ Hwf)].
  - intros k r1. rewrite lookup_insert. case_decide; [by intros [= <-]|by apply (dw_digest _ Hwf)].
Qed.

Lemma drafts_wf_delete k t : drafts_wf t -> drafts_wf (delete k t).
Proof.
  intros Hwf. split.
  - intros acc e1 e2 r1 r2 [_ H1]%lookup_delete_Some [_ H2]%lookup_delete_Some. by eapply (dw_key _ Hwf).
  - intros k' r [_ H1]%lookup_delete_Some. by eapply (dw_version _ Hwf).
  - intros k' r [_ H1]%lookup_delete_Some. by eapply (dw_digest _ Hwf).
Qed.

Lemma replace_draft_inv acc now old expected new digest t d t' :
  replace_draft acc now old expected new digest t = Ok (Some d, t') ->
  exists r, t !! (acc, old) = Some r /\ dr_version r = expected /\ expected + 1 <= max_int32 /\
    digest_ok digest = true /\ delete (acc, old) t !! (acc, new) = None /\
    let r' := mkDraftRow (dr_status r) (expected + 1) (dr_source_email_id r) digest (dr_key r) (dr_created_at r) now (dr_extra r) in
    d = scan_draft (X:=X) new r' /\ t' = <[(acc, new) := r']> (delete (acc, old) t).
Proof.
  unfold replace_draft. destruct (is_i32 expected); [|done]. cbn [negb].
  destruct (t !! (acc, old)) as [r|] eqn:Hr; [|done]. destruct (Z.eqb_spec (dr_version r) expected) as [<-|]; [|done].
  destruct (is_i32 (dr_version r + 1)) eqn:Hi; [|done]. cbn [negb]. destruct (digest_ok digest) eqn:Hd; [|done]. cbn [negb].
  destruct (delete _ t !! _) eqn:Hn; [done|]. intros [= <- <-]. exists r. unfold is_i32, between in Hi. b2p.
  split_and!; done.
Qed.

Lemma put_draft_wf acc accounts now d t t' : drafts_wf t -> put_draft acc extra_in accounts now d t = Ok t' -> drafts_wf t'.
Proof.
  intros Hwf Hp. apply put_draft_inv in Hp as (x & _ & _ & Hk & Hv & Hd & _ & ->).
  apply drafts_wf_insert; simpl; try done. intros e r Hr. by eapply row_by_key_none.
Qed.

Lemma replace_draft_wf acc now old expected new digest t d t' :
  drafts_wf t -> replace_draft acc now old expected new digest t = Ok (Some d, t') -> drafts_wf t'.
Proof.
  intros Hwf Hp. apply replace_draft_inv in Hp as (r & Hr & <- & Hv & Hd & Hn & -> & ->).
  pose proof (dw_version _ Hwf _ _ Hr). apply drafts_wf_insert; simpl; [by apply drafts_wf_delete| |lia|done].
  intros e r' Hr' E. apply lookup_delete_Some in Hr' as [Hne Hr']. apply Hne.
  by rewrite (dw_key _ Hwf _ _ _ _ _ Hr' Hr E).
Qed.
End Drafts.

(** The operations on the two draft tables. *)
Inductive draft_step : WDB -> WDB -> Prop :=
| ds_put_agent acc now d w w' : PutAgentOutboundDraft acc now d w = Ok w' -> draft_step w w'
| ds_put_policy acc now d w w' : PutOutboundPolicyDraft acc now d w = Ok w' -> draft_step w w'
| ds_replace_agent acc now old v new dg d w w' : ReplaceAgentOutboundDraft acc now old v new dg w = Ok (Some d, w') -> draft_step w w'
| ds_replace_policy acc now old v new dg d w w' : ReplaceOutboundPolicyDraft acc now old v new dg w = Ok (Some d, w') -> draft_step w w'
| ds_delete_agent acc e w : draft_step w (DeleteAgentOutboundDraft acc e w)
| ds_delete_policy acc e w : draft_step w (DeleteOutboundPolicyDraft acc e w).

(** ** Theorems *)

(** [C7] A draft is sent at most once: over any requests to send any drafts, on
    any nodes, that claim, submit, fail, time out, stop half-way or are retried,
    with drafts written, edited and discarded and claims collected meanwhile, no
    draft has two accepted submissions. *)
Theorem draft_sent_once s : send_reach s -> NoDup (sn_accepted s).
Proof. intros Hr. apply (sw_once _ (send_reach_wf _ Hr)). Qed.

(** A refused submission can be retried: when the submission of a claimed
    draft failed for certain, the request abandons its claim and a new request
    for the draft gets the claim. *)
Theorem refused_can_retry acc now cred req m w claim w1 now' :
  claim_tx acc now cred req m w = Ok (claim, true, w1) ->
  exists claim' w2, claim_tx acc now' cred req m (AbandonDraftSendClaim acc (dm_EmailID m) w1) = Ok (claim', true, w2).
Proof.
  intros Hc. destruct (claim_tx_inv _ _ _ _ _ _ _ _ _ Hc) as [Hnone [r Hw1]]. unfold claim_tx in *.
  destruct (draft_version acc cred req (dm_EmailID m) w) as [v|] eqn:Hv; [|done]. cbn [rbind] in Hc.
  destruct (dm_rcpts m) as [|x l]; [done|]. unfold ClaimDraftSend in *.
  destruct (negb (is_i32 v)) eqn:H1; [done|]. destruct (negb ((0 <=? v) && _)) eqn:H2; [done|].
  rewrite Hnone in Hc. case_bool_decide as Ha; [|done]. cbn [rbind fst snd] in Hc.
  assert (E : w1 = set_claims (<[(acc, dm_EmailID m) := fresh_row now v (dm_digest m)]> (w_claims w)) w).
  { destruct (FindDraftSendClaim _ _ _); [|done]. cbn [rbind negb andb] in Hc. by injection Hc as _ <-. }
  subst w1. unfold AbandonDraftSendClaim, delete_row. cbn [w_claims set_claims].
  rewrite lookup_insert_eq. cbn [cl_status fresh_row]. rewrite bool_decide_eq_true_2 by done.
  change (draft_version _ _ _ _ _) with (draft_version acc cred req (dm_EmailID m) w). rewrite Hv. cbn [rbind].
  rewrite H1, H2. cbn [w_claims set_claims w_accounts]. rewrite lookup_delete_eq, bool_decide_eq_true_2 by done.
  unfold FindDraftSendClaim. cbn [rbind fst snd w_claims set_claims]. rewrite lookup_insert_eq.
  cbn [fmap option_fmap option_map rbind negb andb]. eauto.
Qed.

(** No lost update: after a replacement that named version [v] of a draft
    succeeded, another that names [v] - whether it looks for the draft under its
    old or its new email - matches no row and changes nothing; the draft kept its
    idempotency key and creation time and has version [v + 1]. *)
Theorem replace_once acc now old v new digest w d w1 now' new' digest' :
  drafts_wf (w_agent w) -> ReplaceAgentOutboundDraft acc now old v new digest w = Ok (Some d, w1) ->
  od_DraftVersion d = v + 1 /\ FindAgentOutboundDraftByEmailID acc new w1 = Some d /\
  (exists d0, FindAgentOutboundDraftByEmailID acc old w = Some d0 /\ od_DraftVersion d0 = v /\
     od_IdempotencyKey d = od_IdempotencyKey d0 /\ od_CreatedAt d = od_CreatedAt d0) /\
  (ReplaceAgentOutboundDraft acc now' old v new' digest' w1 = Ok (None, w1)) /\
  (ReplaceAgentOutboundDraft acc now' new v new' digest' w1 = Ok (None, w1)).
Proof.
  intros Hwf Hr. unfold ReplaceAgentOutboundDraft, FindAgentOutboundDraftByEmailID, find_by_email in *.
  destruct (replace_draft _ _ _ _ _ _ _) as [[od t]|] eqn:E; [|done]. cbn [rbind fst snd] in Hr. injection Hr as -> <-.
  destruct (replace_draft_inv _ _ _ _ _ _ _ _ _ E) as (r & Hr & <- & Hv & _ & Hn & Hd & Ht). cbn zeta in *.
  pose proof (dw_version _ Hwf _ _ Hr) as Hpos.
  assert (Hi : is_i32 (dr_version r) = true).
  { unfold is_i32, between, max_int32 in *. apply andb_true_intro. split; apply Z.leb_le; lia. }
  cbn [w_agent set_agent]. subst d. split; [done|]. split; [by rewrite Ht, lookup_insert_eq|]. split.
  { exists (scan_draft old r). by rewrite Hr. }
  assert (Hnone : forall e, e = old \/ e = new ->
    replace_draft acc now' e (dr_version r) new' digest' t = Ok (None, t)).
  { intros e He. unfold replace_draft. rewrite Hi. cbn [negb]. rewrite Ht.
    destruct (decide (e = new)) as [->|Hne].
    - rewrite lookup_insert_eq. cbn [dr_version]. destruct (Z.eqb_spec (dr_version r + 1) (dr_version r)); [lia|done].
    - destruct He as [->|]; [|done]. rewrite lookup_insert_ne by congruence. by rewrite lookup_delete_eq. }
  split; rewrite Hnone by auto; by destruct w.
Qed.

(** A stored draft is found again, by email and by idempotency key, as it was
    stored (a source email of 0 or less is no source). *)
Theorem put_then_find acc now d w w' :
  drafts_wf (w_agent w) -> PutAgentOutboundDraft acc now d w = Ok w' ->
  let d' := mkOutDraft (od_EmailID d) (od_Status d) (od_DraftVersion d) (Z.max 0 (od_SourceEmailID d))
              (od_ContentDigest d) (od_IdempotencyKey d) now now (od_extra d) in
  FindAgentOutboundDraftByEmailID acc (od_EmailID d) w' = Some d' /\
  FindAgentOutboundDraftByIdempotencyKey acc (od_IdempotencyKey d) w' = Ok (Some d').
Proof.
  intros Hwf Hp d'. unfold PutAgentOutboundDraft in Hp. destruct (put_draft _ _ _ _ _ _) as [t|] eqn:E; [|done].
  cbn [rbind] in Hp. injection Hp as <-. pose proof (put_draft_wf _ _ _ _ _ _ _ Hwf E) as Hwf'.
  apply put_draft_inv in E as (x & Hx & _ & _ & _ & _ & Htext & Ht).
  assert (x = od_extra d) as ->.
  { unfold agent_in in Hx. destruct (String.eqb _ _ || _); [by injection Hx as <-|done]. }
  unfold FindAgentOutboundDraftByEmailID, FindAgentOutboundDraftByIdempotencyKey, find_by_email, find_by_key.
  cbn [w_agent set_agent]. rewrite Htext. set (r := mkDraftRow _ _ _ _ _ _ _ _) in Ht.
  assert (Hr : t !! (acc, od_EmailID d) = Some r) by (by rewrite Ht, lookup_insert_eq).
  assert (Hd : scan_draft (od_EmailID d) r = d').
  { unfold scan_draft, r, d'. simpl. f_equal. destruct (Z.ltb_spec 0 (od_SourceEmailID d)); simpl; lia. }
  change (od_IdempotencyKey d) with (dr_key r). rewrite Hr, (row_by_key_unique _ _ _ _ Hwf' Hr). simpl.
  by rewrite Hd.
Qed.

(** Every operation on drafts keeps the tables well-formed: within an account
    an idempotency key names one draft, versions are positive 32-bit integers and
    digests have 32 bytes. *)
Theorem draft_tables_wf w w' :
  draft_step w w' -> drafts_wf (w_agent w) /\ drafts_wf (w_policy w) -> drafts_wf (w_agent w') /\ drafts_wf (w_policy w').
Proof.
  intros Hst [Ha Hp]. destruct Hst as [acc now d w w' H|acc now d w w' H|acc now old v new dg d w w' H
    |acc now old v new dg d w w' H|acc e w|acc e w];
    unfold PutAgentOutboundDraft, PutOutboundPolicyDraft, ReplaceAgentOutboundDraft, ReplaceOutboundPolicyDraft in H ||
      (split; simpl; unfold delete_draft; by try apply drafts_wf_delete).
  - destruct (put_draft _ _ _ _ _ _) as [t|] eqn:E; [|done]. injection H as <-. split; [by eapply put_draft_wf|done].
  - destruct (put_draft _ _ _ _ _ _) as [t|] eqn:E; [|done]. injection H as <-. split; [done|by eapply put_draft_wf].
  - destruct (replace_draft _ _ _ _ _ _ _) as [[od t]|] eqn:E; [|done]. injection H as -> <-.
    split; [by eapply replace_draft_wf|done].
  - destruct (replace_draft _ _ _ _ _ _ _) as [[od t]|] eqn:E; [|done]. injection H as -> <-.
    split; [done|by eapply replace_draft_wf].
Qed.

(** ** Witnesses *)

Definition demo_digest32 : string := str_of (repeat "d"%char 32).
Definition demo_wdb : WDB := mkWDB {[1]} ∅ ∅ ∅ ∅.
Definition demo_message : DraftMessage := mkDraftMessage 40 ["bob@example.org"] demo_digest32.
Definition demo_draft : AgentOutboundDraft :=
  mkOutDraft 40 "pending_confirmation" 1 0 demo_digest32 "key-1" 0 0 "agent_reply_draft".

Definition demo_claimed : WDB := set_claims {[(1, 40) := fresh_row 7 0 demo_digest32]} demo_wdb.
Lemma demo_claim : claim_tx 1 7 0 None demo_message demo_wdb
  = Ok (mkDraftSendClaim 40 0 demo_digest32 processing 0 [] 7 7, true, demo_claimed).
Proof. vm_compute. reflexivity. Qed.

(** The draft is written, claimed, and its submission accepted. *)
Lemma draft_sent_once_witness : NoDup [(1, 40)].
Proof.
  apply (draft_sent_once (mkSends demo_claimed {[(1, 40)]} [mkRequest (1, 40) (Submitted 50 (Some [3]))] [(1, 40)] 41)).
  eapply (sr_step (mkSends demo_claimed {[(1, 40)]} [mkRequest (1, 40) Holding] [] 41));
    [|apply (sd_submitted (1, 40) [] [] 50 (Some [3])); reflexivity].
  eapply (sr_step (mkSends demo_wdb {[(1, 40)]} [] [] 41));
    [|refine (sd_claimed 1 7 0 None demo_message _ demo_claimed (mkSends demo_wdb {[(1, 40)]} [] [] 41) _ demo_claim); set_solver].
  eapply (sr_step (mkSends demo_wdb ∅ [] [] 40)); [apply (sr_start demo_wdb 40); reflexivity|].
  replace ({[(1, 40)]} : gset (Z * Z)) with ({[(1, 40)]} ∪ ∅ : gset (Z * Z)) by set_solver.
  apply (sd_draft 1 40 (mkSends demo_wdb ∅ [] [] 40)). simpl. lia.
Defined.

Lemma refused_can_retry_witness :
  exists claim' w2, claim_tx 1 9 0 None demo_message (AbandonDraftSendClaim 1 40 demo_claimed) = Ok (claim', true, w2).
Proof. exact (refused_can_retry 1 7 0 None demo_message demo_wdb _ demo_claimed 9 demo_claim). Defined.

Definition demo_stored : WDB := match PutAgentOutboundDraft 1 7 demo_draft demo_wdb with Ok w => w | Err _ => demo_wdb end.
Lemma demo_put : PutAgentOutboundDraft 1 7 demo_draft demo_wdb = Ok demo_stored.
Proof. vm_compute. reflexivity. Qed.

Lemma empty_drafts_wf {X} : drafts_wf (∅ : draft_table X).
Proof. split; intros; simplify_map_eq. Qed.

Lemma demo_stored_wf : drafts_wf (w_agent demo_stored).
Proof.
  unfold demo_stored, PutAgentOutboundDraft. destruct (put_draft _ _ _ _ _ _) as [t|] eqn:E; [|exact empty_drafts_wf].
  exact (put_draft_wf _ _ _ _ _ _ _ empty_drafts_wf E).
Qed.

Lemma put_then_find_witness :
  FindAgentOutboundDraftByEmailID 1 40 demo_stored = Some (mkOutDraft 40 "pending_confirmation" 1 0 demo_digest32 "key-1" 7 7 "agent_reply_draft").
Proof. exact (proj1 (put_then_find 1 7 demo_draft demo_wdb demo_stored empty_drafts_wf demo_put)). Defined.

Lemma replace_once_witness :
  exists w1, ReplaceAgentOutboundDraft 1 8 40 1 41 demo_digest32 demo_stored
    = Ok (Some (mkOutDraft 41 "pending_confirmation" 2 0 demo_digest32 "key-1" 7 8 "agent_reply_draft"), w1) /\
    ReplaceAgentOutboundDraft 1 9 40 1 42 demo_digest32 w1 = Ok (None, w1).
Proof.
  destruct (ReplaceAgentOutboundDraft 1 8 40 1 41 demo_digest32 demo_stored) as [[od w1]|] eqn:E;
    [|vm_compute in E; discriminate].
  assert (Hod : od = Some (mkOutDraft 41 "pending_confirmation" 2 0 demo_digest32 "key-1" 7 8 "agent_reply_draft")).
  { vm_compute in E. injection E as <- _. vm_compute. reflexivity. }
  subst od. exists w1. split; [reflexivity|].
  destruct (replace_once 1 8 40 1 41 demo_digest32 demo_stored _ w1 9 42 demo_digest32 demo_stored_wf E) as (_ & _ & _ & H & _).
  exact H.
Defined.

Lemma draft_tables_wf_witness : drafts_wf (w_agent demo_stored).
Proof.
  refine (proj1 (draft_tables_wf demo_wdb demo_stored _ (conj empty_drafts_wf empty_drafts_wf))).
  exact (ds_put_agent 1 7 demo_draft _ _ demo_put).
Defined.
