(* ===== verification/WebParts.v ===== *)
(** * Reading stored mail in the web API (protocol/webapi/messages.go, attachments.go, drafts.go)

    What the handlers take from a message: its envelope, its texts, its attachments and
    their ids, the recipients of a reply, the intent a draft is checked under.  The MIME
    parser is a parameter: [EnsurePart] gives the tree of parts. *)

From S2P Require Import Prelude GoStrings Shapes Changes Strconv Verp Headers Smtp Base64 Textproto RuleMetadata OutboundPolicy MailRules Json.

Local Open Scope go_scope.

(** ** Parsed messages *)

(** A leaf's own data: what [DispositionFilename] returns, its media type and charset, the
    decoded bytes that can be read ([None]: no reader), and the text as [ReaderUTF8OrBinary]
    gives it ([None]: reading fails). *)
Record PartInfo := mkInfo {
  pi_disposition : string; pi_filename : string; pi_disposition_fails : bool;
  pi_MediaType : string; pi_MediaSubType : string; pi_charset : string;
  pi_content : option (list ascii); pi_utf8 : option (list ascii); pi_DecodedSize : Z }.
Inductive WebPart : Type := mkWebPart (info : PartInfo) (parts : list WebPart).
Definition wp_info (p : WebPart) : PartInfo := let '(mkWebPart i _) := p in i.
Definition wp_parts (p : WebPart) : list WebPart := let '(mkWebPart _ l) := p in l.

Record MailEnvelope := mkMailEnvelope {
  me_Subject : string; me_From : list EnvAddress; me_ReplyTo : list EnvAddress;
  me_To : list EnvAddress; me_CC : list EnvAddress; me_BCC : list EnvAddress;
  me_MessageID : string; me_InReplyTo : string }.
(** [EnsurePart] of a message: whether it reports an error, and the part it returns. *)
Record Ensured := mkEnsured {
  ep_fails : bool; ep_envelope : option MailEnvelope; ep_header : option MIMEHeader; ep_part : WebPart }.
Class MoxMessage := {
  EnsurePart : list ascii -> Ensured;
  DecodeReader : string -> list ascii -> list ascii }.

(** [envelope] *)
Record envelope := mkEnvelope {
  ev_subject : string; ev_from : string; ev_replyTo : string; ev_to : list string; ev_cc : list string; ev_bcc : list string;
  ev_messageID : string; ev_references : list string; ev_originalFrom : string; ev_sentBy : string }.
Definition no_envelope : envelope :=
  mkEnvelope EmptyString EmptyString EmptyString [] [] [] EmptyString [] EmptyString EmptyString.

(** ** Text *)

(** [strings.Fields], on the runes of the text. *)
Fixpoint fields_from (word : list ascii) (l : list (Z * list ascii)) : list (list ascii) :=
  match l with
  | [] => match word with [] => [] | _ => [word] end
  | (r, b) :: l =>
      if is_space_rune r then match word with [] => fields_from [] l | _ => word :: fields_from [] l end
      else fields_from (word ++ b) l
  end.
Definition Fields (s : string) : list string := str_of <$> fields_from [] (segs (bytes_of s)).
(** [strings.ToValidUTF8(s, "")] *)
Definition drop_invalid (l : list ascii) : list ascii :=
  concat (snd <$> List.filter (fun p => negb (bad_seg p)) (segs l)).

Definition mailbox_of (a : EnvAddress) : string := (ea_User a ++ "@" ++ ea_Host a)%string.

(** [stripTags]: the text outside angle brackets. *)
Fixpoint strip_tags (depth : nat) (l : list (Z * list ascii)) : list ascii :=
  match l with
  | [] => []
  | (r, _) :: l =>
      if r =? 60 then strip_tags (S depth) l
      else if r =? 62 then strip_tags (pred depth) l
      else match depth with O => encode_rune r ++ strip_tags depth l | _ => strip_tags depth l end
  end.
Definition stripTags (s : string) : string := str_of (strip_tags 0 (segs (bytes_of s))).

(** The longest prefix of 140 bytes that is valid UTF-8. *)
Fixpoint valid_prefix (n : nat) (l : list ascii) : list ascii :=
  match n with
  | O => []
  | S k => if valid_utf8 (str_of (take n l)) then take n l else valid_prefix k l
  end.

Section Parts.
Context `{Unicode} `{UnicodeUpper} `{Hmac} `{Sha256} `{AddressParser} `{AddressText} `{MoxMessage}.

(** ** The envelope *)

Definition validAttributionAddress (value : string) : string :=
  match ParseAddress (trim_space value) with Some address => Address_String address | None => EmptyString end.

(** Who wrote and who forwarded a message that a rule forwarded. *)
Definition attributed (data : list ascii) (header : option MIMEHeader) (ruleAuthenticator : option string) (expectedRecipients : list string) (now : Z)
  : string * string :=
  match header, ruleAuthenticator with
  | Some _, Some key =>
      match VerifyAny key data expectedRecipients now with
      | Some m => (validAttributionAddress (md_OriginalFrom m), validAttributionAddress (md_SentBy m))
      | None => (EmptyString, EmptyString)
      end
  | _, _ => (EmptyString, EmptyString)
  end.
Definition first_address (l : list EnvAddress) : string := match l with a :: _ => mailbox_of a | [] => EmptyString end.

Definition parseEnvelope (data : list ascii) (ruleAuthenticator : option string) (expectedRecipients : list string) (now : Z) : envelope :=
  let p := EnsurePart data in
  let '(originalFrom, sentBy) := attributed data (ep_header p) ruleAuthenticator expectedRecipients now in
  let refs := match ep_header p with Some h => Fields (Get h "References") | None => [] end in
  match ep_envelope p with
  | None => if ep_fails p then no_envelope
            else mkEnvelope EmptyString EmptyString EmptyString [] [] [] EmptyString refs originalFrom sentBy
  | Some env =>
      mkEnvelope (me_Subject env) (first_address (me_From env)) (first_address (me_ReplyTo env))
        (mailbox_of <$> me_To env) (mailbox_of <$> me_CC env) (mailbox_of <$> me_BCC env) (me_MessageID env)
        (match refs with [] => if String.eqb (me_InReplyTo env) EmptyString then [] else [me_InReplyTo env] | _ => refs end)
        originalFrom sentBy
  end.

(** ** Bodies *)

Definition gb_aliases : list string :=
  ["chinese"; "cp936"; "csgb2312"; "csiso58gb231280"; "euc-cn"; "gb-2312"; "gb2312"; "gb2312-80"; "gb_2312-80"; "iso-ir-58"; "x-gbk"]%string.
Definition normalizedCharset (charset : string) : string :=
  if bool_decide (ToLower (trim_space charset) ∈ gb_aliases) then "gb18030" else charset.
Definition ReadUTF8 (i : PartInfo) : string :=
  str_of (drop_invalid (DecodeReader (normalizedCharset (pi_charset i)) (default [] (pi_content i)))).

Definition is_text (i : PartInfo) : bool := EqualFold (pi_MediaType i) "TEXT" || String.eqb (pi_MediaType i) EmptyString.
Definition is_html (i : PartInfo) : bool := EqualFold (pi_MediaSubType i) "HTML".

(** The first plain text and the first HTML. *)
Definition body_leaf (i : PartInfo) (acc : string * string) : string * string :=
  let '(text, html) := acc in
  if negb (is_text i) then acc
  else let body := ReadUTF8 i in
       if is_html i then (if String.eqb html EmptyString then (text, body) else acc)
       else if String.eqb text EmptyString then (body, html) else acc.
Fixpoint walk_bodies (p : WebPart) (acc : string * string) {struct p} : string * string :=
  match p with
  | mkWebPart i [] => body_leaf i acc
  | mkWebPart _ parts => (fix all l acc := match l with [] => acc | p :: l => all l (walk_bodies p acc) end) parts acc
  end.
Definition parseBodies (data : list ascii) : string * string * list string :=
  let p := EnsurePart data in
  match ep_envelope p with
  | None => if ep_fails p then (EmptyString, EmptyString, []) else (walk_bodies (ep_part p) (EmptyString, EmptyString), [])
  | Some env => (walk_bodies (ep_part p) (EmptyString, EmptyString), mailbox_of <$> me_CC env)
  end.

Definition previewText (data : list ascii) : string :=
  let '(text, html, _) := parseBodies data in
  let s := if String.eqb text EmptyString then stripTags html else text in
  let s := join " " (Fields (str_of (drop_invalid (bytes_of s)))) in
  if (140 <? String.length s)%nat then str_of (valid_prefix 140 (bytes_of s)) else s.

(** ** Replies *)

Definition replyRecipients (env : envelope) (self : string) (all : bool) : list string * list string :=
  let primary := if String.eqb (ev_replyTo env) EmptyString then ev_from env else ev_replyTo env in
  let to := if String.eqb primary EmptyString then [] else [primary] in
  let folded (l : list string) (a : string) := existsb (fun x => EqualFold x a) l in
  (to, if all then
         foldl (fun cc a =>
           if negb (String.eqb a EmptyString) && negb (EqualFold a self) && negb (folded to a) && negb (folded cc a)
           then cc ++ [a] else cc) [] (ev_to env ++ ev_cc env)
       else []).

Definition ensurePrefix (s prefix : string) : string :=
  if has_prefix (ToLower s) (ToLower prefix) then s else (prefix ++ s)%string.

(** ** Attachments *)

Definition isAttachmentPart (i : PartInfo) : bool :=
  if EqualFold (pi_disposition i) "attachment" || negb (String.eqb (pi_filename i) EmptyString) then true
  else let mediaType := ToUpper (pi_MediaType i) in
       negb (String.eqb mediaType EmptyString) && negb (String.eqb mediaType "TEXT") && negb (String.eqb mediaType "MULTIPART").
Definition attachmentContentType (i : PartInfo) : string := forwardContentType (pi_MediaType i) (pi_MediaSubType i).
Definition attachmentDownloadSizeAllowed (size maxSize : Z) : bool := (0 <? maxSize) && (0 <=? size) && (size <=? maxSize).

Definition safeAttachmentFilename (filename : string) : string :=
  let filename := safeForwardFilename filename in
  let runes := segs (bytes_of filename) in
  if (255 <? length runes)%nat then str_of (concat ((fun p => encode_rune p.1) <$> take 255 runes)) else filename.

Record receivedAttachment := mkReceived {
  ra_PartID : string; ra_Filename : string; ra_ContentType : string; ra_Disposition : string; ra_Size : Z }.
Definition maxAttachmentMetadata : nat := 100.

Definition received_of (i : PartInfo) (partID : string) : receivedAttachment :=
  mkReceived partID (safeAttachmentFilename (pi_filename i)) (attachmentContentType i) (ToLower (pi_disposition i)) (pi_DecodedSize i).
Definition child_id (partID : string) (n : nat) : string := (partID ++ "." ++ FormatInt (Z.of_nat n))%string.
(** Found so far, and whether there were more than the limit. *)
Fixpoint collect (p : WebPart) (partID : string) (acc : list receivedAttachment * bool) {struct p} : list receivedAttachment * bool :=
  if acc.2 then acc
  else match p with
  | mkWebPart i [] =>
      if negb (isAttachmentPart i) then acc
      else if (length acc.1 =? maxAttachmentMetadata)%nat then (acc.1, true)
      else (acc.1 ++ [received_of i partID], false)
  | mkWebPart _ parts =>
      (fix all l n acc := match l with [] => acc | p :: l => all l (S n) (collect p (child_id partID n) acc) end) parts 1%nat acc
  end.
Definition collectAttachments (root : WebPart) : list receivedAttachment * bool := collect root "1" ([], false).
Definition parseAttachments (data : list ascii) : list receivedAttachment * bool :=
  let p := EnsurePart data in
  match wp_parts (ep_part p) with
  | [] => if ep_fails p then ([], false) else collectAttachments (ep_part p)
  | _ => collectAttachments (ep_part p)
  end.

(** *** Finding a part by its id *)

Definition validPartID (partID : string) : bool :=
  if String.eqb partID EmptyString || (128 <? String.length partID)%nat then false
  else forallb (fun segment => match ParseInt segment with Some value => 0 <? value | None => false end) (split partID "."%char).
Fixpoint find_part (segments : list string) (p : WebPart) : option WebPart :=
  match segments with
  | [] => Some p
  | segment :: segments =>
      let index := default 0 (ParseInt segment) in
      match wp_parts p !! Z.to_nat (index - 1) with
      | Some q => find_part segments q
      | None => None
      end
  end.
Definition findMIMEPart (root : WebPart) (partID : string) : option WebPart :=
  if negb (validPartID partID) then None
  else match split partID "."%char with
       | first :: segments => if String.eqb first "1" then find_part segments root else None
       | [] => None
       end.

(** *** Download *)

Inductive download := Attachment (contentType filename : string) (content : list ascii) | NoAttachment (code : string).
Definition download_part (raw : list ascii) (partID : string) (maxMessageSize : Z) : download :=
  if maxMessageSize <? Z.of_nat (length raw) then NoAttachment "message_too_large"
  else
    let p := EnsurePart raw in
    if ep_fails p && match wp_parts (ep_part p) with [] => true | _ => false end then NoAttachment "invalid_mime"
    else match findMIMEPart (ep_part p) partID with
         | None => NoAttachment "not_found"
         | Some (mkWebPart i (_ :: _)) => NoAttachment "not_found"
         | Some (mkWebPart i []) =>
             if negb (isAttachmentPart i) then NoAttachment "not_found"
             else if negb (attachmentDownloadSizeAllowed (pi_DecodedSize i) maxMessageSize) then NoAttachment "attachment_too_large"
             else match pi_content i with
                  | None => NoAttachment "invalid_mime"
                  | Some content => Attachment (attachmentContentType i) (safeAttachmentFilename (pi_filename i))
                                      (take (Z.to_nat (maxMessageSize + 1)) content)
                  end
         end.

(** ** The intent of a draft *)

(** What the walk gathers: attachments, text, HTML. *)
Record Gathered := mkGathered { ga_count : Z; ga_text : list ascii; ga_html : list ascii }.
Definition append_body (dst body : list ascii) : list ascii := match dst with [] => body | _ => dst ++ LF :: body end.
Definition intent_leaf (i : PartInfo) (g : Gathered) : result Gathered :=
  if pi_disposition_fails i then Err (ErrText "disposition")
  else if isAttachmentPart i then Ok (mkGathered (ga_count g + 1) (ga_text g) (ga_html g))
  else if negb (is_text i) then Ok g
  else match pi_utf8 i with
       | None => Err (ErrText "read part")
       | Some body => Ok (if is_html i then mkGathered (ga_count g) (ga_text g) (append_body (ga_html g) body)
                          else mkGathered (ga_count g) (append_body (ga_text g) body) (ga_html g))
       end.
Fixpoint walk_intent (p : WebPart) (g : Gathered) {struct p} : result Gathered :=
  match p with
  | mkWebPart i [] => intent_leaf i g
  | mkWebPart _ parts =>
      (fix all l g := match l with [] => Ok g | p :: l => try! g := walk_intent p g in all l g end) parts g
  end.

(** A draft prepared for an agent: its type and source. *)
Definition agentDraftTypePendingConfirmation : string := "agent_pending_confirmation".
Definition agentDraftTypeReply : string := "agent_reply_draft".
Definition source_id (sourceEmailID : Z) : string :=
  if 0 <? sourceEmailID then ("E" ++ FormatInt sourceEmailID)%string else EmptyString.
Definition agentDraftPolicyIntent (raw : list ascii) (draft : option (string * Z)) : result Intent :=
  let p := EnsurePart raw in
  if ep_fails p then Err (ErrText "parse Agent Draft for outbound policy")
  else match ep_envelope p with
  | None => Err (ErrText "parse Agent Draft for outbound policy")
  | Some env =>
      try! g := walk_intent (ep_part p) (mkGathered 0 [] []) in
      let '(source, operation, sourceID) :=
        match draft with
        | Some (draftType, sourceEmailID) =>
            if String.eqb draftType agentDraftTypeReply then (SourceInboundAutoReply, "mail.message.reply"%string, source_id sourceEmailID)
            else (SourceOwnerDirect, "mail.message.send"%string, EmptyString)
        | None => (SourceOwnerDirect, "mail.message.send"%string, EmptyString)
        end in
      Ok (mkIntent source operation sourceID (Some (mailbox_of <$> me_To env)) (mailbox_of <$> me_CC env) (mailbox_of <$> me_BCC env)
            (me_Subject env) (str_of (ga_text g)) (str_of (ga_html g)) (ga_count g))
  end.
End Parts.

(** ** Attachments: what is listed can be fetched *)

(** The leaves with their ids, in order. *)
Fixpoint leaves (p : WebPart) (partID : string) {struct p} : list (string * PartInfo) :=
  match p with
  | mkWebPart i [] => [(partID, i)]
  | mkWebPart _ parts => (fix all l n := match l with [] => [] | p :: l => leaves p (child_id partID n) ++ all l (S n) end) parts 1%nat
  end.
(** The leaves of a list of parts numbered from [n]. *)
Fixpoint leaves_from (n : nat) (l : list WebPart) (partID : string) : list (string * PartInfo) :=
  match l with [] => [] | p :: l => leaves p (child_id partID n) ++ leaves_from (S n) l partID end.
Lemma leaves_node i q l partID : leaves (mkWebPart i (q :: l)) partID = leaves_from 1 (q :: l) partID.
Proof.
  assert (Hall : forall l n, (fix all l n := match l with [] => [] | p :: l => leaves p (child_id partID n) ++ all l (S n) end) l n = leaves_from n l partID).
  { clear. induction l as [|p l IH]; intros n; [done|]. cbn [leaves_from]. by rewrite <- IH. }
  exact (Hall (q :: l) 1%nat).
Qed.

Section PartInd.
Variable P : WebPart -> Prop.
Hypothesis Hnode : forall i l, Forall P l -> P (mkWebPart i l).
Fixpoint WebPart_nested (p : WebPart) : P p :=
  match p with
  | mkWebPart i l => Hnode i l ((fix go (l : list WebPart) : Forall P l :=
      match l with [] => Forall_nil_2 _ | p :: l => Forall_cons_2 _ _ _ (WebPart_nested p) (go l) end) l)
  end.
End PartInd.

(** Lists shorter than 2^63, as any in memory is. *)
Fixpoint small_parts (p : WebPart) : bool :=
  let '(mkWebPart _ l) := p in (Z.of_nat (length l) <=? max_int64) && forallb small_parts l.

Section PartsSpec.
Context `{Unicode} `{UnicodeUpper}.

Definition wanted (l : list (string * PartInfo)) : list receivedAttachment :=
  (fun x : string * PartInfo => received_of x.2 x.1) <$> List.filter (fun x : string * PartInfo => isAttachmentPart x.2) l.
Lemma wanted_app l1 l2 : wanted (l1 ++ l2) = wanted l1 ++ wanted l2.
Proof. unfold wanted. by rewrite List.filter_app, fmap_app. Qed.
Definition limited (l : list receivedAttachment) : list receivedAttachment * bool :=
  (take maxAttachmentMetadata l, (maxAttachmentMetadata <? length l)%nat).

Lemma limited_full l x : (maxAttachmentMetadata <? length l)%nat = true -> limited (l ++ x) = limited l.
Proof.
  intros Hl%Nat.ltb_lt. unfold limited. rewrite take_app_le by lia. f_equal. rewrite length_app.
  destruct (Nat.ltb_spec maxAttachmentMetadata (length l + length x)), (Nat.ltb_spec maxAttachmentMetadata (length l)); lia || done.
Qed.
Lemma collect_limited p : forall partID out, collect p partID (limited out) = limited (out ++ wanted (leaves p partID)).
Proof.
  induction p as [i l IH] using WebPart_nested. intros partID out. destruct (maxAttachmentMetadata <? length out)%nat eqn:Hfull.
  { rewrite (limited_full out) by done. destruct l; cbn [collect]; unfold limited at 1; cbn [snd]; by rewrite Hfull. }
  assert (Hlen : (length out <= maxAttachmentMetadata)%nat) by (by apply Nat.ltb_ge).
  destruct l as [|q l].
  - cbn [collect leaves]. unfold limited at 1 2 3 4 5. cbn [fst snd]. rewrite Hfull, take_ge by done. unfold wanted. cbn [List.filter snd].
    destruct (isAttachmentPart i); cbn [negb]; [|rewrite app_nil_r; unfold limited; by rewrite take_ge, Hfull].
    unfold limited. cbn [fmap list_fmap fst snd]. rewrite length_app. cbn [length]. destruct (Nat.eqb_spec (length out) maxAttachmentMetadata) as [E|Hne].
    + rewrite take_app_le, (take_ge out) by lia. f_equal. symmetry. apply Nat.ltb_lt. lia.
    + rewrite (take_ge out) by done. rewrite (take_ge (out ++ _)) by (rewrite length_app; cbn [length]; lia). f_equal. symmetry. apply Nat.ltb_ge. lia.
  - rewrite leaves_node.
    assert (Hall : forall l n out, Forall (fun p => forall partID out, collect p partID (limited out) = limited (out ++ wanted (leaves p partID))) l ->
      (fix all l n acc := match l with [] => acc | p :: l => all l (S n) (collect p (child_id partID n) acc) end) l n (limited out)
      = limited (out ++ wanted (leaves_from n l partID))).
    { clear. induction l as [|p l IHl]; intros n out Hl; [cbn [leaves_from]; by rewrite app_nil_r|].
      apply Forall_cons in Hl as [Hp Hl]. cbn [leaves_from]. rewrite wanted_app, Hp, app_assoc. by apply IHl. }
    transitivity (if (limited out).2 then limited out else limited (out ++ wanted (leaves_from 1 (q :: l) partID))).
    + rewrite <- (Hall (q :: l) 1%nat out IH). done.
    + unfold limited at 1. cbn [snd]. by rewrite Hfull.
Qed.

(** The list of attachments is the first hundred attachments of the message's leaves, in
    order, with a note when there are more. *)
Theorem attachments_listed root : collectAttachments root = limited (wanted (leaves root "1")).
Proof. unfold collectAttachments. change (@nil receivedAttachment, false) with (limited []). by rewrite collect_limited. Qed.

(** *** Ids *)

Definition path_id (partID : string) (path : list nat) : string := foldl child_id partID path.
Fixpoint follow (path : list nat) (p : WebPart) : option WebPart :=
  match path with
  | [] => Some p
  | n :: path => match wp_parts p !! pred n with Some q => follow path q | None => None end
  end.
Definition small_index (n : nat) : Prop := (0 < n)%nat /\ Z.of_nat n <= max_int64.

Lemma leaves_paths p : forall partID id i, small_parts p = true -> (id, i) ∈ leaves p partID ->
  exists path, id = path_id partID path /\ follow path p = Some (mkWebPart i []) /\ Forall small_index path.
Proof.
  induction p as [j l IH] using WebPart_nested. intros partID id i Hs Hin. destruct l as [|q l].
  - cbn [leaves] in Hin. apply list_elem_of_singleton in Hin as [= -> ->]. by exists [].
  - rewrite leaves_node in Hin. cbn [small_parts] in Hs. apply andb_prop in Hs as [Hlen Hall]. apply Z.leb_le in Hlen.
    assert (G : forall l k, Forall (fun p => forall partID id i, small_parts p = true -> (id, i) ∈ leaves p partID ->
                exists path, id = path_id partID path /\ follow path p = Some (mkWebPart i []) /\ Forall small_index path) l ->
              forallb small_parts l = true -> (id, i) ∈ leaves_from (S k) l partID ->
              exists m path p', l !! m = Some p' /\ id = path_id (child_id partID (S (k + m))) path /\ follow path p' = Some (mkWebPart i []) /\ Forall small_index path).
    { clear. induction l as [|p l IHl]; intros k Hl Hs Hin; [by apply not_elem_of_nil in Hin|].
      apply Forall_cons in Hl as [Hp Hl]. cbn [forallb] in Hs. apply andb_prop in Hs as [Hsp Hsl].
      cbn [leaves_from] in Hin. apply elem_of_app in Hin as [Hin|Hin].
      - destruct (Hp _ _ _ Hsp Hin) as (path & E & Hf & Hi). exists 0%nat, path, p. by rewrite Nat.add_0_r.
      - destruct (IHl (S k) Hl Hsl Hin) as (m & path & p' & Hm & E & Hf). exists (S m), path, p'. by rewrite Nat.add_succ_r. }
    destruct (G _ 0%nat IH Hall Hin) as (m & path & p' & Hm & E & Hf & Hi). exists (S m :: path). split; [exact E|].
    split; [cbn [follow wp_parts pred]; by rewrite Hm|]. constructor; [|done]. split; [lia|].
    apply lookup_lt_Some in Hm. lia.
Qed.

Lemma format_no_dot n : small_index n -> "."%char ∉ bytes_of (FormatInt (Z.of_nat n)).
Proof. intros [H1 H2]. apply FormatInt_without; [done|done|]. unfold is_i64, min_int64. apply andb_true_intro. split; apply Z.leb_le; lia. Qed.
Lemma parse_index n : small_index n -> ParseInt (FormatInt (Z.of_nat n)) = Some (Z.of_nat n).
Proof. intros [H1 H2]. apply ParseInt_FormatInt. unfold is_i64, min_int64. apply andb_true_intro. split; apply Z.leb_le; lia. Qed.
Definition segment (n : nat) : string := FormatInt (Z.of_nat n).

Lemma split_l_nonempty c l : split_l c l <> [].
Proof. destruct l as [|x l]; cbn [split_l]; [done|]. destruct (Ascii.eqb x c); [done|]. by destruct (split_l c l). Qed.
Lemma split_l_last c l t : c ∉ t -> split_l c (l ++ c :: t) = split_l c l ++ [t].
Proof.
  intros Ht. induction l as [|x l IH]; cbn [app split_l].
  - by rewrite Ascii.eqb_refl, split_l_none.
  - rewrite IH. destruct (Ascii.eqb x c); [done|]. pose proof (split_l_nonempty c l). by destruct (split_l c l).
Qed.
Lemma split_last (s t : string) : "."%char ∉ bytes_of t -> split (s ++ "." ++ t) "."%char = split s "."%char ++ [t].
Proof.
  intros Ht. unfold split. rewrite !bytes_of_app. change (bytes_of ".") with ["."%char]. cbn [app].
  rewrite split_l_last, fmap_app by done. cbn. by rewrite str_of_bytes_of.
Qed.
Lemma split_path path : Forall small_index path -> split (path_id "1" path) "."%char = "1" :: (segment <$> path).
Proof.
  intros Hp. induction path as [|n path IH] using rev_ind; [done|]. apply Forall_app in Hp as [Hp [Hn _]%Forall_cons].
  unfold path_id in *. rewrite foldl_app. cbn [foldl].
  change (child_id (foldl child_id "1" path) n) with (foldl child_id "1" path ++ "." ++ segment n)%string.
  rewrite split_last by (by apply format_no_dot).
  rewrite IH, fmap_app by done. reflexivity.
Qed.
Lemma find_follow path p : Forall small_index path -> find_part (segment <$> path) p = follow path p.
Proof.
  revert p. induction path as [|n path IH]; intros p Hp; [done|]. apply Forall_cons in Hp as [Hn Hp]. csimpl. cbn [find_part follow].
  unfold segment at 1. rewrite parse_index by done. cbn [default from_option]. unfold id. replace (Z.to_nat (Z.of_nat n - 1)) with (pred n) by (destruct Hn; lia).
  destruct (wp_parts p !! pred n); [by apply IH|done].
Qed.

(** Every attachment that is listed is found under its id as the leaf it was listed for, as
    long as the id is not longer than the 128 bytes that [validPartID] admits. *)
Theorem listed_found root at_ (Hs : small_parts root = true) (Hin : at_ ∈ (collectAttachments root).1)
  (Hlen : (String.length (ra_PartID at_) <= 128)%nat) :
  exists i, findMIMEPart root (ra_PartID at_) = Some (mkWebPart i []) /\ isAttachmentPart i = true /\
    at_ = received_of i (ra_PartID at_).
Proof.
  rewrite attachments_listed in Hin. unfold limited in Hin. cbn [fst] in Hin. apply elem_of_take in Hin as (k & Hk & _).
  apply list_elem_of_lookup_2 in Hk. unfold wanted in Hk. apply list_elem_of_fmap in Hk as ([id i] & -> & Hk).
  apply list_elem_of_In, filter_In in Hk as [Hk Ha]. apply list_elem_of_In in Hk. cbn [fst snd] in *. exists i. split; [|done].
  destruct (leaves_paths _ _ _ _ Hs Hk) as (path & -> & Hf & Hi). cbn [ra_PartID received_of] in *. unfold findMIMEPart.
  rewrite split_path by done.
  assert (Hv : validPartID (path_id "1" path) = true).
  { unfold validPartID. rewrite (proj2 (Nat.ltb_ge _ _) Hlen), orb_false_r.
    destruct (String.eqb_spec (path_id "1" path) EmptyString) as [E|_].
    - exfalso. apply (f_equal (fun s => split s "."%char)) in E. rewrite split_path in E by done. destruct path; done.
    - rewrite split_path by done. cbn [forallb]. apply andb_true_intro. split; [done|]. apply forallb_forall. intros s Hs'.
      apply list_elem_of_In, list_elem_of_fmap in Hs' as (n & -> & Hn). rewrite Forall_forall in Hi. specialize (Hi n Hn).
      unfold segment. rewrite parse_index by done. destruct Hi. lia. }
  rewrite Hv. cbn [negb]. rewrite String.eqb_refl. by rewrite find_follow.
Qed.
End PartsSpec.

(** ** Witness: a text and a picture; and a part nested too deep to be fetched *)

#[local] Instance wp_unicode : Unicode := { unicode_lower := fun r => r; EqualFold := fun s t => String.eqb (ascii_lower s) (ascii_lower t) }.
#[local] Instance wp_upper : UnicodeUpper := { unicode_upper := fun r => r }.
Definition wp_leaf (filename mediaType subType : string) : WebPart :=
  mkWebPart (mkInfo EmptyString filename false mediaType subType EmptyString (Some (bytes_of "x")) (Some (bytes_of "x")) 1) [].
Definition wp_multipart (l : list WebPart) : WebPart :=
  mkWebPart (mkInfo EmptyString EmptyString false "MULTIPART" "MIXED" EmptyString None None 0) l.
Definition wp_root : WebPart := wp_multipart [wp_leaf EmptyString "TEXT" "PLAIN"; wp_multipart [wp_leaf "a.png" "IMAGE" "PNG"]].
Definition wp_picture : receivedAttachment := mkReceived "1.2.1" "a.png" "image/png" EmptyString 1.
Lemma listed_found_witness : exists i, findMIMEPart wp_root "1.2.1" = Some (mkWebPart i []) /\ isAttachmentPart i = true /\
  wp_picture = received_of i "1.2.1".
Proof.
  assert (Hl : (collectAttachments wp_root).1 = [wp_picture]) by (vm_compute; reflexivity).
  assert (Hs : small_parts wp_root = true) by (vm_compute; reflexivity).
  apply (listed_found wp_root wp_picture Hs); [rewrite Hl; left|]. cbn. lia.
Defined.

Definition wp_deep : WebPart := Nat.iter 64 (fun p => wp_multipart [p]) (wp_leaf "a.png" "IMAGE" "PNG").
(** It is listed, and its id is refused. *)
Example deep_attachment : option_map (fun at_ => findMIMEPart wp_deep (ra_PartID at_)) (head (collectAttachments wp_deep).1) = Some None.
Proof. vm_compute. reflexivity. Qed.
