(* ===== verification/WebDrafts.v ===== *)
(** * Drafts and Sent copies of the web API
    (protocol/webapi/drafts.go, agent_drafts.go, outbound_policy.go, outbound.go, messages.go)

    The transactions of the handlers: they touch the account's messages and the tables
    of outbound drafts, and commit or roll back both.  A status error is its code. *)

From S2P Require Import Prelude GoStrings Shapes Changes Blob Database Tx Mailboxes Messages Query Strconv Json RuleMetadata OutboundPolicy Claims SendDraft.

Local Open Scope go_scope.

Definition invalid_id : err := ErrText "invalid_id".
Definition not_found : err := ErrText "not_found".
Definition idempotency_key_required : err := ErrText "idempotency_key_required".
Definition idempotency_key_conflict : err := ErrText "idempotency_key_conflict".

(** ** Ids and keys *)

Definition parseEmailID (id : string) : option Z :=
  match bytes_of id with
  | c :: _ :: _ => if Ascii.eqb c "E" then ParseInt (str_of (drop 1 (bytes_of id))) else None
  | _ => None
  end.
Definition email_id (emailID : Z) : string := ("E" ++ FormatInt emailID)%string.
Definition numericEmailID (id : string) : Z := default 0 (parseEmailID id).

(** Eight to two hundred visible ASCII characters; the runes of the text are looked at. *)
Definition validOutboundIdempotencyKey (key : string) : bool :=
  (8 <=? String.length key)%nat && (String.length key <=? 200)%nat
  && forallb (fun p : Z * list ascii => negb ((p.1 <? 33) || (126 <? p.1))) (segs (bytes_of key)).

(** ** Transactions over both stores *)

Record Store `{BlobOps} := mkStore { st_db : DB; st_blobs : blob_state; st_w : WDB }.
Arguments mkStore {_}. Arguments st_db {_}. Arguments st_blobs {_}. Arguments st_w {_}.

Section Web.
Context `{BlobOps} `{Unicode} `{SqlText} `{Sha256}.
Variables (a : account) (now : Z).

Definition WM (A : Type) : Type := stM (pgTx * WDB) A.
Definition kernel {A} (m : M A) : WM A := fun s => let '(r, pt) := m s.1 in (r, (pt, s.2)).
Definition work {A} (f : WDB -> result (A * WDB)) : WM A := fun s =>
  match f s.2 with Ok (x, w) => (Ok x, (s.1, w)) | Err e => (Err e, s) end.
Definition work_read {A} (f : WDB -> result A) : WM A := work (fun w => try! x := f w in Ok (x, w)).
Definition work_do (f : WDB -> result WDB) : WM unit := work (fun w => try! w' := f w in Ok (tt, w')).
Definition fail {A} (e : err) : WM A := merr_st e.

(** [acc.Tx]: the drafts' tables commit with the account's. *)
Definition tx_body {A} (fn : WM A) (w : WDB) : M (A * WDB) := fun pt =>
  match fn (pt, w) with (Ok x, (pt, w)) => (Ok (x, w), pt) | (Err e, (pt, _)) => (Err e, pt) end.
Definition WTx {A} (fn : WM A) (s : Store) : result A * Store :=
  match Tx a (tx_body fn (st_w s)) (st_db s) (st_blobs s) with
  | (Ok ((x, w), _, _), d, b) => (Ok x, mkStore d b w)
  | (Err e, d, b) => (Err e, mkStore d b (st_w s))
  end.
Definition WReadTx {A} (fn : WM A) (s : Store) : result A :=
  match ReadTx (tx_body fn (st_w s)) (st_db s) (st_blobs s) with (Ok (x, _), _, _) => Ok x | (Err e, _, _) => Err e end.

(** ** Messages *)

Definition loadGroup (id : string) : WM (list Message) :=
  match parseEmailID id with
  | None => fail invalid_id
  | Some gid =>
      let! msgs := kernel (MessagesByEmailID a gid) in
      match msgs with [] => fail not_found | _ => mret_st msgs end
  end.

Definition mailboxes : WM (list Mailbox) := kernel (sql_read (List_mailboxes (QueryMailbox a))).
Definition mailboxByID (id : Z) : WM Mailbox :=
  let! mbs := mailboxes in
  match List.find (fun mb => mb_ID mb =? id) mbs with Some mb => mret_st mb | None => fail not_found end.

(** [memBlob]. *)
Definition memBlob (raw : list ascii) : BlobReader := mkReader (Z.of_nat (length raw)) (Ok (str_of raw)).
Definition draft_message : Message := m_set_flags (set_Draft true no_flags) [] 0 zero_message.
Definition sent_message : Message := m_set_flags (set_Seen true no_flags) [] 0 zero_message.

(** [io.ReadAll] of the message's reader. *)
Definition read_message (m : Message) : WM (list ascii) := fun s =>
  match rd_data (MessageReader a m (pt_blobs s.1)) with Ok data => (Ok (bytes_of data), s) | Err e => (Err e, s) end.

(** ** Special mailboxes *)

(** The first mailbox with the special use, or the one of that name, made or marked. *)
Definition special_mailbox (has : SpecialUse -> bool) (mark : SpecialUse -> SpecialUse) (name : string) : WM Mailbox :=
  let! mbs := mailboxes in
  match List.find (fun mb => has (mb_SpecialUse mb)) mbs with
  | Some mb => mret_st mb
  | None =>
      let! found := kernel (MailboxFind a name) in
      match found with
      | None => let! created := kernel (MailboxEnsure a name true (mark no_special_use)) in mret_st created.1
      | Some mb =>
          if has (mb_SpecialUse mb) then mret_st mb
          else do! kernel (MailboxSetSpecialUse a mb (mark (mb_SpecialUse mb))); mret_st mb
      end
  end.
Definition mark_Draft (su : SpecialUse) : SpecialUse := mkSpecialUse (su_Archive su) true (su_Junk su) (su_Sent su) (su_Trash su).
Definition mark_Sent (su : SpecialUse) : SpecialUse := mkSpecialUse (su_Archive su) (su_Draft su) (su_Junk su) true (su_Trash su).
Definition ensureDraftMailbox : WM Mailbox := special_mailbox su_Draft mark_Draft "Drafts".
Definition sent_mailbox : WM Mailbox := special_mailbox su_Sent mark_Sent "Sent".

(** ** Drafts prepared for an agent *)

(** The salted key of a request; the digest of the draft's content. *)
Definition scopedOutboundIdempotencyKey (requestKey : string) : string :=
  hex_encode (sha256 (bytes_of (FormatInt (acc_id a) ++ String (ascii_of_nat 0) requestKey))).
Definition digest_of (raw : list ascii) : string := str_of (sha256 raw).

Definition add_draft (raw : list ascii) : WM Message :=
  let! mailbox := ensureDraftMailbox in
  let! added := kernel (MessageAdd a now mailbox draft_message (memBlob raw) 0) in
  mret_st added.1.

Definition set_email {X} (emailID : Z) (d : OutDraft X) : OutDraft X :=
  mkOutDraft emailID (od_Status d) (od_DraftVersion d) (od_SourceEmailID d) (od_ContentDigest d) (od_IdempotencyKey d)
    (od_CreatedAt d) (od_UpdatedAt d) (od_extra d).

(** The same request again finds its draft; the key with other content is refused. *)
Definition policy_tx (raw : list ascii) (draft : OutboundPolicyDraft) : WM OutboundPolicyDraft :=
  let! existing := work_read (FindOutboundPolicyDraftByIdempotencyKey (acc_id a) (od_IdempotencyKey draft)) in
  match existing with
  | Some existing =>
      if negb (String.eqb (od_ContentDigest existing) (od_ContentDigest draft)) then fail idempotency_key_conflict
      else mret_st existing
  | None =>
      let! message := add_draft raw in
      let draft := set_email (EffectiveEmailID message) draft in
      do! work_do (PutOutboundPolicyDraft (acc_id a) now draft);
      mret_st draft
  end.
Definition saveOutboundPolicyDraft (raw : list ascii) (draft : OutboundPolicyDraft) (s : Store) : result OutboundPolicyDraft * Store :=
  WTx (policy_tx raw draft) s.

Definition agent_tx (raw : list ascii) (draft : AgentOutboundDraft) : WM (AgentOutboundDraft * Message) :=
  let! existing := work_read (FindAgentOutboundDraftByIdempotencyKey (acc_id a) (od_IdempotencyKey draft)) in
  match existing with
  | Some existing =>
      if negb (String.eqb (od_ContentDigest existing) (od_ContentDigest draft)) then fail idempotency_key_conflict
      else
        let! messages := loadGroup (email_id (od_EmailID existing)) in
        mret_st (existing, default zero_message (head messages))
  | None =>
      let! message := add_draft raw in
      let draft := set_email (EffectiveEmailID message) draft in
      do! work_do (PutAgentOutboundDraft (acc_id a) now draft);
      mret_st (draft, message)
  end.
(** The draft's type, status, source and digest are the caller's. *)
Definition saveAgentOutboundDraft (key : string) (raw : list ascii) (draft : AgentOutboundDraft) (s : Store)
  : result (AgentOutboundDraft * Message) * Store :=
  let requestKey := trim_space key in
  if negb (validOutboundIdempotencyKey requestKey) then (Err idempotency_key_required, s)
  else
    let digest := if String.eqb (od_ContentDigest draft) EmptyString then digest_of raw else od_ContentDigest draft in
    if negb (String.length digest =? 32)%nat then (Err (ErrText "invalid_agent_draft_digest"), s)
    else
      WTx (agent_tx raw (mkOutDraft (od_EmailID draft) (od_Status draft) 1 (od_SourceEmailID draft) digest
                           (scopedOutboundIdempotencyKey requestKey) (od_CreatedAt draft) (od_UpdatedAt draft) (od_extra draft))) s.

(** ** The Sent copy *)

Definition sent_tx (raw : list ascii) : WM Message :=
  let! mb := sent_mailbox in
  let! added := kernel (MessageAdd a now mb sent_message (memBlob raw) 0) in
  mret_st added.1.
Definition saveSentCopy (raw : list ascii) (s : Store) : result Message * Store := WTx (sent_tx raw) s.

Definition expunge (m : Message) : WM unit :=
  let! mb := mailboxByID (m_MailboxID m) in
  do! kernel (MessageRemove a 0 mb [m]);
  mret_st tt.
Definition removeSentCopy (messageID : Z) (s : Store) : result unit * Store :=
  WTx (let! messages := kernel (MessagesByEmailID a messageID) in miter expunge messages) s.
(** A failure is only logged. *)
Definition cleanupFailedSubmissionSentCopy (messageID : Z) (s : Store) : Store := (removeSentCopy messageID s).2.

(** ** The drafts' handlers *)

Definition is_draft_mailbox (mb : Mailbox) : bool := su_Draft (mb_SpecialUse mb) || EqualFold (mb_Name mb) "Drafts".
Fixpoint first_draft (msgs : list Message) : WM (Message * Mailbox) :=
  match msgs with
  | [] => fail not_found
  | m :: msgs =>
      let! mailbox := mailboxByID (m_MailboxID m) in
      if is_draft_mailbox mailbox then mret_st (m, mailbox) else first_draft msgs
  end.
Definition loadDraftMessage (id : string) : WM (Message * Mailbox) :=
  let! msgs := loadGroup id in first_draft msgs.

(** The workflow metadata of an email, one kind at most. *)
Definition draft_metadata (emailID : Z) : WM (option OutboundPolicyDraft * option AgentOutboundDraft) :=
  work_read (fun w =>
    match FindOutboundPolicyDraftByEmailID (acc_id a) emailID w, FindAgentOutboundDraftByEmailID (acc_id a) emailID w with
    | Some _, Some _ => Err draft_metadata_conflict
    | policy, agent => Ok (policy, agent)
    end).

Definition removeDraftWithCheck (id : string) (check : Message -> WM unit) (s : Store) : result unit * Store :=
  WTx (let! ' (message, mailbox) := loadDraftMessage id in
       do! check message;
       do! work_do (fun w => Ok (DeleteOutboundPolicyDraft (acc_id a) (EffectiveEmailID message) w));
       do! work_do (fun w => Ok (DeleteAgentOutboundDraft (acc_id a) (EffectiveEmailID message) w));
       do! kernel (MessageRemove a 0 mailbox [message]);
       mret_st tt) s.
Definition removeDraft (id : string) : Store -> result unit * Store := removeDraftWithCheck id (fun _ => mret_st tt).

(** A draft being sent stays; an agent deletes what was prepared for an agent. *)
Definition may_delete (agentCredentialID : Z) (message : Message) : WM unit :=
  let! claim := work_read (fun w => Ok (FindDraftSendClaim (acc_id a) (EffectiveEmailID message) w)) in
  match claim with
  | Some c =>
      if bool_decide (dc_Status c = processing) then fail draft_send_result_unknown
      else let! meta := draft_metadata (EffectiveEmailID message) in
           mguard (negb ((0 <? agentCredentialID) && bool_decide (meta.2 = None))) owner_required
  | None =>
      let! meta := draft_metadata (EffectiveEmailID message) in
      mguard (negb ((0 <? agentCredentialID) && bool_decide (meta.2 = None))) owner_required
  end.
Definition deleteDraft (agentCredentialID : Z) (id : string) : Store -> result unit * Store :=
  removeDraftWithCheck id (may_delete agentCredentialID).

(** The first row's bytes. *)
Definition readMessageBytes (id : string) (s : Store) : result (list ascii) :=
  WReadTx (let! messages := loadGroup id in read_message (default zero_message (head messages))) s.

(** Who may edit, and which version. *)
Definition named_version {X} (req : option Z) (d : OutDraft X) : WM unit :=
  mguard (bool_decide (req = Some (od_DraftVersion d))) draft_version_conflict.
Definition not_claimed (emailID : Z) : WM unit :=
  let! claim := work_read (fun w => Ok (FindDraftSendClaim (acc_id a) emailID w)) in
  match claim with Some _ => fail draft_send_result_unknown | None => mret_st tt end.

(** What an agent's edit is checked against before the policy sees it. *)
Definition agent_draft_to_update (id : string) (version : option Z) (s : Store) : result AgentOutboundDraft :=
  WReadTx (let! ' (current, _) := loadDraftMessage id in
           do! not_claimed (EffectiveEmailID current);
           let! meta := draft_metadata (EffectiveEmailID current) in
           match meta with
           | (None, Some draft) => do! named_version version draft; mret_st draft
           | _ => fail owner_required
           end) s.

(** The new row comes first, the old one is expunged, the metadata follows the new email
    under its version. *)
Definition replace_policy (version old new : Z) (digest : string) : WM Z :=
  let! r := work (ReplaceOutboundPolicyDraft (acc_id a) now old version new digest) in
  match r with Some d => mret_st (od_DraftVersion d) | None => fail draft_version_conflict end.
Definition replace_agent (version old new : Z) (digest : string) : WM Z :=
  let! r := work (ReplaceAgentOutboundDraft (acc_id a) now old version new digest) in
  match r with Some d => mret_st (od_DraftVersion d) | None => fail draft_version_conflict end.
Definition update_tx (agentCredentialID : Z) (id : string) (version : option Z) (raw : list ascii) : WM (Message * Z) :=
  let! ' (current, mailbox) := loadDraftMessage id in
  let old := EffectiveEmailID current in
  do! not_claimed old;
  let! meta := draft_metadata old in
  do! match meta with
      | (Some policy, _) =>
          do! mguard (negb (0 <? agentCredentialID)) owner_required; named_version version policy
      | (None, Some draft) => named_version version draft
      | (None, None) => mguard (negb (0 <? agentCredentialID)) owner_required
      end;
  let! added := kernel (MessageAdd a now mailbox draft_message (memBlob raw) 0) in
  do! kernel (MessageRemove a 0 mailbox [current]);
  let new := EffectiveEmailID added.1 in
  let! v := match meta with
            | (Some policy, _) => replace_policy (od_DraftVersion policy) old new (digest_of raw)
            | (None, Some draft) => replace_agent (od_DraftVersion draft) old new (digest_of raw)
            | (None, None) => mret_st 1
            end in
  mret_st (added.1, v).
(** The transaction of [updateDraft]. *)
Definition update_draft (agentCredentialID : Z) (id : string) (version : option Z) (raw : list ascii) (s : Store)
  : result (Message * Z) * Store := WTx (update_tx agentCredentialID id version raw) s.

(** [createDraft]: the owner's, in Drafts. *)
Definition create_draft (agentCredentialID : Z) (raw : list ascii) (s : Store) : result unit * Store :=
  if 0 <? agentCredentialID then (Err owner_required, s)
  else WTx (do! kernel (DeliverMailbox a now "Drafts" draft_message (memBlob raw)); mret_st tt) s.

(** ** Flags and deletion of any message *)

Definition agentKeywordRequiresOwner (name : string) : bool :=
  let '(known, f) := SetByName no_flags name true in
  known && negb (Seen f || Answered f || Flagged f || Forwarded f).

Definition containsFold (ss : list string) (s : string) : bool := existsb (fun x => EqualFold x s) ss.
Definition setFlag (m : Message) (name : string) (v : bool) : Message :=
  let '(known, f) := SetByName (m_Flags m) name v in
  if known then m_set_flags f (m_Keywords m) (m_ModSeq m) m
  else if v then
    if containsFold (m_Keywords m) name then m else m_set_flags (m_Flags m) (m_Keywords m ++ [name]) (m_ModSeq m) m
  else m_set_flags (m_Flags m) (List.filter (fun k => negb (EqualFold k name)) (m_Keywords m)) (m_ModSeq m) m.

Definition patchMessage (agentCredentialID : Z) (id : string) (addKeywords removeKeywords : list string) (s : Store) : result unit * Store :=
  if bool_decide (addKeywords = []) && bool_decide (removeKeywords = []) then (Err (ErrText "invalid_body"), s)
  else if (0 <? agentCredentialID) && existsb agentKeywordRequiresOwner (addKeywords ++ removeKeywords) then (Err owner_required, s)
  else
    WTx (let! msgs := loadGroup id in
         miter (fun m =>
           let m := foldl (fun m k => setFlag m k true) m addKeywords in
           let m := foldl (fun m k => setFlag m k false) m removeKeywords in
           do! kernel (Update a m); mret_st tt) msgs) s.

Definition deleteMessage (id : string) (s : Store) : result unit * Store :=
  WTx (let! msgs := loadGroup id in miter expunge msgs) s.

End Web.
