(* ===== verification/WebDraftsSpec.v ===== *)
(** * The web API's transactions: kernel runs, and the drafts' workflow

    Every transaction of [WebDrafts] is a run of kernel operations whose preconditions
    hold, so the kernel's theorems are about it; and it keeps the workflow tables sound:
    one kind of metadata per email, for emails that exist. *)

From S2P Require Import Prelude GoStrings Shapes Changes Blob Database Tx Mailboxes Messages KernelInv KernelFlags Kernel KernelTx Query Strconv Json RuleMetadata OutboundPolicy Claims SendDraft ClaimsSpec KernelDemo KernelSpec QuerySpec WebDrafts.

Local Open Scope go_scope.

(** ** The invariant *)

Record workflow_wf (w : WDB) (next : Z) : Prop := {
  wk_agent : drafts_wf (w_agent w);
  wk_policy : drafts_wf (w_policy w);
  wk_one k : is_Some (w_agent w !! k) -> w_policy w !! k = None;
  wk_used acc e : is_Some (w_agent w !! (acc, e)) \/ is_Some (w_policy w !! (acc, e)) -> e < next }.

Section Acts.
Context `{BlobOps} `{!BlobLaws} `{Unicode} `{SqlText} `{Sha256}.
Variables (a : account) (now : Z).

Lemma wp_top {S A} (m : stM S A) s : wp m s (fun _ _ => True).
Proof. unfold wp. by destruct (m s) as [[]]. Qed.

Abbreviation WS := (pgTx * WDB)%type.
Definition reaches (s s' : pgTx) : Prop := exists ops, runs a now ops s s'.
(** [m] is a run of kernel operations that ends, if it succeeds, as [Q] says. *)
Definition acts {A} (m : WM A) (s : WS) (Q : A -> WS -> Prop) : Prop := wp m s (fun x s' => reaches s.1 s'.1 /\ Q x s').

Lemma runs_app ops1 ops2 s1 s2 s3 : runs a now ops1 s1 s2 -> runs a now ops2 s2 s3 -> runs a now (ops1 ++ ops2) s1 s3.
Proof. induction 1 as [|o ops pt pt1 pt2 Hp Ho _ IH]; [done|]. intros. cbn [app]. econstructor; eauto. Qed.
Lemma reaches_refl s : reaches s s.
Proof. exists []. constructor. Qed.
Lemma reaches_trans s1 s2 s3 : reaches s1 s2 -> reaches s2 s3 -> reaches s1 s3.
Proof. intros [o1 Ho1] [o2 Ho2]. exists (o1 ++ o2). by eapply runs_app. Qed.

Lemma acts_ret {A} (x : A) s Q : Q x s -> acts (mret_st x) s Q.
Proof. split; [apply reaches_refl|done]. Qed.
Lemma acts_fail {A} e s Q : acts (@fail _ A e) s Q.
Proof. done. Qed.
Lemma acts_bind {A B} (m : WM A) (k : A -> WM B) s Q : acts m s (fun x s' => acts (k x) s' Q) -> acts (mbind_st m k) s Q.
Proof.
  intros Hm. apply wp_bind. eapply wp_mono; [exact Hm|]. intros x s' [Hr1 Hk]. eapply wp_mono; [exact Hk|].
  intros y s'' [Hr2 HQ]. split; [by eapply reaches_trans|done].
Qed.
Lemma acts_mono {A} (m : WM A) s (Q Q' : A -> WS -> Prop) : acts m s Q -> (forall x s', Q x s' -> Q' x s') -> acts m s Q'.
Proof. intros Hm HQ. eapply wp_mono; [exact Hm|]. intros x s' [? ?]. eauto. Qed.
Lemma acts_guard b e s (Q : unit -> WS -> Prop) : (b = true -> Q tt s) -> acts (mguard b e) s Q.
Proof. intros HQ. destruct b; [|done]. apply acts_ret. by apply HQ. Qed.
Lemma acts_work {A} (f : WDB -> result (A * WDB)) s Q : (forall x w, f s.2 = Ok (x, w) -> Q x (s.1, w)) -> acts (work f) s Q.
Proof.
  intros HQ. unfold acts, wp, work. destruct (f s.2) as [[x w]|] eqn:E; [|done]. split; [apply reaches_refl|]. by apply HQ.
Qed.
Lemma acts_work_read {A} (f : WDB -> result A) s Q : (forall x, f s.2 = Ok x -> Q x s) -> acts (work_read f) s Q.
Proof.
  intros HQ. apply acts_work. intros x w. destruct (f s.2) eqn:E; [|done]. intros [= <- <-]. destruct s. by apply HQ.
Qed.
Lemma acts_work_do f s (Q : unit -> WS -> Prop) : (forall w, f s.2 = Ok w -> Q tt (s.1, w)) -> acts (work_do f) s Q.
Proof. intros HQ. apply acts_work. intros [] w. destruct (f s.2) eqn:E; [|done]. intros [= <-]. by apply HQ. Qed.
Lemma acts_read {A} (f : DB -> result A) s Q : (forall x, f (pt_db s.1) = Ok x -> Q x s) -> acts (kernel (sql_read f)) s Q.
Proof.
  intros HQ. destruct s as [pt w]. unfold acts, wp, kernel, sql_read. cbn [fst snd] in *.
  destruct (f (pt_db pt)) eqn:E; [|done]. split; [apply reaches_refl|by apply HQ].
Qed.
Lemma acts_reader m s (Q : list ascii -> WS -> Prop) : (forall x, Q x s) -> acts (read_message a m) s Q.
Proof. intros HQ. unfold acts, wp, read_message. destruct (rd_data _); [|done]. split; [apply reaches_refl|apply HQ]. Qed.
(** A kernel operation, with what it leaves. *)
Lemma acts_op {A} o (m : M A) s (P : A -> pgTx -> Prop) Q :
  run_op a now o = ignore m -> op_pre a o s.1 -> wp m s.1 P -> (forall x pt, P x pt -> Q x (pt, s.2)) -> acts (kernel m) s Q.
Proof.
  intros Ho Hpre Hm HQ. unfold acts, wp, kernel in *. destruct s as [pt w]. cbn [fst snd] in *.
  destruct (m pt) as [[x|e] pt'] eqn:E; [|done]. split; [|by apply HQ]. exists [o].
  econstructor; [done| |constructor]. rewrite Ho. unfold ignore, mbind_st. by rewrite E.
Qed.

(** ** What the handlers rely on *)

Definition next_id (s : WS) : Z := db_message_ids (pt_db s.1).
Definition sound (s : WS) : Prop := db_struct (pt_db s.1) /\ workflow_wf s.2 (next_id s).

Lemma workflow_next w n n' : n <= n' -> workflow_wf w n -> workflow_wf w n'.
Proof. intros Hn [A1 A2 A3 A4]. split; [done..|]. intros acc e He. specialize (A4 acc e He). lia. Qed.

(** The rows one reads stay current while others change. *)
Definition currents (l : list Message) (d : DB) : Prop := NoDup (m_ID <$> l) /\ Forall (fun m => current a m d) l.

Lemma rmap_scan l l' : rmap scanMessage l = Ok l' -> l' = l.
Proof.
  revert l'. induction l as [|m l IH]; intros l'; cbn [rmap]; [by intros [= <-]|]. unfold scanMessage at 1.
  destruct (is_u32 _); [|done]. cbn [rbind]. destruct (rmap scanMessage l) as [l1|]; [|done]. cbn [rbind].
  intros [= <-]. by rewrite (IH l1).
Qed.
Lemma NoDup_fmap_filter {A B} (f : A -> B) (P : A -> Prop) `{!forall x, base.Decision (P x)} (l : list A) : NoDup (f <$> l) -> NoDup (f <$> filter P l).
Proof.
  induction l as [|x l IH]; [done|]. rewrite fmap_cons, NoDup_cons, filter_cons. intros [Hx Hl]. case_decide; [|by apply IH].
  rewrite fmap_cons, NoDup_cons. split; [|by apply IH]. intros Hin. apply Hx. apply list_elem_of_fmap in Hin as (y & -> & Hy).
  apply list_elem_of_filter in Hy as [_ Hy]. by apply list_elem_of_fmap_2.
Qed.
Lemma rows_ids d : db_struct d -> NoDup (m_ID <$> (snd <$> map_to_list (db_messages d))).
Proof.
  intros Hwf. rewrite <- list_fmap_compose. replace ((m_ID ∘ snd) <$> map_to_list (db_messages d)) with (fst <$> map_to_list (db_messages d)).
  - apply NoDup_fst_map_to_list.
  - apply list_fmap_ext. intros i [k m] Hi. apply list_elem_of_lookup_2, elem_of_map_to_list in Hi. symmetry. by apply (ds_msg_key _ Hwf) in Hi as [? _].
Qed.
Lemma group_currents gid d l : db_struct d -> rmap scanMessage (merge_sort mailbox_le (messages_where (in_email_group a gid) d)) = Ok l -> currents l d.
Proof.
  intros Hwf ->%rmap_scan. split.
  - rewrite merge_sort_Permutation. by apply NoDup_fmap_filter, rows_ids.
  - apply Forall_forall. intros m Hm. rewrite merge_sort_Permutation in Hm. apply list_elem_of_filter in Hm as [Hg Hin].
    apply list_elem_of_fmap in Hin as ([k m'] & -> & Hin). cbn [snd] in *. apply elem_of_map_to_list in Hin.
    unfold in_email_group in Hg. b2p. destruct (ds_msg_key _ Hwf _ _ Hin) as [Hk _]. by rewrite <- Hk in Hin.
Qed.

Lemma acts_group gid s Q : sound s -> (forall l, currents l (pt_db s.1) -> Q l s) -> acts (kernel (MessagesByEmailID a gid)) s Q.
Proof. intros [Hwf _] HQ. apply acts_read. intros l Hl. apply HQ. by eapply group_currents. Qed.
Lemma acts_loadGroup id s Q : sound s -> (forall l, currents l (pt_db s.1) -> l <> [] -> Q l s) -> acts (loadGroup a id) s Q.
Proof.
  intros Hs HQ. unfold loadGroup. destruct (parseEmailID id); [|apply acts_fail]. apply acts_bind, acts_group; [done|].
  intros [|m l] Hl; [apply acts_fail|]. apply acts_ret. by apply HQ.
Qed.
Lemma acts_mailboxByID id s Q : (forall mb, mb_ID mb = id -> Q mb s) -> acts (mailboxByID a id) s Q.
Proof.
  intros HQ. unfold mailboxByID, mailboxes. apply acts_bind, acts_read. intros mbs _.
  destruct (List.find _ _) as [mb|] eqn:Hf; [|apply acts_fail]. apply find_some in Hf as [_ Hf]. apply acts_ret, HQ. by b2p.
Qed.
Lemma acts_first_draft l s Q : (forall m mb, m ∈ l -> mb_ID mb = m_MailboxID m -> Q (m, mb) s) -> acts (first_draft a l) s Q.
Proof.
  induction l as [|m l IH]; intros HQ; cbn [first_draft]; [apply acts_fail|]. apply acts_bind, acts_mailboxByID. intros mb Hmb.
  destruct (is_draft_mailbox mb); [apply acts_ret, HQ; set_solver|]. apply IH. intros m' mb' Hin. apply HQ. set_solver.
Qed.
Lemma acts_loadDraft id s Q : sound s -> (forall m mb, current a m (pt_db s.1) -> mb_ID mb = m_MailboxID m -> Q (m, mb) s) -> acts (loadDraftMessage a id) s Q.
Proof.
  intros Hs HQ. unfold loadDraftMessage. apply acts_bind, acts_loadGroup; [done|]. intros l [_ Hl] _. apply acts_first_draft.
  intros m mb Hin. apply HQ. rewrite Forall_forall in Hl. by apply Hl.
Qed.

(** ** The kernel's operations *)

Lemma effect_sound s pt : sound s -> raw_effect a False (pt_db s.1) (pt_db pt) -> sound (pt, s.2).
Proof. intros [Hwf Hw] He. split; [by eapply raw_struct|]. eapply workflow_next; [by eapply raw_ids|done]. Qed.
Lemma edit_sound s pt k ids : sound s -> edit_effect a k ids (pt_db s.1) (pt_db pt) -> sound (pt, s.2) /\ next_id (pt, s.2) = next_id s.
Proof. intros Hs He. split; [eapply effect_sound; [done|]; by eapply raw_edit|]. by destruct He as [_ (_ & Hn & _) _ _]. Qed.
Lemma edit_keeps k m m' d d' : edit_effect a k [m_ID m] d d' -> m_ID m' <> m_ID m -> current a m' d -> current a m' d'.
Proof. intros He Hne (Hl & Hc). split; [|done]. rewrite (ee_rows _ _ _ _ _ He); [done|]. set_solver. Qed.

Lemma acts_mb_op {A} o (m : M A) s (Q : A -> WS -> Prop) :
  run_op a now o = ignore m -> op_pre a o s.1 -> dbstep (mb_step a) m -> sound s ->
  (forall x s', sound s' -> s'.2 = s.2 -> next_id s' = next_id s -> Q x s') -> acts (kernel m) s Q.
Proof.
  intros Ho Hpre Hm Hs HQ. eapply acts_op; [exact Ho|exact Hpre|apply Hm|]. intros x pt Hstep.
  apply HQ; [|done|exact (ms_message_ids _ _ _ Hstep)].
  eapply effect_sound; [done|by apply raw_mailbox].
Qed.
Lemma acts_special has mark name s Q : sound s -> (forall mb s', sound s' -> s'.2 = s.2 -> next_id s' = next_id s -> Q mb s') ->
  acts (special_mailbox a has mark name) s Q.
Proof.
  intros Hs HQ. unfold special_mailbox, mailboxes. apply acts_bind, acts_read. intros mbs _.
  destruct (List.find _ _); [by apply acts_ret, HQ|]. apply acts_bind, acts_read. intros [mb|] _.
  - destruct (has _); [by apply acts_ret, HQ|]. apply acts_bind.
    apply (acts_mb_op (OSetSpecialUse mb (mark (mb_SpecialUse mb)))); [done|done|apply dbstep_MailboxSetSpecialUse|done|].
    intros x s' Hs' Hw Hn. by apply acts_ret, HQ.
  - apply acts_bind. apply (acts_mb_op (OEnsure name true (mark no_special_use))); [done|done|apply dbstep_MailboxEnsure|done|].
    intros x s' Hs' Hw Hn. by apply acts_ret, HQ.
Qed.

(** A new row has the next email id. *)
Lemma message_add_id mbID m body pt :
  wp (message_add a now mbID m body 0) pt (fun m' pt' => EffectiveEmailID m' = db_message_ids (pt_db pt)).
Proof.
  unfold message_add. apply wp_bind, wp_read. intros q _. apply wp_bind, wp_guard. intros _.
  apply wp_bind, blob_put_wp. intros ref n data b' _ _.
  apply wp_bind, wp_returning. intros uid d1 _ E1. apply wp_bind, wp_next. intros pt2 Hdb2 _ _ _.
  apply wp_bind, wp_returning. intros row d3 _ E3.
  assert (Hid : m_ID row = db_message_ids (pt_db pt) /\ m_EmailID row = 0).
  { rewrite Hdb2 in E3. cbn in E3. pose proof (insert_message_row _ _ _ _ _ _ _ _ _ _ E3) as (_ & He & _).
    apply insert_message_ok in E3 as (_ & _ & -> & _). split; [|done]. unfold alloc_uid in E1. cbn in E1.
    destruct (db_mailboxes (pt_db pt) !! mbID); [|done]. destruct (bigint _); [|done]. by injection E1 as _ <-. }
  destruct Hid as [Hid He].
  apply wp_bind. eapply wp_mono; [apply (wp_top (bumpCounts mbID 1 _ _ _))|]. intros _ pt5 _.
  apply wp_bind. eapply wp_mono; [apply (wp_top (bumpQuota a 1 _))|]. intros _ pt6 _.
  apply wp_bind. eapply wp_mono; [apply (wp_top (record _))|]. intros _ pt7 _. apply wp_ret.
  unfold EffectiveEmailID, added_message. cbn. by rewrite He.
Qed.

Lemma str_length l : String.length (str_of l) = length l.
Proof. unfold str_of. induction l as [|c l IH]; [done|]. cbn. by rewrite IH. Qed.
Definition fits (raw : list ascii) : Prop := Z.of_nat (length raw) <= max_int64.
Lemma memBlob_fits raw m : m_MsgPrefix m = EmptyString -> fits raw -> body_fits (memBlob raw) (m_MsgPrefix m).
Proof.
  intros -> Hf data [= <-]. unfold fits in Hf. cbn. rewrite str_length. lia.
Qed.

Lemma acts_add mb m raw s (Q : Message * list Change -> WS -> Prop) :
  sound s -> m_MsgPrefix m = EmptyString -> fits raw ->
  (forall x s', sound s' -> s'.2 = s.2 -> EffectiveEmailID x.1 = next_id s -> next_id s' = next_id s + 1 ->
     (forall m', current a m' (pt_db s.1) -> current a m' (pt_db s'.1)) -> Q x s') ->
  acts (kernel (MessageAdd a now mb m (memBlob raw) 0)) s Q.
Proof.
  intros Hs Hp Hf HQ. eapply (acts_op (OAdd mb m (memBlob raw) 0)); [done|by apply memBlob_fits| |].
  - apply wp_and; [by apply MessageAdd_effect|].
    instantiate (1 := fun x _ => EffectiveEmailID x.1 = next_id s). unfold MessageAdd, returning_changes.
    apply wp_bind, wp_get, wp_bind. eapply wp_mono; [apply message_add_id|]. intros x pt' Hx. by apply wp_bind, wp_get, wp_ret.
  - intros x pt [(row & He & _) Hid]. pose proof (ae_ids _ _ _ _ _ He) as [Hn _].
    apply HQ; [|done|done|done|].
    + apply effect_sound; [done|by eapply raw_add].
    + intros m' (Hl & Ha & Hx). split; [|done]. cbn [fst]. rewrite (ae_messages _ _ _ _ _ He), lookup_insert_ne; [done|].
      intros Heq. rewrite <- Heq, (ae_fresh _ _ _ _ _ He) in Hl. done.
Qed.

Lemma acts_remove mb m s (Q : ChangeRemoveUIDs * MailboxCounts -> WS -> Prop) :
  sound s -> current a m (pt_db s.1) -> mb_ID mb = m_MailboxID m ->
  (forall x s', sound s' -> s'.2 = s.2 -> next_id s' = next_id s ->
     (forall m', m_ID m' <> m_ID m -> current a m' (pt_db s.1) -> current a m' (pt_db s'.1)) -> Q x s') ->
  acts (kernel (MessageRemove a 0 mb [m])) s Q.
Proof.
  intros Hs Hc Hmb HQ. assert (Hr : removable a (mb_ID mb) [m] (pt_db s.1)).
  { split; [apply NoDup_singleton|]. by apply Forall_singleton. }
  eapply (acts_op (ORemove mb [m])); [done|exact Hr|apply MessageRemove_edit|].
  intros x pt He. destruct (edit_sound _ _ _ _ Hs He) as [Hs' Hn]. apply HQ; [done|done|done|].
  intros m' Hne. by apply (edit_keeps _ _ _ _ _ He).
Qed.

Lemma acts_iter (f : Message -> WM unit) l s (Q : unit -> WS -> Prop) (P : WS -> WS -> Prop) :
  (forall s, P s s) -> (forall s1 s2 s3, P s1 s2 -> P s2 s3 -> P s1 s3) ->
  (forall m s, sound s -> current a m (pt_db s.1) ->
     acts (f m) s (fun _ s' => sound s' /\ P s s' /\ forall m', m_ID m' <> m_ID m -> current a m' (pt_db s.1) -> current a m' (pt_db s'.1))) ->
  sound s -> currents l (pt_db s.1) -> (forall s', sound s' -> P s s' -> Q tt s') -> acts (miter f l) s Q.
Proof.
  intros Hrefl Htrans Hf. revert s. induction l as [|m l IH]; intros s Hs Hl HQ; cbn [miter]; [by apply acts_ret, HQ|].
  destruct Hl as [Hn Hl]. rewrite fmap_cons, NoDup_cons in Hn. destruct Hn as [Hm Hn]. apply Forall_cons in Hl as [Hc Hl].
  apply acts_bind. eapply acts_mono; [by apply Hf|]. intros _ s1 (Hs1 & Hp & Hk). apply IH; [done| |].
  - split; [done|]. rewrite Forall_forall in *. intros m' Hin. apply Hk; [|by apply Hl]. intros E. apply Hm. rewrite <- E. by apply list_elem_of_fmap_2.
  - intros s' Hs' Hp'. apply HQ; [done|]. by eapply Htrans.
Qed.
Definition same_work (s s' : WS) : Prop := s'.2 = s.2.
Lemma acts_expunge_all l s (Q : unit -> WS -> Prop) : sound s -> currents l (pt_db s.1) ->
  (forall s', sound s' -> s'.2 = s.2 -> Q tt s') -> acts (miter (expunge a) l) s Q.
Proof.
  intros Hs Hl HQ. apply (acts_iter _ l s Q same_work); [done|intros; unfold same_work in *; congruence| |done|done|exact HQ].
  clear l s Q Hs Hl HQ. intros m s Hs Hc. unfold expunge. apply acts_bind, acts_mailboxByID. intros mb Hmb. apply acts_bind, acts_remove; [done|done|done|].
  intros x s' Hs' Hw _ Hk. by apply acts_ret.
Qed.

(** ** The workflow tables *)

Lemma row_gone {X} (t : draft_table X) acc e next : (forall e', is_Some (t !! (acc, e')) -> e' < next) -> next <= e -> t !! (acc, e) = None.
Proof. intros Ht Hn. destruct (t !! (acc, e)) eqn:E; [|done]. specialize (Ht e ltac:(by eexists)). lia. Qed.

(** A row is put for an email that had none of either kind. *)
Lemma put_policy_wf acc d w w' n : workflow_wf w n -> n <= od_EmailID d -> PutOutboundPolicyDraft acc now d w = Ok w' ->
  workflow_wf w' (od_EmailID d + 1).
Proof.
  intros [A1 A2 A3 A4] Hn Hp. unfold PutOutboundPolicyDraft in Hp. destruct (put_draft _ _ _ _ _ _) as [t|] eqn:E; [|done]. injection Hp as <-.
  pose proof (put_draft_wf _ _ _ _ _ _ _ A2 E) as Ht. apply put_draft_inv in E as (x & _ & _ & _ & _ & _ & _ & ->). split; cbn; [done|done| |].
  - intros [acc' e] Hs. rewrite lookup_insert_ne; [by apply A3|]. intros [= <- <-]. specialize (A4 acc (od_EmailID d) ltac:(by left)). lia.
  - intros acc' e [Hs|Hs]; [specialize (A4 acc' e ltac:(by left)); lia|]. rewrite lookup_insert in Hs. case_decide as Hk; [injection Hk as _ <-; lia|].
    specialize (A4 acc' e ltac:(by right)). lia.
Qed.
Lemma put_agent_wf acc d w w' n : workflow_wf w n -> n <= od_EmailID d -> PutAgentOutboundDraft acc now d w = Ok w' ->
  workflow_wf w' (od_EmailID d + 1).
Proof.
  intros [A1 A2 A3 A4] Hn Hp. unfold PutAgentOutboundDraft in Hp. destruct (put_draft _ _ _ _ _ _) as [t|] eqn:E; [|done]. injection Hp as <-.
  pose proof (put_draft_wf _ _ _ _ _ _ _ A1 E) as Ht. apply put_draft_inv in E as (x & _ & _ & _ & _ & _ & _ & ->). split; cbn; [done|done| |].
  - intros [acc' e] Hs. rewrite lookup_insert in Hs. case_decide as Hk; [|by apply A3]. injection Hk as <- <-.
    eapply (row_gone _ _ _ n); [|exact Hn]. intros e' He. apply (A4 acc). by right.
  - intros acc' e [Hs|Hs]; [|specialize (A4 acc' e ltac:(by right)); lia]. rewrite lookup_insert in Hs. case_decide as Hk; [injection Hk as _ <-; lia|].
    specialize (A4 acc' e ltac:(by left)). lia.
Qed.
(** A row moves to an email that had none. *)
Lemma replace_policy_wf acc old v new dg d w w' n : workflow_wf w n -> n <= new ->
  ReplaceOutboundPolicyDraft acc now old v new dg w = Ok (Some d, w') -> workflow_wf w' (new + 1).
Proof.
  intros [A1 A2 A3 A4] Hn Hp. unfold ReplaceOutboundPolicyDraft in Hp. destruct (replace_draft _ _ _ _ _ _ _) as [[od t]|] eqn:E; [|done].
  injection Hp as -> <-. pose proof (replace_draft_wf _ _ _ _ _ _ _ _ _ A2 E) as Ht.
  apply replace_draft_inv in E as (r & _ & _ & _ & _ & _ & _ & ->). split; cbn; [done|done| |].
  - intros [acc' e] Hs. rewrite lookup_insert_ne; [|intros [= <- <-]; specialize (A4 acc new ltac:(by left)); lia].
    rewrite lookup_delete. case_decide; [done|by apply A3].
  - intros acc' e [Hs|Hs]; [specialize (A4 acc' e ltac:(by left)); lia|]. rewrite lookup_insert in Hs. case_decide as Hk; [injection Hk as _ <-; lia|].
    rewrite lookup_delete in Hs. case_decide; [by destruct Hs|]. specialize (A4 acc' e ltac:(by right)). lia.
Qed.
Lemma replace_agent_wf acc old v new dg d w w' n : workflow_wf w n -> n <= new ->
  ReplaceAgentOutboundDraft acc now old v new dg w = Ok (Some d, w') -> workflow_wf w' (new + 1).
Proof.
  intros [A1 A2 A3 A4] Hn Hp. unfold ReplaceAgentOutboundDraft in Hp. destruct (replace_draft _ _ _ _ _ _ _) as [[od t]|] eqn:E; [|done].
  injection Hp as -> <-. pose proof (replace_draft_wf _ _ _ _ _ _ _ _ _ A1 E) as Ht.
  apply replace_draft_inv in E as (r & _ & _ & _ & _ & _ & _ & ->). split; cbn; [done|done| |].
  - intros [acc' e] Hs. rewrite lookup_insert in Hs. case_decide as Hk.
    + injection Hk as <- <-. eapply (row_gone _ _ _ n); [|exact Hn]. intros e' He. apply (A4 acc). by right.
    + rewrite lookup_delete in Hs. case_decide; [by destruct Hs|by apply A3].
  - intros acc' e [Hs|Hs]; [|specialize (A4 acc' e ltac:(by right)); lia]. rewrite lookup_insert in Hs. case_decide as Hk; [injection Hk as _ <-; lia|].
    rewrite lookup_delete in Hs. case_decide; [by destruct Hs|]. specialize (A4 acc' e ltac:(by left)). lia.
Qed.
Lemma delete_wf acc e w n : workflow_wf w n -> workflow_wf (DeleteOutboundPolicyDraft acc e w) n /\ workflow_wf (DeleteAgentOutboundDraft acc e w) n.
Proof.
  intros [A1 A2 A3 A4]. split; (split; cbn; unfold delete_draft; [try done; by apply drafts_wf_delete|try done; by apply drafts_wf_delete| |]).
  - intros k Hs. rewrite lookup_delete. case_decide; [done|by apply A3].
  - intros acc' e' Hs. apply (A4 acc'). destruct Hs as [Hs|Hs]; [by left|right]. rewrite lookup_delete in Hs. case_decide; [by destruct Hs|done].
  - intros k Hs. rewrite lookup_delete in Hs. case_decide; [by destruct Hs|by apply A3].
  - intros acc' e' Hs. apply (A4 acc'). destruct Hs as [Hs|Hs]; [left|by right]. rewrite lookup_delete in Hs. case_decide; [by destruct Hs|done].
Qed.

(** ** The handlers' transactions *)

Lemma acts_metadata e s Q :
  (forall p g, p = FindOutboundPolicyDraftByEmailID (acc_id a) e s.2 -> g = FindAgentOutboundDraftByEmailID (acc_id a) e s.2 ->
     Q (p, g) s) -> acts (draft_metadata a e) s Q.
Proof.
  intros HQ. apply acts_work_read. intros [p g] E. apply HQ; destruct (FindOutboundPolicyDraftByEmailID _ _ _), (FindAgentOutboundDraftByEmailID _ _ _); congruence.
Qed.
Lemma acts_not_claimed e s (Q : unit -> WS -> Prop) : (FindDraftSendClaim (acc_id a) e s.2 = None -> Q tt s) -> acts (not_claimed a e) s Q.
Proof.
  intros HQ. unfold not_claimed. apply acts_bind, acts_work_read. intros c [= <-].
  destruct (FindDraftSendClaim _ _ _); [apply acts_fail|]. by apply acts_ret, HQ.
Qed.
Lemma acts_add_draft raw s Q : sound s -> fits raw ->
  (forall m s', sound s' -> s'.2 = s.2 -> EffectiveEmailID m = next_id s -> next_id s' = next_id s + 1 -> Q m s') -> acts (add_draft a now raw) s Q.
Proof.
  intros Hs Hf HQ. unfold add_draft, ensureDraftMailbox. apply acts_bind, acts_special; [done|]. intros mb s1 Hs1 Hw1 Hn1.
  apply acts_bind, acts_add; [done|done|done|]. intros x s2 Hs2 Hw2 He Hn2 _. apply acts_ret, HQ; congruence.
Qed.

(** The email that a key of the table names, with the digest of its content. *)
Definition held {X} (t : draft_table X) (key digest : string) (e : Z) : Prop :=
  text_ok key = true /\ exists r, t !! (acc_id a, e) = Some r /\ dr_key r = key /\ dr_digest r = digest.
Lemma held_found {X} (t : draft_table X) key x : find_by_key (acc_id a) key t = Ok (Some x) ->
  held t key (od_ContentDigest x) (od_EmailID x).
Proof.
  unfold find_by_key. destruct (text_ok key) eqn:Ht; [|done]. destruct (row_by_key _ key t) as [[[acc e] r]|] eqn:E; [|done].
  apply row_by_key_some in E as (Hr & Ha & Hk). cbn [fst snd] in *. subst acc. intros [= <-]. split; [done|]. by exists r.
Qed.
Lemma held_find {X} (t : draft_table X) key digest e : drafts_wf t -> held t key digest e ->
  exists x, find_by_key (acc_id a) key t = Ok (Some x) /\ od_EmailID x = e /\ od_ContentDigest x = digest.
Proof.
  intros Ht (Hk & r & Hr & <- & <-). unfold find_by_key. rewrite Hk, (row_by_key_unique _ _ _ _ Ht Hr). by eexists.
Qed.
Lemma held_put {X} (extra_in : X -> result X) (accounts : gset Z) (d : OutDraft X) (t t' : draft_table X) : put_draft (acc_id a) extra_in accounts now d t = Ok t' ->
  held t' (od_IdempotencyKey d) (od_ContentDigest d) (od_EmailID d).
Proof.
  intros (x & _ & _ & _ & _ & _ & Hk & ->)%put_draft_inv. split; [done|]. eexists. by rewrite lookup_insert_eq.
Qed.

Lemma acts_policy_tx raw d s : sound s -> fits raw ->
  acts (policy_tx a now raw d) s (fun x s' => sound s' /\ held (w_policy s'.2) (od_IdempotencyKey d) (od_ContentDigest d) (od_EmailID x)).
Proof.
  intros Hs Hf. unfold policy_tx. apply acts_bind, acts_work_read. intros [x|] Hx.
  - destruct (String.eqb_spec (od_ContentDigest x) (od_ContentDigest d)) as [<-|]; [|apply acts_fail].
    apply acts_ret. split; [done|]. by apply held_found.
  - apply acts_bind, acts_add_draft; [done|done|]. intros m s1 [Hwf1 Hw1] Hw He Hn. apply acts_bind, acts_work_do. intros w Hp.
    apply acts_ret. cbn [snd]. rewrite He in Hp |- *. split.
    + split; [done|]. change (next_id (s1.1, w)) with (next_id s1). rewrite Hn.
      apply (put_policy_wf (acc_id a) (set_email (next_id s) d) s1.2 w (next_id s)); [|cbn; lia|exact Hp]. rewrite Hw. apply Hs.
    + unfold PutOutboundPolicyDraft in Hp. destruct (put_draft _ _ _ _ _ _) as [t|] eqn:E; [|done]. injection Hp as <-. by apply held_put in E.
Qed.
Lemma acts_agent_tx raw d s : sound s -> fits raw ->
  acts (agent_tx a now raw d) s (fun x s' => sound s' /\ held (w_agent s'.2) (od_IdempotencyKey d) (od_ContentDigest d) (od_EmailID x.1)).
Proof.
  intros Hs Hf. unfold agent_tx. apply acts_bind, acts_work_read. intros [x|] Hx.
  - destruct (String.eqb_spec (od_ContentDigest x) (od_ContentDigest d)) as [<-|]; [|apply acts_fail].
    apply acts_bind, acts_loadGroup; [done|]. intros l _ _. apply acts_ret. split; [done|]. by apply held_found.
  - apply acts_bind, acts_add_draft; [done|done|]. intros m s1 [Hwf1 Hw1] Hw He Hn. apply acts_bind, acts_work_do. intros w Hp.
    apply acts_ret. cbn [snd fst]. rewrite He in Hp |- *. split.
    + split; [done|]. change (next_id (s1.1, w)) with (next_id s1). rewrite Hn.
      apply (put_agent_wf (acc_id a) (set_email (next_id s) d) s1.2 w (next_id s)); [|cbn; lia|exact Hp]. rewrite Hw. apply Hs.
    + unfold PutAgentOutboundDraft in Hp. destruct (put_draft _ _ _ _ _ _) as [t|] eqn:E; [|done]. injection Hp as <-. by apply held_put in E.
Qed.

Lemma acts_sent_tx raw s : sound s -> fits raw -> acts (sent_tx a now raw) s (fun _ s' => sound s' /\ s'.2 = s.2).
Proof.
  intros Hs Hf. unfold sent_tx, sent_mailbox. apply acts_bind, acts_special; [done|]. intros mb s1 Hs1 Hw1 _.
  apply acts_bind, acts_add; [done|done|done|]. intros x s2 Hs2 Hw2 _ _ _. apply acts_ret. split; [done|congruence].
Qed.
Lemma acts_remove_email messageID s : sound s ->
  acts (let! messages := kernel (MessagesByEmailID a messageID) in miter (expunge a) messages) s (fun _ s' => sound s' /\ s'.2 = s.2).
Proof. intros Hs. apply acts_bind, acts_group; [done|]. intros l Hl. by apply acts_expunge_all. Qed.
Lemma acts_delete_email id s : sound s ->
  acts (let! msgs := loadGroup a id in miter (expunge a) msgs) s (fun _ s' => sound s' /\ s'.2 = s.2).
Proof. intros Hs. apply acts_bind, acts_loadGroup; [done|]. intros l Hl _. by apply acts_expunge_all. Qed.
Lemma acts_create raw s : sound s -> fits raw ->
  acts (do! kernel (DeliverMailbox a now "Drafts" draft_message (memBlob raw)); mret_st tt) s (fun _ s' => sound s' /\ s'.2 = s.2).
Proof.
  intros Hs Hf. apply acts_bind. eapply (acts_op (ODeliver "Drafts" draft_message (memBlob raw))); [done|by apply memBlob_fits| |].
  - by apply deliver_effect.
  - intros x pt (d1 & mbID & row & Hm & He & _). apply acts_ret. split; [|done]. apply effect_sound; [done|by eapply raw_add].
Qed.

(** The flags of a row are edited in place. *)
Definition edited_flags (m x : Message) : Prop := x = m_set_flags (m_Flags x) (m_Keywords x) (m_ModSeq m) m.
Lemma setFlag_edits m x name v : edited_flags m x -> edited_flags m (setFlag x name v).
Proof.
  unfold edited_flags, setFlag. intros ->. destruct (SetByName _ _ _) as [known f].
  destruct known, v; try done. by destruct (containsFold _ _).
Qed.
Lemma setFlags_edit (v : bool) (l : list string) m x : edited_flags m x -> edited_flags m (foldl (fun m k => setFlag m k v) x l).
Proof. revert x. induction l as [|k l IH]; intros x Hx; [done|]. cbn [foldl]. by apply IH, setFlag_edits. Qed.
Lemma edited_refl m : edited_flags m m.
Proof. by destruct m. Qed.
Lemma acts_patch adds removes id s : sound s ->
  acts (let! msgs := loadGroup a id in
        miter (fun m =>
          let m := foldl (fun m k => setFlag m k true) m adds in
          let m := foldl (fun m k => setFlag m k false) m removes in
          do! kernel (Update a m); mret_st tt) msgs) s (fun _ s' => sound s' /\ s'.2 = s.2).
Proof.
  intros Hs. apply acts_bind, acts_loadGroup; [done|]. intros l Hl _.
  apply (acts_iter _ l s _ same_work); [done|intros; unfold same_work in *; congruence| |done|done|done].
  clear s l Hs Hl. intros m s Hs Hc. cbv zeta. set (x := foldl _ (foldl _ m adds) removes).
  assert (Hx : edited_flags m x) by (by apply setFlags_edit, setFlags_edit, edited_refl). clearbody x. apply acts_bind.
  assert (Hid : m_ID x = m_ID m) by by rewrite Hx.
  eapply (acts_op (OUpdate x)); [done|by exists m|apply Update_edit|]. intros y pt [_ He]. apply acts_ret.
  destruct (edit_sound _ _ _ _ Hs He) as [Hs' _]. rewrite Hid in He. split; [done|]. split; [done|].
  intros m' Hne. by apply (edit_keeps _ _ _ _ _ He).
Qed.

(** *** Deleting a draft *)

(** No claim of it is open, and an agent's is one prepared for it. *)
Definition deletable (cred : Z) (e : Z) (w : WDB) : Prop :=
  (forall c, FindDraftSendClaim (acc_id a) e w = Some c -> dc_Status c <> processing) /\
  (0 < cred -> FindAgentOutboundDraftByEmailID (acc_id a) e w <> None).
Lemma acts_may_delete cred m s (Q : unit -> WS -> Prop) : (deletable cred (EffectiveEmailID m) s.2 -> Q tt s) -> acts (may_delete a cred m) s Q.
Proof.
  intros HQ. unfold may_delete. apply acts_bind, acts_work_read. intros c [= <-].
  assert (Hmeta : (forall c, FindDraftSendClaim (acc_id a) (EffectiveEmailID m) s.2 = Some c -> dc_Status c <> processing) ->
    acts (let! meta := draft_metadata a (EffectiveEmailID m) in
          mguard (negb ((0 <? cred) && bool_decide (meta.2 = None))) owner_required) s Q).
  { intros Hc. apply acts_bind, acts_metadata. intros p g _ Hg. apply acts_guard. intros Hb. apply HQ. split; [done|].
    intros Hcred. rewrite (proj2 (Z.ltb_lt 0 cred) Hcred) in Hb. rewrite <- Hg.
    by apply negb_true_iff, bool_decide_eq_false in Hb. }
  destruct (FindDraftSendClaim _ _ _) as [c|] eqn:E; [|by apply Hmeta].
  case_bool_decide as Hp; [apply acts_fail|]. apply Hmeta. by intros c' [= <-].
Qed.
(** Its metadata goes with it. *)
Definition unmarked (e : Z) (w : WDB) : Prop :=
  FindOutboundPolicyDraftByEmailID (acc_id a) e w = None /\ FindAgentOutboundDraftByEmailID (acc_id a) e w = None.
Lemma acts_remove_draft (P : Z -> Prop) (check : Message -> WM unit) id s : sound s ->
  (forall m (Q : unit -> WS -> Prop), (P (EffectiveEmailID m) -> Q tt s) -> acts (check m) s Q) ->
  acts (let! ' (message, mailbox) := loadDraftMessage a id in
        do! check message;
        do! work_do (fun w => Ok (DeleteOutboundPolicyDraft (acc_id a) (EffectiveEmailID message) w));
        do! work_do (fun w => Ok (DeleteAgentOutboundDraft (acc_id a) (EffectiveEmailID message) w));
        do! kernel (MessageRemove a 0 mailbox [message]);
        mret_st tt) s
    (fun _ s' => sound s' /\ exists m, current a m (pt_db s.1) /\ P (EffectiveEmailID m) /\ unmarked (EffectiveEmailID m) s'.2).
Proof.
  intros Hs Hcheck. apply acts_bind, acts_loadDraft; [done|]. intros m mb Hc Hmb.
  apply acts_bind, Hcheck. intros Hd. apply acts_bind, acts_work_do. intros w1 [= <-].
  apply acts_bind, acts_work_do. intros w2 [= <-]. destruct Hs as [Hwf Hw]. cbn [fst snd].
  set (e := EffectiveEmailID m) in *.
  assert (Hs2 : sound (s.1, DeleteAgentOutboundDraft (acc_id a) e (DeleteOutboundPolicyDraft (acc_id a) e s.2))).
  { split; [done|]. by apply delete_wf, delete_wf. }
  apply acts_bind, acts_remove; [exact Hs2|done|done|]. intros x s3 Hs3 Hw3 _ _. apply acts_ret. split; [done|].
  exists m. split; [done|]. split; [done|]. rewrite Hw3. cbn [snd].
  unfold unmarked, FindOutboundPolicyDraftByEmailID, FindAgentOutboundDraftByEmailID, find_by_email. cbn.
  unfold delete_draft. by rewrite !lookup_delete_eq.
Qed.

(** *** Editing a draft *)

(** Who may edit an email's draft, naming which version. *)
Definition editable (cred : Z) (version : option Z) (p : option OutboundPolicyDraft) (g : option AgentOutboundDraft) : Prop :=
  match p, g with
  | Some p, _ => cred <= 0 /\ version = Some (od_DraftVersion p)
  | None, Some g => version = Some (od_DraftVersion g)
  | None, None => cred <= 0
  end.
(** The metadata [d0] of [old] is that of [new] from now on, one version later. *)
Definition moved {X} (find : Z -> option (OutDraft X)) (d0 : OutDraft X) (old new v : Z) (dg : string) : Prop :=
  find old = None /\ v = od_DraftVersion d0 + 1 /\
  exists d, find new = Some d /\ od_DraftVersion d = v /\ od_ContentDigest d = dg /\ od_IdempotencyKey d = od_IdempotencyKey d0.
Definition carried (w w' : WDB) (old new v : Z) (dg : string) : Prop :=
  match FindOutboundPolicyDraftByEmailID (acc_id a) old w, FindAgentOutboundDraftByEmailID (acc_id a) old w with
  | Some p, _ => moved (fun e => FindOutboundPolicyDraftByEmailID (acc_id a) e w') p old new v dg
  | None, Some g => moved (fun e => FindAgentOutboundDraftByEmailID (acc_id a) e w') g old new v dg
  | None, None => w' = w /\ v = 1
  end.

Lemma replaced_moved {X} (t t' : draft_table X) old v new dg d d0 : old <> new ->
  find_by_email (acc_id a) old t = Some d0 -> replace_draft (acc_id a) now old v new dg t = Ok (Some d, t') ->
  moved (fun e => find_by_email (acc_id a) e t') d0 old new (od_DraftVersion d) dg.
Proof.
  intros Hne Hd0 (r & Hr & <- & _ & _ & _ & -> & ->)%replace_draft_inv. unfold find_by_email, moved in *. rewrite Hr in Hd0.
  injection Hd0 as <-. rewrite lookup_insert_ne by congruence. rewrite lookup_delete_eq. split; [done|]. split; [done|].
  eexists. by rewrite lookup_insert_eq.
Qed.
Lemma find_used {X} (t : draft_table X) e d : find_by_email (acc_id a) e t = Some d -> is_Some (t !! (acc_id a, e)).
Proof. unfold find_by_email. destruct (t !! (acc_id a, e)); by eauto. Qed.

Lemma acts_replace_policy s d0 old new dg Q : workflow_wf s.2 new -> FindOutboundPolicyDraftByEmailID (acc_id a) old s.2 = Some d0 ->
  (forall v w, workflow_wf w (new + 1) -> moved (fun e => FindOutboundPolicyDraftByEmailID (acc_id a) e w) d0 old new v dg -> Q v (s.1, w)) ->
  acts (replace_policy a now (od_DraftVersion d0) old new dg) s Q.
Proof.
  intros Hw Hd0 HQ. unfold replace_policy. apply acts_bind, acts_work. intros [d|] w E; [|apply acts_fail]. apply acts_ret, HQ.
  - by eapply replace_policy_wf in E; [|done|].
  - pose proof (wk_used _ _ Hw (acc_id a) old (or_intror (find_used _ _ _ Hd0))). unfold ReplaceOutboundPolicyDraft in E.
    destruct (replace_draft _ _ _ _ _ _ _) as [[od t]|] eqn:E1; [|done]. injection E as -> <-. eapply replaced_moved; [lia|exact Hd0|exact E1].
Qed.
Lemma acts_replace_agent s d0 old new dg Q : workflow_wf s.2 new -> FindAgentOutboundDraftByEmailID (acc_id a) old s.2 = Some d0 ->
  (forall v w, workflow_wf w (new + 1) -> moved (fun e => FindAgentOutboundDraftByEmailID (acc_id a) e w) d0 old new v dg -> Q v (s.1, w)) ->
  acts (replace_agent a now (od_DraftVersion d0) old new dg) s Q.
Proof.
  intros Hw Hd0 HQ. unfold replace_agent. apply acts_bind, acts_work. intros [d|] w E; [|apply acts_fail]. apply acts_ret, HQ.
  - by eapply replace_agent_wf in E; [|done|].
  - pose proof (wk_used _ _ Hw (acc_id a) old (or_introl (find_used _ _ _ Hd0))). unfold ReplaceAgentOutboundDraft in E.
    destruct (replace_draft _ _ _ _ _ _ _) as [[od t]|] eqn:E1; [|done]. injection E as -> <-. eapply replaced_moved; [lia|exact Hd0|exact E1].
Qed.

(** What a successful edit found and left. *)
Definition edited (cred : Z) (version : option Z) (dg : string) (s : WS) (r : Message * Z) (s' : WS) : Prop :=
  exists cur, current a cur (pt_db s.1) /\
    FindDraftSendClaim (acc_id a) (EffectiveEmailID cur) s.2 = None /\
    editable cred version (FindOutboundPolicyDraftByEmailID (acc_id a) (EffectiveEmailID cur) s.2)
      (FindAgentOutboundDraftByEmailID (acc_id a) (EffectiveEmailID cur) s.2) /\
    carried s.2 s'.2 (EffectiveEmailID cur) (EffectiveEmailID r.1) r.2 dg.

Lemma acts_update_tx cred id version raw s : sound s -> fits raw ->
  acts (update_tx a now cred id version raw) s (fun r s' => sound s' /\ edited cred version (digest_of raw) s r s').
Proof.
  intros Hs Hf. unfold update_tx. apply acts_bind, acts_loadDraft; [done|]. intros cur mb Hcur Hmb.
  apply acts_bind, acts_not_claimed. intros Hclaim. apply acts_bind, acts_metadata. intros p g Hp Hg.
  apply acts_bind. eapply (acts_mono _ _ (fun _ s1 => s1 = s /\ editable cred version p g)).
  { destruct p as [p|]; [|destruct g as [g|]]; unfold named_version.
    - apply acts_bind, acts_guard. intros Hc%negb_true_iff%Z.ltb_ge. apply acts_guard. intros Hv%bool_decide_eq_true. done.
    - apply acts_guard. intros Hv%bool_decide_eq_true. done.
    - apply acts_guard. intros Hc%negb_true_iff%Z.ltb_ge. done. }
  intros _ s1 [-> Hed]. apply acts_bind, acts_add; [done|done|done|]. intros x s1 Hs1 Hw1 Hx Hn1 Hk1.
  apply acts_bind, acts_remove; [done|by apply Hk1|done|]. intros y s2 Hs2 Hw2 Hn2 _.
  assert (Hw : s2.2 = s.2) by congruence. assert (Hn : next_id s2 = EffectiveEmailID x.1 + 1) by congruence.
  rewrite Hp, Hg in Hed. rewrite <- Hw in Hp, Hg.
  assert (Hwf : workflow_wf s2.2 (EffectiveEmailID x.1)) by (rewrite Hw, Hx; apply Hs).
  apply acts_bind. eapply (acts_mono _ _ (fun v s' => sound s' /\ carried s2.2 s'.2 (EffectiveEmailID cur) (EffectiveEmailID x.1) v (digest_of raw))).
  - unfold carried. rewrite <- Hp, <- Hg. destruct p as [p|]; [|destruct g as [g|]].
    + apply acts_replace_policy; [done|done|]. intros v w Hwf' Hm. split; [|done]. split; [apply Hs2|].
      change (next_id (s2.1, w)) with (next_id s2). by rewrite Hn.
    + apply acts_replace_agent; [done|done|]. intros v w Hwf' Hm. split; [|done]. split; [apply Hs2|].
      change (next_id (s2.1, w)) with (next_id s2). by rewrite Hn.
    + by apply acts_ret.
  - intros v s3 [Hs3 Hc]. apply acts_ret. split; [done|]. exists cur. rewrite Hw in Hc. done.
Qed.
End Acts.

(** ** Transactions *)

Section Stores.
Context `{BlobOps} `{!BlobLaws} `{Unicode} `{SqlText} `{Sha256}.

Definition store_wf (st : Store) : Prop := db_struct (st_db st) /\ workflow_wf (st_w st) (db_message_ids (st_db st)).
(** What [st] becomes by a committed kernel transaction, in a careful one all of whose calls pass current rows. *)
Definition kernel_tx (careful : bool) (a : account) (now : Z) (st st' : Store) : Prop :=
  exists ops pt h cs head, head_of a (st_db st) = Some h /\
    runs_with a now (fun o s => careful = true -> op_pre a o s) ops (start (st_db st) (st_blobs st) h) pt /\
    Tx a (run_ops a now ops) (st_db st) (st_blobs st) = (Ok (tt, cs, head), st_db st', st_blobs st').

(** The flush writes the log and its head only. *)
Definition same_rows (d d' : DB) : Prop :=
  db_mailboxes d' = db_mailboxes d /\ db_messages d' = db_messages d /\ db_quota d' = db_quota d /\
  db_mailbox_ids d' = db_mailbox_ids d /\ db_message_ids d' = db_message_ids d.
Lemma exec_rows d0 (f : DB -> result DB) : (forall d d', f d = Ok d' -> same_rows d d') ->
  preserves (fun pt : pgTx => same_rows d0 (pt_db pt)) (sql_exec f).
Proof.
  intros Hf pt Hpt. unfold sql_exec, sql_returning. destruct (pt_write pt); [|done]. destruct (f (pt_db pt)) as [d'|] eqn:E; [|done].
  cbn. apply Hf in E. unfold same_rows in *. destruct E as (-> & -> & -> & -> & ->). done.
Qed.
Lemma flush_rows a pt : same_rows (pt_db pt) (pt_db (flush a pt).2).
Proof.
  assert (Hf : preserves (fun pt' : pgTx => same_rows (pt_db pt) (pt_db pt')) (flush a)); [|by apply Hf].
  apply preserves_bind; [apply preserves_get|]. intros pt1. destruct (negb _); [apply preserves_ret|].
  apply preserves_bind; [|intros []; apply exec_rows; by intros d d' [= <-]].
  apply preserves_iter. intros e _. apply exec_rows. intros d d'. unfold insert_changelog.
  destruct (db_accounts d !! acc_id a); [|done]. destruct (negb _); [done|]. destruct (db_changelog d !! _); [done|]. by intros [= <-].
Qed.

(** How a transaction ends: with what its body promises, or with nothing changed. *)
Definition ends (a : account) (now : Z) {A} (st : Store) (o : result A * Store) (Q : A -> WDB -> Prop) : Prop :=
  match o with
  | (Ok x, st') => store_wf st' /\ kernel_tx true a now st st' /\ Q x (st_w st')
  | (Err _, st') => st_db st' = st_db st /\ st_w st' = st_w st
  end.
Lemma WTx_ends a now {A} (m : WM A) st (Q : A -> WDB -> Prop) : store_wf st ->
  (forall h, head_of a (st_db st) = Some h -> acts a now m (start (st_db st) (st_blobs st) h, st_w st) (fun x s' => sound s' /\ Q x s'.2)) ->
  ends a now st (WTx a m st) Q.
Proof.
  intros Hst Hm. unfold WTx, ends, Tx. destruct (db_accounts (st_db st) !! acc_id a) as [row|] eqn:Hrow; [|done].
  assert (Hh : head_of a (st_db st) = Some (ar_changelog_seq row)) by (unfold head_of; by rewrite Hrow).
  specialize (Hm _ Hh). fold (start (st_db st) (st_blobs st) (ar_changelog_seq row)). set (s0 := start _ _ _) in *.
  unfold acts, wp in Hm. unfold mbind_st at 1. unfold tx_body at 1.
  destruct (m (s0, st_w st)) as [[x|e] [pt w]]; cbn [fst snd] in Hm; [|done]. destruct Hm as [[ops Hr] [[Hwf Hw] HQ]].
  unfold mbind_st at 1. pose proof (flush_rows a pt) as Hrows. destruct (flush a pt) as [[[]|e] pt'] eqn:Hfl; [|done].
  cbn [fst snd mret_st] in *. split; [|split; [|done]].
  - destruct Hrows as (E1 & E2 & E3 & E4 & E5). split; cbn; [by eapply db_struct_same|]. rewrite E5. exact Hw.
  - exists ops, pt, (ar_changelog_seq row), (pt_changes pt'), (pt_seq pt'). split; [done|]. split; [by eapply runs_mono; [|exact Hr]|]. unfold Tx. rewrite Hrow.
    fold (start (st_db st) (st_blobs st) (ar_changelog_seq row)). fold s0. unfold mbind_st at 1.
    rewrite (runs_run_ops _ _ _ _ _ _ Hr). unfold mbind_st. by rewrite Hfl.
Qed.

(** ** Transactions of the web API *)

(** A request runs one of these, or several: an agent's edit that the policy holds
    first commits [HoldForReview] and then answers 409. *)
Inductive web_tx :=
| HoldForReview (raw : list ascii) (draft : OutboundPolicyDraft)
| PrepareAgentDraft (key : string) (raw : list ascii) (draft : AgentOutboundDraft)
| SaveSent (raw : list ascii)
| RemoveSent (messageID : Z)
| RemoveDraft (id : string)
| DeleteDraft (cred : Z) (id : string)
| UpdateDraft (cred : Z) (id : string) (version : option Z) (raw : list ascii)
| CreateDraft (cred : Z) (raw : list ascii)
| PatchMessage (cred : Z) (id : string) (adds removes : list string)
| DeleteMessage (id : string).

Definition done_ {A} (o : result A * Store) : result unit * Store := (try! _ := o.1 in Ok tt, o.2).
Definition run_tx (a : account) (now : Z) (r : web_tx) (st : Store) : result unit * Store :=
  match r with
  | HoldForReview raw d => done_ (saveOutboundPolicyDraft a now raw d st)
  | PrepareAgentDraft key raw d => done_ (saveAgentOutboundDraft a now key raw d st)
  | SaveSent raw => done_ (saveSentCopy a now raw st)
  | RemoveSent id => removeSentCopy a id st
  | RemoveDraft id => removeDraft a id st
  | DeleteDraft cred id => deleteDraft a cred id st
  | UpdateDraft cred id v raw => done_ (update_draft a now cred id v raw st)
  | CreateDraft cred raw => create_draft a now cred raw st
  | PatchMessage cred id adds removes => patchMessage a cred id adds removes st
  | DeleteMessage id => deleteMessage a id st
  end.
(** Contents are shorter than 2^63 bytes. *)
Definition web_tx_fits (r : web_tx) : Prop :=
  match r with
  | HoldForReview raw _ | PrepareAgentDraft _ raw _ | SaveSent raw | UpdateDraft _ _ _ raw | CreateDraft _ raw => fits raw
  | _ => True
  end.

Lemma ends_done a now {A} st (o : result A * Store) Q : ends a now st o Q -> ends a now st (done_ o) (fun _ _ => True).
Proof. by destruct o as [[x|e] st']; [intros (? & ? & _)|]. Qed.
Lemma ends_mono a now {A} st (o : result A * Store) (Q Q' : A -> WDB -> Prop) : ends a now st o Q -> (forall x w, Q x w -> Q' x w) -> ends a now st o Q'.
Proof. destruct o as [[x|e] st']; [|done]. intros (? & ? & ?) HQ. split_and!; auto. Qed.

Lemma removeDraftWithCheck_ends a now (P : Z -> WDB -> Prop) check id st : store_wf st ->
  (forall m s (Q : unit -> pgTx * WDB -> Prop), (P (EffectiveEmailID m) s.2 -> Q tt s) -> acts a now (check m) s Q) ->
  ends a now st (removeDraftWithCheck a id check st)
    (fun _ w => exists m, current a m (st_db st) /\ P (EffectiveEmailID m) (st_w st) /\ unmarked a (EffectiveEmailID m) w).
Proof.
  intros Hst Hc. apply WTx_ends; [done|]. intros h _.
  eapply acts_mono; [apply (acts_remove_draft a now (fun e => P e (st_w st))); [done|]|].
  - intros m Q HQ. by apply Hc.
  - by intros [] s' [Hs' Hm].
Qed.
Lemma update_ends a now cred id v raw st : store_wf st -> fits raw ->
  ends a now st (update_draft a now cred id v raw st) (fun r w =>
    exists cur, current a cur (st_db st) /\
      FindDraftSendClaim (acc_id a) (EffectiveEmailID cur) (st_w st) = None /\
      editable cred v (FindOutboundPolicyDraftByEmailID (acc_id a) (EffectiveEmailID cur) (st_w st))
        (FindAgentOutboundDraftByEmailID (acc_id a) (EffectiveEmailID cur) (st_w st)) /\
      carried a (st_w st) w (EffectiveEmailID cur) (EffectiveEmailID r.1) r.2 (digest_of raw)).
Proof.
  intros Hst Hf. apply WTx_ends; [done|]. intros h _. eapply acts_mono; [by apply acts_update_tx|]. by intros r s' [Hs' He].
Qed.
Lemma policy_ends a now raw d st : store_wf st -> fits raw ->
  ends a now st (saveOutboundPolicyDraft a now raw d st) (fun x w =>
    held a (w_policy w) (od_IdempotencyKey d) (od_ContentDigest d) (od_EmailID x)).
Proof. intros Hst Hf. apply WTx_ends; [done|]. intros h _. by apply acts_policy_tx. Qed.
(** The draft a request to prepare one stores. *)
Definition agent_row (a : account) (key : string) (raw : list ascii) (d : AgentOutboundDraft) : AgentOutboundDraft :=
  mkOutDraft (od_EmailID d) (od_Status d) 1 (od_SourceEmailID d) (if String.eqb (od_ContentDigest d) EmptyString then digest_of raw else od_ContentDigest d)
    (scopedOutboundIdempotencyKey a (trim_space key)) (od_CreatedAt d) (od_UpdatedAt d) (od_extra d).
Lemma agent_ends a now key raw d st : store_wf st -> fits raw ->
  ends a now st (saveAgentOutboundDraft a now key raw d st) (fun x w =>
    held a (w_agent w) (od_IdempotencyKey (agent_row a key raw d)) (od_ContentDigest (agent_row a key raw d)) (od_EmailID x.1)).
Proof.
  intros Hst Hf. unfold saveAgentOutboundDraft. destruct (negb _); [done|]. destruct (negb _); [done|].
  apply WTx_ends; [done|]. intros h _. by apply (acts_agent_tx a now raw (agent_row a key raw d)).
Qed.

Lemma ends_true a now {A} st (o : result A * Store) Q : ends a now st o Q -> ends a now st o (fun _ _ => True).
Proof. intros Ho. by eapply ends_mono. Qed.
Lemma WTx_plain a now {A} (m : WM A) st : store_wf st ->
  (forall s, sound s -> acts a now m s (fun _ s' => sound s' /\ s'.2 = s.2)) -> ends a now st (WTx a m st) (fun _ _ => True).
Proof.
  intros Hst Hm. apply WTx_ends; [done|]. intros h _. eapply acts_mono; [by apply Hm|]. by intros x s' [Hs' _].
Qed.
Lemma run_tx_ends a now r st : store_wf st -> web_tx_fits r -> ends a now st (run_tx a now r st) (fun _ _ => True).
Proof.
  intros Hst Hr. destruct r as [raw d|key raw d|raw|id|id|cred id|cred id v raw|cred raw|cred id adds removes|id]; cbn [run_tx web_tx_fits] in *.
  - by eapply ends_done, policy_ends.
  - by eapply ends_done, agent_ends.
  - eapply ends_done, WTx_plain; [done|]. intros s Hs. by apply acts_sent_tx.
  - apply WTx_plain; [done|]. intros s Hs. by apply acts_remove_email.
  - eapply ends_true, (removeDraftWithCheck_ends _ _ (fun _ _ => True)); [done|]. intros m s Q HQ. by apply acts_ret, HQ.
  - eapply ends_true, (removeDraftWithCheck_ends _ _ (fun e w => deletable a cred e w)); [done|]. intros m s Q. apply acts_may_delete.
  - by eapply ends_done, update_ends.
  - unfold create_draft. destruct (0 <? cred); [done|]. apply WTx_plain; [done|]. intros s Hs. by apply acts_create.
  - unfold patchMessage. destruct (_ && _); [done|]. destruct (_ && _); [done|]. apply WTx_plain; [done|]. intros s Hs. by apply acts_patch.
  - apply WTx_plain; [done|]. intros s Hs. by apply acts_delete_email.
Qed.

(** A transaction that only reads. *)
Lemma WTx_reads a {A} (m : WM A) st r : is_Some (db_accounts (st_db st) !! acc_id a) ->
  (forall s, s.2 = st_w st -> m s = (r, s)) -> WTx a m st = (r, st).
Proof.
  intros [row Hrow] Hm. unfold WTx, Tx. rewrite Hrow. unfold mbind_st at 1. unfold tx_body at 1.
  rewrite (Hm (_, st_w st)) by done. destruct st as [d b w]. cbn [st_db st_blobs st_w] in *. destruct r as [x|e]; [|done].
  unfold flush, mbind_st, mget. cbn. unfold advance_head. replace (alter _ _ _) with (db_accounts d).
  - by destruct d.
  - apply map_eq. intros k. rewrite lookup_alter. case_decide as Hk; [|done]. subst k. rewrite Hrow. by destruct row.
Qed.

(** Other clients of the kernel. *)
Lemma kernel_tx_inv careful a now st st' : kernel_tx careful a now st st' ->
  exists ops h pt, runs_with a now (fun o s => careful = true -> op_pre a o s) ops (start (st_db st) (st_blobs st) h) pt /\
    same_rows (pt_db pt) (st_db st').
Proof.
  intros (ops & pt & h & cs & head & Hh & Hr & HTx). exists ops, h, pt. split; [exact Hr|].
  unfold Tx in HTx. unfold head_of in Hh. destruct (db_accounts (st_db st) !! acc_id a) as [row|]; [|done]. injection Hh as <-.
  fold (start (st_db st) (st_blobs st) (ar_changelog_seq row)) in HTx. unfold mbind_st at 1 in HTx.
  rewrite (runs_run_ops _ _ _ _ _ _ Hr) in HTx. unfold mbind_st in HTx. pose proof (flush_rows a pt) as Hrows.
  destruct (flush a pt) as [[[]|e] pt']; [|done]. cbn [snd mret_st] in *. injection HTx as _ _ Ed _. by rewrite Ed in Hrows.
Qed.
Definition ids_grow (pt pt' : pgTx) : Prop := db_message_ids (pt_db pt) <= db_message_ids (pt_db pt').
#[local] Instance ids_grow_refl : Reflexive ids_grow.
Proof. intros pt. apply Z.le_refl. Qed.
#[local] Instance ids_grow_trans : Transitive ids_grow.
Proof. intros pt1 pt2 pt3. apply Z.le_trans. Qed.
Lemma kernel_tx_wf careful a now st st' : store_wf st -> kernel_tx careful a now st st' -> st_w st' = st_w st -> store_wf st'.
Proof.
  intros [Hwf Hw] (ops & h & pt & Hr & E1 & E2 & E3 & E4 & E5)%kernel_tx_inv Ew.
  apply (runs_ind_wp a now _ ids_grow (fun pt => db_struct (pt_db pt))) in Hr as [Hp1 Hp2]; [| |exact Hwf].
  - split; [by eapply db_struct_same|]. rewrite Ew, E5. by eapply workflow_next.
  - intros o pt0 _ Hwf0. eapply wp_mono; [exact (run_op_raw a now o pt0)|]. intros x pt1 He. split; [exact (raw_struct _ _ _ _ He Hwf0)|].
    exact (raw_ids _ _ _ _ He).
Qed.
Lemma kernel_tx_counts a now st st' : db_wf (st_db st) -> kernel_tx true a now st st' -> db_wf (st_db st').
Proof.
  intros Hwf (ops & h & pt & Hr & E1 & E2 & E3 & E4 & E5)%kernel_tx_inv. eapply db_wf_same; [done..|].
  refine (run_wf a now ops (start (st_db st) (st_blobs st) h) pt _ Hwf). eapply runs_mono; [|exact Hr]. intros o s Ho. by apply Ho.
Qed.

(** ** Theorems *)

(** The states of a node's store: a provisioned database and no drafts at first, then
    web transactions of any accounts, other transactions of the kernel - in a careful
    system with current rows - and any change of the send claims and intents. *)
Inductive web_reach (careful : bool) : Store -> Prop :=
| wb_start d b w : provisioned d -> w_agent w = ∅ -> w_policy w = ∅ -> web_reach careful (mkStore d b w)
| wb_request a now r st : web_reach careful st -> web_tx_fits r -> web_reach careful (run_tx a now r st).2
| wb_kernel a now st st' : web_reach careful st -> kernel_tx careful a now st st' -> st_w st' = st_w st -> web_reach careful st'
| wb_claims st w : web_reach careful st -> w_agent w = w_agent (st_w st) -> w_policy w = w_policy (st_w st) ->
    web_reach careful (mkStore (st_db st) (st_blobs st) w).

Lemma web_reach_wf careful st : web_reach careful st -> store_wf st.
Proof.
  induction 1 as [d b w Hp Ha Hc|a now r st _ IH Hr|a now st st' _ IH Hk Hw|st w _ [IH Hw] Ha Hp].
  - split; [apply provisioned_wf in Hp as [Hwf _]; apply Hwf|]. split; cbn; rewrite ?Ha, ?Hc; [apply empty_drafts_wf..| |].
    + done.
    + intros acc e. rewrite !lookup_empty. by intros [[]|[]].
  - pose proof (run_tx_ends a now r st IH Hr) as He. destruct (run_tx a now r st) as [[x|e] st']; [apply He|].
    destruct He as [E1 E2]. destruct st, st'. cbn in *. by subst.
  - by eapply kernel_tx_wf.
  - split; [done|]. destruct Hw as [A1 A2 A3 A4]. cbn in *. rewrite <- Ha in A1, A3, A4. rewrite <- Hp in A2, A3, A4. by split.
Qed.

(** [C33] In every reachable store, whatever other transactions of the kernel run, the drafts'
    tables are consistent - an email has one kind of workflow metadata at most, a key names one
    draft, versions and digests are in range, and no metadata waits for an email that does not
    exist yet - and so is the structure of the messages; and the counters agree with the rows
    where the other transactions pass current rows, which the web API's own always do. *)
Theorem drafts_consistent careful st : web_reach careful st -> store_wf st /\ (careful = true -> db_wf (st_db st)).
Proof.
  intros Hreach. split; [by eapply web_reach_wf|]. intros ->.
  induction Hreach as [d b w Hp Ha Hc|a now r st Hs IH Hr|a now st st' _ IH Hk Hw|st w _ IH Ha Hp]; [|..|done].
  - by apply provisioned_wf in Hp as [Hwf _].
  - pose proof (run_tx_ends a now r st (web_reach_wf _ _ Hs) Hr) as He. destruct (run_tx a now r st) as [[x|e] st'].
    + destruct He as (_ & Hk & _). by eapply kernel_tx_counts.
    + destruct He as [E1 _]. cbn [snd]. by rewrite E1.
  - by eapply kernel_tx_counts.
Qed.

(** [C34] A draft is edited only while no request to send it is known, by the owner or, when it was
    prepared for an agent, by an agent; who edits a draft with metadata names its version, and
    the metadata moves to the new email with its key, the new content's digest and the next
    version, leaving the old email without. *)
Theorem edit_authorised a now cred id version raw st m v st' (Hst : store_wf st) (Hf : fits raw) :
  update_draft a now cred id version raw st = (Ok (m, v), st') ->
  exists cur, current a cur (st_db st) /\
    FindDraftSendClaim (acc_id a) (EffectiveEmailID cur) (st_w st) = None /\
    editable cred version (FindOutboundPolicyDraftByEmailID (acc_id a) (EffectiveEmailID cur) (st_w st))
      (FindAgentOutboundDraftByEmailID (acc_id a) (EffectiveEmailID cur) (st_w st)) /\
    carried a (st_w st) (st_w st') (EffectiveEmailID cur) (EffectiveEmailID m) v (digest_of raw).
Proof. intros E. pose proof (update_ends a now cred id version raw st Hst Hf) as He. rewrite E in He. apply He. Qed.

(** A draft is deleted only while no request to send it is under way, by an agent only when
    it was prepared for one, and its metadata goes with it. *)
Theorem delete_authorised a cred id st st' (Hst : store_wf st) : deleteDraft a cred id st = (Ok tt, st') ->
  exists cur, current a cur (st_db st) /\ deletable a cred (EffectiveEmailID cur) (st_w st) /\
    unmarked a (EffectiveEmailID cur) (st_w st').
Proof.
  intros E. assert (He := removeDraftWithCheck_ends a 0 (fun e w => deletable a cred e w) (may_delete a cred) id st Hst).
  unfold deleteDraft in E. rewrite E in He. apply He. intros m s Q. apply acts_may_delete.
Qed.

(** What a policy holds for review is held once per key: as long as the table stands, a
    repeated request finds the same email and stores nothing, and the key with other content
    is refused. *)
Theorem review_held_once a now now' raw raw' d d' st x st1 st2 (Hst : store_wf st) (Hf : fits raw) :
  saveOutboundPolicyDraft a now raw d st = (Ok x, st1) ->
  w_policy (st_w st2) = w_policy (st_w st1) -> is_Some (db_accounts (st_db st2) !! acc_id a) ->
  od_IdempotencyKey d' = od_IdempotencyKey d ->
  exists y, od_EmailID y = od_EmailID x /\
    saveOutboundPolicyDraft a now' raw' d' st2 =
      (if String.eqb (od_ContentDigest d) (od_ContentDigest d') then Ok y else Err idempotency_key_conflict, st2).
Proof.
  intros E Hp Hacc Hk. pose proof (policy_ends a now raw d st Hst Hf) as He. rewrite E in He. destruct He as ([_ Hw] & _ & Hheld).
  destruct (held_find a _ _ _ _ (wk_policy _ _ Hw) Hheld) as (y & Hy & Hid & Hdg). exists y. split; [done|].
  unfold saveOutboundPolicyDraft. apply WTx_reads; [done|]. intros s Hs. unfold policy_tx, mbind_st, work_read, work.
  unfold FindOutboundPolicyDraftByIdempotencyKey. rewrite Hs, Hp, Hk, Hy. cbn [rbind]. rewrite Hdg.
  destruct (String.eqb _ _); cbn [negb]; destruct s; cbn in *; by subst.
Qed.
End Stores.

(** ** Witnesses: Alice's agent prepares a draft, edits it and deletes it; a policy holds another *)

#[local] Instance wd_unicode : Unicode := { unicode_lower := fun r => r; EqualFold := fun s t => String.eqb (ascii_lower s) (ascii_lower t) }.
Lemma wd_pad (l : list ascii) : length (take 32 (rev l ++ replicate 32 "z"%char)) = 32%nat.
Proof. rewrite length_take, length_app, length_replicate. lia. Qed.
#[local] Instance wd_sha : Sha256 := { sha256 := fun l => take 32 (rev l ++ replicate 32 "z"%char); sha256_length := wd_pad }.

Definition wd0 : Store := mkStore demo_db no_files demo_wdb.
Definition wd_raw : list ascii := bytes_of "draft".
Lemma wd0_reach : web_reach true wd0.
Proof. by apply wb_start; [apply demo_provisioned|..]. Qed.
Lemma wd_fits : fits wd_raw.
Proof. vm_compute. discriminate. Qed.

Lemma ok_pair {A B} (o : result A * B) x : o.1 = Ok x -> o = (Ok x, o.2).
Proof. destruct o. cbn. by intros ->. Qed.

(** *** Held for review *)
Definition wd_held : OutboundPolicyDraft :=
  mkOutDraft 0 "pending_confirmation" 1 0 demo_digest32 "key-1" 0 0 (mkPolicyCols "1" [] "owner_direct").
Definition wd_stored : OutboundPolicyDraft := set_email 1 wd_held.
Definition wd1 : Store := (saveOutboundPolicyDraft alice 7 wd_raw wd_held wd0).2.
Lemma wd_holds : saveOutboundPolicyDraft alice 7 wd_raw wd_held wd0 = (Ok wd_stored, wd1).
Proof. unfold wd1. apply ok_pair. vm_compute. reflexivity. Qed.

(** *** Prepared for an agent *)
Definition wd_prepare : web_tx :=
  PrepareAgentDraft "request-1" wd_raw (mkOutDraft 0 "pending_confirmation" 0 0 EmptyString EmptyString 0 0 "agent_pending_confirmation").
Definition wd2 : Store := (run_tx alice 8 wd_prepare wd0).2.
Lemma wd2_reach : web_reach true wd2.
Proof. unfold wd2. exact (wb_request true alice 8 wd_prepare wd0 wd0_reach wd_fits). Qed.
Definition wd_edit := update_draft alice 9 5 "E1" (Some 1) (bytes_of "edited") wd2.
Definition wd_edited : Message := match wd_edit.1 with Ok (m, _) => m | Err _ => zero_message end.
Lemma wd_edits : wd_edit = (Ok (wd_edited, 2), wd_edit.2).
Proof. apply ok_pair. vm_compute. reflexivity. Qed.
Lemma wd_deletes : deleteDraft alice 5 "E1" wd2 = (Ok tt, (deleteDraft alice 5 "E1" wd2).2).
Proof. apply ok_pair. vm_compute. reflexivity. Qed.
(** An agent may not delete what the policy holds. *)
Example wd_refuses : (deleteDraft alice 5 "E1" wd1).1 = Err owner_required.
Proof. vm_compute. reflexivity. Qed.

Lemma drafts_consistent_witness : store_wf wd2 /\ db_wf (st_db wd2).
Proof. destruct (drafts_consistent true wd2 wd2_reach) as [Hst Hwf]. split; [exact Hst|exact (Hwf eq_refl)]. Defined.
Lemma edit_authorised_witness : exists cur, current alice cur (st_db wd2) /\
    FindDraftSendClaim 1 (EffectiveEmailID cur) (st_w wd2) = None /\
    editable 5 (Some 1) (FindOutboundPolicyDraftByEmailID 1 (EffectiveEmailID cur) (st_w wd2))
      (FindAgentOutboundDraftByEmailID 1 (EffectiveEmailID cur) (st_w wd2)) /\
    carried alice (st_w wd2) (st_w wd_edit.2) (EffectiveEmailID cur) (EffectiveEmailID wd_edited) 2 (digest_of (bytes_of "edited")).
Proof.
  apply (edit_authorised alice 9 5 "E1" (Some 1) (bytes_of "edited") wd2); [exact (web_reach_wf _ wd2 wd2_reach)| |exact wd_edits].
  vm_compute. discriminate.
Defined.
Lemma delete_authorised_witness : exists cur, current alice cur (st_db wd2) /\ deletable alice 5 (EffectiveEmailID cur) (st_w wd2) /\
  unmarked alice (EffectiveEmailID cur) (st_w (deleteDraft alice 5 "E1" wd2).2).
Proof. exact (delete_authorised alice 5 "E1" wd2 _ (web_reach_wf _ wd2 wd2_reach) wd_deletes). Defined.
Lemma review_held_once_witness : exists y, od_EmailID y = 1 /\
  saveOutboundPolicyDraft alice 9 (bytes_of "again") wd_held wd1 =
    (if String.eqb demo_digest32 demo_digest32 then Ok y else Err idempotency_key_conflict, wd1).
Proof.
  assert (Hacc : is_Some (db_accounts (st_db wd1) !! 1)) by (vm_compute; eauto).
  exact (review_held_once alice 7 9 wd_raw (bytes_of "again") wd_held wd_held wd0 wd_stored wd1 wd1
    (web_reach_wf _ wd0 wd0_reach) wd_fits wd_holds eq_refl Hacc eq_refl).
Defined.
