(* ===== verification/WebSend.v ===== *)
(** * Sending in the web API (protocol/webapi/messages.go, agent_drafts.go, drafts.go, outbound_policy.go)

    The handlers that send: a message, a reply, a forward, a draft, an agent's intent.
    What an agent writes goes to the policy first; then the Sent copy is stored, the
    message is submitted to the queue under it, and the claim or intent is settled. *)

From S2P Require Import Prelude GoStrings Shapes Changes Blob Database Tx Mailboxes Messages Query Queue Strconv Verp Headers Smtp Submit Base64 Textproto Json AutoReplyChain RuleMetadata OutboundPolicy MailRules Compose Claims SendDraft WebParts WebDrafts.

Local Open Scope go_scope.

(** ** Requests *)

Record sendRequest := mkSendRequest {
  sr_To : list string; sr_Cc : list string; sr_Bcc : list string; sr_Subject : string;
  sr_Text : string; sr_HTML : string; sr_Attachments : list attachment }.
Record replyRequest := mkReplyRequest { rr_Text : string; rr_HTML : string; rr_Attachments : list attachment }.
Record forwardRequest := mkForwardRequest { fr_To : list string; fr_Text : string; fr_Attachments : list attachment }.

(** The headers [X-Octo-Idempotency-Key] and [X-Octo-Automation]. *)
Record RequestHeaders := mkRequestHeaders { rh_key : string; rh_automation : string }.

(** Who asks: [addresses] is what [AccountAddresses] returns. *)
Record authCtx := mkAuthCtx {
  au_acc : account; au_login : string; au_agentCredentialID : Z; au_addresses : option (list string) }.

(** The server: whether it submits, its policy, its chain of automatic replies, the key of
    the rules' signatures, and [AgentAutomationAllowed]. *)
Record Server := mkServer {
  sv_Submission : bool; sv_OutboundPolicy : option (Intent -> result OutboundPolicy.Decision);
  sv_AutoReplyChain : option Chain; sv_RuleMetadata : option string; sv_AutomationAllowed : Z -> string -> result bool }.

(** What a call draws and what the database does meanwhile. *)
Record Call := mkCall {
  ca_now : Z; ca_commit : commit; ca_compose : ComposeEnv; ca_compose_draft : ComposeEnv;
  ca_message_id : option (list ascii); ca_trace : option (list ascii); ca_other : WDB -> WDB }.

(** ** JSON of the requests, for the digests *)

Definition attachment_json (a : attachment) : json := JObj
  ([("filename", JStr (at_Filename a))]%string ++ omit_str "contentType" (at_ContentType a) ++ [("content", JStr (at_Content a))]%string).
Definition omit_attachments (l : list attachment) : list (string * json) :=
  match l with [] => [] | _ => [("attachments"%string, JArr (attachment_json <$> l))] end.
Definition send_json (r : sendRequest) : json := JObj
  ([("to", json_list (Some (sr_To r)))]%string ++ omit_list "cc" (sr_Cc r) ++ omit_list "bcc" (sr_Bcc r)
   ++ [("subject", JStr (sr_Subject r))]%string ++ omit_str "text" (sr_Text r) ++ omit_str "html" (sr_HTML r)
   ++ omit_attachments (sr_Attachments r)).
Definition reply_json (r : replyRequest) : json := JObj
  (omit_str "text" (rr_Text r) ++ omit_str "html" (rr_HTML r) ++ omit_attachments (rr_Attachments r)).

(** ** State *)

Record Mail `{BlobOps} := mkMail { ml_st : Store; ml_q : QDB }.
Arguments mkMail {_}. Arguments ml_st {_}. Arguments ml_q {_}.

Definition code (s : string) : err := ErrText s.
Definition submission_result_unknown : err := code "submission_result_unknown".
Definition send_intent_result_unknown : err := code "send_intent_result_unknown".
Definition outbound_review_required : err := code "outbound_review_required".

Section Send.
Context `{BlobOps} `{Unicode} `{UnicodeUpper} `{UnicodeClasses} `{SqlText} `{Sha256} `{Hmac} `{AddressParser} `{AddressText}
  `{MimeTypes} `{UnicodePrint} `{MoxMessage}.
Variables (srv : Server) (au : authCtx) (hd : RequestHeaders) (ca : Call).

Abbreviation acc := (au_acc au).
Abbreviation now := (ca_now ca).
Abbreviation cred := (au_agentCredentialID au).
Definition HM (A : Type) : Type := stM Mail A.

Definition on_store {A} (f : Store -> result A * Store) : HM A := fun m =>
  let '(r, st) := f (ml_st m) in (r, mkMail st (ml_q m)).
Definition ask {A} (f : Store -> result A) : HM A := fun m => (f (ml_st m), m).
Definition give {A} (r : result A) : HM A := fun m => (r, m).
(** A statement of its own on the tables of claims. *)
Definition on_work {A} (f : WDB -> result A * WDB) : HM A := on_store (fun st =>
  let '(r, w) := f (st_w st) in (r, mkStore (st_db st) (st_blobs st) w)).
(** What a failure is reported as. *)
Definition reported_as {A} (e : err) (m : HM A) : HM A := fun s =>
  match m s with (Ok x, s) => (Ok x, s) | (Err _, s) => (Err e, s) end.
(** Clean-up whose failure is only logged; and clean-up after a failure. *)
Definition logged {A} (m : HM A) : HM unit := fun s => (Ok tt, (m s).2).
Definition or_else {A} (m : HM A) (clean : err -> HM unit) : HM A := fun s =>
  match m s with (Ok x, s) => (Ok x, s) | (Err e, s) => (Err e, (clean e s).2) end.

Definition senderDomain : string :=
  match last_index_byte "@"%char (bytes_of (au_login au)) with
  | Some i => str_of (drop (S i) (bytes_of (au_login au)))
  | None => "localhost"
  end.
Definition allRecipients (to cc bcc : list string) : list string := to ++ cc ++ bcc.

(** ** The policy *)

Definition outboundPolicySource : string :=
  if String.eqb (trim_space (rh_automation hd)) "auto-reply" then SourceInboundAutoReply else SourceOwnerDirect.
Definition policyReasons (reasons : list OutboundPolicy.Reason) : list Claims.Reason :=
  (fun r => Claims.mkReason (rs_Code r) (rs_Title r) (rs_Description r)) <$> reasons.

(** A key and an identity of the source that replace the caller's. *)
Record outboundPolicyDedupe := mkDedupe { de_requestKey : string; de_sourceIdentity : string }.
Definition no_dedupe : outboundPolicyDedupe := mkDedupe EmptyString EmptyString.
Definition set_source (v : string) (i : Intent) : Intent :=
  mkIntent (in_Source i) (in_Operation i) v (in_To i) (in_Cc i) (in_Bcc i) (in_Subject i) (in_Text i) (in_HTML i) (in_AttachmentCount i).

(** Of the errors of [saveOutboundPolicyDraft] one carries a status. *)
Definition review_failure (e : err) : err :=
  if bool_decide (e = idempotency_key_conflict) then e else code "policy_draft_failed".
Definition enforceAgentOutboundPolicyWithDedupe (intent : Intent) (raw : list ascii) (dedupe : outboundPolicyDedupe) : HM unit :=
  match sv_OutboundPolicy srv with
  | None => mret_st tt
  | Some evaluate =>
      if cred <=? 0 then mret_st tt
      else match evaluate intent with
      | Err _ => merr_st (code "outbound_policy_failed")
      | Ok decision =>
          if String.eqb (dc_Outcome decision) OutcomeAllow then mret_st tt
          else if String.eqb (dc_Outcome decision) OutcomeOwnerReviewRequired then
            let '(requestKey, digestIntent) :=
              if String.eqb (de_requestKey dedupe) EmptyString then (trim_space (rh_key hd), intent)
              else (de_requestKey dedupe, set_source (de_sourceIdentity dedupe) intent) in
            if negb (validOutboundIdempotencyKey requestKey) then merr_st idempotency_key_required
            else
              let draft := mkOutDraft 0 "pending_confirmation" 1 (numericEmailID (in_SourceEmailID intent))
                             (str_of (Digest digestIntent)) (scopedOutboundIdempotencyKey acc requestKey) 0 0
                             (mkPolicyCols (dc_PolicyVersion decision) (policyReasons (dc_Reasons decision)) (in_Source intent)) in
              fun m => match on_store (saveOutboundPolicyDraft acc now raw draft) m with
                       | (Ok _, m) => (Err outbound_review_required, m)
                       | (Err e, m) => (Err (review_failure e), m)
                       end
          else merr_st (code "outbound_policy_invalid")
      end
  end.
Definition enforceAgentOutboundPolicy (intent : Intent) (raw : list ascii) : HM unit :=
  enforceAgentOutboundPolicyWithDedupe intent raw no_dedupe.

(** ** The Sent copy and the queue *)

(** [SubmitForMessage] on the queue of the same database and blob store. *)
Definition submission (sent : Message) (rcpts : list string) (raw : list ascii) : HM (list Z) := fun m =>
  let st := ml_st m in
  let '(r, b, q) := SubmitForMessage now (ca_commit ca) (acc_tenantID acc) (acc_id acc) (EffectiveEmailID sent) (au_login au) rcpts
                      (str_of raw) (st_blobs st) (ml_q m) in
  (r, mkMail (mkStore (st_db st) b (st_w st)) q).
(** A failed submission takes the Sent copy back, unless it may have been accepted. *)
Definition submit_sent (unknown : err) (sent : Message) (rcpts : list string) (raw : list ascii) : HM (list Z) := fun m =>
  match submission sent rcpts raw m with
  | (Ok ids, m) => (Ok ids, m)
  | (Err e, m) =>
      if IsResultUnknown e then (Err unknown, m)
      else (Err (code "submit_failed"),
            mkMail (cleanupFailedSubmissionSentCopy acc (EffectiveEmailID sent) (ml_st m)) (ml_q m))
  end.
Definition save_sent (raw : list ascii) : HM Message := reported_as (code "sent_copy_failed") (on_store (saveSentCopy acc now raw)).

Definition enqueueComposedMessage (to cc bcc : list string) (raw : list ascii) : HM (Message * list Z) :=
  if negb (sv_Submission srv) then merr_st (code "unavailable")
  else
    let! sent := save_sent raw in
    let! ids := submit_sent submission_result_unknown sent (allRecipients to cc bcc) raw in
    mret_st (sent, ids).

(** Accepted: the Sent copy's email and the ids in the queue. *)
Definition accepted_as (x : Message * list Z) : Z * list Z := (EffectiveEmailID x.1, x.2).

Definition send_input (req : sendRequest) (draftBcc : list string) : composeInput :=
  mkInput (au_login au) (sr_To req) (sr_Cc req) draftBcc (sr_Subject req) (sr_Text req) (sr_HTML req) (sr_Attachments req)
    EmptyString EmptyString [] EmptyString EmptyString ∅.
Definition send_intent (source : string) (req : sendRequest) : Intent :=
  mkIntent source "mail.message.send" EmptyString (Some (sr_To req)) (sr_Cc req) (sr_Bcc req) (sr_Subject req) (sr_Text req) (sr_HTML req)
    (Z.of_nat (length (sr_Attachments req))).
Definition composed (env : ComposeEnv) (input : composeInput) : HM (list ascii) := give (try! r := compose env input senderDomain in Ok r.1).

Definition sendMessage (req : sendRequest) : HM (Z * list Z) :=
  if negb (sv_Submission srv) then merr_st (code "unavailable")
  else match sr_To req with
  | [] => merr_st (code "invalid_body")
  | _ =>
      let! raw := composed (ca_compose ca) (send_input req []) in
      let! policyRaw := (if negb (bool_decide (sr_Bcc req = [])) && (0 <? cred) && bool_decide (is_Some (sv_OutboundPolicy srv))
                         then composed (ca_compose_draft ca) (send_input req (sr_Bcc req)) else mret_st raw) in
      do! enforceAgentOutboundPolicy (send_intent outboundPolicySource req) policyRaw;
      let! x := enqueueComposedMessage (sr_To req) (sr_Cc req) (sr_Bcc req) raw in
      mret_st (accepted_as x)
  end.

(** ** Send intents *)

Definition agentDraftIntentDigest (draftType sourceEmailID : string) (value : json) : string :=
  digest_of (bytes_of (Marshal (JObj ([("draftType", JStr draftType)]%string ++ omit_str "sourceEmailId" sourceEmailID ++ [("value"%string, value)])))).

(** The status of an error of the claim: the table's own failures are internal. *)
Definition claimAgentSendIntent (requestKey digest : string) : HM (AgentSendIntent * bool) :=
  let! x := reported_as (code "send_intent_claim_failed") (on_work (ClaimAgentSendIntent (acc_id acc) now requestKey digest (ca_other ca))) in
  if negb (String.eqb (ai_ContentDigest x.1) digest) then merr_st idempotency_key_conflict else mret_st x.
Definition existingAgentSendIntentResult (intent : AgentSendIntent) : HM (Z * list Z) :=
  if bool_decide (ai_Status intent = accepted) && (0 <? ai_MessageID intent)
  then mret_st (ai_MessageID intent, ai_SubmissionIDs intent) else merr_st send_intent_result_unknown.
Definition table_do (f : WDB -> result WDB) : HM unit := on_work (fun w =>
  match f w with Ok w => (Ok tt, w) | Err e => (Err e, w) end).
Definition abandonAgentSendIntent (requestKey : string) : HM unit :=
  logged (table_do (AbandonAgentSendIntent (acc_id acc) requestKey)).
Definition completeAgentSendIntent (requestKey : string) (messageID : Z) (ids : list Z) : HM unit :=
  logged (table_do (CompleteAgentSendIntent (acc_id acc) now requestKey messageID (Some ids))).

(** A failure that leaves no doubt frees the key. *)
Definition unless_unknown (unknown : err) (clean : HM unit) (e : err) : HM unit :=
  if bool_decide (e = unknown) then mret_st tt else clean.
Definition submitAgentSendIntent (requestKey : string) (req : sendRequest) (raw : list ascii) : HM (Z * list Z) :=
  let! ' (intent, claimed) := claimAgentSendIntent requestKey (agentDraftIntentDigest "agent_automatic_send" EmptyString (send_json req)) in
  if negb claimed then existingAgentSendIntentResult intent
  else
    let! x := or_else (fun m => match enqueueComposedMessage (sr_To req) (sr_Cc req) (sr_Bcc req) raw m with
                       | (Err e, m) => (Err (if bool_decide (e = submission_result_unknown) then send_intent_result_unknown else e), m)
                       | r => r
                       end) (unless_unknown send_intent_result_unknown (abandonAgentSendIntent requestKey)) in
    do! completeAgentSendIntent requestKey (EffectiveEmailID x.1) x.2;
    mret_st (accepted_as x).

Definition eligibleAutomaticSend (req : sendRequest) : bool :=
  negb (String.eqb (trim_space (sr_Text req)) EmptyString) && (String.length (sr_Text req) <=? Z.to_nat 100000)%nat
  && String.eqb (sr_HTML req) EmptyString && bool_decide (sr_Attachments req = []).
Definition validateAgentSendIntent (req : sendRequest) : result unit :=
  match sr_To req with
  | [] => Err (code "invalid_body")
  | _ =>
      let recipients := allRecipients (sr_To req) (sr_Cc req) (sr_Bcc req) in
      if (100 <? length recipients)%nat then Err (code "too_many_recipients")
      else if negb (forallb parses recipients) then Err (code "invalid_recipient")
      else if (998 <? String.length (sr_Subject req))%nat then Err (code "subject_too_large")
      else if 100000 <? Z.of_nat (String.length (sr_Text req)) then Err (code "message_too_large")
      else Ok tt
  end.
Definition requireAgentDraftCredential : result unit :=
  if cred <=? 0 then Err (code "agent_credential_required") else Ok tt.

Definition agent_draft (draftType : string) (sourceEmailID : Z) (digest : string) : AgentOutboundDraft :=
  mkOutDraft 0 "pending_confirmation" 0 sourceEmailID digest EmptyString 0 0 draftType.
Definition hold_draft (raw : list ascii) (d : AgentOutboundDraft) : HM (AgentOutboundDraft * Message) :=
  on_store (saveAgentOutboundDraft acc now (rh_key hd) raw d).

Inductive SendAnswer := Sent (messageID : Z) (ids : list Z) | DraftCreated (draft : AgentOutboundDraft) (message : Message).
Definition createAgentSendIntent (req : sendRequest) : HM SendAnswer :=
  do! give requireAgentDraftCredential;
  let requestKey := trim_space (rh_key hd) in
  do! mguard (validOutboundIdempotencyKey requestKey) idempotency_key_required;
  do! give (validateAgentSendIntent req);
  let! outboundRaw := composed (ca_compose ca) (send_input req []) in
  let! draftRaw := composed (ca_compose_draft ca) (send_input req (sr_Bcc req)) in
  do! enforceAgentOutboundPolicy (send_intent SourceOwnerDirect req) draftRaw;
  let! automatic := give (sv_AutomationAllowed srv cred "mail.message.send") in
  if automatic && eligibleAutomaticSend req then
    let! x := submitAgentSendIntent requestKey req outboundRaw in mret_st (Sent x.1 x.2)
  else
    let! x := hold_draft draftRaw (agent_draft agentDraftTypePendingConfirmation 0
                (agentDraftIntentDigest agentDraftTypePendingConfirmation EmptyString (send_json req))) in
    mret_st (DraftCreated x.1 x.2).

Definition createAgentDraft (req : sendRequest) : HM (AgentOutboundDraft * Message) :=
  do! give requireAgentDraftCredential;
  match sr_To req with
  | [] => merr_st (code "invalid_body")
  | _ =>
      let! raw := composed (ca_compose ca) (send_input req (sr_Bcc req)) in
      do! enforceAgentOutboundPolicy (send_intent SourceOwnerDirect req) raw;
      hold_draft raw (agent_draft agentDraftTypePendingConfirmation 0
        (agentDraftIntentDigest agentDraftTypePendingConfirmation EmptyString (send_json req)))
  end.

(** ** Replies *)

Definition reply_input (to cc : list string) (subject : string) (req : replyRequest) (env : envelope) (messageID : string)
  (trusted : gmap string string) : composeInput :=
  mkInput (au_login au) to cc [] subject (rr_Text req) (rr_HTML req) (rr_Attachments req) messageID (ev_messageID env)
    (ev_references env ++ [ev_messageID env]) EmptyString EmptyString trusted.
Definition reply_intent (source operation id : string) (to cc : list string) (subject : string) (req : replyRequest) : Intent :=
  mkIntent source operation id (Some to) cc [] subject (rr_Text req) (rr_HTML req) (Z.of_nat (length (rr_Attachments req))).

Definition createAgentReplyDraft (sourceID : string) (req : replyRequest) : HM (AgentOutboundDraft * Message) :=
  do! give requireAgentDraftCredential;
  let! sourceRaw := ask (readMessageBytes acc sourceID) in
  let env := parseEnvelope sourceRaw None [] now in
  let '(to, cc) := replyRecipients env (au_login au) false in
  match to with
  | [] => merr_st no_recipients
  | _ =>
      let subject := ensurePrefix (ev_subject env) "Re: " in
      let! raw := composed (ca_compose ca) (reply_input to cc subject req env EmptyString ∅) in
      do! enforceAgentOutboundPolicy (reply_intent SourceInboundAutoReply "mail.message.reply" sourceID to cc subject req) raw;
      hold_draft raw (agent_draft agentDraftTypeReply (numericEmailID sourceID)
        (agentDraftIntentDigest agentDraftTypeReply sourceID (reply_json req)))
  end.

Definition isAgentAutomaticReply : bool := (0 <? cred) && String.eqb (trim_space (rh_automation hd)) "auto-reply".
Definition ruleRecipientAddresses : list string :=
  au_login au :: match au_addresses au with
                 | Some l => List.filter (fun s => negb (String.eqb s EmptyString)) (trim_space <$> l)
                 | None => []
                 end.
Definition trustedRuleForwardMetadata (raw : list ascii) : option Metadata :=
  match sv_RuleMetadata srv with
  | None => None
  | Some key => match VerifyAny key raw ruleRecipientAddresses now with
                | Some m => if md_ChainTrusted m then Some m else None
                | None => None
                end
  end.
Definition nextAutoReplyMetadata (c : Chain) (sourceRaw : list ascii) (outgoingMessageID outgoingRecipient : string) (trusted : bool)
  : result ChainMetadata :=
  match (next c sourceRaw outgoingMessageID (au_login au) outgoingRecipient now (ca_trace ca) trusted).1 with
  | Ok metadata => Ok metadata
  | Err e => if bool_decide (e = ErrLimitReached) || bool_decide (e = ErrExternalAutomatedReply)
             then Err (code "auto_reply_limit_reached") else Err (code "auto_reply_chain_failed")
  end.
Definition maxAutomaticText : Z := 100000.
(** The labels of an automatic reply, and its text with the notice of the last one. *)
Definition label_reply (sourceRaw : list ascii) (to : string) (trusted : bool) (req : replyRequest)
  : result (string * gmap string string * replyRequest) :=
  match sv_AutoReplyChain srv with
  | None => Ok (EmptyString, {[HeaderSubmitted := SubmittedAutoReplied]}, req)
  | Some c =>
      match genMessageID (ca_message_id ca) senderDomain with
      | None => Err (code "message_id_failed")
      | Some messageID =>
          try! metadata := nextAutoReplyMetadata c sourceRaw messageID to trusted in
          let text := if IsFinalCount c (cm_Count metadata) then AppendFinalNotice (rr_Text req) else rr_Text req in
          if IsFinalCount c (cm_Count metadata) && (maxAutomaticText <? Z.of_nat (String.length text))
          then Err (code "automatic_reply_too_large")
          else Ok (messageID, list_to_map (Headers metadata), mkReplyRequest text (rr_HTML req) (rr_Attachments req))
      end
  end.

(** The idempotency key of an automatic reply and the digest of its request. *)
Definition reply_key (trusted : option Metadata) : string :=
  match trusted with
  | Some m => scopedOutboundIdempotencyKey acc ("trusted-rule-forward:" ++ md_MessageID m)
  | None => trim_space (rh_key hd)
  end.
Definition reply_digest (id : string) (trusted : option Metadata) (req : replyRequest) : string :=
  agentDraftIntentDigest "agent_automatic_reply" (match trusted with Some m => md_MessageID m | None => id end) (reply_json req).

(** Sent copy, submission, and the settling of an automatic reply's intent. *)
Definition send_reply (claimed : option string) (rcpts : list string) (raw : list ascii) : HM (Z * list Z) :=
  let unknown := match claimed with Some _ => send_intent_result_unknown | None => submission_result_unknown end in
  let! x := or_else (let! sent := save_sent raw in
                     let! ids := submit_sent unknown sent rcpts raw in
                     mret_st (sent, ids))
              (unless_unknown unknown (match claimed with Some key => abandonAgentSendIntent key | None => mret_st tt end)) in
  do! match claimed with Some key => completeAgentSendIntent key (EffectiveEmailID x.1) x.2 | None => mret_st tt end;
  mret_st (accepted_as x).

Definition reply (all : bool) (id : string) (req : replyRequest) : HM (Z * list Z) :=
  if negb (sv_Submission srv) then merr_st (code "unavailable")
  else
    let! sourceRaw := ask (readMessageBytes acc id) in
    let env := parseEnvelope sourceRaw None [] now in
    let '(to, cc) := replyRecipients env (au_login au) all in
    match to with
    | [] => merr_st no_recipients
    | to0 :: _ =>
        let subject := ensurePrefix (ev_subject env) "Re: " in
        let automatic := isAgentAutomaticReply in
        let trusted := if automatic then trustedRuleForwardMetadata sourceRaw else None in
        let key := reply_key trusted in
        let digest := reply_digest id trusted req in
        let! ' (messageID, headers, req) := give (if automatic then label_reply sourceRaw to0 (bool_decide (is_Some trusted)) req
                                                  else Ok (EmptyString, ∅, req)) in
        let! raw := composed (ca_compose ca) (reply_input to cc subject req env messageID headers) in
        do! enforceAgentOutboundPolicyWithDedupe
              (reply_intent outboundPolicySource (if all then "mail.message.reply_all" else "mail.message.reply") id to cc subject req) raw
              (match trusted with Some m => mkDedupe key (md_MessageID m) | None => no_dedupe end);
        if automatic then
          let! ' (intent, claimed) := claimAgentSendIntent key digest in
          if negb claimed then existingAgentSendIntentResult intent else send_reply (Some key) (allRecipients to cc []) raw
        else send_reply None (allRecipients to cc []) raw
    end.

(** ** Forwards *)

Definition crlf : string := str_of CRLF.
Definition forward_text (req : forwardRequest) (from subject text : string) : string :=
  (fr_Text req ++ (if String.eqb (fr_Text req) EmptyString then EmptyString else crlf ++ crlf)
   ++ "---------- Forwarded message ----------" ++ crlf ++ "From: " ++ from ++ crlf ++ "Subject: " ++ subject ++ crlf ++ crlf ++ text)%string.
(** The first row of the email; a body that cannot be read is empty. *)
Definition read_forwarded (id : string) (st : Store) : result (list ascii) :=
  WReadTx (let! messages := loadGroup acc id in
           fun s => match read_message acc (default zero_message (head messages)) s with
                    | (Ok data, s) => (Ok data, s) | (Err _, s) => (Ok [], s) end) st.

Definition forwardMessage (id : string) (req : forwardRequest) : HM (Z * list Z) :=
  if negb (sv_Submission srv) then merr_st (code "unavailable")
  else match fr_To req with
  | [] => merr_st (code "invalid_body")
  | _ =>
      let! data := ask (read_forwarded id) in
      let env := parseEnvelope data None [] now in
      let text := (parseBodies data).1.1 in
      let subject := ensurePrefix (ev_subject env) "Fwd: " in
      let body := forward_text req (ev_from env) (ev_subject env) text in
      let! raw := composed (ca_compose ca) (mkInput (au_login au) (fr_To req) [] [] subject body EmptyString (fr_Attachments req)
                    EmptyString EmptyString [] (ev_from env) (au_login au) ∅) in
      do! enforceAgentOutboundPolicy (mkIntent outboundPolicySource "mail.message.forward" id (Some (fr_To req)) [] [] subject body
            EmptyString (Z.of_nat (length (fr_Attachments req)))) raw;
      send_reply None (fr_To req) raw
  end.

(** ** Drafts *)

(** What the transaction that claims a draft returns. *)
Record ClaimedDraft := mkClaimedDraft {
  cd_email : Z; cd_version : Z; cd_raw : list ascii; cd_rcpts : list string; cd_agent : option (string * Z);
  cd_claim : DraftSendClaim; cd_claimed : bool }.
Definition claim_draft (req : option Z) (id : string) : WM ClaimedDraft :=
  let! ' (message, _) := loadDraftMessage acc id in
  let e := EffectiveEmailID message in
  let! version := work_read (draft_version (acc_id acc) cred req e) in
  let! agent := work_read (fun w => Ok (FindAgentOutboundDraftByEmailID (acc_id acc) e w)) in
  let! raw := read_message acc message in
  let env := parseEnvelope raw None [] now in
  let rcpts := allRecipients (ev_to env) (ev_cc env) (ev_bcc env) in
  let! ' (claim, claimed) := work (claim_tx (acc_id acc) now cred req (mkDraftMessage e rcpts (digest_of raw))) in
  mret_st (mkClaimedDraft e version raw rcpts ((fun d => (od_extra d, od_SourceEmailID d)) <$> agent) claim claimed).

Definition dash (l : list string) : string := join "-" l.
Definition draft_identity (emailID version : Z) : string :=
  ("agent-draft:" ++ FormatInt emailID ++ ":version:" ++ FormatInt version)%string.
Definition check_draft (d : ClaimedDraft) : HM unit :=
  if (0 <? cred) && bool_decide (is_Some (sv_OutboundPolicy srv)) then
    let! intent := reported_as (code "outbound_policy_draft_invalid") (give (agentDraftPolicyIntent (cd_raw d) (cd_agent d))) in
    enforceAgentOutboundPolicyWithDedupe intent (cd_raw d)
      (mkDedupe ("agent-draft-send-" ++ dash [FormatInt (cd_email d); FormatInt (cd_version d)]) (draft_identity (cd_email d) (cd_version d)))
  else mret_st tt.
Definition abandon_draft (e : Z) : HM unit := logged (table_do (fun w => Ok (AbandonDraftSendClaim (acc_id acc) e w))).

Definition sendDraft (id : string) (version : option Z) : HM (Z * list Z) :=
  if negb (sv_Submission srv) then merr_st (code "unavailable")
  else
    let! d := on_store (WTx acc (claim_draft version id)) in
    if negb (cd_claimed d) then give (existing_claim (cd_claim d))
    else
      let! x := or_else (do! check_draft d;
                         let raw := stripRFCHeader (cd_raw d) "Bcc" in
                         let! sent := save_sent raw in
                         let! ids := submit_sent draft_send_result_unknown sent (cd_rcpts d) raw in
                         mret_st (sent, ids))
                  (unless_unknown draft_send_result_unknown (abandon_draft (cd_email d))) in
      do! logged (table_do (CompleteDraftSendClaim (acc_id acc) now (cd_email d) (EffectiveEmailID x.1) (Some x.2)));
      do! logged (do! on_store (removeDraft acc id);
                  table_do (fun w => Ok (DeleteDraftSendClaim (acc_id acc) (cd_email d) w)));
      mret_st (accepted_as x).

(** *** Editing a draft *)

Definition enforceAgentDraftUpdatePolicy (id : string) (version : option Z) (req : sendRequest) (raw : list ascii) : HM unit :=
  if (cred <=? 0) || bool_decide (sv_OutboundPolicy srv = None) then mret_st tt
  else
    let! draft := ask (agent_draft_to_update acc id version) in
    let '(source, operation, sourceID) :=
      if String.eqb (od_extra draft) agentDraftTypeReply
      then (SourceInboundAutoReply, "mail.message.reply"%string, source_id (od_SourceEmailID draft))
      else (SourceOwnerDirect, "mail.message.send"%string, EmptyString) in
    enforceAgentOutboundPolicyWithDedupe
      (mkIntent source operation sourceID (Some (sr_To req)) (sr_Cc req) (sr_Bcc req) (sr_Subject req) (sr_Text req) (sr_HTML req)
         (Z.of_nat (length (sr_Attachments req)))) raw
      (mkDedupe ("agent-draft-update-" ++ dash [FormatInt (od_EmailID draft); FormatInt (od_DraftVersion draft); hex_encode (sha256 raw)])
         (draft_identity (od_EmailID draft) (od_DraftVersion draft))).
Definition updateDraft (id : string) (version : option Z) (req : sendRequest) : HM (Message * Z) :=
  let! existingRaw := ask (readMessageBytes acc id) in
  let references := ev_references (parseEnvelope existingRaw None [] now) in
  let! raw := composed (ca_compose ca)
    (mkInput (au_login au) (sr_To req) (sr_Cc req) (sr_Bcc req) (sr_Subject req) (sr_Text req) (sr_HTML req) (sr_Attachments req)
       EmptyString (default EmptyString (last references)) references EmptyString EmptyString ∅) in
  do! enforceAgentDraftUpdatePolicy id version req raw;
  on_store (update_draft acc now cred id version raw).
Definition createDraft (req : sendRequest) : HM unit :=
  if 0 <? cred then merr_st owner_required
  else
    let! raw := composed (ca_compose ca) (send_input req (sr_Bcc req)) in
    reported_as (code "draft_failed") (on_store (create_draft acc now cred raw)).

(** *** Download *)

Definition downloadAttachment (id partID : string) (maxMessageSize : Z) (st : Store) : download :=
  if negb (validPartID partID) then NoAttachment "invalid_part_id"
  else match WReadTx (let! messages := loadGroup acc id in mret_st (default zero_message (head messages))) st with
  | Err _ => NoAttachment "not_found"
  | Ok message =>
      if maxMessageSize <? m_Size message then NoAttachment "message_too_large"
      else match rd_data (MessageReader acc message (st_blobs st)) with
           | Err _ => NoAttachment "attachment_read_failed"
           | Ok data => download_part (bytes_of data) partID maxMessageSize
           end
  end.
End Send.
