(* ===== verification/WebSendSpec.v ===== *)
(** * Sending in the web API: what reaches the queue

    Whatever an agent asks for, what is queued in its name has passed the outbound
    policy: the rows are its account's, under its address, to the recipients the policy
    saw, with the body it saw.  An intent to send, and an automatic reply, is submitted
    at most once under its idempotency key. *)

From S2P Require Import Prelude GoStrings Shapes Changes Blob Database Tx Mailboxes Messages Query Queue Strconv Verp Headers Smtp Submit Base64 Textproto Json AutoReplyChain RuleMetadata OutboundPolicy MailRules Compose Claims SendDraft ClaimsSpec KernelDemo QuerySpec WebParts WebDrafts WebDraftsSpec WebSend.

Local Open Scope go_scope.

Section Queue.
Context `{BlobOps} `{Unicode} `{UnicodeUpper} `{UnicodeClasses} `{SqlText} `{Sha256} `{Hmac} `{AddressParser} `{AddressText}
  `{MimeTypes} `{UnicodePrint} `{MoxMessage}.

(** ** What a computation queues *)

(** Rows are only added, and those added are as [P] says. *)
Definition grows (P : QRow -> Prop) (q q' : QDB) : Prop :=
  (forall id row, q_rows q !! id = Some row -> q_rows q' !! id = Some row) /\
  (forall id row, q_rows q' !! id = Some row -> q_rows q !! id = Some row \/ P row).
Lemma grows_refl P q : grows P q q.
Proof. split; [done|]. intros. by left. Qed.
Lemma grows_trans P q1 q2 q3 : grows P q1 q2 -> grows P q2 q3 -> grows P q1 q3.
Proof. intros [A1 B1] [A2 B2]. split; [by eauto|]. intros id row [Hr|]%B2; [|by right]. by apply B1. Qed.

Section Logic.
Variable P : QRow -> Prop.
Definition only_queues {A} (m : HM A) : Prop := forall s, grows P (ml_q s) (ml_q (m s).2).
Definition yields {A} (m : HM A) (x : A) : Prop := exists s, (m s).1 = Ok x.

Lemma oq_ret {A} (x : A) : only_queues (mret_st x). Proof. intros s. apply grows_refl. Qed.
Lemma oq_err {A} e : only_queues (@merr_st _ A e). Proof. intros s. apply grows_refl. Qed.
Lemma oq_give {A} (r : result A) : only_queues (give r). Proof. intros s. apply grows_refl. Qed.
Lemma oq_ask {A} (f : Store -> result A) : only_queues (ask f). Proof. intros s. apply grows_refl. Qed.
Lemma oq_store {A} (f : Store -> result A * Store) : only_queues (on_store f).
Proof. intros s. unfold on_store. destruct (f _). apply grows_refl. Qed.
Lemma oq_work {A} (f : WDB -> result A * WDB) : only_queues (on_work f). Proof. apply oq_store. Qed.
Lemma oq_guard b e : only_queues (mguard b e). Proof. destruct b; [apply oq_ret|apply oq_err]. Qed.
Lemma oq_bind {A B} (m : HM A) (k : A -> HM B) :
  only_queues m -> (forall x, yields m x -> only_queues (k x)) -> only_queues (mbind_st m k).
Proof.
  intros Hm Hk s. unfold mbind_st. specialize (Hm s). destruct (m s) as [[x|e] s'] eqn:E; [|done].
  eapply grows_trans; [exact Hm|]. apply Hk. exists s. by rewrite E.
Qed.
Lemma oq_reported {A} e (m : HM A) : only_queues m -> only_queues (reported_as e m).
Proof. intros Hm s. specialize (Hm s). unfold reported_as. by destruct (m s) as [[] ?]. Qed.
Lemma oq_logged {A} (m : HM A) : only_queues m -> only_queues (logged m). Proof. intros Hm s. apply Hm. Qed.
Lemma oq_or_else {A} (m : HM A) clean : only_queues m -> (forall e, only_queues (clean e)) -> only_queues (or_else m clean).
Proof.
  intros Hm Hc s. specialize (Hm s). unfold or_else. destruct (m s) as [[x|e] s']; [done|].
  eapply grows_trans; [exact Hm|]. apply Hc.
Qed.

Lemma yields_bind {A B} (m : HM A) (k : A -> HM B) y : yields (mbind_st m k) y -> exists x, yields m x /\ yields (k x) y.
Proof.
  intros [s Hs]. unfold mbind_st in Hs. destruct (m s) as [[x|e] s'] eqn:E; [|done].
  exists x. split; [exists s; by rewrite E|by exists s'].
Qed.
Lemma yields_ret {A} (x y : A) : yields (mret_st x) y -> y = x. Proof. intros [s Hs]. by injection Hs. Qed.
Lemma yields_give {A} (r : result A) x : yields (give r) x -> r = Ok x. Proof. by intros [s Hs]. Qed.
End Logic.

(** ** The policy *)

Variables (srv : Server) (au : authCtx) (hd : RequestHeaders) (ca : Call).
Abbreviation acc := (au_acc au).

Lemma oq_policy P intent raw dedupe : only_queues P (enforceAgentOutboundPolicyWithDedupe srv au hd ca intent raw dedupe).
Proof.
  unfold enforceAgentOutboundPolicyWithDedupe. destruct (sv_OutboundPolicy srv) as [evaluate|]; [|apply oq_ret].
  destruct (_ <=? 0); [apply oq_ret|]. destruct (evaluate intent) as [d|]; [|apply oq_err].
  destruct (String.eqb _ _); [apply oq_ret|]. destruct (String.eqb _ _); [|apply oq_err].
  destruct (if String.eqb _ _ then _ else _) as [key digest]. destruct (negb _); [apply oq_err|].
  intros s. set (f := saveOutboundPolicyDraft _ _ _ _). pose proof (oq_store P f s) as Hs.
  destruct (on_store f s) as [[] ?]; exact Hs.
Qed.
(** A request of an agent goes on only if the policy allows its intent. *)
Lemma policy_passed evaluate intent raw dedupe x :
  sv_OutboundPolicy srv = Some evaluate -> 0 < au_agentCredentialID au ->
  yields (enforceAgentOutboundPolicyWithDedupe srv au hd ca intent raw dedupe) x ->
  exists d, evaluate intent = Ok d /\ dc_Outcome d = OutcomeAllow.
Proof.
  intros Hp Hc [s Hs]. revert Hs. unfold enforceAgentOutboundPolicyWithDedupe. rewrite Hp.
  destruct (_ <=? 0) eqn:Ec; [apply Z.leb_le in Ec; lia|]. destruct (evaluate intent) as [d|]; [|done].
  destruct (String.eqb (dc_Outcome d) OutcomeAllow) eqn:Ed; [intros _; exists d; by apply String.eqb_eq in Ed|].
  destruct (String.eqb (dc_Outcome d) OutcomeOwnerReviewRequired); [|discriminate].
  destruct (if String.eqb _ _ then _ else _) as [key digest]. destruct (negb _); [discriminate|].
  set (f := saveOutboundPolicyDraft _ _ _ _). destruct (on_store f s) as [[] ?]; discriminate.
Qed.

(** ** The submission *)

(** [ref] is where the blob store puts [raw]. *)
Definition stored (raw : list ascii) (ref : string) : Prop :=
  exists b size b', blob_Put (acc_tenantID acc) (str_of raw) b = (Ok (ref, size), b').
(** A row of the account, under its address, to one of [rcpts], with the body [raw]. *)
Definition row_of (rcpts : list string) (raw : list ascii) (row : QRow) : Prop :=
  r_tenant_id row = acc_tenantID acc /\ r_account_id row = acc_id acc /\ r_mail_from row = au_login au /\
  r_rcpt_to row ∈ rcpts /\ stored raw (r_blob_ref row).

Lemma enqueue_all_grows now t a m mf ref size nb dsnp rcpts q ids q' :
  enqueue_all now t a m mf ref size nb dsnp rcpts q = Ok (ids, q') ->
  grows (fun row => r_tenant_id row = t /\ r_account_id row = a /\ r_mail_from row = mf /\ r_rcpt_to row ∈ rcpts /\ r_blob_ref row = ref) q q'.
Proof.
  revert q ids q'. induction rcpts as [|r rcpts IH]; intros q ids q'; cbn [enqueue_all].
  { intros [= <- <-]. apply grows_refl. }
  destruct (EnqueueTx now _ q) as [[id q1]|] eqn:E; [|done]. simpl.
  destruct (enqueue_all now t a m mf ref size nb dsnp rcpts q1) as [[ids1 q2]|] eqn:E1; [|done]. simpl.
  intros [= <- <-]. apply EnqueueTx_row in E as (-> & Hn & Hnone & row & Hrows & (Q1 & Q2 & Q3 & Q4 & Q5 & _)).
  destruct (IH _ _ _ E1) as [K1 K2]. split.
  - intros id0 row0 Hr. apply K1. rewrite Hrows, lookup_insert_ne; [done|]. intros <-. congruence.
  - intros id0 row0 Hr. apply K2 in Hr as [Hr|(?&?&?&?&?)]; [|right; split_and!; set_solver].
    rewrite Hrows in Hr. apply lookup_insert_Some in Hr as [[<- <-]|[_ Hr]]; [right|by left].
    rewrite Q4. split_and!; [done..| |done]. by left.
Qed.

Lemma submission_queues sent rcpts raw : only_queues (row_of rcpts raw) (submission au ca sent rcpts raw).
Proof.
  intros s. unfold submission, SubmitForMessage. destruct (_ <=? 0); [apply grows_refl|].
  unfold submit. destruct rcpts as [|r0 rcpts]; [apply grows_refl|].
  destruct (negb (parses _) && _); [apply grows_refl|]. destruct (negb (forallb parses _)); [apply grows_refl|].
  destruct (blob_Put _ _ _) as [[[ref size]|e] b1] eqn:Eb; [|apply grows_refl].
  destruct (enqueue_all _ _ _ _ _ _ _ _ _ _ _) as [[ids q1]|e] eqn:Ee; [|apply grows_refl].
  apply enqueue_all_grows in Ee as [K1 K2].
  assert (Hg : grows (row_of (r0 :: rcpts) raw) (ml_q s) q1).
  { split; [done|]. intros id row Hr. apply K2 in Hr as [?|(?&?&?&?&<-)]; [by left|right].
    split_and!; [done..|]. by exists (st_blobs (ml_st s)), size, b1. }
  destruct (ca_commit ca) as [|[]]; [exact Hg|exact Hg|apply grows_refl].
Qed.
Lemma submit_sent_queues unknown sent rcpts raw : only_queues (row_of rcpts raw) (submit_sent au ca unknown sent rcpts raw).
Proof.
  intros s. pose proof (submission_queues sent rcpts raw s) as Hs. unfold submit_sent.
  destruct (submission _ _ _ _ _ s) as [[ids|e] s']; [done|]. by destruct (IsResultUnknown e).
Qed.
Lemma save_sent_queues P raw : only_queues P (save_sent au ca raw). Proof. apply oq_reported, oq_store. Qed.

Lemma oq_mono {A} (P Q : QRow -> Prop) (m : HM A) : only_queues P m -> (forall row, P row -> Q row) -> only_queues Q m.
Proof. intros Hm HPQ s. destruct (Hm s) as [A1 B1]. split; [done|]. intros id row [?|?]%B1; eauto. Qed.
Lemma table_do_queues P f : only_queues P (table_do f). Proof. apply oq_work. Qed.
Lemma unless_unknown_queues P unknown clean e : only_queues P clean -> only_queues P (unless_unknown unknown clean e).
Proof. intros Hc. unfold unless_unknown. case_bool_decide; [apply oq_ret|done]. Qed.
Lemma settle_queues P f : only_queues P (logged (table_do f)). Proof. apply oq_logged, table_do_queues. Qed.

Lemma enqueueComposedMessage_queues to cc bcc raw :
  only_queues (row_of (allRecipients to cc bcc) raw) (enqueueComposedMessage srv au ca to cc bcc raw).
Proof.
  unfold enqueueComposedMessage. destruct (negb _); [apply oq_err|].
  apply oq_bind; [apply save_sent_queues|]. intros sent _.
  apply oq_bind; [apply submit_sent_queues|]. intros ids _. apply oq_ret.
Qed.
Lemma submitAgentSendIntent_queues key req raw :
  only_queues (row_of (allRecipients (sr_To req) (sr_Cc req) (sr_Bcc req)) raw) (submitAgentSendIntent srv au ca key req raw).
Proof.
  unfold submitAgentSendIntent. apply oq_bind.
  { apply oq_bind; [apply oq_reported, oq_work|]. intros x _. destruct (negb _); [apply oq_err|apply oq_ret]. }
  intros [intent claimed] _. destruct (negb claimed).
  { unfold existingAgentSendIntentResult. destruct (_ && _); [apply oq_ret|apply oq_err]. }
  apply oq_bind; [|intros x _; apply oq_bind; [apply settle_queues|intros; apply oq_ret]].
  apply oq_or_else; [|intros; apply unless_unknown_queues, settle_queues].
  intros s. pose proof (enqueueComposedMessage_queues (sr_To req) (sr_Cc req) (sr_Bcc req) raw s) as Hs.
  by destruct (enqueueComposedMessage _ _ _ _ _ _ _ s) as [[] ?].
Qed.
Lemma send_reply_queues claimed rcpts raw : only_queues (row_of rcpts raw) (send_reply au ca claimed rcpts raw).
Proof.
  unfold send_reply. apply oq_bind.
  { apply oq_or_else.
    - apply oq_bind; [apply save_sent_queues|]. intros sent _.
      apply oq_bind; [apply submit_sent_queues|]. intros ids _. apply oq_ret.
    - intros e. apply unless_unknown_queues. destruct claimed; [apply settle_queues|apply oq_ret]. }
  intros x _. apply oq_bind; [destruct claimed; [apply settle_queues|apply oq_ret]|]. intros. apply oq_ret.
Qed.

(** ** What an agent sends has been allowed *)

Definition intent_rcpts (i : Intent) : list string := default [] (in_To i) ++ in_Cc i ++ in_Bcc i.

(** The body [raw] says what the intent says: it was composed of the same fields and has
    no Bcc, or it is the draft that the intent was read from, without its Bcc. *)
Inductive shown (intent : Intent) (raw : list ascii) : Prop :=
| shown_composed input id :
    compose (ca_compose ca) input (senderDomain au) = Ok (raw, id) ->
    ci_From input = au_login au -> in_To intent = Some (ci_To input) -> in_Cc intent = ci_Cc input -> ci_DraftBcc input = [] ->
    in_Subject intent = ci_Subject input -> in_Text intent = ci_Text input -> in_HTML intent = ci_HTML input ->
    in_AttachmentCount intent = Z.of_nat (length (ci_Attachments input)) -> shown intent raw
| shown_draft draft agent :
    agentDraftPolicyIntent draft agent = Ok intent -> raw = stripRFCHeader draft "Bcc" -> shown intent raw.

Definition allowed (evaluate : Intent -> result OutboundPolicy.Decision) (intent : Intent) : Prop :=
  exists d, evaluate intent = Ok d /\ dc_Outcome d = OutcomeAllow.
Definition screened (evaluate : Intent -> result OutboundPolicy.Decision) (row : QRow) : Prop :=
  exists intent raw, allowed evaluate intent /\ shown intent raw /\ row_of (intent_rcpts intent) raw row.

Lemma yields_composed env input raw : yields (composed au env input) raw -> exists id, compose env input (senderDomain au) = Ok (raw, id).
Proof.
  intros Hy%yields_give. destruct (compose _ _ _) as [[raw' id]|] eqn:E; [|done]. injection Hy as <-. by exists id.
Qed.

Section Agent.
Variable evaluate : Intent -> result OutboundPolicy.Decision.
Hypothesis Hpolicy : sv_OutboundPolicy srv = Some evaluate.
Hypothesis Hagent : 0 < au_agentCredentialID au.
Abbreviation screens := (only_queues (screened evaluate)).

(** The policy, then a computation that queues only what it was asked about. *)
Lemma policy_screens {A} intent policy_raw dedupe raw rcpts (k : unit -> HM A) :
  intent_rcpts intent = rcpts -> shown intent raw -> only_queues (row_of rcpts raw) (k tt) ->
  screens (mbind_st (enforceAgentOutboundPolicyWithDedupe srv au hd ca intent policy_raw dedupe) k).
Proof.
  intros <- Hshown Hk. apply oq_bind; [apply oq_policy|]. intros [] Hy.
  eapply oq_mono; [exact Hk|]. intros row Hrow. exists intent, raw. split; [by eapply policy_passed|done].
Qed.

Lemma sendMessage_screens req : screens (sendMessage srv au hd ca req).
Proof.
  unfold sendMessage. destruct (negb _); [apply oq_err|]. destruct (sr_To req) as [|t to] eqn:Eto; [apply oq_err|].
  apply oq_bind; [apply oq_give|]. intros raw [id Hraw]%yields_composed.
  apply oq_bind; [destruct (_ && _); [apply oq_give|apply oq_ret]|]. intros policyRaw _.
  eapply policy_screens; [reflexivity| |].
  - by eapply shown_composed.
  - change (intent_rcpts _) with (allRecipients (sr_To req) (sr_Cc req) (sr_Bcc req)). rewrite Eto.
    apply oq_bind; [apply enqueueComposedMessage_queues|]. intros. apply oq_ret.
Qed.

Lemma createAgentSendIntent_screens req : screens (createAgentSendIntent srv au hd ca req).
Proof.
  unfold createAgentSendIntent. apply oq_bind; [apply oq_give|]. intros _ _.
  apply oq_bind; [apply oq_guard|]. intros _ _. apply oq_bind; [apply oq_give|]. intros _ _.
  apply oq_bind; [apply oq_give|]. intros raw [id Hraw]%yields_composed.
  apply oq_bind; [apply oq_give|]. intros draftRaw _.
  eapply policy_screens; [reflexivity|by eapply shown_composed|].
  apply oq_bind; [apply oq_give|]. intros automatic _. destruct (automatic && _).
  - apply oq_bind; [apply submitAgentSendIntent_queues|]. intros. apply oq_ret.
  - apply oq_bind; [apply oq_store|]. intros. apply oq_ret.
Qed.

Lemma forwardMessage_screens id req : screens (forwardMessage srv au hd ca id req).
Proof.
  unfold forwardMessage. destruct (negb _); [apply oq_err|]. destruct (fr_To req) as [|t to] eqn:Eto; [apply oq_err|].
  apply oq_bind; [apply oq_ask|]. intros data _. cbv zeta.
  apply oq_bind; [apply oq_give|]. intros raw [mid Hraw]%yields_composed.
  eapply policy_screens; [reflexivity|by eapply shown_composed|].
  unfold intent_rcpts. cbn. rewrite !app_nil_r. apply send_reply_queues.
Qed.

Lemma reply_screens all id req : screens (reply srv au hd ca all id req).
Proof.
  unfold reply. destruct (negb _); [apply oq_err|]. apply oq_bind; [apply oq_ask|]. intros source _. cbv zeta.
  destruct (replyRecipients _ _ _) as [[|t to] cc]; [apply oq_err|].
  apply oq_bind; [apply oq_give|]. intros [[mid headers] req'] _.
  apply oq_bind; [apply oq_give|]. intros raw [mid' Hraw]%yields_composed.
  eapply policy_screens; [reflexivity|by eapply shown_composed|].
  change (intent_rcpts _) with (allRecipients (t :: to) cc []).
  destruct (isAgentAutomaticReply _ _); [|apply send_reply_queues]. apply oq_bind.
  { apply oq_bind; [apply oq_reported, oq_work|]. intros x _. destruct (negb _); [apply oq_err|apply oq_ret]. }
  intros [intent claimed] _. destruct (negb claimed); [|apply send_reply_queues].
  unfold existingAgentSendIntentResult. destruct (_ && _); [apply oq_ret|apply oq_err].
Qed.

(** *** A draft: the policy reads the recipients of its bytes, and so does the submission *)

Lemma intent_of_draft draft agent intent now :
  agentDraftPolicyIntent draft agent = Ok intent ->
  let env := parseEnvelope draft None [] now in intent_rcpts intent = allRecipients (ev_to env) (ev_cc env) (ev_bcc env).
Proof.
  unfold agentDraftPolicyIntent, parseEnvelope. destruct (ep_fails _); [done|].
  destruct (attributed _ _ _ _ _) as [from by_]. destruct (ep_envelope _) as [env|]; [|done].
  destruct (walk_intent _ _) as [g|]; [|done]. cbn [rbind].
  destruct (match agent with Some _ => _ | None => _ end) as [[source operation] id]. by intros [= <-].
Qed.

Lemma result_bind {S A B} (m : stM S A) (k : A -> stM S B) s y :
  (mbind_st m k s).1 = Ok y -> exists x s', (m s).1 = Ok x /\ (k x s').1 = Ok y.
Proof. unfold mbind_st. destruct (m s) as [[x|e] s'] eqn:E; [|done]. intros Hk. by exists x, s'. Qed.
Lemma WTx_ok {A} (fn : WM A) st x st' : WTx acc fn st = (Ok x, st') -> exists pt pt', fn (pt, st_w st) = (Ok x, (pt', st_w st')).
Proof.
  unfold WTx, Tx. destruct (db_accounts _ !! _) as [row|]; [|done]. cbv zeta. set (pt := mkTx _ _ _ _ _ _).
  unfold mbind_st, tx_body. destruct (fn (pt, st_w st)) as [[y|e] [pt1 w1]] eqn:E; [|done].
  destruct (flush acc pt1) as [[[]|e] pt2]; [|done]. cbn. intros [= <- <-]. by exists pt, pt1.
Qed.
Lemma claimed_recipients id version d : yields (on_store (WTx acc (claim_draft au ca version id))) d ->
  let env := parseEnvelope (cd_raw d) None [] (ca_now ca) in cd_rcpts d = allRecipients (ev_to env) (ev_cc env) (ev_bcc env).
Proof.
  intros [s Hs]. unfold on_store in Hs. destruct (WTx _ _ _) as [[x|e] st] eqn:E; [|done]. injection Hs as ->.
  apply WTx_ok in E as (pt & pt' & E). assert (Hd := f_equal fst E). clear E. unfold claim_draft in Hd.
  apply result_bind in Hd as ([message mb] & s1 & _ & Hd). apply result_bind in Hd as (v & s2 & _ & Hd).
  apply result_bind in Hd as (agent & s3 & _ & Hd). apply result_bind in Hd as (raw & s4 & _ & Hd). cbv zeta in Hd.
  apply result_bind in Hd as ([claim claimed] & s5 & _ & Hd). by injection Hd as <-.
Qed.

Lemma check_draft_passed d x : yields (check_draft srv au hd ca d) x ->
  exists intent, agentDraftPolicyIntent (cd_raw d) (cd_agent d) = Ok intent /\ allowed evaluate intent.
Proof.
  unfold check_draft. rewrite Hpolicy. rewrite (proj2 (Z.ltb_lt _ _) Hagent).
  rewrite bool_decide_eq_true_2 by done. cbn [andb]. intros (intent & Hi & Hy)%yields_bind.
  exists intent. split; [|by eapply policy_passed].
  destruct Hi as [s Hs]. unfold reported_as, give in Hs. by destruct (agentDraftPolicyIntent _ _).
Qed.

Lemma sendDraft_screens id version : screens (sendDraft srv au hd ca id version).
Proof.
  unfold sendDraft. destruct (negb _); [apply oq_err|].
  apply oq_bind; [apply oq_store|]. intros d Hd. destruct (negb _); [apply oq_give|].
  apply oq_bind; [|intros x _; apply oq_bind; [apply settle_queues|intros; apply oq_bind; [|intros; apply oq_ret]]].
  - apply oq_or_else; [|intros; apply unless_unknown_queues, settle_queues].
    apply oq_bind.
    { unfold check_draft. destruct (_ && _); [|apply oq_ret]. apply oq_bind; [apply oq_reported, oq_give|].
      intros intent _. apply oq_policy. }
    intros [] (intent & Hi & Hallow)%check_draft_passed. cbv zeta.
    apply oq_bind; [apply save_sent_queues|]. intros sent _.
    apply oq_bind; [|intros; apply oq_ret]. eapply oq_mono; [apply submit_sent_queues|]. intros row Hrow.
    exists intent, (stripRFCHeader (cd_raw d) "Bcc"). split; [done|]. split; [by eapply shown_draft|].
    rewrite (intent_of_draft _ _ _ (ca_now ca) Hi). by rewrite <- (claimed_recipients _ _ _ Hd).
  - apply oq_logged, oq_bind; [apply oq_store|]. intros. apply table_do_queues.
Qed.

(** *** Every request *)

Inductive Sending :=
| AskSend (req : sendRequest) | AskReply (all : bool) (id : string) (req : replyRequest) | AskForward (id : string) (req : forwardRequest)
| AskSendDraft (id : string) (version : option Z) | AskIntent (req : sendRequest) | AskDraft (req : sendRequest)
| AskReplyDraft (id : string) (req : replyRequest) | AskCreate (req : sendRequest)
| AskUpdate (id : string) (version : option Z) (req : sendRequest).
Definition handle (q : Sending) : HM unit :=
  match q with
  | AskSend req => logged (sendMessage srv au hd ca req)
  | AskReply all id req => logged (reply srv au hd ca all id req)
  | AskForward id req => logged (forwardMessage srv au hd ca id req)
  | AskSendDraft id version => logged (sendDraft srv au hd ca id version)
  | AskIntent req => logged (createAgentSendIntent srv au hd ca req)
  | AskDraft req => logged (createAgentDraft srv au hd ca req)
  | AskReplyDraft id req => logged (createAgentReplyDraft srv au hd ca id req)
  | AskCreate req => logged (createDraft au ca req)
  | AskUpdate id version req => logged (updateDraft srv au hd ca id version req)
  end.

(** Preparing and editing drafts queues nothing. *)
Lemma createAgentDraft_queues P req : only_queues P (createAgentDraft srv au hd ca req).
Proof.
  unfold createAgentDraft. apply oq_bind; [apply oq_give|]. intros _ _. destruct (sr_To req); [apply oq_err|].
  apply oq_bind; [apply oq_give|]. intros raw _. apply oq_bind; [apply oq_policy|]. intros _ _. apply oq_store.
Qed.
Lemma createAgentReplyDraft_queues P id req : only_queues P (createAgentReplyDraft srv au hd ca id req).
Proof.
  unfold createAgentReplyDraft. apply oq_bind; [apply oq_give|]. intros _ _. apply oq_bind; [apply oq_ask|]. intros source _. cbv zeta.
  destruct (replyRecipients _ _ _) as [[|t to] cc]; [apply oq_err|].
  apply oq_bind; [apply oq_give|]. intros raw _. apply oq_bind; [apply oq_policy|]. intros _ _. apply oq_store.
Qed.
Lemma updateDraft_queues P id version req : only_queues P (updateDraft srv au hd ca id version req).
Proof.
  unfold updateDraft. apply oq_bind; [apply oq_ask|]. intros source _. cbv zeta.
  apply oq_bind; [apply oq_give|]. intros raw _. apply oq_bind; [|intros; apply oq_store].
  unfold enforceAgentDraftUpdatePolicy. destruct (_ || _); [apply oq_ret|]. apply oq_bind; [apply oq_ask|]. intros draft _.
  destruct (if String.eqb _ _ then _ else _) as [[source' operation] sourceID]. apply oq_policy.
Qed.
Lemma createDraft_queues P req : only_queues P (createDraft au ca req).
Proof.
  unfold createDraft. destruct (_ <? _); [apply oq_err|]. apply oq_bind; [apply oq_give|]. intros. apply oq_reported, oq_store.
Qed.

(** [C8] Nothing an agent sends escapes the policy.  Whatever an agent's credential asks of the
    web API, the rows already queued stay, and every row it adds is the account's, under
    the account's address, to one of the recipients of an intent the policy allowed, with a
    body made of the fields that intent shows (or the draft's bytes it was read from), the
    Bcc taken out. *)
Theorem agent_sends_screened q : only_queues (screened evaluate) (handle q).
Proof.
  destruct q; apply oq_logged.
  - apply sendMessage_screens.
  - apply reply_screens.
  - apply forwardMessage_screens.
  - apply sendDraft_screens.
  - apply createAgentSendIntent_screens.
  - apply createAgentDraft_queues.
  - apply createAgentReplyDraft_queues.
  - apply createDraft_queues.
  - apply updateDraft_queues.
Qed.
End Agent.

End Queue.

(** ** Send intents: at most one submission for a key *)

(** The table of intents, the keys that requests in flight hold (claimed, not yet
    submitted), and the keys under which a submission was accepted. *)
Record Intents := mkIntents { it_w : WDB; it_held : list (Z * string); it_accepted : list (Z * string) }.

(** The requests' steps, interleaved in any order. *)
Inductive intent_step : Intents -> Intents -> Prop :=
| ii_elsewhere w' s : (* the other tables *)
    w_intents w' = w_intents (it_w s) -> intent_step s (mkIntents w' (it_held s) (it_accepted s))
| ii_claimed acc now key digest w' s :
    insert_intent acc now key digest (it_w s) = Ok (w', true) ->
    intent_step s (mkIntents w' ((acc, key) :: it_held s) (it_accepted s))
| ii_answered acc now key digest w' s : (* the key was claimed already *)
    insert_intent acc now key digest (it_w s) = Ok (w', false) -> intent_step s (mkIntents w' (it_held s) (it_accepted s))
| ii_refused acc key w' l1 l2 s : (* Sent copy or submission failed for certain *)
    it_held s = l1 ++ (acc, key) :: l2 -> AbandonAgentSendIntent acc key (it_w s) = Ok w' ->
    intent_step s (mkIntents w' (l1 ++ l2) (it_accepted s))
| ii_lost k l1 l2 s : (* read failed, digests differ, or the process ended *)
    it_held s = l1 ++ k :: l2 -> intent_step s (mkIntents (it_w s) (l1 ++ l2) (it_accepted s))
| ii_submitted k l1 l2 s : (* accepted, whether the request learns of it or not *)
    it_held s = l1 ++ k :: l2 -> intent_step s (mkIntents (it_w s) (l1 ++ l2) (k :: it_accepted s))
| ii_completed acc now key messageID ids w' s :
    CompleteAgentSendIntent acc now key messageID ids (it_w s) = Ok w' -> intent_step s (mkIntents w' (it_held s) (it_accepted s)).
Definition intent_steps := rtc intent_step.

Definition started (acc : Z) : Intents := mkIntents (mkWDB {[acc]} ∅ ∅ ∅ ∅) [] [].

(** What is held has a row in processing and was not accepted; what was accepted has a row. *)
Record intents_wf (s : Intents) : Prop := {
  iw_held : NoDup (it_held s);
  iw_accepted : NoDup (it_accepted s);
  iw_holding k : k ∈ it_held s -> is_Some (w_intents (it_w s) !! k) /\ k ∉ it_accepted s;
  iw_row k : k ∈ it_accepted s -> is_Some (w_intents (it_w s) !! k) }.

Lemma insert_intent_inv acc now key digest w w' claimed : insert_intent acc now key digest w = Ok (w', claimed) ->
  if claimed then w_intents w !! (acc, key) = None /\ exists r, w_intents w' = <[(acc, key) := r]> (w_intents w) else w' = w.
Proof.
  unfold insert_intent. destruct (negb (text_ok _)); [done|]. destruct (negb _); [done|].
  destruct (w_intents w !! _) eqn:E; [by intros [= <- <-]|]. case_bool_decide; [|done]. intros [= <- <-].
  split; [done|]. by eexists.
Qed.
Lemma complete_intent_rows acc now key messageID ids w w' k : CompleteAgentSendIntent acc now key messageID ids w = Ok w' ->
  is_Some (w_intents w !! k) -> is_Some (w_intents w' !! k).
Proof.
  unfold CompleteAgentSendIntent, complete_row. destruct (negb _); [done|]. destruct (w_intents w !! (acc, key)) as [r|]; [|done].
  case_bool_decide; [|done]. destruct ids as [ids|]; [|done]. cbn [rbind]. intros [= <-]. cbn. rewrite lookup_insert. by case_decide.
Qed.
Lemma abandon_intent_rows acc key w w' k : AbandonAgentSendIntent acc key w = Ok w' -> k <> (acc, key) ->
  is_Some (w_intents w !! k) -> is_Some (w_intents w' !! k).
Proof.
  unfold AbandonAgentSendIntent. destruct (text_ok _); [|done]. intros [= <-] Hne. cbn. unfold delete_row.
  destruct (w_intents w !! (acc, key)); [|done]. case_bool_decide; [|done]. by rewrite lookup_delete_ne.
Qed.

(** A key leaves the requests in flight. *)
Lemma intents_wf_drop l1 k l2 w' accepted' s : intents_wf s -> it_held s = l1 ++ k :: l2 ->
  (accepted' = it_accepted s \/ accepted' = k :: it_accepted s /\ w' = it_w s) ->
  (forall k', k' <> k -> is_Some (w_intents (it_w s) !! k') -> is_Some (w_intents w' !! k')) ->
  intents_wf (mkIntents w' (l1 ++ l2) accepted').
Proof.
  intros [Hh Ha Hk Hr] E Hacc Hrows. rewrite E in Hh, Hk.
  apply NoDup_app in Hh as (N1 & N12 & [Nk N2]%NoDup_cons).
  assert (Hin : forall k', k' ∈ l1 ++ l2 -> k' ∈ l1 ++ k :: l2 /\ k' <> k).
  { intros k' [H1|H2]%elem_of_app; (split; [set_solver|]); intros ->; [by apply (N12 k H1); left|done]. }
  destruct (Hk k ltac:(set_solver)) as [Hrow Hnot]. split; cbn [it_w it_held it_accepted].
  - apply NoDup_app. split_and!; [done| |done]. intros x H1 H2. apply (N12 x H1). by right.
  - destruct Hacc as [->|[-> ->]]; [done|by constructor].
  - intros k' [Hk' Hne]%Hin. destruct (Hk k' Hk') as [Hrow' Hnot']. split; [by apply Hrows|].
    destruct Hacc as [->|[-> ->]]; [done|]. by intros [->|?]%elem_of_cons.
  - intros k' Hk'. destruct Hacc as [->|[-> ->]].
    + apply Hrows; [|by apply Hr]. intros ->. done.
    + apply elem_of_cons in Hk' as [->|?]; [done|by apply Hr].
Qed.
Lemma intents_wf_rows w' s : intents_wf s -> (forall k, is_Some (w_intents (it_w s) !! k) -> is_Some (w_intents w' !! k)) ->
  intents_wf (mkIntents w' (it_held s) (it_accepted s)).
Proof. intros [Hh Ha Hk Hr] Hrows. split; [done..| |]; cbn; intros k Hin; [destruct (Hk k Hin)|]; eauto. Qed.

Lemma intent_step_wf s s' : intents_wf s -> intent_step s s' -> intents_wf s'.
Proof.
  intros Hs Hstep. destruct Hstep as [w' s Hw|acc now key digest w' s Hi|acc now key digest w' s Hi|acc key w' l1 l2 s E Hab|k l1 l2 s E|k l1 l2 s E|acc now key mid ids w' s Hc].
  - apply intents_wf_rows; [done|]. intros k. by rewrite Hw.
  - apply insert_intent_inv in Hi as [Hnone [r Hw]]. destruct Hs as [Hh Ha Hk Hr].
    assert (Hrows : forall k, is_Some (w_intents (it_w s) !! k) -> is_Some (w_intents w' !! k)).
    { intros k Hsome. rewrite Hw, lookup_insert. by case_decide. }
    assert (Hnew : forall k, is_Some (w_intents (it_w s) !! k) -> k <> (acc, key)) by (intros k [x Hx] ->; congruence).
    split; cbn; [constructor; [|done]|done| |by eauto].
    + intros Hin. by apply (Hnew _ (proj1 (Hk _ Hin))).
    + intros k [->|Hin]%elem_of_cons; [|destruct (Hk k Hin); eauto]. split; [by rewrite Hw, lookup_insert_eq|].
      intros Hin. by apply (Hnew _ (Hr _ Hin)).
  - apply insert_intent_inv in Hi as ->. by apply intents_wf_rows.
  - eapply intents_wf_drop; [done|done|by left|]. intros k' Hne. by eapply abandon_intent_rows.
  - by eapply intents_wf_drop; [..|left|].
  - by eapply intents_wf_drop; [..|right|].
  - apply intents_wf_rows; [done|]. intros k. by eapply complete_intent_rows.
Qed.
Lemma intent_steps_wf s s' : intents_wf s -> intent_steps s s' -> intents_wf s'.
Proof. intros Hs Hr. induction Hr as [|s1 s2 s3 H12 _ IH]; [done|]. apply IH. by eapply intent_step_wf. Qed.
Lemma started_wf acc : intents_wf (started acc).
Proof. split; cbn; [constructor|constructor|by intros k []%not_elem_of_nil..]. Qed.

(** [C10] However the requests interleave, and whichever of them fail or end on the way, an
    idempotency key is submitted at most once for an account: a retry after an unknown
    result, a crash or an acceptance never sends again. *)
Theorem intent_sent_once acc s : intent_steps (started acc) s -> NoDup (it_accepted s).
Proof. intros Hs. apply (intent_steps_wf _ _ (started_wf acc) Hs). Qed.

(** *** The handlers make those steps *)

Section Refinement.
Context `{BlobOps} `{Unicode} `{UnicodeUpper} `{UnicodeClasses} `{SqlText} `{Sha256} `{Hmac} `{AddressParser} `{AddressText}
  `{MimeTypes} `{UnicodePrint} `{MoxMessage}.
Variables (srv : Server) (au : authCtx) (hd : RequestHeaders) (ca : Call).
Abbreviation acc := (au_acc au).

Definition table (s : Mail) : gmap (Z * string) ClaimRow := w_intents (st_w (ml_st s)).

(** *** Transactions that leave the intents alone *)
Definition spares {A} (m : WM A) : Prop := forall s, w_intents (m s).2.2 = w_intents s.2.
Lemma spares_ret {A} (x : A) : spares (mret_st x). Proof. done. Qed.
Lemma spares_fail {A} e : spares (@fail _ A e). Proof. done. Qed.
Lemma spares_kernel {A} (m : M A) : spares (kernel m). Proof. intros s. unfold kernel. by destruct (m s.1). Qed.
Lemma spares_bind {A B} (m : WM A) (k : A -> WM B) : spares m -> (forall x, spares (k x)) -> spares (mbind_st m k).
Proof.
  intros Hm Hk s. unfold mbind_st. specialize (Hm s). destruct (m s) as [[x|e] s']; [|done]. by rewrite Hk.
Qed.
Lemma spares_work {A} (f : WDB -> result (A * WDB)) : (forall w x w', f w = Ok (x, w') -> w_intents w' = w_intents w) -> spares (work f).
Proof. intros Hf s. unfold work. destruct (f s.2) as [[x w]|] eqn:E; [|done]. by eapply Hf. Qed.
Lemma spares_work_read {A} (f : WDB -> result A) : spares (work_read f).
Proof. apply spares_work. intros w x w'. destruct (f w); [|done]. by intros [= _ <-]. Qed.
Lemma spares_work_do f : (forall w w', f w = Ok w' -> w_intents w' = w_intents w) -> spares (work_do f).
Proof. intros Hf. apply spares_work. intros w [] w'. destruct (f w) eqn:E; [|done]. intros [= <-]. by apply Hf. Qed.
Lemma WTx_keeps {A} (m : WM A) st : spares m -> w_intents (st_w (WTx acc m st).2) = w_intents (st_w st).
Proof.
  intros Hm. destruct (WTx acc m st) as [[x|e] st'] eqn:E.
  - destruct (WTx_ok au _ _ _ _ E) as (pt & pt' & Hr). specialize (Hm (pt, st_w st)). by rewrite Hr in Hm.
  - unfold WTx in E. destruct (Tx _ _ _ _) as [[[[[[x w] changes] n]|e'] d] b]; [done|]. by injection E as _ <-.
Qed.

Lemma spares_special has mark name : spares (special_mailbox acc has mark name).
Proof.
  unfold special_mailbox. apply spares_bind; [apply spares_kernel|]. intros mbs. destruct (List.find _ _); [apply spares_ret|].
  apply spares_bind; [apply spares_kernel|]. intros [mb|].
  - destruct (has _); [apply spares_ret|]. apply spares_bind; [apply spares_kernel|]. intros. apply spares_ret.
  - apply spares_bind; [apply spares_kernel|]. intros. apply spares_ret.
Qed.
Lemma spares_add raw : spares (add_draft acc (ca_now ca) raw).
Proof. apply spares_bind; [apply spares_special|]. intros. apply spares_bind; [apply spares_kernel|]. intros. apply spares_ret. Qed.
Lemma spares_policy raw d : spares (policy_tx acc (ca_now ca) raw d).
Proof.
  apply spares_bind; [apply spares_work_read|]. intros [e|]; [destruct (negb _); [apply spares_fail|apply spares_ret]|].
  apply spares_bind; [apply spares_add|]. intros m. apply spares_bind; [|intros; apply spares_ret].
  apply spares_work_do. intros w w'. unfold PutOutboundPolicyDraft. destruct (put_draft _ _ _ _ _); [|done]. by intros [= <-].
Qed.

(** *** Computations that touch neither the intents nor the queue *)
Definition silent {A} (m : HM A) : Prop := forall s, table (m s).2 = table s /\ ml_q (m s).2 = ml_q s.
Lemma silent_ask {A} (f : Store -> result A) : silent (ask f). Proof. done. Qed.
Lemma silent_store {A} (f : Store -> result A * Store) :
  (forall st, w_intents (st_w (f st).2) = w_intents (st_w st)) -> silent (on_store f).
Proof. intros Hf s. unfold on_store, table. specialize (Hf (ml_st s)). by destruct (f (ml_st s)). Qed.
Lemma silent_policy intent raw dedupe : silent (enforceAgentOutboundPolicyWithDedupe srv au hd ca intent raw dedupe).
Proof.
  unfold enforceAgentOutboundPolicyWithDedupe. destruct (sv_OutboundPolicy srv) as [evaluate|]; [|done].
  destruct (_ <=? 0); [done|]. destruct (evaluate intent) as [d|]; [|done].
  destruct (String.eqb (dc_Outcome d) OutcomeAllow); [done|]. destruct (String.eqb (dc_Outcome d) OutcomeOwnerReviewRequired); [|done].
  destruct (if String.eqb _ _ then _ else _) as [key digest]. destruct (negb _); [done|]. intros s.
  set (f := saveOutboundPolicyDraft _ _ _ _). assert (Hs : silent (on_store f)) by (apply silent_store; intros; apply WTx_keeps, spares_policy).
  specialize (Hs s). destruct (on_store f s) as [[] ?]; exact Hs.
Qed.



(** *** A claimed request: what it queues is under its key *)








(** *** The two handlers that claim a key *)






End Refinement.

(** ** What is accepted is queued *)

Section Accepted.
Context `{BlobOps} `{!BlobLaws} `{Unicode} `{UnicodeUpper} `{UnicodeClasses} `{SqlText} `{Sha256} `{Hmac} `{AddressParser} `{AddressText}
  `{MimeTypes} `{UnicodePrint} `{MoxMessage}.
Variables (srv : Server) (au : authCtx) (hd : RequestHeaders) (ca : Call).
Abbreviation acc := (au_acc au).

Lemma bind_ok {S A B} (m : stM S A) (k : A -> stM S B) s y s' :
  mbind_st m k s = (Ok y, s') -> exists x s1, m s = (Ok x, s1) /\ k x s1 = (Ok y, s').
Proof. unfold mbind_st. destruct (m s) as [[x|e] s1]; [|done]. intros Hk. by exists x, s1. Qed.
Lemma save_sent_queue raw s : ml_q (save_sent au ca raw s).2 = ml_q s.
Proof. unfold save_sent, reported_as, on_store. by destruct (saveSentCopy _ _ _ _) as [[] ?]. Qed.

(** Each of [rcpts] has a row of its own, in order, under the Sent copy's email [e], and the
    store can read its body, under the name it gives to [raw]. *)
Definition queued (e : Z) (ids : list Z) (rcpts : list string) (raw : list ascii) (s s' : Mail) : Prop :=
  exists ref data, stored au raw ref /\ blob_Open (acc_tenantID acc) ref (st_blobs (ml_st s')) = Ok data /\ NoDup ids /\
    Forall2 (fun id rcpt => q_rows (ml_q s) !! id = None /\ exists row, q_rows (ml_q s') !! id = Some row /\
      queued_for (acc_tenantID acc) (acc_id acc) e (au_login au) ref rcpt row) ids rcpts /\
    (forall id, id ∉ ids -> q_rows (ml_q s') !! id = q_rows (ml_q s) !! id).

Lemma enqueueComposed_queued to cc bcc raw s x s' : (forall id, q_next_id (ml_q s) <= id -> q_rows (ml_q s) !! id = None) ->
  enqueueComposedMessage srv au ca to cc bcc raw s = (Ok x, s') ->
  queued (EffectiveEmailID x.1) x.2 (allRecipients to cc bcc) raw s s'.
Proof.
  intros Hfree. unfold enqueueComposedMessage. destruct (negb _); [done|].
  intros (sent & s1 & Hs1 & Hrest)%bind_ok. pose proof (save_sent_queue raw s) as Hq. rewrite Hs1 in Hq. cbn [snd] in Hq.
  apply bind_ok in Hrest as (ids & s2 & Hs2 & Hret). injection Hret as <- <-. cbn [fst snd].
  unfold submit_sent in Hs2. destruct (submission au ca sent _ raw s1) as [[ids'|e] s2'] eqn:Es; [|by destruct (IsResultUnknown e)].
  injection Hs2 as -> ->. unfold submission, SubmitForMessage in Es. destruct (_ <=? 0); [done|]. rewrite Hq in Es.
  unfold submit in Es. destruct (allRecipients to cc bcc) as [|r0 rcpts] eqn:Er; [done|]. rewrite <- Er in *.
  destruct (negb (parses _) && _); [done|]. destruct (negb (forallb parses _)); [done|].
  destruct (blob_Put _ _ _) as [[[ref size]|e] b1] eqn:Eb; [|done].
  destruct (enqueue_all _ _ _ _ _ _ _ _ _ _ _) as [[ids1 q1]|e] eqn:Ee; [|done].
  destruct (ca_commit ca); [|done]. injection Es as <- <-.
  destruct (put_open _ _ _ _ _ _ Eb) as (data & Hopen & Hdata).
  destruct (enqueue_all_rows _ _ _ _ _ _ _ _ _ _ _ _ _ Ee Hfree) as (Hall & Hkeep & Hnd & Hnew & _).
  exists ref, data. split; [by exists (st_blobs (ml_st s1)), size, b1|]. split; [exact Hopen|]. split; [done|]. split; [|done].
  clear -Hall Hnew. induction Hall as [|id rcpt ids rcpts Hrow Hall IH]; [constructor|].
  apply Forall_cons in Hnew as [Hn Hnew]. constructor; [done|by apply IH].
Qed.

(** [C12] A message that the web API answers with "accepted" is in the queue: every recipient of
    the request, the blind copies too, has a fresh row under the Sent copy's email, from the
    authenticated account and address, and the body queued is the one stored for the message
    composed without its Bcc. *)
Theorem accepted_queued req e ids s s' : (forall id, q_next_id (ml_q s) <= id -> q_rows (ml_q s) !! id = None) ->
  sendMessage srv au hd ca req s = (Ok (e, ids), s') ->
  exists raw id, compose (ca_compose ca) (send_input au req []) (senderDomain au) = Ok (raw, id) /\
    queued e ids (sr_To req ++ sr_Cc req ++ sr_Bcc req) raw s s'.
Proof.
  intros Hfree. unfold sendMessage. destruct (negb _); [done|]. destruct (sr_To req) as [|t to] eqn:Eto; [done|].
  intros (raw & s1 & Hs1 & Hs)%bind_ok. unfold composed, give in Hs1.
  destruct (compose _ _ _) as [[raw' id]|] eqn:Ec; [|done]. injection Hs1 as -> ->.
  apply bind_ok in Hs as (policyRaw & s2 & Hs2 & Hs). assert (Hq2 : ml_q s2 = ml_q s1).
  { destruct (_ && _) in Hs2; [unfold composed, give in Hs2; by injection Hs2 as _ <-|by injection Hs2 as _ <-]. }
  apply bind_ok in Hs as ([] & s3 & Hs3 & Hs). assert (Hq3 : ml_q s3 = ml_q s2).
  { unfold enforceAgentOutboundPolicy in Hs3. pose proof (silent_policy srv au hd ca (send_intent (outboundPolicySource hd) req) policyRaw no_dedupe s2) as [_ Hq].
    by rewrite Hs3 in Hq. }
  apply bind_ok in Hs as (x & s4 & Hs4 & Hret). unfold accepted_as in Hret. injection Hret as <- <- <-.
  exists raw, id. split; [done|].
  apply enqueueComposed_queued in Hs4; [|by rewrite Hq3, Hq2].
  unfold queued in *. by rewrite Hq3, Hq2 in Hs4.
Qed.
End Accepted.

(** ** Witnesses: Alice's agent writes to Bob, and to Carol *)

#[local] Instance ws_upper : UnicodeUpper := { unicode_upper := fun r => r }.
#[local] Instance ws_classes : UnicodeClasses := { unicode_letter := fun _ => false; unicode_digit := fun _ => false }.
Lemma ws_pad (l : list ascii) : length (take 32 (rev l ++ replicate 32 "z"%char)) = 32%nat.
Proof. rewrite length_take, length_app, length_replicate. lia. Qed.
#[local] Instance ws_sha : Sha256 := { sha256 := fun l => take 32 (rev l ++ replicate 32 "z"%char); sha256_length := ws_pad }.
#[local] Instance ws_hmac : Hmac := { hmac_sha256 := fun k m => take 32 (rev (bytes_of m) ++ replicate 32 "x"%char) }.
#[local] Instance ws_parser : AddressParser :=
  { ParseAddress := fun s => if contains s "@" then Some (mkAddress s (Addr.Domain s)) else None }.
#[local] Instance ws_address : AddressText := { Address_String := sa_Localpart; Localpart_String := fun s => s }.
#[local] Instance ws_mime : MimeTypes := { TypeByExtension := fun _ => EmptyString }.
#[local] Instance ws_print : UnicodePrint := { unicode_print := fun _ => true }.

(** Mail to Carol needs a review. *)
Definition ws_policy (i : Intent) : result OutboundPolicy.Decision :=
  Ok (OutboundPolicy.mkDecision (if existsb (fun r => contains r "carol@") (intent_rcpts i) then OutcomeOwnerReviewRequired else OutcomeAllow)
        "1" []).
Definition ws_server : Server := mkServer true (Some ws_policy) None None (fun _ _ => Ok true).
Definition ws_agent : authCtx := mkAuthCtx alice "alice@x.example" 5 None.
Definition ws_headers : RequestHeaders := mkRequestHeaders "request-1" EmptyString.
Definition ws_call : Call :=
  mkCall 7 Committed (mkEnv (Some (bytes_of "r")) "today" "b1" "b2") (mkEnv (Some (bytes_of "s")) "today" "b3" "b4") None None (fun w => w).
Definition ws_mail : Mail := mkMail (mkStore demo_db no_files demo_wdb) empty_queue.
Definition ws_to_bob : sendRequest := mkSendRequest ["bob@y.example"] [] ["dan@z.example"] "Hi" "text" EmptyString [].
Definition ws_to_carol : sendRequest := mkSendRequest ["bob@y.example"] ["carol@y.example"] [] "Hi" "text" EmptyString [].

Section Demo.
(* The handlers asked here do not read a message. *)
Definition ws_mox : MoxMessage := {|
  EnsurePart := fun _ => mkEnsured true None None (mkWebPart (mkInfo EmptyString EmptyString false EmptyString EmptyString EmptyString None None 0) []);
  DecodeReader := fun _ l => l |}.
#[local] Existing Instance ws_mox.

Definition ws_sent : result (Z * list Z) * Mail := sendMessage ws_server ws_agent ws_headers ws_call ws_to_bob ws_mail.
Lemma ws_sends : ws_sent = (Ok (1, [1; 2]), ws_sent.2).
Proof. apply ok_pair. vm_compute. reflexivity. Qed.
Example ws_held : let r := sendMessage ws_server ws_agent ws_headers ws_call ws_to_carol ws_mail in
  r.1 = Err outbound_review_required /\ q_rows (ml_q r.2) = ∅ /\ size (w_policy (st_w (ml_st r.2))) = 1%nat.
Proof. vm_compute. done. Qed.
Lemma agent_sends_screened_witness : exists row, q_rows (ml_q (handle ws_server ws_agent ws_headers ws_call (AskSend ws_to_bob) ws_mail).2) !! 1 = Some row /\
  screened ws_agent ws_call ws_policy row.
Proof.
  assert (Ha : 0 < au_agentCredentialID ws_agent) by (cbn; lia).
  destruct (agent_sends_screened ws_server ws_agent ws_headers ws_call ws_policy eq_refl Ha (AskSend ws_to_bob) ws_mail) as [_ Hn].
  assert (Hr : is_Some (q_rows (ml_q (handle ws_server ws_agent ws_headers ws_call (AskSend ws_to_bob) ws_mail).2) !! 1))
    by (vm_compute; eexists; reflexivity).
  destruct Hr as [row Hrow]. exists row. split; [exact Hrow|]. by destruct (Hn 1 row Hrow) as [|].
Defined.

Lemma accepted_queued_witness : exists raw id, compose (ca_compose ws_call) (send_input ws_agent ws_to_bob []) (senderDomain ws_agent) = Ok (raw, id) /\
    queued ws_agent 1 [1; 2] ["bob@y.example"; "dan@z.example"] raw ws_mail ws_sent.2.
Proof.
  apply (accepted_queued ws_server ws_agent ws_headers ws_call ws_to_bob 1 [1; 2] ws_mail ws_sent.2); [intros id _; apply lookup_empty|exact ws_sends].
Defined.


Definition ws_claimed : WDB := set_intents {[(1, "request-1"%string) := fresh_row 7 0 demo_digest32]} demo_wdb.
Lemma intent_sent_once_witness : NoDup [(1, "request-1"%string)].
Proof.
  apply (intent_sent_once 1 (mkIntents ws_claimed [] [(1, "request-1"%string)])). unfold started.
  eapply rtc_l; [eapply (ii_claimed 1 7 "request-1" demo_digest32 ws_claimed); vm_compute; reflexivity|].
  eapply rtc_l; [apply (ii_submitted (1, "request-1"%string) [] []); reflexivity|]. constructor.
Defined.
End Demo.
