(* ===== verification/WebAuth.v ===== *)
(** * Who may ask the web API for what (protocol/webapi/webapi.go, confirmation.go)

    The four credentials of a request, the throttling of failed attempts, and what stands
    between an agent's credential and the handlers that send. *)

From S2P Require Import Prelude GoStrings Shapes Changes Blob Database Tx Mailboxes Messages Query Queue Strconv Verp Headers Smtp Submit Base64 Textproto Json AutoReplyChain RuleMetadata OutboundPolicy MailRules Compose Claims SendDraft Auth Identity Directory Gateway AgentAuth GatewayAssert DirectorySpec KernelDemo QuerySpec ClaimsSpec WebParts WebDrafts WebDraftsSpec WebSend WebSendSpec IdentitySteps AccessSpec.

Local Open Scope go_scope.

(** ** The request *)

(** [hr_ip] is what [clientIP] reads of the connection; [hr_head] are the headers that the
    handlers read; the body is bounded by [maxMessageSize]. *)
Record HttpRequest := mkHttp {
  hr_method : string; hr_path : string; hr_uri : string; hr_ip : option string;
  hr_authorization : string; hr_mailbox : string; hr_head : RequestHeaders; hr_body : list ascii }.

(** The limiter of failed logins (a library): its state, and its two operations. *)
Class RateLimiter := {
  limiter : Type;
  CanAdd : limiter -> string -> Z -> Z -> bool;
  Add : limiter -> string -> Z -> Z -> bool * limiter }.

Definition unauthorized : err := code "unauthorized".
Definition automation_not_authorized : err := code "automation_not_authorized".

(** [authCtx], with the fields the handlers here do not read. *)
Record session := mkSession {
  ss_ctx : authCtx; ss_tenant : Z; ss_principal : Principal; ss_spaceID : string;
  ss_humanAuthenticated : bool; ss_ownerConfirmedDraft : bool }.

(** [BasicAuth] of [net/http]. *)
Definition BasicAuth (authorization : string) : option (string * string) :=
  let l := bytes_of authorization in
  if negb (String.eqb (ascii_lower (str_of (take 6 l))) "basic ") then None
  else match Std_Decode (str_of (drop 6 l)) with
  | Some data => GatewayAssert.cut (str_of data) ":"%char
  | None => None
  end.

Definition defaultMaxMessageSize : Z := 64 * 1024 * 1024.
Definition maxMessageSize (configured : Z) : Z := if 0 <? configured then configured else defaultMaxMessageSize.
(** All of the body, when it is within the limit. *)
Definition readAndRestoreAuthBody (limit : Z) (body : list ascii) : option (list ascii) :=
  if limit <? Z.of_nat (length body) then None else Some body.

Section Auth.
Context `{Unicode} `{UnicodeUpper} `{Hmac} `{Sha256} `{AddressParser} `{DomainName} `{PasswordHash} `{RateLimiter}.
Variables (GatewaySecret : string) (configured : Z) (now : Z) (r : HttpRequest).

Definition primaryAccountAddress (scope accountID : Z) (d : IDB) : option string :=
  (fun x : Z * string * bool => x.1.2) <$>
  List.find (fun x : Z * string * bool => x.2 && negb (String.eqb (trim_space x.1.2) EmptyString)) (AccountAddresses scope accountID d).
Definition addresses_of (scope accountID : Z) (d : IDB) : list string :=
  (fun x : Z * string * bool => x.1.2) <$> AccountAddresses scope accountID d.

(** Every failure is reported alike. *)
Definition or_unauthorized {A B} (x : result A) (k : A -> result B) : result B :=
  match x with Ok x => k x | Err _ => Err unauthorized end.
Definition of_option {A} (x : option A) : result A := match x with Some x => Ok x | None => Err unauthorized end.

(** The mailbox that the gateway's caller selected: 0 when none. *)
Definition selected_account (selectedMailbox : string) : result Z :=
  if String.eqb selectedMailbox EmptyString then Ok 0
  else match ParseInt selectedMailbox with
  | Some id => if id <=? 0 then Err unauthorized else Ok id
  | None => Err unauthorized
  end.
Definition open_session (acc : account) (scope : Z) (p : Principal) (login space : string) (cred : Z) (human : bool) (d : IDB) : session :=
  mkSession (mkAuthCtx acc login cred (Some (addresses_of scope (acc_id acc) d))) scope p space human false.

Definition gateway_session (d : IDB) : result session * IDB :=
  let h := hr_authorization r in
  if (String.length GatewaySecret <? 32)%nat then (Err unauthorized, d)
  else match readAndRestoreAuthBody (maxMessageSize configured) (hr_body r) with
  | None => (Err unauthorized, d)
  | Some body =>
      let selectedMailbox := trim_space (hr_mailbox r) in
      match VerifyForMailbox now GatewaySecret (trim_prefix h "Bearer ") selectedMailbox (hr_method r) (hr_uri r) body with
      | None => (Err unauthorized, d)
      | Some claims =>
          match ConsumeGatewayAssertionNonce (gc_Issuer claims) (gc_Nonce claims) (gc_ExpiresAt claims) now d with
          | (Err _, d) => (Err unauthorized, d)
          | (Ok _, d) =>
              (or_unauthorized (selected_account selectedMailbox) (fun selected =>
               or_unauthorized (AuthenticateGatewayIdentity (gc_Issuer claims) (gc_Subject claims) (gc_SpaceID claims) selected d) (fun x =>
               let '(scope, principal, accountID) := x in
               or_unauthorized (AccountForID scope accountID d) (fun acc =>
               or_unauthorized (of_option (primaryAccountAddress scope accountID d)) (fun login =>
               Ok (open_session acc scope principal login (gc_SpaceID claims) 0 true d))))), d)
          end
      end
  end.

Definition api_key_session (d : IDB) : result session :=
  or_unauthorized (AuthenticateAPIKey (trim_prefix (hr_authorization r) "Bearer ") d) (fun x =>
  let '(scope, princ, accountID) := x in
  or_unauthorized (AccountForID scope accountID d) (fun acc =>
  Ok (open_session acc scope princ (pr_Login princ) EmptyString 0 false d))).
Definition agent_session (d : IDB) : result session :=
  or_unauthorized (AuthenticateAgentCredential (trim_prefix (hr_authorization r) "Bearer ") d) (fun x =>
  let '(scope, princ, accountID, credentialID) := x in
  or_unauthorized (AccountForID scope accountID d) (fun acc =>
  Ok (open_session acc scope princ (pr_Login princ) EmptyString credentialID false d))).
Definition password_session (d : IDB) : result session :=
  or_unauthorized (of_option (BasicAuth (hr_authorization r))) (fun x =>
  let '(login, password) := x in
  or_unauthorized (of_option (ParseAddress login)) (fun addr =>
  or_unauthorized (AuthenticatePrincipal login (PasswordCredential password) d) (fun x =>
  let '(scope, principal) := x in
  or_unauthorized (AccountForAddress scope (sa_Localpart addr) (Domain_Name addr) d) (fun acc =>
  Ok (open_session acc scope principal login EmptyString 0 true d))))).

Definition authenticate (d : IDB) : result session * IDB :=
  let h := hr_authorization r in
  if has_prefix h "Bearer omg_" then gateway_session d
  else if has_prefix h "Bearer omk_" then (api_key_session d, d)
  else if has_prefix h "Bearer omb_" then (agent_session d, d)
  else (password_session d, d).

(** The limiter, if there is one and the address is known, counts failures only. *)
Definition auth (d : IDB) (l : option limiter) : result session * IDB * option limiter :=
  match l, hr_ip r with
  | Some lim, Some ip =>
      if negb (CanAdd lim ip now 1) then (Err (code "rate_limited"), d, l)
      else match authenticate d with
           | (Ok s, d) => (Ok s, d, l)
           | (Err e, d) => (Err e, d, Some (Add lim ip now 1).2)
           end
  | _, _ => (authenticate d, l)
  end.

(** ** Automation *)

Definition agentAutomationAutoReply : string := "auto-reply".
Definition agentAutomationOwnerConfirmedDraft : string := "owner-confirmed-draft".

(** A JSON object as a map: of a repeated key the last value. *)
Definition payload_of (body : list ascii) : option (gmap string json) :=
  match Unmarshal (str_of body) with
  | Some (JObj l) => Some (list_to_map (reverse l))
  | Some JNull => Some ∅
  | _ => None
  end.
(** A value as the text it decodes to; [null] and an absent value leave it empty. *)
Definition validAutomatedText (raw : option json) : bool :=
  match raw with
  | Some j => match set_str (fun v (_ : string) => v) j EmptyString with
              | Some text => negb (String.eqb (trim_space text) EmptyString) && (Z.of_nat (String.length text) <=? 100000)
              | None => false
              end
  | None => false
  end.
Definition valid_draft_version (raw : option json) : bool :=
  match raw with
  | Some j => match set_int (fun v (_ : Z) => v) j 0 with Some v => 0 <? v | None => false end
  | None => false
  end.
Definition validateAutomatedWrite (automation operation : string) (body : list ascii) : result unit :=
  if negb (String.eqb (hr_method r) "POST") then Err automation_not_authorized
  else match payload_of body with
  | None => Err automation_not_authorized
  | Some payload =>
      if String.eqb automation agentAutomationAutoReply then
        if negb (String.eqb operation "mail.message.reply") || negb (has_suffix (hr_path r) "/reply") || negb (size payload =? 1)%nat
        then Err automation_not_authorized
        else if negb (validAutomatedText (payload !! "text"%string)) then Err automation_not_authorized else Ok tt
      else if String.eqb automation agentAutomationOwnerConfirmedDraft then
        if negb (String.eqb operation "mail.draft.send") || negb (has_prefix (hr_path r) "/webapi/v0/drafts/")
           || negb (has_suffix (hr_path r) "/send") || negb (size payload =? 1)%nat
        then Err automation_not_authorized
        else if negb (valid_draft_version (payload !! "draftVersion"%string)) then Err automation_not_authorized else Ok tt
      else Err automation_not_authorized
  end.

Definition requireScopedAutomation (cred : Z) (operation : string) (d : IDB) : result unit :=
  let automation := trim_space (rh_automation (hr_head r)) in
  if negb (validOutboundIdempotencyKey (trim_space (rh_key (hr_head r)))) then Err idempotency_key_required
  else match readAndRestoreAuthBody (maxMessageSize configured) (hr_body r) with
  | None => Err (code "request_too_large")
  | Some body =>
      try! _ := validateAutomatedWrite automation operation body in
      if AgentAutomationAllowed cred operation d then Ok tt else Err automation_not_authorized
  end.

(** What [hAgentConfirmed] asks of a session before its handler runs. *)
Definition hAgentConfirmed (operation : string) (s : session) (d : IDB) : result session :=
  let cred := au_agentCredentialID (ss_ctx s) in
  if 0 <? cred then
    let automation := trim_space (rh_automation (hr_head r)) in
    if negb (String.eqb automation EmptyString) then
      try! _ := requireScopedAutomation cred operation d in
      Ok (if String.eqb automation agentAutomationOwnerConfirmedDraft
          then mkSession (ss_ctx s) (ss_tenant s) (ss_principal s) (ss_spaceID s) (ss_humanAuthenticated s) true else s)
    else Err owner_required
  else Ok s.
End Auth.

(** ** Bodies *)

Section Bodies.
Context `{Unicode}.
Variable limit : Z. (* [maxMessageSize] *)

(** The first value within the limit; [decodeStrict] wants known fields and nothing after. *)
Definition decode {A} (strict : bool) (fields : list (struct_field A)) (zero : A) (body : list ascii) : result A :=
  match Decode (take (Z.to_nat limit) body) with
  | Some (j, rest) =>
      match decode_struct strict fields zero j with
      | Some a =>
          if strict && negb (bool_decide (skip_ws rest = []) && (Z.of_nat (length body) <=? limit)) then Err (code "invalid_body") else Ok a
      | None => Err (code "invalid_body")
      end
  | None => Err (code "invalid_body")
  end.

Definition attachment_fields : list (struct_field attachment) :=
  [("filename", set_str (fun v a => mkAttachment v (at_ContentType a) (at_Content a)));
   ("contentType", set_str (fun v a => mkAttachment (at_Filename a) v (at_Content a)));
   ("content", set_str (fun v a => mkAttachment (at_Filename a) (at_ContentType a) v))]%string.
Definition attachment_elem (strict : bool) : json -> option attachment :=
  decode_struct strict attachment_fields (mkAttachment EmptyString EmptyString EmptyString).

Definition send_fields (strict : bool) : list (struct_field sendRequest) :=
  [("to", set_list str_elem (fun v r => mkSendRequest v (sr_Cc r) (sr_Bcc r) (sr_Subject r) (sr_Text r) (sr_HTML r) (sr_Attachments r)));
   ("cc", set_list str_elem (fun v r => mkSendRequest (sr_To r) v (sr_Bcc r) (sr_Subject r) (sr_Text r) (sr_HTML r) (sr_Attachments r)));
   ("bcc", set_list str_elem (fun v r => mkSendRequest (sr_To r) (sr_Cc r) v (sr_Subject r) (sr_Text r) (sr_HTML r) (sr_Attachments r)));
   ("subject", set_str (fun v r => mkSendRequest (sr_To r) (sr_Cc r) (sr_Bcc r) v (sr_Text r) (sr_HTML r) (sr_Attachments r)));
   ("text", set_str (fun v r => mkSendRequest (sr_To r) (sr_Cc r) (sr_Bcc r) (sr_Subject r) v (sr_HTML r) (sr_Attachments r)));
   ("html", set_str (fun v r => mkSendRequest (sr_To r) (sr_Cc r) (sr_Bcc r) (sr_Subject r) (sr_Text r) v (sr_Attachments r)));
   ("attachments", set_list (attachment_elem strict) (fun v r => mkSendRequest (sr_To r) (sr_Cc r) (sr_Bcc r) (sr_Subject r) (sr_Text r) (sr_HTML r) v))]%string.
Definition no_send : sendRequest := mkSendRequest [] [] [] EmptyString EmptyString EmptyString [].
Definition reply_fields (strict : bool) : list (struct_field replyRequest) :=
  [("text", set_str (fun v r => mkReplyRequest v (rr_HTML r) (rr_Attachments r)));
   ("html", set_str (fun v r => mkReplyRequest (rr_Text r) v (rr_Attachments r)));
   ("attachments", set_list (attachment_elem strict) (fun v r => mkReplyRequest (rr_Text r) (rr_HTML r) v))]%string.
Definition no_reply : replyRequest := mkReplyRequest EmptyString EmptyString [].
Definition forward_fields : list (struct_field forwardRequest) :=
  [("to", set_list str_elem (fun v r => mkForwardRequest v (fr_Text r) (fr_Attachments r)));
   ("text", set_str (fun v r => mkForwardRequest (fr_To r) v (fr_Attachments r)));
   ("attachments", set_list (attachment_elem false) (fun v r => mkForwardRequest (fr_To r) (fr_Text r) v))]%string.
(** [updateDraftRequest]: the fields of [sendRequest] and the version. *)
Definition lift_field {A} (f : struct_field A) : struct_field (A * option Z) :=
  (f.1, fun j a => (fun x => (x, a.2)) <$> f.2 j a.1).
Definition update_fields : list (struct_field (sendRequest * option Z)) :=
  (lift_field <$> send_fields false) ++ [("draftVersion"%string, set_int_ptr (fun v a => (a.1, v)))].

(** ** Endpoints that write or send mail *)

Inductive endpoint :=
| EpSend | EpReply (id : string) | EpReplyAll (id : string) | EpForward (id : string) | EpIntents | EpAgentDrafts
| EpReplyDraft (id : string) | EpCreateDraft | EpUpdateDraft (id : string) | EpSendDraft (id : string).

(** The operation that [hAgentConfirmed] guards; the others go through [h]. *)
Definition operation_of (e : endpoint) : option string :=
  match e with
  | EpSend => Some "mail.message.send" | EpReply _ => Some "mail.message.reply"
  | EpReplyAll _ => Some "mail.message.reply_all" | EpForward _ => Some "mail.message.forward"
  | _ => None
  end%string.
Definition request_of (e : endpoint) (body : list ascii) : result Sending :=
  match e with
  | EpSend => try! r := decode false (send_fields false) no_send body in Ok (AskSend r)
  | EpReply id => try! r := decode false (reply_fields false) no_reply body in Ok (AskReply false id r)
  | EpReplyAll id => try! r := decode false (reply_fields false) no_reply body in Ok (AskReply true id r)
  | EpForward id => try! r := decode false forward_fields (mkForwardRequest [] EmptyString []) body in Ok (AskForward id r)
  | EpIntents => try! r := decode true (send_fields true) no_send body in Ok (AskIntent r)
  | EpAgentDrafts => try! r := decode true (send_fields true) no_send body in Ok (AskDraft r)
  | EpReplyDraft id => try! r := decode true (reply_fields true) no_reply body in Ok (AskReplyDraft id r)
  | EpCreateDraft => try! r := decode false (send_fields false) no_send body in Ok (AskCreate r)
  | EpUpdateDraft id => try! r := decode false update_fields (no_send, None) body in Ok (AskUpdate id r.2 r.1)
  | EpSendDraft id =>
      match body with
      | [] => Ok (AskSendDraft id None)
      | _ => try! v := decode false [("draftVersion"%string, set_int_ptr (fun v _ => v))] None body in Ok (AskSendDraft id v)
      end
  end.
End Bodies.

(** ** Serving *)

Section Serve.
Context `{BlobOps} `{Unicode} `{UnicodeUpper} `{UnicodeClasses} `{SqlText} `{Sha256} `{Hmac} `{AddressParser} `{AddressText}
  `{MimeTypes} `{UnicodePrint} `{MoxMessage} `{DomainName} `{PasswordHash} `{RateLimiter}.
Variables (GatewaySecret : string) (configured : Z) (srv : Server).

(** The directory that the server asks is the one that authenticated the request. *)
Definition with_directory (d : IDB) : Server :=
  mkServer (sv_Submission srv) (sv_OutboundPolicy srv) (sv_AutoReplyChain srv) (sv_RuleMetadata srv)
    (fun cred operation => Ok (AgentAutomationAllowed cred operation d)).
Definition admitted (now : Z) (e : endpoint) (r : HttpRequest) (d : IDB) (l : option limiter) : result session * IDB * option limiter :=
  match auth GatewaySecret configured now r d l with
  | (Ok s, d, l) => (match operation_of e with Some operation => hAgentConfirmed configured r operation s d | None => Ok s end, d, l)
  | refused => refused
  end.
Definition serve_endpoint (ca : Call) (e : endpoint) (r : HttpRequest) (d : IDB) (l : option limiter) : HM unit :=
  match admitted (ca_now ca) e r d l with
  | (Ok s, d, _) =>
      match request_of (maxMessageSize configured) e (hr_body r) with
      | Ok q => handle (with_directory d) (ss_ctx s) (hr_head r) ca q
      | Err e => merr_st e
      end
  | (Err e, _, _) => merr_st e
  end.
End Serve.

(** ** What an agent's credential can send *)

Section AuthSpec.
Context `{BlobOps} `{Unicode} `{UnicodeUpper} `{UnicodeClasses} `{SqlText} `{Sha256} `{Hmac} `{AddressParser} `{AddressText}
  `{MimeTypes} `{UnicodePrint} `{MoxMessage} `{DomainName} `{PasswordHash} `{RateLimiter}.

(** *** An automatic reply is one plain text *)

Definition plain_reply (req : replyRequest) : Prop :=
  rr_HTML req = EmptyString /\ rr_Attachments req = [] /\
  trim_space (rr_Text req) <> EmptyString /\ Z.of_nat (String.length (rr_Text req)) <= 100000.

Lemma set_members_app {A} strict (fields : list (struct_field A)) l1 l2 a :
  set_members strict fields (l1 ++ l2) a = match set_members strict fields l1 a with Some a => set_members strict fields l2 a | None => None end.
Proof.
  revert a. induction l1 as [|[k v] l1 IH]; intros a; [done|]. cbn [app set_members].
  destruct (find_field fields k) as [set|]; [destruct (set v a); [apply IH|done]|]. destruct strict; [done|apply IH].
Qed.
Lemma reply_text_field : find_field (reply_fields false) "text" = Some (set_str (fun v r => mkReplyRequest v (rr_HTML r) (rr_Attachments r))).
Proof. reflexivity. Qed.
Lemma set_texts l a a' : Forall (fun kv : string * json => kv.1 = "text"%string) l -> set_members false (reply_fields false) l a = Some a' ->
  rr_HTML a' = rr_HTML a /\ rr_Attachments a' = rr_Attachments a.
Proof.
  intros Hl. revert a. induction Hl as [|[k v] l Hk Hl IH]; intros a; cbn [set_members]; [by intros [= <-]|]. simpl in Hk. subst k.
  rewrite reply_text_field. destruct v; cbn [set_str]; try done; intros Hr; apply IH in Hr; exact Hr.
Qed.
Lemma only_text (l : list (string * json)) v : size (list_to_map (reverse l) : gmap string json) = 1%nat ->
  (list_to_map (reverse l) : gmap string json) !! "text"%string = Some v -> Forall (fun kv : string * json => kv.1 = "text"%string) l.
Proof.
  intros Hs Hv. apply Forall_forall. intros [k w] Hin. simpl.
  assert (Hk : is_Some ((list_to_map (reverse l) : gmap string json) !! k)).
  { apply elem_of_dom. rewrite dom_list_to_map. apply elem_of_list_to_set. apply list_elem_of_fmap. exists (k, w).
    split; [done|]. by apply elem_of_reverse. }
  apply elem_of_dom in Hk. assert (Ht : "text"%string ∈ dom (list_to_map (reverse l) : gmap string json)) by (apply elem_of_dom; by exists v).
  rewrite <- size_dom in Hs. exact (size_singleton_inv _ _ _ Hs Hk Ht).
Qed.
Lemma automated_text limit body payload req : readAndRestoreAuthBody limit body = Some body -> payload_of body = Some payload ->
  size payload = 1%nat -> validAutomatedText (payload !! "text"%string) = true ->
  decode limit false (reply_fields false) no_reply body = Ok req -> plain_reply req.
Proof.
  unfold readAndRestoreAuthBody, payload_of, Unmarshal. destruct (_ <? _) eqn:El; [done|]. apply Z.ltb_ge in El. intros _.
  rewrite bytes_of_str_of. unfold decode. rewrite take_ge by lia.
  destruct (Decode body) as [[j rest]|]; [|done]. cbn [andb]. destruct (skip_ws rest); [|done].
  destruct j as [| | | | | |l]; try done; [intros [= <-]; by rewrite map_size_empty|]. intros [= <-] Hs Hv.
  destruct (_ !! _) as [v|] eqn:Ev in Hv; [|done]. pose proof (only_text l v Hs Ev) as Hl.
  destruct l as [|x l' _] using rev_ind; [done|]. apply Forall_app in Hl as [Hl [Hk _]%Forall_cons]. destruct x as [k w]. simpl in Hk. subst k.
  rewrite reverse_app in Ev. cbn in Ev. rewrite lookup_insert_eq in Ev. injection Ev as ->.
  cbn [decode_struct]. rewrite set_members_app. destruct (set_members _ _ l' _) as [a|] eqn:Ea; [|done].
  apply set_texts in Ea as [E1 E2]; [|done]. cbn [set_members]. rewrite reply_text_field.
  destruct v as [| | | |t| |]; try done; cbn [set_str] in *; try done.
  apply andb_prop in Hv as [Hb Hlen]. intros [= <-]. split_and!; [done|done| |by apply Z.leb_le].
  apply negb_true_iff, String.eqb_neq in Hb. exact Hb.
Qed.

(** *** What [hAgentConfirmed] lets an agent do *)

Lemma agent_confirmed configured r operation s d s' : 0 < au_agentCredentialID (ss_ctx s) -> operation <> "mail.draft.send"%string ->
  hAgentConfirmed configured r operation s d = Ok s' ->
  s' = s /\ operation = "mail.message.reply"%string /\ isAgentAutomaticReply (ss_ctx s) (hr_head r) = true /\
  AgentAutomationAllowed (au_agentCredentialID (ss_ctx s)) operation d = true /\
  exists payload, readAndRestoreAuthBody (maxMessageSize configured) (hr_body r) = Some (hr_body r) /\
    payload_of (hr_body r) = Some payload /\ size payload = 1%nat /\ validAutomatedText (payload !! "text"%string) = true.
Proof.
  intros Hc Hop. unfold hAgentConfirmed, isAgentAutomaticReply. rewrite (proj2 (Z.ltb_lt _ _) Hc). set (automation := trim_space _).
  destruct (String.eqb automation EmptyString); cbn [negb andb]; [done|]. unfold requireScopedAutomation. fold automation.
  destruct (negb (validOutboundIdempotencyKey _)); [done|]. unfold readAndRestoreAuthBody.
  destruct (_ <? _); [done|]. unfold validateAutomatedWrite. destruct (negb (String.eqb (hr_method r) _)); [done|].
  destruct (payload_of (hr_body r)) as [payload|] eqn:Hp; [|done].
  destruct (String.eqb automation agentAutomationAutoReply) eqn:Ea.
  - destruct (String.eqb operation "mail.message.reply") eqn:Eo; [|done]. cbn [negb orb].
    destruct (negb (has_suffix _ _)); [done|]. cbn [orb]. destruct (Nat.eqb_spec (size payload) 1) as [Hs|]; [|done]. cbn [negb].
    destruct (validAutomatedText _) eqn:Ht; [|done]. cbn [negb rbind].
    destruct (AgentAutomationAllowed _ _ _) eqn:Hal; [|done]. cbn [rbind].
    apply String.eqb_eq in Ea, Eo. rewrite Ea. intros [= <-]. split_and!; [done..|by exists payload].
  - destruct (String.eqb automation agentAutomationOwnerConfirmedDraft); [|done].
    destruct (String.eqb_spec operation "mail.draft.send") as [->|]; [done|]. by cbn [negb orb].
Qed.

(** *** The handlers, whatever the policy *)
Section Adds.
Variables (srv : Server) (au : authCtx) (hd : RequestHeaders) (ca : Call) (P : QRow -> Prop).
Hypothesis HP : forall row, P row.

Lemma adds {A} Q (m : HM A) : only_queues Q m -> only_queues P m.
Proof. intros Hm. by eapply oq_mono. Qed.
Lemma reply_adds all id req : only_queues P (reply srv au hd ca all id req).
Proof.
  unfold reply. destruct (negb _); [apply oq_err|]. apply oq_bind; [apply oq_ask|]. intros source _. cbv zeta.
  destruct (replyRecipients _ _ _) as [[|t to] cc]; [apply oq_err|].
  apply oq_bind; [apply oq_give|]. intros [[mid headers] req'] _.
  apply oq_bind; [apply oq_give|]. intros raw _. apply oq_bind; [apply oq_policy|]. intros _ _.
  destruct (isAgentAutomaticReply _ _); [|eapply adds, send_reply_queues]. apply oq_bind.
  { apply oq_bind; [apply oq_reported, oq_work|]. intros x _. destruct (negb _); [apply oq_err|apply oq_ret]. }
  intros [intent claimed] _. destruct (negb claimed); [|eapply adds, send_reply_queues].
  unfold existingAgentSendIntentResult. destruct (_ && _); [apply oq_ret|apply oq_err].
Qed.
Lemma sendDraft_adds id version : only_queues P (sendDraft srv au hd ca id version).
Proof.
  unfold sendDraft. destruct (negb _); [apply oq_err|].
  apply oq_bind; [apply oq_store|]. intros d _. destruct (negb _); [apply oq_give|].
  apply oq_bind; [|intros x _; apply oq_bind; [apply settle_queues|intros; apply oq_bind; [|intros; apply oq_ret]]].
  - apply oq_or_else; [|intros; apply unless_unknown_queues, settle_queues]. apply oq_bind.
    { unfold check_draft. destruct (_ && _); [|apply oq_ret]. apply oq_bind; [apply oq_reported, oq_give|].
      intros intent _. apply oq_policy. }
    intros _ _. cbv zeta. apply oq_bind; [apply save_sent_queues|]. intros sent _.
    apply oq_bind; [eapply adds, submit_sent_queues|]. intros; apply oq_ret.
  - apply oq_logged, oq_bind; [apply oq_store|]. intros. apply table_do_queues.
Qed.
End Adds.

(** An intent queues nothing unless the binding allows automatic mail and the request is text. *)
Lemma intent_adds srv au hd ca req (P : QRow -> Prop) :
  (sv_AutomationAllowed srv (au_agentCredentialID au) "mail.message.send" = Ok true -> eligibleAutomaticSend req = true -> forall row, P row) ->
  only_queues P (createAgentSendIntent srv au hd ca req).
Proof.
  intros HP. unfold createAgentSendIntent. apply oq_bind; [apply oq_give|]. intros _ _.
  apply oq_bind; [apply oq_guard|]. intros _ _. apply oq_bind; [apply oq_give|]. intros _ _.
  apply oq_bind; [apply oq_give|]. intros raw _. apply oq_bind; [apply oq_give|]. intros draftRaw _.
  apply oq_bind; [apply oq_policy|]. intros _ _.
  apply oq_bind; [apply oq_give|]. intros automatic Ha%yields_give. destruct automatic; cbn [andb].
  - destruct (eligibleAutomaticSend req) eqn:He; [|apply oq_bind; [apply oq_store|intros; apply oq_ret]].
    apply oq_bind; [eapply adds; [by apply HP|apply submitAgentSendIntent_queues]|]. intros. apply oq_ret.
  - apply oq_bind; [apply oq_store|]. intros. apply oq_ret.
Qed.

(** What an agent may send, by endpoint: an automatic reply that is plain text, by a binding in
    automatic mode; an intent that is plain text, likewise; a draft. *)
Definition may_send (configured : Z) (e : endpoint) (r : HttpRequest) (cred : Z) (d : IDB) : Prop :=
  match e with
  | EpReply id => isAgentAutomaticReply (mkAuthCtx (mkAccount 0 0) EmptyString cred None) (hr_head r) = true /\
      AgentAutomationAllowed cred "mail.message.reply" d = true /\
      exists req, request_of (maxMessageSize configured) e (hr_body r) = Ok (AskReply false id req) /\ plain_reply req
  | EpIntents => AgentAutomationAllowed cred "mail.message.send" d = true /\
      exists req, request_of (maxMessageSize configured) e (hr_body r) = Ok (AskIntent req) /\ eligibleAutomaticSend req = true
  | EpSendDraft _ => True
  | _ => False
  end.

(** [C9] An agent's credential cannot make the server send what its binding does not allow.  The
    only requests by which it adds to the queue are: an automatic reply, marked as one, of one
    plain bounded text, and an intent to send plain bounded text without attachments, each
    while the binding is live and its mode is automatic; and the sending of a draft.  By the
    other endpoints (send, reply-all, forward, preparing or editing drafts) it adds nothing. *)
Theorem agent_mail_allowed secret configured srv ca e r d l s d' l' :
  auth secret configured (ca_now ca) r d l = (Ok s, d', l') -> 0 < au_agentCredentialID (ss_ctx s) ->
  only_queues (fun _ => may_send configured e r (au_agentCredentialID (ss_ctx s)) d') (serve_endpoint secret configured srv ca e r d l).
Proof.
  intros Hauth Hc. unfold serve_endpoint, admitted. rewrite Hauth.
  set (P := fun _ : QRow => _). set (limit := maxMessageSize configured).
  assert (Hgate : forall op, op <> "mail.draft.send"%string -> forall s', hAgentConfirmed configured r op s d' = Ok s' -> s' = s /\ op = "mail.message.reply"%string).
  { intros op Hop s' Hh. by destruct (agent_confirmed _ _ _ _ _ _ Hc Hop Hh) as (-> & -> & _). }
  destruct e as [|id|id|id| | |id| |id|id]; cbn [operation_of].
  1,3,4: destruct (hAgentConfirmed _ _ _ _ _) as [s'|] eqn:Eh; [|apply oq_err]; by apply Hgate in Eh as [_ ?].
  - destruct (hAgentConfirmed _ _ _ _ _) as [s'|] eqn:Eh; [|apply oq_err].
    apply agent_confirmed in Eh as (-> & _ & Hauto & Hal & payload & Hbody & Hp & Hs & Ht); [|done|done].
    destruct (request_of _ _ _) as [q|] eqn:Eq; [|apply oq_err]. pose proof Eq as Eq'. cbn [request_of] in Eq'.
    destruct (decode limit false (reply_fields false) no_reply (hr_body r)) as [req|] eqn:Ed; [|done]. injection Eq' as <-.
    apply oq_logged, reply_adds. intros row. unfold P. cbn [may_send]. split; [exact Hauto|]. split; [done|]. exists req.
    split; [done|]. by eapply automated_text.
  - destruct (request_of _ _ _) as [q|] eqn:Eq; [|apply oq_err]. pose proof Eq as Eq'. cbn [request_of] in Eq'.
    destruct (decode limit true (send_fields true) no_send (hr_body r)) as [req|] eqn:Ed; [|done]. injection Eq' as <-.
    apply oq_logged, intent_adds. intros [= Hal] He row. unfold P. cbn [may_send]. split; [done|]. by exists req.
  - destruct (request_of _ _ _) as [q|] eqn:Eq; [|apply oq_err]. cbn [request_of] in Eq.
    destruct (decode _ _ _ _ _); [|done]. injection Eq as <-. apply oq_logged, createAgentDraft_queues.
  - destruct (request_of _ _ _) as [q|] eqn:Eq; [|apply oq_err]. cbn [request_of] in Eq.
    destruct (decode _ _ _ _ _); [|done]. injection Eq as <-. apply oq_logged, createAgentReplyDraft_queues.
  - destruct (request_of _ _ _) as [q|] eqn:Eq; [|apply oq_err]. cbn [request_of] in Eq.
    destruct (decode _ _ _ _ _); [|done]. injection Eq as <-. apply oq_logged, createDraft_queues.
  - destruct (request_of _ _ _) as [q|] eqn:Eq; [|apply oq_err]. cbn [request_of] in Eq.
    destruct (decode _ _ _ _ _); [|done]. injection Eq as <-. apply oq_logged, updateDraft_queues.
  - destruct (request_of _ _ _) as [q|] eqn:Eq; [|apply oq_err]. cbn [request_of] in Eq. destruct (hr_body r).
    + injection Eq as <-. by apply oq_logged, sendDraft_adds.
    + destruct (decode _ _ _ _ _); [|done]. injection Eq as <-. by apply oq_logged, sendDraft_adds.
Qed.

(** *** A gateway's request is served once *)

Lemma consume_same issuer nonce e now d d' : id_nonces d' = id_nonces d ->
  (ConsumeGatewayAssertionNonce issuer nonce e now d').1 = (ConsumeGatewayAssertionNonce issuer nonce e now d).1.
Proof.
  intros E. unfold ConsumeGatewayAssertionNonce. cbv zeta. rewrite E. destruct (_ || _); [done|]. destruct (negb _); [done|].
  by destruct (id_nonces d !! _).
Qed.
Lemma gateway_consumes secret configured now r d s d1 : gateway_session secret configured now r d = (Ok s, d1) ->
  exists c, signed_claims secret (trim_prefix (hr_authorization r) "Bearer ") = Some c /\
    ConsumeGatewayAssertionNonce (gc_Issuer c) (gc_Nonce c) (gc_ExpiresAt c) now d = (Ok tt, d1).
Proof.
  unfold gateway_session, VerifyForMailbox. destruct (_ <? _)%nat; [done|]. destruct (readAndRestoreAuthBody _ _) as [body|]; [|done]. cbv zeta.
  destruct (signed_claims _ _) as [c|]; [|done]. destruct (claims_match _ _ _ _ _ _); [|done].
  destruct (ConsumeGatewayAssertionNonce _ _ _ _ d) as [[[]|e] d2] eqn:E; [|done]. intros Hr. exists c. split; [done|]. rewrite E.
  f_equal. match type of Hr with (_, ?x) = (_, ?y) => by assert (x = y) by congruence end.
Qed.
Lemma gateway_replayed secret configured now r d c e : signed_claims secret (trim_prefix (hr_authorization r) "Bearer ") = Some c ->
  (ConsumeGatewayAssertionNonce (gc_Issuer c) (gc_Nonce c) (gc_ExpiresAt c) now d).1 = Err e ->
  (gateway_session secret configured now r d).1 = Err unauthorized.
Proof.
  intros Hs Hn. unfold gateway_session, VerifyForMailbox. destruct (_ <? _)%nat; [done|]. destruct (readAndRestoreAuthBody _ _) as [body|]; [|done].
  cbv zeta. rewrite Hs. destruct (claims_match _ _ _ _ _ _); [|done].
  by destruct (ConsumeGatewayAssertionNonce _ _ _ _ d) as [[[]|e'] d2].
Qed.

(** [C13] The server serves a gateway's assertion once.  After a request authenticated by it, any
    request that carries the same token, whatever its method, path and body, is refused:
    from any address, on any node, whatever became of the other tables, and whichever other
    nonces were consumed meanwhile by nodes whose clocks are at most five minutes ahead. *)
Theorem gateway_request_once secret configured now now' r r' d d1 d2 lim lim1 lim2 s calls :
  auth secret configured now r d lim = (Ok s, d1, lim1) -> has_prefix (hr_authorization r) "Bearer omg_" = true ->
  hr_authorization r' = hr_authorization r -> id_nonces d2 = id_nonces (consumes calls d1) ->
  Forall (fun c : nonce_call => c.2 <= now' + gatewayAssertionNonceRetention) calls ->
  exists e, (auth secret configured now' r' d2 lim2).1.1 = Err e.
Proof.
  intros Hauth Hp Hr Hd Hcalls.
  assert (Ha : gateway_session secret configured now r d = (Ok s, d1)).
  { unfold auth, authenticate in Hauth. rewrite Hp in Hauth. destruct lim as [lim|]; [|congruence]. destruct (hr_ip r); [|congruence].
    destruct (negb _); [done|]. destruct (gateway_session _ _ _ _ _) as [[] ?]; congruence. }
  destruct (gateway_consumes _ _ _ _ _ _ _ Ha) as (c & Hs & Hc).
  destruct (assertion_once _ _ (gc_Issuer c) (gc_Nonce c) _ _ now' _ _ calls Hc eq_refl eq_refl Hcalls) as [e He].
  rewrite <- (consume_same _ _ _ _ _ _ Hd) in He. rewrite <- Hr in Hs, Hp. apply (gateway_replayed secret configured now' r' d2 c e Hs) in He.
  unfold auth, authenticate. rewrite Hp. destruct (gateway_session secret configured now' r' d2) as [x d3]. cbn [fst] in He. subst x.
  destruct lim2 as [lim2|]; [|by eexists]. destruct (hr_ip r'); [|by eexists]. destruct (negb _); by eexists.
Qed.
End AuthSpec.

(** ** Witnesses: the agent of account 7 sends an intent; a gateway's request is repeated *)

#[local] Instance wa_classes : UnicodeClasses := { unicode_letter := fun _ => false; unicode_digit := fun _ => false }.
#[local] Instance wa_hmac : Hmac := { hmac_sha256 := fun k m => take 32 (rev (bytes_of m) ++ replicate 32 "x"%char) }.
#[local] Instance wa_text : AddressText := { Address_String := sa_Localpart; Localpart_String := fun s => s }.
#[local] Instance wa_mime : MimeTypes := { TypeByExtension := fun _ => EmptyString }.
#[local] Instance wa_print : UnicodePrint := { unicode_print := fun _ => true }.
#[local] Instance wa_mox : MoxMessage := ws_mox.
#[local] Instance wa_limiter : RateLimiter :=
  { limiter := list (string * Z); CanAdd := fun l ip now n => (length l <? 3)%nat; Add := fun l ip now n => (true, (ip, n) :: l) }.

Definition wa_db : IDB := run demo_exchanged (start demo_db).
Definition wa_server : Server := mkServer true None None None (fun _ _ => Ok false).
Definition wa_body : list ascii := bytes_of (Marshal (send_json ws_to_bob)).
Definition wa_request : HttpRequest :=
  mkHttp "POST" "/webapi/v0/agent-send-intents" "/webapi/v0/agent-send-intents" (Some "192.0.2.1"%string) ("Bearer " ++ demo_token) EmptyString
    (mkRequestHeaders "request-1" EmptyString) wa_body.
Definition wa_mail : Mail := mkMail (mkStore (id_kernel wa_db) no_files (mkWDB {[7]} ∅ ∅ ∅ ∅)) (mkQDB {[1]} {[7]} ∅ [] ∅ ∅ 1 1).
Definition wa_auth : result session * IDB * option limiter := auth EmptyString 0 7 wa_request wa_db (Some []).
Lemma wa_agent : exists s, wa_auth = (Ok s, wa_auth.1.2, wa_auth.2) /\ au_agentCredentialID (ss_ctx s) = 10.
Proof.
  assert (Hs : match wa_auth.1.1 with Ok s => au_agentCredentialID (ss_ctx s) =? 10 | Err _ => false end = true) by (vm_compute; reflexivity).
  destruct wa_auth as [[[s|e] d] l]; cbn in Hs; [|done]. exists s. split; [done|by apply Z.eqb_eq].
Qed.
Definition wa_served : result unit * Mail := serve_endpoint EmptyString 0 wa_server ws_call EpIntents wa_request wa_db (Some []) wa_mail.
Lemma agent_mail_allowed_witness : size (q_rows (ml_q wa_served.2)) = 2%nat /\ may_send 0 EpIntents wa_request 10 wa_auth.1.2.
Proof.
  destruct wa_agent as (s & Ha & Hcred). assert (Hc : 0 < au_agentCredentialID (ss_ctx s)) by (rewrite Hcred; lia).
  pose proof (agent_mail_allowed EmptyString 0 wa_server ws_call EpIntents wa_request wa_db (Some []) s _ _ Ha Hc wa_mail) as [_ Hn].
  assert (Hq : size (q_rows (ml_q wa_served.2)) = 2%nat) by (vm_compute; reflexivity). split; [exact Hq|].
  assert (Hr : bool_decide (is_Some (q_rows (ml_q wa_served.2) !! 1)) = true) by (vm_compute; reflexivity).
  apply bool_decide_eq_true in Hr as [row Hrow]. destruct (Hn 1 row Hrow) as [Hno|Hm]; [done|]. by rewrite Hcred in Hm.
Defined.

Definition wa_secret : string := "0123456789abcdef0123456789abcdef".
Definition wa_token : string :=
  default EmptyString (SignForMailbox 100 (Some (bytes_of "nonce")) wa_secret "octo" "user-1" "team" EmptyString "GET" "/webapi/v0/messages" []).
Definition wa_signed (method uri : string) : HttpRequest :=
  mkHttp method uri uri None ("Bearer " ++ wa_token) EmptyString (mkRequestHeaders EmptyString EmptyString) [].
Definition wa_first : result session * IDB * option limiter := auth wa_secret 0 101 (wa_signed "GET" "/webapi/v0/messages") ds_gateway.2 None.
Lemma gateway_request_once_witness : exists e,
  (auth wa_secret 0 120 (wa_signed "GET" "/webapi/v0/messages") (consumes [("octo", "n-2", 500, 300)%string] wa_first.1.2) None).1.1 = Err e.
Proof.
  assert (Hs : match wa_first.1.1 with Ok _ => true | Err _ => false end = true) by (vm_compute; reflexivity).
  assert (Ha : exists s, auth wa_secret 0 101 (wa_signed "GET" "/webapi/v0/messages") ds_gateway.2 None = (Ok s, wa_first.1.2, wa_first.2)).
  { fold wa_first. destruct wa_first as [[[s|e] d] l]; [by exists s|done]. }
  destruct Ha as [s Ha].
  apply (gateway_request_once wa_secret 0 101 120 (wa_signed "GET" "/webapi/v0/messages") (wa_signed "GET" "/webapi/v0/messages")
    ds_gateway.2 wa_first.1.2 _ None wa_first.2 None s [("octo", "n-2", 500, 300)%string] Ha).
  - vm_compute. reflexivity.
  - reflexivity.
  - reflexivity.
  - apply Forall_cons_2; [simpl; unfold gatewayAssertionNonceRetention; lia|apply Forall_nil_2].
Defined.
