(* ===== verification/S3.v ===== *)
(** * The S3 blob store (storage/blob/s3.go)

    The store speaks to an object service over HTTP, signs and retries its requests and
    reads objects as streams.  The service is a parameter whose documented behaviour is
    [S3Laws]: it may refuse, fail or lose any answer.  The store refines the file-system
    store [Blob.Fs] for every such service. *)

From S2P Require Import Prelude GoStrings Blob Strconv Json Headers RuleMetadata Verp.

Local Open Scope go_scope.

(** ** Requests and the service *)

Inductive byte_range := From (off : Z) | Between (off last : Z).
Definition range_text (r : byte_range) : string :=
  match r with From off => "bytes=" ++ FormatInt off ++ "-" | Between off last => "bytes=" ++ FormatInt off ++ "-" ++ FormatInt last end%string.
Record s3_request := mkReq { rq_method : string; rq_url : string; rq_range : option byte_range; rq_payload : string; rq_body : string }.

(** How a body ends: after its last byte, cut off ([io.ErrUnexpectedEOF]), or by another error. *)
Inductive ending := Clean | Cut | Broken.
(** An answer: its status, [Content-Length] (-1 unknown), [Content-Range] and the bytes
    that arrive; or no answer, whether or not the request was carried out. *)
Inductive answer := Response (status len : Z) (content_range body : string) (ends : ending) | NoAnswer.

(** [Do] takes the request and the headers that [sign] set. *)
Class S3Service := {
  service : Type;
  Do : s3_request -> gmap string string -> service -> answer * service;
  objects : service -> gmap string string }.      (* by URL *)

(** [parseInt64]: digits only; it wraps around. *)
Fixpoint parse_digits (v : Z) (l : list ascii) : option Z :=
  match l with
  | [] => Some v
  | c :: l => if in_range 48 57 c then parse_digits (i64 (v * 10 + (byte_of c - 48))) l else None
  end.
Definition parseInt64 (s : string) : option Z := if String.eqb s EmptyString then None else parse_digits 0 (bytes_of s).
(** The total of a [Content-Range]. *)
Definition range_total (cr : string) : option Z :=
  match last_index_byte "/"%char (bytes_of cr) with Some i => parseInt64 (str_of (drop (S i) (bytes_of cr))) | None => None end.

(** The part of an object that a range names. *)
Definition slice (r : option byte_range) (obj : list ascii) : list ascii :=
  match r with
  | None => obj
  | Some (From off) => drop (Z.to_nat off) obj
  | Some (Between off last) => take (Z.to_nat (last - off + 1)) (drop (Z.to_nat off) obj)
  end.
(** A body that carries [data], of an object of [total] bytes. *)
Definition carries (data : list ascii) (total len : Z) (cr body : string) (ends : ending) : Prop :=
  bytes_of body `prefix_of` data /\ (ends = Clean -> bytes_of body = data) /\
  (len = -1 \/ len = Z.of_nat (length data)) /\ (range_total cr = None \/ range_total cr = Some total).

Class S3Laws `{S3Service} := {
  do_reads r h s a s' : rq_method r = "GET"%string \/ rq_method r = "HEAD"%string -> Do r h s = (a, s') -> objects s' = objects s;
  do_get r h s st len cr body ends s' : rq_method r = "GET"%string -> Do r h s = (Response st len cr body ends, s') ->
    (st = 404 -> objects s !! rq_url r = None) /\
    (st = 200 \/ st = 206 -> exists obj, objects s !! rq_url r = Some obj /\ (st = 200 <-> rq_range r = None) /\
       carries (slice (rq_range r) (bytes_of obj)) (Z.of_nat (String.length obj)) len cr body ends);
  do_head r h s st len cr body ends s' : rq_method r = "HEAD"%string -> Do r h s = (Response st len cr body ends, s') ->
    (st = 404 -> objects s !! rq_url r = None) /\
    (st = 200 -> exists obj, objects s !! rq_url r = Some obj /\ len = Z.of_nat (String.length obj));
  do_put r h s a s' : rq_method r = "PUT"%string -> Do r h s = (a, s') ->
    (objects s' = objects s \/ objects s' = <[rq_url r := rq_body r]> (objects s)) /\
    (forall len cr body ends, a = Response 200 len cr body ends -> objects s' = <[rq_url r := rq_body r]> (objects s));
  do_delete r h s a s' : rq_method r = "DELETE"%string -> Do r h s = (a, s') ->
    (objects s' = objects s \/ objects s' = delete (rq_url r) (objects s)) /\
    (forall st len cr body ends, a = Response st len cr body ends -> st = 204 \/ st = 200 -> objects s' = delete (rq_url r) (objects s)) }.

(** ** The store *)

(** [s3Store]; [host] and [basePath] are what [url.Parse] reads of [objectBaseURL]. *)
Record s3Store := mkS3 {
  s3_objectBaseURL : string; s3_host : string; s3_basePath : string; s3_region : string; s3_bucket : string; s3_prefixPath : string;
  s3_accessKey : string; s3_secretKey : string; s3_sessionToken : string; s3_maxAttempts : nat }.

(** A request's context and clock: whether it has ended when an attempt is about to start or
    has failed, and the dates of the attempts (day, and time of day). *)
Record s3_ctx := mkCtx { cx_done : nat -> bool; cx_date : nat -> string * string }.

Definition s3ProbeObjectName : string := ".octo-mail-probe".
Definition s3ProbeBodyLimit : nat := 65536.
Definition emptyHash : string := "e3b0c44298fc1c149afbf4c8996fb92427ae41e4649b934ca495991b7852b855".
Definition context_done : err := ErrText "context done".
Definition s3_failed : err := ErrText "s3: request failed".

(** *** Names *)

Definition itoa (v : Z) : string := if v =? min_int64 then "-" else FormatInt v.
Definition key_in (prefixPath : string) (tenantID : Z) (ref : string) : string :=
  let h := ref in
  let '(ab, cd) := if (4 <=? String.length h)%nat then (substring 0 2 h, substring 2 2 h) else ("00", "00")%string in
  let key := (itoa tenantID ++ "/" ++ ab ++ "/" ++ cd ++ "/" ++ h)%string in
  if String.eqb prefixPath EmptyString then key else (prefixPath ++ "/" ++ key)%string.

(** [strings.Trim(s, "/")] and [TrimRight]. *)
Definition is_slash (c : ascii) : bool := Ascii.eqb c "/"%char.
Definition trim_right_slashes (l : list ascii) : list ascii := rev (drop_while is_slash (rev l)).
Definition trim_slashes (s : string) : string := str_of (trim_right_slashes (drop_while is_slash (bytes_of s))).

Definition prefix_char (c : ascii) : bool :=
  in_range 97 122 c || in_range 65 90 c || in_range 48 57 c || Ascii.eqb c "."%char || Ascii.eqb c "_"%char || Ascii.eqb c "-"%char.
Definition valid_segment (segment : string) : bool :=
  negb (String.eqb segment EmptyString) && negb (String.eqb segment ".") && negb (String.eqb segment "..")
  && forallb prefix_char (bytes_of segment).
Definition normalizeS3PrefixPath (raw : string) : result string :=
  if String.eqb raw EmptyString then Ok EmptyString
  else if negb (String.eqb (trim_space raw) raw) then Err (ErrText "s3 prefix path must not have leading or trailing whitespace")
  else
    let prefix := trim_slashes raw in
    if String.eqb prefix EmptyString then Err (ErrText "s3 prefix path must contain at least one non-slash segment")
    else if forallb valid_segment (split prefix "/"%char) then Ok prefix else Err (ErrText "s3 prefix path contains invalid segment").

(** [parsed]: what [url.Parse] gives of the endpoint: scheme, host, and how [String] writes the
    URL with another host. *)
Definition s3ObjectBaseURL (endpoint bucket : string) (virtualHostedStyle : bool) (parsed : option (string * string * (string -> string)))
  : result string :=
  let endpoint := str_of (trim_right_slashes (bytes_of endpoint)) in
  if negb virtualHostedStyle then Ok (endpoint ++ "/" ++ bucket)%string
  else match parsed with
  | None => Err (ErrText "s3 endpoint")
  | Some (scheme, host, with_host) =>
      if (negb (String.eqb scheme "http") && negb (String.eqb scheme "https")) || String.eqb host EmptyString
      then Err (ErrText "s3 endpoint must be an absolute http(s) URL")
      else Ok (str_of (trim_right_slashes (bytes_of (with_host (bucket ++ "." ++ host)%string))))
  end.

(** *** Signature V4 *)

Definition unreserved (c : ascii) : bool :=
  in_range 65 90 c || in_range 97 122 c || in_range 48 57 c || existsb (Ascii.eqb c) ["-"; "_"; "."; "~"]%char.
Definition upper_hex (n : Z) : ascii := byte_char (if n <? 10 then 48 + n else 55 + n).
Definition s3EscapeSegment (s : string) : string :=
  str_of (concat ((fun c => if unreserved c then [c] else ["%"%char; upper_hex (byte_of c / 16); upper_hex (byte_of c mod 16)]) <$> bytes_of s)).
Definition s3EscapePath (p : string) : string := join "/" (s3EscapeSegment <$> split p "/"%char).
Definition canonicalizeQuery (raw : string) : string :=
  if String.eqb raw EmptyString then EmptyString
  else join "&" ((fun p => if contains p "=" then p else (p ++ "=")%string) <$> merge_sort str_le (split raw "&"%char)).

Definition nl : string := str_of [LF].
Definition name_le (x y : string * string) : Prop := str_le x.1 y.1.
#[local] Instance name_le_dec : RelDecision name_le.
Proof. intros x y. unfold name_le. apply _. Defined.
Section Sign.
Context `{Sha256} `{Hmac}.
Variable st : s3Store.

(** The names are written in order. *)
Definition canonical_headers (headers : gmap string string) : list (string * string) :=
  merge_sort name_le (map_to_list headers).
Definition signed_headers (r : s3_request) (amzDate : string) : gmap string string :=
  let headers := {[ "host" := s3_host st; "x-amz-content-sha256" := rq_payload r; "x-amz-date" := amzDate ]}%string : gmap string string in
  let headers := if String.eqb (s3_sessionToken st) EmptyString then headers else <["x-amz-security-token" := s3_sessionToken st]>%string headers in
  match rq_range r with Some rng => <["range" := range_text rng]>%string headers | None => headers end.
Definition canonical_request (r : s3_request) (path query amzDate : string) : string :=
  let headers := canonical_headers (signed_headers r amzDate) in
  join nl [rq_method r; s3EscapePath path; canonicalizeQuery query;
           str_of (concat ((fun kv : string * string => bytes_of (kv.1 ++ ":" ++ trim_space kv.2 ++ nl)) <$> headers));
           join ";" (fst <$> headers); rq_payload r].
Definition signing_key (dateStamp : string) : list ascii :=
  let kDate := hmac_sha256 ("AWS4" ++ s3_secretKey st) dateStamp in
  let kRegion := hmac_sha256 (str_of kDate) (s3_region st) in
  let kService := hmac_sha256 (str_of kRegion) "s3" in
  hmac_sha256 (str_of kService) "aws4_request".
(** The headers set on a request for the object [key]. *)
Definition sign (date : string * string) (key : string) (r : s3_request) : gmap string string :=
  let '(dateStamp, amzDate) := date in
  let headers := signed_headers r amzDate in
  let scope := (dateStamp ++ "/" ++ s3_region st ++ "/s3/aws4_request")%string in
  let stringToSign := join nl ["AWS4-HMAC-SHA256"; amzDate; scope;
    hex_encode (sha256 (bytes_of (canonical_request r (s3_basePath st ++ "/" ++ key) EmptyString amzDate)))]%string in
  let signature := hex_encode (hmac_sha256 (str_of (signing_key dateStamp)) stringToSign) in
  <["authorization" := "AWS4-HMAC-SHA256 Credential=" ++ s3_accessKey st ++ "/" ++ scope ++ ", SignedHeaders="
      ++ join ";" (fst <$> canonical_headers headers) ++ ", Signature=" ++ signature]>%string headers.
End Sign.

(** ** Requests, retried *)

(** The error response of the service, as XML: its code and message. *)
Class XmlErrors := { xml_error : string -> option (string * string) }.

Section Store.
Context `{S3Service} `{Sha256} `{Hmac} `{XmlErrors}.
Variables (st : s3Store) (sha256_hex : string -> string).

Definition key (tenantID : Z) (ref : string) : string := key_in (s3_prefixPath st) tenantID ref.
Definition objectURL (key : string) : string := (s3_objectBaseURL st ++ "/" ++ key)%string.

Definition retryableStatus (code : Z) : bool := (code =? 503) || (code =? 500) || (code =? 502) || (code =? 504).
(** [fuel] attempts are left, the next of them numbered [attempt]. *)
Fixpoint attempts (cx : s3_ctx) (object : string) (r : s3_request) (fuel attempt : nat) : stM service answer :=
  match fuel with
  | O => merr_st s3_failed
  | S fuel => fun s =>
      if (0 <? attempt)%nat && cx_done cx attempt then (Err context_done, s)
      else match Do r (sign st (cx_date cx attempt) object r) s with
      | (NoAnswer, s) => if cx_done cx (S attempt) then (Err context_done, s) else attempts cx object r fuel (S attempt) s
      | (Response status len cr body ends, s) =>
          if retryableStatus status && negb (fuel =? 0)%nat then attempts cx object r fuel (S attempt) s
          else (Ok (Response status len cr body ends), s)
      end
  end.
Definition retryDo (cx : s3_ctx) (object : string) (r : s3_request) : stM service answer := attempts cx object r (s3_maxAttempts st) 0.

Definition get_request (object : string) (range : option byte_range) : s3_request := mkReq "GET" (objectURL object) range emptyHash EmptyString.

(** ** Operations *)

Definition head (cx : s3_ctx) (object : string) : stM service (bool * Z) :=
  let! a := retryDo cx object (mkReq "HEAD" (objectURL object) None emptyHash EmptyString) in
  match a with
  | Response status len _ _ _ =>
      if status =? 404 then mret_st (false, 0) else if negb (status =? 200) then merr_st (ErrText "s3 head") else mret_st (true, len)
  | NoAnswer => merr_st s3_failed
  end.

(** A failed [head] counts as not found.  [data] is what reading the body yields. *)
Definition Put (cx : s3_ctx) (tenantID : Z) (data : result string) : stM service (string * Z) :=
  match data with
  | Err e => merr_st e
  | Ok data => fun s =>
      let size := Z.of_nat (String.length data) in
      let ref := sha256_hex data in
      let object := key tenantID ref in
      match head cx object s with
      | (Ok (true, _), s) => (Ok (ref, size), s)
      | (_, s) =>
          (let! a := retryDo cx object (mkReq "PUT" (objectURL object) None ref data) in
           match a with
           | Response status _ _ _ _ => if negb (status =? 200) then merr_st (ErrText "s3 put") else mret_st (ref, size)
           | NoAnswer => merr_st s3_failed
           end) s
      end
  end.

Definition Delete (cx : s3_ctx) (tenantID : Z) (ref : string) : stM service unit :=
  if negb (Valid ref) then merr_st ErrBadRef
  else
    let object := key tenantID ref in
    let! a := retryDo cx object (mkReq "DELETE" (objectURL object) None emptyHash EmptyString) in
    match a with
    | Response status _ _ _ _ => if negb (status =? 204) && negb (status =? 200) then merr_st (ErrText "s3 delete") else mret_st tt
    | NoAnswer => merr_st s3_failed
    end.

Definition probe (cx : s3_ctx) : stM service unit :=
  let object := if String.eqb (s3_prefixPath st) EmptyString then s3ProbeObjectName else (s3_prefixPath st ++ "/" ++ s3ProbeObjectName)%string in
  let! a := retryDo cx object (get_request object None) in
  match a with
  | Response status _ _ body ends =>
      if status =? 200 then mret_st tt
      else if (String.length body <? s3ProbeBodyLimit)%nat && match ends with Clean => false | _ => true end
      then merr_st (ErrText "s3 probe: read response")
      else match xml_error (str_of (take s3ProbeBodyLimit (bytes_of body))) with
      | None => merr_st (ErrText "s3 probe: invalid S3 error response")
      | Some (code, message) =>
          if (status =? 404) && String.eqb code "NoSuchKey" then mret_st tt
          else if (status =? 403) && String.eqb code "AccessDenied" then mret_st tt
          else merr_st (ErrText "s3 probe")
      end
  | NoAnswer => merr_st s3_failed
  end.

(** ** Readers *)

(** [s3Reader]: the held body is what it has yet to yield, and how it ends. *)
Record s3Reader := mkRd { rd_key : string; rd_size : Z; rd_off : Z; rd_body : option (list ascii * ending); rd_bodyAt : Z }.
Definition Open (tenantID : Z) (ref : string) : result s3Reader :=
  if negb (Valid ref) then Err ErrBadRef else Ok (mkRd (key tenantID ref) (-1) 0 None 0).

Definition RM (A : Type) : Type := stM (service * s3Reader) A.
Definition on_service {A} (m : stM service A) : RM A := fun s => let '(r, sv) := m s.1 in (r, (sv, s.2)).
Definition set_reader (f : s3Reader -> s3Reader) : RM unit := fun s => (Ok tt, (s.1, f s.2)).
Definition reader : RM s3Reader := fun s => (Ok s.2, s).

Definition with_size (n : Z) (rd : s3Reader) : s3Reader := mkRd (rd_key rd) n (rd_off rd) (rd_body rd) (rd_bodyAt rd).
Definition with_body (b : option (list ascii * ending)) (at_ : Z) (rd : s3Reader) : s3Reader := mkRd (rd_key rd) (rd_size rd) (rd_off rd) b at_.

Definition ensureSize (cx : s3_ctx) : RM unit :=
  let! rd := reader in
  if 0 <=? rd_size rd then mret_st tt
  else
    let! x := on_service (head cx (rd_key rd)) in
    if negb x.1 then merr_st ErrBlobNotFound else set_reader (with_size x.2).

(** The total size as the answer tells it: by [Content-Range], else by [Content-Length]. *)
Definition learn_size (off len : Z) (cr : string) (rd : s3Reader) : s3Reader :=
  if 0 <=? rd_size rd then rd
  else
    let rd := match (if String.eqb cr EmptyString then None else range_total cr) with Some total => with_size total rd | None => rd end in
    if (rd_size rd <? 0) && (0 <=? len) then with_size (i64 (off + len)) rd else rd.
Definition openStream (cx : s3_ctx) (off : Z) : RM unit :=
  do! set_reader (fun rd => with_body None (rd_bodyAt rd) rd);
  let! rd := reader in
  let! a := on_service (retryDo cx (rd_key rd) (get_request (rd_key rd) (if 0 <? off then Some (From off) else None))) in
  match a with
  | Response status len cr body ends =>
      if status =? 404 then merr_st ErrBlobNotFound
      else if negb (status =? 200) && negb (status =? 206) then merr_st (ErrText "s3 get")
      else set_reader (fun rd => with_body (Some (bytes_of body, ends)) off (learn_size off len cr rd))
  | NoAnswer => merr_st s3_failed
  end.

(** How a [Read] ends: more may come, the end, or an error. *)
Inductive read_end := More | EOF | Failed (e : err).
Definition body_error : err := ErrText "unexpected EOF".
(** [Read] of a body into [n] bytes: the network gives up to [chunk] of them, one at least,
    and may report the end of the body with its last bytes ([early]). *)
Definition body_Read (n chunk : nat) (early : bool) (b : list ascii * ending) : list ascii * read_end * (list ascii * ending) :=
  let got := take (min n (max 1 chunk)) b.1 in
  let rest := drop (min n (max 1 chunk)) b.1 in
  let stop := match b.2 with Clean => EOF | _ => Failed body_error end in
  (got, match b.1, rest with [], _ => stop | _, [] => if early then stop else More | _, _ => More end, (rest, b.2)).

Definition advance (n : Z) (rd : s3Reader) : s3Reader := mkRd (rd_key rd) (rd_size rd) (rd_off rd + n) (rd_body rd) (rd_bodyAt rd + n).
Definition Read (cx : s3_ctx) (n chunk : nat) (early : bool) : RM (list ascii * read_end) :=
  let! rd := reader in
  if (0 <=? rd_size rd) && (rd_size rd <=? rd_off rd) then mret_st ([], EOF)
  else
    do! (if bool_decide (rd_body rd = None) || negb (rd_bodyAt rd =? rd_off rd) then openStream cx (rd_off rd) else mret_st tt);
    let! rd := reader in
    match rd_body rd with
    | None => merr_st s3_failed
    | Some b =>
        let '(got, stop, b) := body_Read n chunk early b in
        do! set_reader (fun rd => with_body (Some b) (rd_bodyAt (advance (Z.of_nat (length got)) rd)) (advance (Z.of_nat (length got)) rd));
        match stop with
        | EOF =>
            do! set_reader (fun rd => with_body None (rd_bodyAt rd) rd);
            let! rd := reader in
            if (rd_size rd <? 0) || (rd_size rd <=? rd_off rd) then mret_st (got, EOF)
            else if (0 <? length got)%nat then mret_st (got, More) else mret_st (got, EOF)
        | _ => mret_st (got, stop)
        end
    end.

Definition Size (cx : s3_ctx) : RM Z := fun s => let '(_, s) := ensureSize cx s in (Ok (rd_size s.2), s).
Definition Close : RM unit := set_reader (fun rd => with_body None (rd_bodyAt rd) rd).

(** [n] is the length of the buffer.  [ReadFull] of the body stops at the first error. *)
Definition ReadAt (cx : s3_ctx) (n : nat) (off : Z) : RM (list ascii * read_end) :=
  match n with
  | O => mret_st ([], More)
  | _ =>
      do! ensureSize cx;
      let! rd := reader in
      if rd_size rd <=? off then mret_st ([], EOF)
      else
        let end_ := off + Z.of_nat n - 1 in
        let end_ := if rd_size rd <=? end_ then rd_size rd - 1 else end_ in
        let! a := on_service (retryDo cx (rd_key rd) (get_request (rd_key rd) (Some (Between off end_)))) in
        match a with
        | Response status len cr body ends =>
            if negb (status =? 206) && negb (status =? 200) then merr_st (ErrText "s3 get range")
            else
              let want := Z.to_nat (end_ - off + 1) in
              let got := take want (bytes_of body) in
              let stop :=
                if (length got =? want)%nat then More
                else match ends with
                | Clean => match got with [] => EOF | _ => More end (* io.ErrUnexpectedEOF counts as none *)
                | Cut => More
                | Broken => Failed body_error
                end in
              mret_st (got, match stop with
                            | More => if rd_size rd <=? off + Z.of_nat (length got) then EOF else More
                            | _ => stop
                            end)
        | NoAnswer => merr_st s3_failed
        end
  end.

(** [io.ReadAll]: a call of [Read] for each of [calls] (context and clock, length of the buffer,
    bytes the network gives, end reported early) until one reports the end. *)
Definition unread : err := ErrText "the body was not read to its end".
Fixpoint read_all (calls : list (s3_ctx * nat * nat * bool)) (acc : list ascii) : RM (list ascii) :=
  match calls with
  | [] => merr_st unread
  | (cx, n, chunk, early) :: calls =>
      let! x := Read cx n chunk early in
      match x.2 with
      | EOF => mret_st (acc ++ x.1)
      | Failed e => merr_st e
      | More => read_all calls (acc ++ x.1)
      end
  end.
(** [blob.Store.Open], and a read of all the body. *)
Definition get_all (tenantID : Z) (ref : string) (calls : list (s3_ctx * nat * nat * bool)) : stM service string :=
  match Open tenantID ref with
  | Err e => merr_st e
  | Ok rd => fun s => match read_all calls [] (s, rd) with (Ok l, s) => (Ok (str_of l), s.1) | (Err e, s) => (Err e, s.1) end
  end.
End Store.

(** *** Opening the store *)

Record S3Config := mkS3Config {
  cfg_Endpoint : string; cfg_Region : string; cfg_Bucket : string; cfg_PrefixPath : string; cfg_VirtualHostedStyle : bool;
  cfg_AccessKey : string; cfg_SecretKey : string; cfg_SessionToken : string }.
(** [parse_endpoint] and [host_and_path]: what [url.Parse] reads of the endpoint and of a URL. *)
Definition NewS3 `{S3Service} `{Sha256} `{Hmac} `{XmlErrors} (parse_endpoint : string -> option (string * string * (string -> string)))
    (host_and_path : string -> string * string) (cfg : S3Config) (cx : s3_ctx) : stM service s3Store :=
  match normalizeS3PrefixPath (cfg_PrefixPath cfg) with
  | Err e => merr_st e
  | Ok prefixPath =>
      match s3ObjectBaseURL (cfg_Endpoint cfg) (cfg_Bucket cfg) (cfg_VirtualHostedStyle cfg) (parse_endpoint (str_of (trim_right_slashes (bytes_of (cfg_Endpoint cfg))))) with
      | Err e => merr_st e
      | Ok objectBaseURL =>
          let region := if String.eqb (cfg_Region cfg) EmptyString then "us-east-1"%string else cfg_Region cfg in
          let s := mkS3 objectBaseURL (host_and_path objectBaseURL).1 (host_and_path objectBaseURL).2 region (cfg_Bucket cfg) prefixPath
                     (cfg_AccessKey cfg) (cfg_SecretKey cfg) (cfg_SessionToken cfg) 4 in
          do! probe s cx; mret_st s
      end
  end.

(** ** Names: what is signed is what is sent, and objects do not collide *)

Definition escape (c : ascii) : list ascii :=
  if unreserved c then [c] else ["%"%char; upper_hex (byte_of c / 16); upper_hex (byte_of c mod 16)].
Definition wire (c : ascii) : list ascii := if is_slash c then [c] else escape c.

Lemma escape_segments l : bytes_of (join "/" (s3EscapeSegment <$> (str_of <$> split_l "/"%char l))) = concat (wire <$> l).
Proof.
  assert (Hseg : forall w, bytes_of (s3EscapeSegment (str_of w)) = concat (escape <$> w)).
  { intros w. unfold s3EscapeSegment. by rewrite !bytes_of_str_of. }
  induction l as [|c l IH]; [done|]. cbn [split_l fmap list_fmap]. unfold wire at 1, is_slash.
  destruct (split_l "/"%char l) as [|w ws] eqn:Es; [by destruct l as [|x l']; cbn [split_l] in Es; [|destruct (Ascii.eqb x _); [|destruct (split_l _ l')]]|].
  destruct (Ascii.eqb c "/"%char) eqn:Ec.
  - apply Ascii.eqb_eq in Ec as ->. cbn [concat app]. cbn [fmap list_fmap] in IH |- *. rewrite <- IH.
    change (s3EscapeSegment (str_of [])) with EmptyString. reflexivity.
  - cbn [concat]. rewrite <- IH. cbn [fmap list_fmap]. destruct ws as [|v ws]; cbn [join fmap list_fmap].
    + by rewrite !Hseg.
    + rewrite !bytes_of_app, !Hseg. cbn [fmap list_fmap concat]. by rewrite <- app_assoc.
Qed.
Lemma escape_path p : s3EscapePath p = str_of (concat (wire <$> bytes_of p)).
Proof. rewrite <- (str_of_bytes_of (s3EscapePath p)). f_equal. apply escape_segments. Qed.
Lemma escape_plain p : Forall (fun c => is_slash c || unreserved c = true) (bytes_of p) -> s3EscapePath p = p.
Proof.
  intros Hp. rewrite escape_path. rewrite <- (str_of_bytes_of p) at 2. f_equal. induction Hp as [|c l Hc _ IH]; [done|].
  cbn [fmap list_fmap concat]. rewrite IH. unfold wire, escape. destruct (is_slash c); [done|]. cbn [orb] in Hc. by rewrite Hc.
Qed.

Lemma prefix_plain c : prefix_char c = true -> is_slash c || unreserved c = true.
Proof.
  intros Hc. revert c Hc. assert (Ha : forall c, implb (prefix_char c) (is_slash c || unreserved c) = true) by (apply all_bytes; vm_compute; reflexivity).
  intros c Hc. specialize (Ha c). by rewrite Hc in Ha.
Qed.
Lemma split_chars (Q : ascii -> Prop) c l : Forall (Forall Q) (split_l c l) -> Forall (fun x => x = c \/ Q x) l.
Proof.
  induction l as [|x l IH]; [constructor|]. cbn [split_l]. destruct (Ascii.eqb x c) eqn:E.
  - intros [_ Hl]%Forall_cons. constructor; [left; by apply Ascii.eqb_eq|by apply IH].
  - destruct (split_l c l) as [|w ws].
    + intros [[Hx _]%Forall_cons _]%Forall_cons. constructor; [by right|by apply IH].
    + intros [[Hx Hw]%Forall_cons Hws]%Forall_cons. constructor; [by right|apply IH; by constructor].
Qed.
Lemma normalized_plain raw p : normalizeS3PrefixPath raw = Ok p -> Forall (fun c => is_slash c || unreserved c = true) (bytes_of p).
Proof.
  unfold normalizeS3PrefixPath. destruct (String.eqb raw EmptyString); [intros [= <-]; constructor|]. destruct (negb _); [done|].
  destruct (String.eqb (trim_slashes raw) EmptyString); [done|]. destruct (forallb valid_segment _) eqn:Hv; [|done]. intros [= <-].
  unfold split in Hv. assert (Hs : Forall (Forall (fun c => prefix_char c = true)) (split_l "/"%char (bytes_of (trim_slashes raw)))).
  { rewrite forallb_forall in Hv. apply Forall_forall. intros w Hw. specialize (Hv (str_of w)).
    assert (Hin : In (str_of w) (str_of <$> split_l "/"%char (bytes_of (trim_slashes raw)))) by (apply in_map, list_elem_of_In, Hw).
    specialize (Hv Hin). apply andb_prop in Hv as [_ Hc]. rewrite bytes_of_str_of in Hc. rewrite forallb_forall in Hc.
    apply Forall_forall. intros c Hcin. apply Hc. by apply list_elem_of_In. }
  apply split_chars in Hs. eapply Forall_impl; [exact Hs|]. intros c [->|Hc]; [done|by apply prefix_plain].
Qed.

(** The part of a key after the tenant. *)
Definition key_tail (ref : string) : string :=
  let '(ab, cd) := if (4 <=? String.length ref)%nat then (substring 0 2 ref, substring 2 2 ref) else ("00", "00")%string in
  ("/" ++ ab ++ "/" ++ cd ++ "/" ++ ref)%string.
Definition key_prefix (p : string) : string := if String.eqb p EmptyString then EmptyString else (p ++ "/")%string.
Lemma key_split p t ref : key_in p t ref = (key_prefix p ++ itoa t ++ key_tail ref)%string.
Proof.
  unfold key_in, key_tail, key_prefix. destruct (if (4 <=? String.length ref)%nat then _ else _) as [ab cd].
  destruct (String.eqb p EmptyString); [done|]. by rewrite !string_app_assoc.
Qed.
Lemma valid_length ref : Valid ref = true -> length (bytes_of ref) = 64%nat /\ Forall (fun c => is_lower_hex c = true) (bytes_of ref).
Proof.
  unfold Valid. destruct (Nat.eqb_spec (length (bytes_of ref)) 64) as [E|]; [|done]. cbn [negb]. intros Hf. split; [done|].
  apply Forall_forall. intros c Hc. rewrite forallb_forall in Hf. apply Hf. by apply list_elem_of_In.
Qed.
Lemma key_tail_bytes ref : Valid ref = true -> exists ab cd, bytes_of (key_tail ref) = "/"%char :: ab ++ "/"%char :: cd ++ "/"%char :: bytes_of ref /\
  length ab = 2%nat /\ length cd = 2%nat /\ Forall (fun c => is_lower_hex c = true) (ab ++ cd).
Proof.
  intros [Hl Hf]%valid_length. destruct ref as [|a [|b [|c [|d ref]]]]; try done. exists [a; b], [c; d]. split_and!; [|done|done|].
  - by destruct ref.
  - cbn in Hf. repeat (apply Forall_cons in Hf as [? Hf]). by repeat constructor.
Qed.

Definition tenant_ok (t : Z) : Prop := 0 <= t <= max_int64.
Lemma itoa_tenant t : tenant_ok t -> itoa t = FormatInt t /\ is_i64 t = true.
Proof.
  intros [Ht Hm]. unfold itoa. destruct (Z.eqb_spec t min_int64) as [E|]; [unfold min_int64 in E; lia|]. split; [done|].
  unfold is_i64, min_int64. apply andb_true_intro. split; apply Z.leb_le; lia.
Qed.
Lemma key_inj p t t' ref ref' : tenant_ok t -> tenant_ok t' -> Valid ref = true -> Valid ref' = true ->
  key_in p t ref = key_in p t' ref' -> t = t' /\ ref = ref'.
Proof.
  intros Ht Ht' Hv Hv' E. rewrite !key_split in E. apply (f_equal bytes_of) in E. rewrite !bytes_of_app in E. apply app_inv_head in E.
  destruct (key_tail_bytes ref Hv) as (ab & cd & Eb & L1 & L2 & _). destruct (key_tail_bytes ref' Hv') as (ab' & cd' & Eb' & L1' & L2' & _).
  destruct (valid_length _ Hv) as [L _]. destruct (valid_length _ Hv') as [L' _].
  apply app_inj_2 in E as [Ei Et].
  - apply (f_equal str_of) in Ei. rewrite !str_of_bytes_of in Ei.
    destruct (itoa_tenant t Ht) as [E0 Hi]. destruct (itoa_tenant t' Ht') as [E' Hi']. rewrite E0, E' in Ei.
    split; [by apply FormatInt_inj|]. rewrite Eb, Eb' in Et. injection Et as Et.
    apply app_inj_1 in Et as [_ Et]; [|congruence]. injection Et as Et. apply app_inj_1 in Et as [_ Et]; [|congruence]. injection Et as Et.
    rewrite <- (str_of_bytes_of ref), <- (str_of_bytes_of ref'). by rewrite Et.
  - rewrite Eb, Eb'. cbn [length]. rewrite !length_app. cbn [length]. rewrite !length_app. cbn [length]. lia.
Qed.

(** The path that is signed for a blob is the path that is requested: no byte of a key under a
    normalised prefix needs an escape. *)
Theorem key_signed_as_sent raw p t ref : normalizeS3PrefixPath raw = Ok p -> tenant_ok t -> Valid ref = true ->
  s3EscapePath (key_in p t ref) = key_in p t ref.
Proof.
  intros Hn Ht Hv. apply escape_plain. rewrite key_split, !bytes_of_app. pose proof (normalized_plain _ _ Hn) as Hp.
  destruct (key_tail_bytes ref Hv) as (ab & cd & Eb & _ & _ & Hx). destruct (valid_length _ Hv) as [_ Hr]. rewrite Eb.
  assert (Hhex : forall c, is_lower_hex c = true -> is_slash c || unreserved c = true).
  { assert (Ha : forall c, implb (is_lower_hex c) (is_slash c || unreserved c) = true) by (apply all_bytes; vm_compute; reflexivity).
    intros c Hc. specialize (Ha c). by rewrite Hc in Ha. }
  apply Forall_app in Hx as [Hab Hcd]. apply Forall_app. split; [|apply Forall_app; split].
  - unfold key_prefix. destruct (String.eqb p EmptyString); [constructor|]. rewrite bytes_of_app. apply Forall_app. split; [done|by repeat constructor].
  - destruct (itoa_tenant t Ht) as [-> Hi]. apply FormatInt_chars; [|done|done]. intros d Hd.
    assert (d = 0 \/ d = 1 \/ d = 2 \/ d = 3 \/ d = 4 \/ d = 5 \/ d = 6 \/ d = 7 \/ d = 8 \/ d = 9) by lia. by destruct_or!; subst.
  - repeat first [apply Forall_cons_2; [reflexivity|] | apply Forall_app_2]; (eapply Forall_impl; [eassumption|]; apply Hhex).
Qed.

(** ** Requests *)

Section StoreSpec.
Context `{S3Service} `{!S3Laws} `{Sha256} `{Hmac} `{XmlErrors}.
Variables (st : s3Store) (sha256_hex : string -> string).

(** Whatever the attempts do to the objects is what one or more of them did; the answer is the
    last one's. *)
Lemma attempts_inv (R : gmap string string -> gmap string string -> Prop) cx object r fuel n s :
  (forall m, R m m) -> (forall m1 m2 m3, R m1 m2 -> R m2 m3 -> R m1 m3) ->
  (forall h s a s', Do r h s = (a, s') -> R (objects s) (objects s')) ->
  R (objects s) (objects (attempts st cx object r fuel n s).2) /\
  (forall a, (attempts st cx object r fuel n s).1 = Ok a -> exists h s1 status len cr body ends, R (objects s) (objects s1) /\
     a = Response status len cr body ends /\ Do r h s1 = (a, (attempts st cx object r fuel n s).2)).
Proof.
  intros Hrefl Htrans Hdo. revert n s. induction fuel as [|fuel IH]; intros n s; cbn [attempts]; [split; [apply Hrefl|done]|].
  destruct ((0 <? n)%nat && cx_done cx n); [split; [apply Hrefl|done]|].
  destruct (Do r _ s) as [[status len cr body ends|] s1] eqn:Ed; pose proof (Hdo _ _ _ _ Ed) as Hs1.
  - destruct (retryableStatus status && _).
    + destruct (IH (S n) s1) as [Ha Hb]. split; [by eapply Htrans|]. intros a Hok.
      destruct (Hb a Hok) as (h & s2 & status' & len' & cr' & body' & ends' & Hr & Hrest). exists h, s2, status', len', cr', body', ends'. split; [by eapply Htrans|done].
    + split; [done|]. intros a [= <-]. do 7 eexists. split_and!; [apply Hrefl|reflexivity|exact Ed].
  - destruct (cx_done cx (S n)); [by split|]. destruct (IH (S n) s1) as [Ha Hb]. split; [by eapply Htrans|]. intros a Hok.
    destruct (Hb a Hok) as (h & s2 & status' & len' & cr' & body' & ends' & Hr & Hrest). exists h, s2, status', len', cr', body', ends'. split; [by eapply Htrans|done].
Qed.

(** What a computation does: [Q] of a result, [E] of an error. *)
Definition outcome {S A} (m : stM S A) (s : S) (Q : A -> S -> Prop) (E : err -> S -> Prop) : Prop :=
  match m s with (Ok a, s') => Q a s' | (Err e, s') => E e s' end.
Lemma outcome_bind {S A B} (m : stM S A) (k : A -> stM S B) s Q E :
  outcome m s (fun a s' => outcome (k a) s' Q E) E -> outcome (mbind_st m k) s Q E.
Proof. unfold outcome, mbind_st. by destruct (m s) as [[a|e] s']. Qed.
Lemma outcome_weaken {S A} (m : stM S A) s (Q Q' : A -> S -> Prop) (E E' : err -> S -> Prop) :
  outcome m s Q E -> (forall a s', Q a s' -> Q' a s') -> (forall e s', E e s' -> E' e s') -> outcome m s Q' E'.
Proof. unfold outcome. destruct (m s) as [[a|e] s']; auto. Qed.

Lemma retry_outcome (R : gmap string string -> gmap string string -> Prop) cx object r s :
  (forall m, R m m) -> (forall m1 m2 m3, R m1 m2 -> R m2 m3 -> R m1 m3) ->
  (forall h s a s', Do r h s = (a, s') -> R (objects s) (objects s')) ->
  outcome (retryDo st cx object r) s
    (fun a s' => exists h s1 status len cr body ends, R (objects s) (objects s1) /\ a = Response status len cr body ends /\ Do r h s1 = (a, s'))
    (fun e s' => R (objects s) (objects s') /\ (e = s3_failed \/ e = context_done)).
Proof.
  intros Hrefl Htrans Hdo. unfold outcome. destruct (attempts_inv R cx object r (s3_maxAttempts st) 0 s Hrefl Htrans Hdo) as [Ha Hb].
  assert (He : forall fuel n s e, (attempts st cx object r fuel n s).1 = Err e -> e = s3_failed \/ e = context_done).
  { intros fuel. induction fuel as [|fuel IH]; intros n s0 e; cbn [attempts]; [intros [= <-]; by left|].
    destruct (_ && _); [intros [= <-]; by right|]. destruct (Do r _ s0) as [[]]; [destruct (_ && _); [apply IH|done]|].
    destruct (cx_done _ _); [intros [= <-]; by right|apply IH]. }
  unfold retryDo. specialize (He (s3_maxAttempts st) 0%nat s). destruct (attempts _ _ _ _ _ _ s) as [[a|e] s']; cbn [fst snd] in *; [by apply Hb|].
  split; [done|by apply He].
Qed.
Lemma retry_read cx object r s : rq_method r = "GET"%string \/ rq_method r = "HEAD"%string ->
  outcome (retryDo st cx object r) s
    (fun a s' => exists h s1 status len cr body ends, objects s = objects s1 /\ objects s' = objects s /\ a = Response status len cr body ends /\ Do r h s1 = (a, s'))
    (fun e s' => objects s' = objects s /\ (e = s3_failed \/ e = context_done)).
Proof.
  intros Hm. eapply outcome_weaken; [apply (retry_outcome eq)| |].
  - done.
  - congruence.
  - intros. symmetry. by eapply do_reads.
  - intros a s' (h & s1 & status & len & cr & body & ends & E & Ea & Hd). exists h, s1, status, len, cr, body, ends. split_and!; [done| |done..].
    rewrite E. by eapply do_reads.
  - intros e s' [-> He]. done.
Qed.

(** The errors of the store, none of which says that an object is not there. *)
Definition failure (e : err) : Prop := e <> ErrBlobNotFound /\ e <> unread /\ e <> ErrBadRef.
Lemma failed_failure e : e = s3_failed \/ e = context_done -> failure e.
Proof. by intros [-> | ->]. Qed.

Lemma head_outcome cx object s :
  outcome (head st cx object) s
    (fun x s' => objects s' = objects s /\ match objects s !! objectURL st object with Some obj => x = (true, Z.of_nat (String.length obj)) | None => x.1 = false end)
    (fun e s' => objects s' = objects s /\ failure e).
Proof.
  unfold head. apply outcome_bind. eapply outcome_weaken; [apply retry_read; by right| |].
  - intros a s' (h & s1 & status & len & cr & body & ends & Ho & Ho' & -> & Hd). apply do_head in Hd as [H404 H200]; [|reflexivity].
    rewrite <- Ho in *. cbn [rq_url] in *. destruct (Z.eqb_spec status 404) as [E4|_]; [rewrite (H404 E4); by split|].
    destruct (Z.eqb_spec status 200) as [E2|]; cbn [negb]; [|by split]. destruct (H200 E2) as (obj & -> & ->). by split.
  - intros e s' [Ho He]. split; [done|by apply failed_failure].
Qed.

(** ** Refinement of the file-system store *)

(** The objects under the store's keys are the files of a file-system store. *)
Definition shows (s : service) (fs : gmap (Z * string) string) : Prop :=
  forall t ref, tenant_ok t -> Valid ref = true -> objects s !! objectURL st (key st t ref) = fs !! (t, ref).

Lemma url_inj t t' ref ref' : tenant_ok t -> tenant_ok t' -> Valid ref = true -> Valid ref' = true ->
  objectURL st (key st t ref) = objectURL st (key st t' ref') -> t = t' /\ ref = ref'.
Proof.
  intros Ht Ht' Hv Hv' E. eapply key_inj; [done..|]. unfold objectURL in E. apply (f_equal bytes_of) in E. rewrite !bytes_of_app in E.
  apply app_inv_head in E. injection E as E. rewrite <- (str_of_bytes_of (key st t ref)), <- (str_of_bytes_of (key st t' ref')) in E.
  rewrite !bytes_of_str_of in E. apply (f_equal str_of) in E. by rewrite !str_of_bytes_of in E.
Qed.
Lemma shows_insert s s' fs t ref data : shows s fs -> tenant_ok t -> Valid ref = true ->
  objects s' = <[objectURL st (key st t ref) := data]> (objects s) -> shows s' (<[(t, ref) := data]> fs).
Proof.
  intros Hs Ht Hv E t' ref' Ht' Hv'. rewrite E. destruct (decide ((t', ref') = (t, ref))) as [[= -> ->]|Hne]; [by rewrite !lookup_insert_eq|].
  rewrite (lookup_insert_ne fs) by congruence. rewrite lookup_insert_ne; [by apply Hs|]. intros Eu. apply Hne.
  by destruct (url_inj t t' ref ref' Ht Ht' Hv Hv' Eu) as [-> ->].
Qed.
Lemma shows_delete s s' fs t ref : shows s fs -> tenant_ok t -> Valid ref = true ->
  objects s' = delete (objectURL st (key st t ref)) (objects s) -> shows s' (delete (t, ref) fs).
Proof.
  intros Hs Ht Hv E t' ref' Ht' Hv'. rewrite E. destruct (decide ((t', ref') = (t, ref))) as [[= -> ->]|Hne]; [by rewrite !lookup_delete_eq|].
  rewrite (lookup_delete_ne fs) by congruence. rewrite lookup_delete_ne; [by apply Hs|]. intros Eu. apply Hne.
  by destruct (url_inj t t' ref ref' Ht Ht' Hv Hv' Eu) as [-> ->].
Qed.
Lemma shows_same s s' fs : objects s' = objects s -> shows s fs -> shows s' fs.
Proof. intros E Hs t ref Ht Hv. rewrite E. by apply Hs. Qed.

(** *** Put and Delete *)

(** A change of one object, which requests that repeat it leave as it is. *)
Definition at_most (f : gmap string string -> gmap string string) (m m' : gmap string string) : Prop := m' = m \/ m' = f m.
Lemma at_most_trans f m1 m2 m3 : (forall m, f (f m) = f m) -> at_most f m1 m2 -> at_most f m2 m3 -> at_most f m1 m3.
Proof. intros Hf [->| ->] [->| ->]; unfold at_most; rewrite ?Hf; auto. Qed.

Lemma put_outcome cx object ref data s : outcome (retryDo st cx object (mkReq "PUT" (objectURL st object) None ref data)) s
  (fun a s' => exists status len cr body ends, a = Response status len cr body ends /\
     at_most (insert (objectURL st object) data) (objects s) (objects s') /\ (status = 200 -> objects s' = <[objectURL st object := data]> (objects s)))
  (fun e s' => at_most (insert (objectURL st object) data) (objects s) (objects s') /\ failure e).
Proof.
  set (u := objectURL st object). set (r := mkReq _ _ _ _ _).
  assert (Hidem : forall m : gmap string string, <[u := data]> (<[u := data]> m) = <[u := data]> m) by (intros m; apply insert_insert_eq).
  eapply outcome_weaken; [apply (retry_outcome (at_most (insert u data)))| |].
  - by left.
  - intros m1 m2 m3. by apply at_most_trans.
  - intros h s1 a s1' Hd. by apply (do_put r) in Hd as [Hd _].
  - intros a s' (h & s1 & status & len & cr & body & ends & Hr & -> & Hd). apply (do_put r) in Hd as [Hd H200]; [|done].
    change (rq_url r) with u in *. change (rq_body r) with data in *. exists status, len, cr, body, ends. split_and!; [done|by eapply at_most_trans|].
    intros ->. rewrite (H200 _ _ _ _ eq_refl). destruct Hr as [->| ->]; [done|apply Hidem].
  - intros e s' [Hr He]. split; [done|by apply failed_failure].
Qed.
Lemma delete_outcome cx object s : outcome (retryDo st cx object (mkReq "DELETE" (objectURL st object) None emptyHash EmptyString)) s
  (fun a s' => exists status len cr body ends, a = Response status len cr body ends /\
     at_most (delete (objectURL st object)) (objects s) (objects s') /\ (status = 204 \/ status = 200 -> objects s' = delete (objectURL st object) (objects s)))
  (fun e s' => at_most (delete (objectURL st object)) (objects s) (objects s') /\ failure e).
Proof.
  set (u := objectURL st object). set (r := mkReq _ _ _ _ _).
  assert (Hidem : forall m : gmap string string, delete u (delete u m) = delete u m) by (intros m; apply delete_delete_eq).
  eapply outcome_weaken; [apply (retry_outcome (at_most (delete u)))| |].
  - by left.
  - intros m1 m2 m3. by apply at_most_trans.
  - intros h s1 a s1' Hd. by apply (do_delete r) in Hd as [Hd _].
  - intros a s' (h & s1 & status & len & cr & body & ends & Hr & -> & Hd). apply (do_delete r) in Hd as [Hd H200]; [|done].
    change (rq_url r) with u in *. exists status, len, cr, body, ends. split_and!; [done|by eapply at_most_trans|].
    intros Hst. rewrite (H200 _ _ _ _ _ eq_refl Hst). destruct Hr as [->| ->]; [done|apply Hidem].
  - intros e s' [Hr He]. split; [done|by apply failed_failure].
Qed.

(** *** Readers *)

(** [acc] has been read of an object, of which [tail] is left. *)
Definition reading (acc tail : list ascii) (rd : s3Reader) : Prop :=
  rd_off rd = Z.of_nat (length acc) /\ (rd_size rd = -1 \/ rd_size rd = Z.of_nat (length (acc ++ tail))) /\
  forall b ends, rd_body rd = Some (b, ends) -> rd_bodyAt rd = rd_off rd -> b `prefix_of` tail /\ (ends = Clean -> b = tail).
Definition holds (s : service) (rd : s3Reader) (obj : option (list ascii)) : Prop :=
  objects s !! objectURL st (rd_key rd) = str_of <$> obj.
(** The state after a read: the objects and the key are the same. *)
Definition still (s s' : service * s3Reader) : Prop := objects s'.1 = objects s.1 /\ rd_key s'.2 = rd_key s.2.

Lemma learned acc tail len cr ends body rd : reading acc tail rd -> Z.of_nat (length (acc ++ tail)) <= max_int64 ->
  carries tail (Z.of_nat (length (acc ++ tail))) len cr body ends ->
  reading acc tail (with_body (Some (bytes_of body, ends)) (rd_off rd) (learn_size (rd_off rd) len cr rd)).
Proof.
  intros (Ho & Hz & _) Hmax (Hp & Hc & Hl & Hcr). assert (Hs : rd_size (learn_size (rd_off rd) len cr rd) = -1 \/
    rd_size (learn_size (rd_off rd) len cr rd) = Z.of_nat (length (acc ++ tail))).
  { unfold learn_size. destruct (Z.leb_spec 0 (rd_size rd)); [done|].
    assert (Hi : len = -1 \/ 0 <= len /\ i64 (rd_off rd + len) = Z.of_nat (length (acc ++ tail))).
    { destruct Hl as [->| ->]; [by left|right]. split; [lia|]. rewrite Ho, <- Nat2Z.inj_add, <- length_app. apply i64_small; lia. }
    assert (Hcr' : (if String.eqb cr EmptyString then None else range_total cr) = None \/
                   (if String.eqb cr EmptyString then None else range_total cr) = Some (Z.of_nat (length (acc ++ tail)))).
    { destruct (String.eqb cr EmptyString); [by left|done]. }
    destruct Hcr' as [-> | ->]; cbn [with_size rd_size].
    - destruct (_ && _) eqn:E; [|by left; lia]. cbn [with_size rd_size]. destruct Hi as [->|[_ ->]]; [|by right]. by rewrite andb_false_r in E.
    - destruct (Z.ltb_spec (Z.of_nat (length (acc ++ tail))) 0); [lia|]. by right. }
  split; [|split; [exact Hs|]].
  - unfold learn_size. destruct (0 <=? rd_size rd); [done|]. destruct (if String.eqb cr EmptyString then None else _); cbn [with_size with_body rd_off rd_size]; by destruct (_ && _).
  - intros b e [= <- <-] _. by split.
Qed.

Lemma outcome_service {A} (m : stM service A) s Q E :
  outcome m s.1 (fun a s' => Q a (s', s.2)) (fun e s' => E e (s', s.2)) -> outcome (on_service m) s Q E.
Proof. unfold outcome, on_service. by destruct (m s.1) as [[a|e] s']. Qed.
Lemma length_bytes_of s : length (bytes_of s) = String.length s.
Proof. induction s as [|c s IH]; [done|]. simpl. by f_equal. Qed.
Lemma learn_key off len cr rd : rd_key (learn_size off len cr rd) = rd_key rd.
Proof.
  unfold learn_size. destruct (0 <=? rd_size rd); [done|]. destruct (if String.eqb cr EmptyString then None else _); cbn [with_size rd_size]; by destruct (_ && _).
Qed.
Lemma range_from tail acc off : off = Z.of_nat (length acc) -> slice (if 0 <? off then Some (From off) else None) (acc ++ tail) = tail.
Proof.
  intros ->. destruct (Z.ltb_spec 0 (Z.of_nat (length acc))); cbn [slice]; [by rewrite Nat2Z.id, drop_app_length|].
  assert (acc = []) as -> by (destruct acc; cbn [length] in *; [done|lia]). done.
Qed.
Lemma openStream_outcome cx acc tail s : reading acc tail s.2 -> holds s.1 s.2 (Some (acc ++ tail)) -> Z.of_nat (length (acc ++ tail)) <= max_int64 ->
  outcome (openStream st cx (rd_off s.2)) s
    (fun _ s' => still s s' /\ reading acc tail s'.2 /\ rd_body s'.2 <> None /\ rd_bodyAt s'.2 = rd_off s'.2)
    (fun e s' => still s s' /\ failure e).
Proof.
  intros Hr Ho Hmax. destruct s as [s rd]. cbn [fst snd] in *. unfold openStream. apply outcome_bind. unfold set_reader at 1, outcome at 1. cbn [fst snd].
  apply outcome_bind. unfold reader, outcome at 1. apply outcome_bind, outcome_service. cbn [fst snd with_body rd_key]. set (r := get_request _ _ _).
  eapply outcome_weaken; [apply retry_read; by left| |].
  - intros a s' (h & s1 & status & len & cr & body & ends & Ho1 & Ho' & -> & Hd). apply do_get in Hd as [H404 H200]; [|reflexivity].
    change (rq_url r) with (objectURL st (rd_key rd)) in *. change (rq_range r) with (if 0 <? rd_off rd then Some (From (rd_off rd)) else None) in *.
    rewrite <- Ho1 in *. unfold holds in Ho. rewrite Ho in *. destruct (Z.eqb_spec status 404) as [E4|_]; [by specialize (H404 E4)|].
    destruct (negb (status =? 200) && negb (status =? 206)) eqn:Est; [by split|].
    destruct H200 as (obj & [= <-] & _ & Hc); [destruct (Z.eqb_spec status 200); [by left|]; destruct (Z.eqb_spec status 206); [by right|done]|].
    rewrite bytes_of_str_of, range_from, <- length_bytes_of, bytes_of_str_of in Hc by apply Hr.
    assert (Hr0 : reading acc tail (with_body None (rd_bodyAt rd) rd)) by (destruct Hr as (? & ? & _); by split_and!).
    pose proof (learned acc tail len cr ends body _ Hr0 Hmax Hc) as Hl. unfold set_reader, outcome, still. cbn [fst snd].
    split_and!; [done|exact (learn_key _ _ _ (with_body None (rd_bodyAt rd) rd))|exact Hl|done|]. destruct Hl as [Hl _]. etransitivity; [exact (proj1 Hr)|symmetry; exact Hl].
  - intros e s' [Ho' He]. split; [done|by apply failed_failure].
Qed.

Lemma body_Read_spec n chunk early b ends got stop b' : (1 <= n)%nat -> body_Read n chunk early (b, ends) = (got, stop, b') ->
  b = got ++ b'.1 /\ b'.2 = ends /\
  match stop with EOF => ends = Clean /\ b'.1 = [] | More => got <> [] | Failed e => failure e end.
Proof.
  unfold body_Read. cbn [fst snd]. intros Hn [= <- <- <-]. cbn [fst snd]. rewrite take_drop. split_and!; [done..|].
  destruct b as [|c b]; [rewrite drop_nil; by destruct ends|]. destruct (min n (max 1 chunk)) as [|k] eqn:Ek; [lia|]. cbn [take drop].
  destruct (drop k b); [|done]. destruct early; [|done]. by destruct ends.
Qed.
Lemma Read_outcome cx n chunk early acc tail s : (1 <= n)%nat -> reading acc tail s.2 -> holds s.1 s.2 (Some (acc ++ tail)) ->
  Z.of_nat (length (acc ++ tail)) <= max_int64 ->
  outcome (Read st cx n chunk early) s
    (fun x s' => still s s' /\ exists tail', tail = x.1 ++ tail' /\
       match x.2 with
       | EOF => tail' = []
       | More => x.1 <> [] /\ reading (acc ++ x.1) tail' s'.2 /\ rd_body s'.2 <> None /\ rd_bodyAt s'.2 = rd_off s'.2
       | Failed e => failure e
       end)
    (fun e s' => still s s' /\ failure e).
Proof.
  intros Hn Hr Ho Hmax. unfold Read. apply outcome_bind. unfold reader at 1, outcome at 1.
  destruct ((0 <=? rd_size s.2) && (rd_size s.2 <=? rd_off s.2)) eqn:E.
  { split; [done|]. exists tail. cbn [fst snd]. split; [done|]. destruct Hr as (Hoff & Hz & _). rewrite length_app in Hz.
    destruct tail; [done|cbn [length] in Hz; lia]. }
  apply outcome_bind.
  assert (Hopen : outcome (if bool_decide (rd_body s.2 = None) || negb (rd_bodyAt s.2 =? rd_off s.2) then openStream st cx (rd_off s.2) else mret_st tt) s
    (fun _ s' => still s s' /\ reading acc tail s'.2 /\ rd_body s'.2 <> None /\ rd_bodyAt s'.2 = rd_off s'.2) (fun e s' => still s s' /\ failure e)).
  { destruct (bool_decide _ || _) eqn:Eb; [by apply openStream_outcome|]. apply orb_false_elim in Eb as [Eb1 Eb2]. apply bool_decide_eq_false in Eb1.
    unfold outcome, mret_st. split_and!; [done..|lia]. }
  eapply outcome_weaken; [exact Hopen| |done]. intros _ s1 (Hs & Hr1 & Hb & Hat). apply outcome_bind. unfold reader, outcome at 1.
  destruct (rd_body s1.2) as [[b ends]|] eqn:Eb; [|done]. destruct Hr1 as (Hoff & Hz & Hbody). destruct (Hbody b ends Eb Hat) as [Hp Hc].
  destruct (body_Read n chunk early (b, ends)) as [[got stop] b'] eqn:Er. destruct (body_Read_spec _ _ _ _ _ _ _ _ Hn Er) as (-> & He & Hstop).
  destruct b' as [b' e']. cbn [fst snd] in *. subst e'.
  destruct Hp as [rest Hp]. rewrite <- app_assoc in Hp.
  apply outcome_bind. unfold set_reader at 1, outcome at 1. cbn [fst snd]. set (rd2 := with_body _ _ _).
  assert (Hr2 : reading (acc ++ got) (b' ++ rest) rd2 /\ rd_key rd2 = rd_key s1.2 /\ rd_bodyAt rd2 = rd_off rd2).
  { split; [|split; [done|cbn; by rewrite Hat]]. unfold reading. cbn. rewrite <- app_assoc, <- Hp. split_and!; [rewrite length_app; lia|done|].
    intros b0 e0 [= <- <-] _. split; [by eexists|]. intros Hends. specialize (Hc Hends). rewrite Hp in Hc.
    by apply app_inv_head in Hc. }
  destruct Hr2 as (Hr2 & Hk & Hat2). assert (Hst : still s (s1.1, rd2)) by (unfold still in *; cbn [fst snd]; by rewrite Hk).
  destruct stop.
  - unfold outcome, mret_st. cbn [fst snd]. split; [done|]. by exists (b' ++ rest).
  - destruct Hstop as [-> ->]. specialize (Hc eq_refl). rewrite app_nil_r in Hc. subst got.
    apply outcome_bind. unfold set_reader at 1, outcome at 1. cbn [fst snd]. apply outcome_bind. unfold reader, outcome at 1. cbn [fst snd].
    destruct Hr2 as (Ho2 & Hz2 & _). set (rd3 := with_body None _ _).
    assert (Hst3 : still s (s1.1, rd3)) by (unfold still in *; cbn [fst snd]; by destruct Hst).
    assert (Hend : (rd_size rd3 <? 0) || (rd_size rd3 <=? rd_off rd3) = true).
    { change (rd_size rd3) with (rd_size rd2). change (rd_off rd3) with (rd_off rd2). rewrite Ho2. cbn [app] in Hp.
      assert (rest = []) as -> by (apply (f_equal length) in Hp; rewrite length_app in Hp; destruct rest; [done|cbn [length] in Hp; lia]).
      rewrite !app_nil_r in Hz2. lia. }
    rewrite Hend. unfold outcome, mret_st. cbn [fst snd]. split; [done|]. exists []. by rewrite app_nil_r.
  - unfold outcome, mret_st. cbn [fst snd]. split; [done|]. by exists (b' ++ rest).
Qed.

Lemma Read_absent cx n chunk early s : rd_size s.2 = -1 -> rd_body s.2 = None -> holds s.1 s.2 None ->
  outcome (Read st cx n chunk early) s (fun _ _ => False) (fun e s' => still s s' /\ (e = ErrBlobNotFound \/ failure e)).
Proof.
  intros Hz Hb Ho. unfold Read. apply outcome_bind. unfold reader at 1, outcome at 1. rewrite Hz, Hb. cbn [Z.leb andb]. rewrite bool_decide_eq_true_2 by done.
  cbn [orb]. apply outcome_bind. unfold openStream. apply outcome_bind. unfold set_reader at 1, outcome at 1. cbn [fst snd].
  apply outcome_bind. unfold reader, outcome at 1. apply outcome_bind, outcome_service. cbn [fst snd with_body rd_key]. set (r := get_request _ _ _).
  eapply outcome_weaken; [apply retry_read; by left| |].
  - intros a s' (h & s1 & status & len & cr & body & ends & Ho1 & Ho' & -> & Hd). apply do_get in Hd as [_ H200]; [|reflexivity].
    change (rq_url r) with (objectURL st (rd_key s.2)) in H200. rewrite <- Ho1 in H200. unfold holds in Ho. rewrite Ho in H200.
    destruct (Z.eqb_spec status 404) as [E4|_]; [by split; [|left]|]. destruct (Z.eqb_spec status 200) as [E2|_]; [by destruct H200 as (obj & [=] & _); left|].
    destruct (Z.eqb_spec status 206) as [E2|_]; [by destruct H200 as (obj & [=] & _); right|]. by split; [|right].
  - intros e s' [Ho' He]. split; [done|right; by apply failed_failure].
Qed.
Lemma still_holds s s' obj : still s s' -> holds s.1 s.2 obj -> holds s'.1 s'.2 obj.
Proof. unfold still, holds. by intros [-> ->]. Qed.
Lemma still_trans s1 s2 s3 : still s1 s2 -> still s2 s3 -> still s1 s3.
Proof. unfold still. intros [-> ->] [-> ->]. done. Qed.
Lemma read_all_outcome calls acc tail s : Forall (fun c => 1 <= c.1.1.2)%nat calls -> (length tail < length calls)%nat ->
  reading acc tail s.2 -> holds s.1 s.2 (Some (acc ++ tail)) -> Z.of_nat (length (acc ++ tail)) <= max_int64 ->
  outcome (read_all st calls acc) s (fun l s' => still s s' /\ l = acc ++ tail) (fun e s' => still s s' /\ failure e).
Proof.
  intros Hn. revert acc tail s. induction Hn as [|[[[cx n] chunk] early] calls Hn _ IH]; intros acc tail s Hl Hr Ho Hmax; [cbn in Hl; lia|].
  cbn [read_all]. apply outcome_bind. eapply outcome_weaken; [by apply (Read_outcome cx n chunk early acc tail)| |done].
  intros [got stop] s1 (Hs & tail' & -> & Hstop). cbn [fst snd] in *. rewrite app_assoc in *. destruct stop as [| |e].
  - destruct Hstop as (Hgot & Hr1 & _). eapply outcome_weaken; [apply (IH (acc ++ got) tail')| |].
    + rewrite length_app in Hl. destruct got; [done|cbn [length] in *; lia].
    + done.
    + by eapply still_holds.
    + done.
    + intros l s2 [Hs2 ->]. split; [by eapply still_trans|done].
    + intros e s2 [Hs2 He]. split; [by eapply still_trans|done].
  - subst tail'. unfold outcome, mret_st. by rewrite app_nil_r.
  - by split.
Qed.

(** *** The store and the file-system store *)

Inductive blob_call := CPut (tenantID : Z) (data : string) | CDelete (tenantID : Z) (ref : string)
  | CGet (tenantID : Z) (ref : string) (calls : list (s3_ctx * nat * nat * bool)).
Definition s3_call (cx : s3_ctx) (c : blob_call) : stM service (string * Z) :=
  match c with
  | CPut t data => Put st sha256_hex cx t (Ok data)
  | CDelete t ref => do! Delete st cx t ref; mret_st (EmptyString, 0)
  | CGet t ref calls => let! data := get_all st t ref calls in mret_st (data, 0)
  end.
Definition fs_call (c : blob_call) (fs : gmap (Z * string) string) : result (string * Z) * gmap (Z * string) string :=
  match c with
  | CPut t data => Fs.Put sha256_hex t data fs
  | CDelete t ref => match Fs.Delete t ref fs with (Ok _, fs) => (Ok (EmptyString, 0), fs) | (Err e, fs) => (Err e, fs) end
  | CGet t ref _ => (match Fs.Open t ref fs with Ok data => Ok (data, 0) | Err e => Err e end, fs)
  end.
(** Tenants are positive; the references that [Put] makes are well formed and do not collide; a
    reader makes as many calls as the object has bytes, and one more. *)
Definition call_ok (fs : gmap (Z * string) string) (c : blob_call) : Prop :=
  match c with
  | CPut t data => tenant_ok t /\ Valid (sha256_hex data) = true /\ forall d, fs !! (t, sha256_hex data) = Some d -> d = data
  | CDelete t _ => tenant_ok t
  | CGet t ref calls => tenant_ok t /\ Forall (fun c => 1 <= c.1.1.2)%nat calls /\
      match fs !! (t, ref) with Some obj => (String.length obj < length calls)%nat /\ Z.of_nat (String.length obj) <= max_int64 | None => calls <> [] end
  end.
(** The store answers what the file-system store answers, or fails; in either case the objects
    are those before the call or those after it. *)
Definition as_fs (c : blob_call) (fs : gmap (Z * string) string) (r : result (string * Z)) (s' : service) : Prop :=
  match r with
  | Ok x => (fs_call c fs).1 = Ok x /\ shows s' (fs_call c fs).2
  | Err e => ((fs_call c fs).1 = Err e \/ failure e) /\ (shows s' fs \/ shows s' (fs_call c fs).2)
  end.
Lemma as_fs_outcome c cx fs s : outcome (s3_call cx c) s (fun x s' => as_fs c fs (Ok x) s') (fun e s' => as_fs c fs (Err e) s') ->
  let '(r, s') := s3_call cx c s in as_fs c fs r s'.
Proof. unfold outcome. by destruct (s3_call cx c s) as [[x|e] s']. Qed.

Lemma put_refines cx t data fs s : call_ok fs (CPut t data) -> shows s fs ->
  let '(r, s') := s3_call cx (CPut t data) s in as_fs (CPut t data) fs r s'.
Proof.
  intros (Ht & Hv & Hcol) Hs. apply as_fs_outcome. unfold as_fs. cbn [s3_call fs_call]. unfold Put, Fs.Put, Fs.path. set (ref := sha256_hex data) in *.
  pose proof (Hs t ref Ht Hv) as Hobj. set (object := key st t ref) in *.
  assert (Hput : forall s1, objects s1 = objects s ->
    outcome (let! a := retryDo st cx object (mkReq "PUT" (objectURL st object) None ref data) in
             match a with Response status _ _ _ _ => if negb (status =? 200) then merr_st (ErrText "s3 put") else mret_st (ref, Z.of_nat (String.length data)) | NoAnswer => merr_st s3_failed end) s1
      (fun x s' => x = (ref, Z.of_nat (String.length data)) /\ shows s' (<[(t, ref) := data]> fs))
      (fun e s' => failure e /\ (shows s' fs \/ shows s' (<[(t, ref) := data]> fs)))).
  { intros s1 E1. assert (Hm : forall s', at_most (insert (objectURL st object) data) (objects s1) (objects s') -> shows s' fs \/ shows s' (<[(t, ref) := data]> fs)).
    { rewrite E1. intros s' [E|E]; [left; by eapply shows_same|right; by eapply shows_insert]. }
    apply outcome_bind. eapply outcome_weaken; [apply put_outcome| |].
    - intros a s' (status & len & cr & body & ends & -> & Ha & H200). destruct (Z.eqb_spec status 200) as [E2|]; cbn [negb]; [|by split; [|apply Hm]].
      split; [done|]. eapply shows_insert; [done..|]. by rewrite <- E1, (H200 E2).
    - intros e s' [Ha He]. split; [done|by apply Hm]. }
  assert (Hins : forall d, fs !! (t, ref) = Some d -> <[(t, ref) := data]> fs = fs) by (intros d Hd; rewrite (Hcol d Hd) in Hd; by apply insert_id).
  assert (Hfs : match fs !! (t, ref) with Some _ => (Ok (ref, Z.of_nat (String.length data)), fs) | None => (Ok (ref, Z.of_nat (String.length data)), <[(t, ref) := data]> fs) end
                = (Ok (ref, Z.of_nat (String.length data)), <[(t, ref) := data]> fs)) by (destruct (fs !! (t, ref)) eqn:Ef; [by erewrite Hins|done]).
  rewrite Hfs. cbn [fst snd]. pose proof (head_outcome cx object s) as Hh. unfold outcome in Hh |- * at 1.
  destruct (head st cx object s) as [[[[] n]|e] s1].
  - destruct Hh as [E1 Hh]. rewrite Hobj in Hh. destruct (fs !! (t, ref)) as [d|] eqn:Ef; [|done]. split; [done|].
    rewrite (Hins d eq_refl). by eapply shows_same.
  - specialize (Hput s1 (proj1 Hh)). eapply outcome_weaken in Hput; [exact Hput| |]; cbn beta.
    + intros x s' [-> Hx]. done.
    + intros e s' [He Hx]. split; [by right|done].
  - specialize (Hput s1 (proj1 Hh)). eapply outcome_weaken in Hput; [exact Hput| |]; cbn beta.
    + intros x s' [-> Hx]. done.
    + intros e' s' [He Hx]. split; [by right|done].
Qed.
Lemma delete_refines cx t ref fs s : call_ok fs (CDelete t ref) -> shows s fs ->
  let '(r, s') := s3_call cx (CDelete t ref) s in as_fs (CDelete t ref) fs r s'.
Proof.
  intros Ht Hs. cbn in Ht. apply as_fs_outcome. unfold as_fs. cbn [s3_call fs_call]. apply outcome_bind. unfold Delete, Fs.Delete, Fs.path.
  destruct (Valid ref) eqn:Hv; cbn [negb fst snd]; [|by split; left].
  assert (Hm : forall s', at_most (delete (objectURL st (key st t ref))) (objects s) (objects s') -> shows s' fs \/ shows s' (delete (t, ref) fs)).
  { intros s' [E|E]; [left; by eapply shows_same|right; by eapply shows_delete]. }
  apply outcome_bind. eapply outcome_weaken; [apply delete_outcome| |].
  - intros a s' (status & len & cr & body & ends & -> & Ha & H200).
    destruct (negb (status =? 204) && negb (status =? 200)) eqn:Est; [split; [by right|by apply Hm]|].
    split; [done|]. eapply shows_delete; [done..|]. apply H200. lia.
  - intros e s' [Ha He]. split; [by right|by apply Hm].
Qed.
Lemma get_refines cx t ref calls fs s : call_ok fs (CGet t ref calls) -> shows s fs ->
  let '(r, s') := s3_call cx (CGet t ref calls) s in as_fs (CGet t ref calls) fs r s'.
Proof.
  intros (Ht & Hn & Hcalls) Hs. apply as_fs_outcome. unfold as_fs. cbn [s3_call fs_call fst snd]. apply outcome_bind. unfold get_all, Open, Fs.Open, Fs.path.
  destruct (Valid ref) eqn:Hv; cbn [negb]; [|by split; left]. set (rd := mkRd _ _ _ _ _). pose proof (Hs t ref Ht Hv) as Hobj.
  destruct (fs !! (t, ref)) as [obj|] eqn:Ef.
  - destruct Hcalls as [Hlen Hmax]. rewrite <- length_bytes_of in Hlen, Hmax.
    assert (Ha : outcome (read_all st calls []) (s, rd) (fun l s' => still (s, rd) s' /\ l = bytes_of obj) (fun e s' => still (s, rd) s' /\ failure e)).
    { apply (read_all_outcome calls [] (bytes_of obj)); [done|done| | |done].
      - split; [done|]. split; [by left|]. done.
      - unfold holds. cbn [fst snd rd rd_key fmap option_fmap option_map app]. by rewrite Hobj, str_of_bytes_of. }
    unfold outcome in Ha |- *. destruct (read_all st calls [] (s, rd)) as [[l|e] s'].
    + destruct Ha as [[E _] ->]. unfold mret_st. cbn [fst snd] in *. rewrite str_of_bytes_of. split; [done|by eapply shows_same].
    + destruct Ha as [[E _] He]. cbn [fst snd] in *. split; [by right|left; by eapply shows_same].
  - destruct calls as [|[[[cx' n] chunk] early] calls]; [done|].
    assert (Ha : outcome (read_all st ((cx', n, chunk, early) :: calls) []) (s, rd) (fun _ _ => False)
      (fun e s' => still (s, rd) s' /\ (e = ErrBlobNotFound \/ failure e))).
    { cbn [read_all]. apply outcome_bind. eapply outcome_weaken; [by apply Read_absent|by intros|by intros]. }
    unfold outcome in Ha |- *. destruct (read_all st _ [] (s, rd)) as [[l|e] s']; [done|].
    destruct Ha as [[E _] He]. cbn [fst snd] in *. split; [destruct He as [->|He]; [by left|by right]|left; by eapply shows_same].
Qed.

(** [C20] A call of the store does what the call does to the file-system store, or fails with an error
    that is not [ErrNotFound]; a failed call has changed nothing or has been carried out. *)
Theorem s3_refines_fs c cx fs s : call_ok fs c -> shows s fs -> let '(r, s') := s3_call cx c s in as_fs c fs r s'.
Proof. destruct c; [apply put_refines|apply delete_refines|apply get_refines]. Qed.

(** *** A service that answers *)

(** The requests that a store makes for one of its blobs, reads from the middle of one apart. *)
Inductive blob_request : string -> s3_request -> Prop :=
| blob_head object : blob_request object (mkReq "HEAD" (objectURL st object) None emptyHash EmptyString)
| blob_get object : blob_request object (get_request st object None)
| blob_put object data : blob_request object (mkReq "PUT" (objectURL st object) None (sha256_hex data) data)
| blob_delete object : blob_request object (mkReq "DELETE" (objectURL st object) None emptyHash EmptyString).
Definition own_request (object : string) (r : s3_request) : Prop :=
  (exists t ref, tenant_ok t /\ Valid ref = true /\ object = key st t ref) /\ blob_request object r.
Definition good_answer (method : string) (a : answer) : Prop :=
  match a with
  | NoAnswer => False
  | Response status _ _ _ ends =>
      if String.eqb method "PUT" then status = 200
      else if String.eqb method "DELETE" then status = 204 \/ status = 200
      else (status = 404 \/ status = 200 \/ status = 206 /\ method = "GET"%string) /\ ends = Clean
  end.
(** From attempt [n] on the service fails [k] times and then gives the answer [a]. *)
Inductive answers_after (cx : s3_ctx) (object : string) (r : s3_request) : nat -> nat -> service -> answer -> service -> Prop :=
| answers_now n s a s' : Do r (sign st (cx_date cx n) object r) s = (a, s') -> good_answer (rq_method r) a -> answers_after cx object r n 0 s a s'
| answers_later n k s a0 s1 a s' : Do r (sign st (cx_date cx n) object r) s = (a0, s1) ->
    match a0 with Response status _ _ _ _ => retryableStatus status = true | NoAnswer => True end ->
    answers_after cx object r (S n) k s1 a s' -> answers_after cx object r n (S k) s a s'.
(** A service that stays in good order, [P], while the context lasts, answers each request of the
    store, signed as the store signs it, in one of the attempts. *)
Record responsive (P : service -> Prop) (cx : s3_ctx) : Prop := {
  re_lasts n : cx_done cx n = false;
  re_stays n object r s a s' : own_request object r -> P s -> Do r (sign st (cx_date cx n) object r) s = (a, s') -> P s';
  re_answers object r s : own_request object r -> P s ->
    exists k a s', (k < s3_maxAttempts st)%nat /\ answers_after cx object r 0 k s a s' }.

Lemma attempts_answered cx object r n k s a s' fuel : (forall n, cx_done cx n = false) -> answers_after cx object r n k s a s' -> (k < fuel)%nat ->
  attempts st cx object r fuel n s = (Ok a, s') /\ good_answer (rq_method r) a.
Proof.
  intros Hcx Ha. revert fuel. induction Ha as [n s a s' Hd Hg|n k s a0 s1 a s' Hd Hf _ IH]; intros [|fuel] Hk; try lia;
    cbn [attempts]; rewrite Hcx, andb_false_r, Hd.
  - destruct a as [status len cr body ends|]; [|done]. split; [|done]. assert (retryableStatus status = false) as ->; [|done].
    cbn in Hg. unfold retryableStatus. destruct (String.eqb _ _); [by subst|]. destruct (String.eqb _ _); [by destruct Hg; subst|].
    destruct Hg as [[?|[?|[? _]]] _]; by subst.
  - destruct a0 as [status len cr body ends|].
    + rewrite Hf. destruct (Nat.eqb_spec fuel 0); [lia|]. cbn [negb andb]. apply IH. lia.
    + rewrite Hcx. apply IH. lia.
Qed.
Lemma answers_stay P cx object r n k s a s' : responsive P cx -> own_request object r -> P s -> answers_after cx object r n k s a s' -> P s'.
Proof. intros Hr Ho Hs Ha. induction Ha as [n s a s' Hd _|n k s a0 s1 a s' Hd _ _ IH]; [|apply IH]; by eapply re_stays. Qed.
Lemma retry_answered P cx object r s : responsive P cx -> own_request object r -> P s ->
  outcome (retryDo st cx object r) s (fun a s' => good_answer (rq_method r) a /\ P s') (fun _ _ => False).
Proof.
  intros Hr Ho Hs. destruct (re_answers _ _ Hr object r s Ho Hs) as (k & a & s' & Hk & Ha).
  destruct (attempts_answered _ _ _ _ _ _ _ _ _ (re_lasts _ _ Hr) Ha Hk) as [E Hg].
  unfold outcome, retryDo. rewrite E. split; [done|]. by eapply answers_stay.
Qed.
Lemma outcome_and {S A} (m : stM S A) s (Q Q' : A -> S -> Prop) (E E' : err -> S -> Prop) :
  outcome m s Q E -> outcome m s Q' E' -> outcome m s (fun a s' => Q a s' /\ Q' a s') (fun e s' => E e s' /\ E' e s').
Proof. unfold outcome. destruct (m s) as [[a|e] s']; auto. Qed.

Section Answered.
Variable P : service -> Prop.
Variables (t : Z) (ref : string).
Hypotheses (Ht : tenant_ok t) (Hv : Valid ref = true).
Lemma own_key r : blob_request (key st t ref) r -> own_request (key st t ref) r.
Proof. intros Hb. split; [by exists t, ref|done]. Qed.

(** The errors that are answers. *)
Definition benign (e : err) : Prop := e = ErrBlobNotFound \/ e = ErrBadRef \/ e = unread.
Lemma head_answered cx s : responsive P cx -> P s ->
  outcome (head st cx (key st t ref)) s (fun _ s' => P s') (fun _ _ => False).
Proof.
  intros Hr Hs. unfold head. apply outcome_bind. eapply outcome_weaken; [apply (retry_answered P); [done|apply own_key; constructor|done]| |done].
  intros [status len cr body ends|] s' [Hg Hs']; [|done]. cbn in Hg. destruct Hg as [[->|[->|[_ [=]]]] _]; exact Hs'.
Qed.
Definition clean_body (rd : s3Reader) : Prop := forall b e, rd_body rd = Some (b, e) -> e = Clean.
(** A reader at its start or in the middle of a body. *)
Definition ready (rd : s3Reader) : Prop :=
  rd_key rd = key st t ref /\ clean_body rd /\ (rd_off rd = 0 \/ rd_body rd <> None /\ rd_bodyAt rd = rd_off rd).
Lemma openStream_answered cx s : responsive P cx -> P s.1 -> rd_key s.2 = key st t ref ->
  outcome (openStream st cx 0) s (fun _ s' => P s'.1 /\ clean_body s'.2 /\ rd_body s'.2 <> None) (fun e _ => benign e).
Proof.
  intros Hr Hs Hk. unfold openStream. apply outcome_bind. unfold set_reader at 1, outcome at 1. apply outcome_bind. unfold reader, outcome at 1.
  apply outcome_bind, outcome_service. cbn [fst snd with_body rd_key]. rewrite Hk.
  eapply outcome_weaken; [apply (retry_answered P); [done|apply own_key; constructor|done]| |done].
  intros [status len cr body ends|] s' [Hg Hs']; [|done]. cbn in Hg. destruct Hg as [Hst ->].
  destruct (Z.eqb_spec status 404); [by left|]. destruct (negb (status =? 200) && negb (status =? 206)) eqn:E; [lia|].
  unfold set_reader, outcome. cbn [fst snd with_body rd_body]. split; [done|]. split; [|done]. by intros b e [= <- <-].
Qed.
Lemma Read_answered cx n chunk early s : responsive P cx -> P s.1 -> ready s.2 ->
  outcome (Read st cx n chunk early) s (fun x s' => P s'.1 /\ clean_body s'.2 /\ forall e, x.2 <> Failed e) (fun e _ => benign e).
Proof.
  intros Hr Hs (Hk & Hc & Hat). unfold Read. apply outcome_bind. unfold reader at 1, outcome at 1. destruct (_ && _); [by split_and!|]. apply outcome_bind.
  assert (Ho : outcome (if bool_decide (rd_body s.2 = None) || negb (rd_bodyAt s.2 =? rd_off s.2) then openStream st cx (rd_off s.2) else mret_st tt) s
    (fun _ s' => P s'.1 /\ clean_body s'.2 /\ rd_body s'.2 <> None) (fun e _ => benign e)).
  { destruct (bool_decide _ || _) eqn:Eb.
    - destruct Hat as [->|[Hb Hat]]; [by apply openStream_answered|]. rewrite Hat, Z.eqb_refl, orb_false_r in Eb. by apply bool_decide_eq_true in Eb.
    - apply orb_false_elim in Eb as [Eb _]. by apply bool_decide_eq_false in Eb. }
  eapply outcome_weaken; [exact Ho| |done]. intros _ s1 (Hs1 & Hc1 & Hb). apply outcome_bind. unfold reader at 1, outcome at 1.
  destruct (rd_body s1.2) as [[b ends]|] eqn:Eb; [|done]. rewrite (Hc1 _ _ Eb) in *.
  destruct (body_Read n chunk early (b, Clean)) as [[got stop] b'] eqn:Er. apply outcome_bind. unfold set_reader at 1, outcome at 1.
  assert (Hb' : b'.2 = Clean /\ forall e, stop <> Failed e).
  { unfold body_Read in Er. cbn [fst snd] in Er. injection Er as <- <- <-. split; [done|]. intros e. destruct b; [done|]. destruct (drop _ _); [by destruct early|done]. }
  destruct Hb' as [Hb' Hstop]. destruct b' as [b' e']. cbn [snd] in Hb'. subst e'. destruct stop as [| |e]; [|apply outcome_bind|by destruct (Hstop e)].
  - split; [done|]. split; [|done]. by intros ? ? [= <- <-].
  - unfold set_reader at 1, outcome at 1. apply outcome_bind. unfold reader, outcome at 1. cbn [fst snd].
    assert (Hnone : forall rd : s3Reader, clean_body (with_body None (rd_bodyAt rd) rd)) by (intros rd b0 e0 [=]).
    match goal with |- outcome (if ?c then _ else if ?d then _ else _) _ _ _ => destruct c; [|destruct d] end;
      unfold outcome, mret_st; (split; [done|split; [apply Hnone|done]]).
Qed.
Lemma read_all_answered calls acc tail s : Forall (fun c => 1 <= c.1.1.2)%nat calls -> Forall (fun c => responsive P c.1.1.1) calls ->
  reading acc tail s.2 -> holds s.1 s.2 (Some (acc ++ tail)) -> Z.of_nat (length (acc ++ tail)) <= max_int64 -> P s.1 -> ready s.2 ->
  outcome (read_all st calls acc) s (fun _ _ => True) (fun e _ => benign e).
Proof.
  intros Hn. revert acc tail s. induction Hn as [|[[[cx n] chunk] early] calls Hn _ IH]; intros acc tail s Hr Hrd Ho Hmax Hs Hready; [by right; right|].
  inversion Hr as [|? ? Hcx Hr']; subst. cbn [read_all]. apply outcome_bind.
  eapply outcome_weaken; [apply outcome_and; [by apply (Read_outcome cx n chunk early acc tail)|by apply Read_answered]| |by intros e s' [_ He]].
  intros [got stop] s1 [(Hst & tail' & -> & Hstop) (Hs1 & Hc1 & Hf)]. cbn [fst snd] in *. rewrite app_assoc in *. destruct stop as [| |e]; [|done|by destruct (Hf e)].
  destruct Hstop as (_ & Hr1 & Hb & Hat). apply (IH (acc ++ got) tail'); [done|done|by eapply still_holds|done|done|].
  split; [destruct Hst as [_ ->]; apply Hready|]. split; [done|by right].
Qed.
End Answered.

Lemma put_answered P cx t data s : responsive P cx -> tenant_ok t -> Valid (sha256_hex data) = true -> P s ->
  outcome (s3_call cx (CPut t data)) s (fun _ _ => True) (fun e _ => benign e).
Proof.
  intros Hr Ht Hv Hs. cbn [s3_call]. unfold Put. pose proof (head_answered P t _ Ht Hv cx s Hr Hs) as Hh. unfold outcome in Hh |- * at 1.
  assert (Hput : forall s1, P s1 -> outcome (let! a := retryDo st cx (key st t (sha256_hex data)) (mkReq "PUT" (objectURL st (key st t (sha256_hex data))) None (sha256_hex data) data) in
    match a with Response status _ _ _ _ => if negb (status =? 200) then merr_st (ErrText "s3 put") else mret_st (sha256_hex data, Z.of_nat (String.length data)) | NoAnswer => merr_st s3_failed end) s1
    (fun _ _ => True) (fun e _ => benign e)).
  { intros s1 Hs1. apply outcome_bind. eapply outcome_weaken; [apply (retry_answered P); [done|apply own_key; [done|done|constructor]|done]| |done].
    intros [status len cr body ends|] s' [Hg _]; [|done]. cbn in Hg. by subst status. }
  destruct (head st cx _ s) as [[[[] n]|e] s1]; [done|by apply Hput|done].
Qed.
Lemma get_answered P cx t ref calls fs s : call_ok fs (CGet t ref calls) -> shows s fs -> P s -> Forall (fun c => responsive P c.1.1.1) calls ->
  outcome (s3_call cx (CGet t ref calls)) s (fun _ _ => True) (fun e _ => benign e).
Proof.
  intros (Ht & Hn & Hcalls) Hsh Hs Hr. cbn [s3_call]. apply outcome_bind. unfold get_all, Open. destruct (Valid ref) eqn:Hv; cbn [negb]; [|by right; left].
  set (rd := mkRd _ _ _ _ _). pose proof (Hsh t ref Ht Hv) as Hobj. assert (Hready : ready t ref rd) by (split; [done|split; [by intros b e [=]|by left]]).
  assert (Ha : outcome (read_all st calls []) (s, rd) (fun _ _ => True) (fun e _ => benign e)).
  { destruct (fs !! (t, ref)) as [obj|] eqn:Ef.
    - destruct Hcalls as [_ Hmax]. rewrite <- length_bytes_of in Hmax.
      apply (read_all_answered P t ref Ht Hv calls [] (bytes_of obj)); [done|done| | |done|done|done].
      + split; [done|]. split; [by left|]. done.
      + unfold holds. cbn [fst snd rd rd_key fmap option_fmap option_map app]. by rewrite Hobj, str_of_bytes_of.
    - destruct Hr as [|[[[cx' n] chunk] early] calls Hcx _]; [done|]. cbn [read_all]. apply outcome_bind.
      eapply outcome_weaken; [apply outcome_and; [by apply (Read_absent cx' n chunk early (s, rd))|by apply (Read_answered P t ref)]| |by intros e s' [_ He]].
      by intros x s' [[] _]. }
  unfold outcome in Ha |- *. destruct (read_all st calls [] (s, rd)) as [[l|e] s']; [done|exact Ha].
Qed.
Lemma delete_answered P cx t ref s : responsive P cx -> tenant_ok t -> P s ->
  outcome (s3_call cx (CDelete t ref)) s (fun _ _ => True) (fun e _ => benign e).
Proof.
  intros Hr Ht Hs. cbn [s3_call]. apply outcome_bind. unfold Delete. destruct (Valid ref) eqn:Hv; cbn [negb]; [|by right; left]. apply outcome_bind.
  eapply outcome_weaken; [apply (retry_answered P); [done|apply own_key; [done|done|constructor]|done]| |done].
  intros [status len cr body ends|] s' [Hg _]; [|done]. cbn in Hg. by destruct Hg as [-> | ->].
Qed.

(** [C21] On a service that answers each request of the store in one of its attempts, however it fails in
    the others, each call gives the answer of the file-system store, its errors included, and leaves
    the objects as it leaves the files. *)
Theorem s3_answers_as_fs P c cx fs s : call_ok fs c -> shows s fs -> P s -> responsive P cx ->
  match c with CGet _ _ calls => Forall (fun c => responsive P c.1.1.1) calls | _ => True end ->
  (s3_call cx c s).1 = (fs_call c fs).1 /\ shows (s3_call cx c s).2 (fs_call c fs).2.
Proof.
  intros Hok Hs HP Hr Hc. assert (Hf : let '(r, s') := s3_call cx c s in as_fs c fs r s').
  { destruct c; [by apply put_refines|by apply delete_refines|by apply get_refines]. }
  assert (Ha : outcome (s3_call cx c) s (fun _ _ => True) (fun e _ => benign e)).
  { destruct c; [destruct Hok as (? & ? & _); by apply (put_answered P)|by apply (delete_answered P)|by eapply (get_answered P)]. }
  unfold outcome in Ha. destruct (s3_call cx c s) as [[x|e] s']; cbn [fst snd].
  - by destruct Hf as [-> ?].
  - destruct Hf as [Hf Hsh]. assert (E : (fs_call c fs).1 = Err e) by (destruct Hf as [E|(N1 & N2 & N3)]; [done|by destruct Ha as [->|[->| ->]]]).
    split; [done|]. assert (E2 : (fs_call c fs).2 = fs).
    { destruct c; cbn [fs_call] in *; [unfold Fs.Put in E; cbv zeta in E; by destruct (fs !! Fs.path tenantID _)| |done]. unfold Fs.Delete in *. by destruct (negb (Valid ref)). }
    rewrite E2 in *. by destruct Hsh.
Qed.
End StoreSpec.

(** ** A service that fails every other request *)

Definition ex_answer (r : s3_request) (m : gmap string string) : answer * gmap string string :=
  let u := rq_url r in
  if String.eqb (rq_method r) "PUT" then (Response 200 0 EmptyString EmptyString Clean, <[u := rq_body r]> m)
  else if String.eqb (rq_method r) "DELETE" then (Response 204 0 EmptyString EmptyString Clean, delete u m)
  else match m !! u with
  | None => (Response 404 (-1) EmptyString EmptyString Clean, m)
  | Some obj =>
      let data := str_of (slice (rq_range r) (bytes_of obj)) in
      let status := match rq_range r with None => 200 | Some _ => if String.eqb (rq_method r) "GET" then 206 else 200 end in
      let len := if String.eqb (rq_method r) "HEAD" then String.length obj else String.length data in
      (Response status (Z.of_nat len) EmptyString data Clean, m)
  end.
(** Whether the next request fails, and the objects. *)
#[local] Instance ex_service : S3Service := {
  service := bool * gmap string string;
  Do r _ s := if s.1 then (NoAnswer, (false, s.2)) else let '(a, m) := ex_answer r s.2 in (a, (true, m));
  objects := snd }.
#[local] Instance ex_s3_laws : S3Laws.
Proof.
  split; cbn [Do ex_service objects service]; unfold ex_answer.
  - intros [m u rng p b] h [[] o] a s' Hm; cbn [fst snd rq_method rq_url rq_range rq_body] in *; [by intros [= <- <-]|].
    destruct Hm as [-> | ->]; cbn [String.eqb Ascii.eqb Bool.eqb]; destruct (o !! u); by intros [= <- <-].
  - intros [m u rng p b] h [[] o] status len cr body ends s' Hm; cbn [fst snd rq_method rq_url rq_range rq_body] in *; [done|]. subst m.
    cbn [String.eqb Ascii.eqb Bool.eqb]. destruct (o !! u) as [obj|] eqn:E; intros [= <- <- <- <- <- <-]; [|by split; [|intros [[=]|[=]]]].
    split; [by destruct rng|]. intros _. exists obj. split; [done|]. split; [by destruct rng|]. unfold carries.
    rewrite bytes_of_str_of, <- length_bytes_of, bytes_of_str_of. split_and!; [done|done|by right|by left].
  - intros [m u rng p b] h [[] o] status len cr body ends s' Hm; cbn [fst snd rq_method rq_url rq_range rq_body] in *; [done|]. subst m.
    cbn [String.eqb Ascii.eqb Bool.eqb]. destruct (o !! u) as [obj|] eqn:E; intros [= <- <- <- <- <- <-]; [|by split; [|intros [=]]].
    split; [by destruct rng|]. intros _. by exists obj.
  - intros [m u rng p b] h [[] o] a s' Hm; cbn [fst snd rq_method rq_url rq_range rq_body] in *; [by intros [= <- <-]; split; [left|]|]. subst m.
    cbn [String.eqb Ascii.eqb Bool.eqb]. intros [= <- <-]. split; [by right|done].
  - intros [m u rng p b] h [[] o] a s' Hm; cbn [fst snd rq_method rq_url rq_range rq_body] in *; [by intros [= <- <-]; split; [left|]|]. subst m.
    cbn [String.eqb Ascii.eqb Bool.eqb]. intros [= <- <-]. split; [by right|done].
Qed.
#[local] Instance ex_s3_sha : Sha256.
Proof. refine {| sha256 := fun l => take 32 (rev l ++ replicate 32 "y"%char) |}. intros l. rewrite length_take, length_app, length_replicate. lia. Defined.
#[local] Instance ex_s3_hmac : Hmac := { hmac_sha256 := fun k m => take 32 (rev (bytes_of m) ++ replicate 32 "x"%char) }.
#[local] Instance ex_s3_xml : XmlErrors := { xml_error := fun _ => None }.

Definition ex_store : s3Store := mkS3 "https://s3.example/mail" "s3.example" "/mail" "eu" "mail" "prod/eu" "AK" "SK" EmptyString 4.
Definition ex_cx : s3_ctx := mkCtx (fun _ => false) (fun _ => ("20260101", "20260101T000000Z")%string).
Definition ex_hash : string := emptyHash.
Definition ex_url : string := objectURL ex_store (key ex_store 7 ex_hash).
Definition ex_state (fails : bool) (m : gmap string string) : @service ex_service := (fails, m).
Lemma ex_now cx object r n m : blob_request ex_store (fun _ => ex_hash) object r ->
  answers_after ex_store cx object r n 0 (ex_state false m) (ex_answer r m).1 (ex_state true (ex_answer r m).2).
Proof.
  intros Hm. apply answers_now; [cbn [Do ex_service ex_state fst snd]; by destruct (ex_answer r m)|]. destruct Hm as [object|object|object data|object].
  - unfold ex_answer. cbn [rq_method rq_url rq_range rq_body String.eqb Ascii.eqb Bool.eqb]. destruct (m !! _); (split; [|done]); [by right; left|by left].
  - unfold ex_answer, get_request. cbn [rq_method rq_url rq_range rq_body String.eqb Ascii.eqb Bool.eqb]. destruct (m !! _); (split; [|done]); [by right; left|by left].
  - done.
  - by left.
Qed.
Lemma ex_responsive : responsive ex_store (fun _ => ex_hash) (fun _ => True) ex_cx.
Proof.
  split; [done|done|]. intros object r [[] m] [_ Hm] _.
  - exists 1%nat. do 2 eexists. split; [cbn; lia|]. eapply answers_later; [reflexivity|done|by apply ex_now].
  - exists 0%nat. do 2 eexists. split; [cbn; lia|by apply ex_now].
Qed.
Lemma ex_empty b : shows ex_store (ex_state b ∅) ∅.
Proof. intros t ref _ _. cbn [objects ex_service ex_state snd]. by rewrite !lookup_empty. Qed.
Lemma ex_stored b : shows ex_store (ex_state b {[ex_url := "mail"%string]}) {[(7, ex_hash) := "mail"%string]}.
Proof. eapply (shows_insert ex_store (ex_state b ∅)); [apply ex_empty|unfold tenant_ok, max_int64; lia|vm_compute; reflexivity|done]. Qed.

Lemma s3_refines_fs_witness :
  let '(r, s') := s3_call ex_store (fun _ => ex_hash) ex_cx (CPut 7 "mail") (ex_state true ∅) in
  as_fs ex_store (fun _ => ex_hash) (CPut 7 "mail") ∅ r s' /\ r = Ok (ex_hash, 4) /\ objects s' !! ex_url = Some "mail"%string.
Proof.
  pose proof (s3_refines_fs ex_store (fun _ => ex_hash) (CPut 7 "mail") ex_cx ∅ (ex_state true ∅)) as Hf.
  assert (Hr : (s3_call ex_store (fun _ => ex_hash) ex_cx (CPut 7 "mail") (ex_state true ∅)).1 = Ok (ex_hash, 4)) by (vm_compute; reflexivity).
  assert (Ho : objects (s3_call ex_store (fun _ => ex_hash) ex_cx (CPut 7 "mail") (ex_state true ∅)).2 !! ex_url = Some "mail"%string) by (vm_compute; reflexivity).
  destruct (s3_call _ _ _ _ _) as [r s']. cbn [fst snd] in *. split; [|by split]. apply Hf; [|apply ex_empty].
  split; [unfold tenant_ok, max_int64; lia|]. split; [vm_compute; reflexivity|]. intros d Hd. discriminate Hd.
Defined.

Definition ex_calls : list (s3_ctx * nat * nat * bool) := replicate 5 (ex_cx, 2%nat, 1%nat, false).
Lemma s3_answers_as_fs_witness :
  let c := CGet 7 ex_hash ex_calls in let s := (ex_state true {[ex_url := "mail"%string]}) in
  (s3_call ex_store (fun _ => ex_hash) ex_cx c s).1 = (fs_call (fun _ => ex_hash) c {[(7, ex_hash) := "mail"%string]}).1 /\
  (s3_call ex_store (fun _ => ex_hash) ex_cx c s).1 = Ok ("mail"%string, 0).
Proof.
  split; [|vm_compute; reflexivity].
  apply (s3_answers_as_fs ex_store (fun _ => ex_hash) (fun _ => True) (CGet 7 ex_hash ex_calls) ex_cx {[(7, ex_hash) := "mail"%string]} (ex_state true {[ex_url := "mail"%string]})).
  - split; [unfold tenant_ok, max_int64; lia|]. split; [repeat constructor; lia|]. rewrite lookup_singleton_eq. split; [vm_compute; lia|vm_compute; discriminate].
  - apply ex_stored.
  - done.
  - apply ex_responsive.
  - unfold ex_calls. cbn [replicate]. repeat constructor; apply ex_responsive.
Defined.

Lemma key_signed_as_sent_witness : normalizeS3PrefixPath "/prod/eu/" = Ok "prod/eu"%string /\
  s3EscapePath (key_in "prod/eu" 7 ex_hash) = key_in "prod/eu" 7 ex_hash /\ s3EscapePath "a b/c" = "a%20b/c"%string.
Proof.
  split; [vm_compute; reflexivity|]. split; [|vm_compute; reflexivity].
  apply (key_signed_as_sent "/prod/eu/"); [vm_compute; reflexivity|unfold tenant_ok, max_int64; lia|vm_compute; reflexivity].
Defined.

(** A body that is cut off: [ReadAt] gives two of the four bytes asked for, and no error. *)
#[local] Instance cut_service : S3Service := {
  service := unit; objects := fun _ => {[ex_url := "mail"%string]};
  Do r _ s := (if String.eqb (rq_method r) "HEAD" then Response 200 4 EmptyString EmptyString Clean else Response 206 4 EmptyString "ma" Cut, s) }.
Example short_read_at : (@ReadAt cut_service _ _ ex_store ex_cx 3 0 (tt, mkRd (key ex_store 7 ex_hash) (-1) 0 None 0)).1 = Ok (bytes_of "ma", More).
Proof. vm_compute. reflexivity. Qed.
