(* ===== verification/Gc.v ===== *)
(** * Garbage collection (storage/postgres/gc.go)

    [CollectGarbage] deletes a batch of expunged message rows with their
    projection and workflow rows in one statement, and then deletes the bodies
    that no remaining message row and no queue row refers to.  The deletion of
    bodies is outside the transaction: what other sessions do between the
    reference check and the deletion is a parameter. *)

From S2P Require Import Prelude GoStrings Shapes Changes Blob Database Tx Mailboxes Messages KernelInv KernelFlags Kernel KernelTx KernelDemo KernelSpec Queue Claims.

Local Open Scope go_scope.

Section Gc.
Context `{BlobOps}.

(** The tables of the store that collection touches; of [fts] and [thread_refs]
    only the (account, message) pairs that have rows. *)
Record World := mkWorld {
  g_db : DB; g_q : QDB; g_w : WDB; g_fts : gset (Z * Z); g_refs : gset (Z * Z); g_blobs : blob_state }.

(** [ORDER BY account_id, id] *)
Definition msg_order (x y : Message) : Prop :=
  m_AccountID x < m_AccountID y \/ (m_AccountID x = m_AccountID y /\ m_ID x <= m_ID y).
#[global] Instance msg_order_dec x y : Decision (msg_order x y).
Proof. unfold msg_order. apply _. Defined.

(** The rows of [WITH doomed], less those other transactions have locked. *)
Definition doomed (limit : Z) (locked : gset Z) (d : DB) : list Message :=
  take (Z.to_nat limit) (merge_sort msg_order
    (filter (fun m => m_Expunged m = true /\ m_ID m ∉ locked) (snd <$> map_to_list (db_messages d)))).

(** [EXISTS (SELECT 1 FROM messages live WHERE ... AND NOT live.expunged)] *)
Definition has_live (acc emailID : Z) (d : DB) : bool :=
  existsb (fun m => (m_AccountID m =? acc) && (EffectiveEmailID m =? emailID) && negb (m_Expunged m))
    (snd <$> map_to_list (db_messages d)).

(** Is a workflow row of this account and email deleted with the batch? *)
Definition goes (batch : list Message) (d : DB) (acc emailID : Z) : bool :=
  existsb (fun m => (m_AccountID m =? acc) && (EffectiveEmailID m =? emailID)) batch
  && negb (has_live acc emailID d).

Definition keep_workflow {V} (batch : list Message) (d : DB) (t : gmap (Z * Z) V) : gmap (Z * Z) V :=
  filter (fun kv => goes batch d kv.1.1 kv.1.2 = false) t.

Definition row_key (m : Message) : Z * Z := (m_AccountID m, m_ID m).

(** The deleting statement: what it returns, and the state after it. *)
Definition sweep (limit : Z) (locked : gset Z) (w : World) : list (Z * string) * World :=
  let d := g_db w in
  let batch := doomed limit locked d in
  let ids := m_ID <$> batch in
  let keys : gset (Z * Z) := list_to_set (row_key <$> batch) in
  let freed := omap (fun m => (fun row => (ar_tenant_id row, m_BlobRef m)) <$> db_accounts d !! m_AccountID m) batch in
  (freed,
   mkWorld (set_messages (filter (fun km => km.1 ∉ ids) (db_messages d)) d)
     (set_deliveries (filter (fun kd => goes batch d kd.1.1 (d_message_id kd.2) = false) (q_deliveries (g_q w))) (g_q w))
     (set_claims (keep_workflow batch d (w_claims (g_w w)))
       (set_agent (keep_workflow batch d (w_agent (g_w w)))
         (set_policy (keep_workflow batch d (w_policy (g_w w))) (g_w w))))
     (g_fts w ∖ keys) (g_refs w ∖ keys) (g_blobs w)).

(** The reference check. *)
Definition tenant_of (acc : Z) (d : DB) : option Z := ar_tenant_id <$> db_accounts d !! acc.
Definition referenced (tenantID : Z) (ref : string) (w : World) : bool :=
  existsb (fun m => bool_decide (tenant_of (m_AccountID m) (g_db w) = Some tenantID) && String.eqb (m_BlobRef m) ref)
    (snd <$> map_to_list (db_messages (g_db w)))
  || existsb (fun r => (r_tenant_id r =? tenantID) && String.eqb (r_blob_ref r) ref)
       (snd <$> map_to_list (q_rows (g_q w))).

Definition with_blobs (b : blob_state) (w : World) : World :=
  mkWorld (g_db w) (g_q w) (g_w w) (g_fts w) (g_refs w) b.

(** The loop over the freed references. [other r] is what other sessions do
    after the check of [r] and before its deletion. *)
Fixpoint reclaim (other : Z * string -> World -> World) (refs : list (Z * string)) (seen : list (Z * string))
    (removed : Z) (w : World) : result Z * World :=
  match refs with
  | [] => (Ok removed, w)
  | r :: refs =>
      if bool_decide (r ∈ seen) then reclaim other refs seen removed w
      else if referenced r.1 r.2 w then reclaim other refs (r :: seen) removed w
      else
        let w := other r w in
        let '(res, b) := blob_Delete r.1 r.2 (g_blobs w) in
        let w := with_blobs b w in
        match res with
        | Err e => (Err e, w)
        | Ok _ => reclaim other refs (r :: seen) (removed + 1) w
        end
  end.

(** The result on an error also carries the counts so far; they are not kept. *)
Definition CollectGarbage (other : Z * string -> World -> World) (limit : Z) (locked : gset Z) (w : World)
  : result (Z * Z) * World :=
  let limit := if limit <=? 0 then 1000 else limit in
  let '(freed, w) := sweep limit locked w in
  match reclaim other freed [] 0 w with
  | (Ok removed, w) => (Ok (Z.of_nat (length freed), removed), w)
  | (Err e, w) => (Err e, w)
  end.
End Gc.

(** ** What garbage collection may and must do

    Only expunged rows go; a body that a message or a queued message still
    refers to stays readable; a body nothing refers to is gone; the workflow rows
    of a live email stay; the counters stay right. *)


Section Gc.
Context `{BlobOps} `{!BlobLaws}.

(** Other sessions leave the store alone between a check and a deletion. *)
Definition undisturbed : Z * string -> World -> World := fun _ w => w.

(** ** The sweep *)

Lemma doomed_expunged limit locked d m : m ∈ doomed limit locked d ->
  m_Expunged m = true /\ exists k, db_messages d !! k = Some m.
Proof.
  intros Hin. apply elem_of_take in Hin as (i & Hin & _). apply list_elem_of_lookup_2 in Hin.
  rewrite (merge_sort_Permutation msg_order) in Hin. apply list_elem_of_filter in Hin as [[He _] Hin].
  split; [done|]. apply list_elem_of_fmap in Hin as ([k m'] & -> & Hk). apply elem_of_map_to_list in Hk. eauto.
Qed.

Lemma doomed_length limit locked d : Z.of_nat (length (doomed limit locked d)) <= Z.max 0 limit.
Proof. unfold doomed. rewrite length_take. lia. Qed.

(** A live row is not deleted. *)
Lemma live_not_doomed limit locked d k m :
  db_wf d -> db_messages d !! k = Some m -> m_Expunged m = false -> k ∉ m_ID <$> doomed limit locked d.
Proof.
  intros Hwf Hk Hl Hin. apply list_elem_of_fmap in Hin as (m' & -> & Hm').
  apply doomed_expunged in Hm' as [He [k' Hk']]. pose proof (wf_msg_key _ Hwf _ _ Hk') as [E _]. subst k'.
  congruence.
Qed.

Lemma agg_sweep (f : Message -> Z) limit locked d :
  db_wf d -> (forall m, m_Expunged m = true -> f m = 0) ->
  agg f (filter (fun km : Z * Message => km.1 ∉ m_ID <$> doomed limit locked d) (db_messages d)) = agg f (db_messages d).
Proof.
  intros Hwf Hf. apply agg_filter. intros k m Hk Hn. simpl in Hn. destruct (m_Expunged m) eqn:E; [auto|].
  exfalso. apply Hn. by eapply live_not_doomed.
Qed.

Lemma sweep_wf limit locked w : db_wf (g_db w) -> db_wf (g_db (sweep limit locked w).2).
Proof.
  intros Hwf. unfold sweep. cbn [snd g_db].
  set (t := filter (fun km : Z * Message => km.1 ∉ m_ID <$> doomed limit locked (g_db w)) (db_messages (g_db w))).
  assert (Hsub : forall k m, t !! k = Some m -> db_messages (g_db w) !! k = Some m).
  { intros k m Hk. by apply map_lookup_filter_Some in Hk as [? _]. }
  assert (Hagg : forall f, (forall m, m_Expunged m = true -> f m = 0) -> agg f t = agg f (db_messages (g_db w)))
    by (intros f Hf; by apply agg_sweep).
  split; [split|..]; cbn [set_messages db_mailboxes db_messages db_quota db_mailbox_ids db_message_ids].
  - apply (wf_mb_key _ Hwf).
  - intros k m Hk. by apply (wf_msg_key _ Hwf), Hsub.
  - intros k m Hk. by apply (wf_fk _ Hwf k), Hsub.
  - intros k m b Hk. apply (wf_uid _ Hwf k). by apply Hsub.
  - intros k1 k2 m1 m2 H1 H2. apply (ds_uid_unique _ (wf_struct _ Hwf)); by apply Hsub.
  - apply (wf_bound _ Hwf).
  - intros k m Hk. by apply (wf_size _ Hwf k), Hsub.
  - intros k b Hb. rewrite (wf_counts _ Hwf k b Hb). unfold counts_of.
    f_equal; symmetry; apply Hagg; intros m Hm; unfold w_total, w_deleted, w_unseen, w_size, live_in; rewrite Hm;
      rewrite andb_false_r; done.
  - intros acc. rewrite (wf_quota _ Hwf acc). f_equal; symmetry; apply Hagg; intros m Hm;
      unfold q_size, q_count; by rewrite Hm, andb_false_r.
Qed.

(** ** The loop over the bodies *)

Lemma referenced_blobs t ref b w : referenced t ref (with_blobs b w) = referenced t ref w.
Proof. done. Qed.

(** The loop touches bodies only, and of those none that is referenced. *)
Lemma reclaim_keeps refs seen n w res w' :
  reclaim undisturbed refs seen n w = (res, w') ->
  w' = with_blobs (g_blobs w') w /\
  forall t ref, referenced t ref w = true -> blob_Open t ref (g_blobs w') = blob_Open t ref (g_blobs w).
Proof.
  revert seen n w. induction refs as [|r refs IH]; intros seen n w; cbn [reclaim].
  - intros [= _ <-]. split; [by destruct w|done].
  - case_bool_decide; [apply IH|]. destruct (referenced r.1 r.2 w) eqn:Href; [apply IH|].
    cbv zeta. change (undisturbed r w) with w. destruct (blob_Delete r.1 r.2 (g_blobs w)) as [res1 b] eqn:Hdel.
    assert (Hb : forall t ref, referenced t ref w = true ->
      blob_Open t ref b = blob_Open t ref (g_blobs w)).
    { intros t ref Hr. eapply delete_other; [exact Hdel|]. intros [= -> ->]. congruence. }
    destruct res1 as [[]|e].
    + intros Hl. destruct (IH _ _ _ Hl) as [Hw Ho]. split; [rewrite Hw at 1; done|].
      intros t ref Hr. rewrite (Ho t ref); [by apply Hb|by rewrite referenced_blobs].
    + intros [= _ <-]. by split.
Qed.

(** Once the loop ends well, every freed body is referenced or gone. *)
Lemma reclaim_reclaims refs seen n w n' w' :
  reclaim undisturbed refs seen n w = (Ok n', w') ->
  (forall r, r ∈ seen -> referenced r.1 r.2 w = true \/ forall d, blob_Open r.1 r.2 (g_blobs w) <> Ok d) ->
  forall r, r ∈ refs \/ r ∈ seen -> referenced r.1 r.2 w = true \/ forall d, blob_Open r.1 r.2 (g_blobs w') <> Ok d.
Proof.
  revert seen n w. induction refs as [|r refs IH]; intros seen n w; cbn [reclaim].
  - intros [= _ <-] Hseen r [Hr|Hr]; [by apply elem_of_nil in Hr|auto].
  - case_bool_decide as Hin.
    + intros Hl Hseen x Hx. apply (IH _ _ _ Hl Hseen). destruct Hx as [Hx|Hx]; [|by right].
      apply elem_of_cons in Hx as [->|Hx]; [by right|by left].
    + assert (Hcons : forall x, x ∈ r :: refs \/ x ∈ seen -> x ∈ refs \/ x ∈ r :: seen).
      { intros x [Hx|Hx]; [|by right; right]. apply elem_of_cons in Hx as [->|Hx]; [by right; left|by left]. }
      destruct (referenced r.1 r.2 w) eqn:Href.
      * intros Hl Hseen x Hx. apply (IH _ _ _ Hl); [|by apply Hcons]. intros y Hy.
        apply elem_of_cons in Hy as [->|Hy]; [by left|auto].
      * cbv zeta. change (undisturbed r w) with w.
        destruct (blob_Delete r.1 r.2 (g_blobs w)) as [[[]|e] b] eqn:Hdel; [|done]. intros Hl Hseen x Hx.
        apply (IH _ _ _ Hl); [|by apply Hcons]. intros y Hy. change (g_blobs (with_blobs b w)) with b.
        rewrite referenced_blobs. destruct (decide (y = r)) as [->|Hne]; [right; intros d; exact (delete_gone _ _ _ _ d Hdel)|].
        apply elem_of_cons in Hy as [->|Hy]; [done|].
        destruct (Hseen y Hy) as [|Hy']; [by left|right]. intros d.
        rewrite (delete_other _ _ _ _ _ y.1 y.2 Hdel); [done|]. destruct y, r. simpl. congruence.
Qed.

(** ** A whole run *)

Lemma gc_inv limit locked w res w' :
  CollectGarbage undisturbed limit locked w = (res, w') ->
  let limit := if limit <=? 0 then 1000 else limit in
  let swept := (sweep limit locked w).2 in
  w' = with_blobs (g_blobs w') swept /\
  (forall t ref, referenced t ref swept = true -> blob_Open t ref (g_blobs w') = blob_Open t ref (g_blobs w)) /\
  (forall n removed, res = Ok (n, removed) -> n = Z.of_nat (length (sweep limit locked w).1) /\
     forall r, r ∈ (sweep limit locked w).1 ->
       referenced r.1 r.2 swept = true \/ forall d, blob_Open r.1 r.2 (g_blobs w') <> Ok d).
Proof.
  unfold CollectGarbage. cbv zeta. set (lim := if limit <=? 0 then 1000 else limit). intros Hgc.
  destruct (sweep lim locked w) as [freed w1] eqn:Hs. cbn [fst snd].
  assert (Hb : g_blobs w1 = g_blobs w) by (unfold sweep in Hs; by injection Hs as _ <-).
  destruct (reclaim undisturbed freed [] 0 w1) as [res1 w2] eqn:Hr.
  destruct (reclaim_keeps _ _ _ _ _ _ Hr) as [Hw Ho]. rewrite Hb in Ho.
  destruct res1 as [removed|e]; injection Hgc as <- <-; split_and!; try done.
  intros n rm [= <- <-]. split; [done|]. intros r Hin. eapply reclaim_reclaims; [exact Hr| |by left].
  intros x Hx. by apply elem_of_nil in Hx.
Qed.

Lemma referenced_message w k m t :
  db_messages (g_db w) !! k = Some m -> tenant_of (m_AccountID m) (g_db w) = Some t -> referenced t (m_BlobRef m) w = true.
Proof.
  intros Hk Ht. unfold referenced. apply orb_true_iff. left. apply existsb_exists. exists m. split.
  - apply list_elem_of_In, list_elem_of_fmap. exists (k, m). split; [done|by apply elem_of_map_to_list].
  - by rewrite bool_decide_eq_true_2, String.eqb_refl.
Qed.

Lemma referenced_queued w k r : q_rows (g_q w) !! k = Some r -> referenced (r_tenant_id r) (r_blob_ref r) w = true.
Proof.
  intros Hk. unfold referenced. apply orb_true_iff. right. apply existsb_exists. exists r. split.
  - apply list_elem_of_In, list_elem_of_fmap. exists (k, r). split; [done|by apply elem_of_map_to_list].
  - by rewrite Z.eqb_refl, String.eqb_refl.
Qed.

Lemma live_stays (batch : list Message) (d : DB) (acc e : Z) : has_live acc e d = true -> goes batch d acc e = false.
Proof. intros Hl. unfold goes. by rewrite Hl, andb_false_r. Qed.

Lemma keep_workflow_live {V} (batch : list Message) (d : DB) (acc e : Z) (t : gmap (Z * Z) V) :
  has_live acc e d = true -> keep_workflow batch d t !! (acc, e) = t !! (acc, e).
Proof.
  intros Hl. unfold keep_workflow. destruct (t !! (acc, e)) as [v|] eqn:E.
  - apply map_lookup_filter_Some. split; [done|]. simpl. by apply live_stays.
  - apply map_lookup_filter_None. by left.
Qed.

(** ** Theorems *)

(** Collection deletes expunged message rows only: every row that is not
    expunged is exactly as it was, no row appears or changes, mailboxes, quotas,
    logs and the queue are untouched, and the store stays consistent - counters
    and quota still count the live messages. *)
Theorem gc_rows limit locked w res w' :
  db_wf (g_db w) -> CollectGarbage undisturbed limit locked w = (res, w') ->
  (forall k m, db_messages (g_db w) !! k = Some m -> m_Expunged m = false -> db_messages (g_db w') !! k = Some m) /\
  (forall k m, db_messages (g_db w') !! k = Some m -> db_messages (g_db w) !! k = Some m) /\
  g_db w' = set_messages (db_messages (g_db w')) (g_db w) /\
  g_q w' = set_deliveries (q_deliveries (g_q w')) (g_q w) /\ db_wf (g_db w').
Proof.
  intros Hwf Hgc. destruct (gc_inv _ _ _ _ _ Hgc) as (Hw & _ & _). rewrite Hw. cbn [with_blobs g_db g_q].
  set (lim := if limit <=? 0 then 1000 else limit). split_and!.
  - intros k m Hk Hl. cbn. apply map_lookup_filter_Some. split; [done|]. by eapply live_not_doomed.
  - intros k m Hk. cbn in Hk. by apply map_lookup_filter_Some in Hk as [? _].
  - done.
  - done.
  - by apply sweep_wf.
Qed.

(** [C23] No dangling body: after a run with no concurrent writers, whether it
    ended well or in an error, every message row and every queue row whose body
    could be read can still read it. *)
Theorem gc_no_dangling limit locked w res w' x :
  CollectGarbage undisturbed limit locked w = (res, w') ->
  (forall k m t, db_messages (g_db w') !! k = Some m -> tenant_of (m_AccountID m) (g_db w') = Some t ->
     blob_Open t (m_BlobRef m) (g_blobs w) = Ok x -> blob_Open t (m_BlobRef m) (g_blobs w') = Ok x) /\
  (forall k r, q_rows (g_q w') !! k = Some r ->
     blob_Open (r_tenant_id r) (r_blob_ref r) (g_blobs w) = Ok x ->
     blob_Open (r_tenant_id r) (r_blob_ref r) (g_blobs w') = Ok x).
Proof.
  intros Hgc. destruct (gc_inv _ _ _ _ _ Hgc) as (Hw & Ho & _). split.
  - intros k m t Hk Ht Hx. rewrite Ho; [done|]. rewrite Hw in Hk, Ht. by eapply referenced_message.
  - intros k r Hk Hx. rewrite Ho; [done|]. rewrite Hw in Hk. by eapply referenced_queued.
Qed.

(** Nothing is left behind: after a run that succeeded, the rows of the
    batch are gone, the count of deleted rows is right, and the body of each is
    gone too unless a remaining message or queue row refers to it. *)
Theorem gc_reclaims limit locked w n removed w' m t :
  CollectGarbage undisturbed limit locked w = (Ok (n, removed), w') ->
  let limit := if limit <=? 0 then 1000 else limit in
  m ∈ doomed limit locked (g_db w) -> tenant_of (m_AccountID m) (g_db w) = Some t ->
  db_messages (g_db w') !! m_ID m = None /\ 0 <= n <= limit /\
  (referenced t (m_BlobRef m) w' = true \/ forall d, blob_Open t (m_BlobRef m) (g_blobs w') <> Ok d).
Proof.
  intros Hgc lim Hm Ht. assert (0 <= lim) by (unfold lim; destruct (limit <=? 0) eqn:E; b2p; lia). destruct (gc_inv _ _ _ _ _ Hgc) as (Hw & _ & Hok). fold lim in Hw, Hok.
  destruct (Hok n removed eq_refl) as [-> Hfreed]. split_and!.
  - rewrite Hw. cbn. apply map_lookup_filter_None. right. intros m' _. simpl. intros Hni. apply Hni.
    by apply list_elem_of_fmap_2.
  - lia.
  - unfold sweep. cbn [fst].
    pose proof (doomed_length lim locked (g_db w)) as Hl.
    assert (Hlen : forall (f : Message -> option (Z * string)) l, (length (omap f l) <= length l)%nat).
    { intros f l. induction l as [|y l IH]; [done|]. csimpl. destruct (f y); csimpl; lia. }
    specialize (Hlen (fun m => (fun row => (ar_tenant_id row, m_BlobRef m)) <$> db_accounts (g_db w) !! m_AccountID m)
      (doomed lim locked (g_db w))).
    lia.
  - rewrite Hw at 1. rewrite referenced_blobs. apply (Hfreed (t, m_BlobRef m)). unfold sweep. cbn [fst].
    apply list_elem_of_omap. exists m. split; [done|]. unfold tenant_of in Ht.
    destruct (db_accounts (g_db w) !! m_AccountID m); [|done]. injection Ht as <-. done.
Qed.

(** The workflow of a live email is untouched: while one message row of an
    email is not expunged - a sibling in another mailbox is enough - its send
    claim, its drafts and its delivery history stay as they are. *)
Theorem gc_keeps_workflow limit locked w res w' acc emailID :
  CollectGarbage undisturbed limit locked w = (res, w') -> has_live acc emailID (g_db w) = true ->
  w_claims (g_w w') !! (acc, emailID) = w_claims (g_w w) !! (acc, emailID) /\
  w_agent (g_w w') !! (acc, emailID) = w_agent (g_w w) !! (acc, emailID) /\
  w_policy (g_w w') !! (acc, emailID) = w_policy (g_w w) !! (acc, emailID) /\
  forall queueID d, q_deliveries (g_q w) !! (acc, queueID) = Some d -> d_message_id d = emailID ->
    q_deliveries (g_q w') !! (acc, queueID) = Some d.
Proof.
  intros Hgc Hl. destruct (gc_inv _ _ _ _ _ Hgc) as (Hw & _ & _). rewrite Hw. cbn.
  split_and!; [by apply keep_workflow_live..|]. intros queueID d Hd <-.
  apply map_lookup_filter_Some. split; [done|]. simpl. by apply live_stays.
Qed.
End Gc.

(** ** Alice's message, expunged and collected *)

Definition alice_inbox : Mailbox :=
  mkMailbox 1 1 0 "INBOX" 1 2 1 1 false no_special_use true [] (mkCounts 1 0 1 1 16).
Definition expunge_ops : list op := [ORemove alice_inbox [default incoming (db_messages demo_db1 !! 1)]].
Definition expunged_db : DB := db_after alice expunge_ops demo_db1 demo_blobs1.
Definition no_queue : QDB := mkQDB ∅ ∅ ∅ [] ∅ ∅ 1 1.
Definition expunged_world : World :=
  mkWorld expunged_db no_queue (mkWDB {[1]} ∅ ∅ ∅ ∅) {[(1, 1)]} {[(1, 1)]} demo_blobs1.

Definition collected : World := (CollectGarbage undisturbed 0 ∅ expunged_world).2.
Lemma collected_ok : CollectGarbage undisturbed 0 ∅ expunged_world = (Ok (1, 1), collected).
Proof.
  assert (E : (CollectGarbage undisturbed 0 ∅ expunged_world).1 = Ok (1, 1)) by (vm_compute; reflexivity).
  unfold collected. rewrite <- E. apply surjective_pairing.
Qed.

Definition the_body : string := m_BlobRef (default incoming (db_messages demo_db1 !! 1)).

Example collected_all :
  db_messages (g_db collected) = ∅ /\ g_fts collected = ∅ /\ g_refs collected = ∅ /\
  blob_Open 1 the_body demo_blobs1 = Ok "hello" /\ blob_Open 1 the_body (g_blobs collected) = Err ErrBlobNotFound.
Proof. split_and!; vm_compute; reflexivity. Qed.

(** The store the run starts from is well-formed: it is one commit after [demo_db1]. *)
Lemma expunge_runs :
  runs alice 7 expunge_ops (start demo_db1 demo_blobs1 4) (body_after alice expunge_ops demo_db1 demo_blobs1 4).
Proof.
  apply runs_of_pre. split; [|split; [vm_compute; reflexivity|exact I]]. split.
  - vm_compute. constructor; [apply not_elem_of_nil|constructor].
  - constructor; [|constructor]. split; [|vm_compute; reflexivity].
    split; [vm_compute; reflexivity|]. split; vm_compute; reflexivity.
Qed.

Lemma demo_db1_wf : db_wf demo_db1 /\ logs_wf demo_db1.
Proof.
  destruct (provisioned_wf _ demo_provisioned) as [W L].
  pose proof (ran_ok _ _ _ _ deliver_commits) as HTx.
  assert (Hroom : 0 + op_positions * Z.of_nat (length deliver_ops) <= max_int64) by (vm_compute; discriminate).
  split; [exact (commit_wf alice 7 deliver_ops demo_db no_files 0 _ _ _ _ _ W L eq_refl Hroom deliver_runs HTx)|].
  exact (proj1 (commit_others alice 7 deliver_ops demo_db no_files 0 _ _ _ _ L eq_refl Hroom HTx)).
Qed.

Lemma expunged_wf : db_wf expunged_db.
Proof.
  assert (Hc : commits alice expunge_ops demo_db1 demo_blobs1 = true) by (vm_compute; reflexivity).
  destruct demo_db1_wf as [W L].
  exact (commit_wf alice 7 expunge_ops demo_db1 demo_blobs1 4 _ _ _ _ _ W L ltac:(vm_compute; reflexivity)
    ltac:(vm_compute; discriminate) expunge_runs (ran_ok _ _ _ _ Hc)).
Qed.

Lemma gc_rows_witness : db_wf (g_db collected) /\ g_q collected = set_deliveries (q_deliveries (g_q collected)) no_queue.
Proof.
  destruct (gc_rows 0 ∅ expunged_world _ collected expunged_wf collected_ok) as (_ & _ & _ & Hq & Hwf).
  split; [exact Hwf|exact Hq].
Defined.

(** A live message shares the store with the collection of another: Bob's. *)
Definition two_users : World :=
  mkWorld (db_after alice expunge_ops demo_db2 (blobs_after bob bob_ops demo_db1 demo_blobs1)) no_queue
    (mkWDB {[1]} ∅ ∅ ∅ ∅) ∅ ∅ (blobs_after bob bob_ops demo_db1 demo_blobs1).

Lemma gc_no_dangling_witness :
  exists k m, db_messages (g_db (CollectGarbage undisturbed 0 ∅ two_users).2) !! k = Some m /\
    blob_Open 1 (m_BlobRef m) (g_blobs (CollectGarbage undisturbed 0 ∅ two_users).2) = Ok "hello".
Proof.
  destruct (CollectGarbage undisturbed 0 ∅ two_users) as [res w'] eqn:E.
  assert (Hm : is_Some (db_messages (g_db w') !! 2)).
  { change w' with (res, w').2. rewrite <- E. vm_compute. eauto. }
  destruct Hm as [m Hm]. exists 2, m. split; [exact Hm|].
  assert (Hb : db_messages (g_db w') !! 2 = db_messages (g_db two_users) !! 2).
  { change w' with (res, w').2. rewrite <- E. vm_compute. reflexivity. }
  rewrite Hb in Hm. pose proof Hm as Hm'. vm_compute in Hm'. injection Hm' as <-.
  refine (proj1 (gc_no_dangling 0 ∅ two_users res w' "hello" E) 2 _ 1 _ _ _).
  - rewrite Hb. exact Hm.
  - change w' with (res, w').2. rewrite <- E. vm_compute. reflexivity.
  - vm_compute. reflexivity.
Defined.

Lemma gc_reclaims_witness : db_messages (g_db collected) !! 1 = None /\ 0 <= 1 <= 1000.
Proof.
  destruct (doomed 1000 ∅ expunged_db) as [|m l] eqn:E; [vm_compute in E; discriminate|].
  assert (Hid : m_ID m = 1 /\ m_AccountID m = 1).
  { vm_compute in E. injection E as <- _. split; reflexivity. }
  destruct Hid as [Hid Hacc]. rewrite <- Hid at 1.
  destruct (gc_reclaims 0 ∅ expunged_world 1 1 collected m 1 collected_ok) as (H1 & H2 & _).
  - change (m ∈ doomed 1000 ∅ expunged_db). rewrite E. left.
  - rewrite Hacc. vm_compute. reflexivity.
  - split; [exact H1|exact H2].
Defined.

Lemma gc_keeps_workflow_witness :
  w_claims (g_w (CollectGarbage undisturbed 0 ∅ two_users).2) !! (2, 2) = w_claims (g_w two_users) !! (2, 2).
Proof.
  destruct (CollectGarbage undisturbed 0 ∅ two_users) as [res w'] eqn:E.
  refine (proj1 (gc_keeps_workflow 0 ∅ two_users res w' 2 2 E _)). vm_compute. reflexivity.
Defined.

(** ** A delivery between the check and the deletion *)

(** Alice receives the same body again after the check found it unreferenced:
    [Put] finds the body in the store, the transaction commits, and the
    collector deletes the body. *)
Definition redelivery (_ : Z * string) (w : World) : World :=
  mkWorld (db_after alice bob_ops (g_db w) (g_blobs w)) (g_q w) (g_w w) (g_fts w) (g_refs w)
    (blobs_after alice bob_ops (g_db w) (g_blobs w)).

Example gc_race :
  let w := (CollectGarbage redelivery 0 ∅ expunged_world).2 in
  commits alice bob_ops (g_db (sweep 1000 ∅ expunged_world).2) demo_blobs1 = true /\
  (fun m => (m_Expunged m, String.eqb (m_BlobRef m) the_body)) <$> (snd <$> map_to_list (db_messages (g_db w))) = [(false, true)] /\
  blob_Open 1 the_body (g_blobs w) = Err ErrBlobNotFound.
Proof. split_and!; vm_compute; reflexivity. Qed.
