(* ===== verification/Leader.v ===== *)
(** * Leader election and fencing (ops/ha/ha.go, ops/ha/coordinator.go)

    Nodes contend for a key through a session advisory lock, which is local to
    one PostgreSQL server, and a lease row, which is replicated.  A query can
    fail in transport; which ones do, and whether the connection is closed by
    then, is a parameter of each operation.  Statements and calls are steps. *)

From S2P Require Import Prelude.

Local Open Scope go_scope.

(** One PostgreSQL server: is it a replica or otherwise read-only, and who holds
    its advisory locks, by key.  Its backends die on their own. *)
Record Server := mkServer { sv_inRecovery : bool; sv_readOnly : bool; sv_locks : gmap Z Z }.

(** A row of [leader_lease]. *)
Record Lease := mkLease { le_holder : string; le_epoch : Z }.

Record Cluster := mkCluster { cl_servers : gmap Z Server; cl_lease : gmap Z Lease; cl_closed : gset Z }.

Definition set_servers v c := mkCluster v (cl_lease c) (cl_closed c).
Definition set_lease v c := mkCluster (cl_servers c) v (cl_closed c).

(** A pooled connection: a session on a server. *)
Record Conn := mkConn { cn_server : Z; cn_session : Z }.
Record Leader := mkLeader {
  ld_key : Z; ld_nodeID : string; ld_conn : option Conn; ld_pid : Z; ld_epoch : Z }.

Definition New (key : Z) (nodeID : string) : Leader := mkLeader key nodeID None 0 0.

(** [int32(l.key)] *)
Definition lock_key (key : Z) : Z := (key + 2 ^ 31) `mod` 2 ^ 32 - 2 ^ 31.

Definition set_locks (v : gmap Z Z) (s : Server) : Server := mkServer (sv_inRecovery s) (sv_readOnly s) v.

(** [pg_try_advisory_lock]: granted when free or already held by the session. *)
Definition try_lock (cn : Conn) (k : Z) (c : Cluster) : bool * Cluster :=
  match cl_servers c !! cn_server cn with
  | None => (false, c)
  | Some s =>
      match sv_locks s !! k with
      | Some x => (x =? cn_session cn, c)
      | None => (true, set_servers (<[cn_server cn := set_locks (<[k := cn_session cn]> (sv_locks s)) s]> (cl_servers c)) c)
      end
  end.

(** [pg_advisory_unlock] by the session. *)
Definition unlock (cn : Conn) (k : Z) (c : Cluster) : Cluster :=
  match cl_servers c !! cn_server cn with
  | None => c
  | Some s => if bool_decide (sv_locks s !! k = Some (cn_session cn))
              then set_servers (<[cn_server cn := set_locks (delete k (sv_locks s)) s]> (cl_servers c)) c else c
  end.

(** Does the session hold an advisory lock ([pg_locks])? *)
Definition holds_lock (cn : Conn) (c : Cluster) : bool :=
  match cl_servers c !! cn_server cn with
  | None => false
  | Some s => existsb (fun kx : Z * Z => kx.2 =? cn_session cn) (map_to_list (sv_locks s))
  end.

Definition writable (cn : Conn) (c : Cluster) : bool :=
  match cl_servers c !! cn_server cn with
  | None => false
  | Some s => negb (sv_inRecovery s) && negb (sv_readOnly s)
  end.
Definition in_recovery (cn : Conn) (c : Cluster) : bool :=
  match cl_servers c !! cn_server cn with None => true | Some s => sv_inRecovery s end.
Definition is_closed (cn : Conn) (c : Cluster) : bool := bool_decide (cn_session cn ∈ cl_closed c).

Definition errConn : err := ErrText "connection".
Definition errReadOnly : err := ErrText "cannot execute in a read-only transaction".

(** ** [Leader] *)

(** [release]; the unlock is taken to reach the server when the connection is not closed.  The code
    makes it a best effort: under a context that has already ended it is not sent, and the pooled
    connection keeps the lock - which then has no leader, but no second one either. *)
Definition release (l : Leader) (c : Cluster) : Leader * Cluster :=
  let c := match ld_conn l with
           | Some cn => if is_closed cn c then c else unlock cn (lock_key (ld_key l)) c
           | None => c
           end in
  (mkLeader (ld_key l) (ld_nodeID l) None 0 0, c).

(** [INSERT INTO leader_lease ... ON CONFLICT DO UPDATE ... RETURNING epoch] *)
Definition claim_lease (key : Z) (nodeID : string) (c : Cluster) : Z * Cluster :=
  let epoch := match cl_lease c !! key with Some r => le_epoch r + 1 | None => 1 end in
  (epoch, set_lease (<[key := mkLease nodeID epoch]> (cl_lease c)) c).

(** [TryAcquire]. [cn] is the connection the pool hands out; [fails i] says that
    the [i]th exchange with the server failed. *)
Definition TryAcquire (cn : Conn) (fails : nat -> bool) (l : Leader) (c : Cluster) : result bool * Leader * Cluster :=
  match ld_conn l with
  | Some _ => (Ok true, l, c)
  | None =>
      if fails 0%nat then (Err errConn, l, c)
      else if fails 1%nat then (Err errConn, l, c)
      else if in_recovery cn c then (Ok false, l, c)
      else if fails 2%nat then (Err errConn, l, c)
      else
        let '(ok, c) := try_lock cn (lock_key (ld_key l)) c in
        if negb ok then (Ok false, l, c)
        else if negb (writable cn c) then (Err errReadOnly, l, unlock cn (lock_key (ld_key l)) c)
        else if fails 3%nat then
          (Err errConn, l, unlock cn (lock_key (ld_key l))
             (if fails 4%nat then (claim_lease (ld_key l) (ld_nodeID l) c).2 else c))
        else
          let '(epoch, c) := claim_lease (ld_key l) (ld_nodeID l) c in
          (Ok true, mkLeader (ld_key l) (ld_nodeID l) (Some cn) (if fails 5%nat then 0 else cn_session cn) epoch, c)
  end.

Definition BackendPID (l : Leader) : Z := ld_pid l.
Definition Epoch (l : Leader) : Z := ld_epoch l.

(** [IsLeader] *)
Definition IsLeader (fails : bool) (l : Leader) (c : Cluster) : bool * Leader * Cluster :=
  match ld_conn l with
  | None => (false, l, c)
  | Some cn =>
      if fails || is_closed cn c then
        if is_closed cn c then (false, (release l c).1, (release l c).2) else (true, l, c)
      else if negb (holds_lock cn c) then (false, (release l c).1, (release l c).2)
      else (true, l, c)
  end.

(** Is the lease still ours at the epoch? *)
Definition lease_is (key : Z) (nodeID : string) (epoch : Z) (c : Cluster) : bool :=
  match cl_lease c !! key with
  | Some r => String.eqb (le_holder r) nodeID && (le_epoch r =? epoch)
  | None => false
  end.

(** [Heartbeat]: the UPDATE fails in transport or on a read-only backend. *)
Definition Heartbeat (fails : bool) (l : Leader) (c : Cluster) : bool * Leader * Cluster :=
  match ld_conn l with
  | None => (false, l, c)
  | Some cn =>
      if fails || is_closed cn c || negb (writable cn c) then
        if is_closed cn c then (false, (release l c).1, (release l c).2) else (true, l, c)
      else if lease_is (ld_key l) (ld_nodeID l) (ld_epoch l) c then (true, l, c)
      else (false, (release l c).1, (release l c).2)
  end.

(** [FenceExec] from the read of [l.epoch] on: one transaction on a connection
    of its own, which holds the lease row until it ends. [W] is the state [fn]
    writes; a rollback leaves it as it was; [fails 4] says that a commit whose
    reply was lost took effect. *)
Definition FenceExec {W} (key : Z) (nodeID : string) (epoch : Z) (cn : Conn) (fails : nat -> bool)
    (fn : W -> result W) (c : Cluster) (w : W) : result unit * W :=
  if epoch =? 0 then (Err ErrFenced, w)
  else if fails 0%nat then (Err errConn, w)
  else if fails 1%nat then (Err errConn, w)
  else if fails 2%nat || negb (writable cn c) then (Err errReadOnly, w)
  else if negb (lease_is key nodeID epoch c) then (Err ErrFenced, w)
  else match fn w with
       | Err e => (Err e, w)
       | Ok w' => if fails 3%nat then (Err errConn, if fails 4%nat then w' else w) else (Ok tt, w')
       end.

(** [Resign]: the DELETE is best-effort. *)
Definition Resign (fails : bool) (l : Leader) (c : Cluster) : Leader * Cluster :=
  match ld_conn l with
  | None => (l, c)
  | Some cn =>
      let c := if fails || is_closed cn c || negb (writable cn c) then c
               else if lease_is (ld_key l) (ld_nodeID l) (ld_epoch l) c
                    then set_lease (delete (ld_key l) (cl_lease c)) c else c in
      release l c
  end.

(** ** [Coordinator] *)

Inductive event := OnElected | OnLost | Tick.
#[export] Instance event_eq_dec : EqDecision event.
Proof. solve_decision. Defined.

Record Coordinator := mkCoordinator {
  co_leader : Leader; co_wasLeader : bool; co_tickRunning : bool; co_pending : bool; co_events : list event }.

Definition NewCoordinator (l : Leader) : Coordinator := mkCoordinator l false false false [].

Definition emit (e : event) (co : Coordinator) : Coordinator :=
  mkCoordinator (co_leader co) (co_wasLeader co) (co_tickRunning co) (co_pending co) (co_events co ++ [e]).
Definition with_leader (l : Leader) (was : bool) (co : Coordinator) : Coordinator :=
  mkCoordinator l was (co_tickRunning co) (co_pending co) (co_events co).

(** [launchTick]: the compare-and-swap; the goroutine it starts is [tick_start]. *)
Definition launchTick (co : Coordinator) : Coordinator :=
  if co_tickRunning co then co else mkCoordinator (co_leader co) (co_wasLeader co) true true (co_events co).

(** The goroutine: it runs [Tick] only if the cached view still says leader. *)
Definition tick_start (cancelled : bool) (co : Coordinator) : Coordinator :=
  if co_pending co then
    let co' := mkCoordinator (co_leader co) (co_wasLeader co) (co_tickRunning co) false (co_events co) in
    if negb (co_wasLeader co) || cancelled
    then mkCoordinator (co_leader co) (co_wasLeader co) false false (co_events co)
    else emit Tick co'
  else co.
Definition tick_end (co : Coordinator) : Coordinator :=
  if co_tickRunning co && negb (co_pending co)
  then mkCoordinator (co_leader co) (co_wasLeader co) false (co_pending co) (co_events co) else co.

(** What the environment does to the queries of one campaign. *)
Record Weather := mkWeather { wt_isLeader : bool; wt_heartbeat : bool; wt_acquire : nat -> bool; wt_conn : Conn }.

(** The second half of a campaign: acquire if not leading, publish, call back. *)
Definition campaign_publish (wt : Weather) (prev now : bool) (co : Coordinator) (c : Cluster) : Coordinator * Cluster :=
  let '(now, l, c) :=
    if now then (true, co_leader co, c)
    else match TryAcquire (wt_conn wt) (wt_acquire wt) (co_leader co) c with
         | (Ok true, l, c) => (true, l, c)
         | (_, l, c) => (false, l, c)
         end in
  let co := with_leader l now co in
  let co := if now && negb prev then emit OnElected co else if negb now && prev then emit OnLost co else co in
  (if now then launchTick co else co, c).

Definition campaign (wt : Weather) (co : Coordinator) (c : Cluster) : Coordinator * Cluster :=
  let prev := co_wasLeader co in
  if prev then
    match IsLeader (wt_isLeader wt) (co_leader co) c with
    | (false, l, c) => campaign_publish wt prev false (with_leader l (co_wasLeader co) co) c
    | (true, l, c) =>
        match Heartbeat (wt_heartbeat wt) l c with
        | (false, l, c) => (emit OnLost (with_leader l false co), c)
        | (true, l, c) => campaign_publish wt prev true (with_leader l (co_wasLeader co) co) c
        end
    end
  else campaign_publish wt prev false co c.

(** The deferred part of [Run], after the ticks in flight ended. *)
Definition shutdown (fails : bool) (co : Coordinator) (c : Cluster) : Coordinator * Cluster :=
  let co := if co_wasLeader co then emit OnLost (with_leader (co_leader co) false co) else co in
  let '(l, c) := Resign fails (co_leader co) c in
  (with_leader l (co_wasLeader co) co, c).
