(* ===== verification/LeaderSpec.v ===== *)
(** * One leader, and a fence against the ones before

    Over any steps of any nodes, backends dying and servers being demoted: at
    most one node leads on a server; a fenced write happens only under the
    tenure that claimed the lease last; a coordinator's callbacks alternate. *)

From S2P Require Import Prelude Leader.

Local Open Scope go_scope.

(** The nodes of a cluster; [y_last] is the last claim of each lease, by holder
    and epoch, which nothing keeps in the running system. *)
Record Sys := mkSys { y_cluster : Cluster; y_leaders : gmap Z Leader; y_last : gmap Z (string * Z) }.

(** A connection no leader holds, and alive. *)
Definition pooled (cn : Conn) (s : Sys) : Prop :=
  (cn_session cn ∉ cl_closed (y_cluster s)) /\
  forall j l cn', y_leaders s !! j = Some l -> ld_conn l = Some cn' -> cn_session cn' <> cn_session cn.

(** A backend dies: its locks are released. *)
Definition die (x : Z) (c : Cluster) : Cluster :=
  mkCluster ((fun sv => set_locks (filter (fun kx => kx.2 <> x) (sv_locks sv)) sv) <$> cl_servers c)
    (cl_lease c) ({[x]} ∪ cl_closed c).

(** A promotion or demotion changes what a server accepts. *)
Definition set_mode (sid : Z) (recovery readonly : bool) (c : Cluster) : Cluster :=
  set_servers (alter (fun sv => mkServer recovery readonly (sv_locks sv)) sid (cl_servers c)) c.

(** The claim a step made, if it made one. *)
Definition note_claim (key : Z) (c c' : Cluster) (last : gmap Z (string * Z)) : gmap Z (string * Z) :=
  match cl_lease c' !! key with
  | Some r => <[key := (le_holder r, le_epoch r)]> last
  | None => last
  end.

Inductive lstep : Sys -> Sys -> Prop :=
| ls_acquire i l cn fails res l' c' s : y_leaders s !! i = Some l -> pooled cn s ->
    TryAcquire cn fails l (y_cluster s) = (res, l', c') ->
    lstep s (mkSys c' (<[i := l']> (y_leaders s)) (note_claim (ld_key l) (y_cluster s) c' (y_last s)))
| ls_check i l fails b l' c' s : y_leaders s !! i = Some l -> IsLeader fails l (y_cluster s) = (b, l', c') ->
    lstep s (mkSys c' (<[i := l']> (y_leaders s)) (y_last s))
| ls_heartbeat i l fails b l' c' s : y_leaders s !! i = Some l -> Heartbeat fails l (y_cluster s) = (b, l', c') ->
    lstep s (mkSys c' (<[i := l']> (y_leaders s)) (y_last s))
| ls_resign i l fails l' c' s : y_leaders s !! i = Some l -> Resign fails l (y_cluster s) = (l', c') ->
    lstep s (mkSys c' (<[i := l']> (y_leaders s)) (y_last s))
| ls_die x s : lstep s (mkSys (die x (y_cluster s)) (y_leaders s) (y_last s))
| ls_mode sid r o s : lstep s (mkSys (set_mode sid r o (y_cluster s)) (y_leaders s) (y_last s)).

Inductive lreach : Sys -> Prop :=
| lr_start servers nodes : (forall i l, nodes !! i = Some l -> l = New (ld_key l) (ld_nodeID l)) ->
    (forall sid sv, servers !! sid = Some sv -> sv_locks sv = ∅) ->
    lreach (mkSys (mkCluster servers ∅ ∅) nodes ∅)
| lr_step s s' : lreach s -> lstep s s' -> lreach s'.

(** ** The invariant *)

Definition lock_of (cn : Conn) (k : Z) (c : Cluster) : option Z :=
  match cl_servers c !! cn_server cn with Some sv => sv_locks sv !! k | None => None end.

Record sys_wf (s : Sys) : Prop := {
  yw_lock i l cn : y_leaders s !! i = Some l -> ld_conn l = Some cn ->
    cn_session cn ∉ cl_closed (y_cluster s) -> lock_of cn (lock_key (ld_key l)) (y_cluster s) = Some (cn_session cn);
  yw_sessions i j li lj ci cj : y_leaders s !! i = Some li -> y_leaders s !! j = Some lj ->
    ld_conn li = Some ci -> ld_conn lj = Some cj -> cn_session ci = cn_session cj -> i = j;
  yw_lease key r : cl_lease (y_cluster s) !! key = Some r -> y_last s !! key = Some (le_holder r, le_epoch r) }.

(** What an operation of one node may do to the locks: others keep theirs. *)
Definition locks_kept (x : Z) (c c' : Cluster) : Prop :=
  cl_closed c' = cl_closed c /\
  forall cn k y, y <> x -> lock_of cn k c = Some y -> lock_of cn k c' = Some y.

Lemma locks_kept_refl x c : locks_kept x c c.
Proof. done. Qed.
Lemma locks_kept_trans x c1 c2 c3 : locks_kept x c1 c2 -> locks_kept x c2 c3 -> locks_kept x c1 c3.
Proof. intros [E1 H1] [E2 H2]. split; [congruence|]. intros cn k y Hne Hl. eauto. Qed.

Lemma unlock_kept cn k c : locks_kept (cn_session cn) c (unlock cn k c).
Proof.
  unfold unlock. destruct (cl_servers c !! cn_server cn) as [sv|] eqn:E; [|done].
  case_bool_decide as Hk; [|done]. split; [done|]. intros cn' k' y Hne. unfold lock_of. simpl.
  rewrite lookup_insert. case_decide as Hs; [|done]. rewrite <- Hs, E. simpl. intros Hl.
  rewrite lookup_delete_ne; [done|]. intros ->. congruence.
Qed.

Lemma try_lock_kept cn k c b c' : try_lock cn k c = (b, c') -> locks_kept (cn_session cn) c c' /\ cl_lease c' = cl_lease c /\
  (b = true -> lock_of cn k c' = Some (cn_session cn)).
Proof.
  unfold try_lock. destruct (cl_servers c !! cn_server cn) as [sv|] eqn:E; [|by intros [= <- <-]].
  destruct (sv_locks sv !! k) as [x|] eqn:Ex; intros [= <- <-].
  - split_and!; try done. unfold lock_of. rewrite E, Ex. by intros ->%Z.eqb_eq.
  - split_and!; [split; [done|]|done|]; unfold lock_of; simpl.
    + intros cn' k' y Hne. rewrite lookup_insert. case_decide as Hs; [|done].
      rewrite <- Hs, E. simpl. intros Hl. rewrite lookup_insert_ne; [done|]. intros ->. congruence.
    + intros _. rewrite lookup_insert_eq. simpl. by rewrite lookup_insert_eq.
Qed.

Lemma release_kept l c cn : ld_conn l = Some cn -> locks_kept (cn_session cn) c (release l c).2.
Proof. intros Hc. unfold release. rewrite Hc. simpl. destruct (is_closed cn c); [done|apply unlock_kept]. Qed.

Lemma release_lease l c : cl_lease (release l c).2 = cl_lease c.
Proof.
  unfold release. simpl. destruct (ld_conn l) as [cn|]; [|done]. destruct (is_closed cn c); [done|].
  unfold unlock. destruct (cl_servers c !! _); [|done]. by case_bool_decide.
Qed.

(** A leader after an operation: the leader it was, or one that let go. *)
Lemma sys_wf_update s i l l' c' :
  sys_wf s -> y_leaders s !! i = Some l -> ld_key l' = ld_key l ->
  (forall cn', ld_conn l' = Some cn' ->
     (ld_conn l = Some cn' \/ pooled cn' s) /\
     (cn_session cn' ∉ cl_closed c' -> lock_of cn' (lock_key (ld_key l)) c' = Some (cn_session cn'))) ->
  (exists x, locks_kept x (y_cluster s) c' /\ forall j lj cj, y_leaders s !! j = Some lj -> ld_conn lj = Some cj -> j <> i -> cn_session cj <> x) ->
  forall last, (forall key r, cl_lease c' !! key = Some r -> last !! key = Some (le_holder r, le_epoch r)) ->
  sys_wf (mkSys c' (<[i := l']> (y_leaders s)) last).
Proof.
  intros Hwf Hi Hkey Hl' (x & [Hcl Hlk] & Hx) last Hlast. split; cbn [y_cluster y_leaders y_last]; [| |done].
  - intros j lj cj. rewrite lookup_insert. case_decide as E; [subst|].
    + intros [= <-] Hc Ho. rewrite Hkey. by apply Hl'.
    + intros Hj Hc Ho. rewrite Hcl in Ho. apply Hlk; [by eapply Hx|]. by eapply (yw_lock _ Hwf).
  - intros j k lj lk cj ck. rewrite !lookup_insert. repeat case_decide; subst; try done.
    + intros [= <-] Hk Hcj Hck E. destruct (Hl' cj Hcj) as [[Ho|[_ Hp]] _].
      * by eapply (yw_sessions _ Hwf).
      * by destruct (Hp _ _ _ Hk Hck).
    + intros Hj [= <-] Hcj Hck E. destruct (Hl' ck Hck) as [[Ho|[_ Hp]] _].
      * by eapply (yw_sessions _ Hwf).
      * by destruct (Hp _ _ _ Hj Hcj).
    + by apply (yw_sessions _ Hwf).
Qed.

(** Operations that keep the connection or release it. *)
Lemma sys_wf_let_go s i l l' c' :
  sys_wf s -> y_leaders s !! i = Some l ->
  (l' = l /\ c' = y_cluster s \/
   exists cn, ld_conn l = Some cn /\ l' = (release l c').1 /\ locks_kept (cn_session cn) (y_cluster s) c') ->
  (forall key r, cl_lease c' !! key = Some r -> cl_lease (y_cluster s) !! key = Some r) ->
  sys_wf (mkSys c' (<[i := l']> (y_leaders s)) (y_last s)).
Proof.
  intros Hwf Hi Hor Hlease.
  assert (Hlast : forall key r, cl_lease c' !! key = Some r -> y_last s !! key = Some (le_holder r, le_epoch r)).
  { intros key r Hr. by apply (yw_lease _ Hwf), Hlease. }
  destruct Hor as [[-> ->]|(cn & Hc & -> & Hk)].
  - rewrite insert_id by done. split; [apply Hwf|apply Hwf|done].
  - apply (sys_wf_update s i l); try done. exists (cn_session cn). split; [done|].
    intros j lj cj Hj Hcj Hne E. apply Hne. by eapply (yw_sessions _ Hwf).
Qed.

Lemma sys_wf_check s i l fails b l' c' :
  sys_wf s -> y_leaders s !! i = Some l -> IsLeader fails l (y_cluster s) = (b, l', c') ->
  sys_wf (mkSys c' (<[i := l']> (y_leaders s)) (y_last s)).
Proof.
  intros Hwf Hi. unfold IsLeader. destruct (ld_conn l) as [cn|] eqn:Hc.
  - assert (Hrel : sys_wf (mkSys (release l (y_cluster s)).2 (<[i := (release l (y_cluster s)).1]> (y_leaders s)) (y_last s))).
    { eapply sys_wf_let_go; [done|done| |by rewrite release_lease]. right. exists cn. split_and!; [done|done|by apply release_kept]. }
    repeat case_match; intros [= <- <- <-]; try done; (eapply sys_wf_let_go; [done|done|by left|done]).
  - intros [= <- <- <-]. eapply sys_wf_let_go; [done|done|by left|done].
Qed.

Lemma sys_wf_heartbeat s i l fails b l' c' :
  sys_wf s -> y_leaders s !! i = Some l -> Heartbeat fails l (y_cluster s) = (b, l', c') ->
  sys_wf (mkSys c' (<[i := l']> (y_leaders s)) (y_last s)).
Proof.
  intros Hwf Hi. unfold Heartbeat. destruct (ld_conn l) as [cn|] eqn:Hc.
  - assert (Hrel : sys_wf (mkSys (release l (y_cluster s)).2 (<[i := (release l (y_cluster s)).1]> (y_leaders s)) (y_last s))).
    { eapply sys_wf_let_go; [done|done| |by rewrite release_lease]. right. exists cn. split_and!; [done|done|by apply release_kept]. }
    repeat case_match; intros [= <- <- <-]; try done; (eapply sys_wf_let_go; [done|done|by left|done]).
  - intros [= <- <- <-]. eapply sys_wf_let_go; [done|done|by left|done].
Qed.

Lemma sys_wf_resign s i l fails l' c' :
  sys_wf s -> y_leaders s !! i = Some l -> Resign fails l (y_cluster s) = (l', c') ->
  sys_wf (mkSys c' (<[i := l']> (y_leaders s)) (y_last s)).
Proof.
  intros Hwf Hi. unfold Resign. destruct (ld_conn l) as [cn|] eqn:Hc.
  - set (c1 := if fails || _ || _ then _ else _). intros Hr.
    assert (H1 : locks_kept (cn_session cn) (y_cluster s) c1 /\
      forall key r, cl_lease c1 !! key = Some r -> cl_lease (y_cluster s) !! key = Some r).
    { unfold c1. destruct (fails || _ || _); [done|]. destruct (lease_is _ _ _ _); [|done]. split; [done|].
      intros key r Hk. simpl in Hk. by apply lookup_delete_Some in Hk as [_ ?]. }
    destruct H1 as [Hk1 Hl1]. pose proof (release_kept l c1 cn Hc) as Hk2. pose proof (release_lease l c1) as Hl2.
    rewrite Hr in Hk2, Hl2. simpl in *. eapply sys_wf_let_go; [done|done| |].
    + right. exists cn. split_and!; [done| |by eapply locks_kept_trans].
      change l' with (l', c').1. by rewrite <- Hr.
    + intros key r Hk. apply Hl1. by rewrite <- Hl2.
  - intros [= <- <-]. eapply sys_wf_let_go; [done|done|by left|done].
Qed.

Lemma claim_lease_spec key nodeID c :
  let '(epoch, c') := claim_lease key nodeID c in
  cl_lease c' !! key = Some (mkLease nodeID epoch) /\ (forall k, k <> key -> cl_lease c' !! k = cl_lease c !! k) /\
  cl_servers c' = cl_servers c /\ cl_closed c' = cl_closed c /\
  epoch = match cl_lease c !! key with Some r => le_epoch r + 1 | None => 1 end.
Proof.
  unfold claim_lease. simpl. split_and!; try done; [by rewrite lookup_insert_eq|].
  intros k Hk. by rewrite lookup_insert_ne.
Qed.

(** What an attempt to acquire can do. *)
Lemma acquire_inv cn fails l c res l' c' :
  TryAcquire cn fails l c = (res, l', c') ->
  ld_key l' = ld_key l /\ locks_kept (cn_session cn) c c' /\
  (forall k, k <> ld_key l -> cl_lease c' !! k = cl_lease c !! k) /\
  (l' = l \/ ld_conn l' = Some cn /\ lock_of cn (lock_key (ld_key l)) c' = Some (cn_session cn)).
Proof.
  unfold TryAcquire. destruct (ld_conn l); [intros [= <- <- <-]; split_and!; auto; done|].
  destruct (fails 0%nat); [intros [= <- <- <-]; split_and!; auto; done|].
  destruct (fails 1%nat); [intros [= <- <- <-]; split_and!; auto; done|].
  destruct (in_recovery cn c); [intros [= <- <- <-]; split_and!; auto; done|].
  destruct (fails 2%nat); [intros [= <- <- <-]; split_and!; auto; done|].
  destruct (try_lock cn (lock_key (ld_key l)) c) as [ok c1] eqn:Hlk.
  destruct (try_lock_kept _ _ _ _ _ Hlk) as (Hk1 & Hl1 & Hok).
  assert (Hun : forall c2, locks_kept (cn_session cn) c1 c2 ->
    locks_kept (cn_session cn) c (unlock cn (lock_key (ld_key l)) c2)).
  { intros c2 H2. eapply locks_kept_trans; [exact Hk1|]. eapply locks_kept_trans; [exact H2|]. apply unlock_kept. }
  assert (Hul : forall c2, cl_lease (unlock cn (lock_key (ld_key l)) c2) = cl_lease c2).
  { intros c2. unfold unlock. destruct (cl_servers c2 !! _); [|done]. by case_bool_decide. }
  destruct ok; cbn [negb]; [|intros [= <- <- <-]; rewrite Hl1; split_and!; auto; done].
  destruct (negb (writable cn c1)).
  { intros [= <- <- <-]. split_and!; auto; [by apply Hun|]. intros k _. by rewrite Hul, Hl1. }
  pose proof (claim_lease_spec (ld_key l) (ld_nodeID l) c1) as Hcl.
  destruct (claim_lease (ld_key l) (ld_nodeID l) c1) as [epoch c2]. destruct Hcl as (_ & Hoth & Hsrv & Hclo & _).
  assert (Hk2 : locks_kept (cn_session cn) c1 c2) by (split; [done|]; intros cn' k y _; unfold lock_of; by rewrite Hsrv).
  destruct (fails 3%nat).
  - intros [= <- <- <-]. split_and!; auto.
    + apply Hun. by destruct (fails 4%nat).
    + intros k Hne. rewrite Hul, <- Hl1. destruct (fails 4%nat); [by apply Hoth|done].
  - intros [= <- <- <-]. cbn [ld_key ld_conn]. split_and!; auto; [by eapply locks_kept_trans| |].
    + intros k Hne. by rewrite Hoth, Hl1.
    + right. split; [done|]. unfold lock_of in *. rewrite Hsrv. by apply Hok.
Qed.

Lemma sys_wf_acquire s i l cn fails res l' c' :
  sys_wf s -> y_leaders s !! i = Some l -> pooled cn s -> TryAcquire cn fails l (y_cluster s) = (res, l', c') ->
  sys_wf (mkSys c' (<[i := l']> (y_leaders s)) (note_claim (ld_key l) (y_cluster s) c' (y_last s))).
Proof.
  intros Hwf Hi Hp Hacq. destruct (acquire_inv _ _ _ _ _ _ _ Hacq) as (Hkey & Hk & Hlease & Hor).
  assert (Hne : forall j lj cj, y_leaders s !! j = Some lj -> ld_conn lj = Some cj -> cn_session cj <> cn_session cn)
    by apply Hp.
  apply (sys_wf_update s i l); [done|done|done| | |].
  - intros cn' Hc. destruct Hor as [->|[Hc' Hlk]].
    + split; [by left|]. intros Ho. destruct Hk as [Hcl Hk]. rewrite Hcl in Ho. apply Hk; [by eapply Hne|].
      by eapply (yw_lock _ Hwf).
    + rewrite Hc' in Hc. injection Hc as <-. split; [by right|done].
  - exists (cn_session cn). split; [done|]. intros j lj cj Hj Hc _. by eapply Hne.
  - intros k r Hr. unfold note_claim. destruct (decide (k = ld_key l)) as [->|Hk'].
    + rewrite Hr. by rewrite lookup_insert_eq.
    + rewrite Hlease in Hr by done. apply (yw_lease _ Hwf) in Hr.
      destruct (cl_lease c' !! ld_key l); [by rewrite lookup_insert_ne|done].
Qed.

Lemma lock_of_die cn k x c : lock_of cn k c = Some (cn_session cn) -> cn_session cn <> x ->
  lock_of cn k (die x c) = Some (cn_session cn).
Proof.
  unfold lock_of, die. simpl. rewrite lookup_fmap. destruct (cl_servers c !! cn_server cn) as [sv|]; [|done].
  simpl. intros Hk Hne. by apply map_lookup_filter_Some.
Qed.

Lemma lock_of_mode cn k sid r o c : lock_of cn k (set_mode sid r o c) = lock_of cn k c.
Proof.
  unfold lock_of, set_mode. simpl. destruct (decide (cn_server cn = sid)) as [->|Hne].
  - rewrite lookup_alter_eq. by destruct (cl_servers c !! sid).
  - by rewrite lookup_alter_ne.
Qed.

Lemma sys_wf_step s s' : lstep s s' -> sys_wf s -> sys_wf s'.
Proof.
  intros [i l cn fails res l' c' s0 Hi Hp Ha|i l fails b l' c' s0 Hi Hc|i l fails b l' c' s0 Hi Hc|i l fails l' c' s0 Hi Hc|x s0|sid r o s0] Hwf.
  - by eapply sys_wf_acquire.
  - by eapply sys_wf_check.
  - by eapply sys_wf_heartbeat.
  - by eapply sys_wf_resign.
  - split; cbn [y_cluster y_leaders y_last]; [|apply Hwf|apply Hwf]. intros i l cn Hi Hc Ho.
    simpl in Ho. apply not_elem_of_union in Ho as [Hx Ho]. apply lock_of_die; [by eapply (yw_lock _ Hwf)|set_solver].
  - split; cbn [y_cluster y_leaders y_last]; [|apply Hwf|apply Hwf]. intros i l cn Hi Hc Ho.
    rewrite lock_of_mode. by eapply (yw_lock _ Hwf).
Qed.

Lemma lreach_wf s : lreach s -> sys_wf s.
Proof.
  induction 1 as [servers nodes Hn _|s s' _ IH Hs]; [|by eapply sys_wf_step].
  split; simpl.
  - intros i l cn Hi Hc. rewrite (Hn _ _ Hi) in Hc. done.
  - intros i j li lj ci cj Hi _ Hc. rewrite (Hn _ _ Hi) in Hc. done.
  - intros key r Hr. by rewrite lookup_empty in Hr.
Qed.

(** ** Theorems *)

(** [C14] One leader per server: over any steps of any nodes, any backends dying
    and any servers changing mode, two nodes that lead for the same key over live
    connections to one server are the same node. *)
Theorem one_leader s i j li lj ci cj :
  lreach s -> y_leaders s !! i = Some li -> y_leaders s !! j = Some lj ->
  ld_conn li = Some ci -> ld_conn lj = Some cj ->
  (cn_session ci ∉ cl_closed (y_cluster s)) -> (cn_session cj ∉ cl_closed (y_cluster s)) ->
  ld_key li = ld_key lj -> cn_server ci = cn_server cj -> i = j.
Proof.
  intros Hr Hi Hj Hci Hcj Hoi Hoj Hkey Hsrv. pose proof (lreach_wf _ Hr) as Hwf.
  pose proof (yw_lock _ Hwf _ _ _ Hi Hci Hoi) as H1. pose proof (yw_lock _ Hwf _ _ _ Hj Hcj Hoj) as H2.
  unfold lock_of in *. rewrite Hkey, Hsrv in H1. rewrite H1 in H2. injection H2 as E. by eapply (yw_sessions _ Hwf).
Qed.

(** The fence: a write commits under [FenceExec] only when the node and the
    epoch it held when the call began are those of the last claim of the lease by
    any node; otherwise what it would have written is rolled back. *)
Theorem fence_is_last_claim {W} s key nodeID epoch cn fails (fn : W -> result W) w w' :
  lreach s -> FenceExec key nodeID epoch cn fails fn (y_cluster s) w = (Ok tt, w') ->
  y_last s !! key = Some (nodeID, epoch) /\ fn w = Ok w'.
Proof.
  intros Hr. unfold FenceExec, lease_is. destruct (epoch =? 0); [done|]. destruct (fails 0%nat); [done|].
  destruct (fails 1%nat); [done|]. destruct (fails 2%nat || _); [done|].
  destruct (cl_lease (y_cluster s) !! key) as [r|] eqn:Hl; [|done].
  destruct (String.eqb_spec (le_holder r) nodeID) as [<-|]; [|done].
  destruct (Z.eqb_spec (le_epoch r) epoch) as [<-|]; [|done]. cbn [andb negb].
  destruct (fn w) as [w1|]; [|done]. destruct (fails 3%nat); [done|]. intros [= <-].
  split; [by apply (yw_lease _ (lreach_wf _ Hr))|done].
Qed.

(** A takeover fences the leader before: once any node has acquired the
    leadership - a fresh one, or another process of the same node - a write under
    the tenure before, however it was held up, fails and leaves no effect. *)
Theorem takeover_fences {W} key nodeID epoch cn fails l c l' c' cn' fails' (fn : W -> result W) w :
  lease_is key nodeID epoch c = true -> ld_key l = key -> ld_conn l = None ->
  TryAcquire cn fails l c = (Ok true, l', c') ->
  exists e, FenceExec key nodeID epoch cn' fails' fn c' w = (Err e, w).
Proof.
  intros Hlease Hkey Hc Hacq. assert (Hno : lease_is key nodeID epoch c' = false).
  { unfold TryAcquire in Hacq. rewrite Hc in Hacq. destruct (fails 0%nat); [done|]. destruct (fails 1%nat); [done|].
    destruct (in_recovery cn c); [done|]. destruct (fails 2%nat); [done|].
    destruct (try_lock cn _ c) as [ok c1] eqn:Hlk. destruct (try_lock_kept _ _ _ _ _ Hlk) as (_ & Hl1 & _).
    destruct ok; [|done]. cbn [negb] in Hacq. destruct (negb (writable cn c1)); [done|].
    pose proof (claim_lease_spec (ld_key l) (ld_nodeID l) c1) as Hcl.
    destruct (claim_lease (ld_key l) (ld_nodeID l) c1) as [ep c2]. destruct (fails 3%nat); [done|].
    injection Hacq as _ <-. destruct Hcl as (Hnew & _ & _ & _ & Hep). unfold lease_is in *.
    rewrite <- Hkey in *. rewrite Hnew. simpl. rewrite Hl1 in Hep.
    destruct (cl_lease c !! ld_key l) as [r|]; [|done]. b2p. destruct (Z.eqb_spec ep epoch); [lia|]. apply andb_false_r. }
  unfold FenceExec. destruct (epoch =? 0); [eauto|]. destruct (fails' 0%nat); [eauto|].
  destruct (fails' 1%nat); [eauto|]. destruct (fails' 2%nat || _); [eauto|]. rewrite Hno. eauto.
Qed.

(** Failover is immediate: when the lock of the key is free on a writable
    primary - its holder's backend died, or it resigned - the next attempt that
    meets no connection failure makes the node the leader, whatever the lease of
    the leader before says, with an epoch past it. *)
Theorem failover cn l c :
  ld_conn l = None -> writable cn c = true -> lock_of cn (lock_key (ld_key l)) c = None ->
  exists l' c', TryAcquire cn (fun _ => false) l c = (Ok true, l', c') /\ ld_conn l' = Some cn /\
    lock_of cn (lock_key (ld_key l)) c' = Some (cn_session cn) /\ lease_is (ld_key l) (ld_nodeID l) (ld_epoch l') c' = true /\
    forall r, cl_lease c !! ld_key l = Some r -> ld_epoch l' = le_epoch r + 1.
Proof.
  intros Hc Hw Hlk. unfold TryAcquire. rewrite Hc. unfold in_recovery, writable, lock_of, try_lock in *.
  destruct (cl_servers c !! cn_server cn) as [sv|] eqn:Hsv; [|done]. rewrite Hlk.
  destruct (sv_inRecovery sv) eqn:Hrec; [done|]. cbn [negb andb] in *. cbn [cl_servers set_servers].
  rewrite lookup_insert_eq. cbn [set_locks sv_inRecovery sv_readOnly]. rewrite Hrec, Hw. cbn [negb andb].
  set (c1 := set_servers _ c). pose proof (claim_lease_spec (ld_key l) (ld_nodeID l) c1) as Hcl.
  destruct (claim_lease (ld_key l) (ld_nodeID l) c1) as [ep c2]. destruct Hcl as (Hnew & _ & Hsrv & _ & Hep).
  eexists _, _. split; [done|]. cbn [ld_conn ld_epoch]. split; [done|]. split; [|split].
  - rewrite Hsrv. unfold c1. simpl. rewrite lookup_insert_eq. simpl. by rewrite lookup_insert_eq.
  - unfold lease_is. rewrite Hnew. simpl. by rewrite String.eqb_refl, Z.eqb_refl.
  - intros r Hr. unfold c1 in Hep. simpl in Hep. by rewrite Hr in Hep.
Qed.

(** ** The coordinator *)

(** A coordinator's life: campaigns, ticks starting and ending and a shutdown,
    against whatever the cluster is by then. *)
Inductive co_run : Coordinator -> Prop :=
| cr_new key nodeID : co_run (NewCoordinator (New key nodeID))
| cr_campaign wt co c : co_run co -> co_run (campaign wt co c).1
| cr_tick_start b co : co_run co -> co_run (tick_start b co)
| cr_tick_end co : co_run co -> co_run (tick_end co)
| cr_shutdown fails co c : co_run co -> co_run (shutdown fails co c).1.

(** Reading the events: [Some b] while they are as they should be, [b] being
    whether the node leads; electing a leader, losing or ticking without one, is
    not. *)
Definition on_event (st : option bool) (e : event) : option bool :=
  match st, e with
  | Some false, OnElected => Some true
  | Some true, OnLost => Some false
  | Some true, Tick => Some true
  | _, _ => None
  end.
Definition leading (evs : list event) : option bool := foldl on_event (Some false) evs.

Lemma leading_emit evs e : leading (evs ++ [e]) = on_event (leading evs) e.
Proof. unfold leading. by rewrite foldl_app. Qed.

Lemma launchTick_same co : co_events (launchTick co) = co_events co /\ co_wasLeader (launchTick co) = co_wasLeader co.
Proof. unfold launchTick. by destruct (co_tickRunning co). Qed.

Lemma publish_leading wt prev now co c :
  leading (co_events co) = Some prev ->
  leading (co_events (campaign_publish wt prev now co c).1) = Some (co_wasLeader (campaign_publish wt prev now co c).1).
Proof.
  intros Hl. unfold campaign_publish.
  destruct (if now then _ else _) as [[now' l'] c']. cbn [fst].
  destruct now', prev; cbn [negb andb]; rewrite ?(proj1 (launchTick_same _)), ?(proj2 (launchTick_same _));
    cbn [emit with_leader co_events co_wasLeader]; rewrite ?leading_emit, Hl; done.
Qed.

(** Callbacks follow leadership: over any campaigns, ticks and shutdown of a
    coordinator, whatever the cluster does, [OnElected] and [OnLost] alternate
    starting with [OnElected], every [Tick] starts between the two, and the
    cached view other goroutines read is that of the last callback. *)
Theorem callbacks_alternate co : co_run co -> leading (co_events co) = Some (co_wasLeader co).
Proof.
  induction 1 as [key nodeID|wt co c _ IH|b co _ IH|co _ IH|fails co c _ IH].
  - done.
  - unfold campaign. destruct (co_wasLeader co) eqn:Hwas; [|by apply publish_leading].
    destruct (IsLeader _ _ _) as [[[|] l] c1]; [|by apply publish_leading].
    destruct (Heartbeat _ _ _) as [[[|] l2] c2]; [by apply publish_leading|].
    cbn [fst emit with_leader co_events co_wasLeader]. by rewrite leading_emit, IH.
  - unfold tick_start. destruct (co_pending co); [|done]. destruct (co_wasLeader co) eqn:Hwas; cbn [negb orb].
    + destruct b; [simpl; by rewrite ?Hwas|]. cbn [emit co_events co_wasLeader]. by rewrite leading_emit, IH, ?Hwas.
    + simpl. by rewrite ?Hwas.
  - unfold tick_end. by destruct (co_tickRunning co && _).
  - unfold shutdown. destruct (co_wasLeader co) eqn:Hwas; destruct (Resign _ _ _) as [l c1];
      cbn [fst emit with_leader co_events co_wasLeader]; rewrite ?leading_emit, IH; by rewrite ?Hwas.
Qed.

(** A fenced leader steps down: when its heartbeat finds the lease taken over,
    the campaign calls [OnLost], gives up the connection and the lock, leaves the
    lease to its new owner, and does not campaign again in the same round. *)
Theorem fenced_steps_down wt co c cn :
  co_wasLeader co = true -> ld_conn (co_leader co) = Some cn -> is_closed cn c = false -> holds_lock cn c = true ->
  writable cn c = true -> wt_isLeader wt = false -> wt_heartbeat wt = false ->
  lease_is (ld_key (co_leader co)) (ld_nodeID (co_leader co)) (ld_epoch (co_leader co)) c = false ->
  let '(co', c') := campaign wt co c in
  co_wasLeader co' = false /\ ld_conn (co_leader co') = None /\ Epoch (co_leader co') = 0 /\
  co_events co' = co_events co ++ [OnLost] /\ cl_lease c' = cl_lease c /\
  lock_of cn (lock_key (ld_key (co_leader co))) c' <> Some (cn_session cn).
Proof.
  intros Hwas Hc Hcl Hh Hw H1 H2 Hl. unfold campaign. rewrite Hwas. unfold IsLeader. rewrite Hc, H1, Hcl, Hh. cbn [orb negb].
  unfold Heartbeat. rewrite Hc, H2, Hcl, Hw, Hl. cbn [orb negb fst snd emit with_leader co_wasLeader co_leader co_events].
  split_and!; try done; [by rewrite release_lease|]. unfold release. rewrite Hc, Hcl. simpl.
  unfold unlock, lock_of. destruct (cl_servers c !! cn_server cn) as [sv|] eqn:Hsv; [|by rewrite Hsv].
  case_bool_decide as Hk; simpl; [|by rewrite Hsv]. rewrite lookup_insert_eq. simpl. by rewrite lookup_delete_eq.
Qed.

(** ** Witnesses: two nodes, a crash and a takeover *)

Definition primary : Server := mkServer false false ∅.
Definition calm : nat -> bool := fun _ => false.
Definition c0 : Cluster := mkCluster {[1 := primary]} ∅ ∅.
Definition nodes0 : gmap Z Leader := <[1 := New 7 "a"]> (<[2 := New 7 "b"]> ∅).
Definition conn_a : Conn := mkConn 1 100.
Definition conn_b : Conn := mkConn 1 200.
Definition a1 := TryAcquire conn_a calm (New 7 "a") c0.
Definition s1 : Sys := mkSys a1.2 (<[1 := a1.1.2]> nodes0) (note_claim 7 c0 a1.2 ∅).
Definition c2 : Cluster := die 100 a1.2.
Definition b1 := TryAcquire conn_b calm (New 7 "b") c2.

Lemma s1_reach : lreach s1.
Proof.
  eapply (lr_step (mkSys c0 nodes0 ∅)).
  - apply lr_start.
    + intros i l. unfold nodes0. rewrite !lookup_insert, lookup_empty. repeat case_decide; by intros [= <-].
    + intros sid sv Hs. apply lookup_singleton_Some in Hs as [_ <-]. reflexivity.
  - refine (ls_acquire 1 (New 7 "a") conn_a calm a1.1.1 a1.1.2 a1.2 (mkSys c0 nodes0 ∅) eq_refl _ _); [|reflexivity].
    split; [apply not_elem_of_empty|]. intros j l cn' Hj Hc. simpl in Hj. unfold nodes0 in Hj.
    rewrite !lookup_insert, lookup_empty in Hj. repeat case_decide; simplify_eq; done.
Qed.

Lemma one_leader_witness : 1 = 1.
Proof.
  apply (one_leader s1 1 1 a1.1.2 a1.1.2 conn_a conn_a s1_reach); try reflexivity; apply not_elem_of_empty.
Defined.

Lemma fence_is_last_claim_witness : y_last s1 !! 7 = Some ("a"%string, 1).
Proof.
  exact (proj1 (fence_is_last_claim s1 7 "a" 1 (mkConn 1 300) calm (fun w : Z => Ok (w + 1)) 5 6 s1_reach eq_refl)).
Defined.

Lemma takeover_fences_witness :
  exists e, FenceExec 7 "a" 1 (mkConn 1 300) calm (fun w : Z => Ok (w + 1)) b1.2 5 = (Err e, 5).
Proof.
  exact (takeover_fences 7 "a" 1 conn_b calm (New 7 "b") c2 b1.1.2 b1.2 (mkConn 1 300) calm (fun w : Z => Ok (w + 1)) 5
    eq_refl eq_refl eq_refl eq_refl).
Defined.

Lemma failover_witness : exists l' c', TryAcquire conn_b calm (New 7 "b") c2 = (Ok true, l', c') /\ ld_epoch l' = 2.
Proof.
  destruct (failover conn_b (New 7 "b") c2 eq_refl eq_refl eq_refl) as (l' & c' & H1 & _ & _ & _ & H2).
  exists l', c'. split; [exact H1|]. exact (H2 (mkLease "a" 1) eq_refl).
Defined.

Definition fair : Weather := mkWeather false false calm conn_a.
Definition co1 : Coordinator := (campaign fair (NewCoordinator (New 7 "a")) c0).1.

Lemma callbacks_alternate_witness : leading [OnElected; Tick] = Some true.
Proof.
  exact (callbacks_alternate (tick_start false co1) (cr_tick_start false co1 (cr_campaign fair _ c0 (cr_new 7 "a")))).
Defined.

(** The lease was taken over on the promoted server while the lock is still held. *)
Definition taken_over : Cluster := set_lease {[7 := mkLease "b" 2]} a1.2.
Lemma fenced_steps_down_witness : co_events (campaign fair co1 taken_over).1 = [OnElected; OnLost].
Proof.
  pose proof (fenced_steps_down fair co1 taken_over conn_a eq_refl eq_refl eq_refl eq_refl eq_refl eq_refl eq_refl eq_refl) as H.
  destruct (campaign fair co1 taken_over) as [co' c']. destruct H as (_ & _ & _ & H & _). exact H.
Defined.

(** ** What the comments say otherwise *)

(** A heartbeat that fails because the backend became read-only, the connection
    still up, does not step down. *)
Example readonly_heartbeat_stays :
  let c := set_mode 1 true true a1.2 in
  (Heartbeat false a1.1.2 c).1.1 = true /\ (campaign fair co1 c).1 = co1.
Proof. split; vm_compute; reflexivity. Qed.

(** After a resignation the same node leads again under the same holder and
    epoch: a write held up since the tenure before passes the fence. *)
Example epoch_reused :
  let r := Resign false a1.1.2 a1.2 in
  let a2 := TryAcquire conn_a calm r.1 r.2 in
  ld_epoch a2.1.2 = ld_epoch a1.1.2 /\
  FenceExec 7 "a" (ld_epoch a1.1.2) (mkConn 1 300) calm (fun w : Z => Ok (w + 1)) a2.2 5 = (Ok tt, 6).
Proof. split; vm_compute; reflexivity. Qed.
